(* ===== verification/_CoqProject ===== *)
-Q . S2P
Prelude.v
Inventory.v
Planner.v
Decimals.v
Tracker.v
Clmm.v
UniswapFormula.v
ClmmTicks.v
ClmmCurve.v
ClmmPools.v
ClmmFused.v
CurveFacts.v
LineLog.v
ExecutionPlan.v
AdaptiveFee.v
FeeProjection.v
HydratedPools.v
TradeData.v
TradeJournal.v
Coordinator.v
CoordinatorRuns.v
Hedging.v
TradeDemo.v
PaperOpportunity.v
Mailbox.v
PaperDriver.v
OpportunityDemo.v
Depth.v
DepthFeed.v
DepthDemo.v
RuntimeState.v
Preflight.v
MarketViews.v
PreflightDemo.v
Pricing.v
OpportunitySearch.v
PreparedPools.v
SearchDemo.v
PlanBuild.v
Events.v
EventFacts.v
Mirror.v
MirrorFacts.v
EngineDex.v
EngineDexFacts.v
OrderPlan.v
OrderJournal.v
OrderJournalDemo.v
Journal.v
TextCodec.v
PlanDemo.v
EventsDemo.v
EngineDemo.v
Nonce.v
WalletDemo.v
RebalanceJournal.v
RebalanceFacts.v
RebalanceRuns.v
RebalanceDemo.v
Portfolio.v
PortfolioFacts.v
PortfolioDemo.v
CostAccounting.v
CostFacts.v
Sizing.v
SizingFacts.v
ShadowStrategy.v
StrategyRuntime.v
ShadowFacts.v
StrategyFacts.v
StrategyDemo.v
Admission.v
Abi.v
Calldata.v
CalldataFacts.v
Settlement.v
Executor.v
ExecutorSteps.v
ExecutorFacts.v
ExecutorDemo.v
