(* ===== verification/Prelude.v ===== *)
(** * poly_bot: a verification library

    poly_bot trades between a centralised exchange (Binance) and on-chain
    concentrated-liquidity pools and moves inventory between the two.  A
    strategy quotes local mirrors of the pools, reserves inventory for both
    legs, sends the on-chain leg through a nonce lane whose every step is
    written ahead to a journal, and a rebalancer plans transfers when one side
    runs low.  The library models the parts whose failure costs money silently:
    who may spend which balance, which nonce a transaction gets, what survives a
    crash, what a pool quote is, and when and how much to transfer.

    ** Files, in dependency order

    - [Prelude]: [result] for [anyhow::Result], the state monad [M] for methods
      on [&mut self] (the state is returned on the error path too), checked and
      saturating machine integers over [Z], byte strings, ordered iteration of
      [BTreeMap], the tactics [res_inv], [bool_prop], [checked_inv], [typed].
    - [Inventory] ([src/src/inventory.rs]): the single owner of balances and
      claims, [InventoryReservations].  [wf] ties the aggregated totals to the
      live reservations; [reachable] is the closure under whole method calls,
      which is what the mutex of [SharedInventoryReservations] gives.
    - [Planner] ([src/src/rebalance/planner.rs]): [plan_rebalance] and all it
      calls, as pure functions.
    - [Decimals], [Tracker] ([src/src/rebalance/tracker.rs], the capital records
      of [src/src/binance/capital.rs]): conversions of venue decimals to base
      units, the capital routes, and the per-token tracker that calls the
      planner.
    - [Clmm] ([src/src/dex/clmm.rs]): pool state, constructors, tick table, the
      Mint/Burn update and both swap loops.  The [uniswap_v3_math] crate is the
      class [UniswapV3Math]; [UniswapV3Laws] states what the code relies on.
    - [UniswapFormula]: the published swap formulas over [Z]; an instance of both
      classes, checked against a golden vector of the source's tests.
    - [ClmmTicks]: the raw tick rows and the Mint/Burn update.
    - [ClmmCurve]: prepared quote curves and their relation to the swap loops.
    - [ClmmPools]: lifetimes of pools; concrete pools.
    - [ClmmFused]: the curve builder that fuses the capacity pass and the curve
      pass, and how far its curve agrees with the swap loop.
    - [LineLog]: line files and their replay, shared by the three journals.
    - [ExecutionPlan] ([src/src/execution_plan.rs], the requests of
      [src/src/dex/execution.rs], the pool keys of [src/src/dex/pool_id.rs]): the
      on-chain leg a trade carries and the swap request it becomes.
    - [TradeData], [TradeJournal], [Coordinator] ([src/src/arbitrage.rs]): the
      durable trade record with its arithmetic, its snapshot journal, and the
      coordinator that decides the next commands.  [TradeCodec] is JSON and
      SHA-256; the clock and the fate of each write are arguments.
    - [CoordinatorRuns]: runs of coordinator calls with write faults and restarts
      ([coord_run]), with an induction principle ([run_invariant]) that covers
      memory and disk; [Hedging]: recovery quantities and progress;
      [TradeDemo]: a concrete trade.
    - [PaperOpportunity], [Mailbox], [PaperDriver] ([src/src/arbitrage.rs]): an
      opportunity and the intent built from it, the one-slot mailbox that hands
      opportunities to the trading task, and the task itself with simulated legs;
      [OpportunityDemo]: concrete opportunities and runs.
    - [Depth] ([src/src/binance/depth.rs]), [DepthFeed]
      ([src/src/market_data/binance.rs]): the local order book, its market quotes,
      and the reader that keeps it in sequence over connections; [DepthDemo].
    - [RuntimeState] ([src/src/state.rs], the snapshots of [src/src/balances.rs]):
      the engine's feeds, balances and phase.
    - [Preflight] ([src/src/arbitrage.rs]): the last check before dispatch and the
      choice of the exchange price; [MarketViews] ([src/src/engine.rs]): the engine
      feeding the runtime state and the preflight; [PreflightDemo].
    - [AdaptiveFee], [FeeProjection] ([src/src/dex/camelot_fee.rs]): the fee of
      Algebra pools, and the ring of timepoints it is projected from;
      [HydratedPools] ([src/src/dex/hydration.rs], the refresh of
      [src/src/dex/mirror.rs]): the pool records of the mirror.
    - [CurveFacts]: what the clients of a prepared curve rely on.  [Pricing]
      ([src/src/opportunity.rs]): the exact conversions of the search, with their
      128-bit fast paths; [OpportunitySearch]: the cached search for the best trade;
      [PreparedPools]: generations, the batch of rebuilds, the builder and the
      publication of curves, as a step relation over the mirror's pools, the
      engine, the waiting requests and the results in flight; [SearchDemo].
    - [PlanBuild] ([src/src/execution_plan.rs], the checks of
      [src/src/dex/execution.rs]): the on-chain plan of a selected trade; [PlanDemo].
    - [Events] ([src/src/dex/events.rs], the filters of [src/src/chain/logs.rs]):
      log filters and decoders of the five pool kinds; [EventFacts]: what a pool
      emits is observed and decoded; [EventsDemo].
    - [Mirror] ([src/src/dex/mirror.rs]): the pools with their positional
      frontiers and the canonical head; [MirrorFacts]: its frames and invariant.
      Keccak and text forms are the class [EvmText]; the iteration order of a
      [HashMap] is a parameter.
    - [EngineDex] ([src/src/engine.rs]): the handlers of chain events, receipt
      settlements and built pools; [EngineDexFacts]: the handlers composed with the
      builder, as runs of the protocol of [PreparedPools]; [EngineDemo].
    - [OrderPlan] ([src/src/binance/order_plan.rs], the requests of
      [src/src/binance/execution.rs], the filters of [src/src/binance/account.rs]):
      limit and market order plans.
    - [OrderJournal] ([src/src/binance/order_journal.rs], the results of
      [src/src/binance/ws_api.rs]): the journal of exchange orders;
      [OrderJournalDemo].
    - [RebalanceJournal] ([src/src/rebalance/executor.rs]): the journal of transfers
      between the exchange and a wallet, with every transition, reopen,
      reconciliation and risk query; the class [RebalanceCodec] is JSON, SHA-256 and
      the text of integers.  [RebalanceFacts]: the steps the program takes on what a
      replay rebuilds ([rebalance_step]); [RebalanceRuns]: calls, write faults and
      restarts as runs of those steps ([rebalance_run]); [RebalanceDemo].
    - [Portfolio] ([src/src/portfolio.rs], the policies of
      [src/src/domain/compiled.rs]): the asset catalogue, the audit, the capital
      allocator and the authority of a rebalance request; [PortfolioFacts];
      [PortfolioDemo].
    - [CostAccounting] ([src/src/execution_accounting.rs],
      [src/src/pretrade_cost.rs], the balance changes of [src/src/binance/ws_api.rs]):
      the deltas of a settled leg, gas in token A, and the histories behind the
      pre-trade cost; [CostFacts].
    - [Sizing], [ShadowStrategy], [StrategyRuntime]
      ([src/src/strategy_runtime.rs]): the schedulers of the sizing workers; a shadow
      strategy with its handlers and the exhaustive sizing; the dependency index and
      the decision owner over the interface [StrategyEvaluator].  [SizingFacts]: the
      scheduler refines a table; [ShadowFacts]: what sizing publishes;
      [StrategyFacts]: routing and the isolation of the primary; [StrategyDemo].
    - [Admission] ([src/src/admission.rs], [src/src/supervision.rs],
      [src/src/switchback.rs]): the execution envelope, the decision on a fault, the
      assignment of the switchback experiment, with their theorems.
    - [Journal] ([src/src/wallet/journal.rs]): the write-ahead journal.  The file
      is a list of bytes; an append takes the clock and a possible write fault
      that leaves a prefix of the record on disk.  JSON, SHA-256 and the text
      forms of addresses and hashes are the class [WireCodec] with its laws.
    - [TextCodec]: an instance of the codec.
    - [Nonce] ([src/src/wallet/nonce.rs]): process-wide nonce locks, the lane
      state machine on the pair of lane and journal, startup reconciliation and
      the reviewed recoveries.  RPC answers are arguments.
    - [WalletDemo]: concrete runs of journal and lane.
    - [Abi]: a reference for the Solidity ABI.  [Calldata]
      ([src/src/dex/calldata.rs], [src/src/wallet.rs]): calldata and the calls of the
      wallet; [CalldataFacts]: the builders against the reference.
    - [Settlement] ([src/src/dex/execution.rs], the receipts of
      [src/src/chain/rpc.rs]): the balance changes and pool logs of a receipt.
      [Executor] ([src/src/dex/execution.rs]): gas and fee policies, allowances, one
      call through journal, nonce lane, signature, broadcast and receipt, the swap
      around it, the worker's answers, and the start.  Answers of the endpoint, the
      clock, signatures and write faults are the record [Outside], indexed by a tick.
      [ExecutorSteps]: what steps of the executor keep; [ExecutorFacts]: what is sent,
      runs over requests, gates and restarts ([exec_run]); [ExecutorDemo].

    ** What the theorems show

    - Inventory: every reachable state is well formed and no method panics; a
      rejected call changes nothing; a reservation is admitted exactly when every
      claim fits, never over-commits and lowers availability by its claims; reserve
      then release is the identity; a settlement is held until every settlement
      location has reported a newer generation and then released exactly.
    - Planner and tracker: a plan is funded, on an admissible route within its
      withdrawal rules, conserves inventory and converges; the reference inventory
      is captured once; unit conversions round down and the withdrawal step is
      exact; the gcd loop terminates within its bound.
    - Pools: every pool a constructor and the mutators can produce is typed; the
      bitmap equals the tick map; the row search is exact; active liquidity is the
      net liquidity below the tick; a burn undoes a mint; the quote loops
      terminate; a prepared exact-input quote equals the loop; a prepared
      exact-output quote is a lower bound that is exact at curve boundaries, and
      [prepared_exact_output_understates] shows that it can be strictly lower; the
      fused curve equals the loop below its capacity and is a lower bound at it
      ([fused_capacity_understates]).
    - Trades: no command is authorized twice, whatever faults and restarts a run
      has; what was issued is on disk and is reconstructed unchanged; a settled
      trade is fully answered and its result is the recomputation; a recovery
      asks for exactly the gap of the primary legs, so that only commissions charged
      in token B remain; an answered trade without a recovery in flight acts, ends or
      waits for the deadline of its next recovery;
      the incremental indexes of the journal equal a recount.
    - Paper trading: an opportunity's identifiers pass the intent's validation; both
      loops of the task end; a trade that fills as simulated earns what was planned;
      the mailbox refines a queue of at most one opportunity and never lets a newer
      one displace a pending one.  [rejected_opportunity_ends_task] shows that an
      opportunity the coordinator refuses stops the task.
    - Exchange feed: for an exchange whose update frames carry what changed and whose
      snapshots list its best [DEPTH_SNAPSHOT_LIMIT] levels, whatever is lost, repeated
      or reordered on the way, an offered book shows nothing the exchange's book lacked at
      its update, and is equal to it at every price the connection's snapshot reached;
      market quotes are the cheapest fill of the book.
    - Preflight: what passes is live and still pays the threshold; the exchange price
      is never worse than the admitted one; a top the preflight calls fresh is the
      book the engine holds.
    - Adaptive fees: a validated configuration always yields a fee in its range,
      monotone in volatility and volume; the fixed Newton iterations give exact
      roots; accepted events keep the projection well formed; an envelope bounds
      tightly every fee of its horizon, and the next fee event as long as only empty
      heads come before it.
    - Opportunity search: the fast paths change nothing; each direction reports the
      trade of the published curves with the highest profit rate, then the largest, then
      of the earliest pool, with exact economics; whatever the
      interleaving of events, builds and late results, published curves are those
      of the present pool; a reported trade's minimum output is what the pool's own
      swap pays at least.
    - Plans: a built plan becomes a valid request on the trade's pool, and the
      journaled plan is the executed one.
    - Mirror and engine: what a hydrated pool emits passes the filters and decodes
      to itself; a decoded event is sound; a log is applied at most once, only to
      its pool and with the effect of its event; heads move along the chain; whatever the engine's handlers do is a
      run of the publication protocol, so the preflight checks against curves of the
      present pools.
    - Orders: a plan submits exactly the whole steps of its target within the
      filters; a journaled order is never forgotten or rewritten; a restart
      reproduces the journal.
    - Rebalancing: at most one transfer is active and a second is refused; a transfer
      never moves back, except a withdrawal rejected for ownership, twice at most;
      automatic reopens restore the exact progress within a budget; the journal
      survives restarts and torn writes.  Proposals conserve value and fit what is
      available; the audit accounts every balance; an authorized transfer is within
      its caps, and until it is completed, cancelled, failed or quarantined no request
      is authorized.
    - Cost accounting: a settled exchange leg books exactly what was executed, paid
      and charged, rounded down; gas is rounded up; a history answers with the latest
      sample of everything published.
    - Strategies: an event reaches exactly the strategies that declare its symbol;
      the primary behaves as if it ran alone whatever the shadows do, but for events of
      a symbol that an externally routed observer shares with it
      ([external_observer_blocks_primary]); the fair
      scheduler refines a table of latest snapshots, bounded, and overtakes no one
      for more than a round; what sizing publishes is current, meets the threshold
      and is as large as a bisection finds.  A fault is decided within its scope;
      each pair of switchback blocks runs both modes.
    - Journal: at most one live operation owns a nonce; a healthy journal reopens
      to itself; a torn append is never misread; history is never rewritten.
    - Nonce lanes: lane and journal agree along every history until a receipt is
      delivered to an unsigned reservation; a restart recovers
      exactly what was in flight; a granted nonce is durable and fresh; recovery
      unblocks only on evidence; the process-wide allocator never repeats a nonce.
      [receipt_drops_reservation] shows how such a delivery breaks the agreement.
    - Contract calls: a contract that decodes the call of a swap by the ABI reads
      exactly the request.
    - Executor: everything sent is journaled under an identifier of its own; of two
      transactions of one nonce, or of one request, one was definitively rejected,
      along every run with faults and restarts; a swap request sends its own call, within
      the gates of its venue and, where the call carries a deadline, when that had not
      passed as the request was taken up, or an approval; a failure before submission
      means that no swap transaction of the request can be mined (approvals are operations
      of their own); a reported outcome is the balance change of the receipt the endpoint
      gave for its transaction.

    ** Bounds

    Machine integers are [Z] with their width at each checked operation.  The swap
    loops carry fuel [swap_fuel], the number of ticks plus three: every iteration
    that continues moves the tick ([cross_inside]), so the fuel is never exhausted
    on a typed pool ([swap_loops_terminate]).  The gcd loop carries 513 units of
    fuel for 256-bit operands ([u256_gcd_correct]).  The paper
    task's loops carry six rounds for a new trade and four for a resumed one
    ([paper_loops_terminate]).  The bisection of the exhaustive sizing recurses on what
    remains of its 128 evaluations, as the code counts them.  An executor call looks at
    four attempts at most, and the fourth does not recurse.  Journal histories assume fewer
    than [2 ^ 64 - 1] records and 255 reopens of one transfer ([within_limits]), lane histories nonces below the last 64-bit one.

    ** Not modelled, and why

    Static error texts replace some formatted messages.  Network, file-system and
    timer effects are arguments of the definitions.  Timing measurements, log lines
    and telemetry payloads are left out where they are only output.  The rebalance
    runtime and the live execution task drive HTTP, WebSocket and RPC calls between
    the steps modelled here; signing is cryptography; configuration parsing,
    telemetry, readiness reports and task wiring carry no state that the modelled
    components share. *)
From Stdlib Require Import Ascii Lia.
From stdpp Require Import base gmap sets list strings numbers fin_maps sorting.

#[global] Open Scope Z_scope.

(** ** Fallible code

    [anyhow::Result<A>] is [result E A]: [Err] carries the error the code
    builds.  A component whose caller inspects a typed error has an error type
    of its own; elsewhere [E] is [string], the static text of the message. *)
Inductive result (E A : Type) : Type :=
| Ok (a : A)
| Err (e : E).
Arguments Ok {E A} a.
Arguments Err {E A} e.

#[global] Instance result_eq_dec `{EqDecision E, EqDecision A} : EqDecision (result E A).
Proof. solve_decision. Defined.

Definition rbind {E A B} (m : result E A) (k : A -> result E B) : result E B :=
  match m with Ok a => k a | Err e => Err e end.

Definition rmap {E A B} (f : A -> B) (m : result E A) : result E B :=
  match m with Ok a => Ok (f a) | Err e => Err e end.

(** [ensure!(b, e)]. *)
Definition ensure {E} (b : bool) (e : E) : result E unit :=
  if b then Ok tt else Err e.

(** [Option::context] / [Option::ok_or_else]. *)
Definition or_err {E A} (o : option A) (e : E) : result E A :=
  match o with Some a => Ok a | None => Err e end.

Definition is_ok {E A} (m : result E A) : bool :=
  match m with Ok _ => true | Err _ => false end.

(** ** Methods on [&mut self]

    A method is a state transformer that returns the state it leaves behind on
    both paths, so that a partial update before an early return stays visible. *)
Definition M (S E A : Type) : Type := S -> S * result E A.

Definition mret {S E A} (a : A) : M S E A := fun s => (s, Ok a).
Definition mfail {S E A} (e : E) : M S E A := fun s => (s, Err e).
Definition mget {S E} : M S E S := fun s => (s, Ok s).
Definition mput {S E} (s : S) : M S E unit := fun _ => (s, Ok tt).
Definition mlift {S E A} (r : result E A) : M S E A := fun s => (s, r).
Definition mbind' {S E A B} (m : M S E A) (k : A -> M S E B) : M S E B :=
  fun s => match m s with
           | (s', Ok a) => k a s'
           | (s', Err e) => (s', Err e)
           end.

Declare Scope rust_scope.
Delimit Scope rust_scope with rust.

Notation "'let?' x := m 'in' k" := (rbind m (fun x => k))
  (at level 200, x name, m at level 99, k at level 200, right associativity) : rust_scope.
Notation "'let?' ' p := m 'in' k" := (rbind m (fun p => k))
  (at level 200, p strict pattern, m at level 99, k at level 200, right associativity) : rust_scope.
Notation "'ensure!' b 'else' e ;; k" := (rbind (ensure b e) (fun _ => k))
  (at level 200, b at level 99, e at level 99, k at level 200, right associativity) : rust_scope.
Notation "'do' x <- m ;; k" := (mbind' m (fun x => k))
  (at level 200, x name, m at level 99, k at level 200, right associativity) : rust_scope.
Notation "'do!' m ;; k" := (mbind' m (fun _ => k))
  (at level 200, m at level 99, k at level 200, right associativity) : rust_scope.
#[global] Open Scope rust_scope.

Lemma rbind_Ok {E A B} (m : result E A) (k : A -> result E B) b :
  rbind m k = Ok b <-> exists a, m = Ok a /\ k a = Ok b.
Proof. destruct m; simpl; naive_solver. Qed.

Lemma rmap_Ok {E A B} (f : A -> B) (m : result E A) b :
  rmap f m = Ok b <-> exists a, m = Ok a /\ b = f a.
Proof. destruct m; simpl; naive_solver. Qed.

Lemma ensure_Ok {E} b (e : E) u : ensure b e = Ok u <-> b = true.
Proof. destruct b, u; simpl; naive_solver. Qed.

Lemma or_err_Ok {E A} (o : option A) (e : E) a : or_err o e = Ok a <-> o = Some a.
Proof. destruct o; simpl; naive_solver. Qed.

Lemma ensure_true {E} (e : E) : ensure true e = Ok tt.
Proof. reflexivity. Qed.

(** Invert every [= Ok _] of the context down to the guards and lookups it
    passed. *)
(** A step that returns: its first part returned. *)
Lemma mbind_Ok {S E A B} (m : M S E A) (k : A -> M S E B) s s' b :
  mbind' m k s = (s', Ok b) -> exists s1 a, m s = (s1, Ok a) /\ k a s1 = (s', Ok b).
Proof. unfold mbind'. destruct (m s) as [s1 [a|e]]; [eauto|done]. Qed.

Ltac res_inv :=
  repeat match goal with
    | H : rbind _ _ = Ok _ |- _ =>
        apply rbind_Ok in H; let x := fresh "x" in let H1 := fresh "Hok" in
        destruct H as (x & H1 & H); cbv beta in H
    | H : rmap _ _ = Ok _ |- _ =>
        apply rmap_Ok in H; let x := fresh "x" in let H1 := fresh "Hok" in
        destruct H as (x & H1 & H); cbv beta in H
    | H : ensure _ _ = Ok _ |- _ => apply ensure_Ok in H
    | H : or_err _ _ = Ok _ |- _ => apply or_err_Ok in H
    | H : Ok _ = Ok _ |- _ => injection H as H; try subst
    | H : Err _ = Ok _ |- _ => discriminate H
    end.

(** Turn boolean guards of the code into propositions. *)
Ltac bool_prop :=
  repeat match goal with
    | H : (_ && _) = true |- _ => apply andb_true_iff in H; destruct H
    | H : (_ && _) = false |- _ => apply andb_false_iff in H
    | H : (_ || _) = true |- _ => apply orb_true_iff in H
    | H : (_ || _) = false |- _ => apply orb_false_iff in H; destruct H
    | H : negb _ = true |- _ => apply negb_true_iff in H
    | H : negb _ = false |- _ => apply negb_false_iff in H
    | H : bool_decide _ = true |- _ => apply bool_decide_eq_true in H
    | H : bool_decide _ = false |- _ => apply bool_decide_eq_false in H
    | H : (_ <? _) = true |- _ => apply Z.ltb_lt in H
    | H : (_ <? _) = false |- _ => apply Z.ltb_ge in H
    | H : (_ <=? _) = true |- _ => apply Z.leb_le in H
    | H : (_ <=? _) = false |- _ => apply Z.leb_gt in H
    | H : (_ =? _) = true |- _ => apply Z.eqb_eq in H
    | H : (_ =? _) = false |- _ => apply Z.eqb_neq in H
    end.

(** ** Fixed-width unsigned integers

    A [U256], [u128], [u64], ... is a [Z] in [0, 2^w); the checked operations
    return [None] where the Rust ones do. *)
Definition uint (w x : Z) : Prop := 0 <= x < 2 ^ w.

#[global] Instance uint_dec w x : Decision (uint w x).
Proof. unfold uint. apply _. Defined.

Abbreviation u256 := (uint 256).
Abbreviation u128 := (uint 128).
Abbreviation u64 := (uint 64).
Abbreviation u32 := (uint 32).

Definition U256_MAX : Z := 2 ^ 256 - 1.
Definition U128_MAX : Z := 2 ^ 128 - 1.
Definition U64_MAX : Z := 2 ^ 64 - 1.

Definition checked_add (w a b : Z) : option Z :=
  if a + b <? 2 ^ w then Some (a + b) else None.
Definition checked_sub (a b : Z) : option Z :=
  if b <=? a then Some (a - b) else None.
Definition checked_mul (w a b : Z) : option Z :=
  if a * b <? 2 ^ w then Some (a * b) else None.
Definition saturating_add (w a b : Z) : Z := Z.min (a + b) (2 ^ w - 1).
Definition saturating_sub (a b : Z) : Z := Z.max (a - b) 0.

Lemma checked_add_Some w a b c :
  checked_add w a b = Some c <-> c = a + b /\ a + b < 2 ^ w.
Proof. unfold checked_add. destruct (Z.ltb_spec (a + b) (2 ^ w)); naive_solver lia. Qed.

Lemma checked_add_None w a b : checked_add w a b = None <-> 2 ^ w <= a + b.
Proof. unfold checked_add. destruct (Z.ltb_spec (a + b) (2 ^ w)); naive_solver lia. Qed.

Lemma checked_sub_Some a b c : checked_sub a b = Some c <-> c = a - b /\ b <= a.
Proof. unfold checked_sub. destruct (Z.leb_spec b a); naive_solver lia. Qed.

Lemma checked_sub_None a b : checked_sub a b = None <-> a < b.
Proof. unfold checked_sub. destruct (Z.leb_spec b a); naive_solver lia. Qed.

Lemma checked_mul_Some w a b c :
  checked_mul w a b = Some c <-> c = a * b /\ a * b < 2 ^ w.
Proof. unfold checked_mul. destruct (Z.ltb_spec (a * b) (2 ^ w)); naive_solver lia. Qed.

Lemma checked_mul_None w a b : checked_mul w a b = None <-> 2 ^ w <= a * b.
Proof. unfold checked_mul. destruct (Z.ltb_spec (a * b) (2 ^ w)); naive_solver lia. Qed.

(** Replace every checked operation of the context by its arithmetic meaning. *)
Ltac checked_inv :=
  repeat match goal with
    | H : checked_add _ _ _ = Some _ |- _ => apply checked_add_Some in H as [? ?]
    | H : checked_sub _ _ = Some _ |- _ => apply checked_sub_Some in H as [? ?]
    | H : checked_mul _ _ _ = Some _ |- _ => apply checked_mul_Some in H as [? ?]
    | H : checked_add _ _ _ = None |- _ => apply checked_add_None in H
    | H : checked_sub _ _ = None |- _ => apply checked_sub_None in H
    | H : checked_mul _ _ _ = None |- _ => apply checked_mul_None in H
    end.

(** ** Signed 128-bit integers

    An [i128] is a [Z] in [[-2^127, 2^127)].  The release profile has no
    overflow checks, so unary minus wraps. *)
Definition I128_MIN : Z := - 2 ^ 127.
Definition I128_MAX : Z := 2 ^ 127 - 1.
Definition i128 (x : Z) : Prop := I128_MIN <= x <= I128_MAX.
#[global] Instance i128_dec x : Decision (i128 x).
Proof. unfold i128. apply _. Defined.

Definition sat_i128 (x : Z) : Z := Z.max I128_MIN (Z.min x I128_MAX).
Definition i128_saturating_add (a b : Z) : Z := sat_i128 (a + b).
Definition i128_saturating_sub (a b : Z) : Z := sat_i128 (a - b).
Definition i128_saturating_neg (a : Z) : Z := sat_i128 (- a).
Definition i128_neg (a : Z) : Z := if a =? I128_MIN then I128_MIN else - a.
Definition i128_checked (x : Z) : option Z :=
  if (I128_MIN <=? x) && (x <=? I128_MAX) then Some x else None.
Definition i128_checked_add (a b : Z) : option Z := i128_checked (a + b).

Lemma sat_i128_id x : i128 x -> sat_i128 x = x.
Proof. unfold i128, sat_i128. lia. Qed.
Lemma sat_i128_range x : i128 (sat_i128 x).
Proof. unfold i128, sat_i128, I128_MIN, I128_MAX. lia. Qed.
Lemma i128_neg_id x : i128 x -> x <> I128_MIN -> i128_neg x = - x.
Proof. intros _ Hx. unfold i128_neg. by rewrite (proj2 (Z.eqb_neq _ _) Hx). Qed.
Lemma i128_checked_Some x y : i128_checked x = Some y <-> y = x /\ i128 x.
Proof.
  unfold i128_checked, i128. destruct ((I128_MIN <=? x) && (x <=? I128_MAX)) eqn:E; bool_prop;
    [naive_solver|]. split; [done|]. destruct E; bool_prop; lia.
Qed.

(** ** Rewriting and resolution hints *)
Create HintDb rust discriminated.
#[export] Hint Rewrite @ensure_true : rust.
#[export] Hint Resolve Z.lt_le_incl : rust.

(** ** Byte strings

    A Rust [&str] is its bytes; [String.string] is a list of 8-bit
    characters, so [String.length] is [str::len]. *)
Definition byte_in (lo hi : N) (c : Ascii.ascii) : bool :=
  (lo <=? Ascii.N_of_ascii c)%N && (Ascii.N_of_ascii c <=? hi)%N.
Definition is_ascii_digit : Ascii.ascii -> bool := byte_in 48 57.
Definition is_ascii_uppercase : Ascii.ascii -> bool := byte_in 65 90.
Definition is_ascii_lowercase : Ascii.ascii -> bool := byte_in 97 122.
Definition is_ascii_alphanumeric (c : Ascii.ascii) : bool :=
  is_ascii_digit c || is_ascii_uppercase c || is_ascii_lowercase c.

Fixpoint bytes_all (p : Ascii.ascii -> bool) (s : string) : bool :=
  match s with
  | EmptyString => true
  | String c s' => p c && bytes_all p s'
  end.

Definition is_ascii_hexdigit (c : Ascii.ascii) : bool :=
  is_ascii_digit c || byte_in 65 70 c || byte_in 97 102 c.

(** The UTF-8 bytes of a text. *)
Definition string_bytes (s : string) : list Z :=
  map (fun c => Z.of_N (Ascii.N_of_ascii c)) (String.list_ascii_of_string s).

(** [str::starts_with] and [str::ends_with]. *)
Definition starts_with (s prefix : string) : bool := String.prefix prefix s.
Definition ends_with (s suffix : string) : bool :=
  (String.length suffix <=? String.length s)%nat
  && bool_decide (String.substring (String.length s - String.length suffix) (String.length suffix) s
                  = suffix).

Definition str_len (s : string) : Z := Z.of_nat (String.length s).
Definition str_is_empty (s : string) : bool := bool_decide (s = ""%string).

Lemma length_append a b : String.length (a +:+ b) = (String.length a + String.length b)%nat.
Proof. induction a as [|c a IH]; [done|]. simpl. by rewrite IH. Qed.
Lemma append_assoc (a b c : string) : (a +:+ (b +:+ c) = (a +:+ b) +:+ c)%string.
Proof. induction a as [|x a IH]; [done|]. exact (f_equal (String x) IH). Qed.

Lemma str_is_empty_false s : str_is_empty s = false <-> s <> ""%string.
Proof. unfold str_is_empty. by rewrite bool_decide_eq_false. Qed.

(** Discharge the machine-type side conditions of a closed argument. *)
Ltac typed :=
  repeat (simpl; first [apply Forall_nil_2 | apply Forall_cons_2 | split | exact I]);
  simpl; unfold uint; try lia; try done.

Lemma pair_result {A B} (p : A * B) (r : B) : p.2 = r -> p = (p.1, r).
Proof. destruct p. by intros <-. Qed.

(** [str::trim().is_empty()]: every character is Unicode white space; the
    tests below are the UTF-8 encodings of the White_Space characters. *)
Definition byte_is (n : N) (c : ascii) : bool := (N_of_ascii c =? n)%N.
Definition ws1 (a : ascii) : bool := byte_in 9 13 a || byte_is 32 a.
Definition ws2 (a b : ascii) : bool := byte_is 194 a && (byte_is 133 b || byte_is 160 b).
Definition ws3 (a b c : ascii) : bool :=
  (byte_is 225 a && byte_is 154 b && byte_is 128 c)
  || (byte_is 226 a && byte_is 128 b
      && (byte_in 128 138 c || byte_is 168 c || byte_is 169 c || byte_is 175 c))
  || (byte_is 226 a && byte_is 129 b && byte_is 159 c)
  || (byte_is 227 a && byte_is 128 b && byte_is 128 c).

Fixpoint trim_is_empty (s : string) : bool :=
  match s with
  | EmptyString => true
  | String a s1 =>
      if ws1 a then trim_is_empty s1 else
      match s1 with
      | EmptyString => false
      | String b s2 =>
          if ws2 a b then trim_is_empty s2 else
          match s2 with
          | EmptyString => false
          | String c s3 => if ws3 a b c then trim_is_empty s3 else false
          end
      end
  end.

(** ** [BTreeMap<String, A>] in iteration order: by key, bytewise. *)
Definition key_le {A} (a b : string * A) : Prop := String.le a.1 b.1.
#[global] Instance key_le_dec {A} : RelDecision (@key_le A).
Proof. intros a b. unfold key_le. apply _. Defined.

Definition btree_entries {A} (m : gmap string A) : list (string * A) :=
  merge_sort key_le (map_to_list m).
Definition btree_values {A} (m : gmap string A) : list A := (btree_entries m).*2.

Lemma elem_of_btree_entries {A} (m : gmap string A) k x :
  (k, x) ∈ btree_entries m <-> m !! k = Some x.
Proof. unfold btree_entries. rewrite merge_sort_Permutation. apply elem_of_map_to_list. Qed.

Lemma elem_of_btree_values {A} (m : gmap string A) x :
  x ∈ btree_values m <-> exists k, m !! k = Some x.
Proof.
  unfold btree_values. rewrite list_elem_of_fmap. split.
  - intros ([k y] & -> & Hk). exists k. by apply elem_of_btree_entries.
  - intros [k Hk]. exists (k, x). by rewrite elem_of_btree_entries.
Qed.

Lemma btree_entries_keys_nodup {A} (m : gmap string A) : NoDup (btree_entries m).*1.
Proof. unfold btree_entries. rewrite merge_sort_Permutation. apply NoDup_fst_map_to_list. Qed.

(** The values of a map whose keys are a function of them. *)
Lemma btree_values_nodup {A} (key : A -> string) (m : gmap string A) :
  (forall k x, m !! k = Some x -> key x = k) -> NoDup (btree_values m).
Proof.
  intros Hk. apply (NoDup_fmap_1 key). unfold btree_values. rewrite <- list_fmap_compose.
  rewrite (list_fmap_ext _ fst); [apply btree_entries_keys_nodup|].
  intros n [k x] Hn. simpl. apply Hk, elem_of_btree_entries. by eapply list_elem_of_lookup_2.
Qed.

Lemma singleton_list {A} (l : list A) x : NoDup l -> x ∈ l -> (forall y, y ∈ l -> y = x) -> l = [x].
Proof.
  intros Hnd Hx Hall. destruct l as [|a l]; [by apply not_elem_of_nil in Hx|].
  rewrite (Hall a) in * by (by left). apply NoDup_cons in Hnd as [Hn _].
  destruct l as [|b l]; [done|]. exfalso. apply Hn.
  rewrite <- (Hall b) by (right; left). by left.
Qed.

(** ** Counting the values of a map *)
Definition count_list {A} (f : A -> bool) (l : list A) : nat :=
  length (filter (fun x => f x = true) l).
Definition count_map {A} (f : A -> bool) (m : gmap string A) : nat := count_list f (btree_values m).

Definition bit (b : bool) : nat := if b then 1%nat else 0%nat.

Lemma count_list_cons {A} (f : A -> bool) x l : count_list f (x :: l) = (bit (f x) + count_list f l)%nat.
Proof.
  unfold count_list. destruct (f x) eqn:E; [rewrite filter_cons_True by done|rewrite filter_cons_False by congruence];
    done.
Qed.

Lemma count_list_le {A} (f : A -> bool) l : (count_list f l <= length l)%nat.
Proof. apply length_filter. Qed.

#[global] Instance count_list_perm {A} (f : A -> bool) : Proper ((≡ₚ) ==> eq) (count_list f).
Proof. intros l1 l2 Hl. unfold count_list. by rewrite Hl. Qed.

Lemma btree_values_perm {A} (m : gmap string A) : btree_values m ≡ₚ (map_to_list m).*2.
Proof. unfold btree_values, btree_entries. by rewrite merge_sort_Permutation. Qed.

Lemma length_btree_values {A} (m : gmap string A) : length (btree_values m) = size m.
Proof. by rewrite btree_values_perm, length_fmap, length_map_to_list. Qed.

Lemma count_map_insert_fresh {A} (f : A -> bool) m k x :
  m !! k = None -> count_map f (<[k := x]> m) = (bit (f x) + count_map f m)%nat.
Proof.
  intros Hk. unfold count_map. rewrite !btree_values_perm, map_to_list_insert by done.
  simpl. apply count_list_cons.
Qed.

Lemma count_map_replace {A} (f : A -> bool) m k x y :
  m !! k = Some y ->
  (count_map f (<[k := x]> m) + bit (f y) = count_map f m + bit (f x))%nat.
Proof.
  intros Hk. rewrite <- insert_delete_eq.
  rewrite count_map_insert_fresh by apply lookup_delete_eq.
  rewrite <- (insert_delete_id m k y Hk) at 2.
  rewrite count_map_insert_fresh by apply lookup_delete_eq. lia.
Qed.
