(* ===== verification/Inventory.v ===== *)
(** * Inventory reservations ([src/src/inventory.rs])

    The single owner of every strategy and rebalance claim: observed balances
    per [(location, venue asset)] key, a generation per location, the live
    reservations, and the per-key totals that admission reads instead of
    scanning the reservations.  [InventoryReservations] is a record of finite
    maps; each method is a state transformer.  The invariant [wf] ties the
    pre-aggregated totals to the reservations they summarise. *)
From Stdlib Require Import Ascii.
From stdpp Require Import base gmap sets list strings numbers fin_maps.
From S2P Require Import Prelude.

Inductive InventoryLocation :=
| BinanceAccount (account_id : string)
| EvmWallet (network_id wallet_location_id : string).

#[global] Instance InventoryLocation_eq_dec : EqDecision InventoryLocation.
Proof. solve_decision. Defined.

#[global] Instance InventoryLocation_countable : Countable InventoryLocation.
Proof.
  refine (inj_countable'
    (fun l => match l with
              | BinanceAccount a => inl a
              | EvmWallet n w => inr (n, w)
              end)
    (fun s => match s with
              | inl a => BinanceAccount a
              | inr (n, w) => EvmWallet n w
              end) _).
  by intros [].
Defined.

Record InventoryKey := mkKey {
  location : InventoryLocation;
  venue_asset_id : string;
}.

#[global] Instance InventoryKey_eq_dec : EqDecision InventoryKey.
Proof. solve_decision. Defined.

#[global] Instance InventoryKey_countable : Countable InventoryKey.
Proof.
  refine (inj_countable' (fun k => (location k, venue_asset_id k))
                         (fun p => mkKey p.1 p.2) _).
  by intros [].
Defined.

Record InventoryClaim := mkClaim { ckey : InventoryKey; amount : Z }.

Inductive ReservationPurpose := TradePrimary | TradeRecovery | Rebalance.

Record ReservationRequest := mkRequest {
  operation_id : string;
  purpose : ReservationPurpose;
  claims : list InventoryClaim;
  settlement_locations : gset InventoryLocation;
}.

Inductive ReservationState :=
| Active
| PendingSettlement (barriers : gmap InventoryLocation Z).

#[global] Instance ReservationState_eq_dec : EqDecision ReservationState.
Proof. solve_decision. Defined.

Record InventoryReservation := mkReservation {
  request : ReservationRequest;
  rstate : ReservationState;
}.

Record InsufficientAvailableInventory := mkInsufficient {
  ikey : InventoryKey;
  requested : Z;
  iobserved : Z;
  ireserved : Z;
  iavailable : Z;
}.

Definition caused_by_active_reservations (e : InsufficientAvailableInventory) : bool :=
  (requested e <=? iobserved e) && (iavailable e <? requested e).

(** What a method can end with besides [Ok]: a plain message, the typed error
    callers downcast to, or a panic of an [expect]. *)
Inductive InvError :=
| Msg (s : string)
| Insufficient (e : InsufficientAvailableInventory)
| Panic (s : string).

#[global] Instance InsufficientAvailableInventory_eq_dec : EqDecision InsufficientAvailableInventory.
Proof. solve_decision. Defined.
#[global] Instance InvError_eq_dec : EqDecision InvError.
Proof. solve_decision. Defined.

Record InventoryReservations := mkInv {
  observed : gmap InventoryKey Z;
  location_generations : gmap InventoryLocation Z;
  reservations : gmap string InventoryReservation;
  reserved_totals : gmap InventoryKey Z;
}.

(** [Default::default]. *)
Definition empty_inventory : InventoryReservations := mkInv ∅ ∅ ∅ ∅.

(** ** Identifier validation *)
Definition id_byte (c : Ascii.ascii) : bool :=
  is_ascii_alphanumeric c
  || bool_decide (c = "-"%char) || bool_decide (c = "_"%char)
  || bool_decide (c = "."%char) || bool_decide (c = ":"%char)
  || bool_decide (c = "/"%char).

Definition validate_id (value : string) (maximum : Z) : result InvError unit :=
  ensure! negb (str_is_empty value) && (str_len value <=? maximum)
    else Msg "has invalid length" ;;
  ensure! bytes_all id_byte value else Msg "contains unsupported characters" ;;
  Ok tt.

Definition binance (account_id : string) : result InvError InventoryLocation :=
  let? _ := validate_id account_id 96 in
  Ok (BinanceAccount account_id).

Definition evm_wallet (network_id wallet_location_id : string)
  : result InvError InventoryLocation :=
  let? _ := validate_id network_id 96 in
  let? _ := validate_id wallet_location_id 120 in
  Ok (EvmWallet network_id wallet_location_id).

Definition kind_label (l : InventoryLocation) : string :=
  match l with BinanceAccount _ => "binance_account" | EvmWallet _ _ => "evm_wallet" end.

Definition stable_id (l : InventoryLocation) : string :=
  match l with BinanceAccount a => a | EvmWallet _ w => w end.

Definition new_key (l : InventoryLocation) (asset : string) : result InvError InventoryKey :=
  let? _ := validate_id asset 160 in
  Ok (mkKey l asset).

(** The loop of [validate_request]; [seen] is the local [BTreeSet]. *)
Fixpoint validate_claims (settle : gset InventoryLocation) (seen : gset InventoryKey)
    (cs : list InventoryClaim) : result InvError unit :=
  match cs with
  | [] => Ok tt
  | c :: cs' =>
      let? _ := validate_id (venue_asset_id (ckey c)) 160 in
      ensure! negb (amount c =? 0) else Msg "inventory claim amount is zero" ;;
      ensure! negb (bool_decide (ckey c ∈ seen))
        else Msg "reservation has duplicate inventory claims" ;;
      ensure! bool_decide (location (ckey c) ∈ settle)
        else Msg "claim location is absent from settlement locations" ;;
      validate_claims settle ({[ckey c]} ∪ seen) cs'
  end.

Definition validate_request (r : ReservationRequest) : result InvError unit :=
  let? _ := validate_id (operation_id r) 120 in
  ensure! negb (bool_decide (claims r = [])) else Msg "reservation has no claims" ;;
  ensure! negb (bool_decide (settlement_locations r = ∅))
    else Msg "reservation has no settlement locations" ;;
  validate_claims (settlement_locations r) ∅ (claims r).

#[global] Instance InventoryClaim_eq_dec : EqDecision InventoryClaim.
Proof. solve_decision. Defined.

(** ** Reads *)
Definition get_observed (s : InventoryReservations) (k : InventoryKey) : option Z :=
  observed s !! k.

Definition total_of (t : gmap InventoryKey Z) (k : InventoryKey) : Z := default 0 (t !! k).

Definition reserved (s : InventoryReservations) (k : InventoryKey) : Z :=
  total_of (reserved_totals s) k.

Definition available (s : InventoryReservations) (k : InventoryKey) : result InvError Z :=
  let? o := or_err (get_observed s k) (Msg "no observed inventory") in
  or_err (checked_sub o (reserved s k)) (Msg "reservations exceed observed inventory").

Definition reservation (s : InventoryReservations) (id : string) : option InventoryReservation :=
  reservations s !! id.

Definition portfolio_snapshot (s : InventoryReservations)
  : gmap InventoryKey Z * gmap InventoryKey Z := (observed s, reserved_totals s).

(** [BTreeMap::keys], as a set of operation ids. *)
Definition active_operation_ids (s : InventoryReservations) : gset string :=
  dom (reservations s).

(** ** Releasing *)

(** The loop of [remove_reservation]: [None] is the [expect] panic. *)
Fixpoint remove_claims (cs : list InventoryClaim) (t : gmap InventoryKey Z)
  : option (gmap InventoryKey Z) :=
  match cs with
  | [] => Some t
  | c :: cs' =>
      match t !! ckey c with
      | Some r =>
          match checked_sub r (amount c) with
          | None => None
          | Some r' =>
              remove_claims cs'
                (if r' =? 0 then delete (ckey c) t else <[ckey c := r']> t)
          end
      | None => remove_claims cs' t
      end
  end.

Definition remove_reservation (id : string) : M InventoryReservations InvError unit :=
  fun s =>
    match reservations s !! id with
    | None => (s, Ok tt)
    | Some r =>
        let left := delete id (reservations s) in
        match remove_claims (claims (request r)) (reserved_totals s) with
        | Some t => (mkInv (observed s) (location_generations s) left t, Ok tt)
        | None =>
            (mkInv (observed s) (location_generations s) left (reserved_totals s),
             Err (Panic "reserved total covers every admitted claim"))
        end
    end.

(** The filter of [release_reconciled]. *)
Definition settled (gens : gmap InventoryLocation Z) (r : InventoryReservation) : bool :=
  match rstate r with
  | Active => false
  | PendingSettlement barriers =>
      forallb (fun '(l, barrier) =>
                 match gens !! l with
                 | Some current => barrier <? current
                 | None => false
                 end) (map_to_list barriers)
  end.

Fixpoint remove_all (ids : list string) : M InventoryReservations InvError unit :=
  match ids with
  | [] => mret tt
  | id :: ids' => do! remove_reservation id ;; remove_all ids'
  end.

Definition reconciled_ids (s : InventoryReservations) : list string :=
  (filter (fun p => settled (location_generations s) p.2 = true)
          (map_to_list (reservations s))).*1.

Definition release_reconciled : M InventoryReservations InvError unit :=
  fun s => remove_all (reconciled_ids s) s.

(** ** Balance snapshots *)
Fixpoint collect_balances (dup : string) (l : InventoryLocation)
    (bs : list (string * Z)) (acc : gmap InventoryKey Z)
  : result InvError (gmap InventoryKey Z) :=
  match bs with
  | [] => Ok acc
  | (asset, amt) :: bs' =>
      let? k := new_key l asset in
      ensure! negb (bool_decide (is_Some (acc !! k))) else Msg dup ;;
      collect_balances dup l bs' (<[k := amt]> acc)
  end.

(** Install a batch: [extend], bump the generation, release what it settles. *)
Definition install (obs : gmap InventoryKey Z) (l : InventoryLocation) (gen : Z)
  : M InventoryReservations InvError bool :=
  fun s =>
    let s1 := mkInv obs (<[l := gen]> (location_generations s))
                    (reservations s) (reserved_totals s) in
    (do! release_reconciled ;; mret true) s1.

Definition update_location (l : InventoryLocation) (gen : Z) (bs : list (string * Z))
  : M InventoryReservations InvError bool :=
  fun s =>
    if negb (0 <? gen) then (s, Err (Msg "inventory generation must be positive")) else
    if match location_generations s !! l with Some c => gen <=? c | None => false end
    then (s, Ok false) else
    match collect_balances "duplicate venue asset in inventory snapshot" l bs ∅ with
    | Err e => (s, Err e)
    | Ok replacement =>
        if bool_decide (replacement = ∅)
        then (s, Err (Msg "inventory snapshot must contain at least one venue asset"))
        else install (replacement ∪ filter (fun p => location p.1 <> l) (observed s)) l gen s
    end.

Definition update_location_assets (l : InventoryLocation) (gen : Z) (bs : list (string * Z))
  : M InventoryReservations InvError bool :=
  fun s =>
    if negb (0 <? gen) then (s, Err (Msg "inventory generation must be positive")) else
    match location_generations s !! l with
    | None =>
        (s, Err (Msg "partial inventory update requires a complete location snapshot"))
    | Some current =>
        if gen <=? current then (s, Ok false) else
        match collect_balances "duplicate venue asset in partial inventory update" l bs ∅ with
        | Err e => (s, Err e)
        | Ok updates =>
            if bool_decide (updates = ∅)
            then (s, Err (Msg "partial inventory update is empty"))
            else install (updates ∪ observed s) l gen s
        end
    end.

(** ** Reserving *)

(** First loop of [reserve]: admission of each claim against the current state. *)
Fixpoint admit_claims (s : InventoryReservations) (cs : list InventoryClaim)
  : result InvError unit :=
  match cs with
  | [] => Ok tt
  | c :: cs' =>
      ensure! bool_decide (is_Some (location_generations s !! location (ckey c)))
        else Msg "inventory location has no observed generation" ;;
      let? o := or_err (get_observed s (ckey c)) (Msg "no observed inventory") in
      let r := reserved s (ckey c) in
      let? a := or_err (checked_sub o r) (Msg "reservations exceed observed inventory") in
      if a <? amount c
      then Err (Insufficient (mkInsufficient (ckey c) (amount c) o r a))
      else admit_claims s cs'
  end.

(** Second loop of [reserve]: [entry(key).or_insert(ZERO)] then [checked_add]. *)
Fixpoint add_claims (cs : list InventoryClaim) : M (gmap InventoryKey Z) InvError unit :=
  fun t =>
    match cs with
    | [] => (t, Ok tt)
    | c :: cs' =>
        let r := total_of t (ckey c) in
        match checked_add 256 r (amount c) with
        | Some r' => add_claims cs' (<[ckey c := r']> t)
        | None => (<[ckey c := r]> t, Err (Msg "inventory reserved total overflow"))
        end
    end.

Definition reserve (req : ReservationRequest) : M InventoryReservations InvError unit :=
  fun s =>
    let guard :=
      let? _ := validate_request req in
      ensure! negb (bool_decide (is_Some (reservations s !! operation_id req)))
        else Msg "inventory reservation operation already exists" ;;
      admit_claims s (claims req) in
    match guard with
    | Err e => (s, Err e)
    | Ok _ =>
        match add_claims (claims req) (reserved_totals s) with
        | (t, Err e) =>
            (mkInv (observed s) (location_generations s) (reservations s) t, Err e)
        | (t, Ok _) =>
            (mkInv (observed s) (location_generations s)
                   (<[operation_id req := mkReservation req Active]> (reservations s)) t,
             Ok tt)
        end
    end.

Definition release_unsubmitted (id : string) : M InventoryReservations InvError unit :=
  fun s =>
    match reservations s !! id with
    | None => (s, Err (Msg "unknown inventory reservation"))
    | Some r =>
        if bool_decide (rstate r = Active)
        then remove_reservation id s
        else (s, Err (Msg "only an active reservation can be released as unsubmitted"))
    end.

(** The barrier of a settlement: the generation every location has now. *)
Fixpoint collect_barriers (gens : gmap InventoryLocation Z) (ls : list InventoryLocation)
    (acc : gmap InventoryLocation Z) : result InvError (gmap InventoryLocation Z) :=
  match ls with
  | [] => Ok acc
  | l :: ls' =>
      let? g := or_err (gens !! l) (Msg "settlement inventory location has no generation") in
      collect_barriers gens ls' (<[l := g]> acc)
  end.

Definition mark_pending_settlement (id : string) : M InventoryReservations InvError unit :=
  fun s =>
    match reservations s !! id with
    | None => (s, Err (Msg "unknown inventory reservation"))
    | Some r =>
        if bool_decide (rstate r = Active) then
          match collect_barriers (location_generations s)
                  (elements (settlement_locations (request r))) ∅ with
          | Err e => (s, Err e)
          | Ok bs =>
              (mkInv (observed s) (location_generations s)
                     (<[id := mkReservation (request r) (PendingSettlement bs)]>
                        (reservations s))
                     (reserved_totals s), Ok tt)
          end
        else (s, Err (Msg "inventory reservation is not active"))
    end.

(** ** Operations as a transition system

    [SharedInventoryReservations] runs each method under one mutex, so the
    history of the shared object is a sequence of whole method calls. *)
Inductive inv_op :=
| OpUpdate (l : InventoryLocation) (gen : Z) (bs : list (string * Z))
| OpUpdateAssets (l : InventoryLocation) (gen : Z) (bs : list (string * Z))
| OpReserve (req : ReservationRequest)
| OpRelease (id : string)
| OpMarkPending (id : string).

Definition run_op (o : inv_op) : M InventoryReservations InvError bool :=
  match o with
  | OpUpdate l g bs => update_location l g bs
  | OpUpdateAssets l g bs => update_location_assets l g bs
  | OpReserve req => do! reserve req ;; mret true
  | OpRelease id => do! release_unsubmitted id ;; mret true
  | OpMarkPending id => do! mark_pending_settlement id ;; mret true
  end.

(** The machine types of the arguments: amounts are [U256]. *)
Definition op_typed (o : inv_op) : Prop :=
  match o with
  | OpUpdate _ _ bs | OpUpdateAssets _ _ bs => Forall (fun b => u256 b.2) bs
  | OpReserve req => Forall (fun c => u256 (amount c)) (claims req)
  | _ => True
  end.

Definition inv_step (s s' : InventoryReservations) : Prop :=
  exists o, op_typed o /\ (run_op o s).1 = s'.

Definition reachable (s : InventoryReservations) : Prop := rtc inv_step empty_inventory s.

(** ** Specification: what the totals summarise *)
Fixpoint claim_sum (k : InventoryKey) (cs : list InventoryClaim) : Z :=
  match cs with
  | [] => 0
  | c :: cs' => (if decide (ckey c = k) then amount c else 0) + claim_sum k cs'
  end.

Definition claims_total (k : InventoryKey) (m : gmap string InventoryReservation) : Z :=
  map_fold (fun _ r acc => claim_sum k (claims (request r)) + acc) 0 m.

Definition canonical (t : gmap InventoryKey Z) : Prop :=
  forall k v, t !! k = Some v -> 0 < v.

Definition request_ok (req : ReservationRequest) : Prop :=
  validate_request req = Ok tt /\ Forall (fun c => u256 (amount c)) (claims req).

Record wf (s : InventoryReservations) : Prop := {
  wf_totals k : total_of (reserved_totals s) k = claims_total k (reservations s);
  wf_canonical : canonical (reserved_totals s);
  wf_bound k : reserved s k < 2 ^ 256;
  wf_observed k v : observed s !! k = Some v -> u256 v;
  wf_located k : is_Some (observed s !! k) -> is_Some (location_generations s !! location k);
  wf_gen l g : location_generations s !! l = Some g -> 0 < g;
  wf_request id r :
    reservations s !! id = Some r ->
    operation_id (request r) = id /\ request_ok (request r);
  wf_barrier id r bs :
    reservations s !! id = Some r -> rstate r = PendingSettlement bs ->
    dom bs = settlement_locations (request r) /\
    forall l b, bs !! l = Some b ->
      exists g, location_generations s !! l = Some g /\ b <= g;
}.

(** ** Lemmas on claims and totals *)
Lemma total_of_insert t k v k' :
  total_of (<[k := v]> t) k' = if decide (k = k') then v else total_of t k'.
Proof. unfold total_of. rewrite lookup_insert. by case_decide. Qed.

Lemma total_of_delete t k k' :
  total_of (delete k t) k' = if decide (k = k') then 0 else total_of t k'.
Proof. unfold total_of. rewrite lookup_delete. by case_decide. Qed.

#[export] Hint Rewrite total_of_insert total_of_delete : rust.

Lemma canonical_nonneg t k : canonical t -> 0 <= total_of t k.
Proof.
  intros Hc. unfold total_of. destruct (t !! k) as [v|] eqn:E; simpl; [|lia].
  apply Hc in E. lia.
Qed.

Lemma canonical_ext t1 t2 :
  canonical t1 -> canonical t2 -> (forall k, total_of t1 k = total_of t2 k) -> t1 = t2.
Proof.
  intros H1 H2 Heq. apply map_eq. intros k. specialize (Heq k). unfold total_of in Heq.
  destruct (t1 !! k) as [v1|] eqn:E1, (t2 !! k) as [v2|] eqn:E2; simpl in Heq;
    [by subst|apply H1 in E1; lia|apply H2 in E2; lia|done].
Qed.

Definition amounts_ok (cs : list InventoryClaim) : Prop :=
  Forall (fun c => 0 < amount c < 2 ^ 256) cs.

Lemma claim_sum_nonneg k cs : amounts_ok cs -> 0 <= claim_sum k cs.
Proof. induction 1 as [|c cs Hc _ IH]; simpl; [lia|]. case_decide; lia. Qed.

Lemma claim_sum_absent k cs : k ∉ ckey <$> cs -> claim_sum k cs = 0.
Proof.
  induction cs as [|c cs IH]; intros Hk; simpl; [done|]. csimpl in *.
  rewrite decide_False by set_solver. rewrite IH by set_solver. lia.
Qed.

Lemma claim_sum_present c cs :
  NoDup (ckey <$> cs) -> c ∈ cs -> claim_sum (ckey c) cs = amount c.
Proof.
  induction cs as [|c' cs IH]; [set_solver|]. csimpl. rewrite NoDup_cons.
  intros [Hni Hnd] [->|Hin]%elem_of_cons.
  - rewrite decide_True by done. rewrite claim_sum_absent by done. lia.
  - rewrite decide_False; [by rewrite IH|].
    intros Heq. apply Hni. rewrite Heq. by apply list_elem_of_fmap_2.
Qed.

Lemma claims_total_empty k : claims_total k ∅ = 0.
Proof. apply map_fold_empty. Qed.

Lemma claims_total_insert k id r m :
  m !! id = None ->
  claims_total k (<[id := r]> m) = claim_sum k (claims (request r)) + claims_total k m.
Proof.
  intros Hid. unfold claims_total. rewrite map_fold_insert_L; [done| |done].
  intros; lia.
Qed.

Lemma claims_total_delete k id r m :
  m !! id = Some r ->
  claims_total k m = claim_sum k (claims (request r)) + claims_total k (delete id m).
Proof.
  intros Hid. rewrite <- (insert_delete_id m id r Hid) at 1.
  apply claims_total_insert. apply lookup_delete_eq.
Qed.

Lemma claims_total_update k id r r' m :
  m !! id = Some r -> request r' = request r ->
  claims_total k (<[id := r']> m) = claims_total k m.
Proof.
  intros Hid Hreq. rewrite (claims_total_delete k id r m) by done.
  rewrite <- insert_delete_eq. rewrite claims_total_insert by apply lookup_delete_eq.
  by rewrite Hreq.
Qed.

Lemma claims_total_nonneg k m :
  (forall id r, m !! id = Some r -> amounts_ok (claims (request r))) ->
  0 <= claims_total k m.
Proof.
  induction m as [|id r m Hid IH] using map_ind; intros Hall.
  - rewrite claims_total_empty. lia.
  - rewrite claims_total_insert by done.
    assert (0 <= claim_sum k (claims (request r))).
    { apply claim_sum_nonneg, (Hall id). by simplify_map_eq. }
    assert (0 <= claims_total k m); [|lia].
    apply IH. intros id' r' Hr'. apply (Hall id'). rewrite lookup_insert_ne; [done|congruence].
Qed.

(** What the validation loop guarantees of an accepted request. *)
Lemma validate_claims_Ok settle seen cs u :
  validate_claims settle seen cs = Ok u ->
  NoDup (ckey <$> cs) /\
  Forall (fun c => amount c <> 0 /\ ckey c ∉ seen /\ location (ckey c) ∈ settle) cs.
Proof.
  revert seen. induction cs as [|c cs IH]; intros seen H; simpl in H.
  { split; constructor. }
  res_inv. bool_prop. apply IH in H as [Hnd Hall]. csimpl. split.
  - constructor; [|done]. intros Hin. apply list_elem_of_fmap_1 in Hin as (c' & Heq & Hc').
    rewrite Forall_forall in Hall. apply Hall in Hc' as (_ & Hni & _). set_solver.
  - constructor; [done|]. eapply Forall_impl; [exact Hall|]. set_solver.
Qed.

Lemma request_ok_claims req :
  request_ok req ->
  NoDup (ckey <$> claims req) /\ amounts_ok (claims req) /\
  Forall (fun c => location (ckey c) ∈ settlement_locations req) (claims req).
Proof.
  intros [Hv Ht]. unfold validate_request in Hv. res_inv.
  apply validate_claims_Ok in Hv as [Hnd Hall]. split_and!; [done| |].
  - apply Forall_forall. intros c Hc. rewrite Forall_forall in Hall, Ht.
    apply Hall in Hc as Hc1. apply Ht in Hc as Hc2. unfold uint in *. naive_solver lia.
  - eapply Forall_impl; [exact Hall|]. naive_solver.
Qed.

(** ** The two loops over [reserved_totals] *)
Lemma add_claims_spec cs t :
  NoDup (ckey <$> cs) -> amounts_ok cs -> canonical t ->
  (forall c, c ∈ cs -> total_of t (ckey c) + amount c < 2 ^ 256) ->
  exists t', add_claims cs t = (t', Ok tt) /\ canonical t' /\
    forall k, total_of t' k = total_of t k + claim_sum k cs.
Proof.
  revert t. induction cs as [|c cs IH]; intros t Hnd Ham Hcan Hb; simpl.
  { exists t. split_and!; [done|done|]. intros; lia. }
  csimpl in Hnd. apply NoDup_cons in Hnd as [Hni Hnd].
  apply Forall_cons in Ham as [Hc Ham].
  pose proof (canonical_nonneg t (ckey c) Hcan) as Hge.
  assert (Hlt : total_of t (ckey c) + amount c < 2 ^ 256) by (apply Hb; set_solver).
  assert (checked_add 256 (total_of t (ckey c)) (amount c)
          = Some (total_of t (ckey c) + amount c)) as -> by (by apply checked_add_Some).
  destruct (IH (<[ckey c := total_of t (ckey c) + amount c]> t)) as (t' & Ht' & Hcan' & Htot);
    [done|done| | |].
  - intros k v. rewrite lookup_insert. case_decide; [|apply Hcan]. naive_solver lia.
  - intros c' Hc'. rewrite total_of_insert. rewrite decide_False.
    { apply Hb; set_solver. }
    intros Heq. apply Hni. rewrite Heq. by apply list_elem_of_fmap_2.
  - exists t'. split_and!; [done|done|]. intros k. rewrite Htot, total_of_insert.
    case_decide; [subst|]; lia.
Qed.

Lemma remove_claims_spec cs t :
  amounts_ok cs -> canonical t ->
  (forall k, claim_sum k cs <= total_of t k) ->
  exists t', remove_claims cs t = Some t' /\ canonical t' /\
    forall k, total_of t' k = total_of t k - claim_sum k cs.
Proof.
  revert t. induction cs as [|c cs IH]; intros t Ham Hcan Hle; simpl.
  { exists t. split_and!; [done|done|]. intros; lia. }
  apply Forall_cons in Ham as [Hc Ham].
  pose proof (Hle (ckey c)) as Hk. simpl in Hk. rewrite decide_True in Hk by done.
  pose proof (claim_sum_nonneg (ckey c) cs Ham) as Hnn.
  destruct (t !! ckey c) as [r|] eqn:Er; unfold total_of in Hk; rewrite Er in Hk; simpl in Hk;
    [|lia].
  assert (checked_sub r (amount c) = Some (r - amount c)) as ->
    by (apply checked_sub_Some; lia).
  set (t1 := if r - amount c =? 0 then _ else _).
  assert (Htot1 : forall k, total_of t1 k = total_of t k - if decide (ckey c = k) then amount c else 0).
  { intros k. unfold t1. destruct (Z.eqb_spec (r - amount c) 0) as [Hz|Hz];
      autorewrite with rust; case_decide; subst; unfold total_of; rewrite ?Er; simpl; lia. }
  destruct (IH t1) as (t' & Ht' & Hcan' & Htot); [done| | |].
  - intros k v. unfold t1. destruct (Z.eqb_spec (r - amount c) 0).
    + rewrite lookup_delete. case_decide; [done|apply Hcan].
    + rewrite lookup_insert. case_decide; [naive_solver lia|apply Hcan].
  - intros k. rewrite Htot1. specialize (Hle k). simpl in Hle. lia.
  - exists t'. split_and!; [done|done|]. intros k. rewrite Htot, Htot1. lia.
Qed.

(** ** Removal *)
Lemma wf_amounts s id r :
  wf s -> reservations s !! id = Some r -> amounts_ok (claims (request r)).
Proof.
  intros Hwf Hr. apply (wf_request s Hwf) in Hr as [_ Hok].
  by apply request_ok_claims in Hok as (_ & ? & _).
Qed.

Lemma wf_rest_nonneg s id k :
  wf s -> 0 <= claims_total k (delete id (reservations s)).
Proof.
  intros Hwf. apply claims_total_nonneg. intros id' r' Hr'.
  apply lookup_delete_Some in Hr' as [_ Hr']. by eapply wf_amounts.
Qed.

Lemma remove_reservation_spec s id :
  wf s ->
  exists t, remove_reservation id s
    = (mkInv (observed s) (location_generations s) (delete id (reservations s)) t, Ok tt)
    /\ wf (mkInv (observed s) (location_generations s) (delete id (reservations s)) t).
Proof.
  intros Hwf. unfold remove_reservation.
  destruct (reservations s !! id) as [r|] eqn:Er.
  2:{ exists (reserved_totals s). rewrite delete_id by done. by destruct s. }
  pose proof (wf_amounts _ _ _ Hwf Er) as Ham.
  destruct (remove_claims_spec (claims (request r)) (reserved_totals s))
    as (t & Ht & Hcan & Htot); [done|apply Hwf| |].
  { intros k. rewrite (wf_totals s Hwf), (claims_total_delete k id r) by done.
    pose proof (wf_rest_nonneg s id k Hwf). lia. }
  exists t. rewrite Ht. split; [done|].
  assert (Heq : forall k, total_of t k = claims_total k (delete id (reservations s))).
  { intros k. rewrite Htot, (wf_totals s Hwf), (claims_total_delete k id r) by done. lia. }
  destruct Hwf as [? ? Hb ? ? ? Hreq Hbar].
  constructor; simpl; try done.
  - intros k. unfold reserved. simpl. rewrite Htot.
    specialize (Hb k). unfold reserved in Hb.
    pose proof (claim_sum_nonneg k _ Ham). lia.
  - intros id' r' Hr'. apply lookup_delete_Some in Hr' as [_ Hr']. by apply Hreq.
  - intros id' r' bs Hr'. apply lookup_delete_Some in Hr' as [_ Hr']. by eapply Hbar.
Qed.

Lemma remove_all_spec ids s :
  wf s ->
  exists s', remove_all ids s = (s', Ok tt) /\ wf s' /\
    observed s' = observed s /\ location_generations s' = location_generations s /\
    reservations s' = filter (fun p => p.1 ∉ ids) (reservations s).
Proof.
  revert s. induction ids as [|id ids IH]; intros s Hwf; simpl.
  - exists s. split_and!; try done. symmetry. apply map_filter_id. set_solver.
  - destruct (remove_reservation_spec s id Hwf) as (t & Ht & Hwf').
    unfold mbind'. rewrite Ht. destruct (IH _ Hwf') as (s' & -> & Hw & Ho & Hg & Hr).
    exists s'. split_and!; try done. rewrite Hr. simpl.
    apply map_eq. intros i. apply option_eq. intros r.
    rewrite !map_lookup_filter_Some, lookup_delete_Some. set_solver.
Qed.

Lemma release_reconciled_spec s :
  wf s ->
  exists s', release_reconciled s = (s', Ok tt) /\ wf s' /\
    observed s' = observed s /\ location_generations s' = location_generations s /\
    reservations s' = filter (fun p => settled (location_generations s) p.2 = false) (reservations s).
Proof.
  intros Hwf. unfold release_reconciled.
  destruct (remove_all_spec (reconciled_ids s) s Hwf) as (s' & -> & Hw & Ho & Hg & Hr).
  exists s'. split_and!; try done. rewrite Hr.
  apply map_eq. intros i. apply option_eq. intros r.
  rewrite !map_lookup_filter_Some. simpl.
  assert (Hin : reservations s !! i = Some r ->
          (i ∈ reconciled_ids s <-> settled (location_generations s) r = true)).
  { intros Hi. unfold reconciled_ids. rewrite list_elem_of_fmap. split.
    - intros ([i' r'] & -> & [Hs Hm]%list_elem_of_filter). simpl in *.
      apply elem_of_map_to_list in Hm. congruence.
    - intros Hs. exists (i, r). split; [done|]. apply list_elem_of_filter. split; [done|].
      by apply elem_of_map_to_list. }
  split; intros [Hi Hs]; (split; [done|]); specialize (Hin Hi);
    destruct (settled (location_generations s) r); naive_solver.
Qed.

(** ** Snapshots *)
Lemma collect_balances_Ok dup l bs acc m :
  collect_balances dup l bs acc = Ok m ->
  Forall (fun b => u256 b.2) bs ->
  (forall k v, acc !! k = Some v -> u256 v /\ location k = l) ->
  forall k v, m !! k = Some v -> u256 v /\ location k = l.
Proof.
  revert acc. induction bs as [|[asset amt] bs IH]; intros acc H Hty Hacc; simpl in H.
  { by injection H as ->. }
  res_inv. apply Forall_cons in Hty as [Hamt Hty].
  eapply IH; [exact H|done|]. intros k v. rewrite lookup_insert. case_decide; [|apply Hacc].
  unfold new_key in Hok. res_inv. naive_solver.
Qed.

Lemma install_spec s obs l gen :
  wf s -> 0 < gen -> (forall c, location_generations s !! l = Some c -> c < gen) ->
  (forall k v, obs !! k = Some v ->
     u256 v /\ (location k = l \/ is_Some (location_generations s !! location k))) ->
  exists s', install obs l gen s = (s', Ok true) /\ wf s' /\ observed s' = obs /\
    location_generations s' = <[l := gen]> (location_generations s) /\
    reservations s' =
      filter (fun p => settled (<[l := gen]> (location_generations s)) p.2 = false)
             (reservations s).
Proof.
  intros Hwf Hgen Hnew Hobs. unfold install, mbind'.
  edestruct (release_reconciled_spec
    (mkInv obs (<[l := gen]> (location_generations s)) (reservations s) (reserved_totals s)))
    as (s' & -> & Hw & Ho & Hg & Hr).
  - destruct Hwf as [? ? ? ? ? Hpos ? Hbar]. constructor; simpl; try done.
    + intros k v Hk. by apply Hobs in Hk as [? _].
    + intros k [v Hk]. apply Hobs in Hk as [_ Hk]. rewrite lookup_insert.
      case_decide; [by eexists|]. naive_solver.
    + intros l' g. rewrite lookup_insert. case_decide; [naive_solver|apply Hpos].
    + intros id r bs Hr Hs. destruct (Hbar id r bs Hr Hs) as [Hdom Hle]. split; [done|].
      intros l' b Hb. destruct (Hle l' b Hb) as (g & Hg & Hbg). rewrite lookup_insert.
      case_decide; [subst|naive_solver]. exists gen. split; [done|].
      apply Hnew in Hg. lia.
  - exists s'. by split_and!.
Qed.

Lemma collect_balances_Err dup l bs acc e :
  collect_balances dup l bs acc = Err e -> exists m, e = Msg m.
Proof.
  revert acc. induction bs as [|[a v] bs IH]; intros acc; simpl; [done|].
  unfold new_key, validate_id, ensure, rbind.
  repeat (case_match; simplify_eq/=); naive_solver.
Qed.

(** The outcome both kinds of snapshot share: an accepted one bumps the
    generation and drops exactly the reservations it settles; every other
    outcome leaves the state as it was. *)
Definition snapshot_outcome (s : InventoryReservations) (l : InventoryLocation) (gen : Z)
    (r : InventoryReservations * result InvError bool) : Prop :=
  (exists s', r = (s', Ok true) /\ wf s' /\
     location_generations s' = <[l := gen]> (location_generations s) /\
     0 < gen /\ (forall c, location_generations s !! l = Some c -> c < gen) /\
     reservations s' =
       filter (fun p => settled (<[l := gen]> (location_generations s)) p.2 = false)
              (reservations s)) \/
  r.1 = s /\ (r.2 = Ok false \/ exists m, r.2 = Err (Msg m)).

Lemma snapshot_refused s l gen m : snapshot_outcome s l gen (s, Err (Msg m)).
Proof. right. eauto. Qed.

Lemma snapshot_stale s l gen : snapshot_outcome s l gen (s, Ok false).
Proof. right. eauto. Qed.

Lemma install_outcome s obs l gen :
  wf s -> 0 < gen -> (forall c, location_generations s !! l = Some c -> c < gen) ->
  (forall k v, obs !! k = Some v ->
     u256 v /\ (location k = l \/ is_Some (location_generations s !! location k))) ->
  snapshot_outcome s l gen (install obs l gen s).
Proof.
  intros Hwf Hg Hnew Hobs.
  destruct (install_spec s obs l gen Hwf Hg Hnew Hobs) as (s' & -> & Hw & _ & Hgen & Hr).
  left. exists s'. by split_and!.
Qed.

#[export] Hint Resolve snapshot_refused snapshot_stale : rust.

Lemma observed_typed s k v :
  wf s -> observed s !! k = Some v ->
  u256 v /\ is_Some (location_generations s !! location k).
Proof. intros Hwf Hk. split; [by eapply wf_observed|]. apply (wf_located s Hwf). eauto. Qed.

Lemma update_location_outcome s l gen bs :
  wf s -> Forall (fun b => u256 b.2) bs ->
  snapshot_outcome s l gen (update_location l gen bs s).
Proof.
  intros Hwf Hty. unfold update_location.
  destruct (Z.ltb_spec 0 gen) as [Hg|Hg]; simpl; [|auto with rust].
  destruct (match location_generations s !! l with Some c => gen <=? c | None => false end) eqn:Est;
    [auto with rust|].
  destruct (collect_balances _ l bs ∅) as [m|e] eqn:Ec.
  2:{ apply collect_balances_Err in Ec as [? ->]. auto with rust. }
  case_bool_decide; [auto with rust|].
  pose proof (collect_balances_Ok _ _ _ _ _ Ec Hty ltac:(by intros ? ? ?%lookup_empty_Some)) as Hm.
  apply install_outcome; [done|done| |].
  - intros c Hc. rewrite Hc in Est. bool_prop. lia.
  - intros k v [Hk|[_ Hk]]%lookup_union_Some_raw.
    { apply Hm in Hk as [? ?]. auto. }
    apply map_lookup_filter_Some in Hk as [Hk _]. apply observed_typed in Hk as [? ?]; auto.
Qed.

Lemma update_location_assets_outcome s l gen bs :
  wf s -> Forall (fun b => u256 b.2) bs ->
  snapshot_outcome s l gen (update_location_assets l gen bs s).
Proof.
  intros Hwf Hty. unfold update_location_assets.
  destruct (Z.ltb_spec 0 gen) as [Hg|Hg]; simpl; [|auto with rust].
  destruct (location_generations s !! l) as [c|] eqn:El; [|auto with rust].
  destruct (Z.leb_spec gen c); [auto with rust|].
  destruct (collect_balances _ l bs ∅) as [m|e] eqn:Ec.
  2:{ apply collect_balances_Err in Ec as [? ->]. auto with rust. }
  case_bool_decide; [auto with rust|].
  pose proof (collect_balances_Ok _ _ _ _ _ Ec Hty ltac:(by intros ? ? ?%lookup_empty_Some)) as Hm.
  apply install_outcome; [done|done|naive_solver|].
  intros k v [Hk|[_ Hk]]%lookup_union_Some_raw.
  { apply Hm in Hk as [? ?]. auto. }
  apply observed_typed in Hk as [? ?]; auto.
Qed.

(** ** Reserving *)
Definition guards (s : InventoryReservations) (req : ReservationRequest) : Prop :=
  validate_request req = Ok tt /\ reservations s !! operation_id req = None /\
  forall c, c ∈ claims req ->
    is_Some (location_generations s !! location (ckey c)) /\
    exists o, observed s !! ckey c = Some o /\ reserved s (ckey c) + amount c <= o.

Lemma admit_claims_Ok s cs :
  admit_claims s cs = Ok tt <->
  forall c, c ∈ cs ->
    is_Some (location_generations s !! location (ckey c)) /\
    exists o, observed s !! ckey c = Some o /\
      reserved s (ckey c) <= o /\ amount c <= o - reserved s (ckey c).
Proof.
  induction cs as [|c cs IH]; simpl; [split; [set_solver|done]|]. split.
  - intros H. res_inv. bool_prop. checked_inv. subst.
    destruct (Z.ltb_spec (x0 - reserved s (ckey c)) (amount c)); [done|].
    intros c' [->|Hc']%elem_of_cons; [naive_solver|]. by apply IH.
  - intros H. destruct (H c ltac:(set_solver)) as (Hl & o & Ho & Hro & Ha).
    rewrite bool_decide_eq_true_2 by done. simpl.
    unfold get_observed. rewrite Ho. simpl.
    assert (checked_sub o (reserved s (ckey c)) = Some (o - reserved s (ckey c))) as ->
      by (by apply checked_sub_Some).
    simpl. destruct (Z.ltb_spec (o - reserved s (ckey c)) (amount c)); [lia|].
    apply IH. intros c' Hc'. apply H. set_solver.
Qed.

Lemma reserve_guard_iff s req u :
  (let? _ := validate_request req in
   ensure! negb (bool_decide (is_Some (reservations s !! operation_id req)))
     else Msg "inventory reservation operation already exists" ;;
   admit_claims s (claims req)) = Ok u <->
  validate_request req = Ok tt /\ reservations s !! operation_id req = None /\
  admit_claims s (claims req) = Ok tt.
Proof.
  destruct u, (validate_request req) as [[]|]; simpl; [|naive_solver].
  destruct (reservations s !! operation_id req) as [r|]; simpl; naive_solver.
Qed.

(** The state a successful reservation leaves: the claims are added to the
    totals and the request is recorded as active. *)
Lemma reserve_spec s req :
  wf s -> request_ok req -> reservations s !! operation_id req = None ->
  admit_claims s (claims req) = Ok tt ->
  exists t, reserve req s =
      (mkInv (observed s) (location_generations s)
         (<[operation_id req := mkReservation req Active]> (reservations s)) t, Ok tt) /\
    wf (mkInv (observed s) (location_generations s)
         (<[operation_id req := mkReservation req Active]> (reservations s)) t) /\
    forall k, total_of t k = reserved s k + claim_sum k (claims req).
Proof.
  intros Hwf Hreq Hid Hadm. pose proof (request_ok_claims req Hreq) as (Hnd & Ham & _).
  pose proof (proj1 (admit_claims_Ok s (claims req)) Hadm) as Hadm'.
  assert (Hb : forall c, c ∈ claims req ->
             total_of (reserved_totals s) (ckey c) + amount c < 2 ^ 256).
  { intros c Hc. destruct (Hadm' c Hc) as (_ & o & Ho & Hr & Ha).
    apply (wf_observed s Hwf) in Ho. unfold uint, reserved in *. lia. }
  unfold reserve.
  rewrite (proj2 (reserve_guard_iff s req tt)) by (destruct Hreq; done).
  destruct (add_claims_spec (claims req) (reserved_totals s) Hnd Ham (wf_canonical s Hwf) Hb)
    as (t & -> & Hcan & Htot).
  exists t. split_and!; [done| |done].
  assert (Hbt : forall k, total_of t k < 2 ^ 256).
  { intros k. rewrite Htot. destruct (decide (k ∈ ckey <$> claims req)) as [Hk|Hk].
    - apply list_elem_of_fmap_1 in Hk as (c & -> & Hc).
      rewrite claim_sum_present by done. by apply Hb.
    - rewrite claim_sum_absent by done.
      pose proof (wf_bound s Hwf k). unfold reserved in *. lia. }
  destruct Hwf as [Htots ? ? ? ? ? Hrq Hbar]. constructor; simpl; try done.
  - intros k. rewrite claims_total_insert, Htot, Htots by done. simpl. lia.
  - intros id r. rewrite lookup_insert. case_decide; [|apply Hrq].
    intros [= <-]. by subst.
  - intros id r bs. rewrite lookup_insert. case_decide; [|apply Hbar].
    by intros [= <-].
Qed.

(** A refused reservation changes nothing: the overflow exit of the second
    loop, the only one after a mutation, cannot be reached. *)
Lemma reserve_Err s req e :
  wf s -> Forall (fun c => u256 (amount c)) (claims req) ->
  (reserve req s).2 = Err e -> (reserve req s).1 = s /\ (forall m, e <> Panic m).
Proof.
  intros Hwf Hty Herr.
  destruct (decide (validate_request req = Ok tt /\ reservations s !! operation_id req = None /\
                    admit_claims s (claims req) = Ok tt)) as [(Hv & Hid & Hadm)|Hno].
  { destruct (reserve_spec s req Hwf (conj Hv Hty) Hid Hadm) as (t & Heq & _).
    by rewrite Heq in Herr. }
  rewrite <- (reserve_guard_iff s req tt) in Hno. unfold reserve in *.
  destruct (let? _ := validate_request req in _) as [[]|e'] eqn:Eg; [done|].
  simpl in *. split; [done|]. simplify_eq. intros m ->. clear Hno.
  assert (Hadm : forall cs, admit_claims s cs <> Err (Panic m)).
  { induction cs as [|c cs IH]; simpl; [done|]. unfold ensure, or_err, rbind.
    repeat (case_match; simplify_eq/=); naive_solver. }
  assert (Hvc : forall cs seen, validate_claims (settlement_locations req) seen cs <> Err (Panic m)).
  { induction cs as [|c cs IH]; intros seen; simpl; [done|]. unfold validate_id, ensure, rbind.
    repeat (case_match; simplify_eq/=); naive_solver. }
  revert Eg. unfold validate_request, validate_id, ensure, rbind.
  specialize (Hadm (claims req)). specialize (Hvc (claims req) ∅).
  repeat (case_match; simplify_eq/=); naive_solver.
Qed.

(** ** Releasing and settling *)
Lemma release_unsubmitted_spec s id :
  wf s ->
  (exists r t, reservations s !! id = Some r /\ rstate r = Active /\
     release_unsubmitted id s
       = (mkInv (observed s) (location_generations s) (delete id (reservations s)) t, Ok tt) /\
     wf (mkInv (observed s) (location_generations s) (delete id (reservations s)) t)) \/
  (release_unsubmitted id s).1 = s /\ exists m, (release_unsubmitted id s).2 = Err (Msg m).
Proof.
  intros Hwf. unfold release_unsubmitted.
  destruct (reservations s !! id) as [r|] eqn:Er; [|right; eauto].
  case_bool_decide; [|right; eauto]. left.
  destruct (remove_reservation_spec s id Hwf) as (t & -> & Hw).
  exists r, t. by split_and!.
Qed.

Lemma collect_barriers_Ok gens ls acc bs :
  collect_barriers gens ls acc = Ok bs ->
  (forall l b, acc !! l = Some b -> gens !! l = Some b) ->
  (forall l, is_Some (bs !! l) <-> l ∈ ls \/ is_Some (acc !! l)) /\
  (forall l b, bs !! l = Some b -> gens !! l = Some b).
Proof.
  revert acc. induction ls as [|l ls IH]; intros acc H Hacc; simpl in H.
  { injection H as <-. set_solver. }
  res_inv. destruct (IH _ H) as [Hdom Hval].
  - intros l' b. rewrite lookup_insert. case_decide; naive_solver.
  - split; [|done]. intros l'. rewrite Hdom, lookup_insert, elem_of_cons.
    case_decide; [subst; naive_solver eauto|naive_solver].
Qed.

Lemma collect_barriers_Err gens ls acc e :
  collect_barriers gens ls acc = Err e -> exists m, e = Msg m.
Proof.
  revert acc. induction ls as [|l ls IH]; intros acc; simpl; [done|].
  destruct (gens !! l); simpl; [apply IH|]. intros [= <-]. eauto.
Qed.

Lemma mark_pending_settlement_spec s id :
  wf s ->
  (exists r bs, reservations s !! id = Some r /\ rstate r = Active /\
     let s' := mkInv (observed s) (location_generations s)
                 (<[id := mkReservation (request r) (PendingSettlement bs)]> (reservations s))
                 (reserved_totals s) in
     mark_pending_settlement id s = (s', Ok tt) /\ wf s' /\
     dom bs = settlement_locations (request r) /\
     forall l b, bs !! l = Some b -> location_generations s !! l = Some b) \/
  (mark_pending_settlement id s).1 = s /\ exists m, (mark_pending_settlement id s).2 = Err (Msg m).
Proof.
  intros Hwf. unfold mark_pending_settlement.
  destruct (reservations s !! id) as [r|] eqn:Er; [|right; eauto].
  case_bool_decide as Hact; [|right; eauto].
  destruct (collect_barriers _ _ _) as [bs|e] eqn:Ec.
  2:{ apply collect_barriers_Err in Ec as [? ->]. right; eauto. }
  apply collect_barriers_Ok in Ec as [Hdom Hval]; [|by intros ? ? ?%lookup_empty_Some].
  assert (Hd : dom bs = settlement_locations (request r)).
  { apply set_eq. intros l. rewrite elem_of_dom, Hdom, elem_of_elements, lookup_empty.
    split; [intros [?|[? ?]]; done|auto]. }
  left. exists r, bs. split_and!; try done.
  destruct Hwf as [Htot ? ? ? ? ? Hrq Hbar]. constructor; simpl; try done.
  - intros k. by rewrite (claims_total_update k id r) by done.
  - intros id' r'. rewrite lookup_insert. case_decide; [|apply Hrq].
    intros [= <-]. subst. simpl. eapply Hrq, Er.
  - intros id' r' bs'. rewrite lookup_insert. case_decide; [|apply Hbar].
    intros [= <-] [= <-]. simpl. split; [done|]. intros l b Hb. exists b. split; [auto|lia].
Qed.

(** ** One step *)
Lemma reserve_Ok_inv s req s' :
  wf s -> Forall (fun c => u256 (amount c)) (claims req) -> reserve req s = (s', Ok tt) ->
  request_ok req /\ reservations s !! operation_id req = None /\
  admit_claims s (claims req) = Ok tt.
Proof.
  intros Hwf Hty E. unfold reserve in E.
  destruct (let? _ := validate_request req in _) as [[]|] eqn:Eg; [|done].
  apply reserve_guard_iff in Eg as (Hv & Hid & Hadm). by split_and!.
Qed.

Lemma run_op_wf o s : wf s -> op_typed o -> wf (run_op o s).1.
Proof.
  intros Hwf Hty. destruct o as [l g bs|l g bs|req|id|id]; simpl in *.
  - destruct (update_location_outcome s l g bs Hwf Hty) as [(s' & -> & ? & _)|[-> _]]; done.
  - destruct (update_location_assets_outcome s l g bs Hwf Hty) as [(s' & -> & ? & _)|[-> _]]; done.
  - unfold mbind', mret. destruct (reserve req s) as [s' [[]|e]] eqn:E; simpl.
    + destruct (reserve_Ok_inv s req s' Hwf Hty E) as (Hrq & Hid & Hadm).
      destruct (reserve_spec s req Hwf Hrq Hid Hadm) as (t & Heq & Hw & _).
      rewrite Heq in E. by simplify_eq.
    + pose proof (reserve_Err s req e Hwf Hty) as Hatom. rewrite E in Hatom.
      destruct (Hatom eq_refl) as [Hs _]. simpl in Hs. by subst.
  - unfold mbind', mret.
    destruct (release_unsubmitted_spec s id Hwf) as [(r & t & _ & _ & -> & ?)|[Hs [m Hm]]]; [done|].
    destruct (release_unsubmitted id s) as [s' [[]|e]]; simpl in *; by subst.
  - unfold mbind', mret.
    destruct (mark_pending_settlement_spec s id Hwf)
      as [(r & bs & _ & _ & -> & ? & _)|[Hs [m Hm]]]; [done|].
    destruct (mark_pending_settlement id s) as [s' [[]|e]]; simpl in *; by subst.
Qed.

Lemma run_op_Err o s e :
  wf s -> op_typed o -> (run_op o s).2 = Err e ->
  (run_op o s).1 = s /\ forall m, e <> Panic m.
Proof.
  intros Hwf Hty. destruct o as [l g bs|l g bs|req|id|id]; simpl in *.
  - destruct (update_location_outcome s l g bs Hwf Hty) as [(s' & -> & _)|[-> [->|[m ->]]]];
      naive_solver.
  - destruct (update_location_assets_outcome s l g bs Hwf Hty) as [(s' & -> & _)|[-> [->|[m ->]]]];
      naive_solver.
  - unfold mbind', mret. pose proof (reserve_Err s req e Hwf Hty).
    destruct (reserve req s) as [s' [[]|e']]; simpl in *; naive_solver.
  - unfold mbind', mret.
    destruct (release_unsubmitted_spec s id Hwf) as [(r & t & _ & _ & -> & ?)|[Hs [m Hm]]]; [done|].
    destruct (release_unsubmitted id s) as [s' [[]|e']]; simpl in *; naive_solver.
  - unfold mbind', mret.
    destruct (mark_pending_settlement_spec s id Hwf)
      as [(r & bs & _ & _ & -> & ? & _)|[Hs [m Hm]]]; [done|].
    destruct (mark_pending_settlement id s) as [s' [[]|e']]; simpl in *; naive_solver.
Qed.

Lemma empty_wf : wf empty_inventory.
Proof.
  constructor; simpl; try (by intros * ?%lookup_empty_Some).
  - intros k. by rewrite claims_total_empty.
  - by intros k v ?%lookup_empty_Some.
  - intros k. unfold reserved, total_of. simpl. by rewrite lookup_empty.
  - by intros k [? ?%lookup_empty_Some].
Qed.

Lemma reachable_is_wf s : reachable s -> wf s.
Proof.
  unfold reachable. generalize empty_wf. generalize empty_inventory. intros s0 Hwf Hr.
  induction Hr as [|s1 s2 s3 (o & Hty & <-) _ IH]; [done|]. apply IH. by apply run_op_wf.
Qed.


(** ** Properties *)

(** C6. In every state the shared inventory can reach by whole method calls
    from empty, each per-key reserved total is exactly the sum of the claims of
    the live reservations, carries no zero entry and fits in 256 bits; every
    observed key has a generation; every live reservation is a validated
    request filed under its own id; and a pending reservation's barriers are on
    exactly its settlement locations and never ahead of their generation. *)
Theorem inventory_invariant s : reachable s -> wf s.
Proof. apply reachable_is_wf. Qed.

(** C39. No operation on a reachable inventory panics (the [expect] of
    [remove_reservation] always holds), and every operation that returns an
    error, the overflow exit in the middle of [reserve] included, leaves the
    inventory exactly as it was. *)
Theorem inventory_errors_atomic s o e :
  reachable s -> op_typed o -> (run_op o s).2 = Err e ->
  (run_op o s).1 = s /\ forall m, e <> Panic m.
Proof. intros Hr. apply run_op_Err. by apply reachable_is_wf. Qed.

(** [reserve] admits exactly the requests it should: it succeeds if and
    only if the request validates, its operation id is free, and for every
    claim the location is known and the claim plus everything already reserved
    at its key fits in the observed balance. *)
Theorem reserve_succeeds_iff s req :
  reachable s -> Forall (fun c => u256 (amount c)) (claims req) ->
  ((reserve req s).2 = Ok tt <-> guards s req).
Proof.
  intros Hr%reachable_is_wf Hty. split.
  - intros H. destruct (reserve req s) as [s' r] eqn:E. simpl in H. subst r.
    destruct (reserve_Ok_inv s req s' Hr Hty E) as ([Hv _] & Hid & Hadm).
    split_and!; [done|done|]. intros c Hc.
    destruct (proj1 (admit_claims_Ok s (claims req)) Hadm c Hc) as (Hl & o & Ho & H1 & H2).
    split; [done|]. exists o. split; [done|lia].
  - intros (Hv & Hid & Hg).
    destruct (reserve_spec s req Hr (conj Hv Hty) Hid) as (t & -> & _); [|done].
    apply admit_claims_Ok. intros c Hc. destruct (Hg c Hc) as (Hl & o & Ho & H1).
    split; [done|]. exists o. apply (wf_observed s Hr) in Ho as Hu.
    destruct (request_ok_claims req (conj Hv Hty)) as (_ & Ham & _).
    unfold amounts_ok in Ham. rewrite Forall_forall in Ham. specialize (Ham c Hc). split_and!; [done| |]; lia.
Qed.

(** A successful reservation never over-commits: afterwards, at every
    claimed key, the claims of all live reservations together (the new one
    included) do not exceed the observed balance. *)
Theorem reserve_no_overcommit s req s' :
  reachable s -> Forall (fun c => u256 (amount c)) (claims req) ->
  reserve req s = (s', Ok tt) ->
  forall c, c ∈ claims req ->
    exists o, observed s' !! ckey c = Some o /\
      claims_total (ckey c) (reservations s') <= o.
Proof.
  intros Hr%reachable_is_wf Hty E c Hc.
  destruct (reserve_Ok_inv s req s' Hr Hty E) as (Hrq & Hid & Hadm).
  destruct (reserve_spec s req Hr Hrq Hid Hadm) as (t & Heq & Hw & Htot).
  rewrite Heq in E. simplify_eq. simpl.
  destruct (proj1 (admit_claims_Ok s (claims req)) Hadm c Hc) as (_ & o & Ho & H1 & H2).
  exists o. split; [done|]. rewrite <- (wf_totals _ Hw). simpl. rewrite Htot.
  destruct (request_ok_claims req Hrq) as (Hnd & _).
  rewrite claim_sum_present by done. lia.
Qed.

(** A successful reservation lowers the availability of each key by exactly
    what it claims there, and of no other key. *)
Theorem reserve_lowers_available s req s' k a :
  reachable s -> Forall (fun c => u256 (amount c)) (claims req) ->
  reserve req s = (s', Ok tt) -> available s k = Ok a ->
  available s' k = Ok (a - claim_sum k (claims req)).
Proof.
  intros Hr%reachable_is_wf Hty E Ha.
  destruct (reserve_Ok_inv s req s' Hr Hty E) as (Hrq & Hid & Hadm).
  destruct (reserve_spec s req Hr Hrq Hid Hadm) as (t & Heq & Hw & Htot).
  rewrite Heq in E. simplify_eq. unfold available, get_observed in *. res_inv.
  simpl. rewrite Hok. simpl. checked_inv. subst a. unfold reserved in *. simpl.
  rewrite Htot. unfold reserved.
  assert (claim_sum k (claims req) <= x - total_of (reserved_totals s) k) as Hle.
  { destruct (decide (k ∈ ckey <$> claims req)) as [Hk|Hk].
    - apply list_elem_of_fmap_1 in Hk as (c & -> & Hc).
      destruct (request_ok_claims req Hrq) as (Hnd & _).
      rewrite claim_sum_present by done.
      destruct (proj1 (admit_claims_Ok s (claims req)) Hadm c Hc) as (_ & o & Ho & H1 & H2).
      unfold reserved in *. simplify_eq. lia.
    - rewrite claim_sum_absent by done. lia. }
  assert (checked_sub x (total_of (reserved_totals s) k + claim_sum k (claims req))
          = Some (x - (total_of (reserved_totals s) k + claim_sum k (claims req)))) as ->
    by (apply checked_sub_Some; lia).
  simpl. f_equal. lia.
Qed.

(** Reserving and then releasing as unsubmitted is the identity: every map
    of the inventory returns to exactly its previous contents. *)
Theorem reserve_release_roundtrip s req s' :
  reachable s -> Forall (fun c => u256 (amount c)) (claims req) ->
  reserve req s = (s', Ok tt) ->
  release_unsubmitted (operation_id req) s' = (s, Ok tt).
Proof.
  intros Hr%reachable_is_wf Hty E.
  destruct (reserve_Ok_inv s req s' Hr Hty E) as (Hrq & Hid & Hadm).
  destruct (reserve_spec s req Hr Hrq Hid Hadm) as (t & Heq & Hw & Htot).
  rewrite Heq in E. simplify_eq.
  destruct (release_unsubmitted_spec _ (operation_id req) Hw)
    as [(r & t' & _ & _ & -> & Hw')|[_ [m Hm]]].
  - simpl in *. rewrite delete_insert_id in * by done. f_equal.
    assert (t' = reserved_totals s) as ->; [|by destruct s].
    apply canonical_ext; [apply Hw'|apply Hr|]. intros k.
    pose proof (wf_totals _ Hw' k) as Hk. simpl in Hk. by rewrite Hk, (wf_totals s Hr k).
  - exfalso. revert Hm. unfold release_unsubmitted. simpl. rewrite lookup_insert_eq.
    rewrite bool_decide_eq_true_2 by done.
    by destruct (remove_reservation_spec _ (operation_id req) Hw) as (t' & -> & _).
Qed.

(** An accepted balance snapshot, full or partial, installs its strictly
    newer generation and drops exactly the reservations whose settlement it
    completes: those pending whose every barrier is now below the current
    generation of its location.  All other reservations survive unchanged. *)
Theorem snapshot_settles_exactly s l gen bs s' (partial : bool) :
  reachable s -> Forall (fun b => u256 b.2) bs ->
  (if partial then update_location_assets l gen bs s else update_location l gen bs s)
    = (s', Ok true) ->
  location_generations s' = <[l := gen]> (location_generations s) /\
  (forall c, location_generations s !! l = Some c -> c < gen) /\
  forall id r, reservations s' !! id = Some r <->
    reservations s !! id = Some r /\ settled (location_generations s') r = false.
Proof.
  intros Hr%reachable_is_wf Hty E.
  assert (Ho : snapshot_outcome s l gen (s', Ok true)).
  { rewrite <- E. destruct partial;
      [by apply update_location_assets_outcome|by apply update_location_outcome]. }
  destruct Ho as [(s1 & [= <-] & _ & Hg & _ & Hnew & Hres)|[_ [?|[? ?]]]]; [|done|done].
  split_and!; [done|done|]. intros id r. rewrite Hres, Hg. by rewrite map_lookup_filter_Some.
Qed.

(** ** Settlement over a history of operations *)
Definition run_ops (os : list inv_op) (s : InventoryReservations) : InventoryReservations :=
  foldl (fun s o => (run_op o s).1) s os.

(** The operation is not a snapshot of location [l]. *)
Definition avoids (l : InventoryLocation) (o : inv_op) : Prop :=
  match o with
  | OpUpdate l' _ _ | OpUpdateAssets l' _ _ => l' <> l
  | _ => True
  end.

(** [id] is pending with its barrier at [l] still equal to [l]'s generation. *)
Definition awaiting (id : string) (l : InventoryLocation) (r : InventoryReservation)
    (s : InventoryReservations) : Prop :=
  reservations s !! id = Some r /\
  exists bs g, rstate r = PendingSettlement bs /\ bs !! l = Some g /\
    location_generations s !! l = Some g.

Lemma awaiting_not_settled r bs l g gens :
  rstate r = PendingSettlement bs -> bs !! l = Some g -> gens !! l = Some g ->
  settled gens r = false.
Proof.
  intros Hs Hb Hg. unfold settled. rewrite Hs. apply not_true_iff_false. intros H.
  rewrite forallb_forall in H. specialize (H (l, g)).
  rewrite <- list_elem_of_In, elem_of_map_to_list in H. specialize (H Hb). simpl in H.
  rewrite Hg in H. bool_prop. lia.
Qed.

Lemma awaiting_snapshot s l' gen r0 id l r :
  l' <> l -> awaiting id l r s -> snapshot_outcome s l' gen r0 -> awaiting id l r r0.1.
Proof.
  intros Hne (Hr & bs & g & Hs & Hb & Hg) [(s' & -> & _ & Hgens & _ & _ & Hres)|[Heq _]].
  - simpl. assert (Hg' : location_generations s' !! l = Some g)
      by (rewrite Hgens; by rewrite lookup_insert_ne).
    split; [|by exists bs, g]. rewrite Hres. apply map_lookup_filter_Some. split; [done|].
    simpl. eapply awaiting_not_settled; [done|done|]. by rewrite <- Hgens.
  - rewrite Heq. split; eauto 10.
Qed.

Lemma awaiting_step id l r o s :
  wf s -> op_typed o -> avoids l o -> awaiting id l r s -> awaiting id l r (run_op o s).1.
Proof.
  intros Hwf Hty Hav Haw. destruct o as [l' g bs|l' g bs|req|id'|id']; simpl in *.
  - eapply awaiting_snapshot; [done|done|]. by apply update_location_outcome.
  - eapply awaiting_snapshot; [done|done|]. by apply update_location_assets_outcome.
  - unfold mbind', mret. destruct (reserve req s) as [s' [[]|e]] eqn:E; simpl.
    + destruct (reserve_Ok_inv s req s' Hwf Hty E) as (Hrq & Hid & Hadm).
      destruct (reserve_spec s req Hwf Hrq Hid Hadm) as (t & Heq & _).
      rewrite Heq in E. simplify_eq. destruct Haw as [Hr Hrest]. split; [|done].
      simpl. rewrite lookup_insert_ne; [done|congruence].
    + pose proof (reserve_Err s req e Hwf Hty) as Hatom. rewrite E in Hatom.
      destruct (Hatom eq_refl) as [Hs _]. simpl in Hs. by subst.
  - unfold mbind', mret.
    destruct (release_unsubmitted_spec s id' Hwf)
      as [(r' & t & Hr' & Hact & -> & _)|[Hs [m Hm]]].
    + destruct Haw as [Hr (bs & g & Hst & Hrest)]. simpl. split; [simpl|by exists bs, g].
      rewrite lookup_delete_ne; [done|]. intros ->. congruence.
    + destruct (release_unsubmitted id' s) as [s' [[]|e]]; simpl in *; by subst.
  - unfold mbind', mret.
    destruct (mark_pending_settlement_spec s id' Hwf)
      as [(r' & bs' & Hr' & Hact & -> & _)|[Hs [m Hm]]].
    + destruct Haw as [Hr (bs & g & Hst & Hrest)]. simpl. split; [simpl|by exists bs, g].
      rewrite lookup_insert_ne; [done|]. intros ->. congruence.
    + destruct (mark_pending_settlement id' s) as [s' [[]|e]]; simpl in *; by subst.
Qed.

(** Once an operation is marked pending settlement, its reservation stays
    in place, with all its claims, through every sequence of further operations
    that does not refresh one of its settlement locations: no unrelated
    snapshot, reservation, release or settlement can free its capital early. *)
Theorem pending_held_until_refreshed s id s1 r l os :
  reachable s -> mark_pending_settlement id s = (s1, Ok tt) ->
  reservations s1 !! id = Some r -> l ∈ settlement_locations (request r) ->
  Forall (fun o => op_typed o /\ avoids l o) os ->
  reservations (run_ops os s1) !! id = Some r.
Proof.
  intros Hr%reachable_is_wf E Hid Hl Hos.
  destruct (mark_pending_settlement_spec s id Hr)
    as [(r0 & bs & Hr0 & _ & Heq & Hw & Hdom & Hval)|[_ [m Hm]]]; [|by rewrite E in Hm].
  rewrite Heq in E. simplify_eq. simpl in Hid. rewrite lookup_insert_eq in Hid.
  simplify_eq. simpl in Hl. rewrite <- Hdom in Hl.
  apply elem_of_dom in Hl as [g Hg].
  clear Heq. set (s1 := mkInv _ _ _ _) in *. set (r1 := mkReservation _ _).
  assert (Haw : awaiting id l r1 s1).
  { split; [unfold s1; simpl; by rewrite lookup_insert_eq|].
    exists bs, g. split_and!; [done|done|]. by apply Hval. }
  clearbody s1 r1. revert s1 Hw Haw.
  induction Hos as [|o os [Hty Hav] _ IH]; intros s1 Hw Haw; simpl; [apply Haw|].
  apply IH; [by apply run_op_wf|by apply awaiting_step].
Qed.

(** ** A concrete history *)
Definition demo_account : InventoryLocation := BinanceAccount "b".
Definition demo_wallet : InventoryLocation := EvmWallet "n" "w".
Definition demo_request : ReservationRequest :=
  mkRequest "t" TradePrimary
    [mkClaim (mkKey demo_account "U") 40; mkClaim (mkKey demo_wallet "W") 7]
    {[demo_account; demo_wallet]}.
Definition demo_ops : list inv_op :=
  [OpUpdate demo_account 1 [("U"%string, 100); ("W"%string, 5)];
   OpUpdate demo_wallet 1 [("W"%string, 9)]].
Definition demo_state : InventoryReservations := run_ops demo_ops empty_inventory.

Lemma run_ops_reachable os s :
  reachable s -> Forall op_typed os -> reachable (run_ops os s).
Proof.
  intros Hr Hos. revert s Hr. induction Hos as [|o os Hty _ IH]; intros s Hr; simpl; [done|].
  apply IH. eapply rtc_r; [exact Hr|]. by exists o.
Qed.

Lemma demo_reachable : reachable demo_state.
Proof. apply run_ops_reachable; [apply rtc_refl|]. typed. Qed.

Lemma demo_typed : Forall (fun c => u256 (amount c)) (claims demo_request).
Proof. typed. Qed.

Definition demo_reserved : InventoryReservations := (reserve demo_request demo_state).1.
Definition demo_pending : InventoryReservations :=
  (mark_pending_settlement "t" demo_reserved).1.

Lemma demo_reserve : reserve demo_request demo_state = (demo_reserved, Ok tt).
Proof. apply pair_result. vm_compute. reflexivity. Qed.

Lemma demo_mark : mark_pending_settlement "t" demo_reserved = (demo_pending, Ok tt).
Proof. apply pair_result. vm_compute. reflexivity. Qed.

Lemma demo_reserved_reachable : reachable demo_reserved.
Proof.
  eapply rtc_r; [exact demo_reachable|]. exists (OpReserve demo_request).
  split; [exact demo_typed|]. simpl. unfold mbind'. by rewrite demo_reserve.
Qed.

Lemma demo_pending_reachable : reachable demo_pending.
Proof.
  eapply rtc_r; [exact demo_reserved_reachable|]. exists (OpMarkPending "t").
  split; [done|]. simpl. unfold mbind'. by rewrite demo_mark.
Qed.

Definition demo_snapshot : InventoryReservations * result InvError bool :=
  update_location demo_account 2 [("U"%string, 61)] demo_pending.

Lemma demo_snapshot_ok : demo_snapshot = (demo_snapshot.1, Ok true).
Proof. apply pair_result. vm_compute. reflexivity. Qed.

Lemma demo_pending_present :
  exists r, reservations demo_pending !! "t"%string = Some r /\
    demo_wallet ∈ settlement_locations (request r) /\
    settled (location_generations demo_snapshot.1) r = false.
Proof.
  assert (H : match reservations demo_pending !! "t"%string with
              | Some r => bool_decide (demo_wallet ∈ settlement_locations (request r))
                          && negb (settled (location_generations demo_snapshot.1) r)
              | None => false end = true) by (vm_compute; reflexivity).
  destruct (reservations demo_pending !! "t"%string) as [r|]; [|discriminate H].
  exists r. by bool_prop.
Qed.

(** Witnesses: each theorem above applied along that history. *)
Lemma inventory_invariant_witness : wf demo_reserved.
Proof. exact (inventory_invariant demo_reserved demo_reserved_reachable). Defined.

Lemma inventory_errors_atomic_witness : (run_op (OpReserve demo_request) demo_reserved).1 = demo_reserved.
Proof.
  refine (proj1 (inventory_errors_atomic demo_reserved (OpReserve demo_request)
    (Msg "inventory reservation operation already exists") demo_reserved_reachable demo_typed _)).
  vm_compute. reflexivity.
Defined.

Lemma reserve_succeeds_iff_witness : guards demo_state demo_request.
Proof.
  apply (proj1 (reserve_succeeds_iff demo_state demo_request demo_reachable demo_typed)).
  vm_compute. reflexivity.
Defined.

Lemma reserve_no_overcommit_witness :
  exists o, observed demo_reserved !! mkKey demo_account "U" = Some o /\
    claims_total (mkKey demo_account "U") (reservations demo_reserved) <= o.
Proof.
  apply (reserve_no_overcommit demo_state demo_request demo_reserved demo_reachable demo_typed
           demo_reserve (mkClaim (mkKey demo_account "U") 40)).
  left.
Defined.

Lemma reserve_lowers_available_witness :
  available demo_reserved (mkKey demo_account "U") = Ok (100 - 40).
Proof.
  apply (reserve_lowers_available demo_state demo_request demo_reserved
           (mkKey demo_account "U") 100 demo_reachable demo_typed demo_reserve).
  vm_compute. reflexivity.
Defined.

Lemma reserve_release_roundtrip_witness :
  release_unsubmitted "t" demo_reserved = (demo_state, Ok tt).
Proof.
  exact (reserve_release_roundtrip demo_state demo_request demo_reserved
           demo_reachable demo_typed demo_reserve).
Defined.

Lemma snapshot_settles_exactly_witness :
  exists r, reservations demo_pending !! "t"%string = Some r /\
    reservations demo_snapshot.1 !! "t"%string = Some r.
Proof.
  destruct demo_pending_present as (r & Hr & _ & Hs). exists r. split; [exact Hr|].
  apply (snapshot_settles_exactly demo_pending demo_account 2 [("U"%string, 61)]
    demo_snapshot.1 false demo_pending_reachable ltac:(typed) demo_snapshot_ok).
  split; [exact Hr|exact Hs].
Defined.

Lemma pending_held_until_refreshed_witness :
  is_Some (reservations (run_ops [OpUpdate demo_account 2 [("U"%string, 61)]] demo_pending)
             !! "t"%string).
Proof.
  destruct demo_pending_present as (r & Hr & Hl & _). exists r.
  apply (pending_held_until_refreshed demo_reserved "t" demo_pending r demo_wallet
    [OpUpdate demo_account 2 [("U"%string, 61)]] demo_reserved_reachable
    demo_mark Hr Hl ltac:(typed)).
Defined.
