(* ===== verification/Planner.v ===== *)
(** * Rebalance planner ([src/src/rebalance/planner.rs])

    A pure function of a policy, an observed balance pair and the transfers in
    flight: it projects the balances, and when one side is below the start
    balance derived from the reference inventory it plans a single transfer
    toward an even split along the first route that supports the direction. *)
From stdpp Require Import base strings numbers list.
From S2P Require Import Prelude.

Inductive Location := Binance | Wallet.
Inductive Direction := WalletToBinance | BinanceToWallet.

Inductive Route :=
| Direct (binance_network : string) (chain_id : Z)
| Across (binance_network : string) (bridge_chain_id wallet_chain_id : Z).

#[global] Instance Location_eq_dec : EqDecision Location.
Proof. solve_decision. Defined.
#[global] Instance Direction_eq_dec : EqDecision Direction.
Proof. solve_decision. Defined.
#[global] Instance Route_eq_dec : EqDecision Route.
Proof. solve_decision. Defined.

Record WithdrawalRules := mkRules { minimum : Z; maximum : Z; multiple : Z }.
#[global] Instance WithdrawalRules_eq_dec : EqDecision WithdrawalRules.
Proof. solve_decision. Defined.

Record RouteCandidate := mkCandidate {
  route : Route;
  binance_deposit_enabled : bool;
  binance_withdrawal_enabled : bool;
  across_wallet_to_bridge_enabled : bool;
  across_bridge_to_wallet_enabled : bool;
  withdrawal : WithdrawalRules;
}.
#[global] Instance RouteCandidate_eq_dec : EqDecision RouteCandidate.
Proof. solve_decision. Defined.

Record RebalancePolicy := mkPolicy {
  token_symbol : string;
  reference_inventory : Z;
  start_threshold_bps : Z;
  routes : list RouteCandidate;
}.
#[global] Instance RebalancePolicy_eq_dec : EqDecision RebalancePolicy.
Proof. solve_decision. Defined.

Record BalanceSnapshot := mkBalances { binance : Z; wallet : Z }.
#[global] Instance BalanceSnapshot_eq_dec : EqDecision BalanceSnapshot.
Proof. solve_decision. Defined.

Record PendingTransfer := mkPending {
  source : Location;
  destination : Location;
  pamount : Z;
}.

Record RebalanceAction := mkAction {
  direction : Direction;
  amount : Z;
  aroute : Route;
}.
#[global] Instance RebalanceAction_eq_dec : EqDecision RebalanceAction.
Proof. solve_decision. Defined.

Record RebalancePlan := mkPlan {
  projected : BalanceSnapshot;
  plan_reference_inventory : Z;
  plan_start_balance : Z;
  binance_target : Z;
  wallet_target : Z;
  action : option RebalanceAction;
}.
#[global] Instance RebalancePlan_eq_dec : EqDecision RebalancePlan.
Proof. solve_decision. Defined.

(** [Result<_>] with the message's static text. *)
Abbreviation Res := (result string).

Definition validate_candidate (c : RouteCandidate) : Res unit :=
  ensure! negb (multiple (withdrawal c) =? 0)
    else "withdrawal multiple must be positive"%string ;;
  ensure! minimum (withdrawal c) <=? maximum (withdrawal c)
    else "withdrawal minimum exceeds maximum"%string ;;
  Ok tt.

Fixpoint validate_candidates (cs : list RouteCandidate) : Res unit :=
  match cs with
  | [] => Ok tt
  | c :: cs' => let? _ := validate_candidate c in validate_candidates cs'
  end.

Definition validate_policy (p : RebalancePolicy) : Res unit :=
  ensure! negb (trim_is_empty (token_symbol p)) else "rebalance token symbol is empty"%string ;;
  ensure! negb (reference_inventory p =? 0)
    else "reference inventory must be positive"%string ;;
  ensure! (0 <? start_threshold_bps p) && (start_threshold_bps p <? 5000)
    else "rebalance start threshold must be between 1 and 4999 bps"%string ;;
  ensure! negb (bool_decide (routes p = [])) else "has no configured rebalance routes"%string ;;
  validate_candidates (routes p).

Definition start_balance (p : RebalancePolicy) : Res Z :=
  let? sb :=
    or_err (option_map (fun scaled => scaled / 10000)
              (checked_mul 256 (reference_inventory p) (start_threshold_bps p)))
           "start balance overflow"%string in
  ensure! negb (sb =? 0) else "derived start balance is zero"%string ;;
  Ok sb.

Fixpoint projected_balances (snap : BalanceSnapshot) (pending : list PendingTransfer)
  : Res BalanceSnapshot :=
  match pending with
  | [] => Ok snap
  | t :: rest =>
      ensure! negb (bool_decide (source t = destination t))
        else "pending transfer source and destination are identical"%string ;;
      let? next :=
        match source t, destination t with
        | Binance, Wallet =>
            let? b := or_err (checked_sub (binance snap) (pamount t))
                        "pending Binance debit exceeds the observed balance"%string in
            let? w := or_err (checked_add 256 (wallet snap) (pamount t))
                        "pending wallet credit overflows the projected balance"%string in
            Ok (mkBalances b w)
        | Wallet, Binance =>
            let? w := or_err (checked_sub (wallet snap) (pamount t))
                        "pending wallet debit exceeds the observed balance"%string in
            let? b := or_err (checked_add 256 (binance snap) (pamount t))
                        "pending Binance credit overflows the projected balance"%string in
            Ok (mkBalances b w)
        | _, _ => Err "unreachable: identical locations are rejected above"%string
        end in
      projected_balances next rest
  end.

Definition supports (c : RouteCandidate) (d : Direction) : bool :=
  match route c, d with
  | Direct _ _, WalletToBinance => binance_deposit_enabled c
  | Direct _ _, BinanceToWallet => binance_withdrawal_enabled c
  | Across _ _ _, WalletToBinance =>
      binance_deposit_enabled c && across_wallet_to_bridge_enabled c
  | Across _ _ _, BinanceToWallet =>
      binance_withdrawal_enabled c && across_bridge_to_wallet_enabled c
  end.

Definition select_route (p : RebalancePolicy) (d : Direction) : Res RouteCandidate :=
  or_err (List.find (fun c => supports c d) (routes p)) "has no currently available route"%string.

Definition constrain_withdrawal (requested : Z) (rules : WithdrawalRules) : Z :=
  if requested =? 0 then 0 else
  let bounded := Z.min (Z.max requested (minimum rules)) (maximum rules) in
  let rounded := bounded - bounded mod multiple rules in
  if rounded <? minimum rules then 0 else rounded.

Definition plan_binance_refill (p : RebalancePolicy) (proj : BalanceSnapshot)
    (start target : Z) : Res (option RebalanceAction) :=
  let wallet_surplus := default 0 (checked_sub (wallet proj) start) in
  let target_deficit := default 0 (checked_sub target (binance proj)) in
  let amt := Z.min target_deficit wallet_surplus in
  if amt =? 0 then Ok None else
  let? candidate := select_route p WalletToBinance in
  Ok (Some (mkAction WalletToBinance amt (route candidate))).

Definition plan_wallet_refill (p : RebalancePolicy) (proj : BalanceSnapshot)
    (start target : Z) : Res (option RebalanceAction) :=
  let binance_surplus := default 0 (checked_sub (binance proj) start) in
  let target_deficit := default 0 (checked_sub target (wallet proj)) in
  let requested := Z.min target_deficit binance_surplus in
  if requested =? 0 then Ok None else
  let? candidate := select_route p BinanceToWallet in
  let amt := constrain_withdrawal requested (withdrawal candidate) in
  Ok (if negb (amt =? 0) && (amt <=? binance_surplus)
      then Some (mkAction BinanceToWallet amt (route candidate)) else None).

Definition plan_rebalance (p : RebalancePolicy) (snap : BalanceSnapshot)
    (pending : list PendingTransfer) : Res RebalancePlan :=
  let? _ := validate_policy p in
  let? sb := start_balance p in
  let? proj := projected_balances snap pending in
  let? total := or_err (checked_add 256 (binance proj) (wallet proj)) "inventory overflow"%string in
  let? required := or_err (checked_mul 256 sb 2) "minimum inventory overflow"%string in
  ensure! required <=? total
    else "total inventory is below the configured minimum"%string ;;
  let bt := total / 2 in
  let wt := total - bt in
  let? act :=
    if binance proj <? sb then plan_binance_refill p proj sb bt
    else if wallet proj <? sb then plan_wallet_refill p proj sb wt
    else Ok None in
  Ok (mkPlan proj (reference_inventory p) sb bt wt act).

(** ** Executing a plan's action on the projected balances *)
Definition apply_action (b : BalanceSnapshot) (a : RebalanceAction) : BalanceSnapshot :=
  match direction a with
  | WalletToBinance => mkBalances (binance b + amount a) (wallet b - amount a)
  | BinanceToWallet => mkBalances (binance b - amount a) (wallet b + amount a)
  end.

Definition side (b : BalanceSnapshot) (l : Location) : Z :=
  match l with Binance => binance b | Wallet => wallet b end.
Definition from_side (d : Direction) : Location :=
  match d with WalletToBinance => Wallet | BinanceToWallet => Binance end.
Definition to_side (d : Direction) : Location :=
  match d with WalletToBinance => Binance | BinanceToWallet => Wallet end.

(** Machine types of the inputs. *)
Definition policy_typed (p : RebalancePolicy) : Prop :=
  u256 (reference_inventory p) /\ uint 16 (start_threshold_bps p) /\
  Forall (fun c => u256 (minimum (withdrawal c)) /\ u256 (maximum (withdrawal c)) /\
                   u256 (multiple (withdrawal c))) (routes p).
Definition balances_typed (b : BalanceSnapshot) : Prop := u256 (binance b) /\ u256 (wallet b).
Definition pending_typed (ts : list PendingTransfer) : Prop := Forall (fun t => u256 (pamount t)) ts.

(** ** Lemmas *)
Lemma validate_candidates_Ok cs u :
  validate_candidates cs = Ok u ->
  Forall (fun c => multiple (withdrawal c) <> 0 /\
                   minimum (withdrawal c) <= maximum (withdrawal c)) cs.
Proof.
  induction cs as [|c cs IH]; simpl; intros H; [constructor|].
  unfold validate_candidate in H. res_inv. bool_prop. constructor; auto.
Qed.

Lemma validate_policy_Ok p u :
  validate_policy p = Ok u ->
  reference_inventory p <> 0 /\ 0 < start_threshold_bps p < 5000 /\ routes p <> [] /\
  Forall (fun c => multiple (withdrawal c) <> 0 /\
                   minimum (withdrawal c) <= maximum (withdrawal c)) (routes p).
Proof.
  unfold validate_policy. intros H. res_inv. bool_prop.
  apply validate_candidates_Ok in H. by split_and!.
Qed.

Lemma start_balance_Ok p sb :
  start_balance p = Ok sb ->
  sb = reference_inventory p * start_threshold_bps p / 10000 /\ sb <> 0 /\
  reference_inventory p * start_threshold_bps p < 2 ^ 256.
Proof.
  unfold start_balance. intros H. res_inv. bool_prop.
  destruct (checked_mul 256 _ _) as [m|] eqn:E; [|done]. simpl in Hok. checked_inv. naive_solver.
Qed.

Lemma projected_step_total t snap next :
  (match source t, destination t with
   | Binance, Wallet =>
       let? b := or_err (checked_sub (binance snap) (pamount t))
                   "pending Binance debit exceeds the observed balance"%string in
       let? w := or_err (checked_add 256 (wallet snap) (pamount t))
                   "pending wallet credit overflows the projected balance"%string in
       Ok (mkBalances b w)
   | Wallet, Binance =>
       let? w := or_err (checked_sub (wallet snap) (pamount t))
                   "pending wallet debit exceeds the observed balance"%string in
       let? b := or_err (checked_add 256 (binance snap) (pamount t))
                   "pending Binance credit overflows the projected balance"%string in
       Ok (mkBalances b w)
   | _, _ => Err "unreachable: identical locations are rejected above"%string
   end : Res BalanceSnapshot) = Ok next ->
  binance next + wallet next = binance snap + wallet snap /\
  (balances_typed snap -> u256 (pamount t) -> balances_typed next).
Proof.
  unfold balances_typed, uint.
  destruct (source t), (destination t); intros H; try discriminate; res_inv; checked_inv;
    subst; simpl; lia.
Qed.

Lemma projected_balances_Ok snap ts proj :
  projected_balances snap ts = Ok proj -> balances_typed snap -> pending_typed ts ->
  binance proj + wallet proj = binance snap + wallet snap /\ balances_typed proj.
Proof.
  revert snap. induction ts as [|t ts IH]; intros snap H Hs Ht; simpl in H; [naive_solver|].
  apply Forall_cons_1 in Ht as [Hp Ht]. res_inv. apply projected_step_total in Hok0 as [Heq Hty].
  destruct (IH _ H (Hty Hs Hp) Ht). split; [lia|done].
Qed.

Lemma select_route_Ok p d c :
  select_route p d = Ok c -> c ∈ routes p /\ supports c d = true.
Proof.
  unfold select_route. intros H. res_inv.
  apply (List.find_some (fun c => supports c d)) in H as [Hin Hs].
  split; [by apply list_elem_of_In|done].
Qed.

(** A non-zero constrained amount obeys the rules it was constrained by. *)
Lemma constrain_withdrawal_spec requested rules :
  0 <= requested -> u256 (minimum rules) -> minimum rules <= maximum rules ->
  0 < multiple rules ->
  let amt := constrain_withdrawal requested rules in
  0 <= amt /\
  (amt <> 0 -> minimum rules <= amt <= maximum rules /\ amt mod multiple rules = 0).
Proof.
  intros Hr [Hmin _] Hle Hm. unfold constrain_withdrawal. simpl.
  destruct (Z.eqb_spec requested 0); [lia|].
  set (b := Z.min (Z.max requested (minimum rules)) (maximum rules)).
  pose proof (Z.mod_pos_bound b (multiple rules) Hm).
  destruct (Z.ltb_spec (b - b mod multiple rules) (minimum rules)); [lia|].
  split; [lia|]. intros _. split; [lia|].
  rewrite Zminus_mod_idemp_r, Z.sub_diag. done.
Qed.

(** Everything a successful plan has checked. *)
Lemma plan_rebalance_Ok p snap ts plan :
  plan_rebalance p snap ts = Ok plan ->
  policy_typed p -> balances_typed snap -> pending_typed ts ->
  let sb := plan_start_balance plan in
  let proj := projected plan in
  validate_policy p = Ok tt /\ start_balance p = Ok sb /\
  projected_balances snap ts = Ok proj /\ balances_typed proj /\
  binance proj + wallet proj = binance snap + wallet snap /\
  0 < sb /\ 2 * sb <= binance proj + wallet proj < 2 ^ 256 /\
  binance_target plan = (binance proj + wallet proj) / 2 /\
  wallet_target plan = binance proj + wallet proj - binance_target plan /\
  (if binance proj <? sb then plan_binance_refill p proj sb (binance_target plan)
   else if wallet proj <? sb then plan_wallet_refill p proj sb (wallet_target plan)
   else Ok None) = Ok (action plan).
Proof.
  intros H Hp Hs Ht. unfold plan_rebalance in H. res_inv. checked_inv. bool_prop. subst.
  destruct x. apply start_balance_Ok in Hok0 as Hsb. destruct Hsb as (Hsb & Hnz & _).
  destruct (projected_balances_Ok _ _ _ Hok1 Hs Ht) as [Htot Hty].
  destruct Hp as ([Hri _] & [Hbps _] & _).
  assert (0 <= x0) by (rewrite Hsb; apply Z.div_pos; nia).
  simpl in *. split_and!; try done; lia.
Qed.

Lemma checked_sub_default a b : default 0 (checked_sub a b) = Z.max 0 (a - b).
Proof. unfold checked_sub. destruct (Z.leb_spec b a); simpl; lia. Qed.

Lemma half_bounds t : 0 <= t -> t / 2 <= t - t / 2 <= t / 2 + 1.
Proof. intros. pose proof (Z.div_mod t 2). pose proof (Z.mod_pos_bound t 2). lia. Qed.

(** The two refill branches, inverted. *)
Lemma plan_binance_refill_Some p proj sb bt a :
  plan_binance_refill p proj sb bt = Ok (Some a) ->
  direction a = WalletToBinance /\
  amount a = Z.min (Z.max 0 (bt - binance proj)) (Z.max 0 (wallet proj - sb)) /\
  amount a <> 0 /\
  exists c, select_route p WalletToBinance = Ok c /\ aroute a = route c.
Proof.
  unfold plan_binance_refill. rewrite !checked_sub_default. intros H.
  destruct (Z.eqb_spec (Z.min (Z.max 0 (bt - binance proj)) (Z.max 0 (wallet proj - sb))) 0);
    [discriminate H|]. res_inv. simpl. split_and!; try done. eauto.
Qed.

Lemma plan_wallet_refill_Some p proj sb wt a :
  plan_wallet_refill p proj sb wt = Ok (Some a) ->
  direction a = BinanceToWallet /\ amount a <> 0 /\
  amount a <= Z.max 0 (binance proj - sb) /\
  exists c requested, select_route p BinanceToWallet = Ok c /\ aroute a = route c /\
    0 <= requested /\ amount a = constrain_withdrawal requested (withdrawal c).
Proof.
  unfold plan_wallet_refill. rewrite !checked_sub_default. intros H.
  set (r := Z.min (Z.max 0 (wt - wallet proj)) (Z.max 0 (binance proj - sb))) in *.
  destruct (Z.eqb_spec r 0); [discriminate H|]. res_inv.
  destruct (negb (constrain_withdrawal r (withdrawal x) =? 0)
            && (constrain_withdrawal r (withdrawal x) <=? Z.max 0 (binance proj - sb))) eqn:E;
    [|discriminate H]. injection H as <-. bool_prop. simpl. split_and!; try done.
  exists x, r. split_and!; try done. lia.
Qed.

Lemma route_rules p c :
  validate_policy p = Ok tt -> policy_typed p -> c ∈ routes p ->
  u256 (minimum (withdrawal c)) /\ minimum (withdrawal c) <= maximum (withdrawal c) /\
  0 < multiple (withdrawal c).
Proof.
  intros Hv (_ & _ & Hty) Hc. apply validate_policy_Ok in Hv as (_ & _ & _ & Hr).
  rewrite Forall_forall in Hty, Hr. specialize (Hty c Hc). specialize (Hr c Hc).
  simpl in *. unfold uint in *. lia.
Qed.

(** What is common to the action of either direction. *)
Lemma plan_action_spec p snap ts plan a :
  plan_rebalance p snap ts = Ok plan ->
  policy_typed p -> balances_typed snap -> pending_typed ts -> action plan = Some a ->
  0 < amount a /\
  side (projected plan) (to_side (direction a)) < plan_start_balance plan /\
  plan_start_balance plan <= side (projected plan) (from_side (direction a)) - amount a /\
  exists c, c ∈ routes p /\ supports c (direction a) = true /\ aroute a = route c /\
    (direction a = BinanceToWallet ->
     minimum (withdrawal c) <= amount a <= maximum (withdrawal c) /\
     amount a mod multiple (withdrawal c) = 0).
Proof.
  intros H Hp Hs Ht Ha.
  destruct (plan_rebalance_Ok _ _ _ _ H Hp Hs Ht)
    as (Hv & _ & _ & [Hb Hw] & _ & Hsb & Hreq & Hbt & Hwt & Hact).
  rewrite Ha in Hact. unfold uint in *.
  destruct (Z.ltb_spec (binance (projected plan)) (plan_start_balance plan)) as [Hlow|Hlow].
  - apply plan_binance_refill_Some in Hact as (-> & -> & Hnz & c & Hc & Hr).
    simpl. rewrite Hbt in *.
    pose proof (half_bounds (binance (projected plan) + wallet (projected plan))).
    apply select_route_Ok in Hc as [Hin Hsup].
    split_and!; [lia|lia|lia|]. exists c. split_and!; try done.
  - destruct (Z.ltb_spec (wallet (projected plan)) (plan_start_balance plan)) as [Hlow'|];
      [|discriminate Hact].
    apply plan_wallet_refill_Some in Hact as (-> & Hnz & Hle & c & r & Hc & Hr & Hpos & Heq).
    apply select_route_Ok in Hc as [Hin Hsup].
    destruct (route_rules p c Hv Hp Hin) as (Hmin & Hmm & Hmul).
    destruct (constrain_withdrawal_spec r (withdrawal c) Hpos Hmin Hmm Hmul) as [Hge Hok].
    rewrite <- Heq in *. simpl. split_and!; [lia|lia|lia|].
    exists c. split_and!; try done. intros _. by apply Hok.
Qed.

(** ** Properties *)

(** C24. A planned transfer is positive, is planned only toward a side whose
    projected balance is below the start balance, and never takes the source
    side below the start balance itself, even when a withdrawal is raised to
    the venue's minimum. *)
Theorem plan_keeps_source_funded p snap ts plan a :
  plan_rebalance p snap ts = Ok plan ->
  policy_typed p -> balances_typed snap -> pending_typed ts -> action plan = Some a ->
  0 < amount a /\
  side (projected plan) (to_side (direction a)) < plan_start_balance plan /\
  plan_start_balance plan <= side (projected plan) (from_side (direction a)) - amount a.
Proof. intros H Hp Hs Ht Ha. destruct (plan_action_spec p snap ts plan a); naive_solver. Qed.

(** The route of a planned transfer is a configured one that supports the
    direction now, and a withdrawal amount obeys that route's venue rules: it is
    between the minimum and the maximum and a whole number of multiples. *)
Theorem plan_route_admissible p snap ts plan a :
  plan_rebalance p snap ts = Ok plan ->
  policy_typed p -> balances_typed snap -> pending_typed ts -> action plan = Some a ->
  exists c, c ∈ routes p /\ supports c (direction a) = true /\ aroute a = route c /\
    (direction a = BinanceToWallet ->
     minimum (withdrawal c) <= amount a <= maximum (withdrawal c) /\
     amount a mod multiple (withdrawal c) = 0).
Proof. intros H Hp Hs Ht Ha. by destruct (plan_action_spec p snap ts plan a) as (_ & _ & _ & ?). Qed.

(** A Binance refill converges in one transfer: once the planned amount
    has arrived, Binance sits exactly on its target, and planning again from
    the resulting balances succeeds with the same start balance and no action,
    so the planner does not oscillate. *)
Theorem binance_refill_converges p snap ts plan a :
  plan_rebalance p snap ts = Ok plan ->
  policy_typed p -> balances_typed snap -> pending_typed ts ->
  action plan = Some a -> direction a = WalletToBinance ->
  let after := apply_action (projected plan) a in
  binance after = binance_target plan /\ wallet after = wallet_target plan /\
  plan_rebalance p after [] =
    Ok (mkPlan after (reference_inventory p) (plan_start_balance plan)
               (binance_target plan) (wallet_target plan) None).
Proof.
  intros H Hp Hs Ht Ha Hd.
  destruct (plan_rebalance_Ok _ _ _ _ H Hp Hs Ht)
    as (Hv & Hstart & _ & [Hb Hw] & _ & Hsb & Hreq & Hbt & Hwt & Hact).
  pose proof (plan_action_spec p snap ts plan a H Hp Hs Ht Ha) as (Hpos & Hlow & _).
  rewrite Ha, Hd in *. simpl in Hlow. unfold uint in *.
  rewrite (proj2 (Z.ltb_lt _ _) Hlow) in Hact.
  apply plan_binance_refill_Some in Hact as (_ & Hamt & _ & _).
  set (b := binance (projected plan)) in *. set (w := wallet (projected plan)) in *.
  pose proof (half_bounds (b + w)) as Hhalf.
  assert (Hamt' : amount a = binance_target plan - b) by lia.
  unfold apply_action. rewrite Hd. fold b w. simpl.
  assert (Hb' : b + amount a = binance_target plan) by lia.
  assert (Hw' : w - amount a = wallet_target plan) by lia.
  split_and!; [done|done|]. rewrite Hb', Hw'.
  unfold plan_rebalance. rewrite Hv, Hstart. simpl.
  assert (checked_add 256 (binance_target plan) (wallet_target plan) = Some (b + w)) as ->
    by (apply checked_add_Some; lia).
  assert (checked_mul 256 (plan_start_balance plan) 2 = Some (plan_start_balance plan * 2)) as ->
    by (apply checked_mul_Some; lia).
  simpl. rewrite (proj2 (Z.leb_le _ _)) by lia. simpl. rewrite <- Hbt.
  rewrite (proj2 (Z.ltb_ge _ _)) by lia. rewrite (proj2 (Z.ltb_ge _ _)) by lia. simpl.
  by rewrite <- Hwt.
Qed.

(** Projecting the transfers in flight moves balances between the two
    sides without creating or destroying inventory and stays within 256 bits;
    and a plan's two targets split the observed total exactly, differing by at
    most one base unit. *)
Theorem plan_conserves_inventory p snap ts plan :
  plan_rebalance p snap ts = Ok plan ->
  policy_typed p -> balances_typed snap -> pending_typed ts ->
  binance (projected plan) + wallet (projected plan) = binance snap + wallet snap /\
  binance_target plan + wallet_target plan = binance snap + wallet snap /\
  0 <= wallet_target plan - binance_target plan <= 1 /\
  balances_typed (projected plan).
Proof.
  intros H Hp Hs Ht.
  destruct (plan_rebalance_Ok _ _ _ _ H Hp Hs Ht)
    as (Hv & _ & _ & [Hb Hw] & Htot & Hsb & Hreq & Hbt & Hwt & _).
  pose proof (half_bounds (binance (projected plan) + wallet (projected plan))).
  split_and!; try lia. by split.
Qed.

(** A validated policy can always be planned while the inventory it was
    captured from is intact: with nothing in flight, a total of at least the
    reference inventory is never refused as below the minimum, and when neither
    side is below the start balance the plan succeeds with no action. *)
Theorem intact_inventory_is_plannable p snap sb :
  validate_policy p = Ok tt -> policy_typed p -> balances_typed snap ->
  start_balance p = Ok sb ->
  reference_inventory p <= binance snap + wallet snap < 2 ^ 256 ->
  sb <= binance snap -> sb <= wallet snap ->
  plan_rebalance p snap [] =
    Ok (mkPlan snap (reference_inventory p) sb ((binance snap + wallet snap) / 2)
          (binance snap + wallet snap - (binance snap + wallet snap) / 2) None).
Proof.
  intros Hv ([Hri _] & _ & _) _ Hsb Htot Hb Hw.
  apply start_balance_Ok in Hsb as Hs. destruct Hs as (Hval & _ & _).
  apply validate_policy_Ok in Hv as Hp. destruct Hp as (_ & Hbps & _ & _).
  assert (2 * sb <= reference_inventory p).
  { pose proof (Z.mul_div_le (reference_inventory p * start_threshold_bps p) 10000).
    rewrite <- Hval in *. nia. }
  unfold plan_rebalance. rewrite Hv, Hsb. simpl.
  assert (checked_add 256 (binance snap) (wallet snap) = Some (binance snap + wallet snap)) as ->
    by (apply checked_add_Some; lia).
  assert (checked_mul 256 sb 2 = Some (sb * 2)) as -> by (apply checked_mul_Some; lia).
  simpl. rewrite (proj2 (Z.leb_le _ _)) by lia. simpl.
  rewrite (proj2 (Z.ltb_ge _ _)) by lia. by rewrite (proj2 (Z.ltb_ge _ _)) by lia.
Qed.

(** ** Concrete plans *)
Definition demo_direct : RouteCandidate :=
  mkCandidate (Direct "WORLDCHAIN" 480) true true false false (mkRules 10 500 5).
Definition demo_policy : RebalancePolicy := mkPolicy "USDC" 1000 2000 [demo_direct].

Lemma demo_policy_typed : policy_typed demo_policy.
Proof. typed. Qed.

Lemma demo_snap_typed b w : 0 <= b <= 2000 -> 0 <= w <= 2000 -> balances_typed (mkBalances b w).
Proof. typed. Qed.

(** 150 on Binance, 900 in the wallet, 30 on its way to Binance. *)
Definition demo_snap : BalanceSnapshot := mkBalances 150 900.
Definition demo_flight : list PendingTransfer := [mkPending Wallet Binance 30].
Definition demo_plan : RebalancePlan :=
  mkPlan (mkBalances 180 870) 1000 200 525 525
         (Some (mkAction WalletToBinance 345 (Direct "WORLDCHAIN" 480))).
Lemma demo_planned : plan_rebalance demo_policy demo_snap demo_flight = Ok demo_plan.
Proof. reflexivity. Qed.

(** A wallet refill whose amount is rounded down to the withdrawal multiple. *)
Definition demo_withdraw : RebalancePlan :=
  mkPlan (mkBalances 913 100) 1000 200 506 507
         (Some (mkAction BinanceToWallet 405 (Direct "WORLDCHAIN" 480))).
Lemma demo_withdrawn : plan_rebalance demo_policy (mkBalances 913 100) [] = Ok demo_withdraw.
Proof. reflexivity. Qed.

Lemma plan_keeps_source_funded_witness : 200 <= 913 - 405.
Proof.
  apply (plan_keeps_source_funded demo_policy (mkBalances 913 100) [] demo_withdraw
           (mkAction BinanceToWallet 405 (Direct "WORLDCHAIN" 480)) demo_withdrawn
           demo_policy_typed (demo_snap_typed 913 100 ltac:(lia) ltac:(lia)) ltac:(typed) eq_refl).
Defined.

Lemma plan_route_admissible_witness :
  exists c, c ∈ routes demo_policy /\ supports c BinanceToWallet = true /\
    Direct "WORLDCHAIN" 480 = route c /\
    (BinanceToWallet = BinanceToWallet ->
     minimum (withdrawal c) <= 405 <= maximum (withdrawal c) /\
     405 mod multiple (withdrawal c) = 0).
Proof.
  apply (plan_route_admissible demo_policy (mkBalances 913 100) [] demo_withdraw
           (mkAction BinanceToWallet 405 (Direct "WORLDCHAIN" 480)) demo_withdrawn
           demo_policy_typed (demo_snap_typed 913 100 ltac:(lia) ltac:(lia)) ltac:(typed) eq_refl).
Defined.

Lemma binance_refill_converges_witness :
  plan_rebalance demo_policy (mkBalances 525 525) [] =
    Ok (mkPlan (mkBalances 525 525) 1000 200 525 525 None).
Proof.
  apply (binance_refill_converges demo_policy demo_snap demo_flight demo_plan
           (mkAction WalletToBinance 345 (Direct "WORLDCHAIN" 480)) demo_planned
           demo_policy_typed (demo_snap_typed 150 900 ltac:(lia) ltac:(lia)) ltac:(typed)
           eq_refl eq_refl).
Defined.

Lemma plan_conserves_inventory_witness : 180 + 870 = 150 + 900.
Proof.
  apply (plan_conserves_inventory demo_policy demo_snap demo_flight demo_plan demo_planned
           demo_policy_typed (demo_snap_typed 150 900 ltac:(lia) ltac:(lia)) ltac:(typed)).
Defined.

Lemma intact_inventory_is_plannable_witness :
  plan_rebalance demo_policy (mkBalances 600 401) [] =
    Ok (mkPlan (mkBalances 600 401) 1000 200 500 501 None).
Proof.
  exact (intact_inventory_is_plannable demo_policy (mkBalances 600 401) 200 eq_refl
           demo_policy_typed (demo_snap_typed 600 401 ltac:(lia) ltac:(lia)) eq_refl
           ltac:(simpl; lia) ltac:(simpl; lia) ltac:(simpl; lia)).
Defined.
