(* ===== verification/Decimals.v ===== *)
(** * Decimal numbers

    The crate's exact decimal type is modelled by what its documentation makes
    public: an integer [mantissa] and a [scale], of value
    [mantissa / 10^scale], with comparison and equality by value.  Checked
    arithmetic is the interface [DecimalArith], exact where the result fits. *)
From Stdlib Require Import Lia.
From stdpp Require Import base numbers.
From S2P Require Import Prelude.

Record Decimal := mkDecimal { mantissa : Z; scale : Z }.
#[global] Instance Decimal_eq_dec : EqDecision Decimal.
Proof. solve_decision. Defined.

(** 96-bit mantissa, scale at most 28. *)
Definition decimal_ok (d : Decimal) : Prop :=
  - 2 ^ 96 < mantissa d < 2 ^ 96 /\ 0 <= scale d <= 28.
#[global] Instance decimal_ok_dec d : Decision (decimal_ok d).
Proof. unfold decimal_ok. apply _. Defined.

Definition dec_zero : Decimal := mkDecimal 0 0.

(** Comparison by value, on a common denominator. *)
Definition dec_cross (a b : Decimal) : Z * Z :=
  (mantissa a * 10 ^ scale b, mantissa b * 10 ^ scale a).
Definition dec_leb (a b : Decimal) : bool := (dec_cross a b).1 <=? (dec_cross a b).2.
Definition dec_ltb (a b : Decimal) : bool := (dec_cross a b).1 <? (dec_cross a b).2.
Definition dec_eqb (a b : Decimal) : bool := (dec_cross a b).1 =? (dec_cross a b).2.

Definition dec_le (a b : Decimal) : Prop := (dec_cross a b).1 <= (dec_cross a b).2.
Definition dec_lt (a b : Decimal) : Prop := (dec_cross a b).1 < (dec_cross a b).2.
Definition dec_eq (a b : Decimal) : Prop := (dec_cross a b).1 = (dec_cross a b).2.

Lemma dec_leb_le a b : dec_leb a b = true <-> dec_le a b.
Proof. apply Z.leb_le. Qed.
Lemma dec_ltb_lt a b : dec_ltb a b = true <-> dec_lt a b.
Proof. apply Z.ltb_lt. Qed.
Lemma dec_eqb_eq a b : dec_eqb a b = true <-> dec_eq a b.
Proof. apply Z.eqb_eq. Qed.
Lemma dec_ltb_ge a b : dec_ltb a b = false <-> dec_le b a.
Proof. unfold dec_ltb, dec_le, dec_cross. simpl. rewrite Z.ltb_ge. lia. Qed.

Section order.
Implicit Types a b c : Decimal.

Lemma dec_le_trans a b c :
  0 <= scale a -> 0 <= scale b -> 0 <= scale c -> dec_le a b -> dec_le b c -> dec_le a c.
Proof.
  unfold dec_le, dec_cross. simpl. intros Ha Hb Hc H1 H2.
  pose proof (Z.pow_pos_nonneg 10 (scale a)). pose proof (Z.pow_pos_nonneg 10 (scale b)).
  pose proof (Z.pow_pos_nonneg 10 (scale c)).
  apply (Zmult_le_reg_r _ _ (10 ^ scale b)); [lia|].
  transitivity (mantissa b * 10 ^ scale a * 10 ^ scale c); nia.
Qed.

Lemma dec_lt_le_trans a b c :
  0 <= scale a -> 0 <= scale b -> 0 <= scale c -> dec_lt a b -> dec_le b c -> dec_lt a c.
Proof.
  unfold dec_lt, dec_le, dec_cross. simpl. intros Ha Hb Hc H1 H2.
  pose proof (Z.pow_pos_nonneg 10 (scale a)). pose proof (Z.pow_pos_nonneg 10 (scale b)).
  pose proof (Z.pow_pos_nonneg 10 (scale c)).
  apply (Z.mul_lt_mono_pos_r (10 ^ scale b)); [lia|].
  apply (Z.lt_le_trans _ (mantissa b * 10 ^ scale a * 10 ^ scale c)); nia.
Qed.

Lemma dec_le_lt_trans a b c :
  0 <= scale a -> 0 <= scale b -> 0 <= scale c -> dec_le a b -> dec_lt b c -> dec_lt a c.
Proof.
  unfold dec_lt, dec_le, dec_cross. simpl. intros Ha Hb Hc H1 H2.
  pose proof (Z.pow_pos_nonneg 10 (scale a)). pose proof (Z.pow_pos_nonneg 10 (scale b)).
  pose proof (Z.pow_pos_nonneg 10 (scale c)).
  apply (Z.mul_lt_mono_pos_r (10 ^ scale b)); [lia|].
  apply (Z.le_lt_trans _ (mantissa b * 10 ^ scale a * 10 ^ scale c)); nia.
Qed.
End order.

Lemma dec_zero_le v : dec_leb dec_zero v = (0 <=? mantissa v).
Proof. unfold dec_leb, dec_cross. simpl. by rewrite Z.mul_1_r. Qed.

Lemma dec_zero_lt v : dec_ltb dec_zero v = (0 <? mantissa v).
Proof. unfold dec_ltb, dec_cross. simpl. by rewrite Z.mul_1_r. Qed.

(** ** Canonical form

    Decimals that are equal by value have the same form without trailing
    zeros, so structures that contain decimals are compared with the code's
    [==] by comparing their canonical forms. *)
Fixpoint strip_zeros (fuel : nat) (d : Decimal) : Decimal :=
  match fuel with
  | O => d
  | S f =>
      if (0 <? scale d) && (mantissa d mod 10 =? 0)
      then strip_zeros f (mkDecimal (mantissa d / 10) (scale d - 1)) else d
  end.
Definition dec_norm (d : Decimal) : Decimal := strip_zeros (Z.to_nat (scale d)) d.

Lemma strip_zeros_spec fuel d :
  0 <= scale d <= Z.of_nat fuel ->
  let r := strip_zeros fuel d in
  exists k, 0 <= k /\ scale d = scale r + k /\ mantissa d = mantissa r * 10 ^ k /\
    0 <= scale r /\ (scale r = 0 \/ mantissa r mod 10 <> 0).
Proof.
  revert d. induction fuel as [|fuel IH]; intros d Hd; simpl.
  { exists 0. rewrite Z.pow_0_r. split_and!; lia. }
  destruct (_ && _) eqn:E; bool_prop.
  - destruct (IH (mkDecimal (mantissa d / 10) (scale d - 1))) as (k & Hk & Hs & Hm & Hr & Hor);
      [simpl; lia|]. simpl in *. exists (k + 1).
    rewrite Z.pow_add_r by lia. split_and!; try done; try lia.
    pose proof (Z.div_mod (mantissa d) 10). lia.
  - exists 0. rewrite Z.pow_0_r. split_and!; lia.
Qed.

(** The canonical form decides equality by value. *)
Lemma dec_norm_eq a b :
  0 <= scale a -> 0 <= scale b -> dec_norm a = dec_norm b <-> dec_eq a b.
Proof.
  intros Ha Hb.
  destruct (strip_zeros_spec (Z.to_nat (scale a)) a ltac:(lia)) as (ka & Hka & Hsa & Hma & Hra & Hoa).
  destruct (strip_zeros_spec (Z.to_nat (scale b)) b ltac:(lia)) as (kb & Hkb & Hsb & Hmb & Hrb & Hob).
  unfold dec_norm, dec_eq, dec_cross. simpl.
  set (ra := strip_zeros _ a) in *. set (rb := strip_zeros _ b) in *.
  rewrite Hsa, Hsb, Hma, Hmb, !Z.pow_add_r by lia.
  assert (H10 : forall k, 0 <= k -> 0 < 10 ^ k) by (intros; by apply Z.pow_pos_nonneg).
  pose proof (H10 ka Hka). pose proof (H10 kb Hkb).
  transitivity (mantissa ra * 10 ^ scale rb = mantissa rb * 10 ^ scale ra).
  2:{ generalize (10 ^ ka) (10 ^ kb) (10 ^ scale ra) (10 ^ scale rb) (mantissa ra) (mantissa rb) H H0.
      intros P Q R S x y HP HQ. split; intros He; [|apply (Z.mul_reg_r _ _ (P * Q)); lia].
      replace (x * P * (S * Q)) with (x * S * (P * Q)) by ring. rewrite He. ring. }
  split; [by intros ->|]. intros He.
  assert (Hdiv : forall x y, 0 <= scale x -> 0 <= scale y -> scale x < scale y ->
            mantissa x * 10 ^ scale y = mantissa y * 10 ^ scale x -> mantissa y mod 10 = 0).
  { intros x y Hx Hy Hlt Heq.
    replace (scale y) with (scale y - scale x - 1 + 1 + scale x) in Heq by lia.
    rewrite !Z.pow_add_r in Heq by lia. pose proof (H10 (scale x) Hx).
    assert (mantissa y = mantissa x * 10 ^ (scale y - scale x - 1) * 10) as -> by nia.
    apply Z_mod_mult. }
  destruct (Z.lt_trichotomy (scale ra) (scale rb)) as [Hlt|[Heq|Hgt]].
  - exfalso. pose proof (Hdiv ra rb Hra Hrb Hlt He). lia.
  - rewrite Heq in He. pose proof (H10 (scale rb) Hrb).
    assert (mantissa ra = mantissa rb) by nia. destruct ra, rb; simpl in *; congruence.
  - exfalso. pose proof (Hdiv rb ra Hrb Hra Hgt ltac:(lia)). lia.
Qed.

(** ** Integer units

    On a grid of [s] decimal places a decimal is an integer; order, equality and
    exact arithmetic are those of the integers. *)
Definition units (s : Z) (d : Decimal) : Z := mantissa d * 10 ^ (s - scale d).
Definition on_grid (s : Z) (d : Decimal) : Prop := decimal_ok d /\ scale d <= s.
#[global] Instance on_grid_dec s d : Decision (on_grid s d).
Proof. unfold on_grid. apply _. Defined.

(** The finest grid holds every decimal. *)
Definition ticks (d : Decimal) : Z := units 28 d.

Lemma decimal_on_grid d : decimal_ok d -> on_grid 28 d.
Proof. intros Hd. split; [done|]. apply Hd. Qed.

Lemma cross_units s a b :
  on_grid s a -> on_grid s b ->
  exists k, 0 < k /\ units s a * k = (dec_cross a b).1 /\ units s b * k = (dec_cross a b).2 \/
            0 < k /\ units s a = (dec_cross a b).1 * k /\ units s b = (dec_cross a b).2 * k.
Proof.
  intros [[_ Ha] Hsa] [[_ Hb] Hsb]. unfold units, dec_cross. simpl.
  destruct (Z.le_ge_cases s (scale a + scale b)) as [Hle|Hge].
  - exists (10 ^ (scale a + scale b - s)). left. split; [by apply Z.pow_pos_nonneg; lia|].
    rewrite <- !Z.mul_assoc, <- !Z.pow_add_r by lia. split; do 2 f_equal; lia.
  - exists (10 ^ (s - scale a - scale b)). right. split; [by apply Z.pow_pos_nonneg; lia|].
    rewrite <- !Z.mul_assoc, <- !Z.pow_add_r by lia. split; do 2 f_equal; lia.
Qed.

Lemma dec_ltb_units s a b : on_grid s a -> on_grid s b -> dec_ltb a b = (units s a <? units s b).
Proof.
  intros Ha Hb. destruct (cross_units s a b Ha Hb) as (k & [(Hk & H1 & H2)|(Hk & H1 & H2)]);
    unfold dec_ltb; apply Bool.eq_iff_eq_true; rewrite !Z.ltb_lt; nia.
Qed.
Lemma dec_leb_units s a b : on_grid s a -> on_grid s b -> dec_leb a b = (units s a <=? units s b).
Proof.
  intros Ha Hb. destruct (cross_units s a b Ha Hb) as (k & [(Hk & H1 & H2)|(Hk & H1 & H2)]);
    unfold dec_leb; apply Bool.eq_iff_eq_true; rewrite !Z.leb_le; nia.
Qed.
Lemma dec_eqb_units s a b : on_grid s a -> on_grid s b -> dec_eqb a b = (units s a =? units s b).
Proof.
  intros Ha Hb. destruct (cross_units s a b Ha Hb) as (k & [(Hk & H1 & H2)|(Hk & H1 & H2)]);
    unfold dec_eqb; apply Bool.eq_iff_eq_true; rewrite !Z.eqb_eq; nia.
Qed.

Lemma units_sign s d : on_grid s d -> (0 < units s d <-> 0 < mantissa d) /\ (units s d = 0 <-> mantissa d = 0).
Proof.
  intros [[_ Hd] Hs]. unfold units. assert (0 < 10 ^ (s - scale d)) by (apply Z.pow_pos_nonneg; lia).
  split; nia.
Qed.

(** ** Arithmetic

    The crate's checked operations are exact whenever the exact result fits the
    96-bit mantissa on the common grid; beyond that they may round or fail, and
    nothing is assumed. *)
Class DecimalArith := {
  dec_checked_add : Decimal -> Decimal -> option Decimal;
  dec_checked_sub : Decimal -> Decimal -> option Decimal;
  dec_checked_mul : Decimal -> Decimal -> option Decimal;
}.

Class DecimalLaws `{DecimalArith} : Prop := {
  dec_add_exact s a b :
    on_grid s a -> on_grid s b -> 0 <= s <= 28 -> Z.abs (units s a + units s b) < 2 ^ 96 ->
    exists r, dec_checked_add a b = Some r /\ on_grid s r /\ units s r = units s a + units s b;
  dec_sub_exact s a b :
    on_grid s a -> on_grid s b -> 0 <= s <= 28 -> Z.abs (units s a - units s b) < 2 ^ 96 ->
    exists r, dec_checked_sub a b = Some r /\ on_grid s r /\ units s r = units s a - units s b;
  dec_mul_exact s t a b :
    on_grid s a -> on_grid t b -> 0 <= s -> 0 <= t -> s + t <= 28 ->
    Z.abs (units s a * units t b) < 2 ^ 96 ->
    exists r, dec_checked_mul a b = Some r /\ on_grid (s + t) r /\
      units (s + t) r = units s a * units t b;
}.
