(* ===== verification/Tracker.v ===== *)
(** * Rebalance tracker ([src/src/rebalance/tracker.rs])

    Per-token state that captures the reference inventory from the first
    snapshot it sees, replans on every later one, and reports the plans that
    changed; and the conversions of venue decimals to token base units that
    feed the planner. *)
From Stdlib Require Import Lia Znumtheory.
From stdpp Require Import base gmap sets strings numbers list fin_maps.
From S2P Require Import Prelude Decimals Planner.

(** ** Base-unit conversions *)
Fixpoint pow10 (exponent : nat) : Res Z :=
  match exponent with
  | O => Ok 1
  | S e => let? r := pow10 e in or_err (checked_mul 256 r 10) "decimal scale overflow"%string
  end.

Definition decimal_to_base_units (v : Decimal) (decimals : Z) : Res Z :=
  ensure! dec_leb dec_zero v else "decimal amount must not be negative"%string ;;
  ensure! 0 <=? mantissa v else "decimal mantissa must not be negative"%string ;;
  let? p := pow10 (Z.to_nat decimals) in
  let? numerator := or_err (checked_mul 256 (mantissa v) p)
                      "decimal base-unit numerator overflow"%string in
  let? denominator := pow10 (Z.to_nat (scale v)) in
  ensure! numerator mod denominator =? 0
    else "decimal amount has more precision than token base units"%string ;;
  Ok (numerator / denominator).

Definition decimal_to_base_units_floor (v : Decimal) (decimals : Z) : Res Z :=
  ensure! dec_leb dec_zero v else "decimal balance must not be negative"%string ;;
  ensure! 0 <=? mantissa v else "decimal mantissa must not be negative"%string ;;
  let? p := pow10 (Z.to_nat decimals) in
  let? numerator := or_err (checked_mul 256 (mantissa v) p)
                      "decimal balance base-unit numerator overflow"%string in
  let? denominator := pow10 (Z.to_nat (scale v)) in
  Ok (numerator / denominator).

(** The Euclidean loop; [None] is running out of fuel. *)
Fixpoint u256_gcd_loop (fuel : nat) (l r : Z) : option Z :=
  match fuel with
  | O => None
  | S f => if r =? 0 then Some l else u256_gcd_loop f r (l mod r)
  end.

(** 513 iterations cover any two 256-bit operands ([u256_gcd_loop_total]). *)
Definition gcd_fuel : nat := 513.
Definition u256_gcd (l r : Z) : option Z := u256_gcd_loop gcd_fuel l r.

Definition decimal_multiple_to_base_unit_step (v : Decimal) (decimals : Z) : Res Z :=
  ensure! dec_leb dec_zero v else "decimal multiple must not be negative"%string ;;
  ensure! 0 <=? mantissa v else "decimal mantissa must not be negative"%string ;;
  if mantissa v =? 0 then Ok 1 else
  let? p := pow10 (Z.to_nat decimals) in
  let? numerator := or_err (checked_mul 256 (mantissa v) p)
                      "decimal multiple base-unit numerator overflow"%string in
  let? denominator := pow10 (Z.to_nat (scale v)) in
  let? g := or_err (u256_gcd numerator denominator) "gcd loop out of fuel"%string in
  Ok (numerator / g).

(** ** Routes from the venue's capital configuration *)
Record NetworkInformation := mkNetwork {
  network : string;
  name : string;
  deposit_enable : bool;
  withdraw_enable : bool;
  busy : bool;
  withdraw_fee : Decimal;
  withdraw_min : Decimal;
  withdraw_max : Decimal;
  withdraw_integer_multiple : Decimal;
}.

Definition deposit_available (n : NetworkInformation) : bool := deposit_enable n && negb (busy n).
Definition withdrawal_available (n : NetworkInformation) : bool :=
  withdraw_enable n && negb (busy n).

Record CapitalRouteState := mkCapital {
  coin : string;
  deposit_all_enabled : bool;
  withdrawal_all_enabled : bool;
  direct : option NetworkInformation;
  fallback : option NetworkInformation;
}.

Definition OPTIMISM_CHAIN_ID : Z := 10.

Definition route_candidate (c : CapitalRouteState) (n : NetworkInformation) (r : Route)
    (decimals : Z) (across : bool) : Res RouteCandidate :=
  let? mult := decimal_multiple_to_base_unit_step (withdraw_integer_multiple n) decimals in
  let? mn := decimal_to_base_units (withdraw_min n) decimals in
  let? mx := decimal_to_base_units (withdraw_max n) decimals in
  Ok (mkCandidate r (deposit_all_enabled c && deposit_available n)
        (withdrawal_all_enabled c && withdrawal_available n) across across
        (mkRules mn mx mult)).

Definition route_candidates_from_capital (c : CapitalRouteState) (decimals wallet_chain_id : Z)
  : Res (list RouteCandidate) :=
  let? d :=
    match direct c with
    | None => Ok []
    | Some n =>
        let? r := route_candidate c n (Direct (network n) wallet_chain_id) decimals false in
        Ok [r]
    end in
  let? f :=
    match fallback c with
    | None => Ok []
    | Some n =>
        let? r := route_candidate c n (Across (network n) OPTIMISM_CHAIN_ID wallet_chain_id)
                    decimals true in
        Ok [r]
    end in
  ensure! negb (bool_decide (d ++ f = [])) else "has no rebalance routes"%string ;;
  Ok (d ++ f).

(** ** The tracker *)
Record RebalanceEvaluation := mkEvaluation {
  ev_symbol : string;
  ev_decimals : Z;
  reference_captured : bool;
  ev_plan : RebalancePlan;
}.

Record TokenTracker := mkToken {
  symbol : string;
  decimals : Z;
  tk_threshold_bps : Z;
  tk_routes : list RouteCandidate;
  policy : option RebalancePolicy;
  last_plan : option RebalancePlan;
}.

Record RebalanceTracker := mkTracker {
  enabled : bool;
  tokens : list TokenTracker;
  balanced : bool;
}.

Record TokenConfig := mkTokenConfig { cfg_symbol : string; cfg_decimals : Z }.
Record PairConfig := mkPair {
  token_a : TokenConfig;
  token_b : TokenConfig;
  rebalance_enabled : bool;
  rebalance_threshold_bps : Z;
}.

(** The parts of the balance snapshots the tracker reads: the free balance per
    Binance asset, and the wallet's token balances in snapshot order. *)
Abbreviation BinanceBalances := (gmap string Decimal).
Abbreviation WalletBalances := (list (string * Z)).

Definition disabled : RebalanceTracker := mkTracker false [] true.

Definition new_token (p : PairConfig) (rs : gmap string (list RouteCandidate)) (t : TokenConfig)
  : Res TokenTracker :=
  let? token_routes := or_err (rs !! cfg_symbol t) "missing rebalance routes"%string in
  ensure! negb (bool_decide (token_routes = [])) else "rebalance routes are empty"%string ;;
  Ok (mkToken (cfg_symbol t) (cfg_decimals t) (rebalance_threshold_bps p) token_routes None None).

Fixpoint collect_ok {A B} (f : A -> Res B) (l : list A) : Res (list B) :=
  match l with
  | [] => Ok []
  | a :: l' => let? b := f a in let? bs := collect_ok f l' in Ok (b :: bs)
  end.

Definition new_for_tokens (p : PairConfig) (rs : gmap string (list RouteCandidate))
    (symbols : list string) : Res RebalanceTracker :=
  if negb (rebalance_enabled p) then Ok disabled else
  let selected : gset string := list_to_set symbols in
  ensure! negb (bool_decide (selected = ∅)) else "rebalance token selection is empty"%string ;;
  let? ts := collect_ok (new_token p rs)
               (filter (fun t => cfg_symbol t ∈ selected) [token_a p; token_b p]) in
  ensure! bool_decide (length ts = size selected)
    else "rebalance token selection contains an asset outside pair"%string ;;
  Ok (mkTracker true ts false).

Definition new_tracker (p : PairConfig) (rs : gmap string (list RouteCandidate))
  : Res RebalanceTracker :=
  new_for_tokens p rs [cfg_symbol (token_a p); cfg_symbol (token_b p)].

Definition token_snapshot (t : TokenTracker) (b : BinanceBalances) (w : WalletBalances)
  : Res BalanceSnapshot :=
  let? free := or_err (b !! symbol t) "Binance balance snapshot is missing"%string in
  let? wb := or_err (List.find (fun e => String.eqb e.1 (symbol t)) w)
               "wallet balance snapshot is missing"%string in
  let? base := decimal_to_base_units_floor free (decimals t) in
  Ok (mkBalances base wb.2).

(** One iteration of the loop of [evaluate]: the token afterwards, and the
    evaluation to report with whether the plan is idle. *)
Definition evaluate_token (b : BinanceBalances) (w : WalletBalances) (t : TokenTracker)
  : TokenTracker * Res (option RebalanceEvaluation * bool) :=
  match token_snapshot t b w with
  | Err e => (t, Err e)
  | Ok snapshot =>
      let captured := bool_decide (policy t = None) in
      let with_policy : Res RebalancePolicy :=
        match policy t with
        | Some p => Ok p
        | None =>
            let? reference := or_err (checked_add 256 (binance snapshot) (wallet snapshot))
                                "reference inventory overflow"%string in
            ensure! negb (reference =? 0) else "reference inventory is zero"%string ;;
            Ok (mkPolicy (symbol t) reference (tk_threshold_bps t) (tk_routes t))
        end in
      match with_policy with
      | Err e => (t, Err e)
      | Ok p =>
          let t1 := mkToken (symbol t) (decimals t) (tk_threshold_bps t) (tk_routes t)
                      (Some p) (last_plan t) in
          match plan_rebalance p snapshot [] with
          | Err e => (t1, Err e)
          | Ok plan =>
              let idle := bool_decide (action plan = None) in
              if negb (bool_decide (last_plan t = Some plan)) || captured
              then (mkToken (symbol t) (decimals t) (tk_threshold_bps t) (tk_routes t)
                      (Some p) (Some plan),
                    Ok (Some (mkEvaluation (symbol t) (decimals t) captured plan), idle))
              else (t1, Ok (None, idle))
          end
      end
  end.

Fixpoint evaluate_tokens (b : BinanceBalances) (w : WalletBalances) (ts : list TokenTracker)
  : list TokenTracker * Res (list RebalanceEvaluation * bool) :=
  match ts with
  | [] => ([], Ok ([], true))
  | t :: ts' =>
      match evaluate_token b w t with
      | (t1, Err e) => (t1 :: ts', Err e)
      | (t1, Ok (ev, idle)) =>
          match evaluate_tokens b w ts' with
          | (ts1, Err e) => (t1 :: ts1, Err e)
          | (ts1, Ok (evs, all_idle)) =>
              (t1 :: ts1, Ok (match ev with Some e => e :: evs | None => evs end,
                              idle && all_idle))
          end
      end
  end.

Definition evaluate (b : BinanceBalances) (w : WalletBalances)
  : M RebalanceTracker string (list RebalanceEvaluation) :=
  fun s =>
    if negb (enabled s) then (s, Ok []) else
    match evaluate_tokens b w (tokens s) with
    | (ts, Err e) => (mkTracker (enabled s) ts (balanced s), Err e)
    | (ts, Ok (evs, all_idle)) => (mkTracker (enabled s) ts all_idle, Ok evs)
    end.

Definition mark_unbalanced (s : RebalanceTracker) : RebalanceTracker :=
  if enabled s then mkTracker (enabled s) (tokens s) false else s.

Definition token_action (blocked : gset string) (t : TokenTracker) : option RebalanceEvaluation :=
  if bool_decide (symbol t ∈ blocked) then None else
  match last_plan t with
  | None => None
  | Some plan =>
      match action plan with
      | None => None
      | Some _ => Some (mkEvaluation (symbol t) (decimals t) false plan)
      end
  end.

(** [Iterator::find_map]. *)
Fixpoint find_map {A B} (f : A -> option B) (l : list A) : option B :=
  match l with
  | [] => None
  | a :: l' => match f a with Some b => Some b | None => find_map f l' end
  end.

Definition pending_action_excluding (blocked : gset string) (s : RebalanceTracker)
  : option RebalanceEvaluation := find_map (token_action blocked) (tokens s).

Definition pending_action (s : RebalanceTracker) : option RebalanceEvaluation :=
  pending_action_excluding ∅ s.

(** ** Conversions: lemmas *)
Lemma pow10_Ok e p : pow10 e = Ok p <-> p = 10 ^ Z.of_nat e /\ 10 ^ Z.of_nat e < 2 ^ 256.
Proof.
  revert p. induction e as [|e IH]; intros p; simpl pow10.
  { split; [intros [= <-]; done|intros [-> _]; done]. }
  rewrite Nat2Z.inj_succ, Z.pow_succ_r by lia.
  split.
  - intros H. res_inv. apply IH in Hok as [-> _]. checked_inv. lia.
  - intros [-> Hlt]. rewrite (proj2 (IH (10 ^ Z.of_nat e))) by lia. simpl.
    assert (checked_mul 256 (10 ^ Z.of_nat e) 10 = Some (10 * 10 ^ Z.of_nat e)) as ->
      by (apply checked_mul_Some; lia). done.
Qed.

Lemma pow10_to_nat e p : 0 <= e -> pow10 (Z.to_nat e) = Ok p -> p = 10 ^ e /\ 0 < p.
Proof.
  intros He H. apply pow10_Ok in H as [-> _]. rewrite Z2Nat.id by done. split; [done|lia].
Qed.

(** Two iterations at least halve the second operand. *)
Lemma mod_mod_halves b r : 0 < r < b -> 2 * (b mod r) < b.
Proof.
  intros H. pose proof (Z.mod_pos_bound b r ltac:(lia)). pose proof (Z.div_mod b r ltac:(lia)).
  assert (1 <= b / r) by (apply Z.div_le_lower_bound; lia). nia.
Qed.

Lemma u256_gcd_loop_total k l r :
  0 <= l -> 0 <= r < 2 ^ Z.of_nat k -> u256_gcd_loop (2 * k + 1) l r = Some (Z.gcd l r).
Proof.
  revert l r. induction k as [|k IH]; intros l r Hl Hr.
  - assert (r = 0) as -> by (simpl in Hr; lia). simpl. rewrite Z.gcd_0_r. f_equal. lia.
  - replace (2 * S k + 1)%nat with (S (S (2 * k + 1))) by lia. cbn [u256_gcd_loop].
    destruct (Z.eqb_spec r 0) as [->|Hr0].
    { rewrite Z.gcd_0_r. f_equal. lia. }
    pose proof (Z.mod_pos_bound l r ltac:(lia)) as Hm.
    destruct (Z.eqb_spec (l mod r) 0) as [Hm0|Hm0].
    { rewrite Z.gcd_comm, <- Z.gcd_mod by lia. rewrite Hm0, Z.gcd_0_l. f_equal. lia. }
    pose proof (mod_mod_halves r (l mod r) ltac:(lia)).
    pose proof (Z.mod_pos_bound r (l mod r) ltac:(lia)).
    rewrite Nat2Z.inj_succ, Z.pow_succ_r in Hr by lia.
    rewrite IH by lia. f_equal.
    rewrite (Z.gcd_comm (l mod r) (r mod (l mod r))), (Z.gcd_mod r (l mod r)) by lia.
    rewrite (Z.gcd_mod l r) by lia. apply Z.gcd_comm.
Qed.

Lemma u256_gcd_spec l r : 0 <= l -> u256 r -> u256_gcd l r = Some (Z.gcd l r).
Proof. intros Hl Hr. apply (u256_gcd_loop_total 256); [done|]. exact Hr. Qed.

Lemma gcd_pos a b : 0 < a -> 0 < Z.gcd a b.
Proof.
  intros Ha. pose proof (Z.gcd_nonneg a b).
  destruct (Z.eq_dec (Z.gcd a b) 0) as [Hz%Z.gcd_eq_0_l|]; lia.
Qed.

(** Dividing by the gcd leaves the exact step. *)
Lemma div_gcd_divides num den n :
  0 < num -> 0 < den -> ((num | n * den) <-> (num / Z.gcd num den | n)).
Proof.
  intros Hn Hd. set (g := Z.gcd num den).
  assert (Hg : 0 < g) by (by apply gcd_pos).
  destruct (Z.gcd_divide_l num den) as [a Ha]. destruct (Z.gcd_divide_r num den) as [b Hb].
  fold g in Ha, Hb.
  assert (Hcop : Z.gcd a b = 1).
  { apply (Z.mul_cancel_l _ _ g); [lia|]. rewrite Z.mul_1_r.
    rewrite <- Z.gcd_mul_mono_l_nonneg by lia.
    rewrite (Z.mul_comm g a), (Z.mul_comm g b), <- Ha, <- Hb. done. }
  assert (num / g = a) as -> by (rewrite Ha; apply Z.div_mul; lia).
  rewrite Ha, Hb. split.
  - intros [q Hq]. apply (Z.gauss a b n); [|done]. exists q.
    apply (Z.mul_cancel_r _ _ g); [lia|]. lia.
  - intros [q ->]. exists (q * b). lia.
Qed.

(** ** Properties of the conversions *)

(** The Euclidean loop over 256-bit operands terminates within its 513
    iterations and returns the greatest common divisor. *)
Theorem u256_gcd_correct l r : u256 l -> u256 r -> u256_gcd l r = Some (Z.gcd l r).
Proof. intros [Hl _]. by apply u256_gcd_spec. Qed.

(** The base-unit step computed for a venue's withdrawal multiple is
    positive and exact: a base-unit amount [n] is a whole multiple of the
    venue's decimal multiple if and only if it is a multiple of the step, so
    rounding down to the step neither breaks the venue's rule nor discards an
    admissible amount. *)
Theorem withdrawal_step_exact v d step :
  decimal_ok v -> 0 <= d -> 0 < mantissa v ->
  decimal_multiple_to_base_unit_step v d = Ok step ->
  0 < step /\
  forall n, (mantissa v * 10 ^ d | n * 10 ^ scale v) <-> (step | n).
Proof.
  intros [_ Hs] Hd Hm H. unfold decimal_multiple_to_base_unit_step in H. res_inv.
  rewrite (proj2 (Z.eqb_neq _ _)) in H by lia. res_inv. checked_inv.
  apply pow10_to_nat in Hok1 as [-> Hp]; [|done].
  pose proof Hok3 as Hden. apply pow10_Ok in Hden as [_ Hlt].
  apply pow10_to_nat in Hok3 as [-> Hq]; [|lia].
  rewrite Z2Nat.id in Hlt by lia.
  rewrite u256_gcd_spec in Hok4 by (split || nia; lia). injection Hok4 as <-. subst x2.
  assert (Hnum : 0 < mantissa v * 10 ^ d) by nia.
  split; [|intros n; by apply div_gcd_divides].
  apply Z.div_str_pos. split; [by apply gcd_pos|].
  apply Z.divide_pos_le; [done|apply Z.gcd_divide_l].
Qed.

(** Converting a venue balance to base units rounds down to the largest
    amount that the balance covers, and the exact conversion succeeds only
    when it loses nothing, on which both conversions agree. *)
Theorem base_units_floor_spec v d n :
  decimal_ok v -> 0 <= d ->
  decimal_to_base_units_floor v d = Ok n ->
  (n * 10 ^ scale v <= mantissa v * 10 ^ d < (n + 1) * 10 ^ scale v) /\ 0 <= n /\
  forall e, decimal_to_base_units v d = Ok e -> e = n /\ e * 10 ^ scale v = mantissa v * 10 ^ d.
Proof.
  intros [_ Hs] Hd H. unfold decimal_to_base_units_floor in H. res_inv. checked_inv. bool_prop.
  apply pow10_to_nat in Hok1 as Hx1; [|done]. apply pow10_to_nat in Hok3 as Hx3; [|lia].
  destruct Hx1 as [-> Hp], Hx3 as [-> Hq]. subst x2.
  pose proof (Z.div_mod (mantissa v * 10 ^ d) (10 ^ scale v) ltac:(lia)).
  pose proof (Z.mod_pos_bound (mantissa v * 10 ^ d) (10 ^ scale v) Hq).
  assert (0 <= mantissa v * 10 ^ d / 10 ^ scale v) by (apply Z.div_pos; nia).
  split_and!; try nia. intros e He. unfold decimal_to_base_units in He.
  rewrite Hok1, Hok3 in He. res_inv. checked_inv. bool_prop. simplify_eq. split; [done|nia].
Qed.

(** ** The tracker: lemmas *)

(** The identity of a token never changes and a captured policy is kept. *)
Definition token_kept (t t' : TokenTracker) : Prop :=
  symbol t' = symbol t /\ decimals t' = decimals t /\
  tk_threshold_bps t' = tk_threshold_bps t /\ tk_routes t' = tk_routes t /\
  forall p, policy t = Some p -> policy t' = Some p.

(** The token holds the plan of the balances [b], [w]. *)
Definition token_current (b : BinanceBalances) (w : WalletBalances) (t : TokenTracker) : Prop :=
  exists p snap plan, policy t = Some p /\ token_snapshot t b w = Ok snap /\
    plan_rebalance p snap [] = Ok plan /\ last_plan t = Some plan.

Lemma token_kept_refl t : token_kept t t.
Proof. by split_and!. Qed.

Lemma evaluate_token_kept b w t : token_kept t (evaluate_token b w t).1.
Proof.
  unfold evaluate_token. destruct (token_snapshot t b w); [|apply token_kept_refl].
  destruct (match policy t with Some p => Ok p | None => _ end) as [p|] eqn:E;
    [|apply token_kept_refl].
  assert (Hk : forall lp, token_kept t
    (mkToken (symbol t) (decimals t) (tk_threshold_bps t) (tk_routes t) (Some p) lp)).
  { intros lp. split_and!; try done. intros p' Hp'. simpl. rewrite Hp' in E. congruence. }
  repeat case_match; simpl; apply Hk.
Qed.

Lemma evaluate_token_Ok b w t t' ev idle :
  evaluate_token b w t = (t', Ok (ev, idle)) ->
  token_current b w t' /\
  (idle = true <-> exists plan, last_plan t' = Some plan /\ action plan = None).
Proof.
  unfold evaluate_token. destruct (token_snapshot t b w) as [snap|] eqn:Es; [|done].
  destruct (match policy t with Some p => Ok p | None => _ end) as [p|] eqn:E; [|done].
  destruct (plan_rebalance p snap []) as [plan|] eqn:Ep; [|done].
  destruct (negb (bool_decide (last_plan t = Some plan)) || bool_decide (policy t = None)) eqn:Eb;
    intros [= <- <- <-]; simpl.
  - split; [by exists p, snap, plan|]. rewrite bool_decide_eq_true. naive_solver.
  - bool_prop. split; [by exists p, snap, plan|]. rewrite bool_decide_eq_true. naive_solver.
Qed.

(** A token that is current is left alone and reported on no more. *)
Lemma evaluate_token_idem b w t :
  token_current b w t -> exists idle, evaluate_token b w t = (t, Ok (None, idle)) /\
    (idle = true <-> exists plan, last_plan t = Some plan /\ action plan = None).
Proof.
  intros (p & snap & plan & Hp & Hs & Hplan & Hl). unfold evaluate_token.
  rewrite Hs, Hp, Hplan, Hl. rewrite (bool_decide_eq_true_2 (Some plan = Some plan)) by done.
  rewrite (bool_decide_eq_false_2 (Some p = None)) by done. simpl.
  eexists. split; [by destruct t; simpl in *; subst|].
  rewrite bool_decide_eq_true. naive_solver.
Qed.

Lemma evaluate_tokens_kept b w ts : Forall2 token_kept ts (evaluate_tokens b w ts).1.
Proof.
  induction ts as [|t ts IH]; simpl; [constructor|].
  pose proof (evaluate_token_kept b w t) as Hk.
  destruct (evaluate_token b w t) as [t1 [[ev idle]|e]]; simpl in *.
  - destruct (evaluate_tokens b w ts) as [ts1 [[evs all]|e]]; simpl in *; by constructor.
  - constructor; [done|]. clear. induction ts; constructor; [apply token_kept_refl|done].
Qed.

Lemma evaluate_tokens_Ok b w ts ts' evs idle :
  evaluate_tokens b w ts = (ts', Ok (evs, idle)) ->
  Forall (token_current b w) ts' /\
  (idle = true <-> Forall (fun t => exists plan, last_plan t = Some plan /\ action plan = None) ts').
Proof.
  revert ts' evs idle. induction ts as [|t ts IH]; simpl; intros ts' evs idle H.
  { injection H as <- <- <-. split; [constructor|split; [constructor|done]]. }
  destruct (evaluate_token b w t) as [t1 [[ev i]|e]] eqn:Et; [|done].
  destruct (evaluate_tokens b w ts) as [ts1 [[evs1 all]|e]] eqn:Ets; [|done].
  injection H as <- <- <-. apply evaluate_token_Ok in Et as [Hc Hi].
  destruct (IH _ _ _ eq_refl) as [Hcs Hall]. split; [by constructor|].
  rewrite andb_true_iff, Forall_cons. by rewrite Hi, Hall.
Qed.

Lemma evaluate_tokens_idem b w ts :
  Forall (token_current b w) ts ->
  exists idle, evaluate_tokens b w ts = (ts, Ok ([], idle)) /\
    (idle = true <-> Forall (fun t => exists plan, last_plan t = Some plan /\ action plan = None) ts).
Proof.
  induction 1 as [|t ts Ht _ (all & Hall & Hiff)]; simpl.
  { exists true. split; [done|]. split; [constructor|done]. }
  destruct (evaluate_token_idem b w t Ht) as (i & -> & Hi). rewrite Hall.
  exists (i && all). split; [done|]. by rewrite andb_true_iff, Forall_cons, Hi, Hiff.
Qed.

Lemma find_map_None {A B} (f : A -> option B) l :
  find_map f l = None <-> Forall (fun a => f a = None) l.
Proof.
  induction l as [|a l IH]; simpl; [split; [constructor|done]|].
  rewrite Forall_cons. destruct (f a); naive_solver.
Qed.

Lemma token_current_idle b w t :
  token_current b w t ->
  (token_action ∅ t = None <-> exists plan, last_plan t = Some plan /\ action plan = None).
Proof.
  intros (p & snap & plan & _ & _ & _ & Hl). unfold token_action. rewrite Hl.
  rewrite bool_decide_eq_false_2 by set_solver.
  split.
  - intros H. exists plan. split; [done|]. by destruct (action plan).
  - intros (plan' & [= <-] & ->). done.
Qed.

(** ** Properties of the tracker *)

(** The reference inventory of a token is captured once: no evaluation,
    failing or not, changes the policy of a token that already has one, nor
    the identity, routes or threshold of any token. *)
Theorem reference_captured_once b w s :
  Forall2 token_kept (tokens s) (tokens (evaluate b w s).1).
Proof.
  unfold evaluate. destruct (enabled s); simpl.
  - pose proof (evaluate_tokens_kept b w (tokens s)) as H.
    by destruct (evaluate_tokens b w (tokens s)) as [ts [[evs i]|e]].
  - induction (tokens s); constructor; [apply token_kept_refl|done].
Qed.

(** After a successful evaluation of an enabled tracker every token holds
    the plan of exactly the balances given, and the balanced flag is set if and
    only if there is no pending action for any token. *)
Theorem evaluate_tracks_balances b w s s' evs :
  enabled s = true -> evaluate b w s = (s', Ok evs) ->
  Forall (token_current b w) (tokens s') /\ (balanced s' = true <-> pending_action s' = None).
Proof.
  intros He H. unfold evaluate in H. rewrite He in H. simpl in H.
  destruct (evaluate_tokens b w (tokens s)) as [ts [[evs1 i]|e]] eqn:E; [|done].
  injection H as <- <-. apply evaluate_tokens_Ok in E as [Hcur Hidle]. split; [done|].
  simpl. rewrite Hidle. unfold pending_action, pending_action_excluding. simpl.
  rewrite find_map_None. clear Hidle. induction Hcur as [|t ts Ht _ IH];
    [split; constructor|].
  by rewrite !Forall_cons, IH, (token_current_idle b w t Ht).
Qed.

(** Evaluation is idempotent on unchanged balances: a second evaluation
    succeeds, changes nothing and reports nothing. *)
Theorem evaluate_idempotent b w s s' evs :
  evaluate b w s = (s', Ok evs) -> evaluate b w s' = (s', Ok []).
Proof.
  unfold evaluate. destruct (enabled s) eqn:He; simpl; intros H.
  2:{ injection H as <- <-. by rewrite He. }
  destruct (evaluate_tokens b w (tokens s)) as [ts [[evs1 i]|e]] eqn:E; [|done].
  injection H as <- <-. simpl. apply evaluate_tokens_Ok in E as [Hcur Hidle].
  destruct (evaluate_tokens_idem b w ts Hcur) as (i' & -> & Hi'). f_equal. f_equal.
  apply eq_true_iff_eq. by rewrite Hi', Hidle.
Qed.

(** ** A concrete tracker *)
Definition demo_pair : PairConfig :=
  mkPair (mkTokenConfig "U" 2) (mkTokenConfig "W" 3) true 2000.
Definition demo_routes : gmap string (list RouteCandidate) :=
  <["U"%string := [demo_direct]]> (<["W"%string := [demo_direct]]> ∅).
Definition demo_tracker : RebalanceTracker :=
  mkTracker true
    [mkToken "U" 2 2000 [demo_direct] None None; mkToken "W" 3 2000 [demo_direct] None None] false.
Lemma demo_new : new_tracker demo_pair demo_routes = Ok demo_tracker.
Proof. vm_compute. reflexivity. Qed.

Definition demo_binance : BinanceBalances :=
  <["U"%string := mkDecimal 12345 3]> (<["W"%string := mkDecimal 5 1]> ∅).
Definition demo_wallet : WalletBalances := [("W"%string, 500); ("U"%string, 100)].
Definition demo_evaluated : RebalanceTracker * Res (list RebalanceEvaluation) :=
  evaluate demo_binance demo_wallet demo_tracker.
Definition demo_evals : list RebalanceEvaluation :=
  match demo_evaluated.2 with Ok l => l | Err _ => [] end.
Lemma demo_evaluates :
  evaluate demo_binance demo_wallet demo_tracker = (demo_evaluated.1, Ok demo_evals).
Proof. apply pair_result. vm_compute. reflexivity. Qed.

Lemma u256_gcd_correct_witness : u256_gcd 84 36 = Some 12.
Proof. apply (u256_gcd_correct 84 36); typed. Defined.

(** A multiple of 0.0025 on a token with 3 decimals steps by 5 base units. *)
Lemma withdrawal_step_exact_witness :
  decimal_multiple_to_base_unit_step (mkDecimal 25 4) 3 = Ok 5 /\ 0 < 5.
Proof.
  split; [reflexivity|].
  apply (withdrawal_step_exact (mkDecimal 25 4) 3 5); [typed|lia|simpl; lia|reflexivity].
Defined.

Lemma base_units_floor_spec_witness : 1234 * 10 ^ 3 <= 12345 * 10 ^ 2 < (1234 + 1) * 10 ^ 3.
Proof.
  apply (base_units_floor_spec (mkDecimal 12345 3) 2 1234); [typed|lia|reflexivity].
Defined.

Lemma evaluate_tracks_balances_witness :
  Forall (token_current demo_binance demo_wallet) (tokens demo_evaluated.1).
Proof.
  apply (evaluate_tracks_balances demo_binance demo_wallet demo_tracker demo_evaluated.1 demo_evals
           eq_refl demo_evaluates).
Defined.

Lemma evaluate_idempotent_witness :
  evaluate demo_binance demo_wallet demo_evaluated.1 = (demo_evaluated.1, Ok []).
Proof.
  exact (evaluate_idempotent demo_binance demo_wallet demo_tracker demo_evaluated.1 demo_evals
           demo_evaluates).
Defined.
