(* ===== verification/Clmm.v ===== *)
(** * Concentrated-liquidity pools ([src/src/dex/clmm.rs])

    The local mirror of one pool: head state, tick table and tick bitmap, the
    Mint/Burn update, and the two iterative quote loops.  The arithmetic of the
    [uniswap_v3_math] crate is the interface [UniswapV3Math]; what the code
    relies on of it is [UniswapV3Laws].  Everything else, the raw Algebra tick
    rows included, is defined here. *)
From Stdlib Require Import Lia.
From stdpp Require Import base gmap sets strings numbers list fin_maps.
From S2P Require Import Prelude.

(** ** Third-party arithmetic *)
Definition MIN_TICK : Z := -887272.
Definition MAX_TICK : Z := 887272.
Definition MIN_SQRT_RATIO : Z := 4295128739.
Definition MAX_SQRT_RATIO : Z := 1461446703485210103287273052203988822378723970342.

Class UniswapV3Math := {
  (** price, target, liquidity, signed amount remaining, fee; result price,
      amount in, amount out, fee amount *)
  compute_swap_step : Z -> Z -> Z -> Z -> Z -> option (Z * Z * Z * Z);
  get_sqrt_ratio_at_tick : Z -> option Z;
  get_tick_at_sqrt_ratio : Z -> option Z;
  add_delta : Z -> Z -> option Z;
  flip_tick_compressed : gmap Z Z -> Z -> Z -> option (gmap Z Z);
  next_initialized_tick_within_one_word : gmap Z Z -> Z -> Z -> bool -> option (Z * bool);
}.

(** The arguments the pool code passes to a swap step. *)
Definition step_args (price target liq fee : Z) : Prop :=
  MIN_SQRT_RATIO <= price <= MAX_SQRT_RATIO /\
  MIN_SQRT_RATIO <= target <= MAX_SQRT_RATIO /\
  0 <= liq < 2 ^ 128 /\ 0 <= fee < 1000000.

(** What the code relies on of the crate.  [add_delta] adds a signed delta and
    refuses an under- or overflow.  Prices of ticks lie between the documented
    extremes, which are attained.  The word search moves in the search
    direction.  A swap step has a capacity: from [price] to [target] it can
    take at most [ci + cf] of input and give at most [co] of output; an amount
    that covers the capacity (input for a non-negative amount, output for a
    negative one) moves the price exactly to the target and exchanges exactly
    the capacity, and a smaller amount is exchanged in full; with a smaller
    input the target is not reached; a smaller output that is rounded onto the
    target is charged the whole input of the capacity.  Capacities fit the
    signed 256-bit amounts, and nothing is paid out for no input.  A larger
    exact output needs at least the input and the fee of a smaller one and moves
    the price at least as far; a larger exact input pays out at least as much. *)
Class UniswapV3Laws `{UniswapV3Math} : Prop := {
  add_delta_spec x y z : add_delta x y = Some z <-> z = x + y /\ 0 <= x + y < 2 ^ 128;
  sqrt_ratio_range t :
    MIN_TICK <= t <= MAX_TICK ->
    exists r, get_sqrt_ratio_at_tick t = Some r /\ MIN_SQRT_RATIO <= r <= MAX_SQRT_RATIO;
  sqrt_ratio_min : get_sqrt_ratio_at_tick MIN_TICK = Some MIN_SQRT_RATIO;
  sqrt_ratio_max : get_sqrt_ratio_at_tick MAX_TICK = Some MAX_SQRT_RATIO;
  compressed_progress bm t spacing lte n i :
    0 < spacing -> next_initialized_tick_within_one_word bm t spacing lte = Some (n, i) ->
    if lte then n <= t else t < n;
  swap_step_capacity price target liq fee :
    step_args price target liq fee ->
    exists ci co cf, 0 <= ci /\ 0 <= co < 2 ^ 255 /\ 0 <= cf /\ (ci + cf = 0 -> co = 0) /\
      (price = target -> ci + cf = 0) /\ ci + cf < 2 ^ 255 /\
      (forall a, 0 <= a < 2 ^ 255 -> exists after i o f,
         compute_swap_step price target liq a fee = Some (after, i, o, f) /\
         Z.min price target <= after <= Z.max price target /\ 0 <= i /\ 0 <= o /\ 0 <= f /\
         (ci + cf <= a -> after = target /\ i = ci /\ o = co /\ f = cf) /\
         (a < ci + cf -> after <> target /\ i + f = a)) /\
      (forall a, 0 < a < 2 ^ 255 -> exists after i o f,
         compute_swap_step price target liq (- a) fee = Some (after, i, o, f) /\
         Z.min price target <= after <= Z.max price target /\ 0 <= i /\ 0 <= o /\ 0 <= f /\
         (co <= a -> after = target /\ i = ci /\ o = co /\ f = cf) /\
         (a < co -> o = a) /\
         i <= ci /\ f <= cf /\ (after = target -> i = ci /\ f = cf) /\ (i + f = 0 -> o = 0));
  swap_step_input_monotone price target liq fee a a' after i o f after' i' o' f' :
    step_args price target liq fee -> 0 <= a <= a' -> a' < 2 ^ 255 ->
    compute_swap_step price target liq a fee = Some (after, i, o, f) ->
    compute_swap_step price target liq a' fee = Some (after', i', o', f') ->
    o <= o';
  swap_step_output_monotone price target liq fee a a' after i o f after' i' o' f' :
    step_args price target liq fee -> 0 < a <= a' -> a' < 2 ^ 255 ->
    compute_swap_step price target liq (- a) fee = Some (after, i, o, f) ->
    compute_swap_step price target liq (- a') fee = Some (after', i', o', f') ->
    i <= i' /\ f <= f' /\ (after = target -> after' = target);
}.

(** ** Data *)
Inductive TickTraversal := SpacingCompressed | AlgebraRaw.
Inductive FeeProfile := Static | AlgebraDirectional | AlgebraSingle.
#[global] Instance TickTraversal_eq_dec : EqDecision TickTraversal.
Proof. solve_decision. Defined.
#[global] Instance FeeProfile_eq_dec : EqDecision FeeProfile.
Proof. solve_decision. Defined.

Record TickLiquidity := mkTick { gross : Z; net : Z }.

Record ClmmPool := mkPool {
  fee_pips : Z;
  one_for_zero_fee_pips : Z;
  tick_spacing : Z;
  sqrt_price_x96 : Z;
  tick : Z;
  liquidity : Z;
  tick_bitmap : gmap Z Z;
  ticks : gmap Z TickLiquidity;
  word_boundary_sqrt_ratios : gmap Z Z;
  tick_traversal : TickTraversal;
  fee_profile : FeeProfile;
}.

Record LocalQuote := mkQuote {
  amount_out : Z;
  sqrt_price_after_x96 : Z;
  tick_after : Z;
  liquidity_after : Z;
  initialized_ticks_crossed : Z;
}.

Inductive ClmmError := CMsg (s : string) | InsufficientLiquidity | OutOfFuel.
#[global] Instance ClmmError_eq_dec : EqDecision ClmmError.
Proof. solve_decision. Defined.
Abbreviation CRes := (result ClmmError).

(** ** Machine arithmetic used by the tick code *)
Definition wrap_i16 (x : Z) : Z := (x + 2 ^ 15) mod 2 ^ 16 - 2 ^ 15.
Definition i16_try_from (x : Z) : option Z :=
  if (- 2 ^ 15 <=? x) && (x <? 2 ^ 15) then Some x else None.
Definition saturating_succ_i32 (x : Z) : Z := Z.min (x + 1) (2 ^ 31 - 1).
Definition saturating_pred_i32 (x : Z) : Z := Z.max (x - 1) (- 2 ^ 31).
Definition checked_neg_i128 (x : Z) : option Z := if x =? - 2 ^ 127 then None else Some (- x).
Definition checked_add_i128 (a b : Z) : option Z :=
  if (- 2 ^ 127 <=? a + b) && (a + b <? 2 ^ 127) then Some (a + b) else None.
Definition clamp (x lo hi : Z) : Z := Z.max lo (Z.min x hi).
Definition clamp_tick (t : Z) : Z := clamp t MIN_TICK MAX_TICK.
Definition tick_in_range (t : Z) : bool := (MIN_TICK <=? t) && (t <=? MAX_TICK).

(** [U256::leading_zeros] of a non-zero word is [255 - log2]; [trailing_zeros]
    is the index of the lowest set bit. *)
Fixpoint pos_trailing_zeros (p : positive) : Z :=
  match p with
  | xO p' => 1 + pos_trailing_zeros p'
  | _ => 0
  end.
Definition trailing_zeros (x : Z) : Z :=
  match x with Zpos p => pos_trailing_zeros p | _ => 256 end.
Definition leading_zeros (x : Z) : Z := if x =? 0 then 256 else 255 - Z.log2 x.

(** ** Raw Algebra tick rows *)
Definition next_algebra_tick_in_same_row (table : gmap Z Z) (t : Z) (zero_for_one : bool)
  : Z * bool :=
  let search := if zero_for_one then t else saturating_succ_i32 t in
  let word := wrap_i16 (Z.shiftr search 8) in
  let bit := search mod 256 in
  let row := default 0 (table !! word) in
  let '(next, initialized) :=
    if zero_for_one then
      let mask := if bit =? 255 then 2 ^ 256 - 1 else Z.shiftl 1 (bit + 1) - 1 in
      let masked := Z.land row mask in
      if masked =? 0 then (Z.shiftl word 8, false)
      else (Z.shiftl word 8 + (255 - leading_zeros masked), true)
    else
      let mask := Z.shiftl (2 ^ 256 - 1) bit mod 2 ^ 256 in
      let masked := Z.land row mask in
      if masked =? 0 then (Z.shiftl word 8 + 255, false)
      else (Z.shiftl word 8 + trailing_zeros masked, true) in
  (clamp_tick next, initialized).

Section pool.
Context `{UniswapV3Math}.

(** ** Construction *)
Fixpoint insert_ratios (ts : list Z) (what : string) (acc : gmap Z Z) : CRes (gmap Z Z) :=
  match ts with
  | [] => Ok acc
  | t :: ts' =>
      let? r := or_err (get_sqrt_ratio_at_tick t) (CMsg what) in
      insert_ratios ts' what (if acc !! t then acc else <[t := r]> acc)
  end.

(** [for word in minimum_word..=maximum_word]: both boundary ticks of each
    256-tick word, in spacing units, clamped to the tick range. *)
Definition boundary_ticks (minimum_word maximum_word sc : Z) : list Z :=
  flat_map (fun word =>
              let word_start := Z.shiftl word 8 in
              [clamp_tick (word_start * sc); clamp_tick ((word_start + 255) * sc)])
           (seqZ minimum_word (maximum_word - minimum_word + 1)).

(** The process-wide cache only memoises this function of its key. *)
Definition compute_word_boundary_sqrt_ratios (spacing : Z) (tr : TickTraversal)
  : CRes (gmap Z Z) :=
  let '(minimum_word, maximum_word, sc) :=
    match tr with
    | SpacingCompressed =>
        (Z.shiftr (MIN_TICK / spacing) 8, Z.shiftr (MAX_TICK / spacing) 8, spacing)
    | AlgebraRaw => (Z.shiftr MIN_TICK 8, Z.shiftr MAX_TICK 8, 1)
    end in
  let? ratios := insert_ratios (boundary_ticks minimum_word maximum_word sc)
                   "failed to cache word-boundary price" ∅ in
  insert_ratios [MIN_TICK; MAX_TICK] "failed to cache terminal price" ratios.

Definition new_with_profile (fee01 fee10 spacing price t liq : Z) (prof : FeeProfile)
  : CRes ClmmPool :=
  ensure! (fee01 <? 1000000) && (fee10 <? 1000000)
    else CMsg "fee must be below 1_000_000 pips" ;;
  ensure! 0 <? spacing else CMsg "tick spacing must be positive" ;;
  ensure! tick_in_range t else CMsg "tick is out of range" ;;
  ensure! (MIN_SQRT_RATIO <=? price) && (price <? MAX_SQRT_RATIO)
    else CMsg "sqrt price is out of range" ;;
  ensure! 0 <? liq else CMsg "active liquidity must be positive" ;;
  let tr := match prof with
            | Static => SpacingCompressed
            | AlgebraDirectional | AlgebraSingle => AlgebraRaw
            end in
  let? ratios := compute_word_boundary_sqrt_ratios spacing tr in
  Ok (mkPool fee01 fee10 spacing price t liq ∅ ∅ ratios tr prof).

Definition new (fee spacing price t liq : Z) : CRes ClmmPool :=
  new_with_profile fee fee spacing price t liq Static.
Definition new_algebra_v1_9 (fee01 fee10 spacing price t liq : Z) : CRes ClmmPool :=
  new_with_profile fee01 fee10 spacing price t liq AlgebraDirectional.
Definition new_single_fee_algebra_v1_9 (fee spacing price t liq : Z) : CRes ClmmPool :=
  new_with_profile fee fee spacing price t liq AlgebraSingle.

Definition fee_pips_for_direction (p : ClmmPool) (zero_for_one : bool) : Z :=
  if zero_for_one then fee_pips p else one_for_zero_fee_pips p.

(** Field updates. *)
Definition set_fees (p : ClmmPool) (f01 f10 : Z) : ClmmPool :=
  mkPool f01 f10 (tick_spacing p) (sqrt_price_x96 p) (tick p) (liquidity p) (tick_bitmap p)
    (ticks p) (word_boundary_sqrt_ratios p) (tick_traversal p) (fee_profile p).
Definition set_head (p : ClmmPool) (price t liq : Z) : ClmmPool :=
  mkPool (fee_pips p) (one_for_zero_fee_pips p) (tick_spacing p) price t liq (tick_bitmap p)
    (ticks p) (word_boundary_sqrt_ratios p) (tick_traversal p) (fee_profile p).
Definition set_table (p : ClmmPool) (bm : gmap Z Z) (tk : gmap Z TickLiquidity) : ClmmPool :=
  mkPool (fee_pips p) (one_for_zero_fee_pips p) (tick_spacing p) (sqrt_price_x96 p) (tick p)
    (liquidity p) bm tk (word_boundary_sqrt_ratios p) (tick_traversal p) (fee_profile p).

Definition set_algebra_directional_fees (f01 f10 : Z) : M ClmmPool ClmmError unit :=
  fun p =>
    if negb (bool_decide (tick_traversal p = AlgebraRaw)
             && bool_decide (fee_profile p = AlgebraDirectional))
    then (p, Err (CMsg "directional fees require the directional Algebra V1.9 profile")) else
    if negb ((f01 <? 1000000) && (f10 <? 1000000))
    then (p, Err (CMsg "fee must be below 1_000_000 pips")) else
    (set_fees p f01 f10, Ok tt).

Definition set_algebra_single_fee (f : Z) : M ClmmPool ClmmError unit :=
  fun p =>
    if negb (bool_decide (tick_traversal p = AlgebraRaw)
             && bool_decide (fee_profile p = AlgebraSingle))
    then (p, Err (CMsg "single fee requires the single-fee Algebra V1.9 profile")) else
    (set_fees p f f, Ok tt).

(** ** Tick table *)
Definition flip_tick (p : ClmmPool) (t : Z) : CRes (gmap Z Z) :=
  match tick_traversal p with
  | SpacingCompressed =>
      or_err (flip_tick_compressed (tick_bitmap p) t (tick_spacing p))
             (CMsg "failed to toggle spacing-compressed tick")
  | AlgebraRaw =>
      let? word := or_err (i16_try_from (Z.shiftr t 8)) (CMsg "Algebra tick row exceeds int16") in
      let bit := t mod 256 in
      Ok (<[word := Z.lxor (default 0 (tick_bitmap p !! word)) (Z.shiftl 1 bit)]> (tick_bitmap p))
  end.

(** Rust's [%] truncates; only its zeroness is used. *)
Definition aligned (index spacing : Z) : bool := Z.rem index spacing =? 0.

Definition set_tick (index g n : Z) : M ClmmPool ClmmError unit :=
  fun p =>
    if negb (aligned index (tick_spacing p))
    then (p, Err (CMsg "tick does not align to spacing")) else
    if negb (tick_in_range index) then (p, Err (CMsg "tick is out of range")) else
    match ticks p !! index, g =? 0 with
    | None, true => (p, Ok tt)
    | None, false =>
        match flip_tick p index with
        | Err e => (p, Err e)
        | Ok bm => (set_table p bm (<[index := mkTick g n]> (ticks p)), Ok tt)
        end
    | Some _, true =>
        match flip_tick p index with
        | Err e => (p, Err e)
        | Ok bm => (set_table p bm (delete index (ticks p)), Ok tt)
        end
    | Some _, false =>
        (set_table p (tick_bitmap p) (<[index := mkTick g n]> (ticks p)), Ok tt)
    end.

Definition apply_swap_head (price t liq : Z) : M ClmmPool ClmmError unit :=
  fun p =>
    if negb ((MIN_SQRT_RATIO <=? price) && (price <? MAX_SQRT_RATIO))
    then (p, Err (CMsg "sqrt price is out of range")) else
    if negb (tick_in_range t) then (p, Err (CMsg "tick is out of range")) else
    if negb (0 <? liq) then (p, Err (CMsg "active liquidity must be positive")) else
    (set_head p price t liq, Ok tt).

Definition updated_boundary (current : option TickLiquidity) (amt net_delta : Z) (adding : bool)
  : CRes TickLiquidity :=
  let c := default (mkTick 0 0) current in
  let? g :=
    if adding
    then or_err (checked_add 128 (gross c) amt) (CMsg "gross tick liquidity overflow")
    else or_err (checked_sub (gross c) amt)
           (CMsg "removed more gross tick liquidity than hydrated") in
  let? n := or_err (checked_add_i128 (net c) net_delta) (CMsg "net tick liquidity overflow") in
  ensure! negb (g =? 0) || (n =? 0)
    else CMsg "zero gross tick liquidity has non-zero net liquidity" ;;
  Ok (mkTick g n).

Definition apply_liquidity_delta (lower upper delta : Z) : M ClmmPool ClmmError unit :=
  fun p =>
    if negb (lower <? upper) then (p, Err (CMsg "liquidity range is empty")) else
    if negb (aligned lower (tick_spacing p) && aligned upper (tick_spacing p))
    then (p, Err (CMsg "liquidity range does not align to tick spacing")) else
    if negb (tick_in_range lower && tick_in_range upper)
    then (p, Err (CMsg "liquidity range is out of bounds")) else
    if delta =? 0 then (p, Ok tt) else
    let amt := Z.abs delta in
    let prepared : CRes (TickLiquidity * TickLiquidity * option Z) :=
      let? lo := updated_boundary (ticks p !! lower) amt delta (0 <? delta) in
      let? und := or_err (checked_neg_i128 delta) (CMsg "liquidity delta overflow") in
      let? up := updated_boundary (ticks p !! upper) amt und (0 <? delta) in
      let? act :=
        if (lower <=? tick p) && (tick p <? upper)
        then rmap Some (or_err (add_delta (liquidity p) delta)
                          (CMsg "active liquidity update failed"))
        else Ok None in
      Ok (lo, up, act) in
    match prepared with
    | Err e => (p, Err e)
    | Ok (lo, up, act) =>
        (do! set_tick lower (gross lo) (net lo) ;;
         do! set_tick upper (gross up) (net up) ;;
         do q <- mget ;;
         match act with
         | Some liq => mput (set_head q (sqrt_price_x96 q) (tick q) liq)
         | None => mret tt
         end) p
    end.

(** ** Traversal *)
Definition next_initialized_tick (p : ClmmPool) (t : Z) (zero_for_one : bool) : CRes (Z * bool) :=
  match tick_traversal p with
  | SpacingCompressed =>
      or_err (next_initialized_tick_within_one_word (tick_bitmap p) t (tick_spacing p) zero_for_one)
             (CMsg "failed to find spacing-compressed tick")
  | AlgebraRaw => Ok (next_algebra_tick_in_same_row (tick_bitmap p) t zero_for_one)
  end.

Definition sqrt_ratio_at_traversal_tick (p : ClmmPool) (t : Z) (initialized : bool) : CRes Z :=
  if negb initialized
  then or_err (word_boundary_sqrt_ratios p !! t)
         (CMsg "missing cached sqrt ratio for word boundary")
  else or_err (get_sqrt_ratio_at_tick t) (CMsg "failed to price initialized tick").

Definition price_limit (zero_for_one : bool) : Z :=
  if zero_for_one then MIN_SQRT_RATIO + 1 else MAX_SQRT_RATIO - 1.

(** The head of every swap loop: the next tick, whether it is initialized,
    its price, and the step's target price. *)
Definition next_boundary (p : ClmmPool) (zero_for_one : bool) (t : Z)
  : CRes (Z * bool * Z * Z) :=
  let? '(tn, initialized) := next_initialized_tick p t zero_for_one in
  let tick_next := clamp_tick tn in
  let? next := sqrt_ratio_at_traversal_tick p tick_next initialized in
  let target := if zero_for_one then Z.max next (price_limit zero_for_one)
                else Z.min next (price_limit zero_for_one) in
  Ok (tick_next, initialized, next, target).

(** The tail of every swap loop: crossing the boundary that was reached. *)
Definition cross_boundary (p : ClmmPool) (zero_for_one : bool) (tick_next : Z)
    (initialized : bool) (liq : Z) : CRes (Z * Z) :=
  let? liq' :=
    if initialized then
      let? state := or_err (ticks p !! tick_next) (CMsg "bitmap references missing tick") in
      let? liquidity_net :=
        if zero_for_one
        then or_err (checked_neg_i128 (net state)) (CMsg "liquidity net overflow")
        else Ok (net state) in
      or_err (add_delta liq liquidity_net) (CMsg "failed to cross initialized tick")
    else Ok liq in
  Ok (if zero_for_one then saturating_pred_i32 tick_next else tick_next, liq').

(** ** Exact-input quotes *)
Record InState := mkIn {
  in_remaining : Z; in_out : Z; in_price : Z; in_tick : Z; in_liq : Z; in_crossed : Z;
}.

Fixpoint exact_in_loop (fuel : nat) (p : ClmmPool) (zfo include_after : bool) (st : InState)
  : CRes InState :=
  match fuel with
  | O => Err OutOfFuel
  | S f =>
      if (in_remaining st =? 0) || (in_price st =? price_limit zfo) then Ok st else
      let? '(tick_next, initialized, next, target) := next_boundary p zfo (in_tick st) in
      let? '(after, step_in, step_out, fee) :=
        or_err (compute_swap_step (in_price st) target (in_liq st) (in_remaining st)
                  (fee_pips_for_direction p zfo)) (CMsg "failed to compute swap step") in
      let? consumed := or_err (checked_add 256 step_in fee) (CMsg "swap input overflow") in
      let? remaining := or_err (checked_sub (in_remaining st) consumed)
                          (CMsg "swap consumed more than remaining input") in
      let? out := or_err (checked_add 256 (in_out st) step_out) (CMsg "swap output overflow") in
      if after =? next then
        let? '(t', liq') := cross_boundary p zfo tick_next initialized (in_liq st) in
        exact_in_loop f p zfo include_after
          (mkIn remaining out after t' liq'
             (if initialized then in_crossed st + 1 else in_crossed st))
      else
        let? t' := if include_after
                   then or_err (get_tick_at_sqrt_ratio after)
                          (CMsg "failed to derive tick after partial swap step")
                   else Ok (in_tick st) in
        Ok (mkIn remaining out after t' (in_liq st) (in_crossed st))
  end.

(** Every iteration that continues moves the tick by at least one
    ([exact_in_loop_total]), so the tick range bounds the iterations. *)
Definition swap_fuel : nat := Z.to_nat (MAX_TICK - MIN_TICK + 3).

Definition quote_exact_in_impl (p : ClmmPool) (include_after zfo : bool) (amount_in : Z)
  : CRes LocalQuote :=
  ensure! negb (amount_in =? 0) else CMsg "amount in must be positive" ;;
  ensure! amount_in <? 2 ^ 255 else CMsg "amount in exceeds int256" ;;
  let? st := exact_in_loop swap_fuel p zfo include_after
               (mkIn amount_in 0 (sqrt_price_x96 p) (tick p) (liquidity p) 0) in
  if negb (in_remaining st =? 0) then Err InsufficientLiquidity else
  Ok (mkQuote (in_out st) (in_price st) (in_tick st) (in_liq st) (in_crossed st)).

Definition quote_exact_in (p : ClmmPool) (zfo : bool) (amount_in : Z) : CRes LocalQuote :=
  quote_exact_in_impl p true zfo amount_in.
Definition quote_exact_in_amount_out (p : ClmmPool) (zfo : bool) (amount_in : Z) : CRes Z :=
  rmap amount_out (quote_exact_in_impl p false zfo amount_in).

(** ** Exact-output quotes *)
Record OutState := mkOut {
  out_remaining : Z; out_in : Z; out_capacity : Z; out_price : Z; out_tick : Z; out_liq : Z;
}.

Fixpoint exact_out_loop (fuel : nat) (p : ClmmPool) (zfo : bool) (st : OutState)
  : CRes OutState :=
  match fuel with
  | O => Err OutOfFuel
  | S f =>
      if (out_remaining st =? 0) || (out_price st =? price_limit zfo) || (out_liq st =? 0)
      then Ok st else
      let? '(tick_next, initialized, next, target) := next_boundary p zfo (out_tick st) in
      let? '(after, step_in, step_out, fee) :=
        or_err (compute_swap_step (out_price st) target (out_liq st) (- out_remaining st)
                  (fee_pips_for_direction p zfo))
               (CMsg "failed to compute exact-output swap step") in
      let? remaining := or_err (checked_sub (out_remaining st) step_out)
                          (CMsg "swap produced more than remaining output") in
      let? ain := or_err (match checked_add 256 (out_in st) step_in with
                          | Some v => checked_add 256 v fee
                          | None => None
                          end) (CMsg "swap input overflow") in
      let capacity := if step_out =? 0 then out_capacity st else ain in
      if after =? next then
        let? '(t', liq') := cross_boundary p zfo tick_next initialized (out_liq st) in
        exact_out_loop f p zfo (mkOut remaining ain capacity after t' liq')
      else Ok (mkOut remaining ain capacity after (out_tick st) (out_liq st))
  end.

Definition quote_exact_out_amount_in_impl (p : ClmmPool) (zfo : bool) (amt : Z)
    (require_full_output : bool) : CRes Z :=
  ensure! negb (amt =? 0) else CMsg "amount out must be positive" ;;
  ensure! amt <? 2 ^ 255 else CMsg "amount out exceeds int256" ;;
  let? st := exact_out_loop swap_fuel p zfo
               (mkOut amt 0 0 (sqrt_price_x96 p) (tick p) (liquidity p)) in
  if require_full_output && negb (out_remaining st =? 0) then Err InsufficientLiquidity else
  Ok (if require_full_output then out_in st else out_capacity st).

Definition quote_exact_out_amount_in (p : ClmmPool) (zfo : bool) (amt : Z) : CRes Z :=
  quote_exact_out_amount_in_impl p zfo amt true.
End pool.
