(* ===== verification/UniswapFormula.v ===== *)
(** * A concrete instance of the third-party interface

    The published swap-step formulas of concentrated-liquidity pools over
    unbounded integers, with simple stand-ins for the tick-price table and the
    compressed bitmap.  The instance satisfies every law the pool theorems
    assume, so those theorems are not vacuous, and the swap step reproduces the
    golden vector of the source's tests ([src/src/dex/clmm.rs]). *)
From Stdlib Require Import Lia Psatz.
From stdpp Require Import base gmap sets strings numbers list fin_maps.
From S2P Require Import Prelude Clmm.

(** ** Rounding divisions, by their order characterisations *)
Definition cdiv (a b : Z) : Z := (a + b - 1) / b.

Lemma cdiv_le a b k : 0 < b -> (cdiv a b <= k <-> a <= b * k).
Proof.
  intros Hb. unfold cdiv. split; intros Hk.
  - pose proof (Z.mul_succ_div_gt (a + b - 1) b Hb). nia.
  - apply Z.lt_succ_r, Z.div_lt_upper_bound; nia.
Qed.

Lemma cdiv_gt a b k : 0 < b -> (k < cdiv a b <-> b * k < a).
Proof. intros Hb. pose proof (cdiv_le a b k Hb). lia. Qed.

Lemma div_ge a b k : 0 < b -> (k <= a / b <-> b * k <= a).
Proof.
  intros Hb. split; intros Hk.
  - pose proof (Z.mul_div_le a b Hb). nia.
  - by apply Z.div_le_lower_bound.
Qed.

Lemma div_lt a b k : 0 < b -> (a / b < k <-> a < b * k).
Proof. intros Hb. pose proof (div_ge a b k Hb). lia. Qed.

Lemma cdiv_nonneg a b : 0 < b -> 0 <= a -> 0 <= cdiv a b.
Proof. intros. apply Z.div_pos; lia. Qed.

Lemma cdiv_zero b : 0 < b -> cdiv 0 b = 0.
Proof. intros. apply Z.div_small. lia. Qed.

(** ** The formulas *)
Definition Q96 : Z := 2 ^ 96.

(** Amounts of token 0 and token 1 between two prices, [lo <= hi]. *)
Definition amount0_up (lo hi liq : Z) : Z := cdiv (liq * Q96 * (hi - lo)) (hi * lo).
Definition amount0_down (lo hi liq : Z) : Z := liq * Q96 * (hi - lo) / (hi * lo).
Definition amount1_up (lo hi liq : Z) : Z := cdiv (liq * (hi - lo)) Q96.
Definition amount1_down (lo hi liq : Z) : Z := liq * (hi - lo) / Q96.

Definition next_from_input0 (p liq a : Z) : Z := cdiv (liq * Q96 * p) (liq * Q96 + a * p).
Definition next_from_input1 (p liq a : Z) : Z := p + a * Q96 / liq.
Definition next_from_output1 (p liq a : Z) : Z := p - cdiv (a * Q96) liq.
Definition next_from_output0 (p liq a : Z) : Z := cdiv (liq * Q96 * p) (liq * Q96 - a * p).

Definition full_in (p t liq : Z) : Z :=
  if t <=? p then amount0_up t p liq else amount1_up p t liq.
Definition full_out (p t liq : Z) : Z :=
  if t <=? p then amount1_down t p liq else amount0_down p t liq.

Definition swap_fee (ain fee : Z) : Z := cdiv (ain * fee) (1000000 - fee).

Definition swap_step (p t liq amt fee : Z) : option (Z * Z * Z * Z) :=
  let zfo := t <=? p in
  if 0 <=? amt then
    let less_fee := amt * (1000000 - fee) / 1000000 in
    if full_in p t liq <=? less_fee
    then Some (t, full_in p t liq, full_out p t liq, swap_fee (full_in p t liq) fee)
    else
      let next := if zfo then next_from_input0 p liq less_fee
                  else next_from_input1 p liq less_fee in
      let ain := full_in p next liq in
      Some (next, ain, full_out p next liq,
            if next =? t then swap_fee ain fee else amt - ain)
  else
    if full_out p t liq <=? - amt
    then Some (t, full_in p t liq, full_out p t liq, swap_fee (full_in p t liq) fee)
    else
      let next := if zfo then next_from_output1 p liq (- amt)
                  else next_from_output0 p liq (- amt) in
      let ain := full_in p next liq in
      Some (next, ain, Z.min (full_out p next liq) (- amt), swap_fee ain fee).

(** The vector of [algebra_price_movement_matches_official_v1_9_golden_vector]. *)
Example golden_vector :
  swap_step 79228162514264337593543950336 79623317895830914510639640423
    2000000000000000000 1000000000000000000 600
  = Some (79623317895830914510639640423, 9975124224178055, 9925619580021728, 5988667735148).
Proof. vm_compute. reflexivity. Qed.

Lemma q96_pos : 0 < Q96.
Proof. done. Qed.

Lemma full_in_nonneg p t liq : 0 < p -> 0 < t -> 0 <= liq -> 0 <= full_in p t liq.
Proof.
  intros. unfold full_in, amount0_up, amount1_up. pose proof q96_pos.
  destruct (Z.leb_spec t p); apply cdiv_nonneg; nia.
Qed.

Lemma full_out_nonneg p t liq : 0 < p -> 0 < t -> 0 <= liq -> 0 <= full_out p t liq.
Proof.
  intros. unfold full_out, amount0_down, amount1_down. pose proof q96_pos.
  destruct (Z.leb_spec t p); apply Z.div_pos; nia.
Qed.

Lemma swap_fee_nonneg a fee : 0 <= fee < 1000000 -> 0 <= a -> 0 <= swap_fee a fee.
Proof. intros. apply cdiv_nonneg; nia. Qed.

(** The fee-inclusive input covers the capacity exactly when the input less
    its fee does. *)
Lemma less_fee_covers fee c a :
  0 <= fee < 1000000 -> 0 <= c ->
  (c <= a * (1000000 - fee) / 1000000 <-> c + swap_fee c fee <= a).
Proof.
  intros Hfee Hc. rewrite div_ge by lia. unfold swap_fee.
  pose proof (cdiv_le (c * fee) (1000000 - fee) (a - c) ltac:(lia)) as Hle.
  split; intros; [|]; nia.
Qed.

Lemma no_input_no_output p t liq :
  0 < p -> 0 < t -> 0 <= liq -> full_in p t liq = 0 -> full_out p t liq = 0.
Proof.
  intros Hp Ht Hl.
  unfold full_in, full_out, amount0_up, amount1_up, amount0_down, amount1_down.
  pose proof q96_pos. destruct (Z.leb_spec t p) as [Hd|Hd]; intros H0.
  - assert (liq * Q96 * (p - t) <= (p * t) * 0) by (apply cdiv_le; nia).
    assert (liq * (p - t) = 0) as -> by nia. done.
  - assert (liq * (t - p) <= Q96 * 0) by (apply cdiv_le; lia).
    assert (liq * Q96 * (t - p) = 0) as -> by nia. apply Z.div_0_l. nia.
Qed.

Lemma full_in_same p liq : 0 < p -> full_in p p liq = 0.
Proof.
  intros Hp. unfold full_in. rewrite Z.leb_refl. unfold amount0_up.
  rewrite Z.sub_diag, Z.mul_0_r. apply cdiv_zero. nia.
Qed.

Section partial_steps.
Context (p t liq a : Z).
Context (Hp : 0 < p) (Ht : 0 < t) (Hl : 0 <= liq) (Ha : 0 <= a).

(** A partial input stops strictly before the target and is not exceeded. *)
Lemma partial_input0 :
  t <= p -> a < full_in p t liq ->
  let next := next_from_input0 p liq a in
  t < next <= p /\ full_in p next liq <= a.
Proof.
  intros Hd Hlt. pose proof q96_pos as Hq. unfold full_in in *.
  rewrite (proj2 (Z.leb_le _ _) Hd) in Hlt. unfold amount0_up in *.
  rewrite cdiv_gt in Hlt by nia.
  set (N := liq * Q96) in *. assert (0 < N) by nia.
  unfold next_from_input0. fold N. set (D := N + a * p). assert (0 < D) by (unfold D; nia).
  assert (Hgt : t < cdiv (N * p) D) by (apply cdiv_gt; [done|unfold D; nia]).
  assert (Hle : cdiv (N * p) D <= p) by (apply cdiv_le; [done|unfold D; nia]).
  assert (Hcov : N * p <= D * cdiv (N * p) D) by (apply cdiv_le; [done|lia]).
  set (next := cdiv (N * p) D) in *. simpl. split; [lia|].
  rewrite (proj2 (Z.leb_le _ _)) by lia. apply cdiv_le; [nia|]. unfold D in Hcov. nia.
Qed.

Lemma partial_input1 :
  p < t -> a < full_in p t liq ->
  let next := next_from_input1 p liq a in
  p <= next < t /\ full_in p next liq <= a.
Proof.
  intros Hd Hlt. pose proof q96_pos as Hq. unfold full_in in Hlt.
  rewrite (proj2 (Z.leb_gt _ _) Hd) in Hlt. unfold amount1_up in Hlt.
  rewrite cdiv_gt in Hlt by lia. assert (0 < liq) by nia. unfold next_from_input1.
  assert (Hk : a * Q96 / liq < t - p) by (apply div_lt; lia).
  assert (0 <= a * Q96 / liq) by (apply Z.div_pos; nia).
  pose proof (Z.mul_div_le (a * Q96) liq ltac:(lia)).
  set (k := a * Q96 / liq) in *. simpl. split; [lia|].
  destruct (Z.eq_dec k 0) as [->|]; [rewrite Z.add_0_r, full_in_same; lia|].
  unfold full_in. rewrite (proj2 (Z.leb_gt _ _)) by lia. apply cdiv_le; lia.
Qed.

(** A partial output stays within the range and is produced in full. *)
Lemma partial_output1 :
  t <= p -> a < full_out p t liq ->
  let next := next_from_output1 p liq a in
  t <= next <= p /\ a <= full_out p next liq.
Proof.
  intros Hd Hlt. pose proof q96_pos as Hq. unfold full_out in *.
  rewrite (proj2 (Z.leb_le _ _) Hd) in Hlt. unfold amount1_down in *.
  assert (Hcap : Q96 * (a + 1) <= liq * (p - t)) by (apply div_ge; lia).
  assert (0 < liq) by nia. unfold next_from_output1.
  assert (Hk : cdiv (a * Q96) liq <= p - t) by (apply cdiv_le; lia).
  assert (0 <= cdiv (a * Q96) liq) by (apply cdiv_nonneg; nia).
  assert (Hcov : a * Q96 <= liq * cdiv (a * Q96) liq) by (apply cdiv_le; lia).
  set (k := cdiv (a * Q96) liq) in *. simpl. split; [lia|].
  rewrite (proj2 (Z.leb_le _ _)) by lia. apply div_ge; [done|]. nia.
Qed.

Lemma out0_denominator :
  p < t -> a < full_out p t liq ->
  0 < liq * Q96 - a * p /\ t * p * (a + 1) <= liq * Q96 * (t - p).
Proof.
  intros Hd Hlt. pose proof q96_pos as Hq. unfold full_out in Hlt.
  rewrite (proj2 (Z.leb_gt _ _) Hd) in Hlt. unfold amount0_down in Hlt.
  assert (Hcap : t * p * (a + 1) <= liq * Q96 * (t - p)) by (apply div_ge; [nia|lia]).
  set (N := liq * Q96) in *. assert (0 < N) by nia. nia.
Qed.

Lemma partial_output0 :
  p < t -> a < full_out p t liq ->
  let next := next_from_output0 p liq a in
  p <= next <= t /\ a <= full_out p next liq.
Proof.
  intros Hd Hlt. destruct (out0_denominator Hd Hlt) as [HD Hcap].
  set (N := liq * Q96) in *. assert (0 < N) by nia.
  unfold next_from_output0. fold N. set (D := N - a * p) in *.
  assert (Hle : cdiv (N * p) D <= t) by (apply cdiv_le; [done|unfold D; nia]).
  assert (Hcov : N * p <= D * cdiv (N * p) D) by (apply cdiv_le; [done|lia]).
  assert (Hge : p <= cdiv (N * p) D) by (unfold D in *; nia).
  set (next := cdiv (N * p) D) in *. simpl. split; [lia|].
  destruct (Z.eq_dec a 0) as [->|Ha0].
  { apply full_out_nonneg; lia. }
  assert (p < next) by (unfold D in Hcov; nia).
  unfold full_out. rewrite (proj2 (Z.leb_gt _ _)) by lia. unfold amount0_down. fold N.
  apply div_ge; [nia|]. unfold D in Hcov. nia.
Qed.
End partial_steps.

(** ** The instance *)
Definition linear_ratio (t : Z) : option Z :=
  if (MIN_TICK <=? t) && (t <=? MAX_TICK)
  then Some (MIN_SQRT_RATIO
             + (t - MIN_TICK) * (MAX_SQRT_RATIO - MIN_SQRT_RATIO) / (MAX_TICK - MIN_TICK))
  else None.

Definition linear_tick (price : Z) : option Z :=
  Some (MIN_TICK
        + (price - MIN_SQRT_RATIO) * (MAX_TICK - MIN_TICK) / (MAX_SQRT_RATIO - MIN_SQRT_RATIO)).

Definition exact_add_delta (x y : Z) : option Z :=
  if (0 <=? x + y) && (x + y <? 2 ^ 128) then Some (x + y) else None.

(** An empty compressed bitmap: the next aligned tick, never initialized. *)
Definition aligned_next (bm : gmap Z Z) (t spacing : Z) (lte : bool) : option (Z * bool) :=
  Some (if lte then (t - t mod spacing, false) else ((t / spacing + 1) * spacing, false)).

#[global] Instance formula_math : UniswapV3Math := {
  compute_swap_step := swap_step;
  get_sqrt_ratio_at_tick := linear_ratio;
  get_tick_at_sqrt_ratio := linear_tick;
  add_delta := exact_add_delta;
  flip_tick_compressed := fun bm _ _ => Some bm;
  next_initialized_tick_within_one_word := aligned_next;
}.

Lemma swap_step_exact_in p t liq fee a :
  0 < p -> 0 < t -> 0 <= liq -> 0 <= fee < 1000000 -> 0 <= a ->
  let ci := full_in p t liq in
  exists after i o f, swap_step p t liq a fee = Some (after, i, o, f) /\
    Z.min p t <= after <= Z.max p t /\ 0 <= i /\ 0 <= o /\ 0 <= f /\
    (ci + swap_fee ci fee <= a ->
       after = t /\ i = ci /\ o = full_out p t liq /\ f = swap_fee ci fee) /\
    (a < ci + swap_fee ci fee -> after <> t /\ i + f = a).
Proof.
  intros Hp Ht Hl Hfee Ha ci. unfold swap_step. rewrite (proj2 (Z.leb_le 0 a)) by lia.
  fold ci. pose proof (full_in_nonneg p t liq Hp Ht Hl) as Hci. fold ci in Hci.
  pose proof (less_fee_covers fee ci a Hfee Hci) as Hcov.
  pose proof (full_out_nonneg p t liq Hp Ht Hl). pose proof (swap_fee_nonneg ci fee Hfee Hci).
  destruct (Z.leb_spec ci (a * (1000000 - fee) / 1000000)) as [Hle|Hlt].
  { exists t, ci, (full_out p t liq), (swap_fee ci fee). split_and!; try done; lia. }
  set (lf := a * (1000000 - fee) / 1000000) in *.
  assert (Hlf : 0 <= lf <= a).
  { split; [apply Z.div_pos; nia|]. apply Z.lt_succ_r, div_lt; nia. }
  set (next := if t <=? p then next_from_input0 p liq lf else next_from_input1 p liq lf).
  assert (Hn : next <> t /\ Z.min p t <= next <= Z.max p t /\ full_in p next liq <= lf).
  { unfold next. destruct (Z.leb_spec t p) as [Hd|Hd].
    - destruct (partial_input0 p t liq lf Hp Ht Hl ltac:(lia) Hd Hlt). simpl in *. lia.
    - destruct (partial_input1 p t liq lf Hp Ht Hl ltac:(lia) Hd Hlt). simpl in *. lia. }
  destruct Hn as (Hne & Hbt & Hin). clearbody next.
  rewrite (proj2 (Z.eqb_neq _ _) Hne).
  exists next, (full_in p next liq), (full_out p next liq), (a - full_in p next liq).
  pose proof (full_in_nonneg p next liq Hp ltac:(lia) Hl).
  pose proof (full_out_nonneg p next liq Hp ltac:(lia) Hl).
  split_and!; try done; lia.
Qed.

Lemma cdiv_mono a a' b : 0 < b -> a <= a' -> cdiv a b <= cdiv a' b.
Proof. intros. apply Z.div_le_mono; lia. Qed.

Lemma swap_fee_mono a a' fee : 0 <= fee < 1000000 -> a <= a' -> swap_fee a fee <= swap_fee a' fee.
Proof. intros. apply cdiv_mono; nia. Qed.

(** The input to a farther price is at least the input to a nearer one. *)
Lemma full_in_mono p n n' liq :
  0 < p -> 0 < n -> 0 < n' -> 0 <= liq -> (n' <= n <= p \/ p <= n <= n') ->
  full_in p n liq <= full_in p n' liq.
Proof.
  intros Hp Hn Hn' Hl Hord. pose proof q96_pos.
  destruct (Z.eq_dec n p) as [->|]; [rewrite full_in_same by lia; by apply full_in_nonneg|].
  unfold full_in. destruct Hord.
  - rewrite !(proj2 (Z.leb_le _ _)) by lia. unfold amount0_up. set (N := liq * Q96).
    assert (0 <= N) by nia. apply cdiv_le; [nia|].
    assert (Hcov : N * (p - n') <= p * n' * cdiv (N * (p - n')) (p * n')) by (apply cdiv_le; [nia|lia]).
    set (c := cdiv (N * (p - n')) (p * n')) in *. assert (0 <= c) by nia. nia.
  - rewrite !(proj2 (Z.leb_gt _ _)) by lia. unfold amount1_up. apply cdiv_mono; nia.
Qed.

Lemma swap_step_exact_out p t liq fee a :
  0 < p -> 0 < t -> 0 <= liq -> 0 <= fee < 1000000 -> 0 < a ->
  let ci := full_in p t liq in
  exists after i o f, swap_step p t liq (- a) fee = Some (after, i, o, f) /\
    Z.min p t <= after <= Z.max p t /\ 0 <= i /\ 0 <= o /\ 0 <= f /\
    (full_out p t liq <= a ->
       after = t /\ i = ci /\ o = full_out p t liq /\ f = swap_fee ci fee) /\
    (a < full_out p t liq -> o = a) /\
    i <= ci /\ f <= swap_fee ci fee /\ (after = t -> i = ci /\ f = swap_fee ci fee) /\
    (i + f = 0 -> o = 0).
Proof.
  intros Hp Ht Hl Hfee Ha ci. unfold swap_step. rewrite (proj2 (Z.leb_gt 0 (- a))) by lia.
  fold ci. pose proof (full_in_nonneg p t liq Hp Ht Hl) as Hci. fold ci in Hci.
  pose proof (full_out_nonneg p t liq Hp Ht Hl). pose proof (swap_fee_nonneg ci fee Hfee Hci).
  rewrite Z.opp_involutive.
  destruct (Z.leb_spec (full_out p t liq) a) as [Hle|Hlt].
  { exists t, ci, (full_out p t liq), (swap_fee ci fee). split_and!; try done; try lia.
    intros Hz. apply no_input_no_output; lia. }
  set (next := if t <=? p then next_from_output1 p liq a else next_from_output0 p liq a).
  assert (Hn : Z.min p t <= next <= Z.max p t /\ a <= full_out p next liq).
  { unfold next. destruct (Z.leb_spec t p) as [Hd|Hd].
    - destruct (partial_output1 p t liq a Hp Ht Hl ltac:(lia) Hd Hlt). simpl in *. lia.
    - destruct (partial_output0 p t liq a Hp Ht Hl ltac:(lia) Hd Hlt). simpl in *. lia. }
  destruct Hn as (Hbt & Hout). clearbody next.
  pose proof (full_in_nonneg p next liq Hp ltac:(lia) Hl) as Hin.
  pose proof (swap_fee_nonneg _ fee Hfee Hin).
  assert (Hmono : full_in p next liq <= ci).
  { unfold ci. apply full_in_mono; lia. }
  pose proof (swap_fee_mono _ _ fee Hfee Hmono).
  pose proof (no_input_no_output p next liq Hp ltac:(lia) Hl).
  exists next, (full_in p next liq), (Z.min (full_out p next liq) a),
    (swap_fee (full_in p next liq) fee).
  split_and!; try done; try lia. by intros ->.
Qed.

(** The price an exact output of [a] moves to. *)
Definition out_next (p t liq a : Z) : Z :=
  if full_out p t liq <=? a then t
  else if t <=? p then next_from_output1 p liq a else next_from_output0 p liq a.

Lemma swap_step_out_next p t liq fee a after i o f :
  0 < a -> swap_step p t liq (- a) fee = Some (after, i, o, f) ->
  after = out_next p t liq a /\ i = full_in p after liq /\ f = swap_fee i fee.
Proof.
  intros Ha. unfold swap_step, out_next. rewrite (proj2 (Z.leb_gt 0 (- a))) by lia.
  rewrite Z.opp_involutive. destruct (full_out p t liq <=? a); intros; by simplify_eq.
Qed.

Lemma out_next_mono p t liq a a' :
  0 < p -> 0 < t -> 0 <= liq -> 0 < a <= a' ->
  if t <=? p then t <= out_next p t liq a' <= out_next p t liq a /\ out_next p t liq a <= p
  else p <= out_next p t liq a <= out_next p t liq a' /\ out_next p t liq a' <= t.
Proof.
  intros Hp Ht Hl Ha. unfold out_next.
  destruct (Z.leb_spec (full_out p t liq) a) as [|Hlt].
  { rewrite (proj2 (Z.leb_le (full_out p t liq) a')) by lia. destruct (Z.leb_spec t p); lia. }
  destruct (Z.leb_spec t p) as [Hd|Hd].
  - destruct (partial_output1 p t liq a Hp Ht Hl ltac:(lia) Hd Hlt) as [Hb _]. simpl in Hb.
    destruct (Z.leb_spec (full_out p t liq) a') as [|Hlt']; [lia|].
    destruct (partial_output1 p t liq a' Hp Ht Hl ltac:(lia) Hd Hlt') as [Hb' _]. simpl in Hb'.
    split; [|lia]. split; [lia|]. unfold next_from_output1.
    destruct (Z.eq_dec liq 0) as [->|]; [unfold cdiv; rewrite !Zdiv_0_r; lia|].
    pose proof (cdiv_mono (a * Q96) (a' * Q96) liq ltac:(lia) ltac:(pose proof q96_pos; nia)). lia.
  - destruct (partial_output0 p t liq a Hp Ht Hl ltac:(lia) Hd Hlt) as [Hb _]. simpl in Hb.
    destruct (Z.leb_spec (full_out p t liq) a') as [|Hlt']; [lia|].
    destruct (partial_output0 p t liq a' Hp Ht Hl ltac:(lia) Hd Hlt') as [Hb' _]. simpl in Hb'.
    split; [|lia]. split; [lia|]. unfold next_from_output0 in *.
    destruct (out0_denominator p t liq a' Hp Ht Hl ltac:(lia) Hd Hlt') as [HD' _].
    assert (Hcov : liq * Q96 * p <= (liq * Q96 - a' * p) * cdiv (liq * Q96 * p) (liq * Q96 - a' * p))
      by (apply cdiv_le; [done|lia]).
    assert (HD : liq * Q96 - a' * p <= liq * Q96 - a * p) by nia.
    set (next' := cdiv _ _) in *. apply cdiv_le; [lia|].
    etrans; [exact Hcov|]. apply Z.mul_le_mono_nonneg_r; lia.
Qed.

(** The output to a farther price is at least the output to a nearer one. *)
Lemma full_out_mono p n n' liq :
  0 < p -> 0 < n -> 0 < n' -> 0 <= liq -> (n' <= n <= p \/ p <= n <= n') ->
  full_out p n liq <= full_out p n' liq.
Proof.
  intros Hp Hn Hn' Hl Hord. pose proof q96_pos.
  destruct (Z.eq_dec n p) as [->|].
  { replace (full_out p p liq) with 0; [by apply full_out_nonneg|].
    symmetry. apply no_input_no_output; [done..|]. by apply full_in_same. }
  unfold full_out. destruct Hord.
  - rewrite !(proj2 (Z.leb_le _ _)) by lia. apply Z.div_le_mono; nia.
  - rewrite !(proj2 (Z.leb_gt _ _)) by lia. unfold amount0_down. set (N := liq * Q96).
    assert (0 <= N) by nia. apply div_ge; [nia|].
    pose proof (Z.mul_div_le (N * (n - p)) (n * p) ltac:(nia)) as Hcov.
    set (c := N * (n - p) / (n * p)) in *.
    assert (Hk : N * p <= n * (N - c * p)) by nia. assert (0 <= N - c * p) by nia.
    assert (n * (N - c * p) <= n' * (N - c * p)) by nia. nia.
Qed.

(** The price an exact input of [a] after fees moves to. *)
Definition in_next (p t liq a : Z) : Z :=
  if full_in p t liq <=? a then t
  else if t <=? p then next_from_input0 p liq a else next_from_input1 p liq a.

Lemma swap_step_in_next p t liq fee a after i o f :
  0 <= a -> swap_step p t liq a fee = Some (after, i, o, f) ->
  after = in_next p t liq (a * (1000000 - fee) / 1000000) /\ o = full_out p after liq.
Proof.
  intros Ha. unfold swap_step, in_next. rewrite (proj2 (Z.leb_le 0 a)) by lia.
  destruct (full_in p t liq <=? _); intros; by simplify_eq.
Qed.

Lemma in_next_mono p t liq a a' :
  0 < p -> 0 < t -> 0 <= liq -> 0 <= a <= a' ->
  if t <=? p then t <= in_next p t liq a' <= in_next p t liq a /\ in_next p t liq a <= p
  else p <= in_next p t liq a <= in_next p t liq a' /\ in_next p t liq a' <= t.
Proof.
  intros Hp Ht Hl Ha. unfold in_next. pose proof q96_pos.
  destruct (Z.leb_spec (full_in p t liq) a) as [|Hlt].
  { rewrite (proj2 (Z.leb_le (full_in p t liq) a')) by lia. destruct (Z.leb_spec t p); lia. }
  destruct (Z.leb_spec t p) as [Hd|Hd].
  - destruct (partial_input0 p t liq a Hp Ht Hl ltac:(lia) Hd Hlt) as [Hb _]. simpl in Hb.
    destruct (Z.leb_spec (full_in p t liq) a') as [|Hlt']; [lia|].
    destruct (partial_input0 p t liq a' Hp Ht Hl ltac:(lia) Hd Hlt') as [Hb' _]. simpl in Hb'.
    split; [|lia]. split; [lia|]. unfold next_from_input0 in *.
    destruct (Z.eq_dec liq 0) as [->|].
    { exfalso. unfold full_in in Hlt. rewrite (proj2 (Z.leb_le t p) Hd) in Hlt.
      unfold amount0_up in Hlt. rewrite cdiv_gt in Hlt; nia. }
    set (N := liq * Q96) in *. assert (0 < N) by nia. apply cdiv_le; [nia|].
    assert (Hcov : N * p <= (N + a * p) * cdiv (N * p) (N + a * p)) by (apply cdiv_le; [nia|lia]).
    etrans; [exact Hcov|]. apply Z.mul_le_mono_nonneg_r; nia.
  - destruct (partial_input1 p t liq a Hp Ht Hl ltac:(lia) Hd Hlt) as [Hb _]. simpl in Hb.
    destruct (Z.leb_spec (full_in p t liq) a') as [|Hlt']; [lia|].
    destruct (partial_input1 p t liq a' Hp Ht Hl ltac:(lia) Hd Hlt') as [Hb' _]. simpl in Hb'.
    split; [|lia]. split; [lia|]. unfold next_from_input1.
    destruct (Z.eq_dec liq 0) as [->|]; [rewrite !Zdiv_0_r; lia|].
    pose proof (Z.div_le_mono (a * Q96) (a' * Q96) liq ltac:(lia) ltac:(nia)). lia.
Qed.

(** Inside the price range every capacity fits a signed 256-bit amount. *)
Lemma capacity_bounds p t liq fee :
  2 ^ 32 <= p < 2 ^ 160 -> 2 ^ 32 <= t < 2 ^ 160 -> 0 <= liq < 2 ^ 128 -> 0 <= fee < 1000000 ->
  full_out p t liq < 2 ^ 255 /\ full_in p t liq + swap_fee (full_in p t liq) fee < 2 ^ 255.
Proof.
  intros Hp Ht Hl Hfee. unfold full_out, full_in.
  assert (HN : 0 <= liq * Q96 <= 2 ^ 224) by (unfold Q96; lia).
  assert (Hfee' : forall c, c <= 2 ^ 224 -> c + swap_fee c fee < 2 ^ 255).
  { intros c Hc. assert (swap_fee c fee <= 2 ^ 245); [|lia]. apply cdiv_le; nia. }
  destruct (Z.leb_spec t p); split; try apply Hfee'; unfold amount1_down, amount0_down, amount0_up,
    amount1_up.
  - apply div_lt; [done|]. unfold Q96. nia.
  - apply cdiv_le; [nia|]. nia.
  - apply div_lt; [nia|]. set (N := liq * Q96) in *.
    assert (N * (t - p) <= 2 ^ 224 * t) by nia.
    assert (2 ^ 224 * t < t * p * 2 ^ 255) by nia. lia.
  - apply cdiv_le; [done|]. unfold Q96. nia.
Qed.

#[global] Instance formula_laws : UniswapV3Laws.
Proof.
  constructor; simpl.
  - intros x y z. unfold exact_add_delta. destruct (_ && _) eqn:E; bool_prop;
      [naive_solver lia|]. split; [done|]. intros [_ ?]. destruct E; bool_prop; lia.
  - intros t Ht. unfold linear_ratio.
    rewrite (proj2 (andb_true_iff _ _)) by (rewrite !Z.leb_le; lia).
    eexists. split; [done|]. unfold MIN_TICK, MAX_TICK, MIN_SQRT_RATIO, MAX_SQRT_RATIO in *.
    match goal with |- context [?n / ?d] => set (q := n / d) end.
    assert (0 <= q <= 1461446703485210103287273052203988822378723970342 - 4295128739); [|lia].
    split; [apply Z.div_pos|apply Z.div_le_upper_bound]; lia.
  - vm_compute. reflexivity.
  - vm_compute. reflexivity.
  - intros bm t spacing lte n i Hs [= Hn].
    pose proof (Z.mod_pos_bound t spacing Hs). pose proof (Z.div_mod t spacing ltac:(lia)).
    destruct lte; injection Hn as <- <-; nia.
  - intros p t liq fee (Hp & Ht & Hl & Hfee). unfold MIN_SQRT_RATIO in *.
    pose proof (full_in_nonneg p t liq ltac:(lia) ltac:(lia) ltac:(lia)) as Hci.
    pose proof (swap_fee_nonneg (full_in p t liq) fee Hfee Hci).
    destruct (capacity_bounds p t liq fee) as [Hco Hcap]; [unfold MAX_SQRT_RATIO in *; lia..|].
    exists (full_in p t liq), (full_out p t liq), (swap_fee (full_in p t liq) fee).
    split_and!; [done|apply full_out_nonneg; lia|done|done| | |done| |].
    + intros Hz. apply no_input_no_output; lia.
    + intros ->. rewrite full_in_same by lia. unfold swap_fee. rewrite Z.mul_0_l, cdiv_zero; lia.
    + intros a Ha. apply swap_step_exact_in; lia.
    + intros a Ha. apply swap_step_exact_out; lia.
  - intros p t liq fee a a' after i o f after' i' o' f' (Hp & Ht & Hl & Hfee) Ha _ H1 H2.
    unfold MIN_SQRT_RATIO in *.
    apply swap_step_in_next in H1 as (-> & ->); [|lia].
    apply swap_step_in_next in H2 as (-> & ->); [|lia].
    assert (Hlf : 0 <= a * (1000000 - fee) / 1000000 <= a' * (1000000 - fee) / 1000000).
    { split; [apply Z.div_pos|apply Z.div_le_mono]; nia. }
    pose proof (in_next_mono p t liq _ _ ltac:(lia) ltac:(lia) ltac:(lia) Hlf) as Hm.
    apply full_out_mono; destruct (t <=? p) eqn:E; bool_prop; lia.
  - intros p t liq fee a a' after i o f after' i' o' f' (Hp & Ht & Hl & Hfee) Ha _ H1 H2.
    unfold MIN_SQRT_RATIO in *.
    apply swap_step_out_next in H1 as (-> & -> & ->); [|lia].
    apply swap_step_out_next in H2 as (-> & -> & ->); [|lia].
    pose proof (out_next_mono p t liq a a' ltac:(lia) ltac:(lia) ltac:(lia) Ha) as Hm.
    assert (Hin : full_in p (out_next p t liq a) liq <= full_in p (out_next p t liq a') liq).
    { apply full_in_mono; destruct (t <=? p) eqn:E; bool_prop; lia. }
    split; [done|]. split; [by apply swap_fee_mono|]. destruct (t <=? p); lia.
Qed.
