(* ===== verification/ClmmTicks.v ===== *)
(** * The tick table of a pool

    Correctness of the raw Algebra tick rows of [src/src/dex/clmm.rs] (the
    search within a row, the bitmap against the tick map) and of the Mint/Burn
    update of ticks and active liquidity. *)
From Stdlib Require Import Lia.
From stdpp Require Import base gmap sets strings numbers list fin_maps.
From S2P Require Import Prelude Clmm.

(** ** Bits *)
Lemma trailing_zeros_spec x :
  0 < x ->
  0 <= trailing_zeros x /\ Z.testbit x (trailing_zeros x) = true /\
  forall j, 0 <= j < trailing_zeros x -> Z.testbit x j = false.
Proof.
  destruct x as [|p|p]; [lia| |lia]. intros _. simpl trailing_zeros.
  induction p as [p IH|p IH|]; simpl pos_trailing_zeros.
  - split_and!; [lia|done|lia].
  - destruct IH as (Hge & Hbit & Hlow). rewrite Pos2Z.inj_xO. split_and!; [lia| |].
    + rewrite Z.add_comm, Z.add_1_r, Z.double_bits_succ. done.
    + intros j Hj. destruct (Z.eq_dec j 0) as [->|Hj0]; [apply Z.testbit_even_0|].
      replace j with (Z.succ (j - 1)) by lia. rewrite Z.double_bits_succ. apply Hlow. lia.
  - split_and!; [lia|done|lia].
Qed.

Lemma top_bit_spec x :
  0 < x -> 0 <= Z.log2 x /\ Z.testbit x (Z.log2 x) = true /\
  forall j, Z.log2 x < j -> Z.testbit x j = false.
Proof.
  intros Hx. split_and!; [apply Z.log2_nonneg|by apply Z.bit_log2|].
  intros j Hj. apply Z.bits_above_log2; lia.
Qed.

Lemma low_mask_spec row b j :
  0 <= b -> 0 <= j ->
  Z.testbit (Z.land row (if b =? 255 then 2 ^ 256 - 1 else Z.shiftl 1 (b + 1) - 1)) j
  = Z.testbit row j && (j <=? b).
Proof.
  intros Hb Hj.
  assert ((if b =? 255 then 2 ^ 256 - 1 else Z.shiftl 1 (b + 1) - 1) = Z.ones (b + 1)) as ->.
  { rewrite Z.ones_equiv. destruct (Z.eqb_spec b 255) as [->|]; [done|].
    rewrite Z.shiftl_1_l. lia. }
  rewrite Z.land_spec, Z.testbit_ones_nonneg by lia. f_equal.
  apply eq_true_iff_eq. rewrite Z.ltb_lt, Z.leb_le. lia.
Qed.

Lemma high_mask_spec row b j :
  0 <= b -> 0 <= j ->
  Z.testbit (Z.land row (Z.shiftl (2 ^ 256 - 1) b mod 2 ^ 256)) j
  = Z.testbit row j && ((b <=? j) && (j <? 256)).
Proof.
  intros Hb Hj. rewrite Z.land_spec. f_equal.
  replace (2 ^ 256 - 1) with (Z.ones 256) by done.
  rewrite <- Z.land_ones, Z.land_spec, Z.shiftl_spec by lia.
  rewrite (Z.testbit_ones_nonneg 256 j) by lia.
  destruct (Z.leb_spec b j); simpl.
  - rewrite Z.testbit_ones_nonneg by lia.
    destruct (Z.ltb_spec (j - b) 256), (Z.ltb_spec j 256); try done; lia.
  - rewrite Z.testbit_neg_r by lia. done.
Qed.

(** ** Rows *)
Definition tick_bit (table : gmap Z Z) (t : Z) : bool :=
  Z.testbit (default 0 (table !! Z.shiftr t 8)) (t mod 256).

(** Rows are 256-bit words and every set bit is a tick in range. *)
Definition table_ok (table : gmap Z Z) : Prop :=
  (forall w r, table !! w = Some r -> u256 r) /\
  (forall t, tick_bit table t = true -> MIN_TICK <= t <= MAX_TICK).

Definition row_start (t : Z) : Z := Z.shiftl (Z.shiftr t 8) 8.

Lemma row_start_eq t : row_start t = 256 * (t / 256).
Proof. unfold row_start. rewrite Z.shiftl_mul_pow2, Z.shiftr_div_pow2 by lia. change (2 ^ 8) with 256. lia. Qed.

Lemma row_decompose t : t = row_start t + t mod 256 /\ 0 <= t mod 256 < 256.
Proof.
  rewrite row_start_eq. pose proof (Z.div_mod t 256 ltac:(lia)).
  pose proof (Z.mod_pos_bound t 256 ltac:(lia)). lia.
Qed.

Lemma row_bit table t j :
  0 <= j < 256 ->
  Z.testbit (default 0 (table !! Z.shiftr t 8)) j = tick_bit table (row_start t + j).
Proof.
  intros Hj. unfold tick_bit. rewrite row_start_eq, !Z.shiftr_div_pow2 by lia.
  change (2 ^ 8) with 256.
  rewrite (Z.mul_comm 256), Z.div_add_l, (Z.div_small j), Z.add_0_r by lia.
  by rewrite Z.add_comm, Z.mod_add, Z.mod_small by lia.
Qed.

Lemma row_nonneg table t : table_ok table -> 0 <= default 0 (table !! Z.shiftr t 8).
Proof.
  intros [Hr _]. destruct (table !! Z.shiftr t 8) as [r|] eqn:E; simpl; [|lia].
  apply Hr in E. unfold uint in E. lia.
Qed.

Lemma row_high_bits table t j :
  table_ok table -> 256 <= j -> Z.testbit (default 0 (table !! Z.shiftr t 8)) j = false.
Proof.
  intros [Hr _] Hj. destruct (table !! Z.shiftr t 8) as [r|] eqn:E; simpl.
  - apply Hr in E. destruct (Z.eq_dec r 0) as [->|]; [apply Z.testbit_0_l|].
    apply Z.bits_above_log2; [apply E|].
    unfold uint in E. apply (Z.lt_le_trans _ 256); [|done]. apply Z.log2_lt_pow2; lia.
  - apply Z.testbit_0_l.
Qed.

Lemma wrap_row t : MIN_TICK - 1 <= t <= MAX_TICK + 1 -> wrap_i16 (Z.shiftr t 8) = Z.shiftr t 8.
Proof.
  unfold MIN_TICK, MAX_TICK. intros Ht. unfold wrap_i16.
  rewrite Z.shiftr_div_pow2 by lia. change (2 ^ 8) with 256.
  assert (-3466 <= t / 256 <= 3466).
  { split; [apply Z.div_le_lower_bound; lia|].
    apply Z.lt_succ_r. apply Z.div_lt_upper_bound; lia. }
  rewrite Z.mod_small; lia.
Qed.

Lemma zero_bits_eq x : (forall j, 0 <= j -> Z.testbit x j = false) -> x = 0.
Proof. intros H. apply Z.bits_inj'. intros j Hj. by rewrite H, Z.testbit_0_l. Qed.

Lemma clamp_tick_id t : MIN_TICK <= t <= MAX_TICK -> clamp_tick t = t.
Proof. unfold clamp_tick, clamp. lia. Qed.

(** The search downwards from [t]. *)
Lemma next_tick_down table t n i :
  table_ok table -> MIN_TICK <= t <= MAX_TICK ->
  next_algebra_tick_in_same_row table t true = (n, i) ->
  (forall j, (if i then n else row_start t - 1) < j <= t -> tick_bit table j = false) /\
  (i = true -> tick_bit table n = true /\ row_start t <= n <= t) /\
  (i = false -> n = clamp_tick (row_start t)).
Proof.
  intros Hok Ht. unfold next_algebra_tick_in_same_row. rewrite wrap_row by lia.
  destruct (row_decompose t) as [Hdec Hb]. set (b := t mod 256) in *.
  set (row := default 0 (table !! Z.shiftr t 8)).
  pose proof (low_mask_spec row b) as Hmask. set (m := Z.land row _) in *.
  assert (Hm0 : 0 <= m) by (apply Z.land_nonneg; left; by apply row_nonneg).
  fold (row_start t). destruct (Z.eqb_spec m 0) as [Hm|Hm]; intros [= <- <-].
  - split_and!; [|done|done]. intros j Hj. replace j with (row_start t + (j - row_start t)) by lia.
    rewrite <- row_bit by lia. fold row. specialize (Hmask (j - row_start t)).
    rewrite Hm, Z.testbit_0_l in Hmask. symmetry in Hmask.
    apply andb_false_iff in Hmask as [?|?]; [done|bool_prop; lia|lia|lia].
  - destruct (top_bit_spec m ltac:(lia)) as (H0 & Htop & Habove).
    unfold leading_zeros. rewrite (proj2 (Z.eqb_neq _ _) Hm).
    replace (255 - (255 - Z.log2 m)) with (Z.log2 m) by lia.
    rewrite Hmask in Htop by lia. apply andb_true_iff in Htop as [Hrow Hle]. bool_prop.
    unfold row in Hrow. rewrite row_bit in Hrow by lia.
    pose proof (proj2 Hok _ Hrow) as Hrange. rewrite clamp_tick_id by lia.
    split_and!; [|intros _; split; [done|lia]|done].
    intros j Hj. replace j with (row_start t + (j - row_start t)) by lia.
    rewrite <- row_bit by lia. fold row. specialize (Habove (j - row_start t) ltac:(lia)).
    rewrite Hmask in Habove by lia.
    apply andb_false_iff in Habove as [?|?]; [done|bool_prop; lia].
Qed.

(** The search upwards, from the tick after [t]. *)
Lemma next_tick_up table t n i :
  table_ok table -> MIN_TICK - 1 <= t <= MAX_TICK ->
  next_algebra_tick_in_same_row table t false = (n, i) ->
  let last := row_start (t + 1) + 255 in
  (forall j, t < j < (if i then n else last + 1) -> tick_bit table j = false) /\
  (i = true -> tick_bit table n = true /\ t < n <= last) /\
  (i = false -> n = clamp_tick last).
Proof.
  intros Hok Ht. unfold next_algebra_tick_in_same_row.
  assert (saturating_succ_i32 t = t + 1) as ->
    by (unfold saturating_succ_i32, MIN_TICK, MAX_TICK in *; lia).
  rewrite wrap_row by lia. destruct (row_decompose (t + 1)) as [Hdec Hb].
  set (b := (t + 1) mod 256) in *. set (row := default 0 (table !! Z.shiftr (t + 1) 8)).
  pose proof (high_mask_spec row b) as Hmask. set (m := Z.land row _) in *.
  assert (Hm0 : 0 <= m) by (apply Z.land_nonneg; left; by apply row_nonneg).
  fold (row_start (t + 1)). destruct (Z.eqb_spec m 0) as [Hm|Hm]; intros [= <- <-]; simpl.
  - split_and!; [|done|done]. intros j Hj.
    replace j with (row_start (t + 1) + (j - row_start (t + 1))) by lia.
    rewrite <- row_bit by lia. fold row. specialize (Hmask (j - row_start (t + 1))).
    rewrite Hm, Z.testbit_0_l in Hmask. symmetry in Hmask.
    apply andb_false_iff in Hmask as [?|Hw]; [done| |lia|lia].
    apply andb_false_iff in Hw as [?|?]; bool_prop; lia.
  - destruct (trailing_zeros_spec m ltac:(lia)) as (H0 & Htop & Hbelow).
    rewrite Hmask in Htop by lia. apply andb_true_iff in Htop as [Hrow Hle]. bool_prop.
    unfold row in Hrow. rewrite row_bit in Hrow by lia.
    pose proof (proj2 Hok _ Hrow) as Hrange. rewrite clamp_tick_id by lia.
    split_and!; [|intros _; split; [done|lia]|done].
    intros j Hj. replace j with (row_start (t + 1) + (j - row_start (t + 1))) by lia.
    rewrite <- row_bit by lia. fold row.
    specialize (Hbelow (j - row_start (t + 1)) ltac:(lia)). rewrite Hmask in Hbelow by lia.
    apply andb_false_iff in Hbelow as [?|Hw]; [done|].
    apply andb_false_iff in Hw as [?|?]; bool_prop; lia.
Qed.

(** ** The bitmap against the tick map *)
Lemma testbit_one b j : 0 <= b -> 0 <= j -> Z.testbit (Z.shiftl 1 b) j = (j =? b).
Proof.
  intros Hb Hj. rewrite Z.shiftl_1_l, Z.pow2_bits_eqb by lia. by rewrite Z.eqb_sym.
Qed.

Definition flip_row (bm : gmap Z Z) (t : Z) : gmap Z Z :=
  <[Z.shiftr t 8 := Z.lxor (default 0 (bm !! Z.shiftr t 8)) (Z.shiftl 1 (t mod 256))]> bm.

Lemma tick_split t t' : Z.shiftr t 8 = Z.shiftr t' 8 -> t mod 256 = t' mod 256 -> t = t'.
Proof.
  rewrite !Z.shiftr_div_pow2 by lia. change (2 ^ 8) with 256. intros H1 H2.
  rewrite (Z.div_mod t 256), (Z.div_mod t' 256) by lia. by rewrite H1, H2.
Qed.

Lemma flip_row_bit bm t t' :
  tick_bit (flip_row bm t) t' = xorb (tick_bit bm t') (t' =? t).
Proof.
  unfold tick_bit, flip_row. rewrite lookup_insert.
  pose proof (Z.mod_pos_bound t 256 ltac:(lia)). pose proof (Z.mod_pos_bound t' 256 ltac:(lia)).
  case_decide as Hw.
  - rewrite <- Hw. simpl. rewrite Z.lxor_spec, testbit_one by lia. f_equal.
    apply eq_true_iff_eq. rewrite !Z.eqb_eq. split; [|by intros ->].
    intros Heq. by apply tick_split.
  - destruct (Z.eqb_spec t' t) as [->|]; [done|]. by rewrite xorb_false_r.
Qed.

Lemma lxor_u256 a b : u256 a -> u256 b -> u256 (Z.lxor a b).
Proof.
  intros [Ha Ha'] [Hb Hb']. assert (0 <= Z.lxor a b) by (apply Z.lxor_nonneg; lia).
  split; [done|]. destruct (Z.eq_dec (Z.lxor a b) 0) as [->|]; [lia|].
  apply Z.log2_lt_pow2; [lia|]. eapply Z.le_lt_trans; [by apply Z.log2_lxor|].
  destruct (Z.eq_dec a 0) as [->|], (Z.eq_dec b 0) as [->|];
    try (apply Z.max_lub_lt; (simpl; lia) || (apply Z.log2_lt_pow2; lia)); done.
Qed.

Lemma flip_row_ok bm t :
  table_ok bm -> MIN_TICK <= t <= MAX_TICK -> table_ok (flip_row bm t).
Proof.
  intros [Hr Hb] Ht. split.
  - intros w r. unfold flip_row. rewrite lookup_insert. case_decide; [|apply Hr].
    intros [= <-]. apply lxor_u256.
    + destruct (bm !! Z.shiftr t 8) as [r|] eqn:E; simpl; [by eapply Hr|typed].
    + pose proof (Z.mod_pos_bound t 256 ltac:(lia)). rewrite Z.shiftl_1_l.
      split; [lia|]. apply Z.pow_lt_mono_r; lia.
  - intros t'. rewrite flip_row_bit. destruct (Z.eqb_spec t' t) as [->|]; [done|].
    rewrite xorb_false_r. apply Hb.
Qed.

(** Extensional equality of bitmaps: an absent row is an empty row. *)
Definition bitmap_equiv (a b : gmap Z Z) : Prop :=
  forall w, default 0 (a !! w) = default 0 (b !! w).
#[global] Instance bitmap_equiv_equivalence : Equivalence bitmap_equiv.
Proof. split; [by intros ??|by intros ????; symmetry|intros ??? H1 H2 w; by rewrite H1]. Qed.

#[global] Instance tick_bit_proper : Proper (bitmap_equiv ==> eq ==> eq) tick_bit.
Proof. intros a b Hab t ? <-. unfold tick_bit. by rewrite Hab. Qed.

#[global] Instance flip_row_proper : Proper (bitmap_equiv ==> eq ==> bitmap_equiv) flip_row.
Proof.
  intros a b Hab t ? <- w. unfold flip_row. rewrite !lookup_insert. by case_decide; simpl; rewrite ?Hab.
Qed.

#[global] Instance next_tick_proper :
  Proper (bitmap_equiv ==> eq ==> eq ==> eq) next_algebra_tick_in_same_row.
Proof.
  intros a b Hab t ? <- z ? <-. unfold next_algebra_tick_in_same_row. by rewrite Hab.
Qed.

Lemma flip_row_twice bm t : bitmap_equiv (flip_row (flip_row bm t) t) bm.
Proof.
  intros w. unfold flip_row. rewrite !lookup_insert. case_decide as Hw; [|done].
  rewrite decide_True by done. simpl. rewrite Z.lxor_assoc, Z.lxor_nilpotent, Z.lxor_0_r.
  by rewrite Hw.
Qed.

(** ** Pool invariants *)
Definition tick_ok (spacing : Z) (t : Z) (tl : TickLiquidity) : Prop :=
  MIN_TICK <= t <= MAX_TICK /\ aligned t spacing = true /\
  0 < gross tl < 2 ^ 128 /\ - 2 ^ 127 <= net tl < 2 ^ 127.

(** A pool with raw tick rows: the bitmap is exactly the set of initialized
    ticks, and every recorded tick is in range, aligned and has liquidity. *)
Record algebra_ok (p : ClmmPool) : Prop := {
  ao_raw : tick_traversal p = AlgebraRaw;
  ao_table : table_ok (tick_bitmap p);
  ao_coherent t : tick_bit (tick_bitmap p) t = true <-> is_Some (ticks p !! t);
  ao_ticks t tl : ticks p !! t = Some tl -> tick_ok (tick_spacing p) t tl;
}.

Lemma tick_in_range_spec t : tick_in_range t = true <-> MIN_TICK <= t <= MAX_TICK.
Proof. unfold tick_in_range. rewrite andb_true_iff, !Z.leb_le. done. Qed.

Section algebra.
Context `{UniswapV3Math}.

Lemma flip_tick_raw p t :
  tick_traversal p = AlgebraRaw -> MIN_TICK <= t <= MAX_TICK ->
  flip_tick p t = Ok (flip_row (tick_bitmap p) t).
Proof.
  intros Hraw Ht. unfold flip_tick. rewrite Hraw.
  pose proof (wrap_row t ltac:(lia)) as Hw. unfold wrap_i16 in Hw.
  pose proof (Z.mod_pos_bound (Z.shiftr t 8 + 2 ^ 15) (2 ^ 16) ltac:(lia)).
  unfold i16_try_from.
  rewrite (proj2 (andb_true_iff _ _)) by (rewrite Z.leb_le, Z.ltb_lt; lia). done.
Qed.

(** The table a successful [set_tick] leaves. *)
Definition put_tick (m : gmap Z TickLiquidity) (t g n : Z) : gmap Z TickLiquidity :=
  if g =? 0 then delete t m else <[t := mkTick g n]> m.

Lemma set_tick_Ok p p' t g n :
  set_tick t g n p = (p', Ok tt) ->
  aligned t (tick_spacing p) = true /\ MIN_TICK <= t <= MAX_TICK /\
  exists bm, p' = set_table p bm (put_tick (ticks p) t g n) /\
    (tick_traversal p = AlgebraRaw ->
     bm = if bool_decide (is_Some (ticks p !! t)) && negb (g =? 0)
             || negb (bool_decide (is_Some (ticks p !! t))) && (g =? 0)
          then tick_bitmap p else flip_row (tick_bitmap p) t).
Proof.
  unfold set_tick, put_tick.
  destruct (aligned t (tick_spacing p)) eqn:Ea; simpl; [|done].
  destruct (tick_in_range t) eqn:Er; simpl; [|done]. apply tick_in_range_spec in Er.
  destruct (ticks p !! t) as [tl|] eqn:Et, (g =? 0) eqn:Eg; simpl.
  - destruct (flip_tick p t) as [bm|] eqn:Ef; [|done]. intros [= <-].
    split_and!; [done|lia|lia|]. exists bm. split; [done|]. intros Hraw.
    rewrite flip_tick_raw in Ef by done. by simplify_eq.
  - intros [= <-]. split_and!; [done|lia|lia|]. eexists. by split.
  - intros [= <-]. split_and!; [done|lia|lia|]. exists (tick_bitmap p). split; [|done].
    rewrite delete_id by done. by destruct p.
  - destruct (flip_tick p t) as [bm|] eqn:Ef; [|done]. intros [= <-].
    split_and!; [done|lia|lia|]. exists bm. split; [done|]. intros Hraw.
    rewrite flip_tick_raw in Ef by done. by simplify_eq.
Qed.

(** On a raw pool an aligned tick in range can always be set. *)
Lemma set_tick_total p t g n :
  tick_traversal p = AlgebraRaw -> aligned t (tick_spacing p) = true ->
  MIN_TICK <= t <= MAX_TICK -> exists p', set_tick t g n p = (p', Ok tt).
Proof.
  intros Hraw Ha Ht. unfold set_tick. rewrite Ha, (proj2 (tick_in_range_spec t) Ht). simpl.
  rewrite flip_tick_raw by done. destruct (ticks p !! t), (g =? 0); eauto.
Qed.

Lemma set_tick_algebra_ok p p' t g n :
  algebra_ok p -> 0 <= g < 2 ^ 128 -> - 2 ^ 127 <= n < 2 ^ 127 ->
  set_tick t g n p = (p', Ok tt) -> algebra_ok p'.
Proof.
  intros [Hraw Htab Hcoh Htk] Hg Hn Hset.
  apply set_tick_Ok in Hset as (Ha & Ht & bm & -> & Hbm). specialize (Hbm Hraw).
  assert (Hflip : forall t', tick_bit bm t' = if t' =? t then negb (g =? 0)
                                             else tick_bit (tick_bitmap p) t').
  { intros t'. subst bm. destruct (tick_bit (tick_bitmap p) t) eqn:Eb.
    - rewrite bool_decide_eq_true_2 by (by apply Hcoh).
      destruct (Z.eqb_spec g 0); simpl; rewrite ?flip_row_bit;
        destruct (Z.eqb_spec t' t) as [->|]; rewrite ?Eb, ?xorb_false_r; done.
    - rewrite bool_decide_eq_false_2 by (rewrite <- Hcoh, Eb; done).
      destruct (Z.eqb_spec g 0); simpl; rewrite ?flip_row_bit;
        destruct (Z.eqb_spec t' t) as [->|]; rewrite ?Eb, ?xorb_false_r; done. }
  assert (Hbit : forall t', tick_bit bm t' = true <-> is_Some (put_tick (ticks p) t g n !! t')).
  { intros t'. rewrite Hflip. unfold put_tick. destruct (Z.eqb_spec t' t) as [->|].
    - destruct (g =? 0); simpl.
      + rewrite lookup_delete_eq. split; [done|]. intros Hs. by apply is_Some_None in Hs.
      + rewrite lookup_insert_eq. split; eauto.
    - rewrite Hcoh. destruct (g =? 0);
        rewrite ?lookup_delete_ne, ?lookup_insert_ne by done; done. }
  constructor; simpl; [done| |done|].
  - subst bm. destruct (_ || _); [done|]. by apply flip_row_ok.
  - intros t' tl. unfold put_tick. destruct (Z.eqb_spec g 0).
    + intros [_ Hl]%lookup_delete_Some. by apply Htk.
    + rewrite lookup_insert. case_decide; [|apply Htk]. intros [= <-]. subst t'.
      split_and!; simpl; try done; lia.
Qed.
End algebra.

(** ** Mint and Burn *)
Definition net_at (m : gmap Z TickLiquidity) (t : Z) : Z := default 0 (net <$> m !! t).

(** The liquidity that is active at tick [t]: the net liquidity of every
    initialized tick at or below it. *)
Definition net_below (t : Z) (m : gmap Z TickLiquidity) : Z :=
  map_fold (fun i tl acc => (if i <=? t then net tl else 0) + acc) 0 m.

Lemma net_below_insert_new t m i tl :
  m !! i = None -> net_below t (<[i := tl]> m) = (if i <=? t then net tl else 0) + net_below t m.
Proof. intros Hi. unfold net_below. rewrite map_fold_insert_L; [done|intros; lia|done]. Qed.

Lemma net_below_delete t m i :
  net_below t (delete i m) = net_below t m - if i <=? t then net_at m i else 0.
Proof.
  unfold net_at. destruct (m !! i) as [tl|] eqn:E; simpl.
  - rewrite <- (insert_delete_id m i tl E) at 2.
    rewrite net_below_insert_new by apply lookup_delete_eq. lia.
  - rewrite delete_id by done. destruct (i <=? t); lia.
Qed.

Lemma net_below_put t m i g n :
  (g = 0 -> n = 0) ->
  net_below t (put_tick m i g n) = net_below t m + if i <=? t then n - net_at m i else 0.
Proof.
  intros Hz. unfold put_tick. destruct (Z.eqb_spec g 0) as [Hg|Hg].
  - rewrite net_below_delete, (Hz Hg). destruct (i <=? t); lia.
  - rewrite <- insert_delete_eq, net_below_insert_new by apply lookup_delete_eq.
    rewrite net_below_delete. simpl. destruct (i <=? t); lia.
Qed.

Lemma put_tick_ne m i g n j : i <> j -> put_tick m i g n !! j = m !! j.
Proof.
  intros Hij. unfold put_tick. destruct (g =? 0);
    [by rewrite lookup_delete_ne|by rewrite lookup_insert_ne].
Qed.

Lemma updated_boundary_Ok cur amt nd adding tl :
  updated_boundary cur amt nd adding = Ok tl ->
  gross tl = default 0 (gross <$> cur) + (if adding then amt else - amt) /\
  net tl = default 0 (net <$> cur) + nd /\
  (gross tl = 0 -> net tl = 0) /\ - 2 ^ 127 <= net tl < 2 ^ 127 /\
  (if adding then gross tl < 2 ^ 128 else 0 <= gross tl).
Proof.
  unfold updated_boundary. intros H. res_inv. simpl.
  assert (Hn : x0 = net (default (mkTick 0 0) cur) + nd /\ - 2 ^ 127 <= x0 < 2 ^ 127).
  { unfold checked_add_i128 in Hok0. destruct (_ && _) eqn:E; [|done]. bool_prop. naive_solver lia. }
  assert (Hz : x = 0 -> x0 = 0).
  { intros ->. simpl in Hok1. by apply Z.eqb_eq in Hok1. }
  destruct cur as [c|]; simpl in *; destruct adding; res_inv; checked_inv; split_and!; lia || auto.
Qed.

Section mint_burn.
Context `{UniswapV3Laws}.

Lemma apply_liquidity_delta_zero p p' lower upper :
  apply_liquidity_delta lower upper 0 p = (p', Ok tt) -> p' = p.
Proof. unfold apply_liquidity_delta. simpl. by repeat case_match; intros; simplify_eq. Qed.

(** The range guards of the update. *)
Definition range_ok (p : ClmmPool) (lower upper : Z) : Prop :=
  lower < upper /\ aligned lower (tick_spacing p) = true /\
  aligned upper (tick_spacing p) = true /\
  tick_in_range lower = true /\ tick_in_range upper = true.

(** Everything a successful, non-trivial update has done. *)
Lemma apply_liquidity_delta_Ok p p' lower upper d :
  apply_liquidity_delta lower upper d p = (p', Ok tt) -> d <> 0 ->
  range_ok p lower upper /\
  exists lo up bm liq,
    updated_boundary (ticks p !! lower) (Z.abs d) d (0 <? d) = Ok lo /\
    updated_boundary (ticks p !! upper) (Z.abs d) (- d) (0 <? d) = Ok up /\
    liq = (if (lower <=? tick p) && (tick p <? upper) then liquidity p + d else liquidity p) /\
    p' = set_head
           (set_table p bm (put_tick (put_tick (ticks p) lower (gross lo) (net lo))
                              upper (gross up) (net up)))
           (sqrt_price_x96 p) (tick p) liq.
Proof.
  unfold apply_liquidity_delta. intros H1 Hd.
  destruct (Z.ltb_spec lower upper) as [Hlt|]; simpl in H1; [|done].
  destruct (aligned lower (tick_spacing p) && aligned upper (tick_spacing p)) eqn:Ea;
    simpl in H1; [|done].
  destruct (tick_in_range lower && tick_in_range upper) eqn:Er; simpl in H1; [|done].
  rewrite (proj2 (Z.eqb_neq d 0) Hd) in H1. bool_prop. split; [by split_and!|].
  destruct (rbind (updated_boundary (ticks p !! lower) _ _ _) _) as [[[lo up] act]|] eqn:Ep; [|done].
  res_inv. unfold checked_neg_i128 in Hok0. destruct (d =? - 2 ^ 127); [done|].
  injection Hok0 as <-.
  unfold mbind', mget, mput, mret in H1.
  destruct (set_tick lower (gross lo) (net lo) p) as [p1 [[]|]] eqn:E1; [|done].
  destruct (set_tick upper (gross up) (net up) p1) as [p2 [[]|]] eqn:E2; [|done].
  apply set_tick_Ok in E1 as (_ & _ & bm1 & -> & _).
  apply set_tick_Ok in E2 as (_ & _ & bm2 & -> & _).
  exists lo, up, bm2.
  destruct ((lower <=? tick p) && (tick p <? upper)); res_inv.
  - apply add_delta_spec in Hok0 as [-> _].
    exists (liquidity p + d). split_and!; try done; by simplify_eq.
  - exists (liquidity p). split_and!; try done; by simplify_eq.
Qed.

Lemma liquidity_delta_net p p' lower upper d t :
  apply_liquidity_delta lower upper d p = (p', Ok tt) ->
  net_below t (ticks p') = net_below t (ticks p) +
    if (lower <=? t) && (t <? upper) then d else 0.
Proof.
  destruct (Z.eq_dec d 0) as [->|Hd]; intros Happ.
  { apply apply_liquidity_delta_zero in Happ as ->. destruct (_ && _); lia. }
  apply apply_liquidity_delta_Ok in Happ as ((Hlt & _) & lo & up & bm & liq & Hlo & Hup & _ & ->); [|done].
  simpl. apply updated_boundary_Ok in Hlo as (_ & Hnlo & Hzlo & _).
  apply updated_boundary_Ok in Hup as (_ & Hnup & Hzup & _).
  rewrite net_below_put by done. rewrite net_below_put by done.
  unfold net_at. rewrite put_tick_ne by lia. rewrite Hnlo, Hnup.
  destruct (Z.leb_spec lower t), (Z.leb_spec upper t), (Z.ltb_spec t upper); simpl; lia.
Qed.
End mint_burn.

(** The mutations of a pool, as the engine's single owner applies them. *)
Inductive pool_op :=
| SetTick (index g n : Z)
| SwapHead (price t liq : Z)
| LiquidityDelta (lower upper delta : Z).

Definition pool_op_typed (o : pool_op) : Prop :=
  match o with
  | SetTick _ g n => 0 <= g < 2 ^ 128 /\ - 2 ^ 127 <= n < 2 ^ 127
  | SwapHead _ _ _ => True
  | LiquidityDelta _ _ d => - 2 ^ 127 <= d < 2 ^ 127
  end.

Definition run_pool_op `{UniswapV3Math} (o : pool_op) : M ClmmPool ClmmError unit :=
  match o with
  | SetTick i g n => set_tick i g n
  | SwapHead price t liq => apply_swap_head price t liq
  | LiquidityDelta lower upper d => apply_liquidity_delta lower upper d
  end.

Section properties.
Context `{UniswapV3Laws}.

Lemma updated_boundary_typed p t d nd lo :
  algebra_ok p -> - 2 ^ 127 <= d < 2 ^ 127 ->
  updated_boundary (ticks p !! t) (Z.abs d) nd (0 <? d) = Ok lo -> 0 <= gross lo < 2 ^ 128.
Proof.
  intros Hok Hd Hb. apply updated_boundary_Ok in Hb as (Hg & _ & _ & _ & Hb).
  assert (0 <= default 0 (gross <$> ticks p !! t) < 2 ^ 128).
  { destruct (ticks p !! t) as [tl|] eqn:E; simpl; [|lia].
    apply (ao_ticks p Hok) in E as (_ & _ & ? & _). lia. }
  destruct (Z.ltb_spec 0 d); lia.
Qed.

(** Once its guards pass, the update of a raw pool runs to the end. *)
Lemma apply_liquidity_delta_cases p lower upper d :
  algebra_ok p -> - 2 ^ 127 <= d < 2 ^ 127 ->
  (exists e, apply_liquidity_delta lower upper d p = (p, Err e)) \/
  exists p', apply_liquidity_delta lower upper d p = (p', Ok tt) /\ algebra_ok p'.
Proof.
  intros Hok Hd. unfold apply_liquidity_delta.
  destruct (Z.ltb_spec lower upper) as [Hlt|]; simpl; [|eauto].
  destruct (aligned lower (tick_spacing p)) eqn:Eal; simpl; [|eauto].
  destruct (aligned upper (tick_spacing p)) eqn:Eau; simpl; [|eauto].
  destruct (tick_in_range lower) eqn:Erl; simpl; [|eauto].
  destruct (tick_in_range upper) eqn:Eru; simpl; [|eauto].
  apply tick_in_range_spec in Erl, Eru.
  destruct (Z.eqb_spec d 0); [eauto|].
  destruct (rbind (updated_boundary (ticks p !! lower) _ _ _) _) as [[[lo up] act]|] eqn:Ep;
    [|eauto].
  res_inv. right. unfold mbind', mget, mput, mret.
  destruct (set_tick_total p lower (gross lo) (net lo)) as [p1 E1]; [apply Hok|done|done|].
  apply updated_boundary_Ok in Hok0 as Hlo. destruct Hlo as (_ & _ & _ & Hnlo & _).
  apply updated_boundary_Ok in Hok2 as Hup. destruct Hup as (_ & _ & _ & Hnup & _).
  assert (Hok1' : algebra_ok p1)
    by (apply (set_tick_algebra_ok p p1 lower (gross lo) (net lo));
        [done|eapply (updated_boundary_typed p); [done|exact Hd|exact Hok0]|done|done]).
  rewrite E1. apply set_tick_Ok in E1 as (_ & _ & bm & Heq & _).
  destruct (set_tick_total p1 upper (gross up) (net up)) as [p2 E2];
    [apply Hok1'|by rewrite Heq|done|].
  assert (Hok2' : algebra_ok p2)
    by (apply (set_tick_algebra_ok p1 p2 upper (gross up) (net up));
        [done|eapply (updated_boundary_typed p); [done|exact Hd|exact Hok2]|done|done]).
  rewrite E2. destruct act as [liq|]; (eexists; split; [done|]); [|done].
  by destruct Hok2'.
Qed.

Lemma run_pool_op_cases o p :
  algebra_ok p -> pool_op_typed o ->
  (exists e, run_pool_op o p = (p, Err e)) \/
  exists p', run_pool_op o p = (p', Ok tt) /\ algebra_ok p'.
Proof.
  intros Hok Hty. destruct o as [i g n|price t liq|lower upper d]; simpl in *.
  - destruct (aligned i (tick_spacing p)) eqn:Ea.
    2:{ left. unfold set_tick. rewrite Ea. simpl. eauto. }
    destruct (tick_in_range i) eqn:Er.
    2:{ left. unfold set_tick. rewrite Ea, Er. simpl. eauto. }
    apply tick_in_range_spec in Er.
    destruct (set_tick_total p i g n) as [p' E]; [apply Hok|done|done|].
    right. exists p'. split; [done|]. destruct Hty. by apply (set_tick_algebra_ok p p' i g n).
  - unfold apply_swap_head. repeat case_match; eauto.
    right. eexists. split; [done|]. by destruct Hok.
  - by apply apply_liquidity_delta_cases.
Qed.

(** On a pool with raw tick rows every mutation (hydrating a tick, a swap
    head, a mint or burn) either fails and leaves the pool untouched or keeps
    it well formed: the bitmap is exactly the set of initialized ticks, all in
    range, aligned and with positive gross liquidity. *)
Theorem raw_pool_invariant o p :
  algebra_ok p -> pool_op_typed o ->
  match (run_pool_op o p).2 with
  | Ok _ => algebra_ok (run_pool_op o p).1
  | Err _ => (run_pool_op o p).1 = p
  end.
Proof.
  intros Hok Hty. destruct (run_pool_op_cases o p Hok Hty) as [[e ->]|(p' & -> & ?)]; done.
Qed.

(** The search of a raw tick row is exact: from a tick in range it
    returns an initialized tick with nothing initialized in between, or the
    end of the row with nothing initialized up to it, and a tick reported as
    initialized is always present in the tick map. *)
Theorem raw_search_exact p t zfo n i :
  algebra_ok p -> MIN_TICK <= t <= MAX_TICK -> next_initialized_tick p t zfo = Ok (n, i) ->
  (i = true -> is_Some (ticks p !! n)) /\
  (if zfo then (i = true -> n <= t) /\ forall j, n < j <= t -> ticks p !! j = None
   else (i = true -> t < n) /\ forall j, t < j < n -> ticks p !! j = None).
Proof.
  intros Hok Ht Hn. unfold next_initialized_tick in Hn. rewrite (ao_raw p Hok) in Hn.
  injection Hn as Hn.
  assert (Hnone : forall j, tick_bit (tick_bitmap p) j = false -> ticks p !! j = None).
  { intros j Hj. apply eq_None_not_Some. rewrite <- (ao_coherent p Hok), Hj. done. }
  destruct zfo.
  - apply next_tick_down in Hn as (Hgap & Htrue & Hfalse); [|apply Hok|done].
    split; [|split]; [intros Hi; apply (ao_coherent p Hok); by apply Htrue|naive_solver lia|].
    intros j Hj. apply Hnone, Hgap. destruct i; [lia|]. specialize (Hfalse eq_refl).
    unfold clamp_tick, clamp in Hfalse. lia.
  - apply next_tick_up in Hn as (Hgap & Htrue & Hfalse); [|apply Hok|lia].
    split; [|split]; [intros Hi; apply (ao_coherent p Hok); by apply Htrue|naive_solver lia|].
    intros j Hj. destruct (decide (j <= MAX_TICK)).
    + apply Hnone, Hgap. destruct i; [lia|]. specialize (Hfalse eq_refl).
      unfold clamp_tick, clamp in Hfalse. lia.
    + destruct (ticks p !! j) eqn:E; [|done]. apply (ao_ticks p Hok) in E as (? & _). lia.
Qed.

(** A mint or burn keeps active liquidity consistent with the tick map:
    if the pool's liquidity is the net liquidity of the ticks at or below the
    current tick, it still is afterwards, and the net liquidity of the whole
    map is unchanged. *)
Theorem liquidity_delta_consistent p p' lower upper d :
  apply_liquidity_delta lower upper d p = (p', Ok tt) ->
  liquidity p = net_below (tick p) (ticks p) ->
  MIN_TICK <= lower -> upper <= MAX_TICK ->
  liquidity p' = net_below (tick p') (ticks p') /\ tick p' = tick p /\
  net_below MAX_TICK (ticks p') = net_below MAX_TICK (ticks p).
Proof.
  intros Happ Hc Hl Hu. rewrite !(liquidity_delta_net _ _ _ _ _ _ Happ).
  destruct (Z.eq_dec d 0) as [->|Hd].
  { apply apply_liquidity_delta_zero in Happ as ->. split_and!; [|done|];
      destruct (_ && _); lia. }
  apply apply_liquidity_delta_Ok in Happ as (_ & lo & up & bm & liq & _ & _ & -> & ->); [|done].
  simpl. split_and!; [|done|].
  - destruct (_ && _); lia.
  - rewrite (proj2 (Z.ltb_ge MAX_TICK upper)) by lia. rewrite andb_false_r. lia.
Qed.

(** Undoing a boundary update restores the entry that was there. *)
Lemma unwind_boundary cur d nd lo :
  updated_boundary cur d nd true = Ok lo -> 0 < d -> - 2 ^ 127 < nd < 2 ^ 127 ->
  (forall tl, cur = Some tl -> 0 < gross tl < 2 ^ 128 /\ - 2 ^ 127 <= net tl < 2 ^ 127) ->
  exists un, updated_boundary (Some lo) d (- nd) false = Ok un /\
    un = default (mkTick 0 0) cur.
Proof.
  intros Hb Hd Hnd Hcur. apply updated_boundary_Ok in Hb as (Hg & Hn & _ & _ & _).
  exists (default (mkTick 0 0) cur). split; [|done]. unfold updated_boundary. simpl.
  assert (Hun : gross lo - d = gross (default (mkTick 0 0) cur) /\
                net lo + - nd = net (default (mkTick 0 0) cur))
    by (destruct cur; simpl in *; lia).
  assert (Hr : 0 <= gross (default (mkTick 0 0) cur) /\
               - 2 ^ 127 <= net (default (mkTick 0 0) cur) < 2 ^ 127 /\
               (gross (default (mkTick 0 0) cur) = 0 -> net (default (mkTick 0 0) cur) = 0)).
  { destruct cur as [c|]; simpl; [specialize (Hcur c eq_refl)|]; lia. }
  assert (checked_sub (gross lo) d = Some (gross (default (mkTick 0 0) cur))) as ->
    by (apply checked_sub_Some; lia).
  simpl. unfold checked_add_i128. rewrite (proj2 Hun).
  rewrite (proj2 (andb_true_iff _ _)) by (rewrite Z.leb_le, Z.ltb_lt; lia). simpl.
  destruct (Z.eqb_spec (gross (default (mkTick 0 0) cur)) 0) as [Hz|]; simpl.
  - rewrite (proj2 (Z.eqb_eq _ _)) by lia. simpl. by destruct (default _ cur).
  - by destruct (default _ cur).
Qed.

Lemma put_back m t tl :
  (forall c, m !! t = Some c -> 0 < gross c) ->
  tl = default (mkTick 0 0) (m !! t) ->
  forall m', (forall j, j <> t -> m' !! j = m !! j) -> put_tick m' t (gross tl) (net tl) = m.
Proof.
  intros Hpos -> m' Hm'. apply map_eq. intros j. destruct (decide (j = t)) as [->|Hj].
  - unfold put_tick. destruct (m !! t) as [c|] eqn:E; simpl.
    + rewrite (proj2 (Z.eqb_neq _ _)) by (specialize (Hpos c eq_refl); lia).
      rewrite lookup_insert_eq. by destruct c.
    + by rewrite lookup_delete_eq.
  - rewrite put_tick_ne by done. by apply Hm'.
Qed.

Lemma coherent_bitmaps p q :
  algebra_ok p -> algebra_ok q -> ticks p = ticks q ->
  bitmap_equiv (tick_bitmap p) (tick_bitmap q).
Proof.
  intros Hp Hq Heq w.
  assert (Hw : Z.shiftr (256 * w) 8 = w).
  { rewrite Z.shiftr_div_pow2 by lia. change (2 ^ 8) with 256.
    by rewrite Z.mul_comm, Z.div_mul by lia. }
  apply Z.bits_inj'. intros j Hj. rewrite <- Hw.
  destruct (Z.ltb_spec j 256).
  - rewrite !row_bit by lia. apply eq_true_iff_eq.
    by rewrite (ao_coherent p Hp), (ao_coherent q Hq), Heq.
  - rewrite !row_high_bits; [done|apply Hq|lia|apply Hp|lia].
Qed.

Lemma unwind_tick p t d nd lo :
  algebra_ok p -> 0 < d < 2 ^ 127 -> - 2 ^ 127 < nd < 2 ^ 127 ->
  updated_boundary (ticks p !! t) d nd true = Ok lo ->
  0 < gross lo /\
  updated_boundary (Some lo) d (- nd) false = Ok (default (mkTick 0 0) (ticks p !! t)).
Proof.
  intros Hok Hd Hnd Hb.
  assert (Hcur : forall tl, ticks p !! t = Some tl ->
            0 < gross tl < 2 ^ 128 /\ - 2 ^ 127 <= net tl < 2 ^ 127).
  { intros tl Htl. by apply (ao_ticks p Hok) in Htl as (_ & _ & ? & ?). }
  destruct (unwind_boundary _ _ _ _ Hb ltac:(lia) Hnd Hcur) as (un & Hun & ->). split; [|done].
  apply updated_boundary_Ok in Hb as (-> & _).
  destruct (ticks p !! t) as [c|]; simpl; [specialize (Hcur c eq_refl)|]; lia.
Qed.

(** The burn that follows a mint passes every guard and restores both ends. *)
Lemma burn_runs p p1 lower upper d :
  algebra_ok p -> algebra_ok p1 -> 0 < d < 2 ^ 127 -> u128 (liquidity p) ->
  apply_liquidity_delta lower upper d p = (p1, Ok tt) ->
  (exists p2, apply_liquidity_delta lower upper (- d) p1 = (p2, Ok tt)) /\
  updated_boundary (ticks p1 !! lower) d (- d) false
    = Ok (default (mkTick 0 0) (ticks p !! lower)) /\
  updated_boundary (ticks p1 !! upper) d d false
    = Ok (default (mkTick 0 0) (ticks p !! upper)).
Proof.
  intros Hok Hok1 Hd Hliq Hmint.
  apply apply_liquidity_delta_Ok in Hmint
    as ((Hlt & Hal & Hau & Hrl & Hru) & lo & up & bm & l & Hlo & Hup & Hl & Hp1); [|lia].
  rewrite Z.abs_eq, (proj2 (Z.ltb_lt 0 d)) in Hlo, Hup by lia.
  destruct (unwind_tick p lower d d lo) as [Hglo Hblo]; [done|lia|lia|done|].
  destruct (unwind_tick p upper d (- d) up) as [Hgup Hbup]; [done|lia|lia|done|].
  rewrite Z.opp_involutive in Hbup.
  assert (Htl : ticks p1 !! lower = Some lo).
  { rewrite Hp1. simpl. rewrite put_tick_ne by lia. unfold put_tick.
    rewrite (proj2 (Z.eqb_neq _ _)) by lia. rewrite lookup_insert_eq. by destruct lo. }
  assert (Htu : ticks p1 !! upper = Some up).
  { rewrite Hp1. simpl. unfold put_tick at 1.
    rewrite (proj2 (Z.eqb_neq _ _)) by lia. rewrite lookup_insert_eq. by destruct up. }
  assert (Hadd : (lower <=? tick p1) && (tick p1 <? upper) = true ->
                 add_delta (liquidity p1) (- d) = Some (liquidity p)).
  { intros Hin. apply add_delta_spec. rewrite Hp1 in *. simpl in *. rewrite Hin in Hl.
    unfold uint in Hliq. lia. }
  rewrite Htl, Htu. split_and!; [|done|done].
  assert (Hsp : tick_spacing p1 = tick_spacing p) by (by rewrite Hp1).
  unfold apply_liquidity_delta. rewrite (proj2 (Z.ltb_lt _ _) Hlt), Hsp, Hal, Hau, Hrl, Hru. simpl.
  rewrite (proj2 (Z.eqb_neq (- d) 0)) by lia.
  rewrite Z.abs_opp, Z.abs_eq, (proj2 (Z.ltb_ge 0 (- d))) by lia.
  rewrite Htl, Htu, Hblo. simpl. unfold checked_neg_i128.
  rewrite (proj2 (Z.eqb_neq (- d) (- 2 ^ 127))) by lia. simpl.
  rewrite Z.opp_involutive, Hbup. simpl.
  apply tick_in_range_spec in Hrl, Hru. set (b := default _ _). set (b' := default _ _).
  destruct (set_tick_total p1 lower (gross b) (net b)) as [q1 E1]; [apply Hok1|by rewrite Hsp|done|].
  apply set_tick_Ok in E1 as Hq1. destruct Hq1 as (_ & _ & bm1 & Hq1 & _).
  destruct (set_tick_total q1 upper (gross b') (net b')) as [q2 E2];
    [rewrite Hq1; apply Hok1|rewrite Hq1; simpl; by rewrite Hsp|done|].
  destruct ((lower <=? tick p1) && (tick p1 <? upper)) eqn:Ein.
  - rewrite (Hadd eq_refl). simpl. unfold mbind', mget, mput. rewrite E1, E2. eauto.
  - simpl. unfold mbind', mget, mret. rewrite E1, E2. eauto.
Qed.

(** Burning exactly what was minted undoes the mint: the burn succeeds
    and the tick map, the active liquidity, the price head and (row by row)
    the bitmap are those of the pool before the mint. *)
Theorem mint_burn_roundtrip p p1 lower upper d :
  algebra_ok p -> 0 < d < 2 ^ 127 -> u128 (liquidity p) ->
  apply_liquidity_delta lower upper d p = (p1, Ok tt) ->
  exists p2, apply_liquidity_delta lower upper (- d) p1 = (p2, Ok tt) /\
    ticks p2 = ticks p /\ liquidity p2 = liquidity p /\ tick p2 = tick p /\
    sqrt_price_x96 p2 = sqrt_price_x96 p /\
    bitmap_equiv (tick_bitmap p2) (tick_bitmap p).
Proof.
  intros Hok Hd Hliq Hmint.
  assert (Hok1 : algebra_ok p1).
  { destruct (apply_liquidity_delta_cases p lower upper d) as [[e He]|(p' & He & ?)];
      [done|lia|congruence|]. rewrite He in Hmint. by simplify_eq. }
  destruct (burn_runs p p1 lower upper d Hok Hok1 Hd Hliq Hmint) as ([p2 Hburn] & Hlo & Hup).
  exists p2. split; [done|].
  assert (Hok2 : algebra_ok p2).
  { destruct (apply_liquidity_delta_cases p1 lower upper (- d)) as [[e He]|(p' & He & ?)];
      [done|lia|congruence|]. rewrite He in Hburn. by simplify_eq. }
  apply apply_liquidity_delta_Ok in Hmint as ((Hlt & _) & lo1 & up1 & bm1 & l1 & _ & _ & -> & ->); [|lia].
  apply apply_liquidity_delta_Ok in Hburn as (_ & lo2 & up2 & bm2 & l2 & Hlo2 & Hup2 & -> & ->); [|lia].
  simpl in *. rewrite Z.abs_opp, Z.abs_eq, (proj2 (Z.ltb_ge 0 (- d))) in Hlo2, Hup2 by lia.
  rewrite Z.opp_involutive in Hup2. rewrite Hlo in Hlo2. rewrite Hup in Hup2.
  injection Hlo2 as <-. injection Hup2 as <-.
  assert (Ht : put_tick (put_tick (put_tick (put_tick (ticks p) lower (gross lo1) (net lo1))
            upper (gross up1) (net up1)) lower (gross (default (mkTick 0 0) (ticks p !! lower)))
            (net (default (mkTick 0 0) (ticks p !! lower)))) upper
            (gross (default (mkTick 0 0) (ticks p !! upper)))
            (net (default (mkTick 0 0) (ticks p !! upper))) = ticks p).
  { apply put_back; [|done|].
    - intros c Hc. apply (ao_ticks p Hok) in Hc as (_ & _ & ? & _). lia.
    - intros j Hj. destruct (decide (j = lower)) as [->|Hj'].
      + unfold put_tick at 1. destruct (ticks p !! lower) as [c|] eqn:E; simpl.
        * apply (ao_ticks p Hok) in E as (_ & _ & ? & _).
          rewrite (proj2 (Z.eqb_neq _ _)) by lia. rewrite lookup_insert_eq. by destruct c.
        * by rewrite lookup_delete_eq.
      + by rewrite !put_tick_ne by done. }
  split_and!; try done.
  - destruct (_ && _); lia.
  - exact (coherent_bitmaps _ p Hok2 Hok Ht).
Qed.
End properties.
