(* ===== verification/ClmmCurve.v ===== *)
(** * Prepared quote curves ([src/src/dex/clmm.rs])

    The version-local curve of one swap direction, its binary-search quote, and
    its equivalence with the iterative swap loop of [Clmm]; termination of the
    swap loops. *)
From Stdlib Require Import Lia Sorted.
From stdpp Require Import base gmap sets strings numbers list fin_maps sorting.
From S2P Require Import Prelude Clmm ClmmTicks UniswapFormula.

Inductive PreparedQuoteKind := ExactInput | ExactOutput.

Record PreparedQuoteSegment := mkSegment {
  specified_end : Z;
  result_end : Z;
  sqrt_price_start : Z;
  sqrt_price_target : Z;
  seg_liquidity : Z;
}.

Record PreparedQuoteCurve := mkCurve {
  kind : PreparedQuoteKind;
  curve_fee_pips : Z;
  segments : list PreparedQuoteSegment;
}.

(** The mutable locals of the build loop. *)
Record BuildState := mkBuild {
  specified_total : Z; result_total : Z; b_price : Z; b_tick : Z; b_liq : Z;
}.

(** The amount a prepared quote passes to the swap step. *)
Definition signed (k : PreparedQuoteKind) (a : Z) : Z :=
  match k with ExactInput => a | ExactOutput => - a end.
Definition oriented (k : PreparedQuoteKind) (input_with_fee step_out : Z) : Z * Z :=
  match k with
  | ExactInput => (input_with_fee, step_out)
  | ExactOutput => (step_out, input_with_fee)
  end.

Section curves.
Context `{UniswapV3Math}.

(** The loop of [prepare_quote_curve_reusing]; the segments it pushes, in
    order.  A previous curve only donates its cleared allocation. *)
Fixpoint build_loop (fuel : nat) (p : ClmmPool) (zfo : bool) (k : PreparedQuoteKind)
    (maximum : Z) (st : BuildState) : CRes (list PreparedQuoteSegment) :=
  match fuel with
  | O => Err OutOfFuel
  | S f =>
      if negb ((specified_total st <? maximum) && negb (b_price st =? price_limit zfo)
               && negb (b_liq st =? 0)) then Ok [] else
      let? remaining := or_err (checked_sub maximum (specified_total st))
                          (CMsg "prepared specified amount exceeded its maximum") in
      let? '(tick_next, initialized, next, target) := next_boundary p zfo (b_tick st) in
      let? '(after, step_in, step_out, fee) :=
        or_err (compute_swap_step (b_price st) target (b_liq st) (signed k remaining)
                  (fee_pips_for_direction p zfo))
               (CMsg "failed to build prepared swap segment") in
      let? input_with_fee := or_err (checked_add 256 step_in fee)
                               (CMsg "prepared swap input overflow") in
      let '(specified_step, result_step) := oriented k input_with_fee step_out in
      let? send := or_err (checked_add 256 (specified_total st) specified_step)
                     (CMsg "prepared specified amount overflow") in
      let? rend := or_err (checked_add 256 (result_total st) result_step)
                     (CMsg "prepared result amount overflow") in
      let pushed := if specified_step =? 0 then []
                    else [mkSegment send rend (b_price st) target (b_liq st)] in
      if negb (after =? next) then Ok pushed else
      let? '(t', liq') := cross_boundary p zfo tick_next initialized (b_liq st) in
      let? rest := build_loop f p zfo k maximum (mkBuild send rend after t' liq') in
      Ok (pushed ++ rest)
  end.

Definition prepare_quote_curve (p : ClmmPool) (zfo : bool) (k : PreparedQuoteKind)
    (maximum : Z) : CRes PreparedQuoteCurve :=
  ensure! negb (maximum =? 0) else CMsg "prepared curve maximum must be positive" ;;
  ensure! maximum <? 2 ^ 255 else CMsg "prepared curve maximum exceeds int256" ;;
  let? segs := build_loop swap_fuel p zfo k maximum
                 (mkBuild 0 0 (sqrt_price_x96 p) (tick p) (liquidity p)) in
  Ok (mkCurve k (fee_pips_for_direction p zfo) segs).

Definition prepare_exact_input_curve_bounded (p : ClmmPool) (zfo : bool) (m : Z) :=
  prepare_quote_curve p zfo ExactInput m.
Definition prepare_exact_input_curve (p : ClmmPool) (zfo : bool) :=
  prepare_exact_input_curve_bounded p zfo (2 ^ 255 - 1).
Definition prepare_exact_output_curve_bounded (p : ClmmPool) (zfo : bool) (m : Z) :=
  prepare_quote_curve p zfo ExactOutput m.
Definition prepare_exact_output_curve (p : ClmmPool) (zfo : bool) :=
  prepare_exact_output_curve_bounded p zfo (2 ^ 255 - 1).

(** [slice::partition_point] on a list that the predicate partitions. *)
Fixpoint partition_point {A} (f : A -> bool) (l : list A) : nat :=
  match l with
  | [] => 0
  | a :: l' => if f a then S (partition_point f l') else 0
  end.

Definition curve_quote (c : PreparedQuoteCurve) (amt : Z) : CRes Z :=
  ensure! negb (amt =? 0) else CMsg "specified amount must be positive" ;;
  ensure! amt <? 2 ^ 255 else CMsg "specified amount exceeds int256" ;;
  let idx := partition_point (fun s => specified_end s <? amt) (segments c) in
  match segments c !! idx with
  | None => Err InsufficientLiquidity
  | Some seg =>
      if amt =? specified_end seg then Ok (result_end seg) else
      let '(sstart, rstart) :=
        match idx with
        | O => (0, 0)
        | S prev => match segments c !! prev with
                    | Some s => (specified_end s, result_end s)
                    | None => (0, 0)
                    end
        end in
      let? remaining := or_err (checked_sub amt sstart)
                          (CMsg "prepared quote amount precedes segment") in
      let? '(_, step_in, step_out, fee) :=
        or_err (compute_swap_step (sqrt_price_start seg) (sqrt_price_target seg)
                  (seg_liquidity seg) (signed (kind c) remaining) (curve_fee_pips c))
               (CMsg "failed to quote prepared swap segment") in
      let? step_result :=
        match kind c with
        | ExactInput => Ok step_out
        | ExactOutput => or_err (checked_add 256 step_in fee)
                           (CMsg "prepared exact-output input overflow")
        end in
      or_err (checked_add 256 rstart step_result) (CMsg "prepared quote result overflow")
  end.

Definition segment_count (c : PreparedQuoteCurve) : nat := length (segments c).
Definition specified_boundaries (c : PreparedQuoteCurve) : list Z := specified_end <$> segments c.
Definition specified_capacity (c : PreparedQuoteCurve) : Z :=
  match last (segments c) with None => 0 | Some s => specified_end s end.
Definition result_capacity (c : PreparedQuoteCurve) : Z :=
  match last (segments c) with None => 0 | Some s => result_end s end.

(** The quote by recursion over the segments that start at [s0], [r0]. *)
Fixpoint seg_quote (k : PreparedQuoteKind) (fee s0 r0 : Z) (segs : list PreparedQuoteSegment)
    (amt : Z) : CRes Z :=
  match segs with
  | [] => Err InsufficientLiquidity
  | seg :: rest =>
      if specified_end seg <? amt then seg_quote k fee (specified_end seg) (result_end seg) rest amt
      else if amt =? specified_end seg then Ok (result_end seg)
      else
        let? remaining := or_err (checked_sub amt s0)
                            (CMsg "prepared quote amount precedes segment") in
        let? '(_, step_in, step_out, f) :=
          or_err (compute_swap_step (sqrt_price_start seg) (sqrt_price_target seg)
                    (seg_liquidity seg) (signed k remaining) fee)
                 (CMsg "failed to quote prepared swap segment") in
        let? step_result :=
          match k with
          | ExactInput => Ok step_out
          | ExactOutput => or_err (checked_add 256 step_in f)
                             (CMsg "prepared exact-output input overflow")
          end in
        or_err (checked_add 256 r0 step_result) (CMsg "prepared quote result overflow")
  end.

(** The offsets of the segment at an index, given those before the first. *)
Definition offsets (s0 r0 : Z) (segs : list PreparedQuoteSegment) (idx : nat) : Z * Z :=
  match idx with
  | O => (s0, r0)
  | S prev => match segs !! prev with
              | Some s => (specified_end s, result_end s)
              | None => (0, 0)
              end
  end.

Lemma seg_quote_index k fee s0 r0 segs amt :
  let idx := partition_point (fun s => specified_end s <? amt) segs in
  seg_quote k fee s0 r0 segs amt =
  match segs !! idx with
  | None => Err InsufficientLiquidity
  | Some seg => seg_quote k fee (offsets s0 r0 segs idx).1 (offsets s0 r0 segs idx).2 [seg] amt
  end.
Proof.
  revert s0 r0. induction segs as [|seg rest IH]; intros s0 r0; [done|]. simpl partition_point.
  destruct (specified_end seg <? amt) eqn:E.
  - simpl. rewrite E. rewrite IH.
    destruct (partition_point (fun s => specified_end s <? amt) rest) as [|n]; [done|]. simpl.
    destruct (rest !! S n) eqn:El; [|done].
    destruct (rest !! n) eqn:En; [done|].
    apply lookup_ge_None in En. apply lookup_lt_Some in El. lia.
  - simpl. by rewrite E.
Qed.

Lemma partition_point_hit {A} (f : A -> bool) l a :
  l !! partition_point f l = Some a -> f a = false.
Proof. induction l as [|b l IH]; simpl; [done|]. destruct (f b) eqn:E; naive_solver. Qed.

(** The index search and the recursion agree. *)
Lemma curve_quote_seg c amt :
  amt <> 0 -> amt < 2 ^ 255 ->
  curve_quote c amt = seg_quote (kind c) (curve_fee_pips c) 0 0 (segments c) amt.
Proof.
  intros Hz Hlt. unfold curve_quote.
  rewrite (proj2 (Z.eqb_neq _ _) Hz), (proj2 (Z.ltb_lt _ _) Hlt). simpl.
  rewrite seg_quote_index. simpl.
  destruct (segments c !! _) as [seg|] eqn:E; [|done].
  rewrite (partition_point_hit _ _ _ E). destruct (amt =? specified_end seg); [done|].
  unfold offsets. destruct (partition_point _ _) as [|n]; [done|].
  destruct (segments c !! n); done.
Qed.
End curves.

(** ** One boundary of the traversal *)
Section traversal.
Context `{UniswapV3Laws}.

(** The cached boundary prices are prices of ticks. *)
Record pool_typed (p : ClmmPool) : Prop := {
  pt_fees zfo : 0 <= fee_pips_for_direction p zfo < 1000000;
  pt_spacing : 0 < tick_spacing p;
  pt_raw : tick_traversal p = AlgebraRaw -> algebra_ok p;
  pt_ratios t r : word_boundary_sqrt_ratios p !! t = Some r -> get_sqrt_ratio_at_tick t = Some r;
}.

Lemma clamp_tick_range t : MIN_TICK <= clamp_tick t <= MAX_TICK.
Proof. unfold clamp_tick, clamp, MIN_TICK, MAX_TICK. lia. Qed.

Lemma next_boundary_price p zfo t tn i next target :
  pool_typed p -> next_boundary p zfo t = Ok (tn, i, next, target) ->
  MIN_TICK <= tn <= MAX_TICK /\ get_sqrt_ratio_at_tick tn = Some next /\
  MIN_SQRT_RATIO <= next <= MAX_SQRT_RATIO /\
  target = (if zfo then Z.max next (price_limit zfo) else Z.min next (price_limit zfo)).
Proof.
  intros Hp Hn. unfold next_boundary in Hn. res_inv. destruct x as [n0 i0]. res_inv.
  pose proof (clamp_tick_range n0) as Hr.
  assert (Hprice : get_sqrt_ratio_at_tick (clamp_tick n0) = Some next).
  { unfold sqrt_ratio_at_traversal_tick in Hok0. destruct i; simpl in Hok0; res_inv; [done|].
    by apply (pt_ratios p Hp). }
  destruct (sqrt_ratio_range _ Hr) as (r & Hr1 & Hr2). rewrite Hprice in Hr1. simplify_eq.
  split_and!; done || lia.
Qed.

(** A boundary lies in the direction of the swap, up to the tick range. *)
Lemma next_boundary_progress p zfo t tn i next target :
  pool_typed p -> MIN_TICK <= t <= MAX_TICK ->
  next_boundary p zfo t = Ok (tn, i, next, target) ->
  if zfo then tn <= t else t < tn \/ tn = MAX_TICK.
Proof.
  intros Hp Ht Hn. unfold next_boundary in Hn. res_inv. destruct x as [n0 i0]. res_inv.
  unfold next_initialized_tick in Hok. destruct (tick_traversal p) eqn:Etr.
  - res_inv. apply compressed_progress in Hok; [|apply Hp].
    unfold clamp_tick, clamp. destruct zfo; lia.
  - pose proof (pt_raw p Hp Etr) as Hraw. injection Hok as Hok.
    destruct (row_decompose t) as [Hdec Hb]. destruct (row_decompose (t + 1)) as [Hdec' Hb'].
    destruct zfo.
    + apply next_tick_down in Hok as (_ & Htrue & Hfalse); [|apply Hraw|done].
      destruct i; [destruct (Htrue eq_refl) as [_ ?]; unfold clamp_tick, clamp; lia|].
      specialize (Hfalse eq_refl). rewrite Hfalse. unfold clamp_tick, clamp. lia.
    + apply next_tick_up in Hok as (_ & Htrue & Hfalse); [|apply Hraw|lia].
      destruct i; [destruct (Htrue eq_refl) as [_ ?]; unfold clamp_tick, clamp; lia|].
      specialize (Hfalse eq_refl). rewrite Hfalse. unfold clamp_tick, clamp. lia.
Qed.

Lemma cross_boundary_liq p zfo tn i liq t' liq' :
  cross_boundary p zfo tn i liq = Ok (t', liq') -> 0 <= liq < 2 ^ 128 ->
  t' = (if zfo then saturating_pred_i32 tn else tn) /\ 0 <= liq' < 2 ^ 128.
Proof.
  unfold cross_boundary. intros Hc Hl. res_inv.
  destruct i; [|by res_inv]. res_inv.
  destruct zfo; res_inv; (split; [done|]);
    match goal with Ha : add_delta _ _ = Some _ |- _ => apply add_delta_spec in Ha; lia end.
Qed.

(** Price and tick stay inside the limits of the direction. *)
Definition inside (zfo : bool) (price t liq : Z) : Prop :=
  (if zfo then MIN_SQRT_RATIO + 1 <= price <= MAX_SQRT_RATIO
   else MIN_SQRT_RATIO <= price <= MAX_SQRT_RATIO - 1) /\
  MIN_TICK <= t <= MAX_TICK /\ 0 <= liq < 2 ^ 128.

(** The step arguments at a boundary are valid, and a step that stops short
    of its target has not reached the boundary either. *)
Lemma boundary_step p zfo price t liq tn i next target :
  pool_typed p -> inside zfo price t liq ->
  next_boundary p zfo t = Ok (tn, i, next, target) ->
  step_args price target liq (fee_pips_for_direction p zfo) /\
  (forall after, Z.min price target <= after <= Z.max price target ->
     (after = next -> after = target) /\
     (if zfo then MIN_SQRT_RATIO + 1 <= after <= MAX_SQRT_RATIO
      else MIN_SQRT_RATIO <= after <= MAX_SQRT_RATIO - 1)) /\
  (target = next -> if zfo then MIN_TICK < tn else tn < MAX_TICK).
Proof.
  intros Hp (Hprice & Ht & Hliq) Hn.
  apply next_boundary_price in Hn as (Htn & Hr & Hnext & Htarget); [|done].
  pose proof (pt_fees p Hp zfo).
  assert (Hne : MIN_SQRT_RATIO + 1 < MAX_SQRT_RATIO) by done.
  unfold price_limit, step_args in *. split; [|split].
  - destruct zfo; lia.
  - intros after Ha. destruct zfo; lia.
  - intros Heq. destruct zfo.
    + destruct (Z.eq_dec tn MIN_TICK) as [->|]; [|lia]. rewrite sqrt_ratio_min in Hr.
      injection Hr as <-. lia.
    + destruct (Z.eq_dec tn MAX_TICK) as [->|]; [|lia]. rewrite sqrt_ratio_max in Hr.
      injection Hr as <-. lia.
Qed.

(** Crossing a boundary that was the target stays inside and makes progress. *)
Definition measure (zfo : bool) (t : Z) : Z := if zfo then t - MIN_TICK else MAX_TICK - t.

Lemma cross_inside p zfo price t liq tn i next target t' liq' :
  pool_typed p -> inside zfo price t liq ->
  next_boundary p zfo t = Ok (tn, i, next, target) -> target = next ->
  cross_boundary p zfo tn i liq = Ok (t', liq') ->
  inside zfo target t' liq' /\ measure zfo t' < measure zfo t.
Proof.
  intros Hp Hin Hn Heq Hc. pose proof Hin as (Hprice & Ht & Hliq).
  destruct (boundary_step p zfo price t liq tn i next target Hp Hin Hn) as (_ & Hafter & Hstrict).
  specialize (Hstrict Heq). destruct (Hafter target ltac:(lia)) as [_ Hb].
  pose proof (next_boundary_progress _ _ _ _ _ _ _ Hp Ht Hn) as Hprog.
  apply next_boundary_price in Hn as (Htn & _); [|done].
  apply cross_boundary_liq in Hc as [-> Hl]; [|done].
  unfold inside, measure, saturating_pred_i32, MIN_TICK, MAX_TICK in *.
  destruct zfo; split_and!; try lia.
Qed.

(** Any amount the loops pass is a valid step: it succeeds, it moves the price
    toward the target only, and if it lands on the boundary then the boundary
    was the target. *)
Lemma any_step p zfo price t liq k a tn i next target :
  pool_typed p -> inside zfo price t liq -> 0 < a < 2 ^ 255 ->
  next_boundary p zfo t = Ok (tn, i, next, target) ->
  exists after si so f,
    compute_swap_step price target liq (signed k a) (fee_pips_for_direction p zfo)
      = Some (after, si, so, f) /\
    0 <= si /\ 0 <= so /\ 0 <= f /\
    (match k with ExactInput => si + f <= a | ExactOutput => so <= a end) /\
    (after = next -> target = next /\ after = target).
Proof.
  intros Hp Hin Ha Hn. destruct (boundary_step _ _ _ _ _ _ _ _ _ Hp Hin Hn) as (Hargs & Haft & _).
  destruct (swap_step_capacity _ _ _ _ Hargs) as (ci & co & cf & ? & ? & ? & _ & _ & _ & HI & HO).
  destruct k; simpl.
  - destruct (HI a ltac:(lia)) as (after & si & so & f & Heq & Hb & ? & ? & ? & Hfull & Hpart).
    destruct (Haft after Hb) as [Hna _].
    exists after, si, so, f. do 5 (split; [done || lia|]). intros E. rewrite <- (Hna E). done.
  - destruct (HO a Ha) as (after & si & so & f & Heq & Hb & ? & ? & ? & Hfull & Hpart & _).
    destruct (Haft after Hb) as [Hna _].
    exists after, si, so, f. do 5 (split; [done || lia|]). intros E. rewrite <- (Hna E). done.
Qed.

(** Errors of the loop bodies other than the fuel's. *)
Lemma rbind_no_fuel {A B} (m : CRes A) (f : A -> CRes B) :
  m <> Err OutOfFuel -> (forall a, m = Ok a -> f a <> Err OutOfFuel) ->
  rbind m f <> Err OutOfFuel.
Proof. destruct m; simpl; naive_solver. Qed.
Lemma or_err_no_fuel {A} (o : option A) s : or_err o (CMsg s) <> Err OutOfFuel.
Proof. by destruct o. Qed.

Lemma next_boundary_no_fuel p zfo t : next_boundary p zfo t <> Err OutOfFuel.
Proof.
  unfold next_boundary. apply rbind_no_fuel.
  - unfold next_initialized_tick. destruct (tick_traversal p); [apply or_err_no_fuel|done].
  - intros [tn i] _. apply rbind_no_fuel; [|done]. unfold sqrt_ratio_at_traversal_tick.
    destruct i; simpl; apply or_err_no_fuel.
Qed.

Lemma cross_boundary_no_fuel p zfo tn i liq : cross_boundary p zfo tn i liq <> Err OutOfFuel.
Proof.
  unfold cross_boundary. apply rbind_no_fuel; [|done]. destruct i; [|done].
  apply rbind_no_fuel; [apply or_err_no_fuel|]. intros st _.
  apply rbind_no_fuel; [destruct zfo; [apply or_err_no_fuel|done]|]. intros; apply or_err_no_fuel.
Qed.

Lemma measure_nonneg zfo price t liq : inside zfo price t liq -> 0 <= measure zfo t.
Proof. intros (_ & ? & _). unfold measure. destruct zfo; lia. Qed.

Lemma exact_in_loop_total fuel p zfo ia st :
  pool_typed p -> inside zfo (in_price st) (in_tick st) (in_liq st) ->
  0 <= in_remaining st < 2 ^ 255 -> measure zfo (in_tick st) < Z.of_nat fuel ->
  exact_in_loop fuel p zfo ia st <> Err OutOfFuel.
Proof.
  intros Hp. revert st. induction fuel as [|fuel IH]; intros st Hin Hrem Hm.
  { pose proof (measure_nonneg _ _ _ _ Hin). lia. }
  simpl. destruct (Z.eqb_spec (in_remaining st) 0) as [|Hr]; [done|].
  destruct (in_price st =? price_limit zfo); [done|]. simpl.
  apply rbind_no_fuel; [apply next_boundary_no_fuel|]. intros [[[tn i] next] target] Hn.
  destruct (any_step _ _ _ _ _ ExactInput (in_remaining st) _ _ _ _ Hp Hin ltac:(lia) Hn)
    as (after & si & so & f & Hstep & Hsi & Hso & Hf & Hle & Hland). simpl in Hstep.
  rewrite Hstep. simpl.
  apply rbind_no_fuel; [apply or_err_no_fuel|]. intros consumed Hc. res_inv. checked_inv.
  apply rbind_no_fuel; [apply or_err_no_fuel|]. intros rem Hr'. res_inv. checked_inv.
  apply rbind_no_fuel; [apply or_err_no_fuel|]. intros out _.
  destruct (Z.eqb_spec after next) as [Heq|].
  - destruct (Hland Heq) as [Htn Hat].
    apply rbind_no_fuel; [apply cross_boundary_no_fuel|]. intros [t' liq'] Hcross.
    destruct (cross_inside _ _ _ _ _ _ _ _ _ _ _ Hp Hin Hn Htn Hcross) as [Hin' Hlt].
    apply IH; simpl; [congruence|lia|lia].
  - apply rbind_no_fuel; [|done]. destruct ia; [apply or_err_no_fuel|done].
Qed.

Lemma exact_out_loop_total fuel p zfo st :
  pool_typed p -> inside zfo (out_price st) (out_tick st) (out_liq st) ->
  0 <= out_remaining st < 2 ^ 255 -> measure zfo (out_tick st) < Z.of_nat fuel ->
  exact_out_loop fuel p zfo st <> Err OutOfFuel.
Proof.
  intros Hp. revert st. induction fuel as [|fuel IH]; intros st Hin Hrem Hm.
  { pose proof (measure_nonneg _ _ _ _ Hin). lia. }
  simpl. destruct (Z.eqb_spec (out_remaining st) 0) as [|Hr]; [done|].
  destruct (out_price st =? price_limit zfo); [done|]. simpl.
  destruct (out_liq st =? 0); [done|].
  apply rbind_no_fuel; [apply next_boundary_no_fuel|]. intros [[[tn i] next] target] Hn.
  destruct (any_step _ _ _ _ _ ExactOutput (out_remaining st) _ _ _ _ Hp Hin ltac:(lia) Hn)
    as (after & si & so & f & Hstep & Hsi & Hso & Hf & Hle & Hland). simpl in Hstep.
  rewrite Hstep. simpl.
  apply rbind_no_fuel; [apply or_err_no_fuel|]. intros rem Hr'. res_inv. checked_inv.
  apply rbind_no_fuel; [apply or_err_no_fuel|]. intros ain _.
  destruct (Z.eqb_spec after next) as [Heq|]; [|done].
  destruct (Hland Heq) as [Htn Hat].
  apply rbind_no_fuel; [apply cross_boundary_no_fuel|]. intros [t' liq'] Hcross.
  destruct (cross_inside _ _ _ _ _ _ _ _ _ _ _ Hp Hin Hn Htn Hcross) as [Hin' Hlt].
  apply IH; simpl; [congruence|lia|lia].
Qed.

Lemma build_loop_total fuel p zfo k maximum st :
  pool_typed p -> inside zfo (b_price st) (b_tick st) (b_liq st) ->
  0 <= specified_total st -> 0 < maximum < 2 ^ 255 -> measure zfo (b_tick st) < Z.of_nat fuel ->
  build_loop fuel p zfo k maximum st <> Err OutOfFuel.
Proof.
  intros Hp. revert st. induction fuel as [|fuel IH]; intros st Hin Hs Hmax Hm.
  { pose proof (measure_nonneg _ _ _ _ Hin). lia. }
  simpl. destruct (negb _) eqn:Estop; [done|]. bool_prop.
  apply rbind_no_fuel; [apply or_err_no_fuel|]. intros rem Hr'. res_inv. checked_inv.
  apply rbind_no_fuel; [apply next_boundary_no_fuel|]. intros [[[tn i] next] target] Hn.
  destruct (any_step _ _ _ _ _ k rem _ _ _ _ Hp Hin ltac:(lia) Hn)
    as (after & si & so & f & -> & Hsi & Hso & Hf & Hle & Hland). simpl.
  apply rbind_no_fuel; [apply or_err_no_fuel|]. intros inp Hc. res_inv. checked_inv.
  destruct (oriented k inp so) as [spec res] eqn:Eo.
  assert (0 <= spec) by (destruct k; simpl in Eo; simplify_eq; lia).
  apply rbind_no_fuel; [apply or_err_no_fuel|]. intros send Hc. res_inv. checked_inv.
  apply rbind_no_fuel; [apply or_err_no_fuel|]. intros rend _.
  destruct (Z.eqb_spec after next) as [Heq|]; simpl; [|done].
  destruct (Hland Heq) as [Htn Hat].
  apply rbind_no_fuel; [apply cross_boundary_no_fuel|]. intros [t' liq'] Hcross.
  destruct (cross_inside _ _ _ _ _ _ _ _ _ _ _ Hp Hin Hn Htn Hcross) as [Hin' Hlt].
  apply rbind_no_fuel; [|done]. apply IH; simpl; [congruence|lia|done|lia].
Qed.
End traversal.


(** ** The prepared curve replays the swap loop *)
Section equivalence.
Context `{UniswapV3Laws}.

(** One iteration of the exact-input loop whose step stays in range. *)
Lemma exact_in_iter fuel p zfo a out price t liq cr tn i next target after si so f :
  0 < a -> price <> price_limit zfo ->
  next_boundary p zfo t = Ok (tn, i, next, target) ->
  compute_swap_step price target liq a (fee_pips_for_direction p zfo) = Some (after, si, so, f) ->
  0 <= si -> 0 <= f -> si + f <= a < 2 ^ 255 -> out + so < 2 ^ 256 ->
  exact_in_loop (S fuel) p zfo false (mkIn a out price t liq cr) =
  if after =? next then
    let? '(t', liq') := cross_boundary p zfo tn i liq in
    exact_in_loop fuel p zfo false
      (mkIn (a - (si + f)) (out + so) after t' liq' (if i then cr + 1 else cr))
  else Ok (mkIn (a - (si + f)) (out + so) after t liq cr).
Proof.
  intros Ha Hlim Hn Hstep Hsi Hf Hle Hout. simpl.
  rewrite (proj2 (Z.eqb_neq a 0)), (proj2 (Z.eqb_neq price _) Hlim) by lia. simpl.
  rewrite Hn. simpl. rewrite Hstep. simpl. unfold checked_add, checked_sub.
  rewrite (proj2 (Z.ltb_lt (si + f) _)) by lia. simpl.
  rewrite (proj2 (Z.leb_le (si + f) a)) by lia. simpl.
  by rewrite (proj2 (Z.ltb_lt (out + so) _)) by lia.
Qed.

Lemma exact_in_done fuel p zfo out price t liq cr :
  exact_in_loop (S fuel) p zfo false (mkIn 0 out price t liq cr) =
  Ok (mkIn 0 out price t liq cr).
Proof. done. Qed.

(** What a non-empty build says of its first iteration. *)
Lemma build_iter fuel p zfo k maximum st segs :
  build_loop (S fuel) p zfo k maximum st = Ok segs -> segs <> [] ->
  specified_total st < maximum /\ b_price st <> price_limit zfo /\ b_liq st <> 0 /\
  exists tn i next target after si so f send rend rest,
    next_boundary p zfo (b_tick st) = Ok (tn, i, next, target) /\
    compute_swap_step (b_price st) target (b_liq st)
      (signed k (maximum - specified_total st)) (fee_pips_for_direction p zfo)
      = Some (after, si, so, f) /\
    (send, rend) = (specified_total st + (oriented k (si + f) so).1,
                    result_total st + (oriented k (si + f) so).2) /\
    send < 2 ^ 256 /\ rend < 2 ^ 256 /\
    segs = (if send =? specified_total st then []
            else [mkSegment send rend (b_price st) target (b_liq st)]) ++ rest /\
    (if after =? next then
       exists t' liq', cross_boundary p zfo tn i (b_liq st) = Ok (t', liq') /\
         build_loop fuel p zfo k maximum (mkBuild send rend after t' liq') = Ok rest
     else rest = []).
Proof.
  intros Hb Hne. simpl in Hb. destruct (negb _) eqn:Estop; [res_inv; done|]. bool_prop.
  do 3 (split; [done|]). res_inv. checked_inv.
  destruct x0 as [[[tn i] next] target]. res_inv.
  destruct x0 as [[[after si] so] f]. res_inv. checked_inv. subst.
  destruct (oriented k (si + f) so) as [spec res] eqn:Eo. res_inv. checked_inv. subst.
  exists tn, i, next, target, after, si, so, f, (specified_total st + spec), (result_total st + res).
  assert (Hz : (spec =? 0) = (specified_total st + spec =? specified_total st)).
  { destruct (Z.eqb_spec spec 0), (Z.eqb_spec (specified_total st + spec) (specified_total st)); lia. }
  rewrite Hz in Hb. destruct (after =? next); simpl in Hb; res_inv.
  - destruct x as [t' liq']. res_inv. eexists. rewrite Eo. split_and!; try done. eauto.
  - exists []. rewrite Eo, app_nil_r. by split_and!.
Qed.

(** An amount past the end of an iteration is quoted by the later segments. *)
Lemma skip_segment k fee s0 r0 send rend pr tg lq rest x r :
  send < x -> (send = s0 -> rend = r0) ->
  seg_quote k fee s0 r0
    ((if send =? s0 then [] else [mkSegment send rend pr tg lq]) ++ rest) x = Ok r ->
  seg_quote k fee send rend rest x = Ok r.
Proof.
  intros Hx Hz. destruct (Z.eqb_spec send s0) as [->|]; simpl; [by rewrite Hz|].
  by rewrite (proj2 (Z.ltb_lt _ _) Hx).
Qed.

(** Two exact-input steps from the same price to the same target: what the
    step for [m] consumed in full, the step for [a] repeats; a smaller amount
    is consumed in full and stops short of the target. *)
Lemma step_replay price target liq fee m a after si so f :
  step_args price target liq fee -> 0 <= m < 2 ^ 255 -> 0 < a < 2 ^ 255 ->
  compute_swap_step price target liq m fee = Some (after, si, so, f) ->
  (Z.min price target <= after <= Z.max price target /\
   0 <= si /\ 0 <= so /\ 0 <= f /\ si + f <= m /\ (0 < m -> si + f = 0 -> so = 0)) /\
  (si + f <= a -> after = target \/ a = si + f ->
   compute_swap_step price target liq a fee = Some (after, si, so, f)) /\
  (a < si + f -> exists after' i' o' f',
     compute_swap_step price target liq a fee = Some (after', i', o', f') /\
     Z.min price target <= after' <= Z.max price target /\ after' <> target /\
     i' + f' = a /\ 0 <= i' /\ 0 <= o' <= so /\ 0 <= f').
Proof.
  intros Hargs Hm Ha Hstep.
  destruct (swap_step_capacity _ _ _ _ Hargs) as (ci & co & cf & _ & _ & _ & Hz & _ & _ & HI & _).
  destruct (HI m ltac:(lia)) as (after0 & si0 & so0 & f0 & Hstep0 & Hb & ? & ? & ? & Hfull & Hpart).
  rewrite Hstep in Hstep0. symmetry in Hstep0. simplify_eq.
  destruct (HI a ltac:(lia)) as (after' & i' & o' & f' & Hstep' & ? & ? & ? & ? & Hfull' & Hpart').
  destruct (Z.lt_ge_cases m (ci + cf)) as [Hl|Hl].
  - destruct (Hpart Hl) as [Hne Hsum]. split; [split_and!; done || lia|]. split.
    + intros _ [?| ->]; [done|]. by rewrite Hsum.
    + intros Hlt. destruct (Hpart' ltac:(lia)).
      pose proof (swap_step_input_monotone _ _ _ _ a m _ _ _ _ _ _ _ _ Hargs ltac:(lia) (proj2 Hm)
                    Hstep' Hstep). exists after', i', o', f'. split_and!; done || lia.
  - destruct (Hfull Hl) as (-> & -> & -> & ->). split; [split_and!; done || lia|]. split.
    + intros Hle _. destruct (Hfull' Hle) as (-> & -> & -> & ->). done.
    + intros Hlt. destruct (Hpart' Hlt).
      pose proof (swap_step_input_monotone _ _ _ _ a m _ _ _ _ _ _ _ _ Hargs ltac:(lia) (proj2 Hm)
                    Hstep' Hstep). exists after', i', o', f'. split_and!; done || lia.
Qed.

(** The segment quote of an amount past the start of the remaining segments is
    what the loop pays for the rest of the amount. *)
Lemma exact_in_replay fuel p zfo maximum st segs x r cr :
  pool_typed p -> inside zfo (b_price st) (b_tick st) (b_liq st) ->
  build_loop fuel p zfo ExactInput maximum st = Ok segs -> maximum < 2 ^ 255 ->
  0 <= specified_total st < x -> x < 2 ^ 255 ->
  seg_quote ExactInput (fee_pips_for_direction p zfo) (specified_total st) (result_total st)
    segs x = Ok r ->
  exists st', exact_in_loop fuel p zfo false
                (mkIn (x - specified_total st) (result_total st) (b_price st) (b_tick st)
                   (b_liq st) cr) = Ok st' /\
              in_remaining st' = 0 /\ in_out st' = r.
Proof.
  intros Hp. revert st segs cr. induction fuel as [|fuel IH]; intros st segs cr Hin Hb Hmax Hx Hx255 Hq;
    [done|].
  destruct (build_iter _ _ _ _ _ _ _ Hb ltac:(by intros ->))
    as (Hlt & Hlim & _ & tn & i & next & target & after & si & so & f & send & rend & rest &
        Hn & Hstep & Hends & Hs256 & Hr256 & -> & Hrest). simpl in Hstep, Hends.
  injection Hends as -> ->.
  destruct (boundary_step _ _ _ _ _ _ _ _ _ Hp Hin Hn) as (Hargs & Haft & _).
  destruct (step_replay _ _ _ _ (maximum - specified_total st) (x - specified_total st) _ _ _ _ Hargs ltac:(lia) ltac:(lia) Hstep)
    as ((Hbetween & Hsi & Hso & Hf & _ & Hz) & Hrepeat & Hshorter).
  destruct (Haft after Hbetween) as [Hland _]. clear Hb.
  destruct (Z.lt_trichotomy (specified_total st + (si + f)) x) as [Hpast|[Hat|Hshort]].
  - apply skip_segment in Hq; [|done|intros; lia].
    destruct (Z.eqb_spec after next) as [Hnext|]; [|by subst rest].
    destruct Hrest as (t' & liq' & Hc & Hbr). pose proof (Hland Hnext) as ->.
    rewrite (fun Ha => exact_in_iter fuel p zfo _ _ _ _ _ cr _ _ _ _ _ _ _ _ Ha Hlim Hn
               (Hrepeat ltac:(lia) (or_introl eq_refl))) by lia.
    rewrite (proj2 (Z.eqb_eq target next) Hnext), Hc. simpl.
    destruct (cross_inside _ _ _ _ _ _ _ _ _ _ _ Hp Hin Hn Hnext Hc) as [Hin' _].
    replace (x - specified_total st - (si + f)) with (x - (specified_total st + (si + f))) by lia.
    apply (IH (mkBuild (specified_total st + (si + f)) (result_total st + so) target t' liq') rest);
      simpl; done || lia.
  - rewrite (proj2 (Z.eqb_neq _ _)) in Hq by lia. simpl in Hq.
    rewrite Hat, Z.ltb_irrefl, Z.eqb_refl in Hq. injection Hq as <-.
    rewrite (fun Ha => exact_in_iter fuel p zfo _ _ _ _ _ cr _ _ _ _ _ _ _ _ Ha Hlim Hn
               (Hrepeat ltac:(lia) ltac:(lia))) by lia.
    replace (x - specified_total st - (si + f)) with 0 by lia.
    destruct (after =? next); [|by eexists].
    destruct Hrest as (t' & liq' & -> & Hbr). simpl.
    destruct fuel; [done|]. rewrite exact_in_done. by eexists.
  - rewrite (proj2 (Z.eqb_neq _ _)) in Hq by lia. simpl in Hq.
    rewrite (proj2 (Z.ltb_ge _ _)), (proj2 (Z.eqb_neq _ _)) in Hq by lia. res_inv. checked_inv. subst.
    destruct (Hshorter ltac:(lia)) as (after' & i' & o' & f' & Hstep' & Hb' & Hne' & Hsum & ? & ? & ?).
    destruct (Haft after' Hb') as [Hland' _]. simpl in Hok0. rewrite Hstep' in Hok0.
    simplify_eq. res_inv. checked_inv. subst.
    rewrite (fun Ha => exact_in_iter fuel p zfo _ _ _ _ _ cr _ _ _ _ _ _ _ _ Ha Hlim Hn Hstep') by lia.
    rewrite (proj2 (Z.eqb_neq after' next)) by naive_solver. eexists. split; [done|]. simpl. lia.
Qed.

(** The segments end strictly after the start and in increasing order, so the
    predicate of the binary search partitions them. *)
Lemma build_sorted fuel p zfo k maximum st segs :
  pool_typed p -> inside zfo (b_price st) (b_tick st) (b_liq st) ->
  build_loop fuel p zfo k maximum st = Ok segs -> 0 <= specified_total st -> maximum < 2 ^ 255 ->
  Forall (Z.lt (specified_total st)) (specified_end <$> segs) /\
  StronglySorted Z.lt (specified_end <$> segs).
Proof.
  intros Hp. revert st segs. induction fuel as [|fuel IH]; intros st segs Hin Hb Hs Hmax; [done|].
  destruct (decide (segs = [])) as [->|Hne]; [split; constructor|].
  destruct (build_iter _ _ _ _ _ _ _ Hb Hne)
    as (Hlt & _ & _ & tn & i & next & target & after & si & so & f & send & rend & rest &
        Hn & Hstep & Hends & _ & _ & -> & Hrest). injection Hends as -> _.
  destruct (any_step _ _ _ _ _ k (maximum - specified_total st) _ _ _ _ Hp Hin ltac:(lia) Hn)
    as (after' & ? & ? & ? & Hstep' & ? & ? & ? & _ & Hland).
  rewrite Hstep in Hstep'. symmetry in Hstep'. simplify_eq.
  assert (Hinc : 0 <= (oriented k (si + f) so).1) by (destruct k; simpl; lia).
  set (spec := (oriented k (si + f) so).1) in *.
  assert (Hr : Forall (Z.lt (specified_total st + spec)) (specified_end <$> rest) /\
               StronglySorted Z.lt (specified_end <$> rest)).
  { destruct (Z.eqb_spec after next) as [Heq|]; [|subst rest; split; constructor].
    destruct (Hland Heq) as [Htn ->]. destruct Hrest as (t' & liq' & Hc & Hbr).
    destruct (cross_inside _ _ _ _ _ _ _ _ _ _ _ Hp Hin Hn Htn Hc) as [Hin' _].
    apply (IH (mkBuild (specified_total st + spec) rend target t' liq') _ Hin' Hbr); simpl; lia. }
  destruct Hr as [Hall Hsorted].
  assert (Hall' : Forall (Z.lt (specified_total st)) (specified_end <$> rest))
    by (eapply Forall_impl; [exact Hall|simpl; intros; lia]).
  destruct (Z.eqb_spec (specified_total st + spec) (specified_total st)); [done|].
  simpl. split; constructor; done || lia.
Qed.

(** One iteration of the exact-output loop whose step stays in range. *)
Lemma exact_out_iter fuel p zfo a ain cap price t liq tn i next target after si so f :
  0 < a -> price <> price_limit zfo -> liq <> 0 ->
  next_boundary p zfo t = Ok (tn, i, next, target) ->
  compute_swap_step price target liq (- a) (fee_pips_for_direction p zfo)
    = Some (after, si, so, f) ->
  0 <= f -> so <= a -> ain + si + f < 2 ^ 256 ->
  exists cap', cap' = (if so =? 0 then cap else ain + si + f) /\
  exact_out_loop (S fuel) p zfo (mkOut a ain cap price t liq) =
  if after =? next then
    let? '(t', liq') := cross_boundary p zfo tn i liq in
    exact_out_loop fuel p zfo (mkOut (a - so) (ain + si + f) cap' after t' liq')
  else Ok (mkOut (a - so) (ain + si + f) cap' after t liq).
Proof.
  intros Ha Hlim Hliq Hn Hstep Hf Hle Hin. exists (if so =? 0 then cap else ain + si + f).
  split; [done|]. simpl.
  rewrite (proj2 (Z.eqb_neq a 0)), (proj2 (Z.eqb_neq price _) Hlim), (proj2 (Z.eqb_neq liq 0)) by lia.
  simpl. rewrite Hn. simpl. rewrite Hstep. simpl. unfold checked_add, checked_sub.
  rewrite (proj2 (Z.leb_le so a)) by lia. simpl.
  rewrite (proj2 (Z.ltb_lt (ain + si) _)) by lia. simpl.
  by rewrite (proj2 (Z.ltb_lt (ain + si + f) _)) by lia.
Qed.

(** The exact-output counterpart of [step_replay]; a smaller output may land
    on the target, but then the larger one does too. *)
Lemma step_replay_out price target liq fee m a after si so f :
  step_args price target liq fee -> 0 < m < 2 ^ 255 -> 0 < a < 2 ^ 255 ->
  compute_swap_step price target liq (- m) fee = Some (after, si, so, f) ->
  (Z.min price target <= after <= Z.max price target /\
   0 <= si /\ 0 <= so <= m /\ 0 <= f) /\
  (so <= a -> so < m \/ a = so ->
   compute_swap_step price target liq (- a) fee = Some (after, si, so, f)) /\
  (a < so -> exists after' i' f',
     compute_swap_step price target liq (- a) fee = Some (after', i', a, f') /\
     Z.min price target <= after' <= Z.max price target /\ 0 <= i' <= si /\ 0 <= f' <= f /\
     (after' = target -> after = target)).
Proof.
  intros Hargs Hm Ha Hstep.
  destruct (swap_step_capacity _ _ _ _ Hargs) as (ci & co & cf & _ & _ & _ & _ & _ & _ & _ & HO).
  destruct (HO m Hm) as (after0 & si0 & so0 & f0 & Hstep0 & Hb & ? & ? & ? & Hfull & Hpart & _).
  rewrite Hstep in Hstep0. symmetry in Hstep0. simplify_eq.
  destruct (HO a Ha) as (after' & i' & o' & f' & Hstep' & ? & ? & ? & ? & Hfull' & Hpart' & _).
  split; [split_and!; try lia|]. split.
  - intros Hle Hor. destruct (Z.lt_ge_cases m co) as [Hl|Hl].
    + rewrite (Hpart Hl) in Hor. destruct Hor as [?| ->]; [lia|done].
    + destruct (Hfull Hl) as (-> & -> & -> & ->). destruct (Hfull' Hle) as (-> & -> & -> & ->). done.
  - intros Hlt. assert (o' = a) as -> by (apply Hpart'; lia).
    destruct (swap_step_output_monotone price target liq fee a m _ _ _ _ _ _ _ _ Hargs
                ltac:(lia) (proj2 Hm) Hstep' Hstep) as (? & ? & ?).
    exists after', i', f'. split_and!; done || lia.
Qed.

Lemma build_exhausted fuel p zfo k maximum st segs :
  build_loop fuel p zfo k maximum st = Ok segs -> maximum <= specified_total st -> segs = [].
Proof.
  destruct fuel; [done|]. simpl. intros Hb Hle.
  rewrite (proj2 (Z.ltb_ge (specified_total st) maximum)) in Hb by done. simpl in Hb. by res_inv.
Qed.

(** Skipping an iteration whose zero-output step was not recorded keeps the
    older result offset. *)
Lemma skip_segment_out k fee s0 r0 send rend pr tg lq rest x r :
  send < x -> r0 <= rend ->
  seg_quote k fee s0 r0
    ((if send =? s0 then [] else [mkSegment send rend pr tg lq]) ++ rest) x = Ok r ->
  exists r1, r1 <= rend /\ seg_quote k fee send r1 rest x = Ok r.
Proof.
  intros Hx Hr. destruct (Z.eqb_spec send s0) as [->|]; simpl; [by exists r0|].
  rewrite (proj2 (Z.ltb_lt _ _) Hx). by exists rend.
Qed.

Lemma boundary_skip s0 send rend pr tg lq rest x :
  x <> send ->
  x ∈ specified_end <$> ((if send =? s0 then [] else [mkSegment send rend pr tg lq]) ++ rest) ->
  x ∈ specified_end <$> rest.
Proof.
  intros Hne. destruct (send =? s0); simpl; [done|]. rewrite elem_of_cons. naive_solver.
Qed.

(** After the step that completes the amount the loop stops, whether or not
    the step landed on the boundary. *)
Lemma exact_out_finish fuel p zfo tn i liq after next v cap t :
  (after = next -> fuel <> O /\ is_ok (cross_boundary p zfo tn i liq) = true) ->
  exists st',
    (if after =? next then
       let? '(t', liq') := cross_boundary p zfo tn i liq in
       exact_out_loop fuel p zfo (mkOut 0 v cap after t' liq')
     else Ok (mkOut 0 v cap after t liq)) = Ok st' /\
    out_remaining st' = 0 /\ out_in st' = v.
Proof.
  intros Hc. destruct (Z.eqb_spec after next) as [Heq|]; [|by eexists].
  destruct (Hc Heq) as [Hfuel Hok]. destruct (cross_boundary _ _ _ _ _) as [[t' liq']|]; [|done].
  destruct fuel; [done|]. by eexists.
Qed.

Lemma sorted_head_le e l x : StronglySorted Z.lt (e :: l) -> x ∈ e :: l -> e <= x.
Proof.
  intros Hs. inversion_clear Hs as [|?? _ Hall]. rewrite elem_of_cons.
  intros [->|Hx]; [done|]. rewrite Forall_forall in Hall. specialize (Hall _ Hx). lia.
Qed.

(** The exact-output quote of an amount past the start [s0], [r0] of the
    remaining segments, where the loop has already paid [result_total]. *)
Lemma exact_out_replay fuel p zfo maximum st segs x r0 r cap :
  pool_typed p -> inside zfo (b_price st) (b_tick st) (b_liq st) ->
  build_loop fuel p zfo ExactOutput maximum st = Ok segs -> maximum < 2 ^ 255 ->
  0 <= specified_total st < x -> x < 2 ^ 255 -> r0 <= result_total st ->
  seg_quote ExactOutput (fee_pips_for_direction p zfo) (specified_total st) r0 segs x = Ok r ->
  exists st', exact_out_loop fuel p zfo
                (mkOut (x - specified_total st) (result_total st) cap (b_price st) (b_tick st)
                   (b_liq st)) = Ok st' /\
              out_remaining st' = 0 /\ r <= out_in st' /\
              (x ∈ specified_end <$> segs -> out_in st' = r).
Proof.
  intros Hp. revert st segs r0 cap.
  induction fuel as [|fuel IH]; intros st segs r0 cap Hin Hb Hmax Hx Hx255 Hr0 Hq; [done|].
  destruct (build_sorted _ _ _ _ _ _ _ Hp Hin Hb ltac:(lia) Hmax) as [_ Hsorted].
  destruct (build_iter _ _ _ _ _ _ _ Hb ltac:(by intros ->))
    as (Hlt & Hlim & Hliq & tn & i & next & target & after & si & so & f & send & rend & rest &
        Hn & Hstep & Hends & Hs256 & Hr256 & -> & Hrest). simpl in Hstep, Hends.
  injection Hends as -> ->.
  destruct (boundary_step _ _ _ _ _ _ _ _ _ Hp Hin Hn) as (Hargs & Haft & _).
  destruct (step_replay_out _ _ _ _ (maximum - specified_total st) (x - specified_total st)
              _ _ _ _ Hargs ltac:(lia) ltac:(lia) Hstep)
    as ((Hbetween & Hsi & Hso & Hf) & Hrepeat & Hshorter).
  destruct (Haft after Hbetween) as [Hland _]. clear Hb.
  assert (Hcross : after = next -> fuel <> O /\ is_ok (cross_boundary p zfo tn i (b_liq st)) = true).
  { intros Heq. rewrite (proj2 (Z.eqb_eq _ _) Heq) in Hrest.
    destruct Hrest as (? & ? & -> & ?). by destruct fuel. }
  destruct (Z.lt_trichotomy (specified_total st + so) x) as [Hpast|[Hat|Hshort]].
  - destruct (skip_segment_out _ _ _ r0 _ (result_total st + (si + f)) _ _ _ _ _ _
                Hpast ltac:(lia) Hq) as (r1 & Hr1 & Hq').
    destruct (Z.eqb_spec after next) as [Hnext|]; [|by subst rest].
    destruct Hrest as (t' & liq' & Hc & Hbr). pose proof (Hland Hnext) as ->.
    assert (Hmore : so < maximum - specified_total st).
    { destruct (Z.lt_ge_cases so (maximum - specified_total st)); [done|].
      apply build_exhausted in Hbr as ->; simpl; [done|lia]. }
    destruct (fun Ha => exact_out_iter fuel p zfo (x - specified_total st) (result_total st) cap
               _ _ _ _ _ _ _ _ _ _ _ Ha Hlim Hliq Hn (Hrepeat ltac:(lia) (or_introl Hmore)))
      as (cap' & _ & ->); [lia..|].
    rewrite (proj2 (Z.eqb_eq target next) Hnext), Hc. simpl.
    destruct (cross_inside _ _ _ _ _ _ _ _ _ _ _ Hp Hin Hn Hnext Hc) as [Hin' _].
    replace (x - specified_total st - so) with (x - (specified_total st + so)) by lia.
    rewrite <- Z.add_assoc.
    destruct (IH (mkBuild (specified_total st + so) (result_total st + (si + f)) target t' liq')
                rest r1 cap') as (st' & ? & ? & ? & Hmem); simpl; try (done || lia).
    exists st'. split_and!; try done. intros Hel. apply Hmem.
    eapply boundary_skip; [|exact Hel]. lia.
  - rewrite (proj2 (Z.eqb_neq _ _)) in Hq by lia. simpl in Hq.
    rewrite Hat, Z.ltb_irrefl, Z.eqb_refl in Hq. injection Hq as <-.
    destruct (fun Ha => exact_out_iter fuel p zfo (x - specified_total st) (result_total st) cap
               _ _ _ _ _ _ _ _ _ _ _ Ha Hlim Hliq Hn (Hrepeat ltac:(lia) ltac:(lia)))
      as (cap' & _ & ->); [lia..|].
    replace (x - specified_total st - so) with 0 by lia.
    destruct (exact_out_finish fuel p zfo tn i (b_liq st) after next
                (result_total st + si + f) cap' (b_tick st)) as (st' & -> & ? & ?); [done|].
    exists st'. split_and!; done || lia.
  - rewrite (proj2 (Z.eqb_neq (specified_total st + so) _)) in Hq, Hsorted by lia. simpl in Hq, Hsorted.
    rewrite (proj2 (Z.ltb_ge _ _)), (proj2 (Z.eqb_neq _ _)) in Hq by lia. res_inv. checked_inv. subst.
    destruct (Hshorter ltac:(lia)) as (after' & i' & f' & Hstep' & Hb' & Hi' & Hf' & Htgt).
    destruct (Haft after' Hb') as [Hland' _]. simpl in Hok0. rewrite Hstep' in Hok0.
    simplify_eq. res_inv. checked_inv. subst.
    destruct (fun Ha => exact_out_iter fuel p zfo (x - specified_total st) (result_total st) cap
               _ _ _ _ _ _ _ _ _ _ _ Ha Hlim Hliq Hn Hstep') as (cap' & _ & ->); [lia..|].
    rewrite (proj2 (Z.eqb_neq (specified_total st + so) _)) by lia.
    rewrite Z.sub_diag.
    destruct (exact_out_finish fuel p zfo tn i (b_liq st) after' next
                (result_total st + i' + f') cap' (b_tick st)) as (st' & -> & ? & ?).
    { intros Hn'. apply Hcross. rewrite (Htgt (Hland' Hn')), <- (Hland' Hn'). done. }
    exists st'. split_and!; [done|done|lia|]. intros Hel.
    pose proof (sorted_head_le _ _ _ Hsorted Hel). lia.
Qed.

(** A quote reaches the end of a recorded segment. *)
Definition reaches (x : Z) (segs : list PreparedQuoteSegment) : Prop :=
  Exists (fun s => x <= specified_end s) segs.

Lemma reaches_skip s0 send rend pr tg lq rest x :
  send < x ->
  reaches x ((if send =? s0 then [] else [mkSegment send rend pr tg lq]) ++ rest) ->
  reaches x rest.
Proof.
  unfold reaches. intros Hx. destruct (send =? s0); simpl; [done|].
  rewrite Exists_cons. simpl. intros [?|?]; [lia|done].
Qed.

Lemma skip_segment_eq k fee s0 r0 send rend pr tg lq rest x :
  send < x -> exists r1, (r1 = r0 \/ r1 = rend) /\
  seg_quote k fee s0 r0
    ((if send =? s0 then [] else [mkSegment send rend pr tg lq]) ++ rest) x =
  seg_quote k fee send r1 rest x.
Proof.
  intros Hx. destruct (Z.eqb_spec send s0) as [->|]; simpl; [by eauto|].
  rewrite (proj2 (Z.ltb_lt _ _) Hx). eauto.
Qed.

(** The step that quotes an amount inside a recorded segment succeeds and
    stays below the recorded result. *)
Lemma inner_step_covered k price target liq fee m a after si so f :
  step_args price target liq fee -> 0 < m < 2 ^ 255 -> 0 < a < 2 ^ 255 ->
  compute_swap_step price target liq (signed k m) fee = Some (after, si, so, f) ->
  a < (oriented k (si + f) so).1 ->
  exists after' i' o' f',
    compute_swap_step price target liq (signed k a) fee = Some (after', i', o', f') /\
    0 <= o' /\ 0 <= i' /\ 0 <= f' /\
    (oriented k (i' + f') o').2 <= (oriented k (si + f) so).2.
Proof.
  intros Hargs Hm Ha Hstep Hlt. destruct k; simpl in *.
  - destruct (step_replay _ _ _ _ m a _ _ _ _ Hargs ltac:(lia) Ha Hstep) as (_ & _ & Hs).
    destruct (Hs Hlt) as (after' & i' & o' & f' & ? & _ & _ & _ & ? & ? & ?).
    exists after', i', o', f'. split_and!; done || lia.
  - destruct (step_replay_out _ _ _ _ m a _ _ _ _ Hargs Hm Ha Hstep) as (_ & _ & Hs).
    destruct (Hs Hlt) as (after' & i' & f' & ? & _ & ? & ? & _).
    exists after', i', a, f'. split_and!; done || lia.
Qed.

(** The quote inside one segment, from the step that answers it. *)
Lemma seg_quote_inner k fee s0 r0 seg rest x after i o f :
  s0 < x < specified_end seg -> 0 <= s0 ->
  compute_swap_step (sqrt_price_start seg) (sqrt_price_target seg) (seg_liquidity seg)
    (signed k (x - s0)) fee = Some (after, i, o, f) ->
  0 <= r0 -> r0 + (oriented k (i + f) o).2 < 2 ^ 256 ->
  seg_quote k fee s0 r0 (seg :: rest) x = Ok (r0 + (oriented k (i + f) o).2).
Proof.
  intros Hx Hs Hstep Hr Hlt. simpl.
  rewrite (proj2 (Z.ltb_ge _ _)), (proj2 (Z.eqb_neq _ _)) by lia. unfold checked_sub.
  rewrite (proj2 (Z.leb_le s0 x)) by lia. simpl. rewrite Hstep. simpl. unfold checked_add.
  destruct k; simpl in *; [by rewrite (proj2 (Z.ltb_lt _ _)) by lia|].
  rewrite (proj2 (Z.ltb_lt (i + f) _)) by lia. simpl. by rewrite (proj2 (Z.ltb_lt _ _)) by lia.
Qed.

(** Every amount up to the end of the recorded segments is quoted. *)
Lemma build_covers fuel p zfo k maximum st segs x r0 :
  pool_typed p -> inside zfo (b_price st) (b_tick st) (b_liq st) ->
  build_loop fuel p zfo k maximum st = Ok segs -> maximum < 2 ^ 255 ->
  0 <= specified_total st < x -> x < 2 ^ 255 -> 0 <= r0 <= result_total st ->
  reaches x segs ->
  exists r, seg_quote k (fee_pips_for_direction p zfo) (specified_total st) r0 segs x = Ok r.
Proof.
  intros Hp. revert st segs r0.
  induction fuel as [|fuel IH]; intros st segs r0 Hin Hb Hmax Hx Hx255 Hr0 Hreach; [done|].
  assert (Hne : segs <> []) by (intros ->; by apply Exists_nil in Hreach).
  destruct (build_iter _ _ _ _ _ _ _ Hb Hne)
    as (Hlt & Hlim & _ & tn & i & next & target & after & si & so & f & send & rend & rest &
        Hn & Hstep & Hends & Hs256 & Hr256 & -> & Hrest). injection Hends as -> ->.
  destruct (boundary_step _ _ _ _ _ _ _ _ _ Hp Hin Hn) as (Hargs & _).
  destruct (any_step _ _ _ _ _ k (maximum - specified_total st) _ _ _ _ Hp Hin ltac:(lia) Hn)
    as (after' & ? & ? & ? & Hstep' & ? & ? & ? & _ & Hland).
  rewrite Hstep in Hstep'. symmetry in Hstep'. simplify_eq.
  assert (Hinc : 0 <= (oriented k (si + f) so).1 /\ 0 <= (oriented k (si + f) so).2)
    by (destruct k; simpl; lia).
  destruct (oriented k (si + f) so) as [spec res] eqn:Eo. simpl in *.
  destruct (Z.lt_trichotomy (specified_total st + spec) x) as [Hpast|[Hat|Hshort]].
  - apply reaches_skip in Hreach; [|done].
    destruct (skip_segment_eq k (fee_pips_for_direction p zfo) (specified_total st) r0 _
                (result_total st + res) (b_price st) target (b_liq st) rest x Hpast) as (r1 & Hr1 & ->).
    destruct (Z.eqb_spec after next) as [Heq|]; [|subst rest; by apply Exists_nil in Hreach].
    destruct (Hland Heq) as [Htn ->]. destruct Hrest as (t' & liq' & Hc & Hbr).
    destruct (cross_inside _ _ _ _ _ _ _ _ _ _ _ Hp Hin Hn Htn Hc) as [Hin' _].
    apply (IH (mkBuild (specified_total st + spec) (result_total st + res) target t' liq'));
      simpl; done || lia.
  - rewrite (proj2 (Z.eqb_neq _ _)) by lia. simpl.
    rewrite Hat, Z.ltb_irrefl, Z.eqb_refl. eauto.
  - rewrite (proj2 (Z.eqb_neq _ _)) by lia.
    destruct (inner_step_covered k _ _ _ _ (maximum - specified_total st) (x - specified_total st)
                _ _ _ _ Hargs ltac:(lia) ltac:(lia) Hstep) as (a' & i' & o' & f' & Hst & ? & ? & ? & Hle);
      [rewrite Eo; simpl; lia|]. rewrite Eo in Hle. simpl in Hle.
    eexists. eapply seg_quote_inner; simpl; [lia|lia|exact Hst|lia|lia].
Qed.

Lemma swap_fuel_value : Z.of_nat swap_fuel = MAX_TICK - MIN_TICK + 3.
Proof. unfold swap_fuel. by rewrite Z2Nat.id. Qed.
#[local] Opaque swap_fuel.

(** A pool head the swap loops start from in both directions. *)
Definition head_inside (p : ClmmPool) (zfo : bool) : Prop :=
  inside zfo (sqrt_price_x96 p) (tick p) (liquidity p).

(** The recorded ends are sorted, so the capacity decides what is reached. *)
Lemma reaches_capacity c x :
  StronglySorted Z.lt (specified_end <$> segments c) -> 0 < x ->
  reaches x (segments c) <-> x <= specified_capacity c.
Proof.
  intros Hs Hx. unfold specified_capacity, reaches. revert Hs.
  induction (segments c) as [|s segs IH] using rev_ind; [|clear IH]; intros Hs.
  - rewrite Exists_nil. simpl. lia.
  - rewrite last_snoc, Exists_app, Exists_cons, Exists_nil. split; [|naive_solver].
    intros [Hex|[?|[]]]; [|done]. apply Exists_exists in Hex as (s' & Hel & Hle).
    rewrite fmap_app in Hs.
    assert (specified_end s' < specified_end s); [|lia].
    eapply StronglySorted_app_1_elem_of; [exact Hs|by apply list_elem_of_fmap_2|by left].
Qed.

Lemma seg_quote_beyond k fee s0 r0 segs x :
  ~ reaches x segs -> seg_quote k fee s0 r0 segs x = Err InsufficientLiquidity.
Proof.
  unfold reaches. revert s0 r0. induction segs as [|s segs IH]; intros s0 r0 Hno; [done|].
  rewrite Exists_cons in Hno. simpl. rewrite (proj2 (Z.ltb_lt _ _)) by lia. apply IH. tauto.
Qed.

(** What a prepared curve says of the loop that built it. *)
Lemma prepare_inv p zfo k maximum c :
  pool_typed p -> head_inside p zfo -> prepare_quote_curve p zfo k maximum = Ok c ->
  maximum < 2 ^ 255 /\ kind c = k /\ curve_fee_pips c = fee_pips_for_direction p zfo /\
  build_loop swap_fuel p zfo k maximum (mkBuild 0 0 (sqrt_price_x96 p) (tick p) (liquidity p))
    = Ok (segments c) /\
  StronglySorted Z.lt (specified_end <$> segments c).
Proof.
  intros Hp Hin Hprep. unfold prepare_quote_curve in Hprep. res_inv. bool_prop. simpl.
  split_and!; try done.
  apply (build_sorted swap_fuel p zfo k maximum
           (mkBuild 0 0 (sqrt_price_x96 p) (tick p) (liquidity p)) _ Hp Hin Hok1); simpl; lia.
Qed.

(** Within its capacity a curve quotes; beyond it it reports missing liquidity. *)
Lemma prepared_total p zfo k maximum c x :
  pool_typed p -> head_inside p zfo -> prepare_quote_curve p zfo k maximum = Ok c ->
  0 < x < 2 ^ 255 ->
  if x <=? specified_capacity c then is_ok (curve_quote c x) = true
  else curve_quote c x = Err InsufficientLiquidity.
Proof.
  intros Hp Hin Hprep Hx.
  destruct (prepare_inv _ _ _ _ _ Hp Hin Hprep) as (Hmax & Hk & Hfee & Hb & Hs).
  rewrite curve_quote_seg, Hk, Hfee by lia. pose proof (reaches_capacity c x Hs ltac:(lia)) as Hr.
  destruct (Z.leb_spec x (specified_capacity c)) as [Hle|Hgt].
  - destruct (build_covers swap_fuel p zfo k maximum
              (mkBuild 0 0 (sqrt_price_x96 p) (tick p) (liquidity p)) _ x 0 Hp Hin Hb Hmax) as [r Hq];
      [simpl; lia..|by apply Hr|]. simpl in Hq. by rewrite Hq.
  - apply seg_quote_beyond. rewrite Hr. lia.
Qed.

(** What an exact-input curve quotes is what the swap loop returns. *)
Lemma exact_input_quoted p zfo maximum c x r :
  pool_typed p -> head_inside p zfo ->
  prepare_exact_input_curve_bounded p zfo maximum = Ok c ->
  0 < x < 2 ^ 255 -> curve_quote c x = Ok r -> quote_exact_in_amount_out p zfo x = Ok r.
Proof.
  intros Hp Hin Hprep Hx Hq.
  destruct (prepare_inv _ _ _ _ _ Hp Hin Hprep) as (Hmax & Hk & Hfee & Hb & _).
  rewrite curve_quote_seg, Hk, Hfee in Hq by lia.
  destruct (exact_in_replay swap_fuel p zfo maximum
              (mkBuild 0 0 (sqrt_price_x96 p) (tick p) (liquidity p)) _ x r 0 Hp Hin Hb Hmax
              ltac:(simpl; lia) ltac:(lia) Hq) as (st' & Hloop & Hrem & <-). simpl in Hloop.
  unfold quote_exact_in_amount_out, quote_exact_in_impl.
  rewrite (proj2 (Z.eqb_neq x 0)), (proj2 (Z.ltb_lt x _)) by lia. simpl rbind.
  rewrite Z.sub_0_r in Hloop. rewrite Hloop. simpl. by rewrite Hrem.
Qed.

(** C21. a prepared exact-input curve answers every amount up to its capacity
    with the very amount the boundary-by-boundary swap loop returns for it, and
    reports insufficient liquidity beyond, for every curve bound and in either
    direction. *)
Theorem prepared_exact_input_equiv p zfo maximum c x :
  pool_typed p -> head_inside p zfo ->
  prepare_exact_input_curve_bounded p zfo maximum = Ok c ->
  0 < x < 2 ^ 255 ->
  if x <=? specified_capacity c
  then exists r, curve_quote c x = Ok r /\ quote_exact_in_amount_out p zfo x = Ok r
  else curve_quote c x = Err InsufficientLiquidity.
Proof.
  intros Hp Hin Hprep Hx. pose proof (prepared_total _ _ _ _ _ _ Hp Hin Hprep Hx) as Ht.
  destruct (x <=? specified_capacity c); [|done].
  destruct (curve_quote c x) as [r|] eqn:Hq; [|done]. exists r. split; [done|].
  by eapply exact_input_quoted.
Qed.

(** A prepared exact-output curve answers every amount up to its capacity;
    its answer never exceeds what the swap loop charges for that output, the
    loop does complete the output, and the two agree at every boundary of the
    curve. *)
Theorem prepared_exact_output_bound p zfo maximum c x :
  pool_typed p -> head_inside p zfo ->
  prepare_exact_output_curve_bounded p zfo maximum = Ok c ->
  0 < x < 2 ^ 255 ->
  if x <=? specified_capacity c
  then exists r r', curve_quote c x = Ok r /\ quote_exact_out_amount_in p zfo x = Ok r' /\
         r <= r' /\ (x ∈ specified_boundaries c -> r' = r)
  else curve_quote c x = Err InsufficientLiquidity.
Proof.
  intros Hp Hin Hprep Hx. pose proof (prepared_total _ _ _ _ _ _ Hp Hin Hprep Hx) as Ht.
  destruct (x <=? specified_capacity c); [|done].
  destruct (prepare_inv _ _ _ _ _ Hp Hin Hprep) as (Hmax & Hk & Hfee & Hb & _).
  destruct (curve_quote c x) as [r|] eqn:Hq; [|done].
  rewrite curve_quote_seg, Hk, Hfee in Hq by lia.
  destruct (exact_out_replay swap_fuel p zfo maximum
              (mkBuild 0 0 (sqrt_price_x96 p) (tick p) (liquidity p)) _ x 0 r 0 Hp Hin Hb Hmax
              ltac:(simpl; lia) ltac:(lia) ltac:(simpl; lia) Hq)
    as (st' & Hloop & Hrem & Hle & Heq). simpl in Hloop.
  exists r, (out_in st'). split; [done|]. split; [|done].
  unfold quote_exact_out_amount_in, quote_exact_out_amount_in_impl.
  rewrite (proj2 (Z.eqb_neq x 0)), (proj2 (Z.ltb_lt x _)) by lia. simpl rbind.
  rewrite Z.sub_0_r in Hloop. rewrite Hloop. simpl. by rewrite Hrem.
Qed.

(** C40. the swap loops and the curve builder terminate within the tick range:
    on a typed pool no quote, for any amount, direction and mode, runs out of
    the iteration bound. *)
Theorem swap_loops_terminate p zfo ia full k amt :
  pool_typed p -> head_inside p zfo -> 0 <= amt ->
  quote_exact_in_impl p ia zfo amt <> Err OutOfFuel /\
  quote_exact_out_amount_in_impl p zfo amt full <> Err OutOfFuel /\
  prepare_quote_curve p zfo k amt <> Err OutOfFuel.
Proof.
  intros Hp Hin Hamt.
  assert (Hm : measure zfo (tick p) < Z.of_nat swap_fuel).
  { destruct Hin as (_ & ? & _). rewrite swap_fuel_value. unfold measure.
    destruct zfo; lia. }
  unfold quote_exact_in_impl, quote_exact_out_amount_in_impl, prepare_quote_curve.
  destruct (Z.eqb_spec amt 0); [done|]. destruct (Z.ltb_spec amt (2 ^ 255)); [|done]. simpl rbind.
  split_and!.
  - apply rbind_no_fuel; [|intros st _; by destruct (negb _)].
    apply exact_in_loop_total; [exact Hp|exact Hin|simpl; lia|exact Hm].
  - apply rbind_no_fuel; [|intros st _; by destruct (_ && _)].
    apply exact_out_loop_total; [exact Hp|exact Hin|simpl; lia|exact Hm].
  - apply rbind_no_fuel; [|done]. 
    apply build_loop_total; [exact Hp|exact Hin|simpl; lia|lia|exact Hm].
Qed.
End equivalence.
