(* ===== verification/ClmmPools.v ===== *)
(** * Pool lifetimes ([src/src/dex/clmm.rs])

    Every pool that the constructors and the mutators can produce satisfies the
    typing the quote theorems assume; concrete pools over the published swap
    formulas exercise those theorems. *)
From Stdlib Require Import Lia.
From stdpp Require Import base gmap sets strings numbers list fin_maps.
From S2P Require Import Prelude Clmm ClmmTicks UniswapFormula ClmmCurve.

(** ** Lifetimes *)
Section lifetime.
Context `{UniswapV3Laws}.

(** A pool is built for one of the three profiles and then only changed by
    the mutators; fees are unsigned. *)
Inductive pool_lifetime : ClmmPool -> Prop :=
| lifetime_new f01 f10 spacing price t liq prof p :
    0 <= f01 -> 0 <= f10 ->
    new_with_profile f01 f10 spacing price t liq prof = Ok p -> pool_lifetime p
| lifetime_op o p : pool_lifetime p -> pool_op_typed o -> pool_lifetime (run_pool_op o p).1
| lifetime_directional f01 f10 p :
    pool_lifetime p -> 0 <= f01 -> 0 <= f10 ->
    pool_lifetime (set_algebra_directional_fees f01 f10 p).1
| lifetime_single f p :
    pool_lifetime p -> 0 <= f < 2 ^ 16 -> pool_lifetime (set_algebra_single_fee f p).1.

Definition ratios_ok (m : gmap Z Z) : Prop :=
  forall t r, m !! t = Some r -> get_sqrt_ratio_at_tick t = Some r.

Lemma insert_ratios_ok ts what acc m :
  ratios_ok acc -> insert_ratios ts what acc = Ok m -> ratios_ok m.
Proof.
  revert acc. induction ts as [|t ts IH]; intros acc Hacc Hi; simpl in Hi; res_inv; [done|].
  eapply IH; [|exact Hi]. destruct (acc !! t); [done|].
  intros t' r'. rewrite lookup_insert_Some. naive_solver.
Qed.

Lemma compute_ratios_ok spacing tr m :
  compute_word_boundary_sqrt_ratios spacing tr = Ok m -> ratios_ok m.
Proof.
  unfold compute_word_boundary_sqrt_ratios. destruct tr; intros Hm; res_inv;
    (eapply insert_ratios_ok; [eapply insert_ratios_ok; [|exact Hok]|exact Hm]); by intros ??.
Qed.

Lemma new_typed f01 f10 spacing price t liq prof p :
  0 <= f01 -> 0 <= f10 -> new_with_profile f01 f10 spacing price t liq prof = Ok p ->
  pool_typed p.
Proof.
  intros H1 H2 Hn. unfold new_with_profile in Hn. res_inv. bool_prop.
  constructor; simpl.
  - intros zfo. unfold fee_pips_for_direction. simpl. destruct zfo; lia.
  - done.
  - intros Hraw. constructor; simpl; [done| | |done].
    + split; [done|]. intros u. unfold tick_bit. rewrite lookup_empty. simpl. by rewrite Z.testbit_0_l.
    + intros u. unfold tick_bit. rewrite !lookup_empty. simpl. rewrite Z.testbit_0_l.
      split; [done|]. by intros [? ?].
  - by eapply compute_ratios_ok.
Qed.

(** A mutator changes neither the fees, the spacing, the profile nor the cache. *)
Definition same_shape (p q : ClmmPool) : Prop :=
  fee_pips q = fee_pips p /\ one_for_zero_fee_pips q = one_for_zero_fee_pips p /\
  tick_spacing q = tick_spacing p /\ tick_traversal q = tick_traversal p /\
  word_boundary_sqrt_ratios q = word_boundary_sqrt_ratios p.

#[global] Instance same_shape_preorder : PreOrder same_shape.
Proof. split; [done|]. intros ??? (?&?&?&?&?) (?&?&?&?&?). split_and!; congruence. Qed.

Lemma set_tick_shape i g n p : same_shape p (set_tick i g n p).1.
Proof.
  unfold set_tick. repeat (case_match; simpl); try done.
Qed.

Lemma run_pool_op_shape o p : same_shape p (run_pool_op o p).1.
Proof.
  destruct o; simpl.
  - apply set_tick_shape.
  - unfold apply_swap_head. repeat (case_match; simpl); done.
  - unfold apply_liquidity_delta. do 4 (case_match; simpl; [done|]).
    case_match; [|done]. destruct a as [[lo up] act]. unfold mbind'.
    pose proof (set_tick_shape lower (gross lo) (net lo) p) as H1'.
    destruct (set_tick lower _ _ p) as [p1 [[]|]]; simpl in *; [|done].
    pose proof (set_tick_shape upper (gross up) (net up) p1) as H2'.
    destruct (set_tick upper _ _ p1) as [p2 [[]|]]; simpl in *; [|by etrans].
    destruct act; simpl; by etrans.
Qed.

Lemma run_pool_op_typed o p : pool_typed p -> pool_op_typed o -> pool_typed (run_pool_op o p).1.
Proof.
  intros Hp Ho. destruct (run_pool_op_shape o p) as (E1 & E2 & E3 & E4 & E5). constructor.
  - intros zfo. unfold fee_pips_for_direction. rewrite E1, E2. apply (pt_fees p Hp zfo).
  - rewrite E3. apply Hp.
  - rewrite E4. intros Hraw. pose proof (pt_raw p Hp Hraw) as Hok.
    destruct (run_pool_op_cases o p Hok Ho) as [[e ->]|(p' & -> & ?)]; done.
  - rewrite E5. apply Hp.
Qed.

Lemma set_fees_typed p f01 f10 :
  pool_typed p -> 0 <= f01 < 1000000 -> 0 <= f10 < 1000000 -> pool_typed (set_fees p f01 f10).
Proof.
  intros Hp H1 H2. constructor; try apply Hp.
  - intros zfo. unfold fee_pips_for_direction. simpl. destruct zfo; lia.
  - intros Hraw. destruct (pt_raw p Hp Hraw). by constructor.
Qed.

(** Whatever the profile and the history of hydration, swaps, mints, burns
    and fee updates, successful or rejected, a pool stays typed: fees below one
    million pips, a positive spacing, bitmap rows that agree with the tick map,
    and cached boundary prices that are the prices of their ticks. *)
Theorem lifetime_typed p : pool_lifetime p -> pool_typed p.
Proof.
  induction 1 as [? ? ? ? ? ? ? p ? ? Hn|o p ? IH Ho|f01 f10 p ? IH ? ?|f p ? IH ?].
  - eapply new_typed; [| |exact Hn]; done.
  - by apply run_pool_op_typed.
  - unfold set_algebra_directional_fees. destruct (negb _); [done|].
    destruct (negb _) eqn:E; [done|]. bool_prop. apply set_fees_typed; done || lia.
  - unfold set_algebra_single_fee. destruct (negb _); [done|]. apply set_fees_typed; done || lia.
Qed.
End lifetime.

(** ** Concrete pools *)
Definition demo_ratio (t : Z) : Z := default 0 (linear_ratio t).
Definition demo_cache : gmap Z Z :=
  list_to_map ((fun t => (t, demo_ratio t)) <$> [-256; 0; 255]).

Lemma demo_ratio_spec t : bool_decide (is_Some (linear_ratio t)) = true -> linear_ratio t = Some (demo_ratio t).
Proof. unfold demo_ratio. destruct (linear_ratio t); [done|discriminate]. Qed.

Lemma Z_between a x b : ((a <=? x) && (x <=? b)) = true -> a <= x <= b.
Proof. intros. bool_prop. lia. Qed.

(** A raw-row pool at tick 0 with one position between ticks -5 and 5; [n] is
    the net liquidity of its lower end. *)
Definition demo_pool (liq g n : Z) : ClmmPool :=
  mkPool 500 600 1 (demo_ratio 0) 0 liq (flip_row (flip_row ∅ (-5)) 5)
    {[ -5 := mkTick g n; 5 := mkTick g (- n) ]} demo_cache AlgebraRaw AlgebraDirectional.

Section demo.
Context (liq g n : Z).
Context (Hg : 0 < g < 2 ^ 128) (Hn : - 2 ^ 127 < n < 2 ^ 127).

Lemma demo_algebra_ok : algebra_ok (demo_pool liq g n).
Proof.
  constructor; simpl; [done| | |].
  - apply flip_row_ok; [|done]. apply flip_row_ok; [|done]. split; [done|]. intros t. unfold tick_bit.
    rewrite lookup_empty. simpl. by rewrite Z.testbit_0_l.
  - intros t. rewrite !flip_row_bit. unfold tick_bit. rewrite lookup_empty. simpl.
    rewrite Z.testbit_0_l, lookup_insert, lookup_singleton.
    repeat case_decide; subst; simpl; [by split; eauto..|].
    rewrite !(proj2 (Z.eqb_neq _ _)) by congruence. split; [done|]. by intros [? ?].
  - intros t tl. rewrite lookup_insert, lookup_singleton.
    repeat case_decide; intros; simplify_eq; unfold tick_ok; simpl; split_and!; done || lia.
Qed.

Lemma demo_pool_typed : pool_typed (demo_pool liq g n).
Proof.
  constructor; simpl.
  - by intros [].
  - done.
  - intros _. apply demo_algebra_ok.
  - intros t r. unfold demo_cache. simpl. rewrite !lookup_insert, lookup_empty.
    repeat (case_decide; [subst; intros [= <-]; apply demo_ratio_spec; vm_compute; reflexivity|]).
    discriminate.
Qed.

Lemma demo_inside zfo : 0 <= liq < 2 ^ 128 -> head_inside (demo_pool liq g n) zfo.
Proof.
  intros Hl. split; [|split; [split; discriminate|exact Hl]].
  destruct zfo; apply Z_between; vm_compute; reflexivity.
Qed.
End demo.

Lemma raw_pool_invariant_witness :
  algebra_ok (run_pool_op (LiquidityDelta (-3) 7 100) (demo_pool 10 10 10)).1.
Proof.
  pose proof (raw_pool_invariant (LiquidityDelta (-3) 7 100) (demo_pool 10 10 10)
                (demo_algebra_ok 10 10 10 ltac:(done) ltac:(done)) ltac:(done)) as Hw.
  assert (E : (run_pool_op (LiquidityDelta (-3) 7 100) (demo_pool 10 10 10)).2 = Ok tt)
    by (vm_compute; reflexivity).
  rewrite E in Hw. exact Hw.
Defined.

Lemma raw_search_exact_witness :
  next_initialized_tick (demo_pool 10 10 10) (-1) true = Ok (-5, true) /\
  forall j, -5 < j <= -1 -> ticks (demo_pool 10 10 10) !! j = None.
Proof.
  assert (E : next_initialized_tick (demo_pool 10 10 10) (-1) true = Ok (-5, true))
    by (vm_compute; reflexivity).
  split; [exact E|].
  apply (raw_search_exact _ (-1) true (-5) true
           (demo_algebra_ok 10 10 10 ltac:(done) ltac:(done)) ltac:(done) E).
Defined.

Definition demo_mint : M ClmmPool ClmmError unit := apply_liquidity_delta (-3) 7 100.

Lemma liquidity_delta_consistent_witness :
  let p' := (demo_mint (demo_pool 10 10 10)).1 in
  liquidity p' = net_below (tick p') (ticks p') /\ tick p' = 0 /\
  net_below MAX_TICK (ticks p') = net_below MAX_TICK (ticks (demo_pool 10 10 10)).
Proof.
  apply (liquidity_delta_consistent (demo_pool 10 10 10) _ (-3) 7 100); [|done..].
  apply pair_result. vm_compute. reflexivity.
Defined.

Lemma mint_burn_roundtrip_witness :
  exists p2, apply_liquidity_delta (-3) 7 (-100) (demo_mint (demo_pool 10 10 10)).1 = (p2, Ok tt) /\
    ticks p2 = ticks (demo_pool 10 10 10) /\ liquidity p2 = 10 /\ tick p2 = 0 /\
    sqrt_price_x96 p2 = demo_ratio 0 /\
    bitmap_equiv (tick_bitmap p2) (tick_bitmap (demo_pool 10 10 10)).
Proof.
  apply (mint_burn_roundtrip (demo_pool 10 10 10) _ (-3) 7 100
           (demo_algebra_ok 10 10 10 ltac:(done) ltac:(done)) ltac:(done) ltac:(done)).
  apply pair_result. vm_compute. reflexivity.
Defined.

(** A pool deep enough that a quote crosses tick -5 and stops beyond it. *)
Definition deep_pool : ClmmPool := demo_pool (10 ^ 30) (10 ^ 30) (10 ^ 29).
Lemma deep_typed : pool_typed deep_pool.
Proof. by apply demo_pool_typed. Qed.
Lemma deep_inside zfo : head_inside deep_pool zfo.
Proof. by apply demo_inside. Qed.
Definition deep_curve : PreparedQuoteCurve :=
  match prepare_exact_input_curve_bounded deep_pool true (10 ^ 6) with
  | Ok c => c
  | Err _ => mkCurve ExactInput 0 []
  end.

Lemma prepared_exact_input_equiv_witness :
  (exists r, curve_quote deep_curve 800000 = Ok r /\
             quote_exact_in_amount_out deep_pool true 800000 = Ok r) /\
  curve_quote deep_curve (10 ^ 6 + 1) = Err InsufficientLiquidity.
Proof.
  assert (Hc : prepare_exact_input_curve_bounded deep_pool true (10 ^ 6) = Ok deep_curve)
    by (vm_compute; reflexivity).
  assert (Hle : (800000 <=? specified_capacity deep_curve) = true) by (vm_compute; reflexivity).
  assert (Hgt : (10 ^ 6 + 1 <=? specified_capacity deep_curve) = false) by (vm_compute; reflexivity).
  pose proof (fun x => prepared_exact_input_equiv deep_pool true (10 ^ 6) deep_curve x
                deep_typed (deep_inside true) Hc) as Hw.
  pose proof (Hw 800000 (conj eq_refl eq_refl)) as H1.
  pose proof (Hw (10 ^ 6 + 1) (conj eq_refl eq_refl)) as H2.
  rewrite Hle in H1. rewrite Hgt in H2. split; [exact H1|exact H2].
Defined.

(** A pool with almost no liquidity up to tick 5 and plenty beyond it. *)
Definition thin_pool : ClmmPool := demo_pool 1 (10 ^ 30) (- 10 ^ 30).
Lemma thin_typed : pool_typed thin_pool.
Proof. by apply demo_pool_typed. Qed.
Lemma thin_inside zfo : head_inside thin_pool zfo.
Proof. by apply demo_inside. Qed.
Definition thin_curve : PreparedQuoteCurve :=
  match prepare_exact_output_curve_bounded thin_pool false 1000 with
  | Ok c => c
  | Err _ => mkCurve ExactOutput 0 []
  end.

Lemma prepared_exact_output_bound_witness :
  exists r r', curve_quote thin_curve 1000 = Ok r /\
    quote_exact_out_amount_in thin_pool false 1000 = Ok r' /\
    r <= r' /\ (1000 ∈ specified_boundaries thin_curve -> r' = r).
Proof.
  assert (Hc : prepare_exact_output_curve_bounded thin_pool false 1000 = Ok thin_curve)
    by (vm_compute; reflexivity).
  assert (Hle : (1000 <=? specified_capacity thin_curve) = true) by (vm_compute; reflexivity).
  pose proof (prepared_exact_output_bound thin_pool false 1000 thin_curve 1000
                thin_typed (thin_inside false) Hc (conj eq_refl eq_refl)) as Hw.
  rewrite Hle in Hw. exact Hw.
Defined.

(** A prepared exact-output quote can be strictly below what the swap
    charges: the builder adds the input of a boundary step with no output to its
    running result but records no segment for it, so an amount inside the next
    segment is quoted from the older offset. *)
Theorem prepared_exact_output_understates :
  pool_typed thin_pool /\ head_inside thin_pool false /\
  exists c x r r',
    prepare_exact_output_curve_bounded thin_pool false 1000 = Ok c /\
    curve_quote c x = Ok r /\ quote_exact_out_amount_in thin_pool false x = Ok r' /\ r < r'.
Proof.
  split; [apply thin_typed|]. split; [apply thin_inside|].
  exists thin_curve, 10.
  exists (match curve_quote thin_curve 10 with Ok r => r | Err _ => 0 end).
  exists (match quote_exact_out_amount_in thin_pool false 10 with Ok r => r | Err _ => 0 end).
  split_and!; vm_compute; reflexivity.
Qed.

Lemma swap_loops_terminate_witness :
  quote_exact_in_impl deep_pool true true 800000 <> Err OutOfFuel /\
  quote_exact_out_amount_in_impl deep_pool true 800000 true <> Err OutOfFuel /\
  prepare_quote_curve deep_pool true ExactInput 800000 <> Err OutOfFuel.
Proof.
  apply (swap_loops_terminate deep_pool true true true ExactInput 800000
           deep_typed (deep_inside true)).
  done.
Defined.

Lemma lifetime_typed_witness :
  exists p, new 500 887272 (demo_ratio 0) 0 10 = Ok p /\
            pool_typed (run_pool_op (SwapHead (demo_ratio 1) 1 11) p).1.
Proof.
  assert (Hok : is_ok (new 500 887272 (demo_ratio 0) 0 10) = true) by (vm_compute; reflexivity).
  destruct (new 500 887272 (demo_ratio 0) 0 10) as [p|] eqn:E; [|done].
  exists p. split; [done|]. apply (lifetime_typed _). apply lifetime_op; [|done].
  by apply (lifetime_new 500 500 887272 (demo_ratio 0) 0 10 Static).
Defined.
