(* ===== verification/ClmmFused.v ===== *)
(** * The fused curve builder ([src/src/dex/clmm.rs])

    [prepare_exact_input_curve_bounded_by_exact_output_reusing] walks the pool
    once in exact-output mode and keeps its boundaries as an exact-input curve.
    The curve it returns ends exactly where the separate capacity pass ends; its
    quotes are those of the exact-input swap loop below that end, and at the end
    never more. *)
From Stdlib Require Import Lia Sorted.
From stdpp Require Import base gmap sets strings numbers list fin_maps sorting.
From S2P Require Import Prelude Clmm ClmmTicks UniswapFormula ClmmCurve ClmmPools.

(** The mutable locals of the fused loop; [productive] is
    [last_productive_segment_count]. *)
Record FusedState := mkFused {
  fs_segments : list PreparedQuoteSegment;
  fs_specified : Z;
  fs_result : Z;
  fs_remaining : Z;
  fs_price : Z;
  fs_tick : Z;
  fs_liq : Z;
  productive : nat;
}.

(** [I256::from_raw]. *)
Definition from_raw (x : Z) : Z := if x <? 2 ^ 255 then x else x - 2 ^ 256.

Section fused.
Context `{UniswapV3Math}.

(** The amounts one iteration records: those of the exact-output step, or, for
    a partial step, those of the exact-input step with the same input. *)
Definition fused_amounts (price target liq fee input_with_fee step_out : Z) (partial : bool)
  : CRes (Z * Z) :=
  if partial then
    let? '(_, ein, eout, efee) :=
      or_err (compute_swap_step price target liq (from_raw input_with_fee) fee)
             (CMsg "failed to finalize fused exact-input segment") in
    let? spec := or_err (checked_add 256 ein efee)
                   (CMsg "fused exact-input specified amount overflow") in
    Ok (spec, eout)
  else Ok (input_with_fee, step_out).

Fixpoint fused_loop (fuel : nat) (p : ClmmPool) (zfo : bool) (st : FusedState)
  : CRes FusedState :=
  match fuel with
  | O => Err OutOfFuel
  | S f =>
      if (fs_remaining st =? 0) || (fs_price st =? price_limit zfo) || (fs_liq st =? 0)
      then Ok st else
      let? '(tick_next, initialized, next, target) := next_boundary p zfo (fs_tick st) in
      let? '(after, step_in, step_out, fee) :=
        or_err (compute_swap_step (fs_price st) target (fs_liq st)
                  (- from_raw (fs_remaining st)) (fee_pips_for_direction p zfo))
               (CMsg "failed to build fused exact-output boundary") in
      let? input_with_fee := or_err (checked_add 256 step_in fee)
                               (CMsg "fused prepared swap input overflow") in
      let partial := negb (after =? next) in
      let? '(spec, res) := fused_amounts (fs_price st) target (fs_liq st)
                             (fee_pips_for_direction p zfo) input_with_fee step_out partial in
      let? send := or_err (checked_add 256 (fs_specified st) spec)
                     (CMsg "fused prepared specified amount overflow") in
      let? rend := or_err (checked_add 256 (fs_result st) res)
                     (CMsg "fused prepared result amount overflow") in
      let segs := if spec =? 0 then fs_segments st
                  else fs_segments st ++ [mkSegment send rend (fs_price st) target (fs_liq st)] in
      let prod := if step_out =? 0 then productive st else length segs in
      let? remaining := or_err (checked_sub (fs_remaining st) step_out)
                          (CMsg "fused swap produced more than remaining output") in
      if partial
      then Ok (mkFused segs send rend remaining after (fs_tick st) (fs_liq st) prod)
      else
        let? '(t', liq') := cross_boundary p zfo tick_next initialized (fs_liq st) in
        fused_loop f p zfo (mkFused segs send rend remaining after t' liq' prod)
  end.

Definition fused_start (p : ClmmPool) (maximum : Z) : FusedState :=
  mkFused [] 0 0 maximum (sqrt_price_x96 p) (tick p) (liquidity p) 0.

(** A previous curve only donates its cleared allocation. *)
Definition prepare_exact_input_curve_bounded_by_exact_output (p : ClmmPool) (zfo : bool)
    (maximum : Z) : CRes PreparedQuoteCurve :=
  ensure! negb (maximum =? 0) else CMsg "prepared curve output maximum must be positive" ;;
  ensure! maximum <? 2 ^ 255 else CMsg "prepared curve output maximum exceeds int256" ;;
  let? st := fused_loop swap_fuel p zfo (fused_start p maximum) in
  Ok (mkCurve ExactInput (fee_pips_for_direction p zfo) (take (productive st) (fs_segments st))).

Definition exact_output_result_capacity_bounded (p : ClmmPool) (zfo : bool) (maximum : Z) : CRes Z :=
  quote_exact_out_amount_in_impl p zfo maximum false.
End fused.

(** The input up to the end of a list of segments. *)
Definition end_of (segs : list PreparedQuoteSegment) : Z :=
  match last segs with None => 0 | Some s => specified_end s end.

Section laws.
Context `{UniswapV3Laws}.

Section iteration.
Context (price target liq fee m after si so f : Z) (partial : bool) (spec res : Z).
Context (Hargs : step_args price target liq fee) (Hm : 0 < m < 2 ^ 255).
Context (Hstep : compute_swap_step price target liq (- m) fee = Some (after, si, so, f)).
Context (Hland : partial = false -> after = target).
Context (Hrec : fused_amounts price target liq fee (si + f) so partial = Ok (spec, res)).

(** The recorded input is the exact-output step's, also when the recorded
    output is recomputed. *)
Lemma fused_amounts_facts :
  spec = si + f /\ spec < 2 ^ 255 /\ 0 <= si /\ 0 <= f /\ 0 <= so <= m /\ 0 <= res /\
  (spec = 0 -> so = 0) /\ (partial = false -> res = so).
Proof.
  destruct (swap_step_capacity _ _ _ _ Hargs) as (ci & co & cf & ? & ? & ? & _ & _ & Hfit & HI & HO).
  destruct (HO m Hm) as (after0 & si0 & so0 & f0 & Hs & ? & ? & ? & ? & Hfull & Hpart & ? & ? & _ & Hz).
  rewrite Hstep in Hs. symmetry in Hs. simplify_eq.
  assert (so <= m) by (destruct (Z.lt_ge_cases m co); [rewrite Hpart; lia|naive_solver]).
  unfold fused_amounts in Hrec. destruct partial; [|res_inv; split_and!; done || lia].
  unfold from_raw in Hrec. rewrite (proj2 (Z.ltb_lt (si + f) _)) in Hrec by lia.
  destruct (HI (si + f) ltac:(lia)) as (a2 & i2 & o2 & f2 & E & ? & ? & ? & ? & Hfull2 & Hpart2).
  rewrite E in Hrec. simpl in Hrec. res_inv. checked_inv. subst.
  assert (i2 + f2 = si + f) as ->.
  { destruct (Z.lt_ge_cases (si + f) (ci + cf)) as [Hl|Hl]; [by apply Hpart2|].
    destruct (Hfull2 Hl) as (_ & -> & _ & ->). lia. }
  split_and!; done || lia.
Qed.

(** An exact input inside the recorded one is consumed in full and, strictly
    inside, stops before the target; at the recorded input the exact-input step
    pays at least the recorded output. *)
Lemma fused_answer_inside a :
  0 < a <= spec ->
  exists after' i' o' f',
    compute_swap_step price target liq a fee = Some (after', i', o', f') /\
    Z.min price target <= after' <= Z.max price target /\
    0 <= i' /\ 0 <= o' /\ 0 <= f' /\ i' + f' = a /\
    (a < spec -> after' <> target) /\ (a = spec -> res <= o') /\
    (if partial then o' <= res else o' < 2 ^ 255).
Proof.
  intros Ha. destruct fused_amounts_facts as (Hspec & Hfit' & ? & ? & ? & _ & _ & Hres).
  destruct (swap_step_capacity _ _ _ _ Hargs) as (ci & co & cf & ? & ? & ? & _ & _ & Hfit & HI & HO).
  destruct (HO m Hm) as (after0 & si0 & so0 & f0 & Hs & ? & ? & ? & ? & Hfull & Hpart & ? & ? & Htgt & _).
  rewrite Hstep in Hs. symmetry in Hs. simplify_eq.
  destruct (HI a ltac:(lia)) as (a1 & i1 & o1 & f1 & E1 & ? & ? & ? & ? & Hfull1 & Hpart1).
  exists a1, i1, o1, f1. do 5 (split; [done|]).
  assert (Hsum : i1 + f1 = a).
  { destruct (Z.lt_ge_cases a (ci + cf)) as [Hl|Hl]; [by apply Hpart1|].
    destruct (Hfull1 Hl) as (_ & -> & _ & ->). lia. }
  assert (Hne : a < si + f -> a1 <> target) by (intros; apply Hpart1; lia).
  split; [done|]. split; [done|]. clear Hne Hsum.
  unfold fused_amounts in Hrec. destruct partial.
  - unfold from_raw in Hrec. rewrite (proj2 (Z.ltb_lt (si + f) _)) in Hrec by lia.
    destruct (compute_swap_step price target liq (si + f) fee) as [[[[a2 i2] o2] f2]|] eqn:E2; [|done].
    simpl in Hrec. res_inv.
    pose proof (swap_step_input_monotone _ _ _ _ a (si + f) _ _ _ _ _ _ _ _ Hargs
                  ltac:(lia) ltac:(lia) E1 E2). split; [|done].
    intros ->. rewrite E1 in E2. simplify_eq. done.
  - destruct (Htgt (Hland eq_refl)) as [-> ->].
    destruct (HI (ci + cf) ltac:(lia)) as (a2 & i2 & o2 & f2 & E2 & _ & _ & _ & _ & Hfull2 & _).
    destruct (Hfull2 ltac:(lia)) as (-> & -> & -> & ->).
    pose proof (swap_step_input_monotone _ _ _ _ a (ci + cf) _ _ _ _ _ _ _ _ Hargs
                  ltac:(lia) ltac:(lia) E1 E2). split; [|lia].
    intros Heq. rewrite Hres by done. destruct (Hfull1 ltac:(lia)) as (_ & _ & -> & _).
    destruct (Z.lt_ge_cases m co); [rewrite Hpart; lia|]. destruct (Hfull ltac:(lia)). lia.
Qed.

(** A boundary step that left output to be produced is the exact-input step of
    every larger input. *)
Lemma fused_answer_past a :
  partial = false -> so < m -> 0 < a < 2 ^ 255 -> spec <= a ->
  compute_swap_step price target liq a fee = Some (after, si, so, f).
Proof.
  intros Hp Hlt Ha Hle. destruct fused_amounts_facts as (-> & _).
  destruct (swap_step_capacity _ _ _ _ Hargs) as (ci & co & cf & ? & ? & ? & _ & _ & Hfit & HI & HO).
  destruct (HO m Hm) as (after0 & si0 & so0 & f0 & Hs & ? & ? & ? & ? & Hfull & Hpart & _).
  rewrite Hstep in Hs. symmetry in Hs. simplify_eq.
  destruct (Z.lt_ge_cases m co) as [Hl|Hl]; [rewrite (Hpart Hl) in Hlt; lia|].
  destruct (Hfull Hl) as (-> & -> & -> & ->).
  destruct (HI a ltac:(lia)) as (a1 & i1 & o1 & f1 & E1 & _ & _ & _ & _ & Hfull1 & _).
  destruct (Hfull1 ltac:(lia)) as (-> & -> & -> & ->). done.
Qed.
End iteration.

(** ** The loop *)
Definition stopped (zfo : bool) (st : FusedState) : bool :=
  (fs_remaining st =? 0) || (fs_price st =? price_limit zfo) || (fs_liq st =? 0).

Record fused_typed (zfo : bool) (maximum : Z) (st : FusedState) : Prop := {
  ft_inside : inside zfo (fs_price st) (fs_tick st) (fs_liq st);
  ft_remaining : 0 <= fs_remaining st;
  ft_result : 0 <= fs_result st;
  ft_specified : 0 <= fs_specified st;
  ft_sum : fs_result st + fs_remaining st = maximum;
  ft_maximum : maximum < 2 ^ 255;
}.

(** The state after an iteration that reached [after]. *)
Definition fused_next (st : FusedState) (target after so spec res t' liq' : Z) : FusedState :=
  let segs := fs_segments st ++
    (if fs_specified st + spec =? fs_specified st then []
     else [mkSegment (fs_specified st + spec) (fs_result st + res) (fs_price st) target (fs_liq st)]) in
  mkFused segs (fs_specified st + spec) (fs_result st + res) (fs_remaining st - so) after t' liq'
    (if so =? 0 then productive st else length segs).

(** One iteration of the loop, with everything it computes. *)
Record iteration (p : ClmmPool) (zfo : bool) (st : FusedState)
    (tn : Z) (i : bool) (next target after si so f spec res : Z) : Prop := {
  it_price : fs_price st <> price_limit zfo;
  it_liq : fs_liq st <> 0;
  it_remaining : 0 < fs_remaining st < 2 ^ 255;
  it_boundary : next_boundary p zfo (fs_tick st) = Ok (tn, i, next, target);
  it_step : compute_swap_step (fs_price st) target (fs_liq st) (- fs_remaining st)
              (fee_pips_for_direction p zfo) = Some (after, si, so, f);
  it_args : step_args (fs_price st) target (fs_liq st) (fee_pips_for_direction p zfo);
  it_recorded : fused_amounts (fs_price st) target (fs_liq st) (fee_pips_for_direction p zfo)
                  (si + f) so (negb (after =? next)) = Ok (spec, res);
  it_land : after = next -> target = next /\ after = target;
  it_specified : fs_specified st + spec < 2 ^ 256;
  it_result : fs_result st + res < 2 ^ 256;
}.

Lemma fused_iter fuel p zfo maximum st st' :
  pool_typed p -> fused_typed zfo maximum st ->
  fused_loop (S fuel) p zfo st = Ok st' -> stopped zfo st = false ->
  exists tn i next target after si so f spec res,
    iteration p zfo st tn i next target after si so f spec res /\
    (if after =? next then
       exists t' liq', cross_boundary p zfo tn i (fs_liq st) = Ok (t', liq') /\
         fused_loop fuel p zfo (fused_next st target after so spec res t' liq') = Ok st'
     else st' = fused_next st target after so spec res (fs_tick st) (fs_liq st)).
Proof.
  intros Hp [Hin Hrem Hres Hspec Hsum Hmax] Hl Hstop. simpl in Hl.
  unfold stopped in Hstop. rewrite Hstop in Hl. bool_prop. res_inv.
  destruct x as [[[tn i] next] target]. res_inv. destruct x as [[[after si] so] f]. res_inv.
  checked_inv. subst. unfold from_raw in Hok0. rewrite (proj2 (Z.ltb_lt (fs_remaining st) _)) in Hok0 by lia.
  destruct x0 as [spec res]. res_inv. checked_inv. subst.
  destruct (boundary_step _ _ _ _ _ _ _ _ _ Hp Hin Hok) as (Hargs & _).
  destruct (any_step _ _ _ _ _ ExactOutput (fs_remaining st) _ _ _ _ Hp Hin ltac:(lia) Hok)
    as (after' & ? & ? & ? & Hstep' & ? & ? & ? & _ & Hland). simpl in Hstep'.
  rewrite Hok0 in Hstep'. symmetry in Hstep'. simplify_eq.
  exists tn, i, next, target, after, si, so, f, spec, res. split; [by constructor; try lia|].
  assert (Hz : (fs_specified st + spec =? fs_specified st) = (spec =? 0)).
  { destruct (Z.eqb_spec spec 0), (Z.eqb_spec (fs_specified st + spec) (fs_specified st)); lia. }
  unfold fused_next. rewrite Hz.
  assert (Hsegs : forall sg : PreparedQuoteSegment,
            (if spec =? 0 then fs_segments st else fs_segments st ++ [sg]) =
            fs_segments st ++ (if spec =? 0 then [] else [sg])).
  { intros sg. destruct (spec =? 0); [by rewrite app_nil_r|done]. }
  rewrite Hsegs in Hl. destruct (after =? next); simpl in Hl; res_inv; [|done].
  destruct x as [t' liq']. eauto.
Qed.

(** The quote of [x] from the segments after a loop state against the swap loop
    started there: never above it, and equal unless [x] is the very last end. *)
Definition replayed (fuel : nat) (p : ClmmPool) (zfo : bool) (st : FusedState)
    (rest : list PreparedQuoteSegment) (x cr : Z) : Prop :=
  let swap := exact_in_loop fuel p zfo false
    (mkIn (x - fs_specified st) (fs_result st) (fs_price st) (fs_tick st) (fs_liq st) cr) in
  exists r,
    seg_quote ExactInput (fee_pips_for_direction p zfo) (fs_specified st) (fs_result st) rest x = Ok r /\
    (forall st', swap = Ok st' -> in_remaining st' = 0 /\ r <= in_out st') /\
    (Exists (fun s => x < specified_end s) rest ->
       exists st', swap = Ok st' /\ in_remaining st' = 0 /\ in_out st' = r).

Section one_iteration.
Context (p : ClmmPool) (zfo : bool) (maximum : Z) (st : FusedState) (tn : Z) (i : bool)
  (next target after si so f spec res : Z).
Context (Hp : pool_typed p) (Ht : fused_typed zfo maximum st)
  (Hit : iteration p zfo st tn i next target after si so f spec res).

Lemma iteration_facts :
  spec = si + f /\ spec < 2 ^ 255 /\ 0 <= si /\ 0 <= f /\ 0 <= so <= fs_remaining st /\ 0 <= res /\
  (spec = 0 -> so = 0) /\ (after = next -> res = so).
Proof.
  destruct Hit. assert (Hl : negb (after =? next) = false -> after = target).
  { intros E. apply it_land0. bool_prop. done. }
  destruct (fused_amounts_facts _ _ _ _ _ _ _ _ _ _ _ _ it_args0 it_remaining0 it_step0 Hl it_recorded0)
    as (? & ? & ? & ? & ? & ? & ? & Hres). do 7 (split; [done|]).
  intros Heq. apply Hres. by rewrite (proj2 (Z.eqb_eq _ _) Heq).
Qed.

Lemma iteration_typed t' liq' :
  after = next -> cross_boundary p zfo tn i (fs_liq st) = Ok (t', liq') ->
  fused_typed zfo maximum (fused_next st target after so spec res t' liq') /\
  measure zfo t' < measure zfo (fs_tick st).
Proof.
  intros Heq Hc. destruct iteration_facts as (? & ? & ? & ? & ? & ? & ? & Hres).
  destruct (it_land _ _ _ _ _ _ _ _ _ _ _ _ _ Hit Heq) as [Htn Hat]. destruct Ht.
  destruct (cross_inside _ _ _ _ _ _ _ _ _ _ _ Hp ft_inside0 (it_boundary _ _ _ _ _ _ _ _ _ _ _ _ _ Hit)
              Htn Hc) as [Hin' Hlt].
  specialize (Hres Heq). split; [|done]. constructor; simpl; try lia. by rewrite Hat.
Qed.

(** An exact input inside the recorded one: the loop stops in this iteration,
    before the boundary when the input is strictly inside. *)
Lemma iteration_inside fuel x cr :
  fs_specified st < x <= fs_specified st + spec -> x < 2 ^ 255 ->
  exists o', 0 <= o' /\ fs_result st + o' < 2 ^ 256 /\
    (x = fs_specified st + spec -> res <= o') /\
    (forall st', exact_in_loop (S fuel) p zfo false
       (mkIn (x - fs_specified st) (fs_result st) (fs_price st) (fs_tick st) (fs_liq st) cr) = Ok st' ->
       in_remaining st' = 0 /\ in_out st' = fs_result st + o') /\
    (x < fs_specified st + spec ->
       (exists after' i' f', compute_swap_step (fs_price st) target (fs_liq st) (x - fs_specified st)
          (fee_pips_for_direction p zfo) = Some (after', i', o', f')) /\
       is_ok (exact_in_loop (S fuel) p zfo false
         (mkIn (x - fs_specified st) (fs_result st) (fs_price st) (fs_tick st) (fs_liq st) cr)) = true).
Proof.
  intros Hx Hx255. destruct iteration_facts as (Hspec & ? & ? & ? & ? & ? & _ & Hres).
  pose proof (ft_specified _ _ _ Ht). pose proof (ft_sum _ _ _ Ht). pose proof (ft_maximum _ _ _ Ht).
  pose proof (ft_result _ _ _ Ht). pose proof (ft_remaining _ _ _ Ht).
  destruct (boundary_step _ _ _ _ _ _ _ _ _ Hp (ft_inside _ _ _ Ht) (it_boundary _ _ _ _ _ _ _ _ _ _ _ _ _ Hit))
    as (_ & Haft & _). destruct Hit.
  assert (Hl : negb (after =? next) = false -> after = target).
  { intros E. apply it_land0. bool_prop. done. }
  destruct (fused_answer_inside _ _ _ _ _ _ _ _ _ _ _ _ it_args0 it_remaining0 it_step0 Hl it_recorded0
              (x - fs_specified st) ltac:(lia))
    as (after' & i' & o' & f' & E & Hb & ? & ? & ? & Hsum & Hne & Hend & Hfit).
  destruct (Haft after' Hb) as [Hland' _].
  assert (Hout : fs_result st + o' < 2 ^ 256) by (destruct (negb (after =? next)); lia).
  exists o'. rewrite (fun Ha => exact_in_iter fuel p zfo _ _ _ _ _ cr _ _ _ _ _ _ _ _ Ha it_price0
                        it_boundary0 E) by lia.
  replace (x - fs_specified st - (i' + f')) with 0 by lia.
  split_and!; [done|done|intros; apply Hend; lia| |].
  - intros st' Hl'. destruct (after' =? next); [|by simplify_eq].
    res_inv. destruct x0 as [t' liq']. destruct fuel; [done|]. rewrite exact_in_done in Hl'.
    by simplify_eq.
  - intros Hlt. split; [eauto|]. rewrite (proj2 (Z.eqb_neq after' next)); [done|].
    intros ->. specialize (Hland' eq_refl). apply Hne; [lia|done].
Qed.

(** An exact input past a boundary that left output to be produced: the loop
    crosses the boundary as the builder did. *)
Lemma iteration_past fuel x cr t' liq' :
  after = next -> so < fs_remaining st ->
  cross_boundary p zfo tn i (fs_liq st) = Ok (t', liq') ->
  fs_specified st + spec <= x -> fs_specified st < x < 2 ^ 255 ->
  exists cr', exact_in_loop (S fuel) p zfo false
    (mkIn (x - fs_specified st) (fs_result st) (fs_price st) (fs_tick st) (fs_liq st) cr) =
  exact_in_loop fuel p zfo false
    (mkIn (x - (fs_specified st + spec)) (fs_result st + res) after t' liq' cr').
Proof.
  intros Heq Hso Hc Hle Hx. destruct iteration_facts as (Hspec & ? & ? & ? & ? & ? & _ & Hres).
  pose proof (ft_specified _ _ _ Ht). specialize (Hres Heq). destruct Hit.
  assert (Hl : negb (after =? next) = false) by (rewrite (proj2 (Z.eqb_eq _ _) Heq); done).
  pose proof (fused_answer_past _ _ _ _ _ _ _ _ _ _ _ _ it_args0 it_remaining0 it_step0
                (fun _ => proj2 (it_land0 Heq)) it_recorded0 (x - fs_specified st) Hl Hso
                ltac:(lia) ltac:(lia)) as E.
  exists (if i then cr + 1 else cr).
  rewrite (fun Ha => exact_in_iter fuel p zfo _ _ _ _ _ cr _ _ _ _ _ _ _ _ Ha it_price0
             it_boundary0 E) by lia.
  rewrite (proj2 (Z.eqb_eq after next) Heq), Hc, Hres. simpl. do 2 f_equal. lia.
Qed.

Definition pushed : list PreparedQuoteSegment :=
  if fs_specified st + spec =? fs_specified st then []
  else [mkSegment (fs_specified st + spec) (fs_result st + res) (fs_price st) target (fs_liq st)].

(** The segments after the iteration: none, or those of the crossed boundary. *)
Definition tail_of (fuel : nat) (rest : list PreparedQuoteSegment) : Prop :=
  rest = [] \/
  (after = next /\ so < fs_remaining st /\ fuel <> O /\
   exists t' liq', cross_boundary p zfo tn i (fs_liq st) = Ok (t', liq') /\
     forall x cr, fs_specified st + spec < x < 2 ^ 255 -> reaches x rest ->
       replayed fuel p zfo (fused_next st target after so spec res t' liq') rest x cr).

Lemma iteration_replayed fuel rest x cr :
  tail_of fuel rest -> fs_specified st < x < 2 ^ 255 -> reaches x (pushed ++ rest) ->
  replayed (S fuel) p zfo st (pushed ++ rest) x cr.
Proof.
  intros Htail Hx Hreach. destruct iteration_facts as (Hspec & _ & ? & ? & _ & ? & _).
  pose proof (ft_specified _ _ _ Ht). pose proof (ft_result _ _ _ Ht). unfold pushed in *.
  destruct (Z.lt_ge_cases (fs_specified st + spec) x) as [Hpast|Hle].
  - apply reaches_skip in Hreach; [|done].
    destruct Htail as [->|(Heq & Hso & _ & t' & liq' & Hc & Hih)]; [by apply Exists_nil in Hreach|].
    destruct (iteration_past fuel x cr t' liq' Heq Hso Hc ltac:(lia) Hx) as (cr' & Hloop).
    destruct (Hih x cr' ltac:(lia) Hreach) as (r & Hq & Hall & Hex). simpl in Hq, Hall, Hex.
    exists r. rewrite Hloop. split; [|split; [exact Hall|]].
    + destruct (Z.eqb_spec (fs_specified st + spec) (fs_specified st)) as [Hz|].
      * assert (Hr0 : res = 0).
        { destruct iteration_facts as (_ & _ & _ & _ & _ & _ & Hz0 & Hres).
          rewrite Hres by done. apply Hz0. lia. }
        rewrite Hr0, Z.add_0_r in Hq. rewrite Hz in Hq. exact Hq.
      * simpl. by rewrite (proj2 (Z.ltb_lt _ _) Hpast).
    + intros Hlast. apply Hex. destruct (_ =? _); [exact Hlast|].
      simpl in Hlast. rewrite Exists_cons in Hlast. simpl in Hlast. destruct Hlast; [lia|done].
  - rewrite (proj2 (Z.eqb_neq _ _)) by lia. simpl app.
    destruct (iteration_inside fuel x cr ltac:(lia) ltac:(lia)) as (o' & Ho & Hfit & Hend & Hall & Hshort).
    destruct (Z.eq_dec x (fs_specified st + spec)) as [Hat|Hne].
    + exists (fs_result st + res). split; [|split].
      * simpl. by rewrite Hat, Z.ltb_irrefl, Z.eqb_refl.
      * intros st' Hl. destruct (Hall st' Hl). specialize (Hend Hat). split; [done|lia].
      * intros Hlast. apply Exists_cons in Hlast as [Hlast|Hlast]; [simpl in Hlast; lia|].
        destruct Htail as [->|(Heq & Hso & Hfuel & t' & liq' & Hc & _)]; [by apply Exists_nil in Hlast|].
        destruct (iteration_past fuel x cr t' liq' Heq Hso Hc ltac:(lia) Hx) as (cr' & ->).
        replace (x - (fs_specified st + spec)) with 0 by lia.
        destruct fuel; [done|]. rewrite exact_in_done. by eexists.
    + destruct (Hshort ltac:(lia)) as ((after' & i' & f' & E) & Hok).
      exists (fs_result st + o'). split; [|split].
      * apply (seg_quote_inner ExactInput _ _ _ _ _ _ after' i' o' f'); simpl; done || lia.
      * intros st' Hl. destruct (Hall st' Hl) as [? ->]. split; [done|lia].
      * intros _. destruct (exact_in_loop _ _ _ _ _) as [st'|]; [|done].
        exists st'. split; [done|]. by apply Hall.
Qed.
End one_iteration.

Lemma fused_exhausted fuel p zfo st st' :
  fused_loop fuel p zfo st = Ok st' -> fs_remaining st = 0 -> st' = st.
Proof. destruct fuel; [done|]. simpl. intros Hl Hz. rewrite Hz in Hl. simpl in Hl. by res_inv. Qed.

Lemma fused_replay fuel p zfo maximum st st' :
  pool_typed p -> fused_typed zfo maximum st -> fused_loop fuel p zfo st = Ok st' ->
  exists rest, fs_segments st' = fs_segments st ++ rest /\
    Forall (Z.lt (fs_specified st)) (specified_end <$> rest) /\
    StronglySorted Z.lt (specified_end <$> rest) /\
    forall x cr, fs_specified st < x < 2 ^ 255 -> reaches x rest -> replayed fuel p zfo st rest x cr.
Proof.
  intros Hp. revert st. induction fuel as [|fuel IH]; intros st Ht Hl; [done|].
  destruct (stopped zfo st) eqn:Hstop.
  { exists []. simpl in Hl. unfold stopped in Hstop. rewrite Hstop in Hl. res_inv.
    rewrite app_nil_r. split_and!; [done|constructor..|]. by intros ?? _ ?%Exists_nil. }
  destruct (fused_iter _ _ _ _ _ _ Hp Ht Hl Hstop)
    as (tn & i & next & target & after & si & so & f & spec & res & Hit & Hrest). clear Hl.
  destruct (iteration_facts _ _ _ _ _ _ _ _ _ _ _ _ _ Hit) as (Hspec & _ & ? & ? & Hso & _).
  assert (Htail : exists rest,
    fs_segments st' = (fs_segments st ++ pushed st target spec res) ++ rest /\
    Forall (Z.lt (fs_specified st + spec)) (specified_end <$> rest) /\
    StronglySorted Z.lt (specified_end <$> rest) /\
    tail_of p zfo st tn i next target after so spec res fuel rest).
  { destruct (Z.eqb_spec after next) as [Heq|].
    - destruct Hrest as (t' & liq' & Hc & Hl).
      destruct (iteration_typed _ _ _ _ _ _ _ _ _ _ _ _ _ _ Hp Ht Hit _ _ Heq Hc) as [Ht' _].
      destruct (IH _ Ht' Hl) as (rest & Hseg & Hall & Hs & Hrep). exists rest.
      split_and!; try done. unfold tail_of.
      destruct (Z.eq_dec so (fs_remaining st)) as [Hall'|]; [left|right].
      + apply fused_exhausted in Hl; [|simpl; lia]. subst st'.
        apply (app_inv_head (fs_segments (fused_next st target after so spec res t' liq'))).
        by rewrite app_nil_r.
      + split_and!; [done|lia|by destruct fuel|]. eauto.
    - subst st'. exists []. rewrite app_nil_r. split_and!; [done|constructor..|by left]. }
  destruct Htail as (rest & Hseg & Hall & Hs & Htail).
  exists (pushed st target spec res ++ rest). split; [by rewrite Hseg, app_assoc|].
  assert (Hall' : Forall (Z.lt (fs_specified st)) (specified_end <$> rest))
    by (eapply Forall_impl; [exact Hall|simpl; intros; lia]).
  assert (Hends : Forall (Z.lt (fs_specified st)) (specified_end <$> pushed st target spec res ++ rest) /\
                  StronglySorted Z.lt (specified_end <$> pushed st target spec res ++ rest)).
  { unfold pushed. destruct (Z.eqb_spec (fs_specified st + spec) (fs_specified st)); [done|].
    simpl. split; constructor; done || lia. }
  destruct Hends. split_and!; [done..|]. intros x cr. by apply (iteration_replayed p zfo maximum st tn i next target after si so f spec res).
Qed.

(** ** The capacity pass *)
Record fused_counted (st : FusedState) : Prop := {
  fc_end : end_of (fs_segments st) = fs_specified st;
  fc_productive : (productive st <= length (fs_segments st))%nat;
}.

(** The input up to the last segment that paid out. *)
Definition fused_capacity (st : FusedState) : Z := end_of (take (productive st) (fs_segments st)).

Lemma fused_next_counted st target after so spec res t' liq' :
  fused_counted st -> (spec = 0 -> so = 0) ->
  let st' := fused_next st target after so spec res t' liq' in
  fused_counted st' /\
  fused_capacity st' = (if so =? 0 then fused_capacity st else fs_specified st + spec).
Proof.
  intros [He Hp] Hz. simpl. unfold fused_next, fused_capacity.
  set (push := if _ =? _ then _ else _). set (segs := fs_segments st ++ push).
  assert (Hend : end_of segs = fs_specified st + spec).
  { unfold segs, push. destruct (Z.eqb_spec (fs_specified st + spec) (fs_specified st)) as [E|].
    - by rewrite app_nil_r, E.
    - unfold end_of. by rewrite last_snoc. }
  assert (Hlen : (length (fs_segments st) <= length segs)%nat) by (unfold segs; rewrite length_app; lia).
  split; [constructor; simpl; [done|destruct (so =? 0); lia]|]. simpl.
  destruct (Z.eqb_spec so 0); [unfold segs; by rewrite take_app_le|].
  by rewrite take_ge by lia.
Qed.

Lemma fused_capacity_pass fuel p zfo maximum st st' :
  pool_typed p -> fused_typed zfo maximum st -> fused_counted st ->
  fused_loop fuel p zfo st = Ok st' ->
  exists out, exact_out_loop fuel p zfo
      (mkOut (fs_remaining st) (fs_specified st) (fused_capacity st) (fs_price st) (fs_tick st)
         (fs_liq st)) = Ok out /\
    out_capacity out = fused_capacity st' /\ fused_counted st'.
Proof.
  intros Hp. revert st. induction fuel as [|fuel IH]; intros st Ht Hc Hl; [done|].
  destruct (stopped zfo st) eqn:Hstop.
  { simpl in Hl |- *. unfold stopped in Hstop. rewrite Hstop in *. res_inv. by eexists. }
  destruct (fused_iter _ _ _ _ _ _ Hp Ht Hl Hstop)
    as (tn & i & next & target & after & si & so & f & spec & res & Hit & Hrest). clear Hl.
  destruct (iteration_facts _ _ _ _ _ _ _ _ _ _ _ _ _ Hit) as (Hspec & _ & ? & ? & Hso & _ & Hz & _).
  pose proof (it_specified _ _ _ _ _ _ _ _ _ _ _ _ _ Hit).
  destruct (exact_out_iter fuel p zfo (fs_remaining st) (fs_specified st) (fused_capacity st)
              (fs_price st) (fs_tick st) (fs_liq st) tn i next target after si so f)
    as (cap' & Hcap & ->); [apply Hit..|lia|lia|lia|].
  replace (fs_specified st + si + f) with (fs_specified st + spec) in * by lia.
  destruct (Z.eqb_spec after next) as [Heq|].
  - destruct Hrest as (t' & liq' & Hcross & Hl). rewrite Hcross. simpl.
    destruct (iteration_typed _ _ _ _ _ _ _ _ _ _ _ _ _ _ Hp Ht Hit _ _ Heq Hcross) as [Ht' _].
    destruct (fused_next_counted st target after so spec res t' liq' Hc Hz) as [Hc' Hcap'].
    destruct (IH _ Ht' Hc' Hl) as (out & Hout & ? & ?). exists out. split; [|done].
    rewrite Hcap, <- Hcap'. exact Hout.
  - subst st'. eexists. split; [done|]. simpl.
    destruct (fused_next_counted st target after so spec res (fs_tick st) (fs_liq st) Hc Hz)
      as [Hc' Hcap']. split; [|done]. by rewrite Hcap, <- Hcap'.
Qed.

Lemma fused_amounts_no_fuel price target liq fee inp so partial :
  fused_amounts price target liq fee inp so partial <> Err OutOfFuel.
Proof.
  unfold fused_amounts. destruct partial; [|done].
  apply rbind_no_fuel; [apply or_err_no_fuel|]. intros [[[a i] o] f] _.
  apply rbind_no_fuel; [apply or_err_no_fuel|done].
Qed.

Lemma fused_loop_total fuel p zfo maximum st :
  pool_typed p -> fused_typed zfo maximum st -> measure zfo (fs_tick st) < Z.of_nat fuel ->
  fused_loop fuel p zfo st <> Err OutOfFuel.
Proof.
  intros Hp. revert st. induction fuel as [|fuel IH]; intros st Ht Hm.
  { pose proof (measure_nonneg _ _ _ _ (ft_inside _ _ _ Ht)). lia. }
  pose proof Ht as [Hin Hrem Hres Hspec Hsum Hmax].
  simpl. destruct (_ || _ || _) eqn:Hstop; [done|]. bool_prop.
  apply rbind_no_fuel; [apply next_boundary_no_fuel|]. intros [[[tn i] next] target] Hn.
  unfold from_raw at 1. rewrite (proj2 (Z.ltb_lt (fs_remaining st) _)) by lia.
  destruct (any_step _ _ _ _ _ ExactOutput (fs_remaining st) _ _ _ _ Hp Hin ltac:(lia) Hn)
    as (after & si & so & f & Hstep & Hsi & Hso & Hf & Hle & Hland). simpl in Hstep.
  rewrite Hstep. simpl.
  apply rbind_no_fuel; [apply or_err_no_fuel|]. intros inp Hc. res_inv. checked_inv. subst.
  apply rbind_no_fuel; [by apply fused_amounts_no_fuel|]. intros [spec res] Hrec.
  apply rbind_no_fuel; [apply or_err_no_fuel|]. intros send Hc. res_inv. checked_inv. subst.
  apply rbind_no_fuel; [apply or_err_no_fuel|]. intros rend Hc. res_inv. checked_inv. subst.
  apply rbind_no_fuel; [apply or_err_no_fuel|]. intros rem Hc. res_inv. checked_inv. subst.
  destruct (Z.eqb_spec after next) as [Heq|]; simpl; [|done].
  apply rbind_no_fuel; [apply cross_boundary_no_fuel|]. intros [t' liq'] Hcross.
  destruct (Hland Heq) as [Htn Hat].
  destruct (cross_inside _ _ _ _ _ _ _ _ _ _ _ Hp Hin Hn Htn Hcross) as [Hin' Hlt].
  apply IH; [|simpl; lia].
  simpl in Hrec. injection Hrec as <- <-. constructor; simpl; try lia. by rewrite Hat.
Qed.

#[local] Opaque swap_fuel.

Lemma fused_start_typed p zfo maximum :
  head_inside p zfo -> 0 < maximum < 2 ^ 255 ->
  fused_typed zfo maximum (fused_start p maximum) /\ fused_counted (fused_start p maximum).
Proof. intros Hin Hm. split; constructor; simpl; done || lia. Qed.

(** A quote from a prefix of the segments is a quote from all of them. *)
Lemma seg_quote_take k fee s0 r0 segs n x :
  reaches x (take n segs) ->
  seg_quote k fee s0 r0 (take n segs) x = seg_quote k fee s0 r0 segs x.
Proof.
  unfold reaches. revert s0 r0 n. induction segs as [|s segs IH]; intros s0 r0 [|n] Hr; simpl in *;
    [done..|by apply Exists_nil in Hr|].
  destruct (Z.ltb_spec (specified_end s) x); [|done]. apply IH.
  apply Exists_cons in Hr as [?|?]; [lia|done].
Qed.

Lemma take_reaches x n segs : reaches x (take n segs) -> reaches x segs.
Proof.
  unfold reaches. intros Hr. rewrite <- (take_drop n segs). apply Exists_app. by left.
Qed.

(** The swap-loop quote of an input, from the loop it runs. *)
Lemma quote_in_loop p zfo x :
  0 < x < 2 ^ 255 ->
  quote_exact_in_amount_out p zfo x =
  (let? st := exact_in_loop swap_fuel p zfo false
                (mkIn x 0 (sqrt_price_x96 p) (tick p) (liquidity p) 0) in
   if negb (in_remaining st =? 0) then Err InsufficientLiquidity else Ok (in_out st)).
Proof.
  intros Hx. unfold quote_exact_in_amount_out, quote_exact_in_impl.
  rewrite (proj2 (Z.eqb_neq x 0)), (proj2 (Z.ltb_lt x _)) by lia. simpl rbind.
  destruct (exact_in_loop _ _ _ _ _) as [st|]; [|done]. simpl. by destruct (negb _).
Qed.

Lemma fused_quotes p zfo maximum c :
  pool_typed p -> head_inside p zfo -> 0 < maximum < 2 ^ 255 ->
  prepare_exact_input_curve_bounded_by_exact_output p zfo maximum = Ok c ->
  exact_output_result_capacity_bounded p zfo maximum = Ok (specified_capacity c) /\
  forall x, 0 < x <= specified_capacity c -> x < 2 ^ 255 ->
    exists r, curve_quote c x = Ok r /\
      (forall r', quote_exact_in_amount_out p zfo x = Ok r' -> r <= r') /\
      (x < specified_capacity c -> quote_exact_in_amount_out p zfo x = Ok r).
Proof.
  intros Hp Hin Hm. destruct (fused_start_typed p zfo maximum Hin Hm) as [Ht Hc].
  unfold prepare_exact_input_curve_bounded_by_exact_output, exact_output_result_capacity_bounded,
    quote_exact_out_amount_in_impl.
  rewrite (proj2 (Z.eqb_neq maximum 0)), (proj2 (Z.ltb_lt maximum _)) by lia. simpl rbind.
  intros Hprep. destruct (fused_loop swap_fuel p zfo (fused_start p maximum)) as [st|] eqn:Hl; [|done].
  simpl in Hprep. injection Hprep as <-.
  destruct (fused_capacity_pass _ _ _ _ _ _ Hp Ht Hc Hl) as (out & Hout & Hcap & _). simpl in Hout.
  assert (Hout0 : exact_out_loop swap_fuel p zfo
      (mkOut maximum 0 0 (sqrt_price_x96 p) (tick p) (liquidity p)) = Ok out) by exact Hout.
  rewrite Hout0. simpl. split; [by rewrite Hcap|]. intros x Hx Hx255.
  destruct (fused_replay _ _ _ _ _ _ Hp Ht Hl) as (rest & Hseg & _ & Hs & Hrep). simpl in Hseg.
  set (c := mkCurve _ _ _) in *.
  assert (Hsc : StronglySorted Z.lt (specified_end <$> segments c)).
  { simpl. rewrite Hseg, fmap_take.
    rewrite <- (take_drop (productive st) (specified_end <$> rest)) in Hs.
    by apply StronglySorted_app_1_l in Hs. }
  assert (Hr : reaches x (segments c)) by (apply reaches_capacity; [done|lia|lia]).
  pose proof Hr as Hr'. simpl in Hr'. rewrite Hseg in Hr'.
  destruct (Hrep x 0 ltac:(simpl; lia) (take_reaches _ _ _ Hr')) as (r & Hq & Hle & Heq). simpl in Hq.
  exists r. rewrite curve_quote_seg by lia. simpl. rewrite Hseg, seg_quote_take by done.
  split; [exact Hq|]. rewrite quote_in_loop by lia. simpl in Hle, Heq. rewrite Z.sub_0_r in Hle, Heq.
  split.
  - intros r' Hr''. destruct (exact_in_loop _ _ _ _ _) as [st'|]; [|done]. simpl in Hr''.
    destruct (Hle st' eq_refl) as [Hrem ?]. rewrite Hrem in Hr''. injection Hr'' as <-. done.
  - intros Hlt. destruct Heq as (st' & -> & Hrem & <-); [|simpl; by rewrite Hrem].
    unfold specified_capacity in Hlt. simpl in Hlt. rewrite Hseg in Hlt.
    rewrite <- (take_drop (productive st) rest), Exists_app. left.
    destruct (last (take (productive st) rest)) as [s|] eqn:El; [|lia].
    apply Exists_exists. exists s. split; [by apply last_Some_elem_of|done].
Qed.

(** C22. the one-pass curve builder never runs out of its iteration bound; the
    curve it returns ends exactly at the input capacity that the separate
    exact-output pass computes; every input strictly below that capacity is
    quoted, with exactly the swap loop's output; the capacity itself is quoted,
    never above the swap loop's output, though it can be below it
    ([fused_capacity_understates]). *)
Theorem fused_curve_exact p zfo maximum :
  pool_typed p -> head_inside p zfo -> 0 < maximum < 2 ^ 255 ->
  prepare_exact_input_curve_bounded_by_exact_output p zfo maximum <> Err OutOfFuel /\
  forall c, prepare_exact_input_curve_bounded_by_exact_output p zfo maximum = Ok c ->
    exact_output_result_capacity_bounded p zfo maximum = Ok (specified_capacity c) /\
    forall x, 0 < x <= specified_capacity c -> x < 2 ^ 255 ->
      exists r, curve_quote c x = Ok r /\
        (forall r', quote_exact_in_amount_out p zfo x = Ok r' -> r <= r') /\
        (x < specified_capacity c -> quote_exact_in_amount_out p zfo x = Ok r).
Proof.
  intros Hp Hin Hm. split; [|by intros c; apply fused_quotes].
  destruct (fused_start_typed p zfo maximum Hin Hm) as [Ht Hc].
  unfold prepare_exact_input_curve_bounded_by_exact_output.
  rewrite (proj2 (Z.eqb_neq maximum 0)), (proj2 (Z.ltb_lt maximum _)) by lia. simpl rbind.
  apply rbind_no_fuel; [|done]. eapply fused_loop_total; [exact Hp|exact Ht|].
  destruct Hin as (_ & ? & _). rewrite swap_fuel_value. simpl. unfold measure. destruct zfo; lia.
Qed.
End laws.

(** ** Witness *)
Definition deep_fused : PreparedQuoteCurve :=
  match prepare_exact_input_curve_bounded_by_exact_output deep_pool true (10 ^ 45) with
  | Ok c => c
  | Err _ => mkCurve ExactInput 0 []
  end.

Lemma fused_curve_exact_witness :
  exact_output_result_capacity_bounded deep_pool true (10 ^ 45) = Ok (specified_capacity deep_fused) /\
  exists r, curve_quote deep_fused 800000 = Ok r /\ quote_exact_in_amount_out deep_pool true 800000 = Ok r.
Proof.
  assert (Hc : prepare_exact_input_curve_bounded_by_exact_output deep_pool true (10 ^ 45) = Ok deep_fused)
    by (vm_compute; reflexivity).
  assert (Hlt : (800000 <? specified_capacity deep_fused) = true) by (vm_compute; reflexivity).
  apply Z.ltb_lt in Hlt.
  destruct (fused_curve_exact deep_pool true (10 ^ 45) deep_typed (deep_inside true)
              (conj eq_refl eq_refl)) as [_ Hw].
  destruct (Hw deep_fused Hc) as [Hcap Hq]. split; [exact Hcap|].
  destruct (Hq 800000 (conj eq_refl (Z.lt_le_incl _ _ Hlt)) eq_refl) as (r & H1 & _ & H2).
  exists r. split; [exact H1|exact (H2 Hlt)].
Defined.

(** The output the first full step gives, less one: the exact-output step still
    lands on the boundary, because the price grid of so deep a pool is coarser than
    a unit of output, so it counts as a full step with the smaller output. *)
Definition shy_maximum : Z := 51974058437259666512394265800734411793476126.
Definition shy_fused : PreparedQuoteCurve :=
  match prepare_exact_input_curve_bounded_by_exact_output deep_pool true shy_maximum with
  | Ok c => c
  | Err _ => mkCurve ExactInput 0 []
  end.

(** At its capacity the one-pass curve can quote less than the swap loop, which
    is what the two-pass construction quotes. *)
Theorem fused_capacity_understates :
  pool_typed deep_pool /\ head_inside deep_pool true /\
  exists c r r',
    prepare_exact_input_curve_bounded_by_exact_output deep_pool true shy_maximum = Ok c /\
    curve_quote c (specified_capacity c) = Ok r /\
    quote_exact_in_amount_out deep_pool true (specified_capacity c) = Ok r' /\ r < r'.
Proof.
  split; [apply deep_typed|]. split; [apply deep_inside|].
  exists shy_fused, shy_maximum, (shy_maximum + 1). split_and!; vm_compute; reflexivity.
Qed.
