(* ===== verification/CurveFacts.v ===== *)
(** * Sound curves ([src/src/dex/clmm.rs])

    What every client of a prepared curve relies on, whichever builder made it: the
    segments carry valid step arguments, quotes are not negative, and an amount
    past the capacity is insufficient liquidity. *)
From Stdlib Require Import Lia Sorted.
From stdpp Require Import base gmap strings numbers list option sorting.
From S2P Require Import Prelude Clmm ClmmTicks ClmmCurve ClmmFused.

Section facts.
Context `{UniswapV3Laws}.

Record segment_sound (fee : Z) (s : PreparedQuoteSegment) : Prop := {
  ss_args : step_args (sqrt_price_start s) (sqrt_price_target s) (seg_liquidity s) fee;
  ss_ends : 0 <= specified_end s /\ 0 <= result_end s;
}.

Record curve_sound (c : PreparedQuoteCurve) : Prop := {
  cs_segments : Forall (segment_sound (curve_fee_pips c)) (segments c);
  cs_sorted : StronglySorted Z.lt (specified_end <$> segments c);
}.

(** Any step with valid arguments yields amounts of the right sign. *)
Lemma step_nonneg price target liq fee k a after si so f :
  step_args price target liq fee -> 0 < a < 2 ^ 255 ->
  compute_swap_step price target liq (signed k a) fee = Some (after, si, so, f) ->
  0 <= si /\ 0 <= so /\ 0 <= f.
Proof.
  intros Hargs Ha Hs. destruct (swap_step_capacity _ _ _ _ Hargs) as (ci & co & cf & _ & _ & _ & _ & _ & _ & HI & HO).
  destruct k; simpl in Hs.
  - destruct (HI a ltac:(lia)) as (? & ? & ? & ? & E & _ & ? & ? & ? & _). rewrite E in Hs. by simplify_eq.
  - destruct (HO a ltac:(lia)) as (? & ? & ? & ? & E & _ & ? & ? & ? & _). rewrite E in Hs. by simplify_eq.
Qed.

Lemma seg_quote_nonneg k fee s0 r0 segs x r :
  Forall (segment_sound fee) segs -> s0 < x < 2 ^ 255 -> 0 <= s0 -> 0 <= r0 ->
  seg_quote k fee s0 r0 segs x = Ok r -> 0 <= r.
Proof.
  intros Hs. revert s0 r0. induction Hs as [|seg rest [Hargs [Hend Hres]] _ IH]; intros s0 r0 Hx Hs0 Hr0 Hq; [done|].
  simpl in Hq. destruct (Z.ltb_spec (specified_end seg) x) as [Hlt|Hge].
  - by eapply IH; [| | |exact Hq]; lia.
  - destruct (x =? specified_end seg); [by injection Hq as <-|]. res_inv. checked_inv. subst.
    destruct x1 as [[[after si] so] f]. res_inv.
    match goal with E : compute_swap_step _ _ _ _ _ = Some _ |- _ =>
      apply step_nonneg in E as (? & ? & ?); [|done|lia] end.
    destruct k; res_inv; checked_inv; lia.
Qed.

Lemma curve_nonneg c x r : curve_sound c -> 0 <= x -> curve_quote c x = Ok r -> 0 <= r.
Proof.
  intros [Hs _] Hx Hq. assert (x <> 0 /\ x < 2 ^ 255) as [? ?].
  { unfold curve_quote in Hq. res_inv. bool_prop. done. }
  rewrite curve_quote_seg in Hq by done. by eapply seg_quote_nonneg in Hq; [| |lia..].
Qed.

Lemma curve_beyond c x :
  curve_sound c -> 0 < x < 2 ^ 255 -> specified_capacity c < x -> curve_quote c x = Err InsufficientLiquidity.
Proof.
  intros [_ Hs] Hx Hgt. rewrite curve_quote_seg by lia. apply seg_quote_beyond.
  rewrite reaches_capacity by (done || lia). lia.
Qed.

(** ** The two builders make sound curves *)
Lemma build_segments_sound fuel p zfo k maximum st segs :
  pool_typed p -> inside zfo (b_price st) (b_tick st) (b_liq st) ->
  build_loop fuel p zfo k maximum st = Ok segs -> maximum < 2 ^ 255 ->
  0 <= specified_total st -> 0 <= result_total st ->
  Forall (segment_sound (fee_pips_for_direction p zfo)) segs.
Proof.
  intros Hp. revert st segs. induction fuel as [|fuel IH]; intros st segs Hin Hb Hmax Hsp Hr; [done|].
  destruct (decide (segs = [])) as [->|Hne]; [constructor|].
  destruct (build_iter _ _ _ _ _ _ _ Hb Hne)
    as (Hlt & _ & _ & tn & i & next & target & after & si & so & f & send & rend & rest &
        Hn & Hstep & Hends & _ & _ & -> & Hrest). injection Hends as -> ->.
  destruct (boundary_step _ _ _ _ _ _ _ _ _ Hp Hin Hn) as (Hargs & _).
  destruct (any_step _ _ _ _ _ k (maximum - specified_total st) _ _ _ _ Hp Hin ltac:(lia) Hn)
    as (after' & ? & ? & ? & Hstep' & ? & ? & ? & _ & Hland).
  rewrite Hstep in Hstep'. symmetry in Hstep'. simplify_eq.
  assert (Hinc : 0 <= (oriented k (si + f) so).1 /\ 0 <= (oriented k (si + f) so).2)
    by (destruct k; simpl; lia).
  apply Forall_app. split.
  - destruct (_ =? specified_total st); [by apply Forall_nil|]. apply Forall_singleton. split; simpl; [done|lia].
  - destruct (Z.eqb_spec after next) as [Heq|]; [|subst rest; constructor].
    destruct (Hland Heq) as [Htn ->]. destruct Hrest as (t' & liq' & Hc & Hbr).
    destruct (cross_inside _ _ _ _ _ _ _ _ _ _ _ Hp Hin Hn Htn Hc) as [Hin' _].
    eapply IH; [|exact Hbr|..]; simpl; done || lia.
Qed.

Lemma prepared_sound p zfo k maximum c :
  pool_typed p -> head_inside p zfo -> prepare_quote_curve p zfo k maximum = Ok c -> curve_sound c.
Proof.
  intros Hp Hin Hc. destruct (prepare_inv _ _ _ _ _ Hp Hin Hc) as (Hmax & _ & Hfee & Hb & Hs).
  split; [|done]. rewrite Hfee. by eapply build_segments_sound; [..|exact Hb| | |]; simpl; done || lia.
Qed.

Lemma fused_segments_sound fuel p zfo maximum st st' :
  pool_typed p -> fused_typed zfo maximum st -> fused_loop fuel p zfo st = Ok st' ->
  Forall (segment_sound (fee_pips_for_direction p zfo)) (fs_segments st) ->
  Forall (segment_sound (fee_pips_for_direction p zfo)) (fs_segments st').
Proof.
  intros Hp. revert st. induction fuel as [|fuel IH]; intros st Ht Hl Hs; [done|].
  destruct (stopped zfo st) eqn:Hstop.
  { simpl in Hl. unfold stopped in Hstop. rewrite Hstop in Hl. by res_inv. }
  destruct (fused_iter _ _ _ _ _ _ Hp Ht Hl Hstop)
    as (tn & i & next & target & after & si & so & f & spec & res & Hit & Hrest). clear Hl.
  destruct (iteration_facts _ _ _ _ _ _ _ _ _ _ _ _ _ Hit) as (-> & _ & ? & ? & ? & ? & _).
  pose proof (ft_result _ _ _ Ht). pose proof (ft_specified _ _ _ Ht).
  assert (Hnext : forall t' liq', Forall (segment_sound (fee_pips_for_direction p zfo))
            (fs_segments (fused_next st target after so (si + f) res t' liq'))).
  { intros t' liq'. simpl. apply Forall_app. split; [done|]. destruct (_ =? fs_specified st); [by apply Forall_nil|].
    apply Forall_singleton. split; simpl; [by destruct Hit|lia]. }
  destruct (Z.eqb_spec after next) as [Heq|]; [|subst st'; apply Hnext].
  destruct Hrest as (t' & liq' & Hc & Hl).
  destruct (iteration_typed _ _ _ _ _ _ _ _ _ _ _ _ _ _ Hp Ht Hit _ _ Heq Hc) as [Ht' _].
  by eapply IH.
Qed.

Lemma fused_sound p zfo maximum c :
  pool_typed p -> head_inside p zfo -> 0 <= maximum ->
  prepare_exact_input_curve_bounded_by_exact_output p zfo maximum = Ok c -> curve_sound c.
Proof.
  intros Hp Hin Hpos Hc. unfold prepare_exact_input_curve_bounded_by_exact_output in Hc. res_inv. bool_prop.
  assert (Hm : 0 < maximum < 2 ^ 255) by lia.
  destruct (fused_start_typed p zfo maximum Hin Hm) as [Ht _]. split; simpl.
  - apply Forall_take. eapply fused_segments_sound; [done|exact Ht|exact Hok1|by apply Forall_nil].
  - destruct (fused_replay _ _ _ _ _ _ Hp Ht Hok1) as (rest & Hseg & _ & Hs & _). simpl in Hseg. rewrite Hseg, fmap_take.
    rewrite <- (take_drop (productive x1) (specified_end <$> rest)) in Hs. by apply StronglySorted_app_1_l in Hs.
Qed.
End facts.
