(* ===== verification/LineLog.v ===== *)
(** * Append-only line files

    The journals of the program are files of one JSON record per line, read
    back with [read_until(b'\n')] and extended by one write of a whole line.
    This file holds what they share: how bytes split into lines, and how an
    append and a torn append change what a replay of the file sees, for any
    step that consumes one line. *)
From Stdlib Require Import Lia.
From stdpp Require Import base numbers list.
From S2P Require Import Prelude.

(** [read_until(b'\n')] until the end of the file: the lines with their line
    feeds, the last one without if the file does not end with one. *)
Fixpoint split_lines (bs : list Z) : list (list Z) :=
  match bs with
  | [] => []
  | b :: bs' =>
      if b =? 10 then [b] :: split_lines bs'
      else match split_lines bs' with
           | [] => [[b]]
           | l :: ls => (b :: l) :: ls
           end
  end.

(** ** Splitting and appending *)
Definition closed (bs : list Z) : Prop := bs = [] \/ last bs = Some 10.

Lemma closed_tail b bs : closed (b :: bs) -> bs = [] /\ b = 10 \/ bs <> [] /\ closed bs.
Proof.
  intros [?|Hl]; [done|]. destruct bs as [|c bs]; [left; simpl in Hl; naive_solver|].
  right. split; [done|]. by right.
Qed.

Lemma split_lines_nonempty bs : bs <> [] -> split_lines bs <> [].
Proof. destruct bs as [|b bs]; [done|]. simpl. destruct (b =? 10), (split_lines bs); done. Qed.

Lemma split_lines_app a b : closed a -> split_lines (a ++ b) = split_lines a ++ split_lines b.
Proof.
  induction a as [|x a IH]; intros Hc; [done|]. simpl.
  destruct (closed_tail _ _ Hc) as [[-> ->]|[Hne Hc']]; [done|]. rewrite (IH Hc').
  destruct (x =? 10); [done|]. pose proof (split_lines_nonempty a Hne).
  by destruct (split_lines a).
Qed.

Lemma split_lines_partial t : t <> [] -> (10 ∉ t) -> split_lines t = [t].
Proof.
  induction t as [|b t IH]; [done|]. intros _ Hn. apply not_elem_of_cons in Hn as [Hb Hn]. simpl.
  rewrite (proj2 (Z.eqb_neq _ _)) by congruence. destruct t as [|c t]; [done|].
  by rewrite IH.
Qed.

Lemma split_lines_line body : (10 ∉ body) -> split_lines (body ++ [10]) = [body ++ [10]].
Proof.
  induction body as [|b body IH]; [done|]. intros Hn. apply not_elem_of_cons in Hn as [Hb Hn].
  simpl. rewrite (proj2 (Z.eqb_neq _ _)) by congruence. by rewrite IH.
Qed.

Lemma concat_split_lines bs : concat (split_lines bs) = bs.
Proof.
  induction bs as [|b bs IH]; [done|]. simpl. destruct (b =? 10); simpl; [by rewrite IH|].
  destruct (split_lines bs) as [|l ls]; simpl in *; by rewrite <- IH.
Qed.

Lemma concat_closed ls : Forall (fun l => last l = Some 10) ls -> closed (concat ls).
Proof.
  induction ls as [|l ls IH] using rev_ind; [by left|]. intros Hf.
  apply Forall_app in Hf as [_ Hf]. apply Forall_cons in Hf as [Hl _].
  right. rewrite concat_app. simpl. rewrite app_nil_r, last_app, Hl. done.
Qed.


Lemma not_elem_take (b : Z) k l : b ∉ l -> b ∉ take k l.
Proof. intros Hl (n & Hn & _)%elem_of_take. apply Hl. by eapply list_elem_of_lookup_2. Qed.

(** ** Replay *)
Section replay.
Context {E St : Type} (step : St -> list Z -> result E St).

Fixpoint replay_lines (lines : list (list Z)) (st : St) : result E St :=
  match lines with
  | [] => Ok st
  | l :: ls => let? st' := step st l in replay_lines ls st'
  end.

Lemma replay_lines_app l1 l2 st :
  replay_lines (l1 ++ l2) st = rbind (replay_lines l1 st) (replay_lines l2).
Proof.
  revert st. induction l1 as [|l l1 IH]; intros st; [done|]. simpl.
  destruct (step st l); [apply IH|done].
Qed.

(** A property every accepted line keeps. *)
Lemma replay_lines_ind (P : St -> Prop) lines st st' :
  (forall st l st', P st -> step st l = Ok st' -> P st') ->
  P st -> replay_lines lines st = Ok st' -> P st'.
Proof.
  intros Hstep. revert st. induction lines as [|l ls IH]; intros st Hp Hr; simpl in Hr; res_inv; [done|].
  eauto.
Qed.

(** Bytes that replay to a state. *)
Definition replays (bs : list Z) (st0 st : St) : Prop :=
  closed bs /\ replay_lines (split_lines bs) st0 = Ok st.

Context (Hclosed : forall st l st', step st l = Ok st' -> last l = Some 10).

Lemma replay_lines_replays bs st0 st :
  replay_lines (split_lines bs) st0 = Ok st -> replays bs st0 st.
Proof.
  intros Hr. split; [|done]. rewrite <- (concat_split_lines bs). apply concat_closed.
  revert st0 Hr. induction (split_lines bs) as [|l ls IH]; intros st0 Hr; simpl in Hr; res_inv; [done|].
  constructor; eauto.
Qed.

(** A whole line appended to the file is one more step. *)
Lemma replays_append bs st0 st body st' :
  replays bs st0 st -> (10 ∉ body) -> step st (body ++ [10]) = Ok st' ->
  replays (bs ++ body ++ [10]) st0 st'.
Proof.
  intros [Hc Hr] Hnl Hs. split; [right; by rewrite app_assoc, last_snoc|].
  rewrite split_lines_app, split_lines_line, replay_lines_app, Hr by done. simpl. by rewrite Hs.
Qed.

(** A line cut short is one step on its fragment. *)
Lemma replays_torn bs st0 st body k :
  replays bs st0 st -> (10 ∉ body) -> (0 < k <= length body)%nat ->
  replay_lines (split_lines (bs ++ take k (body ++ [10]))) st0 =
  rbind (step st (take k body)) Ok.
Proof.
  intros [Hc Hr] Hnl Hk. rewrite take_app_le by lia.
  rewrite split_lines_app, replay_lines_app, Hr by done. simpl.
  rewrite split_lines_partial; [simpl; by destruct (step _ _)| |by apply not_elem_take].
  destruct body, k; simpl in *; try lia; done.
Qed.
End replay.
