(* ===== verification/ExecutionPlan.v ===== *)
(** * DEX execution plans ([src/src/execution_plan.rs], [src/src/dex/pool_id.rs])

    The immutable description of the on-chain leg that a trade intent carries:
    its route, its tokens and amounts, its validation, and the swap request it
    turns into ([src/src/dex/execution.rs]).  Text forms of addresses and
    hashes and Keccak-256 are the interface [EvmText]. *)
From Stdlib Require Import Lia.
From stdpp Require Import base strings numbers list.
From S2P Require Import Prelude.

Abbreviation TRes := (result string).

(** ** Third-party text forms and hashing *)
Class EvmText := {
  address_from_str : string -> option Z;
  b256_from_str : string -> option Z;
  keccak256 : list Z -> Z;
}.

(** ** Uniswap V4 pool keys *)
Record V4PoolKey := mkV4Key {
  currency0 : Z; currency1 : Z; key_fee_pips : Z; key_tick_spacing : Z; key_hooks : Z;
}.
#[global] Instance V4PoolKey_eq_dec : EqDecision V4PoolKey.
Proof. solve_decision. Defined.

Definition new_v4_key (a b fee spacing hooks : Z) : TRes V4PoolKey :=
  ensure! negb (a =? b) else "pool currencies must differ" ;;
  ensure! fee <? 1000000 else "static fee must be below 1_000_000 pips" ;;
  ensure! 0 <? spacing else "tick spacing must be positive" ;;
  let '(c0, c1) := if a <? b then (a, b) else (b, a) in
  Ok (mkV4Key c0 c1 fee spacing hooks).

(** The [n] lowest bytes of [x], highest first; two's complement for a
    negative [x]. *)
Fixpoint be_bytes (n : nat) (x : Z) : list Z :=
  match n with
  | O => []
  | S m => be_bytes m (x / 256) ++ [x mod 256]
  end.

(** [abi.encode] of the key: five 32-byte words. *)
Definition v4_key_bytes (k : V4PoolKey) : list Z :=
  repeat 0 12 ++ be_bytes 20 (currency0 k)
  ++ repeat 0 12 ++ be_bytes 20 (currency1 k)
  ++ repeat 0 29 ++ be_bytes 3 (key_fee_pips k)
  ++ repeat (if key_tick_spacing k <? 0 then 255 else 0) 29 ++ be_bytes 3 (key_tick_spacing k)
  ++ repeat 0 12 ++ be_bytes 20 (key_hooks k).

(** ** Plans *)
Inductive DexRoutePlan :=
| UniswapV3 (router pool_address : string) (fee_pips : Z)
| PancakeSwapV3 (router pool_address : string) (fee_pips : Z)
| CamelotV3 (router pool_address : string) (pool_generation fee_generation : Z)
    (fee_zto_current_pips fee_otz_current_pips fee_zto_envelope_pips fee_otz_envelope_pips : Z)
    (fee_horizon_first_unix_seconds fee_horizon_last_unix_seconds : Z)
| LynexAlgebraV1_9 (router pool_address : string) (pool_generation fee_generation : Z)
    (fee_current_pips fee_envelope_pips : Z)
    (fee_horizon_first_unix_seconds fee_horizon_last_unix_seconds : Z)
| UniswapV4 (router pool_id currency0 currency1 : string) (fee_pips tick_spacing : Z)
    (hooks : string).
#[global] Instance DexRoutePlan_eq_dec : EqDecision DexRoutePlan.
Proof. solve_decision. Defined.

Record DexSwapPlan := mkDexPlan {
  route : DexRoutePlan;
  token_in : string;
  token_out : string;
  amount_in_base_units : Z;
  amount_out_minimum_base_units : Z;
  deadline_unix_seconds : Z;
}.
#[global] Instance DexSwapPlan_eq_dec : EqDecision DexSwapPlan.
Proof. solve_decision. Defined.

Inductive SwapRoute :=
| SUniswapV3 (router pool fee_pips : Z)
| SPancakeSwapV3 (router pool fee_pips : Z)
| SCamelotV3 (router pool : Z)
| SLynexAlgebraV1_9 (router pool : Z)
| SV4 (router : Z) (pool_key : V4PoolKey).

Inductive SwapSubmissionPolicy := SimulateAndEstimate | Immediate.

Record ExactInputSwapRequest := mkSwapRequest {
  rq_operation_id : string;
  rq_route : SwapRoute;
  rq_token_in : Z;
  rq_token_out : Z;
  rq_amount_in : Z;
  rq_amount_out_minimum : Z;
  rq_quoted_gas : option Z;
  rq_additional_gas : Z;
  rq_deadline_unix_seconds : Z;
  rq_confirmation_timeout_ms : Z;
  rq_submission_policy : SwapSubmissionPolicy;
  rq_reconciliation_only : bool;
}.

Section plans.
Context `{EvmText}.

Definition pool_id (k : V4PoolKey) : Z := keccak256 (v4_key_bytes k).

Definition parse_hooks_address (value : string) : TRes Z :=
  or_err (address_from_str value) "invalid address".
Definition parse_address (value : string) : TRes Z :=
  let? a := or_err (address_from_str value) "invalid address" in
  ensure! negb (a =? 0) else "address is zero" ;;
  Ok a.

(** The deadline lies inside the fee horizon of an adaptive-fee route. *)
Definition check_horizon (first last deadline : Z) : TRes unit :=
  ensure! first <=? last else "DEX plan fee horizon is reversed" ;;
  ensure! (first <=? deadline) && (deadline <=? last)
    else "DEX plan deadline is outside its fee horizon" ;;
  Ok tt.

Definition validate_route (r : DexRoutePlan) (deadline tin tout : Z) : TRes unit :=
  match r with
  | UniswapV3 router pool fee | PancakeSwapV3 router pool fee =>
      let? _ := parse_address router in
      let? _ := parse_address pool in
      ensure! 0 <? fee else "DEX plan V3 fee is zero" ;;
      Ok tt
  | CamelotV3 router pool pg fg zc oc ze oe first last =>
      let? _ := parse_address router in
      let? _ := parse_address pool in
      ensure! 0 <? pg else "DEX plan Camelot pool generation is zero" ;;
      ensure! 0 <? fg else "DEX plan Camelot fee generation is zero" ;;
      ensure! (zc <=? ze) && (oc <=? oe) else "DEX plan Camelot envelope is below its current fee" ;;
      check_horizon first last deadline
  | LynexAlgebraV1_9 router pool pg fg cur env first last =>
      let? _ := parse_address router in
      let? _ := parse_address pool in
      ensure! 0 <? pg else "DEX plan Lynex pool generation is zero" ;;
      ensure! 0 <? fg else "DEX plan Lynex fee generation is zero" ;;
      ensure! cur <=? env else "DEX plan Lynex envelope is below its current fee" ;;
      check_horizon first last deadline
  | UniswapV4 router id c0 c1 fee spacing hooks =>
      let? _ := parse_address router in
      let? expected := or_err (b256_from_str id) "invalid DEX plan V4 pool id" in
      let? a0 := parse_address c0 in
      let? a1 := parse_address c1 in
      let? h := parse_hooks_address hooks in
      let? key := new_v4_key a0 a1 fee spacing h in
      ensure! pool_id key =? expected else "DEX plan V4 pool id mismatch" ;;
      ensure! ((tin =? currency0 key) && (tout =? currency1 key))
              || ((tin =? currency1 key) && (tout =? currency0 key))
        else "DEX plan V4 tokens differ from pool key" ;;
      Ok tt
  end.

Definition validate_plan (p : DexSwapPlan) : TRes unit :=
  ensure! 0 <? amount_in_base_units p else "DEX plan input is zero" ;;
  ensure! 0 <? amount_out_minimum_base_units p else "DEX plan minimum output is zero" ;;
  ensure! 0 <? deadline_unix_seconds p else "DEX plan deadline is zero" ;;
  let? tin := parse_address (token_in p) in
  let? tout := parse_address (token_out p) in
  ensure! negb (tin =? tout) else "DEX plan tokens are identical" ;;
  validate_route (route p) (deadline_unix_seconds p) tin tout.

(** ** The swap request of a plan *)
Definition MAX_GAS_LIMIT : Z := 5000000.

Definition swap_operation_byte (c : Ascii.ascii) : bool :=
  is_ascii_alphanumeric c || byte_is 95 c || byte_is 45 c || byte_is 46 c.

Definition swap_router (r : SwapRoute) : Z :=
  match r with
  | SUniswapV3 a _ _ | SPancakeSwapV3 a _ _ | SCamelotV3 a _ | SLynexAlgebraV1_9 a _ | SV4 a _ => a
  end.

Definition validate_request (q : ExactInputSwapRequest) : TRes unit :=
  ensure! negb (str_is_empty (rq_operation_id q)) && (str_len (rq_operation_id q) <=? 120)
          && bytes_all swap_operation_byte (rq_operation_id q)
    else "DEX operation id contains invalid characters" ;;
  ensure! negb (swap_router (rq_route q) =? 0) else "Uniswap router is zero" ;;
  ensure! negb (rq_token_in q =? 0) else "DEX input token is zero" ;;
  ensure! negb (rq_token_out q =? 0) else "DEX output token is zero" ;;
  ensure! negb (rq_token_in q =? rq_token_out q) else "DEX tokens are identical" ;;
  ensure! negb (rq_amount_in q =? 0) else "DEX input amount is zero" ;;
  ensure! negb (rq_amount_out_minimum q =? 0) else "DEX minimum output amount is zero" ;;
  ensure! rq_additional_gas q <=? MAX_GAS_LIMIT else "additional DEX gas exceeds safety cap" ;;
  ensure! negb (rq_confirmation_timeout_ms q =? 0) else "DEX confirmation timeout is zero" ;;
  match rq_route q with
  | SUniswapV3 _ pool fee | SPancakeSwapV3 _ pool fee =>
      ensure! negb (pool =? 0) else "V3 pool is zero" ;;
      ensure! (0 <? fee) && (fee <=? 16777215) else "invalid V3 fee" ;;
      Ok tt
  | SCamelotV3 _ pool => ensure! negb (pool =? 0) else "Camelot V3 pool is zero" ;; Ok tt
  | SLynexAlgebraV1_9 _ pool =>
      ensure! negb (pool =? 0) else "Lynex Algebra V1.9 pool is zero" ;; Ok tt
  | SV4 _ key =>
      ensure! currency0 key <? currency1 key else "V4 pool key is unsorted" ;;
      ensure! ((rq_token_in q =? currency0 key) && (rq_token_out q =? currency1 key))
              || ((rq_token_in q =? currency1 key) && (rq_token_out q =? currency0 key))
        else "V4 route tokens do not match its pool key" ;;
      Ok tt
  end.

Definition plan_swap_route (r : DexRoutePlan) : TRes SwapRoute :=
  match r with
  | UniswapV3 router pool fee =>
      let? a := parse_address router in let? b := parse_address pool in Ok (SUniswapV3 a b fee)
  | PancakeSwapV3 router pool fee =>
      let? a := parse_address router in let? b := parse_address pool in Ok (SPancakeSwapV3 a b fee)
  | CamelotV3 router pool _ _ _ _ _ _ _ _ =>
      let? a := parse_address router in let? b := parse_address pool in Ok (SCamelotV3 a b)
  | LynexAlgebraV1_9 router pool _ _ _ _ _ _ =>
      let? a := parse_address router in let? b := parse_address pool in Ok (SLynexAlgebraV1_9 a b)
  | UniswapV4 router _ c0 c1 fee spacing hooks =>
      let? a := parse_address router in
      let? a0 := parse_address c0 in
      let? a1 := parse_address c1 in
      let? h := parse_hooks_address hooks in
      let? key := new_v4_key a0 a1 fee spacing h in
      Ok (SV4 a key)
  end.

(** [with_rails_defaults], then the five-second timeout and immediate
    submission of a planned swap. *)
Definition execution_request (p : DexSwapPlan) (operation_id : string) : TRes ExactInputSwapRequest :=
  let? _ := validate_plan p in
  let? r := plan_swap_route (route p) in
  let? tin := parse_address (token_in p) in
  let? tout := parse_address (token_out p) in
  let q := mkSwapRequest operation_id r tin tout (amount_in_base_units p)
             (amount_out_minimum_base_units p) None 0 (deadline_unix_seconds p) 5000 Immediate false in
  let? _ := validate_request q in
  Ok q.
End plans.
