(* ===== verification/AdaptiveFee.v ===== *)
(** * The adaptive fee of Algebra pools ([src/src/dex/camelot_fee.rs])

    The fee a pool charges as a function of its volatility and of its volume per
    liquidity: a sum of two sigmoids, damped by a third, over a truncated
    exponential series; and the volume a swap contributes, with its fixed seven
    Newton iterations.  256-bit operators of the source wrap. *)
From Stdlib Require Import Lia.
From stdpp Require Import base strings numbers list option.
From S2P Require Import Prelude ExecutionPlan.

Record AdaptiveFeeConfiguration := mkFeeConfig {
  alpha1 : Z; alpha2 : Z;
  beta1 : Z; beta2 : Z;
  gamma1 : Z; gamma2 : Z;
  volume_beta : Z; volume_gamma : Z;
  base_fee : Z;
}.

Definition U16_MAX : Z := 2 ^ 16 - 1.
Definition wrap (w x : Z) : Z := x mod 2 ^ w.

Definition validate_fee_config (c : AdaptiveFeeConfiguration) : TRes unit :=
  ensure! alpha1 c + alpha2 c + base_fee c <=? U16_MAX else "Camelot adaptive fee maximum exceeds uint16" ;;
  ensure! negb (gamma1 c =? 0) && negb (gamma2 c =? 0) && negb (volume_gamma c =? 0)
    else "Camelot adaptive fee gamma is zero" ;;
  Ok tt.

Definition power_eight (value : Z) : TRes Z :=
  let? squared := or_err (checked_mul 256 value value) "Camelot gamma square overflow" in
  let? fourth := or_err (checked_mul 256 squared squared) "Camelot gamma fourth power overflow" in
  or_err (checked_mul 256 fourth fourth) "Camelot gamma eighth power overflow".

(** The loop over the divisors; [(x_power, result)] after it. *)
Fixpoint exp_terms (divisors : list Z) (x gamma x_power gamma_power result : Z) : TRes (Z * Z) :=
  match divisors with
  | [] => Ok (x_power, result)
  | divisor :: rest =>
      let gamma_power := gamma_power / gamma in
      let? term := or_err (checked_mul 256 x_power gamma_power) "Camelot exponential term overflow" in
      let? result := or_err (checked_add 256 result (term / divisor)) "Camelot exponential sum overflow" in
      let? x_power := or_err (checked_mul 256 x_power x) "Camelot exponential power overflow" in
      exp_terms rest x gamma x_power gamma_power result
  end.

Definition exp_divisors : list Z := [1; 2; 6; 24; 120; 720].

Definition exp_series (x gamma gamma_eighth : Z) : TRes Z :=
  let? '(seventh, result) := exp_terms exp_divisors x gamma x gamma_eighth gamma_eighth in
  let? eighth := or_err (checked_mul 256 seventh x) "Camelot exponential eighth power overflow" in
  let? term := or_err (checked_mul 256 seventh gamma) "Camelot exponential seventh term overflow" in
  let? result := or_err (checked_add 256 result (term / 5040)) "Camelot exponential sum overflow" in
  or_err (checked_add 256 result (eighth / 40320)) "Camelot exponential sum overflow".

Definition sigmoid (x gamma alpha beta : Z) : TRes Z :=
  ensure! negb (gamma =? 0) else "Camelot sigmoid gamma is zero" ;;
  let six_gamma := wrap 256 (gamma * 6) in
  let? gamma_eighth := power_eight gamma in
  if beta <? x then
    let shifted := x - beta in
    if six_gamma <=? shifted then Ok alpha else
    let? exponent := exp_series shifted gamma gamma_eighth in
    Ok (wrap 256 (alpha * exponent) / wrap 256 (gamma_eighth + exponent))
  else
    let shifted := beta - x in
    if six_gamma <=? shifted then Ok 0 else
    let? e := exp_series shifted gamma gamma_eighth in
    let? denominator := or_err (checked_add 256 gamma_eighth e) "Camelot sigmoid denominator overflow" in
    Ok (wrap 256 (alpha * gamma_eighth) / denominator).

Definition u16_try_from (x : Z) : option Z := if x <=? U16_MAX then Some x else None.

(** [AdaptiveFeeConfiguration::fee]. *)
Definition adaptive_fee (c : AdaptiveFeeConfiguration) (volatility volume_per_liquidity : Z) : TRes Z :=
  let? _ := validate_fee_config c in
  let? first := sigmoid volatility (gamma1 c) (alpha1 c) (beta1 c) in
  let? second := sigmoid volatility (gamma2 c) (alpha2 c) (beta2 c) in
  let? sum := or_err (checked_add 256 first second) "Camelot sigmoid sum overflow" in
  let? sum := or_err (u16_try_from (Z.min sum U16_MAX)) "Camelot sigmoid sum does not fit uint16" in
  let? variable := sigmoid volume_per_liquidity (volume_gamma c) sum (volume_beta c) in
  let? variable := or_err (u16_try_from variable) "Camelot volume sigmoid does not fit uint16" in
  or_err (checked_add 16 (base_fee c) variable) "Camelot adaptive fee overflow".

(** ** Volume per liquidity *)

(** The power-of-two seed: shifts of the value and of the root. *)
Definition sqrt_seed_shifts : list (Z * Z) := [(128, 64); (64, 32); (32, 16); (16, 8); (8, 4); (4, 2); (3, 1)].
Definition seed_step (st : Z * Z) (shift : Z * Z) : Z * Z :=
  let '(reduced, root) := st in let '(threshold_bits, root_bits) := shift in
  if 2 ^ threshold_bits <=? reduced
  then (Z.shiftr reduced threshold_bits, wrap 256 (Z.shiftl root root_bits)) else (reduced, root).
Definition sqrt_seed (value : Z) : Z := (fold_left seed_step sqrt_seed_shifts (value, 1)).2.

Definition newton_step (value root : Z) : Z := Z.shiftr (wrap 256 (root + value / root)) 1.

Definition integer_sqrt (value : Z) : Z :=
  if value =? 0 then 0 else
  let root := Nat.iter 7 (newton_step value) (sqrt_seed value) in
  Z.min root (value / root).

(** [signed_abs] of a 256-bit two's complement integer. *)
Definition signed_abs (value : Z) : Z := Z.abs value.

Definition VOLUME_CAP : Z := Z.shiftl 100000 64.

(** The 256-bit branch. *)
Definition wide_volume (liquidity absolute0 absolute1 : Z) : Z :=
  let product := wrap 256 (integer_sqrt absolute0 * integer_sqrt absolute1) in
  let value := if 2 ^ 192 <=? product then U256_MAX / liquidity
               else wrap 256 (Z.shiftl product 64) / liquidity in
  Z.min value VOLUME_CAP.

(** The 128-bit branch uses the standard library's exact [isqrt]. *)
Definition calculate_volume_per_liquidity_nonzero (liquidity amount0 amount1 : Z) : Z :=
  let absolute0 := signed_abs amount0 in
  let absolute1 := signed_abs amount1 in
  if (absolute0 <? 2 ^ 128) && (absolute1 <? 2 ^ 128) then
    let product := wrap 128 (Z.sqrt absolute0 * Z.sqrt absolute1) in
    if product <=? U64_MAX
    then Z.min (wrap 128 (Z.shiftl product 64) / liquidity) VOLUME_CAP
    else wide_volume liquidity absolute0 absolute1
  else wide_volume liquidity absolute0 absolute1.

Definition calculate_volume_per_liquidity (liquidity amount0 amount1 : Z) : TRes Z :=
  ensure! negb (liquidity =? 0) else "Camelot volume liquidity is zero" ;;
  Ok (calculate_volume_per_liquidity_nonzero liquidity amount0 amount1).

(** ** The fixed iterations compute the exact root *)
Lemma newton_lower v x : 0 <= v -> 0 < x -> Z.sqrt v <= (x + v / x) / 2.
Proof.
  intros Hv Hx. pose proof (Z.sqrt_spec v Hv) as [Hs _]. set (s := Z.sqrt v) in *.
  apply Z.div_le_lower_bound; [lia|]. destruct (Z.le_gt_cases (2 * s) (x + v / x)) as [|Hlt]; [done|exfalso].
  pose proof (Z.div_mod v x ltac:(lia)). pose proof (Z.mod_pos_bound v x Hx).
  assert (x * (v / x) <= x * (2 * s - 1 - x)) by (apply Z.mul_le_mono_nonneg_l; lia).
  pose proof (Z.square_nonneg (s - x)). lia.
Qed.

Lemma newton_upper v x : 0 <= v -> 0 < x -> 2 * x * ((x + v / x) / 2) <= x * x + v.
Proof.
  intros Hv Hx. pose proof (Z.mul_div_le (x + v / x) 2 ltac:(lia)). pose proof (Z.mul_div_le v x Hx). nia.
Qed.

(** The excess over the root after a step, from the excess before it. *)
Lemma newton_excess v x :
  0 < v -> Z.sqrt v <= x ->
  let s := Z.sqrt v in let d := x - s in let d' := (x + v / x) / 2 - s in
  0 <= d' /\ 2 * (s + d) * d' <= d * d + 2 * s.
Proof.
  intros Hv Hx s d d'. pose proof (Z.sqrt_spec v ltac:(lia)) as [Hs1 Hs2]. fold s in Hs1, Hs2, Hx.
  assert (0 < s) by (apply Z.sqrt_pos; lia).
  pose proof (newton_lower v x ltac:(lia) ltac:(lia)) as Hl. pose proof (newton_upper v x ltac:(lia) ltac:(lia)) as Hu.
  fold s in Hl. unfold d, d'. set (x' := (x + v / x) / 2) in *. split; [lia|]. nia.
Qed.

(** Quadratic contraction of the relative excess. *)
Lemma contract s d d' c a :
  0 < s -> 0 <= d -> 0 <= d' -> 0 < c -> 0 <= a -> c * d <= s + c * a -> 2 * a <= c -> a * a <= s ->
  2 * s * d' <= d * d + 2 * s -> 2 * c * c * d' <= s + 2 * c * c * 2.
Proof.
  intros Hs Hd Hd' Hc Ha Hcd Hac Has Hstep.
  assert (Hsq : (c * d) * (c * d) <= (s + c * a) * (s + c * a)) by (apply Z.mul_le_mono_nonneg; lia).
  assert (Hm : c * c * (2 * s * d') <= c * c * (d * d) + c * c * (2 * s)) by nia.
  assert (Hx : 2 * c * a * s <= c * c * s) by nia.
  assert (Hy : c * c * (a * a) <= c * c * s) by nia.
  apply (Z.mul_le_mono_pos_l _ _ s Hs). nia.
Qed.

Lemma seed_halving v b r reduced root :
  0 <= r -> root = 2 ^ r -> reduced = v / 2 ^ (2 * r) -> 0 < reduced < 2 ^ (4 * b) -> 0 < b -> r + b <= 128 ->
  exists r' reduced' root', seed_step (reduced, root) (2 * b, b) = (reduced', root') /\
    0 <= r' <= r + b /\ root' = 2 ^ r' /\ reduced' = v / 2 ^ (2 * r') /\ 0 < reduced' < 2 ^ (2 * b).
Proof.
  intros Hr -> -> Hb Hb0 Hrb. unfold seed_step. destruct (Z.leb_spec (2 ^ (2 * b)) (v / 2 ^ (2 * r))) as [Hge|Hlt].
  - exists (r + b). do 2 eexists. split; [done|]. split; [lia|].
    rewrite Z.shiftl_mul_pow2, Z.shiftr_div_pow2 by lia. rewrite Z.div_div by (try apply Z.pow_nonzero; lia || apply Z.pow_pos_nonneg; lia).
    rewrite <- !Z.pow_add_r by lia. replace (2 * r + 2 * b) with (2 * (r + b)) by lia.
    assert (Hlt : 2 ^ (r + b) < 2 ^ 256) by (apply Z.pow_lt_mono_r; lia).
    split; [unfold wrap; rewrite Z.mod_small; [done|split; [apply Z.pow_nonneg; lia|done]]|]. split; [done|].
    replace (2 * (r + b)) with (2 * r + 2 * b) by lia. rewrite Z.pow_add_r by lia. rewrite <- Z.div_div by (try apply Z.pow_nonzero; lia || apply Z.pow_pos_nonneg; lia).
    split; [apply Z.div_str_pos; split; [apply Z.pow_pos_nonneg; lia|done]|].
    apply Z.div_lt_upper_bound; [apply Z.pow_pos_nonneg; lia|]. rewrite <- Z.pow_add_r by lia.
    replace (2 * b + 2 * b) with (4 * b) by lia. lia.
  - exists r. do 2 eexists. split; [done|]. split_and!; done || lia.
Qed.

(** The shifts but the last halve the number of bits left, from [4 * 2^n] to 4. *)
Fixpoint halvings (n : nat) : list (Z * Z) :=
  match n with O => [] | S m => (2 * 2 ^ Z.of_nat n, 2 ^ Z.of_nat n) :: halvings m end.

Lemma halvings_spec v n r reduced root :
  0 <= r -> root = 2 ^ r -> reduced = v / 2 ^ (2 * r) -> 0 < reduced < 2 ^ (4 * 2 ^ Z.of_nat n) ->
  r + 2 * 2 ^ Z.of_nat n <= 128 ->
  exists r' reduced' root', fold_left seed_step (halvings n) (reduced, root) = (reduced', root') /\
    0 <= r' <= 126 /\ root' = 2 ^ r' /\ reduced' = v / 2 ^ (2 * r') /\ 0 < reduced' < 16.
Proof.
  revert r reduced root. induction n as [|n IH]; intros r reduced root Hr Hroot Hred Hb Hrb.
  - exists r, reduced, root. simpl in *. split_and!; done || lia.
  - set (b := 2 ^ Z.of_nat (S n)) in *. assert (Hbn : b = 2 * 2 ^ Z.of_nat n).
    { unfold b. rewrite Nat2Z.inj_succ, Z.pow_succ_r by lia. done. }
    assert (0 < 2 ^ Z.of_nat n) by (apply Z.pow_pos_nonneg; lia).
    destruct (seed_halving v b r reduced root) as (r1 & v1 & g1 & E & Hr1 & Hg1 & Hv1 & Hb1); [lia|done|done|done|lia|lia|].
    cbn [halvings fold_left]. fold b. rewrite E.
    apply (IH r1); [lia|done|done| |lia]. by replace (4 * 2 ^ Z.of_nat n) with (2 * b) by lia.
Qed.

(** The seed is a power of two within a factor [sqrt 8] below the root. *)
Lemma sqrt_seed_spec v :
  0 < v < 2 ^ 256 -> let g := sqrt_seed v in 0 < g < 2 ^ 128 /\ g * g <= v < 8 * (g * g).
Proof.
  intros Hv. cbv zeta. unfold sqrt_seed. change sqrt_seed_shifts with (halvings 6 ++ [(3, 1)]).
  rewrite fold_left_app.
  destruct (halvings_spec v 6 0 v 1) as (r6 & v6 & g6 & -> & Hr6 & Hg6 & Hv6 & Hb6);
    [done|done|by rewrite Z.mul_0_r, Z.pow_0_r, Z.div_1_r|done|done|].
  assert (Hp : 0 < 2 ^ (2 * r6)) by (apply Z.pow_pos_nonneg; lia).
  assert (Hgg : g6 * g6 = 2 ^ (2 * r6)) by (rewrite Hg6, <- Z.pow_add_r by lia; f_equal; lia).
  assert (Hg : 0 < g6 < 2 ^ 127).
  { rewrite Hg6. split; [apply Z.pow_pos_nonneg; lia|apply Z.pow_lt_mono_r; lia]. }
  pose proof (Z.div_mod v (2 ^ (2 * r6)) ltac:(lia)). pose proof (Z.mod_pos_bound v (2 ^ (2 * r6)) Hp).
  rewrite <- Hv6, <- Hgg in *. cbn [fold_left]. unfold seed_step.
  destruct (Z.leb_spec (2 ^ 3) v6) as [Hge|Hlt]; simpl in *.
  - rewrite Z.shiftl_mul_pow2 by lia. unfold wrap. change (2 ^ 1) with 2.
    rewrite Z.mod_small by lia. split; [lia|]. nia.
  - split; [lia|]. nia.
Qed.

Lemma newton_step_plain v x : 0 <= v < 2 ^ 256 -> 2 <= x < 2 ^ 255 -> newton_step v x = (x + v / x) / 2.
Proof.
  intros Hv Hx. unfold newton_step, wrap. rewrite Z.shiftr_div_pow2 by lia.
  assert (0 <= v / x <= 2 ^ 255 - 1); [|by rewrite Z.mod_small by lia].
  split; [apply Z.div_pos; lia|]. apply Z.lt_le_pred, Z.div_lt_upper_bound; [lia|]. nia.
Qed.

Section large.
Context (v : Z) (Hv : 1024 <= v < 2 ^ 256).

Lemma root_bounds : 32 <= Z.sqrt v < 2 ^ 128 /\ Z.sqrt v * Z.sqrt v <= v <= Z.sqrt v * Z.sqrt v + 2 * Z.sqrt v.
Proof.
  pose proof (Z.sqrt_spec v ltac:(lia)) as [H1 H2]. split; [|lia]. split.
  - change 32 with (Z.sqrt 1024). apply Z.sqrt_le_mono. lia.
  - apply Z.sqrt_lt_square; lia.
Qed.

(** One step from at least the root, as a statement on the excess. *)
Lemma excess_step x :
  Z.sqrt v <= x < 2 ^ 255 ->
  exists x', newton_step v x = x' /\ 0 <= x' - Z.sqrt v /\
    2 * (Z.sqrt v + (x - Z.sqrt v)) * (x' - Z.sqrt v) <= (x - Z.sqrt v) * (x - Z.sqrt v) + 2 * Z.sqrt v.
Proof.
  intros Hx. destruct root_bounds as [Hs _]. rewrite newton_step_plain by lia.
  destruct (newton_excess v x ltac:(lia) ltac:(lia)) as [H1 H2]. eauto.
Qed.

Lemma first_step : exists x, newton_step v (sqrt_seed v) = x /\
  0 <= x - Z.sqrt v /\ 1000 * (x - Z.sqrt v) <= 592 * Z.sqrt v + 3000.
Proof.
  destruct root_bounds as [Hs Hsq]. set (s := Z.sqrt v) in *.
  destruct (sqrt_seed_spec v ltac:(lia)) as [Hg Hgg]. set (g := sqrt_seed v) in *.
  assert (Hgs : g <= s) by nia. assert (Hs8 : s * s < 8 * (g * g)) by lia.
  assert (Hratio : 3535 * s < 10000 * g) by nia.
  rewrite newton_step_plain by lia. eexists. split; [done|].
  pose proof (newton_lower v g ltac:(lia) ltac:(lia)) as Hl. pose proof (newton_upper v g ltac:(lia) ltac:(lia)) as Hu.
  fold s in Hl. set (x := (g + v / g) / 2) in *. split; [lia|].
  (* between the two ends the sum of squares is at most a multiple of the product *)
  assert (Hconv : 35350000 * (g * g + s * s) <= 112496225 * (g * s)).
  { assert (0 <= (10000 * g - 3535 * s) * (10000 * s - 3535 * g)) by (apply Z.mul_nonneg_nonneg; lia). lia. }
  assert (H2 : 35350000 * (2 * g * x) <= 112496225 * (g * s) + 35350000 * (2 * s)) by nia.
  assert (H3 : 2 * s <= 6 * g) by lia.
  assert (H4 : 35350000 * (2 * x) <= 112496225 * s + 35350000 * 6) by nia. lia.
Qed.

(** Two steps reach the quadratic regime: for large roots with a close ratio,
    for small ones with a coarser one that is enough. *)
Lemma second_step d d' s :
  256 <= s -> 0 <= d -> 0 <= d' -> 1000 * d <= 603 * s -> 2 * (s + d) * d' <= d * d + 2 * s -> 17 * d' <= 2 * s.
Proof.
  intros Hs Hd Hd' Hb Hstep. destruct (Z.le_gt_cases (17 * d') (2 * s)) as [|Hlt]; [done|exfalso].
  assert (2 * (s + d) * (2 * s) < 17 * (d * d + 2 * s)) by nia.
  assert (1000 * (17 * (d * d)) <= 17 * 603 * (s * d)) by nia.
  assert (4 * s * 1000 + 4 * 1000 * d < 10251 * d + 34 * 1000) by nia. lia.
Qed.

Lemma iter_seven {A} (f : A -> A) a : Nat.iter 7 f a = f (f (f (f (f (f (f a)))))).
Proof. reflexivity. Qed.

Lemma crude_step s d d' : 0 <= d -> 0 <= d' -> 2 * (s + d) * d' <= d * d + 2 * s -> 2 * s * d' <= d * d + 2 * s.
Proof. intros Hd Hd'. pose proof (Z.mul_nonneg_nonneg d d' Hd Hd'). lia. Qed.

Lemma ratio_step p q d d' s :
  0 < s -> 0 <= d -> 0 <= d' -> 0 < p -> 0 < q -> p * d <= q * s -> 2 * s * d' <= d * d + 2 * s ->
  2 * p * p * d' <= q * q * s + 2 * p * p.
Proof.
  intros Hs Hd Hd' Hp Hq Hb Hstep.
  assert ((p * d) * (p * d) <= (q * s) * (q * s)) by (apply Z.mul_le_mono_nonneg; lia).
  apply (Z.mul_le_mono_pos_l _ _ s Hs).
  assert (p * p * (2 * s * d') <= p * p * (d * d + 2 * s)) by (apply Z.mul_le_mono_nonneg_l; nia). lia.
Qed.

Lemma third_step d1 d2 d3 s :
  32 <= s -> 0 <= d1 -> 0 <= d2 -> 0 <= d3 -> 1000 * d1 <= 592 * s + 3000 ->
  2 * (s + d1) * d2 <= d1 * d1 + 2 * s -> 2 * (s + d2) * d3 <= d2 * d2 + 2 * s ->
  28 * d3 <= s + 28 * 2 /\ (300 <= s -> 144 * d3 <= s + 144 * 2).
Proof.
  intros Hs H1 H2 H3 B1 B2 B3. split.
  - pose proof (ratio_step 1000 686 d1 d2 s ltac:(lia) H1 H2 ltac:(lia) ltac:(lia) ltac:(lia) (crude_step _ _ _ H1 H2 B2)).
    pose proof (ratio_step 1000 267 d2 d3 s ltac:(lia) H2 H3 ltac:(lia) ltac:(lia) ltac:(lia) (crude_step _ _ _ H2 H3 B3)). lia.
  - intros Hl. pose proof (second_step d1 d2 s ltac:(lia) H1 H2 ltac:(lia) B2).
    pose proof (ratio_step 17 2 d2 d3 s ltac:(lia) H2 H3 ltac:(lia) ltac:(lia) ltac:(lia) (crude_step _ _ _ H2 H3 B3)). lia.
Qed.

Lemma crude_bound s d d' : 32 <= s -> 0 <= d <= s -> 0 <= d' -> 2 * (s + d) * d' <= d * d + 2 * s -> d' <= s.
Proof.
  intros Hs Hd Hd' Hstep. pose proof (crude_step s d d' ltac:(lia) Hd' Hstep) as Hc.
  assert (d * d <= s * s) by (apply Z.mul_le_mono_nonneg; lia).
  assert (2 * d' <= s + 2); [|lia]. apply (Z.mul_le_mono_pos_l _ _ s); lia.
Qed.

(** Three more contractions. *)
Lemma sixth_excess c d3 d4 d5 d6 s :
  32 <= s -> 28 <= c -> 0 <= d3 -> 0 <= d4 -> 0 <= d5 -> 0 <= d6 -> c * d3 <= s + c * 2 ->
  2 * (s + d3) * d4 <= d3 * d3 + 2 * s -> 2 * (s + d4) * d5 <= d4 * d4 + 2 * s ->
  2 * (s + d5) * d6 <= d5 * d5 + 2 * s ->
  let c4 := 2 * c * c in let c5 := 2 * c4 * c4 in let c6 := 2 * c5 * c5 in c6 * d6 <= s + c6 * 2.
Proof.
  intros Hs Hc H3 H4 H5 H6 B B4 B5 B6 c4 c5 c6.
  assert (Hc4 : 28 <= c4) by (unfold c4; nia). assert (Hc5 : 28 <= c5) by (unfold c5; nia).
  apply (contract s d5 d6 c5 2); try lia. apply (contract s d4 d5 c4 2); try lia. apply (contract s d3 d4 c 2); lia.
Qed.

Lemma small_excess c d s :
  0 < c -> 32 <= s -> 0 <= d -> s * 6 <= c * c * 5 -> 96 <= c -> c * d <= s + c * 2 -> d * d <= s + 2 * d.
Proof.
  intros Hc Hs Hd Hsc Hc16 Hb.
  assert ((c * d) * (c * d) <= (s + c * 2) * (s + c * 2)) by (apply Z.mul_le_mono_nonneg; lia).
  pose proof (Z.mul_le_mono_nonneg_r _ _ s ltac:(lia) Hsc) as H1.
  pose proof (Z.mul_le_mono_nonneg_r _ _ (c * s) ltac:(nia) Hc16) as H2.
  pose proof (Z.mul_le_mono_nonneg_r _ _ (c * c) ltac:(nia) Hs) as H3.
  apply Z.nlt_ge. intros Hgt.
  assert (Hm : c * c * (s + 2 * d) < c * c * (d * d)) by (apply Z.mul_lt_mono_pos_l; [nia|done]).
  pose proof (Z.mul_nonneg_nonneg (c * c) d ltac:(nia) Hd). lia.
Qed.

(** After seven steps the iterate is the root, or one more when the value is
    past the middle of the two squares. *)
Lemma newton_converges :
  let s := Z.sqrt v in let x := Nat.iter 7 (newton_step v) (sqrt_seed v) in
  s <= x <= s + 1 /\ (x = s + 1 -> s * s + s <= v).
Proof.
  intros s x. destruct root_bounds as [Hs Hsq]. fold s in Hs, Hsq.
  destruct first_step as (x1 & E1 & L1 & B1). fold s in L1, B1.
  destruct (excess_step x1) as (x2 & E2 & L2 & B2); [fold s; lia|]. fold s in L2, B2.
  pose proof (crude_step _ _ _ L1 L2 B2) as K2.
  pose proof (ratio_step 1000 686 _ _ s ltac:(lia) L1 L2 ltac:(lia) ltac:(lia) ltac:(lia) K2).
  destruct (excess_step x2) as (x3 & E3 & L3 & B3); [fold s; lia|]. fold s in L3, B3.
  destruct (third_step _ _ _ s (proj1 Hs) L1 L2 L3 B1 B2 B3) as [C3 C3'].
  destruct (excess_step x3) as (x4 & E4 & L4 & B4); [fold s; lia|]. fold s in L4, B4.
  assert (Hb4 : x4 - s <= s) by (apply (crude_bound s (x3 - s)); [lia|lia|done|done]).
  destruct (excess_step x4) as (x5 & E5 & L5 & B5); [fold s; lia|]. fold s in L5, B5.
  assert (Hb5 : x5 - s <= s) by (apply (crude_bound s (x4 - s)); [lia|lia|done|done]).
  destruct (excess_step x5) as (x6 & E6 & L6 & B6); [fold s; lia|]. fold s in L6, B6.
  assert (Hx : x = newton_step v x6) by (unfold x; rewrite iter_seven, E1, E2, E3, E4, E5, E6; reflexivity).
  set (d := x6 - s) in *. assert (Hd : d * d <= s + 2 * d).
  { destruct (Z.lt_ge_cases s (2 ^ 80)) as [Hsm|Hlg].
    - pose proof (sixth_excess 28 _ _ _ _ s (proj1 Hs) ltac:(lia) L3 L4 L5 L6 C3 B4 B5 B6) as B7. simpl in B7.
      eapply small_excess; [..|exact B7]; lia.
    - specialize (C3' ltac:(lia)).
      pose proof (sixth_excess 144 _ _ _ _ s (proj1 Hs) ltac:(lia) L3 L4 L5 L6 C3' B4 B5 B6) as B7. simpl in B7.
      eapply small_excess; [..|exact B7]; lia. }
  clear - Hv Hs Hsq L6 Hd Hx d. assert (Hxd : x6 = s + d) by (unfold d; lia).
  assert (d <= s) by nia.
  rewrite newton_step_plain in Hx by lia.
  pose proof (newton_lower v x6 ltac:(lia) ltac:(lia)) as Hl. pose proof (newton_upper v x6 ltac:(lia) ltac:(lia)) as Hu.
  fold s in Hl. rewrite <- Hx in Hl, Hu. rewrite Hxd in Hu.
  split; [split; [done|]|].
  - apply Z.nlt_ge. intros Hgt. nia.
  - intros ->. apply Z.nlt_ge. intros Hlt. nia.
Qed.
End large.

Fixpoint exact_from (n : nat) (v : Z) : bool :=
  match n with O => true | S m => (integer_sqrt v =? Z.sqrt v) && exact_from m (v + 1) end.

Lemma exact_from_spec n v x : exact_from n v = true -> v <= x < v + Z.of_nat n -> integer_sqrt x = Z.sqrt x.
Proof.
  revert v. induction n as [|n IH]; intros v Hn Hx; simpl in Hn; [lia|]. bool_prop.
  destruct (Z.eq_dec x v) as [->|]; [done|]. eapply IH; [done|lia].
Qed.

Lemma small_roots : exact_from 1024 0 = true.
Proof. vm_compute. reflexivity. Qed.

Lemma integer_sqrt_exact v : 0 <= v < 2 ^ 256 -> integer_sqrt v = Z.sqrt v.
Proof.
  intros Hv. destruct (Z.lt_ge_cases v 1024) as [Hlt|Hge].
  - apply (exact_from_spec _ 0 v small_roots). lia.
  - unfold integer_sqrt. rewrite (proj2 (Z.eqb_neq v 0)) by lia.
    destruct (newton_converges v ltac:(lia)) as [Hx Hmid]. destruct (root_bounds v ltac:(lia)) as [Hs Hsq].
    set (s := Z.sqrt v) in *. set (x := Nat.iter 7 _ _) in *.
    assert (x = s \/ x = s + 1) as [E|E] by lia; rewrite E in *.
    + apply Z.min_l, Z.div_le_lower_bound; lia.
    + specialize (Hmid eq_refl). assert (v / (s + 1) = s) as ->; [|lia].
      symmetry. apply Z.div_unique with (r := v - (s + 1) * s); lia.
Qed.

(** ** The volume of a swap: the same formula on every branch *)
Definition volume_formula (liquidity amount0 amount1 : Z) : Z :=
  Z.min (Z.sqrt (Z.abs amount0) * Z.sqrt (Z.abs amount1) * 2 ^ 64 / liquidity) VOLUME_CAP.

Lemma sqrt_half w a : 0 <= w -> 0 <= a < 2 ^ (2 * w) -> 0 <= Z.sqrt a < 2 ^ w.
Proof.
  intros Hw Ha. split; [apply Z.sqrt_nonneg|]. apply Z.sqrt_lt_square; [lia|lia|].
  rewrite <- Z.pow_add_r by lia. replace (w + w) with (2 * w) by lia. lia.
Qed.

Lemma wide_volume_exact liquidity a0 a1 :
  0 < liquidity < 2 ^ 128 -> 0 <= a0 < 2 ^ 256 -> 0 <= a1 < 2 ^ 256 ->
  wide_volume liquidity a0 a1 = Z.min (Z.sqrt a0 * Z.sqrt a1 * 2 ^ 64 / liquidity) VOLUME_CAP.
Proof.
  intros Hl H0 H1. unfold wide_volume. rewrite !integer_sqrt_exact by done.
  pose proof (sqrt_half 128 a0 ltac:(lia) H0) as Hs0. pose proof (sqrt_half 128 a1 ltac:(lia) H1) as Hs1.
  set (p := Z.sqrt a0 * Z.sqrt a1). assert (Hp : 0 <= p < 2 ^ 256) by (unfold p; nia).
  unfold wrap at 1 2 3. rewrite (Z.mod_small p) by lia.
  destruct (Z.leb_spec (2 ^ 192) p) as [Hbig|Hsmall].
  - assert (Hcap : forall n, 2 ^ 255 <= n -> VOLUME_CAP <= n / liquidity).
    { intros n Hn. apply Z.div_le_lower_bound; [lia|]. change VOLUME_CAP with (100000 * 2 ^ 64). nia. }
    rewrite (Z.min_r _ _ (Hcap U256_MAX ltac:(done))), (Z.min_r _ _ (Hcap (p * 2 ^ 64) ltac:(lia))). done.
  - rewrite Z.shiftl_mul_pow2 by lia. unfold wrap. rewrite Z.mod_small by lia. done.
Qed.

(** The volume per liquidity of a swap is the floor of the product of the
    two integer roots, scaled by 2^64, over the liquidity, cut at the cap,
    whichever of the 128-bit fast path, the 256-bit path and its saturated
    branch computes it: the seven fixed Newton iterations from a power of two
    reach the exact root of every 256-bit amount, no product or shift wraps,
    and saturating only replaces quotients the cap would have cut. *)
Theorem volume_paths_agree liquidity amount0 amount1 :
  0 <= liquidity < 2 ^ 128 -> - 2 ^ 255 <= amount0 < 2 ^ 255 -> - 2 ^ 255 <= amount1 < 2 ^ 255 ->
  calculate_volume_per_liquidity liquidity amount0 amount1 =
    (if liquidity =? 0 then Err "Camelot volume liquidity is zero" else Ok (volume_formula liquidity amount0 amount1))
  /\ integer_sqrt (Z.abs amount0) = Z.sqrt (Z.abs amount0)
  /\ 0 <= volume_formula liquidity amount0 amount1 < 2 ^ 128.
Proof.
  intros Hl H0 H1. split; [|split; [apply integer_sqrt_exact; lia|]].
  2:{ unfold volume_formula. split; [|change VOLUME_CAP with (100000 * 2 ^ 64); lia].
      apply Z.min_glb; [|done]. destruct (Z.eq_dec liquidity 0) as [->|]; [by rewrite Z.div_0_r|].
      apply Z.div_pos; [|lia]. pose proof (Z.sqrt_nonneg (Z.abs amount0)). pose proof (Z.sqrt_nonneg (Z.abs amount1)). nia. }
  unfold calculate_volume_per_liquidity. destruct (Z.eqb_spec liquidity 0) as [->|Hn]; simpl; [done|]. f_equal.
  unfold calculate_volume_per_liquidity_nonzero, signed_abs, volume_formula.
  pose proof (wide_volume_exact liquidity (Z.abs amount0) (Z.abs amount1) ltac:(lia) ltac:(lia) ltac:(lia)) as Hwide.
  destruct (Z.ltb_spec (Z.abs amount0) (2 ^ 128)) as [Hs0|]; simpl; [|exact Hwide].
  destruct (Z.ltb_spec (Z.abs amount1) (2 ^ 128)) as [Hs1|]; simpl; [|exact Hwide].
  pose proof (sqrt_half 64 (Z.abs amount0) ltac:(lia) ltac:(lia)) as R0.
  pose proof (sqrt_half 64 (Z.abs amount1) ltac:(lia) ltac:(lia)) as R1.
  set (p := Z.sqrt (Z.abs amount0) * Z.sqrt (Z.abs amount1)).
  assert (Hp : 0 <= p < 2 ^ 128) by (unfold p; nia).
  unfold wrap. rewrite !(Z.mod_small p) by lia. destruct (Z.leb_spec p U64_MAX) as [Hq|]; [|exact Hwide].
  unfold U64_MAX in Hq. rewrite Z.shiftl_mul_pow2 by lia. rewrite Z.mod_small by lia. done.
Qed.

Lemma volume_paths_agree_witness :
  calculate_volume_per_liquidity 7 (-(2 ^ 200)) (2 ^ 60 + 1) = Ok VOLUME_CAP /\
  calculate_volume_per_liquidity (2 ^ 100) (-(2 ^ 200)) 1000003 = Ok (2 ^ 100 * 1000 * 2 ^ 64 / 2 ^ 100).
Proof.
  split.
  - rewrite (proj1 (volume_paths_agree 7 (-(2 ^ 200)) (2 ^ 60 + 1) ltac:(lia) ltac:(lia) ltac:(lia))).
    vm_compute. reflexivity.
  - rewrite (proj1 (volume_paths_agree (2 ^ 100) (-(2 ^ 200)) 1000003 ltac:(lia) ltac:(lia) ltac:(lia))).
    vm_compute. reflexivity.
Defined.

(** ** The truncated series and the sigmoid, without the checked operations *)
Fixpoint exp_sum (divisors : list Z) (x gamma : Z) (k m : nat) : Z :=
  match divisors with
  | [] => 0
  | d :: rest => x ^ Z.of_nat k * gamma ^ Z.of_nat (m - 1) / d + exp_sum rest x gamma (S k) (m - 1)
  end.

Definition exp_value (x gamma : Z) : Z :=
  gamma ^ 8 + exp_sum exp_divisors x gamma 1 8 + x ^ 7 * gamma / 5040 + x ^ 8 / 40320.

Definition sigmoid_value (x gamma alpha beta : Z) : Z :=
  if beta <? x then
    if 6 * gamma <=? x - beta then alpha
    else alpha * exp_value (x - beta) gamma / (gamma ^ 8 + exp_value (x - beta) gamma)
  else if 6 * gamma <=? beta - x then 0
    else alpha * gamma ^ 8 / (gamma ^ 8 + exp_value (beta - x) gamma).

Lemma powers_bounded x g i j :
  0 <= x < 2 ^ 19 -> 0 < g < 2 ^ 16 -> 0 <= i -> 0 <= j -> i + j <= 9 -> 0 <= x ^ i * g ^ j <= 2 ^ 171.
Proof.
  intros Hx Hg Hi Hj Hij. split; [apply Z.mul_nonneg_nonneg; apply Z.pow_nonneg; lia|].
  apply Z.le_trans with ((2 ^ 19) ^ i * (2 ^ 19) ^ j).
  - apply Z.mul_le_mono_nonneg; [apply Z.pow_nonneg; lia|apply Z.pow_le_mono_l; lia|apply Z.pow_nonneg; lia|apply Z.pow_le_mono_l; lia].
  - rewrite <- Z.pow_add_r, <- Z.pow_mul_r by lia. apply Z.pow_le_mono_r; lia.
Qed.

Lemma checked_mul_ok a b : a * b < 2 ^ 256 -> checked_mul 256 a b = Some (a * b).
Proof. intros H. by apply checked_mul_Some. Qed.
Lemma checked_add_ok a b : a + b < 2 ^ 256 -> checked_add 256 a b = Some (a + b).
Proof. intros H. by apply checked_add_Some. Qed.

Lemma div_within a b d : 0 < d -> 0 <= a <= b -> 0 <= a / d <= b.
Proof. intros Hd Ha. split; [apply Z.div_pos; lia|]. apply Z.div_le_upper_bound; nia. Qed.

Section series.
Context (x g : Z) (Hx : 0 <= x < 2 ^ 19) (Hg : 0 < g < 2 ^ 16).

Lemma exp_sum_bounds ds k m :
  Forall (fun d => 0 < d) ds -> (length ds <= m)%nat -> (k + m <= 9)%nat ->
  0 <= exp_sum ds x g k m <= Z.of_nat (length ds) * 2 ^ 171.
Proof.
  intros Hds. revert k m. induction Hds as [|d ds Hd Hds IH]; intros k m Hm Hkm; simpl exp_sum; [simpl; lia|].
  change (length (d :: ds)) with (S (length ds)) in *. specialize (IH (S k) (m - 1)%nat ltac:(lia) ltac:(lia)).
  pose proof (powers_bounded x g (Z.of_nat k) (Z.of_nat (m - 1)) Hx Hg ltac:(lia) ltac:(lia) ltac:(lia)) as HP.
  pose proof (div_within _ _ d Hd HP).
  rewrite Nat2Z.inj_succ. lia.
Qed.

Lemma exp_terms_spec ds k m r :
  Forall (fun d => 0 < d) ds -> (length ds <= m)%nat -> (k + m <= 9)%nat ->
  0 <= r -> r + Z.of_nat (length ds) * 2 ^ 171 < 2 ^ 256 ->
  exp_terms ds x g (x ^ Z.of_nat k) (g ^ Z.of_nat m) r = Ok (x ^ Z.of_nat (k + length ds), r + exp_sum ds x g k m).
Proof.
  intros Hds. revert k m r. induction Hds as [|d ds Hd Hds IH]; intros k m r Hm Hkm Hr Hsum; simpl exp_terms; simpl exp_sum.
  { by rewrite Nat.add_0_r, Z.add_0_r. }
  change (length (d :: ds)) with (S (length ds)) in *. rewrite Nat2Z.inj_succ in Hsum.
  assert (Hdiv : g ^ Z.of_nat m / g = g ^ Z.of_nat (m - 1)).
  { replace (Z.of_nat m) with (Z.succ (Z.of_nat (m - 1))) by lia. rewrite Z.pow_succ_r, Z.mul_comm, Z.div_mul by lia. done. }
  rewrite Hdiv.
  pose proof (powers_bounded x g (Z.of_nat k) (Z.of_nat (m - 1)) Hx Hg ltac:(lia) ltac:(lia) ltac:(lia)) as HP.
  rewrite checked_mul_ok by lia. simpl.
  pose proof (div_within _ _ d Hd HP).
  rewrite checked_add_ok by lia. simpl.
  pose proof (powers_bounded x g (Z.of_nat k + 1) 0 Hx Hg ltac:(lia) ltac:(lia) ltac:(lia)) as HX.
  rewrite Z.pow_add_r, Z.pow_1_r, Z.pow_0_r, Z.mul_1_r in HX by lia. rewrite checked_mul_ok by lia. simpl.
  replace (x ^ Z.of_nat k * x) with (x ^ Z.of_nat (S k)) by (rewrite Nat2Z.inj_succ, Z.pow_succ_r; lia).
  rewrite IH by lia. rewrite Nat.add_succ_r. do 2 f_equal. lia.
Qed.

Lemma exp_value_bounds : g ^ 8 <= exp_value x g <= 9 * 2 ^ 171.
Proof.
  unfold exp_value. pose proof (exp_sum_bounds exp_divisors 1 8 ltac:(unfold exp_divisors; repeat constructor) ltac:(simpl; lia) ltac:(lia)) as HS.
  simpl length in HS.
  pose proof (powers_bounded x g 0 8 Hx Hg ltac:(lia) ltac:(lia) ltac:(lia)) as H8.
  pose proof (powers_bounded x g 7 1 Hx Hg ltac:(lia) ltac:(lia) ltac:(lia)) as H7.
  pose proof (powers_bounded x g 8 0 Hx Hg ltac:(lia) ltac:(lia) ltac:(lia)) as HX.
  rewrite Z.pow_0_r, Z.mul_1_l in H8. rewrite Z.pow_0_r, Z.mul_1_r in HX. rewrite Z.pow_1_r in H7.
  pose proof (div_within _ _ 5040 ltac:(lia) H7). pose proof (div_within _ _ 40320 ltac:(lia) HX).
  change (Z.of_nat 6) with 6 in HS. generalize dependent (x ^ 8 / 40320). generalize dependent (x ^ 7 * g / 5040).
  generalize dependent (exp_sum exp_divisors x g 1 8). generalize dependent (g ^ 8). clear. lia.
Qed.

Lemma exp_series_spec : exp_series x g (g ^ 8) = Ok (exp_value x g).
Proof.
  unfold exp_series. pose proof exp_value_bounds as HB. unfold exp_value in *.
  pose proof (powers_bounded x g 0 8 Hx Hg ltac:(lia) ltac:(lia) ltac:(lia)) as H8.
  pose proof (powers_bounded x g 7 1 Hx Hg ltac:(lia) ltac:(lia) ltac:(lia)) as H7.
  pose proof (powers_bounded x g 8 0 Hx Hg ltac:(lia) ltac:(lia) ltac:(lia)) as HX.
  rewrite Z.pow_0_r, Z.mul_1_l in H8. rewrite Z.pow_0_r, Z.mul_1_r in HX. rewrite Z.pow_1_r in H7.
  pose proof (exp_terms_spec exp_divisors 1 8 (g ^ 8) ltac:(unfold exp_divisors; repeat constructor)
    ltac:(simpl; lia) ltac:(lia) ltac:(lia) ltac:(simpl length; lia)) as HT.
  change (Z.of_nat 1) with 1 in HT. change (Z.of_nat 8) with 8 in HT. rewrite Z.pow_1_r in HT. rewrite HT. clear HT.
  cbn [rbind]. change (Z.of_nat (1 + length exp_divisors)) with 7.
  assert (E8 : x ^ 7 * x = x ^ 8) by (change 8 with (Z.succ 7); rewrite Z.pow_succ_r; lia).
  rewrite (checked_mul_ok (x ^ 7) x), E8 by (rewrite E8; apply (Z.le_lt_trans _ _ _ (proj2 HX)); done).
  cbn [or_err rbind]. rewrite (checked_mul_ok (x ^ 7) g) by (apply (Z.le_lt_trans _ _ _ (proj2 H7)); done). cbn [or_err rbind].
  pose proof (div_within _ _ 40320 ltac:(lia) HX).
  pose proof (div_within _ _ 5040 ltac:(lia) H7). clear E8 H8 H7 HX.
  rewrite checked_add_ok by (apply (Z.le_lt_trans _ (9 * 2 ^ 171)); [|done]; lia). cbn [or_err rbind].
  rewrite checked_add_ok by (apply (Z.le_lt_trans _ (9 * 2 ^ 171)); [|done]; lia). done.
Qed.
End series.

Lemma exp_sum_mono ds x x' g k m :
  0 <= x <= x' -> 0 < g -> Forall (fun d => 0 < d) ds -> exp_sum ds x g k m <= exp_sum ds x' g k m.
Proof.
  intros Hx Hg Hds. revert k m. induction Hds as [|d ds Hd Hds IH]; intros k m; simpl; [lia|].
  apply Z.add_le_mono; [|apply IH]. apply Z.div_le_mono; [lia|]. apply Z.mul_le_mono_nonneg_r; [apply Z.pow_nonneg; lia|].
  apply Z.pow_le_mono_l; lia.
Qed.

Lemma exp_value_mono x x' g : 0 <= x <= x' -> 0 < g -> exp_value x g <= exp_value x' g.
Proof.
  intros Hx Hg. unfold exp_value.
  pose proof (exp_sum_mono exp_divisors x x' g 1 8 Hx Hg ltac:(unfold exp_divisors; repeat constructor)).
  pose proof (Z.pow_le_mono_l x x' 7 Hx). pose proof (Z.pow_le_mono_l x x' 8 Hx).
  pose proof (Z.div_le_mono (x ^ 7 * g) (x' ^ 7 * g) 5040 ltac:(lia) ltac:(nia)).
  pose proof (Z.div_le_mono (x ^ 8) (x' ^ 8) 40320 ltac:(lia) ltac:(lia)). lia.
Qed.

(** ** The sigmoid *)
Lemma share_mono g a a' e e' :
  0 < g -> 0 <= a <= a' -> 0 <= e <= e' -> a * e / (g + e) <= a' * e' / (g + e').
Proof.
  intros Hg Ha He. apply Z.div_le_lower_bound; [lia|].
  pose proof (Z.mul_div_le (a * e) (g + e) ltac:(lia)) as Hq. set (q := a * e / (g + e)) in *.
  assert (Hqa : q <= a) by (apply Z.div_le_upper_bound; nia).
  pose proof (Z.mul_le_mono_nonneg_r _ _ (e' - e) ltac:(lia) Hqa) as H1.
  pose proof (Z.mul_le_mono_nonneg_r _ _ e' ltac:(lia) (proj2 Ha)) as H2. lia.
Qed.

Lemma rest_mono g a a' e e' :
  0 < g -> 0 <= a <= a' -> 0 <= e' <= e -> a * g / (g + e) <= a' * g / (g + e').
Proof.
  intros Hg Ha He. assert (a * g <= a' * g) by (apply Z.mul_le_mono_nonneg_r; lia).
  apply Z.div_le_lower_bound; [lia|]. pose proof (Z.mul_div_le (a * g) (g + e) ltac:(lia)) as Hq.
  pose proof (Z.div_pos (a * g) (g + e) ltac:(nia) ltac:(lia)) as Hp. set (q := a * g / (g + e)) in *.
  pose proof (Z.mul_le_mono_nonneg_l _ _ q Hp (proj2 He)). lia.
Qed.

Lemma half_mono g a a' e e' :
  0 < g -> 0 <= a <= a' -> g <= e -> g <= e' -> a * g / (g + e) <= a' * e' / (g + e').
Proof.
  intros Hg Ha He He'. transitivity (a * g / (g + g)); [apply rest_mono; lia|apply share_mono; lia].
Qed.

Lemma pow8_pos g : 0 < g -> 0 < g ^ 8.
Proof. intros. apply Z.pow_pos_nonneg; lia. Qed.

Lemma exp_value_ge x g : 0 <= x -> 0 < g -> g ^ 8 <= exp_value x g.
Proof.
  intros Hx Hg. transitivity (exp_value 0 g); [|apply exp_value_mono; lia].
  unfold exp_value. assert (E : exp_sum exp_divisors 0 g 1 8 = 0) by reflexivity.
  rewrite E, !Z.pow_0_l, Z.mul_0_l, !Z.div_0_l by lia. lia.
Qed.

Lemma sigmoid_value_bounds x g a b : 0 < g -> 0 <= a -> 0 <= sigmoid_value x g a b <= a.
Proof.
  intros Hg Ha. unfold sigmoid_value. pose proof (pow8_pos g Hg).
  destruct (Z.ltb_spec b x); [destruct (Z.leb_spec (6 * g) (x - b))|destruct (Z.leb_spec (6 * g) (b - x))]; [lia| |lia|].
  - pose proof (exp_value_ge (x - b) g ltac:(lia) Hg). set (e := exp_value _ _) in *.
    split; [apply Z.div_pos; nia|apply Z.div_le_upper_bound; nia].
  - pose proof (exp_value_ge (b - x) g ltac:(lia) Hg). set (e := exp_value _ _) in *.
    split; [apply Z.div_pos; nia|apply Z.div_le_upper_bound; nia].
Qed.

Lemma sigmoid_value_mono x x' g a a' b :
  0 < g -> 0 <= a <= a' -> x <= x' -> sigmoid_value x g a b <= sigmoid_value x' g a' b.
Proof.
  intros Hg Ha Hx. pose proof (sigmoid_value_bounds x g a b Hg ltac:(lia)) as HL.
  pose proof (sigmoid_value_bounds x' g a' b Hg ltac:(lia)) as HR. pose proof (pow8_pos g Hg).
  unfold sigmoid_value in *. destruct (Z.ltb_spec b x), (Z.ltb_spec b x'); [| lia | |].
  - destruct (Z.leb_spec (6 * g) (x - b)), (Z.leb_spec (6 * g) (x' - b)); [lia|lia|lia|].
    pose proof (exp_value_ge (x - b) g ltac:(lia) Hg). apply share_mono; [done|done|].
    split; [lia|apply exp_value_mono; lia].
  - destruct (Z.leb_spec (6 * g) (b - x)); [lia|]. destruct (Z.leb_spec (6 * g) (x' - b)); [lia|].
    apply half_mono; [done|done|apply exp_value_ge; lia|apply exp_value_ge; lia].
  - destruct (Z.leb_spec (6 * g) (b - x)); [lia|]. destruct (Z.leb_spec (6 * g) (b - x')); [lia|].
    pose proof (exp_value_ge (b - x') g ltac:(lia) Hg). apply rest_mono; [done|done|].
    split; [lia|apply exp_value_mono; lia].
Qed.

Lemma power_eight_spec g : 0 < g < 2 ^ 16 -> power_eight g = Ok (g ^ 8).
Proof.
  intros Hg. assert (g * g < 2 ^ 32) by nia. assert (g * g * (g * g) < 2 ^ 64) by nia.
  assert ((g * g * (g * g)) * (g * g * (g * g)) < 2 ^ 128) by nia.
  unfold power_eight. rewrite checked_mul_ok by lia. cbn [or_err rbind].
  rewrite checked_mul_ok by lia. cbn [or_err rbind]. rewrite checked_mul_ok by lia. cbn [or_err]. f_equal. ring.
Qed.

Lemma sigmoid_spec x g a b :
  0 <= x -> 0 < g < 2 ^ 16 -> 0 <= a < 2 ^ 16 -> 0 <= b -> sigmoid x g a b = Ok (sigmoid_value x g a b).
Proof.
  intros Hx Hg Ha Hb. unfold sigmoid, sigmoid_value. rewrite (proj2 (Z.eqb_neq g 0)) by lia. cbn [negb ensure rbind].
  assert (E6 : wrap 256 (g * 6) = 6 * g) by (unfold wrap; rewrite Z.mod_small; lia).
  rewrite !E6, power_eight_spec by done. cbn [rbind]. pose proof (powers_bounded 0 g 0 8 ltac:(lia) Hg ltac:(lia) ltac:(lia) ltac:(lia)) as H8.
  rewrite Z.pow_0_r, Z.mul_1_l in H8. pose proof (pow8_pos g ltac:(lia)) as Hpos.
  destruct (Z.ltb_spec b x); [destruct (Z.leb_spec (6 * g) (x - b))|destruct (Z.leb_spec (6 * g) (b - x))]; [done| |done|].
  - assert (Hr : 0 <= x - b < 2 ^ 19) by lia. rewrite exp_series_spec by done. cbn [rbind].
    pose proof (exp_value_bounds (x - b) g Hr Hg) as HB. set (e := exp_value _ _) in *. set (p := g ^ 8) in *.
    assert (0 <= a * e < 2 ^ 256) by nia. unfold wrap. rewrite !Z.mod_small by lia. done.
  - assert (Hr : 0 <= b - x < 2 ^ 19) by lia. rewrite exp_series_spec by done. cbn [rbind].
    pose proof (exp_value_bounds (b - x) g Hr Hg) as HB. set (e := exp_value _ _) in *. set (p := g ^ 8) in *.
    rewrite checked_add_ok by lia. cbn [or_err rbind].
    assert (0 <= a * p < 2 ^ 256) by nia. unfold wrap. rewrite !Z.mod_small by lia. done.
Qed.

(** ** The fee *)
Definition config_typed (c : AdaptiveFeeConfiguration) : bool :=
  forallb (fun z => (0 <=? z) && (z <? 2 ^ 16)) [alpha1 c; alpha2 c; gamma1 c; gamma2 c; volume_gamma c; base_fee c]
  && forallb (fun z => (0 <=? z) && (z <? 2 ^ 32)) [beta1 c; beta2 c; volume_beta c].

Definition fee_value (c : AdaptiveFeeConfiguration) (volatility volume : Z) : Z :=
  base_fee c + sigmoid_value volume (volume_gamma c)
    (sigmoid_value volatility (gamma1 c) (alpha1 c) (beta1 c) + sigmoid_value volatility (gamma2 c) (alpha2 c) (beta2 c))
    (volume_beta c).

Lemma adaptive_fee_spec c v w :
  config_typed c = true -> validate_fee_config c = Ok tt -> 0 <= v -> 0 <= w -> adaptive_fee c v w = Ok (fee_value c v w).
Proof.
  intros Ht Hval Hv Hw. unfold adaptive_fee, fee_value. rewrite Hval. cbn [rbind].
  unfold config_typed in Ht. cbn [forallb] in Ht. bool_prop.
  unfold validate_fee_config in Hval. res_inv. bool_prop. unfold U16_MAX in *.
  rewrite !sigmoid_spec by lia. cbn [rbind].
  pose proof (sigmoid_value_bounds v (gamma1 c) (alpha1 c) (beta1 c) ltac:(lia) ltac:(lia)) as B1.
  pose proof (sigmoid_value_bounds v (gamma2 c) (alpha2 c) (beta2 c) ltac:(lia) ltac:(lia)) as B2.
  set (s1 := sigmoid_value v (gamma1 c) _ _) in *. set (s2 := sigmoid_value v (gamma2 c) _ _) in *.
  rewrite checked_add_ok by lia. cbn [or_err rbind]. rewrite Z.min_l by (unfold U16_MAX; lia).
  unfold u16_try_from. rewrite (proj2 (Z.leb_le (s1 + s2) U16_MAX)) by (unfold U16_MAX; lia). cbn [or_err rbind].
  rewrite sigmoid_spec by lia. cbn [rbind].
  pose proof (sigmoid_value_bounds w (volume_gamma c) (s1 + s2) (volume_beta c) ltac:(lia) ltac:(lia)) as B3.
  set (s3 := sigmoid_value w _ _ _) in *.
  rewrite (proj2 (Z.leb_le s3 U16_MAX)) by (unfold U16_MAX; lia). cbn [or_err rbind].
  by rewrite (proj2 (checked_add_Some 16 _ _ (base_fee c + s3))) by (split; [done|lia]).
Qed.

Lemma fee_value_range c v w :
  config_typed c = true -> validate_fee_config c = Ok tt -> base_fee c <= fee_value c v w <= base_fee c + alpha1 c + alpha2 c.
Proof.
  intros Ht Hval. unfold config_typed in Ht. cbn [forallb] in Ht. bool_prop. unfold validate_fee_config in Hval. res_inv. bool_prop.
  pose proof (sigmoid_value_bounds v (gamma1 c) (alpha1 c) (beta1 c) ltac:(lia) ltac:(lia)).
  pose proof (sigmoid_value_bounds v (gamma2 c) (alpha2 c) (beta2 c) ltac:(lia) ltac:(lia)).
  unfold fee_value. set (s1 := sigmoid_value v (gamma1 c) _ _) in *. set (s2 := sigmoid_value v (gamma2 c) _ _) in *.
  pose proof (sigmoid_value_bounds w (volume_gamma c) (s1 + s2) (volume_beta c) ltac:(lia) ltac:(lia)). lia.
Qed.

Lemma fee_value_mono c v w v' w' :
  config_typed c = true -> validate_fee_config c = Ok tt -> v <= v' -> w <= w' -> fee_value c v w <= fee_value c v' w'.
Proof.
  intros Ht Hval Hv Hw. unfold config_typed in Ht. cbn [forallb] in Ht. bool_prop. unfold validate_fee_config in Hval. res_inv. bool_prop.
  pose proof (sigmoid_value_bounds v (gamma1 c) (alpha1 c) (beta1 c) ltac:(lia) ltac:(lia)).
  pose proof (sigmoid_value_bounds v (gamma2 c) (alpha2 c) (beta2 c) ltac:(lia) ltac:(lia)).
  pose proof (sigmoid_value_mono v v' (gamma1 c) (alpha1 c) (alpha1 c) (beta1 c) ltac:(lia) ltac:(lia) ltac:(lia)).
  pose proof (sigmoid_value_mono v v' (gamma2 c) (alpha2 c) (alpha2 c) (beta2 c) ltac:(lia) ltac:(lia) ltac:(lia)).
  unfold fee_value. apply Z.add_le_mono_l, sigmoid_value_mono; lia.
Qed.

(** A validated configuration always yields a fee: for every volatility
    and every volume per liquidity none of the checked 256-bit operations of
    the two volatility sigmoids, of the exponential series and of the volume
    sigmoid overflows, the fee stays between the base fee and the base fee plus
    both amplitudes (hence below the 16-bit maximum), and it never decreases
    when the volatility or the volume grows. *)
Theorem adaptive_fee_total c v w v' w' :
  config_typed c = true -> validate_fee_config c = Ok tt -> 0 <= v <= v' -> 0 <= w <= w' ->
  exists f f', adaptive_fee c v w = Ok f /\ adaptive_fee c v' w' = Ok f' /\
    base_fee c <= f <= f' /\ f' <= base_fee c + alpha1 c + alpha2 c <= U16_MAX.
Proof.
  intros Ht Hval Hv Hw. exists (fee_value c v w), (fee_value c v' w').
  split; [apply adaptive_fee_spec; done || lia|]. split; [apply adaptive_fee_spec; done || lia|].
  pose proof (fee_value_range c v w Ht Hval). pose proof (fee_value_range c v' w' Ht Hval).
  pose proof (fee_value_mono c v w v' w' Ht Hval ltac:(lia) ltac:(lia)).
  unfold validate_fee_config in Hval. res_inv. bool_prop. lia.
Qed.

(** The deployed configuration of the source's tests. *)
Definition deployed_config : AdaptiveFeeConfiguration := mkFeeConfig 2900 12000 360 60000 59 8500 0 10 100.

Lemma adaptive_fee_total_witness :
  exists f f', adaptive_fee deployed_config 400 3 = Ok f /\ adaptive_fee deployed_config 59000 30 = Ok f' /\
    100 <= f <= f' /\ f' <= 100 + 2900 + 12000 <= U16_MAX.
Proof. exact (adaptive_fee_total deployed_config 400 3 59000 30 eq_refl eq_refl ltac:(lia) ltac:(lia)). Defined.

Example series_golden :
  power_eight 100 = Ok (10 ^ 16) /\ exp_series 0 100 (10 ^ 16) = Ok (10 ^ 16) /\
  sigmoid 100 100 1000 100 = Ok 500 /\ sigmoid 700 100 1000 100 = Ok 1000 /\ sigmoid 0 100 1000 600 = Ok 0.
Proof. vm_compute. auto 8. Qed.

Example root_golden : integer_sqrt 15 = 3 /\ integer_sqrt 16 = 4.
Proof. vm_compute. auto. Qed.
