(* ===== verification/FeeProjection.v ===== *)
(** * The projected fee of an Algebra pool ([src/src/dex/camelot_fee.rs])

    [FeeProjectionState]: the ring of timepoints of a pool, its head and its
    configurations; the fee the next action would be charged at a timestamp,
    the envelope over a horizon, and the transitions the pool mirror applies for
    a [Fee] event, a swap, a liquidity change and a new head.  [u32], [u128],
    [i128] and [U256] operators that are not checked wrap, division of signed
    integers truncates. *)
From Stdlib Require Import Lia.
From stdpp Require Import base strings numbers list gmap sorting option.
From S2P Require Import Prelude ExecutionPlan AdaptiveFee.

Definition WINDOW_SECONDS : Z := 86400.

Record Timepoint := mkTimepoint {
  initialized : bool;
  block_timestamp : Z;
  tick_cumulative : Z;
  seconds_per_liquidity_cumulative : Z;
  volatility_cumulative : Z;
  average_tick : Z;
  volume_per_liquidity_cumulative : Z;
}.

Record DirectionalFees := mkFees { zero_for_one : Z; one_for_zero : Z }.

#[global] Instance fees_eq_dec : EqDecision DirectionalFees.
Proof. solve_decision. Defined.

Record FeeEnvelope := mkEnvelope {
  env_current : DirectionalFees;
  env_maximum : DirectionalFees;
  first_timestamp : Z;
  last_timestamp : Z;
}.

Record FeeProjectionState := mkProjection {
  head_timestamp : Z;
  latest_timepoint_timestamp : Z;
  tick : Z;
  liquidity : Z;
  index : Z;
  oldest_index : Z;
  current_fees : DirectionalFees;
  volume_per_liquidity_in_block : Z;
  zero_for_one_config : AdaptiveFeeConfiguration;
  one_for_zero_config : AdaptiveFeeConfiguration;
  timepoints : gmap Z Timepoint;
}.

(** ** Machine integers *)
Definition wrap_i128 (x : Z) : Z := (x + 2 ^ 127) mod 2 ^ 128 - 2 ^ 127.
Definition i128_checked_mul (a b : Z) : option Z := i128_checked (a * b).
Definition i128_checked_sub (a b : Z) : option Z := i128_checked (a - b).
Definition i32_try_from (x : Z) : option Z := if (- 2 ^ 31 <=? x) && (x <? 2 ^ 31) then Some x else None.

Definition lte_considering_overflow (a b current_time : Z) : bool :=
  let a_overflowed := current_time <? a in
  if Bool.eqb a_overflowed (current_time <? b) then a <=? b else a_overflowed.

(** ** A new timepoint *)
Definition volatility_numerator (k b dt sum_squares sum_sequence : Z) : option Z :=
  value ← (i128_checked_mul k k ≫= fun v => i128_checked_mul v sum_squares);
  cross ← (i128_checked_mul b k ≫= fun c => i128_checked_mul c sum_sequence ≫= fun c => i128_checked_mul c 6);
  value ← i128_checked_add value cross;
  square ← (i128_checked_mul b b ≫= fun s => i128_checked_mul s dt ≫= fun s => i128_checked_mul s 6);
  i128_checked_add value square.

Definition u128_of_i128 (x : Z) : option Z := if 0 <=? x then Some x else None.

Definition volatility_on_range (delta tick0 tick1 average_tick0 average_tick1 : Z) : TRes Z :=
  let dt := delta in
  let k := (tick1 - tick0) - (average_tick1 - average_tick0) in
  let? b := or_err (i128_checked_mul (tick0 - average_tick0) dt) "Camelot volatility B overflow" in
  let? sum_squares := or_err (i128_checked_mul dt (dt + 1) ≫= fun v => i128_checked_mul v (2 * dt + 1))
    "Camelot volatility square sequence overflow" in
  let? sum_sequence := or_err (i128_checked_mul dt (dt + 1)) "Camelot volatility sequence overflow" in
  let? numerator := or_err (volatility_numerator k b dt sum_squares sum_sequence) "Camelot volatility numerator overflow" in
  let? denominator := or_err (i128_checked_mul 6 dt ≫= fun v => i128_checked_mul v dt) "Camelot volatility denominator overflow" in
  ensure! 0 <=? numerator else "Camelot volatility is negative" ;;
  or_err (u128_of_i128 (Z.quot numerator denominator)) "Camelot volatility does not fit uint128".

Definition create_new_timepoint (last : Timepoint) (timestamp tick previous_tick liquidity new_average volume : Z) : TRes Timepoint :=
  let? delta := or_err (checked_sub timestamp (block_timestamp last)) "Camelot new timepoint timestamp is not ordered" in
  ensure! negb (delta =? 0) else "Camelot new timepoint delta is zero" ;;
  let? ticks := or_err (i128_checked_add (tick_cumulative last) (tick * delta)) "Camelot tick cumulative overflow" in
  let? volatility := volatility_on_range delta previous_tick tick (average_tick last) new_average in
  let? volatility := or_err (checked_add 128 (volatility_cumulative last) volatility) "Camelot volatility cumulative overflow" in
  Ok (mkTimepoint true timestamp ticks
        (wrap 256 (seconds_per_liquidity_cumulative last + Z.shiftl delta 128 / Z.max liquidity 1))
        volatility new_average
        (wrap 256 (volume_per_liquidity_cumulative last + volume))).

Definition interpolate_timepoint (before after : Timepoint) (target : Z) : TRes Timepoint :=
  let? interval := or_err (checked_sub (block_timestamp after) (block_timestamp before))
    "Camelot interpolation points are not ordered" in
  ensure! negb (interval =? 0) else "Camelot interpolation interval is zero" ;;
  let? target_delta := or_err (checked_sub target (block_timestamp before))
    "Camelot interpolation target is not ordered" in
  Ok (mkTimepoint (initialized before) (block_timestamp before)
        (wrap_i128 (tick_cumulative before +
           wrap_i128 (Z.quot (wrap_i128 (tick_cumulative after - tick_cumulative before)) interval * target_delta)))
        (wrap 256 (seconds_per_liquidity_cumulative before +
           wrap 256 (wrap 256 (seconds_per_liquidity_cumulative after - seconds_per_liquidity_cumulative before)
                       * target_delta) / interval))
        (wrap 128 (volatility_cumulative before +
           wrap 128 (wrap 128 (volatility_cumulative after - volatility_cumulative before) / interval * target_delta)))
        (average_tick before)
        (wrap 256 (volume_per_liquidity_cumulative before +
           wrap 256 (wrap 256 (volume_per_liquidity_cumulative after - volume_per_liquidity_cumulative before)
                       / interval * target_delta)))).

(** ** Reading the ring *)
Definition point_le {A} (a b : Z * A) : Prop := a.1 <= b.1.
#[global] Instance point_le_dec {A} : RelDecision (@point_le A).
Proof. intros a b. unfold point_le. apply _. Defined.

(** [BTreeMap::values]: by ascending index. *)
Definition point_values (m : gmap Z Timepoint) : list Timepoint := (merge_sort point_le (map_to_list m)).*2.

Definition point_initialized (o : option Timepoint) : bool := match o with Some p => initialized p | None => false end.

Definition validate_projection (st : FeeProjectionState) : TRes unit :=
  let? _ := validate_fee_config (zero_for_one_config st) in
  let? _ := validate_fee_config (one_for_zero_config st) in
  ensure! negb (liquidity st =? 0) else "Camelot fee projection liquidity is zero" ;;
  ensure! match timepoints st !! index st with
          | Some p => initialized p && (block_timestamp p =? latest_timepoint_timestamp st) | None => false end
    else "Camelot latest timepoint is unavailable" ;;
  ensure! point_initialized (timepoints st !! oldest_index st) else "Camelot oldest timepoint is unavailable" ;;
  Ok tt.

Definition latest (st : FeeProjectionState) : TRes Timepoint :=
  or_err (timepoints st !! index st) "Camelot latest timepoint is missing".

Definition oldest_index_after_write (points : gmap Z Timepoint) (written_index : Z) : TRes Z :=
  let candidate := wrap 16 (written_index + 1) in
  let oldest := if point_initialized (points !! candidate) then candidate else 0 in
  ensure! point_initialized (points !! oldest) else "Camelot oldest timepoint after write is unavailable" ;;
  Ok oldest.

Definition previous_tick (st : FeeProjectionState) (last : Timepoint) : TRes Z :=
  if index st =? oldest_index st then Ok (tick st) else
  let? previous := or_err (timepoints st !! wrap 16 (index st - 1)) "Camelot previous timepoint is missing" in
  let? elapsed := or_err (checked_sub (block_timestamp last) (block_timestamp previous))
    "Camelot previous timepoint timestamp is not ordered" in
  ensure! negb (elapsed =? 0) else "Camelot adjacent timepoints share a timestamp" ;;
  let? delta := or_err (i128_checked_sub (tick_cumulative last) (tick_cumulative previous))
    "Camelot tick cumulative delta overflow" in
  or_err (i32_try_from (Z.quot delta elapsed)) "Camelot previous tick does not fit int24".

(** One point against the candidates of the scan for the two neighbours. *)
Definition bracket_step (target : Z) (acc : option Timepoint * option Timepoint) (p : Timepoint) : option Timepoint * option Timepoint :=
  let '(before, after) := acc in
  ((if (block_timestamp p <=? target) &&
       match before with Some c => block_timestamp c <? block_timestamp p | None => true end
    then Some p else before),
   (if (target <=? block_timestamp p) &&
       match after with Some c => block_timestamp p <? block_timestamp c | None => true end
    then Some p else after)).

(** The ring's answer for a past target. *)
Definition past_timepoint (st : FeeProjectionState) (target : Z) : TRes Timepoint :=
  let '(before, after) := fold_left (bracket_step target)
    (List.filter initialized (point_values (timepoints st))) (None, None) in
  let? before := or_err before "Camelot timepoint before window target is missing" in
  let? after := or_err after "Camelot timepoint after window target is missing" in
  if target =? block_timestamp after then Ok after
  else if target =? block_timestamp before then Ok before
  else interpolate_timepoint before after target.

(** The average tick when the window starts after the oldest point: between
    the last two points when the last one is itself outside the window,
    otherwise from the start of the window ([since_start]). *)
Definition windowed_average (st : FeeProjectionState) (timestamp : Z) (last : Timepoint)
    (since_start : TRes Timepoint) : TRes Z :=
  let window_start := wrap 32 (timestamp - WINDOW_SECONDS) in
  if lte_considering_overflow (block_timestamp last) window_start timestamp then
    let? start := or_err (timepoints st !! wrap 16 (index st - 1)) "Camelot average-tick start timepoint is missing" in
    if initialized start then
      let? elapsed := or_err (checked_sub (block_timestamp last) (block_timestamp start))
        "Camelot average-tick timestamps are not ordered" in
      ensure! negb (elapsed =? 0) else "Camelot average-tick interval is zero" ;;
      Ok (Z.quot (wrap_i128 (tick_cumulative last - tick_cumulative start)) elapsed)
    else Ok (tick st)
  else
    let? start := since_start in
    let? since_last := or_err (checked_sub timestamp (block_timestamp last)) "Camelot average-tick timestamp is not ordered" in
    let? elapsed := or_err (checked_sub WINDOW_SECONDS since_last) "Camelot average-tick window underflow" in
    ensure! negb (elapsed =? 0) else "Camelot average-tick window is zero" ;;
    Ok (Z.quot (wrap_i128 (tick_cumulative last - tick_cumulative start)) elapsed).

(** [average_tick_for_new_timepoint] and [single_timepoint] call each other:
    the first asks the second for the start of the window, the second asks the
    first when the target is not before the last point. *)
Definition average_with (single : Z -> Z -> Z -> TRes Timepoint) (st : FeeProjectionState) (timestamp : Z) (last : Timepoint) : TRes Z :=
  let? oldest := or_err (timepoints st !! oldest_index st) "Camelot oldest timepoint is missing" in
  let window_start := wrap 32 (timestamp - WINDOW_SECONDS) in
  let? average :=
    if lte_considering_overflow (block_timestamp oldest) window_start timestamp then
      windowed_average st timestamp last (single timestamp WINDOW_SECONDS (index st))
    else if block_timestamp last =? block_timestamp oldest then Ok (tick st)
    else Ok (Z.quot (wrap_i128 (tick_cumulative last - tick_cumulative oldest))
                    (wrap 32 (block_timestamp last - block_timestamp oldest))) in
  let? average := or_err (i32_try_from average) "Camelot average tick does not fit int24" in
  ensure! (-8388608 <=? average) && (average <=? 8388607) else "Camelot average tick is outside int24" ;;
  Ok average.

Definition single_with (average : Z -> Timepoint -> TRes Z) (st : FeeProjectionState) (timestamp seconds_ago idx : Z) : TRes Timepoint :=
  let target := wrap 32 (timestamp - seconds_ago) in
  let? last := or_err (timepoints st !! idx) "Camelot requested latest timepoint is missing" in
  if (seconds_ago =? 0) || lte_considering_overflow (block_timestamp last) target timestamp then
    if block_timestamp last =? target then Ok last else
    let? new_average := average timestamp last in
    let? previous := previous_tick st last in
    create_new_timepoint last target (tick st) previous (liquidity st) new_average 0
  else past_timepoint st target.

Fixpoint average_fuel (fuel : nat) (st : FeeProjectionState) (timestamp : Z) (last : Timepoint) : TRes Z :=
  match fuel with
  | O => Err "the two functions do not recurse"
  | S fuel => average_with (single_with (average_fuel fuel st) st) st timestamp last
  end.

(** Two levels: see [average_fuel_enough]. *)
Definition average_tick_for_new_timepoint (st : FeeProjectionState) : Z -> Timepoint -> TRes Z := average_fuel 2 st.
Definition single_timepoint (st : FeeProjectionState) : Z -> Z -> Z -> TRes Timepoint :=
  single_with (average_tick_for_new_timepoint st) st.

Definition averages (st : FeeProjectionState) (timestamp : Z) : TRes (Z * Z) :=
  let? oldest := or_err (timepoints st !! oldest_index st) "Camelot oldest timepoint is missing" in
  let? last := single_timepoint st timestamp 0 (index st) in
  let window_start := wrap 32 (timestamp - WINDOW_SECONDS) in
  if lte_considering_overflow (block_timestamp oldest) window_start timestamp then
    let? start := single_timepoint st timestamp WINDOW_SECONDS (index st) in
    Ok (wrap 128 (volatility_cumulative last - volatility_cumulative start) / WINDOW_SECONDS,
        Z.shiftr (wrap 256 (volume_per_liquidity_cumulative last - volume_per_liquidity_cumulative start)) 57)
  else if negb (timestamp =? block_timestamp oldest) then
    let elapsed := wrap 32 (timestamp - block_timestamp oldest) in
    Ok (wrap 128 (volatility_cumulative last - volatility_cumulative oldest) / elapsed,
        Z.shiftr (wrap 256 (volume_per_liquidity_cumulative last - volume_per_liquidity_cumulative oldest)) 57)
  else Ok (0, 0).

(** The point a first action at [timestamp] would write. *)
Definition next_timepoint (st : FeeProjectionState) (timestamp : Z) (last : Timepoint) : TRes Timepoint :=
  let? average := average_tick_for_new_timepoint st timestamp last in
  let? previous := previous_tick st last in
  create_new_timepoint last timestamp (tick st) previous (liquidity st) average (volume_per_liquidity_in_block st).

Definition with_ring (st : FeeProjectionState) (idx oldest : Z) (points : gmap Z Timepoint) : FeeProjectionState :=
  mkProjection (head_timestamp st) (latest_timepoint_timestamp st) (tick st) (liquidity st) idx oldest
    (current_fees st) (volume_per_liquidity_in_block st) (zero_for_one_config st) (one_for_zero_config st) points.

Definition projected_averages_at (st : FeeProjectionState) (timestamp : Z) : TRes (Z * Z) :=
  let? _ := validate_projection st in
  let? last := latest st in
  ensure! block_timestamp last <? timestamp else "Camelot projected averages require a new timepoint" ;;
  let? projected := next_timepoint st timestamp last in
  let projected_index := wrap 16 (index st + 1) in
  let points := <[projected_index := projected]> (timepoints st) in
  let? oldest := oldest_index_after_write points projected_index in
  averages (with_ring st projected_index oldest points) timestamp.

Definition fees_at (st : FeeProjectionState) (timestamp : Z) : TRes DirectionalFees :=
  let? _ := validate_projection st in
  ensure! head_timestamp st <=? timestamp else "Camelot fee projection precedes canonical head" ;;
  let? last := latest st in
  if timestamp =? block_timestamp last then Ok (current_fees st) else
  ensure! block_timestamp last <? timestamp else "Camelot fee projection timestamp precedes latest timepoint" ;;
  let? '(volatility, volume) := projected_averages_at st timestamp in
  let fee_volatility := volatility / 15 in
  let? zero := adaptive_fee (zero_for_one_config st) fee_volatility volume in
  let? one := adaptive_fee (one_for_zero_config st) fee_volatility volume in
  Ok (mkFees zero one).

(** ** The envelope over a horizon *)
Definition max_fees (m f : DirectionalFees) : DirectionalFees :=
  mkFees (Z.max (zero_for_one m) (zero_for_one f)) (Z.max (one_for_zero m) (one_for_zero f)).

Fixpoint fold_fees (st : FeeProjectionState) (times : list Z) (maximum : DirectionalFees) : TRes DirectionalFees :=
  match times with
  | [] => Ok maximum
  | t :: rest => let? fees := fees_at st t in fold_fees st rest (max_fees maximum fees)
  end.

Definition envelope (st : FeeProjectionState) (horizon_seconds : Z) : TRes FeeEnvelope :=
  let? _ := validate_projection st in
  let? last := or_err (checked_add 32 (head_timestamp st) horizon_seconds) "Camelot fee horizon exceeds uint32" in
  let? current := fees_at st (head_timestamp st) in
  let first := saturating_add 32 (head_timestamp st) 1 in
  let? maximum := fold_fees st (seqZ first (last + 1 - first)) current in
  Ok (mkEnvelope current maximum (head_timestamp st) last).

(** ** Transitions: the state after the call and its result.  A late failure
    leaves what was already written. *)
Definition Step : Type := FeeProjectionState * TRes unit.

Definition apply_fee_timepoint (st : FeeProjectionState) (timestamp : Z) (emitted : DirectionalFees) : Step :=
  match
    (let? _ := validate_projection st in
     let? last := latest st in
     ensure! block_timestamp last <? timestamp else "Camelot Fee does not advance the latest timepoint" ;;
     ensure! head_timestamp st <=? timestamp else "Camelot Fee timestamp precedes canonical fee state" ;;
     let? expected := fees_at st timestamp in
     ensure! bool_decide (emitted = expected) else "Camelot Fee event differs from local adaptive-fee projection" ;;
     next_timepoint st timestamp last) with
  | Err e => (st, Err e)
  | Ok point =>
      let next_index := wrap 16 (index st + 1) in
      let points := <[next_index := point]> (timepoints st) in
      match oldest_index_after_write points next_index with
      | Err e => (with_ring st next_index (oldest_index st) points, Err e)
      | Ok oldest =>
          (mkProjection timestamp timestamp (tick st) (liquidity st) next_index oldest emitted 0
             (zero_for_one_config st) (one_for_zero_config st) points, Ok tt)
      end
  end.

Definition with_trade_head (st : FeeProjectionState) (timestamp new_tick new_liquidity volume : Z) : FeeProjectionState :=
  mkProjection (Z.max (head_timestamp st) timestamp) (latest_timepoint_timestamp st) new_tick new_liquidity (index st)
    (oldest_index st) (current_fees st) volume (zero_for_one_config st) (one_for_zero_config st) (timepoints st).

Definition apply_swap_after_timepoint_validation (st : FeeProjectionState) (timestamp amount0 amount1 new_tick new_liquidity : Z) : Step :=
  if new_liquidity =? 0 then (st, Err "Camelot Swap liquidity is zero") else
  let volume := calculate_volume_per_liquidity_nonzero new_liquidity amount0 amount1 in
  (with_trade_head st timestamp new_tick new_liquidity (wrap 128 (volume_per_liquidity_in_block st + volume)), Ok tt).

Definition apply_swap (st : FeeProjectionState) (timestamp amount0 amount1 new_tick new_liquidity : Z) : Step :=
  if latest_timepoint_timestamp st <=? timestamp
  then apply_swap_after_timepoint_validation st timestamp amount0 amount1 new_tick new_liquidity
  else (st, Err "Camelot Swap timestamp precedes latest timepoint").

Definition apply_liquidity_head (st : FeeProjectionState) (timestamp new_tick new_liquidity : Z) : Step :=
  match
    (let? _ := validate_projection st in
     let? last := latest st in
     ensure! block_timestamp last <=? timestamp else "Camelot liquidity event timestamp precedes latest timepoint" ;;
     ensure! negb (new_liquidity =? 0) else "Camelot active liquidity became zero" ;; Ok tt) with
  | Err e => (st, Err e)
  | Ok _ => (with_trade_head st timestamp new_tick new_liquidity (volume_per_liquidity_in_block st), Ok tt)
  end.

Definition advance_head (st : FeeProjectionState) (timestamp : Z) : Step :=
  match
    (let? _ := validate_projection st in
     ensure! head_timestamp st <=? timestamp else "Camelot canonical head timestamp moved backwards" ;; Ok tt) with
  | Err e => (st, Err e)
  | Ok _ =>
      (mkProjection timestamp (latest_timepoint_timestamp st) (tick st) (liquidity st) (index st) (oldest_index st)
         (current_fees st) (volume_per_liquidity_in_block st) (zero_for_one_config st) (one_for_zero_config st)
         (timepoints st), Ok tt)
  end.

(** ** Two levels are enough: the start of the window lies strictly before the
    last point, so asking for it never comes back. *)
Lemma average_with_irrelevant st ts last f g :
  timepoints st !! index st = Some last ->
  average_with (single_with f st) st ts last = average_with (single_with g st) st ts last.
Proof.
  intros Hlast. unfold average_with. destruct (timepoints st !! oldest_index st) as [o|]; [|done]. cbn [or_err rbind].
  destruct (lte_considering_overflow (block_timestamp o) _ ts); [|done].
  unfold windowed_average. destruct (lte_considering_overflow (block_timestamp last) _ ts) eqn:E; [done|].
  unfold single_with. rewrite Hlast. cbn [or_err rbind]. rewrite E. done.
Qed.

Lemma average_fuel_enough n st ts last :
  timepoints st !! index st = Some last -> average_fuel (S n) st ts last = average_tick_for_new_timepoint st ts last.
Proof. intros H. unfold average_tick_for_new_timepoint. simpl. by apply average_with_irrelevant. Qed.

(** ** What a projected fee is *)
Lemma averages_nonneg st ts v w : averages st ts = Ok (v, w) -> 0 <= v /\ 0 <= w.
Proof.
  assert (Hw : forall n x, 0 <= n -> 0 <= wrap n x) by (intros; apply Z.mod_pos_bound, Z.pow_pos_nonneg; lia).
  assert (Hd : forall n m, 0 <= n -> 0 <= m -> 0 <= n / m).
  { intros n m Hn Hm. destruct (Z.eq_dec m 0) as [->|]; [by rewrite Z.div_0_r|apply Z.div_pos; lia]. }
  assert (Hs : forall n, 0 <= n -> 0 <= Z.shiftr n 57) by (intros; by apply Z.shiftr_nonneg).
  assert (HW : 0 <= WINDOW_SECONDS) by done.
  unfold averages. intros H. res_inv. repeat case_match; res_inv; split; auto with lia.
Qed.

Lemma fees_at_current st last :
  validate_projection st = Ok tt -> head_timestamp st <= latest_timepoint_timestamp st ->
  timepoints st !! index st = Some last -> fees_at st (latest_timepoint_timestamp st) = Ok (current_fees st).
Proof.
  intros Hv Hh Hl. unfold fees_at. rewrite Hv. cbn [rbind]. rewrite (proj2 (Z.leb_le _ _) Hh). cbn [ensure rbind].
  unfold latest. rewrite Hl. cbn [or_err rbind].
  unfold validate_projection in Hv. res_inv. rewrite Hl in *. bool_prop.
  rewrite (proj2 (Z.eqb_eq _ _)) by congruence. done.
Qed.

Lemma validate_configs st :
  validate_projection st = Ok tt ->
  validate_fee_config (zero_for_one_config st) = Ok tt /\ validate_fee_config (one_for_zero_config st) = Ok tt.
Proof. unfold validate_projection. intros H. res_inv. split; by repeat match goal with u : unit |- _ => destruct u end. Qed.

Definition fee_range (c : AdaptiveFeeConfiguration) (f : Z) : Prop := base_fee c <= f <= base_fee c + alpha1 c + alpha2 c.

Definition configs_typed (st : FeeProjectionState) : bool :=
  config_typed (zero_for_one_config st) && config_typed (one_for_zero_config st).

Lemma fees_at_range st t f :
  configs_typed st = true -> fees_at st t = Ok f -> latest_timepoint_timestamp st <> t ->
  fee_range (zero_for_one_config st) (zero_for_one f) /\ fee_range (one_for_zero_config st) (one_for_zero f).
Proof.
  unfold configs_typed. intros Ht Hf Hne. bool_prop. unfold fees_at in Hf.
  destruct (validate_projection st) as [[]|] eqn:Hv; [|done]. destruct (validate_configs st Hv) as [Hv0 Hv1].
  cbn [rbind] in Hf. destruct (head_timestamp st <=? t); [|done]. cbn [ensure rbind] in Hf.
  unfold latest in Hf. destruct (timepoints st !! index st) as [last|] eqn:Hl; [|done]. cbn [or_err rbind] in Hf.
  unfold validate_projection in Hv. res_inv. rewrite Hl in *. bool_prop.
  rewrite (proj2 (Z.eqb_neq _ _)) in Hf by congruence.
  destruct (block_timestamp last <? t); [|done]. cbn [ensure rbind] in Hf.
  destruct (projected_averages_at st t) as [[v w]|] eqn:Hp; [|done]. cbn [rbind] in Hf.
  assert (0 <= v /\ 0 <= w) as [Hvn Hwn].
  { unfold projected_averages_at in Hp. res_inv. by eapply averages_nonneg. }
  assert (0 <= v / 15) by (apply Z.div_pos; lia).
  rewrite !adaptive_fee_spec in Hf by done. cbn [rbind] in Hf. injection Hf as <-.
  split; by apply fee_value_range.
Qed.

(** ** The envelope *)
Lemma fold_fees_spec st times m0 m :
  fold_fees st times m0 = Ok m ->
  zero_for_one m0 <= zero_for_one m /\ one_for_zero m0 <= one_for_zero m /\
  (forall t, t ∈ times -> exists f, fees_at st t = Ok f /\ zero_for_one f <= zero_for_one m /\ one_for_zero f <= one_for_zero m) /\
  (zero_for_one m = zero_for_one m0 \/ exists t f, t ∈ times /\ fees_at st t = Ok f /\ zero_for_one m = zero_for_one f) /\
  (one_for_zero m = one_for_zero m0 \/ exists t f, t ∈ times /\ fees_at st t = Ok f /\ one_for_zero m = one_for_zero f).
Proof.
  revert m0. induction times as [|t times IH]; intros m0 H; simpl in H.
  { injection H as <-. split_and!; try lia. intros t Ht. by apply elem_of_nil in Ht. }
  destruct (fees_at st t) as [f|] eqn:Hf; [|done]. cbn [rbind] in H.
  destruct (IH _ H) as (Hz & Ho & Hall & Hmz & Hmo). simpl in Hz, Ho.
  split_and!; [lia|lia| | |].
  - intros t' [->|Ht']%elem_of_cons; [exists f; split; [done|lia]|by apply Hall].
  - destruct Hmz as [Hmz|(t' & f' & ? & ? & ?)]; [|right; exists t', f'; by rewrite elem_of_cons; auto].
    simpl in Hmz. destruct (Z.max_spec (zero_for_one m0) (zero_for_one f)) as [[_ E]|[_ E]]; rewrite E in Hmz; [|by left].
    right. exists t, f. rewrite elem_of_cons. auto.
  - destruct Hmo as [Hmo|(t' & f' & ? & ? & ?)]; [|right; exists t', f'; by rewrite elem_of_cons; auto].
    simpl in Hmo. destruct (Z.max_spec (one_for_zero m0) (one_for_zero f)) as [[_ E]|[_ E]]; rewrite E in Hmo; [|by left].
    right. exists t, f. rewrite elem_of_cons. auto.
Qed.

Lemma fold_fees_total st times m0 :
  (forall t, t ∈ times -> exists f, fees_at st t = Ok f) -> exists m, fold_fees st times m0 = Ok m.
Proof.
  revert m0. induction times as [|t times IH]; intros m0 Hall; simpl; [by eexists|].
  destruct (Hall t (list_elem_of_here _ _)) as [f ->]. cbn [rbind]. apply IH. intros t' Ht'. apply Hall. by apply elem_of_cons; right.
Qed.

Definition below (f m : DirectionalFees) : Prop := zero_for_one f <= zero_for_one m /\ one_for_zero f <= one_for_zero m.

(** What the envelope covers, for every caller. *)
Lemma envelope_spec st h env :
  0 <= h -> envelope st h = Ok env ->
  first_timestamp env = head_timestamp st /\ last_timestamp env = head_timestamp st + h /\ last_timestamp env < 2 ^ 32 /\
  fees_at st (head_timestamp st) = Ok (env_current env) /\ below (env_current env) (env_maximum env) /\
  (forall t, head_timestamp st <= t <= last_timestamp env -> exists f, fees_at st t = Ok f /\ below f (env_maximum env)) /\
  (exists t f, head_timestamp st <= t <= last_timestamp env /\ fees_at st t = Ok f /\ zero_for_one (env_maximum env) = zero_for_one f) /\
  (exists t f, head_timestamp st <= t <= last_timestamp env /\ fees_at st t = Ok f /\ one_for_zero (env_maximum env) = one_for_zero f).
Proof.
  intros Hh H. unfold envelope in H.
  destruct (validate_projection st) as [[]|]; [|done]. cbn [rbind] in H.
  destruct (checked_add 32 (head_timestamp st) h) as [last|] eqn:Hl; [|done]. apply checked_add_Some in Hl as [-> Hl]. cbn [or_err rbind] in H.
  destruct (fees_at st (head_timestamp st)) as [cur|] eqn:Hcur; [|done]. cbn [rbind] in H.
  set (first := saturating_add 32 (head_timestamp st) 1) in H.
  destruct (fold_fees st _ cur) as [m|] eqn:Hm; [|done]. injection H as <-. simpl.
  destruct (fold_fees_spec _ _ _ _ Hm) as (Hz & Ho & Hall & Hmz & Hmo).
  assert (Hfirst : first <= head_timestamp st + 1 /\ head_timestamp st <= first)
    by (unfold first, saturating_add; lia).
  split_and!; try done.
  - intros t Ht. destruct (decide (t = head_timestamp st)) as [->|Hne]; [by exists cur|].
    apply Hall, elem_of_seqZ. lia.
  - destruct Hmz as [Hmz|(t & f & Ht%elem_of_seqZ & Hf & E)]; [exists (head_timestamp st), cur|exists t, f]; split_and!; try done; lia.
  - destruct Hmo as [Hmo|(t & f & Ht%elem_of_seqZ & Hf & E)]; [exists (head_timestamp st), cur|exists t, f]; split_and!; try done; lia.
Qed.

(** ** Heads without a pool action leave the projection alone *)
Definition with_head (st : FeeProjectionState) (h : Z) : FeeProjectionState :=
  mkProjection h (latest_timepoint_timestamp st) (tick st) (liquidity st) (index st) (oldest_index st)
    (current_fees st) (volume_per_liquidity_in_block st) (zero_for_one_config st) (one_for_zero_config st) (timepoints st).

Lemma advance_head_inv st t st' :
  advance_head st t = (st', Ok tt) ->
  st' = with_head st t /\ head_timestamp st <= t /\ validate_projection st = Ok tt.
Proof.
  unfold advance_head. destruct (validate_projection st) as [[]|]; cbn [rbind]; [|by intros [=]].
  destruct (Z.leb_spec (head_timestamp st) t); cbn [ensure rbind]; intros [= <-]; done.
Qed.

Lemma validate_with_head st h : validate_projection (with_head st h) = validate_projection st.
Proof. reflexivity. Qed.

Lemma fees_at_with_head st h t :
  head_timestamp st <= t -> h <= t -> fees_at (with_head st h) t = fees_at st t.
Proof.
  intros H1 H2. unfold fees_at. rewrite validate_with_head. cbn [head_timestamp with_head].
  rewrite (proj2 (Z.leb_le _ _) H1), (proj2 (Z.leb_le _ _) H2). reflexivity.
Qed.

Fixpoint advance_heads (st : FeeProjectionState) (heads : list Z) : Step :=
  match heads with
  | [] => (st, Ok tt)
  | h :: rest => match advance_head st h with (st', Ok _) => advance_heads st' rest | failed => failed end
  end.

Lemma advance_heads_inv st heads st' :
  advance_heads st heads = (st', Ok tt) -> exists h, st' = with_head st h /\ head_timestamp st <= h.
Proof.
  revert st. induction heads as [|t heads IH]; intros st H; simpl in H.
  - injection H as <-. exists (head_timestamp st). split; [by destruct st|lia].
  - destruct (advance_head st t) as [st1 [[]|]] eqn:E; [|done]. apply advance_head_inv in E as (-> & Ht & _).
    destruct (IH _ H) as (h & -> & Hh). exists h. split; [done|]. simpl in Hh. lia.
Qed.

(** ** The transitions *)
Definition projection_ok (st : FeeProjectionState) : Prop :=
  validate_projection st = Ok tt /\ latest_timepoint_timestamp st <= head_timestamp st.

Lemma validate_latest st :
  validate_projection st = Ok tt ->
  exists p, timepoints st !! index st = Some p /\ initialized p = true /\ block_timestamp p = latest_timepoint_timestamp st.
Proof.
  unfold validate_projection. intros H. res_inv. destruct (timepoints st !! index st) as [p|]; [|done]. bool_prop. by exists p.
Qed.

Lemma create_new_timepoint_spec last ts tk pt liq avg vol p :
  create_new_timepoint last ts tk pt liq avg vol = Ok p -> initialized p = true /\ block_timestamp p = ts.
Proof. unfold create_new_timepoint. intros H. res_inv. done. Qed.

Record fee_event_effect (st : FeeProjectionState) (t : Z) (e : DirectionalFees) (st' : FeeProjectionState) : Prop := {
  fe_projected : fees_at st t = Ok e;
  fe_valid : validate_projection st' = Ok tt;
  fe_head : head_timestamp st' = t /\ head_timestamp st <= t;
  fe_latest : latest_timepoint_timestamp st' = t /\ latest_timepoint_timestamp st < t;
  fe_fees : current_fees st' = e;
  fe_volume : volume_per_liquidity_in_block st' = 0;
  fe_configs : zero_for_one_config st' = zero_for_one_config st /\ one_for_zero_config st' = one_for_zero_config st;
}.

Lemma apply_fee_inv st t e st' : apply_fee_timepoint st t e = (st', Ok tt) -> fee_event_effect st t e st'.
Proof.
  unfold apply_fee_timepoint. destruct (rbind (validate_projection st) _) as [point|] eqn:E; [|done].
  destruct (validate_projection st) as [[]|] eqn:Hv; [|done]. cbn [rbind] in E.
  destruct (validate_latest st Hv) as (last & Hlast & Hini & Hts). unfold latest in E. rewrite Hlast in E. cbn [or_err rbind] in E.
  destruct (Z.ltb_spec (block_timestamp last) t) as [Hlt|]; [|done]. cbn [ensure rbind] in E.
  destruct (Z.leb_spec (head_timestamp st) t) as [Hle|]; [|done]. cbn [ensure rbind] in E.
  destruct (fees_at st t) as [expected|] eqn:Hf; [|done]. cbn [rbind] in E.
  destruct (bool_decide (e = expected)) eqn:He; [|done]. apply bool_decide_eq_true in He as ->. cbn [ensure rbind] in E.
  unfold next_timepoint in E. res_inv. apply create_new_timepoint_spec in E as [Hp1 Hp2].
  set (next := wrap 16 (index st + 1)). set (points := <[next:=point]> (timepoints st)).
  destruct (oldest_index_after_write points next) as [oldest|] eqn:Ho; [|done]. intros [= <-].
  split; simpl; try done; [|rewrite Hts in Hlt; lia].
  unfold validate_projection in *. simpl. res_inv.
  unfold points at 1. rewrite lookup_insert_eq, Hp1, Hp2, Z.eqb_refl.
  unfold oldest_index_after_write in Ho. res_inv. bool_prop.
  rewrite Hok1, Hok2, (proj2 (Z.eqb_neq _ _) Hok3), Hok6. done.
Qed.

Inductive FeeEvent :=
  | FeeTimepointEvent (timestamp : Z) (fees : DirectionalFees)
  | SwapEvent (timestamp amount0 amount1 new_tick new_liquidity : Z)
  | LiquidityEvent (timestamp new_tick new_liquidity : Z)
  | HeadEvent (timestamp : Z).

Definition apply_event (st : FeeProjectionState) (e : FeeEvent) : Step :=
  match e with
  | FeeTimepointEvent t fees => apply_fee_timepoint st t fees
  | SwapEvent t a0 a1 tk liq => apply_swap st t a0 a1 tk liq
  | LiquidityEvent t tk liq => apply_liquidity_head st t tk liq
  | HeadEvent t => advance_head st t
  end.

(** The pool's actions in order; the first failure ends the run. *)
Fixpoint apply_events (st : FeeProjectionState) (events : list FeeEvent) : Step :=
  match events with
  | [] => (st, Ok tt)
  | e :: rest => match apply_event st e with (st', Ok _) => apply_events st' rest | failed => failed end
  end.

Definition event_timestamp (e : FeeEvent) : Z :=
  match e with FeeTimepointEvent t _ | SwapEvent t _ _ _ _ | LiquidityEvent t _ _ | HeadEvent t => t end.

Lemma trade_head_ok st t tk liq vol :
  projection_ok st -> liq <> 0 -> projection_ok (with_trade_head st t tk liq vol).
Proof.
  intros [Hv Hh] Hl. split; [|simpl; lia]. unfold validate_projection in *. simpl. res_inv.
  rewrite Hok, Hok0, (proj2 (Z.eqb_neq _ _) Hl), Hok2, Hok3. done.
Qed.

(** One accepted event keeps the state well formed, moves neither timestamp
    back and never touches the configurations; only a [Fee] event changes the
    latest timepoint or the current fees. *)
Lemma apply_event_ok st e st' :
  projection_ok st -> apply_event st e = (st', Ok tt) ->
  projection_ok st' /\ head_timestamp st <= head_timestamp st' /\ event_timestamp e <= head_timestamp st' /\
  latest_timepoint_timestamp st <= latest_timepoint_timestamp st' /\ latest_timepoint_timestamp st <= event_timestamp e /\
  zero_for_one_config st' = zero_for_one_config st /\ one_for_zero_config st' = one_for_zero_config st.
Proof.
  intros Hok H. destruct e as [t f|t a0 a1 tk liq|t tk liq|t]; simpl in *.
  - destruct (apply_fee_inv _ _ _ _ H) as [? ? [] [] ? ? []]. split; [split; [done|lia]|]. split_and!; try lia; done.
  - unfold apply_swap in H. destruct (Z.leb_spec (latest_timepoint_timestamp st) t); [|done].
    unfold apply_swap_after_timepoint_validation in H. destruct (Z.eqb_spec liq 0); [done|]. injection H as <-.
    split; [by apply trade_head_ok|]. simpl. split_and!; try lia; done.
  - unfold apply_liquidity_head in H. destruct (rbind _ _) as [[]|] eqn:E; [|done]. injection H as <-.
    destruct Hok as [Hv Hh]. rewrite Hv in E. destruct (validate_latest st Hv) as (last & Hl & _ & Hts).
    unfold latest in E. rewrite Hl in E. cbn [rbind or_err] in E. res_inv. bool_prop.
    split; [by apply trade_head_ok|]. simpl. split_and!; try lia; done.
  - apply advance_head_inv in H as (-> & Ht & Hv). destruct Hok as [_ Hh]. split; [split; simpl; [done|lia]|].
    simpl. split_and!; try lia; done.
Qed.

Lemma apply_events_ok events st st' :
  projection_ok st -> apply_events st events = (st', Ok tt) ->
  projection_ok st' /\ head_timestamp st <= head_timestamp st' /\
  latest_timepoint_timestamp st <= latest_timepoint_timestamp st' /\
  Forall (fun e => latest_timepoint_timestamp st <= event_timestamp e <= head_timestamp st') events /\
  zero_for_one_config st' = zero_for_one_config st /\ one_for_zero_config st' = one_for_zero_config st.
Proof.
  revert st. induction events as [|e events IH]; intros st Hok H; simpl in H.
  { injection H as <-. split_and!; done || apply Forall_nil; done. }
  destruct (apply_event st e) as [st1 [[]|]] eqn:E; [|done].
  destruct (apply_event_ok _ _ _ Hok E) as (Hok1 & Hh & He & Hl & Hle & Hz & Ho).
  destruct (IH _ Hok1 H) as (Hok' & Hh' & Hl' & Hall & Hz' & Ho').
  split_and!; [done|lia|lia| |congruence|congruence].
  apply Forall_cons_2; [lia|]. revert Hall. apply Forall_impl. simpl. lia.
Qed.

(** The projected state follows the pool's actions soundly.  Along any
    sequence of accepted [Fee], swap, liquidity and head events the state stays
    well formed (its latest and oldest timepoints exist, its active liquidity
    is not zero, its head is not before its latest timepoint), neither
    timestamp moves back, no accepted event precedes the latest timepoint, and
    the configurations never change.  A [Fee] event that follows is accepted
    only with exactly the fees the projection gives for its timestamp, which
    are within the range of the configurations; afterwards the state is well
    formed at that timestamp, the block's volume is reset and the projected
    fee of that timestamp is the emitted one. *)
Theorem fee_events_follow_projection st events st1 t fees st2 :
  projection_ok st -> configs_typed st = true ->
  apply_events st events = (st1, Ok tt) -> apply_fee_timepoint st1 t fees = (st2, Ok tt) ->
  projection_ok st1 /\ head_timestamp st <= head_timestamp st1 <= t /\
  Forall (fun e => latest_timepoint_timestamp st <= event_timestamp e <= head_timestamp st1) events /\
  fees_at st1 t = Ok fees /\
  fee_range (zero_for_one_config st) (zero_for_one fees) /\ fee_range (one_for_zero_config st) (one_for_zero fees) /\
  projection_ok st2 /\ head_timestamp st2 = t /\ volume_per_liquidity_in_block st2 = 0 /\ fees_at st2 t = Ok fees.
Proof.
  intros Hok Ht Hrun Hfee. destruct (apply_events_ok _ _ _ Hok Hrun) as (Hok1 & Hh & _ & Hall & Hz & Ho).
  destruct (apply_fee_inv _ _ _ _ Hfee) as [Hp Hv2 [Hh2 Hhle] [Hl2 Hlt] Hf2 Hvol [Hz2 Ho2]].
  assert (Ht1 : configs_typed st1 = true) by (unfold configs_typed in *; by rewrite Hz, Ho).
  destruct (fees_at_range st1 t fees Ht1 Hp ltac:(lia)) as [HR0 HR1]. rewrite Hz in HR0. rewrite Ho in HR1.
  split_and!; try done; try lia; try (split; [done|lia]).
  destruct (validate_latest st2 Hv2) as (p & Hp2 & _).
  rewrite <- Hl2 at 1. rewrite <- Hf2. eapply fees_at_current; [done|lia|exact Hp2].
Qed.

(** C23. The fee envelope of a plan bounds the fees of its horizon: an envelope
    computed over a horizon covers every timestamp of the horizon (the fee is
    defined there and both directions are at most the maximum, which is reached
    at some timestamp of the horizon in each direction), and a horizon past the
    32-bit range is refused.  While only empty heads lie between - no swap and no
    change of liquidity in the pool - the next [Fee] event it emits up to the end of
    the horizon is accepted only below the envelope; after a swap of the pool the
    envelope is no longer a bound. *)
Theorem envelope_covers_fee_event st h env :
  0 <= h -> envelope st h = Ok env ->
  first_timestamp env = head_timestamp st /\ last_timestamp env = head_timestamp st + h /\ last_timestamp env < 2 ^ 32 /\
  fees_at st (head_timestamp st) = Ok (env_current env) /\
  (forall u, head_timestamp st <= u <= last_timestamp env -> exists f, fees_at st u = Ok f /\ below f (env_maximum env)) /\
  (exists u f, head_timestamp st <= u <= last_timestamp env /\ fees_at st u = Ok f /\ zero_for_one (env_maximum env) = zero_for_one f) /\
  (exists u f, head_timestamp st <= u <= last_timestamp env /\ fees_at st u = Ok f /\ one_for_zero (env_maximum env) = one_for_zero f) /\
  forall heads st1 t fees st2,
    advance_heads st heads = (st1, Ok tt) -> apply_fee_timepoint st1 t fees = (st2, Ok tt) -> t <= last_timestamp env ->
    below fees (env_maximum env) /\ current_fees st2 = fees.
Proof.
  intros Hh Henv. destruct (envelope_spec st h env Hh Henv) as (H1 & H2 & H3 & H4 & _ & H6 & H7 & H8).
  do 7 (split; [done|]). intros heads st1 t fees st2 Hheads Hfee Ht.
  destruct (advance_heads_inv _ _ _ Hheads) as (hd & -> & Hhd).
  destruct (apply_fee_inv _ _ _ _ Hfee) as [Hp _ [_ Hle] _ Hf2 _ _]. simpl in Hle.
  rewrite fees_at_with_head in Hp by lia.
  destruct (H6 t ltac:(lia)) as (f & Hf & Hb). rewrite Hp in Hf. by injection Hf as <-.
Qed.

(** The state of the source's tests, and its events. *)
Definition fixed_fee_state (timestamp : Z) : FeeProjectionState :=
  let config := mkFeeConfig 0 0 0 0 1 1 0 1 100 in
  mkProjection timestamp timestamp 0 1000 0 0 (mkFees 100 100) 7 config config
    {[ 0 := mkTimepoint true timestamp 0 0 0 0 0 ]}.

Definition tested_swap : FeeProjectionState := (apply_events (fixed_fee_state 100) [SwapEvent 100 400 (-900) 4 2000; HeadEvent 103]).1.
Definition tested_fee : FeeProjectionState := (apply_fee_timepoint tested_swap 110 (mkFees 100 100)).1.

Lemma fee_events_follow_projection_witness :
  projection_ok tested_swap /\ fees_at tested_fee 110 = Ok (mkFees 100 100).
Proof.
  destruct (fee_events_follow_projection (fixed_fee_state 100) [SwapEvent 100 400 (-900) 4 2000; HeadEvent 103]
    tested_swap 110 (mkFees 100 100) tested_fee) as (H1 & _ & _ & _ & _ & _ & _ & _ & _ & H2);
    [split; [reflexivity|simpl; lia]|reflexivity|vm_compute; reflexivity|vm_compute; reflexivity|].
  split; [exact H1|exact H2].
Defined.

Lemma envelope_covers_fee_event_witness :
  exists env, envelope (fixed_fee_state 100) 3 = Ok env /\ below (mkFees 100 100) (env_maximum env).
Proof.
  exists (mkEnvelope (mkFees 100 100) (mkFees 100 100) 100 103). split; [vm_compute; reflexivity|].
  destruct (envelope_covers_fee_event (fixed_fee_state 100) 3 (mkEnvelope (mkFees 100 100) (mkFees 100 100) 100 103))
    as (_ & _ & _ & _ & _ & _ & _ & H); [lia|vm_compute; reflexivity|].
  apply (H [101] (with_head (fixed_fee_state 100) 101) 102 (mkFees 100 100)
    (apply_fee_timepoint (with_head (fixed_fee_state 100) 101) 102 (mkFees 100 100)).1);
    [vm_compute; reflexivity|vm_compute; reflexivity|simpl; lia].
Defined.
