(* ===== verification/HydratedPools.v ===== *)
(** * Hydrated pools ([src/src/dex/hydration.rs], [src/src/dex/mirror.rs])

    The record of one pool the mirror owns: its identity, its tokens, its price
    and tick state, and for the two adaptive-fee providers the projected fee with
    the envelope the prepared curves are built at. *)
From Stdlib Require Import Lia.
From stdpp Require Import base strings numbers list gmap option.
From S2P Require Import Prelude Clmm ClmmTicks ClmmCurve ClmmPools AdaptiveFee FeeProjection.

Inductive PoolIdentity :=
  | IdV3 (address fee : Z)
  | IdPancakeV3 (address fee : Z)
  | IdCamelotV3 (address : Z)
  | IdLynexAlgebraV1_9 (address : Z)
  | IdV4 (id fee : Z).
#[global] Instance PoolIdentity_eq_dec : EqDecision PoolIdentity.
Proof. solve_decision. Defined.

Record HydratedCamelotFee := mkCamelotFee { cf_operator : Z; cf_state : FeeProjectionState; cf_envelope : FeeEnvelope }.
Record HydratedLynexFee := mkLynexFee { lf_operator : Z; lf_state : FeeProjectionState; lf_envelope : FeeEnvelope }.

Record HydratedPool := mkHydrated {
  hp_pair_id : string;
  hp_identity : PoolIdentity;
  hp_token0 : Z;
  hp_token1 : Z;
  hp_pool : ClmmPool;
  hp_camelot_fee : option HydratedCamelotFee;
  hp_lynex_fee : option HydratedLynexFee;
}.

Definition with_pool (h : HydratedPool) (p : ClmmPool) : HydratedPool :=
  mkHydrated (hp_pair_id h) (hp_identity h) (hp_token0 h) (hp_token1 h) p (hp_camelot_fee h) (hp_lynex_fee h).
Definition with_camelot (h : HydratedPool) (f : HydratedCamelotFee) : HydratedPool :=
  mkHydrated (hp_pair_id h) (hp_identity h) (hp_token0 h) (hp_token1 h) (hp_pool h) (Some f) (hp_lynex_fee h).
Definition with_lynex (h : HydratedPool) (f : HydratedLynexFee) : HydratedPool :=
  mkHydrated (hp_pair_id h) (hp_identity h) (hp_token0 h) (hp_token1 h) (hp_pool h) (hp_camelot_fee h) (Some f).

(** Errors of the projection are messages. *)
Definition lift_fee {A} (r : result string A) : CRes A := match r with Ok a => Ok a | Err s => Err (CMsg s) end.

(** A pool mutation inside the record. *)
Definition on_pool {A} (m : M ClmmPool ClmmError A) : M HydratedPool ClmmError A := fun h =>
  let '(p, r) := m (hp_pool h) in (with_pool h p, r).

Definition refresh_camelot (fee : HydratedCamelotFee) : M HydratedPool ClmmError bool :=
  do horizon <- mlift (or_err (checked_sub (last_timestamp (cf_envelope fee)) (first_timestamp (cf_envelope fee)))
                        (CMsg "Camelot fee envelope timestamps are not ordered")) ;;
  do env <- mlift (lift_fee (envelope (cf_state fee) horizon)) ;;
  do h <- mget ;;
  do! mput (with_camelot h (mkCamelotFee (cf_operator fee) (cf_state fee) env)) ;;
  do! on_pool (set_algebra_directional_fees (zero_for_one (env_maximum env)) (one_for_zero (env_maximum env))) ;;
  mret (negb (bool_decide (env_maximum (cf_envelope fee) = env_maximum env))).

Definition refresh_lynex (fee : HydratedLynexFee) : M HydratedPool ClmmError bool :=
  do horizon <- mlift (or_err (checked_sub (last_timestamp (lf_envelope fee)) (first_timestamp (lf_envelope fee)))
                        (CMsg "Lynex fee envelope timestamps are not ordered")) ;;
  do env <- mlift (lift_fee (envelope (lf_state fee) horizon)) ;;
  do h <- mget ;;
  do! mput (with_lynex h (mkLynexFee (lf_operator fee) (lf_state fee) env)) ;;
  do! mlift (ensure ((zero_for_one (env_current env) =? one_for_zero (env_current env))
                     && (zero_for_one (env_maximum env) =? one_for_zero (env_maximum env)))
               (CMsg "Lynex single-fee projection became directional")) ;;
  do! on_pool (set_algebra_single_fee (zero_for_one (env_maximum env))) ;;
  mret (negb (bool_decide (env_maximum (lf_envelope fee) = env_maximum env))).

Definition refresh_adaptive_algebra_envelope : M HydratedPool ClmmError bool := fun h =>
  match hp_camelot_fee h, hp_lynex_fee h with
  | Some fee, _ => refresh_camelot fee h
  | None, Some fee => refresh_lynex fee h
  | None, None => (h, Err (CMsg "adaptive Algebra hydrated fee state is missing"))
  end.

(** [DexMirror::refresh_pool_for_publication] on its pools. *)
Definition refresh_pool_for_publication (index : nat) : M (list HydratedPool) ClmmError bool := fun pools =>
  match pools !! index with
  | None => (pools, Err (CMsg "DEX pool index is invalid"))
  | Some h =>
      if bool_decide (is_Some (hp_camelot_fee h)) || bool_decide (is_Some (hp_lynex_fee h))
      then let '(h', r) := refresh_adaptive_algebra_envelope h in (<[index := h']> pools, r)
      else (pools, Ok false)
  end.

(** The fee state of either provider. *)
Definition adaptive_state (h : HydratedPool) : option (FeeProjectionState * FeeEnvelope) :=
  match hp_camelot_fee h, hp_lynex_fee h with
  | Some f, _ => Some (cf_state f, cf_envelope f)
  | None, Some f => Some (lf_state f, lf_envelope f)
  | None, None => None
  end.

(** What a refreshed pool promises to the curves built from it: they are
    charged the envelope, which covers the fees of its whole horizon. *)
Record published_fee (h h' : HydratedPool) : Prop := {
  pf_identity : hp_identity h' = hp_identity h /\ hp_token0 h' = hp_token0 h /\ hp_token1 h' = hp_token1 h;
  pf_pool : exists f01 f10, hp_pool h' = set_fees (hp_pool h) f01 f10;
  pf_fees : exists st env old, adaptive_state h = Some (st, old) /\ adaptive_state h' = Some (st, env) /\
    first_timestamp env = head_timestamp st /\
    last_timestamp env - first_timestamp env = last_timestamp old - first_timestamp old /\
    fee_pips_for_direction (hp_pool h') true = zero_for_one (env_maximum env) /\
    fee_pips_for_direction (hp_pool h') false = one_for_zero (env_maximum env) /\
    forall t, head_timestamp st <= t <= last_timestamp env ->
      exists f, fees_at st t = Ok f /\ below f (env_maximum env);
}.

Lemma lift_fee_Ok {A} (r : result string A) a : lift_fee r = Ok a -> r = Ok a.
Proof. destruct r; simpl; intros H; [by injection H as <-|done]. Qed.

Lemma set_directional_inv f01 f10 p p' :
  set_algebra_directional_fees f01 f10 p = (p', Ok tt) -> p' = set_fees p f01 f10 /\ fee_profile p = AlgebraDirectional.
Proof.
  unfold set_algebra_directional_fees. intros H. repeat case_match; simplify_eq. split; [done|].
  repeat match goal with E : negb _ = false |- _ => apply negb_false_iff in E end. bool_prop. done.
Qed.

Lemma set_single_inv f p p' : set_algebra_single_fee f p = (p', Ok tt) -> p' = set_fees p f f.
Proof. unfold set_algebra_single_fee. intros H. repeat case_match; by simplify_eq. Qed.

Lemma horizon_kept st horizon env old :
  checked_sub (last_timestamp old) (first_timestamp old) = Some horizon -> envelope st horizon = Ok env ->
  first_timestamp env = head_timestamp st /\
  last_timestamp env - first_timestamp env = last_timestamp old - first_timestamp old /\
  forall t, head_timestamp st <= t <= last_timestamp env -> exists f, fees_at st t = Ok f /\ below f (env_maximum env).
Proof.
  intros Hh He. apply checked_sub_Some in Hh as [-> Hle].
  destruct (envelope_spec st (last_timestamp old - first_timestamp old) env ltac:(lia) He) as (E1 & E2 & _ & _ & _ & Hall & _). split; [done|]. split; [lia|done].
Qed.

Lemma refresh_published h h' changed :
  refresh_adaptive_algebra_envelope h = (h', Ok changed) -> published_fee h h'.
Proof.
  unfold refresh_adaptive_algebra_envelope.
  destruct (hp_camelot_fee h) as [fee|] eqn:Ec; [|destruct (hp_lynex_fee h) as [fee|] eqn:El; [|done]].
  - unfold refresh_camelot, mbind', mlift, mget, mput, mret.
    destruct (checked_sub _ _) as [horizon|] eqn:Eh; cbn [or_err]; [|done].
    destruct (lift_fee _) as [env|] eqn:Ee; [|done]. apply lift_fee_Ok in Ee.
    unfold on_pool. destruct (set_algebra_directional_fees _ _ _) as [p [[]|]] eqn:Ep; [|done].
    apply set_directional_inv in Ep as [-> _]. intros [= <- _].
    destruct (horizon_kept _ _ _ _ Eh Ee) as (H1 & H2 & H3).
    split; [done|by do 2 eexists|]. exists (cf_state fee), env, (cf_envelope fee).
    unfold adaptive_state. simpl. rewrite Ec. done.
  - unfold refresh_lynex, mbind', mlift, mget, mput, mret.
    destruct (checked_sub _ _) as [horizon|] eqn:Eh; cbn [or_err]; [|done].
    destruct (lift_fee _) as [env|] eqn:Ee; [|done]. apply lift_fee_Ok in Ee.
    destruct (ensure _ _) as [[]|] eqn:En; [|done]. apply ensure_Ok in En. bool_prop.
    unfold on_pool. destruct (set_algebra_single_fee _ _) as [p [[]|]] eqn:Ep; [|done].
    apply set_single_inv in Ep as ->. intros [= <- _].
    destruct (horizon_kept _ _ _ _ Eh Ee) as (H1 & H2 & H3).
    split; [done|by do 2 eexists|]. exists (lf_state fee), env, (lf_envelope fee).
    unfold adaptive_state. simpl. rewrite Ec, El. unfold fee_pips_for_direction. simpl. done.
Qed.
