(* ===== verification/TradeData.v ===== *)
(** * Trade operations ([src/src/arbitrage.rs])

    The durable parent record of one two-legged arbitrage: the immutable
    intent, the results of its legs, its validation, and the arithmetic that
    turns leg results into residual exposure, recovery quantities and profit.
    The theorem is the rounding rule of the residual mark. *)
From Stdlib Require Import Lia.
From stdpp Require Import base gmap strings numbers list fin_maps pretty.
From S2P Require Import Prelude Decimals ExecutionPlan.

Definition MAX_RECOVERY_ATTEMPTS : nat := 3.
Definition RECOVERY_RETRY_BASE_DELAY_MS : Z := 250.

(** ** Data *)
Inductive ExecutionMode := DexFirst | ConcurrentHedged.
#[global] Instance ExecutionMode_eq_dec : EqDecision ExecutionMode.
Proof. solve_decision. Defined.

Inductive ArbitrageDirection := BuyTokenBOnDexSellOnCex | BuyTokenBOnCexSellOnDex.
#[global] Instance ArbitrageDirection_eq_dec : EqDecision ArbitrageDirection.
Proof. solve_decision. Defined.

Definition dex_token_b_delta (d : ArbitrageDirection) (amount : Z) : Z :=
  match d with
  | BuyTokenBOnDexSellOnCex => amount
  | BuyTokenBOnCexSellOnDex => i128_neg amount
  end.

Record TradeJournalScope := mkTradeScope {
  sc_schema_version : Z;
  sc_account_id : string;
  sc_network_id : string;
  sc_chain_id : Z;
  sc_wallet_id : string;
  sc_strategy_id : string;
  sc_symbol : string;
}.
#[global] Instance TradeJournalScope_eq_dec : EqDecision TradeJournalScope.
Proof. solve_decision. Defined.

Record AdmissionRiskBounds := mkAdmission {
  opportunity_threshold_met : bool;
  opportunity_threshold_bps : Z;
  depth_source : option string;
  depth_age_ms : option Z;
  depth_update_delta : option Z;
  top_matches : option bool;
  top_mismatch_reason : option string;
  execution_slippage_bps : Z;
  cex_primary_limit_price : Decimal;
  cex_primary_top_quantity : Decimal;
  cex_recovery_limit_price : Decimal;
  cex_recovery_sell_limit_price : option Decimal;
  cex_recovery_buy_limit_price : option Decimal;
  recovery_quote_token_a : Z;
  recovery_sell_quote_token_a : Z;
  recovery_buy_quote_token_a : Z;
  maximum_recovery_loss_token_a : Z;
  maximum_fee_per_gas_wei : Z;
  gas_conversion_price_token_a : Decimal;
  maximum_gas_cost_token_a : Z;
  bounded_profit_token_a : Z;
}.
#[global] Instance AdmissionRiskBounds_eq_dec : EqDecision AdmissionRiskBounds.
Proof. solve_decision. Defined.

Record TradeIntent := mkTradeIntent {
  plan_id : string;
  source_revision : string;
  pair_id : string;
  journal_scope : option TradeJournalScope;
  opportunity_received_unix_us : Z;
  opportunity_update_id : Z;
  mode : ExecutionMode;
  direction : ArbitrageDirection;
  planned_token_b : Z;
  token_b_step : Z;
  expected_cost_token_a : Z;
  expected_proceeds_token_a : Z;
  dex_operation_id : string;
  cex_client_order_id : string;
  admission : option AdmissionRiskBounds;
  dex_plan : option DexSwapPlan;
}.
#[global] Instance TradeIntent_eq_dec : EqDecision TradeIntent.
Proof. solve_decision. Defined.

Inductive LegRole := Dex | Cex | RecoveryCex.
Inductive LegStatus := Filled | Failed | Unknown.
#[global] Instance LegStatus_eq_dec : EqDecision LegStatus.
Proof. solve_decision. Defined.

(** Settlement evidence of the live process ([src/src/chain/logs.rs],
    [src/src/dex/events.rs]); never serialized. *)
Record ChainLog := mkChainLog {
  log_address : Z; log_topics : list Z; log_data : list Z; log_block_number : Z;
  log_block_hash : Z; log_transaction_index : Z; log_log_index : Z; log_removed : bool;
}.
#[global] Instance ChainLog_eq_dec : EqDecision ChainLog.
Proof. solve_decision. Defined.

Inductive AdaptiveFeeReceiptProof :=
| CamelotProof (pool zero_for_one one_for_zero block_number block_hash transaction_index log_index : Z)
| LynexProof (pool fee block_number block_hash transaction_index log_index : Z).
#[global] Instance AdaptiveFeeReceiptProof_eq_dec : EqDecision AdaptiveFeeReceiptProof.
Proof. solve_decision. Defined.

Record LegResult := mkLeg {
  leg_status : LegStatus;
  executed_token_b : option Z;
  token_b_delta : Z;
  token_a_delta : Z;
  third_asset_deltas : gmap string Decimal;
  third_asset_prices : gmap string Decimal;
  gas_cost : Z;
  venue_reference : string;
  settlement_fee : option AdaptiveFeeReceiptProof;
  settlement_log : option ChainLog;
}.
#[global] Instance LegResult_eq_dec : EqDecision LegResult.
Proof. solve_decision. Defined.

Inductive TerminalOutcome := OutcomeProfit | OutcomeLoss.
#[global] Instance TerminalOutcome_eq_dec : EqDecision TerminalOutcome.
Proof. solve_decision. Defined.

Record ArbitrageResult := mkResult {
  expected_profit : Z;
  realized_profit : Z;
  residual_value : Z;
  comparable_profit : Z;
  residual_token_b : Z;
  gas_cost_total : Z;
  recovery_loss : Z;
  outcome : TerminalOutcome;
}.
#[global] Instance ArbitrageResult_eq_dec : EqDecision ArbitrageResult.
Proof. solve_decision. Defined.

Inductive TradeStage :=
| Prepared | Executing | Recovering | BalancedProfit | BalancedLoss | UnknownExposure | Halted.
#[global] Instance TradeStage_eq_dec : EqDecision TradeStage.
Proof. solve_decision. Defined.

Definition terminal (s : TradeStage) : bool :=
  match s with BalancedProfit | BalancedLoss => true | _ => false end.

Record OperatorRecoveryEvidence := mkEvidence {
  ev_actor : string;
  ev_recovered_at_unix_ms : Z;
  ev_dex_transaction_hash : string;
  ev_binance_order_id : Z;
  ev_binance_client_order_id : string;
}.
#[global] Instance OperatorRecoveryEvidence_eq_dec : EqDecision OperatorRecoveryEvidence.
Proof. solve_decision. Defined.

Record TradeOperation := mkTrade {
  intent : TradeIntent;
  stage : TradeStage;
  dex_dispatched : bool;
  cex_dispatched : bool;
  cex_execution_limit_price : option Decimal;
  dex_result : option LegResult;
  cex_result : option LegResult;
  recovery_results : list LegResult;
  recovery_inflight : bool;
  recovery_target : option Z;
  recovery_retry_not_before : option Z;
  final_result : option ArbitrageResult;
  blocking_reason : option string;
  operator_recovery : option OperatorRecoveryEvidence;
}.
#[global] Instance TradeOperation_eq_dec : EqDecision TradeOperation.
Proof. solve_decision. Defined.

Definition prepared (it : TradeIntent) : TradeOperation :=
  mkTrade it Prepared false false None None None [] false None None None None None.

(** ** Equality of the code: decimals compare by value *)
Definition norm_admission (a : AdmissionRiskBounds) : AdmissionRiskBounds :=
  mkAdmission (opportunity_threshold_met a) (opportunity_threshold_bps a) (depth_source a)
    (depth_age_ms a) (depth_update_delta a) (top_matches a) (top_mismatch_reason a)
    (execution_slippage_bps a) (dec_norm (cex_primary_limit_price a))
    (dec_norm (cex_primary_top_quantity a)) (dec_norm (cex_recovery_limit_price a))
    (dec_norm <$> cex_recovery_sell_limit_price a) (dec_norm <$> cex_recovery_buy_limit_price a)
    (recovery_quote_token_a a) (recovery_sell_quote_token_a a) (recovery_buy_quote_token_a a)
    (maximum_recovery_loss_token_a a) (maximum_fee_per_gas_wei a)
    (dec_norm (gas_conversion_price_token_a a)) (maximum_gas_cost_token_a a)
    (bounded_profit_token_a a).
Definition norm_intent (i : TradeIntent) : TradeIntent :=
  mkTradeIntent (plan_id i) (source_revision i) (pair_id i) (journal_scope i)
    (opportunity_received_unix_us i) (opportunity_update_id i) (mode i) (direction i)
    (planned_token_b i) (token_b_step i) (expected_cost_token_a i) (expected_proceeds_token_a i)
    (dex_operation_id i) (cex_client_order_id i) (norm_admission <$> admission i) (dex_plan i).
Definition norm_leg (l : LegResult) : LegResult :=
  mkLeg (leg_status l) (executed_token_b l) (token_b_delta l) (token_a_delta l)
    (dec_norm <$> third_asset_deltas l) (dec_norm <$> third_asset_prices l) (gas_cost l)
    (venue_reference l) (settlement_fee l) (settlement_log l).

Definition intent_eqb (a b : TradeIntent) : bool := bool_decide (norm_intent a = norm_intent b).
Definition leg_eqb (a b : LegResult) : bool := bool_decide (norm_leg a = norm_leg b).
Definition legs_eqb (a b : list LegResult) : bool := bool_decide (norm_leg <$> a = norm_leg <$> b).
Definition opt_leg_eqb (a b : option LegResult) : bool :=
  bool_decide (norm_leg <$> a = norm_leg <$> b).
Definition opt_dec_eqb (a b : option Decimal) : bool :=
  bool_decide (dec_norm <$> a = dec_norm <$> b).

(** ** Validation *)
Definition trade_id_byte (c : Ascii.ascii) : bool :=
  is_ascii_alphanumeric c || byte_is 45 c || byte_is 95 c || byte_is 46 c || byte_is 58 c
  || byte_is 47 c.

Definition validate_id (value : string) (maximum : Z) : TRes unit :=
  ensure! negb (str_is_empty value) && (str_len value <=? maximum) else "id has invalid length" ;;
  ensure! bytes_all trade_id_byte value else "id contains unsupported characters" ;;
  Ok tt.

Definition validate_scope (s : TradeJournalScope) : TRes unit :=
  ensure! sc_schema_version s =? 2 else "unsupported trade journal scope schema version" ;;
  let? _ := validate_id (sc_account_id s) 96 in
  let? _ := validate_id (sc_network_id s) 96 in
  ensure! 0 <? sc_chain_id s else "trade journal scope chain id is zero" ;;
  let? _ := validate_id (sc_wallet_id s) 128 in
  let? _ := validate_id (sc_strategy_id s) 96 in
  validate_id (sc_symbol s) 24.

Definition is_none_or {A} (o : option A) (p : A -> bool) : bool :=
  match o with None => true | Some a => p a end.
Definition is_some_and {A} (o : option A) (p : A -> bool) : bool :=
  match o with None => false | Some a => p a end.

Definition known_depth_source (s : string) : bool :=
  bool_decide (s = "sequence_matched_full_depth"%string)
  || bool_decide (s = "recent_full_depth"%string) || bool_decide (s = "top_of_book_only"%string).

Definition validate_admission (a : AdmissionRiskBounds) : TRes unit :=
  ensure! is_none_or (depth_source a) known_depth_source else "admission depth source is invalid" ;;
  ensure! negb (bool_decide (top_matches a = Some true))
          || bool_decide (top_mismatch_reason a = None)
    else "matching admission top cannot have a mismatch reason" ;;
  ensure! execution_slippage_bps a <=? 10000 else "execution slippage exceeds 100%" ;;
  ensure! opportunity_threshold_bps a <=? 10000 else "opportunity threshold exceeds 100%" ;;
  ensure! dec_ltb dec_zero (cex_primary_limit_price a)
    else "CEX primary limit price is non-positive" ;;
  ensure! dec_leb dec_zero (cex_primary_top_quantity a) else "CEX primary quantity is negative" ;;
  ensure! dec_ltb dec_zero (cex_recovery_limit_price a)
    else "CEX recovery limit price is non-positive" ;;
  ensure! is_none_or (cex_recovery_sell_limit_price a) (dec_ltb dec_zero)
          && is_none_or (cex_recovery_buy_limit_price a) (dec_ltb dec_zero)
    else "directional CEX recovery limit price is non-positive" ;;
  ensure! 0 <? recovery_quote_token_a a else "CEX recovery quote is zero" ;;
  ensure! dec_leb dec_zero (gas_conversion_price_token_a a)
    else "gas conversion price is negative" ;;
  Ok tt.

Definition recovery_quote_for_residual (a : AdmissionRiskBounds) (residual : Z) : Z :=
  if 0 <? residual then
    if 0 <? recovery_sell_quote_token_a a then recovery_sell_quote_token_a a
    else recovery_quote_token_a a
  else if 0 <? recovery_buy_quote_token_a a then recovery_buy_quote_token_a a
  else recovery_quote_token_a a.

Definition validate_evidence (e : OperatorRecoveryEvidence) : TRes unit :=
  let? _ := validate_id (ev_actor e) 96 in
  ensure! 0 <? ev_recovered_at_unix_ms e else "operator recovery timestamp is zero" ;;
  ensure! starts_with (ev_dex_transaction_hash e) "0x"
          && (str_len (ev_dex_transaction_hash e) =? 66)
          && bytes_all is_ascii_hexdigit (String.substring 2 64 (ev_dex_transaction_hash e))
    else "operator recovery DEX transaction hash is invalid" ;;
  ensure! 0 <? ev_binance_order_id e else "operator recovery Binance order id is zero" ;;
  validate_id (ev_binance_client_order_id e) 36.

Definition validate_leg (l : LegResult) : TRes unit :=
  let? _ := validate_id (venue_reference l) 128 in
  let? _ :=
    if decide (leg_status l = Failed) then
      ensure! (token_b_delta l =? 0) && (token_a_delta l =? 0)
              && bool_decide (third_asset_deltas l = ∅)
        else "a failed leg cannot claim venue balance changes" ;;
      ensure! is_none_or (executed_token_b l) (fun e => e =? 0)
        else "a failed leg cannot claim an executed quantity" ;;
      Ok tt
    else Ok tt in
  ensure! bool_decide (dom (third_asset_prices l) ⊆ dom (third_asset_deltas l))
    else "third-asset valuation has no matching balance delta" ;;
  ensure! (bool_decide (settlement_fee l = None) && bool_decide (settlement_log l = None))
          || bool_decide (leg_status l = Filled)
    else "only a filled leg may carry a DEX settlement log" ;;
  ensure! bool_decide (settlement_fee l = None) || negb (bool_decide (settlement_log l = None))
    else "DEX settlement Fee log has no matching Swap log" ;;
  Ok tt.

Section intents.
Context `{EvmText}.

Definition validate_intent (i : TradeIntent) : TRes unit :=
  let? _ := validate_id (plan_id i) 96 in
  let? _ := validate_id (source_revision i) 96 in
  let? _ := validate_id (pair_id i) 96 in
  let? _ := match journal_scope i with Some s => validate_scope s | None => Ok tt end in
  let? _ := validate_id (dex_operation_id i) 120 in
  let? _ := validate_id (cex_client_order_id i) 36 in
  ensure! 0 <? planned_token_b i else "planned token-B amount must be positive" ;;
  let? _ :=
    match admission i with
    | Some _ =>
        ensure! 0 <? token_b_step i else "newly admitted token-B step must be positive" ;; Ok tt
    | None =>
        ensure! 0 <=? token_b_step i else "historical token-B step cannot be negative" ;; Ok tt
    end in
  ensure! 0 <? expected_cost_token_a i else "expected token-A cost must be positive" ;;
  ensure! 0 <? expected_proceeds_token_a i else "expected token-A proceeds must be positive" ;;
  let? _ := match admission i with Some a => validate_admission a | None => Ok tt end in
  match dex_plan i with Some p => validate_plan p | None => Ok tt end.
End intents.

Definition expected_profit_of (i : TradeIntent) : Z :=
  i128_saturating_sub (expected_proceeds_token_a i) (expected_cost_token_a i).

(** ** Leg arithmetic *)

(** The results in the order every fold visits them. *)
Definition legs (o : TradeOperation) : list LegResult :=
  option_list (dex_result o) ++ option_list (cex_result o) ++ recovery_results o.

Definition sat_sum (f : LegResult -> Z) (l : list LegResult) : Z :=
  fold_left (fun total r => i128_saturating_add total (f r)) l 0.

Definition token_b_residual (o : TradeOperation) : Z := sat_sum token_b_delta (legs o).

(** [step > 0 && x.unsigned_abs() < step]. *)
Definition below_step (step x : Z) : bool := (0 <? step) && (Z.abs x <? step).

Definition actionable_token_b_residual (o : TradeOperation) : Z :=
  let residual := token_b_residual o in
  if below_step (token_b_step (intent o)) residual then 0 else residual.

Definition primary_recovery_target (o : TradeOperation) : option Z :=
  dex ← dex_result o;
  cex ← cex_result o;
  let primary_target := i128_saturating_neg (token_b_delta dex) in
  let executed := default (token_b_delta cex) (executed_token_b cex) in
  let target := i128_saturating_sub primary_target executed in
  Some (if below_step (token_b_step (intent o)) target then 0 else target).

Definition gas_sum (l : list LegResult) : Z :=
  fold_left (fun total r => saturating_add 128 total (gas_cost r)) l 0.

Definition realized_profit_of (o : TradeOperation) : Z * Z :=
  let token_a := sat_sum token_a_delta (legs o) in
  let gas := gas_sum (legs o) in
  (i128_saturating_sub token_a (Z.min gas I128_MAX), gas).

Definition recovery_token_a_delta (o : TradeOperation) : Z :=
  sat_sum token_a_delta (recovery_results o).

Definition realized_primary_cost_and_proceeds (o : TradeOperation) : option (Z * Z) :=
  dex ← dex_result o;
  cex ← cex_result o;
  let '(cost, proceeds) :=
    match direction (intent o) with
    | BuyTokenBOnDexSellOnCex => (i128_saturating_neg (token_a_delta dex), token_a_delta cex)
    | BuyTokenBOnCexSellOnDex => (i128_saturating_neg (token_a_delta cex), token_a_delta dex)
    end in
  Some (Z.max cost 0, Z.max proceeds 0).

Definition has_unknown_leg (o : TradeOperation) : bool :=
  existsb (fun r => bool_decide (leg_status r = Unknown)) (legs o).

(** ** Recovery policy *)
Definition recovery_failure_is_retryable (r : LegResult) : bool :=
  bool_decide (leg_status r = Failed)
  && (bool_decide (venue_reference r = "cex:market-unsubmitted"%string)
      || bool_decide (venue_reference r = "cex:market-rejected"%string)
      || starts_with (venue_reference r) "cex:market-zero-fill:").

Definition dex_failure_proves_zero_exposure (r : LegResult) : bool :=
  bool_decide (leg_status r = Failed)
  && (bool_decide (venue_reference r = "dex:unsubmitted"%string)
      || ends_with (venue_reference r) ":reverted").

Definition recovery_retry_delay_ms (completed_attempts : nat) : TRes Z :=
  ensure! (1 <=? completed_attempts)%nat && (completed_attempts <? MAX_RECOVERY_ATTEMPTS)%nat
    else "recovery retry attempt is outside the bounded policy" ;;
  or_err (checked_mul 64 RECOVERY_RETRY_BASE_DELAY_MS (2 ^ (Z.of_nat completed_attempts - 1)))
    "recovery retry delay overflow".

Definition set_retry (o : TradeOperation) (r : option Z) : TradeOperation :=
  mkTrade (intent o) (stage o) (dex_dispatched o) (cex_dispatched o) (cex_execution_limit_price o)
    (dex_result o) (cex_result o) (recovery_results o) (recovery_inflight o) (recovery_target o) r
    (final_result o) (blocking_reason o) (operator_recovery o).

(** The clock is an argument. *)
Definition refresh_recovery_retry_deadline (now : TRes Z) (o : TradeOperation)
  : TRes TradeOperation :=
  if is_some_and (last (recovery_results o)) recovery_failure_is_retryable
     && (length (recovery_results o) <? MAX_RECOVERY_ATTEMPTS)%nat
  then
    let? delay := recovery_retry_delay_ms (length (recovery_results o)) in
    let? t := now in
    let? deadline := or_err (checked_add 64 t delay) "recovery retry deadline overflow" in
    Ok (set_retry o (Some deadline))
  else Ok (set_retry o None).

Definition dex_first_recovery_direction_is_valid (d : ArbitrageDirection) (target : Z) : bool :=
  match d with
  | BuyTokenBOnDexSellOnCex => target <? 0
  | BuyTokenBOnCexSellOnDex => 0 <? target
  end.

(** ** Finalization *)
Definition residual_value_of (o : TradeOperation) : TRes Z :=
  let residual := token_b_residual o in
  if residual =? 0 then Ok 0 else
  match admission (intent o) with
  | None => Ok 0
  | Some a =>
      let planned := Z.abs (planned_token_b (intent o)) in
      ensure! 0 <? planned else "residual mark has zero planned token-B amount" ;;
      let quote := recovery_quote_for_residual a residual in
      ensure! 0 <? quote else "residual mark has zero recovery quote" ;;
      let? numerator := or_err (checked_mul 256 (Z.abs residual) quote)
                          "residual mark numerator overflow" in
      let quotient := numerator / planned in
      let? magnitude :=
        if (residual <? 0) && negb (numerator mod planned =? 0)
        then or_err (checked_add 256 quotient 1) "residual liability rounding overflow"
        else Ok quotient in
      ensure! magnitude <? 2 ^ 128 else "residual mark exceeds u128" ;;
      ensure! magnitude <=? I128_MAX else "residual mark exceeds i128" ;;
      Ok (if 0 <? residual then magnitude else - magnitude)
  end.

Definition set_final (o : TradeOperation) (s : TradeStage) (r : option ArbitrageResult)
  : TradeOperation :=
  mkTrade (intent o) s (dex_dispatched o) (cex_dispatched o) (cex_execution_limit_price o)
    (dex_result o) (cex_result o) (recovery_results o) (recovery_inflight o) (recovery_target o)
    (recovery_retry_not_before o) r (blocking_reason o) (operator_recovery o).

Definition finalize_balanced (o : TradeOperation) : TRes TradeOperation :=
  ensure! negb (has_unknown_leg o)
    else "trade with an unknown venue outcome cannot be finalized as balanced" ;;
  ensure! negb (dex_dispatched o) || negb (bool_decide (dex_result o = None))
    else "trade with a dispatched DEX leg has no terminal result" ;;
  ensure! negb (cex_dispatched o) || negb (bool_decide (cex_result o = None))
    else "trade with a dispatched CEX leg has no terminal result" ;;
  ensure! negb (recovery_inflight o)
    else "trade with an inflight recovery cannot be finalized as balanced" ;;
  let? _ :=
    match dex_result o with
    | Some dex =>
        if decide (leg_status dex = Failed) then
          ensure! dex_failure_proves_zero_exposure dex
            else "failed DEX leg does not prove a terminal zero-exposure outcome" ;;
          Ok tt
        else Ok tt
    | None => Ok tt
    end in
  let '(realized, gas) := realized_profit_of o in
  let recovery_token_a := recovery_token_a_delta o in
  let? residual := residual_value_of o in
  let? comparable := or_err (i128_checked_add realized residual)
                       "comparable realized profit overflow" in
  let out := if 0 <=? comparable then OutcomeProfit else OutcomeLoss in
  Ok (set_final o (match out with OutcomeProfit => BalancedProfit | OutcomeLoss => BalancedLoss end)
        (Some (mkResult (expected_profit_of (intent o)) realized residual comparable
                 (token_b_residual o) gas
                 (i128_saturating_neg (Z.min recovery_token_a 0)) out))).

(** ** Deterministic recovery identifiers ([src/src/binance/order_plan.rs]) *)
Definition is_ascii_byte (c : Ascii.ascii) : bool := byte_in 0 127 c.

Definition recovery_client_order_id (primary : string) (attempt : nat) : TRes string :=
  ensure! (0 <? attempt)%nat && (attempt <=? 9)%nat else "invalid Binance recovery attempt" ;;
  ensure! starts_with primary "rustarb" && bytes_all is_ascii_byte primary
    else "primary Binance client id is outside the Rust namespace" ;;
  let suffix := ("r" +:+ pretty attempt)%string in
  ensure! str_len primary + str_len suffix <=? 36
    else "primary Binance client id leaves no recovery suffix space" ;;
  Ok (primary +:+ suffix)%string.

Definition dex_reference (hash : string) : string := ("dex:" +:+ hash)%string.
Definition cex_reference (order_id : Z) : string := ("cex:" +:+ pretty (Z.to_N order_id))%string.

Definition deterministic_client_id (primary candidate : string) : bool :=
  existsb (fun attempt => bool_decide (recovery_client_order_id primary attempt = Ok candidate))
    (seq 1 MAX_RECOVERY_ATTEMPTS).

(** ** The whole operation *)
Section operations.
Context `{EvmText}.

Fixpoint validate_legs (l : list LegResult) : TRes unit :=
  match l with
  | [] => Ok tt
  | r :: l' => let? _ := validate_leg r in validate_legs l'
  end.

Definition validate_operator_recovery (o : TradeOperation) (e : OperatorRecoveryEvidence)
  : TRes unit :=
  let? _ := validate_evidence e in
  let? dex := or_err (dex_result o) "operator recovery has no DEX result" in
  let? recovery := or_err (head (recovery_results o)) "operator recovery has no Binance result" in
  ensure! terminal (stage o) && negb (bool_decide (final_result o = None))
          && (length (recovery_results o) =? 1)%nat && (token_b_residual o =? 0)
    else "operator recovery is not terminal and balanced" ;;
  ensure! bool_decide (leg_status dex = Filled)
          && bool_decide (venue_reference dex = dex_reference (ev_dex_transaction_hash e))
    else "operator recovery DEX evidence mismatch" ;;
  ensure! bool_decide (leg_status recovery = Filled)
          && bool_decide (venue_reference recovery = cex_reference (ev_binance_order_id e))
          && (token_b_delta recovery =? i128_saturating_neg (token_b_delta dex))
    else "operator recovery Binance evidence mismatch" ;;
  ensure! deterministic_client_id (cex_client_order_id (intent o)) (ev_binance_client_order_id e)
    else "operator recovery client id is not deterministic" ;;
  Ok tt.

Definition retry_deadline_matches (o : TradeOperation) : bool :=
  bool_decide (recovery_retry_not_before o = None)
  || (bool_decide (stage o = Recovering) && negb (recovery_inflight o)
      && bool_decide (final_result o = None)
      && (length (recovery_results o) <? MAX_RECOVERY_ATTEMPTS)%nat
      && is_some_and (last (recovery_results o)) recovery_failure_is_retryable).

Definition validate_operation (o : TradeOperation) : TRes unit :=
  let? _ := validate_intent (intent o) in
  ensure! (length (recovery_results o) <=? MAX_RECOVERY_ATTEMPTS)%nat
    else "too many recovery attempts" ;;
  ensure! retry_deadline_matches o
    else "recovery retry deadline does not match a retryable terminal attempt" ;;
  let? _ := validate_legs (legs o) in
  ensure! negb (Bool.eqb (bool_decide (final_result o = None)) (terminal (stage o)))
    else "terminal result and stage disagree" ;;
  let? _ := match blocking_reason o with Some r => validate_id r 256 | None => Ok tt end in
  match operator_recovery o with
  | Some e => validate_operator_recovery o e
  | None => Ok tt
  end.
End operations.

(** ** The value of a residual *)

Lemma sat_sum_range f l : i128 (sat_sum f l).
Proof.
  unfold sat_sum. assert (Hz : i128 0) by done. revert Hz. generalize 0.
  induction l as [|r l IH]; intros z Hz; [done|]. simpl. apply IH, sat_i128_range.
Qed.

(** Truncating the magnitude and rounding liabilities up is the floor. *)
Lemma mark_magnitude x q p :
  x <> 0 -> 0 < q -> 0 < p ->
  (if 0 <? x then Z.abs x * q / p
   else - (Z.abs x * q / p + if Z.abs x * q mod p =? 0 then 0 else 1)) = x * q / p.
Proof.
  intros Hx Hq Hp. destruct (Z.ltb_spec 0 x) as [H0|H0]; [by rewrite Z.abs_eq by lia|].
  rewrite Z.abs_neq by lia. replace (- x * q) with (- (x * q)) by lia.
  destruct (Z.eqb_spec (- (x * q) mod p) 0) as [E|E].
  - apply Z.mod_opp_l_z in E; [|lia]. rewrite Z.opp_involutive in E. rewrite Z.div_opp_l_z by lia. lia.
  - assert (E' : x * q mod p <> 0).
    { intros E'. apply E. by apply Z.mod_opp_l_z; [lia|]. }
    rewrite Z.div_opp_l_nz by lia. lia.
Qed.

(** A token-B residual is always marked against the trader: the mark is the
    floor of residual times quote over planned quantity, so an asset is rounded
    down and a liability is rounded up, and it is refused exactly when it does
    not fit the signed range. *)
Theorem residual_mark_conservative o a :
  admission (intent o) = Some a -> token_b_residual o <> 0 ->
  0 < planned_token_b (intent o) ->
  0 < recovery_quote_for_residual a (token_b_residual o) < 2 ^ 128 ->
  let mark := token_b_residual o * recovery_quote_for_residual a (token_b_residual o)
              / planned_token_b (intent o) in
  match residual_value_of o with
  | Ok v => v = mark /\ Z.abs mark <= I128_MAX
  | Err _ => I128_MAX < Z.abs mark
  end.
Proof.
  intros Ha Hne Hp Hq mark. subst mark. unfold residual_value_of.
  rewrite (proj2 (Z.eqb_neq _ _) Hne), Ha, (Z.abs_eq (planned_token_b (intent o))) by lia.
  set (p := planned_token_b (intent o)) in *. set (q := recovery_quote_for_residual a _) in *.
  assert (Hres : i128 (token_b_residual o)).
  { unfold token_b_residual. apply sat_sum_range. }
  set (x := token_b_residual o) in *. unfold i128, I128_MIN, I128_MAX in Hres.
  rewrite !(proj2 (Z.ltb_lt 0 _)) by lia. simpl.
  assert (Hn : checked_mul 256 (Z.abs x) q = Some (Z.abs x * q)).
  { unfold checked_mul. rewrite (proj2 (Z.ltb_lt _ _)); [done|]. nia. }
  rewrite Hn. simpl. rewrite <- (mark_magnitude x q p Hne ltac:(lia) Hp).
  assert (Hquot : 0 <= Z.abs x * q / p < 2 ^ 255).
  { split; [apply Z.div_pos; nia|]. apply Z.div_lt_upper_bound; nia. }
  set (m := Z.abs x * q / p) in *. set (rest := Z.abs x * q mod p).
  unfold checked_add. rewrite (proj2 (Z.ltb_lt (m + 1) _)) by lia. simpl. unfold I128_MAX.
  destruct (Z.ltb_spec x 0), (Z.ltb_spec 0 x), (Z.eqb_spec rest 0); try lia; simpl.
  all: repeat match goal with |- context [ensure (?a <? ?b) _] => destruct (Z.ltb_spec a b); simpl end.
  all: repeat match goal with |- context [ensure (?a <=? ?b) _] => destruct (Z.leb_spec a b); simpl end.
  all: lia.
Qed.
