(* ===== verification/TradeJournal.v ===== *)
(** * The trade journal ([src/src/arbitrage.rs])

    Every change of a trade operation is a whole snapshot appended to a line
    file before it takes effect in memory.  This file models the snapshot
    rules, the durable append with the two incrementally maintained indexes,
    and the replay that reopens a file; it proves that the indexes always equal
    a recount, that history is append-only, and that a healthy journal reopens
    to itself up to the live-only settlement evidence.  JSON and SHA-256 are the
    interface [TradeCodec]. *)
From Stdlib Require Import Lia.
From stdpp Require Import base gmap strings numbers list fin_maps.
From S2P Require Import Prelude Decimals LineLog ExecutionPlan TradeData.

Definition TRADE_JOURNAL_VERSION : Z := 1.
Definition MAX_LINE_BYTES : Z := 64 * 1024.

Abbreviation Operations := (gmap string TradeOperation).

(** The file is its bytes; the handle is not state. *)
Record TradeJournal := mkTradeJournal {
  file : list Z;
  operations : Operations;
  active_operation_count : Z;
  unresolved_by_strategy : gmap string Z;
  next_sequence : Z;
  poisoned : bool;
}.

Record TradePayload := mkTradePayload {
  version : Z;
  sequence : Z;
  recorded_at_unix_ms : Z;
  snapshot : TradeOperation;
}.

Record TradeRecord := mkTradeRecord { payload : TradePayload; checksum_sha256 : string }.

(** ** Codec *)
Class TradeCodec := {
  payload_to_vec : TradePayload -> option (list Z);
  record_to_vec : TradeRecord -> option (list Z);
  record_from_slice : list Z -> option TradeRecord;
  sha256_hex : list Z -> string;
}.

(** [#[serde(skip)]]: settlement evidence is not written. *)
Definition erase_leg (l : LegResult) : LegResult :=
  mkLeg (leg_status l) (executed_token_b l) (token_b_delta l) (token_a_delta l)
    (third_asset_deltas l) (third_asset_prices l) (gas_cost l) (venue_reference l) None None.
Definition erase (o : TradeOperation) : TradeOperation :=
  mkTrade (intent o) (stage o) (dex_dispatched o) (cex_dispatched o) (cex_execution_limit_price o)
    (erase_leg <$> dex_result o) (erase_leg <$> cex_result o) (erase_leg <$> recovery_results o)
    (recovery_inflight o) (recovery_target o) (recovery_retry_not_before o) (final_result o)
    (blocking_reason o) (operator_recovery o).
Definition erase_payload (p : TradePayload) : TradePayload :=
  mkTradePayload (version p) (sequence p) (recorded_at_unix_ms p) (erase (snapshot p)).

(** JSON of a record has no raw line feed and parses back to the record without
    the skipped fields, which it does not depend on; parsed records carry none. *)
Class TradeCodecLaws `{TradeCodec} : Prop := {
  record_roundtrip r bs :
    record_to_vec r = Some bs ->
    record_from_slice bs = Some (mkTradeRecord (erase_payload (payload r)) (checksum_sha256 r));
  record_one_line r bs : record_to_vec r = Some bs -> 10 ∉ bs;
  decode_skips bs r : record_from_slice bs = Some r -> erase_payload (payload r) = payload r;
  payload_skips p : payload_to_vec (erase_payload p) = payload_to_vec p;
}.

(** ** Snapshot rules *)
Definition operator_terminal_correction_allowed (previous next : TradeOperation) : bool :=
  terminal (stage previous)
  && bool_decide (operator_recovery previous = None)
  && negb (bool_decide (operator_recovery next = None))
  && dex_dispatched previous && negb (cex_dispatched previous)
  && bool_decide (cex_result previous = None) && bool_decide (cex_result next = None)
  && bool_decide (recovery_results previous = []) && (length (recovery_results next) =? 1)%nat
  && is_some_and (dex_result previous)
       (fun r => bool_decide (leg_status r = Failed)
                 && bool_decide (venue_reference r = "dex:expired-plan"%string))
  && is_some_and (dex_result next) (fun r => bool_decide (leg_status r = Filled))
  && is_some_and (head (recovery_results next)) (fun r => bool_decide (leg_status r = Filled))
  && terminal (stage next) && negb (bool_decide (final_result next = None))
  && (token_b_residual next =? 0).

Definition stage_transition_allowed (previous next : TradeStage) : bool :=
  bool_decide (previous = next)
  || match previous, next with
     | Prepared, Executing => true
     | Executing, (Recovering | BalancedProfit | BalancedLoss | UnknownExposure | Halted) => true
     | Recovering, (BalancedProfit | BalancedLoss | UnknownExposure | Halted) => true
     | UnknownExposure, (Executing | Recovering | Halted) => true
     | Halted, (Recovering | BalancedProfit | BalancedLoss) => true
     | _, _ => false
     end.

Definition result_is_unchanged_or_reconciled (previous next : option LegResult) : bool :=
  opt_leg_eqb previous next
  || match previous, next with
     | Some p, Some n =>
         bool_decide (leg_status p = Unknown) && negb (bool_decide (leg_status n = Unknown))
     | _, _ => false
     end
  || bool_decide (previous = None).

(** [next.starts_with(previous)]. *)
Definition legs_start_with (next previous : list LegResult) : bool :=
  (length previous <=? length next)%nat && legs_eqb (take (length previous) next) previous.

Definition recovery_results_are_append_only_or_reconciled (previous next : list LegResult) : bool :=
  legs_start_with next previous
  || ((length previous =? length next)%nat && negb (bool_decide (previous = []))
      && legs_eqb (take (length previous - 1) previous) (take (length next - 1) next)
      && is_some_and (last previous) (fun r => bool_decide (leg_status r = Unknown))
      && is_some_and (last next) (fun r => negb (bool_decide (leg_status r = Unknown)))).

Section snapshots.
Context `{EvmText}.

(** The checks of [apply_snapshot] against the stored snapshot. *)
Definition check_successor (previous o : TradeOperation) : TRes unit :=
  let correction := operator_terminal_correction_allowed previous o in
  ensure! intent_eqb (intent previous) (intent o) else "trade journal intent changed" ;;
  ensure! negb (terminal (stage previous)) || correction else "trade is already terminal" ;;
  ensure! correction || stage_transition_allowed (stage previous) (stage o)
    else "illegal parent trade stage transition" ;;
  ensure! negb (dex_dispatched previous) || dex_dispatched o else "DEX dispatch regressed" ;;
  ensure! negb (cex_dispatched previous) || cex_dispatched o else "CEX dispatch regressed" ;;
  ensure! bool_decide (cex_execution_limit_price previous = None)
          || opt_dec_eqb (cex_execution_limit_price previous) (cex_execution_limit_price o)
    else "selected primary CEX limit price changed" ;;
  ensure! bool_decide (recovery_target previous = None)
          || bool_decide (recovery_target previous = recovery_target o)
    else "selected recovery target changed" ;;
  ensure! correction || result_is_unchanged_or_reconciled (dex_result previous) (dex_result o)
    else "DEX result changed without unknown-outcome reconciliation" ;;
  ensure! result_is_unchanged_or_reconciled (cex_result previous) (cex_result o)
    else "CEX result changed without unknown-outcome reconciliation" ;;
  ensure! recovery_results_are_append_only_or_reconciled (recovery_results previous)
            (recovery_results o)
    else "recovery results changed" ;;
  ensure! bool_decide (operator_recovery previous = None)
          || bool_decide (operator_recovery previous = operator_recovery o)
    else "operator recovery evidence changed" ;;
  Ok tt.

Definition apply_snapshot (ops : Operations) (o : TradeOperation) : TRes Operations :=
  let? _ := validate_operation o in
  let? _ :=
    match ops !! plan_id (intent o) with
    | Some previous => check_successor previous o
    | None =>
        ensure! bool_decide (stage o = Prepared) else "first trade state must be prepared" ;; Ok tt
    end in
  Ok (<[plan_id (intent o) := o]> ops).
End snapshots.

(** ** Indexes *)
Definition unresolved (s : TradeStage) : bool :=
  match s with UnknownExposure | Halted => true | _ => false end.

Definition unresolved_strategy_id (o : TradeOperation) : option string :=
  if unresolved (stage o) then sc_strategy_id <$> journal_scope (intent o) else None.

(** [index.entry(id).or_insert(0)], then [saturating_add(1)]. *)
Definition index_increment (id : string) (index : gmap string Z) : gmap string Z :=
  <[id := saturating_add 64 (default 0 (index !! id)) 1]> index.

Definition index_decrement (id : string) (index : gmap string Z) : gmap string Z :=
  match index !! id with
  | Some count =>
      let c := saturating_sub count 1 in
      if c =? 0 then delete id index else <[id := c]> index
  | None => index
  end.

Definition index_step (index : gmap string Z) (o : TradeOperation) : gmap string Z :=
  match unresolved_strategy_id o with Some id => index_increment id index | None => index end.

Definition unresolved_strategy_index (ops : Operations) : gmap string Z :=
  fold_left index_step (btree_values ops) ∅.

Definition update_unresolved_strategy_index (index : gmap string Z)
    (previous : option TradeOperation) (next : TradeOperation) : gmap string Z :=
  let index :=
    match previous ≫= unresolved_strategy_id with
    | Some id => index_decrement id index
    | None => index
    end in
  index_step index next.

Definition active (o : TradeOperation) : bool := negb (terminal (stage o)).

Definition count_active (ops : Operations) : Z := Z.of_nat (count_map active ops).

Definition next_active_count (count : Z) (was_active is_active : bool) : TRes Z :=
  match was_active, is_active with
  | false, true => or_err (checked_add 64 count 1) "active trade count overflow"
  | true, false => or_err (checked_sub count 1) "active trade count underflow"
  | _, _ => Ok count
  end.

(** ** Records and files *)
Section journal.
Context `{EvmText} `{TradeCodec}.

Definition checksum (p : TradePayload) : TRes string :=
  let? bytes := or_err (payload_to_vec p) "failed to encode trade checksum input" in
  Ok (sha256_hex bytes).

Definition new_record (p : TradePayload) : TRes TradeRecord :=
  let? c := checksum p in Ok (mkTradeRecord p c).

Definition validate_checksum (r : TradeRecord) : TRes unit :=
  let? c := checksum (payload r) in
  ensure! bool_decide (checksum_sha256 r = c) else "trade journal checksum mismatch" ;;
  Ok tt.

Definition Replayed : Type := Operations * Z.

Definition replay_line (st : Replayed) (line : list Z) : TRes Replayed :=
  let '(ops, expected) := st in
  ensure! Z.of_nat (length line) <=? MAX_LINE_BYTES else "trade journal record is too large" ;;
  ensure! bool_decide (last line = Some 10) else "trade journal ends with a partial record" ;;
  let body := take (length line - 1) line in
  let? r := or_err (record_from_slice body) "trade journal contains invalid JSON" in
  let? _ := validate_checksum r in
  ensure! version (payload r) =? TRADE_JOURNAL_VERSION else "unsupported trade journal version" ;;
  ensure! sequence (payload r) =? expected else "trade journal sequence mismatch" ;;
  let? ops' := apply_snapshot ops (snapshot (payload r)) in
  let? next := or_err (checked_add 64 expected 1) "trade journal sequence overflow" in
  Ok (ops', next).

(** What [open] reads of a file that passed the path, permission and lock
    checks. *)
Definition open_bytes (bytes : list Z) : TRes TradeJournal :=
  let? '(ops, seq) := replay_lines replay_line (split_lines bytes) (∅, 0) in
  Ok (mkTradeJournal bytes ops (count_active ops) (unresolved_strategy_index ops) seq false).

(** What the file system answers to [open]. *)
Record TradeFile := mkTradeFile {
  tf_path_empty : bool; tf_exists : bool; tf_metadata_ok : bool; tf_is_symlink : bool;
  tf_is_file : bool; tf_parent_is_dir : bool; tf_open_ok : bool; tf_mode : Z; tf_lock_ok : bool;
  tf_sync_ok : bool; tf_read_ok : bool; tf_contents : list Z;
}.

Definition open (fs : TradeFile) : TRes TradeJournal :=
  ensure! negb (tf_path_empty fs) else "trade journal path is empty" ;;
  let? _ :=
    if tf_exists fs then
      ensure! tf_metadata_ok fs else "failed to inspect trade journal" ;;
      ensure! negb (tf_is_symlink fs) else "trade journal must not be a symlink" ;;
      ensure! tf_is_file fs else "trade journal path is not a file" ;; Ok tt
    else
      ensure! tf_parent_is_dir fs else "trade journal parent directory does not exist" ;; Ok tt in
  ensure! tf_open_ok fs else "failed to open trade journal" ;;
  ensure! Z.land (tf_mode fs) 63 =? 0 else "trade journal is group/world accessible" ;;
  ensure! tf_lock_ok fs else "trade journal is already locked by another process" ;;
  ensure! tf_exists fs || tf_sync_ok fs else "failed to sync new trade journal" ;;
  ensure! tf_read_ok fs else "failed to read trade journal" ;;
  open_bytes (if tf_exists fs then tf_contents fs else []).

(** The clock, and how many bytes of the line reach the file when the write or
    the sync fails. *)
Record TradeEnv := mkTradeEnv { now_ms : TRes Z; write_fault : option nat }.

(** What [append] computes before it writes. *)
Record Prepared_append := mkPreparedAppend {
  pa_operations : Operations; pa_unresolved : gmap string Z; pa_active : Z; pa_line : list Z;
}.

Definition prepare_append (env : TradeEnv) (o : TradeOperation) (j : TradeJournal)
  : TRes Prepared_append :=
  ensure! negb (poisoned j) else "trade journal is poisoned" ;;
  let? _ := validate_operation o in
  let? now := now_ms env in
  let p := mkTradePayload TRADE_JOURNAL_VERSION (next_sequence j) now o in
  let? next := apply_snapshot (operations j) o in
  let previous := operations j !! plan_id (intent o) in
  let index := update_unresolved_strategy_index (unresolved_by_strategy j) previous o in
  let? count := next_active_count (active_operation_count j) (is_some_and previous active)
                  (active o) in
  let? r := new_record p in
  let? encoded := or_err (record_to_vec r) "failed to encode trade journal" in
  ensure! Z.of_nat (length encoded) <? MAX_LINE_BYTES else "trade journal record is too large" ;;
  Ok (mkPreparedAppend next index count (encoded ++ [10])).

Definition append (env : TradeEnv) (o : TradeOperation) : M TradeJournal string unit :=
  fun j =>
    match prepare_append env o j with
    | Err e => (j, Err e)
    | Ok pa =>
        match write_fault env with
        | Some k =>
            (mkTradeJournal (file j ++ take k (pa_line pa)) (operations j) (active_operation_count j)
               (unresolved_by_strategy j) (next_sequence j) true,
             Err "failed to durably append trade journal record"%string)
        | None =>
            let j' seq := mkTradeJournal (file j ++ pa_line pa) (pa_operations pa) (pa_active pa)
                            (pa_unresolved pa) seq (poisoned j) in
            match checked_add 64 (next_sequence j) 1 with
            | None => (j' (next_sequence j), Err "trade journal sequence overflow"%string)
            | Some s => (j' s, Ok tt)
            end
        end
    end.

Definition operation (j : TradeJournal) (id : string) : TRes TradeOperation :=
  or_err (operations j !! id) "unknown trade plan".

Definition active_operations (j : TradeJournal) : list TradeOperation :=
  filter (fun o => active o = true) (btree_values (operations j)).

Definition unresolved_exposure_count (j : TradeJournal) (strategy : string) : Z :=
  default 0 (unresolved_by_strategy j !! strategy).

Definition record_intent (env : TradeEnv) (it : TradeIntent) : M TradeJournal string unit :=
  fun j =>
    if bool_decide (is_Some (operations j !! plan_id it))
    then (j, Err "trade plan already exists"%string)
    else append env (prepared it) j.
End journal.

(** ** The indexes equal a recount *)
Definition present (c : Z) : option Z := if c =? 0 then None else Some c.

(** An index holds the positive values of a counting function. *)
Definition represents (index : gmap string Z) (f : string -> Z) : Prop :=
  forall id, 0 <= f id /\ index !! id = present (f id).

Definition bump (f : string -> Z) (id : string) (d : Z) : string -> Z :=
  fun id' => if decide (id' = id) then f id' + d else f id'.

Lemma represents_increment index f id :
  represents index f -> f id + 1 < 2 ^ 64 -> represents (index_increment id index) (bump f id 1).
Proof.
  intros Hr Hb id'. destruct (Hr id) as [H0 Hl]. unfold index_increment, bump. rewrite Hl.
  destruct (decide (id' = id)) as [->|Hne]; [|rewrite lookup_insert_ne by done; apply Hr].
  rewrite lookup_insert_eq. split; [lia|]. unfold present, saturating_add.
  rewrite (proj2 (Z.eqb_neq (f id + 1) 0)) by lia. f_equal.
  destruct (Z.eqb_spec (f id) 0); simpl; lia.
Qed.

Lemma represents_decrement index f id :
  represents index f -> 0 < f id -> represents (index_decrement id index) (bump f id (-1)).
Proof.
  intros Hr Hp id'. destruct (Hr id) as [H0 Hl]. unfold index_decrement, bump. rewrite Hl.
  unfold present at 1. rewrite (proj2 (Z.eqb_neq (f id) 0)) by lia.
  unfold saturating_sub. rewrite Z.max_l by lia. unfold present.
  destruct (decide (id' = id)) as [->|Hne].
  - split; [lia|]. replace (f id + -1) with (f id - 1) by lia.
    destruct (Z.eqb_spec (f id - 1) 0); [by rewrite lookup_delete_eq|by rewrite lookup_insert_eq].
  - destruct (_ =? 0); [rewrite lookup_delete_ne by done|rewrite lookup_insert_ne by done]; apply Hr.
Qed.

Lemma represents_unique i1 i2 f g :
  represents i1 f -> represents i2 g -> (forall id, f id = g id) -> i1 = i2.
Proof. intros H1 H2 He. apply map_eq. intros id. by rewrite (proj2 (H1 id)), (proj2 (H2 id)), He. Qed.

Lemma represents_ext i f g : represents i f -> (forall id, f id = g id) -> represents i g.
Proof. intros H1 He id. rewrite <- He. apply H1. Qed.

Definition counts_for (id : string) (o : TradeOperation) : bool :=
  bool_decide (unresolved_strategy_id o = Some id).

Lemma represents_step index f o :
  represents index f -> (forall id, f id + 1 < 2 ^ 64) ->
  represents (index_step index o) (fun id => f id + Z.of_nat (bit (counts_for id o))).
Proof.
  intros Hr Hb. unfold index_step, counts_for. destruct (unresolved_strategy_id o) as [id|] eqn:E.
  - eapply represents_ext; [by apply represents_increment|]. intros id'. unfold bump.
    case_decide; subst; [by rewrite bool_decide_eq_true_2|].
    rewrite bool_decide_eq_false_2 by naive_solver. simpl. lia.
  - eapply represents_ext; [exact Hr|]. intros id'. simpl. lia.
Qed.

Definition strategy_count (ops : Operations) (id : string) : Z :=
  Z.of_nat (count_map (counts_for id) ops).

Lemma strategy_count_le ops id : strategy_count ops id <= Z.of_nat (size ops).
Proof.
  unfold strategy_count, count_map. pose proof (count_list_le (counts_for id) (btree_values ops)).
  rewrite length_btree_values in *. lia.
Qed.

Lemma index_represents ops :
  Z.of_nat (size ops) < 2 ^ 64 -> represents (unresolved_strategy_index ops) (strategy_count ops).
Proof.
  intros Hs. unfold unresolved_strategy_index, strategy_count, count_map.
  rewrite <- length_btree_values in Hs.
  assert (Hgen : forall l index f,
    represents index f -> (forall id, f id + Z.of_nat (length l) < 2 ^ 64) ->
    represents (fold_left index_step l index) (fun id => f id + Z.of_nat (count_list (counts_for id) l))).
  { induction l as [|o l IH]; intros index f Hr Hb; simpl in *.
    - eapply represents_ext; [exact Hr|]. intros. cbn. lia.
    - eapply represents_ext; [apply IH; [apply represents_step; [exact Hr|]|]|].
      + intros id. specialize (Hb id). lia.
      + intros id. specialize (Hb id). simpl. destruct (counts_for id o); simpl; lia.
      + intros id. rewrite count_list_cons. simpl. lia. }
  eapply represents_ext; [apply (Hgen _ ∅ (fun _ => 0))|].
  - intros id. split; [done|apply lookup_empty].
  - intros _. lia.
  - intros id. simpl. lia.
Qed.

(** Counting after a snapshot is stored. *)
Lemma count_after (f : TradeOperation -> bool) (ops : Operations) o k :
  Z.of_nat (count_map f (<[k := o]> ops)) =
  Z.of_nat (count_map f ops) - Z.of_nat (bit (is_some_and (ops !! k) f)) + Z.of_nat (bit (f o)).
Proof.
  destruct (ops !! k) as [p|] eqn:E; simpl.
  - pose proof (count_map_replace f ops k o p E). lia.
  - rewrite count_map_insert_fresh by done. lia.
Qed.

Lemma index_update_exact (ops : Operations) o k :
  Z.of_nat (size ops) + 1 < 2 ^ 64 ->
  update_unresolved_strategy_index (unresolved_strategy_index ops) (ops !! k) o =
  unresolved_strategy_index (<[k := o]> ops).
Proof.
  intros Hs. pose proof (index_represents ops ltac:(lia)) as Hr.
  assert (Hsize : Z.of_nat (size (<[k := o]> ops)) < 2 ^ 64).
  { destruct (ops !! k) eqn:E; [rewrite map_size_insert_Some by eauto; lia|].
    rewrite map_size_insert_None by done. lia. }
  pose proof (index_represents (<[k := o]> ops) Hsize) as Hr'.
  pose proof (strategy_count_le ops) as Hle.
  unfold update_unresolved_strategy_index.
  assert (Hd : forall id, Z.of_nat (bit (is_some_and (ops !! k) (counts_for id))) <= strategy_count ops id).
  { intros id. pose proof (count_after (counts_for id) ops o k).
    destruct (ops !! k) as [p|] eqn:E; simpl in *; [|unfold strategy_count; lia].
    pose proof (count_map_replace (counts_for id) ops k p p E). unfold strategy_count.
    destruct (counts_for id p) eqn:Ec; simpl in *; [|lia].
    unfold count_map, count_list. destruct (filter _ _) eqn:Ef; [|simpl; lia]. exfalso.
    assert (Hin : p ∈ filter (fun x => counts_for id x = true) (btree_values ops)).
    { apply list_elem_of_filter. split; [done|]. apply elem_of_btree_values. by exists k. }
    rewrite Ef in Hin. by apply elem_of_nil in Hin. }
  eapply represents_unique; [|exact Hr'|].
  - apply represents_step with (f := fun id => strategy_count ops id
      - Z.of_nat (bit (is_some_and (ops !! k) (counts_for id)))).
    + destruct (ops !! k) as [p|] eqn:E; simpl.
      * unfold counts_for in *. destruct (unresolved_strategy_id p) as [id|] eqn:Ei.
        -- eapply represents_ext; [apply represents_decrement; [exact Hr|]|].
           ++ specialize (Hd id). simpl in Hd. rewrite bool_decide_eq_true_2 in Hd by done. simpl in Hd. lia.
           ++ intros id'. unfold bump. case_decide; subst;
                [rewrite bool_decide_eq_true_2 by done|rewrite bool_decide_eq_false_2 by naive_solver];
                simpl; lia.
        -- eapply represents_ext; [exact Hr|]. intros id'. simpl. lia.
      * eapply represents_ext; [exact Hr|]. intros id'. lia.
    + intros id. specialize (Hle id). lia.
  - intros id. unfold strategy_count. rewrite (count_after (counts_for id) ops o k). lia.
Qed.

Lemma active_update_exact (ops : Operations) o k count :
  next_active_count (count_active ops) (is_some_and (ops !! k) active) (active o) = Ok count ->
  count = count_active (<[k := o]> ops).
Proof.
  unfold count_active. rewrite (count_after active ops o k). unfold next_active_count.
  destruct (is_some_and _ _), (active o); intros Hc; res_inv; checked_inv; simpl in *; lia.
Qed.

(** ** Snapshots do not depend on the live-only evidence *)
Section erasure.
Context `{EvmText}.

Lemma legs_erase o : legs (erase o) = erase_leg <$> legs o.
Proof. unfold legs. simpl. rewrite !fmap_app. by destruct (dex_result o), (cex_result o). Qed.

Lemma sat_sum_erase f l : (forall x, f (erase_leg x) = f x) -> sat_sum f (erase_leg <$> l) = sat_sum f l.
Proof.
  intros Hf. unfold sat_sum. generalize 0. induction l as [|x l IH]; intros z; [done|]. simpl.
  by rewrite Hf, IH.
Qed.

Lemma residual_erase o : token_b_residual (erase o) = token_b_residual o.
Proof. unfold token_b_residual. rewrite legs_erase. by apply sat_sum_erase. Qed.

Lemma opt_none_erase (x : option LegResult) : bool_decide (erase_leg <$> x = None) = bool_decide (x = None).
Proof. by destruct x. Qed.

Lemma correction_erase p o :
  operator_terminal_correction_allowed (erase p) (erase o) = operator_terminal_correction_allowed p o.
Proof.
  unfold operator_terminal_correction_allowed. rewrite residual_erase. simpl.
  rewrite !opt_none_erase, length_fmap.
  destruct (recovery_results p), (recovery_results o), (dex_result p), (dex_result o); done.
Qed.

Lemma validate_leg_erase l : validate_leg l = Ok tt -> validate_leg (erase_leg l) = Ok tt.
Proof.
  unfold validate_leg. intros Hv. res_inv. simpl. rewrite Hok. simpl. rewrite Hok0. simpl. by rewrite Hok1.
Qed.

Lemma validate_legs_erase l : validate_legs l = Ok tt -> validate_legs (erase_leg <$> l) = Ok tt.
Proof.
  induction l as [|x l IH]; simpl; intros Hv; [done|]. res_inv. destruct x0.
  rewrite validate_leg_erase by done. simpl. auto.
Qed.

Lemma last_erase (l : list LegResult) p :
  (forall x, p (erase_leg x) = p x) -> is_some_and (last (erase_leg <$> l)) p = is_some_and (last l) p.
Proof. intros Hp. rewrite fmap_last. destruct (last l); simpl; auto. Qed.

Lemma validate_operation_erase o :
  validate_operation o = Ok tt -> validate_operation (erase o) = Ok tt.
Proof.
  unfold validate_operation. intros Hv. res_inv. destruct x2.
  rewrite legs_erase. simpl. rewrite Hok. simpl. rewrite length_fmap, Hok0. simpl.
  unfold retry_deadline_matches in *. simpl. rewrite length_fmap, last_erase, Hok1 by done. simpl.
  rewrite validate_legs_erase by done. simpl. rewrite Hok3. simpl. rewrite Hok4. simpl.
  destruct (operator_recovery o) as [e|]; [|done].
  unfold validate_operator_recovery in *. rewrite residual_erase. simpl. rewrite length_fmap.
  destruct (dex_result o) as [d|], (recovery_results o) as [|r l]; simpl in *; done.
Qed.

Lemma norm_erase l : norm_leg (erase_leg l) = erase_leg (norm_leg l).
Proof. done. Qed.

Lemma legs_eqb_erase a b : legs_eqb a b = true -> legs_eqb (erase_leg <$> a) (erase_leg <$> b) = true.
Proof.
  unfold legs_eqb. rewrite !bool_decide_eq_true. intros He.
  rewrite <- !list_fmap_compose. change (norm_leg ∘ erase_leg) with (erase_leg ∘ norm_leg).
  by rewrite !list_fmap_compose, He.
Qed.

Lemma reconciled_erase a b :
  result_is_unchanged_or_reconciled a b = true ->
  result_is_unchanged_or_reconciled (erase_leg <$> a) (erase_leg <$> b) = true.
Proof.
  unfold result_is_unchanged_or_reconciled. rewrite opt_none_erase, !orb_true_iff.
  intros [[Ha|Ha]|Ha]; [left; left|left; right|right]; [|by destruct a, b|done].
  unfold opt_leg_eqb in *. apply bool_decide_eq_true in Ha. apply bool_decide_eq_true.
  destruct a as [x|], b as [y|]; simpl in *; try done. rewrite !norm_erase. congruence.
Qed.

Lemma take_erase n l : take n (erase_leg <$> l) = erase_leg <$> take n l.
Proof. by rewrite fmap_take. Qed.

Lemma append_only_erase a b :
  recovery_results_are_append_only_or_reconciled a b = true ->
  recovery_results_are_append_only_or_reconciled (erase_leg <$> a) (erase_leg <$> b) = true.
Proof.
  unfold recovery_results_are_append_only_or_reconciled, legs_start_with.
  rewrite !length_fmap, !take_erase, !orb_true_iff, !andb_true_iff.
  intros [[Hl He]|[[[[Hl Hn] He] Hp] Hq]]; [left|right].
  - split; [done|by apply legs_eqb_erase].
  - split_and!; [done|by destruct a|by apply legs_eqb_erase|by rewrite last_erase|by rewrite last_erase].
Qed.

Lemma check_successor_erase p o : check_successor p o = Ok tt -> check_successor (erase p) (erase o) = Ok tt.
Proof.
  unfold check_successor. intros Hc. res_inv. rewrite correction_erase. simpl.
  repeat match goal with
    | E : ?b = true |- context [ensure ?b _] => rewrite E; simpl
    end.
  assert (Hd : operator_terminal_correction_allowed p o
               || result_is_unchanged_or_reconciled (erase_leg <$> dex_result p)
                    (erase_leg <$> dex_result o) = true).
  { rewrite orb_true_iff in *. naive_solver eauto using reconciled_erase. }
  rewrite Hd. simpl. rewrite reconciled_erase by done. simpl. by rewrite append_only_erase.
Qed.

Lemma apply_snapshot_erase ops o ops' :
  apply_snapshot ops o = Ok ops' -> apply_snapshot (erase <$> ops) (erase o) = Ok (erase <$> ops').
Proof.
  unfold apply_snapshot. intros Ha. res_inv. destruct x, x0.
  rewrite validate_operation_erase by done. simpl. rewrite lookup_fmap.
  destruct (ops !! plan_id (intent o)) as [p|]; simpl.
  - rewrite check_successor_erase by done. simpl. by rewrite fmap_insert.
  - rewrite Hok0. simpl. by rewrite fmap_insert.
Qed.

Lemma erase_idem o : erase (erase o) = erase o.
Proof.
  unfold erase. simpl. f_equal; [by destruct (dex_result o)|by destruct (cex_result o)|].
  rewrite <- list_fmap_compose. by apply list_fmap_ext.
Qed.
End erasure.

(** ** Histories *)
Section history.
Context `{EvmText} `{TradeCodecLaws}.

Record ops_ok (ops : Operations) : Prop := {
  oo_key k o : ops !! k = Some o -> plan_id (intent o) = k;
  oo_valid k o : ops !! k = Some o -> validate_operation o = Ok tt;
}.

Lemma apply_snapshot_inv ops o ops' :
  apply_snapshot ops o = Ok ops' ->
  ops' = <[plan_id (intent o) := o]> ops /\ validate_operation o = Ok tt /\
  (match ops !! plan_id (intent o) with
   | Some p => check_successor p o = Ok tt
   | None => stage o = Prepared
   end).
Proof.
  unfold apply_snapshot. intros Ha. res_inv. destruct x, x0. split; [done|]. split; [done|].
  destruct (ops !! _); [done|]. res_inv. by bool_prop.
Qed.

Lemma apply_snapshot_ok ops o ops' : ops_ok ops -> apply_snapshot ops o = Ok ops' -> ops_ok ops'.
Proof.
  intros [Hk Hv] Ha. apply apply_snapshot_inv in Ha as (-> & Hval & _).
  constructor; intros k o'; rewrite lookup_insert_Some; naive_solver.
Qed.

Lemma size_insert_le (ops : Operations) k o :
  Z.of_nat (size (<[k := o]> ops)) <= Z.of_nat (size ops) + 1.
Proof.
  destruct (ops !! k) eqn:E; [rewrite map_size_insert_Some by eauto|rewrite map_size_insert_None by done];
    lia.
Qed.

(** What a replay has read so far. *)
Record replay_ok (st : Replayed) : Prop := {
  ro_ops : ops_ok st.1;
  ro_size : Z.of_nat (size st.1) <= st.2;
  ro_sequence : st.2 < 2 ^ 64;
  ro_erased : erase <$> st.1 = st.1;
}.

#[local] Arguments replay_line : simpl never.

Lemma replay_line_closed st l st' : replay_line st l = Ok st' -> last l = Some 10.
Proof. destruct st. unfold replay_line. intros Hr. res_inv. by bool_prop. Qed.

Lemma replay_line_ok st l st' : replay_ok st -> replay_line st l = Ok st' -> replay_ok st'.
Proof.
  intros [Ho Hs Hq He] Hr. destruct st as [ops n]. unfold replay_line in Hr. res_inv. checked_inv. subst.
  simpl in *.
  match goal with E : record_from_slice _ = Some ?r |- _ => pose proof (decode_skips _ _ E) as Hsk end.
  match goal with E : apply_snapshot _ _ = Ok _ |- _ => rename E into Ha end.
  pose proof (apply_snapshot_ok _ _ _ Ho Ha). apply apply_snapshot_inv in Ha as (-> & _ & _).
  constructor; simpl; [done| |lia|].
  - pose proof (size_insert_le ops (plan_id (intent (snapshot (payload x1)))) (snapshot (payload x1))). lia.
  - rewrite fmap_insert, He. f_equal. apply (f_equal snapshot) in Hsk. exact Hsk.
Qed.

Lemma empty_replay_ok : replay_ok (∅, 0).
Proof.
  constructor; simpl; [constructor; intros *; by rewrite lookup_empty|by rewrite map_size_empty|done|].
  apply fmap_empty.
Qed.

Record trade_ok (j : TradeJournal) : Prop := {
  tj_ops : ops_ok (operations j);
  tj_count : active_operation_count j = count_active (operations j);
  tj_index : unresolved_by_strategy j = unresolved_strategy_index (operations j);
  tj_size : Z.of_nat (size (operations j)) <= next_sequence j < 2 ^ 64;
  tj_file : poisoned j = false ->
    replays replay_line (file j) (∅, 0) (erase <$> operations j, next_sequence j);
}.

Lemma open_bytes_ok bytes j : open_bytes bytes = Ok j -> trade_ok j.
Proof.
  unfold open_bytes. intros Ho. res_inv. destruct x as [ops n]. res_inv. simpl.
  assert (Hr : replay_ok (ops, n)).
  { eapply replay_lines_ind; [apply replay_line_ok|apply empty_replay_ok|exact Hok]. }
  destruct Hr as [Hops Hsize Hseq He]. simpl in *. constructor; simpl; try done.
  intros _. rewrite He. by apply (replay_lines_replays _ replay_line_closed).
Qed.

Lemma trade_record_checks p r :
  new_record p = Ok r ->
  payload r = p /\
  validate_checksum (mkTradeRecord (erase_payload (payload r)) (checksum_sha256 r)) = Ok tt.
Proof.
  unfold new_record, validate_checksum, checksum. intros Hr. res_inv. simpl. split; [done|].
  rewrite payload_skips, Hok0. simpl. by rewrite bool_decide_eq_true_2.
Qed.

(** Everything a prepared append promises. *)
Lemma prepared_facts env o j pa :
  trade_ok j -> next_sequence j + 1 < 2 ^ 64 -> prepare_append env o j = Ok pa ->
  poisoned j = false /\ apply_snapshot (operations j) o = Ok (pa_operations pa) /\
  (exists body, pa_line pa = body ++ [10] /\ (10 ∉ body) /\ Z.of_nat (length body) < MAX_LINE_BYTES) /\
  replay_line (erase <$> operations j, next_sequence j) (pa_line pa)
    = Ok (erase <$> pa_operations pa, next_sequence j + 1) /\
  forall bs, trade_ok (mkTradeJournal (file j ++ pa_line pa) (pa_operations pa) (pa_active pa)
                         (pa_unresolved pa) (next_sequence j + 1) bs).
Proof.
  intros [Hops Hcount Hindex Hsize Hfile] Hseq Hp. unfold prepare_append in Hp. res_inv. bool_prop. simpl.
  match goal with E : new_record _ = Ok _ |- _ => destruct (trade_record_checks _ _ E) as [Hpay Hsum] end.
  match goal with E : record_to_vec _ = Some _ |- _ =>
    pose proof (record_one_line _ _ E) as Hnl; pose proof (record_roundtrip _ _ E) as Hrt end.
  match goal with E : apply_snapshot _ _ = Ok _ |- _ => rename E into Ha end.
  match goal with E : next_active_count _ _ _ = Ok _ |- _ => rename E into Hn end.
  assert (Hline : replay_line (erase <$> operations j, next_sequence j) (x5 ++ [10])
                  = Ok (erase <$> x2, next_sequence j + 1)).
  { unfold replay_line. rewrite length_app. simpl. rewrite (proj2 (Z.leb_le _ _)) by lia. simpl.
    rewrite last_snoc, bool_decide_eq_true_2 by done. simpl.
    replace (length x5 + 1 - 1)%nat with (length x5) by lia. rewrite take_app_length, Hrt. simpl.
    rewrite Hpay in *. rewrite Hsum. simpl. rewrite Z.eqb_refl. simpl.
    rewrite (apply_snapshot_erase _ _ _ Ha). simpl. unfold checked_add.
    by rewrite (proj2 (Z.ltb_lt _ _)). }
  split; [done|]. split; [done|]. split; [by exists x5|]. split; [done|]. intros bs.
  pose proof (apply_snapshot_ok _ _ _ Hops Ha). apply apply_snapshot_inv in Ha as (-> & _ & _).
  constructor; simpl; [done| | | |].
  - rewrite Hcount in Hn. by apply active_update_exact in Hn.
  - rewrite Hindex. apply index_update_exact. lia.
  - pose proof (size_insert_le (operations j) (plan_id (intent o)) o). lia.
  - intros _. by apply (replays_append _ _ _ (erase <$> operations j, next_sequence j));
      [apply Hfile|exact Hnl|exact Hline].
Qed.

(** The three ways an append can end. *)
Lemma trade_append_cases env o j :
  trade_ok j -> next_sequence j + 1 < 2 ^ 64 ->
  (exists e, append env o j = (j, Err e)) \/
  (exists pa k, prepare_append env o j = Ok pa /\ write_fault env = Some k /\
     append env o j =
       (mkTradeJournal (file j ++ take k (pa_line pa)) (operations j) (active_operation_count j)
          (unresolved_by_strategy j) (next_sequence j) true,
        Err "failed to durably append trade journal record"%string)) \/
  (exists pa, prepare_append env o j = Ok pa /\ write_fault env = None /\
     append env o j =
       (mkTradeJournal (file j ++ pa_line pa) (pa_operations pa) (pa_active pa) (pa_unresolved pa)
          (next_sequence j + 1) (poisoned j), Ok tt)).
Proof.
  intros Hok Hseq. unfold append. destruct (prepare_append env o j) as [pa|e]; [|eauto].
  destruct (write_fault env) as [k|]; [eauto 10|]. right. right. exists pa.
  unfold checked_add. by rewrite (proj2 (Z.ltb_lt _ _)).
Qed.

Lemma append_ok env o j :
  trade_ok j -> next_sequence j + 1 < 2 ^ 64 -> trade_ok (append env o j).1.
Proof.
  intros Hok Hseq. destruct (trade_append_cases env o j Hok Hseq)
    as [[e ->]|[(pa & k & Hp & _ & ->)|(pa & Hp & _ & ->)]]; [done| |].
  - destruct Hok. by constructor.
  - destruct (prepared_facts _ _ _ _ Hok Hseq Hp) as (_ & _ & _ & _ & Ht). apply Ht.
Qed.

(** A successful append stores exactly the snapshot. *)
Lemma append_Ok env o j j' :
  trade_ok j -> next_sequence j + 1 < 2 ^ 64 -> append env o j = (j', Ok tt) ->
  apply_snapshot (operations j) o = Ok (operations j') /\ trade_ok j' /\
  next_sequence j' = next_sequence j + 1.
Proof.
  intros Hok Hseq Ha. pose proof (append_ok env o j Hok Hseq) as Hok'. rewrite Ha in Hok'.
  destruct (trade_append_cases env o j Hok Hseq)
    as [[e E]|[(pa & k & Hp & _ & E)|(pa & Hp & _ & E)]]; rewrite Ha in E; simplify_eq; simpl in *.
  destruct (prepared_facts _ _ _ _ Hok Hseq Hp) as (_ & Hs & _). done.
Qed.

(** A failed append leaves the operations alone. *)
Lemma append_Err env o j j' e :
  trade_ok j -> next_sequence j + 1 < 2 ^ 64 -> append env o j = (j', Err e) ->
  operations j' = operations j.
Proof.
  intros Hok Hseq Ha.
  destruct (trade_append_cases env o j Hok Hseq)
    as [[e' E]|[(pa & k & Hp & _ & E)|(pa & Hp & _ & E)]]; rewrite Ha in E; by simplify_eq.
Qed.

Definition trade_step (j j' : TradeJournal) : Prop :=
  next_sequence j + 1 < 2 ^ 64 /\ exists env o, j' = (append env o j).1.

Inductive trade_history : TradeJournal -> Prop :=
| history_open bytes j : open_bytes bytes = Ok j -> trade_history j
| history_step j j' : trade_history j -> trade_step j j' -> trade_history j'.

Lemma history_ok j : trade_history j -> trade_ok j.
Proof.
  induction 1 as [bytes j Ho|j j' _ IH (Hseq & env & o & ->)]; [by eapply open_bytes_ok|].
  by apply append_ok.
Qed.

(** The journal the next process starts from. *)
Definition erase_journal (j : TradeJournal) : TradeJournal :=
  mkTradeJournal (file j) (erase <$> operations j) (active_operation_count j)
    (unresolved_by_strategy j) (next_sequence j) false.

Lemma count_list_fmap {A B} (f : B -> bool) (g : A -> B) l :
  count_list f (g <$> l) = count_list (fun x => f (g x)) l.
Proof.
  induction l as [|x l IH]; [done|]. rewrite fmap_cons, !count_list_cons. by rewrite IH.
Qed.

Lemma count_map_erase (f : TradeOperation -> bool) ops :
  (forall o, f (erase o) = f o) -> count_map f (erase <$> ops) = count_map f ops.
Proof.
  intros Hf. unfold count_map. rewrite !btree_values_perm, map_to_list_fmap.
  rewrite <- list_fmap_compose. change (snd ∘ prod_map id erase) with (erase ∘ (@snd string TradeOperation)).
  rewrite list_fmap_compose, count_list_fmap. unfold count_list. f_equal.
  apply list_filter_iff. intros x. by rewrite Hf.
Qed.

Lemma index_erase ops :
  Z.of_nat (size ops) < 2 ^ 64 ->
  unresolved_strategy_index (erase <$> ops) = unresolved_strategy_index ops.
Proof.
  intros Hs. eapply represents_unique; [apply index_represents|by apply index_represents|].
  - by rewrite map_size_fmap.
  - intros id. unfold strategy_count. f_equal. by apply count_map_erase.
Qed.

Lemma replays_open j ops n :
  replays replay_line (file j) (∅, 0) (ops, n) ->
  open_bytes (file j) =
    Ok (mkTradeJournal (file j) ops (count_active ops) (unresolved_strategy_index ops) n false).
Proof. intros [_ Hr]. unfold open_bytes. by rewrite Hr. Qed.

Lemma reopen_ok j :
  trade_ok j -> poisoned j = false -> open_bytes (file j) = Ok (erase_journal j).
Proof.
  intros Hok Hp. rewrite (replays_open _ _ _ (tj_file _ Hok Hp)). unfold erase_journal.
  destruct Hok as [_ -> -> ? _]. rewrite index_erase by lia. unfold count_active.
  by rewrite count_map_erase.
Qed.

(** In every state a trade journal can reach, however its appends fail, the
    constant-time counter of active trades and the incrementally maintained
    index of unresolved exposures per strategy equal a recount over all
    operations, and every stored operation is valid and filed under its plan. *)
Theorem trade_indexes_exact j :
  trade_history j ->
  active_operation_count j = count_active (operations j) /\
  unresolved_by_strategy j = unresolved_strategy_index (operations j) /\
  (forall strategy, unresolved_exposure_count j strategy = strategy_count (operations j) strategy) /\
  ops_ok (operations j).
Proof.
  intros Hh. pose proof (history_ok j Hh) as Hok. pose proof Hok as [Hops Hc Hi Hs _].
  split_and!; try done. intros strategy. unfold unresolved_exposure_count. rewrite Hi.
  destruct (index_represents (operations j) ltac:(lia) strategy) as [_ ->]. unfold present.
  by destruct (Z.eqb_spec (strategy_count (operations j) strategy) 0).
Qed.

(** What the next process finds after a write fault of [k] bytes. *)
Lemma reopen_after_fault j env o pa k :
  trade_ok j -> next_sequence j + 1 < 2 ^ 64 ->
  prepare_append env o j = Ok pa -> write_fault env = Some k ->
  open_bytes (file (append env o j).1) =
    (if decide (k = O) then Ok (erase_journal j)
     else if decide (k < length (pa_line pa))%nat
          then Err "trade journal ends with a partial record"%string
          else Ok (erase_journal (mkTradeJournal (file j ++ pa_line pa) (pa_operations pa)
                     (pa_active pa) (pa_unresolved pa) (next_sequence j + 1) false))).
Proof.
  intros Hok Hseq Hp Hk.
  destruct (prepared_facts _ _ _ _ Hok Hseq Hp) as (Hpois & _ & (body & Hline & Hnl & Hlen) & _ & Hnext).
  unfold append. rewrite Hp, Hk. simpl.
  case_decide as Hzero; [|case_decide as Hcut].
  - subst k. simpl. rewrite app_nil_r. by apply reopen_ok.
  - unfold open_bytes. rewrite Hline in *. rewrite length_app in Hcut. simpl in Hcut.
    rewrite (replays_torn _ _ _ _ _ _ (tj_file _ Hok Hpois) Hnl) by lia.
    unfold replay_line. rewrite (proj2 (Z.leb_le _ _)) by (rewrite length_take; lia). simpl.
    rewrite bool_decide_eq_false_2; [done|]. intros Hl.
    by apply (not_elem_take 10 k body Hnl), last_Some_elem_of.
  - rewrite take_ge by lia. by apply (reopen_ok _ (Hnext false)).
Qed.

(** A trade journal survives a restart: reopening the file of a healthy
    journal gives its operations without the live-only settlement evidence and
    the same counters, and after a write fault the next process sees the old
    journal, refuses a record cut short, or sees the whole new record. *)
Theorem trade_journal_restart j env o pa k :
  trade_history j -> next_sequence j + 1 < 2 ^ 64 ->
  prepare_append env o j = Ok pa -> write_fault env = Some k ->
  open_bytes (file j) = Ok (erase_journal j) /\
  open_bytes (file (append env o j).1) =
    (if decide (k = O) then Ok (erase_journal j)
     else if decide (k < length (pa_line pa))%nat
          then Err "trade journal ends with a partial record"%string
          else Ok (erase_journal (mkTradeJournal (file j ++ pa_line pa) (pa_operations pa)
                     (pa_active pa) (pa_unresolved pa) (next_sequence j + 1) false))).
Proof.
  intros Hh Hseq Hp Hk. pose proof (history_ok j Hh) as Hok.
  split; [apply reopen_ok; [done|]|by apply reopen_after_fault].
  by destruct (prepared_facts _ _ _ _ Hok Hseq Hp).
Qed.
End history.

(** ** What later snapshots keep *)
Definition known (r : LegResult) : bool := negb (bool_decide (leg_status r = Unknown)).

(** A proven leg outcome stays, up to the scale of its decimals. *)
Definition keeps_leg (a b : option LegResult) : Prop :=
  forall r, a = Some r -> known r = true -> exists r', b = Some r' /\ norm_leg r' = norm_leg r.

Record op_extends (o o' : TradeOperation) : Prop := {
  ox_intent : norm_intent (intent o') = norm_intent (intent o);
  ox_dex : dex_dispatched o = true -> dex_dispatched o' = true;
  ox_cex : cex_dispatched o = true -> cex_dispatched o' = true;
  ox_price d : cex_execution_limit_price o = Some d ->
    dec_norm <$> cex_execution_limit_price o' = Some (dec_norm d);
  ox_target t : recovery_target o = Some t -> recovery_target o' = Some t;
  ox_dex_result : operator_recovery o' = None -> keeps_leg (dex_result o) (dex_result o');
  ox_cex_result : keeps_leg (cex_result o) (cex_result o');
  ox_recovery n : keeps_leg (recovery_results o !! n) (recovery_results o' !! n);
  ox_evidence e : operator_recovery o = Some e -> operator_recovery o' = Some e;
  ox_terminal : terminal (stage o) = true ->
    o' = o \/ (operator_recovery o = None /\ operator_recovery o' <> None /\
               terminal (stage o') = true /\ token_b_residual o' = 0);
}.

Lemma norm_leg_known a b : norm_leg a = norm_leg b -> known a = known b.
Proof. intros He. unfold known. by rewrite (f_equal leg_status He : leg_status a = leg_status b). Qed.

#[global] Instance keeps_leg_preorder : PreOrder keeps_leg.
Proof.
  split; [by intros a r ? ?; exists r|]. intros a b c Hab Hbc r Ha Hk.
  destruct (Hab r Ha Hk) as (r' & Hb & Hn). destruct (Hbc r' Hb) as (r'' & Hc & Hn').
  - by rewrite (norm_leg_known _ _ Hn).
  - exists r''. split; [done|congruence].
Qed.

#[global] Instance op_extends_preorder : PreOrder op_extends.
Proof.
  split.
  { intros o. constructor; try done; [intros d ->; done|by left]. }
  intros a b c Hab Hbc. destruct Hab, Hbc.
  constructor.
  - congruence.
  - auto.
  - auto.
  - intros d Ha. specialize (ox_price0 d Ha). destruct (cex_execution_limit_price b) as [d'|]; [|done].
    injection ox_price0 as Hd. rewrite (ox_price1 d' eq_refl). congruence.
  - auto.
  - intros Hc. etrans; [apply ox_dex_result0|by apply ox_dex_result1].
    destruct (operator_recovery b) eqn:E; [|done]. by rewrite (ox_evidence1 _ eq_refl) in Hc.
  - by etrans.
  - intros n. etrans; [apply ox_recovery0|apply ox_recovery1].
  - auto.
  - intros Ht. destruct (ox_terminal0 Ht) as [->|(Hn & Hb & Htb & Hrb)]; [by apply ox_terminal1|].
    right. destruct (ox_terminal1 Htb) as [->|(Hn' & _)]; [done|]. congruence.
Qed.

Lemma unchanged_keeps a b : result_is_unchanged_or_reconciled a b = true -> keeps_leg a b.
Proof.
  unfold result_is_unchanged_or_reconciled, opt_leg_eqb. rewrite !orb_true_iff, !bool_decide_eq_true.
  intros [[He|Hr]|Hn] r -> Hk; [|destruct b; [|done]; unfold known in Hk; bool_prop; done|done].
  destruct b as [r'|]; [|done]. exists r'. split; [done|]. simpl in He. congruence.
Qed.

Lemma legs_eqb_lookup a b n r :
  legs_eqb a b = true -> a !! n = Some r -> exists r', b !! n = Some r' /\ norm_leg r' = norm_leg r.
Proof.
  unfold legs_eqb. rewrite bool_decide_eq_true. intros He Ha.
  apply (f_equal (fun l => l !! n)) in He. rewrite !list_lookup_fmap, Ha in He. simpl in He.
  destruct (b !! n) as [r'|]; [|done]. exists r'. split; [done|]. simpl in He. congruence.
Qed.

Lemma append_only_keeps a b n :
  recovery_results_are_append_only_or_reconciled a b = true -> keeps_leg (a !! n) (b !! n).
Proof.
  unfold recovery_results_are_append_only_or_reconciled, legs_start_with.
  rewrite orb_true_iff, !andb_true_iff. intros [[Hl He]|[[[[Hl Hn] He] Hu] _]] r Ha Hk.
  - unfold legs_eqb in He. apply bool_decide_eq_true in He.
    assert (He' : legs_eqb a (take (length a) b) = true) by (unfold legs_eqb; by rewrite bool_decide_eq_true).
    destruct (legs_eqb_lookup _ _ _ _ He' Ha) as (r' & Hb & Hr). exists r'. split; [|done].
    apply lookup_take_Some in Hb. tauto.
  - destruct (decide (n < length a - 1)%nat) as [Hlt|Hge].
    + destruct (legs_eqb_lookup _ _ n r He) as (r' & Hb & Hr); [by apply lookup_take_Some|].
      exists r'. split; [|done]. apply lookup_take_Some in Hb. tauto.
    + assert (n = length a - 1)%nat as -> by (apply lookup_lt_Some in Ha; lia).
      rewrite last_lookup in Hu. replace (pred (length a)) with (length a - 1)%nat in Hu by lia.
      rewrite Ha in Hu. simpl in Hu. unfold known in Hk. bool_prop. done.
Qed.

Section monotone.
Context `{EvmText}.

Lemma check_successor_extends p o : check_successor p o = Ok tt -> op_extends p o.
Proof.
  unfold check_successor. intros Hc. res_inv.
  assert (Hcorr : operator_terminal_correction_allowed p o = true ->
            operator_recovery p = None /\ operator_recovery o <> None /\
            terminal (stage o) = true /\ token_b_residual o = 0).
  { unfold operator_terminal_correction_allowed. rewrite !andb_true_iff. intros Hx. destruct_and!.
    bool_prop. done. }
  constructor.
  - unfold intent_eqb in *. bool_prop. done.
  - destruct (dex_dispatched p); [intros _; by destruct (dex_dispatched o)|done].
  - destruct (cex_dispatched p); [intros _; by destruct (cex_dispatched o)|done].
  - intros d Hd. rewrite Hd in *. unfold opt_dec_eqb in *. simpl in *. bool_prop. done.
  - intros t Ht. rewrite Ht in *. simpl in *. bool_prop. done.
  - intros Hno. destruct (operator_terminal_correction_allowed p o) eqn:E; [naive_solver|].
    by apply unchanged_keeps.
  - by apply unchanged_keeps.
  - intros n. by apply append_only_keeps.
  - intros e He. rewrite He in *. simpl in *. bool_prop. done.
  - intros Ht. right. apply Hcorr. rewrite Ht in *. done.
Qed.

Definition ops_extend (ops ops' : Operations) : Prop :=
  forall k o, ops !! k = Some o -> exists o', ops' !! k = Some o' /\ op_extends o o'.

#[global] Instance ops_extend_preorder : PreOrder ops_extend.
Proof.
  split; [intros ops k o Ho; by exists o|].
  intros a b c Hab Hbc k o Ho. destruct (Hab k o Ho) as (o' & Ho' & He).
  destruct (Hbc k o' Ho') as (o'' & Ho'' & He'). exists o''. split; [done|by etrans].
Qed.

Lemma apply_snapshot_extends ops o ops' : apply_snapshot ops o = Ok ops' -> ops_extend ops ops'.
Proof.
  intros Ha. apply apply_snapshot_inv in Ha as (-> & _ & Hs). intros k p Hp.
  destruct (decide (plan_id (intent o) = k)) as [<-|Hne].
  - rewrite Hp in Hs. exists o. rewrite lookup_insert_eq. split; [done|by apply check_successor_extends].
  - exists p. by rewrite lookup_insert_ne.
Qed.

Lemma append_extends `{TradeCodecLaws} env o j :
  trade_ok j -> next_sequence j + 1 < 2 ^ 64 -> ops_extend (operations j) (operations (append env o j).1).
Proof.
  intros Hok Hseq. destruct (trade_append_cases env o j Hok Hseq)
    as [[e ->]|[(pa & k & Hp & _ & ->)|(pa & Hp & _ & ->)]]; simpl; [done..|].
  destruct (prepared_facts _ _ _ _ Hok Hseq Hp) as (_ & Hs & _). by eapply apply_snapshot_extends.
Qed.

(** The trade journal only moves forward: along any appends an intent, a
    dispatched leg, a selected price and a selected recovery quantity never
    change, a proven leg result is never replaced, and a settled trade never
    changes except by one evidenced operator repair that leaves no residual. *)
Theorem trade_journal_monotone `{TradeCodecLaws} j j' :
  trade_history j -> rtc trade_step j j' -> ops_extend (operations j) (operations j').
Proof.
  intros Hh Hr. apply history_ok in Hh as Hok. clear Hh.
  induction Hr as [|j1 j2 j3 (Hseq & env & o & ->) _ IH]; [done|].
  etrans; [by apply append_extends|]. by apply IH, append_ok.
Qed.
End monotone.
