(* ===== verification/Coordinator.v ===== *)
(** * The trade coordinator ([src/src/arbitrage.rs], [PaperTradeCoordinator])

    The state machine that owns a two-legged trade from admission to
    settlement.  Every decision is a snapshot appended to the trade journal
    before the command it authorizes is returned, so the state is the journal;
    the clock and the outcome of a write are arguments.  [decide_commands] is
    the body of [take_commands] up to its append. *)
From Stdlib Require Import Lia.
From stdpp Require Import base gmap strings numbers list fin_maps.
From S2P Require Import Prelude Decimals LineLog ExecutionPlan TradeData TradeJournal.

Inductive CoordinatorCommand :=
| DispatchDex (operation_id : string) (expected_token_b_delta : Z) (plan : option DexSwapPlan)
    (reconciliation_only : bool)
| DispatchCex (client_order_id : string) (target_token_b_delta : Z) (limit_price : option Decimal)
| RecoverCex (attempt : nat) (target_token_b_delta : Z).
#[global] Instance CoordinatorCommand_eq_dec : EqDecision CoordinatorCommand.
Proof. solve_decision. Defined.

(** ** Field updates *)
Definition set_stage (o : TradeOperation) (s : TradeStage) (reason : option string)
  : TradeOperation :=
  mkTrade (intent o) s (dex_dispatched o) (cex_dispatched o) (cex_execution_limit_price o)
    (dex_result o) (cex_result o) (recovery_results o) (recovery_inflight o) (recovery_target o)
    (recovery_retry_not_before o) (final_result o) reason (operator_recovery o).
Definition set_dispatched (o : TradeOperation) (s : TradeStage) (dex cex : bool) : TradeOperation :=
  mkTrade (intent o) s dex cex (cex_execution_limit_price o) (dex_result o) (cex_result o)
    (recovery_results o) (recovery_inflight o) (recovery_target o) (recovery_retry_not_before o)
    (final_result o) (blocking_reason o) (operator_recovery o).
Definition set_inflight (o : TradeOperation) (s : TradeStage) (target : option Z) : TradeOperation :=
  mkTrade (intent o) s (dex_dispatched o) (cex_dispatched o) (cex_execution_limit_price o)
    (dex_result o) (cex_result o) (recovery_results o) true target None (final_result o)
    (blocking_reason o) (operator_recovery o).
Definition set_results (o : TradeOperation) (dex cex : option LegResult) (recovery : list LegResult)
    (inflight : bool) : TradeOperation :=
  mkTrade (intent o) (stage o) (dex_dispatched o) (cex_dispatched o) (cex_execution_limit_price o)
    dex cex recovery inflight (recovery_target o) (recovery_retry_not_before o) (final_result o)
    (blocking_reason o) (operator_recovery o).
Definition set_price (o : TradeOperation) (price : option Decimal) : TradeOperation :=
  mkTrade (intent o) (stage o) (dex_dispatched o) (cex_dispatched o) price (dex_result o)
    (cex_result o) (recovery_results o) (recovery_inflight o) (recovery_target o)
    (recovery_retry_not_before o) (final_result o) (blocking_reason o) (operator_recovery o).

(** ** Commands *)
Definition planned_delta (it : TradeIntent) : Z := dex_token_b_delta (direction it) (planned_token_b it).

Definition dex_command (it : TradeIntent) (reconciliation_only : bool) : CoordinatorCommand :=
  DispatchDex (dex_operation_id it) (planned_delta it) (dex_plan it) reconciliation_only.

Definition admitted_price (it : TradeIntent) : option Decimal :=
  cex_primary_limit_price <$> admission it.

(** [cex_execution_limit_price.or_else(admission)]. *)
Definition effective_price (o : TradeOperation) : option Decimal :=
  match cex_execution_limit_price o with Some p => Some p | None => admitted_price (intent o) end.

Definition primary_finished (o : TradeOperation) : bool :=
  negb (bool_decide (dex_result o = None))
  && (negb (bool_decide (cex_result o = None)) || negb (cex_dispatched o)).

Definition Decision_ : Type := list CoordinatorCommand * option TradeOperation.

(** The retry, settlement or first recovery once both primary legs are known. *)
Definition decide_recovery (clock : TRes Z) (o : TradeOperation) : TRes Decision_ :=
  if bool_decide (recovery_results o = []) then
    let target := default 0 (primary_recovery_target o) in
    if target =? 0 then
      let? o' := finalize_balanced o in Ok ([], Some o')
    else if bool_decide (mode (intent o) = DexFirst)
            && negb (dex_first_recovery_direction_is_valid (direction (intent o)) target)
    then Ok ([], Some (set_stage o Halted (Some "dex_first_recovery_direction_flipped"%string)))
    else Ok ([RecoverCex 1 target], Some (set_inflight o Recovering (Some target)))
  else if is_some_and (last (recovery_results o)) recovery_failure_is_retryable
          && (length (recovery_results o) <? MAX_RECOVERY_ATTEMPTS)%nat
  then
    let? not_before := or_err (recovery_retry_not_before o)
                         "retryable recovery has no persisted backoff deadline" in
    let? now := clock in
    if now <? not_before then Ok ([], None) else
    let? target := or_err (recovery_target o) "retryable recovery has no immutable target" in
    Ok ([RecoverCex (length (recovery_results o) + 1) target],
        Some (set_inflight o (stage o) (recovery_target o)))
  else let? o' := finalize_balanced (set_retry o None) in Ok ([], Some o').

Definition decide_after_primary (clock : TRes Z) (o : TradeOperation) : TRes Decision_ :=
  if primary_finished o && negb (recovery_inflight o) then decide_recovery clock o
  else Ok ([], None).

Definition decide_commands (clock : TRes Z) (o : TradeOperation) : TRes Decision_ :=
  ensure! negb (terminal (stage o)) else "trade is terminal" ;;
  if has_unknown_leg o then
    if bool_decide (stage o = UnknownExposure) then Ok ([], None)
    else Ok ([], Some (set_stage o UnknownExposure (Some "venue_outcome_unknown"%string)))
  else if negb (dex_dispatched o) then
    match mode (intent o) with
    | ConcurrentHedged =>
        Ok ([dex_command (intent o) false;
             DispatchCex (cex_client_order_id (intent o)) (i128_neg (planned_delta (intent o)))
               (admitted_price (intent o))],
            Some (set_dispatched o Executing true true))
    | DexFirst =>
        Ok ([dex_command (intent o) false], Some (set_dispatched o Executing true (cex_dispatched o)))
    end
  else
    match mode (intent o), cex_dispatched o, dex_result o with
    | DexFirst, false, Some dex =>
        if bool_decide (leg_status dex = Filled) && negb (token_b_delta dex =? 0) then
          Ok ([DispatchCex (cex_client_order_id (intent o)) (i128_neg (token_b_delta dex))
                 (effective_price o)],
              Some (set_dispatched o (stage o) (dex_dispatched o) true))
        else if bool_decide (leg_status dex = Failed) then
          let? o' := finalize_balanced o in Ok ([], Some o')
        else decide_after_primary clock o
    | _, _, _ => decide_after_primary clock o
    end.

(** ** Operations *)
Record CoordEnv := mkCoordEnv { clock_ms : TRes Z; append_env : TradeEnv }.

Section coordinator.
Context `{EvmText} `{TradeCodec}.

Abbreviation CM := (M TradeJournal string).

Definition get_operation (id : string) : CM TradeOperation := fun j => (j, operation j id).

Definition executing_stage (s : TradeStage) : bool :=
  match s with Prepared | Executing | Recovering => true | _ => false end.

Definition admit_trade (env : CoordEnv) (it : TradeIntent) : CM unit :=
  do! mlift (validate_intent it) ;;
  do! mlift (ensure (is_none_or (admission it) opportunity_threshold_met)
               "opportunity threshold must be met before admission"%string) ;;
  do j <- mget ;;
  do! mlift (ensure (negb (existsb (fun o => executing_stage (stage o)) (btree_values (operations j))))
               "another trade is currently executing"%string) ;;
  record_intent (append_env env) it.

Definition take_commands (env : CoordEnv) (id : string) : CM (list CoordinatorCommand) :=
  do o <- get_operation id ;;
  do d <- mlift (decide_commands (clock_ms env) o) ;;
  match d with
  | (commands, None) => mret commands
  | (commands, Some o') => do! append (append_env env) o' ;; mret commands
  end.

Definition place_result (clock : TRes Z) (o : TradeOperation) (role : LegRole) (r : LegResult)
  : TRes TradeOperation :=
  match role with
  | Dex =>
      ensure! dex_dispatched o else "DEX leg was not dispatched" ;;
      ensure! bool_decide (dex_result o = None) else "DEX result already recorded" ;;
      Ok (set_results o (Some r) (cex_result o) (recovery_results o) (recovery_inflight o))
  | Cex =>
      ensure! cex_dispatched o else "CEX leg was not dispatched" ;;
      ensure! bool_decide (cex_result o = None) else "CEX result already recorded" ;;
      Ok (set_results o (dex_result o) (Some r) (recovery_results o) (recovery_inflight o))
  | RecoveryCex =>
      ensure! recovery_inflight o else "recovery was not dispatched" ;;
      refresh_recovery_retry_deadline clock
        (set_results o (dex_result o) (cex_result o) (recovery_results o ++ [r]) false)
  end.

Definition record_result (env : CoordEnv) (id : string) (role : LegRole) (r : LegResult) : CM unit :=
  do! mlift (validate_leg r) ;;
  do o <- get_operation id ;;
  do! mlift (ensure (negb (terminal (stage o))) "trade is terminal"%string) ;;
  do o' <- mlift (place_result (clock_ms env) o role r) ;;
  append (append_env env) o'.

Definition replace_unknown (slot : option LegResult) (r : LegResult) : TRes (option LegResult) :=
  let? current := or_err slot "trade has no result to reconcile" in
  ensure! bool_decide (leg_status current = Unknown) else "venue result is not unknown" ;;
  Ok (Some r).

Definition replace_last (l : list LegResult) (r : LegResult) : list LegResult :=
  take (length l - 1) l ++ [r].

Definition replace_result (clock : TRes Z) (o : TradeOperation) (role : LegRole) (r : LegResult)
  : TRes TradeOperation :=
  match role with
  | Dex =>
      ensure! negb (bool_decide (leg_status r = Failed)) || dex_failure_proves_zero_exposure r
        else "DEX reconciliation failure does not prove a terminal zero-exposure outcome" ;;
      let? slot := replace_unknown (dex_result o) r in
      Ok (set_results o slot (cex_result o) (recovery_results o) (recovery_inflight o))
  | Cex =>
      let? slot := replace_unknown (cex_result o) r in
      Ok (set_results o (dex_result o) slot (recovery_results o) (recovery_inflight o))
  | RecoveryCex =>
      let? current := or_err (last (recovery_results o)) "trade has no recovery result to reconcile" in
      ensure! bool_decide (leg_status current = Unknown) else "latest recovery result is not unknown" ;;
      refresh_recovery_retry_deadline clock
        (set_results o (dex_result o) (cex_result o) (replace_last (recovery_results o) r)
           (recovery_inflight o))
  end.

Definition reconcile_unknown (env : CoordEnv) (id : string) (role : LegRole) (r : LegResult)
  : CM unit :=
  do! mlift (validate_leg r) ;;
  do! mlift (ensure (negb (bool_decide (leg_status r = Unknown)))
               "reconciliation must prove a terminal venue outcome"%string) ;;
  do o <- get_operation id ;;
  do! mlift (ensure (bool_decide (stage o = UnknownExposure))
               "trade is not waiting for unknown-outcome reconciliation"%string) ;;
  do o1 <- mlift (replace_result (clock_ms env) o role r) ;;
  append (append_env env)
    (set_stage o1 (if bool_decide (recovery_results o1 = []) then Executing else Recovering) None).

Definition select_primary_cex_limit_price (env : CoordEnv) (id : string) (price : Decimal) : CM unit :=
  do! mlift (ensure (dec_ltb dec_zero price)
               "selected primary CEX limit price is non-positive"%string) ;;
  do o <- get_operation id ;;
  do! mlift (ensure (bool_decide (mode (intent o) = DexFirst))
               "post-DEX CEX price selection requires dex-first execution"%string) ;;
  do! mlift (ensure (negb (cex_dispatched o)) "primary CEX leg was already dispatched"%string) ;;
  do! mlift (ensure (is_some_and (dex_result o)
                       (fun r => bool_decide (leg_status r = Filled) && negb (token_b_delta r =? 0)))
               "primary CEX price selection requires a filled DEX result"%string) ;;
  match cex_execution_limit_price o with
  | Some selected =>
      mlift (ensure (dec_eqb selected price) "selected primary CEX limit price changed"%string)
  | None => append (append_env env) (set_price o (Some price))
  end.

(** The shape of a historical false terminal that an operator may repair. *)
Definition repairable (o : TradeOperation) : TRes unit :=
  ensure! bool_decide (operator_recovery o = None) else "trade already has an operator recovery" ;;
  ensure! bool_decide (mode (intent o) = DexFirst) && dex_dispatched o && negb (cex_dispatched o)
          && bool_decide (cex_result o = None) && bool_decide (recovery_results o = [])
          && negb (recovery_inflight o)
    else "trade is not the supported DEX-only operator recovery shape" ;;
  ensure! terminal (stage o)
          && is_some_and (dex_result o)
               (fun r => bool_decide (leg_status r = Failed)
                         && bool_decide (venue_reference r = "dex:expired-plan"%string))
    else "trade is not the historical false-terminal expired-plan shape" ;;
  Ok tt.

Definition repaired (o : TradeOperation) (dex recovery : LegResult) (e : OperatorRecoveryEvidence)
  : TradeOperation :=
  mkTrade (intent o) Recovering (dex_dispatched o) (cex_dispatched o) (cex_execution_limit_price o)
    (Some dex) (cex_result o) (recovery_results o ++ [recovery]) (recovery_inflight o)
    (Some (token_b_delta recovery)) (recovery_retry_not_before o) None None (Some e).

Definition record_operator_recovery (env : CoordEnv) (id : string) (dex recovery : LegResult)
    (e : OperatorRecoveryEvidence) : CM unit :=
  do! mlift (validate_leg dex) ;;
  do! mlift (validate_leg recovery) ;;
  do! mlift (validate_evidence e) ;;
  do! mlift (ensure (bool_decide (leg_status dex = Filled))
               "operator recovery DEX result is not filled"%string) ;;
  do! mlift (ensure (bool_decide (leg_status recovery = Filled))
               "operator recovery Binance result is not filled"%string) ;;
  do! mlift (ensure (bool_decide (venue_reference dex = dex_reference (ev_dex_transaction_hash e)))
               "operator recovery DEX result does not match its transaction evidence"%string) ;;
  do! mlift (ensure (bool_decide (venue_reference recovery = cex_reference (ev_binance_order_id e)))
               "operator recovery Binance result does not match its order evidence"%string) ;;
  do o <- get_operation id ;;
  do! mlift (repairable o) ;;
  do! mlift (ensure (deterministic_client_id (cex_client_order_id (intent o))
                       (ev_binance_client_order_id e))
               "operator recovery Binance client id is not deterministic"%string) ;;
  do! mlift (ensure (negb (token_b_delta dex =? 0)
                     && (token_b_delta recovery =? i128_saturating_neg (token_b_delta dex)))
               "operator recovery does not exactly neutralize the DEX token-B delta"%string) ;;
  do o' <- mlift (finalize_balanced (repaired o dex recovery e)) ;;
  do! mlift (ensure (token_b_residual o' =? 0) "operator recovery left a token-B residual"%string) ;;
  append (append_env env) o'.

(** ** Reconstruction after a restart *)

(** The target of a dispatched primary CEX order. *)
Definition primary_cex_target (o : TradeOperation) : TRes Z :=
  match mode (intent o) with
  | DexFirst =>
      let? dex := or_err (dex_result o) "dex-first CEX dispatch has no DEX result" in
      Ok (i128_neg (token_b_delta dex))
  | ConcurrentHedged => Ok (i128_neg (planned_delta (intent o)))
  end.

Definition resume_operation (clock : TRes Z) (o : TradeOperation) : TRes (option CoordinatorCommand) :=
  if dex_dispatched o && bool_decide (dex_result o = None) then
    let? now := clock in
    let expired := is_some_and (dex_plan (intent o))
                     (fun p => deadline_unix_seconds p <=? now / 1000) in
    Ok (Some (dex_command (intent o) expired))
  else if cex_dispatched o && bool_decide (cex_result o = None) then
    let? target := primary_cex_target o in
    Ok (Some (DispatchCex (cex_client_order_id (intent o)) target (effective_price o)))
  else if recovery_inflight o then
    let target := match recovery_target o with
                  | Some t => t
                  | None => i128_neg (actionable_token_b_residual o)
                  end in
    Ok (Some (RecoverCex (length (recovery_results o) + 1) target))
  else Ok None.

Definition resume_command (clock : TRes Z) (j : TradeJournal) (id : string)
  : TRes (option CoordinatorCommand) :=
  let? o := operation j id in resume_operation clock o.

Definition unknown_dex_reconciliation_command (j : TradeJournal) (id : string)
  : TRes (option CoordinatorCommand) :=
  let? o := operation j id in
  if bool_decide (stage o = UnknownExposure)
     && is_some_and (dex_result o) (fun r => bool_decide (leg_status r = Unknown))
  then Ok (Some (dex_command (intent o) true)) else Ok None.

Definition recovery_retry_wait (clock : TRes Z) (j : TradeJournal) (id : string)
  : TRes (option (nat * Z)) :=
  let? o := operation j id in
  match recovery_retry_not_before o with
  | None => Ok None
  | Some not_before =>
      let? now := clock in
      Ok (if now <? not_before
          then Some ((length (recovery_results o) + 1)%nat, not_before - now) else None)
  end.

Definition unknown_binance_reconciliation_command (j : TradeJournal) (id : string)
  : TRes (option (LegRole * CoordinatorCommand)) :=
  let? o := operation j id in
  if negb (bool_decide (stage o = UnknownExposure)) then Ok None else
  if is_some_and (cex_result o) (fun r => bool_decide (leg_status r = Unknown)) then
    let? target := primary_cex_target o in
    Ok (Some (Cex, DispatchCex (cex_client_order_id (intent o)) target (effective_price o)))
  else if is_some_and (last (recovery_results o)) (fun r => bool_decide (leg_status r = Unknown)) then
    let? target := or_err (recovery_target o) "unknown recovery result has no immutable target" in
    Ok (Some (RecoveryCex, RecoverCex (length (recovery_results o)) target))
  else Ok None.

(** ** Risk queries *)
Definition terminal_operations (j : TradeJournal) : list TradeOperation :=
  filter (fun o => terminal (stage o) && negb (bool_decide (final_result o = None)) = true)
    (btree_values (operations j)).
Definition admitted_operation_count (j : TradeJournal) : Z := Z.of_nat (size (operations j)).

Definition comparable_of (r : ArbitrageResult) : Z :=
  if negb (comparable_profit r =? 0) || negb (residual_value r =? 0)
  then comparable_profit r else realized_profit r.

Definition add_loss (loss amount : Z) (e : string) : TRes Z :=
  if amount <? 0 then or_err (checked_add 128 loss (Z.abs amount)) e else Ok loss.

Fixpoint accumulate_risk (rs : list ArbitrageResult) (acc : Z * Z) : TRes (Z * Z) :=
  match rs with
  | [] => Ok acc
  | r :: rs' =>
      let? realized := add_loss acc.1 (comparable_of r) "cumulative realized loss overflow" in
      let? recovery :=
        if 0 <? recovery_loss r
        then or_err (checked_add 128 acc.2 (Z.abs (recovery_loss r))) "cumulative recovery loss overflow"
        else Ok acc.2 in
      accumulate_risk rs' (realized, recovery)
  end.

Definition cumulative_terminal_risk (j : TradeJournal) : TRes (Z * Z) :=
  accumulate_risk (omap final_result (btree_values (operations j))) (0, 0).

Record StrategyJournalRisk := mkRisk {
  admitted_parent_count : Z; active_parent_count : Z; failed_parent_count : Z;
  risk_unresolved_count : Z; admitted_notional : Z; realized_loss : Z;
  first_admitted_unix_us : option Z;
}.

Definition usize_add (n : Z) (b : bool) : Z := saturating_add 64 n (if b then 1 else 0).

Definition risk_step (risk : StrategyJournalRisk) (o : TradeOperation) : TRes StrategyJournalRisk :=
  let? notional := or_err (checked_add 128 (admitted_notional risk)
                             (Z.abs (expected_cost_token_a (intent o))))
                     "cumulative canary admitted notional overflow" in
  let received := opportunity_received_unix_us (intent o) in
  let first :=
    if 0 <? received then Some (match first_admitted_unix_us risk with
                                | Some current => Z.min current received
                                | None => received
                                end)
    else first_admitted_unix_us risk in
  let? loss := match final_result o with
               | Some r => add_loss (realized_loss risk) (comparable_of r)
                             "cumulative canary realized loss overflow"
               | None => Ok (realized_loss risk)
               end in
  Ok (mkRisk (usize_add (admitted_parent_count risk) true)
        (usize_add (active_parent_count risk)
           (negb (terminal (stage o)) && negb (unresolved (stage o))))
        (usize_add (failed_parent_count risk)
           (match stage o with BalancedLoss | UnknownExposure | Halted => true | _ => false end))
        (usize_add (risk_unresolved_count risk) (unresolved (stage o)))
        notional loss first).

Fixpoint accumulate_strategy (os : list TradeOperation) (risk : StrategyJournalRisk)
  : TRes StrategyJournalRisk :=
  match os with
  | [] => Ok risk
  | o :: os' => let? risk' := risk_step risk o in accumulate_strategy os' risk'
  end.

Definition of_strategy (strategy : string) (o : TradeOperation) : bool :=
  is_some_and (journal_scope (intent o)) (fun s => bool_decide (sc_strategy_id s = strategy)).

Definition strategy_journal_risk (j : TradeJournal) (strategy : string) : TRes StrategyJournalRisk :=
  accumulate_strategy (filter (fun o => of_strategy strategy o = true) (btree_values (operations j)))
    (mkRisk 0 0 0 0 0 0 None).
End coordinator.
