(* ===== verification/CoordinatorRuns.v ===== *)
(** * Runs of the trade coordinator

    A run is any sequence of coordinator calls on one journal file, with write
    faults and process restarts anywhere, together with the commands the calls
    have returned.  The theorems say what holds along every run: no command is
    ever authorized twice, every unanswered command can be reconstructed, and
    every settled trade is fully accounted for. *)
From Stdlib Require Import Lia.
From stdpp Require Import base gmap strings numbers list fin_maps.
From S2P Require Import Prelude Decimals LineLog ExecutionPlan TradeData TradeJournal Coordinator.

(** ** Calls and transitions *)
Inductive coord_op :=
| OpAdmit (it : TradeIntent)
| OpTake (id : string)
| OpRecord (id : string) (role : LegRole) (r : LegResult)
| OpReconcile (id : string) (role : LegRole) (r : LegResult)
| OpSelect (id : string) (price : Decimal)
| OpOperator (id : string) (dex recovery : LegResult) (e : OperatorRecoveryEvidence).

Abbreviation Issued := (string * CoordinatorCommand)%type.

(** What one call does to the snapshot of its plan, and the commands it returns. *)
Inductive transition : option TradeOperation -> list CoordinatorCommand -> TradeOperation -> Prop :=
| tr_admit it : transition None [] (prepared it)
| tr_decide clock o cs o' :
    decide_commands clock o = Ok (cs, Some o') -> transition (Some o) cs o'
| tr_record clock o role r o' :
    terminal (stage o) = false -> place_result clock o role r = Ok o' -> transition (Some o) [] o'
| tr_reconcile clock o role r o' :
    stage o = UnknownExposure -> replace_result clock o role r = Ok o' ->
    transition (Some o) []
      (set_stage o' (if bool_decide (recovery_results o' = []) then Executing else Recovering) None)
| tr_select o price :
    mode (intent o) = DexFirst -> cex_dispatched o = false -> dex_result o <> None ->
    transition (Some o) [] (set_price o (Some price))
| tr_operator o dex recovery e o' :
    repairable o = Ok tt -> leg_status dex = Filled ->
    finalize_balanced (repaired o dex recovery e) = Ok o' -> transition (Some o) [] o'.

(** ** Shapes of the individual updates *)
Lemma decide_none clock o cs : decide_commands clock o = Ok (cs, None) -> cs = [].
Proof.
  unfold decide_commands, decide_after_primary, decide_recovery. intros Hd. res_inv.
  repeat case_match; res_inv; simplify_eq; try done; repeat case_match; res_inv; by simplify_eq.
Qed.

Lemma finalize_shape o o' :
  finalize_balanced o = Ok o' ->
  exists s r, o' = set_final o s (Some r) /\ terminal s = true /\ recovery_inflight o = false.
Proof.
  unfold finalize_balanced. intros Hf. res_inv. destruct (realized_profit_of o). res_inv. bool_prop.
  eexists _, _. split; [done|]. split; [by destruct (_ <=? _)|done].
Qed.

(** The last recovery attempt failed in a way that another one may repair. *)
Definition retry_due (o : TradeOperation) : bool :=
  is_some_and (last (recovery_results o)) recovery_failure_is_retryable
  && (length (recovery_results o) <? MAX_RECOVERY_ATTEMPTS)%nat.

Lemma refresh_shape clock o o' :
  refresh_recovery_retry_deadline clock o = Ok o' ->
  exists d, o' = set_retry o d /\ (retry_due o = true -> is_Some d).
Proof.
  unfold refresh_recovery_retry_deadline, retry_due. intros Hr. case_match; res_inv; eauto.
  exists None. by split.
Qed.

(** The five things [take_commands] can persist. *)
Inductive decided (o : TradeOperation) : list CoordinatorCommand -> TradeOperation -> Prop :=
| dec_park s reason : unresolved s = true -> decided o [] (set_stage o s reason)
| dec_open :
    dex_dispatched o = false -> mode (intent o) = DexFirst ->
    decided o [dex_command (intent o) false] (set_dispatched o Executing true (cex_dispatched o))
| dec_open_both :
    dex_dispatched o = false -> mode (intent o) = ConcurrentHedged ->
    decided o [dex_command (intent o) false;
               DispatchCex (cex_client_order_id (intent o)) (i128_neg (planned_delta (intent o)))
                 (admitted_price (intent o))]
      (set_dispatched o Executing true true)
| dec_hedge dex :
    dex_dispatched o = true -> mode (intent o) = DexFirst -> cex_dispatched o = false ->
    dex_result o = Some dex -> leg_status dex = Filled ->
    decided o [DispatchCex (cex_client_order_id (intent o)) (i128_neg (token_b_delta dex))
                 (effective_price o)]
      (set_dispatched o (stage o) true true)
| dec_recover s t :
    dex_dispatched o = true -> terminal s = false ->
    primary_finished o = true -> recovery_inflight o = false ->
    (if decide (recovery_results o = []) then cex_result o <> None else recovery_target o = Some t) ->
    (length (recovery_results o) < MAX_RECOVERY_ATTEMPTS)%nat ->
    decided o [RecoverCex (S (length (recovery_results o))) t] (set_inflight o s (Some t))
| dec_settle d o' : finalize_balanced (set_retry o d) = Ok o' -> decided o [] o'.

Lemma set_retry_id o : set_retry o (recovery_retry_not_before o) = o.
Proof. by destruct o. Qed.

Lemma finalize_decided o o' : finalize_balanced o = Ok o' -> decided o [] o'.
Proof. intros Hf. apply (dec_settle o (recovery_retry_not_before o)). by rewrite set_retry_id. Qed.

Lemma recovery_decided clock o cs o' :
  terminal (stage o) = false -> dex_dispatched o = true ->
  decide_after_primary clock o = Ok (cs, Some o') -> decided o cs o'.
Proof.
  unfold decide_after_primary, decide_recovery. intros Ht Hd Hr.
  destruct (primary_finished o && negb (recovery_inflight o)) eqn:Hp; [|res_inv; done]. bool_prop.
  destruct (bool_decide (recovery_results o = [])) eqn:Hn; bool_prop.
  - destruct (_ =? 0) eqn:Hz; [res_inv; simplify_eq; by apply finalize_decided|].
    destruct (_ && _); res_inv; simplify_eq; [by apply dec_park|].
    replace 1%nat with (S (length (recovery_results o))) by by rewrite Hn.
    apply dec_recover; try done; [|rewrite Hn; unfold MAX_RECOVERY_ATTEMPTS; simpl; lia].
    rewrite decide_True by done. intros Hc. unfold primary_recovery_target in Hz. rewrite Hc in Hz.
    by destruct (dex_result o).
  - destruct (_ && _) eqn:Hb; [|res_inv; simplify_eq; by eapply dec_settle].
    res_inv. destruct (_ <? _); res_inv; simplify_eq. bool_prop.
    match goal with E : recovery_target o = Some _ |- _ => rewrite E end.
    rewrite Nat.add_1_r. apply dec_recover; try done; [by rewrite decide_False|]. by apply Nat.ltb_lt.
Qed.

Lemma decide_decided clock o cs o' :
  decide_commands clock o = Ok (cs, Some o') -> terminal (stage o) = false /\ decided o cs o'.
Proof.
  unfold decide_commands. intros Hd. res_inv. bool_prop. split; [done|].
  destruct (has_unknown_leg o); [case_match; res_inv; simplify_eq; by apply dec_park|].
  destruct (dex_dispatched o) eqn:Ed; simpl in Hd; cycle 1.
  { destruct (mode (intent o)) eqn:Em; res_inv; simplify_eq; by constructor. }
  destruct (mode (intent o)) eqn:Em; [|by eapply recovery_decided].
  destruct (cex_dispatched o) eqn:Ec; [by eapply recovery_decided|].
  destruct (dex_result o) as [dex|] eqn:Er; [|by eapply recovery_decided].
  destruct (_ && _) eqn:Eb; [|destruct (bool_decide (leg_status dex = Failed)); [|by eapply recovery_decided]].
  - res_inv; simplify_eq. bool_prop. by apply dec_hedge.
  - res_inv. simplify_eq. by apply finalize_decided.
Qed.

(** ** Ownership of commands

    [slots] counts the recovery attempts a snapshot has authorized. *)
Definition slots (o : TradeOperation) : nat := length (recovery_results o) + bit (recovery_inflight o).

Definition fresh_dex (c : CoordinatorCommand) : bool :=
  match c with DispatchDex _ _ _ false => true | _ => false end.
Definition is_cex (c : CoordinatorCommand) : bool :=
  match c with DispatchCex _ _ _ => true | _ => false end.
Definition recovery_attempt (c : CoordinatorCommand) : option nat :=
  match c with RecoverCex a _ => Some a | _ => None end.

(** The command is the one the snapshot reconstructs. *)
Definition accounted (o : TradeOperation) (c : CoordinatorCommand) : Prop :=
  match c with
  | DispatchDex _ _ _ _ => c = dex_command (intent o) false
  | DispatchCex id t p =>
      id = cex_client_order_id (intent o) /\ primary_cex_target o = Ok t /\ p = effective_price o
  | RecoverCex a t =>
      (1 <= a <= slots o)%nat /\ (a <= MAX_RECOVERY_ATTEMPTS)%nat /\ recovery_target o = Some t
  end.

(** How the fields of a snapshot the coordinator wrote hang together. *)
Record legs_wf (o : TradeOperation) : Prop := {
  lw_dex : dex_result o <> None -> dex_dispatched o = true;
  lw_cex : cex_result o <> None -> cex_dispatched o = true;
  lw_price : cex_execution_limit_price o <> None -> mode (intent o) = DexFirst;
  lw_hedge : cex_dispatched o = true -> mode (intent o) = DexFirst ->
    exists d, dex_result o = Some d /\ leg_status d = Filled;
  lw_order : cex_dispatched o = true -> dex_dispatched o = true;
  lw_both : dex_dispatched o = true -> mode (intent o) = ConcurrentHedged -> cex_dispatched o = true;
  lw_inflight : recovery_inflight o = true ->
    is_Some (recovery_target o) /\ dex_result o <> None /\ cex_result o <> None;
  lw_recovered : recovery_results o <> [] -> cex_result o <> None \/ terminal (stage o) = true;
  lw_attempted : recovery_results o <> [] -> is_Some (recovery_target o);
  lw_retry : terminal (stage o) = false -> recovery_inflight o = false ->
    retry_due o = true -> is_Some (recovery_retry_not_before o);
}.

Record owned (o : TradeOperation) (cs : list CoordinatorCommand) : Prop := {
  ow_dex : (count_list fresh_dex cs <= bit (dex_dispatched o))%nat;
  ow_cex : (count_list is_cex cs <= bit (cex_dispatched o))%nat;
  ow_attempts : NoDup (omap recovery_attempt cs);
  ow_accounted c : c ∈ cs -> accounted o c;
  ow_wf : legs_wf o;
}.

(** What an update must keep for the commands already issued. *)
Record frame (o o' : TradeOperation) : Prop := {
  fr_intent : intent o' = intent o;
  fr_dex : dex_dispatched o = true -> dex_dispatched o' = true;
  fr_cex : cex_dispatched o = true -> cex_dispatched o' = true;
  fr_price : cex_dispatched o = true -> cex_execution_limit_price o' = cex_execution_limit_price o;
  fr_target : cex_dispatched o = true -> mode (intent o) = DexFirst ->
    token_b_delta <$> dex_result o' = token_b_delta <$> dex_result o;
  fr_slots : (slots o <= slots o')%nat;
  fr_recovery : (0 < slots o)%nat -> recovery_target o' = recovery_target o;
}.

Lemma count_list_elem {A} (f : A -> bool) l x : x ∈ l -> f x = true -> (0 < count_list f l)%nat.
Proof.
  intros Hx Hf. unfold count_list. assert (Hin : x ∈ filter (fun y => f y = true) l).
  { by apply list_elem_of_filter. }
  destruct (filter _ l); [by apply elem_of_nil in Hin|simpl; lia].
Qed.

Lemma bit_mono a b : (a = true -> b = true) -> (bit a <= bit b)%nat.
Proof. destruct a, b; simpl; intros Hab; first [lia|by specialize (Hab eq_refl)]. Qed.

Lemma accounted_frame o o' cs c :
  frame o o' -> owned o cs -> c ∈ cs -> accounted o' c.
Proof.
  intros [Hi _ _ Hp Ht Hs Hr] Hown Hin. pose proof (ow_accounted _ _ Hown c Hin) as Hc.
  destruct c as [id d p b|id t p|a t]; simpl in *.
  - by rewrite Hi.
  - assert (Hd : cex_dispatched o = true).
    { pose proof (ow_cex _ _ Hown). destruct (cex_dispatched o); [done|].
      pose proof (count_list_elem is_cex _ _ Hin eq_refl). simpl in *. lia. }
    destruct Hc as (-> & Htgt & ->). unfold primary_cex_target, effective_price in *.
    rewrite Hi, (Hp Hd). split; [done|]. split; [|done]. specialize (Ht Hd).
    destruct (mode (intent o)); [|done]. specialize (Ht eq_refl).
    destruct (dex_result o), (dex_result o'); simpl in *; congruence.
  - rewrite Hr by lia. destruct Hc as (Ha & Hm & Htgt). split_and!; [lia..|done|done].
Qed.

Lemma frame_owned o o' cs : frame o o' -> legs_wf o' -> owned o cs -> owned o' cs.
Proof.
  intros Hf Hw Ho. pose proof Hf as [_ Hd Hc _ _ _ _]. constructor; [| | | |done].
  - etrans; [apply Ho|]. by apply bit_mono.
  - etrans; [apply Ho|]. by apply bit_mono.
  - apply Ho.
  - intros c Hin. by eapply accounted_frame.
Qed.

Lemma owned_prefix o cs new : owned o (cs ++ new) -> owned o cs.
Proof.
  intros [Hd Hc Ha Hacc Hw]. constructor; [| | | |done].
  - unfold count_list in *. rewrite filter_app, length_app in Hd. lia.
  - unfold count_list in *. rewrite filter_app, length_app in Hc. lia.
  - rewrite omap_app in Ha. by apply NoDup_app in Ha as [? _].
  - intros c Hin. apply Hacc. apply elem_of_app. by left.
Qed.

(** Issuing one command more. *)
Lemma owned_snoc o cs c :
  owned o cs -> accounted o c ->
  (fresh_dex c = true -> count_list fresh_dex cs = 0%nat /\ dex_dispatched o = true) ->
  (is_cex c = true -> count_list is_cex cs = 0%nat /\ cex_dispatched o = true) ->
  (forall a, recovery_attempt c = Some a -> a ∉ omap recovery_attempt cs) ->
  owned o (cs ++ [c]).
Proof.
  intros [Hd Hc Ha Hacc Hw] Hok Hfd Hfc Hfa. constructor; [| | | |done].
  - unfold count_list in *. rewrite filter_app, length_app.
    change (length (filter (fun x => fresh_dex x = true) [c])) with (count_list fresh_dex [c]).
    rewrite count_list_cons. destruct (fresh_dex c); cbn; [|lia]. destruct (Hfd eq_refl) as [-> ->].
    simpl. lia.
  - unfold count_list in *. rewrite filter_app, length_app.
    change (length (filter (fun x => is_cex x = true) [c])) with (count_list is_cex [c]).
    rewrite count_list_cons. destruct (is_cex c); cbn; [|lia]. destruct (Hfc eq_refl) as [-> ->].
    simpl. lia.
  - rewrite omap_app. apply NoDup_app. split; [done|]. simpl.
    destruct (recovery_attempt c) as [a|]; simpl; [|split; [set_solver|constructor]].
    split; [|apply NoDup_singleton]. specialize (Hfa a eq_refl). set_solver.
  - intros c' Hin. apply elem_of_app in Hin as [?|?]; [by apply Hacc|]. set_solver.
Qed.

Lemma frame_decided o cs o' : legs_wf o -> decided o cs o' -> frame o o'.
Proof.
  intros Hw [s reason Hs|Hd Hm|Hd Hm|dex Hd Hm Hc Hr Hf|s t Hd Hs Hp Hi Ht Hl|d o'' Hf];
    try (constructor; unfold slots; simpl; try done; lia).
  - constructor; unfold slots; simpl; try done; [rewrite Hi; simpl; lia|]. rewrite Hi. intros Hpos.
    rewrite decide_False in Ht; [done|]. intros Hn. rewrite Hn in Hpos. simpl in Hpos. lia.
  - apply finalize_shape in Hf as (s & r & -> & _). by constructor.
Qed.

Lemma wf_decided o cs o' : terminal (stage o) = false -> legs_wf o -> decided o cs o' -> legs_wf o'.
Proof.
  intros Hnt [Wd Wc Wp Wh Wo Wb Wi Wr Wt We] [s reason Hs|Hd Hm|Hd Hm|dex Hd Hm Hc Hr Hf|s t Hd Hs Hp Hi Ht Hl|d o'' Hf].
  all: assert (Wr' : recovery_results o <> [] -> cex_result o <> None)
         by (intros Hn; destruct (Wr Hn); [done|congruence]).
  - constructor; simpl; try done; [|intros _; by apply We]. intros Hn. by apply Wr' in Hn; left.
  - constructor; simpl; try done; [congruence| |intros _; by apply We]. intros Hn. by apply Wr' in Hn; left.
  - constructor; simpl; try done; [congruence| |intros _; by apply We]. intros Hn. by apply Wr' in Hn; left.
  - constructor; simpl; try done; eauto.
  - constructor; simpl; try done.
    + intros _. unfold primary_finished in Hp. bool_prop. split; [eauto|]. split; [done|].
      destruct (decide (recovery_results o = [])) as [|Hn]; [done|]. by apply Wr'.
    + intros Hn. by apply Wr' in Hn; left.
  - apply finalize_shape in Hf as (s & r & -> & Hs & _). constructor; simpl; try done; [by right|congruence].
Qed.

Lemma length_replace_last l r : l <> [] -> length (replace_last l r) = length l.
Proof.
  intros Hn. unfold replace_last. rewrite length_app, length_take. simpl. destruct l; [done|]. simpl. lia.
Qed.

Lemma place_result_facts clock o role r o' :
  terminal (stage o) = false -> legs_wf o -> place_result clock o role r = Ok o' ->
  frame o o' /\ legs_wf o'.
Proof.
  intros Hnt [Wd Wc Wp Wh Wo Wb Wi Wr Wt We] Hp.
  assert (Wr' : recovery_results o <> [] -> cex_result o <> None).
  { intros Hn. destruct (Wr Hn); [done|congruence]. }
  destruct role; simpl in Hp; res_inv; bool_prop.
  - split; constructor; unfold slots; simpl; try done.
    + intros Hc Hm. destruct (Wh Hc Hm) as (d & Hd & _). congruence.
    + intros Hc Hm. destruct (Wh Hc Hm) as (d & Hd & _). congruence.
    + intros Hi. destruct (Wi Hi) as (? & ? & ?). done.
  - split; constructor; unfold slots; simpl; try done.
    + intros Hi. destruct (Wi Hi) as (? & ? & ?). done.
    + intros _. by left.
  - match goal with E : recovery_inflight o = true |- _ => rename E into Hi end.
    apply refresh_shape in Hp as (d & -> & Hdue). destruct (Wi Hi) as (Ht & Hd & Hc).
    split; constructor; unfold slots; simpl; try done; [|by left].
    rewrite length_app, Hi. simpl. lia.
Qed.

Lemma replace_result_facts clock o role r o' s :
  stage o = UnknownExposure -> legs_wf o -> replace_result clock o role r = Ok o' ->
  frame o (set_stage o' s None) /\ legs_wf (set_stage o' s None).
Proof.
  intros Hst [Wd Wc Wp Wh Wo Wb Wi Wr Wt We] Hp.
  assert (Wr' : recovery_results o <> [] -> cex_result o <> None).
  { intros Hn. destruct (Wr Hn) as [|Ht]; [done|]. by rewrite Hst in Ht. }
  destruct role; simpl in Hp; res_inv.
  - unfold replace_unknown in *. res_inv. bool_prop.
    assert (Hno : cex_dispatched o = true -> mode (intent o) = DexFirst -> False).
    { intros Hc Hm. destruct (Wh Hc Hm) as (d & Hd & Hs). congruence. }
    split; constructor; unfold slots; simpl; try done; try (intros; exfalso; by eapply Hno).
    + intros _. apply Wd. congruence.
    + intros Hi. destruct (Wi Hi) as (? & ? & ?). done.
    + intros Hn. left. by apply Wr'.
    + intros _. apply We. by rewrite Hst.
  - unfold replace_unknown in *. res_inv. bool_prop.
    split; constructor; unfold slots; simpl; try done.
    + intros _. apply Wc. congruence.
    + intros Hi. destruct (Wi Hi) as (? & ? & ?). done.
    + intros _. by left.
    + intros _. apply We. by rewrite Hst.
  - apply refresh_shape in Hp as (d & -> & Hdue). bool_prop.
    assert (Hn : recovery_results o <> []) by (intros E; by rewrite E in *).
    split; constructor; unfold slots; simpl; try done.
    + rewrite length_replace_last by done. lia.
    + intros _. left. by apply Wr'.
    + intros _. by apply Wt.
Qed.

Lemma transition_frame o cs o' : legs_wf o -> transition (Some o) cs o' -> frame o o' /\ legs_wf o'.
Proof.
  intros Hw Ht. inversion Ht as [|clock o1 cs1 o1' Hd|clock o1 role r o1' Hnt Hp|clock o1 role r o1' Hst Hp
    |o1 price Hm Hc Hd|o1 dex recovery e o1' Hr Hf Hfin]; subst.
  - apply decide_decided in Hd as [Hnt Hd]. split; [by eapply frame_decided|by eapply wf_decided].
  - by eapply place_result_facts.
  - by eapply replace_result_facts.
  - destruct Hw as [Wd Wc Wp Wh Wo Wb Wi Wr Wt We]. split; constructor; unfold slots; simpl; try done; congruence.
  - unfold repairable in Hr. res_inv. bool_prop. apply finalize_shape in Hfin as (s & r & -> & Hs & _).
    destruct Hw as [Wd Wc Wp Wh Wo Wb Wi Wr Wt We].
    match goal with E : recovery_inflight o = false |- _ => rename E into Hi end.
    match goal with E : recovery_results o = [] |- _ => rename E into Hn end.
    split; constructor; unfold slots; simpl; try done; rewrite ?Hi, ?Hn; simpl; try lia; try congruence.
    by right.
Qed.

(** No command of the family was issued while the flag was off. *)
Lemma no_dex_issued o cs : owned o cs -> dex_dispatched o = false -> count_list fresh_dex cs = 0%nat.
Proof. intros Ho Hd. pose proof (ow_dex _ _ Ho) as Hc. rewrite Hd in Hc. simpl in Hc. lia. Qed.

Lemma no_cex_issued o cs : owned o cs -> cex_dispatched o = false -> count_list is_cex cs = 0%nat.
Proof. intros Ho Hd. pose proof (ow_cex _ _ Ho) as Hc. rewrite Hd in Hc. simpl in Hc. lia. Qed.

Lemma count_snoc {A} (f : A -> bool) l x : f x = false -> count_list f (l ++ [x]) = count_list f l.
Proof.
  intros Hf. unfold count_list. rewrite filter_app, filter_cons_False by congruence. by rewrite app_nil_r.
Qed.

Lemma transition_owned o new o' cs :
  transition (Some o) new o' -> owned o cs -> owned o' (cs ++ new).
Proof.
  intros Ht Ho. pose proof (ow_wf _ _ Ho) as Hw. destruct (transition_frame _ _ _ Hw Ht) as [Hf Hw'].
  pose proof (frame_owned _ _ _ Hf Hw' Ho) as Ho'.
  inversion Ht as [|clock o1 cs1 o1' Hd| | | |]; subst; rewrite ?app_nil_r; try done.
  apply decide_decided in Hd as [_ Hd].
  destruct Hd as [s reason Hs|Hd Hm|Hd Hm|dex Hd Hm Hc Hr Hs|s t Hd Hs Hp Hi Htg Hl|d o'' Hfin];
    rewrite ?app_nil_r; try done.
  - apply owned_snoc; try done. intros _. split; [|done]. exact (no_dex_issued o cs Ho Hd).
  - assert (Hc : cex_dispatched o = false).
    { destruct (cex_dispatched o) eqn:E; [|done]. pose proof (lw_order _ Hw E). congruence. }
    rewrite cons_middle, app_assoc. apply owned_snoc; try done.
    + apply owned_snoc; try done. intros _. split; [|done]. exact (no_dex_issued o cs Ho Hd).
    + simpl. unfold primary_cex_target, effective_price. simpl. rewrite Hm. split_and!; [done..|].
      destruct (cex_execution_limit_price o) eqn:E; [|done].
      pose proof (lw_price _ Hw ltac:(congruence)). congruence.
    + intros _. split; [|done]. rewrite count_snoc by done. exact (no_cex_issued o cs Ho Hc).
  - apply owned_snoc; try done.
    + simpl. unfold primary_cex_target, effective_price. simpl. rewrite Hm, Hr. done.
    + intros _. split; [|done]. exact (no_cex_issued o cs Ho Hc).
  - apply owned_snoc; try done.
    + simpl. unfold slots. simpl. split_and!; [lia..|done].
    + intros a [= <-]. rewrite list_elem_of_omap. intros (c & Hin & Hc).
      pose proof (ow_accounted _ _ Ho c Hin) as Hacc. destruct c; simpl in *; simplify_eq.
      unfold slots in Hacc. rewrite Hi in Hacc. simpl in Hacc. lia.
Qed.

Lemma frame_erase o : frame o (erase o).
Proof.
  constructor; simpl; try done; [by destruct (dex_result o)|]. unfold slots. simpl. by rewrite length_fmap.
Qed.

Lemma wf_erase o : legs_wf o -> legs_wf (erase o).
Proof.
  intros [Wd Wc Wp Wh Wo Wb Wi Wr Wt We]. constructor; simpl; try done; rewrite ?fmap_None; try done.
  - intros Hc Hm. destruct (Wh Hc Hm) as (d & -> & Hs). eexists. by split.
  - intros Hn. apply Wr. intros E. by rewrite E in Hn.
  - intros Hn. apply Wt. intros E. by rewrite E in Hn.
  - unfold retry_due. simpl. rewrite length_fmap, last_erase by done. exact We.
Qed.

Lemma owned_prepared it : owned (prepared it) [].
Proof.
  constructor; simpl; [cbn; lia|cbn; lia|constructor|intros c Hc; by apply elem_of_nil in Hc|].
  by constructor.
Qed.

(** ** Runs *)
Section runs.
Context `{EvmText} `{TradeCodecLaws}.

Definition run_coord (env : CoordEnv) (op : coord_op) (j : TradeJournal)
  : TradeJournal * list Issued :=
  match op with
  | OpAdmit it => ((admit_trade env it j).1, [])
  | OpTake id =>
      match take_commands env id j with
      | (j', Ok cs) => (j', pair id <$> cs)
      | (j', Err _) => (j', [])
      end
  | OpRecord id role r => ((record_result env id role r j).1, [])
  | OpReconcile id role r => ((reconcile_unknown env id role r j).1, [])
  | OpSelect id price => ((select_primary_cex_limit_price env id price j).1, [])
  | OpOperator id dex recovery e => ((record_operator_recovery env id dex recovery e j).1, [])
  end.

Inductive coord_run : TradeJournal -> list Issued -> Prop :=
| run_start j : open_bytes [] = Ok j -> coord_run j []
| run_call env op j tr :
    coord_run j tr -> next_sequence j + 1 < 2 ^ 64 ->
    coord_run (run_coord env op j).1 (tr ++ (run_coord env op j).2)
| run_restart j j' tr : coord_run j tr -> open_bytes (file j) = Ok j' -> coord_run j' tr.

(** A call leaves the journal alone or appends one snapshot. *)
Definition appends (env : CoordEnv) (j : TradeJournal) (out : TradeJournal * list Issued) : Prop :=
  exists id cs o', transition (operations j !! id) cs o' /\ plan_id (intent o') = id /\
    out = ((append (append_env env) o' j).1,
           if is_ok (append (append_env env) o' j).2 then pair id <$> cs else []).

Lemma appends_quiet env j id o' :
  transition (operations j !! id) [] o' -> plan_id (intent o') = id ->
  appends env j ((append (append_env env) o' j).1, []).
Proof. intros Ht Hk. exists id, [], o'. split; [done|]. split; [done|]. by destruct (is_ok _). Qed.

Lemma transition_intent p cs o' :
  transition p cs o' -> forall o, p = Some o -> intent o' = intent o.
Proof.
  destruct 1; intros ? [= <-].
  - match goal with E : decide_commands _ _ = _ |- _ => apply decide_decided in E as [_ []] end; try done.
    match goal with E : finalize_balanced _ = _ |- _ => apply finalize_shape in E as (? & ? & -> & _) end.
    done.
  - destruct role; simpl in *; res_inv; try done.
    match goal with E : refresh_recovery_retry_deadline _ _ = _ |- _ => apply refresh_shape in E as (? & -> & _) end.
    done.
  - destruct role; simpl in *; res_inv; try done.
    match goal with E : refresh_recovery_retry_deadline _ _ = _ |- _ => apply refresh_shape in E as (? & -> & _) end.
    done.
  - done.
  - match goal with E : finalize_balanced _ = _ |- _ => apply finalize_shape in E as (? & ? & -> & _) end.
    done.
Qed.

Lemma mlift_bind {S E A B} (r : result E A) (k : A -> M S E B) s :
  mbind' (mlift r) k s = match r with Ok a => k a s | Err e => (s, Err e) end.
Proof. by destruct r. Qed.

Lemma mget_bind {S E B} (k : S -> M S E B) s : mbind' mget k s = k s s.
Proof. done. Qed.

Lemma operation_bind {B} id (k : TradeOperation -> M TradeJournal string B) j :
  mbind' (get_operation id) k j =
  match operations j !! id with Some o => k o j | None => (j, Err "unknown trade plan"%string) end.
Proof. unfold get_operation, mbind', operation. by destruct (operations j !! id). Qed.

Ltac guards :=
  repeat (rewrite mlift_bind;
          match goal with
          | |- context [match ?r with Ok _ => _ | Err _ => _ end] =>
              destruct r eqn:?; [|left; reflexivity]
          end).

Lemma run_coord_cases env op j :
  ops_ok (operations j) ->
  run_coord env op j = (j, []) \/ appends env j (run_coord env op j).
Proof.
  intros [Hkey _]. destruct op as [it|id|id role r|id role r|id price|id dex recovery e]; unfold run_coord.
  - unfold admit_trade. guards. rewrite mget_bind. guards. unfold record_intent.
    case_bool_decide as Hn; [by left|]. right. apply (appends_quiet env j (plan_id it)); [|done].
    apply eq_None_not_Some in Hn. rewrite Hn. constructor.
  - unfold take_commands. rewrite operation_bind. destruct (operations j !! id) as [o|] eqn:Ho; [|by left].
    guards. destruct a as [cs [o'|]]; cycle 1.
    { left. simpl. match goal with E : decide_commands _ _ = _ |- _ => by rewrite (decide_none _ _ _ E) end. }
    right. assert (Ht : transition (Some o) cs o') by by eapply tr_decide.
    exists id, cs, o'. rewrite Ho. split; [done|].
    split; [rewrite (transition_intent _ _ _ Ht o eq_refl); by apply Hkey|].
    unfold mbind'. by destruct (append _ _ _) as [j' []].
  - unfold record_result. guards. rewrite operation_bind.
    destruct (operations j !! id) as [o|] eqn:Ho; [|by left]. guards. res_inv. bool_prop. right.
    match goal with E : place_result _ _ _ _ = Ok ?o' |- _ => 
      assert (Ht : transition (Some o) [] o') by by eapply tr_record end.
    apply (appends_quiet env j id); [by rewrite Ho|].
    rewrite (transition_intent _ _ _ Ht o eq_refl). by apply Hkey.
  - unfold reconcile_unknown. guards. rewrite operation_bind.
    destruct (operations j !! id) as [o|] eqn:Ho; [|by left]. guards. res_inv. bool_prop. right.
    match goal with E : replace_result _ _ _ _ = Ok _ |- _ => pose proof (tr_reconcile _ _ _ _ _ ltac:(done) E) as Ht end.
    apply (appends_quiet env j id); [by rewrite Ho|].
    rewrite (transition_intent _ _ _ Ht o eq_refl). by apply Hkey.
  - unfold select_primary_cex_limit_price. guards. rewrite operation_bind.
    destruct (operations j !! id) as [o|] eqn:Ho; [|by left]. guards. res_inv. bool_prop.
    destruct (cex_execution_limit_price o); [left; by destruct (ensure _ _)|]. right.
    apply (appends_quiet env j id); [|exact (Hkey _ _ Ho)]. rewrite Ho. apply tr_select; [done..|].
    by destruct (dex_result o).
  - unfold record_operator_recovery. guards. rewrite operation_bind.
    destruct (operations j !! id) as [o|] eqn:Ho; [|by left]. guards. res_inv. bool_prop. right.
    match goal with E : finalize_balanced _ = Ok ?o', F : repairable _ = Ok ?u |- _ =>
      destruct u; pose proof (tr_operator o dex recovery e o' F ltac:(done) E) as Ht end.
    apply (appends_quiet env j id); [by rewrite Ho|].
    rewrite (transition_intent _ _ _ Ht o eq_refl). by apply Hkey.
Qed.

(** Induction over runs: a property of the stored operations and the commands
    issued so far that survives erasure and every transition, whether or not the
    commands of the transition were returned, holds in memory and on disk. *)
Section induction.
Context (P : Operations -> list Issued -> Prop).
Hypothesis P_start : P ∅ [].
Hypothesis P_erase : forall ops tr, P ops tr -> P (erase <$> ops) tr.
Hypothesis P_step : forall ops tr id cs o' ops',
  ops_ok ops -> P ops tr -> transition (ops !! id) cs o' -> plan_id (intent o') = id ->
  apply_snapshot ops o' = Ok ops' -> P ops' tr /\ P ops' (tr ++ (pair id <$> cs)).

Definition on_disk (j : TradeJournal) (tr : list Issued) : Prop :=
  forall j', open_bytes (file j) = Ok j' -> P (operations j') tr.

Lemma run_invariant j tr : coord_run j tr -> trade_ok j /\ P (operations j) tr /\ on_disk j tr.
Proof.
  induction 1 as [j Ho|env op j tr _ (Hok & HP & HD) Hseq|j j' tr _ (Hok & HP & HD) Ho].
  - vm_compute in Ho. injection Ho as <-. split; [by apply (open_bytes_ok [])|]. split; [done|].
    intros j' Hj. vm_compute in Hj. by injection Hj as <-.
  - destruct (run_coord_cases env op j (tj_ops _ Hok)) as [->|(id & cs & o' & Ht & Hk & ->)]; simpl.
    { by rewrite app_nil_r. }
    split; [by apply append_ok|].
    destruct (trade_append_cases (append_env env) o' j Hok Hseq)
      as [[e ->]|[(pa & k & Hp & Hw & E)|(pa & Hp & _ & ->)]]; simpl.
    + by rewrite app_nil_r.
    + destruct (prepared_facts _ _ _ _ Hok Hseq Hp) as (Hpois & Hs & _).
      destruct (P_step _ _ _ _ _ _ (tj_ops _ Hok) HP Ht Hk Hs) as [HP' _].
      rewrite E. simpl. rewrite app_nil_r. split; [done|]. intros j'' Hj.
      pose proof (reopen_after_fault _ _ _ _ _ Hok Hseq Hp Hw) as Hr. rewrite E in Hr. simpl in Hr.
      simpl in Hj. rewrite Hj in Hr. repeat case_decide; simplify_eq; simpl; by apply P_erase.
    + destruct (prepared_facts _ _ _ _ Hok Hseq Hp) as (Hpois & Hs & _ & _ & Hnext).
      destruct (P_step _ _ _ _ _ _ (tj_ops _ Hok) HP Ht Hk Hs) as [_ HP']. split; [done|].
      intros j'' Hj. rewrite (reopen_ok _ (Hnext _) Hpois) in Hj. simplify_eq. by apply P_erase.
  - split; [by eapply open_bytes_ok|]. split; [by apply HD|]. intros j'' Hj.
    assert (Hf : file j' = file j) by (unfold open_bytes in Ho; res_inv; destruct x; by res_inv).
    apply HD. by rewrite <- Hf.
Qed.
End induction.

(** The commands a run has issued for one plan. *)
Definition issued (tr : list Issued) (id : string) : list CoordinatorCommand :=
  (filter (fun c => c.1 = id) tr).*2.

Definition all_owned (ops : Operations) (tr : list Issued) : Prop :=
  forall id, match ops !! id with
             | Some o => owned o (issued tr id)
             | None => issued tr id = []
             end.

Lemma issued_app tr id cs id' :
  issued (tr ++ (pair id <$> cs)) id' = issued tr id' ++ (if decide (id' = id) then cs else []).
Proof.
  unfold issued. rewrite filter_app, fmap_app. f_equal. case_decide as E.
  - subst. induction cs as [|c cs IH]; [done|]. rewrite fmap_cons, filter_cons_True by done. rewrite fmap_cons. f_equal. exact IH.
  - induction cs as [|c cs IH]; [done|]. rewrite fmap_cons, filter_cons_False by (simpl; congruence). done.
Qed.

Lemma all_owned_run j tr :
  coord_run j tr ->
  trade_ok j /\ all_owned (operations j) tr /\ on_disk all_owned j tr.
Proof.
  apply run_invariant.
  - intros id. by rewrite lookup_empty.
  - intros ops tr' Hall id. specialize (Hall id). rewrite lookup_fmap.
    destruct (ops !! id) as [o|]; [|done]. simpl.
    eapply frame_owned; [apply frame_erase|apply wf_erase, Hall|done].
  - intros ops tr' id cs o' ops' Hops Hall Ht Hk Hs.
    assert (Hafter : all_owned ops' (tr' ++ (pair id <$> cs))).
    { apply apply_snapshot_inv in Hs as (-> & _ & _). rewrite Hk. intros id'. rewrite issued_app.
      specialize (Hall id'). destruct (decide (id' = id)) as [->|Hne];
        [rewrite lookup_insert_eq|rewrite lookup_insert_ne, app_nil_r by done; done].
      destruct (ops !! id) as [o|]; [by eapply transition_owned|].
      rewrite Hall. inversion Ht; subst. apply owned_prepared. }
    split; [|done]. intros id'. specialize (Hafter id'). rewrite issued_app in Hafter.
    destruct (ops' !! id'); [by eapply owned_prefix|]. by apply app_eq_nil in Hafter as [? _].
Qed.

(** Every issued command is of one of the three kinds. *)
Lemma issued_length cs o :
  (forall c, c ∈ cs -> accounted o c) ->
  length cs = (count_list fresh_dex cs + count_list is_cex cs + length (omap recovery_attempt cs))%nat.
Proof.
  induction cs as [|c cs IH]; intros Hacc; [done|].
  pose proof (Hacc c ltac:(left)) as Hc. rewrite !count_list_cons.
  cbn [length]. rewrite IH by (intros; apply Hacc; by right).
  destruct c as [id d p b| |]; cbn in *; try lia. unfold dex_command in Hc. simplify_eq. simpl. lia.
Qed.

Lemma attempts_bounded o cs : owned o cs -> (length (omap recovery_attempt cs) <= MAX_RECOVERY_ATTEMPTS)%nat.
Proof.
  intros Ho. rewrite <- (length_seq MAX_RECOVERY_ATTEMPTS 1). apply submseteq_length, NoDup_submseteq;
    [apply Ho|]. intros a Ha. apply list_elem_of_omap in Ha as (c & Hin & Hc). apply elem_of_seq.
  pose proof (ow_accounted _ _ Ho c Hin) as Hacc. destruct c; simpl in *; simplify_eq. lia.
Qed.

Lemma issued_bounded j tr id : coord_run j tr -> (length (issued tr id) <= 5)%nat.
Proof.
  intros Hr. destruct (all_owned_run j tr Hr) as (_ & Hall & _). specialize (Hall id).
  destruct (operations j !! id) as [o|]; [|rewrite Hall; simpl; lia].
  pose proof (ow_dex _ _ Hall). pose proof (ow_cex _ _ Hall). pose proof (attempts_bounded _ _ Hall).
  rewrite (issued_length _ o (ow_accounted _ _ Hall)). unfold MAX_RECOVERY_ATTEMPTS in *.
  destruct (dex_dispatched o), (cex_dispatched o); simpl in *; lia.
Qed.

(** A call advances the sequence by at most one. *)
Lemma run_coord_sequence env op j :
  trade_ok j -> next_sequence j + 1 < 2 ^ 64 ->
  next_sequence (run_coord env op j).1 <= next_sequence j + 1.
Proof.
  intros Hok Hseq. destruct (run_coord_cases env op j (tj_ops _ Hok)) as [->|(id & cs & o' & _ & _ & ->)];
    simpl; [lia|].
  destruct (trade_append_cases (append_env env) o' j Hok Hseq) as [[e ->]|[(pa & k & _ & _ & ->)|(pa & _ & _ & ->)]];
    simpl; lia.
Qed.

(** C1. along every run of the coordinator, through write faults and restarts at
    any point, a trade's DEX swap is authorized at most once, its primary
    exchange order at most once, each recovery attempt at most once, all
    recovery attempts carry one quantity and are numbered one to three, and so
    at most five commands are ever issued for a trade. *)
Theorem no_double_dispatch j tr id :
  coord_run j tr ->
  (count_list fresh_dex (issued tr id) <= 1)%nat /\
  (count_list is_cex (issued tr id) <= 1)%nat /\
  NoDup (omap recovery_attempt (issued tr id)) /\
  (forall a t, RecoverCex a t ∈ issued tr id -> (1 <= a <= MAX_RECOVERY_ATTEMPTS)%nat) /\
  (forall a t a' t', RecoverCex a t ∈ issued tr id -> RecoverCex a' t' ∈ issued tr id -> t = t') /\
  (length (issued tr id) <= 5)%nat.
Proof.
  intros Hr. destruct (all_owned_run j tr Hr) as (_ & Hall & _). specialize (Hall id).
  destruct (operations j !! id) as [o|]; cycle 1.
  { rewrite Hall. split_and!; try (cbn; lia); try set_solver. constructor. }
  pose proof (ow_dex _ _ Hall). pose proof (ow_cex _ _ Hall).
  assert (Hb : forall b, (bit b <= 1)%nat) by (intros []; simpl; lia).
  pose proof (Hb (dex_dispatched o)). pose proof (Hb (cex_dispatched o)). split_and!.
  - lia.
  - lia.
  - apply Hall.
  - intros a t Hin. apply (ow_accounted _ _ Hall) in Hin. simpl in Hin. lia.
  - intros a t a' t' Hx Hy. apply (ow_accounted _ _ Hall) in Hx, Hy. simpl in *. naive_solver.
  - by eapply issued_bounded.
Qed.

(** The command whose answer the trade waits for first. *)
Definition awaited (o : TradeOperation) (c : CoordinatorCommand) : bool :=
  match c with
  | DispatchDex _ _ _ _ => bool_decide (dex_result o = None)
  | DispatchCex _ _ _ => negb (bool_decide (dex_result o = None)) && bool_decide (cex_result o = None)
  | RecoverCex a _ => recovery_inflight o && (a =? slots o)%nat
  end.

(** The same command, reconciling only once the swap's deadline has passed. *)
Definition reissued (now : Z) (c : CoordinatorCommand) : CoordinatorCommand :=
  match c with
  | DispatchDex op delta plan _ =>
      DispatchDex op delta plan (is_some_and plan (fun p => deadline_unix_seconds p <=? now / 1000))
  | _ => c
  end.

Lemma owned_resumes o cs c now :
  owned o cs -> c ∈ cs -> awaited o c = true ->
  resume_operation (Ok now) o = Ok (Some (reissued now c)).
Proof.
  intros Ho Hin Ha. pose proof (ow_accounted _ _ Ho c Hin) as Hacc. pose proof (ow_wf _ _ Ho) as Hw.
  unfold resume_operation. destruct c as [op d p b|op t p|a t]; simpl in Ha; bool_prop.
  - assert (Hd : dex_dispatched o = true).
    { pose proof (ow_dex _ _ Ho). destruct (dex_dispatched o); [done|]. simpl in Hacc.
      pose proof (count_list_elem fresh_dex _ _ Hin ltac:(by rewrite Hacc)). simpl in *. lia. }
    rewrite Hd, Ha. simpl. simpl in Hacc. unfold dex_command in *. by simplify_eq.
  - assert (Hd : cex_dispatched o = true).
    { pose proof (ow_cex _ _ Ho). destruct (cex_dispatched o); [done|].
      pose proof (count_list_elem is_cex _ _ Hin eq_refl). simpl in *. lia. }
    destruct Hacc as (-> & Ht & ->).
    rewrite (bool_decide_eq_false_2 (dex_result o = None)), andb_false_r by done.
    rewrite Hd, bool_decide_eq_true_2, Ht by done. done.
  - match goal with E : recovery_inflight o = true |- _ => rename E into Hi end.
    destruct (lw_inflight _ Hw Hi) as (_ & Hd & Hc). destruct Hacc as (_ & _ & ->).
    rewrite (bool_decide_eq_false_2 (dex_result o = None)), (bool_decide_eq_false_2 (cex_result o = None)),
      !andb_false_r, Hi by done.
    simpl. do 3 f_equal. match goal with E : (_ =? _)%nat = true |- _ => apply Nat.eqb_eq in E as -> end.
    unfold slots. by rewrite Hi.
Qed.

(** C8. a command is on disk before it is returned: whatever process next opens
    the journal file of a run finds, for every command the run has issued, the
    trade it belongs to, and if that command is the one whose answer is awaited,
    [resume_command] reconstructs it with the same identifiers, quantity and
    price, turned into a reconciliation exactly when the swap's deadline passed. *)
Theorem resume_replays_dispatch j tr id c j' now :
  coord_run j tr -> c ∈ issued tr id -> open_bytes (file j) = Ok j' ->
  exists o, operations j' !! id = Some o /\
    (awaited o c = true -> resume_command (Ok now) j' id = Ok (Some (reissued now c))).
Proof.
  intros Hr Hin Hj. destruct (all_owned_run j tr Hr) as (_ & _ & Hd). specialize (Hd j' Hj id).
  destruct (operations j' !! id) as [o|] eqn:Ho; [|rewrite Hd in Hin; by apply elem_of_nil in Hin].
  exists o. split; [done|]. intros Ha. unfold resume_command, operation. rewrite Ho. simpl.
  by eapply owned_resumes.
Qed.

(** ** Settlement *)
Lemma finalize_set_final o s r : finalize_balanced (set_final o s r) = finalize_balanced o.
Proof. reflexivity. Qed.

Lemma finalize_idem o o' : finalize_balanced o = Ok o' -> finalize_balanced o' = Ok o'.
Proof.
  intros Hf. destruct (finalize_shape _ _ Hf) as (s & r & -> & _). by rewrite finalize_set_final.
Qed.

Lemma has_unknown_erase o : has_unknown_leg (erase o) = has_unknown_leg o.
Proof.
  unfold has_unknown_leg. rewrite legs_erase. induction (legs o) as [|x l IH]; [done|]. rewrite fmap_cons. cbn [existsb]. by rewrite IH.
Qed.

Lemma gas_sum_erase l : gas_sum (erase_leg <$> l) = gas_sum l.
Proof. unfold gas_sum. generalize 0. induction l as [|x l IH]; intros z; [done|]. simpl. by rewrite IH. Qed.

Lemma residual_value_erase o : residual_value_of (erase o) = residual_value_of o.
Proof. unfold residual_value_of. by rewrite residual_erase. Qed.

Lemma finalize_erase o : finalize_balanced (erase o) = rmap erase (finalize_balanced o).
Proof.
  unfold finalize_balanced. rewrite has_unknown_erase, residual_value_erase, residual_erase.
  unfold realized_profit_of, recovery_token_a_delta. rewrite legs_erase. cbn [dex_dispatched erase
    dex_result cex_dispatched cex_result recovery_inflight recovery_results intent].
  rewrite !opt_none_erase, !sat_sum_erase, gas_sum_erase by done.
  repeat (destruct (ensure _ _); [simpl|done]).
  destruct (dex_result o) as [d|]; cbn [fmap option_fmap option_map];
    [destruct (decide (leg_status d = Failed)) as [E|E];
     [rewrite (decide_True (P := leg_status (erase_leg d) = Failed)) by done|rewrite (decide_False (P := leg_status (erase_leg d) = Failed)) by done]|].
  all: try change (dex_failure_proves_zero_exposure (erase_leg d)) with (dex_failure_proves_zero_exposure d).
  all: try (destruct (ensure _ _); [simpl|done]).
  all: destruct (residual_value_of o); [simpl|done]; destruct (or_err _ _); done.
Qed.

Definition settled (o : TradeOperation) : Prop := terminal (stage o) = true -> finalize_balanced o = Ok o.

Lemma transition_settled p cs o' ops :
  transition p cs o' -> (forall o, p = Some o -> settled o /\ check_successor o o' = Ok ops) -> settled o'.
Proof.
  intros Ht Hp. destruct Ht as [it|clock o cs o' Hd|clock o role r o' Hnt Hr|clock o role r o' Hst Hr
    |o price Hm Hc Hd|o dex recovery e o' Hr Hf Hfin]; [done|..]; destruct (Hp o eq_refl) as [Hs Hck];
    intros Hterm.
  - apply decide_decided in Hd as [Hnt Hd]. destruct Hd; simpl in *; try congruence.
    + by destruct s.
    + by eapply finalize_idem.
  - exfalso. destruct role; simpl in Hr; res_inv; simpl in *; try congruence.
    apply refresh_shape in Hr as (d & -> & _). simpl in *. congruence.
  - simpl in Hterm. by destruct (bool_decide _).
  - exfalso. unfold check_successor in Hck. res_inv.
    assert (Hno : operator_terminal_correction_allowed o (set_price o (Some price)) = false).
    { unfold operator_terminal_correction_allowed. simpl. destruct (operator_recovery o); simpl;
        [by rewrite andb_false_r|]. by rewrite !andb_false_r. }
    simpl in Hterm. rewrite Hno, Hterm in *. done.
  - by eapply finalize_idem.
Qed.

Lemma all_settled_run j tr :
  coord_run j tr -> forall id o, operations j !! id = Some o -> settled o.
Proof.
  intros Hr. pose (P := fun (ops : Operations) (_ : list Issued) =>
                          forall id o, ops !! id = Some o -> settled o).
  destruct (run_invariant P) with (j := j) (tr := tr) as (_ & HP & _); [..|done|exact HP].
  - intros id o. by rewrite lookup_empty.
  - intros ops tr' Hall id o. rewrite lookup_fmap. destruct (ops !! id) as [p|] eqn:E; [|done].
    intros [= <-] Hterm. rewrite finalize_erase, (Hall id p E Hterm). done.
  - intros ops tr' id cs o' ops' Hops Hall Ht Hk Hs. apply apply_snapshot_inv in Hs as (-> & _ & Hck).
    rewrite Hk in *. assert (Hnew : settled o').
    { eapply (transition_settled _ _ _ tt Ht). intros o Ho. rewrite Ho in Hck. split; [by apply (Hall id)|done]. }
    split; intros id' o; rewrite lookup_insert_Some; intros [[_ <-]|[_ Hl]]; first [done|by apply (Hall id')].
Qed.

(** C7. a settled trade is fully accounted for: along every run, a trade in a
    balanced stage has no unknown leg, an answer for every leg that was
    dispatched, no recovery in flight, a failed swap only with proof that
    nothing left the wallet, and a recorded result that equals the recomputation
    from its legs, whose sign decides the stage. *)
Theorem settled_trades_accounted j tr id o :
  coord_run j tr -> operations j !! id = Some o -> terminal (stage o) = true ->
  has_unknown_leg o = false /\
  (dex_dispatched o = true -> dex_result o <> None) /\
  (cex_dispatched o = true -> cex_result o <> None) /\
  recovery_inflight o = false /\
  (forall d, dex_result o = Some d -> leg_status d = Failed -> dex_failure_proves_zero_exposure d = true) /\
  exists r, final_result o = Some r /\
    (realized_profit r, gas_cost_total r) = realized_profit_of o /\
    residual_token_b r = token_b_residual o /\
    residual_value_of o = Ok (residual_value r) /\
    comparable_profit r = realized_profit r + residual_value r /\
    (stage o = BalancedProfit <-> 0 <= comparable_profit r).
Proof.
  intros Hr Ho Ht. pose proof (all_settled_run j tr Hr id o Ho Ht) as Hf.
  unfold finalize_balanced in Hf. res_inv. bool_prop. destruct (realized_profit_of o) as [realized gas].
  res_inv. split; [done|]. split; [intros Hd; destruct Hok0; bool_prop; congruence|].
  split; [intros Hd; destruct Hok1; bool_prop; congruence|]. split; [done|]. split.
  { intros d Hd Hs. rewrite Hd in *. rewrite decide_True in * by done. by res_inv. }
  match goal with E : i128_checked_add _ _ = Some _ |- _ => apply i128_checked_Some in E as [-> _] end.
  pose proof (f_equal final_result Hf) as Hres. pose proof (f_equal stage Hf) as Hstage. clear Hf.
  simpl in Hres, Hstage. eexists. split; [symmetry; exact Hres|]. simpl. split_and!; try done.
  rewrite <- Hstage. destruct (Z.leb_spec 0 (realized + x4)); split; first [done|lia].
Qed.
End runs.
