(* ===== verification/Hedging.v ===== *)
(** * Hedging and progress of a trade

    What [take_commands] decides once both primary legs are known, and that an
    answered trade never stalls. *)
From Stdlib Require Import Lia.
From stdpp Require Import base gmap strings numbers list fin_maps.
From S2P Require Import Prelude Decimals LineLog ExecutionPlan TradeData TradeJournal Coordinator CoordinatorRuns.

(** ** Recovery quantity *)

(** What the exchange leg executed, and what it leaves of the swap. *)
Definition executed_of (cex : LegResult) : Z := default (token_b_delta cex) (executed_token_b cex).
Definition gap (dex cex : LegResult) : Z := - token_b_delta dex - executed_of cex.

(** What a fill changed of token B beyond what it executed: the commission the
    exchange took in token B. *)
Definition commission_of (r : LegResult) : Z := token_b_delta r - executed_of r.

(** Far from the ends of [i128]. *)
Definition moderate (x : Z) : Prop := - 2 ^ 126 < x < 2 ^ 126.

Lemma recovery_target_gap o dex cex :
  dex_result o = Some dex -> cex_result o = Some cex ->
  moderate (token_b_delta dex) -> moderate (executed_of cex) ->
  primary_recovery_target o =
    Some (if below_step (token_b_step (intent o)) (gap dex cex) then 0 else gap dex cex).
Proof.
  intros Hd Hc Md Mc. unfold primary_recovery_target. rewrite Hd, Hc. simpl.
  unfold i128_saturating_neg, i128_saturating_sub, moderate, executed_of in *.
  rewrite (sat_i128_id (- _)) by (unfold i128, I128_MIN, I128_MAX; lia).
  rewrite sat_i128_id by (unfold i128, I128_MIN, I128_MAX; lia). done.
Qed.

(** C9. once both primary legs of a trade are known and no recovery was tried,
    the next decision is exact: it settles when the swap and the exchange order
    already cancel up to a quantity below the lot step, halts when a dex-first
    trade would have to trade in the wrong direction, and otherwise issues one
    recovery order for precisely the missing quantity; a recovery that executes
    that quantity leaves exactly the token-B commissions of the two exchange fills
    as exposure, and none when neither took any - for quantities far from the
    ends of [i128]. *)
Theorem recovery_hedges_exactly clock o dex cex :
  terminal (stage o) = false -> has_unknown_leg o = false ->
  dex_dispatched o = true -> cex_dispatched o = true ->
  dex_result o = Some dex -> cex_result o = Some cex ->
  recovery_results o = [] -> recovery_inflight o = false ->
  moderate (token_b_delta dex) -> moderate (executed_of cex) ->
  decide_commands clock o =
    (if (gap dex cex =? 0) || below_step (token_b_step (intent o)) (gap dex cex)
     then rmap (fun o' => ([], Some o')) (finalize_balanced o)
     else if bool_decide (mode (intent o) = DexFirst)
             && negb (dex_first_recovery_direction_is_valid (direction (intent o)) (gap dex cex))
     then Ok ([], Some (set_stage o Halted (Some "dex_first_recovery_direction_flipped"%string)))
     else Ok ([RecoverCex 1 (gap dex cex)], Some (set_inflight o Recovering (Some (gap dex cex))))) /\
  (forall r, executed_of r = gap dex cex ->
     moderate (token_b_delta cex) -> moderate (token_b_delta cex + token_b_delta r) ->
     token_b_residual (set_results o (dex_result o) (cex_result o) [r] false) = commission_of cex + commission_of r).
Proof.
  intros Ht Hu Hdd Hcd Hd Hc Hr Hi Md Mc. split.
  - unfold decide_commands. rewrite Ht, Hu, Hdd, Hcd. simpl.
    transitivity (decide_after_primary clock o); [by destruct (mode (intent o))|].
    unfold decide_after_primary, primary_finished. rewrite Hd, Hc, Hi. simpl.
    unfold decide_recovery. rewrite Hr, bool_decide_eq_true_2, (recovery_target_gap o dex cex Hd Hc Md Mc) by done. simpl.
    destruct (below_step _ _); [rewrite orb_true_r; simpl; by destruct (finalize_balanced o)|].
    rewrite orb_false_r. destruct (_ =? 0); [by destruct (finalize_balanced o)|done].
  - intros r Hg Mx Mr. unfold token_b_residual, legs, sat_sum. simpl. rewrite Hd, Hc. simpl.
    unfold commission_of, gap, moderate, i128_saturating_add in *.
    assert (Hin : forall x, - 2 ^ 127 < x < 2 ^ 127 -> sat_i128 x = x)
      by (intros; apply sat_i128_id; unfold i128, I128_MIN, I128_MAX; lia).
    rewrite (Hin (0 + token_b_delta dex)), (Hin (0 + token_b_delta dex + token_b_delta cex)), Hin by lia. lia.
Qed.

(** ** Progress *)

(** A decision moves the trade, or says why it cannot be settled. *)
Definition progresses (o : TradeOperation) (d : TRes Decision_) : Prop :=
  match d with
  | Ok (cs, Some o') => cs <> [] \/ terminal (stage o') = true \/ stage o' = Halted
  | Ok (_, None) => False
  | Err e => exists retry, finalize_balanced (set_retry o retry) = Err e
  end.

(** A decision that only waits: a failed recovery may not be tried again yet. *)
Definition waits (o : TradeOperation) (now : Z) (d : TRes Decision_) : Prop :=
  d = Ok ([], None) /\ exists t, recovery_retry_not_before o = Some t /\ now < t.

Lemma settling_progresses o retry :
  progresses o (let? o' := finalize_balanced (set_retry o retry) in Ok ([], Some o')).
Proof.
  destruct (finalize_balanced (set_retry o retry)) as [o'|e] eqn:E; simpl; [|by exists retry].
  apply finalize_shape in E as (s & r & -> & Hs & _). auto.
Qed.

Lemma settling_now_progresses o : progresses o (let? o' := finalize_balanced o in Ok ([], Some o')).
Proof. rewrite <- (set_retry_id o) at 2. apply settling_progresses. Qed.

Lemma recovery_progresses o now :
  legs_wf o -> terminal (stage o) = false -> recovery_inflight o = false -> primary_finished o = true ->
  waits o now (decide_after_primary (Ok now) o) \/ progresses o (decide_after_primary (Ok now) o).
Proof.
  intros Hw Ht Hi Hp. unfold decide_after_primary, decide_recovery. rewrite Hp, Hi. simpl.
  case_bool_decide as Hn.
  - destruct (_ =? 0); [right; apply settling_now_progresses|]. right. destruct (_ && _); [by right; right|by left].
  - destruct (is_some_and _ _ && _) eqn:Hdue; [|right; apply settling_progresses].
    destruct (lw_retry _ Hw Ht Hi Hdue) as [t Hret]. destruct (lw_attempted _ Hw Hn) as [target Htgt].
    rewrite Hret, Htgt. simpl. destruct (Z.ltb_spec now t); [left; split; [done|by exists t]|right; by left].
Qed.

Section progress.
Context `{EvmText} `{TradeCodecLaws}.

(** C18. an answered trade never stalls: along every run, when every dispatched leg
    of an open trade has a known answer and no recovery is in flight, the next decision
    issues a command, settles the trade or halts it, or - before the deadline the
    journal holds for the next recovery - waits for that deadline; it fails only with
    the error that settlement itself reports. *)
Theorem answered_trade_progresses j tr id o now :
  coord_run j tr -> operations j !! id = Some o ->
  terminal (stage o) = false -> has_unknown_leg o = false ->
  (dex_dispatched o = true -> dex_result o <> None) ->
  (cex_dispatched o = true -> cex_result o <> None) ->
  recovery_inflight o = false ->
  waits o now (decide_commands (Ok now) o) \/ progresses o (decide_commands (Ok now) o).
Proof.
  intros Hr Ho Ht Hu Hd Hc Hi. destruct (all_owned_run j tr Hr) as (_ & Hall & _).
  specialize (Hall id). rewrite Ho in Hall. pose proof (ow_wf _ _ Hall) as Hw.
  unfold decide_commands. rewrite Ht, Hu. simpl.
  destruct (dex_dispatched o) eqn:Edd; simpl; [|right; destruct (mode (intent o)); by left].
  specialize (Hd eq_refl).
  assert (Hfin : primary_finished o = true).
  { unfold primary_finished. rewrite (bool_decide_eq_false_2 _ Hd). simpl.
    destruct (cex_dispatched o); [|apply orb_true_r]. by rewrite (bool_decide_eq_false_2 _ (Hc eq_refl)). }
  pose proof (recovery_progresses o now Hw Ht Hi Hfin) as Hgo.
  destruct (mode (intent o)); [|done]. destruct (cex_dispatched o); [done|].
  destruct (dex_result o); [|done]. destruct (_ && _); [right; by left|].
  case_bool_decide; [right; apply settling_now_progresses|done].
Qed.
End progress.
