(* ===== verification/TradeDemo.v ===== *)
(** * A concrete trade

    A codec over a finite catalogue of payloads, which satisfies the laws of
    [TradeCodecLaws], and one dex-first trade from admission to settlement with a
    partial exchange fill and one recovery: the theorems on the trade journal and
    the coordinator applied to it. *)
From Stdlib Require Import Lia.
From stdpp Require Import base gmap strings numbers list fin_maps relations pretty.
From S2P Require Import Prelude Decimals LineLog ExecutionPlan TradeData TradeJournal Coordinator CoordinatorRuns Hedging.

(** ** A catalogue codec: a payload is written as its position *)
#[global] Instance TradePayload_eq_dec : EqDecision TradePayload.
Proof. solve_decision. Defined.

Fixpoint position (p : TradePayload) (l : list TradePayload) : option nat :=
  match l with
  | [] => None
  | q :: l' => if decide (q = p) then Some O else S <$> position p l'
  end.

Lemma position_lookup p l n : position p l = Some n -> l !! n = Some p.
Proof.
  revert n. induction l as [|q l IH]; intros n Hp; [done|]. simpl in Hp. case_decide; [naive_solver|].
  destruct (position p l) as [m|] eqn:E; [|done]. simplify_eq/=. by apply IH.
Qed.

Lemma position_eq p q l n : position p l = Some n -> l !! n = Some q -> q = p.
Proof. intros Hp Hq. apply position_lookup in Hp. congruence. Qed.

Section catalogue.
Context (catalogue : list TradePayload).

Definition written (p : TradePayload) : option (list Z) :=
  n ← position (erase_payload p) catalogue; Some [11 + Z.of_nat n].
Definition digest (bs : list Z) : string := pretty (length bs).

#[local] Instance catalogue_codec : TradeCodec := {
  payload_to_vec := written;
  record_to_vec := fun r =>
    bs ← written (payload r);
    if decide (checksum_sha256 r = digest bs) then Some bs else None;
  record_from_slice := fun bs =>
    match bs with
    | [b] =>
        if b <? 11 then None else
        p ← catalogue !! Z.to_nat (b - 11);
        if decide (erase_payload p = p) then Some (mkTradeRecord p (digest bs)) else None
    | _ => None
    end;
  sha256_hex := digest;
}.

Lemma erase_payload_idem p : erase_payload (erase_payload p) = erase_payload p.
Proof. unfold erase_payload. simpl. by rewrite erase_idem. Qed.

#[local] Instance catalogue_laws : TradeCodecLaws.
Proof.
  constructor.
  - intros [p c] bs. simpl. unfold written. intros Hr.
    destruct (position _ _) as [n|] eqn:En; [|done]. simpl in Hr. case_decide; simplify_eq. simpl.
    rewrite (proj2 (Z.ltb_ge _ _)) by lia. replace (Z.to_nat (11 + Z.of_nat n - 11)) with n by lia.
    rewrite (position_lookup _ _ _ En). simpl. by rewrite decide_True by apply erase_payload_idem.
  - intros [p c] bs. simpl. unfold written. intros Hr.
    destruct (position _ _) as [n|] eqn:En; [|done]. simpl in Hr. case_decide; simplify_eq.
    rewrite list_elem_of_singleton. lia.
  - intros bs r Hr. simpl in Hr. destruct bs as [|b [|]]; try done. destruct (b <? 11); [done|].
    destruct (catalogue !! _) as [p|]; [|done]. simpl in Hr. case_decide; by simplify_eq.
  - intros p. simpl. unfold written. by rewrite erase_payload_idem.
Qed.
End catalogue.

(** ** The trade *)
#[global] Instance demo_text : EvmText := {
  address_from_str := fun s => Some (Z.of_nat (String.length s));
  b256_from_str := fun s => Some (Z.of_nat (String.length s));
  keccak256 := fun bs => Z.of_nat (length bs);
}.

Definition demo_plan : DexSwapPlan :=
  mkDexPlan (UniswapV3 "router" "pool" 3000) "a" "bb" 50 90 2.
Definition demo_admission : AdmissionRiskBounds :=
  mkAdmission true 5 (Some "top_of_book_only"%string) None None (Some true) None 10 (mkDecimal 60 2)
    (mkDecimal 100 0) (mkDecimal 59 2) None None 55 54 56 10 7 (mkDecimal 2 0) 3 1.
Definition demo_trade : TradeIntent :=
  mkTradeIntent "t1" "rev" "pair" (Some (mkTradeScope 2 "acc" "net" 1 "w" "s1" "SYM")) 5 6 DexFirst
    BuyTokenBOnDexSellOnCex 100 10 50 60 "t1/dex" "rustarb1" (Some demo_admission) (Some demo_plan).

Definition filled (token_b token_a : Z) (reference : string) : LegResult :=
  mkLeg Filled (Some token_b) token_b token_a ∅ ∅ 1 reference None None.
Definition dex_fill : LegResult := filled 100 (-50) "dex:1".
Definition cex_fill : LegResult := filled (-60) 35 "cex:1".
Definition recovery_fill : LegResult := filled (-40) 24 "cex:2".
(** The same, with a commission of one unit of token B. *)
Definition filled_gap : LegResult := mkLeg Filled (Some (-40)) (-41) 24 ∅ ∅ 1 "cex:2" None None.

Definition demo_ops : list coord_op :=
  [OpAdmit demo_trade; OpTake "t1"; OpRecord "t1" Dex dex_fill; OpSelect "t1" (mkDecimal 61 2);
   OpTake "t1"; OpRecord "t1" Cex cex_fill; OpTake "t1"; OpRecord "t1" RecoveryCex recovery_fill;
   OpTake "t1"].

(** The snapshots these calls write, by the pure parts of the calls. *)
Definition decide_ok (o : TradeOperation) : TradeOperation :=
  match decide_commands (Ok 1000) o with Ok (_, Some o') => o' | _ => o end.
Definition place_ok (role : LegRole) (r : LegResult) (o : TradeOperation) : TradeOperation :=
  match place_result (Ok 1000) o role r with Ok o' => o' | _ => o end.

Definition o0 : TradeOperation := prepared demo_trade.
Definition o1 := decide_ok o0.
Definition o2 := place_ok Dex dex_fill o1.
Definition o3 := set_price o2 (Some (mkDecimal 61 2)).
Definition o4 := decide_ok o3.
Definition o5 := place_ok Cex cex_fill o4.
Definition o6 := decide_ok o5.
Definition o7 := place_ok RecoveryCex recovery_fill o6.
Definition o8 := decide_ok o7.

Definition demo_catalogue : list TradePayload :=
  imap (fun n o => mkTradePayload 1 (Z.of_nat n) 1000 o) [o0; o1; o2; o3; o4; o5; o6; o7; o8].

#[global] Instance demo_codec : TradeCodec := catalogue_codec demo_catalogue.
#[global] Instance demo_laws : TradeCodecLaws := catalogue_laws demo_catalogue.

Definition demo_env : CoordEnv := mkCoordEnv (Ok 1000) (mkTradeEnv (Ok 1000) None).
Definition empty_journal : TradeJournal := mkTradeJournal [] ∅ 0 ∅ 0 false.

Fixpoint run_calls (ops : list coord_op) (j : TradeJournal) (tr : list Issued)
  : TradeJournal * list Issued :=
  match ops with
  | [] => (j, tr)
  | op :: ops' =>
      run_calls ops' (run_coord demo_env op j).1 (tr ++ (run_coord demo_env op j).2)
  end.

Fixpoint calls_fit (ops : list coord_op) (j : TradeJournal) : bool :=
  match ops with
  | [] => true
  | op :: ops' => (next_sequence j + 1 <? 2 ^ 64) && calls_fit ops' (run_coord demo_env op j).1
  end.

Lemma run_calls_run ops j tr :
  coord_run j tr -> calls_fit ops j = true -> coord_run (run_calls ops j tr).1 (run_calls ops j tr).2.
Proof.
  revert j tr. induction ops as [|op ops IH]; intros j tr Hr Hf; [done|]. simpl in Hf.
  apply andb_true_iff in Hf as [Hs Hf]. apply IH; [|done]. apply run_call; [done|]. by apply Z.ltb_lt.
Qed.

Definition run_to (n : nat) : TradeJournal * list Issued := run_calls (take n demo_ops) empty_journal [].

Lemma run_to_run n : coord_run (run_to n).1 (run_to n).2.
Proof.
  apply run_calls_run; [by apply run_start|].
  assert (Hall : forall ops j, calls_fit ops j = true -> calls_fit (take n ops) j = true).
  { induction n as [|m IH]; intros [|op ops] j Hf; try done. simpl in *.
    apply andb_true_iff in Hf as [-> Hf]. simpl. by apply IH. }
  apply Hall. vm_compute. reflexivity.
Qed.

(** ** Theorems at the concrete trade *)
Definition settled_journal : TradeJournal := (run_to 9).1.
Definition hedged : TradeJournal * list Issued := run_to 5.

(** Journals of the run as journal histories. *)
Definition j_open : TradeJournal := empty_journal.
Definition j_admitted : TradeJournal := (append (append_env demo_env) o0 j_open).1.
Definition j_dispatched : TradeJournal := (append (append_env demo_env) o1 j_admitted).1.

Lemma j_open_history : trade_history j_open.
Proof. by apply (history_open []). Qed.
Lemma j_open_step : trade_step j_open j_admitted.
Proof. split; [done|]. by exists (append_env demo_env), o0. Qed.
Lemma j_admitted_step : trade_step j_admitted j_dispatched.
Proof. split; [vm_compute; reflexivity|]. by exists (append_env demo_env), o1. Qed.
Lemma j_dispatched_history : trade_history j_dispatched.
Proof.
  eapply history_step; [|apply j_admitted_step]. eapply history_step; [apply j_open_history|apply j_open_step].
Qed.

Lemma trade_indexes_exact_witness :
  stage <$> operations j_dispatched !! "t1"%string = Some Executing /\
  active_operation_count j_dispatched = count_active (operations j_dispatched).
Proof.
  split; [vm_compute; reflexivity|]. apply (trade_indexes_exact j_dispatched j_dispatched_history).
Defined.

(** The write of the dispatch stops after one byte. *)
Definition cut_env : TradeEnv := mkTradeEnv (Ok 1000) (Some 1%nat).
Definition j_admitted_history : trade_history j_admitted :=
  history_step _ _ j_open_history j_open_step.

Lemma demo_prepared : exists pa, prepare_append cut_env o1 j_admitted = Ok pa /\ length (pa_line pa) = 2%nat.
Proof. eexists. split; [vm_compute; reflexivity|reflexivity]. Qed.

Lemma trade_journal_restart_witness :
  open_bytes (file (append cut_env o1 j_admitted).1) = Err "trade journal ends with a partial record"%string.
Proof.
  destruct demo_prepared as (pa & Hpa & Hlen).
  destruct (trade_journal_restart j_admitted cut_env o1 pa 1 j_admitted_history
              ltac:(vm_compute; reflexivity) Hpa eq_refl) as [_ Hcut].
  rewrite Hcut, Hlen. reflexivity.
Defined.

Lemma trade_journal_monotone_witness :
  dex_dispatched <$> operations j_dispatched !! "t1"%string = Some true /\
  ops_extend (operations j_admitted) (operations j_dispatched).
Proof.
  split; [vm_compute; reflexivity|].
  apply (trade_journal_monotone j_admitted j_dispatched j_admitted_history).
  eapply rtc_l; [apply j_admitted_step|apply rtc_refl].
Defined.

Lemma no_double_dispatch_witness :
  length (issued (run_to 9).2 "t1") = 3%nat /\
  (count_list fresh_dex (issued (run_to 9).2 "t1") <= 1)%nat.
Proof.
  split; [vm_compute; reflexivity|].
  apply (no_double_dispatch (run_to 9).1 (run_to 9).2 "t1" (run_to_run 9)).
Defined.

(** The exchange order is in flight when the process restarts. *)
Definition cex_order : CoordinatorCommand := DispatchCex "rustarb1" (-100) (Some (mkDecimal 61 2)).

Lemma hedged_issued : cex_order ∈ issued hedged.2 "t1".
Proof.
  assert (Hl : last (issued hedged.2 "t1") = Some cex_order) by (vm_compute; reflexivity).
  by apply last_Some_elem_of.
Qed.

Lemma hedged_reopens : exists j', open_bytes (file hedged.1) = Ok j' /\
  operations j' !! "t1"%string = Some (erase o4).
Proof. eexists. split; [vm_compute; reflexivity|vm_compute; reflexivity]. Qed.

Lemma resume_replays_dispatch_witness :
  exists j', open_bytes (file hedged.1) = Ok j' /\
    resume_command (Ok 5000) j' "t1" = Ok (Some cex_order).
Proof.
  destruct hedged_reopens as (j' & Hj & Ho). exists j'. split; [exact Hj|].
  destruct (resume_replays_dispatch hedged.1 hedged.2 "t1" cex_order j' 5000 (run_to_run 5)
              hedged_issued Hj) as (o & Ho' & Hres).
  apply Hres. rewrite Ho in Ho'. injection Ho' as <-. vm_compute. reflexivity.
Defined.

Lemma settled_lookup : operations settled_journal !! "t1"%string = Some o8.
Proof. vm_compute. reflexivity. Qed.

Lemma settled_trades_accounted_witness :
  terminal (stage o8) = true /\ has_unknown_leg o8 = false.
Proof.
  assert (Ht : terminal (stage o8) = true) by (vm_compute; reflexivity). split; [exact Ht|].
  exact (proj1 (settled_trades_accounted settled_journal (run_to 9).2 "t1" o8 (run_to_run 9) settled_lookup Ht)).
Defined.

Lemma recovery_hedges_exactly_witness :
  gap dex_fill cex_fill = -40 /\
  decide_commands (Ok 1000) o5 = Ok ([RecoverCex 1 (-40)], Some (set_inflight o5 Recovering (Some (-40)))) /\
  token_b_residual (set_results o5 (dex_result o5) (cex_result o5) [filled_gap] false) = -1.
Proof.
  split; [reflexivity|].
  destruct (recovery_hedges_exactly (Ok 1000) o5 dex_fill cex_fill) as [Hd Hr];
    [first [vm_compute; reflexivity|split; vm_compute; reflexivity]..|].
  split; [exact Hd|]. apply (Hr filled_gap); [reflexivity|split; vm_compute; reflexivity..].
Defined.

Lemma residual_mark_conservative_witness :
  token_b_residual o5 = 40 /\ exists v, residual_value_of o5 = Ok v /\ v = 40 * 54 / 100.
Proof.
  split; [vm_compute; reflexivity|].
  pose proof (residual_mark_conservative o5 demo_admission ltac:(vm_compute; reflexivity)
                ltac:(vm_compute; discriminate) ltac:(vm_compute; reflexivity)
                ltac:(split; vm_compute; reflexivity)) as Hm.
  destruct (residual_value_of o5) as [v|e] eqn:E; [|vm_compute in E; discriminate E].
  destruct Hm as [-> _]. eexists. split; [reflexivity|vm_compute; reflexivity].
Defined.

Lemma answered_trade_progresses_witness :
  terminal (stage o5) = false /\ progresses o5 (decide_commands (Ok 1000) o5).
Proof.
  split; [vm_compute; reflexivity|].
  destruct (answered_trade_progresses (run_to 6).1 (run_to 6).2 "t1" o5 1000 (run_to_run 6)) as [[Hw _]|Hp]; [..|exact Hp].
  all: vm_compute; first [reflexivity|discriminate].
Defined.
