(* ===== verification/PaperOpportunity.v ===== *)
(** * Opportunities and their identity ([src/src/arbitrage.rs])

    What the search hands to the execution lane: its validation, the identifiers
    derived from it and the trade intent it becomes.  JSON and SHA-256 are the
    interface [OpportunityText]; the hexadecimal fingerprints are the code's own.
    The theorem is that every opportunity that validates gets identifiers that
    all later stages accept. *)
From Stdlib Require Import Lia.
From stdpp Require Import base strings numbers list fin_maps pretty.
From S2P Require Import Prelude Decimals ExecutionPlan TradeData.

Record PaperOpportunity := mkOpportunity {
  op_source_revision : string;
  op_pair_id : string;
  op_symbol : string;
  op_update_id : Z;
  op_received_unix_us : Z;
  op_reservation_completed_unix_us : Z;
  op_direction : ArbitrageDirection;
  op_dex_pool_index : Z;
  op_dex_pool_generation : Z;
  op_dex_fee_generation : Z;
  op_token_b : Z;
  op_token_b_step : Z;
  op_cost_token_a : Z;
  op_proceeds_token_a : Z;
  op_admission : AdmissionRiskBounds;
  op_dex_plan : DexSwapPlan;
}.

Class OpportunityText := {
  opportunity_json : PaperOpportunity -> list Z;
  sha256 : list Z -> list Z;
}.
Class OpportunityTextLaws `{OpportunityText} : Prop := {
  sha256_length bs : length (sha256 bs) = 32%nat;
  sha256_bytes bs : Forall (fun b => 0 <= b < 256) (sha256 bs);
}.

(** [{byte:02x}]. *)
Definition hex_digit (n : Z) : Ascii.ascii :=
  Ascii.ascii_of_N (Z.to_N (if n <? 10 then 48 + n else 87 + n)).
Definition hex_byte (b : Z) : string :=
  String (hex_digit (b / 16)) (String (hex_digit (b mod 16)) EmptyString).
Definition hex_bytes (bs : list Z) : string := foldr String.append EmptyString (map hex_byte bs).

Definition direction_suffix (d : ArbitrageDirection) : string :=
  match d with BuyTokenBOnDexSellOnCex => "ds" | BuyTokenBOnCexSellOnDex => "cs" end.

Definition adaptive_generations (r : DexRoutePlan) : option (Z * Z) :=
  match r with
  | CamelotV3 _ _ pg fg _ _ _ _ _ _ | LynexAlgebraV1_9 _ _ pg fg _ _ _ _ => Some (pg, fg)
  | _ => None
  end.

Section opportunity.
Context `{EvmText}.

Definition validate_opportunity (o : PaperOpportunity) : TRes unit :=
  let? _ := validate_id (op_source_revision o) 96 in
  let? _ := validate_id (op_pair_id o) 96 in
  let? _ := validate_id (op_symbol o) 24 in
  ensure! 0 <? op_update_id o else "paper opportunity update id is zero" ;;
  ensure! 0 <? op_received_unix_us o else "paper opportunity receive timestamp is zero" ;;
  ensure! 0 <? op_reservation_completed_unix_us o
    else "paper opportunity reservation timestamp is zero" ;;
  ensure! 0 <? op_token_b o else "paper opportunity token-B amount must be positive" ;;
  ensure! 0 <? op_dex_pool_generation o else "paper opportunity DEX pool generation is zero" ;;
  ensure! 0 <? op_token_b_step o else "paper opportunity token-B step must be positive" ;;
  ensure! (0 <? op_cost_token_a o) && (0 <? op_proceeds_token_a o)
    else "paper opportunity token-A economics must be positive" ;;
  let? _ := validate_admission (op_admission o) in
  let? _ := validate_plan (op_dex_plan o) in
  match adaptive_generations (route (op_dex_plan o)) with
  | Some (pg, fg) =>
      ensure! pg =? op_dex_pool_generation o
        else "adaptive Algebra plan pool generation differs from opportunity" ;;
      ensure! fg =? op_dex_fee_generation o
        else "adaptive Algebra plan fee generation differs from opportunity" ;;
      Ok tt
  | None =>
      ensure! op_dex_fee_generation o =? 0
        else "static-fee opportunity has a dynamic fee generation" ;;
      Ok tt
  end.
End opportunity.

Section identity.
Context `{OpportunityText}.

Definition opportunity_fingerprint (o : PaperOpportunity) : string :=
  hex_bytes (take 8 (sha256 (opportunity_json o))).

Definition opportunity_plan_id (o : PaperOpportunity) : string :=
  ("paper-" +:+ pretty (Z.to_N (op_received_unix_us o)) +:+ "-" +:+ pretty (Z.to_N (op_update_id o))
   +:+ "-" +:+ opportunity_fingerprint o +:+ "-" +:+ direction_suffix (op_direction o))%string.

Definition client_order_id (pair plan direction : string) : string :=
  ("rustarb" +:+ hex_bytes (take 12 (sha256 (string_bytes (pair +:+ ":" +:+ plan +:+ ":" +:+ direction))))
   +:+ direction)%string.

Definition opportunity_intent (o : PaperOpportunity) (m : ExecutionMode) : TradeIntent :=
  let id := opportunity_plan_id o in
  mkTradeIntent id (op_source_revision o) (op_pair_id o) None (op_received_unix_us o) (op_update_id o)
    m (op_direction o) (op_token_b o) (op_token_b_step o) (op_cost_token_a o) (op_proceeds_token_a o)
    (id +:+ "-dex")%string
    (client_order_id (op_pair_id o) id (direction_suffix (op_direction o)))
    (Some (op_admission o)) (Some (op_dex_plan o)).
End identity.

(** ** Short texts over an alphabet *)
Record text (p : Ascii.ascii -> bool) (n : nat) (s : string) : Prop := {
  tx_bytes : bytes_all p s = true;
  tx_length : (String.length s <= n)%nat;
}.

Lemma bytes_all_append p a b : bytes_all p (a +:+ b) = bytes_all p a && bytes_all p b.
Proof. induction a as [|c a IH]; [done|]. simpl. by rewrite IH, andb_assoc. Qed.
Lemma text_append p m n a b : text p m a -> text p n b -> text p (m + n) (a +:+ b).
Proof.
  intros [Ha La] [Hb Lb]. split; [by rewrite bytes_all_append, Ha, Hb|]. rewrite length_append. lia.
Qed.
Lemma text_impl p q m n s :
  (forall c, p c = true -> q c = true) -> (m <= n)%nat -> text p m s -> text q n s.
Proof.
  intros Hpq Hmn [Hs Hl]. split; [|lia]. clear Hl. induction s as [|c s IH]; [done|]. simpl in *.
  apply andb_true_iff in Hs as [Hc Hs]. by rewrite (Hpq _ Hc), IH.
Qed.

Definition swap_text := text swap_operation_byte.

Lemma swap_byte_trade c : swap_operation_byte c = true -> trade_id_byte c = true.
Proof. unfold swap_operation_byte, trade_id_byte. rewrite !orb_true_iff. tauto. Qed.

Lemma text_validate_id s n maximum :
  swap_text n s -> 0 < str_len s -> Z.of_nat n <= maximum -> validate_id s maximum = Ok tt.
Proof.
  intros Ht Hpos Hn. unfold validate_id. destruct (text_impl swap_operation_byte trade_id_byte n n s swap_byte_trade (le_n n) Ht)
    as [Hb Hl]. unfold str_len in *. rewrite (proj2 (Z.leb_le _ _)) by lia. rewrite Hb.
  destruct s; [simpl in Hpos; lia|done].
Qed.

Lemma digit_text n : 0 <= n < 16 -> swap_operation_byte (hex_digit n) = true.
Proof.
  intros Hn. assert (Hall : forallb (fun k => swap_operation_byte (hex_digit (Z.of_nat k))) (seq 0 16) = true)
    by (vm_compute; reflexivity).
  rewrite forallb_forall in Hall. specialize (Hall (Z.to_nat n)). rewrite Z2Nat.id in Hall by lia.
  apply Hall, in_seq. lia.
Qed.

Lemma hex_bytes_text bs :
  Forall (fun b => 0 <= b < 256) bs -> swap_text (2 * length bs) (hex_bytes bs).
Proof.
  induction 1 as [|b bs Hb _ IH]; [by split|].
  change (hex_bytes (b :: bs)) with (hex_byte b +:+ hex_bytes bs)%string.
  replace (2 * length (b :: bs))%nat with (2 + 2 * length bs)%nat by (simpl; lia).
  apply text_append; [|done]. split; [|simpl; lia].
  cbn [hex_byte bytes_all]. rewrite !digit_text; [done| |].
  - pose proof (Z.mod_pos_bound b 16). lia.
  - split; [apply Z.div_pos; lia|apply Z.div_lt_upper_bound; lia].
Qed.

Lemma pretty_char_text n : (n < 10)%N -> swap_operation_byte (pretty_N_char n) = true.
Proof.
  intros Hn. assert (Hall : forallb (fun k => swap_operation_byte (pretty_N_char (N.of_nat k))) (seq 0 10) = true)
    by (vm_compute; reflexivity).
  rewrite forallb_forall in Hall. specialize (Hall (N.to_nat n)). rewrite N2Nat.id in Hall.
  apply Hall, in_seq. lia.
Qed.

Lemma pretty_go_text k m x s :
  (x < 10 ^ N.of_nat k)%N -> swap_text m s -> swap_text (k + m) (pretty_N_go x s).
Proof.
  revert m x s. induction k as [|k IH]; intros m x s Hx Hs.
  - assert (x = 0)%N as -> by (simpl in Hx; lia). by rewrite pretty_N_go_0.
  - destruct (decide (x = 0)%N) as [->|Hne].
    { rewrite pretty_N_go_0. by eapply text_impl; [..|exact Hs]; [done|lia]. }
    rewrite pretty_N_go_step by lia. replace (S k + m)%nat with (k + S m)%nat by lia. apply IH.
    + apply N.Div0.div_lt_upper_bound. rewrite Nat2N.inj_succ, N.pow_succ_r' in Hx. lia.
    + destruct Hs as [Hb Hl]. split; [|simpl; lia]. simpl. rewrite Hb, pretty_char_text; [done|].
      apply N.mod_lt. lia.
Qed.

Lemma pretty_text x : (x < 10 ^ 20)%N -> swap_text 20 (pretty x).
Proof.
  intros Hx. unfold pretty, pretty_N. destruct (decide (x = 0)%N); [by split; [|simpl; lia]|].
  apply (pretty_go_text 20 0); [done|by split].
Qed.

Lemma prefix_append a b : String.prefix a (a +:+ b) = true.
Proof. induction a as [|c a IH]; [by destruct b|]. simpl. by destruct (Ascii.ascii_dec c c). Qed.
Lemma append_cancel a b c : (a +:+ b)%string = (a +:+ c)%string -> b = c.
Proof. induction a as [|x a IH]; [done|]. simpl. intros [= He]. by apply IH. Qed.

Lemma swap_byte_ascii c : swap_operation_byte c = true -> is_ascii_byte c = true.
Proof.
  unfold swap_operation_byte, is_ascii_alphanumeric, is_ascii_digit, is_ascii_uppercase, is_ascii_lowercase,
    byte_is, is_ascii_byte, byte_in. rewrite !orb_true_iff, !andb_true_iff, !N.leb_le, !N.eqb_eq. lia.
Qed.

Section identifiers.
Context `{EvmText} `{OpportunityTextLaws}.

Lemma digest_text n bs : (n <= 32)%nat -> swap_text (2 * n) (hex_bytes (take n (sha256 bs))).
Proof.
  intros Hn. replace (2 * n)%nat with (2 * length (take n (sha256 bs)))%nat
    by (rewrite length_take, sha256_length; lia).
  apply hex_bytes_text, Forall_take, sha256_bytes.
Qed.

Lemma plan_id_text o :
  u64 (op_received_unix_us o) -> u64 (op_update_id o) -> swap_text 67 (opportunity_plan_id o).
Proof.
  intros Hr Hu. unfold opportunity_plan_id.
  change 67%nat with (6 + (20 + (1 + (20 + (1 + (16 + (1 + 2)))))))%nat.
  repeat apply text_append; try (split; [done|simpl; lia]).
  - apply pretty_text. unfold uint in *. lia.
  - apply pretty_text. unfold uint in *. lia.
  - apply (digest_text 8). lia.
  - destruct (op_direction o); split; simpl; done || lia.
Qed.

Lemma client_id_text pair plan d : swap_text 33 (client_order_id pair plan (direction_suffix d)).
Proof.
  unfold client_order_id. change 33%nat with (7 + (24 + 2))%nat.
  repeat apply text_append; [split; [done|simpl; lia]|apply (digest_text 12); lia|].
  destruct d; split; simpl; done || lia.
Qed.

Lemma attempt_suffix_text k : (1 <= k <= 9)%nat -> swap_text 2 ("r" +:+ pretty k)%string.
Proof.
  intros Hk. assert (Hall : forallb (fun k => bytes_all swap_operation_byte ("r" +:+ pretty k)
      && (String.length ("r" +:+ pretty k) <=? 2)%nat) (seq 1 9) = true) by (vm_compute; reflexivity).
  rewrite forallb_forall in Hall. specialize (Hall k ltac:(apply in_seq; lia)).
  apply andb_true_iff in Hall as [Hb Hl]. split; [done|by apply Nat.leb_le].
Qed.

Lemma recovery_id_text primary k n :
  swap_text n primary -> Z.of_nat n <= 34 -> starts_with primary "rustarb" = true -> (1 <= k <= 9)%nat ->
  recovery_client_order_id primary k = Ok (primary +:+ ("r" +:+ pretty k))%string /\
  validate_id (primary +:+ ("r" +:+ pretty k)) 36 = Ok tt.
Proof.
  intros Ht Hn Hs Hk. pose proof (attempt_suffix_text k Hk) as Hsuf.
  split.
  - unfold recovery_client_order_id. rewrite (proj2 (Nat.ltb_lt _ _)), (proj2 (Nat.leb_le _ _)), Hs by lia.
    destruct (text_impl _ _ _ _ _ swap_byte_ascii (le_n _) Ht) as [-> Hl]. destruct Hsuf as [_ Hl2].
    simpl andb. cbn [ensure rbind]. unfold str_len in *.
    rewrite (proj2 (Z.leb_le (_ + _) 36)) by lia. done.
  - apply (text_validate_id _ (n + 2)); [by apply text_append| |lia].
    unfold str_len. rewrite length_append. simpl. lia.
Qed.

(** Every opportunity that validates becomes a trade whose identifiers all
    later stages accept: its intent validates, its swap operation id satisfies
    the swap executor, and each recovery attempt has an exchange order id within
    the exchange's limits, different attempts having different ids. *)
Theorem opportunity_identifiers_accepted o m :
  validate_opportunity o = Ok tt -> u64 (op_received_unix_us o) -> u64 (op_update_id o) ->
  let i := opportunity_intent o m in
  validate_intent i = Ok tt /\
  negb (str_is_empty (dex_operation_id i)) && (str_len (dex_operation_id i) <=? 120)
    && bytes_all swap_operation_byte (dex_operation_id i) = true /\
  (forall k, (1 <= k <= 9)%nat -> exists id,
     recovery_client_order_id (cex_client_order_id i) k = Ok id /\ validate_id id 36 = Ok tt) /\
  (forall k k' id, recovery_client_order_id (cex_client_order_id i) k = Ok id ->
     recovery_client_order_id (cex_client_order_id i) k' = Ok id -> k = k').
Proof.
  intros Hv Hr Hu i. subst i. pose proof (plan_id_text o Hr Hu) as Hid.
  pose proof (client_id_text (op_pair_id o) (opportunity_plan_id o) (op_direction o)) as Hc.
  assert (Hdex : swap_text 71 (opportunity_plan_id o +:+ "-dex")%string).
  { apply (text_append _ 67 4); [done|]. split; [done|simpl; lia]. }
  split; [|split; [|split]].
  - unfold validate_opportunity in Hv. res_inv. bool_prop. repeat match goal with x : unit |- _ => destruct x end.
    unfold validate_intent. cbn [opportunity_intent plan_id source_revision pair_id journal_scope dex_operation_id
      cex_client_order_id planned_token_b token_b_step expected_cost_token_a expected_proceeds_token_a admission
      dex_plan].
    rewrite (text_validate_id _ 67 96 Hid), (text_validate_id _ 71 120 Hdex), (text_validate_id _ 33 36 Hc)
      by (done || lia || (unfold str_len; rewrite ?length_append; simpl; lia)).
    repeat match goal with E : validate_id _ _ = Ok _ |- _ => rewrite E; clear E end. cbn [rbind].
    rewrite !(proj2 (Z.ltb_lt 0 _)) by done. cbn [ensure rbind].
    match goal with E : validate_admission _ = Ok _ |- _ => rewrite E end. done.
  - destruct Hdex as [Hb Hl]. cbn [opportunity_intent dex_operation_id]. rewrite Hb, andb_true_r.
    unfold str_len. rewrite (proj2 (Z.leb_le _ _)) by lia. done.
  - intros k Hk. eexists. apply (recovery_id_text _ k 33); [exact Hc|lia|apply prefix_append|done].
  - intros k k' id. unfold recovery_client_order_id. intros H1' H2'. res_inv.
    match goal with E : (_ +:+ _)%string = (_ +:+ _)%string |- _ => apply append_cancel, append_cancel in E end.
    by apply (inj pretty).
Qed.
End identifiers.
