(* ===== verification/Mailbox.v ===== *)
(** * The opportunity mailbox ([src/src/arbitrage.rs], [LatestOpportunityMailbox])

    One pending opportunity per strategy, served round robin to a single
    execution lane.  Every method takes the mutex once, so it is one transition;
    [recv] is modelled as one pass of its loop, which a notification repeats.
    The specification is a queue of strategies with their latest opportunity. *)
From Stdlib Require Import Lia.
From stdpp Require Import base gmap strings numbers list fin_maps.
From S2P Require Import Prelude Decimals ExecutionPlan TradeData PaperOpportunity.

Inductive ExecutionLaneState := Available | Busy.
#[global] Instance ExecutionLaneState_eq_dec : EqDecision ExecutionLaneState.
Proof. solve_decision. Defined.

Inductive PaperTradeSubmitResult :=
| Accepted
| Superseded (previous : PaperOpportunity)
| Unavailable.

Record Mailbox := mkMailbox {
  pending_by_strategy : gmap string PaperOpportunity;
  round_robin : list string;
  lane : ExecutionLaneState;
  senders : Z;
  receiver_open : bool;
  discarded : Z;
}.

Definition channel (initial_lane : ExecutionLaneState) : Mailbox :=
  mkMailbox ∅ [] initial_lane 1 true 0.

(** [fetch_add] wraps. *)
Definition count_discarded (m : Mailbox) : Mailbox :=
  mkMailbox (pending_by_strategy m) (round_robin m) (lane m) (senders m) (receiver_open m)
    ((discarded m + 1) mod 2 ^ 64).
Definition set_lane (m : Mailbox) (l : ExecutionLaneState) : Mailbox :=
  mkMailbox (pending_by_strategy m) (round_robin m) l (senders m) (receiver_open m) (discarded m).
Definition set_senders (m : Mailbox) (n : Z) : Mailbox :=
  mkMailbox (pending_by_strategy m) (round_robin m) (lane m) n (receiver_open m) (discarded m).
Definition set_queue (m : Mailbox) (pending : gmap string PaperOpportunity) (order : list string)
  : Mailbox :=
  mkMailbox pending order (lane m) (senders m) (receiver_open m) (discarded m).

Definition clone_handle (m : Mailbox) : Mailbox := set_senders m (saturating_add 64 (senders m) 1).
Definition drop_handle (m : Mailbox) : Mailbox := set_senders m (saturating_sub (senders m) 1).

Definition try_submit (o : PaperOpportunity) (m : Mailbox) : Mailbox * PaperTradeSubmitResult :=
  if negb (receiver_open m) then (count_discarded m, Unavailable) else
  let strategy := op_pair_id o in
  let previous := pending_by_strategy m !! strategy in
  let m' := set_queue m (<[strategy := o]> (pending_by_strategy m))
              (if bool_decide (previous = None) then round_robin m ++ [strategy] else round_robin m) in
  match previous with
  | Some p => (count_discarded m', Superseded p)
  | None => (m', Accepted)
  end.

Definition finish (m : Mailbox) : Mailbox := set_lane m Available.

Inductive Received := Got (o : PaperOpportunity) | Closed | Waiting.

(** The pass closes, hands out or waits.  A popped strategy without a pending
    opportunity would stay popped. *)
Definition recv_pass (m : Mailbox) : Mailbox * Received :=
  let idle (m : Mailbox) := (m, if (senders m =? 0) || negb (receiver_open m) then Closed else Waiting) in
  if bool_decide (lane m = Available) then
    match round_robin m with
    | [] => idle m
    | strategy :: rest =>
        match pending_by_strategy m !! strategy with
        | Some o => (set_lane (set_queue m (delete strategy (pending_by_strategy m)) rest) Busy, Got o)
        | None => idle (set_queue m (pending_by_strategy m) rest)
        end
    end
  else idle m.

Definition drop_receiver (m : Mailbox) : Mailbox :=
  mkMailbox ∅ [] (lane m) (senders m) false (discarded m).

(** ** The queue *)
Definition entry_of (m : Mailbox) (strategy : string) : option (string * PaperOpportunity) :=
  pair strategy <$> pending_by_strategy m !! strategy.
Definition queue (m : Mailbox) : list (string * PaperOpportunity) := omap (entry_of m) (round_robin m).

(** Replace in place, or join at the back. *)
Fixpoint upsert (o : PaperOpportunity) (q : list (string * PaperOpportunity))
  : list (string * PaperOpportunity) :=
  match q with
  | [] => [(op_pair_id o, o)]
  | (k, p) :: q' => if decide (k = op_pair_id o) then (k, o) :: q' else (k, p) :: upsert o q'
  end.

Record mailbox_ok (m : Mailbox) : Prop := {
  mb_nodup : NoDup (round_robin m);
  mb_pending k : k ∈ round_robin m <-> is_Some (pending_by_strategy m !! k);
  mb_keyed k o : pending_by_strategy m !! k = Some o -> op_pair_id o = k;
}.

Lemma entry_of_some m k o : pending_by_strategy m !! k = Some o -> entry_of m k = Some (k, o).
Proof. unfold entry_of. by intros ->. Qed.

Lemma queue_strategies m : mailbox_ok m -> (queue m).*1 = round_robin m.
Proof.
  intros [_ Hp _]. unfold queue.
  assert (Hall : Forall (fun k => is_Some (pending_by_strategy m !! k)) (round_robin m)).
  { apply Forall_forall. intros k. apply Hp. }
  clear Hp. induction Hall as [|k l [o Ho] _ IH]; [done|]. simpl.
  rewrite (entry_of_some m k o Ho). simpl.
  f_equal. exact IH.
Qed.

Lemma omap_entry_ext m m' (l : list string) :
  (forall k, k ∈ l -> pending_by_strategy m' !! k = pending_by_strategy m !! k) ->
  omap (entry_of m') l = omap (entry_of m) l.
Proof.
  intros Hk. induction l as [|k l IH]; [done|]. simpl.
  replace (entry_of m' k) with (entry_of m k) by (unfold entry_of; by rewrite Hk by left).
  destruct (entry_of m k); [f_equal|]; apply IH; intros k' Hin; apply Hk; by right.
Qed.

Lemma upsert_new o q : op_pair_id o ∉ q.*1 -> upsert o q = q ++ [(op_pair_id o, o)].
Proof.
  induction q as [|[k p] q IH]; [done|]. simpl. intros Hn. apply not_elem_of_cons in Hn as [Hk Hn].
  rewrite decide_False by done. by rewrite IH.
Qed.

Lemma omap_insert m o (l : list string) :
  NoDup l -> op_pair_id o ∈ l -> Forall (fun k => is_Some (pending_by_strategy m !! k)) l ->
  omap (entry_of (set_queue m (<[op_pair_id o := o]> (pending_by_strategy m)) (round_robin m))) l
    = upsert o (omap (entry_of m) l).
Proof.
  intros Hnd Hin Hall. induction l as [|k l IH]; [by apply elem_of_nil in Hin|].
  apply NoDup_cons in Hnd as [Hk Hnd]. apply Forall_cons in Hall as [[p Hp] Hall].
  simpl. rewrite (entry_of_some m k p Hp). simpl. destruct (decide (k = op_pair_id o)) as [->|Hne].
  - rewrite (entry_of_some _ (op_pair_id o) o) by apply lookup_insert_eq. f_equal.
    apply omap_entry_ext. intros k' Hk'. apply lookup_insert_ne. congruence.
  - rewrite (entry_of_some _ k p) by (simpl; by rewrite lookup_insert_ne). f_equal.
    apply IH; [done| |done]. apply elem_of_cons in Hin as [|]; [congruence|done].
Qed.

Lemma insert_keyed (pending : gmap string PaperOpportunity) o :
  (forall k p, pending !! k = Some p -> op_pair_id p = k) ->
  forall k p, <[op_pair_id o := o]> pending !! k = Some p -> op_pair_id p = k.
Proof. intros Hk k p [[<- <-]|[_ Hp]]%lookup_insert_Some; eauto. Qed.

Lemma submit_queue m o :
  mailbox_ok m -> receiver_open m = true ->
  let '(m', r) := try_submit o m in
  mailbox_ok m' /\ queue m' = upsert o (queue m) /\ lane m' = lane m /\ receiver_open m' = true /\
  r = match pending_by_strategy m !! op_pair_id o with Some p => Superseded p | None => Accepted end.
Proof.
  intros Hok Ho. pose proof Hok as [Hnd Hp Hkey].
  unfold try_submit. rewrite Ho. simpl. pose proof (Hp (op_pair_id o)) as Hk.
  assert (Hall : Forall (fun k => is_Some (pending_by_strategy m !! k)) (round_robin m)).
  { apply Forall_forall. intros k. apply Hp. }
  destruct (pending_by_strategy m !! op_pair_id o) as [p|] eqn:E; simpl.
  - assert (Hin : op_pair_id o ∈ round_robin m) by (apply Hk; eauto).
    split_and!; try done; [|by apply omap_insert].
    split; simpl; [done| |by apply insert_keyed]. intros k.
    destruct (decide (k = op_pair_id o)) as [->|Hne];
      [rewrite lookup_insert_eq; naive_solver|rewrite lookup_insert_ne by done; apply Hp].
  - assert (Hn : op_pair_id o ∉ round_robin m) by (intros Hin; apply Hk in Hin as [? ?]; done).
    split_and!; try done.
    + split; simpl; [apply NoDup_app; split_and!; [done|set_solver|apply NoDup_singleton]| |by apply insert_keyed].
      intros k. rewrite elem_of_app, list_elem_of_singleton.
      destruct (decide (k = op_pair_id o)) as [->|Hne];
        [rewrite lookup_insert_eq; naive_solver|rewrite lookup_insert_ne by done; rewrite Hp; naive_solver].
    + rewrite upsert_new by by rewrite queue_strategies. unfold queue. simpl. rewrite omap_app. f_equal.
      * apply omap_entry_ext. intros k Hk'. simpl. apply lookup_insert_ne. congruence.
      * simpl. unfold entry_of. simpl. by rewrite lookup_insert_eq.
Qed.

Lemma recv_queue m :
  mailbox_ok m ->
  let '(m', r) := recv_pass m in
  mailbox_ok m' /\ receiver_open m' = receiver_open m /\
  match lane m, queue m with
  | Available, (_, p) :: q => r = Got p /\ queue m' = q /\ lane m' = Busy
  | _, _ => m' = m /\ r = if (senders m =? 0) || negb (receiver_open m) then Closed else Waiting
  end.
Proof.
  intros Hok. pose proof Hok as [Hnd Hp Hkey]. unfold recv_pass. destruct (lane m) eqn:El; [|done]. simpl.
  destruct (round_robin m) as [|k l] eqn:Er.
  { unfold queue. rewrite Er. done. }
  assert (Hk : is_Some (pending_by_strategy m !! k)) by (apply Hp; rewrite ?Er; by left).
  destruct Hk as [p Ek]. rewrite Ek. apply NoDup_cons in Hnd as [Hkl Hnd].
  assert (Hq : queue m = (k, p) :: omap (entry_of m) l).
  { unfold queue. rewrite Er. simpl. by rewrite (entry_of_some m k p). }
  rewrite Hq. split_and!; try done.
  - split; simpl; [done| |intros k' p' [_ Hk']%lookup_delete_Some; by apply Hkey].
    intros k'. destruct (decide (k' = k)) as [->|Hne].
    + rewrite lookup_delete_eq. split; [done|]. by intros [? ?].
    + rewrite lookup_delete_ne by done. rewrite <- Hp, elem_of_cons. naive_solver.
  - unfold queue. simpl. apply omap_entry_ext. intros k' Hk'. simpl. apply lookup_delete_ne. congruence.
Qed.

(** ** Runs of senders and the receiver *)
Inductive MailboxOp :=
| Submit (o : PaperOpportunity)
| Finish
| Recv
| CloneHandle
| DropHandle
| DropReceiver.

Inductive MailboxEvent :=
| Replied (r : PaperTradeSubmitResult)
| Dispatched (o : PaperOpportunity).

Definition mailbox_step (m : Mailbox) (op : MailboxOp) : Mailbox * list MailboxEvent :=
  match op with
  | Submit o => let '(m', r) := try_submit o m in (m', [Replied r])
  | Finish => (finish m, [])
  | Recv => match recv_pass m with (m', Got o) => (m', [Dispatched o]) | (m', _) => (m', []) end
  | CloneHandle => (clone_handle m, [])
  | DropHandle => (drop_handle m, [])
  | DropReceiver => (drop_receiver m, [])
  end.

(** The specification: the queue, the lane and whether the receiver is there. *)
Record LatestQueue := mkQueue {
  q_entries : list (string * PaperOpportunity);
  q_lane : ExecutionLaneState;
  q_open : bool;
}.

Definition lookup_entry (k : string) (q : list (string * PaperOpportunity)) : option PaperOpportunity :=
  snd <$> head (filter (fun e => e.1 = k) q).

Definition queue_step (s : LatestQueue) (op : MailboxOp) : LatestQueue * list MailboxEvent :=
  match op with
  | Submit o =>
      if q_open s
      then (mkQueue (upsert o (q_entries s)) (q_lane s) true,
            [Replied (match lookup_entry (op_pair_id o) (q_entries s) with
                      | Some p => Superseded p
                      | None => Accepted
                      end)])
      else (s, [Replied Unavailable])
  | Finish => (mkQueue (q_entries s) Available (q_open s), [])
  | Recv =>
      match q_lane s, q_entries s with
      | Available, (_, o) :: q => (mkQueue q Busy (q_open s), [Dispatched o])
      | _, _ => (s, [])
      end
  | CloneHandle | DropHandle => (s, [])
  | DropReceiver => (mkQueue [] (q_lane s) false, [])
  end.

Definition runs {S E : Type} (step : S -> MailboxOp -> S * list E) : S -> list MailboxOp -> S * list E :=
  fix go s ops :=
    match ops with
    | [] => (s, [])
    | op :: ops' =>
        let '(s1, es1) := step s op in
        let '(s2, es2) := go s1 ops' in (s2, es1 ++ es2)
    end.

Definition abstract_queue (m : Mailbox) : LatestQueue := mkQueue (queue m) (lane m) (receiver_open m).

Lemma lookup_entry_queue m k :
  mailbox_ok m -> lookup_entry k (queue m) = pending_by_strategy m !! k.
Proof.
  intros [Hnd Hp _]. unfold queue, lookup_entry. destruct (pending_by_strategy m !! k) as [o|] eqn:E.
  - assert (Hin : k ∈ round_robin m) by (apply Hp; by exists o).
    assert (Hall : Forall (fun k => is_Some (pending_by_strategy m !! k)) (round_robin m)).
    { apply Forall_forall. intros k'. apply Hp. }
    clear Hp Hnd. induction Hall as [|k' l [o' Ho'] _ IH]; [by apply elem_of_nil in Hin|].
    simpl. rewrite (entry_of_some m k' o' Ho'). destruct (decide (k' = k)) as [->|Hne].
    + rewrite filter_cons_True by done. simpl. congruence.
    + rewrite filter_cons_False by done. apply IH. by apply elem_of_cons in Hin as [|].
  - assert (Hf : filter (fun e : string * PaperOpportunity => e.1 = k) (omap (entry_of m) (round_robin m)) = []).
    { apply elem_of_nil_inv. intros [k' o']. rewrite list_elem_of_filter, list_elem_of_omap.
      intros [Hk [k'' [_ He]]]. simpl in Hk. subst k'. unfold entry_of in He.
      destruct (pending_by_strategy m !! k'') eqn:E'; simplify_eq/=. }
    by rewrite Hf.
Qed.

Lemma step_refines m op :
  mailbox_ok m ->
  mailbox_ok (fst (mailbox_step m op)) /\
  queue_step (abstract_queue m) op
    = (abstract_queue (fst (mailbox_step m op)), snd (mailbox_step m op)).
Proof.
  intros Hok. destruct op as [o| | | | |]; simpl; try (split; [by destruct Hok|done]).
  - destruct (receiver_open m) eqn:Ho.
    + pose proof (submit_queue m o Hok Ho) as Hs. rewrite lookup_entry_queue by done.
      destruct (try_submit o m) as [m' r]. destruct Hs as (Hok' & Hq & Hl & Hop & ->). split; [done|].
      simpl. unfold abstract_queue. by rewrite Hq, Hl, Hop.
    + unfold try_submit. rewrite Ho. split; [by destruct Hok|]. unfold abstract_queue. simpl. by rewrite Ho.
  - pose proof (recv_queue m Hok) as Hr. destruct (recv_pass m) as [m' r].
    destruct Hr as (Hok' & Hop & Hr). unfold abstract_queue. destruct (lane m) eqn:El, (queue m) as [|[k p] q] eqn:Eq;
      try (destruct Hr as [-> ->]; destruct (_ || _); simpl; rewrite El, Eq; by split).
    destruct Hr as (-> & Hq & Hl). split; [done|]. simpl. by rewrite Hq, Hl, Hop.
  - split; [|done]. split; simpl; [apply NoDup_nil_2| |done].
    intros k. rewrite lookup_empty. split; [by intros ?%elem_of_nil|by intros [? ?]].
Qed.


(** C36. the mailbox is a queue of latest opportunities: from every well-formed
    mailbox, and so from a new channel, any interleaving of submissions, lane
    completions, receive passes and handle clones and drops answers and
    dispatches exactly what the queue does, in which a submission replaces the
    entry of its strategy in place (and is told which) or joins at the back, and
    a free lane takes the head. *)
Theorem mailbox_refines_queue m ops :
  mailbox_ok m ->
  runs queue_step (abstract_queue m) ops
    = (abstract_queue (fst (runs mailbox_step m ops)), snd (runs mailbox_step m ops)) /\
  mailbox_ok (fst (runs mailbox_step m ops)).
Proof.
  revert m. induction ops as [|op ops IH]; intros m Hok; [done|]. simpl.
  destruct (step_refines m op Hok) as [Hok1 ->]. destruct (mailbox_step m op) as [m1 es1]. simpl in *.
  destruct (IH m1 Hok1) as [-> Hok2]. by destruct (runs mailbox_step m1 ops) as [m2 es2].
Qed.

(** ** Fairness *)
Lemma closed_step m op : receiver_open m = false -> receiver_open (fst (mailbox_step m op)) = false.
Proof.
  intros Hc. destruct op as [o| | | | |]; simpl; try done.
  - unfold try_submit. by rewrite Hc.
  - unfold recv_pass. destruct (lane m), (round_robin m) as [|k l]; simpl; try (by rewrite Hc, orb_true_r).
    destruct (pending_by_strategy m !! k); simpl; [done|]. by rewrite Hc, orb_true_r.
Qed.
Lemma closed_stays m ops :
  receiver_open m = false -> receiver_open (fst (runs mailbox_step m ops)) = false.
Proof.
  revert m. induction ops as [|op ops IH]; intros m Hc; [done|]. simpl.
  pose proof (closed_step m op Hc) as H1. destruct (mailbox_step m op) as [m1 es1].
  specialize (IH m1 H1). by destruct (runs mailbox_step m1 ops).
Qed.

Definition dispatched (es : list MailboxEvent) : list PaperOpportunity :=
  omap (fun e => match e with Dispatched o => Some o | Replied _ => None end) es.

Lemma dispatched_app es1 es2 : dispatched (es1 ++ es2) = dispatched es1 ++ dispatched es2.
Proof. apply omap_app. Qed.

Lemma place_step m op i k :
  mailbox_ok m -> round_robin m !! i = Some k ->
  let '(m', es) := mailbox_step m op in
  receiver_open m' = true ->
  (dispatched es = [] /\ round_robin m' !! i = Some k) \/
  (exists o, dispatched es = [o] /\ op_pair_id o = k) \/
  (exists o i', dispatched es = [o] /\ i = S i' /\ round_robin m' !! i' = Some k).
Proof.
  intros Hok Hi. destruct op as [o| | | | |]; simpl; try (intros _; by left).
  - unfold try_submit. destruct (receiver_open m) eqn:Ho; simpl; [|congruence].
    destruct (pending_by_strategy m !! op_pair_id o); simpl; intros _; left; split; try done.
    by apply lookup_app_l_Some.
  - unfold recv_pass. destruct (lane m); simpl; [|destruct (_ || _); intros _; by left].
    destruct (round_robin m) as [|k0 l] eqn:Er; [done|].
    destruct Hok as [_ Hp Hkey]. rewrite Er in Hp.
    destruct (proj1 (Hp k0) ltac:(by left)) as [o Ho]. rewrite Ho. intros _. simpl. right.
    destruct i as [|i]; simpl in Hi; [left; exists o; split; [done|]|right; eauto].
    rewrite (Hkey _ _ Ho). congruence.
  - done.
Qed.

(** No pending strategy starves: whatever the senders submit, a strategy at
    place [i] of the queue sees at most [i] opportunities dispatched before one of
    its own, as long as the receiver lives; until then it stays pending, one
    place further for each dispatch. *)
Theorem pending_not_overtaken m ops i k :
  mailbox_ok m -> round_robin m !! i = Some k ->
  receiver_open (fst (runs mailbox_step m ops)) = true ->
  let out := dispatched (snd (runs mailbox_step m ops)) in
  Forall (fun o => op_pair_id o <> k) out ->
  (length out <= i)%nat /\ round_robin (fst (runs mailbox_step m ops)) !! (i - length out)%nat = Some k.
Proof.
  revert m i. induction ops as [|op ops IH]; intros m i Hok Hi Hopen; [simpl; intros _; split; [lia|by rewrite Nat.sub_0_r]|].
  pose proof (place_step m op i k Hok Hi) as Hs. pose proof (proj1 (step_refines m op Hok)) as Hok1.
  simpl in *. destruct (mailbox_step m op) as [m1 es1]. simpl in Hok1. specialize (IH m1).
  pose proof (closed_stays m1 ops) as Hcl.
  destruct (runs mailbox_step m1 ops) as [m2 es2]. simpl in *. rewrite dispatched_app, Forall_app, length_app.
  intros [H1 H2].
  destruct (receiver_open m1) eqn:Ho1; [|rewrite Hcl in Hopen; done].
  destruct (Hs eq_refl) as [[-> Hi']|[(o & E & Ek)|(o & i' & E & -> & Hi')]].
  - exact (IH i Hok1 Hi' Hopen H2).
  - rewrite E in H1. by inversion H1.
  - rewrite E. simpl. destruct (IH i' Hok1 Hi' Hopen H2) as [Hl Hr]. split; [lia|done].
Qed.
