(* ===== verification/PaperDriver.v ===== *)
(** * The paper execution driver ([src/src/arbitrage.rs], [PaperTradeTask])

    The task that drives the coordinator: it answers every command with a
    simulated fill, resumes the trades a restart finds open and executes the
    opportunities the mailbox hands it.  Each coordinator call sees a clock and a
    write outcome of its own, given by [world] at the number of the call.  The
    loops of [drive] and [resume_plan] are bounded here by the fuels
    [drive_rounds] and [resume_rounds], which the theorems show to be enough. *)
From Stdlib Require Import Lia.
From stdpp Require Import base gmap strings numbers list fin_maps pretty.
From S2P Require Import Prelude Decimals LineLog ExecutionPlan TradeData TradeJournal Coordinator CoordinatorRuns PaperOpportunity Mailbox.

Inductive PaperTradeEventState := Balanced | RejectedUnsubmitted | BlockedUnknown.

(** The fields of an event the task computes (receipt data is absent on paper). *)
Record PaperTradeEvent := mkPaperEvent {
  pe_plan_id : string;
  pe_pair_id : string;
  pe_state : PaperTradeEventState;
  pe_dex_filled : bool;
}.

(** ** Simulated fills *)
Definition paper_fill (executed : option Z) (token_b token_a : Z) (reference : string) : LegResult :=
  mkLeg Filled executed token_b token_a ∅ ∅ 0 reference None None.

(** Planned amounts of validated intents are positive, so the division is defined. *)
Definition simulated_cex_result (it : TradeIntent) (delta : Z) (role : string) : TRes LegResult :=
  ensure! negb (delta =? 0) else "paper CEX quantity is zero" ;;
  let reference := if 0 <? delta then i128_neg (expected_cost_token_a it)
                   else expected_proceeds_token_a it in
  let? scaled := or_err (checked_mul 128 (Z.abs reference) (Z.abs delta))
                   "paper CEX token-A scaling overflow" in
  let? magnitude := or_err (i128_checked (scaled / Z.abs (planned_token_b it)))
                      "paper CEX token-A amount overflow" in
  Ok (paper_fill (Some delta) delta (if reference <? 0 then - magnitude else magnitude)
        ("paper:cex:" +:+ role +:+ ":" +:+ plan_id it)).

Definition simulate_command (it : TradeIntent) (c : CoordinatorCommand) : TRes (LegRole * LegResult) :=
  match c with
  | DispatchDex _ delta _ _ =>
      let token_a := match direction it with
                     | BuyTokenBOnDexSellOnCex => i128_neg (expected_cost_token_a it)
                     | BuyTokenBOnCexSellOnDex => expected_proceeds_token_a it
                     end in
      Ok (Dex, paper_fill None delta token_a ("paper:dex:" +:+ plan_id it))
  | DispatchCex _ delta _ =>
      let? r := simulated_cex_result it delta "primary" in Ok (Cex, r)
  | RecoverCex attempt delta =>
      let? r := simulated_cex_result it delta ("recovery:market:" +:+ pretty attempt) in
      Ok (RecoveryCex, r)
  end.

Definition dex_filled (o : TradeOperation) : bool :=
  is_some_and (dex_result o)
    (fun r => bool_decide (leg_status r = Filled)
              && (negb (token_b_delta r =? 0) || negb (token_a_delta r =? 0))).

(** What [result_telemetry_payload] can refuse; the payload itself is output. *)
Definition result_payload_checks (engine : string) (o : TradeOperation) : TRes unit :=
  let? _ := validate_id engine 96 in
  ensure! negb (bool_decide (final_result o = None)) else "trade has no terminal arbitrage result" ;;
  ensure! terminal (stage o) else "arbitrage result is not balanced" ;;
  Ok tt.

Definition initial_execution_lane (j : TradeJournal) : ExecutionLaneState :=
  if existsb (fun o => executing_stage (stage o)) (active_operations j) then Busy else Available.

Definition execution_failure_event_state (j : TradeJournal) (id : string) (existed : bool)
  : PaperTradeEventState :=
  if existed then RejectedUnsubmitted else
  match operations j !! id with
  | Some o => if dex_dispatched o || cex_dispatched o then BlockedUnknown else RejectedUnsubmitted
  | None => RejectedUnsubmitted
  end.

(** ** The task *)
Record Driver := mkDriver {
  d_journal : TradeJournal;
  d_calls : nat;
  d_events : list PaperTradeEvent;
}.

Section driver.
Context `{EvmText} `{TradeCodec} `{OpportunityText}.
Context (world : nat -> CoordEnv) (engine : string) (receiver_alive : bool).

Abbreviation DM := (M Driver string).

Definition call {A} (f : CoordEnv -> M TradeJournal string A) : DM A := fun d =>
  let '(j', r) := f (world (d_calls d)) (d_journal d) in
  (mkDriver j' (S (d_calls d)) (d_events d), r).

Definition look (id : string) (e : string) : DM TradeOperation := fun d =>
  (d, or_err (operations (d_journal d) !! id) e).

Definition publish_event (id : string) (s : PaperTradeEventState) (filled : bool) : DM unit :=
  do o <- look id "paper trade event operation is missing" ;;
  do! mlift (ensure receiver_alive "paper trade event receiver is closed"%string) ;;
  fun d => (mkDriver (d_journal d) (d_calls d)
              (d_events d ++ [mkPaperEvent id (pair_id (intent o)) s filled]), Ok tt).

Definition report (id : string) : DM unit :=
  do o <- look id "paper trade disappeared from coordinator" ;;
  if negb (bool_decide (final_result o = None)) then
    do! mlift (result_payload_checks engine o) ;;
    publish_event id Balanced (dex_filled o)
  else if bool_decide (stage o = UnknownExposure) || bool_decide (stage o = Halted)
  then publish_event id BlockedUnknown (dex_filled o)
  else mret tt.

Fixpoint answer (it : TradeIntent) (id : string) (cs : list CoordinatorCommand) : DM unit :=
  match cs with
  | [] => mret tt
  | c :: cs' =>
      do r <- mlift (simulate_command it c) ;;
      do! call (fun env => record_result env id r.1 r.2) ;;
      answer it id cs'
  end.

(** [None] is running out of fuel. *)
Fixpoint drive (fuel : nat) (id : string) : DM (option unit) :=
  match fuel with
  | O => mret None
  | S fuel' =>
      do cs <- call (fun env => take_commands env id) ;;
      match cs with
      | [] => do! report id ;; mret (Some tt)
      | _ =>
          do o <- look id "paper trade disappeared after dispatch" ;;
          do! answer (intent o) id cs ;;
          drive fuel' id
      end
  end.

Definition resume_next (id : string) : DM (option CoordinatorCommand) :=
  call (fun env j => (j, resume_command (clock_ms env) j id)).

Definition drive_rounds : nat := 6.
Definition resume_rounds : nat := 4.

Fixpoint resume_answers (fuel : nat) (id : string) : DM (option unit) :=
  match fuel with
  | O => mret None
  | S fuel' =>
      do c <- resume_next id ;;
      match c with
      | None => mret (Some tt)
      | Some c =>
          do o <- look id "paper trade disappeared during restart recovery" ;;
          do r <- mlift (simulate_command (intent o) c) ;;
          do! call (fun env => record_result env id r.1 r.2) ;;
          resume_answers fuel' id
      end
  end.

Definition resume_plan (id : string) : DM (option unit) :=
  do r <- resume_answers resume_rounds id ;;
  match r with None => mret None | Some _ => drive drive_rounds id end.

Definition resumable (o : TradeOperation) : bool :=
  match stage o with Prepared | Executing | Recovering | Halted => true | _ => false end.

Fixpoint resume_plans (ids : list string) : DM (option unit) :=
  match ids with
  | [] => mret (Some tt)
  | id :: ids' =>
      do r <- resume_plan id ;;
      match r with None => mret None | Some _ => resume_plans ids' end
  end.

Definition resume_active : DM (option unit) := fun d =>
  resume_plans (map (fun o => plan_id (intent o))
                 (filter (fun o => resumable o = true) (active_operations (d_journal d)))) d.

Definition execute (m : ExecutionMode) (o : PaperOpportunity) : DM (option unit) :=
  do! mlift (validate_opportunity o) ;;
  let it := opportunity_intent o m in
  do! call (fun env => admit_trade env it) ;;
  drive drive_rounds (plan_id it).

(** One turn of [run]: an execution error becomes an event, and only a failure to
    publish ends the task. *)
Definition run_one (m : ExecutionMode) (o : PaperOpportunity) : DM (option unit) := fun d =>
  let id := opportunity_plan_id o in
  let existed := bool_decide (is_Some (operations (d_journal d) !! id)) in
  match execute m o d with
  | (d', Ok r) => (d', Ok r)
  | (d', Err _) =>
      (do! publish_event id (execution_failure_event_state (d_journal d') id existed) false ;;
       mret (Some tt)) d'
  end.
End driver.

(** ** What an executed opportunity earns *)
Record paper_amounts (it : TradeIntent) : Prop := {
  pa_planned : 0 < planned_token_b it <= I128_MAX;
  pa_cost : 0 < expected_cost_token_a it <= I128_MAX;
  pa_proceeds : 0 < expected_proceeds_token_a it <= I128_MAX;
}.

Definition dex_income (it : TradeIntent) : Z :=
  match direction it with
  | BuyTokenBOnDexSellOnCex => - expected_cost_token_a it
  | BuyTokenBOnCexSellOnDex => expected_proceeds_token_a it
  end.
Definition cex_income (it : TradeIntent) : Z :=
  match direction it with
  | BuyTokenBOnDexSellOnCex => expected_proceeds_token_a it
  | BuyTokenBOnCexSellOnDex => - expected_cost_token_a it
  end.

Lemma pos_neg x : 0 < x <= I128_MAX -> i128_neg x = - x /\ i128_neg (- x) = x.
Proof. unfold i128_neg, I128_MAX, I128_MIN. intros Hx.
  split; rewrite (proj2 (Z.eqb_neq _ _)) by lia; lia. Qed.

Lemma planned_delta_bounds it :
  paper_amounts it -> planned_delta it <> 0 /\ - I128_MAX <= planned_delta it <= I128_MAX /\
    i128_neg (planned_delta it) = - planned_delta it.
Proof.
  intros [Hp _ _]. destruct (pos_neg _ Hp) as [E1 E2]. unfold planned_delta, dex_token_b_delta.
  destruct (direction it); rewrite ?E1, ?E2; unfold I128_MAX in *; lia.
Qed.

Lemma simulated_primary it role r :
  paper_amounts it -> simulated_cex_result it (- planned_delta it) role = Ok r ->
  exists reference, r = paper_fill (Some (- planned_delta it)) (- planned_delta it) (cex_income it) reference.
Proof.
  intros [Hp Hc Hq] Hs. unfold simulated_cex_result in Hs. res_inv.
  match goal with E : checked_mul _ _ _ = Some _ |- _ => apply checked_mul_Some in E as [-> _] end.
  match goal with E : i128_checked _ = Some _ |- _ => apply i128_checked_Some in E as [-> _] end.
  eexists. f_equal. unfold planned_delta, dex_token_b_delta, cex_income.
  destruct (pos_neg _ Hp) as [E1 _], (pos_neg _ Hc) as [E2 _]. rewrite E1, E2.
  destruct (direction it); [rewrite (proj2 (Z.ltb_ge 0 _)) by lia|rewrite (proj2 (Z.ltb_lt 0 (- - _))) by lia].
  - rewrite (proj2 (Z.ltb_ge (expected_proceeds_token_a it) 0)), Z.abs_opp, Z.div_mul by lia. lia.
  - rewrite (proj2 (Z.ltb_lt (- _) 0)), !Z.abs_opp, Z.div_mul by lia. lia.
Qed.

Definition leg_ref (executed : option Z) (token_b token_a : Z) (l : option LegResult) : Prop :=
  exists reference, l = Some (paper_fill executed token_b token_a reference).

(** Both legs filled as planned and nothing else pending. *)
Record hedged (it : TradeIntent) (o : TradeOperation) : Prop := {
  he_intent : intent o = it;
  he_dispatched : dex_dispatched o = true /\ cex_dispatched o = true;
  he_dex : leg_ref None (planned_delta it) (dex_income it) (dex_result o);
  he_cex : leg_ref (Some (- planned_delta it)) (- planned_delta it) (cex_income it) (cex_result o);
  he_recovery : recovery_results o = [] /\ recovery_inflight o = false;
  he_open : terminal (stage o) = false;
}.

Lemma hedged_settles it o clock cs next :
  paper_amounts it -> hedged it o -> decide_commands clock o = Ok (cs, next) ->
  cs = [] /\ exists o' r, next = Some o' /\ intent o' = it /\ terminal (stage o') = true /\
    final_result o' = Some r /\ residual_token_b r = 0 /\ dex_filled o' = true /\
    comparable_profit r = expected_proceeds_token_a it - expected_cost_token_a it.
Proof.
  intros Ha [Hi [Hd Hc] [x Hdex] [y Hcex] [Hrec Hin] Hop] Hdec.
  destruct (planned_delta_bounds it Ha) as (Hnz & Hrange & Hneg).
  assert (Hlegs : legs o = [paper_fill None (planned_delta it) (dex_income it) x;
                            paper_fill (Some (- planned_delta it)) (- planned_delta it) (cex_income it) y])
    by (unfold legs; by rewrite Hdex, Hcex, Hrec).
  assert (Hu : has_unknown_leg o = false) by (unfold has_unknown_leg; by rewrite Hlegs).
  assert (Hin2 : forall z, - I128_MAX <= z <= I128_MAX -> sat_i128 z = z)
    by (intros; apply sat_i128_id; unfold i128, I128_MIN, I128_MAX in *; lia).
  assert (Hres : token_b_residual o = 0).
  { unfold token_b_residual, sat_sum, i128_saturating_add. rewrite Hlegs. simpl.
    rewrite (Hin2 (0 + _)), Hin2; unfold I128_MAX in *; lia. }
  assert (Hprofit : realized_profit_of o = (expected_proceeds_token_a it - expected_cost_token_a it, 0)).
  { unfold realized_profit_of, sat_sum, gas_sum, i128_saturating_add, i128_saturating_sub. rewrite Hlegs. simpl.
    assert (Hinc : - I128_MAX <= dex_income it <= I128_MAX /\
        dex_income it + cex_income it = expected_proceeds_token_a it - expected_cost_token_a it /\
        - I128_MAX <= dex_income it + cex_income it <= I128_MAX).
    { destruct Ha as [_ Hcost Hproc]. unfold dex_income, cex_income. destruct (direction it); lia. }
    change (Z.min (saturating_add 128 (saturating_add 128 0 0) 0) I128_MAX) with 0.
    rewrite (Hin2 (0 + _)), (Hin2 (0 + _ + _)), Hin2 by lia. f_equal. lia. }
  assert (Htgt : primary_recovery_target o = Some 0).
  { unfold primary_recovery_target. rewrite Hdex, Hcex. simpl. unfold i128_saturating_neg, i128_saturating_sub.
    rewrite (Hin2 (- _)), Hin2 by (unfold I128_MAX in *; lia). rewrite Z.sub_diag. by destruct (below_step _ _). }
  unfold decide_commands in Hdec. rewrite Hop, Hu, Hd, Hc in Hdec. simpl in Hdec.
  assert (Hgo : decide_after_primary clock o = let? o' := finalize_balanced o in Ok ([], Some o')).
  { unfold decide_after_primary, primary_finished, decide_recovery. rewrite Hdex, Hcex, Hin, Hrec, Htgt. done. }
  assert (Hdec' : decide_after_primary clock o = Ok (cs, next)) by by destruct (mode (intent o)).
  rewrite Hgo in Hdec'. res_inv. split; [done|].
  match goal with E : finalize_balanced o = Ok _ |- _ => rename E into Hf end.
  unfold finalize_balanced in Hf. rewrite Hprofit in Hf. unfold residual_value_of in Hf. rewrite Hres, Z.eqb_refl in Hf.
  cbn [rbind] in Hf. res_inv. repeat match goal with u : unit |- _ => destruct u end.
  match goal with E : i128_checked_add _ _ = Some _ |- _ => apply i128_checked_Some in E as [-> _] end.
  eexists _, _. split; [done|]. simpl. split_and!; try done.
  - by destruct (0 <=? _).
  - unfold dex_filled. simpl. rewrite Hdex. simpl. by rewrite (proj2 (Z.eqb_neq _ _)).
  - simpl. lia.
Qed.

(** ** Termination *)
Section runs_of_the_task.
Context `{EvmText} `{TradeCodecLaws} `{OpportunityText}.
Context (world : nat -> CoordEnv) (engine : string) (receiver_alive : bool).


Lemma call_Ok {A} (f : CoordEnv -> M TradeJournal string A) d d' a :
  call world f d = (d', Ok a) ->
  f (world (d_calls d)) (d_journal d) = (d_journal d', Ok a) /\ d_events d' = d_events d.
Proof. unfold call. destruct (f _ _) as [j' r]. by intros [= <- ->]. Qed.

Lemma look_Ok id e d d' o : look id e d = (d', Ok o) -> d' = d /\ operations (d_journal d) !! id = Some o.
Proof. unfold look. intros [= <- Ho]. by apply or_err_Ok in Ho. Qed.

Lemma take_run env id j tr j' cs :
  coord_run j tr -> next_sequence j + 1 < 2 ^ 64 -> take_commands env id j = (j', Ok cs) ->
  coord_run j' (tr ++ (pair id <$> cs)) /\ next_sequence j' <= next_sequence j + 1.
Proof.
  intros Hr Hs Ht. pose proof (run_call env (OpTake id) j tr Hr Hs) as Hrun.
  pose proof (run_coord_sequence env (OpTake id) j (proj1 (all_owned_run j tr Hr)) Hs) as Hq.
  simpl in *. rewrite Ht in *. done.
Qed.

Lemma record_run env id role r j tr j' u :
  coord_run j tr -> next_sequence j + 1 < 2 ^ 64 -> record_result env id role r j = (j', u) ->
  coord_run j' tr /\ next_sequence j' <= next_sequence j + 1.
Proof.
  intros Hr Hs Ht. pose proof (run_call env (OpRecord id role r) j tr Hr Hs) as Hrun.
  pose proof (run_coord_sequence env (OpRecord id role r) j (proj1 (all_owned_run j tr Hr)) Hs) as Hq.
  simpl in *. rewrite Ht, app_nil_r in *. done.
Qed.

Lemma answer_run it id cs d d' u tr :
  coord_run (d_journal d) tr -> next_sequence (d_journal d) + Z.of_nat (length cs) < 2 ^ 64 ->
  answer world it id cs d = (d', Ok u) ->
  coord_run (d_journal d') tr /\
  next_sequence (d_journal d') <= next_sequence (d_journal d) + Z.of_nat (length cs).
Proof.
  revert d. induction cs as [|c cs IH]; intros d Hr Hs Ha; cbn [answer length] in *.
  { injection Ha as <- _. split; [done|lia]. }
  apply mbind_Ok in Ha as (d1 & r & [= <- _] & Ha). apply mbind_Ok in Ha as (d2 & u2 & Hc & Ha).
  apply call_Ok in Hc as [Hc _]. apply (record_run _ _ _ _ _ tr) in Hc as [Hr2 Hs2]; [|done|lia].
  apply IH in Ha as [Hr' Hs']; [|done|lia]. split; [done|lia].
Qed.

Lemma issued_snoc_length tr id cs :
  length (issued (tr ++ (pair id <$> cs)) id) = (length (issued tr id) + length cs)%nat.
Proof. by rewrite issued_app, decide_True, length_app. Qed.

(** Each round either ends or issues a command, and a trade has at most five. *)
Lemma drive_bounded fuel id d tr :
  coord_run (d_journal d) tr ->
  (6 <= fuel + length (issued tr id))%nat ->
  next_sequence (d_journal d) + Z.of_nat fuel + (5 - Z.of_nat (length (issued tr id))) < 2 ^ 64 ->
  (drive world engine receiver_alive fuel id d).2 <> Ok None.
Proof.
  revert d tr. induction fuel as [|fuel IH]; intros d tr Hr Hf Hs.
  { pose proof (issued_bounded _ _ id Hr). lia. }
  pose proof (issued_bounded _ _ id Hr) as H5. intros Hd.
  apply pair_result, mbind_Ok in Hd as (d1 & cs & Hc & Hd). apply call_Ok in Hc as [Hc _].
  apply (take_run _ _ _ tr) in Hc as [Hr1 Hs1]; [|done|lia]. pose proof (issued_bounded _ _ id Hr1) as H5'.
  rewrite issued_snoc_length in H5'. destruct cs as [|c cs].
  { by apply mbind_Ok in Hd as (d2 & [] & _ & [=]). }
  apply mbind_Ok in Hd as (d2 & o & Hl & Hd). apply look_Ok in Hl as [-> _].
  apply mbind_Ok in Hd as (d3 & [] & Ha & Hd).
  apply (answer_run _ _ _ _ _ _ _ Hr1) in Ha as [Hr3 Hs3]; [|lia].
  apply (f_equal snd) in Hd. apply (IH d3 _ Hr3) in Hd; [done| |]; rewrite issued_snoc_length; cbn [length] in *; lia.
Qed.

Lemma drive_terminates id d tr d' :
  coord_run (d_journal d) tr -> next_sequence (d_journal d) + 11 < 2 ^ 64 ->
  drive world engine receiver_alive drive_rounds id d = (d', Ok None) -> False.
Proof.
  intros Hr Hs Hd. apply (f_equal snd) in Hd. revert Hd. eapply drive_bounded; [exact Hr|..]; unfold drive_rounds; lia.
Qed.

Lemma appended_snapshot env o j tr j' u :
  coord_run j tr -> next_sequence j + 1 < 2 ^ 64 -> append env o j = (j', Ok u) ->
  operations j' = <[plan_id (intent o) := o]> (operations j) /\ next_sequence j' = next_sequence j + 1.
Proof.
  intros Hr Hs Ha. pose proof (proj1 (all_owned_run j tr Hr)) as Hok.
  destruct (trade_append_cases env o j Hok Hs) as [[e E]|[(pa & k & _ & _ & E)|(pa & Hp & _ & E)]];
    rewrite E in Ha; try done. injection Ha as <- _. simpl.
  destruct (prepared_facts _ _ _ _ Hok Hs Hp) as (_ & Hsn & _). by apply apply_snapshot_inv in Hsn as (-> & _).
Qed.

Lemma operation_key j tr id o : coord_run j tr -> operations j !! id = Some o -> plan_id (intent o) = id.
Proof. intros Hr. exact (oo_key _ (tj_ops _ (proj1 (all_owned_run j tr Hr))) id o). Qed.

Lemma record_Ok env id role r j tr j' u :
  coord_run j tr -> next_sequence j + 1 < 2 ^ 64 -> record_result env id role r j = (j', Ok u) ->
  exists o o', operations j !! id = Some o /\ terminal (stage o) = false /\
    place_result (clock_ms env) o role r = Ok o' /\
    operations j' = <[id := o']> (operations j) /\ next_sequence j' = next_sequence j + 1.
Proof.
  intros Hr Hs Hrec. unfold record_result in Hrec.
  apply mbind_Ok in Hrec as (j1 & [] & [= <- _] & Hrec). apply mbind_Ok in Hrec as (j2 & o & Hg & Hrec).
  unfold get_operation, operation in Hg. injection Hg as <- Hg. apply or_err_Ok in Hg.
  apply mbind_Ok in Hrec as (j3 & [] & Ht & Hrec). injection Ht as <- Ht. apply ensure_Ok, negb_true_iff in Ht.
  apply mbind_Ok in Hrec as (j4 & o' & Hp & Hrec). injection Hp as <- Hp.
  apply (appended_snapshot _ _ _ tr) in Hrec as [-> Hq]; [|done..].
  rewrite (transition_intent _ _ _ (tr_record _ _ _ _ _ Ht Hp) o eq_refl), (operation_key _ _ _ _ Hr Hg). eauto 10.
Qed.

(** The answers a trade still waits for. *)
Definition waiting (o : TradeOperation) : nat :=
  bit (dex_dispatched o && bool_decide (dex_result o = None))
  + bit (cex_dispatched o && bool_decide (cex_result o = None)) + bit (recovery_inflight o).

Lemma waiting_le o : (waiting o <= 3)%nat.
Proof.
  unfold waiting. destruct (dex_dispatched o && _), (cex_dispatched o && _), (recovery_inflight o); simpl; lia.
Qed.

Lemma place_waiting clock o role r o' : place_result clock o role r = Ok o' -> waiting o = S (waiting o').
Proof.
  unfold waiting. destruct role; simpl; intros Hp; res_inv; bool_prop; simpl.
  - by rewrite Hok, Hok0.
  - rewrite Hok, Hok0. simpl. lia.
  - apply refresh_shape in Hp as (t & -> & _). simpl. rewrite Hok. simpl. lia.
Qed.

Lemma resume_answers_bounded fuel id d d' r tr :
  coord_run (d_journal d) tr ->
  (forall o, operations (d_journal d) !! id = Some o -> (waiting o < fuel)%nat) -> (0 < fuel)%nat ->
  next_sequence (d_journal d) + Z.of_nat fuel < 2 ^ 64 ->
  resume_answers world fuel id d = (d', Ok r) ->
  r = Some tt /\ coord_run (d_journal d') tr /\
  next_sequence (d_journal d') <= next_sequence (d_journal d) + Z.of_nat fuel - 1.
Proof.
  revert d. induction fuel as [|fuel IH]; intros d Hr Hw Hf Hs Ha; [lia|]. cbn [resume_answers] in Ha.
  apply mbind_Ok in Ha as (d1 & c & Hc & Ha). unfold resume_next in Hc. apply call_Ok in Hc as [Hc _]. injection Hc as Hj Hc.
  destruct c as [c|]; cycle 1.
  { injection Ha as <- <-. rewrite <- Hj. split_and!; [done..|lia]. }
  apply mbind_Ok in Ha as (d2 & o & Hl & Ha). apply look_Ok in Hl as [-> Ho]. rewrite <- Hj in Ho.
  apply mbind_Ok in Ha as (d3 & [role l] & [= <- _] & Ha). apply mbind_Ok in Ha as (d4 & [] & Hrec & Ha).
  apply call_Ok in Hrec as [Hrec _]. rewrite <- Hj in Hrec.
  pose proof (record_run _ _ _ _ _ tr _ _ Hr ltac:(lia) Hrec) as [Hr4 Hs4].
  apply (record_Ok _ _ _ _ _ tr) in Hrec as (o1 & o' & Ho1 & _ & Hp & Hops & _); [|done|lia].
  rewrite Ho in Ho1. injection Ho1 as <-. apply place_waiting in Hp. pose proof (Hw o Ho).
  destruct (IH d4 Hr4) as (-> & Hr' & Hs'); [|lia|lia|done|split_and!; [done..|lia]].
  intros o2. rewrite Hops, lookup_insert_eq. intros [= <-]. lia.
Qed.

(** A failure before the trade is recorded has no operation to take the pair of the
    event from, so the rejection is not published and the error ends the task. *)
Lemma unrecorded_failure_ends_task m o d d' e :
  execute world engine receiver_alive m o d = (d', Err e) ->
  operations (d_journal d') !! opportunity_plan_id o = None ->
  run_one world engine receiver_alive m o d = (d', Err "paper trade event operation is missing"%string).
Proof. intros He Hn. unfold run_one, publish_event, look, mbind'. rewrite He. by rewrite Hn. Qed.

(** The paper task never loops: on the journal of any run, with any clocks and
    write faults, resuming a trade needs at most three recorded answers before
    its dispatches are settled, and resuming or executing then ends within six
    rounds of commands, with the trade's event or an error. *)
Theorem paper_loops_terminate tr id m o d :
  coord_run (d_journal d) tr -> next_sequence (d_journal d) + 15 < 2 ^ 64 ->
  (resume_plan world engine receiver_alive id d).2 <> Ok None /\
  (execute world engine receiver_alive m o d).2 <> Ok None /\
  (run_one world engine receiver_alive m o d).2 <> Ok None.
Proof.
  intros Hr Hs. assert (Hex : (execute world engine receiver_alive m o d).2 <> Ok None).
  { intros He. apply pair_result, mbind_Ok in He as (d1 & [] & [= <- _] & He).
    apply mbind_Ok in He as (d2 & [] & Hc & He). apply call_Ok in Hc as [Hc _].
    pose proof (run_call (world (d_calls d)) (OpAdmit (opportunity_intent o m)) _ tr Hr ltac:(lia)) as Hr2.
    pose proof (run_coord_sequence (world (d_calls d)) (OpAdmit (opportunity_intent o m)) _
      (proj1 (all_owned_run _ tr Hr)) ltac:(lia)) as Hs2.
    cbn [run_coord fst snd] in Hr2, Hs2. rewrite Hc in Hr2, Hs2. rewrite app_nil_r in Hr2. cbn [fst] in Hr2, Hs2.
    eapply drive_terminates; [exact Hr2|lia|exact He]. }
  split_and!; [|done|].
  - intros He. apply pair_result, mbind_Ok in He as (d1 & r & Ha & He).
    apply (resume_answers_bounded _ _ _ _ _ tr) in Ha as (-> & Hr1 & Hs1);
      [|done|intros o' _; pose proof (waiting_le o'); unfold resume_rounds; lia|unfold resume_rounds; lia..].
    eapply drive_terminates; [exact Hr1| |exact He]. unfold resume_rounds in *. lia.
  - unfold run_one. destruct (execute _ _ _ m o d) as [d' [r|e]]; [done|].
    intros He. by apply pair_result, mbind_Ok in He as (? & [] & _ & [=]).
Qed.

Lemma take_Ok env id j tr j' cs :
  coord_run j tr -> next_sequence j + 1 < 2 ^ 64 -> take_commands env id j = (j', Ok cs) ->
  exists o next, operations j !! id = Some o /\ decide_commands (clock_ms env) o = Ok (cs, next) /\
    operations j' !! id = Some (default o next).
Proof.
  intros Hr Hs Ht. unfold take_commands in Ht. apply mbind_Ok in Ht as (j1 & o & Hg & Ht).
  unfold get_operation, operation in Hg. injection Hg as <- Hg. apply or_err_Ok in Hg.
  apply mbind_Ok in Ht as (j2 & [cs' [o'|]] & [= <- Hd] & Ht).
  - apply mbind_Ok in Ht as (j3 & [] & Ha & [= <- <-]). apply (appended_snapshot _ _ _ tr) in Ha as [Hops _]; [|done..].
    pose proof (transition_intent _ _ _ (tr_decide _ _ _ _ Hd) o eq_refl) as Hi.
    rewrite Hi, (operation_key _ _ _ _ Hr Hg) in Hops. exists o, (Some o'). rewrite Hops. simpl.
    split_and!; [done..|apply lookup_insert_eq].
  - injection Ht as <- <-. by exists o, None.
Qed.

(** The driver stands at a snapshot of the trade, with [n] more calls left to
    number. *)
Record at_snapshot (id : string) (events : list PaperTradeEvent) (n : Z) (o : TradeOperation) (d : Driver)
  : Prop := {
  as_run : exists tr, coord_run (d_journal d) tr;
  as_room : next_sequence (d_journal d) + n < 2 ^ 64;
  as_operation : operations (d_journal d) !! id = Some o;
  as_events : d_events d = events;
}.

Lemma at_weaken id ev n n' o d : at_snapshot id ev n o d -> n' <= n -> at_snapshot id ev n' o d.
Proof. intros [Hr Hs Ho He] Hn. split; [done|lia|done..]. Qed.

Lemma drive_round id ev n o fuel d d' r :
  at_snapshot id ev n o d -> 1 <= n -> drive world engine receiver_alive (S fuel) id d = (d', Ok r) ->
  exists clock cs next d1, decide_commands clock o = Ok (cs, next) /\
    at_snapshot id ev (n - 1) (default o next) d1 /\
    match cs with
    | [] => report engine receiver_alive id d1 = (d', Ok tt) /\ r = Some tt
    | _ => exists d2, answer world (intent (default o next)) id cs d1 = (d2, Ok tt) /\
                      drive world engine receiver_alive fuel id d2 = (d', Ok r)
    end.
Proof.
  intros [[tr Hr] Hs Ho He] Hn Hd. cbn [drive] in Hd. apply mbind_Ok in Hd as (d1 & cs & Hc & Hd).
  apply call_Ok in Hc as [Hc Hev].
  pose proof (take_run _ _ _ tr _ _ Hr ltac:(lia) Hc) as [Hr1 Hs1].
  apply (take_Ok _ _ _ tr) in Hc as (o1 & next & Ho1 & Hdec & Ho2); [|done|lia].
  rewrite Ho in Ho1. injection Ho1 as <-. exists (clock_ms (world (d_calls d))), cs, next, d1. split; [done|].
  split; [split; [by eexists|lia|done|congruence]|]. destruct cs as [|c cs].
  - apply mbind_Ok in Hd as (d2 & [] & Hrep & [= <- <-]). done.
  - apply mbind_Ok in Hd as (d2 & o2 & Hl & Hd). apply look_Ok in Hl as [-> Hl]. rewrite Ho2 in Hl.
    injection Hl as <-. apply mbind_Ok in Hd as (d2 & [] & Ha & Hd). eauto.
Qed.

Lemma answer_step id ev n o it c cs d d' u :
  at_snapshot id ev n o d -> 1 <= n -> answer world it id (c :: cs) d = (d', Ok u) ->
  exists clock role l o' d1, simulate_command it c = Ok (role, l) /\ place_result clock o role l = Ok o' /\
    at_snapshot id ev (n - 1) o' d1 /\ answer world it id cs d1 = (d', Ok u).
Proof.
  intros [[tr Hr] Hs Ho He] Hn Ha. cbn [answer] in Ha.
  apply mbind_Ok in Ha as (d1 & [role l] & [= <- Hsim] & Ha). apply mbind_Ok in Ha as (d2 & [] & Hrec & Ha).
  apply call_Ok in Hrec as [Hrec Hev]. pose proof (record_run _ _ _ _ _ tr _ _ Hr ltac:(lia) Hrec) as [Hr2 Hs2].
  apply (record_Ok _ _ _ _ _ tr) in Hrec as (o1 & o' & Ho1 & _ & Hp & Hops & _); [|done|lia].
  rewrite Ho in Ho1. injection Ho1 as <-. eexists _, role, l, o', d2. split_and!; [done..| |done].
  split; [by eexists|lia|by rewrite Hops, lookup_insert_eq|congruence].
Qed.

Lemma report_final id ev n o d d' r :
  at_snapshot id ev n o d -> final_result o = Some r -> report engine receiver_alive id d = (d', Ok tt) ->
  operations (d_journal d') !! id = Some o /\
  d_events d' = ev ++ [mkPaperEvent id (pair_id (intent o)) Balanced (dex_filled o)].
Proof.
  intros [_ _ Ho He] Hf Hrep. unfold report in Hrep. apply mbind_Ok in Hrep as (d1 & o1 & Hl & Hrep).
  apply look_Ok in Hl as [-> Hl]. rewrite Ho in Hl. injection Hl as <-. rewrite Hf in Hrep. simpl in Hrep.
  apply mbind_Ok in Hrep as (d2 & [] & [= <- _] & Hrep). unfold publish_event in Hrep.
  apply mbind_Ok in Hrep as (d3 & o2 & Hl & Hrep). apply look_Ok in Hl as [-> Hl]. rewrite Ho in Hl.
  injection Hl as <-. apply mbind_Ok in Hrep as (d4 & [] & [= <- _] & Hrep). injection Hrep as <-. simpl.
  by rewrite He.
Qed.

Lemma simulate_dex it b role l :
  paper_amounts it -> simulate_command it (dex_command it b) = Ok (role, l) ->
  role = Dex /\ exists reference, l = paper_fill None (planned_delta it) (dex_income it) reference.
Proof.
  intros Ha [= <- <-]. split; [done|]. eexists. f_equal. unfold dex_income.
  destruct (direction it); [|done]. apply pos_neg, Ha.
Qed.

Lemma simulate_primary it order price role l :
  paper_amounts it -> simulate_command it (DispatchCex order (- planned_delta it) price) = Ok (role, l) ->
  role = Cex /\
  exists reference, l = paper_fill (Some (- planned_delta it)) (- planned_delta it) (cex_income it) reference.
Proof.
  intros Ha Hs. cbn [simulate_command] in Hs. res_inv. split; [done|]. by eapply simulated_primary.
Qed.

(** Both modes reach the hedged snapshot after four calls. *)
Lemma prepared_hedges id ev n it d d' r :
  paper_amounts it -> 6 <= n -> at_snapshot id ev n (prepared it) d ->
  drive world engine receiver_alive drive_rounds id d = (d', Ok r) ->
  exists o fuel d1, hedged it o /\ at_snapshot id ev (n - 4) o d1 /\
    drive world engine receiver_alive (S fuel) id d1 = (d', Ok r).
Proof.
  intros Ha Hn Hat Hd. destruct (planned_delta_bounds it Ha) as (Hnz & _ & Hneg).
  apply (drive_round _ _ _ _ _ _ _ _ Hat ltac:(lia)) in Hd as (clock & cs & next & d1 & Hdec & Hat1 & Hd).
  unfold decide_commands in Hdec. cbn in Hdec. destruct (mode it) eqn:Hm; injection Hdec as <- <-;
    destruct Hd as (d2 & Hans & Hd); cbn [default intent set_dispatched prepared] in *;
    apply (answer_step _ _ _ _ _ _ _ _ _ _ Hat1 ltac:(lia))
      in Hans as (ck & role & l & o2 & d3 & Hsim & Hp & Hat3 & Hans);
    apply simulate_dex in Hsim as [-> [x ->]]; [|done|..|done];
    cbn in Hp; injection Hp as <-.
  - cbn [answer] in Hans. injection Hans as <-.
    apply (drive_round _ _ _ _ _ _ _ _ Hat3 ltac:(lia)) in Hd as (ck2 & cs & next & d4 & Hdec & Hat4 & Hd).
    unfold decide_commands in Hdec. cbn in Hdec. rewrite Hm, (proj2 (Z.eqb_neq _ _) Hnz), Hneg in Hdec.
    injection Hdec as <- <-. destruct Hd as (d5 & Hans & Hd). cbn [default intent set_dispatched set_results] in *.
    apply (answer_step _ _ _ _ _ _ _ _ _ _ Hat4 ltac:(lia))
      in Hans as (ck3 & role & l & o3 & d6 & Hsim & Hp & Hat6 & Hans).
    apply simulate_primary in Hsim as [-> [y ->]]; [|done]. cbn in Hp. injection Hp as <-.
    cbn [answer] in Hans. injection Hans as <-.
    eexists _, _, d6. split; [|split; [eapply (at_weaken _ _ _ _ _ _ Hat6); lia|exact Hd]].
    split; cbn; try done; by eexists.
  - rewrite Hneg in Hans.
    apply (answer_step _ _ _ _ _ _ _ _ _ _ Hat3 ltac:(lia))
      in Hans as (ck3 & role & l & o3 & d6 & Hsim & Hp & Hat6 & Hans).
    apply simulate_primary in Hsim as [-> [y ->]]; [|done]. cbn in Hp. injection Hp as <-.
    cbn [answer] in Hans. injection Hans as <-.
    eexists _, _, d6. split; [|split; [eapply (at_weaken _ _ _ _ _ _ Hat6); lia|exact Hd]].
    split; cbn; try done; by eexists.
Qed.

(** An opportunity the paper task executes earns what it promised: when
    [execute] returns, in either mode and whatever the clocks, the trade is
    settled with no token-B residual and a comparable profit of exactly expected
    proceeds minus expected cost, and one balanced event is published for it. *)
Theorem paper_trade_earns_plan tr m o d d' r :
  coord_run (d_journal d) tr -> next_sequence (d_journal d) + 15 < 2 ^ 64 ->
  op_token_b o <= I128_MAX -> op_cost_token_a o <= I128_MAX -> op_proceeds_token_a o <= I128_MAX ->
  execute world engine receiver_alive m o d = (d', Ok r) ->
  let id := opportunity_plan_id o in
  exists t result, operations (d_journal d') !! id = Some t /\
    intent t = opportunity_intent o m /\ terminal (stage t) = true /\
    final_result t = Some result /\ residual_token_b result = 0 /\
    comparable_profit result = op_proceeds_token_a o - op_cost_token_a o /\
    d_events d' = d_events d ++ [mkPaperEvent id (op_pair_id o) Balanced true].
Proof.
  intros Hr Hs Hb Hc Hp He. cbv zeta. unfold execute in He.
  apply mbind_Ok in He as (d1 & [] & [= <- Hv] & He). apply mbind_Ok in He as (d2 & [] & Hadm & He).
  apply call_Ok in Hadm as [Hadm Hev]. set (it := opportunity_intent o m) in *.
  assert (Ha : paper_amounts it).
  { unfold validate_opportunity in Hv. res_inv. bool_prop. split; simpl; lia. }
  pose proof (run_call (world (d_calls d)) (OpAdmit it) _ tr Hr ltac:(lia)) as Hr2. cbn [run_coord] in Hr2.
  rewrite Hadm in Hr2. cbn [fst snd] in Hr2. unfold admit_trade in Hadm.
  apply mbind_Ok in Hadm as (j1 & [] & [= <- _] & Hadm). apply mbind_Ok in Hadm as (j2 & [] & [= <- _] & Hadm).
  apply mbind_Ok in Hadm as (j3 & jj & [= <- <-] & Hadm). apply mbind_Ok in Hadm as (j4 & [] & [= <- _] & Hadm).
  unfold record_intent in Hadm. case_bool_decide; [done|].
  apply (appended_snapshot _ _ _ tr) in Hadm as [Hops Hseq]; [|done|lia]. cbn [prepared intent] in Hops.
  assert (Hat : at_snapshot (opportunity_plan_id o) (d_events d) 14 (prepared it) d2).
  { split; [by eexists|lia|rewrite Hops; apply lookup_insert_eq|done]. }
  apply (prepared_hedges _ _ 14 it d2 d' r Ha ltac:(lia) Hat) in He as (h & fuel & d3 & Hh & Hat3 & He).
  apply (drive_round _ _ _ _ _ _ _ _ Hat3 ltac:(lia)) in He as (ck & cs & next & d4 & Hdec & Hat4 & He).
  destruct (hedged_settles it h ck cs next Ha Hh Hdec) as (-> & t & result & -> & Hi & Ht & Hf & Hres & Hfill & Hprof).
  destruct He as [He _]. destruct (report_final _ _ _ _ _ _ _ Hat4 Hf He) as [Hop Hev']. simpl in Hop, Hev'.
  exists t, result. split_and!; try done. by rewrite Hev', Hi, Hfill.
Qed.
End runs_of_the_task.
