(* ===== verification/OpportunityDemo.v ===== *)
(** * Concrete opportunities

    A digest of constant bytes, two strategies' opportunities, and the theorems on
    identifiers, the mailbox and the paper task applied to them. *)
From Stdlib Require Import Lia.
From stdpp Require Import base gmap strings numbers list fin_maps pretty.
From S2P Require Import Prelude Decimals LineLog ExecutionPlan TradeData TradeJournal Coordinator CoordinatorRuns TradeDemo PaperOpportunity Mailbox PaperDriver.

#[global] Instance demo_digest : OpportunityText := {
  opportunity_json := fun o => string_bytes (op_pair_id o);
  sha256 := fun bs => repeat (Z.of_nat (length bs) mod 256) 32;
}.
#[global] Instance demo_digest_laws : OpportunityTextLaws.
Proof.
  constructor; intros bs; [done|]. apply Forall_forall. intros b Hb. apply list_elem_of_In, repeat_spec in Hb as ->.
  apply Z.mod_pos_bound. lia.
Qed.

Definition demo_opportunity (pair : string) (update : Z) : PaperOpportunity :=
  mkOpportunity "rev" pair "SYM" update 5 6 BuyTokenBOnDexSellOnCex 0 3 0 100 10 50 60 demo_admission demo_plan.
Definition op_x : PaperOpportunity := demo_opportunity "x" 7.
Definition op_y : PaperOpportunity := demo_opportunity "y" 8.

Lemma opportunity_identifiers_accepted_witness :
  opportunity_plan_id op_x = "paper-5-7-0101010101010101-ds"%string /\
  validate_intent (opportunity_intent op_x ConcurrentHedged) = Ok tt.
Proof.
  split; [vm_compute; reflexivity|].
  exact (proj1 (opportunity_identifiers_accepted op_x ConcurrentHedged eq_refl
                  ltac:(vm_compute; split; congruence) ltac:(vm_compute; split; congruence))).
Defined.

(** ** The mailbox: [x] is replaced in place while [y] waits behind it *)
Lemma channel_ok l : mailbox_ok (channel l).
Proof.
  split; simpl; [apply NoDup_nil_2| |done].
  intros k. rewrite lookup_empty. split; [by intros ?%elem_of_nil|by intros [? ?]].
Qed.

Definition demo_mailbox_ops : list MailboxOp :=
  [Submit op_x; Submit op_y; Submit (demo_opportunity "x" 9); Recv; Recv; Finish; Recv].

Lemma mailbox_refines_queue_witness :
  dispatched (snd (runs mailbox_step (channel Available) demo_mailbox_ops)) = [demo_opportunity "x" 9; op_y] /\
  runs queue_step (abstract_queue (channel Available)) demo_mailbox_ops
    = (abstract_queue (fst (runs mailbox_step (channel Available) demo_mailbox_ops)),
       snd (runs mailbox_step (channel Available) demo_mailbox_ops)).
Proof.
  split; [vm_compute; reflexivity|].
  exact (proj1 (mailbox_refines_queue (channel Available) demo_mailbox_ops (channel_ok Available))).
Defined.

Definition two_pending : Mailbox := fst (runs mailbox_step (channel Available) [Submit op_x; Submit op_y]).
Lemma two_pending_ok : mailbox_ok two_pending.
Proof.
  apply (step_refines (fst (try_submit op_x (channel Available))) (Submit op_y)).
  apply (step_refines (channel Available) (Submit op_x)), channel_ok.
Qed.

Lemma pending_not_overtaken_witness :
  round_robin two_pending !! 1%nat = Some "y"%string /\
  (length (dispatched (snd (runs mailbox_step two_pending [Recv; Submit (demo_opportunity "x" 9); Finish]))) <= 1)%nat.
Proof.
  split; [vm_compute; reflexivity|].
  refine (proj1 (pending_not_overtaken two_pending [Recv; Submit (demo_opportunity "x" 9); Finish] 1 "y"
                   two_pending_ok _ _ _)).
  - vm_compute; reflexivity.
  - vm_compute; reflexivity.
  - apply (bool_decide_unpack _). vm_compute. exact I.
Defined.

(** ** The paper task *)
Definition paper_intent : TradeIntent := opportunity_intent op_x DexFirst.
Definition fill_with (c : CoordinatorCommand) (o : TradeOperation) : TradeOperation :=
  match simulate_command paper_intent c with Ok (role, r) => place_ok role r o | Err _ => o end.
Definition first_command (o : TradeOperation) : CoordinatorCommand :=
  match decide_commands (Ok 1000) o with Ok (c :: _, _) => c | _ => RecoverCex 0 0 end.

Definition p0 : TradeOperation := prepared paper_intent.
Definition p1 := decide_ok p0.
Definition p2 := fill_with (first_command p0) p1.
Definition p3 := decide_ok p2.
Definition p4 := fill_with (first_command p2) p3.
Definition p5 := decide_ok p4.

Definition paper_catalogue : list TradePayload :=
  imap (fun n o => mkTradePayload 1 (Z.of_nat n) 1000 o) [p0; p1; p2; p3; p4; p5].
#[global] Instance paper_codec : TradeCodec := catalogue_codec paper_catalogue.
#[global] Instance paper_laws : TradeCodecLaws := catalogue_laws paper_catalogue.

Definition steady : nat -> CoordEnv := fun _ => demo_env.
Definition idle_driver : Driver := mkDriver empty_journal 0 [].
Lemma idle_run : coord_run (d_journal idle_driver) [].
Proof. apply run_start. vm_compute. reflexivity. Qed.

Definition after_paper : Driver := fst (execute steady "engine" true DexFirst op_x idle_driver).
Lemma after_paper_run : execute steady "engine" true DexFirst op_x idle_driver = (after_paper, Ok (Some tt)).
Proof. vm_compute. reflexivity. Qed.

Lemma paper_trade_earns_plan_witness :
  d_events after_paper = [mkPaperEvent (opportunity_plan_id op_x) "x" Balanced true].
Proof.
  destruct (paper_trade_earns_plan steady "engine" true [] DexFirst op_x idle_driver after_paper (Some tt) idle_run
    eq_refl ltac:(vm_compute; congruence) ltac:(vm_compute; congruence) ltac:(vm_compute; congruence)
    after_paper_run) as (t & r & _ & _ & _ & _ & _ & _ & He).
  exact He.
Defined.

Lemma paper_loops_terminate_witness :
  snd (resume_plan steady "engine" true "missing" idle_driver) <> Ok None.
Proof.
  exact (proj1 (paper_loops_terminate steady "engine" true [] "missing" DexFirst op_x idle_driver idle_run eq_refl)).
Defined.

(** A valid opportunity below its threshold is refused at admission, and the task
    stops instead of reporting the rejection. *)
Definition op_below : PaperOpportunity :=
  mkOpportunity "rev" "x" "SYM" 7 5 6 BuyTokenBOnDexSellOnCex 0 3 0 100 10 50 60
    (mkAdmission false 5 (Some "top_of_book_only"%string) None None (Some true) None 10 (mkDecimal 60 2)
       (mkDecimal 100 0) (mkDecimal 59 2) None None 55 54 56 10 7 (mkDecimal 2 0) 3 1) demo_plan.

Lemma rejected_opportunity_ends_task :
  validate_opportunity op_below = Ok tt /\
  run_one steady "engine" true DexFirst op_below idle_driver
    = (mkDriver empty_journal 1 [], Err "paper trade event operation is missing"%string).
Proof.
  split; [vm_compute; reflexivity|].
  apply (unrecorded_failure_ends_task steady "engine" true DexFirst op_below idle_driver _
           "opportunity threshold must be met before admission"); vm_compute; reflexivity.
Qed.
