(* ===== verification/Depth.v ===== *)
(** * The Binance depth book ([src/src/binance/depth.rs])

    One side of the book is the [BTreeMap] of the code: a list of price levels
    in ascending order of price by value, where inserting at an equal price
    keeps the stored key.  The file models hydration, sequence-checked updates
    with the partial effect of a failing one, top reconciliation and market
    quotes; it proves that a synchronized book is the exchange's book as deep as its
    snapshot went, and that a market quote is exact and optimal. *)
From Stdlib Require Import Lia Sorted.
From stdpp Require Import base strings numbers list sorting.
From S2P Require Import Prelude Decimals.

Abbreviation DRes := (result string).

Record DepthLevel := mkLevel { lv_price : Decimal; lv_quantity : Decimal }.
Record DepthSnapshot := mkSnapshot {
  snap_last_update_id : Z; snap_bids : list DepthLevel; snap_asks : list DepthLevel;
}.
Record DepthUpdate := mkUpdate {
  upd_symbol : string; event_time_ms : Z; first_update_id : Z; final_update_id : Z;
  upd_bids : list DepthLevel; upd_asks : list DepthLevel;
}.
Inductive DepthApplyResult := Applied | Stale.
Record DepthExecutionQuote := mkQuote {
  base_quantity : Decimal; quote_quantity : Decimal; worst_price : Decimal; levels_consumed : Z;
}.

Abbreviation Side := (list (Decimal * Decimal)).
Record SpotDepthBook := mkBook {
  symbol : string; last_update_id : Z; bids : Side; asks : Side;
}.

(** ** The ordered map *)
Fixpoint level_insert (p q : Decimal) (l : Side) : Side :=
  match l with
  | [] => [(p, q)]
  | (p', q') :: l' =>
      if dec_ltb p p' then (p, q) :: l
      else if dec_eqb p p' then (p', q) :: l' else (p', q') :: level_insert p q l'
  end.

Fixpoint level_remove (p : Decimal) (l : Side) : Side :=
  match l with
  | [] => []
  | (p', q') :: l' => if dec_eqb p p' then l' else (p', q') :: level_remove p l'
  end.

Fixpoint level_get (p : Decimal) (l : Side) : option Decimal :=
  match l with
  | [] => None
  | (p', q') :: l' => if dec_eqb p p' then Some q' else level_get p l'
  end.

Definition best_bid (b : SpotDepthBook) : option DepthLevel :=
  (fun x => mkLevel x.1 x.2) <$> last (bids b).
Definition best_ask (b : SpotDepthBook) : option DepthLevel :=
  (fun x => mkLevel x.1 x.2) <$> head (asks b).

(** ** Validation *)
Definition validate_level (lv : DepthLevel) (allow_zero_quantity : bool) : DRes unit :=
  ensure! dec_ltb dec_zero (lv_price lv) else "depth price must be positive" ;;
  if allow_zero_quantity
  then ensure (dec_leb dec_zero (lv_quantity lv)) "depth quantity must not be negative"%string
  else ensure (dec_ltb dec_zero (lv_quantity lv)) "snapshot depth quantity must be positive"%string.

Definition symbol_byte (c : Ascii.ascii) : bool := byte_in 65 90 c || byte_in 48 57 c.
Definition validate_symbol (s : string) : DRes unit :=
  ensure (negb (str_is_empty s) && bytes_all symbol_byte s) "Binance depth symbol is invalid"%string.

Definition validate_top (b : SpotDepthBook) : DRes unit :=
  let? bid := or_err (best_bid b) "Binance depth has no bids" in
  let? ask := or_err (best_ask b) "Binance depth has no asks" in
  ensure (dec_ltb (lv_price bid) (lv_price ask)) "Binance depth book is crossed"%string.

(** ** Hydration *)
Fixpoint insert_all (levels : list DepthLevel) (l : Side) : DRes Side :=
  match levels with
  | [] => Ok l
  | lv :: levels' =>
      let? _ := validate_level lv false in
      ensure! bool_decide (level_get (lv_price lv) l = None) else "duplicate depth snapshot price" ;;
      insert_all levels' (level_insert (lv_price lv) (lv_quantity lv) l)
  end.

Definition replace_levels (levels : list DepthLevel) : DRes Side := insert_all levels [].

Definition from_snapshot (sym : string) (s : DepthSnapshot) : DRes SpotDepthBook :=
  let? _ := validate_symbol sym in
  ensure! 0 <? snap_last_update_id s else "depth snapshot update ID is zero" ;;
  let? b := replace_levels (snap_bids s) in
  let? a := replace_levels (snap_asks s) in
  let book := mkBook sym (snap_last_update_id s) b a in
  let? _ := validate_top book in
  Ok book.

Definition from_top (sym : string) (id : Z) (bp bq ap aq : Decimal) : DRes SpotDepthBook :=
  from_snapshot sym (mkSnapshot id [mkLevel bp bq] [mkLevel ap aq]).

Definition matches_top (b : SpotDepthBook) (sym : string) (id : Z) (bp bq ap aq : Decimal) : bool :=
  bool_decide (symbol b = sym) && (id <=? last_update_id b)
  && match best_bid b with
     | Some lv => dec_eqb (lv_price lv) bp && dec_eqb (lv_quantity lv) bq
     | None => false
     end
  && match best_ask b with
     | Some lv => dec_eqb (lv_price lv) ap && dec_eqb (lv_quantity lv) aq
     | None => false
     end.

Definition reconciled_with_top (b : SpotDepthBook) (id : Z) (bp bq ap aq : Decimal)
  : DRes SpotDepthBook :=
  let kept_bids := filter (fun x => dec_leb x.1 bp = true) (bids b) in
  let kept_asks := filter (fun x => dec_leb ap x.1 = true) (asks b) in
  let book := mkBook (symbol b) id (level_insert bp bq kept_bids) (level_insert ap aq kept_asks) in
  let? _ := validate_top book in
  Ok book.

(** ** Updates

    A failing update keeps the levels it has already written. *)
Definition apply_level (lv : DepthLevel) (l : Side) : Side :=
  if mantissa (lv_quantity lv) =? 0 then level_remove (lv_price lv) l
  else level_insert (lv_price lv) (lv_quantity lv) l.

Fixpoint apply_levels (levels : list DepthLevel) : M Side string unit :=
  fun l =>
    match levels with
    | [] => (l, Ok tt)
    | lv :: levels' =>
        match validate_level lv true with
        | Err e => (l, Err e)
        | Ok _ => apply_levels levels' (apply_level lv l)
        end
    end.

Definition set_bids (b : SpotDepthBook) (l : Side) : SpotDepthBook :=
  mkBook (symbol b) (last_update_id b) l (asks b).
Definition set_asks (b : SpotDepthBook) (l : Side) : SpotDepthBook :=
  mkBook (symbol b) (last_update_id b) (bids b) l.
Definition set_last (b : SpotDepthBook) (id : Z) : SpotDepthBook :=
  mkBook (symbol b) id (bids b) (asks b).

Definition on_bids (m : M Side string unit) : M SpotDepthBook string unit :=
  fun b => let '(l, r) := m (bids b) in (set_bids b l, r).
Definition on_asks (m : M Side string unit) : M SpotDepthBook string unit :=
  fun b => let '(l, r) := m (asks b) in (set_asks b l, r).

Definition apply_depth (u : DepthUpdate) : M SpotDepthBook string DepthApplyResult :=
  do b <- mget ;;
  do! mlift (ensure (bool_decide (upd_symbol u = symbol b)) "depth update symbol mismatch"%string) ;;
  do! mlift (ensure (first_update_id u <=? final_update_id u)
               "depth update ID range is reversed"%string) ;;
  if final_update_id u <=? last_update_id b then mret Stale else
  do expected <- mlift (or_err (checked_add 64 (last_update_id b) 1) "depth update ID overflow"%string) ;;
  do! mlift (ensure ((first_update_id u <=? expected) && (expected <=? final_update_id u))
               "Binance depth gap"%string) ;;
  do! on_bids (apply_levels (upd_bids u)) ;;
  do! on_asks (apply_levels (upd_asks u)) ;;
  do b' <- mget ;;
  do! mput (set_last b' (final_update_id u)) ;;
  do b'' <- mget ;;
  do! mlift (validate_top b'') ;;
  mret Applied.

(** ** Market quotes *)
Section quotes.
Context `{DecimalArith}.

(** [Ord::min]: the first argument unless the second is smaller. *)
Definition dec_min (a b : Decimal) : Decimal := if dec_ltb b a then b else a.

Fixpoint quote_loop (levels : Side) (base remaining total : Decimal) (consumed : Z)
  : DRes (option DepthExecutionQuote) :=
  match levels with
  | [] => Ok None
  | (price, available) :: levels' =>
      let taken := dec_min remaining available in
      let? product := or_err (dec_checked_mul taken price) "depth quote multiplication overflow" in
      let? total' := or_err (dec_checked_add total product) "depth quote sum overflow" in
      let? remaining' := or_err (dec_checked_sub remaining taken)
                           "depth quote remaining quantity underflow" in
      let consumed' := saturating_add 64 consumed 1 in
      if mantissa remaining' =? 0 then Ok (Some (mkQuote base total' price consumed'))
      else quote_loop levels' base remaining' total' consumed'
  end.

Definition quote_levels (levels : Side) (base : Decimal) : DRes (option DepthExecutionQuote) :=
  ensure! dec_ltb dec_zero base else "base quantity must be positive" ;;
  quote_loop levels base base dec_zero 0.

Definition quote_market_sell (b : SpotDepthBook) (base : Decimal)
  : DRes (option DepthExecutionQuote) := quote_levels (rev (bids b)) base.
Definition quote_market_buy (b : SpotDepthBook) (base : Decimal)
  : DRes (option DepthExecutionQuote) := quote_levels (asks b) base.
End quotes.

(** ** The map laws *)
Definition level_ok (x : Decimal * Decimal) : Prop :=
  decimal_ok x.1 /\ decimal_ok x.2 /\ 0 < mantissa x.1 /\ 0 < mantissa x.2.
Definition below (a b : Decimal * Decimal) : Prop := ticks a.1 < ticks b.1.
Record side_ok (l : Side) : Prop := {
  so_sorted : StronglySorted below l;
  so_levels : Forall level_ok l;
}.

(** The quantity offered at a price, given in ticks. *)
Fixpoint offered (t : Z) (l : Side) : option Decimal :=
  match l with
  | [] => None
  | (p, q) :: l' => if t =? ticks p then Some q else offered t l'
  end.

Lemma dec_eqb_ticks a b : decimal_ok a -> decimal_ok b -> dec_eqb a b = (ticks a =? ticks b).
Proof. intros Ha Hb. by apply dec_eqb_units; apply decimal_on_grid. Qed.
Lemma dec_ltb_ticks a b : decimal_ok a -> decimal_ok b -> dec_ltb a b = (ticks a <? ticks b).
Proof. intros Ha Hb. by apply dec_ltb_units; apply decimal_on_grid. Qed.
Lemma dec_leb_ticks a b : decimal_ok a -> decimal_ok b -> dec_leb a b = (ticks a <=? ticks b).
Proof. intros Ha Hb. by apply dec_leb_units; apply decimal_on_grid. Qed.

Lemma level_get_offered p l :
  decimal_ok p -> Forall level_ok l -> level_get p l = offered (ticks p) l.
Proof.
  intros Hp. induction l as [|[p' q'] l IH]; intros Hl; [done|]. inversion Hl as [|? ? (Hp' & _) Hl']; subst.
  simpl. rewrite dec_eqb_ticks by done. destruct (_ =? _); [done|]. by apply IH.
Qed.

Lemma offered_above t l x :
  StronglySorted below (x :: l) -> t <= ticks x.1 -> offered t l = None.
Proof.
  intros Hs Ht. apply StronglySorted_inv in Hs as [_ Hall]. induction l as [|[p q] l IH]; [done|].
  apply Forall_cons in Hall as [Hb Hall]. unfold below in Hb. simpl in *.
  rewrite (proj2 (Z.eqb_neq _ _)) by lia. by apply IH.
Qed.

Lemma Forall_insert (P : Decimal * Decimal -> Prop) p q l :
  P (p, q) -> (forall p', dec_eqb p p' = true -> (exists q', (p', q') ∈ l) -> P (p', q)) ->
  Forall P l -> Forall P (level_insert p q l).
Proof.
  intros Hpq Heq. induction l as [|[p' q'] l IH]; intros Hl; simpl; [by repeat constructor|].
  apply Forall_cons in Hl as [Hx Hl]. destruct (dec_ltb p p'); [by repeat constructor|].
  destruct (dec_eqb p p') eqn:E; constructor; try done.
  - apply Heq; [done|]. exists q'. by left.
  - apply IH; [|done]. intros p0 Hp0 (q0 & Hin). apply Heq; [done|]. exists q0. by right.
Qed.

Lemma level_insert_ok p q l :
  decimal_ok p -> decimal_ok q -> 0 < mantissa p -> 0 < mantissa q -> side_ok l ->
  side_ok (level_insert p q l) /\
  forall t, offered t (level_insert p q l) = if t =? ticks p then Some q else offered t l.
Proof.
  intros Hp Hq Mp Mq [Hs Hl]. assert (Hlv : Forall level_ok (level_insert p q l)).
  { apply Forall_insert; [done| |done]. intros p' _ (q' & Hin).
    rewrite Forall_forall in Hl. destruct (Hl _ Hin) as (? & ? & ? & ?). done. }
  enough (StronglySorted below (level_insert p q l) /\
          forall t, offered t (level_insert p q l) = if t =? ticks p then Some q else offered t l).
  { destruct H. split; [by constructor|done]. }
  clear Hlv. induction l as [|[p' q'] l IH]; simpl.
  - split; [by repeat constructor|]. intros t. by destruct (_ =? _).
  - pose proof Hl as Hall. apply Forall_cons in Hall as [(Hp' & _) Hl'].
    pose proof Hs as Hsi. apply StronglySorted_inv in Hsi as [Hs' Hb].
    rewrite dec_ltb_ticks, dec_eqb_ticks by done. destruct (Z.ltb_spec (ticks p) (ticks p')) as [Hlt|Hge].
    + split; [|done]. constructor; [done|]. constructor; [done|].
      eapply Forall_impl; [exact Hb|]. intros [] Hx. unfold below in *. simpl in *. lia.
    + destruct (Z.eqb_spec (ticks p) (ticks p')) as [He|Hne].
      * split; [constructor; done|]. intros t. simpl. rewrite He. by destruct (_ =? _).
      * destruct (IH Hs' Hl') as [IHs IHo]. split.
        -- constructor; [done|]. apply Forall_insert; [unfold below; simpl; lia| |done].
           intros p0 _ (q0 & Hin). rewrite Forall_forall in Hb. apply (Hb _ Hin).
        -- intros t. simpl. rewrite IHo. destruct (Z.eqb_spec t (ticks p')), (Z.eqb_spec t (ticks p)); done || lia.
Qed.

Lemma level_remove_ok p l :
  decimal_ok p -> side_ok l ->
  side_ok (level_remove p l) /\
  forall t, offered t (level_remove p l) = if t =? ticks p then None else offered t l.
Proof.
  intros Hp [Hs Hl].
  enough (StronglySorted below (level_remove p l) /\ Forall level_ok (level_remove p l) /\
          (forall x, Forall (below x) l -> Forall (below x) (level_remove p l)) /\
          forall t, offered t (level_remove p l) = if t =? ticks p then None else offered t l).
  { destruct H as (? & ? & _ & ?). split; [by constructor|done]. }
  induction l as [|[p' q'] l IH]; simpl.
  - split_and!; try done. intros t. by destruct (_ =? _).
  - pose proof Hs as Hsi. apply StronglySorted_inv in Hsi as [Hs' Hb].
    apply Forall_cons in Hl as [Hx Hl']. pose proof Hx as (Hp' & _). destruct (IH Hs' Hl') as (IHs & IHl & IHb & IHo).
    rewrite dec_eqb_ticks by done. destruct (Z.eqb_spec (ticks p) (ticks p')) as [He|Hne].
    + split_and!; try done; [by intros x Hf; inversion Hf|]. intros t. rewrite He.
      destruct (Z.eqb_spec t (ticks p')) as [->|]; [|done].
      eapply (offered_above _ _ (p', q')); [done|simpl; lia].
    + split_and!; [constructor; auto|by constructor| |].
      * intros x Hf. inversion Hf; subst. constructor; auto.
      * intros t. simpl. rewrite IHo. destruct (Z.eqb_spec t (ticks p')), (Z.eqb_spec t (ticks p)); done || lia.
Qed.

(** ** Updates and hydration as lookups *)
Definition lv_ok (lv : DepthLevel) : Prop := decimal_ok (lv_price lv) /\ decimal_ok (lv_quantity lv).

(** The quantity the last entry for a price carries. *)
Fixpoint last_level (t : Z) (levels : list DepthLevel) : option Decimal :=
  match levels with
  | [] => None
  | lv :: levels' =>
      match last_level t levels' with
      | Some q => Some q
      | None => if t =? ticks (lv_price lv) then Some (lv_quantity lv) else None
      end
  end.

Definition written (q : Decimal) : option Decimal := if mantissa q =? 0 then None else Some q.

Lemma validate_level_positive lv b :
  validate_level lv b = Ok tt ->
  0 < mantissa (lv_price lv) /\ if b then 0 <= mantissa (lv_quantity lv) else 0 < mantissa (lv_quantity lv).
Proof.
  unfold validate_level. intros Hv. res_inv. rewrite dec_zero_lt in *. bool_prop. split; [done|].
  destruct b; res_inv; rewrite ?dec_zero_le, ?dec_zero_lt in *; by bool_prop.
Qed.

Lemma apply_level_ok lv l :
  lv_ok lv -> validate_level lv true = Ok tt -> side_ok l ->
  side_ok (apply_level lv l) /\
  forall t, offered t (apply_level lv l) =
    if t =? ticks (lv_price lv) then written (lv_quantity lv) else offered t l.
Proof.
  intros [Hp Hq] Hv Hl. apply validate_level_positive in Hv as [Mp Mq]. unfold apply_level, written.
  destruct (Z.eqb_spec (mantissa (lv_quantity lv)) 0); [by apply level_remove_ok|].
  apply level_insert_ok; try done. lia.
Qed.

Lemma apply_levels_spec levels l l' r :
  Forall lv_ok levels -> side_ok l -> apply_levels levels l = (l', r) ->
  side_ok l' /\
  (r = Ok tt -> forall t, offered t l' = match last_level t levels with
                                         | Some q => written q
                                         | None => offered t l
                                         end).
Proof.
  revert l. induction levels as [|lv levels IH]; intros l Hlv Hl Ha; simpl in Ha; [by simplify_eq|].
  apply Forall_cons in Hlv as [Hx Hlv]. destruct (validate_level lv true) as [[]|e] eqn:Hv; [|by simplify_eq].
  destruct (apply_level_ok lv l Hx Hv Hl) as [Hok Hoff]. destruct (IH _ Hlv Hok Ha) as [Hok' Hoff'].
  split; [done|]. intros Hr t. rewrite (Hoff' Hr t). simpl. destruct (last_level t levels); [done|].
  rewrite Hoff. by destruct (_ =? _).
Qed.

Lemma insert_all_spec levels l l' :
  Forall lv_ok levels -> side_ok l -> insert_all levels l = Ok l' ->
  side_ok l' /\ forall t, offered t l' = match last_level t levels with
                                         | Some q => Some q
                                         | None => offered t l
                                         end.
Proof.
  revert l. induction levels as [|lv levels IH]; intros l Hlv Hl Ha; simpl in Ha; [by simplify_eq|].
  apply Forall_cons in Hlv as [[Hp Hq] Hlv]. res_inv. destruct x.
  match goal with E : validate_level _ _ = _ |- _ => apply validate_level_positive in E as [Mp Mq] end.
  destruct (level_insert_ok (lv_price lv) (lv_quantity lv) l) as [Hok' Hoff]; try done.
  destruct (IH _ Hlv Hok' Ha) as [Hok'' Hoff']. split; [done|]. intros t. rewrite Hoff'. simpl.
  destruct (last_level t levels); [done|]. rewrite Hoff. by destruct (_ =? _).
Qed.

(** ** The exchange's book

    [ex_bids id t] is the quantity the exchange offers at price [t] after its
    update [id].  A snapshot lists the best levels of each side, at most [limit] of
    them: a price it leaves out is empty, or worse than every level of a full list.
    An update lists, for the range of update ids it covers, the final quantity of
    every price that changed. *)
Record Exchange := mkExchange {
  ex_bids : Z -> Z -> option Decimal; ex_asks : Z -> Z -> option Decimal;
}.

Definition faithful_levels (truth : Z -> Z -> option Decimal) (first final : Z)
    (levels : list DepthLevel) : Prop :=
  Forall lv_ok levels /\
  forall t, match last_level t levels with
            | Some q => truth final t = written q
            | None => forall id, first - 1 <= id <= final -> truth id t = truth final t
            end.

Definition faithful_update (ex : Exchange) (u : DepthUpdate) : Prop :=
  faithful_levels (ex_bids ex) (first_update_id u) (final_update_id u) (upd_bids u) /\
  faithful_levels (ex_asks ex) (first_update_id u) (final_update_id u) (upd_asks u).

(** Whether the list of a snapshot ends before this price: [worse] is the order of
    the side, from the worst price up. *)
Definition beyond (limit : Z) (worse : Z -> Z -> Prop) (levels : list DepthLevel) (t : Z) : Prop :=
  limit <= Z.of_nat (length levels) /\ Forall (fun lv => worse t (ticks (lv_price lv))) levels.

Definition lists_best (limit : Z) (worse : Z -> Z -> Prop) (truth : Z -> option Decimal) (levels : list DepthLevel) : Prop :=
  Forall lv_ok levels /\
  forall t, match last_level t levels with
            | Some q => truth t = Some q
            | None => truth t = None \/ beyond limit worse levels t
            end.

Definition faithful_snapshot (limit : Z) (ex : Exchange) (s : DepthSnapshot) : Prop :=
  lists_best limit Z.lt (ex_bids ex (snap_last_update_id s)) (snap_bids s) /\
  lists_best limit Z.gt (ex_asks ex (snap_last_update_id s)) (snap_asks s).

Definition uncrossed (b : SpotDepthBook) : Prop :=
  exists bid ask, last (bids b) = Some bid /\ head (asks b) = Some ask /\ ticks bid.1 < ticks ask.1.

Record book_ok (b : SpotDepthBook) : Prop := {
  bk_bids : side_ok (bids b);
  bk_asks : side_ok (asks b);
}.

(** A side agrees with the exchange at a price, or the price is empty in the book and
    lies beyond the list of the snapshot. *)
Definition agrees (limit : Z) (worse : Z -> Z -> Prop) (levels : list DepthLevel) (l : Side) (truth : Z -> option Decimal) : Prop :=
  forall t, offered t l = truth t \/ offered t l = None /\ beyond limit worse levels t.

(** A book hydrated from snapshot [s]. *)
Record synchronized (limit : Z) (ex : Exchange) (s : DepthSnapshot) (b : SpotDepthBook) : Prop := {
  sy_ok : book_ok b;
  sy_bids : agrees limit Z.lt (snap_bids s) (bids b) (ex_bids ex (last_update_id b));
  sy_asks : agrees limit Z.gt (snap_asks s) (asks b) (ex_asks ex (last_update_id b));
  sy_uncrossed : uncrossed b;
}.

Lemma last_In {A} (l : list A) x : last l = Some x -> x ∈ l.
Proof. apply last_Some_elem_of. Qed.

Lemma validate_top_uncrossed b : book_ok b -> validate_top b = Ok tt -> uncrossed b.
Proof.
  intros [[_ Hb] [_ Ha]]. unfold validate_top, best_bid, best_ask. intros Hv. res_inv.
  destruct (last (bids b)) as [[bp bq]|] eqn:Eb; [|done]. destruct (head (asks b)) as [[ap aq]|] eqn:Ea; [|done].
  simplify_eq/=. exists (bp, bq), (ap, aq). split_and!; try done. simpl.
  rewrite Forall_forall in Hb, Ha. destruct (Hb (bp, bq) (last_In _ _ Eb)) as (Hp & _).
  destruct (asks b) as [|x l]; [done|]. simplify_eq/=. destruct (Ha (ap, aq) ltac:(left)) as (Hp' & _).
  rewrite dec_ltb_ticks in Hv by done. by bool_prop.
Qed.

Lemma listed_agrees limit worse truth levels l :
  lists_best limit worse truth levels -> (forall t, offered t l = last_level t levels) -> agrees limit worse levels l truth.
Proof.
  intros [_ Ht] Ho t. specialize (Ht t). rewrite Ho. destruct (last_level t levels); [by left|].
  destruct Ht; [by left|by right].
Qed.

Lemma from_snapshot_synchronized limit ex sym s b :
  faithful_snapshot limit ex s -> from_snapshot sym s = Ok b ->
  synchronized limit ex s b /\ symbol b = sym /\ last_update_id b = snap_last_update_id s.
Proof.
  intros (Fb & Fa). pose proof (proj1 Fb) as Hb. pose proof (proj1 Fa) as Ha. unfold from_snapshot, replace_levels. intros Hf. res_inv.
  assert (Hnil : side_ok []) by (split; constructor).
  repeat match goal with E : insert_all _ _ = Ok _ |- _ => apply insert_all_spec in E as [? ?]; [|done..] end.
  split; [|done]. assert (Hbook : book_ok (mkBook sym (snap_last_update_id s) x1 x2)) by (by split).
  match goal with E : validate_top _ = Ok ?u |- _ => destruct u; pose proof (validate_top_uncrossed _ Hbook E) end.
  split; [done| | |done]; simpl; eapply listed_agrees; try done; intros t;
    match goal with H : forall t, offered t ?x = _ |- offered _ ?x = _ => rewrite H end; by destruct (last_level t _).
Qed.

Lemma faithful_side limit worse seen truth first final levels l l' last :
  faithful_levels truth first final levels -> side_ok l -> apply_levels levels l = (l', Ok tt) ->
  agrees limit worse seen l (truth last) -> first - 1 <= last <= final ->
  agrees limit worse seen l' (truth final).
Proof.
  intros [Hlv Ht] Hl Ha Ho Hr t. destruct (apply_levels_spec _ _ _ _ Hlv Hl Ha) as [_ Hoff].
  rewrite (Hoff eq_refl). specialize (Ht t). destruct (last_level t levels); [by left|].
  rewrite <- (Ht last) by done. apply Ho.
Qed.

(** What an update does, outcome by outcome: it never leaves the sides malformed. *)
Lemma apply_depth_outcomes limit ex s u b b' r :
  faithful_update ex u -> synchronized limit ex s b -> apply_depth u b = (b', r) ->
  book_ok b' /\ symbol b' = symbol b /\
  match r with
  | Ok Applied => synchronized limit ex s b' /\ last_update_id b' = final_update_id u /\
                  first_update_id u <= last_update_id b + 1 <= final_update_id u
  | Ok Stale => b' = b /\ final_update_id u <= last_update_id b
  | Err _ => first_update_id u > last_update_id b + 1 -> b' = b
  end.
Proof.
  intros [Fb Fa] Hs Ha. pose proof (sy_ok _ _ _ _ Hs) as Hok. unfold apply_depth, mbind', mget, mlift, mret, mput in Ha.
  destruct (ensure (bool_decide _) _); [|by simplify_eq]. destruct (ensure (_ <=? _) _); [|by simplify_eq].
  destruct (Z.leb_spec (final_update_id u) (last_update_id b)) as [Hst|Hst]; [by simplify_eq|].
  destruct (or_err _ _) as [expected|] eqn:He; [|by simplify_eq]. res_inv. checked_inv. subst expected.
  destruct (ensure (_ && _) _) eqn:Hgap; [|by simplify_eq]. res_inv. bool_prop.
  unfold on_bids, on_asks in Ha. destruct (apply_levels (upd_bids u) (bids b)) as [lb [[]|e]] eqn:Eb; cycle 1.
  { simplify_eq. simpl. destruct (apply_levels_spec _ _ _ _ (proj1 Fb) (bk_bids _ Hok) Eb).
    split; [by destruct Hok|]. split; [done|]. lia. }
  simpl in Ha. destruct (apply_levels (upd_asks u) (asks b)) as [la ra] eqn:Ea.
  destruct (apply_levels_spec _ _ _ _ (proj1 Fb) (bk_bids _ Hok) Eb) as [Hb' _].
  destruct (apply_levels_spec _ _ _ _ (proj1 Fa) (bk_asks _ Hok) Ea) as [Ha' _].
  destruct ra as [[]|e]; cycle 1.
  { simplify_eq. split; [done|]. split; [done|]. lia. }
  destruct (validate_top _) as [[]|e] eqn:Hv; simplify_eq; (split; [done|]); (split; [done|]); [|simpl; lia].
  simpl. split; [|done]. split; simpl; [done| | |by apply validate_top_uncrossed in Hv].
  - eapply faithful_side; [exact Fb|apply (bk_bids _ Hok)|exact Eb|apply (sy_bids _ _ _ _ Hs)|lia].
  - eapply faithful_side; [exact Fa|apply (bk_asks _ Hok)|exact Ea|apply (sy_asks _ _ _ _ Hs)|lia].
Qed.

(** ** Market quotes on a grid

    Levels as pairs of price and quantity in units; an allocation takes part of
    each level. *)
Abbreviation Units := (list (Z * Z)).

Definition allocation (l : Units) (f : list Z) (total : Z) : Prop :=
  Forall2 (fun x k => 0 <= k <= x.2) l f /\ foldr Z.add 0 f = total.
Fixpoint proceeds (l : Units) (f : list Z) : Z :=
  match l, f with
  | x :: l', k :: f' => k * x.1 + proceeds l' f'
  | _, _ => 0
  end.

(** Take the levels in order. *)
Fixpoint greedy (l : Units) (rem : Z) : option Z :=
  match l with
  | [] => None
  | (p, a) :: l' =>
      let k := Z.min rem a in
      if rem - k =? 0 then Some (k * p) else Z.add (k * p) <$> greedy l' (rem - k)
  end.

Definition available (l : Units) : Z := foldr Z.add 0 (map snd l).
Definition positive_levels (l : Units) : Prop := Forall (fun x => 0 < x.2) l.
Definition descending (l : Units) : Prop := StronglySorted (fun x y => y.1 <= x.1) l.

Lemma available_nonneg l : positive_levels l -> 0 <= available l.
Proof.
  induction 1 as [|[p a] l Ha _ IH]; [done|]. unfold available in *. simpl in *. lia.
Qed.

(** Taking nothing. *)
Definition zeros (l : Units) : list Z := map (fun _ => 0) l.
Lemma zeros_allocation l : positive_levels l -> allocation l (zeros l) 0 /\ proceeds l (zeros l) = 0.
Proof.
  induction 1 as [|[p a] l Ha Hl [[IH1 IH2] IH3]]; [repeat constructor|].
  split; [split|]; simpl; [|done|by rewrite IH3]. constructor; [simpl in *; lia|done].
Qed.

Lemma greedy_achieves l rem v :
  positive_levels l -> 0 < rem -> greedy l rem = Some v ->
  exists f, allocation l f rem /\ proceeds l f = v.
Proof.
  intros Hl. revert rem v. induction Hl as [|[p a] l Ha Hl IH]; intros rem v Hr Hg; [done|]. simpl in *.
  destruct (Z.eqb_spec (rem - rem `min` a) 0) as [E|E].
  - simplify_eq. destruct (zeros_allocation l Hl) as [[Hz1 Hz2] Hz3].
    exists (rem `min` a :: zeros l). split; [split|]; simpl; [constructor; [simpl; lia|done]|lia|lia].
  - destruct (greedy l (rem - rem `min` a)) as [w|] eqn:Eg; [|done]. simplify_eq/=.
    destruct (IH (rem - rem `min` a) w ltac:(lia) Eg) as (f & [Hf1 Hf2] & Hf3).
    exists (rem `min` a :: f). split; [split|]; simpl; [constructor; [simpl; lia|done]|lia|lia].
Qed.

Lemma greedy_none l rem : positive_levels l -> 0 < rem -> greedy l rem = None <-> available l < rem.
Proof.
  intros Hl. revert rem. induction Hl as [|[p a] l Ha Hl IH]; intros rem Hr; [done|].
  unfold available in *. simpl in *. pose proof (available_nonneg l Hl) as Hav. unfold available in Hav.
  destruct (Z.eqb_spec (rem - rem `min` a) 0) as [E|E].
  - split; [done|]. lia.
  - rewrite fmap_None, IH by lia. lia.
Qed.

(** Selling more at descending prices adds at most the best price per unit. *)
Lemma greedy_slope l r r' v :
  positive_levels l -> descending l -> 0 < r <= r' -> greedy l r = Some v ->
  forall v' P, greedy l r' = Some v' -> Forall (fun x => x.1 <= P) l -> v' <= v + (r' - r) * P.
Proof.
  intros Hl. revert r r' v. induction Hl as [|[p a] l Ha Hl IH]; intros r r' v Hd Hr Hg v' P Hg' HP; [done|].
  apply StronglySorted_inv in Hd as [Hd Hall]. apply Forall_cons in HP as [HpP HP]. simpl in *.
  destruct (Z.eqb_spec (r - r `min` a) 0) as [E|E], (Z.eqb_spec (r' - r' `min` a) 0) as [E'|E']; simplify_eq.
  - rewrite !Z.min_l by lia. nia.
  - destruct (greedy l (r' - r' `min` a)) as [w'|] eqn:Eg'; [|done]. simplify_eq/=.
    assert (Hfirst : w' <= (r' - a) * p).
    { rewrite Z.min_r in Eg' by lia. destruct (greedy_achieves l (r' - a) w' Hl ltac:(lia) Eg') as (f & [Hf Hs] & <-).
      rewrite <- Hs. clear -Hf Hall. induction Hf as [|[p' a'] k l f Hk _ IH]; [done|].
      apply Forall_cons in Hall as [Hp Hall]. simpl in *. specialize (IH Hall). nia. }
    rewrite Z.min_r by lia. rewrite Z.min_l in * by lia. nia.
  - lia.
  - destruct (greedy l (r - r `min` a)) as [w|] eqn:Eg, (greedy l (r' - r' `min` a)) as [w'|] eqn:Eg'; try done.
    simplify_eq/=. assert (a < r /\ a < r') by lia. rewrite !Z.min_r in * by lia.
    pose proof (IH (r - a) (r' - a) w Hd ltac:(lia) Eg w' P Eg' HP). lia.
Qed.

Lemma allocation_available l f rem : allocation l f rem -> rem <= available l.
Proof.
  intros [Hf <-]. unfold available. induction Hf as [|[p a] k l f Hk _ IH]; [done|]. simpl in *. lia.
Qed.

Lemma greedy_optimal l rem v f :
  positive_levels l -> descending l -> 0 < rem -> greedy l rem = Some v -> allocation l f rem ->
  proceeds l f <= v.
Proof.
  intros Hl. revert rem v f. induction Hl as [|[p a] l Ha Hl IH]; intros rem v f Hd Hr Hg [Hf Hs]; [done|].
  apply StronglySorted_inv in Hd as [Hd Hall]. destruct f as [|k f]; [inversion Hf|].
  apply Forall2_cons in Hf as [Hk Hf]. simpl in *.
  pose proof (allocation_available l f _ (conj Hf eq_refl)) as Hav.
  assert (Hf0 : 0 <= foldr Z.add 0 f) by (clear -Hf; induction Hf; simpl in *; lia).
  destruct (decide (rem = k)) as [->|Hne].
  { rewrite Z.min_l, Z.sub_diag in Hg by lia. simplify_eq/=. assert (foldr Z.add 0 f = 0) by lia.
    assert (proceeds l f = 0); [|lia]. clear -Hf H. induction Hf as [|x k l f Hk Hf IH]; [done|]. simpl in *.
    assert (0 <= foldr Z.add 0 f) by (clear -Hf; induction Hf; simpl in *; lia).
    assert (k = 0) as -> by lia. rewrite IH by lia. lia. }
  assert (Hrest : exists u, greedy l (rem - k) = Some u).
  { destruct (greedy l (rem - k)) eqn:E; [eauto|]. apply greedy_none in E; [lia|done|lia]. }
  destruct Hrest as [u Hu]. assert (Hal : allocation l f (rem - k)) by (split; [done|lia]).
  pose proof (IH (rem - k) u f Hd ltac:(lia) Hu Hal) as Hle.
  destruct (Z.eqb_spec (rem - rem `min` a) 0) as [E|E].
  - injection Hg as <-. rewrite Z.min_l by lia.
    enough (u <= (rem - k) * p) by lia.
    destruct (greedy_achieves l (rem - k) u Hl ltac:(lia) Hu) as (g & [Hg1 Hg2] & <-). rewrite <- Hg2.
    clear -Hg1 Hall. induction Hg1 as [|[p' a'] k l f Hk _ IH]; [done|].
    apply Forall_cons in Hall as [Hp Hall]. simpl in *. specialize (IH Hall). nia.
  - destruct (greedy l (rem - rem `min` a)) as [w|] eqn:Eg; [|done]. injection Hg as <-.
    assert (a < rem) by lia. rewrite Z.min_r in * by lia.
    pose proof (greedy_slope l (rem - a) (rem - k) w Hl Hd ltac:(lia) Eg u p Hu Hall). lia.
Qed.

Lemma descending_rev l : StronglySorted below l -> StronglySorted (flip below) (rev l).
Proof.
  induction 1 as [|x l Hl IH Hx]; [constructor|]. simpl. apply StronglySorted_app_2; [|done|by repeat constructor].
  intros a b Ha Hb. rewrite list_elem_of_In, <- in_rev, <- list_elem_of_In in Ha. apply list_elem_of_singleton in Hb as ->.
  rewrite Forall_forall in Hx. by apply Hx.
Qed.

(** Buying is selling at negated prices. *)
Definition negated (l : Units) : Units := map (fun x => (- x.1, x.2)) l.

Lemma greedy_negated l rem : greedy (negated l) rem = Z.opp <$> greedy l rem.
Proof.
  revert rem. induction l as [|[p a] l IH]; intros rem; [done|]. simpl.
  destruct (_ =? _); [simpl; f_equal; lia|]. rewrite IH. destruct (greedy l _); simpl; [f_equal; lia|done].
Qed.
Lemma proceeds_negated l f : proceeds (negated l) f = - proceeds l f.
Proof. revert f. induction l as [|[p a] l IH]; intros [|k f]; try done. simpl. rewrite IH. lia. Qed.
Lemma allocation_negated l f total : allocation l f total -> allocation (negated l) f total.
Proof.
  intros [Hf Hs]. split; [|done]. clear Hs. induction Hf as [|x k l f Hk _ IH]; simpl; by constructor.
Qed.
Lemma positive_negated l : positive_levels l -> positive_levels (negated l).
Proof. induction 1; simpl; by constructor. Qed.

Section grid.
Context `{DecimalLaws} (s t : Z) (Hs : 0 <= s) (Ht : 0 <= t) (Hst : s + t <= 28).

Definition grid_level (x : Decimal * Decimal) : Prop :=
  on_grid t x.1 /\ on_grid s x.2 /\ 0 < mantissa x.1 /\ 0 < mantissa x.2.
Definition to_units (l : Side) : Units := map (fun x => (units t x.1, units s x.2)) l.
Definition book_value (l : Units) : Z := foldr (fun x v => x.1 * x.2 + v) 0 l.

Lemma units_positive g d : on_grid g d -> 0 < mantissa d -> 0 < units g d.
Proof. intros Hg Hm. by apply (units_sign g d Hg). Qed.

Lemma grid_positive l : Forall grid_level l -> positive_levels (to_units l).
Proof.
  induction 1 as [|x l (_ & Hq & _ & Mq) _ IH]; [constructor|]. constructor; [|done]. by apply units_positive.
Qed.

Lemma book_value_nonneg l : Forall grid_level l -> 0 <= book_value (to_units l).
Proof.
  induction 1 as [|x l (Hp & Hq & Mp & Mq) _ IH]; [done|]. simpl.
  pose proof (units_positive _ _ Hp Mp). pose proof (units_positive _ _ Hq Mq). nia.
Qed.

Lemma dec_min_units a b :
  on_grid s a -> on_grid s b -> on_grid s (dec_min a b) /\ units s (dec_min a b) = Z.min (units s a) (units s b).
Proof.
  intros Ha Hb. unfold dec_min. rewrite (dec_ltb_units s) by done.
  destruct (Z.ltb_spec (units s b) (units s a)); split; done || lia.
Qed.

(** The decimal loop computes the greedy value. *)
Lemma quote_loop_greedy l base rem total c :
  Forall grid_level l -> on_grid s rem -> 0 < units s rem < 2 ^ 96 ->
  on_grid (s + t) total -> 0 <= units (s + t) total ->
  units (s + t) total + book_value (to_units l) < 2 ^ 96 ->
  match greedy (to_units l) (units s rem) with
  | Some v => exists q, quote_loop l base rem total c = Ok (Some q) /\ base_quantity q = base /\
                units (s + t) (quote_quantity q) = units (s + t) total + v
  | None => quote_loop l base rem total c = Ok None
  end.
Proof.
  intros Hl. revert rem total c. induction Hl as [|[p a] l (Hp & Ha & Mp & Ma) Hl IH];
    intros rem total c Hr Rr Hto Rto Hv; [done|]. simpl in *.
  pose proof (units_positive _ _ Hp Mp) as Up. pose proof (units_positive _ _ Ha Ma) as Ua.
  pose proof (book_value_nonneg l Hl) as Hbv.
  destruct (dec_min_units rem a Hr Ha) as [Hk Uk]. set (k := dec_min rem a) in *.
  assert (Hkb : 0 < units s k <= units s a /\ units s k <= units s rem) by lia.
  destruct (dec_mul_exact s t k p Hk Hp Hs Ht Hst) as (prod & -> & Hprod & Uprod); [nia|].
  destruct (dec_add_exact (s + t) total prod Hto Hprod ltac:(lia)) as (total' & Eadd & Htot' & Utot'); [nia|].
  destruct (dec_sub_exact s rem k Hr Hk ltac:(lia)) as (rem' & Esub & Hrem' & Urem'); [lia|].
  simpl. rewrite Eadd. simpl. rewrite Esub. simpl. rewrite <- Uk, <- Urem'.
  destruct (units_sign s rem' Hrem') as [_ Hzero].
  destruct (Z.eqb_spec (mantissa rem') 0) as [E|E], (Z.eqb_spec (units s rem') 0) as [E'|E']; try tauto.
  - eexists. split; [done|]. simpl. split; [done|]. lia.
  - pose proof (IH rem' total' (saturating_add 64 c 1) Hrem' ltac:(lia) Htot' ltac:(nia) ltac:(nia)) as IHk.
    destruct (greedy (to_units l) (units s rem')) as [v|]; simpl; [|done].
    destruct IHk as (q & Hq & Hb & Huq). exists q. split; [done|]. split; [done|]. lia.
Qed.

Definition best_quote (better : Z -> Z -> Prop) (l : Side) (base : Decimal)
    (r : DRes (option DepthExecutionQuote)) : Prop :=
  match r with
  | Ok (Some q) =>
      base_quantity q = base /\
      (exists f, allocation (to_units l) f (units s base) /\
         proceeds (to_units l) f = units (s + t) (quote_quantity q)) /\
      (forall f, allocation (to_units l) f (units s base) ->
         better (proceeds (to_units l) f) (units (s + t) (quote_quantity q)))
  | Ok None => forall f, ~ allocation (to_units l) f (units s base)
  | Err _ => False
  end.

Definition quotable (l : Side) (base : Decimal) : Prop :=
  Forall grid_level l /\ book_value (to_units l) < 2 ^ 96 /\
  on_grid s base /\ 0 < mantissa base /\ units s base < 2 ^ 96.

Lemma quote_levels_greedy l base :
  quotable l base ->
  match greedy (to_units l) (units s base) with
  | Some v => exists q, quote_levels l base = Ok (Some q) /\ base_quantity q = base /\
                units (s + t) (quote_quantity q) = v
  | None => quote_levels l base = Ok None
  end.
Proof.
  intros (Hl & Hv & Hb & Mb & Ub). unfold quote_levels. rewrite dec_zero_lt, (proj2 (Z.ltb_lt _ _)) by done.
  simpl. pose proof (units_positive _ _ Hb Mb) as Pb.
  pose proof (quote_loop_greedy l base base dec_zero 0 Hl Hb ltac:(lia)) as Hq.
  assert (Hz : units (s + t) dec_zero = 0) by done. rewrite Hz in Hq.
  specialize (Hq ltac:(by split; [|simpl; lia]) ltac:(lia) ltac:(lia)).
  destruct (greedy _ _); [|done]. destruct Hq as (q & Hql & Hbq & Huq).
  exists q. split_and!; [done|done|lia].
Qed.

Lemma grid_order a b : grid_level a -> grid_level b -> below a b -> units t a.1 < units t b.1.
Proof.
  intros (Ha & _) (Hb & _) Hlt. unfold below in Hlt. apply Z.ltb_lt. rewrite <- dec_ltb_units by done.
  rewrite dec_ltb_ticks by (apply Ha || apply Hb). by apply Z.ltb_lt.
Qed.

Lemma grid_sorted (R : Z -> Z -> Prop) (S : relation (Decimal * Decimal)) l :
  (forall a b, grid_level a -> grid_level b -> S a b -> R (units t a.1) (units t b.1)) ->
  Forall grid_level l -> StronglySorted S l -> StronglySorted (fun x y => R x.1 y.1) (to_units l).
Proof.
  intros HR Hl Hss. induction Hss as [|x l _ IH Hx]; [constructor|]. apply Forall_cons in Hl as [Hg Hl].
  simpl. constructor; [by apply IH|]. clear IH. induction Hl as [|y l Hy _ IH]; [constructor|].
  apply Forall_cons in Hx as [Hxy Hx]. constructor; [by apply HR|by apply IH].
Qed.

Lemma sell_best l base : quotable l base -> descending (to_units l) -> best_quote Z.le l base (quote_levels l base).
Proof.
  intros Hq Hd. pose proof (quote_levels_greedy l base Hq) as Hg. destruct Hq as (Hl & _ & Hb & Mb & _).
  pose proof (grid_positive l Hl) as Hp. pose proof (units_positive _ _ Hb Mb) as Pb.
  destruct (greedy _ _) as [v|] eqn:Eg.
  - destruct Hg as (q & -> & Hbase & Hv). split; [done|]. rewrite Hv. split.
    + by apply greedy_achieves.
    + intros f Hf. by eapply greedy_optimal.
  - rewrite Hg. intros f Hf. apply allocation_available in Hf. apply greedy_none in Eg; [lia|done|done].
Qed.

Lemma buy_best l base :
  quotable l base -> descending (negated (to_units l)) -> best_quote Z.ge l base (quote_levels l base).
Proof.
  intros Hq Hd. pose proof (quote_levels_greedy l base Hq) as Hg. destruct Hq as (Hl & _ & Hb & Mb & _).
  pose proof (grid_positive l Hl) as Hp. pose proof (units_positive _ _ Hb Mb) as Pb.
  destruct (greedy _ _) as [v|] eqn:Eg.
  - destruct Hg as (q & -> & Hbase & Hv). split; [done|]. rewrite Hv. split.
    + by apply greedy_achieves.
    + intros f Hf. enough (proceeds (negated (to_units l)) f <= - v) by (rewrite proceeds_negated in *; lia).
      apply (greedy_optimal _ (units s base)); try done; [by apply positive_negated| |by apply allocation_negated].
      by rewrite greedy_negated, Eg.
  - rewrite Hg. intros f Hf. apply allocation_available in Hf. apply greedy_none in Eg; [lia|done|done].
Qed.

(** A market quote is exact and optimal: on a book whose prices and
    quantities lie on a decimal grid and whose whole value fits the decimal
    type, selling or buying a quantity never errs, answers that the book is too
    thin exactly when no allocation over the levels fills the quantity, and
    otherwise returns the value of an allocation that no other allocation of
    that quantity beats. *)
Theorem market_quotes_optimal b base :
  book_ok b -> quotable (rev (bids b)) base -> quotable (asks b) base ->
  best_quote Z.le (rev (bids b)) base (quote_market_sell b base) /\
  best_quote Z.ge (asks b) base (quote_market_buy b base).
Proof.
  intros [[Sb _] [Sa _]] Qb Qa. split.
  - apply sell_best; [done|]. apply (grid_sorted (fun x y => y <= x) (flip below)); [|apply Qb|by apply descending_rev].
    intros x y Hx Hy Hlt. apply Z.lt_le_incl. by apply grid_order.
  - apply buy_best; [done|]. pose proof (grid_sorted (fun x y => x <= y) below (asks b)) as Hss.
    specialize (Hss ltac:(intros x y Hx Hy Hlt; by apply Z.lt_le_incl, grid_order) (proj1 Qa) Sa).
    clear -Hss. induction Hss as [|x l _ IH Hx]; [constructor|]. simpl. constructor; [done|].
    clear -Hx. induction Hx; constructor; [simpl; lia|done].
Qed.
End grid.

(** ** Reconciliation with the observed top *)
Lemma filter_sorted {A} (R : relation A) (P : A -> Prop) `{forall x, Decision (P x)} l :
  StronglySorted R l -> StronglySorted R (filter P l).
Proof.
  induction 1 as [|x l Hl IH Hx]; [constructor|]. rewrite filter_cons. destruct (decide (P x)); [|done].
  constructor; [done|]. apply Forall_forall. intros y Hy. apply list_elem_of_filter in Hy as [_ Hy].
  rewrite Forall_forall in Hx. by apply Hx.
Qed.

Lemma filter_side_ok (P : Decimal * Decimal -> Prop) `{forall x, Decision (P x)} l :
  side_ok l -> side_ok (filter P l).
Proof.
  intros [Hs Hl]. split; [by apply filter_sorted|]. apply Forall_forall. intros x Hx.
  apply list_elem_of_filter in Hx as [_ Hx]. rewrite Forall_forall in Hl. by apply Hl.
Qed.

Lemma offered_filter (f : Decimal -> bool) (g : Z -> bool) l t :
  (forall p, decimal_ok p -> f p = g (ticks p)) -> Forall level_ok l ->
  offered t (filter (fun x => f x.1 = true) l) = if g t then offered t l else None.
Proof.
  intros Hfg. induction 1 as [|[p q] l (Hp & _) _ IH]; [by destruct (g t)|]. rewrite filter_cons. simpl.
  specialize (Hfg p Hp). destruct (decide (f p = true)) as [Hf|Hf]; simpl; rewrite IH;
    destruct (Z.eqb_spec t (ticks p)) as [->|]; try done.
  - by rewrite <- Hfg, Hf.
  - apply Bool.not_true_is_false in Hf. by rewrite <- Hfg, Hf.
Qed.

Lemma last_insert_top p q l :
  decimal_ok p -> Forall level_ok l -> Forall (fun x => ticks x.1 <= ticks p) l -> StronglySorted below l ->
  exists p', last (level_insert p q l) = Some (p', q) /\ decimal_ok p' /\ ticks p' = ticks p.
Proof.
  intros Hp Hl Ht Hs. induction l as [|[p' q'] l IH]; [by exists p|].
  apply Forall_cons in Hl as [(Hp' & _) Hl]. apply Forall_cons in Ht as [Hle Ht].
  apply StronglySorted_inv in Hs as [Hs Hb]. simpl in *. rewrite dec_ltb_ticks, dec_eqb_ticks by done.
  rewrite (proj2 (Z.ltb_ge _ _)) by done. destruct (Z.eqb_spec (ticks p) (ticks p')) as [He|Hne].
  - destruct l as [|x l]; [by exists p'|]. exfalso. apply Forall_cons in Ht as [Hx _].
    apply Forall_cons in Hb as [Hbx _]. unfold below in Hbx. simpl in *. lia.
  - destruct (IH Hl Ht Hs) as (p0 & Hlast & ? & ?). exists p0. split; [|done].
    destruct (level_insert p q l); [done|]. exact Hlast.
Qed.

Lemma head_insert_top p q l :
  decimal_ok p -> Forall level_ok l -> Forall (fun x => ticks p <= ticks x.1) l ->
  exists p', head (level_insert p q l) = Some (p', q) /\ decimal_ok p' /\ ticks p' = ticks p.
Proof.
  intros Hp Hl Ht. destruct l as [|[p' q'] l]; [by exists p|].
  apply Forall_cons in Hl as [(Hp' & _) Hl]. apply Forall_cons in Ht as [Hle Ht]. simpl in *.
  rewrite dec_ltb_ticks, dec_eqb_ticks by done. destruct (Z.ltb_spec (ticks p) (ticks p')); [by exists p|].
  rewrite (proj2 (Z.eqb_eq _ _)) by lia. exists p'. split; [done|]. split; [done|]. lia.
Qed.

(** Reconciling a recent book with the observed top leaves no liquidity ahead
    of that top: the result has exactly the observed best bid and ask at their
    observed quantities, nothing better, and every deeper level as it was. *)
Theorem reconciled_exposes_no_stale_top b id bp bq ap aq b' :
  book_ok b -> level_ok (bp, bq) -> level_ok (ap, aq) ->
  reconciled_with_top b id bp bq ap aq = Ok b' ->
  book_ok b' /\ uncrossed b' /\ matches_top b' (symbol b) id bp bq ap aq = true /\
  (forall t, offered t (bids b') =
     if t =? ticks bp then Some bq else if t <? ticks bp then offered t (bids b) else None) /\
  (forall t, offered t (asks b') =
     if t =? ticks ap then Some aq else if ticks ap <? t then offered t (asks b) else None).
Proof.
  intros [Ob Oa] (Hbp & Hbq & Mbp & Mbq) (Hap & Haq & Map & Maq) Hr. simpl in *.
  unfold reconciled_with_top in Hr. res_inv.
  set (kb := filter (fun x => dec_leb x.1 bp = true) (bids b)) in *.
  set (ka := filter (fun x => dec_leb ap x.1 = true) (asks b)) in *.
  assert (Okb : side_ok kb) by by apply filter_side_ok.
  assert (Oka : side_ok ka) by by apply filter_side_ok.
  destruct (level_insert_ok bp bq kb Hbp Hbq Mbp Mbq Okb) as [Hb1 Hb2].
  destruct (level_insert_ok ap aq ka Hap Haq Map Maq Oka) as [Ha1 Ha2].
  assert (Hbook : book_ok (mkBook (symbol b) id (level_insert bp bq kb) (level_insert ap aq ka))) by by split.
  destruct x. split; [done|]. split; [by apply validate_top_uncrossed|]. split.
  - assert (Tb : Forall (fun x => ticks x.1 <= ticks bp) kb).
    { apply Forall_forall. intros y Hy. apply list_elem_of_filter in Hy as [Hle Hy].
      destruct Ob as [_ Ob]. rewrite Forall_forall in Ob. destruct (Ob _ Hy) as (Hy' & _).
      rewrite dec_leb_ticks in Hle by done. by bool_prop. }
    assert (Ta : Forall (fun x => ticks ap <= ticks x.1) ka).
    { apply Forall_forall. intros y Hy. apply list_elem_of_filter in Hy as [Hle Hy].
      destruct Oa as [_ Oa]. rewrite Forall_forall in Oa. destruct (Oa _ Hy) as (Hy' & _).
      rewrite dec_leb_ticks in Hle by done. by bool_prop. }
    destruct (last_insert_top bp bq kb Hbp (so_levels _ Okb) Tb (so_sorted _ Okb)) as (p1 & E1 & O1 & T1).
    destruct (head_insert_top ap aq ka Hap (so_levels _ Oka) Ta) as (p2 & E2 & O2 & T2).
    unfold matches_top, best_bid, best_ask. simpl. rewrite E1, E2. simpl.
    rewrite !dec_eqb_ticks, T1, T2, !Z.eqb_refl, Z.leb_refl, bool_decide_eq_true_2 by done. done.
  - split; intros t; simpl.
    + rewrite Hb2. destruct (Z.eqb_spec t (ticks bp)); [done|]. unfold kb. rewrite (offered_filter (fun p => dec_leb p bp) (fun t => t <=? ticks bp));
        [|intros; by apply dec_leb_ticks|apply Ob].
      destruct (Z.leb_spec t (ticks bp)), (Z.ltb_spec t (ticks bp)); done || lia.
    + rewrite Ha2. destruct (Z.eqb_spec t (ticks ap)); [done|]. unfold ka. rewrite (offered_filter (dec_leb ap) (fun t => ticks ap <=? t));
        [|intros; by apply dec_leb_ticks|apply Oa].
      destruct (Z.leb_spec (ticks ap) t), (Z.ltb_spec (ticks ap) t); done || lia.
Qed.
