(* ===== verification/DepthFeed.v ===== *)
(** * The Binance stream reader ([src/src/market_data/binance.rs])

    The single reader of a stream shard that owns the depth book: connecting,
    the bootstrap from a REST snapshot, the handling of each frame and the
    reconnect delay.  Sockets and JSON are inputs: a connection attempt comes
    with its snapshot and the frames received while it bootstraps.  The theorem
    is that whatever connects, arrives and breaks, as long as snapshots and updates
    say what is true of the exchange, a book that is offered to the strategies is the
    exchange's book at its update id, as deep as the snapshot of its connection. *)
From Stdlib Require Import Lia Sorted.
From stdpp Require Import base strings numbers list sorting.
From S2P Require Import Prelude Decimals Depth.

Definition INITIAL_RECONNECT_DELAY : Z := 1000.
Definition MAX_RECONNECT_DELAY : Z := 60000.
(** The levels asked of [depth_snapshot]. *)
Definition DEPTH_SNAPSHOT_LIMIT : Z := 5000.

(** A decoded frame; [FrameOther] stands for what fails to decode or has an
    unexpected event type. *)
Inductive Frame := FrameDepth (u : DepthUpdate) | FrameTicker | FrameOther.

Inductive FeedEvent :=
| FeedConnected (generation : Z)
| FeedDisconnected (generation : Z)
| TopOfBookSeen
| DepthApplied (generation last_update_id : Z).

Record BookTickerFeed := mkFeed {
  depth_symbol : string;
  generation : Z;
  connected : bool;
  reconnect_delay : Z;
  connect_not_before : Z;
  depth_book : option SpotDepthBook;
}.

Definition new_feed (sym : string) (now : Z) : BookTickerFeed :=
  mkFeed sym 0 false INITIAL_RECONNECT_DELAY now None.

(** The symbol check of [parse_depth_update]. *)
Definition parse_depth_update (expected : string) (u : DepthUpdate) : DRes DepthUpdate :=
  let? _ := validate_symbol expected in
  ensure! bool_decide (upd_symbol u = expected) else "depth update symbol mismatch" ;;
  Ok u.

(** The loop of [subscribe_and_bootstrap_depth]: [None] when the frames run out
    before the first update applies, which the timeout turns into an error. *)
Fixpoint bootstrap_loop (expected : string) (book : SpotDepthBook) (frames : list Frame)
  : DRes (option SpotDepthBook) :=
  match frames with
  | [] => Ok None
  | FrameTicker :: frames' => bootstrap_loop expected book frames'
  | FrameOther :: _ => Err "unexpected Binance stream event"%string
  | FrameDepth u :: frames' =>
      let? u := parse_depth_update expected u in
      match apply_depth u book with
      | (book', Ok Applied) => Ok (Some book')
      | (book', Ok Stale) => bootstrap_loop expected book' frames'
      | (_, Err e) => Err e
      end
  end.

(** A connection attempt: the socket or the snapshot request fails, or the
    snapshot and the frames that follow are known. *)
Inductive Attempt := AttemptFailed | AttemptOpened (snapshot : DepthSnapshot) (frames : list Frame).

Definition bootstrap (expected : string) (a : Attempt) : DRes SpotDepthBook :=
  match a with
  | AttemptFailed => Err "Binance WebSocket connect failed"%string
  | AttemptOpened snapshot frames =>
      let? book := from_snapshot expected snapshot in
      let? found := bootstrap_loop expected book frames in
      or_err found "Binance depth bootstrap timed out"
  end.

Definition disconnect (now : Z) (f : BookTickerFeed) : BookTickerFeed * FeedEvent :=
  (mkFeed (depth_symbol f) (generation f) false
     (Z.min (reconnect_delay f * 2) MAX_RECONNECT_DELAY) (now + reconnect_delay f) None,
   FeedDisconnected (generation f)).

(** One attempt of [next_event] without a socket. *)
Definition try_connect (now : Z) (a : Attempt) (f : BookTickerFeed) : BookTickerFeed * FeedEvent :=
  let next_generation := saturating_add 64 (generation f) 1 in
  match bootstrap (depth_symbol f) a with
  | Ok book =>
      (mkFeed (depth_symbol f) next_generation true INITIAL_RECONNECT_DELAY (connect_not_before f)
         (Some book),
       FeedConnected next_generation)
  | Err _ => disconnect now f
  end.

(** The book a frame leaves behind, and the event or error it gives. *)
Definition parse_payload (fr : Frame) : M BookTickerFeed string FeedEvent :=
  fun f =>
    match fr with
    | FrameOther => (f, Err "unexpected Binance stream event"%string)
    | FrameTicker => (f, Ok TopOfBookSeen)
    | FrameDepth u =>
        match parse_depth_update (depth_symbol f) u, depth_book f with
        | Err e, _ => (f, Err e)
        | Ok _, None => (f, Err "Binance depth update arrived before bootstrap"%string)
        | Ok u, Some book =>
            let '(book', r) := apply_depth u book in
            let f' := mkFeed (depth_symbol f) (generation f) (connected f) (reconnect_delay f)
                        (connect_not_before f) (Some book') in
            match r with
            | Ok Applied => (f', Ok (DepthApplied (generation f) (last_update_id book')))
            | Ok Stale => (f', Err "stale Binance depth event after bootstrap"%string)
            | Err e => (f', Err e)
            end
        end
    end.

Definition on_frame (now : Z) (fr : Frame) (f : BookTickerFeed) : BookTickerFeed * FeedEvent :=
  match parse_payload fr f with
  | (f', Ok e) => (f', e)
  | (f', Err _) => disconnect now f'
  end.

(** What can happen to the reader: [next_event] connects when there is no
    socket, otherwise handles a frame or loses the connection. *)
Inductive FeedInput := InAttempt (a : Attempt) | InFrame (fr : Frame) | InLost.

Definition feed_step (now : Z) (i : FeedInput) (f : BookTickerFeed) : BookTickerFeed * list FeedEvent :=
  match i, connected f with
  | InAttempt a, false => let '(f', e) := try_connect now a f in (f', [e])
  | InFrame fr, true => let '(f', e) := on_frame now fr f in (f', [e])
  | InLost, true => let '(f', e) := disconnect now f in (f', [e])
  | _, _ => (f, [])
  end.

(** ** Histories over a faithful exchange *)
Definition faithful_frame (ex : Exchange) (fr : Frame) : Prop :=
  match fr with FrameDepth u => faithful_update ex u | _ => True end.
Definition faithful_input (ex : Exchange) (i : FeedInput) : Prop :=
  match i with
  | InAttempt (AttemptOpened s frames) => faithful_snapshot DEPTH_SNAPSHOT_LIMIT ex s /\ Forall (faithful_frame ex) frames
  | InFrame fr => faithful_frame ex fr
  | _ => True
  end.

(** The snapshot of the connection in use, if there is one. *)
Definition used_snapshot (i : FeedInput) (f : BookTickerFeed) (s : DepthSnapshot) : DepthSnapshot :=
  match i with InAttempt (AttemptOpened snapshot _) => if connected f then s else snapshot | _ => s end.

(** Histories, with the snapshot of the last connection attempt. *)
Inductive feed_run (ex : Exchange) : BookTickerFeed -> list FeedEvent -> DepthSnapshot -> Prop :=
| feed_start sym now s : feed_run ex (new_feed sym now) [] s
| feed_next now i f tr s :
    feed_run ex f tr s -> faithful_input ex i -> generation f + 1 < 2 ^ 64 ->
    feed_run ex (feed_step now i f).1 (tr ++ (feed_step now i f).2) (used_snapshot i f s).

Abbreviation in_step := (synchronized DEPTH_SNAPSHOT_LIMIT).

Lemma bootstrap_loop_synchronized ex s expected frames b b' :
  Forall (faithful_frame ex) frames -> in_step ex s b -> symbol b = expected ->
  bootstrap_loop expected b frames = Ok (Some b') -> in_step ex s b' /\ symbol b' = expected.
Proof.
  intros Hf. revert b. induction Hf as [|fr frames Hfr Hf IH]; intros b Hs Hsym Hb; [done|].
  destruct fr as [u| |]; simpl in Hb; [|by apply (IH b)|done]. res_inv.
  assert (x = u) as -> by (unfold parse_depth_update in *; by res_inv).
  destruct (apply_depth u b) as [b1 r] eqn:Ha.
  destruct (apply_depth_outcomes _ ex s u b b1 r Hfr Hs Ha) as (_ & Hsym1 & Hr).
  destruct r as [[]|e]; simplify_eq.
  - destruct Hr as (? & _). split; [done|congruence].
  - destruct Hr as [-> _]. by apply (IH b).
Qed.

Lemma bootstrap_synchronized ex expected s frames b :
  faithful_input ex (InAttempt (AttemptOpened s frames)) -> bootstrap expected (AttemptOpened s frames) = Ok b ->
  in_step ex s b /\ symbol b = expected.
Proof.
  intros [Hs Hf] Hb. simpl in Hb. res_inv.
  match goal with E : from_snapshot _ _ = Ok _ |- _ =>
    destruct (from_snapshot_synchronized _ ex _ _ _ Hs E) as (Hsy & Hsym & _) end.
  subst. by eapply bootstrap_loop_synchronized.
Qed.

(** ** The invariant *)
Definition applied (tr : list FeedEvent) : list (Z * Z) :=
  omap (fun e => match e with DepthApplied g id => Some (g, id) | _ => None end) tr.
Definition earlier (a b : Z * Z) : Prop := a.1 < b.1 \/ a.1 = b.1 /\ a.2 < b.2.

Record feed_ok (ex : Exchange) (f : BookTickerFeed) (tr : list FeedEvent) (s : DepthSnapshot) : Prop := {
  fo_book : if connected f
            then exists b, depth_book f = Some b /\ in_step ex s b /\ symbol b = depth_symbol f
            else depth_book f = None;
  fo_delay : INITIAL_RECONNECT_DELAY <= reconnect_delay f <= MAX_RECONNECT_DELAY;
  fo_sorted : StronglySorted earlier (applied tr);
  fo_bound : Forall (fun x => x.1 <= generation f /\
    (connected f = true -> x.1 = generation f -> forall b, depth_book f = Some b -> x.2 <= last_update_id b))
    (applied tr);
}.

Lemma applied_quiet tr e : applied [e] = [] -> applied (tr ++ [e]) = applied tr.
Proof. intros He. unfold applied in *. by rewrite omap_app, He, app_nil_r. Qed.

Lemma disconnect_ok ex now f tr s :
  INITIAL_RECONNECT_DELAY <= reconnect_delay f <= MAX_RECONNECT_DELAY ->
  StronglySorted earlier (applied tr) -> Forall (fun x => x.1 <= generation f) (applied tr) ->
  feed_ok ex (disconnect now f).1 (tr ++ [(disconnect now f).2]) s.
Proof.
  intros Hd Hs Hb. unfold disconnect. simpl. split; simpl; rewrite ?applied_quiet by done; try done.
  - unfold INITIAL_RECONNECT_DELAY, MAX_RECONNECT_DELAY in *. lia.
  - eapply Forall_impl; [exact Hb|]. intros x Hx. by split.
Qed.

Lemma feed_step_ok ex now i f tr s :
  faithful_input ex i -> generation f + 1 < 2 ^ 64 -> feed_ok ex f tr s ->
  feed_ok ex (feed_step now i f).1 (tr ++ (feed_step now i f).2) (used_snapshot i f s).
Proof.
  intros Hi Hg Hf. pose proof Hf as [Hbk Hd Hs Hb].
  assert (Hgen : Forall (fun x => x.1 <= generation f) (applied tr)).
  { eapply Forall_impl; [exact Hb|]. intros x Hx. apply Hx. }
  unfold feed_step, used_snapshot. destruct i as [a|fr|], (connected f) eqn:Ec; simpl; rewrite ?app_nil_r; try done.
  - by destruct a.
  - unfold try_connect. destruct (bootstrap (depth_symbol f) a) as [b|e] eqn:Ea; [|by apply disconnect_ok].
    destruct a as [|snapshot frames]; [done|].
    destruct (bootstrap_synchronized ex _ _ _ _ Hi Ea) as [Hsy Hsym]. simpl.
    split; simpl; rewrite ?applied_quiet by done; try done; [by exists b|].
    eapply Forall_impl; [exact Hgen|]. intros x Hx. simpl in Hx. unfold saturating_add.
    split; [lia|]. intros _ He. lia.
  - destruct Hbk as (b & Eb & Hsy & Hsym). unfold on_frame, parse_payload.
    destruct fr as [u| |]; [|simpl; split; rewrite ?applied_quiet by done; try done; rewrite Ec;
                             [by exists b|done]|by apply disconnect_ok].
    destruct (parse_depth_update (depth_symbol f) u) as [u'|e] eqn:Eu; [|by apply disconnect_ok].
    assert (u' = u) as -> by (unfold parse_depth_update in Eu; by res_inv).
    rewrite Eb. destruct (apply_depth u b) as [b' r] eqn:Ea.
    destruct (apply_depth_outcomes _ ex s u b b' r Hi Hsy Ea) as (_ & Hsym' & Hr).
    destruct r as [[]|e]; [|by apply disconnect_ok|by apply disconnect_ok].
    destruct Hr as (Hsy' & Hlast & Hrange). simpl. split; simpl.
    + rewrite Ec. exists b'. split; [done|]. split; [done|]. congruence.
    + done.
    + unfold applied. rewrite omap_app. simpl. apply StronglySorted_app_2; [|done|by repeat constructor].
      intros x y Hx Hy. apply list_elem_of_singleton in Hy as ->. rewrite Forall_forall in Hb.
      destruct (Hb x Hx) as [Hle Hid]. unfold earlier. simpl.
      destruct (Z.eq_dec x.1 (generation f)) as [He|]; [right|left; lia].
      split; [done|]. specialize (Hid eq_refl He b Eb). lia.
    + unfold applied. rewrite omap_app. simpl. apply Forall_app. split.
      * eapply Forall_impl; [exact Hb|]. intros x [Hle Hid]. simpl. split; [done|].
        intros _ He b0 [= <-]. specialize (Hid eq_refl He b Eb). lia.
      * constructor; [|done]. simpl. split; [lia|]. intros _ _ b0 [= <-]. lia.
  - by apply disconnect_ok.
Qed.

(** C35. the depth book the strategies see is the exchange's, as deep as its snapshot:
    along every history of connections, frames and losses, where the snapshots list
    the best 5000 levels of each side and the updates say what changed, a connected
    reader offers a book that is well formed and uncrossed, shows no level the
    exchange does not have at its update id, and equals the exchange's book there at
    every price that the connection's snapshot reached - everywhere when the snapshot
    was not full; a disconnected reader offers none, the reported update ids strictly
    increase within a connection and connections are never reordered, and the
    reconnect delay stays within its bounds. *)
Theorem feed_tracks_exchange ex f tr s :
  feed_run ex f tr s ->
  (if connected f
   then exists b, depth_book f = Some b /\ synchronized DEPTH_SNAPSHOT_LIMIT ex s b /\ symbol b = depth_symbol f
   else depth_book f = None) /\
  StronglySorted earlier (applied tr) /\
  INITIAL_RECONNECT_DELAY <= reconnect_delay f <= MAX_RECONNECT_DELAY.
Proof.
  intros Hr. enough (Hok : feed_ok ex f tr s) by (split_and!; apply Hok).
  induction Hr as [sym now s|now i f tr s _ IH Hi Hg]; [|by apply feed_step_ok].
  split; simpl; try done; constructor.
Qed.
