(* ===== verification/DepthDemo.v ===== *)
(** * A concrete depth book

    Exact decimal arithmetic that refuses what does not fit, an exchange with
    two updates, and the theorems of [Depth] and [DepthFeed] at them. *)
From Stdlib Require Import Lia Sorted.
From stdpp Require Import base strings numbers list sorting.
From S2P Require Import Prelude Decimals Depth DepthFeed.

(** ** Exact arithmetic *)
Definition fit (m s : Z) : option Decimal :=
  if (Z.abs m <? 2 ^ 96) && (s <=? 28) then Some (mkDecimal m s) else None.
Definition common (a b : Decimal) : Z := Z.max (scale a) (scale b).

#[global] Instance exact_arith : DecimalArith := {
  dec_checked_add a b := fit (units (common a b) a + units (common a b) b) (common a b);
  dec_checked_sub a b := fit (units (common a b) a - units (common a b) b) (common a b);
  dec_checked_mul a b := fit (mantissa a * mantissa b) (scale a + scale b);
}.

Lemma fit_grid s c m :
  0 <= c <= s -> s <= 28 -> Z.abs (m * 10 ^ (s - c)) < 2 ^ 96 ->
  exists r, fit m c = Some r /\ on_grid s r /\ units s r = m * 10 ^ (s - c).
Proof.
  intros Hc Hs Hm. assert (Hp : 0 < 10 ^ (s - c)) by (apply Z.pow_pos_nonneg; lia).
  assert (Hb : Z.abs m < 2 ^ 96) by (rewrite Z.abs_mul in Hm; nia).
  exists (mkDecimal m c). unfold fit. rewrite (proj2 (Z.ltb_lt _ _)), (proj2 (Z.leb_le _ _)) by lia.
  split; [done|]. split; [|done]. split; [|simpl; lia]. split; simpl; lia.
Qed.

Lemma units_coarse s c d : scale d <= c <= s -> units s d = units c d * 10 ^ (s - c).
Proof.
  intros Hc. unfold units. rewrite <- Z.mul_assoc, <- Z.pow_add_r by lia. do 2 f_equal. lia.
Qed.

#[global] Instance exact_laws : DecimalLaws.
Proof.
  constructor.
  - intros s a b [Ha Hsa] [Hb Hsb] Hs Hf. simpl. assert (Hc : 0 <= common a b <= s).
    { unfold common. destruct Ha, Hb. lia. }
    rewrite (units_coarse s (common a b) a), (units_coarse s (common a b) b) in * by (unfold common in *; lia).
    rewrite <- Z.mul_add_distr_r in *. apply fit_grid; [lia|lia|done].
  - intros s a b [Ha Hsa] [Hb Hsb] Hs Hf. simpl. assert (Hc : 0 <= common a b <= s).
    { unfold common. destruct Ha, Hb. lia. }
    rewrite (units_coarse s (common a b) a), (units_coarse s (common a b) b) in * by (unfold common in *; lia).
    rewrite <- Z.mul_sub_distr_r in *. apply fit_grid; [lia|lia|done].
  - intros s t a b [Ha Hsa] [Hb Hsb] Hs Ht Hst Hf. simpl.
    assert (He : units s a * units t b = mantissa a * mantissa b * 10 ^ (s + t - (scale a + scale b))).
    { unfold units. destruct Ha, Hb.
      replace (s + t - (scale a + scale b)) with ((s - scale a) + (t - scale b)) by lia.
      rewrite Z.pow_add_r by lia. ring. }
    rewrite He in *. destruct Ha, Hb. apply fit_grid; [lia|lia|done].
Qed.

(** ** The book of the source's tests, and an update of it *)
Definition d (m s : Z) : Decimal := mkDecimal m s.
Definition demo_snapshot : DepthSnapshot :=
  mkSnapshot 100 [mkLevel (d 100 2) (d 2 0); mkLevel (d 99 2) (d 5 0)]
    [mkLevel (d 101 2) (d 3 0); mkLevel (d 102 2) (d 6 0)].
Definition demo_update : DepthUpdate :=
  mkUpdate "WLDUSDC" 1700000000123 100 102 [mkLevel (d 100 2) (d 0 0); mkLevel (d 98 2) (d 8 0)]
    [mkLevel (d 101 2) (d 4 0)].

Definition demo_book : SpotDepthBook :=
  match from_snapshot "WLDUSDC" demo_snapshot with Ok b => b | Err _ => mkBook "" 0 [] [] end.

Lemma demo_book_snapshot : from_snapshot "WLDUSDC" demo_snapshot = Ok demo_book.
Proof. vm_compute. reflexivity. Qed.

Lemma demo_levels_ok : Forall lv_ok (snap_bids demo_snapshot) /\ Forall lv_ok (snap_asks demo_snapshot) /\
  Forall lv_ok (upd_bids demo_update) /\ Forall lv_ok (upd_asks demo_update).
Proof.
  split_and!; repeat (apply Forall_cons; split); try apply Forall_nil; split;
    apply (bool_decide_unpack _); vm_compute; exact I.
Qed.

Lemma lists_whole limit worse levels : Forall lv_ok levels -> lists_best limit worse (fun t => last_level t levels) levels.
Proof. intros Hl. split; [done|]. intros t. destruct (last_level t levels); [done|by left]. Qed.

Lemma demo_book_ok : book_ok demo_book.
Proof.
  destruct demo_levels_ok as (Hb & Ha & _).
  assert (Hs : faithful_snapshot DEPTH_SNAPSHOT_LIMIT (mkExchange (fun _ t => last_level t (snap_bids demo_snapshot))
                 (fun _ t => last_level t (snap_asks demo_snapshot))) demo_snapshot) by (split; by apply lists_whole).
  destruct (from_snapshot_synchronized _ _ _ _ _ Hs demo_book_snapshot) as ([Hok _ _ _] & _). exact Hok.
Qed.

(** Four units sell for 3.98, eight cost 8.13. *)
Lemma demo_quotes :
  rmap (fun q => default dec_zero (quote_quantity <$> q)) (quote_market_sell demo_book (d 4 0)) = Ok (d 398 2) /\
  rmap (fun q => default dec_zero (quote_quantity <$> q)) (quote_market_buy demo_book (d 8 0)) = Ok (d 813 2).
Proof. split; vm_compute; reflexivity. Qed.

Lemma demo_quotable l base :
  forallb (fun x => bool_decide (on_grid 2 x.1) && bool_decide (on_grid 0 x.2)
                    && (0 <? mantissa x.1) && (0 <? mantissa x.2)) l
  && (book_value (to_units 0 2 l) <? 2 ^ 96) && bool_decide (on_grid 0 base)
  && (0 <? mantissa base) && (units 0 base <? 2 ^ 96) = true ->
  quotable 0 2 l base.
Proof.
  intros Hq. bool_prop. split_and!; try done. rewrite forallb_forall in *. apply Forall_forall.
  intros x Hx. apply list_elem_of_In in Hx.
  match goal with E : forall x, In x l -> _ |- _ => specialize (E x Hx) end. bool_prop. done.
Qed.

Lemma demo_bids_quotable : quotable 0 2 (rev (bids demo_book)) (d 4 0).
Proof. apply demo_quotable. vm_compute. reflexivity. Qed.
Lemma demo_asks_quotable : quotable 0 2 (asks demo_book) (d 4 0).
Proof. apply demo_quotable. vm_compute. reflexivity. Qed.

Lemma market_quotes_optimal_witness :
  is_ok (quote_market_sell demo_book (d 4 0)) = true /\
  best_quote 0 2 Z.le (rev (bids demo_book)) (d 4 0) (quote_market_sell demo_book (d 4 0)).
Proof.
  split; [vm_compute; reflexivity|].
  exact (proj1 (market_quotes_optimal 0 2 ltac:(lia) ltac:(lia) ltac:(lia) demo_book (d 4 0) demo_book_ok
    demo_bids_quotable demo_asks_quotable)).
Defined.

Definition demo_reconciled : DRes SpotDepthBook :=
  reconciled_with_top demo_book 102 (d 99 2) (d 1 0) (d 102 2) (d 1 0).

Lemma reconciled_exposes_no_stale_top_witness :
  exists b', demo_reconciled = Ok b' /\ offered (ticks (d 100 2)) (bids b') = None /\
    matches_top b' "WLDUSDC" 102 (d 99 2) (d 1 0) (d 102 2) (d 1 0) = true.
Proof.
  destruct demo_reconciled as [b'|e] eqn:E; [|vm_compute in E; discriminate E].
  exists b'. split; [reflexivity|].
  assert (Ho : forall m s, 0 < m < 2 ^ 96 -> 0 <= s <= 28 -> level_ok (d m s, d 1 0))
    by (intros m s Hm Hs; repeat split; simpl; lia).
  destruct (reconciled_exposes_no_stale_top demo_book 102 (d 99 2) (d 1 0) (d 102 2) (d 1 0) b'
              demo_book_ok (Ho 99 2 ltac:(lia) ltac:(lia)) (Ho 102 2 ltac:(lia) ltac:(lia)) E)
    as (_ & _ & Hm & Hb & _).
  split; [|exact Hm]. rewrite Hb. vm_compute. reflexivity.
Defined.

(** ** A reader that connects and applies the update *)
Definition before_bids (t : Z) : option Decimal := last_level t (snap_bids demo_snapshot).
Definition before_asks (t : Z) : option Decimal := last_level t (snap_asks demo_snapshot).
Definition after (before : Z -> option Decimal) (levels : list DepthLevel) (t : Z) : option Decimal :=
  match last_level t levels with Some q => written q | None => before t end.
Definition demo_exchange : Exchange :=
  mkExchange (fun id => if id <=? 100 then before_bids else after before_bids (upd_bids demo_update))
    (fun id => if id <=? 100 then before_asks else after before_asks (upd_asks demo_update)).

Lemma demo_side_faithful before levels :
  Forall lv_ok levels ->
  faithful_levels (fun id => if id <=? 100 then before else after before levels) 100 102 levels.
Proof.
  intros Hl. split; [done|]. intros t. simpl. unfold after. destruct (last_level t levels) eqn:E; [done|].
  intros id _. destruct (id <=? 100); [done|]. by rewrite E.
Qed.

Definition demo_attempt : FeedInput := InAttempt (AttemptOpened demo_snapshot [FrameTicker; FrameDepth demo_update]).
Definition demo_feed : BookTickerFeed := (feed_step 5 demo_attempt (new_feed "WLDUSDC" 0)).1.
Definition lost_feed : BookTickerFeed := (feed_step 9 (InFrame FrameOther) demo_feed).1.

Lemma demo_attempt_faithful : faithful_input demo_exchange demo_attempt.
Proof.
  destruct demo_levels_ok as (Hb & Ha & Ub & Ua). split; [split; by apply lists_whole|]. constructor; [done|].
  constructor; [|done]. split; by apply demo_side_faithful.
Qed.

Lemma demo_feed_run : feed_run demo_exchange demo_feed [FeedConnected 1] demo_snapshot.
Proof.
  exact (feed_next demo_exchange 5 demo_attempt _ [] demo_snapshot (feed_start demo_exchange "WLDUSDC" 0 demo_snapshot)
           demo_attempt_faithful eq_refl).
Qed.

Lemma feed_tracks_exchange_witness :
  connected demo_feed = true /\ depth_book lost_feed = None /\
  exists b, depth_book demo_feed = Some b /\ synchronized DEPTH_SNAPSHOT_LIMIT demo_exchange demo_snapshot b /\ symbol b = "WLDUSDC"%string.
Proof.
  split; [vm_compute; reflexivity|]. split; [vm_compute; reflexivity|].
  exact (proj1 (feed_tracks_exchange demo_exchange demo_feed _ _ demo_feed_run)).
Defined.
