(* ===== verification/RuntimeState.v ===== *)
(** * The engine's view of the feeds ([src/src/state.rs])

    The latest top of book per symbol with its connection generation, the
    balances and the phase derived from them.  Instants are nanoseconds of one
    monotonic clock; durations since a later instant are zero, as in the code. *)
From Stdlib Require Import Lia.
From stdpp Require Import base gmap strings numbers list fin_maps.
From S2P Require Import Prelude Decimals.

Record TopOfBook := mkTop {
  q_symbol : string;
  q_update_id : Z;
  bid_price : Decimal;
  bid_quantity : Decimal;
  ask_price : Decimal;
  ask_quantity : Decimal;
  q_received_at : Z;
  q_generation : Z;
}.

Definition new_top (symbol : string) (update_id : Z) (bp bq ap aq : Decimal) (received_at generation : Z)
  : result string TopOfBook :=
  ensure! dec_ltb dec_zero bp else "bid price must be positive"%string ;;
  ensure! dec_ltb dec_zero ap else "ask price must be positive"%string ;;
  ensure! dec_ltb dec_zero bq else "bid quantity must be positive"%string ;;
  ensure! dec_ltb dec_zero aq else "ask quantity must be positive"%string ;;
  ensure! dec_leb bp ap else "bid price must not exceed ask price"%string ;;
  Ok (mkTop symbol update_id bp bq ap aq received_at generation).

Inductive RuntimePhase := Starting | Ready | Degraded | Stopping.
#[global] Instance RuntimePhase_eq_dec : EqDecision RuntimePhase.
Proof. solve_decision. Defined.

Inductive QuoteApplyResult := QuoteAccepted | UnknownSymbol | StaleGeneration | DuplicateOrRegressed.
#[global] Instance QuoteApplyResult_eq_dec : EqDecision QuoteApplyResult.
Proof. solve_decision. Defined.

Record BinanceFeedState := mkFeedState {
  fs_connected : bool;
  fs_generation : Z;
  fs_last_update_id : option Z;
  fs_book : option TopOfBook;
  fs_accepted : Z;
  fs_rejected : Z;
  fs_depth_update_id : option Z;
  fs_depth_received_at : option Z;
  fs_last_activity : option Z;
}.
Definition default_feed : BinanceFeedState := mkFeedState false 0 None None 0 0 None None None.

(** The fields of the balance snapshots that the state reads. *)
Record BinanceBalanceSnapshot := mkBinanceBalances {
  account_type : string; can_trade : bool; bb_observed_at : Z }.
Record WalletBalanceSnapshot := mkWalletBalances { block_number : Z; wb_observed_at : Z }.
Record BalanceState := mkBalances {
  bs_binance : option BinanceBalanceSnapshot;
  bs_wallet : option WalletBalanceSnapshot;
  binance_failures : Z;
  wallet_failures : Z;
}.
Inductive BalanceSource := SourceBinance | SourceWallet.

Record RuntimeState := mkRuntime {
  phase : RuntimePhase;
  binance_feeds : gmap string BinanceFeedState;
  processed_events : Z;
  balances : BalanceState;
  ever_ready : bool;
  require_binance_depth : bool;
}.

(** [x += 1] on 64 bits. *)
Definition inc64 (x : Z) : Z := (x + 1) mod 2 ^ 64.

(** [now.saturating_duration_since(then)] and its whole milliseconds. *)
Definition since (now earlier : Z) : Z := Z.max 0 (now - earlier).
Definition millis (d : Z) : Z := d / 1000000.
Definition within_ms (now max_age_ms earlier : Z) : bool := millis (since now earlier) <=? max_age_ms.
Definition opt_test {A} (f : A -> bool) (o : option A) : bool := match o with Some a => f a | None => false end.

(** ** Balances *)
Definition healthy (s : BinanceBalanceSnapshot) : bool :=
  bool_decide (account_type s = "SPOT"%string) && can_trade s.
Definition apply_binance (s : BinanceBalanceSnapshot) (b : BalanceState) : BalanceState :=
  mkBalances (Some s) (bs_wallet b) (binance_failures b) (wallet_failures b).
Definition apply_wallet (s : WalletBalanceSnapshot) (b : BalanceState) : BalanceState :=
  if opt_test (fun cur => block_number s <? block_number cur) (bs_wallet b) then b
  else mkBalances (bs_binance b) (Some s) (binance_failures b) (wallet_failures b).
Definition record_failure (src : BalanceSource) (b : BalanceState) : BalanceState :=
  match src with
  | SourceBinance => mkBalances (bs_binance b) (bs_wallet b) (inc64 (binance_failures b)) (wallet_failures b)
  | SourceWallet => mkBalances (bs_binance b) (bs_wallet b) (binance_failures b) (inc64 (wallet_failures b))
  end.
Definition is_fresh (now max_age_ms : Z) (b : BalanceState) : bool :=
  opt_test (fun s => healthy s && within_ms now max_age_ms (bb_observed_at s)) (bs_binance b)
  && opt_test (fun s => within_ms now max_age_ms (wb_observed_at s)) (bs_wallet b).

(** ** Feeds *)
Definition with_depth_requirement (symbols : list string) (depth : bool) : RuntimeState :=
  mkRuntime Starting (list_to_map (map (fun s => (s, default_feed)) symbols)) 0
    (mkBalances None None 0 0) false depth.

Definition put_feed (s : RuntimeState) (sym : string) (f : BinanceFeedState) (events : Z) : RuntimeState :=
  mkRuntime (phase s) (<[sym := f]> (binance_feeds s)) events (balances s) (ever_ready s)
    (require_binance_depth s).

Definition on_connected (sym : string) (generation observed_at : Z) (s : RuntimeState) : RuntimeState :=
  match binance_feeds s !! sym with
  | None => s
  | Some f =>
      if generation <? fs_generation f then s else
      put_feed s sym
        (mkFeedState true generation None None (fs_accepted f) (fs_rejected f) None None (Some observed_at))
        (inc64 (processed_events s))
  end.

Definition on_disconnected (sym : string) (generation : Z) (s : RuntimeState) : RuntimeState :=
  match binance_feeds s !! sym with
  | None => s
  | Some f =>
      if negb (generation =? fs_generation f) then s else
      put_feed s sym
        (mkFeedState false (fs_generation f) (fs_last_update_id f) None (fs_accepted f) (fs_rejected f)
           None None None)
        (inc64 (processed_events s))
  end.

Definition touch (f : BinanceFeedState) (at_ : Z) : BinanceFeedState :=
  mkFeedState (fs_connected f) (fs_generation f) (fs_last_update_id f) (fs_book f) (fs_accepted f)
    (fs_rejected f) (fs_depth_update_id f) (fs_depth_received_at f) (Some at_).
Definition reject (f : BinanceFeedState) : BinanceFeedState :=
  mkFeedState (fs_connected f) (fs_generation f) (fs_last_update_id f) (fs_book f) (fs_accepted f)
    (inc64 (fs_rejected f)) (fs_depth_update_id f) (fs_depth_received_at f) (fs_last_activity f).

Definition record_transport_activity (sym : string) (generation observed_at : Z) (s : RuntimeState)
  : RuntimeState * bool :=
  match binance_feeds s !! sym with
  | None => (s, false)
  | Some f =>
      if negb (fs_connected f) || negb (generation =? fs_generation f) then (s, false)
      else (put_feed s sym (touch f observed_at) (inc64 (processed_events s)), true)
  end.

Definition apply_quote (q : TopOfBook) (s : RuntimeState) : RuntimeState * QuoteApplyResult :=
  match binance_feeds s !! q_symbol q with
  | None => (s, UnknownSymbol)
  | Some f =>
      if negb (q_generation q =? fs_generation f)
      then (put_feed s (q_symbol q) (reject f) (processed_events s), StaleGeneration) else
      let f := touch f (q_received_at q) in
      if opt_test (fun last => q_update_id q <=? last) (fs_last_update_id f)
      then (put_feed s (q_symbol q) (reject f) (processed_events s), DuplicateOrRegressed) else
      (put_feed s (q_symbol q)
         (mkFeedState (fs_connected f) (fs_generation f) (Some (q_update_id q)) (Some q)
            (inc64 (fs_accepted f)) (fs_rejected f) (fs_depth_update_id f) (fs_depth_received_at f)
            (fs_last_activity f))
         (inc64 (processed_events s)), QuoteAccepted)
  end.

Definition apply_depth_update (sym : string) (generation update_id received_at : Z) (s : RuntimeState)
  : RuntimeState * QuoteApplyResult :=
  match binance_feeds s !! sym with
  | None => (s, UnknownSymbol)
  | Some f =>
      if negb (generation =? fs_generation f)
      then (put_feed s sym (reject f) (processed_events s), StaleGeneration) else
      let f := touch f received_at in
      if opt_test (fun last => update_id <=? last) (fs_depth_update_id f)
      then (put_feed s sym (reject f) (processed_events s), DuplicateOrRegressed) else
      (put_feed s sym
         (mkFeedState (fs_connected f) (fs_generation f) (fs_last_update_id f) (fs_book f)
            (fs_accepted f) (fs_rejected f) (Some update_id) (Some received_at) (fs_last_activity f))
         (inc64 (processed_events s)), QuoteAccepted)
  end.

(** ** Readiness *)
Definition feed_price_ready (now max_age_ms : Z) (f : BinanceFeedState) : bool :=
  fs_connected f && negb (bool_decide (fs_book f = None)) && opt_test (within_ms now max_age_ms) (fs_last_activity f).

Definition binance_symbol_price_ready (s : RuntimeState) (sym : string) (now max_silence_ms : Z) : bool :=
  opt_test (feed_price_ready now max_silence_ms) (binance_feeds s !! sym).

Definition binance_ready (s : RuntimeState) (now max_age_ms : Z) : bool :=
  negb (bool_decide (binance_feeds s = ∅))
  && forallb (fun f => feed_price_ready now max_age_ms f
                       && (negb (require_binance_depth s)
                           || opt_test (within_ms now max_age_ms) (fs_depth_received_at f)))
       (btree_values (binance_feeds s)).

Definition refresh_phase_from_inputs (binance_is_ready external_ready : bool) (s : RuntimeState) : RuntimeState :=
  if bool_decide (phase s = Stopping) then s else
  let ready := external_ready && binance_is_ready in
  mkRuntime (if ready then Ready else if ever_ready s then Degraded else Starting)
    (binance_feeds s) (processed_events s) (balances s) (ever_ready s || ready) (require_binance_depth s).
Definition refresh_phase (now max_age_ms : Z) (external_ready : bool) (s : RuntimeState) : RuntimeState :=
  refresh_phase_from_inputs (binance_ready s now max_age_ms) external_ready s.
Definition stop (s : RuntimeState) : RuntimeState :=
  mkRuntime Stopping (binance_feeds s) (processed_events s) (balances s) (ever_ready s) (require_binance_depth s).
