(* ===== verification/Preflight.v ===== *)
(** * The entry preflight ([src/src/arbitrage.rs], [EntryPreflightHandle])

    The last check before an admitted opportunity is dispatched: that the
    exchange price, the chain head and the pool it was computed from are still
    live, and that it still pays.  The read-write lock makes each method one
    transition; [now] is the monotonic clock in nanoseconds.  [market_event] is
    the part of the engine ([src/src/engine.rs]) that feeds both this state and
    [RuntimeState]. *)
From Stdlib Require Import Lia.
From stdpp Require Import base gmap strings numbers list fin_maps.
From S2P Require Import Prelude Decimals Clmm ClmmCurve ExecutionPlan TradeData PaperOpportunity RuntimeState.

Record PreflightTransportState := mkTransport {
  tr_generation : Z;
  tr_connected : bool;
  tr_last_activity : Z;
}.

Record PreflightDexPool := mkPreflightPool {
  pp_generation : Z;
  pp_fee_generation : Z;
  pp_token_a_decimals : Z;
  pp_token_b_decimals : Z;
  pp_buy_curve : PreparedQuoteCurve;
  pp_sell_curve : PreparedQuoteCurve;
}.

Record EntryPreflightState := mkPreflight {
  quotes : gmap string TopOfBook;
  max_transport_silence_ms : gmap string Z;
  transport : gmap string PreflightTransportState;
  dex_max_head_age_ms : option Z;
  dex_head_received_at : gmap string Z;
  dex_pools : gmap (string * Z) PreflightDexPool;
}.
Definition no_preflight : EntryPreflightState := mkPreflight ∅ ∅ ∅ None ∅ ∅.

(** ** Updates *)
Definition set_transport (s : EntryPreflightState) (sym : string) (t : PreflightTransportState)
  : EntryPreflightState :=
  mkPreflight (quotes s) (max_transport_silence_ms s) (<[sym := t]> (transport s)) (dex_max_head_age_ms s)
    (dex_head_received_at s) (dex_pools s).
Definition set_quote (s : EntryPreflightState) (q : TopOfBook) : EntryPreflightState :=
  mkPreflight (<[q_symbol q := q]> (quotes s)) (max_transport_silence_ms s) (transport s)
    (dex_max_head_age_ms s) (dex_head_received_at s) (dex_pools s).

Definition configure_max_transport_silence (sym : string) (max_age_ms : Z) (s : EntryPreflightState)
  : EntryPreflightState :=
  mkPreflight (quotes s) (<[sym := max_age_ms]> (max_transport_silence_ms s)) (transport s)
    (dex_max_head_age_ms s) (dex_head_received_at s) (dex_pools s).
Definition configure_dex_max_head_age (max_age_ms : Z) (s : EntryPreflightState) : EntryPreflightState :=
  mkPreflight (quotes s) (max_transport_silence_ms s) (transport s) (Some max_age_ms)
    (dex_head_received_at s) (dex_pools s).

Definition update_dex_head (pair : string) (received_at : Z) (s : EntryPreflightState)
  : EntryPreflightState :=
  if is_none_or (dex_head_received_at s !! pair) (fun current => current <=? received_at)
  then mkPreflight (quotes s) (max_transport_silence_ms s) (transport s) (dex_max_head_age_ms s)
         (<[pair := received_at]> (dex_head_received_at s)) (dex_pools s)
  else s.

Definition on_feed_connected (sym : string) (generation observed_at : Z) (s : EntryPreflightState)
  : EntryPreflightState :=
  if is_none_or (transport s !! sym) (fun current => tr_generation current <=? generation)
  then set_transport s sym (mkTransport generation true observed_at) else s.

Definition on_feed_disconnected (sym : string) (generation : Z) (s : EntryPreflightState)
  : EntryPreflightState :=
  match transport s !! sym with
  | Some t =>
      if tr_generation t =? generation
      then set_transport s sym (mkTransport (tr_generation t) false (tr_last_activity t)) else s
  | None => s
  end.

Definition preflight_activity (sym : string) (generation observed_at : Z) (s : EntryPreflightState)
  : EntryPreflightState :=
  match transport s !! sym with
  | Some t =>
      if tr_connected t && (tr_generation t =? generation)
      then set_transport s sym (mkTransport (tr_generation t) (tr_connected t) observed_at) else s
  | None => s
  end.

Definition update_quote (q : TopOfBook) (s : EntryPreflightState) : EntryPreflightState :=
  if is_none_or (quotes s !! q_symbol q)
       (fun current => (q_generation current <? q_generation q)
                       || ((q_generation q =? q_generation current)
                           && (q_update_id current <=? q_update_id q)))
  then set_quote (set_transport s (q_symbol q) (mkTransport (q_generation q) true (q_received_at q))) q
  else s.

Definition update_dex_pool_with_fee_generation (pair : string) (index : Z) (p : PreflightDexPool)
    (s : EntryPreflightState) : EntryPreflightState :=
  mkPreflight (quotes s) (max_transport_silence_ms s) (transport s) (dex_max_head_age_ms s)
    (dex_head_received_at s) (<[(pair, index) := p]> (dex_pools s)).

(** ** The current top and the primary price *)
Record FreshBinanceTopSnapshot := mkFresh {
  ft_quote : TopOfBook;
  ft_price_age_ms : Z;
  ft_transport_silence_ms : Z;
}.

(** [elapsed > Duration::from_millis(max)]. *)
Definition silent (now max_ms last : Z) : bool := max_ms * 1000000 <? since now last.
Definition clamp_millis (d : Z) : Z := Z.min (millis d) U64_MAX.

Definition fresh_binance_top (now : Z) (sym : string) (s : EntryPreflightState)
  : option FreshBinanceTopSnapshot :=
  q ← quotes s !! sym;
  t ← transport s !! sym;
  max_ms ← max_transport_silence_ms s !! sym;
  if negb (tr_connected t) || negb (tr_generation t =? q_generation q) || silent now max_ms (tr_last_activity t)
  then None
  else Some (mkFresh q (clamp_millis (since now (q_received_at q))) (clamp_millis (since now (tr_last_activity t)))).

Record PrimaryLimitPriceSelection := mkSelection {
  selected_price : Decimal;
  memory_top : option FreshBinanceTopSnapshot;
  observed_price : option Decimal;
  observed_quantity : option Decimal;
  target_quantity : Decimal;
  top_covers_target : option bool;
  price_improvement_available : bool;
  selection_reason : string;
}.

(** The larger and the smaller by value. *)
Definition decimal_max (a b : Decimal) : Decimal := if dec_ltb a b then b else a.
Definition decimal_min (a b : Decimal) : Decimal := if dec_ltb b a then b else a.

Definition favorable_primary_limit_price (now : Z) (sym : string) (d : ArbitrageDirection)
    (admission_price target : Decimal) (s : EntryPreflightState) : PrimaryLimitPriceSelection :=
  match fresh_binance_top now sym s with
  | None => mkSelection admission_price None None None target None false "fresh_top_unavailable"
  | Some top =>
      let '(price, quantity, favorable) :=
        match d with
        | BuyTokenBOnDexSellOnCex =>
            (bid_price (ft_quote top), bid_quantity (ft_quote top),
             decimal_max admission_price (bid_price (ft_quote top)))
        | BuyTokenBOnCexSellOnDex =>
            (ask_price (ft_quote top), ask_quantity (ft_quote top),
             decimal_min admission_price (ask_price (ft_quote top)))
        end in
      let improves := negb (dec_eqb favorable admission_price) in
      let covers := dec_ltb dec_zero target && dec_leb target quantity in
      let '(selected, reason) :=
        if negb improves then (admission_price, "fresh_top_price_not_favorable"%string)
        else if covers then (favorable, "fresh_top_price_improved_with_full_coverage"%string)
        else (admission_price, "fresh_top_quantity_below_target"%string) in
      mkSelection selected (Some top) (Some price) (Some quantity) target (Some covers) improves reason
  end.

(** ** The check *)
Definition BPS_DENOMINATOR : Z := 10000.

Fixpoint pow10_u256 (exponent : nat) : TRes Z :=
  match exponent with
  | O => Ok 1
  | S e => let? v := pow10_u256 e in or_err (checked_mul 256 v 10) "preflight decimal scale overflow"
  end.

Definition token_b_at_price (token_b : Z) (price : Decimal) (a_decimals b_decimals : Z) (round_up : bool)
  : TRes Z :=
  ensure! dec_ltb dec_zero price else "preflight CEX price is non-positive" ;;
  let? a_scale := pow10_u256 (Z.to_nat a_decimals) in
  let? numerator := or_err (v ← checked_mul 256 token_b (mantissa price); checked_mul 256 v a_scale)
                      "preflight CEX quote numerator overflow" in
  let? b_scale := pow10_u256 (Z.to_nat b_decimals) in
  let? p_scale := pow10_u256 (Z.to_nat (scale price)) in
  let? denominator := or_err (checked_mul 256 b_scale p_scale)
                        "preflight CEX quote denominator overflow" in
  let quotient := numerator / denominator in
  if round_up && negb (numerator mod denominator =? 0)
  then or_err (checked_add 256 quotient 1) "preflight CEX quote rounding overflow"
  else Ok quotient.

Definition meets_spread_threshold (proceeds cost threshold_bps : Z) : TRes bool :=
  ensure! 0 <? cost else "preflight cost is zero" ;;
  let? lhs := or_err (checked_mul 256 proceeds BPS_DENOMINATOR) "preflight threshold proceeds overflow" in
  let? rhs := or_err (checked_mul 256 cost (BPS_DENOMINATOR + threshold_bps))
                "preflight threshold cost overflow" in
  Ok (rhs <=? lhs).

Definition adaptive_route (r : DexRoutePlan) : bool := negb (bool_decide (adaptive_generations r = None)).

Section check.
Context `{EvmText} `{UniswapV3Math}.

Definition price_live (now : Z) (sym : string) (q : TopOfBook) (s : EntryPreflightState) : bool :=
  is_some_and (transport s !! sym) (fun t =>
    tr_connected t && (tr_generation t =? q_generation q)
    && is_some_and (max_transport_silence_ms s !! sym) (fun m => negb (silent now m (tr_last_activity t)))).

Definition head_live (now : Z) (pair : string) (s : EntryPreflightState) : bool :=
  is_some_and (dex_head_received_at s !! pair) (fun at_ =>
    is_some_and (dex_max_head_age_ms s) (fun m => negb (silent now m at_))).

(** Cost and proceeds at the current prices, rounded against the trade. *)
Definition current_economics (o : PaperOpportunity) (q : TopOfBook) (p : PreflightDexPool) (out : Z)
  : TRes (Z * Z) :=
  let amount_in := amount_in_base_units (op_dex_plan o) in
  match op_direction o with
  | BuyTokenBOnDexSellOnCex =>
      let? proceeds := token_b_at_price out (bid_price q) (pp_token_a_decimals p) (pp_token_b_decimals p) false in
      Ok (amount_in, proceeds)
  | BuyTokenBOnCexSellOnDex =>
      let? cost := token_b_at_price amount_in (ask_price q) (pp_token_a_decimals p) (pp_token_b_decimals p) true in
      Ok (cost, out)
  end.

(** [Some reason] is a rejection; the detail texts are left out.  [unix] is the
    wall clock in seconds. *)
Definition check (now : Z) (unix : TRes Z) (o : PaperOpportunity) (s : EntryPreflightState)
  : TRes (option string) :=
  let? _ := validate_opportunity o in
  match quotes s !! op_symbol o with
  | None => Ok (Some "preflight_price_not_fresh"%string)
  | Some q =>
      if negb (price_live now (op_symbol o) q s) then Ok (Some "preflight_price_not_fresh"%string) else
      if negb (head_live now (op_pair_id o) s) then Ok (Some "preflight_price_not_fresh"%string) else
      match dex_pools s !! (op_pair_id o, op_dex_pool_index o) with
      | None => Ok (Some "preflight_price_not_fresh"%string)
      | Some p =>
          let adaptive := adaptive_route (route (op_dex_plan o)) in
          let price := match op_direction o with
                       | BuyTokenBOnDexSellOnCex => bid_price q
                       | BuyTokenBOnCexSellOnDex => ask_price q
                       end in
          let? expired := if adaptive
                          then let? t := unix in Ok (deadline_unix_seconds (op_dex_plan o) <? t)
                          else Ok false in
          if (expired : bool) then Ok (Some "preflight_fee_horizon_expired"%string) else
          if opportunity_threshold_met (op_admission o)
             && dec_eqb price (cex_primary_limit_price (op_admission o))
             && (pp_generation p =? op_dex_pool_generation o)
             && (pp_fee_generation p =? op_dex_fee_generation o)
          then Ok None else
          let curve := match op_direction o with
                       | BuyTokenBOnDexSellOnCex => pp_buy_curve p
                       | BuyTokenBOnCexSellOnDex => pp_sell_curve p
                       end in
          match curve_quote curve (amount_in_base_units (op_dex_plan o)) with
          | Err _ => Ok (Some "preflight_spread_below_threshold"%string)
          | Ok out =>
              if out <? amount_out_minimum_base_units (op_dex_plan o)
              then Ok (Some "preflight_dex_minimum_not_met"%string) else
              let? '(cost, proceeds) := current_economics o q p out in
              let? enough := meets_spread_threshold proceeds cost (opportunity_threshold_bps (op_admission o)) in
              if negb enough then Ok (Some "preflight_spread_below_threshold"%string) else
              if adaptive && negb (pp_fee_generation p =? op_dex_fee_generation o)
              then Ok (Some "preflight_fee_generation_changed"%string) else Ok None
          end
      end
  end.
End check.

(** ** What passing the check means *)
Lemma pow10_u256_Ok e v : pow10_u256 e = Ok v -> v = 10 ^ Z.of_nat e.
Proof.
  revert v. induction e as [|e IH]; intros v Hv; simpl in Hv; [by injection Hv as <-|]. res_inv.
  match goal with E : checked_mul _ _ _ = Some _ |- _ => apply checked_mul_Some in E as [-> _] end.
  match goal with E : pow10_u256 _ = Ok _ |- _ => apply IH in E as -> end.
  rewrite Nat2Z.inj_succ, Z.pow_succ_r by lia. lia.
Qed.

(** The exact price of an amount, as a fraction. *)
Definition price_numerator (token_b : Z) (price : Decimal) (a_decimals : Z) : Z :=
  token_b * mantissa price * 10 ^ a_decimals.
Definition price_denominator (price : Decimal) (b_decimals : Z) : Z := 10 ^ b_decimals * 10 ^ scale price.

Lemma token_b_at_price_bounds token_b price da db up v :
  0 <= da -> 0 <= db -> 0 <= scale price ->
  token_b_at_price token_b price da db up = Ok v ->
  let d := price_denominator price db in
  0 < d /\
  if up then price_numerator token_b price da <= v * d < price_numerator token_b price da + d
  else v * d <= price_numerator token_b price da < v * d + d.
Proof.
  intros Ha Hb Hsc Hv d. subst d. unfold token_b_at_price in Hv. res_inv.
  repeat match goal with E : pow10_u256 _ = Ok _ |- _ => apply pow10_u256_Ok in E as -> end.
  match goal with E : _ ≫= _ = Some _ |- _ => apply bind_Some in E as (n & E1 & E2) end.
  apply checked_mul_Some in E1 as [-> _], E2 as [-> _].
  match goal with E : checked_mul _ _ _ = Some _ |- _ => apply checked_mul_Some in E as [-> _] end.
  rewrite !Z2Nat.id in * by lia. unfold price_numerator, price_denominator.
  set (n := token_b * mantissa price * 10 ^ da) in *. set (d := 10 ^ db * 10 ^ scale price) in *.
  assert (Hd : 0 < d) by (apply Z.mul_pos_pos; apply Z.pow_pos_nonneg; lia). split; [done|].
  pose proof (Z.div_mod n d ltac:(lia)). pose proof (Z.mod_pos_bound n d Hd).
  destruct up; simpl in Hv.
  - destruct (Z.eqb_spec (n mod d) 0); simpl in Hv; [injection Hv as <-; nia|].
    apply or_err_Ok, checked_add_Some in Hv as [-> _]. nia.
  - injection Hv as <-. nia.
Qed.

(** The spread in exact arithmetic: proceeds over cost at least one plus the
    threshold, with the exchange leg at its exact price. *)
Definition pays (o : PaperOpportunity) (q : TopOfBook) (p : PreflightDexPool) (out : Z) : Prop :=
  let bps := opportunity_threshold_bps (op_admission o) in
  let amount_in := amount_in_base_units (op_dex_plan o) in
  match op_direction o with
  | BuyTokenBOnDexSellOnCex =>
      amount_in * (BPS_DENOMINATOR + bps) * price_denominator (bid_price q) (pp_token_b_decimals p)
      <= price_numerator out (bid_price q) (pp_token_a_decimals p) * BPS_DENOMINATOR
  | BuyTokenBOnCexSellOnDex =>
      price_numerator amount_in (ask_price q) (pp_token_a_decimals p) * (BPS_DENOMINATOR + bps)
      <= out * BPS_DENOMINATOR * price_denominator (ask_price q) (pp_token_b_decimals p)
  end.

Record preflight_typed (o : PaperOpportunity) (q : TopOfBook) (p : PreflightDexPool) : Prop := {
  py_bps : 0 <= opportunity_threshold_bps (op_admission o);
  py_a : 0 <= pp_token_a_decimals p;
  py_b : 0 <= pp_token_b_decimals p;
  py_bid : 0 <= scale (bid_price q);
  py_ask : 0 <= scale (ask_price q);
}.

Lemma threshold_pays o q p out cost proceeds :
  preflight_typed o q p -> current_economics o q p out = Ok (cost, proceeds) ->
  meets_spread_threshold proceeds cost (opportunity_threshold_bps (op_admission o)) = Ok true -> pays o q p out.
Proof.
  intros [Hbps Ha Hb Hbid Hask] He Hm. unfold meets_spread_threshold in Hm. res_inv.
  repeat match goal with E : checked_mul _ _ _ = Some _ |- _ => apply checked_mul_Some in E as [-> _] end.
  match goal with E : (_ <=? _) = true |- _ => apply Z.leb_le in E end. bool_prop.
  unfold pays, current_economics in *. destruct (op_direction o); res_inv.
  - match goal with E : token_b_at_price _ _ _ _ _ = Ok _ |- _ =>
      apply token_b_at_price_bounds in E as [Hd Hv]; [|done..] end. unfold BPS_DENOMINATOR in *. nia.
  - match goal with E : token_b_at_price _ _ _ _ _ = Ok _ |- _ =>
      apply token_b_at_price_bounds in E as [Hd Hv]; [|done..] end. unfold BPS_DENOMINATOR in *. nia.
Qed.

Section passing.
Context `{EvmText} `{UniswapV3Math}.

Definition priced_curve (o : PaperOpportunity) (p : PreflightDexPool) : PreparedQuoteCurve :=
  match op_direction o with
  | BuyTokenBOnDexSellOnCex => pp_buy_curve p
  | BuyTokenBOnCexSellOnDex => pp_sell_curve p
  end.

(** The inputs the opportunity was computed from have not moved. *)
Definition unmoved (o : PaperOpportunity) (q : TopOfBook) (p : PreflightDexPool) : Prop :=
  opportunity_threshold_met (op_admission o) = true /\
  dec_eq (match op_direction o with
          | BuyTokenBOnDexSellOnCex => bid_price q
          | BuyTokenBOnCexSellOnDex => ask_price q
          end) (cex_primary_limit_price (op_admission o)) /\
  pp_generation p = op_dex_pool_generation o /\ pp_fee_generation p = op_dex_fee_generation o.

Lemma price_live_iff now sym q s :
  price_live now sym q s = true <->
  exists t m, transport s !! sym = Some t /\ max_transport_silence_ms s !! sym = Some m /\
    tr_connected t = true /\ tr_generation t = q_generation q /\ since now (tr_last_activity t) <= m * 1000000.
Proof.
  unfold price_live, silent. destruct (transport s !! sym) as [t|], (max_transport_silence_ms s !! sym) as [m|];
    simpl; rewrite ?andb_true_iff, ?negb_true_iff, ?Z.ltb_ge, ?Z.eqb_eq; naive_solver.
Qed.

Lemma head_live_iff now pair s :
  head_live now pair s = true <->
  exists t m, dex_head_received_at s !! pair = Some t /\ dex_max_head_age_ms s = Some m /\
    since now t <= m * 1000000.
Proof.
  unfold head_live, silent. destruct (dex_head_received_at s !! pair) as [t|], (dex_max_head_age_ms s) as [m|];
    simpl; rewrite ?negb_true_iff, ?Z.ltb_ge; naive_solver.
Qed.

(** C37. an opportunity passes the preflight only while everything it rests on is
    live: the exchange quote belongs to a connected transport of the same
    generation that spoke within its window, the chain head was seen within its
    window and the pool is known; an adaptive-fee plan is inside its deadline and
    fee generation; and either price, pool and fee have not moved since admission,
    or the current pool still returns the plan's minimum and the trade still pays
    its threshold in exact arithmetic. *)
Theorem preflight_passes_live_and_paying now unix o s :
  check now unix o s = Ok None ->
  exists q p,
    quotes s !! op_symbol o = Some q /\ dex_pools s !! (op_pair_id o, op_dex_pool_index o) = Some p /\
    (exists t m, transport s !! op_symbol o = Some t /\ max_transport_silence_ms s !! op_symbol o = Some m /\
       tr_connected t = true /\ tr_generation t = q_generation q /\
       since now (tr_last_activity t) <= m * 1000000) /\
    (exists t m, dex_head_received_at s !! op_pair_id o = Some t /\ dex_max_head_age_ms s = Some m /\
       since now t <= m * 1000000) /\
    (adaptive_route (route (op_dex_plan o)) = true ->
       pp_fee_generation p = op_dex_fee_generation o /\
       exists t, unix = Ok t /\ t <= deadline_unix_seconds (op_dex_plan o)) /\
    (preflight_typed o q p ->
       unmoved o q p \/
       exists out, curve_quote (priced_curve o p) (amount_in_base_units (op_dex_plan o)) = Ok out /\
         amount_out_minimum_base_units (op_dex_plan o) <= out /\ pays o q p out).
Proof.
  intros Hc. unfold check in Hc. apply rbind_Ok in Hc as ([] & _ & Hc).
  destruct (quotes s !! op_symbol o) as [q|] eqn:Hq; [|done].
  destruct (price_live _ _ q s) eqn:Hl; [|done]. destruct (head_live _ _ s) eqn:Hh; [|done]. simpl in Hc.
  destruct (dex_pools s !! _) as [p|] eqn:Hp; [|done]. exists q, p.
  apply price_live_iff in Hl. apply head_live_iff in Hh. split_and!; try done; clear Hl Hh.
  - intros Had. rewrite Had in Hc. apply rbind_Ok in Hc as (expired & He & Hc). simpl in He.
    apply rbind_Ok in He as (t & Ht & He). injection He as <-.
    destruct (Z.ltb_spec (deadline_unix_seconds (op_dex_plan o)) t); [done|]. split; [|eauto].
    destruct (_ && _) eqn:Hun in Hc; [by bool_prop|].
    destruct (curve_quote _ _) as [out|]; [|done]. destruct (_ <? _); [done|].
    apply rbind_Ok in Hc as ([cost proceeds] & _ & Hc). apply rbind_Ok in Hc as ([] & _ & Hc); [|done].
    simpl in Hc. destruct (Z.eqb_spec (pp_fee_generation p) (op_dex_fee_generation o)); done.
  - intros Hty. apply rbind_Ok in Hc as (expired & _ & Hc). destruct expired; [done|].
    destruct (_ && _) eqn:Hun in Hc.
    { left. bool_prop. split_and!; [done|by apply dec_eqb_eq|done..]. }
    right. fold (priced_curve o p) in Hc.
    destruct (curve_quote (priced_curve o p) _) as [out|]; [|done]. exists out. split; [done|].
    destruct (Z.ltb_spec out (amount_out_minimum_base_units (op_dex_plan o))); [done|]. split; [done|].
    apply rbind_Ok in Hc as ([cost proceeds] & He & Hc). apply rbind_Ok in Hc as ([] & Hm & Hc); [|done].
    by eapply threshold_pays.
Qed.
End passing.

(** The exchange leg is never priced worse than at admission: the selected
    price is at least the admitted one when selling and at most it when buying,
    and differs from it only by taking the current best price of a live
    connection whose quantity covers the whole hedge. *)
Theorem primary_price_never_worse now sym d admitted target s :
  let r := favorable_primary_limit_price now sym d admitted target s in
  match d with
  | BuyTokenBOnDexSellOnCex => dec_le admitted (selected_price r)
  | BuyTokenBOnCexSellOnDex => dec_le (selected_price r) admitted
  end /\
  (selected_price r = admitted \/
   exists top, fresh_binance_top now sym s = Some top /\ dec_lt dec_zero target /\
     match d with
     | BuyTokenBOnDexSellOnCex =>
         selected_price r = bid_price (ft_quote top) /\ dec_lt admitted (selected_price r) /\
         dec_le target (bid_quantity (ft_quote top))
     | BuyTokenBOnCexSellOnDex =>
         selected_price r = ask_price (ft_quote top) /\ dec_lt (selected_price r) admitted /\
         dec_le target (ask_quantity (ft_quote top))
     end).
Proof.
  intros r. subst r. unfold favorable_primary_limit_price.
  assert (Hrefl : forall x, dec_le x x) by (intros x; unfold dec_le, dec_cross; simpl; lia).
  destruct (fresh_binance_top now sym s) as [top|]; [|simpl; destruct d; auto].
  destruct d; unfold decimal_max, decimal_min.
  - destruct (dec_ltb admitted (bid_price _)) eqn:E; simpl.
    + destruct (dec_eqb _ _); simpl; [auto|].
      destruct (_ && _) eqn:Hcov; simpl; [|auto]. bool_prop. apply dec_ltb_lt in E.
      split; [unfold dec_lt, dec_le in *; lia|]. right. exists top.
      repeat match goal with E : dec_ltb _ _ = true |- _ => apply dec_ltb_lt in E | E : dec_leb _ _ = true |- _ => apply dec_leb_le in E end.
      done.
    + replace (dec_eqb admitted admitted) with true by (symmetry; apply dec_eqb_eq; done). simpl. auto.
  - destruct (dec_ltb (ask_price _) admitted) eqn:E; simpl.
    + destruct (dec_eqb _ _); simpl; [auto|].
      destruct (_ && _) eqn:Hcov; simpl; [|auto]. bool_prop. apply dec_ltb_lt in E.
      split; [unfold dec_lt, dec_le in *; lia|]. right. exists top.
      repeat match goal with E : dec_ltb _ _ = true |- _ => apply dec_ltb_lt in E | E : dec_leb _ _ = true |- _ => apply dec_leb_le in E end.
      done.
    + replace (dec_eqb admitted admitted) with true by (symmetry; apply dec_eqb_eq; done). simpl. auto.
Qed.
