(* ===== verification/MarketViews.v ===== *)
(** * Two views of the exchange feeds ([src/src/engine.rs])

    The engine forwards every market event to [RuntimeState], which decides
    whether to trade, and to the entry preflight, which decides whether to
    dispatch.  A feed is one ordered reader per symbol ([reader]): connections
    have growing generations, and quotes, heartbeats and depth updates belong to
    the open connection and carry growing instants. *)
From Stdlib Require Import Lia.
From stdpp Require Import base gmap strings numbers list fin_maps.
From S2P Require Import Prelude Decimals TradeData RuntimeState Preflight.

Inductive MarketEvent :=
| FeedConnected (sym : string) (generation observed_at : Z)
| FeedDisconnected (sym : string) (generation : Z)
| FeedHeartbeat (sym : string) (generation observed_at : Z)
| BinanceTopOfBook (q : TopOfBook)
| BinanceDepthApplied (sym : string) (generation update_id observed_at : Z).

(** What the engine does to both states, up to telemetry and evaluation. *)
Definition on_market_event (e : MarketEvent) (st : RuntimeState * EntryPreflightState)
  : RuntimeState * EntryPreflightState :=
  let '(s, p) := st in
  match e with
  | FeedConnected sym g t => (on_connected sym g t s, on_feed_connected sym g t p)
  | FeedDisconnected sym g => (on_disconnected sym g s, on_feed_disconnected sym g p)
  | FeedHeartbeat sym g t =>
      let '(s', accepted) := record_transport_activity sym g t s in
      (s', if (accepted : bool) then preflight_activity sym g t p else p)
  | BinanceTopOfBook q =>
      let '(s', r) := apply_quote q s in
      (s', if bool_decide (r = QuoteAccepted) then update_quote q p else p)
  | BinanceDepthApplied sym g id t => ((apply_depth_update sym g id t s).1, p)
  end.

(** ** The reader *)
Record Reader := mkReader { rd_generation : Z; rd_open : bool; rd_clock : Z }.
Definition event_symbol (e : MarketEvent) : string :=
  match e with
  | FeedConnected sym _ _ | FeedDisconnected sym _ | FeedHeartbeat sym _ _ | BinanceDepthApplied sym _ _ _ => sym
  | BinanceTopOfBook q => q_symbol q
  end.

(** The event the reader may emit next, and the reader after it. *)
Definition emits (r : Reader) (e : MarketEvent) (r' : Reader) : Prop :=
  match e with
  | FeedConnected _ g t =>
      rd_generation r < g /\ rd_clock r <= t /\ r' = mkReader g true t
  | FeedDisconnected _ g => g = rd_generation r /\ r' = mkReader g false (rd_clock r)
  | FeedHeartbeat _ g t | BinanceDepthApplied _ g _ t =>
      rd_open r = true /\ g = rd_generation r /\ rd_clock r <= t /\ r' = mkReader g true t
  | BinanceTopOfBook q =>
      rd_open r = true /\ q_generation q = rd_generation r /\ rd_clock r <= q_received_at q /\
      r' = mkReader (rd_generation r) true (q_received_at q)
  end.

Definition idle_reader : Reader := mkReader 0 false 0.
Abbreviation Readers := (gmap string Reader).
Definition reader_of (rs : Readers) (sym : string) : Reader := default idle_reader (rs !! sym).

Inductive market_run (symbols : list string) (depth : bool) (p0 : EntryPreflightState)
  : RuntimeState -> EntryPreflightState -> Readers -> Prop :=
| market_start :
    quotes p0 = ∅ -> transport p0 = ∅ ->
    market_run symbols depth p0 (with_depth_requirement symbols depth) p0 ∅
| market_step e s p rs r' :
    market_run symbols depth p0 s p rs -> emits (reader_of rs (event_symbol e)) e r' ->
    market_run symbols depth p0 (on_market_event e (s, p)).1 (on_market_event e (s, p)).2
      (<[event_symbol e := r']> rs)
| market_configure sym m s p rs :
    market_run symbols depth p0 s p rs ->
    market_run symbols depth p0 s (configure_max_transport_silence sym m p) rs.

(** ** Agreement *)

(** What the runtime's feed and the preflight's entries say about the reader. *)
Record agree (r : Reader) (f : option BinanceFeedState) (t : option PreflightTransportState)
    (q : option TopOfBook) : Prop := {
  ag_feed x : f = Some x -> fs_generation x = rd_generation r /\ fs_connected x = rd_open r;
  ag_book x b : f = Some x -> fs_book x = Some b ->
    q_generation b = rd_generation r /\ fs_last_update_id x = Some (q_update_id b);
  ag_transport x : t = Some x ->
    tr_generation x = rd_generation r /\ tr_connected x = rd_open r /\ tr_last_activity x <= rd_clock r;
  ag_quote b : q = Some b ->
    q_generation b <= rd_generation r /\
    exists x, f = Some x /\
      (q_generation b = rd_generation r -> rd_open r = true -> fs_book x = Some b);
  ag_activity x y : f = Some x -> t = Some y -> rd_open r = true ->
    exists a, fs_last_activity x = Some a /\ tr_last_activity y <= a <= rd_clock r;
}.

Definition views_agree (s : RuntimeState) (p : EntryPreflightState) (rs : Readers) : Prop :=
  forall sym, agree (reader_of rs sym) (binance_feeds s !! sym) (transport p !! sym) (quotes p !! sym).

Lemma other_symbol e s p sym :
  sym <> event_symbol e ->
  let st := on_market_event e (s, p) in
  binance_feeds st.1 !! sym = binance_feeds s !! sym /\ transport st.2 !! sym = transport p !! sym /\
  quotes st.2 !! sym = quotes p !! sym.
Proof.
  intros Hne. destruct e; simpl in Hne |- *;
    unfold on_connected, on_feed_connected, on_disconnected, on_feed_disconnected, record_transport_activity,
      preflight_activity, apply_quote, update_quote, apply_depth_update;
    repeat case_match; simplify_eq/=; rewrite ?lookup_insert_ne by done; done.
Qed.

Definition agree_at (r : Reader) (s : RuntimeState) (p : EntryPreflightState) (sym : string) : Prop :=
  agree r (binance_feeds s !! sym) (transport p !! sym) (quotes p !! sym).
Definition agree_after (r' : Reader) (s : RuntimeState) (p : EntryPreflightState) (e : MarketEvent) : Prop :=
  agree_at r' (on_market_event e (s, p)).1 (on_market_event e (s, p)).2 (event_symbol e).

Lemma connected_transport sym g t p :
  (forall x, transport p !! sym = Some x -> tr_generation x <= g) ->
  on_feed_connected sym g t p = set_transport p sym (mkTransport g true t).
Proof.
  intros Ht. unfold on_feed_connected. destruct (transport p !! sym) as [x|]; [|done]. simpl.
  by rewrite (proj2 (Z.leb_le _ _)) by by apply Ht.
Qed.

Ltac agree_cases := split; intros; simplify_eq/=; try done; try (split_and!; done || lia).

Lemma connected_agrees r r' s p sym g t :
  agree_at r s p sym -> emits r (FeedConnected sym g t) r' -> agree_after r' s p (FeedConnected sym g t).
Proof.
  intros [Hf Hb Ht Hq Ha] (Hg & Hc & ->). unfold agree_after, agree_at. simpl. rewrite connected_transport; cycle 1.
  { intros x Hx. destruct (Ht x Hx) as [-> _]. lia. }
  simpl. rewrite lookup_insert_eq. unfold on_connected. destruct (binance_feeds s !! sym) as [x|] eqn:E.
  - destruct (Hf x eq_refl) as [Hx _]. rewrite (proj2 (Z.ltb_ge _ _)) by lia. simpl. rewrite lookup_insert_eq.
    agree_cases; [|eexists; split; [done|lia]]. edestruct Hq as [Hle _]; [done|]. split; [lia|].
    eexists. split; [done|]. intros. lia.
  - rewrite E. agree_cases. edestruct Hq as (_ & x & [=] & _). done.
Qed.

Lemma disconnected_agrees r r' s p sym g :
  agree_at r s p sym -> emits r (FeedDisconnected sym g) r' -> agree_after r' s p (FeedDisconnected sym g).
Proof.
  intros [Hf Hb Ht Hq Ha] (-> & ->). unfold agree_after, agree_at. simpl. unfold on_disconnected, on_feed_disconnected.
  assert (Hq' : forall b x, quotes p !! sym = Some b -> q_generation b <= rd_generation r /\ exists y : BinanceFeedState,
      Some x = Some y /\ (q_generation b = rd_generation r -> false = true -> fs_book y = Some b)).
  { intros b x Hb'. destruct (Hq b Hb') as [Hle _]. split; [done|]. by exists x. }
  destruct (binance_feeds s !! sym) as [x|] eqn:E, (transport p !! sym) as [y|] eqn:F.
  - destruct (Hf x eq_refl) as [Hx _], (Ht y eq_refl) as (Hy & _ & Hl). rewrite Hx, Hy, !Z.eqb_refl. simpl.
    rewrite !lookup_insert_eq. agree_cases. by apply Hq'.
  - destruct (Hf x eq_refl) as [Hx _]. rewrite Hx, Z.eqb_refl, F. simpl. rewrite !lookup_insert_eq. agree_cases. by apply Hq'.
  - destruct (Ht y eq_refl) as (Hy & _ & Hl). rewrite Hy, Z.eqb_refl, E. simpl. rewrite lookup_insert_eq. agree_cases.
    edestruct Hq as (_ & x & [=] & _). done.
  - rewrite E, F. agree_cases. edestruct Hq as (_ & x & [=] & _). done.
Qed.

(** A message of the open connection that only refreshes the activity. *)
Lemma touched_agrees r f y q at_ new :
  agree r (Some f) y q -> rd_open r = true -> rd_clock r <= at_ ->
  match y, new with
  | Some t, Some y' => y' = mkTransport (tr_generation t) (tr_connected t) at_
  | None, Some _ => False
  | _, None => True
  end ->
  agree (mkReader (rd_generation r) true at_) (Some (touch f at_)) (from_option Some y new) q.
Proof.
  intros [Hf Hb Ht Hq Ha] Ho Hc Hy. destruct (Hf f eq_refl) as [Hg Hop]. rewrite Ho in *.
  destruct new as [y'|]; simpl in *.
  - destruct y as [t|]; [|done]. subst y'. destruct (Ht t eq_refl) as (Htg & Hto & _). agree_cases.
    + by eapply Hb.
    + destruct (Hq _ eq_refl) as (Hle & x & [= <-] & Hbook). split; [done|]. eexists. split; [done|]. auto.
    + eexists. split; [done|]. lia.
  - agree_cases.
    + by eapply Hb.
    + destruct (Ht _ eq_refl) as (Htg & Hto & Hl). split_and!; [done..|lia].
    + destruct (Hq _ eq_refl) as (Hle & x & [= <-] & Hbook). split; [done|]. eexists. split; [done|]. auto.
    + destruct (Ht _ eq_refl) as (_ & _ & Hl). eexists. split; [done|]. lia.
Qed.

Lemma later_agrees r y q at_ :
  agree r None y q -> rd_open r = true -> rd_clock r <= at_ ->
  agree (mkReader (rd_generation r) true at_) None y q.
Proof.
  intros [Hf Hb Ht Hq Ha] Ho Hc. rewrite Ho in *. agree_cases.
  - destruct (Ht _ eq_refl) as (Htg & Hto & Hl). split_and!; [done..|lia].
  - by apply Hq.
Qed.

Lemma same_feed_agrees r f f' y q :
  agree r (Some f) y q ->
  fs_generation f' = fs_generation f -> fs_connected f' = fs_connected f ->
  fs_last_update_id f' = fs_last_update_id f -> fs_book f' = fs_book f ->
  fs_last_activity f' = fs_last_activity f -> agree r (Some f') y q.
Proof.
  intros [Hf Hb Ht Hq Ha] E1 E2 E3 E4 E5. split; intros; simplify_eq; rewrite ?E1, ?E2, ?E3, ?E4, ?E5 in *; eauto.
  destruct (Hq _ eq_refl) as (Hle & x & [= <-] & Hbook). split; [done|]. eexists. split; [done|]. by rewrite E4.
Qed.

Lemma heartbeat_agrees r r' s p sym g t :
  agree_at r s p sym -> emits r (FeedHeartbeat sym g t) r' -> agree_after r' s p (FeedHeartbeat sym g t).
Proof.
  intros Hag (Ho & -> & Hc & ->). unfold agree_after, agree_at in *. simpl.
  unfold record_transport_activity. destruct (binance_feeds s !! sym) as [f|] eqn:E; [|simpl; by rewrite E; apply later_agrees].
  destruct (ag_feed _ _ _ _ Hag f eq_refl) as [Hg Hop]. rewrite Hop, Ho, Hg, Z.eqb_refl. simpl.
  rewrite lookup_insert_eq. unfold preflight_activity. destruct (transport p !! sym) as [y|] eqn:F.
  - destruct (ag_transport _ _ _ _ Hag y eq_refl) as (Hy & Hyo & _). rewrite Hyo, Ho, Hy, Z.eqb_refl. simpl.
    rewrite lookup_insert_eq. pose proof (touched_agrees r f (Some y) _ t (Some (mkTransport (rd_generation r) true t)) Hag Ho Hc) as Hgo.
    apply Hgo. by rewrite Hy, Hyo, Ho.
  - rewrite F. exact (touched_agrees r f None _ t None Hag Ho Hc I).
Qed.

Lemma depth_agrees r r' s p sym g id t :
  agree_at r s p sym -> emits r (BinanceDepthApplied sym g id t) r' ->
  agree_after r' s p (BinanceDepthApplied sym g id t).
Proof.
  intros Hag (Ho & -> & Hc & ->). unfold agree_after, agree_at in *. simpl. unfold apply_depth_update.
  destruct (binance_feeds s !! sym) as [f|] eqn:E; [|simpl; by rewrite E; apply later_agrees].
  destruct (ag_feed _ _ _ _ Hag f eq_refl) as [Hg Hop]. rewrite Hg, Z.eqb_refl. simpl.
  assert (Hgo : agree (mkReader (rd_generation r) true t) (Some (touch f t)) (transport p !! sym) (quotes p !! sym)).
  { exact (touched_agrees r f (transport p !! sym) _ t None Hag Ho Hc ltac:(by destruct (transport p !! sym))). }
  destruct (opt_test _ _); simpl; rewrite lookup_insert_eq; by eapply same_feed_agrees.
Qed.

Lemma quote_agrees r r' s p q :
  agree_at r s p (q_symbol q) -> emits r (BinanceTopOfBook q) r' -> agree_after r' s p (BinanceTopOfBook q).
Proof.
  intros Hag (Ho & Hqg & Hc & ->). unfold agree_after, agree_at in *. simpl. unfold apply_quote.
  destruct (binance_feeds s !! q_symbol q) as [f|] eqn:E; [|simpl; by rewrite E; apply later_agrees].
  destruct (ag_feed _ _ _ _ Hag f eq_refl) as [Hg Hop]. rewrite Hqg, Hg, Z.eqb_refl. simpl.
  destruct (opt_test _ _) eqn:Hdup; simpl; rewrite lookup_insert_eq.
  { apply (same_feed_agrees _ (touch f (q_received_at q))); try done.
    exact (touched_agrees r f (transport p !! q_symbol q) _ _ None Hag Ho Hc
             ltac:(by destruct (transport p !! q_symbol q))). }
  assert (Hup : update_quote q p = set_quote (set_transport p (q_symbol q)
      (mkTransport (q_generation q) true (q_received_at q))) q).
  { unfold update_quote. destruct (quotes p !! q_symbol q) as [b|] eqn:Hb; [|done]. simpl.
    destruct (ag_quote _ _ _ _ Hag b eq_refl) as (Hle & x & [= <-] & Hbook). rewrite Hqg.
    destruct (Z.ltb_spec (q_generation b) (rd_generation r)); [done|]. simpl.
    rewrite (proj2 (Z.eqb_eq _ _)) by lia. simpl.
    destruct (ag_book _ _ _ _ Hag f b eq_refl (Hbook ltac:(lia) Ho)) as [_ Hlast]. rewrite Hlast in Hdup. simpl in Hdup.
    apply Z.leb_gt in Hdup. by rewrite (proj2 (Z.leb_le _ _)) by lia. }
  rewrite Hup. simpl. rewrite !lookup_insert_eq, Hop, Ho. agree_cases.
  - split; [lia|]. eexists. split; [done|]. done.
  - eexists. split; [done|]. lia.
Qed.

Lemma event_agrees r r' s p e :
  agree_at r s p (event_symbol e) -> emits r e r' -> agree_after r' s p e.
Proof.
  destruct e; [apply connected_agrees|apply disconnected_agrees|apply heartbeat_agrees|apply quote_agrees|apply depth_agrees].
Qed.

Lemma run_agrees symbols depth p0 s p rs :
  market_run symbols depth p0 s p rs -> views_agree s p rs.
Proof.
  induction 1 as [Hq Ht|e s p rs r' _ IH He|sym m s p rs _ IH]; [| |done].
  - intros sym. unfold reader_of. rewrite lookup_empty, Hq, Ht, !lookup_empty. simpl.
    assert (Hd : forall f, (list_to_map (map (fun s => (s, default_feed)) symbols) : gmap string BinanceFeedState)
        !! sym = Some f -> f = default_feed).
    { intros f Hf. apply elem_of_list_to_map_2, list_elem_of_In, in_map_iff in Hf as (k & [= -> <-] & _). done. }
    split; try done; intros x; [by intros ->%Hd|by intros b ->%Hd].
  - intros sym. destruct (decide (sym = event_symbol e)) as [->|Hne].
    + unfold reader_of. rewrite lookup_insert_eq. simpl. exact (event_agrees _ r' s p e (IH (event_symbol e)) He).
    + destruct (other_symbol e s p sym Hne) as (-> & -> & ->). unfold reader_of. rewrite lookup_insert_ne by done.
      apply IH.
Qed.

(** The preflight never trusts a quote the engine does not: along every ordered
    stream of market events, a top the preflight calls fresh is the current book of
    the engine's feed for that symbol, the feed is connected, and the engine itself
    counts the symbol's price as ready within the same silence window. *)
Theorem fresh_top_is_engine_book symbols depth p0 s p rs now sym top :
  market_run symbols depth p0 s p rs -> fresh_binance_top now sym p = Some top ->
  exists f m, binance_feeds s !! sym = Some f /\ max_transport_silence_ms p !! sym = Some m /\
    fs_book f = Some (ft_quote top) /\ q_generation (ft_quote top) = fs_generation f /\
    binance_symbol_price_ready s sym now m = true.
Proof.
  intros Hr Hfresh. pose proof (run_agrees _ _ _ _ _ _ Hr sym) as Hag. unfold fresh_binance_top in Hfresh.
  destruct (quotes p !! sym) as [q|]; [|done]. destruct (transport p !! sym) as [t|]; [|done].
  destruct (max_transport_silence_ms p !! sym) as [m|] eqn:Hm; [|done]. simpl in Hfresh.
  destruct (tr_connected t) eqn:Hto; [|done]. destruct (Z.eqb_spec (tr_generation t) (q_generation q)) as [Hgen|]; [|done].
  destruct (silent _ _ _) eqn:Hsil; [done|]. simpl in Hfresh. injection Hfresh as <-.
  destruct (ag_transport _ _ _ _ Hag t eq_refl) as (Htg & Hopen & _). rewrite Hto in Hopen. symmetry in Hopen.
  destruct (ag_quote _ _ _ _ Hag q eq_refl) as (_ & f & Hf & Hbook). specialize (Hbook ltac:(lia) Hopen).
  destruct (ag_activity _ _ _ _ Hag f t Hf eq_refl Hopen) as (a & Ha & Hle & _).
  destruct (ag_feed _ _ _ _ Hag f Hf) as [Hg Hc]. exists f, m. split_and!; try done; [simpl; lia|].
  unfold binance_symbol_price_ready, feed_price_ready. rewrite Hf. simpl. rewrite Hc, Hopen, Hbook, Ha. simpl.
  unfold silent in Hsil. apply Z.ltb_ge in Hsil. unfold within_ms, millis, since in *. apply Z.leb_le.
  apply Z.div_le_upper_bound; lia.
Qed.
