(* ===== verification/PreflightDemo.v ===== *)
(** * A concrete preflight

    One symbol with a live quote, a pool that moved since admission, and the
    theorems on the preflight applied to them. *)
From Stdlib Require Import Lia.
From stdpp Require Import base gmap strings numbers list fin_maps.
From S2P Require Import Prelude Decimals Clmm UniswapFormula ClmmCurve ExecutionPlan TradeData TradeDemo PaperOpportunity OpportunityDemo RuntimeState Preflight MarketViews.

Definition demo_top : TopOfBook :=
  mkTop "SYM" 9 (mkDecimal 61 2) (mkDecimal 500 0) (mkDecimal 62 2) (mkDecimal 500 0) 1000 1.
Definition demo_events : list MarketEvent := [FeedConnected "SYM" 1 900; BinanceTopOfBook demo_top].
Definition configured : EntryPreflightState := configure_max_transport_silence "SYM" 50 no_preflight.
Definition after_events : RuntimeState * EntryPreflightState :=
  foldl (fun st e => on_market_event e st) (with_depth_requirement ["SYM"] false, configured) demo_events.

Lemma demo_market_run :
  market_run ["SYM"] false no_preflight after_events.1 after_events.2 
    (<["SYM" := mkReader 1 true 1000]> (<["SYM" := mkReader 1 true 900]> ∅)).
Proof.
  apply (market_step _ _ _ (BinanceTopOfBook demo_top) _ (on_market_event (FeedConnected "SYM" 1 900)
           (with_depth_requirement ["SYM"] false, configured)).2);
    [|vm_compute; repeat split; done || lia].
  apply (market_step _ _ _ (FeedConnected "SYM" 1 900)); [|vm_compute; repeat split; done || lia].
  apply market_configure, market_start; done.
Qed.

Lemma fresh_top_is_engine_book_witness :
  (ft_quote <$> fresh_binance_top 2000 "SYM" after_events.2) = Some demo_top /\
  binance_symbol_price_ready after_events.1 "SYM" 2000 50 = true.
Proof.
  split; [vm_compute; reflexivity|].
  destruct (fresh_top_is_engine_book ["SYM"] false no_preflight after_events.1 after_events.2 _ 2000 "SYM"
              (mkFresh demo_top 0 0) demo_market_run ltac:(vm_compute; reflexivity)) as (f & m & _ & Hm & _ & _ & Hr).
  vm_compute in Hm. injection Hm as <-. exact Hr.
Defined.

(** The pool advanced from generation 3 to 4; its curve still returns 95 for 50. *)
Definition moved_curve : PreparedQuoteCurve :=
  mkCurve ExactInput 3000 [mkSegment 50 95 1 2 1].
Definition moved_pool : PreflightDexPool := mkPreflightPool 4 0 0 0 moved_curve moved_curve.
Definition demo_preflight : EntryPreflightState :=
  update_dex_pool_with_fee_generation "x" 0 moved_pool
    (update_dex_head "x" 1500 (configure_dex_max_head_age 10 after_events.2)).

Lemma demo_check : check 2000 (Ok 1) op_x demo_preflight = Ok None.
Proof. vm_compute. reflexivity. Qed.

Lemma preflight_passes_live_and_paying_witness : pays op_x demo_top moved_pool 95.
Proof.
  destruct (preflight_passes_live_and_paying 2000 (Ok 1) op_x demo_preflight demo_check)
    as (q & p & Hq & Hp & _ & _ & _ & Hpay).
  vm_compute in Hq, Hp. injection Hq as <-. injection Hp as <-.
  destruct Hpay as [Hun|(out & Hout & _ & Hpays)].
  - constructor; vm_compute; congruence.
  - destruct Hun as (_ & _ & Hgen & _). vm_compute in Hgen. congruence.
  - vm_compute in Hout. injection Hout as <-. exact Hpays.
Defined.
