(* ===== verification/Pricing.v ===== *)
(** * Prices and spreads of the opportunity search ([src/src/opportunity.rs])

    The integer arithmetic between exchange decimals and base units.  Each routine
    tries 128-bit operands first and falls back to 256 bits; the 256-bit routine is
    the reference the fast one is compared with.  The release profile wraps an
    unchecked subtraction. *)
From Stdlib Require Import Lia.
From stdpp Require Import base strings numbers list option.
From S2P Require Import Prelude Decimals Clmm TradeData RuntimeState Preflight.

Definition PROFIT_BPS_SCALE : Z := 1000000.

Definition u128_try_from (x : Z) : option Z := if x <? 2 ^ 128 then Some x else None.

(** The result of the 128-bit attempt if it has one. *)
Definition or_wide {A} (fast : option A) (wide : CRes A) : CRes A :=
  match fast with Some a => Ok a | None => wide end.

Fixpoint pow10 (exponent : nat) : CRes Z :=
  match exponent with
  | O => Ok 1
  | S e => let? v := pow10 e in or_err (checked_mul 256 v 10) (CMsg "power of ten exceeds U256")
  end.

Definition pow10_u128 (e : Z) : option Z := if 10 ^ e <? 2 ^ 128 then Some (10 ^ e) else None.

Definition scale_up (value exponent : Z) : CRes Z :=
  ensure! 0 <=? exponent else CMsg "scale exponent must not be negative" ;;
  let? p := pow10 (Z.to_nat exponent) in
  or_err (checked_mul 256 value p) (CMsg "power-of-ten scaling overflow").

Definition positive_decimal_mantissa (value : Decimal) : CRes Z :=
  ensure! dec_ltb dec_zero value else CMsg "price must be positive" ;;
  ensure! 0 <? mantissa value else CMsg "price mantissa must be positive" ;;
  Ok (mantissa value).

Definition round_down_to_step (amount step : Z) : Z := amount / step * step.

(** ** Exchange quantities to base units *)
Definition wide_base_units (value : Decimal) (decimals : Z) : CRes Z :=
  let? p := pow10 (Z.to_nat decimals) in
  let? numerator := or_err (checked_mul 256 (mantissa value) p)
                      (CMsg "decimal base-unit numerator overflow") in
  let? q := pow10 (Z.to_nat (scale value)) in
  Ok (numerator / q).

Definition decimal_to_base_units (value : Decimal) (decimals : Z) : CRes Z :=
  ensure! dec_leb dec_zero value else CMsg "decimal amount must not be negative" ;;
  ensure! 0 <=? mantissa value else CMsg "decimal mantissa must not be negative" ;;
  or_wide (p ← pow10_u128 decimals; q ← pow10_u128 (scale value);
           n ← checked_mul 128 (mantissa value) p; Some (n / q))
    (wide_base_units value decimals).

(** ** Token A to token B at a price, rounded down *)
Definition price_exponent (price : Decimal) (a_decimals b_decimals : Z) : Z :=
  b_decimals + scale price - a_decimals.

Definition wide_token_b (amount m exponent : Z) : CRes Z :=
  if 0 <=? exponent then
    let? numerator := scale_up amount exponent in Ok (numerator / m)
  else
    let? p := pow10 (Z.to_nat (- exponent)) in
    let? denominator := or_err (checked_mul 256 m p) (CMsg "inverse price denominator overflow") in
    Ok (amount / denominator).

Definition token_a_to_token_b_floor (token_a : Z) (price : Decimal) (a_decimals b_decimals : Z) : CRes Z :=
  let? m := positive_decimal_mantissa price in
  let exponent := price_exponent price a_decimals b_decimals in
  or_wide
    (amount ← u128_try_from token_a;
     if 0 <=? exponent then
       p ← pow10_u128 exponent; n ← checked_mul 128 amount p; Some (n / m)
     else
       p ← pow10_u128 (- exponent); d ← checked_mul 128 m p; Some (amount / d))
    (wide_token_b token_a m exponent).

(** ** Token B to token A at a price *)
Definition wide_token_a (amount m exponent : Z) (round_up : bool) : CRes Z :=
  let? product := or_err (checked_mul 256 amount m) (CMsg "token-B price product overflow") in
  if exponent <=? 0 then
    match scale_up product (- exponent) with
    | Ok v => Ok v
    | Err _ => Err (CMsg "token-A price scaling overflow")
    end
  else
    let? denominator := pow10 (Z.to_nat exponent) in
    let quotient := product / denominator in
    if round_up && negb (product mod denominator =? 0)
    then or_err (checked_add 256 quotient 1) (CMsg "rounded token-A amount overflow")
    else Ok quotient.

Definition token_b_to_token_a (token_b : Z) (price : Decimal) (a_decimals b_decimals : Z) (round_up : bool)
  : CRes Z :=
  let? m := positive_decimal_mantissa price in
  let exponent := price_exponent price a_decimals b_decimals in
  or_wide
    (amount ← u128_try_from token_b; product ← checked_mul 128 amount m;
     if exponent <=? 0 then
       p ← pow10_u128 (- exponent); checked_mul 128 product p
     else
       d ← pow10_u128 exponent;
       if round_up && negb (product mod d =? 0) then checked_add 128 (product / d) 1
       else Some (product / d))
    (wide_token_a token_b m exponent round_up).

(** ** Basis points *)
Definition keep_bps (bps : Z) : Z := (BPS_DENOMINATOR - bps) mod 2 ^ 64.

Definition wide_subtract_bps (amount bps : Z) : CRes Z :=
  let? n := or_err (checked_mul 256 amount (keep_bps bps)) (CMsg "proceeds reserve overflow") in
  Ok (n / BPS_DENOMINATOR).

Definition subtract_bps_floor (amount bps : Z) : CRes Z :=
  or_wide (a ← u128_try_from amount; n ← checked_mul 128 a (keep_bps bps); Some (n / BPS_DENOMINATOR))
    (wide_subtract_bps amount bps).

Definition wide_meets_threshold (proceeds cost threshold_bps : Z) : CRes bool :=
  let? l := or_err (checked_mul 256 proceeds BPS_DENOMINATOR) (CMsg "threshold proceeds overflow") in
  let? r := or_err (checked_mul 256 cost (BPS_DENOMINATOR + threshold_bps)) (CMsg "threshold cost overflow") in
  Ok (r <=? l).

Definition meets_threshold (proceeds cost threshold_bps : Z) : CRes bool :=
  or_wide
    (p ← u128_try_from proceeds; c ← u128_try_from cost;
     l ← checked_mul 128 p BPS_DENOMINATOR; r ← checked_mul 128 c (BPS_DENOMINATOR + threshold_bps);
     Some (r <=? l))
    (wide_meets_threshold proceeds cost threshold_bps).

(** [(positive, delta)] and the sign put back on a magnitude. *)
Definition signed_like (proceeds cost magnitude : Z) : Z := if cost <=? proceeds then magnitude else - magnitude.
Definition distance (proceeds cost : Z) : Z := if cost <=? proceeds then proceeds - cost else cost - proceeds.

Definition wide_profit (proceeds cost : Z) : CRes Z :=
  let? s := or_err (checked_mul 256 (distance proceeds cost) PROFIT_BPS_SCALE) (CMsg "profit ratio overflow") in
  Ok (signed_like proceeds cost (Z.min (Z.min (s / cost) U64_MAX) (2 ^ 63 - 1))).

Definition signed_profit_bps_x100 (proceeds cost : Z) : CRes Z :=
  ensure! negb (cost =? 0) else CMsg "profit cost must be positive" ;;
  or_wide
    (p ← u128_try_from proceeds; c ← u128_try_from cost;
     s ← checked_mul 128 (distance p c) PROFIT_BPS_SCALE;
     Some (signed_like p c (Z.min (s / c) (2 ^ 63 - 1))))
    (wide_profit proceeds cost).

(** ** The fast paths agree with the 256-bit ones *)
Lemma pow10_returns e v : pow10 e = Ok v <-> v = 10 ^ Z.of_nat e /\ 10 ^ Z.of_nat e < 2 ^ 256.
Proof.
  revert v. induction e as [|e IH]; intros v; simpl pow10.
  - split; [intros [= <-]; done|intros [-> _]; done].
  - rewrite rbind_Ok. setoid_rewrite or_err_Ok. setoid_rewrite checked_mul_Some. setoid_rewrite IH.
    rewrite Nat2Z.inj_succ, Z.pow_succ_r by lia. split.
    + intros (a & [-> ?] & -> & ?). lia.
    + intros [-> ?]. exists (10 ^ Z.of_nat e). pose proof (Z.pow_nonneg 10 (Z.of_nat e)). lia.
Qed.

Lemma pow10_Z e : 0 <= e -> 10 ^ e < 2 ^ 256 -> pow10 (Z.to_nat e) = Ok (10 ^ e).
Proof. intros He Hlt. apply pow10_returns. by rewrite Z2Nat.id. Qed.

Lemma pow10_u128_Some e v : pow10_u128 e = Some v <-> v = 10 ^ e /\ 10 ^ e < 2 ^ 128.
Proof. unfold pow10_u128. case_match; bool_prop; naive_solver lia. Qed.

Lemma u128_try_from_Some x v : u128_try_from x = Some v <-> v = x /\ x < 2 ^ 128.
Proof. unfold u128_try_from. case_match; bool_prop; naive_solver lia. Qed.

(** A 128-bit product that fits is the 256-bit product. *)
Lemma mul_wider a b c : checked_mul 128 a b = Some c -> checked_mul 256 a b = Some c.
Proof. rewrite !checked_mul_Some. lia. Qed.

Lemma or_wide_agree {A} (fast : option A) (wide : CRes A) :
  (forall a, fast = Some a -> wide = Ok a) -> or_wide fast wide = wide.
Proof. destruct fast as [a|]; simpl; [|done]. intros Hf. by rewrite (Hf a eq_refl). Qed.

(** Invert the steps of a 128-bit attempt. *)
Ltac fast_inv :=
  repeat match goal with
    | E : _ ≫= _ = Some _ |- _ => let x := fresh "x" in let E1 := fresh "E" in
        apply bind_Some in E as (x & E1 & E); cbv beta in E
    | E : pow10_u128 _ = Some _ |- _ => apply pow10_u128_Some in E as [-> ?]
    | E : u128_try_from _ = Some _ |- _ => apply u128_try_from_Some in E as [-> ?]
    | E : Some _ = Some _ |- _ => injection E as E; try subst
    end.

Lemma base_units_fast v d :
  decimal_ok v -> 0 <= d ->
  decimal_to_base_units v d =
    (ensure! dec_leb dec_zero v else CMsg "decimal amount must not be negative" ;; wide_base_units v d).
Proof.
  intros [Hm Hs] Hd. unfold decimal_to_base_units. rewrite dec_zero_le.
  destruct (0 <=? mantissa v); [simpl|done]. apply or_wide_agree. intros a Hf. fast_inv.
  unfold wide_base_units. rewrite !pow10_Z by lia. simpl.
  by rewrite (mul_wider _ _ _ E1).
Qed.

Lemma token_b_fast a m e :
  0 <= a -> 0 < m < 2 ^ 96 ->
  or_wide
    (amount ← u128_try_from a;
     if 0 <=? e then p ← pow10_u128 e; n ← checked_mul 128 amount p; Some (n / m)
     else p ← pow10_u128 (- e); d ← checked_mul 128 m p; Some (amount / d))
    (wide_token_b a m e) = wide_token_b a m e.
Proof.
  intros Ha Hm. apply or_wide_agree. intros r Hf. fast_inv. unfold wide_token_b, scale_up.
  destruct (Z.leb_spec 0 e); fast_inv; rewrite pow10_Z by lia; simpl;
    match goal with E : checked_mul 128 _ _ = Some _ |- _ => by rewrite (mul_wider _ _ _ E) end.
Qed.

Lemma token_a_fast b m e up :
  0 <= b -> 0 < m < 2 ^ 96 ->
  or_wide
    (amount ← u128_try_from b; product ← checked_mul 128 amount m;
     if e <=? 0 then p ← pow10_u128 (- e); checked_mul 128 product p
     else
       d ← pow10_u128 e;
       if up && negb (product mod d =? 0) then checked_add 128 (product / d) 1 else Some (product / d))
    (wide_token_a b m e up) = wide_token_a b m e up.
Proof.
  intros Hb Hm. apply or_wide_agree. intros r Hf. fast_inv. unfold wide_token_a, scale_up.
  match goal with E : checked_mul 128 b m = Some _ |- _ => rewrite (mul_wider _ _ _ E) end. simpl.
  destruct (Z.leb_spec e 0); fast_inv; rewrite pow10_Z by lia; simpl.
  - rewrite (proj2 (Z.leb_le 0 (- e))) by lia. simpl.
    match goal with E : checked_mul 128 x0 _ = Some _ |- _ => by rewrite (mul_wider _ _ _ E) end.
  - case_match; [|congruence]. apply checked_add_Some in Hf as [-> Hlt].
    unfold checked_add. rewrite (proj2 (Z.ltb_lt _ _)) by lia. done.
Qed.

Lemma subtract_bps_fast a bps : subtract_bps_floor a bps = wide_subtract_bps a bps.
Proof.
  apply or_wide_agree. intros r Hf. fast_inv. unfold wide_subtract_bps.
  match goal with E : checked_mul 128 _ _ = Some _ |- _ => by rewrite (mul_wider _ _ _ E) end.
Qed.

Lemma meets_threshold_fast p c t : meets_threshold p c t = wide_meets_threshold p c t.
Proof.
  apply or_wide_agree. intros r Hf. fast_inv. unfold wide_meets_threshold.
  repeat match goal with E : checked_mul 128 _ _ = Some _ |- _ => rewrite (mul_wider _ _ _ E); clear E end.
  done.
Qed.

Lemma profit_fast p c :
  0 <= p -> 0 <= c ->
  signed_profit_bps_x100 p c =
    (ensure! negb (c =? 0) else CMsg "profit cost must be positive" ;; wide_profit p c).
Proof.
  intros Hp Hc. unfold signed_profit_bps_x100. destruct (Z.eqb_spec c 0); [done|]. simpl.
  apply or_wide_agree. intros r Hf. fast_inv. unfold wide_profit.
  match goal with E : checked_mul 128 _ _ = Some _ |- _ => rewrite (mul_wider _ _ _ E) end. simpl.
  do 2 f_equal. assert (2 ^ 63 - 1 < U64_MAX) by (unfold U64_MAX; lia). lia.
Qed.

Lemma positive_mantissa_Ok v m :
  positive_decimal_mantissa v = Ok m -> m = mantissa v /\ 0 < mantissa v.
Proof. unfold positive_decimal_mantissa. intros Hm. res_inv. bool_prop. done. Qed.

(** Every conversion of the search agrees with its 256-bit reference on all
    typed inputs, values and errors alike: the 128-bit attempts change nothing. *)
Theorem fast_paths_agree (v price : Decimal) (d da db a b p c bps t : Z) (up : bool) :
  decimal_ok v -> decimal_ok price -> 0 <= d -> 0 <= a -> 0 <= b -> 0 <= p -> 0 <= c ->
  decimal_to_base_units v d =
    (ensure! dec_leb dec_zero v else CMsg "decimal amount must not be negative" ;; wide_base_units v d) /\
  token_a_to_token_b_floor a price da db =
    (let? m := positive_decimal_mantissa price in wide_token_b a m (price_exponent price da db)) /\
  token_b_to_token_a b price da db up =
    (let? m := positive_decimal_mantissa price in wide_token_a b m (price_exponent price da db) up) /\
  subtract_bps_floor a bps = wide_subtract_bps a bps /\
  meets_threshold p c t = wide_meets_threshold p c t /\
  signed_profit_bps_x100 p c =
    (ensure! negb (c =? 0) else CMsg "profit cost must be positive" ;; wide_profit p c).
Proof.
  intros Hv [Hpm Hps] Hd Ha Hb Hp Hc.
  assert (Hprice : forall (f : Z -> CRes Z) g, (forall m, 0 < m < 2 ^ 96 -> f m = g m) ->
            rbind (positive_decimal_mantissa price) f = rbind (positive_decimal_mantissa price) g).
  { intros f g Hfg. destruct (positive_decimal_mantissa price) as [m|] eqn:E; [|done].
    apply positive_mantissa_Ok in E as [-> ?]. apply Hfg. lia. }
  split_and!.
  - by apply base_units_fast.
  - apply Hprice. intros m Hm. by apply token_b_fast.
  - apply Hprice. intros m Hm. by apply token_a_fast.
  - apply subtract_bps_fast.
  - apply meets_threshold_fast.
  - by apply profit_fast.
Qed.

(** ** What the amounts are

    The exact price of [b] base units of token B is the fraction
    [price_numerator / price_denominator]. *)
Lemma token_a_exact b price da db up v :
  decimal_ok price -> 0 <= b -> 0 <= da -> 0 <= db ->
  token_b_to_token_a b price da db up = Ok v ->
  let n := price_numerator b price da in let d := price_denominator price db in
  0 < d /\ 0 < mantissa price /\ v = if up then - (- n / d) else n / d.
Proof.
  intros [Hpm Hps] Hb Ha Hdb Hv n d. unfold token_b_to_token_a in Hv. res_inv.
  apply positive_mantissa_Ok in Hok as [-> Hm]. rewrite token_a_fast in Hv by lia.
  assert (Hd : 0 < d) by (apply Z.mul_pos_pos; apply Z.pow_pos_nonneg; lia). split; [done|]. split; [done|].
  unfold wide_token_a in Hv. res_inv. apply checked_mul_Some in Hok as [-> _].
  subst n d. unfold price_numerator, price_denominator, price_exponent in *. rewrite <- Z.pow_add_r in * by lia.
  set (e := db + scale price - da) in *. destruct (Z.leb_spec e 0) as [He|He].
  - unfold scale_up in Hv. case_match eqn:Es; [|done]. injection Hv as <-. res_inv.
    apply pow10_returns in Hok0 as [-> _]. apply checked_mul_Some in Es as [-> _]. rewrite Z2Nat.id by lia.
    assert (10 ^ da = 10 ^ (- e) * 10 ^ (db + scale price)) as -> by (rewrite <- Z.pow_add_r by lia; f_equal; lia).
    rewrite Z.mul_assoc.
    rewrite <- Z.mul_opp_l. rewrite !Z.div_mul by lia. destruct up; lia.
  - res_inv. apply pow10_returns in Hok as [-> _]. rewrite Z2Nat.id in * by lia.
    replace (db + scale price) with (e + da) in * by lia. rewrite Z.pow_add_r by lia.
    assert (0 < 10 ^ e) by (apply Z.pow_pos_nonneg; lia). assert (0 < 10 ^ da) by (apply Z.pow_pos_nonneg; lia).
    rewrite <- Z.mul_opp_l. rewrite !Z.div_mul_cancel_r by lia.
    set (w := b * mantissa price) in *. destruct up; simpl in Hv; [|congruence].
    destruct (Z.eqb_spec (w mod 10 ^ e) 0) as [Hz|Hz]; simpl in Hv.
    + injection Hv as <-. rewrite Z.div_opp_l_z by lia. lia.
    + apply or_err_Ok, checked_add_Some in Hv as [-> _]. rewrite Z.div_opp_l_nz by lia. lia.
Qed.

(** The preflight reprices a leg exactly as the search priced it. *)
Lemma preflight_reprices b price da db up v w :
  decimal_ok price -> 0 <= b -> 0 <= da -> 0 <= db ->
  token_b_to_token_a b price da db up = Ok v -> token_b_at_price b price da db up = Ok w -> v = w.
Proof.
  intros Hp Hb Ha Hdb Hv Hw. destruct (token_a_exact _ _ _ _ _ _ Hp Hb Ha Hdb Hv) as (Hd & _ & ->).
  apply token_b_at_price_bounds in Hw as (_ & Hw); [|apply Hp || done..].
  set (n := price_numerator b price da) in *. set (d := price_denominator price db) in *. destruct up.
  - assert (- n / d = - w) as ->; [|lia]. symmetry. apply Z.div_unique with (r := w * d - n); lia.
  - symmetry. apply Z.div_unique with (r := n - w * d); lia.
Qed.

Lemma threshold_exact p c t b :
  0 <= t -> meets_threshold p c t = Ok b ->
  b = bool_decide (c * (BPS_DENOMINATOR + t) <= p * BPS_DENOMINATOR).
Proof.
  rewrite meets_threshold_fast. unfold wide_meets_threshold. intros Ht Hb. res_inv.
  apply checked_mul_Some in Hok as [-> _], Hok0 as [-> _]. apply Bool.eq_iff_eq_true.
  by rewrite bool_decide_eq_true, Z.leb_le.
Qed.

Lemma subtract_bps_exact a bps v :
  0 <= a -> 0 <= bps <= BPS_DENOMINATOR -> subtract_bps_floor a bps = Ok v ->
  v = a * (BPS_DENOMINATOR - bps) / BPS_DENOMINATOR /\ 0 <= v <= a.
Proof.
  rewrite subtract_bps_fast. unfold wide_subtract_bps, keep_bps, BPS_DENOMINATOR. intros Ha Hb Hv. res_inv.
  apply checked_mul_Some in Hok as [-> _]. rewrite Z.mod_small by lia. split; [done|]. split.
  - apply Z.div_pos; nia.
  - apply Z.div_le_upper_bound; nia.
Qed.

Lemma round_down_step amount step :
  0 <= amount -> 0 < step ->
  0 <= round_down_to_step amount step <= amount /\ round_down_to_step amount step mod step = 0.
Proof.
  intros Ha Hs. unfold round_down_to_step. pose proof (Z.div_mod amount step). pose proof (Z.mod_pos_bound amount step Hs).
  pose proof (Z.div_pos amount step Ha Hs). split; [nia|]. by apply Z_mod_mult.
Qed.

(** The reported rate: hundredths of a basis point of the cost, toward zero,
    limited to 63 bits; its order is the order of the rates. *)
Lemma profit_exact p c r :
  0 <= p -> 0 <= c -> signed_profit_bps_x100 p c = Ok r ->
  0 < c /\ - (2 ^ 63) < r < 2 ^ 63 /\
  r = Z.sgn (p - c) * Z.min (Z.abs (p - c) * PROFIT_BPS_SCALE / c) (2 ^ 63 - 1).
Proof.
  intros Hp Hc. rewrite profit_fast by done. unfold wide_profit. intros Hr. res_inv. bool_prop.
  apply checked_mul_Some in Hok0 as [-> _]. assert (Hpos : 0 < c) by lia. split; [done|].
  assert (Hd : distance p c = Z.abs (p - c)) by (unfold distance; case_match; bool_prop; lia).
  rewrite Hd in *. set (q := Z.abs (p - c) * PROFIT_BPS_SCALE / c) in *.
  assert (0 <= q) by (apply Z.div_pos; unfold PROFIT_BPS_SCALE; lia).
  assert (Hmin : Z.min (Z.min q U64_MAX) (2 ^ 63 - 1) = Z.min q (2 ^ 63 - 1)) by (unfold U64_MAX; lia).
  rewrite Hmin in *. unfold signed_like in *. split; [case_match; lia|].
  destruct (Z.leb_spec c p).
  - destruct (Z.eq_dec p c) as [->|]; [|rewrite Z.sgn_pos by lia; lia].
    rewrite Z.sub_diag, Z.sgn_0. assert (q = 0) as ->; [|done].
    unfold q. rewrite Z.sub_diag. simpl. by rewrite Z.div_0_l by lia.
  - rewrite Z.sgn_neg by lia. lia.
Qed.
