(* ===== verification/OpportunitySearch.v ===== *)
(** * The opportunity search ([src/src/opportunity.rs])

    For every exchange quote the engine evaluates both directions of the pair over
    its selectable pools, from prepared curves and through a small quote cache, and
    keeps the best baseline trade. *)
From Stdlib Require Import Lia.
From stdpp Require Import base gmap strings numbers list option fin_maps.
From S2P Require Import Prelude Decimals Clmm ClmmCurve TradeData RuntimeState Preflight Pricing.

Definition BASELINE_CACHE_ENTRIES_PER_DIRECTION : nat := 8.

Record TradeEvaluation := mkTrade {
  te_pool_index : nat;
  te_token_b_amount : Z;
  te_dex_token_a : Z;
  te_cex_token_a : Z;
  te_cost : Z;
  te_proceeds : Z;
  te_dex_amount_in : Z;
  te_dex_amount_out_minimum : Z;
  te_execution_slippage_bps : Z;
  te_gross_profit_bps_x100 : Z;
  te_meets_threshold : bool;
}.

Record DirectionEvaluation := mkDirection {
  de_direction : ArbitrageDirection;
  de_cex_top_token_b : Z;
  de_baseline : option TradeEvaluation;
}.

Record PairEvaluation := mkPairEvaluation {
  pe_pair_index : nat;
  pe_baseline_token_b : Z;
  pe_dex_buy_cex_sell : DirectionEvaluation;
  pe_cex_buy_dex_sell : DirectionEvaluation;
  pe_cache_hits : Z;
  pe_cache_misses : Z;
}.

Record PairRuntime := mkPair {
  pr_pair_id : string;
  pr_chain_id : Z;
  pr_symbol : string;
  pr_token_a_symbol : string;
  pr_token_b_symbol : string;
  pr_token_a_decimals : Z;
  pr_token_b_decimals : Z;
  pr_opportunity_threshold_bps : Z;
  pr_min_slippage_bps : Z;
  pr_max_slippage_bps : Z;
  pr_slippage_profit_share_bps : Z;
  pr_binance_buy_fee_bps : Z;
  pr_binance_sell_fee_bps : Z;
  pr_baseline_token_a : Z;
  pr_prepared_token_a_limit : Z;
  pr_token_b_step : Z;
  pr_token_a : Z;
  pr_token_b : Z;
  pr_pool_indices : list nat;
  pr_selection_pool_indices : list nat;
  pr_shadow_pool_indices : list nat;
}.

Record PreparedPoolQuotes := mkQuotes {
  by_direction : PreparedQuoteCurve * PreparedQuoteCurve;
  token_a_exact_input : PreparedQuoteCurve;
  pq_token_a_limit : Z;
  pq_exact_output_token_b_limit : Z;
  pq_exact_input_token_b_limit : Z;
  pq_dynamic_fee : bool;
  pq_fee_zero_for_one_pips : Z;
  pq_fee_one_for_zero_pips : Z;
}.

Record PreparedCurveGenerationHandle := mkHandle {
  h_pool_index : nat;
  h_generation : Z;
  h_quotes : PreparedPoolQuotes;
}.

Inductive DexQuoteOutcome := QuoteAvailable (amount : Z) | QuoteInsufficient.

(** A cache entry is the amount with its outcome. *)
Record BaselineQuoteCacheEntry := mkEntry { ce_token_b_amount : Z; ce_outcome : DexQuoteOutcome }.
Record DirectionBaselineQuoteCache := mkDirectionCache {
  dc_entries : list (option BaselineQuoteCacheEntry);
  dc_next_replace : nat;
}.
Abbreviation PoolBaselineQuoteCache := (DirectionBaselineQuoteCache * DirectionBaselineQuoteCache)%type.
Record BaselineCacheUsage := mkUsage { hits : Z; misses : Z }.

Definition default_direction_cache : DirectionBaselineQuoteCache :=
  mkDirectionCache (replicate BASELINE_CACHE_ENTRIES_PER_DIRECTION None) 0.
Definition default_pool_cache : PoolBaselineQuoteCache := (default_direction_cache, default_direction_cache).

(** Indexing by [ArbitrageDirection::cache_index]. *)
Definition at_direction {A} (d : ArbitrageDirection) (p : A * A) : A :=
  match d with BuyTokenBOnDexSellOnCex => p.1 | BuyTokenBOnCexSellOnDex => p.2 end.
Definition set_direction {A} (d : ArbitrageDirection) (a : A) (p : A * A) : A * A :=
  match d with BuyTokenBOnDexSellOnCex => (a, p.2) | BuyTokenBOnCexSellOnDex => (p.1, a) end.

Abbreviation PreparedPools := (list (option PreparedCurveGenerationHandle)).

Definition prepared_at (pools : PreparedPools) (i : nat) : option PreparedCurveGenerationHandle :=
  pools !! i ≫= id.

(** ** One trade *)
Definition slippage_bps (pair : PairRuntime) (profit_bps : Z) : CRes Z :=
  let? product := or_err (checked_mul 32 profit_bps (pr_slippage_profit_share_bps pair))
                    (CMsg "slippage profit-share multiplication overflow") in
  let allocated := product / 10000 in
  ensure! allocated <? 2 ^ 16 else CMsg "allocated slippage exceeds u16" ;;
  Ok (Z.min (Z.max allocated (pr_min_slippage_bps pair)) (pr_max_slippage_bps pair)).

Definition trade_is_better (candidate current : TradeEvaluation) : bool :=
  (te_gross_profit_bps_x100 current <? te_gross_profit_bps_x100 candidate)
  || ((te_gross_profit_bps_x100 candidate =? te_gross_profit_bps_x100 current)
      && ((te_token_b_amount current <? te_token_b_amount candidate)
          || ((te_token_b_amount candidate =? te_token_b_amount current)
              && (te_pool_index candidate <? te_pool_index current)%nat))).

Definition cex_token_a_amount (pair : PairRuntime) (q : TopOfBook) (d : ArbitrageDirection) (token_b : Z)
  : CRes Z :=
  match d with
  | BuyTokenBOnDexSellOnCex =>
      token_b_to_token_a token_b (bid_price q) (pr_token_a_decimals pair) (pr_token_b_decimals pair) false
  | BuyTokenBOnCexSellOnDex =>
      token_b_to_token_a token_b (ask_price q) (pr_token_a_decimals pair) (pr_token_b_decimals pair) true
  end.

Definition evaluate_trade_with_dex_quote (pair : PairRuntime) (d : ArbitrageDirection) (i : nat)
    (token_b cex_token_a : Z) (quote : DexQuoteOutcome) : CRes (option TradeEvaluation) :=
  match quote with
  | QuoteInsufficient => Ok None
  | QuoteAvailable dex_token_a =>
      let '(cost, proceeds) :=
        match d with
        | BuyTokenBOnDexSellOnCex => (dex_token_a, cex_token_a)
        | BuyTokenBOnCexSellOnDex => (cex_token_a, dex_token_a)
        end in
      let? profit := signed_profit_bps_x100 proceeds cost in
      let gross_profit_bps := Z.min (Z.max profit 0 / 100) (2 ^ 16 - 1) in
      let? slippage := slippage_bps pair gross_profit_bps in
      let? '(amount_in, amount_out_minimum) :=
        match d with
        | BuyTokenBOnDexSellOnCex => Ok (dex_token_a, token_b)
        | BuyTokenBOnCexSellOnDex =>
            let? m := subtract_bps_floor dex_token_a slippage in Ok (token_b, m)
        end in
      let? meets := meets_threshold proceeds cost (pr_opportunity_threshold_bps pair) in
      Ok (Some (mkTrade i token_b dex_token_a cex_token_a cost proceeds amount_in amount_out_minimum
                  slippage profit meets))
  end.

Definition set_out_minimum (t : TradeEvaluation) (m : Z) : TradeEvaluation :=
  mkTrade (te_pool_index t) (te_token_b_amount t) (te_dex_token_a t) (te_cex_token_a t) (te_cost t)
    (te_proceeds t) (te_dex_amount_in t) m (te_execution_slippage_bps t) (te_gross_profit_bps_x100 t)
    (te_meets_threshold t).

Abbreviation CacheState := (list PoolBaselineQuoteCache * BaselineCacheUsage)%type.

Section engine.
Context `{UniswapV3Math}.

Definition quote_dex (pools : PreparedPools) (d : ArbitrageDirection) (i : nat) (token_b : Z)
  : CRes DexQuoteOutcome :=
  let? h := or_err (prepared_at pools i) (CMsg "prepared DEX pool is unavailable") in
  match curve_quote (at_direction d (by_direction (h_quotes h))) token_b with
  | Ok v => Ok (QuoteAvailable v)
  | Err InsufficientLiquidity => Ok QuoteInsufficient
  | Err e => Err e
  end.

Definition quote_token_a_exact_input_baseline (pools : PreparedPools) (i : nat) (token_a : Z)
  : CRes (option Z) :=
  let? h := or_err (prepared_at pools i) (CMsg "prepared DEX pool is unavailable") in
  match curve_quote (token_a_exact_input (h_quotes h)) token_a with
  | Ok v => Ok (Some v)
  | Err InsufficientLiquidity => Ok None
  | Err e => Err e
  end.

Definition apply_dex_execution_bounds (pair : PairRuntime) (pools : PreparedPools) (d : ArbitrageDirection)
    (i : nat) (t : TradeEvaluation) : CRes TradeEvaluation :=
  let? t := match d with
            | BuyTokenBOnDexSellOnCex =>
                let? h := or_err (prepared_at pools i) (CMsg "prepared DEX pool is unavailable") in
                match curve_quote (token_a_exact_input (h_quotes h)) (te_dex_amount_in t) with
                | Err _ => Err (CMsg "Uniswap exact-input DEX-buy exceeds prepared curve")
                | Ok out =>
                    let? m := subtract_bps_floor out (te_execution_slippage_bps t) in
                    Ok (set_out_minimum t m)
                end
            | BuyTokenBOnCexSellOnDex => Ok t
            end in
  ensure! negb (te_dex_amount_in t =? 0) && negb (te_dex_amount_out_minimum t =? 0)
    else CMsg "DEX execution bounds are zero" ;;
  ensure! (te_dex_amount_in t <=? pr_prepared_token_a_limit pair)
          || bool_decide (d = BuyTokenBOnCexSellOnDex)
    else CMsg "DEX-buy input exceeds the prepared execution envelope" ;;
  Ok t.

Definition evaluate_trade (pair : PairRuntime) (pools : PreparedPools) (q : TopOfBook)
    (d : ArbitrageDirection) (i : nat) (token_b : Z) : CRes (option TradeEvaluation) :=
  let? dex := quote_dex pools d i token_b in
  let? cex := cex_token_a_amount pair q d token_b in
  let? r := evaluate_trade_with_dex_quote pair d i token_b cex dex in
  match r with
  | None => Ok None
  | Some t => let? t := apply_dex_execution_bounds pair pools d i t in Ok (Some t)
  end.

(** ** The quote cache

    [PoolBaselineQuoteCache::quote]; [load] is the result the closure computes. *)
Definition find_entry (entries : list (option BaselineQuoteCacheEntry)) (token_b : Z) : option DexQuoteOutcome :=
  ce_outcome <$> head (filter (fun e => ce_token_b_amount e = token_b) (omap id entries)).

Definition cache_quote (d : ArbitrageDirection) (token_b : Z) (load : CRes DexQuoteOutcome)
  : M (PoolBaselineQuoteCache * BaselineCacheUsage) ClmmError DexQuoteOutcome := fun '(c, u) =>
  let dc := at_direction d c in
  match find_entry (dc_entries dc) token_b with
  | Some o => ((c, mkUsage (saturating_add 16 (hits u) 1) (misses u)), Ok o)
  | None =>
      match load with
      | Err e => ((c, u), Err e)
      | Ok o =>
          let dc' := mkDirectionCache (<[dc_next_replace dc := Some (mkEntry token_b o)]> (dc_entries dc))
                       ((dc_next_replace dc + 1) mod BASELINE_CACHE_ENTRIES_PER_DIRECTION) in
          ((set_direction d dc' c, mkUsage (hits u) (saturating_add 16 (misses u) 1)), Ok o)
      end
  end.

(** The quote of one pool; without a cache context the loader runs directly. *)
Definition dex_quote_of (cached : bool) (pools : PreparedPools) (d : ArbitrageDirection) (i : nat) (token_b : Z)
  : M CacheState ClmmError DexQuoteOutcome := fun '(caches, u) =>
  if cached then
    match caches !! i with
    | None => ((caches, u), Err (CMsg "baseline quote cache index is invalid"))
    | Some c =>
        let '((c', u'), r) := cache_quote d token_b (quote_dex pools d i token_b) (c, u) in
        ((<[i := c']> caches, u'), r)
    end
  else ((caches, u), quote_dex pools d i token_b).

(** ** One direction *)
Definition evaluate_pool (cached : bool) (pair : PairRuntime) (pools : PreparedPools) (q : TopOfBook)
    (baseline : Z) (d : ArbitrageDirection) (from_dex : bool) (i : nat)
  : M CacheState ClmmError (option TradeEvaluation) :=
  match prepared_at pools i with
  | None => mret None
  | Some _ =>
      do b <- mlift (if from_dex
                     then let? r := quote_token_a_exact_input_baseline pools i (pr_baseline_token_a pair) in
                          Ok ((fun a => round_down_to_step a (pr_token_b_step pair)) <$> r)
                     else Ok (Some baseline)) ;;
      match b with
      | None => mret None
      | Some token_b =>
          if token_b =? 0 then mret None else
          do cex <- mlift (cex_token_a_amount pair q d token_b) ;;
          do dex <- dex_quote_of cached pools d i token_b ;;
          do r <- mlift (evaluate_trade_with_dex_quote pair d i token_b cex dex) ;;
          match r with
          | None => mret None
          | Some t => do t <- mlift (apply_dex_execution_bounds pair pools d i t) ;; mret (Some t)
          end
      end
  end.

Definition better_of (best : option TradeEvaluation) (r : option TradeEvaluation) : option TradeEvaluation :=
  match r, best with
  | None, _ => best
  | Some t, None => Some t
  | Some t, Some b => if trade_is_better t b then Some t else Some b
  end.

Fixpoint evaluate_pools (cached : bool) (pair : PairRuntime) (pools : PreparedPools) (q : TopOfBook)
    (baseline : Z) (d : ArbitrageDirection) (from_dex : bool) (best : option TradeEvaluation)
    (indices : list nat) : M CacheState ClmmError (option TradeEvaluation) :=
  match indices with
  | [] => mret best
  | i :: rest =>
      do r <- evaluate_pool cached pair pools q baseline d from_dex i ;;
      evaluate_pools cached pair pools q baseline d from_dex (better_of best r) rest
  end.

Definition evaluate_direction_impl (cached : bool) (pair : PairRuntime) (pools : PreparedPools) (q : TopOfBook)
    (baseline : Z) (d : ArbitrageDirection) (from_dex : bool) : M CacheState ClmmError DirectionEvaluation :=
  do top <- mlift (decimal_to_base_units
                     (match d with BuyTokenBOnDexSellOnCex => bid_quantity q
                                 | BuyTokenBOnCexSellOnDex => ask_quantity q end)
                     (pr_token_b_decimals pair)) ;;
  do best <- evaluate_pools cached pair pools q baseline d from_dex None (pr_selection_pool_indices pair) ;;
  mret (mkDirection d (round_down_to_step top (pr_token_b_step pair)) best).

(** ** The engine *)
Record OpportunityEngine := mkEngine {
  oe_pairs : list PairRuntime;
  oe_pair_indices_by_symbol : gmap string nat;
  oe_pair_index_by_pool : list (option nat);
  oe_pool_generations : list Z;
  oe_prepared_pools : PreparedPools;
  oe_baseline_quote_cache : list PoolBaselineQuoteCache;
}.

Definition with_cache (e : OpportunityEngine) (caches : list PoolBaselineQuoteCache) : OpportunityEngine :=
  mkEngine (oe_pairs e) (oe_pair_indices_by_symbol e) (oe_pair_index_by_pool e) (oe_pool_generations e)
    (oe_prepared_pools e) caches.

(** Both directions of a pair over the caches; the usage is counted from zero. *)
Definition evaluate_pair (cached : bool) (pair_index : nat) (pair : PairRuntime) (pools : PreparedPools)
    (q : TopOfBook) : M CacheState ClmmError PairEvaluation :=
  do raw <- mlift (token_a_to_token_b_floor (pr_baseline_token_a pair) (ask_price q)
                     (pr_token_a_decimals pair) (pr_token_b_decimals pair)) ;;
  let baseline := round_down_to_step raw (pr_token_b_step pair) in
  do! mlift (ensure (negb (baseline =? 0)) (CMsg "baseline token-B amount rounds to zero")) ;;
  do buy <- evaluate_direction_impl cached pair pools q baseline BuyTokenBOnDexSellOnCex true ;;
  do sell <- evaluate_direction_impl cached pair pools q baseline BuyTokenBOnCexSellOnDex false ;;
  do s <- mget ;;
  mret (mkPairEvaluation pair_index baseline buy sell (hits s.2) (misses s.2)).

Definition evaluate (q : TopOfBook) : M OpportunityEngine ClmmError (option PairEvaluation) := fun e =>
  match oe_pair_indices_by_symbol e !! q_symbol q with
  | None => (e, Ok None)
  | Some k =>
      match oe_pairs e !! k with
      | None => (e, Err (CMsg "index out of bounds"))
      | Some pr =>
          let '((caches, _), r) := evaluate_pair true k pr (oe_prepared_pools e) q
                                     (oe_baseline_quote_cache e, mkUsage 0 0) in
          (with_cache e caches, rmap Some r)
      end
  end.

Definition evaluate_exact_candidate (e : OpportunityEngine) (pair_index : nat) (q : TopOfBook)
    (d : ArbitrageDirection) (i : nat) (token_b : Z) : CRes (option TradeEvaluation) :=
  let? pair := or_err (oe_pairs e !! pair_index) (CMsg "opportunity pair index is invalid") in
  ensure! bool_decide (i ∈ pr_pool_indices pair) else CMsg "adaptive candidate pool does not belong to pair" ;;
  ensure! token_b mod pr_token_b_step pair =? 0 else CMsg "adaptive candidate is not Binance-step aligned" ;;
  evaluate_trade pair (oe_prepared_pools e) q d i token_b.

Definition exact_candidate_capacity (e : OpportunityEngine) (pair_index : nat) (d : ArbitrageDirection) (i : nat)
  : CRes (option Z) :=
  let? pair := or_err (oe_pairs e !! pair_index) (CMsg "opportunity pair index is invalid") in
  ensure! bool_decide (i ∈ pr_pool_indices pair) else CMsg "candidate capacity pool does not belong to pair" ;;
  let? h := or_err (oe_prepared_pools e !! i) (CMsg "candidate capacity pool index is invalid") in
  Ok ((fun h => specified_capacity (at_direction d (by_direction (h_quotes h)))) <$> h).

Definition preflight_exact_input_curves (e : OpportunityEngine) (i : nat)
  : CRes (option (PreparedQuoteCurve * PreparedQuoteCurve)) :=
  let? h := or_err (oe_prepared_pools e !! i) (CMsg "preflight pool index is invalid") in
  Ok ((fun h => (token_a_exact_input (h_quotes h), at_direction BuyTokenBOnCexSellOnDex (by_direction (h_quotes h)))) <$> h).

Definition set_binance_fee_bps (sym : string) (buy_fee sell_fee : Z) : M OpportunityEngine ClmmError unit := fun e =>
  let r :=
    ensure! buy_fee <=? 10000 else CMsg "Binance BUY fee exceeds 100%" ;;
    ensure! sell_fee <=? 10000 else CMsg "Binance SELL fee exceeds 100%" ;;
    let? k := or_err (oe_pair_indices_by_symbol e !! sym) (CMsg "unknown Binance fee symbol") in
    let? pair := or_err (oe_pairs e !! k) (CMsg "Binance fee pair index is invalid") in
    Ok (k, pair) in
  match r with
  | Err x => (e, Err x)
  | Ok (k, p) =>
      let p' := mkPair (pr_pair_id p) (pr_chain_id p) (pr_symbol p) (pr_token_a_symbol p) (pr_token_b_symbol p)
                  (pr_token_a_decimals p) (pr_token_b_decimals p) (pr_opportunity_threshold_bps p)
                  (pr_min_slippage_bps p) (pr_max_slippage_bps p) (pr_slippage_profit_share_bps p)
                  buy_fee sell_fee (pr_baseline_token_a p) (pr_prepared_token_a_limit p) (pr_token_b_step p)
                  (pr_token_a p) (pr_token_b p) (pr_pool_indices p) (pr_selection_pool_indices p)
                  (pr_shadow_pool_indices p) in
      (mkEngine (<[k := p']> (oe_pairs e)) (oe_pair_indices_by_symbol e) (oe_pair_index_by_pool e)
         (oe_pool_generations e) (oe_prepared_pools e) (oe_baseline_quote_cache e), Ok tt)
  end.
End engine.

(** ** The search without a cache

    What the engine decides: for each selectable pool the trade at its baseline
    amount, and the best of them. *)
Section reference.
Context `{UniswapV3Math}.

Definition pool_baseline (pair : PairRuntime) (pools : PreparedPools) (baseline : Z) (from_dex : bool) (i : nat)
  : CRes (option Z) :=
  if from_dex
  then let? r := quote_token_a_exact_input_baseline pools i (pr_baseline_token_a pair) in
       Ok ((fun a => round_down_to_step a (pr_token_b_step pair)) <$> r)
  else Ok (Some baseline).

Definition search_pool (pair : PairRuntime) (pools : PreparedPools) (q : TopOfBook) (baseline : Z)
    (d : ArbitrageDirection) (from_dex : bool) (i : nat) : CRes (option TradeEvaluation) :=
  match prepared_at pools i with
  | None => Ok None
  | Some _ =>
      let? b := pool_baseline pair pools baseline from_dex i in
      match b with
      | None => Ok None
      | Some token_b =>
          if token_b =? 0 then Ok None else
          let? _ := cex_token_a_amount pair q d token_b in
          evaluate_trade pair pools q d i token_b
      end
  end.

Fixpoint search_pools (pair : PairRuntime) (pools : PreparedPools) (q : TopOfBook) (baseline : Z)
    (d : ArbitrageDirection) (from_dex : bool) (best : option TradeEvaluation) (indices : list nat)
  : CRes (option TradeEvaluation) :=
  match indices with
  | [] => Ok best
  | i :: rest =>
      let? r := search_pool pair pools q baseline d from_dex i in
      search_pools pair pools q baseline d from_dex (better_of best r) rest
  end.

Definition search_direction (pair : PairRuntime) (pools : PreparedPools) (q : TopOfBook) (baseline : Z)
    (d : ArbitrageDirection) (from_dex : bool) : CRes DirectionEvaluation :=
  let? top := decimal_to_base_units
                (match d with BuyTokenBOnDexSellOnCex => bid_quantity q
                            | BuyTokenBOnCexSellOnDex => ask_quantity q end)
                (pr_token_b_decimals pair) in
  let? best := search_pools pair pools q baseline d from_dex None (pr_selection_pool_indices pair) in
  Ok (mkDirection d (round_down_to_step top (pr_token_b_step pair)) best).

Definition search_pair (pair : PairRuntime) (pools : PreparedPools) (q : TopOfBook)
  : CRes (Z * DirectionEvaluation * DirectionEvaluation) :=
  let? raw := token_a_to_token_b_floor (pr_baseline_token_a pair) (ask_price q)
                (pr_token_a_decimals pair) (pr_token_b_decimals pair) in
  let baseline := round_down_to_step raw (pr_token_b_step pair) in
  ensure! negb (baseline =? 0) else CMsg "baseline token-B amount rounds to zero" ;;
  let? buy := search_direction pair pools q baseline BuyTokenBOnDexSellOnCex true in
  let? sell := search_direction pair pools q baseline BuyTokenBOnCexSellOnDex false in
  Ok (baseline, buy, sell).
End reference.

(** ** Coherence of the cache *)
Section coherence.
Context `{UniswapV3Math}.

Record direction_coherent (pools : PreparedPools) (i : nat) (d : ArbitrageDirection)
    (c : DirectionBaselineQuoteCache) : Prop := {
  dco_length : length (dc_entries c) = BASELINE_CACHE_ENTRIES_PER_DIRECTION;
  dco_next : (dc_next_replace c < BASELINE_CACHE_ENTRIES_PER_DIRECTION)%nat;
  dco_entries e : Some e ∈ dc_entries c -> quote_dex pools d i (ce_token_b_amount e) = Ok (ce_outcome e);
}.

(** Every cached outcome is what the published curve answers now. *)
Definition cache_coherent (pools : PreparedPools) (caches : list PoolBaselineQuoteCache) : Prop :=
  length caches = length pools /\
  forall i c d, caches !! i = Some c -> direction_coherent pools i d (at_direction d c).

Lemma default_coherent pools i d : direction_coherent pools i d (at_direction d default_pool_cache).
Proof.
  split; destruct d; simpl; try done; try (unfold BASELINE_CACHE_ENTRIES_PER_DIRECTION; lia);
    intros e He; set_solver.
Qed.

Lemma at_set {A} d d' (a : A) p : at_direction d' (set_direction d a p) = if decide (d' = d) then a else at_direction d' p.
Proof. by destruct d, d'. Qed.

Lemma find_entry_sound entries b o :
  find_entry entries b = Some o -> exists e, Some e ∈ entries /\ ce_token_b_amount e = b /\ ce_outcome e = o.
Proof.
  unfold find_entry. intros Hf. apply fmap_Some in Hf as (e & He & ->).
  apply head_Some_elem_of in He. apply list_elem_of_filter in He as [Hb He].
  apply list_elem_of_omap in He as (x & Hx & Hid). simpl in Hid. subst x. eauto.
Qed.

Lemma insert_coherent pools i d c b o :
  direction_coherent pools i d c -> quote_dex pools d i b = Ok o ->
  direction_coherent pools i d
    (mkDirectionCache (<[dc_next_replace c := Some (mkEntry b o)]> (dc_entries c))
       ((dc_next_replace c + 1) mod BASELINE_CACHE_ENTRIES_PER_DIRECTION)).
Proof.
  intros [Hl Hn He] Hq. split.
  - simpl. by rewrite length_insert.
  - apply (Nat.mod_upper_bound (dc_next_replace c + 1) BASELINE_CACHE_ENTRIES_PER_DIRECTION). done.
  - simpl. intros e Hin. apply list_elem_of_lookup in Hin as [k Hk].
    destruct (decide (k = dc_next_replace c)) as [->|Hne].
    + rewrite list_lookup_insert_eq in Hk by lia. by injection Hk as <-.
    + rewrite list_lookup_insert_ne in Hk by done. apply He. by apply list_elem_of_lookup_2 in Hk.
Qed.

(** Run through coherent caches, [m] returns [r] and leaves them coherent. *)
Definition agrees {A} (pools : PreparedPools) (m : M CacheState ClmmError A) (r : CRes A) : Prop :=
  forall caches u, cache_coherent pools caches ->
    exists caches' u', m (caches, u) = ((caches', u'), r) /\ cache_coherent pools caches'.

Lemma agrees_lift {A} pools (r : CRes A) : agrees pools (mlift r) r.
Proof. intros caches u Hc. by exists caches, u. Qed.

Lemma agrees_bind {A B} pools (m : M CacheState ClmmError A) r (k : A -> M CacheState ClmmError B) r' :
  agrees pools m r -> (forall a, agrees pools (k a) (r' a)) -> agrees pools (mbind' m k) (rbind r r').
Proof.
  intros Hm Hk caches u Hc. destruct (Hm caches u Hc) as (c1 & u1 & E & Hc1). unfold mbind'. rewrite E.
  destruct r as [a|x]; [|by exists c1, u1]. destruct (Hk a c1 u1 Hc1) as (c2 & u2 & E2 & Hc2). by exists c2, u2.
Qed.

Lemma agrees_quote cached pools d i b :
  (i < length pools)%nat -> agrees pools (dex_quote_of cached pools d i b) (quote_dex pools d i b).
Proof.
  intros Hi caches u [Hl Hc]. unfold dex_quote_of. destruct cached; [|by exists caches, u].
  destruct (lookup_lt_is_Some_2 caches i) as [c Ec]; [lia|]. rewrite Ec.
  pose proof (Hc i c d Ec) as Hd. unfold cache_quote.
  destruct (find_entry _ b) as [o|] eqn:Ef; simpl.
  - apply find_entry_sound in Ef as (e & He & <- & <-). apply Hd in He. rewrite He.
    rewrite list_insert_id by done. by eexists _, _.
  - destruct (quote_dex pools d i b) as [o|x] eqn:Eq; simpl.
    + do 2 eexists. split; [done|]. split; [by rewrite length_insert|]. intros j c' d' Hj.
      apply list_lookup_insert_Some in Hj as [(<- & <- & _)|[Hne Hj]]; [|by apply Hc].
      rewrite at_set. destruct (decide (d' = d)) as [->|]; [|by apply Hc]. by apply insert_coherent.
    + rewrite list_insert_id by done. by eexists _, _.
Qed.

Lemma prepared_at_lt pools i h : prepared_at pools i = Some h -> (i < length pools)%nat.
Proof. unfold prepared_at. intros E. apply bind_Some in E as (x & E & _). by apply lookup_lt_Some in E. Qed.

Lemma agrees_pool cached pr pools q b d from_dex i :
  agrees pools (evaluate_pool cached pr pools q b d from_dex i) (search_pool pr pools q b d from_dex i).
Proof.
  unfold evaluate_pool, search_pool. destruct (prepared_at pools i) as [h|] eqn:E; [|apply agrees_lift].
  apply agrees_bind; [apply agrees_lift|]. intros [tb|]; [|apply agrees_lift].
  destruct (tb =? 0); [apply agrees_lift|]. unfold evaluate_trade.
  destruct (cex_token_a_amount pr q d tb) as [cex|x]; [|apply agrees_lift]. simpl.
  apply (agrees_bind pools (dex_quote_of cached pools d i tb)); [by eapply agrees_quote, prepared_at_lt|].
  intros dex. apply agrees_bind; [apply agrees_lift|]. intros [t|]; [|apply agrees_lift].
  apply agrees_bind; [apply agrees_lift|]. intros t'. apply agrees_lift.
Qed.

Lemma agrees_pools cached pr pools q b d from_dex best l :
  agrees pools (evaluate_pools cached pr pools q b d from_dex best l) (search_pools pr pools q b d from_dex best l).
Proof.
  revert best. induction l as [|i l IH]; intros best; [apply agrees_lift|].
  apply (agrees_bind pools (evaluate_pool cached pr pools q b d from_dex i)); [apply agrees_pool|]. intros r. apply IH.
Qed.

Lemma agrees_direction cached pr pools q b d from_dex :
  agrees pools (evaluate_direction_impl cached pr pools q b d from_dex) (search_direction pr pools q b d from_dex).
Proof.
  apply agrees_bind; [apply agrees_lift|]. intros top.
  apply agrees_bind; [apply agrees_pools|]. intros best. apply agrees_lift.
Qed.

(** What the caller acts on; the rest of the evaluation counts cache hits. *)
Definition economics (e : PairEvaluation) : Z * DirectionEvaluation * DirectionEvaluation :=
  (pe_baseline_token_b e, pe_dex_buy_cex_sell e, pe_cex_buy_dex_sell e).

Lemma agrees_economics cached k pr pools q caches u :
  cache_coherent pools caches ->
  exists caches' u' r, evaluate_pair cached k pr pools q (caches, u) = ((caches', u'), r) /\
    cache_coherent pools caches' /\ rmap economics r = search_pair pr pools q.
Proof.
  intros Hc. unfold evaluate_pair, search_pair, mbind' at 1, mlift at 1.
  destruct (token_a_to_token_b_floor _ _ _ _) as [raw|x]; [|by exists caches, u, (Err x)]. simpl rbind.
  unfold mbind' at 1, mlift at 1. destruct (ensure _ _) as [[]|x]; [|by exists caches, u, (Err x)]. simpl rbind.
  destruct (agrees_direction cached pr pools q (round_down_to_step raw (pr_token_b_step pr))
              BuyTokenBOnDexSellOnCex true caches u Hc) as (c1 & u1 & E1 & H1).
  unfold mbind' at 1. rewrite E1. destruct (search_direction _ _ _ _ BuyTokenBOnDexSellOnCex _) as [buy|x];
    [|by exists c1, u1, (Err x)]. simpl rbind.
  destruct (agrees_direction cached pr pools q (round_down_to_step raw (pr_token_b_step pr))
              BuyTokenBOnCexSellOnDex false c1 u1 H1) as (c2 & u2 & E2 & H2).
  unfold mbind' at 1. rewrite E2. destruct (search_direction _ _ _ _ BuyTokenBOnCexSellOnDex _) as [sell|x];
    [|by exists c2, u2, (Err x)]. simpl. by eexists c2, u2, _.
Qed.

(** ** The engine's invariant for evaluation *)
Record engine_coherent (e : OpportunityEngine) : Prop := {
  ec_cache : cache_coherent (oe_prepared_pools e) (oe_baseline_quote_cache e);
  ec_symbols sym k : oe_pair_indices_by_symbol e !! sym = Some k -> is_Some (oe_pairs e !! k);
}.

(** The decision for a quote, read off the published curves. *)
Definition reference_search (e : OpportunityEngine) (q : TopOfBook)
  : CRes (option (Z * DirectionEvaluation * DirectionEvaluation)) :=
  match oe_pair_indices_by_symbol e !! q_symbol q ≫= fun k => oe_pairs e !! k with
  | None => Ok None
  | Some pr => rmap Some (search_pair pr (oe_prepared_pools e) q)
  end.

Lemma evaluate_transparent e q :
  engine_coherent e ->
  exists caches r, evaluate q e = (with_cache e caches, r) /\
    cache_coherent (oe_prepared_pools e) caches /\ rmap (fmap economics) r = reference_search e q.
Proof.
  intros [Hc Hs]. unfold evaluate, reference_search.
  destruct (oe_pair_indices_by_symbol e !! q_symbol q) as [k|] eqn:Ek; simpl.
  2: { exists (oe_baseline_quote_cache e), (Ok None). by destruct e. }
  destruct (Hs _ _ Ek) as [pr Hp]. rewrite Hp.
  destruct (agrees_economics true k pr (oe_prepared_pools e) q _ (mkUsage 0 0) Hc) as (c & u & r & -> & Hc' & <-).
  exists c, (rmap Some r). split_and!; [done..|]. by destruct r.
Qed.
End coherence.

(** ** The best trade

    [trade_is_better] is the lexicographic order on rate, amount and pool order. *)
Lemma better_irrefl t : trade_is_better t t = false.
Proof. unfold trade_is_better. rewrite !Z.ltb_irrefl, !Z.eqb_refl, Nat.ltb_irrefl. done. Qed.

Ltac better_cases :=
  unfold trade_is_better in *;
  repeat match goal with
    | |- context [?a <? ?b] => destruct (Z.ltb_spec a b)
    | |- context [?a =? ?b] => destruct (Z.eqb_spec a b)
    | |- context [(?a <? ?b)%nat] => destruct (Nat.ltb_spec a b)
    | H : context [?a <? ?b] |- _ => destruct (Z.ltb_spec a b)
    | H : context [?a =? ?b] |- _ => destruct (Z.eqb_spec a b)
    | H : context [(?a <? ?b)%nat] |- _ => destruct (Nat.ltb_spec a b)
    end; simpl in *; try discriminate; try done; try lia.

Lemma better_asym a b : trade_is_better a b = true -> trade_is_better b a = false.
Proof. intros Hab. better_cases. Qed.

Lemma not_better_trans a b c :
  trade_is_better a b = false -> trade_is_better b c = false -> trade_is_better a c = false.
Proof. intros Hab Hbc. better_cases. Qed.

Lemma not_better_both a b :
  trade_is_better a b = false -> trade_is_better b a = true \/ te_pool_index a = te_pool_index b.
Proof. intros Hab. better_cases; auto. Qed.

(** One trade ranks above another: a higher rate, then a larger size, then the
    earlier pool. *)
Definition ranks_above (t u : TradeEvaluation) : Prop :=
  te_gross_profit_bps_x100 u < te_gross_profit_bps_x100 t \/
  te_gross_profit_bps_x100 t = te_gross_profit_bps_x100 u /\
    (te_token_b_amount u < te_token_b_amount t \/
     te_token_b_amount t = te_token_b_amount u /\ (te_pool_index t < te_pool_index u)%nat).

Lemma better_ranks t u : trade_is_better t u = true <-> ranks_above t u.
Proof. unfold ranks_above. split; [intros Hb|intros Hb]; better_cases; tauto || lia. Qed.

Lemma better_of_cases best r best' :
  better_of best r = best' ->
  (forall t, best = Some t \/ r = Some t -> exists t', best' = Some t' /\ trade_is_better t t' = false) /\
  (forall t', best' = Some t' -> best = Some t' \/ r = Some t').
Proof.
  intros <-. unfold better_of. destruct r as [t|], best as [b|].
  - destruct (trade_is_better t b) eqn:E.
    + split; [|naive_solver]. intros x [[= ->]|[= ->]]; eexists; (split; [done|]);
        [by apply better_asym|apply better_irrefl].
    + split; [|naive_solver]. intros x [[= ->]|[= ->]]; eexists; (split; [done|]); [apply better_irrefl|done].
  - split; [|naive_solver]. intros x [|[= ->]]; [done|]. eexists. split; [done|]. apply better_irrefl.
  - split; [|naive_solver]. intros x [[= ->]|]; [|done]. eexists. split; [done|]. apply better_irrefl.
  - naive_solver.
Qed.

Section selection.
Context `{UniswapV3Math}.
Context (pr : PairRuntime) (pools : PreparedPools) (q : TopOfBook) (d : ArbitrageDirection).

Lemma trade_with_quote_index i tb cex dex t :
  evaluate_trade_with_dex_quote pr d i tb cex dex = Ok (Some t) -> te_pool_index t = i /\ te_token_b_amount t = tb.
Proof.
  unfold evaluate_trade_with_dex_quote. destruct dex as [v|]; [|done]. intros Ht.
  destruct (match d with BuyTokenBOnDexSellOnCex => (v, cex) | _ => _ end) as [cost proceeds]. res_inv.
  destruct x1 as [a_in a_min]. by res_inv.
Qed.

Lemma bounds_index i t t' :
  apply_dex_execution_bounds pr pools d i t = Ok t' ->
  te_pool_index t' = te_pool_index t /\ te_token_b_amount t' = te_token_b_amount t.
Proof.
  unfold apply_dex_execution_bounds. intros Ht. res_inv.
  destruct d; res_inv; [|done]. destruct (curve_quote _ _); [|done]. by res_inv.
Qed.

Lemma evaluate_trade_index i tb t :
  evaluate_trade pr pools q d i tb = Ok (Some t) -> te_pool_index t = i /\ te_token_b_amount t = tb.
Proof.
  unfold evaluate_trade. intros Ht. res_inv. destruct x1 as [t0|]; [|done]. res_inv.
  match goal with E : evaluate_trade_with_dex_quote _ _ _ _ _ _ = _ |- _ => apply trade_with_quote_index in E as [? ?] end.
  match goal with E : apply_dex_execution_bounds _ _ _ _ _ = _ |- _ => apply bounds_index in E as [? ?] end.
  split; congruence.
Qed.

Lemma search_pool_index b from_dex i t :
  search_pool pr pools q b d from_dex i = Ok (Some t) ->
  te_pool_index t = i /\ evaluate_trade pr pools q d i (te_token_b_amount t) = Ok (Some t) /\
  0 <> te_token_b_amount t /\ pool_baseline pr pools b from_dex i = Ok (Some (te_token_b_amount t)).
Proof.
  unfold search_pool. destruct (prepared_at pools i); [|done]. intros Ht. res_inv.
  destruct x as [tb|]; [|done]. destruct (Z.eqb_spec tb 0); [done|]. res_inv.
  pose proof Ht as Hi. apply evaluate_trade_index in Hi as [? ->]. split_and!; done || lia.
Qed.

Lemma search_pools_best b from_dex best l r :
  search_pools pr pools q b d from_dex best l = Ok r ->
  (forall i, i ∈ l -> exists o, search_pool pr pools q b d from_dex i = Ok o /\
     forall t, o = Some t -> exists t', r = Some t' /\ trade_is_better t t' = false) /\
  (forall t, best = Some t -> exists t', r = Some t' /\ trade_is_better t t' = false) /\
  (forall t', r = Some t' ->
     best = Some t' \/ exists i, i ∈ l /\ search_pool pr pools q b d from_dex i = Ok (Some t')).
Proof.
  revert best. induction l as [|i l IH]; intros best Hr; simpl in Hr.
  - injection Hr as <-. split_and!; [set_solver| |by left]. intros t ->. eexists. split; [done|]. apply better_irrefl.
  - res_inv. apply IH in Hr as (Hl & Hb & Hsrc).
    destruct (better_of_cases best x _ eq_refl) as [Hup Hfrom].
    assert (Hstep : forall t, best = Some t \/ x = Some t -> exists t', r = Some t' /\ trade_is_better t t' = false).
    { intros t Ht. destruct (Hup t Ht) as (t1 & E1 & H1). destruct (Hb t1 E1) as (t2 & E2 & H2).
      exists t2. split; [done|]. by eapply not_better_trans. }
    split_and!; [|by eauto|].
    + intros j Hj. apply elem_of_cons in Hj as [->|Hj]; [|by apply Hl]. exists x. eauto.
    + intros t' Ht'. destruct (Hsrc t' Ht') as [Hbo|(j & ? & ?)]; [|right; exists j; set_solver].
      destruct (Hfrom t' Hbo) as [Hx|Hx]; [by left|right]. subst x. exists i. set_solver.
Qed.

(** The direction's baseline is the unique best trade of the selectable pools. *)
Definition best_baseline (b : Z) (from_dex : bool) (r : option TradeEvaluation) : Prop :=
  (forall i, i ∈ pr_selection_pool_indices pr -> exists o,
     search_pool pr pools q b d from_dex i = Ok o /\
     forall t, o = Some t -> exists best, r = Some best /\ (t = best \/ ranks_above best t)) /\
  (forall best, r = Some best ->
     te_pool_index best ∈ pr_selection_pool_indices pr /\
     search_pool pr pools q b d from_dex (te_pool_index best) = Ok (Some best)).

Lemma search_pair_inv base buy sell :
  search_pair pr pools q = Ok (base, buy, sell) ->
  exists raw, token_a_to_token_b_floor (pr_baseline_token_a pr) (ask_price q)
                (pr_token_a_decimals pr) (pr_token_b_decimals pr) = Ok raw /\
    base = round_down_to_step raw (pr_token_b_step pr) /\
    search_direction pr pools q base BuyTokenBOnDexSellOnCex true = Ok buy /\
    search_direction pr pools q base BuyTokenBOnCexSellOnDex false = Ok sell.
Proof. unfold search_pair. intros Hs. res_inv. eauto. Qed.

Lemma search_direction_best b from_dex de :
  search_direction pr pools q b d from_dex = Ok de ->
  de_direction de = d /\ best_baseline b from_dex (de_baseline de).
Proof.
  unfold search_direction. intros Hd. res_inv. simpl. split; [done|].
  match goal with E : search_pools _ _ _ _ _ _ _ _ = Ok _ |- _ =>
    apply search_pools_best in E as (Hl & _ & Hsrc) end.
  assert (Hin : forall best, x0 = Some best -> te_pool_index best ∈ pr_selection_pool_indices pr /\
     search_pool pr pools q b d from_dex (te_pool_index best) = Ok (Some best)).
  { intros best Hbest. destruct (Hsrc best Hbest) as [|(i & Hi & Hs)]; [done|].
    destruct (search_pool_index _ _ _ _ Hs) as [-> _]. done. }
  split; [|done]. intros i Hi. destruct (Hl i Hi) as (o & Ho & Hbest). exists o. split; [done|].
  intros t ->. destruct (Hbest t eq_refl) as (best & -> & Hnb). exists best. split; [done|].
  destruct (not_better_both _ _ Hnb) as [Hb|He]; [right; by apply better_ranks|left].
  destruct (Hin best eq_refl) as [_ Hs]. destruct (search_pool_index _ _ _ _ Ho) as [Hti _].
  rewrite <- He, Hti, Ho in Hs. congruence.
Qed.
End selection.

(** ** What an evaluation says about its trade *)
Lemma token_b_nonneg a price da db v :
  0 <= a -> token_a_to_token_b_floor a price da db = Ok v -> decimal_ok price -> 0 <= v.
Proof.
  intros Ha Hv [Hpm Hps]. unfold token_a_to_token_b_floor in Hv. res_inv.
  apply positive_mantissa_Ok in Hok as [-> Hm]. rewrite token_b_fast in Hv by lia. unfold wide_token_b, scale_up in Hv.
  assert (Hten : forall e p, pow10 e = Ok p -> 0 < p) by (intros e p Hp; apply pow10_returns in Hp as [-> _]; lia).
  case_match; res_inv;
    repeat match goal with
      | E : pow10 _ = Ok _ |- _ => apply Hten in E
      | E : checked_mul _ _ _ = Some _ |- _ => apply checked_mul_Some in E as [-> _]
      end; apply Z.div_pos; nia.
Qed.

(** What the validated configuration guarantees of a pair. *)
Record pair_ok (pr : PairRuntime) : Prop := {
  po_decimals : 0 <= pr_token_a_decimals pr <= 255 /\ 0 <= pr_token_b_decimals pr <= 255;
  po_step : 0 < pr_token_b_step pr;
  po_slippage : 0 <= pr_min_slippage_bps pr <= pr_max_slippage_bps pr /\ pr_max_slippage_bps pr <= BPS_DENOMINATOR;
  po_share : 0 <= pr_slippage_profit_share_bps pr <= BPS_DENOMINATOR;
  po_threshold : 0 <= pr_opportunity_threshold_bps pr <= BPS_DENOMINATOR;
}.

Lemma slippage_total pr profit :
  pair_ok pr -> 0 <= profit < 2 ^ 16 ->
  exists s, slippage_bps pr profit = Ok s /\ pr_min_slippage_bps pr <= s <= pr_max_slippage_bps pr.
Proof.
  intros [_ _ Hs Hshare _] Hp. unfold BPS_DENOMINATOR in *. unfold slippage_bps, checked_mul.
  set (share := pr_slippage_profit_share_bps pr) in *.
  assert (profit * share <= (2 ^ 16 - 1) * 10000) by (apply Z.mul_le_mono_nonneg; lia).
  rewrite (proj2 (Z.ltb_lt _ _)) by lia. simpl.
  assert (profit * share / 10000 <= 2 ^ 16 - 1) by (apply Z.div_le_upper_bound; lia).
  rewrite (proj2 (Z.ltb_lt _ _)) by lia. simpl. eexists. split; [done|]. lia.
Qed.

Section trade.
Context `{UniswapV3Math}.

(** The prices a trade was computed from. *)
Definition leg_price (q : TopOfBook) (d : ArbitrageDirection) : Decimal :=
  match d with BuyTokenBOnDexSellOnCex => bid_price q | BuyTokenBOnCexSellOnDex => ask_price q end.

(** Cost and proceeds: the curve's answer on one side, the exact exchange price
    rounded against the trade on the other. *)
Definition exact_economics (pr : PairRuntime) (h : PreparedCurveGenerationHandle) (q : TopOfBook)
    (d : ArbitrageDirection) (t : TradeEvaluation) : Prop :=
  let b := te_token_b_amount t in
  let n := price_numerator b (leg_price q d) (pr_token_a_decimals pr) in
  let den := price_denominator (leg_price q d) (pr_token_b_decimals pr) in
  curve_quote (at_direction d (by_direction (h_quotes h))) b = Ok (te_dex_token_a t) /\
  match d with
  | BuyTokenBOnDexSellOnCex => te_cost t = te_dex_token_a t /\ te_proceeds t = n / den
  | BuyTokenBOnCexSellOnDex => te_cost t = - (- n / den) /\ te_proceeds t = te_dex_token_a t
  end.

(** The rate by which trades are ranked: the profit over the cost in hundredths of a
    basis point, rounded towards zero and limited to 63 bits. *)
Definition exact_rate (t : TradeEvaluation) : Prop :=
  let p := te_proceeds t - te_cost t in
  0 < te_cost t /\
  te_gross_profit_bps_x100 t = Z.sgn p * Z.min (Z.abs p * PROFIT_BPS_SCALE / te_cost t) (2 ^ 63 - 1).

(** The verdict on the opportunity threshold. *)
Definition exact_verdict (pr : PairRuntime) (t : TradeEvaluation) : Prop :=
  te_meets_threshold t =
    bool_decide (te_cost t * (BPS_DENOMINATOR + pr_opportunity_threshold_bps pr) <= te_proceeds t * BPS_DENOMINATOR).

(** The on-chain leg: what goes in, and the least that may come out. *)
Definition exact_bounds (pr : PairRuntime) (h : PreparedCurveGenerationHandle) (d : ArbitrageDirection)
    (t : TradeEvaluation) : Prop :=
  let s := te_execution_slippage_bps t in
  0 < te_dex_amount_in t /\ 0 < te_dex_amount_out_minimum t /\
  pr_min_slippage_bps pr <= s <= pr_max_slippage_bps pr /\
  match d with
  | BuyTokenBOnDexSellOnCex =>
      te_dex_amount_in t = te_cost t /\ te_dex_amount_in t <= pr_prepared_token_a_limit pr /\
      exists out, curve_quote (token_a_exact_input (h_quotes h)) (te_dex_amount_in t) = Ok out /\
        te_dex_amount_out_minimum t = out * (BPS_DENOMINATOR - s) / BPS_DENOMINATOR
  | BuyTokenBOnCexSellOnDex =>
      te_dex_amount_in t = te_token_b_amount t /\
      te_dex_amount_out_minimum t = te_proceeds t * (BPS_DENOMINATOR - s) / BPS_DENOMINATOR
  end.

Definition nonnegative_curve (c : PreparedQuoteCurve) : Prop := forall x r, 0 <= x -> curve_quote c x = Ok r -> 0 <= r.
Definition nonnegative_quotes (h : PreparedCurveGenerationHandle) : Prop :=
  nonnegative_curve (by_direction (h_quotes h)).1 /\ nonnegative_curve (by_direction (h_quotes h)).2 /\
  nonnegative_curve (token_a_exact_input (h_quotes h)).

Lemma quote_dex_available pools d i b v h :
  prepared_at pools i = Some h -> quote_dex pools d i b = Ok (QuoteAvailable v) ->
  curve_quote (at_direction d (by_direction (h_quotes h))) b = Ok v.
Proof.
  unfold quote_dex. intros ->. simpl. destruct (curve_quote _ b) as [w|[]]; intros E; naive_solver.
Qed.

Lemma cex_amount_exact pr q d b v :
  pair_ok pr -> decimal_ok (leg_price q d) -> 0 <= b -> cex_token_a_amount pr q d b = Ok v ->
  let n := price_numerator b (leg_price q d) (pr_token_a_decimals pr) in
  let den := price_denominator (leg_price q d) (pr_token_b_decimals pr) in
  0 <= v /\ v = match d with BuyTokenBOnDexSellOnCex => n / den | BuyTokenBOnCexSellOnDex => - (- n / den) end.
Proof.
  intros [[Ha Hb] _ _ _ _] Hp Hpos Hv n den. unfold cex_token_a_amount, leg_price in *.
  assert (Hn : 0 < mantissa (leg_price q d) -> 0 <= n).
  { intros Hm. unfold n, price_numerator, leg_price in *. apply Z.mul_nonneg_nonneg; [destruct d; nia|lia]. }
  unfold leg_price in Hn. destruct d; apply token_a_exact in Hv as (Hd & Hm & ->); try done; try lia;
    (split; [|done]); specialize (Hn Hm); fold n den; [by apply Z.div_pos|].
  assert (- n / den <= 0); [|lia]. apply Z.div_le_upper_bound; [done|]. lia.
Qed.

(** The parts of an evaluation before the execution bounds. *)
Lemma trade_with_quote_exact pr d i tb cex v t :
  pair_ok pr -> 0 <= cex -> 0 <= v ->
  evaluate_trade_with_dex_quote pr d i tb cex (QuoteAvailable v) = Ok (Some t) ->
  te_dex_token_a t = v /\
  te_cost t = match d with BuyTokenBOnDexSellOnCex => v | BuyTokenBOnCexSellOnDex => cex end /\
  te_proceeds t = match d with BuyTokenBOnDexSellOnCex => cex | BuyTokenBOnCexSellOnDex => v end /\
  te_dex_amount_in t = match d with BuyTokenBOnDexSellOnCex => v | BuyTokenBOnCexSellOnDex => tb end /\
  (d = BuyTokenBOnCexSellOnDex ->
     te_dex_amount_out_minimum t = v * (BPS_DENOMINATOR - te_execution_slippage_bps t) / BPS_DENOMINATOR) /\
  pr_min_slippage_bps pr <= te_execution_slippage_bps t <= pr_max_slippage_bps pr /\
  exact_rate t /\ exact_verdict pr t.
Proof.
  unfold exact_verdict. intros Hp Hc Hv Ht. pose proof (po_slippage _ Hp). pose proof (po_threshold _ Hp).
  assert (Hs : forall x s, slippage_bps pr (Z.min (Z.max x 0 / 100) (2 ^ 16 - 1)) = Ok s ->
            pr_min_slippage_bps pr <= s <= pr_max_slippage_bps pr).
  { intros x s E. pose proof (Z.div_pos (Z.max x 0) 100).
    destruct (slippage_total pr (Z.min (Z.max x 0 / 100) (2 ^ 16 - 1)) Hp) as (s' & E' & ?); [lia|].
    rewrite E in E'. by injection E' as <-. }
  unfold evaluate_trade_with_dex_quote in Ht. destruct d; res_inv;
    match goal with E : slippage_bps _ _ = Ok _ |- _ => apply Hs in E end;
    match goal with E : meets_threshold _ _ _ = Ok _ |- _ => apply threshold_exact in E as ->; [|lia] end;
    match goal with E : signed_profit_bps_x100 _ _ = Ok _ |- _ => apply profit_exact in E as (? & _ & ?); [|done|done] end;
    simpl; split_and!; try done; try lia.
  intros _. match goal with E : subtract_bps_floor _ _ = Ok _ |- _ => apply subtract_bps_exact in E as [-> _]; [done|lia|lia] end.
Qed.

Lemma execution_bounds_exact pr pools d i t t' h :
  prepared_at pools i = Some h -> nonnegative_quotes h -> 0 <= te_dex_amount_in t ->
  0 <= te_execution_slippage_bps t <= BPS_DENOMINATOR ->
  apply_dex_execution_bounds pr pools d i t = Ok t' ->
  te_dex_amount_in t' <> 0 /\ te_dex_amount_out_minimum t' <> 0 /\
  match d with
  | BuyTokenBOnDexSellOnCex =>
      te_dex_amount_in t <= pr_prepared_token_a_limit pr /\
      exists out, curve_quote (token_a_exact_input (h_quotes h)) (te_dex_amount_in t) = Ok out /\ 0 <= out /\
        t' = set_out_minimum t (out * (BPS_DENOMINATOR - te_execution_slippage_bps t) / BPS_DENOMINATOR)
  | BuyTokenBOnCexSellOnDex => t' = t
  end.
Proof.
  intros Hh (_ & _ & Hn) Hin Hs Ht. unfold apply_dex_execution_bounds in Ht. rewrite Hh in Ht. simpl in Ht. res_inv.
  bool_prop. split; [done|]. split; [done|]. destruct d; res_inv; [|done].
  destruct (curve_quote _ _) as [out|] eqn:E; [|done]. res_inv. simpl in *.
  match goal with E0 : subtract_bps_floor _ _ = Ok _ |- _ => rename E0 into Esub end.
  apply subtract_bps_exact in Esub as [-> _]; [|exact (Hn _ _ Hin E)|done].
  split; [|by eauto]. match goal with E : _ \/ _ |- _ => destruct E; bool_prop; [done|discriminate] end.
Qed.

Lemma evaluate_trade_exact pr pools q d i b h t :
  pair_ok pr -> decimal_ok (leg_price q d) -> 0 <= b -> prepared_at pools i = Some h -> nonnegative_quotes h ->
  evaluate_trade pr pools q d i b = Ok (Some t) ->
  exact_economics pr h q d t /\ exact_bounds pr h d t /\ exact_rate t /\ exact_verdict pr t.
Proof.
  intros Hp Hdec Hb Hh Hn Ht. pose proof (evaluate_trade_index _ _ _ _ _ _ _ Ht) as [_ Htb].
  unfold evaluate_trade in Ht. res_inv. destruct x1 as [t0|]; [|done]. res_inv.
  destruct x as [v|]; [|done].
  match goal with E : quote_dex _ _ _ _ = Ok _ |- _ => apply (quote_dex_available _ _ _ _ _ h Hh) in E as Hq end.
  assert (Hv : 0 <= v) by (destruct Hn as (H1 & H2 & _); destruct d; [eapply H1|eapply H2]; [exact Hb|exact Hq|exact Hb|exact Hq]).
  match goal with E : cex_token_a_amount _ _ _ _ = Ok _ |- _ =>
    apply (cex_amount_exact _ _ _ _ _ Hp Hdec Hb) in E as [Hc Hcex] end.
  match goal with E : evaluate_trade_with_dex_quote _ _ _ _ _ _ = Ok _ |- _ =>
    pose proof (trade_with_quote_index _ _ _ _ _ _ _ E) as [_ Ht0];
    apply (trade_with_quote_exact _ _ _ _ _ _ _ Hp Hc Hv) in E as (E1 & E2 & E3 & E4 & E5 & E6 & E7 & E8) end.
  pose proof (po_slippage _ Hp).
  match goal with E : apply_dex_execution_bounds _ _ _ _ _ = Ok _ |- _ =>
    apply (execution_bounds_exact _ _ _ _ _ _ h Hh Hn) in E as (B1 & B2 & B3); [|destruct d; lia|lia] end.
  unfold exact_economics, exact_bounds, leg_price in *. destruct d.
  - destruct B3 as (Hlim & out & Hout & Hpos & ->). simpl in *.
    assert (0 <= out * (BPS_DENOMINATOR - te_execution_slippage_bps t0) / BPS_DENOMINATOR)
      by (unfold BPS_DENOMINATOR in *; apply Z.div_pos; nia).
    split_and!; try done; try lia; try congruence. by exists out.
  - subst t. specialize (E5 eq_refl). rewrite E3 in *.
    assert (0 <= v * (BPS_DENOMINATOR - te_execution_slippage_bps t0) / BPS_DENOMINATOR)
      by (unfold BPS_DENOMINATOR in *; apply Z.div_pos; nia).
    split_and!; try done; try lia; try congruence.
Qed.

(** A published handle answers within its types, and its pair and price are
    sound. *)
Definition sound_inputs (pools : PreparedPools) (pr : PairRuntime) (q : TopOfBook) : Prop :=
  pair_ok pr /\ decimal_ok (bid_price q) /\ decimal_ok (ask_price q) /\
  0 <= pr_baseline_token_a pr /\ forall i h, prepared_at pools i = Some h -> nonnegative_quotes h.

Lemma pool_baseline_nonneg pr pools q b from_dex i tb :
  sound_inputs pools pr q -> 0 <= b -> pool_baseline pr pools b from_dex i = Ok (Some tb) -> 0 <= tb.
Proof.
  intros (Hp & _ & _ & Hpos & Hn) Hb Hbase. unfold pool_baseline in Hbase. destruct from_dex; [|by injection Hbase as <-].
  unfold quote_token_a_exact_input_baseline in Hbase. res_inv. destruct x as [a|]; [|done]. injection Hbase as <-.
  destruct (curve_quote _ _) as [v|[]] eqn:E; simplify_eq.
  apply round_down_step; [|apply Hp]. eapply Hn; [eassumption|exact Hpos|exact E].
Qed.

(** What a trade of a selectable pool says. *)
Definition exact_trade (pr : PairRuntime) (pools : PreparedPools) (q : TopOfBook) (d : ArbitrageDirection)
    (t : TradeEvaluation) : Prop :=
  exists h, prepared_at pools (te_pool_index t) = Some h /\
    exact_economics pr h q d t /\ exact_bounds pr h d t /\ exact_rate t /\ exact_verdict pr t.

Lemma search_pool_exact pr pools q d b from_dex i t :
  sound_inputs pools pr q -> 0 <= b -> search_pool pr pools q b d from_dex i = Ok (Some t) -> exact_trade pr pools q d t.
Proof.
  intros Hs Hb Hsp. apply search_pool_index in Hsp as Hi. destruct Hi as (Hix & Htr & _ & Hbl). rewrite <- Hix in Hsp, Htr, Hbl.
  unfold search_pool in Hsp. destruct (prepared_at _ _) as [h|] eqn:Eh; [|done]. exists h. split; [done|].
  eapply evaluate_trade_exact; [apply Hs|destruct d; apply Hs| |done|by eapply Hs|exact Htr]. by eapply pool_baseline_nonneg.
Qed.

Definition from_dex (d : ArbitrageDirection) : bool := bool_decide (d = BuyTokenBOnDexSellOnCex).

(** The pair a quote selects, and what each direction reports for it. *)
Lemma evaluation_best e q e' pe :
  engine_coherent e -> (forall k pr, oe_pairs e !! k = Some pr -> sound_inputs (oe_prepared_pools e) pr q) ->
  evaluate q e = (e', Ok (Some pe)) ->
  exists k pr, oe_pair_indices_by_symbol e !! q_symbol q = Some k /\ oe_pairs e !! k = Some pr /\
  sound_inputs (oe_prepared_pools e) pr q /\ 0 <= pe_baseline_token_b pe /\
  forall d, best_baseline pr (oe_prepared_pools e) q d (pe_baseline_token_b pe) (from_dex d)
    (de_baseline (match d with BuyTokenBOnDexSellOnCex => pe_dex_buy_cex_sell pe
                             | BuyTokenBOnCexSellOnDex => pe_cex_buy_dex_sell pe end)).
Proof.
  intros He Hin Hev. destruct (evaluate_transparent e q He) as (caches & r & E & Hc & Hr). rewrite Hev in E.
  injection E as -> <-. simpl in Hr. unfold reference_search in Hr. destruct (_ ≫= _) as [pr|] eqn:Ep; [|done].
  apply bind_Some in Ep as (k & Hk & Ep). exists k, pr. split; [done|]. split; [done|].
  pose proof (Hin k pr Ep) as Hs. split; [done|]. symmetry in Hr. apply rmap_Ok in Hr as ([[base buy] sell] & Hr & Hx).
  injection Hx as -> -> ->. apply search_pair_inv in Hr as (raw & Eraw & -> & Eb & Es).
  split; [apply round_down_step; [|apply Hs]; eapply token_b_nonneg; [|exact Eraw|]; apply Hs|].
  intros [|]; [exact (proj2 (search_direction_best _ _ _ _ _ _ _ Eb))|exact (proj2 (search_direction_best _ _ _ _ _ _ _ Es))].
Qed.

(** C17. An evaluated quote leaves the engine coherent, and each direction reports
    the best trade of the selectable pools of the pair of the quote's symbol: the one
    whose profit rate is highest, then the largest, then the one of the earliest pool;
    a pool that is not selectable never wins.  Every trade compared has the exact
    rounded economics of its curves and exchange price, its rate is the exact profit
    over its cost, its threshold verdict is the exact comparison, and its execution
    bounds follow from the requoted output and a slippage within the configured limits. *)
Theorem evaluate_selects_best e q e' pe :
  engine_coherent e -> (forall k pr, oe_pairs e !! k = Some pr -> sound_inputs (oe_prepared_pools e) pr q) ->
  evaluate q e = (e', Ok (Some pe)) ->
  engine_coherent e' /\
  exists k pr, oe_pair_indices_by_symbol e !! q_symbol q = Some k /\ oe_pairs e !! k = Some pr /\
  forall d, let de := match d with BuyTokenBOnDexSellOnCex => pe_dex_buy_cex_sell pe
                                 | BuyTokenBOnCexSellOnDex => pe_cex_buy_dex_sell pe end in
    best_baseline pr (oe_prepared_pools e) q d (pe_baseline_token_b pe) (from_dex d) (de_baseline de) /\
    (forall t, de_baseline de = Some t -> exact_trade pr (oe_prepared_pools e) q d t) /\
    forall i t, i ∈ pr_selection_pool_indices pr ->
      search_pool pr (oe_prepared_pools e) q (pe_baseline_token_b pe) d (from_dex d) i = Ok (Some t) ->
      exact_trade pr (oe_prepared_pools e) q d t.
Proof.
  intros He Hin Hev. split.
  { destruct (evaluate_transparent e q He) as (caches & r & E & Hc & Hr). rewrite Hev in E. injection E as -> <-. split; [done|apply He]. }
  destruct (evaluation_best e q e' pe He Hin Hev) as (k & pr & Hk & Hpr & Hs & Hb & Hbest). exists k, pr.
  split; [done|]. split; [done|]. intros d de. split; [apply Hbest|]. split; [|intros i t _; by apply search_pool_exact].
  intros t Ht. destruct (proj2 (Hbest d) t Ht) as [_ Hsp]. by eapply search_pool_exact.
Qed.
End trade.
