(* ===== verification/PreparedPools.v ===== *)
(** * Publication of prepared pools ([src/src/opportunity.rs])

    A pool event takes the pool's curves out of the engine, raises the pool's
    generation and hands the builder a snapshot; the builder's result is
    published only if its generation is still the current one.  Requests wait in a
    batch that keeps the newest of each pool and serves the shortest build first;
    results may come back in any order. *)
From Stdlib Require Import Lia.
From stdpp Require Import base gmap strings numbers list option sorting.
From S2P Require Import Prelude Clmm ClmmTicks ClmmCurve ClmmFused CurveFacts Decimals TradeData RuntimeState Preflight Pricing OpportunitySearch FeeProjection HydratedPools.

Inductive PreparedPoolUnavailable := DexBuyHasNoTokenBOutput | DexSellHasNoTokenBInput.

Inductive BuildError := BuildFailed (e : ClmmError) | PoolUnavailable (reason : PreparedPoolUnavailable).

Inductive PreparedPoolBuildOutcome := OutcomePrepared (quotes : PreparedPoolQuotes) | OutcomeUnavailable (reason : PreparedPoolUnavailable).

Record PreparedPoolBuildRequest := mkRequest {
  br_pool_index : nat;
  br_generation : Z;
  br_pool : ClmmPool;
  br_exact_output_zero_for_one : bool;
  br_exact_input_zero_for_one : bool;
  br_token_a_limit : Z;
  br_dynamic_fee : bool;
  br_estimated_build_segments : Z;
  br_previous_prepared : option PreparedCurveGenerationHandle;
}.

Record PreparedPoolBuildResult := mkBuildResult {
  bs_pool_index : nat;
  bs_generation : Z;
  bs_outcome : PreparedPoolBuildOutcome;
}.

(** What is published, as reported to telemetry and to the preflight. *)
Record PreparedPoolRefresh := mkRefresh {
  rf_pool_index : nat;
  rf_generation : Z;
  rf_exact_output_segments : nat;
  rf_exact_input_segments : nat;
  rf_token_a_exact_input_segments : nat;
  rf_token_a_limit : Z;
  rf_exact_output_token_b_limit : Z;
  rf_exact_input_token_b_limit : Z;
  rf_fee_generation : Z;
  rf_fee_zero_for_one_pips : Z;
  rf_fee_one_for_zero_pips : Z;
}.

Definition USIZE_MAX : Z := 2 ^ 64 - 1.

Definition total_segments (quotes : PreparedPoolQuotes) : Z :=
  saturating_add 64 (saturating_add 64 (Z.of_nat (segment_count (by_direction quotes).1))
                       (Z.of_nat (segment_count (by_direction quotes).2)))
    (Z.of_nat (segment_count (token_a_exact_input quotes))).

(** ** The batch *)
Definition request_le (a b : PreparedPoolBuildRequest) : Prop :=
  br_estimated_build_segments a < br_estimated_build_segments b \/
  br_estimated_build_segments a = br_estimated_build_segments b /\ (br_pool_index a <= br_pool_index b)%nat.
#[global] Instance request_le_dec : RelDecision request_le.
Proof. intros a b. unfold request_le. apply _. Defined.

(** The replacement keeps the estimate and the buffers of the replaced one. *)
Definition inherit (queued request : PreparedPoolBuildRequest) : PreparedPoolBuildRequest :=
  mkRequest (br_pool_index request) (br_generation request) (br_pool request)
    (br_exact_output_zero_for_one request) (br_exact_input_zero_for_one request) (br_token_a_limit request)
    (br_dynamic_fee request) (br_estimated_build_segments queued)
    (match br_previous_prepared request with None => br_previous_prepared queued | p => p end).

Fixpoint queue (requests : list PreparedPoolBuildRequest) (request : PreparedPoolBuildRequest) : list PreparedPoolBuildRequest :=
  match requests with
  | [] => [request]
  | queued :: rest =>
      if (br_pool_index queued =? br_pool_index request)%nat then inherit queued request :: rest
      else queued :: queue rest request
  end.

Definition pop_next (requests : list PreparedPoolBuildRequest) : list PreparedPoolBuildRequest * option PreparedPoolBuildRequest :=
  match merge_sort request_le requests with
  | [] => ([], None)
  | request :: rest => (rest, Some request)
  end.

Definition build_step {A} (r : CRes A) : result BuildError A := match r with Ok a => Ok a | Err e => Err (BuildFailed e) end.

Section build.
Context `{UniswapV3Math}.

(** [previous] only donates its buffers to the new curves. *)
Definition prepare_pool_quotes_from_pool (pool : ClmmPool) (exact_output_zero_for_one exact_input_zero_for_one : bool)
    (token_a_limit : Z) (dynamic_fee : bool) (generation : Z) (previous : option PreparedPoolQuotes)
  : result BuildError PreparedPoolQuotes :=
  let? token_a_exact_input := build_step (prepare_exact_input_curve_bounded pool exact_output_zero_for_one token_a_limit) in
  let exact_output_token_b_limit := result_capacity token_a_exact_input in
  ensure! negb (exact_output_token_b_limit =? 0) else PoolUnavailable DexBuyHasNoTokenBOutput ;;
  let? exact_input := build_step (prepare_exact_input_curve_bounded_by_exact_output pool exact_input_zero_for_one token_a_limit) in
  let exact_input_token_b_limit := specified_capacity exact_input in
  ensure! negb (exact_input_token_b_limit =? 0) else PoolUnavailable DexSellHasNoTokenBInput ;;
  let? exact_output := build_step (prepare_exact_output_curve_bounded pool exact_output_zero_for_one exact_output_token_b_limit) in
  Ok (mkQuotes (exact_output, exact_input) token_a_exact_input token_a_limit exact_output_token_b_limit
        exact_input_token_b_limit dynamic_fee (fee_pips_for_direction pool true) (fee_pips_for_direction pool false)).

Definition prepare_pool_quotes (pair : PairRuntime) (dex : list HydratedPool) (i : nat) (generation : Z)
  : result BuildError PreparedPoolQuotes :=
  match dex !! i with
  | None => Err (BuildFailed (CMsg "DEX pool index is invalid"))
  | Some h =>
      prepare_pool_quotes_from_pool (hp_pool h) (hp_token0 h =? pr_token_a pair) (hp_token0 h =? pr_token_b pair)
        (pr_prepared_token_a_limit pair) (bool_decide (is_Some (hp_camelot_fee h))) generation None
  end.

Definition build (r : PreparedPoolBuildRequest) : CRes PreparedPoolBuildResult :=
  match prepare_pool_quotes_from_pool (br_pool r) (br_exact_output_zero_for_one r) (br_exact_input_zero_for_one r)
          (br_token_a_limit r) (br_dynamic_fee r) (br_generation r) (h_quotes <$> br_previous_prepared r) with
  | Ok prepared => Ok (mkBuildResult (br_pool_index r) (br_generation r) (OutcomePrepared prepared))
  | Err (PoolUnavailable reason) => Ok (mkBuildResult (br_pool_index r) (br_generation r) (OutcomeUnavailable reason))
  | Err (BuildFailed e) => Err e
  end.
End build.

(** ** The engine's side *)
Definition with_pools (e : OpportunityEngine) (generations : list Z) (pools : list (option PreparedCurveGenerationHandle))
    (caches : list PoolBaselineQuoteCache) : OpportunityEngine :=
  mkEngine (oe_pairs e) (oe_pair_indices_by_symbol e) (oe_pair_index_by_pool e) generations pools caches.

Definition invalidate_pool (i : nat) : M OpportunityEngine ClmmError unit := fun e =>
  match oe_baseline_quote_cache e !! i with
  | None => (e, Err (CMsg "opportunity pool cache index is invalid"))
  | Some _ => (with_cache e (<[i := default_pool_cache]> (oe_baseline_quote_cache e)), Ok tt)
  end.

(** Takes the published handle of a pool, leaving it unpublished. *)
Definition take_prepared (i : nat) : M OpportunityEngine ClmmError (option PreparedCurveGenerationHandle) := fun e =>
  match oe_prepared_pools e !! i with
  | None => (e, Err (CMsg "prepared pool estimate index is invalid"))
  | Some previous =>
      (with_pools e (oe_pool_generations e) (<[i := None]> (oe_prepared_pools e)) (oe_baseline_quote_cache e), Ok previous)
  end.

Definition set_generation (i : nat) (generation : Z) : M OpportunityEngine ClmmError unit := fun e =>
  (with_pools e (<[i := generation]> (oe_pool_generations e)) (oe_prepared_pools e) (oe_baseline_quote_cache e), Ok tt).

Definition request_pool_refresh (i : nat) (dex : list HydratedPool) : M OpportunityEngine ClmmError PreparedPoolBuildRequest :=
  do e <- mget ;;
  do pair_index <- mlift (or_err (oe_pair_index_by_pool e !! i ≫= id) (CMsg "opportunity pool has no enabled pair")) ;;
  do current <- mlift (or_err (oe_pool_generations e !! i) (CMsg "opportunity pool generation index is invalid")) ;;
  let generation := saturating_add 64 current 1 in
  do previous <- take_prepared i ;;
  let estimated := match previous with None => USIZE_MAX | Some h => total_segments (h_quotes h) end in
  do! set_generation i generation ;;
  do! invalidate_pool i ;;
  do pair <- mlift (or_err (oe_pairs e !! pair_index) (CMsg "index out of bounds")) ;;
  do hydrated <- mlift (or_err (dex !! i) (CMsg "DEX pool index is invalid")) ;;
  mret (mkRequest i generation (hp_pool hydrated) (hp_token0 hydrated =? pr_token_a pair)
          (hp_token0 hydrated =? pr_token_b pair) (pr_prepared_token_a_limit pair)
          (bool_decide (is_Some (hp_camelot_fee hydrated))) estimated previous).

Definition refresh_of (i : nat) (generation : Z) (p : PreparedPoolQuotes) : PreparedPoolRefresh :=
  mkRefresh i generation (segment_count (by_direction p).1) (segment_count (by_direction p).2)
    (segment_count (token_a_exact_input p)) (pq_token_a_limit p) (pq_exact_output_token_b_limit p)
    (pq_exact_input_token_b_limit p) (if pq_dynamic_fee p then generation else 0)
    (pq_fee_zero_for_one_pips p) (pq_fee_one_for_zero_pips p).

Definition finish_pool_refresh (r : PreparedPoolBuildResult) : M OpportunityEngine ClmmError (option PreparedPoolRefresh) := fun e =>
  let i := bs_pool_index r in
  match oe_pool_generations e !! i with
  | None => (e, Err (CMsg "prepared pool result index is invalid"))
  | Some expected =>
      if negb (bs_generation r =? expected) then (e, Ok None) else
      match bs_outcome r with
      | OutcomeUnavailable _ =>
          match oe_pair_index_by_pool e !! i ≫= id with
          | None => (e, Err (CMsg "unavailable prepared pool has no enabled pair"))
          | Some k => match oe_pairs e !! k with
                      | None => (e, Err (CMsg "unavailable prepared pool pair index is invalid"))
                      | Some _ => (e, Ok None)
                      end
          end
      | OutcomePrepared p =>
          (with_pools e (oe_pool_generations e) (<[i := Some (mkHandle i (bs_generation r) p)]> (oe_prepared_pools e))
             (oe_baseline_quote_cache e), Ok (Some (refresh_of i (bs_generation r) p)))
      end
  end.

Definition is_ready (e : OpportunityEngine) : bool :=
  forallb (fun '(owner, prepared) => negb (bool_decide (is_Some owner)) || bool_decide (is_Some prepared))
    (zip (oe_pair_index_by_pool e) (oe_prepared_pools e)).

Definition pool_generation (e : OpportunityEngine) (i : nat) : CRes Z :=
  or_err (oe_pool_generations e !! i) (CMsg "opportunity pool generation index is invalid").

Definition prepared_pool_generation (e : OpportunityEngine) (i : nat) : CRes (option Z) :=
  let? _ := pool_generation e i in
  let? prepared := or_err (oe_prepared_pools e !! i) (CMsg "prepared pool generation index is invalid") in
  Ok (h_generation <$> prepared).

Definition pool_fee_generation (e : OpportunityEngine) (i : nat) : CRes Z :=
  let? prepared := or_err (oe_prepared_pools e !! i) (CMsg "fee-generation pool index is invalid") in
  let? prepared := or_err prepared (CMsg "prepared DEX pool is unavailable for fee generation") in
  Ok (if pq_dynamic_fee (h_quotes prepared) then h_generation prepared else 0).

(** ** Start *)
Fixpoint index_symbols (k : nat) (pairs : list PairRuntime) (m : gmap string nat) : CRes (gmap string nat) :=
  match pairs with
  | [] => Ok m
  | p :: rest =>
      ensure! bool_decide (m !! pr_symbol p = None) else CMsg "duplicate opportunity symbol" ;;
      index_symbols (S k) rest (<[pr_symbol p := k]> m)
  end.

Definition start_error (b : BuildError) : ClmmError :=
  match b with
  | BuildFailed e => e
  | PoolUnavailable DexBuyHasNoTokenBOutput => CMsg "DEX-buy execution envelope has no token-B output"
  | PoolUnavailable DexSellHasNoTokenBInput => CMsg "DEX-sell execution envelope has no token-B input"
  end.

Section start.
Context `{UniswapV3Math}.

Fixpoint place_pools (dex : list HydratedPool) (k : nat) (p : PairRuntime) (indices : list nat)
    (st : list (option nat) * list (option PreparedCurveGenerationHandle))
  : CRes (list (option nat) * list (option PreparedCurveGenerationHandle)) :=
  match indices with
  | [] => Ok st
  | i :: rest =>
      let? owner := or_err (st.1 !! i) (CMsg "index out of bounds") in
      ensure! bool_decide (owner = None) else CMsg "DEX pool belongs to more than one enabled pair" ;;
      match prepare_pool_quotes p dex i 1 with
      | Err b => Err (start_error b)
      | Ok q => place_pools dex k p rest (<[i := Some k]> st.1, <[i := Some (mkHandle i 1 q)]> st.2)
      end
  end.

Fixpoint place_pairs (dex : list HydratedPool) (k : nat) (pairs : list PairRuntime)
    (st : list (option nat) * list (option PreparedCurveGenerationHandle))
  : CRes (list (option nat) * list (option PreparedCurveGenerationHandle)) :=
  match pairs with
  | [] => Ok st
  | p :: rest => let? st := place_pools dex k p (pr_pool_indices p) st in place_pairs dex (S k) rest st
  end.

(** [OpportunityEngine::new] on the runtimes of the enabled pairs. *)
Definition new_engine (pairs : list PairRuntime) (dex : list HydratedPool) : CRes OpportunityEngine :=
  let? symbols := index_symbols 0 pairs ∅ in
  let? '(owners, pools) := place_pairs dex 0 pairs (replicate (length dex) None, replicate (length dex) None) in
  Ok (mkEngine pairs symbols owners
        ((fun h => match h with Some _ => 1 | None => 0 end) <$> pools) pools
        (replicate (length dex) default_pool_cache)).
End start.

(** ** The publication protocol

    The mirror's pools, the engine, the batch in front of the builder, and the
    results on their way back. *)
Record Publication := mkPublication {
  pb_dex : list HydratedPool;
  pb_engine : OpportunityEngine;
  pb_batch : list PreparedPoolBuildRequest;
  pb_results : list PreparedPoolBuildResult;
}.

(** What the curves of a pool depend on. *)
Definition same_source (h h' : HydratedPool) : Prop :=
  hp_pool h' = hp_pool h /\ hp_token0 h' = hp_token0 h /\ (is_Some (hp_camelot_fee h') <-> is_Some (hp_camelot_fee h)).

Section protocol.
Context `{UniswapV3Math}.

Inductive pub_step : Publication -> Publication -> Prop :=
  | pub_event dex e batch results i h' e' r g :
      (i < length dex)%nat -> oe_pool_generations e !! i = Some g -> g < USIZE_MAX ->
      request_pool_refresh i (<[i := h']> dex) e = (e', Ok r) ->
      pub_step (mkPublication dex e batch results) (mkPublication (<[i := h']> dex) e' (queue batch r) results)
  | pub_quiet dex dex' e batch results :
      Forall2 same_source dex dex' -> pub_step (mkPublication dex e batch results) (mkPublication dex' e batch results)
  | pub_build dex e batch results rest r res :
      pop_next batch = (rest, Some r) -> build r = Ok res ->
      pub_step (mkPublication dex e batch results) (mkPublication dex e rest (results ++ [res]))
  | pub_finish dex e batch results k res e' o :
      results !! k = Some res -> finish_pool_refresh res e = (e', Ok o) ->
      pub_step (mkPublication dex e batch results) (mkPublication dex e' batch (delete k results))
  | pub_evaluate dex e batch results q e' o :
      evaluate q e = (e', o) -> pub_step (mkPublication dex e batch results) (mkPublication dex e' batch results)
  | pub_fees dex e batch results sym buy sell e' o :
      set_binance_fee_bps sym buy sell e = (e', o) ->
      pub_step (mkPublication dex e batch results) (mkPublication dex e' batch results).

(** The curves a pool's current snapshot gives. *)
Definition quotes_of (p : PairRuntime) (h : HydratedPool) : result BuildError PreparedPoolQuotes :=
  prepare_pool_quotes_from_pool (hp_pool h) (hp_token0 h =? pr_token_a p) (hp_token0 h =? pr_token_b p)
    (pr_prepared_token_a_limit p) (bool_decide (is_Some (hp_camelot_fee h))) 0 None.

Definition source (e : OpportunityEngine) (dex : list HydratedPool) (i : nat) : option (result BuildError PreparedPoolQuotes) :=
  k ← oe_pair_index_by_pool e !! i ≫= id; p ← oe_pairs e !! k; h ← dex !! i; Some (quotes_of p h).

Definition request_quotes (r : PreparedPoolBuildRequest) : result BuildError PreparedPoolQuotes :=
  prepare_pool_quotes_from_pool (br_pool r) (br_exact_output_zero_for_one r) (br_exact_input_zero_for_one r)
    (br_token_a_limit r) (br_dynamic_fee r) 0 None.

Definition outcome_quotes (o : PreparedPoolBuildOutcome) : result BuildError PreparedPoolQuotes :=
  match o with OutcomePrepared p => Ok p | OutcomeUnavailable x => Err (PoolUnavailable x) end.

(** A generation of a pool, with the curves computed under it: stale, or
    current and then the curves of the current snapshot. *)
Definition tracked (e : OpportunityEngine) (dex : list HydratedPool) (i : nat) (g : Z)
    (q : result BuildError PreparedPoolQuotes) : Prop :=
  exists current, oe_pool_generations e !! i = Some current /\ g <= current /\ (g = current -> source e dex i = Some q).

Definition in_progress (s : Publication) (i : nat) : Prop :=
  exists g, oe_pool_generations (pb_engine s) !! i = Some g /\
    ((exists r, r ∈ pb_batch s /\ br_pool_index r = i /\ br_generation r = g) \/
     (exists r, r ∈ pb_results s /\ bs_pool_index r = i /\ bs_generation r = g)).

Record publication_ok (s : Publication) : Prop := {
  pk_coherent : engine_coherent (pb_engine s);
  pk_lengths : length (oe_pair_index_by_pool (pb_engine s)) = length (pb_dex s) /\
    length (oe_pool_generations (pb_engine s)) = length (pb_dex s) /\
    length (oe_prepared_pools (pb_engine s)) = length (pb_dex s);
  pk_members k p i : oe_pairs (pb_engine s) !! k = Some p -> i ∈ pr_pool_indices p ->
    oe_pair_index_by_pool (pb_engine s) !! i = Some (Some k);
  pk_owners i k : oe_pair_index_by_pool (pb_engine s) !! i = Some (Some k) -> is_Some (oe_pairs (pb_engine s) !! k);
  pk_handles i h : prepared_at (oe_prepared_pools (pb_engine s)) i = Some h ->
    h_pool_index h = i /\ oe_pool_generations (pb_engine s) !! i = Some (h_generation h) /\
    source (pb_engine s) (pb_dex s) i = Some (Ok (h_quotes h));
  pk_batch r : r ∈ pb_batch s -> tracked (pb_engine s) (pb_dex s) (br_pool_index r) (br_generation r) (request_quotes r);
  pk_results r : r ∈ pb_results s ->
    tracked (pb_engine s) (pb_dex s) (bs_pool_index r) (bs_generation r) (outcome_quotes (bs_outcome r));
  pk_progress i : is_Some (oe_pair_index_by_pool (pb_engine s) !! i ≫= id) ->
    is_Some (prepared_at (oe_prepared_pools (pb_engine s)) i) \/ in_progress s i \/
    exists reason, source (pb_engine s) (pb_dex s) i = Some (Err (PoolUnavailable reason));
}.
End protocol.

(** ** The batch keeps what it must *)
Lemma queue_from l r x :
  x ∈ queue l r -> x ∈ l \/
    (br_pool_index x = br_pool_index r /\ br_generation x = br_generation r /\
     forall `{UniswapV3Math}, request_quotes x = request_quotes r).
Proof.
  induction l as [|y l IH]; simpl.
  - intros ->%list_elem_of_singleton. by right.
  - destruct (Nat.eqb_spec (br_pool_index y) (br_pool_index r)); intros [->|Hx]%elem_of_cons.
    + by right.
    + left. by right.
    + left. by left.
    + destruct (IH Hx); [left; by right|by right].
Qed.

Lemma queue_has l r : exists x, x ∈ queue l r /\ br_pool_index x = br_pool_index r /\ br_generation x = br_generation r.
Proof.
  induction l as [|y l IH]; simpl; [exists r; by rewrite list_elem_of_singleton|].
  destruct (Nat.eqb_spec (br_pool_index y) (br_pool_index r)).
  - exists (inherit y r). split; [by left|done].
  - destruct IH as (x & Hx & ?). exists x. split; [by right|done].
Qed.

Lemma queue_keeps l r x : x ∈ l -> br_pool_index x <> br_pool_index r -> x ∈ queue l r.
Proof.
  induction l as [|y l IH]; simpl; [by intros ?%elem_of_nil|]. intros [->|Hx]%elem_of_cons Hne.
  - rewrite (proj2 (Nat.eqb_neq _ _) Hne). by left.
  - destruct (br_pool_index y =? br_pool_index r)%nat; right; auto.
Qed.

#[global] Instance request_le_total : Total request_le.
Proof. intros a b. unfold request_le. lia. Qed.

#[global] Instance request_le_trans : Transitive request_le.
Proof. intros a b c. unfold request_le. lia. Qed.

(** The popped request is one of the shortest, and nothing is lost. *)
Lemma pop_next_spec l rest r :
  pop_next l = (rest, Some r) -> l ≡ₚ r :: rest /\ Forall (request_le r) rest.
Proof.
  unfold pop_next. destruct (merge_sort request_le l) as [|x m] eqn:E; [done|]. intros [= <- <-].
  split; [by rewrite <- E, merge_sort_Permutation|].
  pose proof (StronglySorted_merge_sort request_le l) as Hs. rewrite E in Hs.
  by apply StronglySorted_inv in Hs as [_ ?].
Qed.

(** ** One request *)
Lemma request_inv `{UniswapV3Math} i dex e e' r :
  request_pool_refresh i dex e = (e', Ok r) ->
  exists g, oe_pool_generations e !! i = Some g /\
    e' = with_pools e (<[i := saturating_add 64 g 1]> (oe_pool_generations e)) (<[i := None]> (oe_prepared_pools e))
           (<[i := default_pool_cache]> (oe_baseline_quote_cache e)) /\
    br_pool_index r = i /\ br_generation r = saturating_add 64 g 1 /\ source e dex i = Some (request_quotes r).
Proof.
  unfold request_pool_refresh, mbind', mlift, mget, mret, take_prepared, set_generation, invalidate_pool, source.
  destruct (oe_pair_index_by_pool e !! i ≫= id) as [k|]; simpl; [|done].
  destruct (oe_pool_generations e !! i) as [g|]; simpl; [|done].
  destruct (oe_prepared_pools e !! i) as [previous|]; simpl; [|done].
  destruct (oe_baseline_quote_cache e !! i) as [c|]; simpl; [|done].
  destruct (oe_pairs e !! k) as [p|]; simpl; [|done]. destruct (dex !! i) as [h|]; simpl; [|done].
  intros [= <- <-]. by exists g.
Qed.

(** ** Caches under a change of one pool *)
Section caches.
Context `{UniswapV3Math}.

Lemma prepared_at_insert_ne pools i j o : j <> i -> prepared_at (<[i := o]> pools) j = prepared_at pools j.
Proof. intros Hne. unfold prepared_at. by rewrite list_lookup_insert_ne. Qed.

Lemma prepared_at_insert pools i o : (i < length pools)%nat -> prepared_at (<[i := o]> pools) i = o.
Proof. intros Hi. unfold prepared_at. by rewrite list_lookup_insert_eq. Qed.

Lemma quote_dex_insert_ne pools i j o d b : j <> i -> quote_dex (<[i := o]> pools) d j b = quote_dex pools d j b.
Proof. intros Hne. unfold quote_dex. by rewrite prepared_at_insert_ne. Qed.

Lemma direction_coherent_ext pools pools' i d c :
  (forall b, quote_dex pools' d i b = quote_dex pools d i b) -> direction_coherent pools i d c -> direction_coherent pools' i d c.
Proof. intros Hq [? ? He]. split; [done|done|]. intros e Hin. rewrite Hq. by apply He. Qed.

Lemma coherent_withdrawn pools caches i :
  cache_coherent pools caches -> cache_coherent (<[i := None]> pools) (<[i := default_pool_cache]> caches).
Proof.
  intros [Hl Hc]. split; [by rewrite !length_insert|]. intros j c d Hj.
  apply list_lookup_insert_Some in Hj as [(<- & <- & _)|[Hne Hj]]; [apply default_coherent|].
  eapply direction_coherent_ext; [intros b; apply quote_dex_insert_ne; congruence|by apply Hc].
Qed.

(** Publishing under an empty slot, or the same curves again. *)
Lemma coherent_published pools caches i h :
  cache_coherent pools caches -> (forall h0, prepared_at pools i = Some h0 -> h_quotes h0 = h_quotes h) ->
  cache_coherent (<[i := Some h]> pools) caches.
Proof.
  intros [Hl Hc] Hsame. split; [by rewrite length_insert|]. intros j c d Hj. pose proof (Hc j c d Hj) as Hd.
  destruct (decide (j = i)) as [->|Hne]; [|eapply direction_coherent_ext; [intros b; by apply quote_dex_insert_ne|done]].
  destruct Hd as [? ? He]. split; [done|done|]. intros e Hin. specialize (He e Hin).
  unfold quote_dex in *. rewrite prepared_at_insert by (apply lookup_lt_Some in Hj; lia).
  destruct (prepared_at pools i) as [h0|]; [|done]. specialize (Hsame h0 eq_refl). cbn [or_err rbind] in *.
  rewrite Hsame in He. exact He.
Qed.
End caches.

(** ** Sources *)
Section sources.
Context `{UniswapV3Math}.

Lemma source_insert_ne e dex i j h : j <> i -> source e (<[i := h]> dex) j = source e dex j.
Proof. intros Hne. unfold source. by rewrite list_lookup_insert_ne. Qed.

Lemma quotes_of_same p h h' : same_source h h' -> quotes_of p h' = quotes_of p h.
Proof. intros (E1 & E2 & E3). unfold quotes_of. rewrite E1, E2. by rewrite (bool_decide_ext _ _ E3). Qed.

Lemma source_quiet e dex dex' i : Forall2 same_source dex dex' -> source e dex' i = source e dex i.
Proof.
  intros Hs. unfold source. destruct (oe_pair_index_by_pool e !! i ≫= id) as [k|]; [|done]. simpl.
  destruct (oe_pairs e !! k) as [p|]; [|done]. simpl.
  destruct (dex !! i) as [h|] eqn:Eh.
  - destruct (Forall2_lookup_l _ _ _ _ _ Hs Eh) as (h' & -> & Hh). simpl. by rewrite (quotes_of_same p h h').
  - assert (dex' !! i = None) as ->; [|done]. apply lookup_ge_None in Eh. apply lookup_ge_None.
    by rewrite <- (Forall2_length _ _ _ Hs).
Qed.

Lemma tracked_quiet e e' dex dex' i g q :
  oe_pool_generations e' = oe_pool_generations e -> source e' dex' i = source e dex i ->
  tracked e dex i g q -> tracked e' dex' i g q.
Proof. intros Hg Hs (c & ? & ? & ?). exists c. by rewrite Hg, Hs. Qed.

(** A generation raised at [i] makes everything earlier there stale. *)
Lemma tracked_raised e e' dex i h c c' :
  oe_pool_generations e !! i = Some c -> c < c' -> (i < length (oe_pool_generations e))%nat ->
  oe_pool_generations e' = <[i := c']> (oe_pool_generations e) ->
  (forall j, source e' dex j = source e dex j) ->
  forall j g q, tracked e dex j g q -> tracked e' (<[i := h]> dex) j g q.
Proof.
  intros Hc Hlt Hi Hg Hs j g q (cur & Hcur & Hle & Hq). destruct (decide (j = i)) as [->|Hne].
  - exists c'. rewrite Hg, list_lookup_insert_eq by done. split; [done|]. assert (cur = c) as -> by congruence. split; lia.
  - exists cur. rewrite Hg, list_lookup_insert_ne by done. split; [done|]. split; [done|].
    intros E. specialize (Hq E). rewrite <- Hq, <- Hs. unfold source. by rewrite list_lookup_insert_ne.
Qed.
End sources.

(** ** The invariant along the protocol *)
Section preservation.
Context `{UniswapV3Math}.

Lemma event_ok dex e batch results i h' e' r g :
  (i < length dex)%nat -> oe_pool_generations e !! i = Some g -> g < USIZE_MAX ->
  request_pool_refresh i (<[i := h']> dex) e = (e', Ok r) ->
  publication_ok (mkPublication dex e batch results) ->
  publication_ok (mkPublication (<[i := h']> dex) e' (queue batch r) results).
Proof.
  intros Hi Hg Hmax Hreq [Hc (L1 & L2 & L3) Hm Ho Hh Hb Hr Hp]. simpl in *.
  destruct (request_inv _ _ _ _ _ Hreq) as (g0 & Hg0 & -> & Hri & Hrg & Hsrc).
  assert (g0 = g) as -> by congruence.
  assert (Hsat : saturating_add 64 g 1 = g + 1) by (unfold saturating_add, USIZE_MAX in *; lia). rewrite Hsat in *.
  set (e' := with_pools _ _ _ _). assert (Hse : forall dex j, source e' dex j = source e dex j) by done.
  assert (Hup : forall j gq q, tracked e dex j gq q -> tracked e' (<[i := h']> dex) j gq q)
    by (apply (tracked_raised e e' dex i h' g (g + 1)); done || lia).
  assert (Hnew : oe_pool_generations e' !! i = Some (g + 1)) by (simpl; apply list_lookup_insert_eq; lia).
  split; simpl.
  - split; [|apply Hc]. apply coherent_withdrawn, Hc.
  - rewrite !length_insert. done.
  - exact Hm.
  - exact Ho.
  - intros j h Hj. destruct (decide (j = i)) as [->|Hne].
    { rewrite prepared_at_insert in Hj by lia. done. }
    rewrite prepared_at_insert_ne in Hj by done. rewrite list_lookup_insert_ne by done.
    rewrite Hse, source_insert_ne by done. by apply Hh.
  - intros x Hx. apply queue_from in Hx as [Hx|(-> & -> & Hq)]; [by apply Hup, Hb|].
    rewrite Hri, Hrg, Hq. exists (g + 1). split; [done|]. split; [lia|]. done.
  - intros x Hx. by apply Hup, Hr.
  - intros j Hj. destruct (decide (j = i)) as [->|Hne].
    + right. left. exists (g + 1). split; [done|]. left. destruct (queue_has batch r) as (x & Hx & ? & ?).
      exists x. split_and!; [done|congruence|congruence].
    + rewrite prepared_at_insert_ne by done. destruct (Hp j Hj) as [Hl|[(gj & Hgj & Hw)|(reason & Hre)]]; [by left| |].
      * right. left. exists gj. simpl. rewrite list_lookup_insert_ne by done. split; [done|].
        destruct Hw as [(x & Hx & Hxi & Hxg)|Hw]; [left|by right].
        exists x. split; [|done]. apply queue_keeps; [done|]. congruence.
      * right. right. exists reason. rewrite Hse. by rewrite source_insert_ne.
Qed.

Lemma quiet_ok dex dex' e batch results :
  Forall2 same_source dex dex' -> publication_ok (mkPublication dex e batch results) ->
  publication_ok (mkPublication dex' e batch results).
Proof.
  intros Hs [Hc (L1 & L2 & L3) Hm Ho Hh Hb Hr Hp]. pose proof (Forall2_length _ _ _ Hs). simpl in *.
  split; simpl; [done|split_and!; congruence|exact Hm|exact Ho| | | |].
  - intros i h Hi. rewrite (source_quiet e dex dex' i Hs). by apply Hh.
  - intros r Hin. eapply tracked_quiet; [done|by apply source_quiet|by apply Hb].
  - intros r Hin. eapply tracked_quiet; [done|by apply source_quiet|by apply Hr].
  - intros i Hi. rewrite (source_quiet e dex dex' i Hs). by apply Hp.
Qed.

Lemma build_inv r res :
  build r = Ok res ->
  bs_pool_index res = br_pool_index r /\ bs_generation res = br_generation r /\ outcome_quotes (bs_outcome res) = request_quotes r.
Proof.
  unfold build, request_quotes. intros Hb.
  change (prepare_pool_quotes_from_pool (br_pool r) (br_exact_output_zero_for_one r) (br_exact_input_zero_for_one r)
            (br_token_a_limit r) (br_dynamic_fee r) (br_generation r) (h_quotes <$> br_previous_prepared r))
    with (prepare_pool_quotes_from_pool (br_pool r) (br_exact_output_zero_for_one r) (br_exact_input_zero_for_one r)
            (br_token_a_limit r) (br_dynamic_fee r) 0 None) in Hb.
  destruct (prepare_pool_quotes_from_pool _ _ _ _ _ _ _) as [q|[er|reason]]; [|done|]; by injection Hb as <-.
Qed.

Lemma build_ok dex e batch results rest r res :
  pop_next batch = (rest, Some r) -> build r = Ok res -> publication_ok (mkPublication dex e batch results) ->
  publication_ok (mkPublication dex e rest (results ++ [res])).
Proof.
  intros Hpop Hbuild [Hc Hl Hm Ho Hh Hb Hr Hp]. simpl in *.
  apply pop_next_spec in Hpop as [Hperm _]. destruct (build_inv _ _ Hbuild) as (Ei & Eg & Eq).
  split; simpl; [done|done|exact Hm|exact Ho|done| | |].
  - intros x Hx. apply Hb. rewrite Hperm. by right.
  - intros x [Hx| ->%list_elem_of_singleton]%elem_of_app; [by apply Hr|].
    rewrite Ei, Eg, Eq. apply Hb. rewrite Hperm. by left.
  - intros i Hi. destruct (Hp i Hi) as [?|[(g & Hg & Hw)|?]]; [by left| |by do 2 right]. right. left. exists g. split; [done|].
    simpl. destruct Hw as [(x & Hx & Hxi & Hxg)|(x & Hx & ?)].
    + simpl in Hx. rewrite Hperm in Hx. apply elem_of_cons in Hx as [->|Hx]; [right|left; by exists x].
      exists res. split; [apply elem_of_app; right; by apply list_elem_of_singleton|]. split; congruence.
    + right. exists x. split; [apply elem_of_app; by left|done].
Qed.

Lemma finish_inv res e e' o :
  finish_pool_refresh res e = (e', Ok o) ->
  exists current, oe_pool_generations e !! bs_pool_index res = Some current /\
    ((bs_generation res <> current /\ e' = e /\ o = None) \/
     (bs_generation res = current /\ exists x, bs_outcome res = OutcomeUnavailable x /\ e' = e /\ o = None) \/
     (bs_generation res = current /\ exists p, bs_outcome res = OutcomePrepared p /\
        o = Some (refresh_of (bs_pool_index res) (bs_generation res) p) /\
        e' = with_pools e (oe_pool_generations e)
               (<[bs_pool_index res := Some (mkHandle (bs_pool_index res) (bs_generation res) p)]> (oe_prepared_pools e))
               (oe_baseline_quote_cache e))).
Proof.
  unfold finish_pool_refresh. destruct (oe_pool_generations e !! bs_pool_index res) as [current|]; [|done].
  intros Hf. exists current. split; [done|]. destruct (Z.eqb_spec (bs_generation res) current) as [E|E]; simpl in Hf.
  2:{ injection Hf as <- <-. by left. }
  right. destruct (bs_outcome res) as [p|x].
  - right. injection Hf as <- <-. split; [done|]. by exists p.
  - left. split; [done|]. exists x. destruct (_ ≫= id); [|done]. destruct (_ !! _); [|done]. by injection Hf as <- <-.
Qed.

Lemma in_progress_delete dex e e' batch results k res i :
  results !! k = Some res -> bs_pool_index res <> i \/ oe_pool_generations e !! bs_pool_index res <> Some (bs_generation res) ->
  oe_pool_generations e' = oe_pool_generations e ->
  in_progress (mkPublication dex e batch results) i -> in_progress (mkPublication dex e' batch (delete k results)) i.
Proof.
  intros Hk Hne Hg (g & Hi & Hw). exists g. simpl in *. rewrite Hg. split; [done|].
  destruct Hw as [?|(x & Hx & Hxi & Hxg)]; [by left|right]. exists x. split; [|done].
  rewrite (delete_Permutation _ _ _ Hk) in Hx. apply elem_of_cons in Hx as [->|Hx]; [|done].
  exfalso. destruct Hne as [Hne|Hne]; [by apply Hne|]. apply Hne. by rewrite Hxi, Hxg.
Qed.

Lemma finish_ok dex e batch results k res e' o :
  results !! k = Some res -> finish_pool_refresh res e = (e', Ok o) ->
  publication_ok (mkPublication dex e batch results) -> publication_ok (mkPublication dex e' batch (delete k results)).
Proof.
  intros Hk Hf [Hc (L1 & L2 & L3) Hm Ho Hh Hb Hr Hp]. simpl in *.
  destruct (finish_inv _ _ _ _ Hf) as (current & Hcur & Hcases).
  assert (Hres : res ∈ results) by by eapply list_elem_of_lookup_2.
  destruct (Hr res Hres) as (c' & Hc' & _ & Hsrc). rewrite Hcur in Hc'. injection Hc' as <-.
  assert (Hsub : forall r, r ∈ delete k results -> r ∈ results)
    by (intros r Hin; rewrite (delete_Permutation _ _ _ Hk); by right).
  assert (Hother : forall i, bs_pool_index res <> i -> is_Some (oe_pair_index_by_pool e !! i ≫= id) ->
    oe_pool_generations e' = oe_pool_generations e -> prepared_at (oe_prepared_pools e') i = prepared_at (oe_prepared_pools e) i ->
    (forall j, source e' dex j = source e dex j) ->
    is_Some (prepared_at (oe_prepared_pools e') i) \/ in_progress (mkPublication dex e' batch (delete k results)) i \/
    exists reason, source e' dex i = Some (Err (PoolUnavailable reason))).
  { intros i Hne Hi Hge Hpr Hso. rewrite Hpr, Hso. destruct (Hp i Hi) as [?|[Hw|?]]; [by left| |by do 2 right].
    right. left. eapply in_progress_delete; [done|by left|done|exact Hw]. }
  destruct Hcases as [(Hne & -> & _)|[(E & x & Hout & -> & _)|(E & p & Hout & _ & ->)]].
  - split; simpl; [done|done|exact Hm|exact Ho|done|done|by auto|]. intros i Hi.
    destruct (Hp i Hi) as [?|[Hw|?]]; [by left| |by do 2 right]. right. left.
    eapply in_progress_delete; [done|right|done|exact Hw]. rewrite Hcur. congruence.
  - split; simpl; [done|done|exact Hm|exact Ho|done|done|by auto|]. intros i Hi.
    destruct (decide (bs_pool_index res = i)) as [<-|Hne]; [|by apply Hother].
    right. right. exists x. specialize (Hsrc E). by rewrite Hout in Hsrc.
  - specialize (Hsrc E). rewrite Hout in Hsrc. simpl in Hsrc. set (i0 := bs_pool_index res) in *.
    assert (Hi0 : (i0 < length (oe_prepared_pools e))%nat) by (apply lookup_lt_Some in Hcur; lia).
    split; simpl; [|rewrite length_insert; done|exact Hm|exact Ho| |exact Hb|intros r Hin; exact (Hr r (Hsub r Hin))|].
    + split; [|apply Hc]. apply coherent_published; [apply Hc|]. intros h0 Hh0.
      destruct (Hh _ _ Hh0) as (_ & _ & Hs0). rewrite Hs0 in Hsrc. by injection Hsrc.
    + intros i h Hi. destruct (decide (i = i0)) as [->|Hne]; [|by rewrite prepared_at_insert_ne in Hi by done; apply Hh].
      rewrite prepared_at_insert in Hi by done. injection Hi as <-. simpl. split_and!; [done|congruence|done].
    + intros i Hi. destruct (decide (i0 = i)) as [<-|Hne]; [|apply Hother; try done; by apply prepared_at_insert_ne].
      left. rewrite prepared_at_insert by done. done.
Qed.

Lemma evaluate_ok dex e batch results q e' o :
  evaluate q e = (e', o) -> publication_ok (mkPublication dex e batch results) ->
  publication_ok (mkPublication dex e' batch results).
Proof.
  intros He [Hc Hl Hm Ho Hh Hb Hr Hp]. simpl in *.
  destruct (evaluate_transparent e q Hc) as (caches & r & E & Hcc & _). rewrite He in E. injection E as -> ->.
  split; simpl; try done. split; [done|apply Hc].
Qed.

Lemma set_fees_inv sym buy sell e e' o :
  set_binance_fee_bps sym buy sell e = (e', o) ->
  e' = e \/ exists k p p', oe_pairs e !! k = Some p /\
    pr_token_a p' = pr_token_a p /\ pr_token_b p' = pr_token_b p /\ pr_prepared_token_a_limit p' = pr_prepared_token_a_limit p /\
    pr_pool_indices p' = pr_pool_indices p /\
    e' = mkEngine (<[k := p']> (oe_pairs e)) (oe_pair_indices_by_symbol e) (oe_pair_index_by_pool e)
           (oe_pool_generations e) (oe_prepared_pools e) (oe_baseline_quote_cache e).
Proof.
  unfold set_binance_fee_bps. destruct (rbind _ _) as [[k p]|] eqn:E; intros [= <- <-]; [|by left].
  right. res_inv. eexists k, p, _. split; [done|]. split; [|split; [|split; [|split]]]; cycle 4; [reflexivity|done..].
Qed.

Lemma fees_source sym buy sell e e' o dex i : set_binance_fee_bps sym buy sell e = (e', o) -> source e' dex i = source e dex i.
Proof.
  intros Hs. destruct (set_fees_inv _ _ _ _ _ _ Hs) as [->|(k & p & p' & Hp' & Ea & Eb & El & Ei & ->)]; [done|].
  unfold source. simpl. destruct (oe_pair_index_by_pool e !! i ≫= id) as [j|]; [|done]. simpl.
  destruct (decide (j = k)) as [->|]; [|by rewrite list_lookup_insert_ne].
  rewrite list_lookup_insert_eq by (by eapply lookup_lt_Some). rewrite Hp'. simpl. destruct (dex !! i); [|done]. simpl.
  unfold quotes_of. by rewrite Ea, Eb, El.
Qed.

Lemma fees_ok dex e batch results sym buy sell e' o :
  set_binance_fee_bps sym buy sell e = (e', o) -> publication_ok (mkPublication dex e batch results) ->
  publication_ok (mkPublication dex e' batch results).
Proof.
  intros Hs Hok. destruct (set_fees_inv _ _ _ _ _ _ Hs) as [->|(k & p & p' & Hp' & Ea & Eb & El & Ei & ->)]; [done|].
  destruct Hok as [Hc Hl Hm Ho Hh Hb Hr Hp]. simpl in *. set (e' := mkEngine _ _ _ _ _ _).
  assert (Hsome : forall j, is_Some (oe_pairs e !! j) -> is_Some (oe_pairs e' !! j)).
  { intros j Hj. simpl. destruct (decide (j = k)) as [->|]; [|by rewrite list_lookup_insert_ne].
    rewrite list_lookup_insert_eq; [done|]. by eapply lookup_lt_Some. }
  assert (Hsrc : forall i, source e' dex i = source e dex i) by (intros i; by eapply fees_source).
  split; simpl; [split; [apply Hc|intros sy j Hj; by eapply Hsome, Hc]|done| |intros i j Hij; by eapply Hsome, Ho| | | |].
  - intros j x i Hj Hi. destruct (decide (j = k)) as [->|Hne]; [|rewrite list_lookup_insert_ne in Hj by done; by eapply Hm].
    rewrite list_lookup_insert_eq in Hj by (by eapply lookup_lt_Some). injection Hj as <-. rewrite Ei in Hi. by eapply Hm.
  - intros i h Hi. rewrite Hsrc. by apply Hh.
  - intros r Hin. apply (tracked_quiet e e' dex dex); [done|apply Hsrc|by apply Hb].
  - intros r Hin. apply (tracked_quiet e e' dex dex); [done|apply Hsrc|by apply Hr].
  - intros i Hi. rewrite Hsrc. by apply Hp.
Qed.

Lemma pub_step_ok s s' : pub_step s s' -> publication_ok s -> publication_ok s'.
Proof.
  destruct 1; intros Hok; eauto using event_ok, quiet_ok, build_ok, finish_ok, evaluate_ok, fees_ok.
Qed.

Lemma pub_steps_ok s s' : rtc pub_step s s' -> publication_ok s -> publication_ok s'.
Proof. induction 1; eauto using pub_step_ok. Qed.
End preservation.

(** ** The engine starts well *)
Section started.
Context `{UniswapV3Math}.
Context (pairs : list PairRuntime) (dex : list HydratedPool).

Definition placed (owners : list (option nat)) (pools : list (option PreparedCurveGenerationHandle)) : Prop :=
  length owners = length dex /\ length pools = length dex /\
  (forall i h, prepared_at pools i = Some h -> h_pool_index h = i /\ h_generation h = 1 /\
     exists k p hp, owners !! i = Some (Some k) /\ pairs !! k = Some p /\ dex !! i = Some hp /\ quotes_of p hp = Ok (h_quotes h)) /\
  (forall i k, owners !! i = Some (Some k) -> is_Some (pairs !! k) /\ is_Some (prepared_at pools i)).

(** Every pool of the pairs before [k] belongs to its pair. *)
Definition members (owners : list (option nat)) (n : nat) : Prop :=
  forall k p i, (k < n)%nat -> pairs !! k = Some p -> i ∈ pr_pool_indices p -> owners !! i = Some (Some k).

Lemma place_pools_ok k p indices owners pools st :
  pairs !! k = Some p -> placed owners pools -> place_pools dex k p indices (owners, pools) = Ok st ->
  placed st.1 st.2 /\ (forall i, i ∈ indices -> st.1 !! i = Some (Some k)) /\
  (forall i j, owners !! i = Some (Some j) -> st.1 !! i = Some (Some j)).
Proof.
  intros Hp. revert owners pools. induction indices as [|i rest IH]; intros owners pools (L1 & L2 & Hh & Ho) Hpl; simpl in Hpl.
  { injection Hpl as <-. split; [done|]. split; [by intros i ?%elem_of_nil|done]. }
  destruct (owners !! i) as [o|] eqn:Eo; [|done]. cbn [or_err rbind] in Hpl.
  destruct o as [|]; [done|]. cbn [ensure rbind] in Hpl. pose proof (lookup_lt_Some _ _ _ Eo) as Hi.
  destruct (prepare_pool_quotes p dex i 1) as [q|b] eqn:Eq; [|done].
  unfold prepare_pool_quotes in Eq. destruct (dex !! i) as [hp|] eqn:Ed; [|done].
  assert (Hstep : placed (<[i:=Some k]> owners) (<[i:=Some (mkHandle i 1 q)]> pools)); cycle 1.
  { destruct (IH _ _ Hstep Hpl) as (Hpl1 & Hin & Hkeep). split; [done|]. split.
    - intros j [->|Hj]%elem_of_cons; [|by apply Hin]. apply Hkeep. by rewrite list_lookup_insert_eq.
    - intros j m Hj. apply Hkeep. rewrite list_lookup_insert_ne; [done|]. intros <-. congruence. }
  split_and!; [by rewrite length_insert|by rewrite length_insert| |].
  - intros j h Hj. destruct (decide (j = i)) as [->|Hne].
    + rewrite prepared_at_insert in Hj by lia. injection Hj as <-. split; [done|]. split; [done|].
      exists k, p, hp. rewrite list_lookup_insert_eq by done. done.
    + rewrite prepared_at_insert_ne in Hj by done. rewrite list_lookup_insert_ne by done. by apply Hh.
  - intros j m Hj. destruct (decide (j = i)) as [->|Hne].
    + rewrite list_lookup_insert_eq in Hj by done. injection Hj as <-. split; [by eexists|].
      rewrite prepared_at_insert by lia. by eexists.
    + rewrite list_lookup_insert_ne in Hj by done. rewrite prepared_at_insert_ne by done. by apply Ho.
Qed.

Lemma place_pairs_ok k rest owners pools st :
  (forall j, rest !! j = pairs !! (k + j)%nat) -> placed owners pools ->
  members owners k -> place_pairs dex k rest (owners, pools) = Ok st -> placed st.1 st.2 /\ members st.1 (k + length rest).
Proof.
  revert k owners pools. induction rest as [|p rest IH]; intros k owners pools Hr Hpl Hmem E; simpl in E.
  { injection E as <-. simpl. by rewrite Nat.add_0_r. }
  destruct (place_pools _ _ _ _ _) as [[o1 p1]|] eqn:E1; [|done]. cbn [rbind] in E.
  assert (Hk : pairs !! k = Some p) by (specialize (Hr O); by rewrite Nat.add_0_r in Hr).
  apply place_pools_ok in E1 as (Hpl1 & Hin1 & Hkeep); [|done|done]. simpl in *. rewrite Nat.add_succ_r.
  apply (IH (S k) o1 p1); [|done| |done].
  2:{ intros j x i Hj Hx Hi. destruct (decide (j = k)) as [->|]; [|apply Hkeep, (Hmem j x i); done || lia].
      assert (x = p) as -> by congruence. by apply Hin1. } intros j. specialize (Hr (S j)). simpl in Hr. by rewrite Nat.add_succ_r in Hr.
Qed.

Lemma index_symbols_ok k rest m m' :
  (k + length rest = length pairs)%nat -> (forall s j, m !! s = Some j -> (j < length pairs)%nat) ->
  index_symbols k rest m = Ok m' -> forall s j, m' !! s = Some j -> (j < length pairs)%nat.
Proof.
  revert k m. induction rest as [|p rest IH]; intros k m Hk Hm E; simpl in E, Hk.
  { by injection E as <-. }
  destruct (ensure _ _) as [[]|]; [|done]. cbn [rbind] in E. refine (IH (S k) _ ltac:(lia) _ E).
  intros s j Hs. apply lookup_insert_Some in Hs as [[_ <-]|[_ Hs]]; [lia|by eapply Hm].
Qed.

Lemma start_ok e : new_engine pairs dex = Ok e -> publication_ok (mkPublication dex e [] []).
Proof.
  unfold new_engine. intros Hn. destruct (index_symbols 0 pairs ∅) as [symbols|] eqn:Es; [|done]. cbn [rbind] in Hn.
  destruct (place_pairs _ _ _ _) as [[owners pools]|] eqn:Ep; [|done]. cbn [rbind] in Hn. injection Hn as <-.
  apply place_pairs_ok in Ep as [(L1 & L2 & Hh & Ho) Hmem]; [|done| |intros k p i Hk; lia].
  2:{ split_and!; [by rewrite length_replicate..| |].
      - intros i h Hi. unfold prepared_at in Hi. apply bind_Some in Hi as (x & Hx & Hid).
        apply lookup_replicate in Hx as [-> _]. done.
      - intros i k Hi. by apply lookup_replicate in Hi as [? _]. }
  simpl in *. split; simpl.
  - split; simpl.
    + split; [by rewrite length_replicate|]. intros i c d Hc. apply lookup_replicate in Hc as [-> _]. apply default_coherent.
    + intros s k Hs. apply lookup_lt_is_Some. eapply (index_symbols_ok 0 pairs ∅); [done|by intros ? ? ?|exact Es|exact Hs].
  - rewrite length_fmap. done.
  - intros k p i Hk Hi. apply (Hmem k p i); [by eapply lookup_lt_Some|done|done].
  - intros i k Hi. by apply (Ho i k).
  - intros i h Hi. destruct (Hh i h Hi) as (H1 & H2 & k & p & hp & Eo & Epr & Ed & Eq).
    split; [done|]. split.
    + unfold prepared_at in Hi. rewrite list_lookup_fmap. apply bind_Some in Hi as (x & -> & Hid). simpl in Hid. subst x.
      simpl. by rewrite H2.
    + unfold source. simpl. rewrite Eo. simpl. rewrite Epr. simpl. rewrite Ed. simpl. by rewrite Eq.
  - by intros r ?%elem_of_nil.
  - by intros r ?%elem_of_nil.
  - intros i [k Hk]. left. apply bind_Some in Hk as (x & Hx & Hid). simpl in Hid. subst x. by apply (Ho i k).
Qed.
End started.

(** ** What the published curves mean *)
Section meaning.
Context `{UniswapV3Laws}.

Definition pool_ready (h : HydratedPool) : Prop := pool_typed (hp_pool h) /\ forall zfo, head_inside (hp_pool h) zfo.

Lemma quotes_of_inv p h q :
  quotes_of p h = Ok q ->
  prepare_exact_input_curve_bounded (hp_pool h) (hp_token0 h =? pr_token_a p) (pr_prepared_token_a_limit p) = Ok (token_a_exact_input q) /\
  prepare_exact_input_curve_bounded_by_exact_output (hp_pool h) (hp_token0 h =? pr_token_b p) (pr_prepared_token_a_limit p)
    = Ok (by_direction q).2 /\
  prepare_exact_output_curve_bounded (hp_pool h) (hp_token0 h =? pr_token_a p) (pq_exact_output_token_b_limit q) = Ok (by_direction q).1 /\
  pq_exact_output_token_b_limit q = result_capacity (token_a_exact_input q) /\
  pq_dynamic_fee q = bool_decide (is_Some (hp_camelot_fee h)).
Proof.
  unfold quotes_of, prepare_pool_quotes_from_pool.
  destruct (prepare_exact_input_curve_bounded _ _ _) as [c1|]; [|done]. cbn [build_step rbind].
  destruct (ensure _ _) as [[]|]; [|done]. cbn [rbind].
  destruct (prepare_exact_input_curve_bounded_by_exact_output _ _ _) as [c2|]; [|done]. cbn [build_step rbind].
  destruct (ensure _ _) as [[]|]; [|done]. cbn [rbind].
  destruct (prepare_exact_output_curve_bounded _ _ _) as [c3|] eqn:E; [|done]. cbn [build_step rbind].
  intros [= <-]. done.
Qed.

Lemma curve_argument c x r : curve_quote c x = Ok r -> x <> 0 /\ x < 2 ^ 255.
Proof. unfold curve_quote. intros Hq. res_inv. bool_prop. done. Qed.

Lemma sound_nonnegative c : curve_sound c -> nonnegative_curve c.
Proof. intros Hc x r Hx Hq. by eapply curve_nonneg. Qed.

Lemma quotes_nonnegative p h hd :
  pool_ready h -> 0 <= pr_prepared_token_a_limit p -> quotes_of p h = Ok (h_quotes hd) -> nonnegative_quotes hd.
Proof.
  intros [Ht Hin] Hl Hq. apply quotes_of_inv in Hq as (E1 & E2 & E3 & _).
  split; [|split]; apply sound_nonnegative; [by eapply prepared_sound|by eapply fused_sound|by eapply prepared_sound].
Qed.

(** Selling into the fused curve and buying through the exact-input curve both
    bound what the pool pays from below. *)
Lemma exact_input_fills p h q x r :
  pool_ready h -> quotes_of p h = Ok q -> 0 < x -> curve_quote (token_a_exact_input q) x = Ok r ->
  quote_exact_in_amount_out (hp_pool h) (hp_token0 h =? pr_token_a p) x = Ok r.
Proof.
  intros [Ht Hin] Hq Hx Hr. apply quotes_of_inv in Hq as (E1 & _).
  destruct (curve_argument _ _ _ Hr). eapply exact_input_quoted; [done|done|exact E1|lia|done].
Qed.

Lemma fused_fills p h q x r out :
  pool_ready h -> 0 <= pr_prepared_token_a_limit p -> quotes_of p h = Ok q -> 0 < x -> curve_quote (by_direction q).2 x = Ok r ->
  quote_exact_in_amount_out (hp_pool h) (hp_token0 h =? pr_token_b p) x = Ok out -> r <= out.
Proof.
  intros [Ht Hin] Hlim Hq Hx Hr Hout. apply quotes_of_inv in Hq as (E1 & E2 & _).
  destruct (curve_argument _ _ _ Hr) as [_ Hx255].
  destruct (prepare_inv _ _ _ _ _ Ht (Hin _) E1) as (Hmax & _).
  assert (Hm : 0 < pr_prepared_token_a_limit p < 2 ^ 255).
  { unfold prepare_exact_input_curve_bounded, prepare_quote_curve in E1. res_inv. bool_prop. lia. }
  destruct (fused_quotes _ _ _ _ Ht (Hin _) Hm E2) as [_ Hall].
  assert (Hcap : x <= specified_capacity (by_direction q).2).
  { apply Z.nlt_ge. intros Hgt. rewrite (curve_beyond _ x) in Hr; [done| |lia|done].
    eapply fused_sound; [exact Ht|apply Hin| |exact E2]. lia. }
  destruct (Hall x ltac:(lia) Hx255) as (r0 & Hr0 & Hle & _). rewrite Hr in Hr0. injection Hr0 as <-. by apply Hle.
Qed.

(** C11. The curves the engine quotes from are never stale.  From the start and
    along any interleaving of pool events (each withdraws the pool, raises its
    generation and queues a rebuild), of builds popped shortest first, of
    results coming back in any order and of evaluations and fee updates: every
    published handle carries the pool's current generation and is exactly what
    the builder computes from the mirror's present pool, the quote cache agrees
    with the published curves, and once no request waits and no result is in
    flight, every pool of an enabled pair is published again unless its present
    state has no tradable output, so that the engine is ready exactly when no
    pool is in that condition. *)
Theorem published_curves_current pairs dex e s :
  new_engine pairs dex = Ok e -> rtc pub_step (mkPublication dex e [] []) s ->
  engine_coherent (pb_engine s) /\
  (forall i h, prepared_at (oe_prepared_pools (pb_engine s)) i = Some h ->
     prepared_pool_generation (pb_engine s) i = Ok (Some (h_generation h)) /\ pool_generation (pb_engine s) i = Ok (h_generation h) /\
     exists k p hp, oe_pair_index_by_pool (pb_engine s) !! i = Some (Some k) /\ oe_pairs (pb_engine s) !! k = Some p /\
       pb_dex s !! i = Some hp /\ quotes_of p hp = Ok (h_quotes h)) /\
  (pb_batch s = [] -> pb_results s = [] ->
     forall i k, oe_pair_index_by_pool (pb_engine s) !! i = Some (Some k) ->
       is_Some (prepared_at (oe_prepared_pools (pb_engine s)) i) \/
       exists reason, source (pb_engine s) (pb_dex s) i = Some (Err (PoolUnavailable reason))).
Proof.
  intros Hn Hr. destruct (pub_steps_ok _ _ Hr (start_ok pairs dex e Hn)) as [Hc _ _ _ Hh _ _ Hp].
  split; [done|]. split.
  - intros i h Hi. destruct (Hh i h Hi) as (_ & Hg & Hs). unfold prepared_pool_generation, pool_generation. rewrite Hg.
    cbn [or_err rbind]. split.
    { unfold prepared_at in Hi. apply bind_Some in Hi as (x & -> & Hid). simpl in Hid. by subst x. }
    split; [done|]. unfold source in Hs.
    apply bind_Some in Hs as (k & Hk & Hs). apply bind_Some in Hs as (p & Hpk & Hs). apply bind_Some in Hs as (hp & Hd & Hs).
    apply bind_Some in Hk as (x & Hx & Hid). simpl in Hid. subst x. injection Hs as Hs. by exists k, p, hp.
  - intros Hb Hre i k Hi. destruct (Hp i) as [?|[(g & _ & [(r & Hin & _)|(r & Hin & _)])|?]]; [by rewrite Hi; eexists|by left| | |by right].
    + rewrite Hb in Hin. by apply elem_of_nil in Hin.
    + rewrite Hre in Hin. by apply elem_of_nil in Hin.
Qed.

Definition side (d : ArbitrageDirection) (pe : PairEvaluation) : DirectionEvaluation :=
  match d with BuyTokenBOnDexSellOnCex => pe_dex_buy_cex_sell pe | BuyTokenBOnCexSellOnDex => pe_cex_buy_dex_sell pe end.

(** The direction of the on-chain swap of a trade. *)
Definition swap_direction (d : ArbitrageDirection) (p : PairRuntime) (h : HydratedPool) : bool :=
  match d with BuyTokenBOnDexSellOnCex => hp_token0 h =? pr_token_a p | BuyTokenBOnCexSellOnDex => hp_token0 h =? pr_token_b p end.

Definition ready_pair (p : PairRuntime) : Prop :=
  pair_ok p /\ 0 <= pr_baseline_token_a p /\ 0 <= pr_prepared_token_a_limit p /\
  forall i, i ∈ pr_selection_pool_indices p -> i ∈ pr_pool_indices p.

Lemma minimum_below out s : 0 <= out -> 0 <= s <= BPS_DENOMINATOR -> out * (BPS_DENOMINATOR - s) / BPS_DENOMINATOR <= out.
Proof. intros Ho Hs. unfold BPS_DENOMINATOR in *. apply Z.div_le_upper_bound; nia. Qed.

(** C10. What the search selects, the pool pays.  In every state the publication
    protocol reaches, a trade reported for either direction of a quote belongs
    to a selectable pool of the pair, sends a positive amount within the
    signed 256-bit range, and its minimum output is positive and at most what
    the boundary-by-boundary swap of the mirror's present pool returns for
    that input in the trade's direction; for a purchase of token B the swap is
    known to succeed. *)
Theorem evaluated_trade_fills pairs dex e s q e' pe d t :
  new_engine pairs dex = Ok e -> rtc pub_step (mkPublication dex e [] []) s ->
  Forall pool_ready (pb_dex s) -> Forall ready_pair (oe_pairs (pb_engine s)) ->
  decimal_ok (bid_price q) -> decimal_ok (ask_price q) ->
  evaluate q (pb_engine s) = (e', Ok (Some pe)) -> de_baseline (side d pe) = Some t ->
  exists p hp, p ∈ oe_pairs (pb_engine s) /\ te_pool_index t ∈ pr_selection_pool_indices p /\
    pb_dex s !! te_pool_index t = Some hp /\
    0 < te_dex_amount_in t < 2 ^ 255 /\ 0 < te_dex_amount_out_minimum t /\
    (forall out, quote_exact_in_amount_out (hp_pool hp) (swap_direction d p hp) (te_dex_amount_in t) = Ok out ->
       te_dex_amount_out_minimum t <= out) /\
    (d = BuyTokenBOnDexSellOnCex ->
       is_ok (quote_exact_in_amount_out (hp_pool hp) (swap_direction d p hp) (te_dex_amount_in t)) = true).
Proof.
  intros Hn Hr Hpools Hpairs Hbid Hask Hev Ht.
  destruct (pub_steps_ok _ _ Hr (start_ok pairs dex e Hn)) as [Hc _ Hm _ Hh _ _ _].
  assert (Hsrc : forall i h, prepared_at (oe_prepared_pools (pb_engine s)) i = Some h ->
    exists p hp, p ∈ oe_pairs (pb_engine s) /\ pb_dex s !! i = Some hp /\ quotes_of p hp = Ok (h_quotes h)).
  { intros i h Hi. destruct (Hh i h Hi) as (_ & _ & Hs). unfold source in Hs.
    apply bind_Some in Hs as (k & _ & Hs). apply bind_Some in Hs as (p & Hpk & Hs). apply bind_Some in Hs as (hp & Hd & Hs).
    injection Hs as Hs. exists p, hp. split; [by eapply list_elem_of_lookup_2|done]. }
  assert (Hin : forall k pr, oe_pairs (pb_engine s) !! k = Some pr -> sound_inputs (oe_prepared_pools (pb_engine s)) pr q).
  { intros k pr Hk. destruct (Forall_lookup_1 _ _ _ _ Hpairs Hk) as (Hp1 & Hp2 & _). split_and!; try done.
    intros i h Hi. destruct (Hsrc i h Hi) as (p & hp & Hp & Hd & Hq).
    rewrite Forall_forall in Hpairs. destruct (Hpairs p Hp) as (_ & _ & Hlim & _).
    by eapply quotes_nonnegative; [eapply Forall_lookup_1|exact Hlim|exact Hq]. }
  destruct (evaluation_best _ _ _ _ Hc Hin Hev) as (k & pr & _ & Hpr & Hsound & Hb0 & Hall). specialize (Hall d).
  assert (Hside : match d with BuyTokenBOnDexSellOnCex => pe_dex_buy_cex_sell pe | _ => pe_cex_buy_dex_sell pe end = side d pe) by done.
  rewrite Hside in Hall. destruct Hall as [_ Hbest]. destruct (Hbest t Ht) as [Hsel Hsp].
  destruct (search_pool_exact _ _ _ _ _ _ _ _ Hsound Hb0 Hsp) as (h & Hprep & Hecon & Hbounds & _).
  destruct (Forall_lookup_1 _ _ _ _ Hpairs Hpr) as (Hok & _ & Hlim & Hsub). rename Hpr into Hk.
  pose proof (Hm k pr _ Hk (Hsub _ Hsel)) as Howner.
  destruct (Hh _ _ Hprep) as (_ & _ & Hs). unfold source in Hs. rewrite Howner in Hs. simpl in Hs. rewrite Hk in Hs. simpl in Hs.
  destruct (pb_dex s !! te_pool_index t) as [hp|] eqn:Ed; [|done]. simpl in Hs. injection Hs as Hq.
  pose proof (Forall_lookup_1 _ _ _ _ Hpools Ed) as Hready. pose proof (po_slippage _ Hok) as Hslip.
  exists pr, hp. split; [by eapply list_elem_of_lookup_2|]. split; [done|]. split; [done|].
  destruct Hbounds as (Hpos & Hminpos & Hsl & Hrest). destruct (quotes_nonnegative pr hp h Hready Hlim Hq) as (_ & N2 & N3).
  destruct d; simpl in *.
  - destruct Hrest as (_ & _ & out & Hout & Hmin). destruct (curve_argument _ _ _ Hout) as [_ Hx].
    pose proof (exact_input_fills pr hp _ _ _ Hready Hq Hpos Hout) as Hfill. rewrite Hfill.
    split; [lia|]. split; [done|]. split; [|done]. intros out' [= <-]. rewrite Hmin.
    apply minimum_below; [|lia]. eapply N3; [|exact Hout]. lia.
  - destruct Hrest as [Hb Hmin]. destruct Hecon as (Hcurve & _ & Hproc). rewrite <- Hproc, <- Hb in Hcurve.
    destruct (curve_argument _ _ _ Hcurve) as [_ Hx]. split; [lia|]. split; [done|]. split; [|done].
    intros out Hout. rewrite Hmin. pose proof (N2 (te_dex_amount_in t) (te_proceeds t) ltac:(lia) Hcurve) as Hnn.
    pose proof (fused_fills pr hp _ _ _ _ Hready Hlim Hq Hpos Hcurve Hout).
    pose proof (minimum_below (te_proceeds t) (te_execution_slippage_bps t) Hnn ltac:(lia)). lia.
Qed.
End meaning.
