(* ===== verification/SearchDemo.v ===== *)
(** * Concrete runs of the opportunity search

    One pair over one pool: the pool moves, is withdrawn, rebuilt and published,
    and a quote is evaluated. *)
From Stdlib Require Import Lia.
From stdpp Require Import base gmap strings numbers list option.
From S2P Require Import Prelude Clmm ClmmTicks ClmmCurve ClmmPools UniswapFormula Decimals TradeData RuntimeState Preflight Pricing OpportunitySearch FeeProjection HydratedPools PreparedPools.

Definition search_pair_runtime : PairRuntime :=
  mkPair "usdc-weth" 480 "WETHUSDC" "USDC" "WETH" 0 38 5 1 50 5000 10 10 1000000 2000000 (10 ^ 36) 100 200 [0%nat] [0%nat] [].

Definition search_hydrated (p : ClmmPool) : HydratedPool :=
  mkHydrated "usdc-weth" (IdV3 7 500) 100 200 p None None.

Definition search_quote : TopOfBook :=
  mkTop "WETHUSDC" 9 (mkDecimal 120 2) (mkDecimal 10 0) (mkDecimal 121 2) (mkDecimal 10 0) 0 1.

Definition empty_engine : OpportunityEngine := mkEngine [] ∅ [] [] [] [].
Definition search_engine : OpportunityEngine :=
  match new_engine [search_pair_runtime] [search_hydrated (demo_pool (10 ^ 29) (10 ^ 29) (10 ^ 28))] with Ok e => e | Err _ => empty_engine end.

(** The pool moves to [deep_pool]. *)
Definition moved_dex : list HydratedPool := [search_hydrated deep_pool].
Definition requested : OpportunityEngine * CRes PreparedPoolBuildRequest := request_pool_refresh 0 moved_dex search_engine.
Definition moved_request : PreparedPoolBuildRequest :=
  match requested.2 with Ok r => r | Err _ => mkRequest 9 0 deep_pool true true 0 false 0 None end.
Definition moved_result : PreparedPoolBuildResult :=
  match build moved_request with Ok r => r | Err _ => mkBuildResult 9 0 (OutcomeUnavailable DexBuyHasNoTokenBOutput) end.
Definition published : OpportunityEngine := (finish_pool_refresh moved_result requested.1).1.
Definition evaluated : OpportunityEngine * CRes (option PairEvaluation) := evaluate search_quote published.

Definition start_dex : list HydratedPool := [search_hydrated (demo_pool (10 ^ 29) (10 ^ 29) (10 ^ 28))].

Lemma search_started : new_engine [search_pair_runtime] start_dex = Ok search_engine.
Proof. unfold search_engine, start_dex. destruct (new_engine _ _) eqn:E; [done|]. vm_compute in E. discriminate E. Qed.


Lemma moved_requested : request_pool_refresh 0 moved_dex search_engine = (requested.1, Ok moved_request).
Proof.
  apply pair_result. change (requested.2 = Ok moved_request). unfold moved_request.
  destruct requested.2 eqn:E; [done|]. vm_compute in E. discriminate E.
Qed.

Lemma moved_built : build moved_request = Ok moved_result.
Proof. unfold moved_result. destruct (build moved_request) eqn:E; [done|]. vm_compute in E. discriminate E. Qed.

Lemma moved_finished : exists o, finish_pool_refresh moved_result requested.1 = (published, Ok o).
Proof.
  unfold published. destruct (finish_pool_refresh moved_result requested.1) as [e' [o|er]] eqn:E; [by exists o|].
  exfalso. assert (Hok : is_ok (finish_pool_refresh moved_result requested.1).2 = true) by (vm_compute; reflexivity).
  rewrite E in Hok. discriminate Hok.
Qed.

(** Event, build, publication. *)
Lemma search_reached :
  rtc pub_step (mkPublication start_dex search_engine [] []) (mkPublication moved_dex published [] []).
Proof.
  apply (rtc_l _ _ (mkPublication moved_dex requested.1 (queue [] moved_request) [])).
  { apply (pub_event start_dex search_engine [] [] 0 (search_hydrated deep_pool) requested.1 moved_request 1);
      [simpl; lia|vm_compute; reflexivity|done|exact moved_requested]. }
  apply (rtc_l _ _ (mkPublication moved_dex requested.1 [] ([] ++ [moved_result]))).
  { apply (pub_build moved_dex requested.1 [moved_request] [] [] moved_request moved_result); [reflexivity|exact moved_built]. }
  destruct moved_finished as [o Ho].
  apply (rtc_l _ _ (mkPublication moved_dex published [] (delete 0%nat [moved_result]))); [|apply rtc_refl].
  by apply (pub_finish moved_dex requested.1 [] [moved_result] 0 moved_result published o).
Qed.

Lemma search_pools_ready : Forall pool_ready moved_dex.
Proof. apply Forall_singleton. split; [exact deep_typed|exact deep_inside]. Qed.

Lemma search_ready_pair : ready_pair search_pair_runtime.
Proof. split_and!; [split; simpl; done || lia|done|done|]. intros i Hi. exact Hi. Qed.

Lemma published_pairs : oe_pairs published = [search_pair_runtime].
Proof. vm_compute. reflexivity. Qed.

Lemma search_evaluated : exists pe, evaluate search_quote published = (evaluated.1, Ok (Some pe)) /\
  de_baseline (side BuyTokenBOnDexSellOnCex pe) <> None.
Proof.
  assert (Hok : match evaluated.2 with Ok (Some pe) => match de_baseline (pe_dex_buy_cex_sell pe) with Some _ => true | None => false end | _ => false end = true)
    by (vm_compute; reflexivity).
  destruct evaluated.2 as [[pe|]|] eqn:E; [|done|done]. exists pe. split; [by apply pair_result|]. simpl.
  destruct (de_baseline (pe_dex_buy_cex_sell pe)); done.
Qed.

Lemma published_curves_current_witness :
  exists h, prepared_at (oe_prepared_pools published) 0 = Some h /\ pool_generation published 0 = Ok (h_generation h).
Proof.
  destruct (published_curves_current _ _ _ _ search_started search_reached) as (_ & Hh & Hq).
  assert (Hsome : match prepared_at (oe_prepared_pools published) 0 with Some _ => true | None => false end = true)
    by (vm_compute; reflexivity).
  destruct (prepared_at (oe_prepared_pools published) 0) as [h|] eqn:E; [|discriminate Hsome].
  exists h. split; [reflexivity|]. exact (proj1 (proj2 (Hh _ h E))).
Defined.

Lemma evaluated_trade_fills_witness :
  exists t hp, moved_dex !! te_pool_index t = Some hp /\ 0 < te_dex_amount_out_minimum t /\
    exists out, quote_exact_in_amount_out (hp_pool hp) true (te_dex_amount_in t) = Ok out /\ te_dex_amount_out_minimum t <= out.
Proof.
  destruct search_evaluated as (pe & Hev & Ht).
  destruct (de_baseline (side BuyTokenBOnDexSellOnCex pe)) as [t|] eqn:Et; [|destruct (Ht eq_refl)].
  assert (Hpairs : Forall ready_pair (oe_pairs published)) by (rewrite published_pairs; apply Forall_singleton, search_ready_pair).
  assert (Hbid : decimal_ok (bid_price search_quote)) by (split; simpl; lia).
  assert (Hask : decimal_ok (ask_price search_quote)) by (split; simpl; lia).
  destruct (evaluated_trade_fills _ _ _ _ _ _ _ BuyTokenBOnDexSellOnCex t search_started search_reached search_pools_ready
    Hpairs Hbid Hask Hev Et) as (p & hp & Hp & _ & Hd & _ & Hmin & Hout & Hok).
  exists t, hp. split; [exact Hd|]. split; [exact Hmin|]. specialize (Hok eq_refl).
  simpl pb_engine in Hp. rewrite published_pairs in Hp. apply list_elem_of_singleton in Hp as ->.
  assert (Hsd : swap_direction BuyTokenBOnDexSellOnCex search_pair_runtime hp = true).
  { simpl in Hd. destruct (te_pool_index t) as [|[|]]; [|discriminate Hd|discriminate Hd]. injection Hd as <-. reflexivity. }
  rewrite Hsd in Hok, Hout. destruct (quote_exact_in_amount_out _ _ _) as [out|] eqn:E; [|discriminate Hok].
  exists out. split; [reflexivity|]. by apply Hout.
Defined.

Lemma published_sound : publication_ok (mkPublication moved_dex published [] []).
Proof. exact (pub_steps_ok _ _ search_reached (start_ok _ _ _ search_started)). Qed.

Lemma published_inputs k pr :
  oe_pairs published !! k = Some pr -> sound_inputs (oe_prepared_pools published) pr search_quote.
Proof.
  intros Hk. rewrite published_pairs in Hk. destruct k as [|]; [|done]. injection Hk as <-.
  destruct search_ready_pair as (Hp & Hb & Hl & _).
  split; [exact Hp|]. split; [split; simpl; lia|]. split; [split; simpl; lia|]. split; [exact Hb|].
  intros i h Hi. destruct (pk_handles _ published_sound i h Hi) as (_ & _ & Hs). simpl in Hs. unfold source in Hs.
  apply bind_Some in Hs as (j & Hj & Hs). apply bind_Some in Hs as (p & Hpk & Hs). apply bind_Some in Hs as (hp & Hd & Hs).
  injection Hs as Hs. rewrite published_pairs in Hpk. destruct j as [|]; [|done]. injection Hpk as <-.
  eapply quotes_nonnegative; [eapply Forall_lookup_1; [exact search_pools_ready|exact Hd]|exact Hl|exact Hs].
Qed.

Lemma evaluate_selects_best_witness :
  engine_coherent evaluated.1 /\
  exists pe t, de_baseline (pe_dex_buy_cex_sell pe) = Some t /\
    best_baseline search_pair_runtime (oe_prepared_pools published) search_quote BuyTokenBOnDexSellOnCex
      (pe_baseline_token_b pe) true (Some t) /\
    exact_trade search_pair_runtime (oe_prepared_pools published) search_quote BuyTokenBOnDexSellOnCex t.
Proof.
  destruct search_evaluated as (pe & Hev & Ht).
  destruct (evaluate_selects_best published search_quote evaluated.1 pe (pk_coherent _ published_sound) published_inputs Hev)
    as (Hc & k & pr & _ & Hpr & Hall).
  split; [exact Hc|]. rewrite published_pairs in Hpr. destruct k as [|]; [|discriminate Hpr]. injection Hpr as <-.
  destruct (Hall BuyTokenBOnDexSellOnCex) as [Hbest [Hex _]]. exists pe.
  destruct (de_baseline (side BuyTokenBOnDexSellOnCex pe)) as [t|] eqn:Et; [|destruct (Ht eq_refl)].
  exists t. split; [exact Et|]. simpl in Et, Hbest, Hex. rewrite Et in Hbest. split; [exact Hbest|]. by apply Hex.
Defined.

Lemma fast_paths_agree_witness :
  token_b_to_token_a (10 ^ 38) (mkDecimal 120 2) 0 38 true =
    (let? m := positive_decimal_mantissa (mkDecimal 120 2) in wide_token_a (10 ^ 38) m (price_exponent (mkDecimal 120 2) 0 38) true).
Proof.
  assert (Hd : decimal_ok (mkDecimal 120 2)) by (split; simpl; lia).
  exact (proj1 (proj2 (proj2 (fast_paths_agree (mkDecimal 120 2) (mkDecimal 120 2) 18 0 38 0 (10 ^ 38) 0 0 0 0 true
    Hd Hd ltac:(lia) ltac:(lia) ltac:(lia) ltac:(lia) ltac:(lia))))).
Defined.
