(* ===== verification/PlanBuild.v ===== *)
(** * From an evaluated trade to its swap ([src/src/execution_plan.rs], [src/src/engine.rs])

    [DexSwapPlan::build] turns the trade the opportunity search selected, the
    pool it was quoted on and the pair's configuration into the plan the trade
    intent carries; the engine chooses the generations and the deadline it is
    built with. *)
From Stdlib Require Import Lia.
From stdpp Require Import base strings numbers list option.
From S2P Require Import Prelude ExecutionPlan Clmm TradeData Decimals RuntimeState Preflight Pricing OpportunitySearch FeeProjection HydratedPools PreparedPools.

(** The text an address or a hash is printed as is read back as itself. *)
Class EvmPrint := { address_to_string : Z -> string; b256_to_string : Z -> string }.
Class EvmPrintLaws `{EvmText} `{EvmPrint} : Prop := {
  address_printed a : uint 160 a -> address_from_str (address_to_string a) = Some a;
  b256_printed h : uint 256 h -> b256_from_str (b256_to_string h) = Some h;
  address_read s a : address_from_str s = Some a -> uint 160 a;
}.

(** ** The pair's configuration, as far as plans and log filters read it *)
Inductive DexProvider := PZeroX | PUniswapV3 | PUniswapV4 | PPancakeSwapV3 | PCamelotV3 | PLynexAlgebraV1_9.
#[global] Instance DexProvider_eq_dec : EqDecision DexProvider.
Proof. solve_decision. Defined.

Record UniswapV4PoolConfig := mkV4Config { vc_fee_tier : Z; vc_tick_spacing : Z; vc_hooks : string }.

Record PairConfig := mkPairConfig {
  pc_id : string;
  pc_market_data_enabled : bool;
  pc_chain_id : Z;
  pc_token_a_contract : string;
  pc_token_b_contract : string;
  pc_allowed_providers : list DexProvider;
  pc_uniswap_v3_router_address : option string;
  pc_pancakeswap_v3_router_address : option string;
  pc_camelot_v3_router_address : option string;
  pc_lynex_algebra_v1_9_router_address : option string;
  pc_uniswap_v4_router_address : option string;
  pc_uniswap_v4_pool_manager_address : option string;
  pc_uniswap_v4_pools : option (list UniswapV4PoolConfig);
}.

Inductive DexProtocol := ProtoUniswapV3 | ProtoPancakeSwapV3 | ProtoCamelotV3 | ProtoLynexAlgebraV1_9 | ProtoUniswapV4.

Record AllowanceRequirement := mkAllowance {
  al_operation_id : string;
  al_protocol : DexProtocol;
  al_token : Z;
  al_router : Z;
  al_required : Z;
}.

Definition DEX_PLAN_TTL_SECONDS : Z := 30.

(** [price_unchanged_us] is how long the quote has been unchanged. *)
Definition admission_deadline_unix_seconds (price_received_unix_us price_unchanged_us : Z) : TRes Z :=
  or_err (us ← checked_add 64 price_received_unix_us price_unchanged_us;
          checked_add 64 (us / 1000000) DEX_PLAN_TTL_SECONDS) "DEX plan deadline overflow".

(** The deadline the engine gives the plan of a pool. *)
Definition plan_deadline (pool : HydratedPool) (received_us unchanged_us : Z) : TRes Z :=
  match hp_camelot_fee pool with
  | Some fee => Ok (last_timestamp (cf_envelope fee))
  | None => admission_deadline_unix_seconds received_us unchanged_us
  end.

Section build.
Context `{EvmText} `{EvmPrint}.

Definition required_address (name : string) (value : option string) : TRes Z :=
  let? s := or_err value (String.append "missing " name) in parse_address s.

Definition linea_lynex_allowance_requirements (pair : PairConfig) : TRes (AllowanceRequirement * AllowanceRequirement) :=
  ensure! bool_decide (pc_id pair = "linea-usdt-usdc"%string) else "unexpected Lynex allowance pair" ;;
  ensure! pc_chain_id pair =? 59144 else "Lynex allowance pair is not on Linea" ;;
  ensure! bool_decide (PLynexAlgebraV1_9 ∈ pc_allowed_providers pair) else "Lynex allowance provider is not enabled" ;;
  let? router := required_address "lynex_algebra_v1_9_router_address" (pc_lynex_algebra_v1_9_router_address pair) in
  let? token_a := parse_address (pc_token_a_contract pair) in
  let? token_b := parse_address (pc_token_b_contract pair) in
  ensure! negb (token_a =? token_b) else "Linea Lynex allowance tokens are identical" ;;
  Ok (mkAllowance "rustarb-linea-usdt-usdc-USDT-max-allowance" ProtoLynexAlgebraV1_9 token_a router U256_MAX,
      mkAllowance "rustarb-linea-usdt-usdc-USDC-max-allowance" ProtoLynexAlgebraV1_9 token_b router U256_MAX).

(** The configured keys of a V4 pool, in order; unusable entries are skipped. *)
Definition configured_key (pool : HydratedPool) (c : UniswapV4PoolConfig) : option V4PoolKey :=
  hooks ← address_from_str (vc_hooks c);
  match new_v4_key (hp_token0 pool) (hp_token1 pool) (vc_fee_tier c) (vc_tick_spacing c) hooks with
  | Ok key => Some key
  | Err _ => None
  end.

Definition configured_v4_key (pair : PairConfig) (pool : HydratedPool) (id : Z) : TRes V4PoolKey :=
  let? pools := or_err (pc_uniswap_v4_pools pair) "missing Uniswap V4 config" in
  or_err (List.find (fun key => pool_id key =? id) (omap (configured_key pool) pools))
    "hydrated V4 pool is absent from versioned domain config".

Definition deadline_in (envelope : FeeEnvelope) (deadline : Z) : bool :=
  (first_timestamp envelope <=? deadline) && (deadline <=? last_timestamp envelope).

Definition build_route (pair : PairConfig) (pool : HydratedPool) (pool_generation fee_generation deadline : Z)
  : TRes DexRoutePlan :=
  match hp_identity pool with
  | IdV3 address fee_pips =>
      let? router := required_address "uniswap_v3_router_address" (pc_uniswap_v3_router_address pair) in
      Ok (UniswapV3 (address_to_string router) (address_to_string address) fee_pips)
  | IdPancakeV3 address fee_pips =>
      let? router := required_address "pancakeswap_v3_router_address" (pc_pancakeswap_v3_router_address pair) in
      Ok (PancakeSwapV3 (address_to_string router) (address_to_string address) fee_pips)
  | IdCamelotV3 address =>
      ensure! 0 <? pool_generation else "Camelot pool generation is zero" ;;
      ensure! 0 <? fee_generation else "Camelot fee generation is zero" ;;
      let? fee := or_err (hp_camelot_fee pool) "Camelot fee state is unavailable for execution planning" in
      ensure! deadline_in (cf_envelope fee) deadline else "Camelot deadline is outside the prepared fee horizon" ;;
      let? router := required_address "camelot_v3_router_address" (pc_camelot_v3_router_address pair) in
      Ok (CamelotV3 (address_to_string router) (address_to_string address) pool_generation fee_generation
            (zero_for_one (current_fees (cf_state fee))) (one_for_zero (current_fees (cf_state fee)))
            (zero_for_one (env_maximum (cf_envelope fee))) (one_for_zero (env_maximum (cf_envelope fee)))
            (first_timestamp (cf_envelope fee)) (last_timestamp (cf_envelope fee)))
  | IdLynexAlgebraV1_9 address =>
      ensure! 0 <? pool_generation else "Lynex pool generation is zero" ;;
      ensure! 0 <? fee_generation else "Lynex fee generation is zero" ;;
      let? fee := or_err (hp_lynex_fee pool) "Lynex fee state is unavailable for execution planning" in
      ensure! (zero_for_one (current_fees (lf_state fee)) =? one_for_zero (current_fees (lf_state fee)))
              && (zero_for_one (env_maximum (lf_envelope fee)) =? one_for_zero (env_maximum (lf_envelope fee)))
        else "Lynex execution fee state became directional" ;;
      ensure! deadline_in (lf_envelope fee) deadline else "Lynex deadline is outside the prepared fee horizon" ;;
      let? router := required_address "lynex_algebra_v1_9_router_address" (pc_lynex_algebra_v1_9_router_address pair) in
      Ok (LynexAlgebraV1_9 (address_to_string router) (address_to_string address) pool_generation fee_generation
            (zero_for_one (current_fees (lf_state fee))) (zero_for_one (env_maximum (lf_envelope fee)))
            (first_timestamp (lf_envelope fee)) (last_timestamp (lf_envelope fee)))
  | IdV4 id fee_pips =>
      let? key := configured_v4_key pair pool id in
      ensure! key_fee_pips key =? fee_pips else "V4 plan fee differs from pool identity" ;;
      let? router := required_address "uniswap_v4_router_address" (pc_uniswap_v4_router_address pair) in
      Ok (UniswapV4 (address_to_string router) (b256_to_string id) (address_to_string (currency0 key))
            (address_to_string (currency1 key)) (key_fee_pips key) (key_tick_spacing key) (address_to_string (key_hooks key)))
  end.

Definition to_u128 (x : Z) (e : string) : TRes Z := ensure! x <? 2 ^ 128 else e ;; Ok x.

Definition build_plan (pair : PairConfig) (pool : HydratedPool) (direction : ArbitrageDirection) (trade : TradeEvaluation)
    (pool_generation fee_generation deadline_unix_seconds : Z) : TRes DexSwapPlan :=
  ensure! bool_decide (hp_pair_id pool = pc_id pair) else "selected DEX pool belongs to another pair" ;;
  ensure! 0 <? deadline_unix_seconds else "DEX plan deadline is zero" ;;
  let? token_a := parse_address (pc_token_a_contract pair) in
  let? token_b := parse_address (pc_token_b_contract pair) in
  ensure! ((hp_token0 pool =? token_a) && (hp_token1 pool =? token_b))
          || ((hp_token0 pool =? token_b) && (hp_token1 pool =? token_a))
    else "selected DEX pool tokens differ from the pair" ;;
  let '(token_in, token_out) := match direction with
                                | BuyTokenBOnDexSellOnCex => (token_a, token_b)
                                | BuyTokenBOnCexSellOnDex => (token_b, token_a)
                                end in
  let? route := build_route pair pool pool_generation fee_generation deadline_unix_seconds in
  let? amount_in := to_u128 (te_dex_amount_in trade) "DEX plan input exceeds u128" in
  let? amount_out_minimum := to_u128 (te_dex_amount_out_minimum trade) "DEX plan minimum output exceeds u128" in
  let plan := mkDexPlan route (address_to_string token_in) (address_to_string token_out) amount_in amount_out_minimum
                deadline_unix_seconds in
  let? _ := validate_plan plan in
  Ok plan.
End build.

(** ** What a built plan promises

    The swap names the pool the trade was evaluated on. *)
Definition identity_ok (i : PoolIdentity) : Prop :=
  match i with
  | IdV3 a fee | IdPancakeV3 a fee => uint 160 a /\ fee < 2 ^ 24
  | IdCamelotV3 a | IdLynexAlgebraV1_9 a => uint 160 a
  | IdV4 id _ => uint 256 id
  end.

Definition names_pool `{EvmText} (i : PoolIdentity) (r : SwapRoute) : Prop :=
  match i, r with
  | IdV3 a fee, SUniswapV3 _ pool f | IdPancakeV3 a fee, SPancakeSwapV3 _ pool f => pool = a /\ f = fee
  | IdCamelotV3 a, SCamelotV3 _ pool | IdLynexAlgebraV1_9 a, SLynexAlgebraV1_9 _ pool => pool = a
  | IdV4 id fee, SV4 _ key => pool_id key = id /\ key_fee_pips key = fee
  | _, _ => False
  end.

Definition direction_tokens (d : ArbitrageDirection) (a b : Z) : Z * Z :=
  match d with BuyTokenBOnDexSellOnCex => (a, b) | BuyTokenBOnCexSellOnDex => (b, a) end.

Definition operation_id_ok (s : string) : bool :=
  negb (str_is_empty s) && (str_len s <=? 120) && bytes_all swap_operation_byte s.

(** The fee horizon an adaptive pool's swap must land in. *)
Definition pool_horizon (pool : HydratedPool) : option FeeEnvelope :=
  match hp_identity pool with
  | IdCamelotV3 _ => cf_envelope <$> hp_camelot_fee pool
  | IdLynexAlgebraV1_9 _ => lf_envelope <$> hp_lynex_fee pool
  | _ => None
  end.

Section promises.
Context `{EvmPrintLaws}.

Record swap_of (pair : PairConfig) (pool : HydratedPool) (d : ArbitrageDirection) (t : TradeEvaluation) (deadline : Z)
    (id : string) (q : ExactInputSwapRequest) : Prop := {
  so_id : rq_operation_id q = id;
  so_pool : names_pool (hp_identity pool) (rq_route q);
  so_tokens : exists a b, parse_address (pc_token_a_contract pair) = Ok a /\ parse_address (pc_token_b_contract pair) = Ok b /\
    (rq_token_in q, rq_token_out q) = direction_tokens d a b /\
    ((hp_token0 pool = a /\ hp_token1 pool = b) \/ (hp_token0 pool = b /\ hp_token1 pool = a));
  so_amounts : rq_amount_in q = te_dex_amount_in t /\ rq_amount_out_minimum q = te_dex_amount_out_minimum t;
  so_deadline : rq_deadline_unix_seconds q = deadline;
  so_once : rq_submission_policy q = Immediate /\ rq_reconciliation_only q = false;
}.

Lemma parse_address_Ok s a : parse_address s = Ok a -> address_from_str s = Some a /\ uint 160 a /\ a <> 0.
Proof.
  unfold parse_address. intros Hp. res_inv. bool_prop.
  destruct (address_from_str s) eqn:E; simpl in *; simplify_eq. split; [done|]. split; [by apply (address_read s)|done].
Qed.

Lemma parse_printed a : uint 160 a -> a <> 0 -> parse_address (address_to_string a) = Ok a.
Proof.
  intros Ha Hn. unfold parse_address. rewrite address_printed by done. cbn [or_err rbind].
  by rewrite (proj2 (Z.eqb_neq a 0) Hn).
Qed.

Lemma printed_nonzero a b : uint 160 a -> parse_address (address_to_string a) = Ok b -> b = a /\ a <> 0.
Proof.
  intros Ha Hp. apply parse_address_Ok in Hp as (He & _ & Hn). rewrite address_printed in He by done. by simplify_eq.
Qed.

Lemma reparsed {B} a (k : Z -> TRes B) v :
  uint 160 a -> (let? x := parse_address (address_to_string a) in k x) = Ok v ->
  parse_address (address_to_string a) = Ok a /\ a <> 0 /\ k a = Ok v.
Proof.
  intros Ha Hk. destruct (parse_address (address_to_string a)) as [x|] eqn:E; [|done].
  pose proof (printed_nonzero a x Ha E) as [-> Hn]. done.
Qed.

Lemma new_v4_key_inv a b fee spacing hooks k :
  new_v4_key a b fee spacing hooks = Ok k ->
  currency0 k < currency1 k /\ key_hooks k = hooks /\ key_fee_pips k = fee /\ key_tick_spacing k = spacing /\
  ((currency0 k = a /\ currency1 k = b) \/ (currency0 k = b /\ currency1 k = a)) /\
  new_v4_key (currency0 k) (currency1 k) fee spacing hooks = Ok k.
Proof.
  unfold new_v4_key. intros Hk. res_inv. bool_prop. rename Hok0 into Hf, Hok1 into Hs.
  assert (Hsort : forall c0 c1, c0 < c1 -> (c0 =? c1) = false /\ (c0 <? c1) = true) by (intros; split; lia).
  destruct (a <? b) eqn:E; simplify_eq; cbn [currency0 currency1 key_hooks key_fee_pips key_tick_spacing]; bool_prop;
    assert ((fee <? 1000000) = true) as Ef by lia; assert ((0 <? spacing) = true) as Es by lia.
  - destruct (Hsort a b E) as [-> ->]. rewrite Ef, Es. split_and!; try done. by left.
  - assert (b < a) as Hlt by lia. destruct (Hsort b a Hlt) as [-> ->]. rewrite Ef, Es. split_and!; try done. by right.
Qed.

Lemma configured_key_inv pair pool id k :
  configured_v4_key pair pool id = Ok k ->
  pool_id k = id /\ exists fee spacing hooks, uint 160 hooks /\ new_v4_key (hp_token0 pool) (hp_token1 pool) fee spacing hooks = Ok k.
Proof.
  unfold configured_v4_key. intros Hk. res_inv. destruct (List.find _ _) eqn:E; simpl in *; simplify_eq.
  apply List.find_some in E as [Hin Heq]. apply Z.eqb_eq in Heq. split; [done|].
  apply list_elem_of_In, list_elem_of_omap in Hin as (c & _ & Hc). unfold configured_key in Hc.
  destruct (address_from_str (vc_hooks c)) as [hooks|] eqn:Eh; simpl in Hc; [|done].
  case_match; simplify_eq. do 3 eexists. split; [by apply (address_read (vc_hooks c))|done].
Qed.

(** What [validate_request] asks of a route. *)
Definition route_checked (r : SwapRoute) (tin tout : Z) : Prop :=
  swap_router r <> 0 /\
  match r with
  | SUniswapV3 _ pool fee | SPancakeSwapV3 _ pool fee => pool <> 0 /\ 0 < fee <= 16777215
  | SCamelotV3 _ pool | SLynexAlgebraV1_9 _ pool => pool <> 0
  | SV4 _ key => currency0 key < currency1 key /\
      ((tin = currency0 key /\ tout = currency1 key) \/ (tin = currency1 key /\ tout = currency0 key))
  end.

Lemma request_accepted id r tin tout i o d :
  operation_id_ok id = true -> route_checked r tin tout -> tin <> 0 -> tout <> 0 -> tin <> tout -> i <> 0 -> o <> 0 ->
  validate_request (mkSwapRequest id r tin tout i o None 0 d 5000 Immediate false) = Ok tt.
Proof.
  intros Hid [Hr Hc] Hti Hto Hne Hi0 Ho0. unfold validate_request. cbn -[Z.eqb Z.leb Z.ltb].
  unfold operation_id_ok in Hid. rewrite Hid. cbn [rbind ensure].
  rewrite !(proj2 (Z.eqb_neq _ _)) by done. cbn -[Z.eqb Z.leb Z.ltb].
  destruct r as [a pool fee|a pool fee|a pool|a pool|a key]; cbn -[Z.eqb Z.leb Z.ltb].
  1,2: destruct Hc as [Hp Hf]; rewrite (proj2 (Z.eqb_neq pool 0) Hp), (proj2 (Z.ltb_lt 0 fee)), (proj2 (Z.leb_le fee 16777215)) by lia; done.
  1,2: by rewrite (proj2 (Z.eqb_neq pool 0) Hc).
  destruct Hc as [Hlt Hc]. rewrite (proj2 (Z.ltb_lt _ _) Hlt). destruct Hc as [[-> ->]|[-> ->]]; rewrite !Z.eqb_refl; cbn -[Z.eqb]; rewrite ?orb_true_r; done.
Qed.

Lemma required_router name s a : required_address name s = Ok a -> uint 160 a /\ a <> 0.
Proof. unfold required_address. intros Hr. res_inv. by apply parse_address_Ok in Hr as (_ & ? & ?). Qed.

(** The route of a plan, once it validates, is the pool's. *)
Lemma route_swaps pair pool pg fg d r tin tout :
  build_route pair pool pg fg d = Ok r -> identity_ok (hp_identity pool) ->
  uint 160 (hp_token0 pool) -> uint 160 (hp_token1 pool) -> validate_route r d tin tout = Ok tt ->
  exists sr, plan_swap_route r = Ok sr /\ names_pool (hp_identity pool) sr /\ route_checked sr tin tout.
Proof.
  intros Hb Hi Hu0 Hu1 Hv. unfold build_route in Hb.
  destruct (hp_identity pool) as [a fee|a fee|a|a|id fee]; simpl in Hi; res_inv;
    match goal with E : required_address _ _ = Ok ?x |- _ => apply required_router in E as [Hra Hrn]; rename x into ra end;
    simpl in Hv; apply reparsed in Hv as (Er & _ & Hv); try done; simpl plan_swap_route; rewrite Er; cbn [rbind].
  1,2: destruct Hi as [Ha Hf].
  1-4: apply reparsed in Hv as (Ea & Hn & Hv); [|done]; rewrite Ea; cbn [rbind]; eexists; split; [done|].
  1,2: res_inv; bool_prop; split; [done|]; split; [done|]; simpl; lia.
  1,2: done.
  apply configured_key_inv in Hok as (Hid & f & sp & hooks & Hh & Hk).
  apply new_v4_key_inv in Hk as (Hlt & Hkh & Hkf & Hks & Hcs & Hagain).
  assert (uint 160 (currency0 x) /\ uint 160 (currency1 x)) as [Hc0 Hc1] by (destruct Hcs as [[-> ->]|[-> ->]]; done).
  rewrite b256_printed in Hv by done. cbn [or_err rbind] in Hv.
  apply reparsed in Hv as (E0 & _ & Hv); [|done]. apply reparsed in Hv as (E1 & _ & Hv); [|done].
  rewrite E0, E1. cbn [rbind]. unfold parse_hooks_address in *. rewrite Hkh, address_printed in * by done. cbn [or_err rbind] in *.
  rewrite Hkf, Hks, Hagain in *. cbn [rbind] in *. eexists. split; [done|]. res_inv. bool_prop. subst f. split; [by split|]. split; [done|].
  split; [done|]. destruct Hok1 as [Hd|Hd]; apply andb_true_iff in Hd as [E2 E3]; apply Z.eqb_eq in E2, E3; [by left|by right].
Qed.

(** What [build_plan] checked, and the plan it returned. *)
Lemma build_plan_inv pair pool d t pg fg deadline p :
  build_plan pair pool d t pg fg deadline = Ok p ->
  exists a b r, parse_address (pc_token_a_contract pair) = Ok a /\ parse_address (pc_token_b_contract pair) = Ok b /\
    ((hp_token0 pool = a /\ hp_token1 pool = b) \/ (hp_token0 pool = b /\ hp_token1 pool = a)) /\
    build_route pair pool pg fg deadline = Ok r /\ te_dex_amount_in t < 2 ^ 128 /\ te_dex_amount_out_minimum t < 2 ^ 128 /\
    p = mkDexPlan r (address_to_string (direction_tokens d a b).1) (address_to_string (direction_tokens d a b).2)
          (te_dex_amount_in t) (te_dex_amount_out_minimum t) deadline /\
    validate_plan p = Ok tt.
Proof.
  intros Hb. unfold build_plan in Hb. apply rbind_Ok in Hb as (? & _ & Hb). apply rbind_Ok in Hb as (? & _ & Hb).
  apply rbind_Ok in Hb as (a & Ha & Hb). apply rbind_Ok in Hb as (b & Hb' & Hb). apply rbind_Ok in Hb as (? & Ht & Hb).
  replace (match d with BuyTokenBOnDexSellOnCex => (a, b) | BuyTokenBOnCexSellOnDex => (b, a) end)
    with (direction_tokens d a b) in Hb by done.
  destruct (direction_tokens d a b) as [tin tout] eqn:Ed. apply rbind_Ok in Hb as (r & Hr & Hb). unfold to_u128 in Hb.
  res_inv. bool_prop. exists a, b, r. rewrite Ed. destruct x4.
  assert (forall u v, (hp_token0 pool =? u) && (hp_token1 pool =? v) = true -> hp_token0 pool = u /\ hp_token1 pool = v) as Heq
    by (intros u v Huv; apply andb_true_iff in Huv as [E1 E2]; by apply Z.eqb_eq in E1, E2).
  split_and!; try done. destruct Ht as [Ht|Ht]; apply Heq in Ht; auto.
Qed.

Lemma validated_route p tin tout :
  validate_plan p = Ok tt -> parse_address (token_in p) = Ok tin -> parse_address (token_out p) = Ok tout ->
  0 < amount_in_base_units p /\ 0 < amount_out_minimum_base_units p /\ tin <> tout /\
  validate_route (route p) (deadline_unix_seconds p) tin tout = Ok tt.
Proof.
  intros Hv Hi Ho. unfold validate_plan in Hv. rewrite Hi, Ho in Hv. cbn [rbind] in Hv.
  apply rbind_Ok in Hv as (? & E1 & Hv). apply rbind_Ok in Hv as (? & E2 & Hv). apply rbind_Ok in Hv as (? & _ & Hv).
  apply rbind_Ok in Hv as (? & E3 & Hv). apply ensure_Ok in E1, E2, E3. bool_prop. done.
Qed.

Lemma route_deadline pair pool pg fg d r env :
  build_route pair pool pg fg d = Ok r -> pool_horizon pool = Some env -> first_timestamp env <= d <= last_timestamp env.
Proof.
  unfold build_route, pool_horizon. destruct (hp_identity pool); try done; intros Hr He; res_inv;
    match goal with E : _ = Some ?f |- _ => rewrite E in He; simpl in He; injection He as <- end;
    unfold deadline_in in *; bool_prop; lia.
Qed.

(** C14. A plan that was built executes: with a well-formed operation identifier
    it becomes a swap request that validates, on the pool the trade was
    evaluated on, from the direction's input token to its output token, for
    exactly the trade's input and minimum output, submitted once and at once,
    with a deadline inside the fee horizon of an adaptive pool. *)
Theorem built_plan_executes pair pool d t pg fg deadline p id :
  build_plan pair pool d t pg fg deadline = Ok p -> identity_ok (hp_identity pool) -> operation_id_ok id = true ->
  exists q, execution_request p id = Ok q /\ swap_of pair pool d t deadline id q /\
    (forall env, pool_horizon pool = Some env -> first_timestamp env <= deadline <= last_timestamp env).
Proof.
  intros Hb Hi Hid. apply build_plan_inv in Hb as (a & b & r & Ha & Hb & Ht & Hr & _ & _ & -> & Hv).
  pose proof (parse_address_Ok _ _ Ha) as (_ & Hua & Hna). pose proof (parse_address_Ok _ _ Hb) as (_ & Hub & Hnb).
  set (tin := (direction_tokens d a b).1) in *. set (tout := (direction_tokens d a b).2) in *.
  assert (uint 160 tin /\ tin <> 0) as [Hui Hni] by (by destruct d). assert (uint 160 tout /\ tout <> 0) as [Huo Hno] by (by destruct d).
  pose proof (parse_printed tin Hui Hni) as Ei. pose proof (parse_printed tout Huo Hno) as Eo.
  destruct (validated_route _ _ _ Hv Ei Eo) as (Hin & Hout & Hne & Hvr). simpl in Hin, Hout, Hvr.
  destruct (route_swaps pair pool pg fg deadline r tin tout Hr Hi) as (sr & Hsr & Hnames & Hchk); [..|done|];
    [by destruct Ht as [[-> _]|[-> _]]|by destruct Ht as [[_ ->]|[_ ->]]|].
  unfold execution_request. rewrite Hv. cbn [rbind route token_in token_out amount_in_base_units amount_out_minimum_base_units deadline_unix_seconds].
  rewrite Hsr, Ei, Eo. cbn [rbind]. rewrite request_accepted by (try done; lia). cbn [rbind]. eexists. split; [done|]. split.
  - split; try done. exists a, b. split; [done|]. split; [done|]. split; [|done]. simpl. by destruct d.
  - intros env He. by apply (route_deadline pair pool pg fg deadline r).
Qed.
End promises.

(** ** The generations the engine builds with

    While a pool's curves are published they stand under the pool's current
    generation; it is also the fee generation exactly where the pool has a
    Camelot fee. *)
Section generations.
Context `{UniswapV3Math}.

Lemma fee_generation_value s i h g f :
  publication_ok s -> pb_dex s !! i = Some h -> pool_generation (pb_engine s) i = Ok g ->
  pool_fee_generation (pb_engine s) i = Ok f -> f = if bool_decide (is_Some (hp_camelot_fee h)) then g else 0.
Proof.
  intros Hs Hd Hg Hf. unfold pool_generation, pool_fee_generation in *. res_inv.
  assert (prepared_at (oe_prepared_pools (pb_engine s)) i = Some x0) as Hat by (unfold prepared_at; by rewrite Hok).
  destruct (pk_handles s Hs i x0 Hat) as (_ & Hgen & Hsrc). rewrite Hg in Hgen. injection Hgen as ->.
  unfold source in Hsrc. destruct (oe_pair_index_by_pool _ !! i ≫= id) as [k|]; [|done]. simpl in Hsrc.
  destruct (oe_pairs _ !! k) as [pr|]; [|done]. simpl in Hsrc. rewrite Hd in Hsrc. simpl in Hsrc. injection Hsrc as Hq.
  by apply quotes_of_inv in Hq as (_ & _ & _ & _ & ->).
Qed.
End generations.

(** No trade of a Lynex pool is ever planned: hydration gives such a pool
    no Camelot fee, the fee generation the engine hands to the plan is therefore
    zero in every state of the publication protocol, and the plan refuses a zero
    fee generation whatever the trade, the configuration and the deadline. *)
Theorem lynex_trades_never_planned `{UniswapV3Math} `{EvmText} `{EvmPrint} s i h a g f pair d t deadline :
  publication_ok s -> pb_dex s !! i = Some h -> hp_identity h = IdLynexAlgebraV1_9 a -> hp_camelot_fee h = None ->
  pool_generation (pb_engine s) i = Ok g -> pool_fee_generation (pb_engine s) i = Ok f ->
  f = 0 /\ forall p, build_plan pair h d t g f deadline <> Ok p.
Proof.
  intros Hs Hd Hi Hc Hg Hf. pose proof (fee_generation_value s i h g f Hs Hd Hg Hf) as ->. rewrite Hc. split; [done|].
  intros p Hb. unfold build_plan, build_route in Hb. rewrite Hi in Hb. change (bool_decide (is_Some None)) with false in Hb.
  apply rbind_Ok in Hb as (? & _ & Hb). apply rbind_Ok in Hb as (? & _ & Hb). apply rbind_Ok in Hb as (? & _ & Hb).
  apply rbind_Ok in Hb as (? & _ & Hb). apply rbind_Ok in Hb as (? & _ & Hb). case_match.
  apply rbind_Ok in Hb as (? & Hr & Hb). apply rbind_Ok in Hr as (? & _ & Hr). done.
Qed.
