(* ===== verification/Events.v ===== *)
(** * Pool events ([src/src/dex/events.rs])

    The log subscription of the hydrated pools and the decoding of a log into a
    pool update.  A log carries its topics as 256-bit values and its data as
    bytes; the topics of the events are Keccak-256 of their signatures. *)
From Stdlib Require Import Lia.
From stdpp Require Import base strings numbers list option gmap sorting.
From S2P Require Import Prelude ExecutionPlan TradeData AdaptiveFee FeeProjection HydratedPools PlanBuild.

Inductive PoolLocator :=
  | AtV3 (pool : Z)
  | AtPancakeV3 (pool : Z)
  | AtCamelotV3 (pool : Z)
  | AtLynexAlgebraV1_9 (pool : Z)
  | AtV4 (id : Z).
#[global] Instance PoolLocator_eq_dec : EqDecision PoolLocator.
Proof. solve_decision. Defined.

Inductive PoolUpdate :=
  | Swap (sqrt_price_x96 tick liquidity : Z) (fee_pips : option Z)
  | Liquidity (tick_lower tick_upper delta : Z)
  | Fee (zero_for_one one_for_zero : Z)
  | TickSpacing (value : Z)
  | Incentive (address : Z).
#[global] Instance PoolUpdate_eq_dec : EqDecision PoolUpdate.
Proof. solve_decision. Defined.

Record DecodedPoolEvent := mkEvent { ev_locator : PoolLocator; ev_update : PoolUpdate }.

Definition event_kind (e : DecodedPoolEvent) : string :=
  match ev_update e with
  | Swap _ _ _ _ => "swap"
  | Liquidity _ _ delta => if 0 <? delta then "liquidity_added" else if delta <? 0 then "liquidity_removed" else "liquidity_poke"
  | Fee _ _ => "fee"
  | TickSpacing _ => "tick_spacing"
  | Incentive _ => "incentive"
  end.

(** Block, transaction and log index, compared lexicographically. *)
Record LogPosition := mkPosition { lp_block_number : Z; lp_transaction_index : Z; lp_log_index : Z }.
#[global] Instance LogPosition_eq_dec : EqDecision LogPosition.
Proof. solve_decision. Defined.

Definition position_lt (a b : LogPosition) : bool :=
  (lp_block_number a <? lp_block_number b)
  || ((lp_block_number a =? lp_block_number b)
      && ((lp_transaction_index a <? lp_transaction_index b)
          || ((lp_transaction_index a =? lp_transaction_index b) && (lp_log_index a <? lp_log_index b)))).

Definition log_position (l : ChainLog) : LogPosition :=
  mkPosition (log_block_number l) (log_transaction_index l) (log_log_index l).
Definition proof_position (p : AdaptiveFeeReceiptProof) : LogPosition :=
  match p with CamelotProof _ _ _ b _ t l | LynexProof _ _ b _ t l => mkPosition b t l end.

(** ** Words *)
Definition be_value (bytes : list Z) : Z := fold_left (fun acc b => acc * 256 + b) bytes 0.

Definition decode_word (data : list Z) (i : nat) : TRes (list Z) :=
  ensure! (i * 32 + 32 <=? length data)%nat else "event data is missing word" ;;
  Ok (take 32 (drop (i * 32) data)).
Definition decode_u256 (data : list Z) (i : nat) : TRes Z := rmap be_value (decode_word data i).
Definition decode_below (w : Z) (e : string) (data : list Z) (i : nat) : TRes Z :=
  let? v := decode_u256 data i in
  ensure! v <? 2 ^ w else e ;;
  Ok v.
Definition decode_u128 : list Z -> nat -> TRes Z := decode_below 128 "event word does not fit uint128".
Definition decode_u16 : list Z -> nat -> TRes Z := decode_below 16 "event word does not fit uint16".

(** The last three bytes of a word; the others are not read. *)
Definition low_24 (word : list Z) : Z := be_value (take 3 (drop 29 word)).
Definition decode_u24 (data : list Z) (i : nat) : TRes Z := rmap low_24 (decode_word data i).
Definition decode_i24_word (word : list Z) : Z :=
  let raw := low_24 word in
  if negb (Z.land raw 8388608 =? 0) then Z.lor raw (Z.lnot 16777215) else raw.
Definition decode_i24 (data : list Z) (i : nat) : TRes Z := rmap decode_i24_word (decode_word data i).
Definition topic_bytes (topic : Z) : list Z := be_bytes 32 topic.
Definition decode_topic_i24 (topic : Z) : Z := decode_i24_word (topic_bytes topic).
Definition decode_i256_as_i128 (data : list Z) (i : nat) : TRes Z :=
  let? word := decode_word data i in
  let value := wrap_i128 (be_value (drop 16 word)) in
  let sign := if value <? 0 then 255 else 0 in
  ensure! forallb (fun b => b =? sign) (take 16 word) else "event word does not fit int128" ;;
  Ok value.

Definition i128_try_from (v : Z) (e : string) : TRes Z := ensure! v <=? I128_MAX else e ;; Ok v.

(** [I256::from_raw]. *)
Definition i256_from_raw (v : Z) : Z := if v <? 2 ^ 255 then v else v - 2 ^ 256.
Definition decode_camelot_v3_swap_amounts_after_event_validation (l : ChainLog) : Z * Z :=
  (i256_from_raw (be_value (take 32 (log_data l))), i256_from_raw (be_value (take 32 (drop 32 (log_data l))))).

Definition topic_count (l : ChainLog) (n : nat) : bool := (length (log_topics l) =? n)%nat.
Definition data_words (l : ChainLog) (n : nat) : bool := (length (log_data l) =? n * 32)%nat.
(** Indexing after the topic count was checked. *)
Definition topic_at (l : ChainLog) (i : nat) : Z := default 0 (log_topics l !! i).

Definition algebra_hint (hint : option PoolLocator) (address : Z) : bool :=
  bool_decide (hint = Some (AtCamelotV3 address)) || bool_decide (hint = Some (AtLynexAlgebraV1_9 address)).
Definition hint_allows (hint : option PoolLocator) (l : PoolLocator) : bool :=
  match hint with None => true | Some h => bool_decide (h = l) end.

(** The five words of a V3-shaped swap, as decoded for every provider. *)
Definition decode_swap (l : ChainLog) : TRes PoolUpdate :=
  let? price := decode_u256 (log_data l) 2 in
  let? liquidity := decode_u128 (log_data l) 3 in
  let? tick := decode_i24 (log_data l) 4 in
  Ok (Swap price tick liquidity None).

Definition routed_v3_locator (address : Z) (hint : option PoolLocator) : TRes PoolLocator :=
  let locator := default (AtV3 address) hint in
  ensure! match locator with
          | AtV3 pool | AtPancakeV3 pool | AtCamelotV3 pool | AtLynexAlgebraV1_9 pool => pool =? address
          | AtV4 _ => false
          end else "V3 liquidity event does not match its routed pool" ;;
  Ok locator.

Section topics.
Context `{EvmText}.

Definition topic_of (signature : string) : Z := keccak256 (string_bytes signature).
Definition v3_swap_topic : Z := topic_of "Swap(address,address,int256,int256,uint160,uint128,int24)".
Definition pancake_v3_swap_topic : Z := topic_of "Swap(address,address,int256,int256,uint160,uint128,int24,uint128,uint128)".
Definition v3_mint_topic : Z := topic_of "Mint(address,address,int24,int24,uint128,uint256,uint256)".
Definition v3_burn_topic : Z := topic_of "Burn(address,int24,int24,uint128,uint256,uint256)".
Definition v4_swap_topic : Z := topic_of "Swap(bytes32,address,int128,int128,uint160,uint128,int24,uint24)".
Definition v4_modify_liquidity_topic : Z := topic_of "ModifyLiquidity(bytes32,address,int24,int24,int256,bytes32)".
Definition camelot_fee_topic : Z := topic_of "Fee(uint16,uint16)".
Definition lynex_algebra_v1_9_fee_topic : Z := topic_of "Fee(uint16)".
Definition camelot_tick_spacing_topic : Z := topic_of "TickSpacing(int24)".
Definition camelot_incentive_topic : Z := topic_of "Incentive(address)".

(** ** Decoding *)
Definition decode_v3_swap (l : ChainLog) (hint : option PoolLocator) : TRes DecodedPoolEvent :=
  if algebra_hint hint (log_address l) then
    ensure! topic_count l 3 else "invalid Algebra Swap topic count" ;;
    ensure! data_words l 5 else "invalid Algebra Swap data length" ;;
    rmap (mkEvent (default (AtV3 (log_address l)) hint)) (decode_swap l)
  else
    ensure! hint_allows hint (AtV3 (log_address l))
      else "Uniswap V3 Swap topic does not match its routed pool provider" ;;
    ensure! topic_count l 3 else "invalid V3 Swap topic count" ;;
    ensure! data_words l 5 else "invalid V3 Swap data length" ;;
    rmap (mkEvent (AtV3 (log_address l))) (decode_swap l).

Definition decode_pancake_swap (l : ChainLog) (hint : option PoolLocator) : TRes DecodedPoolEvent :=
  ensure! hint_allows hint (AtPancakeV3 (log_address l))
    else "PancakeSwap V3 Swap topic does not match its routed pool provider" ;;
  ensure! topic_count l 3 else "invalid Pancake V3 Swap topic count" ;;
  ensure! data_words l 7 else "invalid Pancake V3 Swap data length" ;;
  rmap (mkEvent (AtPancakeV3 (log_address l))) (decode_swap l).

Definition decode_mint (l : ChainLog) (hint : option PoolLocator) : TRes DecodedPoolEvent :=
  ensure! topic_count l 4 else "invalid V3 Mint topic count" ;;
  ensure! data_words l 4 else "invalid V3 Mint data length" ;;
  let? amount := decode_u128 (log_data l) 1 in
  let? locator := routed_v3_locator (log_address l) hint in
  let? delta := i128_try_from amount "V3 Mint liquidity exceeds int128" in
  Ok (mkEvent locator (Liquidity (decode_topic_i24 (topic_at l 2)) (decode_topic_i24 (topic_at l 3)) delta)).

(** The negation of a non-negative [i128] does not overflow. *)
Definition decode_burn (l : ChainLog) (hint : option PoolLocator) : TRes DecodedPoolEvent :=
  ensure! topic_count l 4 else "invalid V3 Burn topic count" ;;
  ensure! data_words l 3 else "invalid V3 Burn data length" ;;
  let? amount := decode_u128 (log_data l) 0 in
  let? amount := i128_try_from amount "V3 Burn liquidity exceeds int128" in
  let? locator := routed_v3_locator (log_address l) hint in
  let? delta := or_err (i128_checked (- amount)) "V3 Burn liquidity overflow" in
  Ok (mkEvent locator (Liquidity (decode_topic_i24 (topic_at l 2)) (decode_topic_i24 (topic_at l 3)) delta)).

Definition decode_v4_swap (l : ChainLog) : TRes DecodedPoolEvent :=
  ensure! topic_count l 3 else "invalid V4 Swap topic count" ;;
  ensure! data_words l 6 else "invalid V4 Swap data length" ;;
  let? price := decode_u256 (log_data l) 2 in
  let? liquidity := decode_u128 (log_data l) 3 in
  let? tick := decode_i24 (log_data l) 4 in
  let? fee := decode_u24 (log_data l) 5 in
  Ok (mkEvent (AtV4 (topic_at l 1)) (Swap price tick liquidity (Some fee))).

Definition decode_v4_modify_liquidity (l : ChainLog) : TRes DecodedPoolEvent :=
  ensure! topic_count l 3 else "invalid V4 ModifyLiquidity topic count" ;;
  ensure! data_words l 4 else "invalid V4 ModifyLiquidity data length" ;;
  let? lower := decode_i24 (log_data l) 0 in
  let? upper := decode_i24 (log_data l) 1 in
  let? delta := decode_i256_as_i128 (log_data l) 2 in
  Ok (mkEvent (AtV4 (topic_at l 1)) (Liquidity lower upper delta)).

Definition decode_camelot_fee (l : ChainLog) (hint : option PoolLocator) : TRes DecodedPoolEvent :=
  ensure! bool_decide (hint = Some (AtCamelotV3 (log_address l)))
    else "Camelot Fee event lacks Camelot provider routing" ;;
  ensure! topic_count l 1 else "invalid Camelot Fee topic count" ;;
  ensure! data_words l 2 else "invalid Camelot Fee data length" ;;
  let? zero_for_one := decode_u16 (log_data l) 0 in
  let? one_for_zero := decode_u16 (log_data l) 1 in
  Ok (mkEvent (AtCamelotV3 (log_address l)) (Fee zero_for_one one_for_zero)).

Definition decode_lynex_fee (l : ChainLog) (hint : option PoolLocator) : TRes DecodedPoolEvent :=
  ensure! bool_decide (hint = Some (AtLynexAlgebraV1_9 (log_address l)))
    else "Lynex Fee event lacks Lynex Algebra V1.9 provider routing" ;;
  ensure! topic_count l 1 else "invalid Lynex Fee topic count" ;;
  ensure! data_words l 1 else "invalid Lynex Fee data length" ;;
  let? fee := decode_u16 (log_data l) 0 in
  Ok (mkEvent (AtLynexAlgebraV1_9 (log_address l)) (Fee fee fee)).

Definition decode_tick_spacing (l : ChainLog) (hint : option PoolLocator) : TRes DecodedPoolEvent :=
  ensure! algebra_hint hint (log_address l) else "Algebra TickSpacing event lacks adaptive provider routing" ;;
  ensure! topic_count l 1 else "invalid Camelot TickSpacing topic count" ;;
  ensure! data_words l 1 else "invalid Camelot TickSpacing data length" ;;
  let? value := decode_i24 (log_data l) 0 in
  Ok (mkEvent (default (AtV3 (log_address l)) hint) (TickSpacing value)).

Definition decode_incentive (l : ChainLog) (hint : option PoolLocator) : TRes DecodedPoolEvent :=
  ensure! algebra_hint hint (log_address l) else "Algebra Incentive event lacks adaptive provider routing" ;;
  ensure! topic_count l 2 else "invalid Camelot Incentive topic count" ;;
  ensure! data_words l 0 else "invalid Camelot Incentive data length" ;;
  ensure! bool_decide (take 12 (topic_bytes (topic_at l 1)) = repeat 0 12)
    else "Camelot Incentive indexed address has non-zero padding" ;;
  Ok (mkEvent (default (AtV3 (log_address l)) hint) (Incentive (be_value (drop 12 (topic_bytes (topic_at l 1)))))).

Definition decode_pool_event_with_locator (l : ChainLog) (hint : option PoolLocator) : TRes (option DecodedPoolEvent) :=
  match head (log_topics l) with
  | None => Ok None
  | Some signature =>
      if signature =? v3_swap_topic then rmap Some (decode_v3_swap l hint)
      else if signature =? pancake_v3_swap_topic then rmap Some (decode_pancake_swap l hint)
      else if signature =? v3_mint_topic then rmap Some (decode_mint l hint)
      else if signature =? v3_burn_topic then rmap Some (decode_burn l hint)
      else if signature =? v4_swap_topic then rmap Some (decode_v4_swap l)
      else if signature =? v4_modify_liquidity_topic then rmap Some (decode_v4_modify_liquidity l)
      else if signature =? camelot_fee_topic then rmap Some (decode_camelot_fee l hint)
      else if signature =? lynex_algebra_v1_9_fee_topic then rmap Some (decode_lynex_fee l hint)
      else if signature =? camelot_tick_spacing_topic then rmap Some (decode_tick_spacing l hint)
      else if signature =? camelot_incentive_topic then rmap Some (decode_incentive l hint)
      else Ok None
  end.

Definition decode_pool_event (l : ChainLog) : TRes (option DecodedPoolEvent) := decode_pool_event_with_locator l None.
Definition decode_pool_event_for_locator (l : ChainLog) (locator : PoolLocator) : TRes (option DecodedPoolEvent) :=
  decode_pool_event_with_locator l (Some locator).

Definition decode_camelot_pool_event (l : ChainLog) (pool : Z) : TRes (option DecodedPoolEvent) :=
  ensure! log_address l =? pool else "Camelot event address differs from its pool" ;;
  if bool_decide (head (log_topics l) = Some v3_swap_topic) then
    ensure! topic_count l 3 else "invalid Camelot Swap topic count" ;;
    ensure! data_words l 5 else "invalid Camelot Swap data length" ;;
    rmap (fun u => Some (mkEvent (AtCamelotV3 pool) u)) (decode_swap l)
  else decode_pool_event_with_locator l (Some (AtCamelotV3 pool)).

Definition decode_lynex_algebra_v1_9_pool_event (l : ChainLog) (pool : Z) : TRes (option DecodedPoolEvent) :=
  ensure! log_address l =? pool else "Lynex Algebra V1.9 event address differs from its pool" ;;
  decode_pool_event_with_locator l (Some (AtLynexAlgebraV1_9 pool)).

Definition decode_pancake_v3_protocol_fees (l : ChainLog) : TRes (option (Z * Z)) :=
  if negb (bool_decide (head (log_topics l) = Some pancake_v3_swap_topic)) then Ok None else
  ensure! data_words l 7 else "invalid Pancake V3 Swap data length" ;;
  let? fee0 := decode_u128 (log_data l) 5 in
  let? fee1 := decode_u128 (log_data l) 6 in
  Ok (Some (fee0, fee1)).

Definition decode_camelot_v3_swap_amounts (l : ChainLog) : TRes (Z * Z) :=
  ensure! bool_decide (head (log_topics l) = Some v3_swap_topic)
    else "Camelot Swap amount decode received another event" ;;
  ensure! data_words l 5 else "invalid Camelot Swap data length" ;;
  Ok (decode_camelot_v3_swap_amounts_after_event_validation l).
End topics.

(** ** The subscription *)
Record EthLogFilter := mkFilter { ef_addresses : list Z; ef_topics : list (option (list Z)) }.

Definition new_filter (addresses : list Z) (topics : list (option (list Z))) : TRes EthLogFilter :=
  ensure! negb (bool_decide (addresses = [])) else "log filter has no addresses" ;;
  ensure! forallb (fun t => match t with None => true | Some values => negb (bool_decide (values = [])) end) topics
    else "log filter contains an empty topic OR-list" ;;
  Ok (mkFilter addresses topics).

(** A [BTreeSet] of what was inserted, in its order. *)
Definition sorted_set (l : list Z) : list Z := merge_sort Z.le (elements (list_to_set l : gset Z)).

Section filters.
Context `{EvmText}.

Definition v3_topics : list Z := [v3_swap_topic; v3_mint_topic; v3_burn_topic].
Definition pancake_v3_topics : list Z := [pancake_v3_swap_topic; v3_mint_topic; v3_burn_topic].
Definition camelot_topics : list Z := v3_topics ++ [camelot_fee_topic; camelot_tick_spacing_topic; camelot_incentive_topic].
Definition lynex_topics : list Z := v3_topics ++ [lynex_algebra_v1_9_fee_topic; camelot_tick_spacing_topic; camelot_incentive_topic].
Definition v4_topics : list Z := [v4_swap_topic; v4_modify_liquidity_topic].

(** One filter over the pools of a provider, if there are any. *)
Definition provider_filter (addresses topics : list Z) : TRes (list EthLogFilter) :=
  if bool_decide (addresses = []) then Ok [] else rmap (fun f => [f]) (new_filter addresses [Some topics]).

Fixpoint parse_managers (pairs : list PairConfig) : TRes (list Z) :=
  match pairs with
  | [] => Ok []
  | p :: rest =>
      match (if pc_market_data_enabled p then pc_uniswap_v4_pool_manager_address p else None) with
      | None => parse_managers rest
      | Some text =>
          let? a := or_err (address_from_str text) "invalid V4 PoolManager address" in
          rmap (cons a) (parse_managers rest)
      end
  end.

Definition v4_filter (pairs : list PairConfig) (ids : list Z) : TRes (list EthLogFilter) :=
  if bool_decide (ids = []) then Ok [] else
  let? managers := rmap sorted_set (parse_managers pairs) in
  ensure! (length managers =? 1)%nat else "enabled V4 pools must share exactly one PoolManager" ;;
  rmap (fun f => [f]) (new_filter managers [Some v4_topics; Some ids]).

Definition v3_address (i : PoolIdentity) : option Z := match i with IdV3 a _ => Some a | _ => None end.
Definition pancake_address (i : PoolIdentity) : option Z := match i with IdPancakeV3 a _ => Some a | _ => None end.
Definition camelot_address (i : PoolIdentity) : option Z := match i with IdCamelotV3 a => Some a | _ => None end.
Definition lynex_address (i : PoolIdentity) : option Z := match i with IdLynexAlgebraV1_9 a => Some a | _ => None end.
Definition v4_id (i : PoolIdentity) : option Z := match i with IdV4 id _ => Some id | _ => None end.
Definition pool_keys (f : PoolIdentity -> option Z) (pools : list HydratedPool) : list Z :=
  sorted_set (omap (fun h => f (hp_identity h)) pools).

Definition build_log_filters (pairs : list PairConfig) (pools : list HydratedPool) : TRes (list EthLogFilter) :=
  let? v3 := provider_filter (pool_keys v3_address pools) v3_topics in
  let? pancake := provider_filter (pool_keys pancake_address pools) pancake_v3_topics in
  let? camelot := provider_filter (pool_keys camelot_address pools) camelot_topics in
  let? lynex := provider_filter (pool_keys lynex_address pools) lynex_topics in
  let? v4 := v4_filter pairs (pool_keys v4_id pools) in
  let filters := v3 ++ pancake ++ camelot ++ lynex ++ v4 in
  ensure! negb (bool_decide (filters = [])) else "hydrated state produced no log filters" ;;
  Ok filters.

Definition build_pool_log_filter (locator : PoolLocator) (event_address : Z) : TRes EthLogFilter :=
  match locator with
  | AtV3 pool =>
      ensure! event_address =? pool else "V3 settlement event address differs from its pool" ;;
      new_filter [pool] [Some v3_topics]
  | AtPancakeV3 pool =>
      ensure! event_address =? pool else "PancakeSwap V3 settlement event address differs from its pool" ;;
      new_filter [pool] [Some pancake_v3_topics]
  | AtCamelotV3 pool =>
      ensure! event_address =? pool else "Camelot V3 event address differs from its pool" ;;
      new_filter [pool] [Some camelot_topics]
  | AtLynexAlgebraV1_9 pool =>
      ensure! event_address =? pool else "Lynex Algebra V1.9 event address differs from its pool" ;;
      new_filter [pool] [Some lynex_topics]
  | AtV4 id => new_filter [event_address] [Some v4_topics; Some [id]]
  end.

(** ** What the pool contracts emit

    The documented events, with the update each stands for.  The words that are
    not read are arbitrary. *)
Definition words (l : list Z) : list Z := concat (map (be_bytes 32) l).
Definition topic_i24 (t : Z) : Z := t mod 2 ^ 256.

Definition i24 (x : Z) : Prop := - 2 ^ 23 <= x < 2 ^ 23.

Definition v3_shaped (l : PoolLocator) (a : Z) : Prop := l = AtV3 a \/ l = AtPancakeV3 a \/ l = AtCamelotV3 a \/ l = AtLynexAlgebraV1_9 a.
Definition algebra (l : PoolLocator) (a : Z) : Prop := l = AtCamelotV3 a \/ l = AtLynexAlgebraV1_9 a.

Inductive emits (manager : Z) : PoolLocator -> PoolUpdate -> Z -> list Z -> list Z -> Prop :=
  | em_swap l a sender recipient a0 a1 price liq tk :
      l = AtV3 a \/ algebra l a -> u256 price -> u128 liq -> i24 tk ->
      emits manager l (Swap price tk liq None) a [v3_swap_topic; sender; recipient] (words [a0; a1; price; liq; tk])
  | em_pancake_swap a sender recipient a0 a1 price liq tk f0 f1 :
      u256 price -> u128 liq -> i24 tk ->
      emits manager (AtPancakeV3 a) (Swap price tk liq None) a [pancake_v3_swap_topic; sender; recipient]
        (words [a0; a1; price; liq; tk; f0; f1])
  | em_mint l a sender owner lo hi amount a0 a1 :
      v3_shaped l a -> i24 lo -> i24 hi -> 0 <= amount <= I128_MAX ->
      emits manager l (Liquidity lo hi amount) a [v3_mint_topic; owner; topic_i24 lo; topic_i24 hi] (words [sender; amount; a0; a1])
  | em_burn l a owner lo hi amount a0 a1 :
      v3_shaped l a -> i24 lo -> i24 hi -> 0 <= amount <= I128_MAX ->
      emits manager l (Liquidity lo hi (- amount)) a [v3_burn_topic; owner; topic_i24 lo; topic_i24 hi] (words [amount; a0; a1])
  | em_v4_swap id sender a0 a1 price liq tk fee :
      u256 price -> u128 liq -> i24 tk -> uint 24 fee ->
      emits manager (AtV4 id) (Swap price tk liq (Some fee)) manager [v4_swap_topic; id; sender] (words [a0; a1; price; liq; tk; fee])
  | em_v4_liquidity id sender lo hi delta salt :
      i24 lo -> i24 hi -> i128 delta ->
      emits manager (AtV4 id) (Liquidity lo hi delta) manager [v4_modify_liquidity_topic; id; sender] (words [lo; hi; delta; salt])
  | em_camelot_fee a z o :
      uint 16 z -> uint 16 o -> emits manager (AtCamelotV3 a) (Fee z o) a [camelot_fee_topic] (words [z; o])
  | em_lynex_fee a f :
      uint 16 f -> emits manager (AtLynexAlgebraV1_9 a) (Fee f f) a [lynex_algebra_v1_9_fee_topic] (words [f])
  | em_tick_spacing l a v :
      algebra l a -> i24 v -> emits manager l (TickSpacing v) a [camelot_tick_spacing_topic] (words [v])
  | em_incentive l a x :
      algebra l a -> uint 160 x -> emits manager l (Incentive x) a [camelot_incentive_topic; x] [].
End filters.

(** ** Words read back *)
Lemma be_bytes_length n x : length (be_bytes n x) = n.
Proof. revert x. induction n as [|n IH]; intros x; simpl; [done|]. rewrite length_app, IH. simpl. lia. Qed.

Lemma be_bytes_app n m x : be_bytes (n + m) x = be_bytes n (x / 256 ^ Z.of_nat m) ++ be_bytes m x.
Proof.
  revert x. induction m as [|m IH]; intros x.
  - rewrite Nat.add_0_r, Z.div_1_r. simpl. by rewrite app_nil_r.
  - rewrite Nat.add_succ_r. simpl. rewrite IH, Z.div_div by lia. rewrite <- app_assoc. do 3 f_equal.
    rewrite Nat2Z.inj_succ, Z.pow_succ_r by lia. done.
Qed.

#[local] Arguments be_bytes : simpl never.

Lemma be_bytes_S n x : be_bytes (S n) x = be_bytes n (x / 256) ++ [x mod 256].
Proof. done. Qed.

Lemma be_value_snoc l b : be_value (l ++ [b]) = be_value l * 256 + b.
Proof. unfold be_value. by rewrite fold_left_app. Qed.

Lemma be_value_bytes n x : be_value (be_bytes n x) = x mod 256 ^ Z.of_nat n.
Proof.
  revert x. induction n as [|n IH]; intros x; [by rewrite Z.mod_1_r|].
  rewrite be_bytes_S, be_value_snoc, IH, Nat2Z.inj_succ, Z.pow_succ_r by lia.
  rewrite (Z.rem_mul_r x 256 (256 ^ Z.of_nat n)) by (try apply Z.pow_pos_nonneg; lia). lia.
Qed.

Lemma word_value w : u256 w -> be_value (be_bytes 32 w) = w.
Proof. intros Hw. rewrite be_value_bytes. by apply Z.mod_small. Qed.

Lemma words_length l : length (words l) = (length l * 32)%nat.
Proof.
  unfold words. induction l as [|w l IH]; [done|]. cbn [map concat]. rewrite length_app, be_bytes_length, IH. simpl length. lia.
Qed.

Lemma decode_word_words l i w : l !! i = Some w -> decode_word (words l) i = Ok (be_bytes 32 w).
Proof.
  intros Hi. unfold decode_word. rewrite words_length. pose proof (lookup_lt_Some _ _ _ Hi).
  rewrite (proj2 (Nat.leb_le _ _)) by lia. cbn [ensure rbind]. f_equal.
  revert i Hi H. induction l as [|v l IH]; intros i Hi Hl; [done|].
  change (words (v :: l)) with (be_bytes 32 v ++ words l). destruct i as [|i].
  - injection Hi as ->. cbn [Nat.mul]. rewrite drop_0. apply take_app_length'. by rewrite be_bytes_length.
  - rewrite drop_app_ge by (rewrite be_bytes_length; lia). rewrite be_bytes_length.
    replace (S i * 32 - 32)%nat with (i * 32)%nat by lia. apply IH; [done|simpl in Hl; lia].
Qed.

Lemma low_24_word w : low_24 (be_bytes 32 w) = w mod 2 ^ 24.
Proof.
  unfold low_24. rewrite (be_bytes_app 29 3), drop_app_length' by (by rewrite be_bytes_length).
  rewrite take_ge by (rewrite be_bytes_length; lia). apply be_value_bytes.
Qed.

Lemma testbit_23 r : 0 <= r < 2 ^ 24 -> Z.testbit r 23 = (2 ^ 23 <=? r).
Proof.
  intros Hr. rewrite Z.testbit_eqb by lia. destruct (Z.leb_spec (2 ^ 23) r) as [H|H].
  - replace (r / 2 ^ 23) with 1 by (apply Z.div_unique with (r - 2 ^ 23); lia). done.
  - by rewrite Z.div_small by lia.
Qed.

Lemma land_bit r n : 0 <= n -> Z.land r (2 ^ n) = if Z.testbit r n then 2 ^ n else 0.
Proof.
  intros Hn. apply Z.bits_inj'. intros k Hk. rewrite Z.land_spec, Z.pow2_bits_eqb by lia.
  destruct (Z.eqb_spec n k) as [<-|Hne].
  - destruct (Z.testbit r n); [by rewrite Z.pow2_bits_true by lia|by rewrite Z.bits_0].
  - rewrite andb_false_r. destruct (Z.testbit r n); [by rewrite Z.pow2_bits_false by lia|by rewrite Z.bits_0].
Qed.

Lemma lor_high r n : 0 <= n -> 0 <= r < 2 ^ n -> Z.lor r (- 2 ^ n) = r - 2 ^ n.
Proof.
  intros Hn Hr. assert (Hd : Z.land r (- 2 ^ n) = 0).
  { apply Z.bits_inj'. intros k Hk. rewrite Z.land_spec, Z.bits_0. destruct (Z.lt_ge_cases k n).
    - replace (- 2 ^ n) with (- 1 * 2 ^ n) by lia. rewrite Z.mul_pow2_bits_low by lia. apply andb_false_r.
    - destruct (decide (r = 0)) as [->|]; [by rewrite Z.bits_0|]. rewrite Z.bits_above_log2; [done|lia|].
      apply Z.log2_lt_pow2; [lia|]. apply Z.lt_le_trans with (2 ^ n); [lia|]. by apply Z.pow_le_mono_r. }
  rewrite <- Z.lxor_lor, <- Z.add_nocarry_lxor by done. lia.
Qed.

Lemma sign_extend_24 x : i24 x -> decode_i24_word (be_bytes 32 x) = x.
Proof.
  unfold i24, decode_i24_word. intros Hx. rewrite low_24_word. cbv zeta.
  change 8388608 with (2 ^ 23). change (Z.lnot 16777215) with (- 2 ^ 24).
  rewrite land_bit by lia. rewrite testbit_23 by (apply Z.mod_pos_bound; lia).
  destruct (Z.lt_ge_cases x 0) as [Hn|Hp].
  - replace (x mod 2 ^ 24) with (x + 2 ^ 24) by (apply Z.mod_unique with (-1); lia).
    rewrite (proj2 (Z.leb_le _ _)) by lia. simpl negb. cbv iota. rewrite lor_high by lia. lia.
  - rewrite Z.mod_small by lia. by rewrite (proj2 (Z.leb_gt _ _)) by lia.
Qed.

Lemma be_bytes_mod n x : be_bytes n (x mod 256 ^ Z.of_nat n) = be_bytes n x.
Proof.
  revert x. induction n as [|n IH]; intros x; [done|]. rewrite Nat2Z.inj_succ, Z.pow_succ_r by lia.
  assert (0 < 256 ^ Z.of_nat n) by (apply Z.pow_pos_nonneg; lia).
  rewrite !be_bytes_S, <- (IH (x / 256)). f_equal.
  - f_equal. rewrite (Z.rem_mul_r x 256 (256 ^ Z.of_nat n)) by lia.
    symmetry. apply Z.div_unique with (x mod 256); [|lia]. pose proof (Z.mod_pos_bound x 256). lia.
  - f_equal. rewrite (Z.rem_mul_r x 256 (256 ^ Z.of_nat n)) by lia.
    rewrite Z.mul_comm, Z.mod_add by lia. by rewrite Z.mod_mod by lia.
Qed.

Lemma topic_i24_read x : i24 x -> decode_topic_i24 (topic_i24 x) = x.
Proof.
  intros Hx. unfold decode_topic_i24, topic_bytes, topic_i24. change (2 ^ 256) with (256 ^ Z.of_nat 32).
  rewrite be_bytes_mod. by apply sign_extend_24.
Qed.

Lemma be_bytes_sign n : be_bytes n 0 = repeat 0 n /\ be_bytes n (-1) = repeat 255 n.
Proof.
  induction n as [|n [IH1 IH2]]; [done|]. rewrite !be_bytes_S. change (0 / 256) with 0. change (-1 / 256) with (-1). rewrite IH1, IH2.
  change (0 mod 256) with 0. change (-1 mod 256) with 255. by rewrite <- !repeat_cons.
Qed.

Lemma wrap_i128_mod x : i128 x -> wrap_i128 (x mod 2 ^ 128) = x.
Proof.
  unfold i128, I128_MIN, I128_MAX, wrap_i128. intros Hx. rewrite Zplus_mod_idemp_l, Z.mod_small by lia. lia.
Qed.

Lemma decode_i128_words l i d : l !! i = Some d -> i128 d -> decode_i256_as_i128 (words l) i = Ok d.
Proof.
  intros Hi Hd. unfold decode_i256_as_i128. rewrite (decode_word_words _ _ _ Hi). cbn [rbind].
  rewrite (be_bytes_app 16 16), drop_app_length', take_app_length' by (by rewrite be_bytes_length).
  rewrite be_value_bytes. change (256 ^ Z.of_nat 16) with (2 ^ 128). rewrite wrap_i128_mod by done. cbv zeta.
  unfold i128, I128_MIN, I128_MAX in Hd.
  destruct (Z.ltb_spec d 0) as [Hn|Hp].
  - replace (d / 2 ^ 128) with (-1) by (apply Z.div_unique with (d + 2 ^ 128); lia). rewrite (proj2 (be_bytes_sign 16)). done.
  - rewrite Z.div_small by lia. rewrite (proj1 (be_bytes_sign 16)). done.
Qed.

Lemma decode_below_words w e l i v : l !! i = Some v -> 0 <= v < 2 ^ w -> w <= 256 -> decode_below w e (words l) i = Ok v.
Proof.
  intros Hi Hv Hw. unfold decode_below, decode_u256. rewrite (decode_word_words _ _ _ Hi). cbn [rmap rbind].
  assert (2 ^ w <= 2 ^ 256) by (apply Z.pow_le_mono_r; lia).
  rewrite word_value by (unfold uint; lia). by rewrite (proj2 (Z.ltb_lt _ _)) by lia.
Qed.

Lemma decode_u256_words l i v : l !! i = Some v -> u256 v -> decode_u256 (words l) i = Ok v.
Proof. intros Hi Hv. unfold decode_u256. rewrite (decode_word_words _ _ _ Hi). cbn [rmap rbind]. by rewrite word_value. Qed.

Lemma decode_i24_words l i v : l !! i = Some v -> i24 v -> decode_i24 (words l) i = Ok v.
Proof. intros Hi Hv. unfold decode_i24. rewrite (decode_word_words _ _ _ Hi). cbn [rmap rbind]. by rewrite sign_extend_24. Qed.

Lemma decode_u24_words l i v : l !! i = Some v -> uint 24 v -> decode_u24 (words l) i = Ok v.
Proof.
  intros Hi Hv. unfold decode_u24. rewrite (decode_word_words _ _ _ Hi). cbn [rmap rbind].
  by rewrite low_24_word, Z.mod_small.
Qed.
