(* ===== verification/EventFacts.v ===== *)
(** * What decoded pool events say ([src/src/dex/events.rs])

    Events of the hydrated pools arrive through the subscription and decode to
    the update the contract made; what a log decodes to is typed and belongs to
    the pool of its address. *)
From Stdlib Require Import Lia.
From stdpp Require Import base strings numbers list option gmap sorting.
From S2P Require Import Prelude ExecutionPlan TradeData AdaptiveFee FeeProjection HydratedPools PlanBuild Events.

#[local] Arguments be_bytes : simpl never.

(** ** Events arrive and are understood

    The decoder the mirror picks for a log: by the provider the log's address
    is registered for. *)
Section observed.
Context `{EvmText}.

Definition decode_routed (l : ChainLog) (hint : option PoolLocator) : TRes (option DecodedPoolEvent) :=
  match hint with
  | Some (AtCamelotV3 a) => decode_camelot_pool_event l a
  | Some (AtLynexAlgebraV1_9 a) => decode_lynex_algebra_v1_9_pool_event l a
  | Some locator => decode_pool_event_for_locator l locator
  | None => decode_pool_event l
  end.

Definition locator_of (i : PoolIdentity) : PoolLocator :=
  match i with
  | IdV3 a _ => AtV3 a
  | IdPancakeV3 a _ => AtPancakeV3 a
  | IdCamelotV3 a => AtCamelotV3 a
  | IdLynexAlgebraV1_9 a => AtLynexAlgebraV1_9 a
  | IdV4 id _ => AtV4 id
  end.

(** A V4 log comes from the manager, which is no pool's address. *)
Definition hint_for (l : PoolLocator) : option PoolLocator := match l with AtV4 _ => None | _ => Some l end.

Definition pool_topics : list Z :=
  [v3_swap_topic; pancake_v3_swap_topic; v3_mint_topic; v3_burn_topic; v4_swap_topic; v4_modify_liquidity_topic;
   camelot_fee_topic; lynex_algebra_v1_9_fee_topic; camelot_tick_spacing_topic; camelot_incentive_topic].

(** The node's contract for [eth_subscribe] and [eth_getLogs]. *)
Definition filter_matches (f : EthLogFilter) (l : ChainLog) : Prop :=
  log_address l ∈ ef_addresses f /\
  forall i values, ef_topics f !! i = Some (Some values) -> exists t, log_topics l !! i = Some t /\ t ∈ values.

Definition configured_manager (pairs : list PairConfig) (manager : Z) : Prop :=
  exists p text, p ∈ pairs /\ pc_market_data_enabled p = true /\ pc_uniswap_v4_pool_manager_address p = Some text /\
    address_from_str text = Some manager.

Definition carries (l : ChainLog) (a : Z) (topics data : list Z) : Prop :=
  log_address l = a /\ log_topics l = topics /\ log_data l = data.

Lemma swap_words l price liq tk rest a0 a1 :
  log_data l = words (a0 :: a1 :: price :: liq :: tk :: rest) -> u256 price -> u128 liq -> i24 tk ->
  decode_swap l = Ok (Swap price tk liq None).
Proof.
  intros Hd Hp Hl Ht. unfold decode_swap, decode_u128. rewrite Hd, (decode_u256_words _ _ price), (decode_below_words _ _ _ _ liq), (decode_i24_words _ _ tk);
    done || lia.
Qed.

Lemma data_words_words l ws : log_data l = words ws -> forall n, length ws = n -> data_words l n = true.
Proof. intros Hd n <-. unfold data_words. rewrite Hd, words_length. apply Nat.eqb_refl. Qed.

Lemma routed_v3 l a : v3_shaped l a -> routed_v3_locator a (Some l) = Ok l /\ hint_for l = Some l.
Proof. intros [->|[->|[->| ->]]]; unfold routed_v3_locator; simpl; by rewrite Z.eqb_refl. Qed.

Lemma algebra_hinted l a : algebra l a -> algebra_hint (Some l) a = true /\ hint_for l = Some l.
Proof. unfold algebra_hint. intros [->| ->]; split; try done; [by rewrite bool_decide_true|by rewrite (bool_decide_true (_ = Some (AtLynexAlgebraV1_9 a))), orb_true_r]. Qed.

Section topics.
Hypothesis topics_distinct : NoDup pool_topics.

Ltac topic_ne := let E := fresh in let N := fresh in
  intros E; pose proof topics_distinct as N; unfold pool_topics in N; rewrite !NoDup_cons in N; clear -E N; set_solver.
Ltac dispatch := repeat (rewrite Z.eqb_refl || match goal with
  | |- context [if ?a =? ?b then _ else _] => rewrite (proj2 (Z.eqb_neq a b)) by topic_ne end).

(** On its own pool the wrapper of a provider decodes what the shared decoder does. *)
Lemma decode_routed_own l log r :
  match l with AtV4 _ => True | AtV3 a | AtPancakeV3 a | AtCamelotV3 a | AtLynexAlgebraV1_9 a => log_address log = a end ->
  decode_pool_event_with_locator log (hint_for l) = Ok r -> decode_routed log (hint_for l) = Ok r.
Proof.
  destruct l as [a|a|a|a|id]; [intros <-; done|intros <-; done| | |done]; intros <-; simpl decode_routed;
    [|unfold decode_lynex_algebra_v1_9_pool_event; by rewrite Z.eqb_refl].
  unfold decode_camelot_pool_event. rewrite Z.eqb_refl. cbn [ensure rbind]. case_bool_decide as Hs; [|done]. cbn [hint_for].
  unfold decode_pool_event_with_locator. rewrite Hs, Z.eqb_refl. unfold decode_v3_swap.
  rewrite (proj1 (algebra_hinted _ _ (or_introl eq_refl))). unfold default, id.
  destruct (topic_count log 3); [|done]. cbn [ensure rbind]. destruct (data_words log 5); [|done]. cbn [ensure rbind].
  by destruct (decode_swap log).
Qed.

Ltac shape Ht Hd := unfold topic_count, topic_at; rewrite !Ht; rewrite (data_words_words _ _ Hd) by reflexivity;
  cbn [length Nat.eqb ensure rbind lookup list_lookup default id].
Ltac word_of l i k := let o := eval cbn in (l !! i) in match o with Some ?x => k x end.
Ltac words_at Hd := unfold decode_u128, decode_u16; rewrite ?Hd;
  repeat (match goal with
    | |- context [decode_below ?w ?e (words ?l) ?i] =>
        word_of l i ltac:(fun x => rewrite (decode_below_words w e l i x eq_refl) by (try done; unfold uint, I128_MAX in *; lia))
    | |- context [decode_i24 (words ?l) ?i] => word_of l i ltac:(fun x => rewrite (decode_i24_words l i x eq_refl) by done)
    | |- context [decode_u256 (words ?l) ?i] => word_of l i ltac:(fun x => rewrite (decode_u256_words l i x eq_refl) by done)
    | |- context [decode_u24 (words ?l) ?i] => word_of l i ltac:(fun x => rewrite (decode_u24_words l i x eq_refl) by done)
    | |- context [decode_i256_as_i128 (words ?l) ?i] => word_of l i ltac:(fun x => rewrite (decode_i128_words l i x eq_refl) by done)
    end; cbn [rbind rmap]).

Lemma address_topic x : uint 160 x -> take 12 (topic_bytes x) = repeat 0 12 /\ be_value (drop 12 (topic_bytes x)) = x.
Proof.
  intros Hx. unfold topic_bytes. rewrite (be_bytes_app 12 20), drop_app_length', take_app_length' by (by rewrite be_bytes_length).
  rewrite be_value_bytes. change (256 ^ Z.of_nat 20) with (2 ^ 160). unfold uint in Hx.
  by rewrite Z.div_small, Z.mod_small, (proj1 (be_bytes_sign 12)).
Qed.

Lemma i128_amount amount e : 0 <= amount <= I128_MAX -> i128_try_from amount e = Ok amount /\ i128_checked (- amount) = Some (- amount).
Proof.
  intros Ha. unfold i128_try_from. rewrite (proj2 (Z.leb_le _ _)) by lia. split; [done|].
  apply i128_checked_Some. split; [done|]. unfold i128, I128_MIN, I128_MAX in *. lia.
Qed.

Lemma emitted_decodes manager l u a topics data log :
  emits manager l u a topics data -> carries log a topics data ->
  decode_routed log (hint_for l) = Ok (Some (mkEvent l u)).
Proof.
  intros He (Ha & Ht & Hd). apply decode_routed_own.
  { destruct He as [l a ? ? ? ? ? ? ? [Hl|[Hl|Hl]]| |l a ? ? ? ? ? ? ? [Hl|[Hl|[Hl|Hl]]]|l a ? ? ? ? ? ? [Hl|[Hl|[Hl|Hl]]]| | | | |l a ? [Hl|Hl]|l a ? [Hl|Hl]]; by subst. }
  unfold decode_pool_event_with_locator. destruct He; rewrite Ht; cbn [head]; dispatch.
  all: match goal with |- context [rmap Some ?x] => enough (E : x = Ok (mkEvent _ _)) by (rewrite E; reflexivity) end.
  - unfold decode_v3_swap. destruct H0 as [->|Hl].
    + assert (algebra_hint (hint_for (AtV3 a)) (log_address log) = false) as -> by done.
      rewrite Ha. cbn [hint_for hint_allows]. rewrite bool_decide_true by done. shape Ht Hd. by rewrite (swap_words _ _ _ _ _ _ _ Hd).
    + destruct (algebra_hinted l a Hl) as [Hh ->]. rewrite Ha, Hh. shape Ht Hd. by rewrite (swap_words _ _ _ _ _ _ _ Hd).
  - unfold decode_pancake_swap. rewrite Ha. cbn [hint_for hint_allows]. rewrite bool_decide_true by done. shape Ht Hd.
    by rewrite (swap_words _ _ _ _ _ _ _ Hd).
  - unfold decode_mint. shape Ht Hd. words_at Hd. destruct (routed_v3 l a H0) as [Hr ->]. rewrite Ha, Hr. cbn [rbind].
    rewrite (proj1 (i128_amount _ _ H3)). cbn [rbind]. by rewrite !topic_i24_read.
  - unfold decode_burn. shape Ht Hd. words_at Hd. rewrite (proj1 (i128_amount _ _ H3)). cbn [rbind].
    destruct (routed_v3 l a H0) as [Hr ->]. rewrite Ha, Hr. cbn [rbind].
    rewrite (proj2 (i128_amount _ "" H3)). cbn [rbind or_err]. by rewrite !topic_i24_read.
  - unfold decode_v4_swap. shape Ht Hd. words_at Hd. done.
  - unfold decode_v4_modify_liquidity. shape Ht Hd. words_at Hd. done.
  - unfold decode_camelot_fee. rewrite Ha. cbn [hint_for]. rewrite bool_decide_true by done. shape Ht Hd. words_at Hd. done.
  - unfold decode_lynex_fee. rewrite Ha. cbn [hint_for]. rewrite bool_decide_true by done. shape Ht Hd. words_at Hd. done.
  - unfold decode_tick_spacing. destruct (algebra_hinted l a H0) as [Hh ->]. rewrite Ha, Hh. shape Ht Hd. words_at Hd. done.
  - unfold decode_incentive. destruct (algebra_hinted l a H0) as [Hh ->]. rewrite Ha, Hh. change [] with (words []) in Hd. shape Ht Hd.
    destruct (address_topic x H1) as [Hz Hv]. rewrite Hz, Hv. by rewrite bool_decide_true.
Qed.

(** ** The subscription covers every pool *)
Lemma elem_of_sorted_set l x : x ∈ sorted_set l <-> x ∈ l.
Proof. unfold sorted_set. rewrite merge_sort_Permutation, elem_of_elements. apply elem_of_list_to_set. Qed.

Lemma pool_keys_in f pools h k : h ∈ pools -> f (hp_identity h) = Some k -> k ∈ pool_keys f pools.
Proof. intros Hh Hf. unfold pool_keys. apply elem_of_sorted_set, list_elem_of_omap. by exists h. Qed.

Lemma new_filter_Ok addresses ts f : new_filter addresses ts = Ok f -> f = mkFilter addresses ts.
Proof. unfold new_filter. intros Hf. by res_inv. Qed.

Lemma provider_filter_in addresses ts fs a :
  provider_filter addresses ts = Ok fs -> a ∈ addresses -> mkFilter addresses [Some ts] ∈ fs.
Proof.
  unfold provider_filter. intros Hf Ha. case_bool_decide as E; [subst; by apply elem_of_nil in Ha|].
  res_inv. apply new_filter_Ok in Hok as ->. subst fs. apply list_elem_of_singleton. done.
Qed.

Lemma parse_managers_in pairs ms m : parse_managers pairs = Ok ms -> configured_manager pairs m -> m ∈ ms.
Proof.
  intros Hp (p & text & Hin & He & Hm & Ha). revert ms Hp. induction Hin as [p pairs|p q pairs Hin IH]; intros ms Hp; simpl in Hp.
  - rewrite He, Hm, Ha in Hp. cbn [or_err rbind] in Hp. res_inv. subst ms. apply elem_of_cons. by left.
  - case_match; [|by apply (IH He Hm)]. res_inv. subst ms. apply elem_of_cons. right. by apply (IH He Hm).
Qed.

Lemma v4_filter_in pairs ids fs m id :
  v4_filter pairs ids = Ok fs -> configured_manager pairs m -> id ∈ ids ->
  exists ms, m ∈ ms /\ mkFilter ms [Some v4_topics; Some ids] ∈ fs.
Proof.
  unfold v4_filter. intros Hf Hm Hid. case_bool_decide as E; [subst; by apply elem_of_nil in Hid|].
  res_inv. apply new_filter_Ok in Hok1 as ->. subst fs. exists x. split; [|by apply list_elem_of_singleton].
  rewrite Hok. apply elem_of_sorted_set. by apply (parse_managers_in pairs).
Qed.

Lemma matches_topic0 addresses ts a topics data log t rest :
  carries log a topics data -> topics = t :: rest -> a ∈ addresses -> t ∈ ts ->
  filter_matches (mkFilter addresses [Some ts]) log.
Proof.
  intros (Ha & Ht & _) -> Hin Hts. split; simpl; [by rewrite Ha|]. intros [|i] values Hi; [|done].
  injection Hi as <-. exists t. by rewrite Ht.
Qed.

Definition provider_topics (l : PoolLocator) : list Z :=
  match l with
  | AtV3 _ => v3_topics
  | AtPancakeV3 _ => pancake_v3_topics
  | AtCamelotV3 _ => camelot_topics
  | AtLynexAlgebraV1_9 _ => lynex_topics
  | AtV4 _ => v4_topics
  end.

Lemma emits_shape manager l u a topics data :
  emits manager l u a topics data ->
  exists t rest, topics = t :: rest /\ t ∈ provider_topics l /\
    match l with
    | AtV3 p | AtPancakeV3 p | AtCamelotV3 p | AtLynexAlgebraV1_9 p => a = p
    | AtV4 id => a = manager /\ exists more, rest = id :: more
    end.
Proof.
  assert (Hin : forall (t : Z) ts, In t ts -> t ∈ ts) by (intros; by apply list_elem_of_In).
  intros He. destruct He; unfold v3_shaped, algebra in *;
    repeat match goal with Hs : _ \/ _ |- _ => destruct Hs as [Hs|Hs] end; subst;
    (do 2 eexists; split; [reflexivity|]; split; [apply Hin; simpl; tauto|first [reflexivity|split; [reflexivity|by eexists]]]).
Qed.

Lemma provider_observes f pools ts fs h p t rest data log :
  provider_filter (pool_keys f pools) ts = Ok fs -> h ∈ pools -> f (hp_identity h) = Some p ->
  carries log p (t :: rest) data -> t ∈ ts -> exists flt, flt ∈ fs /\ filter_matches flt log.
Proof.
  intros Hf Hh Hp Hc Ht. pose proof (pool_keys_in f pools h p Hh Hp) as Hin. eexists. split.
  - by eapply provider_filter_in.
  - by eapply matches_topic0.
Qed.

Lemma emitted_filtered manager l u a topics data log pairs pools filters h :
  build_log_filters pairs pools = Ok filters -> h ∈ pools -> locator_of (hp_identity h) = l ->
  (forall id, l = AtV4 id -> configured_manager pairs manager) ->
  emits manager l u a topics data -> carries log a topics data ->
  exists f, f ∈ filters /\ filter_matches f log.
Proof.
  intros Hb Hh <- Hm He Hc. destruct (emits_shape _ _ _ _ _ _ He) as (t & rest & Ht & Hin & Ha). unfold build_log_filters in Hb.
  res_inv. remember (hp_identity h) as i eqn:Ei. destruct i as [p fee|p fee|p|p|id fee]; simpl in Hin, Ha.
  - subst a. destruct (provider_observes _ _ _ _ h p t rest data log Hok Hh (eq_sym (f_equal _ Ei)) Hc Hin) as (flt & Hf & Hflt).
    exists flt. rewrite !elem_of_app. tauto.
  - subst a. destruct (provider_observes _ _ _ _ h p t rest data log Hok0 Hh (eq_sym (f_equal _ Ei)) Hc Hin) as (flt & Hf & Hflt).
    exists flt. rewrite !elem_of_app. tauto.
  - subst a. destruct (provider_observes _ _ _ _ h p t rest data log Hok1 Hh (eq_sym (f_equal _ Ei)) Hc Hin) as (flt & Hf & Hflt).
    exists flt. rewrite !elem_of_app. tauto.
  - subst a. destruct (provider_observes _ _ _ _ h p t rest data log Hok2 Hh (eq_sym (f_equal _ Ei)) Hc Hin) as (flt & Hf & Hflt).
    exists flt. rewrite !elem_of_app. tauto.
  - destruct Ha as [-> [more ->]].
    assert (Hid : id ∈ pool_keys v4_id pools) by (eapply pool_keys_in; [exact Hh|by rewrite <- Ei]).
    destruct (v4_filter_in _ _ _ manager id Hok3 (Hm id eq_refl) Hid) as (ms & Hms & Hf).
    eexists. split; [rewrite !elem_of_app; do 4 right; exact Hf|]. destruct Hc as (Ha & Hts & _). split; simpl; [by rewrite Ha|].
    intros [|[|i]] values Hi; simpl in Hi; simplify_eq; rewrite Hts; [by exists t|by exists id].
Qed.

(** C16. Every change of a hydrated pool arrives and is understood: the update
    its contract emits passes one of the subscription's filters (a V4 event
    comes from the configured manager), and the decoder chosen for the pool
    returns exactly that update, of that pool. *)
Theorem pool_events_observed manager l u a topics data log pairs pools filters h :
  build_log_filters pairs pools = Ok filters -> h ∈ pools -> locator_of (hp_identity h) = l ->
  (forall id, l = AtV4 id -> configured_manager pairs manager) ->
  emits manager l u a topics data -> carries log a topics data ->
  (exists f, f ∈ filters /\ filter_matches f log) /\ decode_routed log (hint_for l) = Ok (Some (mkEvent l u)).
Proof.
  intros Hb Hh Hl Hm He Hc. split; [exact (emitted_filtered _ _ _ _ _ _ _ _ _ _ _ Hb Hh Hl Hm He Hc)|].
  exact (emitted_decodes _ _ _ _ _ _ _ He Hc).
Qed.
End topics.
End observed.

(** ** Decoded values have their widths *)
Definition bytes_ok (l : list Z) : Prop := Forall (uint 8) l.

Definition update_typed (u : PoolUpdate) : Prop :=
  match u with
  | Swap price tk liq fee => u256 price /\ i24 tk /\ u128 liq /\ match fee with None => True | Some f => uint 24 f end
  | Liquidity lo hi delta => i24 lo /\ i24 hi /\ i128 delta
  | Fee z o => uint 16 z /\ uint 16 o
  | TickSpacing v => i24 v
  | Incentive a => uint 160 a
  end.

Lemma be_value_bound l : bytes_ok l -> 0 <= be_value l < 256 ^ Z.of_nat (length l).
Proof.
  induction l as [|b l IH] using rev_ind; intros Hb; [split; done|].
  apply Forall_app in Hb as [Hl Hb]. rewrite Forall_singleton in Hb. specialize (IH Hl). unfold uint in Hb.
  rewrite be_value_snoc, length_app. simpl length. rewrite Nat.add_1_r, Nat2Z.inj_succ, Z.pow_succ_r by lia. change (2 ^ 8) with 256 in Hb. lia.
Qed.

Lemma be_bytes_ok n x : bytes_ok (be_bytes n x).
Proof.
  revert x. induction n as [|n IH]; intros x; [by apply Forall_nil|]. rewrite be_bytes_S. apply Forall_app. split; [apply IH|].
  apply Forall_singleton. unfold uint. apply Z.mod_pos_bound. lia.
Qed.

Lemma decode_word_ok data i w : bytes_ok data -> decode_word data i = Ok w -> bytes_ok w /\ length w = 32%nat.
Proof.
  unfold decode_word. intros Hd Hw. res_inv. apply Nat.leb_le in Hok. split; [by apply Forall_take, Forall_drop|].
  rewrite length_take, length_drop. lia.
Qed.

Lemma low_24_range w : bytes_ok w -> length w = 32%nat -> uint 24 (low_24 w).
Proof.
  intros Hw Hl. unfold low_24. pose proof (be_value_bound (take 3 (drop 29 w)) ltac:(by apply Forall_take, Forall_drop)) as Hb.
  rewrite length_take, length_drop, Hl in Hb. exact Hb.
Qed.

Lemma i24_word_range w : bytes_ok w -> length w = 32%nat -> i24 (decode_i24_word w).
Proof.
  intros Hw Hl. pose proof (low_24_range w Hw Hl) as Hr. unfold uint in Hr. unfold decode_i24_word, i24. cbv zeta.
  change 8388608 with (2 ^ 23). change (Z.lnot 16777215) with (- 2 ^ 24). rewrite land_bit by lia. rewrite testbit_23 by done.
  destruct (Z.leb_spec (2 ^ 23) (low_24 w)); simpl negb; cbv iota; [rewrite lor_high by lia; lia|lia].
Qed.

Lemma decode_u256_range data i v : bytes_ok data -> decode_u256 data i = Ok v -> u256 v.
Proof.
  unfold decode_u256. intros Hd Hv. res_inv. apply decode_word_ok in Hok as [Hw Hl]; [|done].
  try subst v. pose proof (be_value_bound x Hw) as Hb. rewrite Hl in Hb. exact Hb.
Qed.

Lemma decode_below_range w e data i v : bytes_ok data -> decode_below w e data i = Ok v -> uint w v.
Proof. unfold decode_below. intros Hd Hv. res_inv. bool_prop. apply decode_u256_range in Hok; [|done]. unfold uint in *. lia. Qed.

Lemma decode_i24_range data i v : bytes_ok data -> decode_i24 data i = Ok v -> i24 v.
Proof. unfold decode_i24. intros Hd Hv. res_inv. try subst v. apply decode_word_ok in Hok as [Hw Hl]; [|done]. by apply i24_word_range. Qed.

Lemma decode_u24_range data i v : bytes_ok data -> decode_u24 data i = Ok v -> uint 24 v.
Proof. unfold decode_u24. intros Hd Hv. res_inv. try subst v. apply decode_word_ok in Hok as [Hw Hl]; [|done]. by apply low_24_range. Qed.

Lemma topic_i24_range t : i24 (decode_topic_i24 t).
Proof. apply i24_word_range; [apply be_bytes_ok|apply be_bytes_length]. Qed.

Lemma wrap_i128_range v : i128 (wrap_i128 v).
Proof. unfold wrap_i128, i128, I128_MIN, I128_MAX. pose proof (Z.mod_pos_bound (v + 2 ^ 127) (2 ^ 128)). lia. Qed.

Lemma decode_i128_range data i v : decode_i256_as_i128 data i = Ok v -> i128 v.
Proof. unfold decode_i256_as_i128. intros Hv. res_inv. try subst v. apply wrap_i128_range. Qed.

Lemma decode_swap_typed l u : bytes_ok (log_data l) -> decode_swap l = Ok u -> update_typed u.
Proof.
  unfold decode_swap, decode_u128. intros Hb Hu. res_inv. try subst u.
  split; [by eapply decode_u256_range|]. split; [by eapply decode_i24_range|]. split; [by eapply decode_below_range|done].
Qed.

(** ** What a decoded event says about its log *)
Section sound.
Context `{EvmText}.

(** The locator is the pool at the log's own address, by the provider it was
    routed to (an unrouted log is never an Algebra pool's), or the V4 pool its
    second topic names. *)
Definition located (log : ChainLog) (hint : option PoolLocator) (l : PoolLocator) : Prop :=
  match l with
  | AtV4 id => log_topics log !! 1%nat = Some id
  | _ => v3_shaped l (log_address log) /\
      (hint = Some l \/ (hint = None /\ (l = AtV3 (log_address log) \/ l = AtPancakeV3 (log_address log))))
  end.

(** Only V4 swaps carry a fee; only Algebra pools change their fee, spacing or
    incentive, and a Lynex fee is the same in both directions. *)
Definition update_fits (l : PoolLocator) (u : PoolUpdate) : Prop :=
  match u with
  | Swap _ _ _ fee => is_Some fee <-> exists id, l = AtV4 id
  | Liquidity _ _ _ => True
  | Fee z o => match l with AtCamelotV3 _ => True | AtLynexAlgebraV1_9 _ => z = o | _ => False end
  | TickSpacing _ | Incentive _ => exists a, algebra l a
  end.

Record event_sound (log : ChainLog) (hint : option PoolLocator) (ev : DecodedPoolEvent) : Prop := {
  es_typed : update_typed (ev_update ev);
  es_located : located log hint (ev_locator ev);
  es_fits : update_fits (ev_locator ev) (ev_update ev);
}.

Lemma swap_without_fee log u : decode_swap log = Ok u -> exists price tk liq, u = Swap price tk liq None.
Proof. unfold decode_swap. intros Hu. res_inv. by do 3 eexists. Qed.

Lemma swap_fits l u log : decode_swap log = Ok u -> (forall id, l <> AtV4 id) -> update_fits l u.
Proof.
  intros Hu Hl. apply swap_without_fee in Hu as (p & t & q & ->). simpl. split; [by intros [? ?]|]. intros [id E]. by destruct (Hl id).
Qed.

Lemma algebra_hint_inv hint a : algebra_hint hint a = true -> exists l, hint = Some l /\ algebra l a.
Proof. unfold algebra_hint. intros Hh. bool_prop. destruct Hh as [Hh|Hh]; bool_prop; subst; eexists; split; [done|by left|done|by right]. Qed.

Lemma hint_allows_inv hint l : hint_allows hint l = true -> hint = Some l \/ hint = None.
Proof. destruct hint; simpl; intros Hh; bool_prop; [left; by subst|by right]. Qed.

Lemma algebra_located log l : algebra l (log_address log) -> located log (Some l) l /\ (forall id, l <> AtV4 id).
Proof. unfold located, v3_shaped. intros [->| ->]; (split; [split; [tauto|by left]|done]). Qed.

Lemma routed_located log hint l :
  routed_v3_locator (log_address log) hint = Ok l -> located log hint l /\ (forall id, l <> AtV4 id).
Proof.
  unfold routed_v3_locator. intros Hr. res_inv. unfold located, v3_shaped.
  destruct hint as [[a|a|a|a|id]|]; simpl in *; bool_prop; try done; subst; (split; [|done]); split; tauto.
Qed.

Lemma topic_at_1 log : topic_count log 3 = true -> log_topics log !! 1%nat = Some (topic_at log 1).
Proof.
  unfold topic_count, topic_at. intros Hc. apply Nat.eqb_eq in Hc.
  destruct (log_topics log !! 1%nat) eqn:E; [done|]. apply lookup_ge_None in E. lia.
Qed.

Lemma amount_range v e w : i128_try_from v e = Ok w -> 0 <= v -> i128 w /\ w = v.
Proof. unfold i128_try_from. intros Hv Hp. res_inv. bool_prop. subst. unfold i128, I128_MIN in *. split; [lia|done]. Qed.

Lemma v3_swap_sound log hint ev : bytes_ok (log_data log) -> decode_v3_swap log hint = Ok ev -> event_sound log hint ev.
Proof.
  unfold decode_v3_swap. intros Hb He. destruct (algebra_hint hint _) eqn:Eh.
  - apply algebra_hint_inv in Eh as (l & -> & Hl). destruct (algebra_located log l Hl) as [Hloc Hn]. res_inv. subst ev.
    split; simpl; [by eapply decode_swap_typed|done|by eapply swap_fits].
  - res_inv. subst ev. apply hint_allows_inv in Hok. split; simpl; [by eapply decode_swap_typed| |by eapply swap_fits].
    split; [by left|]. destruct Hok; tauto.
Qed.

Lemma pancake_swap_sound log hint ev : bytes_ok (log_data log) -> decode_pancake_swap log hint = Ok ev -> event_sound log hint ev.
Proof.
  unfold decode_pancake_swap. intros Hb He. res_inv. subst ev. apply hint_allows_inv in Hok.
  split; simpl; [by eapply decode_swap_typed| |by eapply swap_fits]. split; [right; by left|]. destruct Hok; tauto.
Qed.

Lemma mint_sound log hint ev : bytes_ok (log_data log) -> decode_mint log hint = Ok ev -> event_sound log hint ev.
Proof.
  unfold decode_mint. intros Hb He. res_inv. apply decode_below_range in Hok1; [|done]. destruct Hok1 as [Hp _].
  apply amount_range in Hok3 as [Hi _]; [|done]. apply routed_located in Hok2 as [Hl _]. split; simpl; [|done|done].
  split; [apply topic_i24_range|]. split; [apply topic_i24_range|done].
Qed.

Lemma burn_sound log hint ev : bytes_ok (log_data log) -> decode_burn log hint = Ok ev -> event_sound log hint ev.
Proof.
  unfold decode_burn. intros Hb He. res_inv. apply routed_located in Hok3 as [Hl _]. apply i128_checked_Some in Hok4 as [-> Hi].
  split; simpl; [|done|done]. split; [apply topic_i24_range|]. split; [apply topic_i24_range|done].
Qed.

Lemma v4_swap_sound log hint ev : bytes_ok (log_data log) -> decode_v4_swap log = Ok ev -> event_sound log hint ev.
Proof.
  unfold decode_v4_swap. intros Hb He. res_inv. split; simpl; [|by apply topic_at_1|].
  - split; [by eapply decode_u256_range|]. split; [by eapply decode_i24_range|]. split; [by eapply decode_below_range|by eapply decode_u24_range].
  - split; [by eexists|done].
Qed.

Lemma v4_liquidity_sound log hint ev : bytes_ok (log_data log) -> decode_v4_modify_liquidity log = Ok ev -> event_sound log hint ev.
Proof.
  unfold decode_v4_modify_liquidity. intros Hb He. res_inv. split; simpl; [|by apply topic_at_1|done].
  split; [by eapply decode_i24_range|]. split; [by eapply decode_i24_range|by eapply decode_i128_range].
Qed.

Lemma fee_sound log hint ev :
  bytes_ok (log_data log) -> decode_camelot_fee log hint = Ok ev \/ decode_lynex_fee log hint = Ok ev -> event_sound log hint ev.
Proof.
  intros Hb [He|He]; [unfold decode_camelot_fee in He|unfold decode_lynex_fee in He]; res_inv; bool_prop; subst hint;
    (split; simpl; [split; by eapply decode_below_range| |done]); unfold v3_shaped; (split; [tauto|by left]).
Qed.

Lemma admin_sound log hint ev :
  bytes_ok (log_data log) -> decode_tick_spacing log hint = Ok ev \/ decode_incentive log hint = Ok ev -> event_sound log hint ev.
Proof.
  intros Hb [He|He]; [unfold decode_tick_spacing in He|unfold decode_incentive in He]; res_inv;
    apply algebra_hint_inv in Hok as (l & -> & Hl); destruct (algebra_located log l Hl) as [Hloc _];
    (split; simpl; [|exact Hloc|by exists (log_address log)]).
  - by eapply decode_i24_range.
  - unfold uint. pose proof (be_value_bound (drop 12 (topic_bytes (topic_at log 1))) ltac:(apply Forall_drop, be_bytes_ok)) as Hv.
    rewrite length_drop in Hv. unfold topic_bytes in *. rewrite be_bytes_length in Hv. exact Hv.
Qed.

Lemma decode_sound log hint ev :
  bytes_ok (log_data log) -> decode_pool_event_with_locator log hint = Ok (Some ev) -> event_sound log hint ev.
Proof.
  intros Hb He. unfold decode_pool_event_with_locator in He. destruct (head (log_topics log)) as [s|]; [|done].
  repeat (match type of He with context [if ?b then _ else _] => destruct b end;
    [apply rmap_Ok in He as (x & Hx & E); injection E as <-; first
      [by apply v3_swap_sound|by apply pancake_swap_sound|by apply mint_sound|by apply burn_sound|by apply v4_swap_sound
      |by apply v4_liquidity_sound|apply fee_sound; tauto|apply admin_sound; tauto]|]).
  done.
Qed.

(** What a decoded event says is true of its log: every value has the width
    of its type, the pool is the one at the log's address under the provider the
    log was routed to (or the V4 pool the log names), and an update is only
    reported for a provider that has it. *)
Theorem decoded_event_sound log hint ev :
  bytes_ok (log_data log) -> decode_routed log hint = Ok (Some ev) -> event_sound log hint ev.
Proof.
  intros Hb He. unfold decode_routed in He. destruct hint as [[a|a|a|a|id]|]; try by apply decode_sound.
  - unfold decode_camelot_pool_event in He. apply rbind_Ok in He as (? & Ha & He). apply ensure_Ok in Ha. apply Z.eqb_eq in Ha as <-.
    case_bool_decide; [|by apply decode_sound]. res_inv. injection He as ->.
    split; simpl; [by eapply decode_swap_typed|exact (proj1 (algebra_located log (AtCamelotV3 (log_address log)) (or_introl eq_refl)))|by eapply swap_fits].
  - unfold decode_lynex_algebra_v1_9_pool_event in He. apply rbind_Ok in He as (? & _ & He). by apply decode_sound.
Qed.
End sound.
