(* ===== verification/Mirror.v ===== *)
(** * The pool mirror ([src/src/dex/mirror.rs])

    [DexMirror]: the hydrated pools with their indices, the positional frontier
    of each pool, the canonical head and its recent timestamps.  Logs, fee
    receipts and heads are applied to it in canonical order; anything that does
    not fit ends in an error that makes the process rehydrate.  The iteration
    order of a [HashMap] is a parameter. *)
From Stdlib Require Import Lia.
From stdpp Require Import base strings numbers list option gmap fin_maps countable.
From S2P Require Import Prelude ExecutionPlan Clmm ClmmTicks ClmmCurve TradeData RuntimeState AdaptiveFee FeeProjection HydratedPools PlanBuild Events EventFacts.

#[global] Instance PoolLocator_countable : Countable PoolLocator.
Proof.
  refine (inj_countable'
    (fun l => match l with AtV3 a => (0, a) | AtPancakeV3 a => (1, a) | AtCamelotV3 a => (2, a)
                         | AtLynexAlgebraV1_9 a => (3, a) | AtV4 a => (4, a) end)
    (fun '(k, a) => if k =? 0 then AtV3 a else if k =? 1 then AtPancakeV3 a else if k =? 2 then AtCamelotV3 a
                    else if k =? 3 then AtLynexAlgebraV1_9 a else AtV4 a) _).
  by intros [].
Defined.

Definition RECENT_CANONICAL_TIMESTAMPS : nat := 128.

Record CanonicalBlock := mkBlock { cb_number : Z; cb_hash : Z; cb_parent_hash : Z }.

Inductive UnavailableReason := NotCreated | Uninitialized | ZeroLiquidity.
Record UnavailablePool := mkUnavailable {
  up_pair_id : string; up_protocol : DexProvider; up_fee_pips : option Z; up_address : option Z; up_pool_id : option Z;
  up_reason : UnavailableReason;
}.
Record HydratedDexState := mkHydratedState {
  hd_block : CanonicalBlock; hd_pools : list HydratedPool; hd_unavailable : list UnavailablePool;
}.

(** The five [*_indices] maps. *)
Record PoolIndices := mkIndices {
  v3_indices : gmap Z nat;
  pancake_v3_indices : gmap Z nat;
  camelot_v3_indices : gmap Z nat;
  lynex_algebra_v1_9_indices : gmap Z nat;
  v4_indices : gmap Z nat;
}.

Record PendingAdaptiveFee := mkPendingFee { pa_position : LogPosition; pa_block_timestamp : Z }.

Inductive LogApplyResult := Applied (pool_index : nat) (kind : string) (refresh_required : bool) | Duplicate | UnknownPool.
Inductive LogOrigin := CanonicalStream | ReceiptSettlement.
Record HeadApplyResult := mkHeadApply { ha_advanced : bool; ha_refresh_pool_index : option nat }.

Record DexMirror := mkMirror {
  dm_pools : list HydratedPool;
  dm_unavailable : list UnavailablePool;
  dm_indices : PoolIndices;
  last_positions : gmap PoolLocator LogPosition;
  last_block_hashes : gmap PoolLocator Z;
  pending_adaptive_fees : list (option PendingAdaptiveFee);
  backfilled_through : Z;
  backfill_complete : bool;
  latest_head : CanonicalBlock;
  latest_head_timestamp : option Z;
  recent_head_timestamps : list (Z * Z * Z);
  latest_head_received_at : Z;
}.

(** ** Indices *)
Definition pool_index_of (ix : PoolIndices) (l : PoolLocator) : option nat :=
  match l with
  | AtV3 a => v3_indices ix !! a
  | AtPancakeV3 a => pancake_v3_indices ix !! a
  | AtCamelotV3 a => camelot_v3_indices ix !! a
  | AtLynexAlgebraV1_9 a => lynex_algebra_v1_9_indices ix !! a
  | AtV4 id => v4_indices ix !! id
  end.

Definition insert_index (ix : PoolIndices) (l : PoolLocator) (k : nat) : PoolIndices :=
  let '(mkIndices v3 pc cm lx v4) := ix in
  match l with
  | AtV3 a => mkIndices (<[a := k]> v3) pc cm lx v4
  | AtPancakeV3 a => mkIndices v3 (<[a := k]> pc) cm lx v4
  | AtCamelotV3 a => mkIndices v3 pc (<[a := k]> cm) lx v4
  | AtLynexAlgebraV1_9 a => mkIndices v3 pc cm (<[a := k]> lx) v4
  | AtV4 id => mkIndices v3 pc cm lx (<[id := k]> v4)
  end.

Fixpoint index_pools (k : nat) (pools : list HydratedPool) (ix : PoolIndices) : CRes PoolIndices :=
  match pools with
  | [] => Ok ix
  | h :: rest =>
      let l := locator_of (hp_identity h) in
      ensure! bool_decide (pool_index_of ix l = None) else CMsg "duplicate hydrated pool identity" ;;
      index_pools (S k) rest (insert_index ix l k)
  end.

(** The provider an address is registered for, in the order of the lookups. *)
Definition locator_hint (ix : PoolIndices) (a : Z) : option PoolLocator :=
  if bool_decide (is_Some (v3_indices ix !! a)) then Some (AtV3 a)
  else if bool_decide (is_Some (pancake_v3_indices ix !! a)) then Some (AtPancakeV3 a)
  else if bool_decide (is_Some (camelot_v3_indices ix !! a)) then Some (AtCamelotV3 a)
  else if bool_decide (is_Some (lynex_algebra_v1_9_indices ix !! a)) then Some (AtLynexAlgebraV1_9 a)
  else None.

Definition is_algebra (l : PoolLocator) : bool := match l with AtCamelotV3 _ | AtLynexAlgebraV1_9 _ => true | _ => false end.
Definition is_adaptive_algebra_address (m : DexMirror) (a : Z) : bool :=
  bool_decide (is_Some (camelot_v3_indices (dm_indices m) !! a))
  || bool_decide (is_Some (lynex_algebra_v1_9_indices (dm_indices m) !! a)).
Definition has_adaptive_algebra_pools (m : DexMirror) : bool :=
  negb (bool_decide (camelot_v3_indices (dm_indices m) = ∅)) || negb (bool_decide (lynex_algebra_v1_9_indices (dm_indices m) = ∅)).

(** ** Start *)
Definition pool_head_timestamp (h : HydratedPool) : option Z := head_timestamp ∘ fst <$> adaptive_state h.

Definition new_mirror (hydrated : HydratedDexState) (now : Z) : CRes DexMirror :=
  let? ix := index_pools 0 (hd_pools hydrated) (mkIndices ∅ ∅ ∅ ∅ ∅) in
  let timestamps := omap pool_head_timestamp (hd_pools hydrated) in
  let latest := head timestamps in
  ensure! forallb (fun t => bool_decide (Some t = latest)) (tail timestamps)
    else CMsg "hydrated adaptive Algebra pools disagree on canonical head timestamp" ;;
  Ok (mkMirror (hd_pools hydrated) (hd_unavailable hydrated) ix ∅ ∅ (replicate (length (hd_pools hydrated)) None)
        (cb_number (hd_block hydrated)) false (hd_block hydrated) latest
        (match latest with Some t => [(cb_number (hd_block hydrated), cb_hash (hd_block hydrated), t)] | None => [] end) now).

(** ** Parts of the state *)
Definition with_pools_pending (m : DexMirror) (pools : list HydratedPool) (pending : list (option PendingAdaptiveFee)) : DexMirror :=
  mkMirror pools (dm_unavailable m) (dm_indices m) (last_positions m) (last_block_hashes m) pending (backfilled_through m)
    (backfill_complete m) (latest_head m) (latest_head_timestamp m) (recent_head_timestamps m) (latest_head_received_at m).
Definition with_frontier (m : DexMirror) (l : PoolLocator) (p : LogPosition) (hash : Z) : DexMirror :=
  mkMirror (dm_pools m) (dm_unavailable m) (dm_indices m) (<[l := p]> (last_positions m)) (<[l := hash]> (last_block_hashes m))
    (pending_adaptive_fees m) (backfilled_through m) (backfill_complete m) (latest_head m) (latest_head_timestamp m)
    (recent_head_timestamps m) (latest_head_received_at m).
Definition with_canonical (m : DexMirror) (through : Z) (complete : bool) (head : CanonicalBlock) (timestamp : option Z)
    (recent : list (Z * Z * Z)) (received_at : Z) : DexMirror :=
  mkMirror (dm_pools m) (dm_unavailable m) (dm_indices m) (last_positions m) (last_block_hashes m) (pending_adaptive_fees m)
    through complete head timestamp recent received_at.

(** Indexing outside the vectors panics. *)
Definition on_hydrated {A} (i : nat) (f : M HydratedPool ClmmError A) : M DexMirror ClmmError A := fun m =>
  match dm_pools m !! i with
  | None => (m, Err (CMsg "index out of bounds"))
  | Some h => let '(h', r) := f h in (with_pools_pending m (<[i := h']> (dm_pools m)) (pending_adaptive_fees m), r)
  end.
Definition set_pending_fee (i : nat) (p : option PendingAdaptiveFee) : M DexMirror ClmmError unit := fun m =>
  (with_pools_pending m (dm_pools m) (<[i := p]> (pending_adaptive_fees m)), Ok tt).
Definition pending_fee (i : nat) : M DexMirror ClmmError (option PendingAdaptiveFee) := fun m =>
  (m, or_err (pending_adaptive_fees m !! i) (CMsg "index out of bounds")).

(** ** The adaptive state of a pool *)
Definition fee_state (l : PoolLocator) (h : HydratedPool) : CRes FeeProjectionState :=
  match l with
  | AtCamelotV3 _ => rmap cf_state (or_err (hp_camelot_fee h) (CMsg "Camelot hydrated fee state is missing"))
  | _ => rmap lf_state (or_err (hp_lynex_fee h) (CMsg "Lynex hydrated fee state is missing"))
  end.

Definition on_fee_state (l : PoolLocator) (step : FeeProjectionState -> Step) : M HydratedPool ClmmError unit := fun h =>
  match l with
  | AtCamelotV3 _ =>
      match hp_camelot_fee h with
      | None => (h, Err (CMsg "Camelot hydrated fee state is missing"))
      | Some fee => let '(st, r) := step (cf_state fee) in (with_camelot h (mkCamelotFee (cf_operator fee) st (cf_envelope fee)), lift_fee r)
      end
  | _ =>
      match hp_lynex_fee h with
      | None => (h, Err (CMsg "Lynex hydrated fee state is missing"))
      | Some fee => let '(st, r) := step (lf_state fee) in (with_lynex h (mkLynexFee (lf_operator fee) st (lf_envelope fee)), lift_fee r)
      end
  end.

(** Whatever the outcome, a pending fee is consumed. *)
Definition validate_adaptive_timepoint_link (pending : option PendingAdaptiveFee) (log : ChainLog)
    (timestamp latest_timestamp : Z) (action_writes_timepoint : bool) : option PendingAdaptiveFee * CRes unit :=
  match pending with
  | None =>
      (None,
       if action_writes_timepoint
       then ensure (latest_timestamp =? timestamp) (CMsg "adaptive Algebra pool action is missing its preceding Fee event")
       else ensure (latest_timestamp <=? timestamp) (CMsg "adaptive Algebra pool action timestamp precedes latest timepoint"))
  | Some fee =>
      (None,
       let? _ := ensure (action_writes_timepoint && (pa_block_timestamp fee =? timestamp)
                         && (lp_block_number (pa_position fee) =? log_block_number log)
                         && (lp_transaction_index (pa_position fee) =? log_transaction_index log)
                         && position_lt (pa_position fee) (log_position log))
                   (CMsg "adaptive Algebra Fee is not positionally linked to its pool action") in
       ensure (latest_timestamp =? timestamp) (CMsg "adaptive Algebra Fee did not install the action timepoint"))
  end.

Definition link_timepoint (i : nat) (log : ChainLog) (timestamp latest_timestamp : Z) (writes : bool) : M DexMirror ClmmError unit :=
  do pending <- pending_fee i ;;
  let '(pending', r) := validate_adaptive_timepoint_link pending log timestamp latest_timestamp writes in
  do! set_pending_fee i pending' ;;
  mlift r.

Definition hydrated_at (i : nat) : M DexMirror ClmmError HydratedPool := fun m =>
  (m, or_err (dm_pools m !! i) (CMsg "index out of bounds")).

(** ** One decoded event on the pool [i] *)
Definition apply_swap_update (i : nat) (l : PoolLocator) (log : ChainLog) (block_timestamp : option Z)
    (price tk liq : Z) (fee : option Z) : M DexMirror ClmmError unit :=
  do h <- hydrated_at i ;;
  do! mlift (match fee with
             | None => Ok tt
             | Some f => ensure (f =? fee_pips (hp_pool h)) (CMsg "V4 Swap fee differs from hydrated static fee")
             end) ;;
  if is_algebra l then
    do timestamp <- mlift (or_err block_timestamp (CMsg "adaptive Algebra log has no canonical block timestamp")) ;;
    let '(amount0, amount1) := decode_camelot_v3_swap_amounts_after_event_validation log in
    do state <- mlift (fee_state l h) ;;
    do! link_timepoint i log timestamp (latest_timepoint_timestamp state) true ;;
    do! on_hydrated i (on_pool (apply_swap_head price tk liq)) ;;
    on_hydrated i (on_fee_state l (fun st => apply_swap_after_timepoint_validation st timestamp amount0 amount1 tk liq))
  else on_hydrated i (on_pool (apply_swap_head price tk liq)).

Definition apply_liquidity_update (i : nat) (l : PoolLocator) (log : ChainLog) (block_timestamp : option Z)
    (lower upper delta : Z) : M DexMirror ClmmError unit :=
  if is_algebra l then
    do h <- hydrated_at i ;;
    do timestamp <- mlift (or_err block_timestamp (CMsg "adaptive Algebra log has no canonical block timestamp")) ;;
    let active := negb (delta =? 0) && (lower <=? Clmm.tick (hp_pool h)) && (Clmm.tick (hp_pool h) <? upper) in
    do state <- mlift (fee_state l h) ;;
    do! link_timepoint i log timestamp (latest_timepoint_timestamp state) active ;;
    do! on_hydrated i (on_pool (apply_liquidity_delta lower upper delta)) ;;
    if active then
      do h' <- hydrated_at i ;;
      on_hydrated i (on_fee_state l (fun st => apply_liquidity_head st timestamp (Clmm.tick (hp_pool h')) (Clmm.liquidity (hp_pool h'))))
    else mret tt
  else on_hydrated i (on_pool (apply_liquidity_delta lower upper delta)).

Definition apply_fee_update (i : nat) (l : PoolLocator) (log : ChainLog) (block_timestamp : option Z)
    (zto otz : Z) : M DexMirror ClmmError unit :=
  do! mlift (ensure (is_algebra l) (CMsg "adaptive Algebra Fee was routed to another provider")) ;;
  do! mlift (ensure (match l with AtLynexAlgebraV1_9 _ => zto =? otz | _ => true end)
               (CMsg "Lynex single-fee event became directional")) ;;
  do pending <- pending_fee i ;;
  do! mlift (ensure (bool_decide (pending = None)) (CMsg "adaptive Algebra Fee was not consumed by the preceding pool action")) ;;
  do timestamp <- mlift (or_err block_timestamp (CMsg "adaptive Algebra log has no canonical block timestamp")) ;;
  do! on_hydrated i (on_fee_state l (fun st => apply_fee_timepoint st timestamp (mkFees zto otz))) ;;
  set_pending_fee i (Some (mkPendingFee (log_position log) timestamp)).

(** Whether the pool's curves need a rebuild. *)
Definition apply_update (i : nat) (ev : DecodedPoolEvent) (log : ChainLog) (block_timestamp : option Z) : M DexMirror ClmmError bool :=
  match ev_update ev with
  | Swap price tk liq fee => do! apply_swap_update i (ev_locator ev) log block_timestamp price tk liq fee ;; mret true
  | Liquidity lower upper delta => do! apply_liquidity_update i (ev_locator ev) log block_timestamp lower upper delta ;; mret true
  | Fee zto otz => do! apply_fee_update i (ev_locator ev) log block_timestamp zto otz ;; mret false
  | TickSpacing _ => mfail (CMsg "Algebra TickSpacing changed; pinned rehydration required")
  | Incentive _ => mfail (CMsg "Algebra Incentive changed; pinned rehydration required")
  end.

Definition record_position (l : PoolLocator) (p : LogPosition) (hash : Z) : M DexMirror ClmmError unit := fun m =>
  (with_frontier m l p hash, Ok tt).

(** The checks of a log against the canonical head. *)
Definition check_canonical (m : DexMirror) (number hash : Z) (before differs : string) : CRes unit :=
  if backfill_complete m then
    ensure! number <=? cb_number (latest_head m) else CMsg before ;;
    ensure! negb (number =? cb_number (latest_head m)) || (hash =? cb_hash (latest_head m)) else CMsg differs ;;
    Ok tt
  else Ok tt.

(** Whether the frontier already covers a position: [Some Duplicate], nothing,
    or an error. *)
Definition check_frontier (m : DexMirror) (l : PoolLocator) (p : LogPosition) (hash : Z) : CRes (option LogApplyResult) :=
  match last_positions m !! l with
  | None => Ok None
  | Some position =>
      if bool_decide (p = position) then
        ensure! negb (is_algebra l) || bool_decide (last_block_hashes m !! l = Some hash)
          else CMsg "duplicate pool position changed block hash; rehydration required" ;;
        Ok (Some Duplicate)
      else if position_lt p position && negb (is_algebra l) then Ok (Some Duplicate)
      else
        ensure! position_lt position p else CMsg "canonical pool event arrived out of order; rehydration required" ;;
        Ok None
  end.

Section apply.
Context `{EvmText}.

Definition is_swap (u : PoolUpdate) : bool := match u with Swap _ _ _ _ => true | _ => false end.
Definition is_receipt (o : LogOrigin) : bool := match o with ReceiptSettlement => true | CanonicalStream => false end.

Definition apply_log_inner (log : ChainLog) (block_timestamp : option Z) (origin : LogOrigin) : M DexMirror ClmmError LogApplyResult :=
  do m <- mget ;;
  do! mlift (ensure (negb (log_removed log)) (CMsg "received removed log; rehydration required")) ;;
  do! mlift (if is_receipt origin then Ok tt
             else check_canonical m (log_block_number log) (log_block_hash log) "pool log arrived before its canonical head"
                    "pool log block hash differs from canonical head") ;;
  if log_block_number log <=? backfilled_through m then mret Duplicate else
  do decoded <- mlift (lift_fee (decode_routed log (locator_hint (dm_indices m) (log_address log)))) ;;
  match decoded with
  | None => mret UnknownPool
  | Some event =>
      do! mlift (ensure (negb (is_receipt origin) || is_swap (ev_update event)) (CMsg "receipt settlement event is not a Swap")) ;;
      do seen <- mlift (check_frontier m (ev_locator event) (log_position log) (log_block_hash log)) ;;
      match seen with
      | Some result => mret result
      | None =>
          match pool_index_of (dm_indices m) (ev_locator event) with
          | None => mret UnknownPool
          | Some i =>
              do refresh_required <- apply_update i event log block_timestamp ;;
              do! record_position (ev_locator event) (log_position log) (log_block_hash log) ;;
              mret (Applied i (event_kind event) refresh_required)
          end
      end
  end.

Definition apply_log (log : ChainLog) : M DexMirror ClmmError LogApplyResult :=
  do m <- mget ;;
  do! mlift (ensure (negb (is_adaptive_algebra_address m (log_address log)))
               (CMsg "adaptive Algebra log requires its canonical block timestamp")) ;;
  apply_log_inner log None CanonicalStream.
Definition apply_log_at_timestamp (log : ChainLog) (block_timestamp : Z) : M DexMirror ClmmError LogApplyResult :=
  apply_log_inner log (Some block_timestamp) CanonicalStream.
Definition apply_static_fee_receipt_log (log : ChainLog) : M DexMirror ClmmError LogApplyResult :=
  do m <- mget ;;
  do! mlift (ensure (negb (is_adaptive_algebra_address m (log_address log)))
               (CMsg "adaptive Algebra receipt requires its canonical Fee and block timestamp")) ;;
  apply_log_inner log None ReceiptSettlement.
End apply.

(** ** Fee receipts: the two provider methods differ in the proof they take *)
Definition proof_locator (p : AdaptiveFeeReceiptProof) : PoolLocator :=
  match p with CamelotProof pool _ _ _ _ _ _ => AtCamelotV3 pool | LynexProof pool _ _ _ _ _ => AtLynexAlgebraV1_9 pool end.
Definition proof_fees (p : AdaptiveFeeReceiptProof) : DirectionalFees :=
  match p with CamelotProof _ z o _ _ _ _ => mkFees z o | LynexProof _ f _ _ _ _ => mkFees f f end.
Definition proof_block_number (p : AdaptiveFeeReceiptProof) : Z :=
  match p with CamelotProof _ _ _ n _ _ _ | LynexProof _ _ n _ _ _ => n end.
Definition proof_block_hash (p : AdaptiveFeeReceiptProof) : Z :=
  match p with CamelotProof _ _ _ _ h _ _ | LynexProof _ _ _ h _ _ => h end.

Definition apply_fee_receipt (proof : AdaptiveFeeReceiptProof) (block_timestamp : Z) : M DexMirror ClmmError LogApplyResult :=
  do m <- mget ;;
  do! mlift (check_canonical m (proof_block_number proof) (proof_block_hash proof) "receipt Fee arrived before its canonical head"
               "receipt Fee block hash differs from canonical head") ;;
  if proof_block_number proof <=? backfilled_through m then mret Duplicate else
  let locator := proof_locator proof in
  match pool_index_of (dm_indices m) locator with
  | None => mret UnknownPool
  | Some i =>
      do seen <- mlift (check_frontier m locator (proof_position proof) (proof_block_hash proof)) ;;
      match seen with
      | Some result => mret result
      | None =>
          do pending <- pending_fee i ;;
          do! mlift (ensure (bool_decide (pending = None)) (CMsg "adaptive Algebra Fee was not consumed by the preceding pool action")) ;;
          do! on_hydrated i (on_fee_state locator (fun st => apply_fee_timepoint st block_timestamp (proof_fees proof))) ;;
          do! set_pending_fee i (Some (mkPendingFee (proof_position proof) block_timestamp)) ;;
          do! record_position locator (proof_position proof) (proof_block_hash proof) ;;
          mret (Applied i "fee" false)
      end
  end.

(** ** Heads *)
Definition record_canonical_timestamp (head : CanonicalBlock) (timestamp : Z) : M DexMirror ClmmError unit := fun m =>
  match list.last (recent_head_timestamps m) with
  | Some (number, hash, existing) =>
      if number =? cb_number head then
        (m, ensure ((hash =? cb_hash head) && (existing =? timestamp)) (CMsg "cached canonical head changed hash or timestamp"))
      else
        let recent := recent_head_timestamps m ++ [(cb_number head, cb_hash head, timestamp)] in
        (with_canonical m (backfilled_through m) (backfill_complete m) (latest_head m) (latest_head_timestamp m)
           (if (RECENT_CANONICAL_TIMESTAMPS <? length recent)%nat then tail recent else recent) (latest_head_received_at m), Ok tt)
  | None =>
      (with_canonical m (backfilled_through m) (backfill_complete m) (latest_head m) (latest_head_timestamp m)
         [(cb_number head, cb_hash head, timestamp)] (latest_head_received_at m), Ok tt)
  end.

Definition canonical_timestamp_for_log (m : DexMirror) (log : ChainLog) : option Z :=
  (snd <$> List.find (fun '(number, hash, _) => (number =? log_block_number log) && (hash =? log_block_hash log))
             (rev (recent_head_timestamps m))).

(** The head's timestamp on one pool; whether its envelope changed. *)
Definition advance_pool (timestamp : Z) : M HydratedPool ClmmError bool :=
  do h <- mget ;;
  do! match hp_camelot_fee h with
      | Some _ => on_fee_state (AtCamelotV3 0) (fun st => advance_head st timestamp)
      | None =>
          match hp_lynex_fee h with
          | Some _ => on_fee_state (AtLynexAlgebraV1_9 0) (fun st => advance_head st timestamp)
          | None => mfail (CMsg "adaptive Algebra hydrated fee state is missing")
          end
      end ;;
  refresh_adaptive_algebra_envelope.

Fixpoint refresh_heads (order : list nat) (timestamp : Z) (changed : option nat) : M DexMirror ClmmError (option nat) :=
  match order with
  | [] => mret changed
  | i :: rest =>
      do refreshed <- on_hydrated i (advance_pool timestamp) ;;
      if refreshed then
        do! mlift (ensure (bool_decide (changed = None)) (CMsg "one head changed multiple adaptive Algebra fee envelopes")) ;;
        refresh_heads rest timestamp (Some i)
      else refresh_heads rest timestamp changed
  end.

Section heads.
(** The order in which the two index maps are iterated. *)
Variable head_order : PoolIndices -> list nat.

Definition refresh_adaptive_algebra_heads (timestamp : Z) : M DexMirror ClmmError (option nat) :=
  do m <- mget ;;
  refresh_heads (head_order (dm_indices m)) timestamp None.

Definition put_head (through : Z) (complete : bool) (head : CanonicalBlock) (timestamp : option Z) (received_at : Z)
  : M DexMirror ClmmError unit := fun m =>
  (with_canonical m through complete head timestamp (recent_head_timestamps m) received_at, Ok tt).

Definition finish_backfill_at (head : CanonicalBlock) (timestamp : option Z) (now : Z) : M DexMirror ClmmError unit :=
  do m <- mget ;;
  do! mlift (ensure (cb_number (latest_head m) <=? cb_number head) (CMsg "backfill head predates hydration block")) ;;
  do! mlift (ensure (forallb (fun p => bool_decide (p = None)) (pending_adaptive_fees m))
               (CMsg "backfill ended with an unconsumed Camelot Fee")) ;;
  do! put_head (cb_number head) true head (latest_head_timestamp m) now ;;
  if has_adaptive_algebra_pools m then
    do! put_head (cb_number head) true head timestamp now ;;
    do t <- mlift (or_err timestamp (CMsg "adaptive Algebra backfill head timestamp is missing")) ;;
    do! record_canonical_timestamp head t ;;
    do changed <- refresh_adaptive_algebra_heads t ;;
    mret tt
  else mret tt.

Definition finish_backfill (head : CanonicalBlock) (now : Z) : M DexMirror ClmmError unit :=
  do m <- mget ;;
  do! mlift (ensure (negb (has_adaptive_algebra_pools m)) (CMsg "adaptive Algebra backfill requires the canonical head timestamp")) ;;
  finish_backfill_at head None now.

Definition unchanged_head : HeadApplyResult := mkHeadApply false None.

Definition apply_head_at (head : CanonicalBlock) (timestamp : option Z) (received_at : Z) : M DexMirror ClmmError HeadApplyResult :=
  do m <- mget ;;
  if cb_number head <? cb_number (latest_head m) then mret unchanged_head else
  if cb_number head =? cb_number (latest_head m) then
    do! mlift (ensure (cb_hash head =? cb_hash (latest_head m)) (CMsg "same-height World Chain head changed; rehydration required")) ;;
    do! (if has_adaptive_algebra_pools m then
           do! mlift (ensure (bool_decide (timestamp = latest_head_timestamp m))
                        (CMsg "same-height adaptive Algebra head changed timestamp; rehydration required")) ;;
           do t <- mlift (or_err timestamp (CMsg "adaptive Algebra canonical head timestamp is missing")) ;;
           record_canonical_timestamp head t
         else mret tt) ;;
    do m' <- mget ;;
    do! put_head (backfilled_through m') (backfill_complete m') (latest_head m') (latest_head_timestamp m') received_at ;;
    mret unchanged_head
  else
    do! mlift (ensure (cb_number head =? cb_number (latest_head m) + 1) (CMsg "World Chain head gap detected; rehydration required")) ;;
    do! mlift (ensure (cb_parent_hash head =? cb_hash (latest_head m)) (CMsg "World Chain parent hash mismatch; rehydration required")) ;;
    do! put_head (backfilled_through m) (backfill_complete m) head timestamp received_at ;;
    if has_adaptive_algebra_pools m then
      do t <- mlift (or_err timestamp (CMsg "adaptive Algebra canonical head timestamp is missing")) ;;
      do! record_canonical_timestamp head t ;;
      do changed <- refresh_adaptive_algebra_heads t ;;
      mret (mkHeadApply true changed)
    else mret (mkHeadApply true None).

Definition apply_head (head : CanonicalBlock) (received_at : Z) : M DexMirror ClmmError bool :=
  do m <- mget ;;
  do! mlift (ensure (negb (has_adaptive_algebra_pools m)) (CMsg "adaptive Algebra head requires its canonical timestamp")) ;;
  do applied <- apply_head_at head None received_at ;;
  mret (ha_advanced applied).
End heads.

Definition mirror_is_fresh (m : DexMirror) (now max_age_ms : Z) : bool :=
  millis (since now (latest_head_received_at m)) <=? max_age_ms.
