(* ===== verification/MirrorFacts.v ===== *)
(** * What the mirror keeps ([src/src/dex/mirror.rs])

    Frames of the pool mirror's operations: which pools, fees and frontiers an
    operation may touch, successful or not; then the invariant of the mirror and
    what one applied log, receipt or head does. *)
From Stdlib Require Import Lia.
From stdpp Require Import base strings numbers option gmap fin_maps countable list.
From S2P Require Import Prelude ExecutionPlan Clmm ClmmTicks ClmmPools ClmmCurve TradeData AdaptiveFee FeeProjection HydratedPools PlanBuild Events EventFacts Mirror.

Create HintDb frames.

(** ** Frames

    [touches R Q m m']: only pools and pending fees changed, each pool within
    [R], pending fees only at the indices in [Q]. *)
Definition touches (R : nat -> HydratedPool -> HydratedPool -> Prop) (Q : nat -> Prop) (m m' : DexMirror) : Prop :=
  exists pools pending, m' = with_pools_pending m pools pending /\
    length pools = length (dm_pools m) /\ length pending = length (pending_adaptive_fees m) /\
    (forall j h, dm_pools m !! j = Some h -> exists h', pools !! j = Some h' /\ R j h h') /\
    (forall j, ~ Q j -> pending !! j = pending_adaptive_fees m !! j).

Definition frame {A} (R : nat -> HydratedPool -> HydratedPool -> Prop) (Q : nat -> Prop) (f : M DexMirror ClmmError A) : Prop :=
  forall m, touches R Q m (f m).1.

Section frames.
Context (R : nat -> HydratedPool -> HydratedPool -> Prop) (Q : nat -> Prop).
Context `{!forall j, PreOrder (R j)}.

Lemma touches_refl m : touches R Q m m.
Proof.
  exists (dm_pools m), (pending_adaptive_fees m). split; [by destruct m|]. split; [done|]. split; [done|].
  split; [|done]. intros j h Hj. exists h. split; [done|reflexivity].
Qed.

Lemma touches_trans m1 m2 m3 : touches R Q m1 m2 -> touches R Q m2 m3 -> touches R Q m1 m3.
Proof.
  intros (p1 & q1 & -> & Hl1 & Hq1 & Hp1 & Hk1) (p2 & q2 & -> & Hl2 & Hq2 & Hp2 & Hk2). simpl in *.
  exists p2, q2. split; [done|]. split; [congruence|]. split; [congruence|]. split.
  - intros j h Hj. destruct (Hp1 j h Hj) as (h1 & Hj1 & H1). destruct (Hp2 j h1 Hj1) as (h2 & Hj2 & H2).
    exists h2. split; [done|by transitivity h1].
  - intros j Hj. by rewrite Hk2, Hk1.
Qed.

Lemma frame_bind {A B} (f : M DexMirror ClmmError A) (k : A -> M DexMirror ClmmError B) :
  frame R Q f -> (forall a, frame R Q (k a)) -> frame R Q (mbind' f k).
Proof.
  intros Hf Hk m. specialize (Hf m). unfold mbind'. destruct (f m) as [m' [a|e]]; simpl in *; [|done].
  eapply touches_trans; [done|apply Hk].
Qed.

Lemma frame_ret {A} (a : A) : frame R Q (mret a). Proof. intros m. apply touches_refl. Qed.
Lemma frame_fail {A} e : frame R Q (mfail e : M DexMirror ClmmError A). Proof. intros m. apply touches_refl. Qed.
Lemma frame_get : frame R Q mget. Proof. intros m. apply touches_refl. Qed.
Lemma frame_lift {A} (r : CRes A) : frame R Q (mlift r). Proof. intros m. apply touches_refl. Qed.
Lemma frame_hydrated_at i : frame R Q (hydrated_at i). Proof. intros m. apply touches_refl. Qed.
Lemma frame_pending i : frame R Q (pending_fee i). Proof. intros m. apply touches_refl. Qed.

Lemma frame_set_pending i p : Q i -> frame R Q (set_pending_fee i p).
Proof.
  intros Hi m. exists (dm_pools m), (<[i := p]> (pending_adaptive_fees m)). split; [done|]. split; [done|].
  split; [by rewrite length_insert|]. split; [intros j h Hj; exists h; split; [done|reflexivity]|].
  intros j Hj. rewrite list_lookup_insert_ne; [done|]. by intros ->.
Qed.

Lemma frame_hydrated {A} i (f : M HydratedPool ClmmError A) :
  (forall h, R i h (f h).1) -> frame R Q (on_hydrated i f).
Proof.
  intros Hf m. unfold on_hydrated. destruct (dm_pools m !! i) as [h|] eqn:Ei; [|apply touches_refl].
  specialize (Hf h). destruct (f h) as [h' r]. simpl in *.
  exists (<[i := h']> (dm_pools m)), (pending_adaptive_fees m). split; [done|]. split; [by rewrite length_insert|]. split; [done|].
  split; [|done]. intros j x Hj. destruct (decide (j = i)) as [->|Hne].
  - rewrite Ei in Hj. injection Hj as <-. exists h'. split; [|done]. apply list_lookup_insert_eq. by eapply lookup_lt_Some.
  - exists x. split; [by rewrite list_lookup_insert_ne|reflexivity].
Qed.

Lemma frame_if {A} (b : bool) (f g : M DexMirror ClmmError A) : frame R Q f -> frame R Q g -> frame R Q (if b then f else g).
Proof. by destruct b. Qed.
End frames.

#[export] Hint Resolve frame_bind frame_ret frame_fail frame_get frame_lift frame_hydrated_at frame_pending frame_set_pending
  frame_hydrated frame_if : frames.

(** ** One pool under its own events: only price, liquidity and fee state move *)
Record pool_step (h h' : HydratedPool) : Prop := {
  ps_pair : hp_pair_id h' = hp_pair_id h;
  ps_identity : hp_identity h' = hp_identity h;
  ps_tokens : hp_token0 h' = hp_token0 h /\ hp_token1 h' = hp_token1 h;
  ps_fees : fee_pips (hp_pool h') = fee_pips (hp_pool h) /\ one_for_zero_fee_pips (hp_pool h') = one_for_zero_fee_pips (hp_pool h);
  ps_camelot : cf_envelope <$> hp_camelot_fee h' = cf_envelope <$> hp_camelot_fee h;
  ps_lynex : lf_envelope <$> hp_lynex_fee h' = lf_envelope <$> hp_lynex_fee h;
}.

#[global] Instance pool_step_preorder : PreOrder pool_step.
Proof.
  split; [by intros h; split|]. intros a b c [? ? [? ?] [? ?] ? ?] [? ? [? ?] [? ?] ? ?].
  split; try congruence; split; congruence.
Qed.

(** The same with the price untouched. *)
Definition fee_step (h h' : HydratedPool) : Prop := pool_step h h' /\ hp_pool h' = hp_pool h.
#[global] Instance fee_step_preorder : PreOrder fee_step.
Proof. split; [by intros h; split|]. intros a b c [H1 E1] [H2 E2]. split; [by transitivity b|congruence]. Qed.

Lemma on_pool_step {A} (f : M ClmmPool ClmmError A) h :
  (forall p, fee_pips (f p).1 = fee_pips p /\ one_for_zero_fee_pips (f p).1 = one_for_zero_fee_pips p) -> pool_step h (on_pool f h).1.
Proof. intros Hf. unfold on_pool. specialize (Hf (hp_pool h)). destruct (f (hp_pool h)). simpl in *. by split. Qed.

Lemma on_fee_step l step h : fee_step h (on_fee_state l step h).1.
Proof.
  unfold on_fee_state. destruct l; try (destruct (hp_camelot_fee h) as [fee|] eqn:E; [destruct (step (cf_state fee)) as [st r]|];
    simpl; [|reflexivity]; split; [split; simpl; rewrite ?E; done|done]).
  all: destruct (hp_lynex_fee h) as [fee|] eqn:E; [destruct (step (lf_state fee)) as [st r]|]; simpl; [|reflexivity];
    split; [split; simpl; rewrite ?E; done|done].
Qed.

Lemma swap_head_fees price tk liq p :
  fee_pips (apply_swap_head price tk liq p).1 = fee_pips p /\ one_for_zero_fee_pips (apply_swap_head price tk liq p).1 = one_for_zero_fee_pips p.
Proof. unfold apply_swap_head. repeat (case_match; simpl); done. Qed.

Lemma set_tick_fees i g n p :
  fee_pips (set_tick i g n p).1 = fee_pips p /\ one_for_zero_fee_pips (set_tick i g n p).1 = one_for_zero_fee_pips p.
Proof. destruct (set_tick_shape i g n p) as (E1 & E2 & _). done. Qed.

Lemma liquidity_fees lower upper d p :
  fee_pips (apply_liquidity_delta lower upper d p).1 = fee_pips p /\
  one_for_zero_fee_pips (apply_liquidity_delta lower upper d p).1 = one_for_zero_fee_pips p.
Proof.
  unfold apply_liquidity_delta. do 4 (case_match; simpl; [done|]). case_match; [|done]. destruct a as [[lo up] act]. unfold mbind'.
  pose proof (set_tick_fees lower (gross lo) (net lo) p) as [E1 E2]. destruct (set_tick lower _ _ p) as [p1 [[]|]]; simpl in *; [|done].
  pose proof (set_tick_fees upper (gross up) (net up) p1) as [E3 E4]. destruct (set_tick upper _ _ p1) as [p2 [[]|]]; simpl in *; [|split; congruence].
  destruct act; simpl; split; congruence.
Qed.

(** Only the pool [i]. *)
Definition at_pool (i : nat) (R : HydratedPool -> HydratedPool -> Prop) (j : nat) (h h' : HydratedPool) : Prop :=
  if decide (j = i) then R h h' else h' = h.
#[global] Instance at_pool_preorder i R j : PreOrder R -> PreOrder (at_pool i R j).
Proof. intros HR. unfold at_pool. destruct (decide (j = i)); [done|]. split; [done|]. by intros ? ? ? -> ->. Qed.
Lemma at_pool_eq i R h h' : R h h' -> at_pool i R i h h'.
Proof. intros Hr. unfold at_pool. by rewrite decide_True. Qed.

Lemma frame_link i log ts latest w R : (forall j, PreOrder (R j)) -> frame R (eq i) (link_timepoint i log ts latest w).
Proof. intros HR. unfold link_timepoint. apply frame_bind; [done|auto with frames|]. intros p. destruct (validate_adaptive_timepoint_link _ _ _ _ _). auto with frames. Qed.
#[export] Hint Resolve frame_link : frames.

Ltac frames := repeat first
  [ apply frame_ret; [tc_solve] | apply frame_fail; [tc_solve] | apply frame_get; [tc_solve] | apply frame_lift; [tc_solve]
  | apply frame_hydrated_at; [tc_solve] | apply frame_pending; [tc_solve] | apply frame_set_pending; [tc_solve|reflexivity]
  | apply frame_link; intros ?; tc_solve
  | apply frame_bind; [tc_solve| |intros ?] | apply frame_if
  | match goal with |- frame _ _ (match ?x with _ => _ end) => destruct x end ].

Section updates.
Context (i : nat).
#[local] Abbreviation R := (at_pool i pool_step).
#[local] Abbreviation F := (at_pool i fee_step).

Lemma frame_swap_head price tk liq : frame R (eq i) (on_hydrated i (on_pool (apply_swap_head price tk liq))).
Proof. apply frame_hydrated; [tc_solve|]. intros h. apply at_pool_eq, on_pool_step. intros p. apply swap_head_fees. Qed.
Lemma frame_liquidity lower upper d : frame R (eq i) (on_hydrated i (on_pool (apply_liquidity_delta lower upper d))).
Proof. apply frame_hydrated; [tc_solve|]. intros h. apply at_pool_eq, on_pool_step. intros p. apply liquidity_fees. Qed.
Lemma frame_fee_state l step : frame F (eq i) (on_hydrated i (on_fee_state l step)).
Proof. apply frame_hydrated; [tc_solve|]. intros h. apply at_pool_eq, on_fee_step. Qed.

Lemma frame_weaken {A} (f : M DexMirror ClmmError A) : frame F (eq i) f -> frame R (eq i) f.
Proof.
  intros Hf m. destruct (Hf m) as (p & q & E & Hp & Hq & Hall & Hk). exists p, q. split; [done|]. split; [done|]. split; [done|].
  split; [|done]. intros j h Hj. destruct (Hall j h Hj) as (h' & Hj' & Hr). exists h'. split; [done|].
  unfold at_pool in *. destruct (decide (j = i)); [by destruct Hr|done].
Qed.

Lemma frame_swap_update l log ts price tk liq fee : frame R (eq i) (apply_swap_update i l log ts price tk liq fee).
Proof.
  unfold apply_swap_update. frames; try apply frame_swap_head. apply frame_weaken, frame_fee_state.
Qed.

Lemma frame_liquidity_update l log ts lower upper d : frame R (eq i) (apply_liquidity_update i l log ts lower upper d).
Proof. unfold apply_liquidity_update. frames; try apply frame_liquidity. apply frame_weaken, frame_fee_state. Qed.

Lemma frame_fee_update l log ts z o : frame F (eq i) (apply_fee_update i l log ts z o).
Proof. unfold apply_fee_update. frames. apply frame_fee_state. Qed.

Lemma frame_update ev log ts : frame R (eq i) (apply_update i ev log ts).
Proof.
  unfold apply_update. destruct (ev_update ev).
  - apply frame_bind; [tc_solve|apply frame_swap_update|intros ?; frames].
  - apply frame_bind; [tc_solve|apply frame_liquidity_update|intros ?; frames].
  - apply frame_bind; [tc_solve|apply frame_weaken, frame_fee_update|intros ?; frames].
  - apply frame_fail. tc_solve.
  - apply frame_fail. tc_solve.
Qed.

(** An update that does not ask for a rebuild leaves the price alone. *)
Lemma quiet_update ev log ts m m' :
  apply_update i ev log ts m = (m', Ok false) -> touches F (eq i) m m'.
Proof.
  unfold apply_update. destruct (ev_update ev); intros Hu;
    try (unfold mbind', mret, mfail in Hu; repeat case_match; simplify_eq; done).
  unfold mbind' in Hu. pose proof (frame_fee_update (ev_locator ev) log ts zero_for_one one_for_zero m) as Hf.
  destruct (apply_fee_update _ _ _ _ _ _ m) as [m1 [[]|]]; simpl in *; [|done]. unfold mret in Hu. by injection Hu as <-.
Qed.
End updates.

(** ** What an event does to its pool *)

(** The curve of the pool after a decoded event, by the kind of the event. *)
Definition pool_effect (u : PoolUpdate) (p p' : ClmmPool) : Prop :=
  match u with
  | Swap price tk liq _ => p' = set_head p price tk liq
  | Liquidity lower upper delta => apply_liquidity_delta lower upper delta p = (p', Ok tt)
  | Fee _ _ => p' = p
  | TickSpacing _ | Incentive _ => False
  end.
Definition rebuilds (u : PoolUpdate) : bool := match u with Fee _ _ => false | _ => true end.

Lemma on_hydrated_Ok {A} i (f : M HydratedPool ClmmError A) m m' a :
  on_hydrated i f m = (m', Ok a) ->
  exists h h', dm_pools m !! i = Some h /\ f h = (h', Ok a) /\ dm_pools m' !! i = Some h'.
Proof.
  unfold on_hydrated. destruct (dm_pools m !! i) as [h|] eqn:Ei; [|done]. destruct (f h) as [h' r] eqn:Ef. intros [= <- ->].
  exists h, h'. split_and!; [done..|]. simpl. apply list_lookup_insert_eq. by eapply lookup_lt_Some.
Qed.

Lemma on_pool_Ok {A} i (f : M ClmmPool ClmmError A) m m' a :
  on_hydrated i (on_pool f) m = (m', Ok a) ->
  exists h h', dm_pools m !! i = Some h /\ dm_pools m' !! i = Some h' /\ f (hp_pool h) = (hp_pool h', Ok a).
Proof.
  intros (h & h' & Hi & Hf & Hi')%on_hydrated_Ok. exists h, h'. split_and!; [done..|].
  unfold on_pool in Hf. destruct (f (hp_pool h)) as [p r]. by injection Hf as <- ->.
Qed.

Lemma fee_state_pool i l step m m' :
  on_hydrated i (on_fee_state l step) m = (m', Ok tt) ->
  exists h h', dm_pools m !! i = Some h /\ dm_pools m' !! i = Some h' /\ hp_pool h' = hp_pool h.
Proof.
  intros (h & h' & Hi & Hf & Hi')%on_hydrated_Ok. exists h, h'. split_and!; [done..|].
  pose proof (on_fee_step l step h) as [_ He]. by rewrite Hf in He.
Qed.

Lemma link_pools i log ts latest w m m' a : link_timepoint i log ts latest w m = (m', Ok a) -> dm_pools m' = dm_pools m.
Proof.
  unfold link_timepoint. intros (m1 & p & Hp & Hl)%mbind_Ok. unfold pending_fee in Hp. injection Hp as <- _.
  destruct (validate_adaptive_timepoint_link p log ts latest w) as [p' r]. apply mbind_Ok in Hl as (m2 & [] & Hs & Hl).
  unfold set_pending_fee in Hs. injection Hs as <-. unfold mlift in Hl. by injection Hl as <- _.
Qed.

(** The curve step, alone or between a timepoint link and a step of the fee state. *)
Lemma linked_pool {B} i (f : M ClmmPool ClmmError unit) l log ts latest w (k : M DexMirror ClmmError B) m m' b :
  (do! link_timepoint i log ts latest w ;; do! on_hydrated i (on_pool f) ;; k) m = (m', Ok b) ->
  (forall m1 m2, k m1 = (m2, Ok b) -> m2 = m1 \/ exists step, on_hydrated i (on_fee_state l step) m1 = (m2, Ok tt)) ->
  exists h h', dm_pools m !! i = Some h /\ dm_pools m' !! i = Some h' /\ f (hp_pool h) = (hp_pool h', Ok tt).
Proof.
  intros (m1 & ? & Hl%link_pools & (m2 & [] & (h & h' & Hi & Hi' & Hf)%on_pool_Ok & Hk)%mbind_Ok)%mbind_Ok Hfee.
  rewrite Hl in Hi. destruct (Hfee _ _ Hk) as [->|(step & (g & g' & Hg & Hg' & He)%fee_state_pool)]; [by exists h, h'|].
  rewrite Hi' in Hg. injection Hg as <-. exists h, g'. by rewrite He.
Qed.

Lemma swap_pool i l log ts price tk liq fee m m' :
  apply_swap_update i l log ts price tk liq fee m = (m', Ok tt) ->
  exists h h', dm_pools m !! i = Some h /\ dm_pools m' !! i = Some h' /\ hp_pool h' = set_head (hp_pool h) price tk liq.
Proof.
  intros (m1 & h0 & Hh & (m2 & ? & Hg & Hs)%mbind_Ok)%mbind_Ok. unfold hydrated_at in Hh. injection Hh as <- _.
  unfold mlift in Hg. injection Hg as <- _.
  assert (Hhead : forall p p', apply_swap_head price tk liq p = (p', Ok tt) -> p' = set_head p price tk liq).
  { unfold apply_swap_head. intros p p' Hx. repeat case_match; by simplify_eq. }
  destruct (is_algebra l).
  - apply mbind_Ok in Hs as (m1 & ? & Ht & Hs). unfold mlift in Ht. injection Ht as <- _.
    destruct (decode_camelot_v3_swap_amounts_after_event_validation log) as [a0 a1].
    apply mbind_Ok in Hs as (m1 & st & Hst & Hs). unfold mlift in Hst. injection Hst as <- _.
    eapply linked_pool in Hs as (h & h' & Hi & Hi' & Hf%Hhead); [by exists h, h'|]. intros m1 m2 Hk. right. by eexists.
  - apply on_pool_Ok in Hs as (h & h' & Hi & Hi' & Hf%Hhead). by exists h, h'.
Qed.

Lemma liquidity_pool i l log ts lower upper d m m' :
  apply_liquidity_update i l log ts lower upper d m = (m', Ok tt) ->
  exists h h', dm_pools m !! i = Some h /\ dm_pools m' !! i = Some h' /\
    apply_liquidity_delta lower upper d (hp_pool h) = (hp_pool h', Ok tt).
Proof.
  unfold apply_liquidity_update. destruct (is_algebra l); [|by apply on_pool_Ok].
  intros (m1 & h0 & Hh & (m2 & ? & Ht & (m3 & st & Hst & Hs)%mbind_Ok)%mbind_Ok)%mbind_Ok.
  unfold hydrated_at in Hh. injection Hh as <- _. unfold mlift in Ht, Hst. injection Ht as <- _. injection Hst as <- _.
  eapply linked_pool in Hs; [exact Hs|]. intros m1 m2 Hk. destruct (_ && _); [right|left; by injection Hk].
  apply mbind_Ok in Hk as (m3 & h' & Hh' & Hk). unfold hydrated_at in Hh'. injection Hh' as <- _. by eexists.
Qed.

Lemma fee_pool i l log ts z o m m' :
  apply_fee_update i l log ts z o m = (m', Ok tt) ->
  exists h h', dm_pools m !! i = Some h /\ dm_pools m' !! i = Some h' /\ hp_pool h' = hp_pool h.
Proof.
  intros (m1 & ? & H1 & (m2 & ? & H2 & (m3 & p & H3 & Hs)%mbind_Ok)%mbind_Ok)%mbind_Ok.
  apply mbind_Ok in Hs as (m4 & ? & H4 & (m5 & t & H5 & (m6 & [] & Hf%fee_state_pool & Hs)%mbind_Ok)%mbind_Ok).
  unfold mlift in *. unfold pending_fee in H3. simplify_eq. unfold set_pending_fee in Hs. by injection Hs as <-.
Qed.

Lemma update_effect i ev log ts m m' refresh :
  apply_update i ev log ts m = (m', Ok refresh) ->
  refresh = rebuilds (ev_update ev) /\
  exists h h', dm_pools m !! i = Some h /\ dm_pools m' !! i = Some h' /\ pool_effect (ev_update ev) (hp_pool h) (hp_pool h').
Proof.
  unfold apply_update. destruct (ev_update ev) as [price tk liq fee|lower upper d|z o| |]; [| | |done|done];
    intros (m1 & [] & Hu & [= <- <-])%mbind_Ok; (split; [done|]).
  - by apply swap_pool in Hu.
  - by apply liquidity_pool in Hu.
  - by apply fee_pool in Hu.
Qed.

(** ** The invariant of the mirror

    The indices name exactly the pools, by their identities; every pool has one
    pending slot; the curves of an adaptive pool are charged its envelope; no
    backfill reaches past the head. *)
Definition charged_envelope (h : HydratedPool) : Prop :=
  forall st env, adaptive_state h = Some (st, env) ->
    fee_pips (hp_pool h) = zero_for_one (env_maximum env) /\ one_for_zero_fee_pips (hp_pool h) = one_for_zero (env_maximum env).

(** Hydration gives each adaptive provider its own fee state, and no other. *)
Definition fees_of_provider (h : HydratedPool) : Prop :=
  match hp_identity h with
  | IdCamelotV3 _ => is_Some (hp_camelot_fee h) /\ hp_lynex_fee h = None
  | IdLynexAlgebraV1_9 _ => hp_camelot_fee h = None /\ is_Some (hp_lynex_fee h)
  | _ => hp_camelot_fee h = None /\ hp_lynex_fee h = None
  end.

Definition pool_hydrated (h : HydratedPool) : Prop := charged_envelope h /\ fees_of_provider h.

Record mirror_ok (m : DexMirror) : Prop := {
  mo_indices l i : pool_index_of (dm_indices m) l = Some i <->
    exists h, dm_pools m !! i = Some h /\ locator_of (hp_identity h) = l;
  mo_pending : length (pending_adaptive_fees m) = length (dm_pools m);
  mo_pools : Forall pool_hydrated (dm_pools m);
  mo_backfill : backfilled_through m <= cb_number (latest_head m);
}.

Lemma pool_index_insert ix l k l' : pool_index_of (insert_index ix l k) l' = if decide (l' = l) then Some k else pool_index_of ix l'.
Proof.
  destruct ix as [v3 pc cm lx v4]. destruct l as [a|a|a|a|a], l' as [b|b|b|b|b]; simpl; try done;
    (destruct (decide (b = a)) as [->|Hne]; [by rewrite lookup_insert_eq, decide_True|
     rewrite lookup_insert_ne by done; by rewrite decide_False by congruence]).
Qed.

Lemma index_pools_spec pools k ix ix' :
  index_pools k pools ix = Ok ix' ->
  forall l i, pool_index_of ix' l = Some i <->
    pool_index_of ix l = Some i \/ exists j h, i = (k + j)%nat /\ pools !! j = Some h /\ locator_of (hp_identity h) = l.
Proof.
  revert k ix. induction pools as [|h pools IH]; intros k ix Hi l i; simpl in Hi.
  { injection Hi as <-. split; [by left|]. intros [?|(j & h & _ & Hj & _)]; [done|]. by rewrite lookup_nil in Hj. }
  destruct (bool_decide _) eqn:Hn in Hi; [|done]. apply bool_decide_eq_true in Hn. cbn [ensure rbind] in Hi.
  rewrite (IH _ _ Hi l i), pool_index_insert. split.
  - intros [Hl|(j & g & -> & Hj & Hg)].
    + destruct (decide (l = _)) as [->|]; [|by left]. injection Hl as <-. right. exists 0%nat, h. split; [lia|done].
    + right. exists (S j), g. split; [lia|done].
  - intros [Hl|(j & g & -> & Hj & Hg)].
    + left. rewrite decide_False; [done|]. intros ->. congruence.
    + destruct j as [|j]; simpl in Hj.
      * injection Hj as <-. subst l. left. rewrite decide_True by done. f_equal. lia.
      * right. exists j, g. split; [lia|done].
Qed.

Lemma new_mirror_ok hydrated now m :
  new_mirror hydrated now = Ok m -> Forall pool_hydrated (hd_pools hydrated) -> mirror_ok m.
Proof.
  unfold new_mirror. intros Hm Hp. res_inv. split; simpl; [|by rewrite length_replicate|done|lia].
  intros l i. rewrite (index_pools_spec _ _ _ _ Hok l i). split.
  - intros [Hl|(j & h & -> & Hj & Hl)]; [destruct l; simpl in Hl; by rewrite lookup_empty in Hl|by exists h].
  - intros (h & Hj & Hl). right. by exists i, h.
Qed.

(** Steps of single pools keep them hydrated. *)
Lemma fmap_presence {A B} (f : A -> B) x y : f <$> y = f <$> x -> (is_Some x -> is_Some y) /\ (x = None -> y = None).
Proof. destruct x, y; intros E; try discriminate E; split; try done; by eexists. Qed.

Lemma pool_step_hydrated h h' : pool_step h h' -> pool_hydrated h -> pool_hydrated h'.
Proof.
  intros [_ Hid _ [Hf0 Hf1] Hc Hl] [He Hp]. split.
  - intros st env Ha. rewrite Hf0, Hf1. unfold adaptive_state in *. unfold charged_envelope, adaptive_state in He.
    destruct (hp_camelot_fee h') as [c'|], (hp_camelot_fee h) as [c|]; try discriminate Hc.
    + injection Hc as Hc. injection Ha as _ <-. rewrite Hc. by eapply He.
    + destruct (hp_lynex_fee h') as [x'|], (hp_lynex_fee h) as [x|]; try discriminate Hl; [|discriminate Ha].
      injection Hl as Hl. injection Ha as _ <-. rewrite Hl. by eapply He.
  - unfold fees_of_provider in *. rewrite Hid. apply fmap_presence in Hc as [Hc1 Hc2]. apply fmap_presence in Hl as [Hl1 Hl2].
    destruct (hp_identity h); destruct Hp as [H1 H2]; auto.
Qed.

(** ** Envelopes *)
Record refreshed (h h' : HydratedPool) (changed : bool) : Prop := {
  rf_pair : hp_pair_id h' = hp_pair_id h;
  rf_camelot : is_Some (hp_camelot_fee h') <-> is_Some (hp_camelot_fee h);
  rf_lynex : is_Some (hp_lynex_fee h') <-> is_Some (hp_lynex_fee h);
  rf_maximum : changed = false -> forall st env st' env', adaptive_state h = Some (st, env) -> adaptive_state h' = Some (st', env') ->
    env_maximum env' = env_maximum env;
}.

Lemma refresh_refreshed h h' changed : refresh_adaptive_algebra_envelope h = (h', Ok changed) -> refreshed h h' changed.
Proof.
  unfold refresh_adaptive_algebra_envelope.
  destruct (hp_camelot_fee h) as [fee|] eqn:Ec; [|destruct (hp_lynex_fee h) as [fee|] eqn:El; [|done]].
  - unfold refresh_camelot, mbind', mlift, mget, mput, mret.
    destruct (checked_sub _ _) as [horizon|]; cbn [or_err]; [|done]. destruct (lift_fee _) as [env|]; [|done].
    unfold on_pool. destruct (set_algebra_directional_fees _ _ _) as [p [[]|]]; [|done]. intros [= <- <-].
    split; simpl; [done| |done|].
    + rewrite Ec. split; by eexists.
    + intros Hch st e st' e' H1 H2. unfold adaptive_state in *. simpl in H2. rewrite Ec in H1. simplify_eq.
      apply negb_false_iff, bool_decide_eq_true in Hch. congruence.
  - unfold refresh_lynex, mbind', mlift, mget, mput, mret.
    destruct (checked_sub _ _) as [horizon|]; cbn [or_err]; [|done]. destruct (lift_fee _) as [env|]; [|done].
    destruct (ensure _ _) as [[]|]; [|done].
    unfold on_pool. destruct (set_algebra_single_fee _ _) as [p [[]|]]; [|done]. intros [= <- <-].
    split; simpl; [done|done| |].
    + rewrite El. split; by eexists.
    + intros Hch st e st' e' H1 H2. unfold adaptive_state in *. simpl in H2. rewrite Ec in H1, H2. rewrite El in H1. simplify_eq.
      apply negb_false_iff, bool_decide_eq_true in Hch. congruence.
Qed.

Lemma set_fees_id p : set_fees p (fee_pips p) (one_for_zero_fee_pips p) = p.
Proof. by destruct p. Qed.

(** A refreshed pool is hydrated; without a change its curves stay the same. *)
Lemma refresh_hydrated h h' changed :
  refresh_adaptive_algebra_envelope h = (h', Ok changed) -> pool_hydrated h ->
  pool_hydrated h' /\ (changed = false -> hp_pool h' = hp_pool h).
Proof.
  intros Hr [He Hp]. pose proof (refresh_published h h' changed Hr) as [[Hid _] (f01 & f10 & Hpool) (st & env & old & Ho & Hn & _ & _ & H0 & H1 & _)].
  pose proof (refresh_refreshed h h' changed Hr) as [_ Hc Hl Hm]. simpl in H0, H1. split; [split|].
  - intros st' env' Ha. rewrite Hn in Ha. by injection Ha as <- <-.
  - unfold fees_of_provider in *. rewrite Hid.
    assert (forall A (x y : option A), (is_Some x <-> is_Some y) -> y = None -> x = None) as Hnone.
    { intros A x y Hxy ->. destruct x; [|done]. destruct (proj1 Hxy (mk_is_Some _ _ eq_refl)). done. }
    destruct (hp_identity h); destruct Hp as [P1 P2]; rewrite ?Hc, ?Hl; split; try done; eapply Hnone; eauto.
  - intros Hch. destruct (He st old Ho) as [E0 E1]. rewrite (Hm Hch st old st env Ho Hn) in H0, H1.
    rewrite Hpool in *. simpl in H0, H1. rewrite H0, H1, <- E0, <- E1. apply set_fees_id.
Qed.

Record pool_advanced (timestamp : Z) (h h' : HydratedPool) : Prop := {
  pv_identity : hp_pair_id h' = hp_pair_id h /\ hp_identity h' = hp_identity h /\ hp_token0 h' = hp_token0 h /\ hp_token1 h' = hp_token1 h;
  pv_hydrated : pool_hydrated h';
  pv_camelot : is_Some (hp_camelot_fee h') <-> is_Some (hp_camelot_fee h);
  pv_fees : exists st env old, adaptive_state h = Some (st, old) /\ adaptive_state h' = Some (with_head st timestamp, env) /\
    head_timestamp st <= timestamp /\ first_timestamp env = timestamp /\
    last_timestamp env - timestamp = last_timestamp old - first_timestamp old /\
    (forall t, timestamp <= t <= last_timestamp env -> exists f, fees_at st t = Ok f /\ below f (env_maximum env));
}.

Lemma advance_hydrated timestamp h h' changed :
  advance_pool timestamp h = (h', Ok changed) -> pool_hydrated h ->
  pool_advanced timestamp h h' /\ (changed = false -> hp_pool h' = hp_pool h).
Proof.
  unfold advance_pool, mbind' at 1, mget. intros Ha Hp.
  assert (exists st old h1, adaptive_state h = Some (st, old) /\ adaptive_state h1 = Some (with_head st timestamp, old) /\
            head_timestamp st <= timestamp /\ fee_step h h1 /\ refresh_adaptive_algebra_envelope h1 = (h', Ok changed))
    as (st & old & h1 & Hst & Hst1 & Hle & [Hs Hpool] & Hr).
  { unfold mbind' in Ha. unfold adaptive_state. destruct (hp_camelot_fee h) as [fee|] eqn:Ec; [|destruct (hp_lynex_fee h) as [fee|] eqn:El; [|done]].
    - pose proof (on_fee_step (AtCamelotV3 0) (fun st => advance_head st timestamp) h) as Hfs. unfold on_fee_state in *. rewrite Ec in *.
      destruct (advance_head (cf_state fee) timestamp) as [st [[]|]] eqn:Eh; simpl in *; [|done].
      apply advance_head_inv in Eh as (-> & Hle & _). by exists (cf_state fee), (cf_envelope fee), (with_camelot h (mkCamelotFee (cf_operator fee) (with_head (cf_state fee) timestamp) (cf_envelope fee))).
    - pose proof (on_fee_step (AtLynexAlgebraV1_9 0) (fun st => advance_head st timestamp) h) as Hfs. unfold on_fee_state in *. rewrite El in *.
      destruct (advance_head (lf_state fee) timestamp) as [st [[]|]] eqn:Eh; simpl in *; [|done].
      apply advance_head_inv in Eh as (-> & Hle & _). exists (lf_state fee), (lf_envelope fee), (with_lynex h (mkLynexFee (lf_operator fee) (with_head (lf_state fee) timestamp) (lf_envelope fee))).
      simpl. rewrite Ec. done. }
  pose proof (pool_step_hydrated h h1 Hs Hp) as Hp1. destruct (refresh_hydrated h1 h' changed Hr Hp1) as [Hp' Hsame].
  pose proof (refresh_published h1 h' changed Hr) as [[Hid [Ht0 Ht1]] _ (st' & env & old' & Ho & Hn & Hfirst & Hlen & _ & _ & Hcov)].
  pose proof (refresh_refreshed h1 h' changed Hr) as [Hpair Hc _ _]. rewrite Hst1 in Ho. injection Ho as <- <-. simpl in Hfirst, Hcov.
  destruct Hs as [Q1 Q2 [Q3 Q4] _ Qc _]. split; [split|].
  - rewrite Hpair, Hid, Ht0, Ht1. done.
  - done.
  - rewrite Hc. destruct (hp_camelot_fee h1), (hp_camelot_fee h); try discriminate Qc; split; intros [? ?]; done || by eexists.
  - exists st, env, old. split; [done|]. split; [done|]. split; [done|]. split; [done|]. split; [lia|].
    intros t Ht. destruct (Hcov t Ht) as (f & Hf & Hb). exists f. rewrite fees_at_with_head in Hf by lia. done.
  - intros Hch. rewrite <- Hpool. by apply Hsame.
Qed.

(** ** Heads *)
Definition head_effect (order : list nat) (timestamp : Z) (changed : option nat) (j : nat) (h h' : HydratedPool) : Prop :=
  if decide (j ∈ order) then pool_advanced timestamp h h' /\ (changed <> Some j -> hp_pool h' = hp_pool h) else h' = h.

Lemma refresh_heads_spec order timestamp c m m' c' :
  NoDup order -> Forall pool_hydrated (dm_pools m) -> refresh_heads order timestamp c m = (m', Ok c') ->
  exists pools, m' = with_pools_pending m pools (pending_adaptive_fees m) /\ length pools = length (dm_pools m) /\
    (c' = c \/ (c = None /\ exists j, c' = Some j /\ j ∈ order)) /\
    forall j h, dm_pools m !! j = Some h -> exists h', pools !! j = Some h' /\ head_effect order timestamp c' j h h'.
Proof.
  revert m c. induction order as [|i order IH]; intros m c Hnd Hp Hr; cbn [refresh_heads] in Hr.
  { injection Hr as <- <-. exists (dm_pools m). split; [by destruct m|]. split; [done|]. split; [by left|].
    intros j h Hj. exists h. unfold head_effect. rewrite decide_False by apply not_elem_of_nil. done. }
  apply NoDup_cons in Hnd as [Hni Hnd]. unfold mbind' at 1 in Hr. unfold on_hydrated in Hr.
  destruct (dm_pools m !! i) as [h0|] eqn:Ei; [|done]. destruct (advance_pool timestamp h0) as [h1 [refreshed|]] eqn:Ea; [|done].
  pose proof (Forall_lookup_1 _ _ _ _ Hp Ei) as Hh0. destruct (advance_hydrated timestamp h0 h1 refreshed Ea Hh0) as [Hadv Hsame].
  set (m1 := with_pools_pending m (<[i := h1]> (dm_pools m)) (pending_adaptive_fees m)) in Hr.
  assert (Hp1 : Forall pool_hydrated (dm_pools m1)) by (apply Forall_insert; [done|apply Hadv]).
  assert (exists c1, refresh_heads order timestamp c1 m1 = (m', Ok c') /\
            ((c1 = c /\ refreshed = false) \/ (c = None /\ c1 = Some i))) as (c1 & Hr1 & Hc1).
  { destruct refreshed.
    - unfold mbind', mlift in Hr. destruct (ensure _ _) as [[]|] eqn:E; [|done]. apply ensure_Ok, bool_decide_eq_true in E.
      exists (Some i). split; [done|by right].
    - exists c. split; [done|by left]. }
  destruct (IH m1 c1 Hnd Hp1 Hr1) as (pools & -> & Hlen & Hcc & Hall). simpl in Hlen. rewrite length_insert in Hlen.
  assert (Hci : refreshed = true -> c' = Some i).
  { intros ->. destruct Hc1 as [[_ ?]|[_ ->]]; [done|]. destruct Hcc as [->|[? _]]; done. }
  exists pools. split; [done|]. split; [done|]. split.
  { destruct Hc1 as [[-> _]|[-> ->]].
    - destruct Hcc as [->|(-> & j & -> & Hj)]; [by left|]. right. split; [done|]. exists j. split; [done|by right].
    - right. split; [done|]. destruct Hcc as [->|(? & _)]; [|done]. exists i. split; [done|left]. }
  intros j h Hj. destruct (decide (j = i)) as [->|Hne].
  - rewrite Ei in Hj. injection Hj as <-. destruct (Hall i h1) as (h' & Hj' & He).
    { simpl. apply list_lookup_insert_eq. by eapply lookup_lt_Some. }
    unfold head_effect in He. rewrite decide_False in He by done. subst h'. exists h1. split; [done|].
    unfold head_effect. rewrite decide_True by (left). split; [done|]. intros Hne. apply Hsame.
    destruct refreshed; [|done]. by destruct (Hne (Hci eq_refl)).
  - destruct (Hall j h) as (h' & Hj' & He); [simpl; by rewrite list_lookup_insert_ne|]. exists h'. split; [done|].
    unfold head_effect in *. destruct (decide (j ∈ order)) as [Hin|Hnin].
    + by rewrite decide_True by (by right).
    + by rewrite decide_False by (rewrite elem_of_cons; tauto).
Qed.

(** Recording a head's timestamp touches nothing else. *)
Lemma record_timestamp_inv head t m m' :
  record_canonical_timestamp head t m = (m', Ok tt) ->
  exists recent, m' = with_canonical m (backfilled_through m) (backfill_complete m) (latest_head m) (latest_head_timestamp m) recent
    (latest_head_received_at m) /\ last recent = Some (cb_number head, cb_hash head, t) /\
    (recent = recent_head_timestamps m \/ exists dropped, dropped ++ recent = recent_head_timestamps m ++ [(cb_number head, cb_hash head, t)]).
Proof.
  unfold record_canonical_timestamp. destruct (list.last (recent_head_timestamps m)) as [[[n hash] e]|] eqn:El.
  - destruct (Z.eqb_spec n (cb_number head)) as [->|Hn].
    + unfold ensure. destruct (_ && _) eqn:E; [|done]. bool_prop. subst. intros [= <-].
      exists (recent_head_timestamps m). split; [by destruct m|]. split; [done|by left].
    + intros [= <-]. eexists. split; [done|]. case_match.
      * destruct (recent_head_timestamps m) as [|x l] eqn:Er; [done|]. simpl. split; [by rewrite last_snoc|]. right. by exists [x].
      * split; [by rewrite last_snoc|]. right. by exists [].
  - intros [= <-]. eexists. split; [done|]. split; [done|]. right. exists []. apply last_None in El. by rewrite El.
Qed.

(** ** Logs *)
Lemma touches_ok R i m m' :
  (forall j h h', R j h h' -> pool_hydrated h -> pool_hydrated h' /\ hp_identity h' = hp_identity h) ->
  touches R (eq i) m m' -> mirror_ok m -> mirror_ok m'.
Proof.
  intros HR (pools & pending & -> & Hl & Hq & Hp & _) [Hix Hpe Hh Hb].
  assert (Hback : forall j h', pools !! j = Some h' -> exists h, dm_pools m !! j = Some h /\ R j h h').
  { intros j h' Hj. destruct (lookup_lt_is_Some_2 (dm_pools m) j) as [h Hj0]; [rewrite <- Hl; by eapply lookup_lt_Some|].
    destruct (Hp j h Hj0) as (h'' & Hj' & Hr). rewrite Hj in Hj'. injection Hj' as <-. by exists h. }
  split; simpl; [|congruence| |done].
  - intros l k. rewrite Hix. split; intros (h & Hk & Hid).
    + destruct (Hp k h Hk) as (h' & Hk' & Hr). exists h'. split; [done|].
      destruct (HR k h h' Hr (Forall_lookup_1 _ _ _ _ Hh Hk)) as [_ E]. by rewrite E.
    + destruct (Hback k h Hk) as (h0 & Hk0 & Hr). exists h0. split; [done|].
      destruct (HR k h0 h Hr (Forall_lookup_1 _ _ _ _ Hh Hk0)) as [_ E]. by rewrite <- E.
  - apply Forall_lookup_2. intros j h' Hj. destruct (Hback j h' Hj) as (h & Hj0 & Hr).
    by apply (HR j h h' Hr (Forall_lookup_1 _ _ _ _ Hh Hj0)).
Qed.

Lemma at_pool_hydrated i j h h' :
  at_pool i pool_step j h h' -> pool_hydrated h -> pool_hydrated h' /\ hp_identity h' = hp_identity h.
Proof.
  unfold at_pool. destruct (decide (j = i)); [|by intros ->]. intros Hs Hp. split; [by eapply pool_step_hydrated|by destruct Hs].
Qed.

Lemma with_frontier_ok m l p hash : mirror_ok m -> mirror_ok (with_frontier m l p hash).
Proof. intros [? ? ? ?]. by split. Qed.

Section logs.
Context `{EvmText}.

(** What an applied log passed. *)
Record log_accepted (m : DexMirror) (log : ChainLog) (origin : LogOrigin) (ev : DecodedPoolEvent) (i : nat) : Prop := {
  la_removed : log_removed log = false;
  la_canonical : is_receipt origin = false ->
    check_canonical m (log_block_number log) (log_block_hash log) "pool log arrived before its canonical head"
      "pool log block hash differs from canonical head" = Ok tt;
  la_receipt : is_receipt origin = true -> is_swap (ev_update ev) = true;
  la_new : backfilled_through m < log_block_number log;
  la_decoded : decode_routed log (locator_hint (dm_indices m) (log_address log)) = Ok (Some ev);
  la_frontier p : last_positions m !! ev_locator ev = Some p -> position_lt p (log_position log) = true;
  la_index : pool_index_of (dm_indices m) (ev_locator ev) = Some i;
}.

Lemma check_frontier_None m l p hash :
  check_frontier m l p hash = Ok None -> forall q, last_positions m !! l = Some q -> position_lt q p = true.
Proof.
  unfold check_frontier. intros Hc q Hq. rewrite Hq in Hc. destruct (bool_decide _); [by res_inv|]. destruct (_ && _); [done|]. by res_inv.
Qed.

Lemma check_frontier_Some m l p hash r : check_frontier m l p hash = Ok (Some r) -> r = Duplicate.
Proof.
  unfold check_frontier. intros Hc. destruct (last_positions m !! l); [|done].
  destruct (bool_decide _); [by res_inv|]. destruct (_ && _); [by injection Hc|]. by res_inv.
Qed.

Lemma apply_log_inv log ts origin m m' r :
  apply_log_inner log ts origin m = (m', Ok r) ->
  match r with
  | Applied i kind refresh => exists ev m1, log_accepted m log origin ev i /\ apply_update i ev log ts m = (m1, Ok refresh) /\
      m' = with_frontier m1 (ev_locator ev) (log_position log) (log_block_hash log) /\ kind = event_kind ev
  | _ => m' = m
  end.
Proof.
  unfold apply_log_inner, mbind', mget, mlift, mret. intros Ha.
  destruct (ensure (negb (log_removed log)) _) as [[]|] eqn:E1; [|done]. apply ensure_Ok, negb_true_iff in E1.
  destruct (if is_receipt origin then _ else _) as [[]|] eqn:E2; [|done].
  destruct (Z.leb_spec (log_block_number log) (backfilled_through m)) as [|Hnew]; [by injection Ha as <- <-|].
  destruct (lift_fee _) as [decoded|] eqn:E3; [|done]. apply lift_fee_Ok in E3.
  destruct decoded as [ev|]; [|by injection Ha as <- <-].
  destruct (ensure _ _) as [[]|] eqn:E4 in Ha; [|done]. apply ensure_Ok in E4.
  destruct (check_frontier _ _ _ _) as [seen|] eqn:E5; [|done].
  destruct seen as [res|]; [apply check_frontier_Some in E5 as ->; by injection Ha as <- <-|].
  destruct (pool_index_of _ _) as [i|] eqn:E6; [|by injection Ha as <- <-].
  destruct (apply_update i ev log ts m) as [m1 [refresh|]] eqn:E7; [|done]. unfold record_position in Ha. injection Ha as <- <-.
  exists ev, m1. split; [|done]. split; try done.
  - intros Ho. by rewrite Ho in E2.
  - intros Ho. by rewrite Ho in E4.
  - by eapply check_frontier_None.
Qed.

Lemma update_ok i ev log ts m m1 refresh :
  mirror_ok m -> apply_update i ev log ts m = (m1, Ok refresh) -> mirror_ok m1 /\ touches (at_pool i pool_step) (eq i) m m1.
Proof.
  intros Hm Hu. pose proof (frame_update i ev log ts m) as Hf. rewrite Hu in Hf. simpl in Hf. split; [|done].
  eapply touches_ok; [apply at_pool_hydrated|exact Hf|done].
Qed.

(** The same log again, in a mirror that differs only in its pools, is a duplicate. *)
Lemma applied_again m log origin ev i m1 ts :
  log_accepted m log origin ev i -> dm_indices m1 = dm_indices m -> latest_head m1 = latest_head m ->
  backfill_complete m1 = backfill_complete m -> backfilled_through m1 = backfilled_through m ->
  last_positions m1 !! ev_locator ev = Some (log_position log) -> last_block_hashes m1 !! ev_locator ev = Some (log_block_hash log) ->
  apply_log_inner log ts origin m1 = (m1, Ok Duplicate).
Proof.
  intros [Hr Hc Hs Hn Hd _ _] Ei Eh Eb Et Hp Hh. unfold apply_log_inner, mbind', mget, mlift, mret. rewrite Hr. cbn [negb ensure].
  assert ((if is_receipt origin then Ok tt else check_canonical m1 (log_block_number log) (log_block_hash log)
             "pool log arrived before its canonical head" "pool log block hash differs from canonical head") = Ok tt) as ->.
  { destruct (is_receipt origin); [done|]. specialize (Hc eq_refl). unfold check_canonical in *. by rewrite Eh, Eb. }
  rewrite Et, (proj2 (Z.leb_gt _ _) Hn), Ei, Hd. cbn [lift_fee].
  assert (negb (is_receipt origin) || is_swap (ev_update ev) = true) as -> by (destruct (is_receipt origin); [by apply Hs|done]).
  cbn [ensure]. unfold check_frontier. rewrite Hp, Hh, !bool_decide_true by done. by rewrite orb_true_r.
Qed.

(** C13. A log is applied at most once and only to its own pool.  When a log is
    applied, it decodes to an event of the pool at its address, and lies after
    everything that pool has seen and after the backfill; the mirror stays well
    formed and only that pool changes, keeping its identity, the fees it is charged
    and its envelope.  A Swap puts the pool at exactly the price, tick and liquidity
    it reports, a Mint or Burn changes the liquidity of its range, a Fee leaves price
    and liquidity alone, and only a Fee asks for no rebuild; the frontier moves to the
    log, and the same log applied again is a duplicate that changes nothing.
    Duplicate and unknown logs change nothing. *)
Theorem log_applied_once log ts origin m m' r :
  mirror_ok m -> apply_log_inner log ts origin m = (m', Ok r) ->
  mirror_ok m' /\
  match r with
  | Applied i kind refresh => exists ev h h',
      decode_routed log (locator_hint (dm_indices m) (log_address log)) = Ok (Some ev) /\
      (bytes_ok (log_data log) -> event_sound log (locator_hint (dm_indices m) (log_address log)) ev) /\
      kind = event_kind ev /\ refresh = rebuilds (ev_update ev) /\
      pool_index_of (dm_indices m) (ev_locator ev) = Some i /\ locator_of (hp_identity h) = ev_locator ev /\
      dm_pools m !! i = Some h /\ dm_pools m' !! i = Some h' /\ pool_step h h' /\
      pool_effect (ev_update ev) (hp_pool h) (hp_pool h') /\
      (forall j, j <> i -> dm_pools m' !! j = dm_pools m !! j) /\
      backfilled_through m < log_block_number log /\
      (forall p, last_positions m !! ev_locator ev = Some p -> position_lt p (log_position log) = true) /\
      last_positions m' = <[ev_locator ev := log_position log]> (last_positions m) /\
      latest_head m' = latest_head m /\
      apply_log_inner log ts origin m' = (m', Ok Duplicate)
  | _ => m' = m
  end.
Proof.
  intros Hm Ha. apply apply_log_inv in Ha. destruct r as [i kind refresh| |]; [|by subst..].
  destruct Ha as (ev & m1 & Hacc & Hu & -> & ->). destruct (update_ok i ev log ts m m1 refresh Hm Hu) as [Hm1 Ht].
  destruct (update_effect i ev log ts m m1 refresh Hu) as (-> & h & h' & Hh & Hh' & Heff).
  split; [by apply with_frontier_ok|]. destruct (proj1 (mo_indices m Hm _ _) (la_index _ _ _ _ _ Hacc)) as (h0 & Hh0 & Hid).
  rewrite Hh in Hh0. injection Hh0 as <-.
  destruct Ht as (pools & pending & -> & Hlen & Hq & Hp & Hk). destruct (Hp i h Hh) as (h2 & Hh2 & Hr).
  simpl in Hh'. rewrite Hh' in Hh2. injection Hh2 as <-. unfold at_pool in Hr. rewrite decide_True in Hr by done.
  exists ev, h, h'. split; [apply Hacc|]. split; [intros Hb; apply decoded_event_sound; [done|apply Hacc]|].
  split; [done|]. split; [done|]. split; [apply Hacc|]. do 5 (split; [done|]). split.
  { intros j Hj. simpl. destruct (dm_pools m !! j) as [g|] eqn:Eg.
    - destruct (Hp j g Eg) as (g' & -> & Hg). unfold at_pool in Hg. rewrite decide_False in Hg by done. by subst.
    - apply lookup_ge_None in Eg. apply lookup_ge_None. lia. }
  split; [apply Hacc|]. split; [apply (la_frontier _ _ _ _ _ Hacc)|]. split; [done|]. split; [done|].
  apply (applied_again m log origin ev i); try done; simpl; apply lookup_insert_eq.
Qed.
End logs.

(** ** Fee receipts *)
Lemma apply_fee_receipt_inv proof ts m m' r :
  mirror_ok m -> apply_fee_receipt proof ts m = (m', Ok r) ->
  mirror_ok m' /\
  match r with
  | Applied i _ refresh => refresh = false /\ pool_index_of (dm_indices m) (proof_locator proof) = Some i /\
      (forall p, last_positions m !! proof_locator proof = Some p -> position_lt p (proof_position proof) = true) /\
      exists m1, touches (at_pool i fee_step) (eq i) m m1 /\ m' = with_frontier m1 (proof_locator proof) (proof_position proof) (proof_block_hash proof)
  | _ => m' = m
  end.
Proof.
  unfold apply_fee_receipt. intros Hm Ha. unfold mbind' at 1, mget in Ha. unfold mbind' at 1, mlift in Ha.
  destruct (check_canonical _ _ _ _ _) as [[]|]; [|done].
  destruct (_ <=? _); [by injection Ha as <- <-|]. destruct (pool_index_of _ _) as [i|] eqn:Ei; [|by injection Ha as <- <-].
  unfold mbind' at 1, mlift in Ha. destruct (check_frontier _ _ _ _) as [[res|]|] eqn:Ef; [|  |done].
  { apply check_frontier_Some in Ef as ->. by injection Ha as <- <-. }
  assert (Hframe : frame (at_pool i fee_step) (eq i)
    (do pending <- pending_fee i ;;
     do! mlift (ensure (bool_decide (pending = None)) (CMsg "adaptive Algebra Fee was not consumed by the preceding pool action")) ;;
     do! on_hydrated i (on_fee_state (proof_locator proof) (fun st => apply_fee_timepoint st ts (proof_fees proof))) ;;
     set_pending_fee i (Some (mkPendingFee (proof_position proof) ts)))%rust).
  { frames. apply frame_fee_state. }
  specialize (Hframe m). unfold mbind', pending_fee, mlift, mret in *.
  destruct (or_err (pending_adaptive_fees m !! i) _) as [pending|]; [|done]. destruct (ensure _ _) as [[]|]; [|done].
  destruct (on_hydrated i _ m) as [m1 [[]|]]; [|done]. unfold set_pending_fee, record_position in *. simpl in Hframe. injection Ha as <- <-.
  split.
  - apply with_frontier_ok. eapply touches_ok; [|exact Hframe|done]. intros j h h' Hr. apply (at_pool_hydrated i j).
    unfold at_pool in *. destruct (decide (j = i)); [by destruct Hr|done].
  - split; [done|]. split; [done|]. split; [by eapply check_frontier_None|]. by eexists.
Qed.

(** ** Heads *)
Section heads.
Variable head_order : PoolIndices -> list nat.
Hypothesis head_order_values : forall ix,
  head_order ix ≡ₚ (map_to_list (camelot_v3_indices ix)).*2 ++ (map_to_list (lynex_algebra_v1_9_indices ix)).*2.

Lemma elem_of_head_order ix i :
  i ∈ head_order ix <-> exists l, is_algebra l = true /\ pool_index_of ix l = Some i.
Proof.
  rewrite head_order_values, elem_of_app, !list_elem_of_fmap. split.
  - intros [([a k] & -> & Hk)|([a k] & -> & Hk)]; apply elem_of_map_to_list in Hk; [by exists (AtCamelotV3 a)|by exists (AtLynexAlgebraV1_9 a)].
  - intros ([a|a|a|a|a] & Hl & Hi); try discriminate Hl; simpl in Hi; [left|right]; exists (a, i); by rewrite elem_of_map_to_list.
Qed.

Lemma NoDup_values (f : gmap Z nat) : (forall a b i, f !! a = Some i -> f !! b = Some i -> a = b) -> NoDup (map_to_list f).*2.
Proof.
  intros Hinj. apply NoDup_fmap_2_strong; [|apply NoDup_map_to_list]. intros [a i] [b j] Ha Hb E. simpl in E. subst j.
  apply elem_of_map_to_list in Ha, Hb. by rewrite (Hinj a b i Ha Hb).
Qed.

Lemma index_injective m l l' i : mirror_ok m -> pool_index_of (dm_indices m) l = Some i -> pool_index_of (dm_indices m) l' = Some i -> l = l'.
Proof.
  intros Hm Hl Hl'. apply (mo_indices m Hm) in Hl as (h & Hi & <-). apply (mo_indices m Hm) in Hl' as (h' & Hi' & <-). congruence.
Qed.

Lemma NoDup_head_order m : mirror_ok m -> NoDup (head_order (dm_indices m)).
Proof.
  intros Hm. rewrite head_order_values. apply NoDup_app. split; [|split].
  - apply NoDup_values. intros a b i Ha Hb. pose proof (index_injective m (AtCamelotV3 a) (AtCamelotV3 b) i Hm Ha Hb). congruence.
  - intros i Hi Hi'. apply list_elem_of_fmap in Hi as ([a k] & -> & Ha). apply list_elem_of_fmap in Hi' as ([b k'] & E & Hb). simpl in E. subst k'.
    apply elem_of_map_to_list in Ha, Hb. pose proof (index_injective m (AtCamelotV3 a) (AtLynexAlgebraV1_9 b) k Hm Ha Hb). done.
  - apply NoDup_values. intros a b i Ha Hb. pose proof (index_injective m (AtLynexAlgebraV1_9 a) (AtLynexAlgebraV1_9 b) i Hm Ha Hb). congruence.
Qed.

(** The pools after a head: adaptive ones are advanced, the others untouched. *)
Definition pools_advanced (timestamp : Z) (changed : option nat) (pools pools' : list HydratedPool) : Prop :=
  length pools' = length pools /\
  forall j h, pools !! j = Some h -> exists h', pools' !! j = Some h' /\
    (if is_algebra (locator_of (hp_identity h)) then pool_advanced timestamp h h' else h' = h) /\
    (changed <> Some j -> hp_pool h' = hp_pool h).

Lemma refresh_all_spec timestamp m m' changed :
  mirror_ok m -> refresh_adaptive_algebra_heads head_order timestamp m = (m', Ok changed) ->
  mirror_ok m' /\ pools_advanced timestamp changed (dm_pools m) (dm_pools m') /\
  (forall j, changed = Some j -> exists l, pool_index_of (dm_indices m) l = Some j) /\
  m' = with_pools_pending m (dm_pools m') (pending_adaptive_fees m).
Proof.
  unfold refresh_adaptive_algebra_heads, mbind', mget. intros Hm Hr.
  destruct (refresh_heads_spec _ _ _ _ _ _ (NoDup_head_order m Hm) (mo_pools m Hm) Hr) as (pools & -> & Hlen & Hc & Hall).
  assert (Hadv : pools_advanced timestamp changed (dm_pools m) pools).
  { split; [done|]. intros j h Hj. destruct (Hall j h Hj) as (h' & Hj' & He). exists h'. split; [done|]. unfold head_effect in He.
    destruct (is_algebra (locator_of (hp_identity h))) eqn:Ea.
    - rewrite decide_True in He; [done|]. apply elem_of_head_order. exists (locator_of (hp_identity h)). split; [done|].
      apply (mo_indices m Hm). by exists h.
    - rewrite decide_False in He; [by subst|]. intros Hin. apply elem_of_head_order in Hin as (l & Hl & Hi).
      apply (mo_indices m Hm) in Hi as (h2 & Hh2 & <-). rewrite Hj in Hh2. injection Hh2 as <-. congruence. }
  split; [|split; [done|split; [|done]]].
  - destruct Hm as [Hix Hpe Hh Hb]. destruct Hadv as [_ Hadv].
    assert (Hback : forall j h', pools !! j = Some h' -> exists h, dm_pools m !! j = Some h /\ pool_hydrated h' /\ hp_identity h' = hp_identity h).
    { intros j h' Hj. destruct (lookup_lt_is_Some_2 (dm_pools m) j) as [h Hj0]; [rewrite <- Hlen; by eapply lookup_lt_Some|].
      destruct (Hadv j h Hj0) as (h'' & Hj' & Hr' & _). rewrite Hj in Hj'. injection Hj' as <-. exists h. split; [done|].
      destruct (is_algebra _); [|subst; split; [by eapply Forall_lookup_1|done]]. destruct Hr' as [(_ & E & _) Hp _ _]. done. }
    split; simpl; [|congruence| |done].
    + intros l k. rewrite Hix. split; intros (h & Hk & Hid).
      * destruct (Hadv k h Hk) as (h' & Hk' & _). exists h'. split; [done|]. destruct (Hback k h' Hk') as (h0 & Hk0 & _ & E). rewrite Hk in Hk0. injection Hk0 as <-. by rewrite E.
      * destruct (Hback k h Hk) as (h0 & Hk0 & _ & E). exists h0. split; [done|]. by rewrite <- E.
    + apply Forall_lookup_2. intros j h' Hj. by destruct (Hback j h' Hj) as (? & _ & ? & _).
  - intros j ->. destruct Hc as [|(_ & k & E & Hk)]; [done|]. injection E as ->. apply elem_of_head_order in Hk as (l & _ & Hl). by exists l.
Qed.

Lemma canonical_ok m through complete head ts recent at_ :
  mirror_ok m -> through <= cb_number head -> mirror_ok (with_canonical m through complete head ts recent at_).
Proof. intros [? ? ? ?] Hle. by split. Qed.

Lemma mirror_ok_eta m : with_canonical m (backfilled_through m) (backfill_complete m) (latest_head m) (latest_head_timestamp m)
  (recent_head_timestamps m) (latest_head_received_at m) = m.
Proof. by destruct m. Qed.

(** What a head that was taken in did. *)
Inductive head_outcome (m : DexMirror) (head : CanonicalBlock) (ts : option Z) (m' : DexMirror) (r : HeadApplyResult) : Prop :=
  | head_kept :
      cb_number head <= cb_number (latest_head m) -> (cb_number head = cb_number (latest_head m) -> cb_hash head = cb_hash (latest_head m)) ->
      r = unchanged_head -> dm_pools m' = dm_pools m -> latest_head m' = latest_head m -> head_outcome m head ts m' r
  | head_followed :
      cb_number head = cb_number (latest_head m) + 1 -> cb_parent_hash head = cb_hash (latest_head m) ->
      latest_head m' = head -> latest_head_timestamp m' = ts -> ha_advanced r = true ->
      (forall j, ha_refresh_pool_index r = Some j -> exists l, pool_index_of (dm_indices m) l = Some j) ->
      (if has_adaptive_algebra_pools m then
         exists t, ts = Some t /\ pools_advanced t (ha_refresh_pool_index r) (dm_pools m) (dm_pools m') /\
           last (recent_head_timestamps m') = Some (cb_number head, cb_hash head, t)
       else dm_pools m' = dm_pools m /\ ha_refresh_pool_index r = None) ->
      head_outcome m head ts m' r.

Lemma apply_head_inv head ts received m m' r :
  mirror_ok m -> apply_head_at head_order head ts received m = (m', Ok r) -> mirror_ok m' /\ head_outcome m head ts m' r.
Proof.
  intros Hm Ha. unfold apply_head_at in Ha. unfold mbind' at 1, mget in Ha.
  destruct (Z.ltb_spec (cb_number head) (cb_number (latest_head m))) as [Hlt|Hge].
  { injection Ha as <- <-. split; [done|]. apply head_kept; try done; lia. }
  destruct (Z.eqb_spec (cb_number head) (cb_number (latest_head m))) as [Heq|Hne].
  - unfold mbind' at 1, mlift in Ha. destruct (ensure _ _) as [[]|] eqn:Eh; [|done].
    apply ensure_Ok, Z.eqb_eq in Eh. unfold mbind' at 1 in Ha.
    destruct (if has_adaptive_algebra_pools m then _ else _) as [m1 [[]|]] eqn:E1 in Ha; [|done].
    assert (exists recent, m1 = with_canonical m (backfilled_through m) (backfill_complete m) (latest_head m) (latest_head_timestamp m) recent
              (latest_head_received_at m)) as [recent ->].
    { destruct (has_adaptive_algebra_pools m); [|injection E1 as <-; by exists (recent_head_timestamps m); rewrite mirror_ok_eta].
      unfold mbind', mlift in E1. destruct (ensure _ _) as [[]|] in E1; [|done]. destruct (or_err ts _) as [t|] in E1; [|done].
      apply record_timestamp_inv in E1 as (recent & -> & _). by exists recent. }
    injection Ha as <- <-. split; [apply canonical_ok; [apply canonical_ok; [done|]|]; apply Hm|]. apply head_kept; done || lia.
  - unfold mbind' at 1, mlift in Ha. destruct (ensure _ _) as [[]|] eqn:En in Ha; [|done].
    apply ensure_Ok, Z.eqb_eq in En. unfold mbind' at 1 in Ha. destruct (ensure _ _) as [[]|] eqn:Ep in Ha; [|done].
    apply ensure_Ok, Z.eqb_eq in Ep. unfold mbind' at 1, put_head in Ha.
    set (m1 := with_canonical m _ _ head ts _ received) in Ha.
    assert (Hm1 : mirror_ok m1) by (apply canonical_ok; [done|]; pose proof (mo_backfill m Hm); lia).
    destruct (has_adaptive_algebra_pools m) eqn:Ead.
    + unfold mbind' at 1 in Ha. destruct (or_err ts _) as [t|] eqn:Et; [|done]. apply or_err_Ok in Et as ->.
      unfold mbind' at 1 in Ha. destruct (record_canonical_timestamp head t m1) as [m2 [[]|]] eqn:Er; [|done].
      apply record_timestamp_inv in Er as (recent & -> & Hlast & _). unfold mbind' at 1 in Ha.
      destruct (refresh_adaptive_algebra_heads head_order t _) as [m3 [changed|]] eqn:Ea in Ha; [|done]. injection Ha as <- <-.
      apply refresh_all_spec in Ea as (Hm3 & Hadv & Hix & E3); [|apply canonical_ok; [done|apply Hm1]].
      rewrite E3. rewrite E3 in Hm3, Hadv. split; [done|]. apply head_followed; try done. rewrite Ead. by exists t.
    + injection Ha as <- <-. split; [done|]. apply head_followed; try done. by rewrite Ead.
Qed.

(** The canonical head moves along the chain, one block at a time.  A head
    below the present one is ignored, one of the same height must be the same
    block and changes no pool, and a new one is accepted only as the child of the
    present head.  Accepting it advances every adaptive pool to the head's
    timestamp with a freshly computed envelope that covers every fee of its
    horizon, leaves all other pools alone, and reports the one pool whose curves
    have changed: the price, liquidity and charged fees of every other pool are
    what they were. *)
Theorem heads_advance_chain head ts received m m' r :
  mirror_ok m -> apply_head_at head_order head ts received m = (m', Ok r) ->
  mirror_ok m' /\
  if cb_number head <=? cb_number (latest_head m) then
    r = unchanged_head /\ dm_pools m' = dm_pools m /\ latest_head m' = latest_head m /\
    (cb_number head = cb_number (latest_head m) -> cb_hash head = cb_hash (latest_head m))
  else
    ha_advanced r = true /\ latest_head m' = head /\ latest_head_timestamp m' = ts /\
    cb_number head = cb_number (latest_head m) + 1 /\ cb_parent_hash head = cb_hash (latest_head m) /\
    (forall j, ha_refresh_pool_index r = Some j -> exists l, pool_index_of (dm_indices m) l = Some j) /\
    if has_adaptive_algebra_pools m then
      exists t, ts = Some t /\ pools_advanced t (ha_refresh_pool_index r) (dm_pools m) (dm_pools m') /\
        last (recent_head_timestamps m') = Some (cb_number head, cb_hash head, t)
    else dm_pools m' = dm_pools m.
Proof.
  intros Hm Ha. apply apply_head_inv in Ha as [Hm' Ho]; [|done]. split; [done|].
  destruct Ho as [Hle Hh -> Hp Hl|Hn Hpar Hl Ht Hadv Hix Hcase].
  - by rewrite (proj2 (Z.leb_le _ _)) by done.
  - rewrite (proj2 (Z.leb_gt _ _)) by lia. split_and!; try done. destruct (has_adaptive_algebra_pools m); [done|by destruct Hcase].
Qed.
End heads.
