(* ===== verification/EngineDex.v ===== *)
(** * Chain events in the engine ([src/src/engine.rs])

    The part of [TradingEngine] that applies the chain's events: a pool log or a
    head goes to the mirror, a pool whose curves changed is withdrawn and sent to
    the builder, a built pool is published and handed to the entry preflight, and
    the receipt of a finished trade settles its pool ahead of the stream.  The
    composition is shown to be a run of the publication protocol of
    [PreparedPools] on the mirror's pools. *)
From Stdlib Require Import Lia.
From stdpp Require Import base strings numbers option gmap fin_maps relations list.
From S2P Require Import Prelude ExecutionPlan Clmm ClmmCurve TradeData RuntimeState Preflight PaperDriver OpportunitySearch FeeProjection HydratedPools PreparedPools PlanBuild Events EventFacts Mirror MirrorFacts.

Inductive DexStreamEvent :=
  | DexLog (log : ChainLog) (block_timestamp : Z)
  | DexHead (head : CanonicalBlock) (timestamp received_at : Z).

Record ArbitragePlanFreshness := mkFreshness { af_pair_id : string; af_pool_index : nat; af_pool_generation : Z }.

(** The fields of [PaperTradeEvent] that carry the proof of a settlement. *)
Record SettledTrade := mkSettled {
  st_event : PaperTradeEvent;
  st_resumed_after_restart : bool;
  st_dex_settlement_fee : option AdaptiveFeeReceiptProof;
  st_dex_settlement_log : option ChainLog;
}.

(** The pairs of the domain configuration, as far as they are used here. *)
Record DomainPair := mkDomainPair {
  dp_id : string; dp_market_data_enabled : bool; dp_token_a_decimals : Z; dp_token_b_decimals : Z;
}.

(** The part of [TradingEngine] the handlers of this file touch. *)
Record EngineDex := mkEngineDex {
  en_dex : DexMirror;
  en_opportunities : OpportunityEngine;
  en_preflight : EntryPreflightState;
  en_freshness : gmap string ArbitragePlanFreshness;
}.

Definition on_dex {A} (f : M DexMirror ClmmError A) : M EngineDex ClmmError A := fun s =>
  let '(d, r) := f (en_dex s) in (mkEngineDex d (en_opportunities s) (en_preflight s) (en_freshness s), r).
Definition on_opportunities {A} (f : M OpportunityEngine ClmmError A) : M EngineDex ClmmError A := fun s =>
  let '(o, r) := f (en_opportunities s) in (mkEngineDex (en_dex s) o (en_preflight s) (en_freshness s), r).
Definition on_preflight (f : EntryPreflightState -> EntryPreflightState) : M EngineDex ClmmError unit := fun s =>
  (mkEngineDex (en_dex s) (en_opportunities s) (f (en_preflight s)) (en_freshness s), Ok tt).

(** [DexMirror::refresh_pool_for_publication]. *)
Definition publish_pool (i : nat) : M DexMirror ClmmError bool := fun m =>
  let '(pools, r) := refresh_pool_for_publication i (dm_pools m) in (with_pools_pending m pools (pending_adaptive_fees m), r).

Definition request_refresh (i : nat) : M EngineDex ClmmError PreparedPoolBuildRequest :=
  do s <- mget ;;
  on_opportunities (request_pool_refresh i (dm_pools (en_dex s))).

(** The curves of a changed pool are withdrawn and their rebuild is requested. *)
Definition republish (i : nat) : M EngineDex ClmmError PreparedPoolBuildRequest :=
  do! on_dex (publish_pool i) ;;
  request_refresh i.

Fixpoint for_each {S E A} (f : A -> M S E unit) (l : list A) : M S E unit :=
  match l with
  | [] => mret tt
  | a :: rest => do! f a ;; for_each f rest
  end.

Section engine.
Context `{EvmText}.
Variable head_order : PoolIndices -> list nat.
Variable pairs : list DomainPair.

Definition apply_dex_event (event : DexStreamEvent) (emit_hot_path_latency : bool)
  : M EngineDex ClmmError (option PreparedPoolBuildRequest) :=
  match event with
  | DexLog log block_timestamp =>
      do applied <- on_dex (apply_log_at_timestamp log block_timestamp) ;;
      match applied with
      | Applied pool_index kind refresh_required =>
          do request <- (if refresh_required then do r <- republish pool_index ;; mret (Some r) else mret None) ;;
          do s <- mget ;;
          do! mlift (if emit_hot_path_latency then rmap (fun _ => tt) (pool_generation (en_opportunities s) pool_index) else Ok tt) ;;
          mret request
      | _ => mret None
      end
  | DexHead head timestamp received_at =>
      do applied <- on_dex (apply_head_at head_order head (Some timestamp) received_at) ;;
      do pair <- mlift (or_err (list.head pairs) (CMsg "validated engine has a pair")) ;;
      do s <- mget ;;
      do! on_preflight (update_dex_head (dp_id pair) (latest_head_received_at (en_dex s))) ;;
      match ha_refresh_pool_index applied with
      | Some pool_index => do r <- request_refresh pool_index ;; mret (Some r)
      | None => mret None
      end
  end.
Definition on_dex_event (event : DexStreamEvent) := apply_dex_event event true.
Definition on_startup_dex_event (event : DexStreamEvent) := apply_dex_event event false.

Definition domain_pair (id : string) : option DomainPair := List.find (fun p => bool_decide (dp_id p = id)) pairs.

Definition refresh_preflight_dex_pool (i : nat) : M EngineDex ClmmError unit :=
  do s <- mget ;;
  do pool <- mlift (or_err (dm_pools (en_dex s) !! i) (CMsg "DEX pool index is invalid")) ;;
  do pair <- mlift (or_err (domain_pair (hp_pair_id pool)) (CMsg "DEX pool has no domain pair")) ;;
  do generation <- mlift (pool_generation (en_opportunities s) i) ;;
  do fee_generation <- mlift (pool_fee_generation (en_opportunities s) i) ;;
  do curves <- mlift (preflight_exact_input_curves (en_opportunities s) i) ;;
  do curves <- mlift (or_err curves (CMsg "prepared DEX pool is unavailable for preflight")) ;;
  on_preflight (update_dex_pool_with_fee_generation (hp_pair_id pool) (Z.of_nat i)
    (mkPreflightPool generation fee_generation (dp_token_a_decimals pair) (dp_token_b_decimals pair) curves.1 curves.2)).

(** The same for a pool prepared at the start. *)
Definition start_preflight_dex_pool (i : nat) : M EngineDex ClmmError unit :=
  do s <- mget ;;
  do pool <- mlift (or_err (dm_pools (en_dex s) !! i) (CMsg "DEX pool index is invalid")) ;;
  do pair <- mlift (or_err (domain_pair (hp_pair_id pool)) (CMsg "DEX pool has no domain pair")) ;;
  do curves <- mlift (preflight_exact_input_curves (en_opportunities s) i) ;;
  do curves <- mlift (or_err curves (CMsg "initial prepared DEX pool is unavailable for preflight")) ;;
  do generation <- mlift (pool_generation (en_opportunities s) i) ;;
  do fee_generation <- mlift (pool_fee_generation (en_opportunities s) i) ;;
  on_preflight (update_dex_pool_with_fee_generation (hp_pair_id pool) (Z.of_nat i)
    (mkPreflightPool generation fee_generation (dp_token_a_decimals pair) (dp_token_b_decimals pair) curves.1 curves.2)).

(** The market part of [TradingEngine::new], on the runtimes of the enabled pairs. *)
Definition new_engine_dex `{UniswapV3Math} (runtimes : list PairRuntime) (symbols : list string) (buy_fee sell_fee max_head_age_ms : Z)
    (dex : DexMirror) (preflight : EntryPreflightState) : CRes EngineDex :=
  let? opportunities := new_engine runtimes (dm_pools dex) in
  snd ((do! for_each (fun sym => on_opportunities (set_binance_fee_bps sym buy_fee sell_fee)) symbols ;;
   do! on_preflight (configure_dex_max_head_age max_head_age_ms) ;;
   do! for_each (fun p => on_preflight (update_dex_head (dp_id p) (latest_head_received_at dex))) (List.filter dp_market_data_enabled pairs) ;;
   do! for_each start_preflight_dex_pool (seq 0 (length (oe_pool_generations opportunities))) ;;
   mget) (mkEngineDex dex opportunities preflight ∅)).

Definition on_prepared_pool (result : PreparedPoolBuildResult) : M EngineDex ClmmError unit :=
  do prepared <- on_opportunities (finish_pool_refresh result) ;;
  match prepared with
  | None => mret tt
  | Some prepared => refresh_preflight_dex_pool (rf_pool_index prepared)
  end.

(** ** Settlement from a receipt *)
Definition adaptive_locator (m : DexMirror) (a : Z) : option PoolLocator :=
  if bool_decide (is_Some (camelot_v3_indices (dm_indices m) !! a)) then Some (AtCamelotV3 a)
  else if bool_decide (is_Some (lynex_algebra_v1_9_indices (dm_indices m) !! a)) then Some (AtLynexAlgebraV1_9 a)
  else None.

Definition proof_pool (p : AdaptiveFeeReceiptProof) : Z := match p with CamelotProof pool _ _ _ _ _ _ | LynexProof pool _ _ _ _ _ => pool end.

(** The fee of the receipt, applied before its swap; [None]: its block is not
    known yet. *)
Definition settle_fee (locator : PoolLocator) (i : nat) (target : ChainLog) (fee : AdaptiveFeeReceiptProof)
  : M DexMirror ClmmError (option Z) :=
  do! mlift (ensure ((proof_pool fee =? log_address target) && (proof_block_number fee =? log_block_number target)
                     && (proof_block_hash fee =? log_block_hash target)
                     && (lp_transaction_index (proof_position fee) =? log_transaction_index target)
                     && (lp_log_index (proof_position fee) <? log_log_index target))
               (CMsg "adaptive Algebra receipt Fee is not positionally before Swap")) ;;
  do m <- mget ;;
  match canonical_timestamp_for_log m target with
  | None => mret None
  | Some timestamp =>
      do! mlift (ensure (match locator, fee with
                         | AtCamelotV3 _, CamelotProof _ _ _ _ _ _ _ | AtLynexAlgebraV1_9 _, LynexProof _ _ _ _ _ _ => true
                         | _, _ => false
                         end) (CMsg "adaptive Algebra receipt Fee proof belongs to another provider")) ;;
      do applied <- apply_fee_receipt fee timestamp ;;
      do! mlift (match applied with
                 | Applied k kind refresh_required =>
                     if String.eqb kind "fee" && negb refresh_required
                     then ensure (k =? i)%nat (CMsg "receipt settlement Fee applied another pool")
                     else Err (CMsg "adaptive Algebra receipt Fee produced an invalid apply result")
                 | Duplicate => Ok tt
                 | UnknownPool => Err (CMsg "adaptive Algebra receipt Fee targets an unknown pool")
                 end) ;;
      mret (Some timestamp)
  end.

Definition settle_swap (i : nat) (target : ChainLog) (block_timestamp : option Z)
  : M EngineDex ClmmError (option PreparedPoolBuildRequest) :=
  do applied <- on_dex (match block_timestamp with
                        | Some timestamp => apply_log_at_timestamp target timestamp
                        | None => apply_static_fee_receipt_log target
                        end) ;;
  match applied with
  | Applied k _ _ =>
      do! mlift (ensure (k =? i)%nat (CMsg "receipt settlement applied another pool")) ;;
      do r <- republish i ;;
      mret (Some r)
  | Duplicate => mret None
  | UnknownPool => mfail (CMsg "receipt settlement Swap targets an unknown pool")
  end.

Definition apply_arbitrage_receipt_settlement (event : SettledTrade)
  : M EngineDex ClmmError (option PreparedPoolBuildRequest) :=
  if negb (match pe_state (st_event event) with PaperDriver.Balanced => true | _ => false end) || negb (pe_dex_filled (st_event event)) then mret None else
  match st_dex_settlement_log event with
  | None => mret None
  | Some target =>
      do! mlift (ensure (negb (log_removed target)) (CMsg "receipt settlement Swap event is removed")) ;;
      do s <- mget ;;
      let freshness := en_freshness s !! pe_plan_id (st_event event) in
      do! mlift (ensure (bool_decide (is_Some freshness) || st_resumed_after_restart event)
                   (CMsg "settlement proof has no admitted plan freshness")) ;;
      let locator := adaptive_locator (en_dex s) (log_address target) in
      do decoded <- mlift (lift_fee (match locator with
                                     | Some l => decode_pool_event_for_locator target l
                                     | None => decode_pool_event target
                                     end)) ;;
      do decoded <- mlift (or_err decoded (CMsg "receipt settlement log is not a recognized pool event")) ;;
      do! mlift (ensure (is_swap (ev_update decoded)) (CMsg "receipt settlement log is not a Swap event")) ;;
      do i <- mlift (or_err (pool_index_of (dm_indices (en_dex s)) (ev_locator decoded)) (CMsg "settlement proof targets an unknown pool")) ;;
      do! mlift (ensure (match freshness with None => true | Some f => (i =? af_pool_index f)%nat end)
                   (CMsg "settlement proof pool differs from the admitted pool")) ;;
      if log_block_number target <=? backfilled_through (en_dex s) then mret None else
      match locator, st_dex_settlement_fee event with
      | Some _, None => mret None
      | Some l, Some fee =>
          do timestamp <- on_dex (settle_fee l i target fee) ;;
          match timestamp with
          | None => mret None
          | Some timestamp => settle_swap i target (Some timestamp)
          end
      | None, fee =>
          do! mlift (ensure (bool_decide (fee = None)) (CMsg "static-fee receipt unexpectedly carries an adaptive Algebra Fee")) ;;
          settle_swap i target None
      end
  end.
End engine.
