(* ===== verification/EngineDexFacts.v ===== *)
(** * The engine's chain events publish current curves ([src/src/engine.rs])

    Each handler of [EngineDex] is a run of the publication protocol on the
    mirror's pools; so the curves published to the search and to the entry
    preflight stay those of the mirror's present pools. *)
From Stdlib Require Import Lia.
From stdpp Require Import base strings numbers option gmap fin_maps relations list.
From S2P Require Import Prelude ExecutionPlan Clmm ClmmCurve TradeData RuntimeState Preflight PaperDriver OpportunitySearch FeeProjection HydratedPools PreparedPools PlanBuild Events EventFacts Mirror MirrorFacts EngineDex.

(** ** What an operation of the mirror does to its pools *)
Lemma step_same_source h h' : pool_step h h' -> hp_pool h' = hp_pool h -> same_source h h'.
Proof.
  intros [_ _ [Ht _] _ Hc _] Hp. split; [done|]. split; [done|].
  destruct (hp_camelot_fee h'), (hp_camelot_fee h); try discriminate Hc; split; intros [? ?]; done || by eexists.
Qed.

#[global] Instance same_source_refl : Reflexive same_source.
Proof. by intros h. Qed.

Lemma touched_pools i R Q m m' h :
  touches (at_pool i R) Q m m' -> dm_pools m !! i = Some h ->
  exists h', dm_pools m' = <[i := h']> (dm_pools m) /\ R h h'.
Proof.
  intros (pools & pending & -> & Hl & _ & Hp & _) Hi. destruct (Hp i h Hi) as (h' & Hi' & Hr).
  unfold at_pool in Hr. rewrite decide_True in Hr by done. exists h'. split; [|done]. simpl. apply list_eq. intros j.
  destruct (decide (j = i)) as [->|Hne].
  - by rewrite Hi', list_lookup_insert_eq by (by eapply lookup_lt_Some).
  - rewrite list_lookup_insert_ne by done. destruct (dm_pools m !! j) as [g|] eqn:Ej.
    + destruct (Hp j g Ej) as (g' & -> & Hg). unfold at_pool in Hg. rewrite decide_False in Hg by done. by subst.
    + apply lookup_ge_None in Ej. apply lookup_ge_None. lia.
Qed.

Lemma touched_quiet i m m' :
  touches (at_pool i fee_step) (eq i) m m' -> Forall2 same_source (dm_pools m) (dm_pools m').
Proof.
  intros (pools & pending & -> & Hl & _ & Hp & _). simpl. apply Forall2_same_length_lookup_2; [done|].
  intros j h h' Hj Hj'. destruct (Hp j h Hj) as (h2 & Hj2 & Hr). assert (h2 = h') as -> by congruence.
  unfold at_pool in Hr. destruct (decide (j = i)); [|by subst]. destruct Hr. by apply step_same_source.
Qed.

Lemma insert_quiet i h h' (pools : list HydratedPool) :
  pools !! i = Some h -> same_source h h' -> Forall2 same_source pools (<[i := h']> pools).
Proof.
  intros Hi Hs. apply Forall2_same_length_lookup_2; [by rewrite length_insert|].
  intros j a b Ha Hb. destruct (decide (j = i)) as [->|Hne].
  - rewrite list_lookup_insert_eq in Hb by (by eapply lookup_lt_Some). congruence.
  - rewrite list_lookup_insert_ne in Hb by done. by simplify_eq.
Qed.

(** Advanced pools: the reported one is set aside, the others are unchanged for
    their curves. *)
Lemma advanced_quiet t changed pools pools' :
  pools_advanced t changed pools pools' ->
  match changed with
  | None => Forall2 same_source pools pools'
  | Some i => forall h h', pools !! i = Some h -> pools' !! i = Some h' -> Forall2 same_source pools (<[i := h]> pools')
  end.
Proof.
  intros [Hl Hall].
  assert (Hsame : forall j h h', changed <> Some j -> pools !! j = Some h -> pools' !! j = Some h' -> same_source h h').
  { intros j h h' Hj Hh Hh'. destruct (Hall j h Hh) as (h2 & Hh2 & Hcase & Hpool). assert (h2 = h') as -> by congruence.
    destruct (is_algebra _); [|by subst]. destruct Hcase as [(_ & _ & Ht & _) _ Hc _]. split; [by apply Hpool|]. by split. }
  destruct changed as [i|].
  - intros h h' Hi Hi'. apply Forall2_same_length_lookup_2; [rewrite length_insert; congruence|]. intros j a b Ha Hb.
    destruct (decide (j = i)) as [->|Hne].
    + rewrite list_lookup_insert_eq in Hb by (by eapply lookup_lt_Some). by simplify_eq.
    + rewrite list_lookup_insert_ne in Hb by done. apply (Hsame j); [congruence|done|done].
  - apply Forall2_same_length_lookup_2; [congruence|]. intros j a b. by apply Hsame.
Qed.

Lemma indexed_pool m l i : mirror_ok m -> pool_index_of (dm_indices m) l = Some i -> exists h, dm_pools m !! i = Some h.
Proof. intros Hm Hl. apply (mo_indices m Hm) in Hl as (h & Hi & _). by exists h. Qed.

Definition same_pairs (pools pools' : list HydratedPool) : Prop :=
  forall i h, pools !! i = Some h -> exists h', pools' !! i = Some h' /\ hp_pair_id h' = hp_pair_id h.
#[global] Instance same_pairs_preorder : PreOrder same_pairs.
Proof.
  split; [intros l i h Hi; by exists h|]. intros a b c H1 H2 i h Hi. destruct (H1 i h Hi) as (h1 & Hi1 & E1).
  destruct (H2 i h1 Hi1) as (h2 & Hi2 & E2). exists h2. split; [done|congruence].
Qed.

Lemma log_effect `{EvmText} log ts origin m m' r :
  mirror_ok m -> apply_log_inner log ts origin m = (m', Ok r) ->
  mirror_ok m' /\
  match r with
  | Applied i _ refresh => exists h h', dm_pools m !! i = Some h /\ dm_pools m' = <[i := h']> (dm_pools m) /\ pool_step h h' /\
      (refresh = false -> same_source h h')
  | _ => m' = m
  end.
Proof.
  intros Hm Ha. apply apply_log_inv in Ha. destruct r as [i kind refresh| |]; [|by subst..].
  destruct Ha as (ev & m1 & Hacc & Hu & -> & _). destruct (update_ok i ev log ts m m1 refresh Hm Hu) as [Hm1 Ht].
  split; [by apply with_frontier_ok|]. destruct (indexed_pool _ _ _ Hm (la_index _ _ _ _ _ Hacc)) as [h Hi].
  destruct (touched_pools _ _ _ _ _ _ Ht Hi) as (h' & E & Hs). exists h, h'. split; [done|]. split; [done|]. split; [done|].
  intros ->. apply quiet_update in Hu. destruct (touched_pools _ _ _ _ _ _ Hu Hi) as (h2 & E2 & Hs2 & Hp).
  assert (h2 = h') as ->; [|by apply step_same_source].
  assert (<[i := h2]> (dm_pools m) !! i = <[i := h']> (dm_pools m) !! i) as Hx by congruence.
  rewrite !list_lookup_insert_eq in Hx by (by eapply lookup_lt_Some). by injection Hx.
Qed.

(** Only the pool [i] changed, within its pair. *)
Definition changed_at (i : nat) (pools pools' : list HydratedPool) : Prop :=
  exists h h', pools !! i = Some h /\ pools' = <[i := h']> pools /\ hp_pair_id h' = hp_pair_id h.

Lemma changed_trans i a b c : changed_at i a b -> changed_at i b c -> changed_at i a c.
Proof.
  intros (h & h' & Hi & -> & E) (g & g' & Hg & -> & E'). exists h, g'. rewrite list_insert_insert_eq. split; [done|]. split; [done|].
  rewrite list_lookup_insert_eq in Hg by (by eapply lookup_lt_Some). congruence.
Qed.

Lemma publish_effect i m m' b :
  mirror_ok m -> is_Some (dm_pools m !! i) -> publish_pool i m = (m', Ok b) -> mirror_ok m' /\ changed_at i (dm_pools m) (dm_pools m').
Proof.
  intros Hm [h Hi]. unfold publish_pool, refresh_pool_for_publication. rewrite Hi.
  destruct (_ || _) eqn:Ea.
  - destruct (refresh_adaptive_algebra_envelope h) as [h' [changed|]] eqn:Er; intros [= <- <-].
    pose proof (refresh_refreshed h h' changed Er) as [Hpair _ _ _].
    split; [|by exists h, h']. pose proof (Forall_lookup_1 _ _ _ _ (mo_pools m Hm) Hi) as Hh.
    destruct (refresh_hydrated h h' changed Er Hh) as [Hh' _].
    pose proof (refresh_published h h' changed Er) as [[Hid _] _ _].
    destruct Hm as [Hix Hpe Hp Hb]. split; simpl; [|by rewrite length_insert|by apply Forall_insert|done].
    intros l k. rewrite Hix. destruct (decide (k = i)) as [->|Hne]; [|by rewrite list_lookup_insert_ne].
    rewrite list_lookup_insert_eq by (by eapply lookup_lt_Some). rewrite Hi.
    split; intros (g & [= <-] & Hg); eexists; (split; [done|]); congruence.
  - intros [= <- <-]. split; [by destruct m|]. exists h, h. simpl. by rewrite list_insert_id.
Qed.

Lemma changed_pairs i pools pools' : changed_at i pools pools' -> same_pairs pools pools'.
Proof.
  intros (h & h' & Hi & -> & E) j g Hj. destruct (decide (j = i)) as [->|Hne].
  - exists h'. rewrite list_lookup_insert_eq by (by eapply lookup_lt_Some). split; [done|]. congruence.
  - exists g. by rewrite list_lookup_insert_ne.
Qed.

Lemma advanced_pairs t changed pools pools' : pools_advanced t changed pools pools' -> same_pairs pools pools'.
Proof.
  intros [_ Hall] j h Hj. destruct (Hall j h Hj) as (h' & Hj' & Hc & _). exists h'. split; [done|].
  destruct (is_algebra _); [by destruct Hc as [(? & _)]|by subst].
Qed.

(** ** The handlers as runs of the protocol *)
Definition published (s : EngineDex) (batch : list PreparedPoolBuildRequest) (results : list PreparedPoolBuildResult) : Publication :=
  mkPublication (dm_pools (en_dex s)) (en_opportunities s) batch results.

Definition enqueue (batch : list PreparedPoolBuildRequest) (r : option PreparedPoolBuildRequest) : list PreparedPoolBuildRequest :=
  match r with Some r => queue batch r | None => batch end.

(** No pool has been rebuilt 2^64 - 1 times. *)
Definition generations_below (e : OpportunityEngine) : Prop :=
  forall i g, oe_pool_generations e !! i = Some g -> g < USIZE_MAX.

Section simulation.
Context `{EvmText} `{UniswapV3Math}.

Record simulates (s : EngineDex) (batch : list PreparedPoolBuildRequest) (results : list PreparedPoolBuildResult)
    (s' : EngineDex) (r : option PreparedPoolBuildRequest) : Prop := {
  sm_mirror : mirror_ok (en_dex s');
  sm_pairs : same_pairs (dm_pools (en_dex s)) (dm_pools (en_dex s'));
  sm_run : rtc pub_step (published s batch results) (published s' (enqueue batch r) results);
  sm_preflight : dex_pools (en_preflight s') = dex_pools (en_preflight s);
  sm_freshness : en_freshness s' = en_freshness s;
}.

Lemma request_simulated i dex s s' h' r batch results :
  request_refresh i s = (s', Ok r) -> dm_pools (en_dex s) = <[i := h']> dex -> (i < length dex)%nat ->
  generations_below (en_opportunities s) ->
  s' = mkEngineDex (en_dex s) (en_opportunities s') (en_preflight s) (en_freshness s) /\
  pub_step (mkPublication dex (en_opportunities s) batch results) (published s' (queue batch r) results).
Proof.
  unfold request_refresh, mbind', mget, on_opportunities. intros Hr Hd Hi Hb.
  destruct (request_pool_refresh i (dm_pools (en_dex s)) (en_opportunities s)) as [o r0] eqn:E. injection Hr as <- ->.
  split; [done|]. unfold published. simpl. rewrite Hd in *.
  destruct (request_inv _ _ _ _ _ E) as (g & Hg & _). by eapply pub_event; [| |eapply Hb| ].
Qed.

Lemma republish_simulated i pools s s' r batch results :
  republish i s = (s', Ok r) -> mirror_ok (en_dex s) -> changed_at i pools (dm_pools (en_dex s)) ->
  generations_below (en_opportunities s) ->
  mirror_ok (en_dex s') /\ changed_at i pools (dm_pools (en_dex s')) /\
  en_preflight s' = en_preflight s /\ en_freshness s' = en_freshness s /\
  pub_step (mkPublication pools (en_opportunities s) batch results) (published s' (queue batch r) results).
Proof.
  unfold republish. intros Hr Hm Hc Hb. unfold mbind' at 1, on_dex in Hr.
  destruct (publish_pool i (en_dex s)) as [d [b|]] eqn:Ep; [|done].
  destruct (publish_effect i (en_dex s) d b Hm) as [Hd Hc2]; [|done|].
  { destruct Hc as (h & h' & Hi & -> & _). rewrite list_lookup_insert_eq by (by eapply lookup_lt_Some). by eexists. }
  pose proof (changed_trans _ _ _ _ Hc Hc2) as Hc3. destruct Hc3 as (h & h' & Hi & E & Hp).
  destruct (request_simulated i pools _ s' h' r batch results Hr E) as [-> Hstep]; [by eapply lookup_lt_Some|done|].
  simpl in *. split; [done|]. split; [by exists h, h'|done].
Qed.

Lemma simulates_refl s batch results : mirror_ok (en_dex s) -> simulates s batch results s None.
Proof. by split. Qed.

(** A change that no curve depends on. *)
Lemma simulates_quiet s batch results d :
  mirror_ok d -> same_pairs (dm_pools (en_dex s)) (dm_pools d) -> Forall2 same_source (dm_pools (en_dex s)) (dm_pools d) ->
  simulates s batch results (mkEngineDex d (en_opportunities s) (en_preflight s) (en_freshness s)) None.
Proof. intros Hd Hp Hs. split; simpl; try done. apply rtc_once. by apply pub_quiet. Qed.

Lemma simulates_trans s batch results s1 s2 r :
  simulates s batch results s1 None -> simulates s1 batch results s2 r -> simulates s batch results s2 r.
Proof.
  intros [_ P1 R1 F1 G1] [M2 P2 R2 F2 G2]. split; [done|by etransitivity|by etransitivity|congruence|congruence].
Qed.

Lemma log_simulated log ts origin s s' batch results applied :
  mirror_ok (en_dex s) -> on_dex (apply_log_inner log ts origin) s = (s', Ok applied) ->
  mirror_ok (en_dex s') /\ s' = mkEngineDex (en_dex s') (en_opportunities s) (en_preflight s) (en_freshness s) /\
  match applied with
  | Applied i _ refresh => changed_at i (dm_pools (en_dex s)) (dm_pools (en_dex s')) /\ (refresh = false -> simulates s batch results s' None)
  | _ => s' = s
  end.
Proof.
  unfold on_dex. intros Hm Ha. destruct (apply_log_inner log ts origin (en_dex s)) as [d r] eqn:E. injection Ha as <- ->.
  destruct (log_effect _ _ _ _ _ _ Hm E) as [Hd Hcase]. simpl. split; [done|]. split; [done|].
  destruct applied as [i kind refresh| |]; [|subst; by destruct s..].
  destruct Hcase as (h & h' & Hi & Ep & Hs & Hq). assert (Hc : changed_at i (dm_pools (en_dex s)) (dm_pools d)).
  { exists h, h'. split; [done|]. split; [done|]. by destruct Hs. }
  split; [done|]. intros ->. apply simulates_quiet; [done|by eapply changed_pairs|]. rewrite Ep. eapply insert_quiet; [done|by apply Hq].
Qed.

Lemma refreshed_log s s1 s' i r batch results :
  mirror_ok (en_dex s1) -> changed_at i (dm_pools (en_dex s)) (dm_pools (en_dex s1)) ->
  s1 = mkEngineDex (en_dex s1) (en_opportunities s) (en_preflight s) (en_freshness s) ->
  generations_below (en_opportunities s) -> republish i s1 = (s', Ok r) -> simulates s batch results s' (Some r).
Proof.
  intros Hm1 Hc E1 Hb Hr. assert (Ho : en_opportunities s1 = en_opportunities s) by (by rewrite E1).
  destruct (republish_simulated i _ s1 s' r batch results Hr Hm1 Hc) as (Hm' & Hc' & Hp & Hf & Hstep); [by rewrite Ho|].
  rewrite Ho in Hstep. split; [done|by eapply changed_pairs|by apply rtc_once|by rewrite Hp, E1|by rewrite Hf, E1].
Qed.

Lemma head_simulated head_order head ts received s s' applied :
  (forall ix, head_order ix ≡ₚ (map_to_list (camelot_v3_indices ix)).*2 ++ (map_to_list (lynex_algebra_v1_9_indices ix)).*2) ->
  mirror_ok (en_dex s) -> on_dex (apply_head_at head_order head (Some ts) received) s = (s', Ok applied) ->
  mirror_ok (en_dex s') /\ same_pairs (dm_pools (en_dex s)) (dm_pools (en_dex s')) /\
  s' = mkEngineDex (en_dex s') (en_opportunities s) (en_preflight s) (en_freshness s) /\
  match ha_refresh_pool_index applied with
  | None => Forall2 same_source (dm_pools (en_dex s)) (dm_pools (en_dex s'))
  | Some i => exists h h', dm_pools (en_dex s) !! i = Some h /\ dm_pools (en_dex s') !! i = Some h' /\
      Forall2 same_source (dm_pools (en_dex s)) (<[i := h]> (dm_pools (en_dex s')))
  end.
Proof.
  unfold on_dex. intros Hord Hm Ha. destruct (apply_head_at head_order head (Some ts) received (en_dex s)) as [d r] eqn:E. injection Ha as <- ->.
  destruct (apply_head_inv head_order Hord head (Some ts) received (en_dex s) d applied Hm E) as [Hd Ho]. simpl.
  assert (Hsame : forall l, Forall2 same_source l l) by (intros l; reflexivity).
  split; [done|]. destruct Ho as [_ _ -> -> _|_ _ _ _ _ Hin Hcase].
  { split; [reflexivity|]. split; [done|]. simpl. apply Hsame. }
  destruct (has_adaptive_algebra_pools (en_dex s)); [|by destruct Hcase as [-> ->]]. destruct Hcase as (t & _ & Hadv & _).
  split; [by eapply advanced_pairs|]. split; [done|]. pose proof (advanced_quiet _ _ _ _ Hadv) as Hq.
  destruct (ha_refresh_pool_index applied) as [i|]; [|done].
  destruct (Hin i eq_refl) as (l & Hl). destruct (indexed_pool _ _ _ Hm Hl) as [h Hi].
  destruct (advanced_pairs _ _ _ _ Hadv i h Hi) as (h' & Hi' & _). exists h, h'. split; [done|]. split; [done|]. by eapply Hq.
Qed.

Context (head_order : PoolIndices -> list nat) (pairs : list DomainPair).
Hypothesis head_order_values : forall ix,
  head_order ix ≡ₚ (map_to_list (camelot_v3_indices ix)).*2 ++ (map_to_list (lynex_algebra_v1_9_indices ix)).*2.

Lemma dex_event_simulated event emit s s' r batch results :
  mirror_ok (en_dex s) -> generations_below (en_opportunities s) ->
  apply_dex_event head_order pairs event emit s = (s', Ok r) -> simulates s batch results s' r.
Proof.
  intros Hm Hb Ha. unfold apply_dex_event in Ha. destruct event as [log ts|head ts received]; unfold mbind' at 1 in Ha.
  - destruct (on_dex _ s) as [s1 [applied|]] eqn:El; [|done].
    destruct (log_simulated _ _ _ _ _ batch results _ Hm El) as (Hm1 & E1 & Hcase).
    destruct applied as [i kind refresh| |]; [|injection Ha as <- <-; subst s1; by apply simulates_refl..].
    destruct Hcase as [Hc Hq]. unfold mbind' at 1 in Ha. destruct refresh.
    + unfold mbind' at 1 in Ha. destruct (republish i s1) as [s2 [r2|]] eqn:Er; [|done]. unfold mret at 1, mbind', mget, mlift, mret in Ha.
      destruct (if emit then _ else _) as [[]|]; [|done]. injection Ha as <- <-. by eapply refreshed_log.
    + unfold mret at 1, mbind', mget, mlift, mret in Ha. destruct (if emit then _ else _) as [[]|]; [|done]. injection Ha as <- <-. by apply Hq.
  - destruct (on_dex _ s) as [s1 [applied|]] eqn:El; [|done].
    destruct (head_simulated head_order head ts received s s1 applied head_order_values Hm El) as (Hm1 & Hp & E1 & Hcase).
    unfold mbind' at 1, mlift in Ha. destruct (or_err (list.head pairs) _) as [pair0|]; [|done].
    unfold mbind' at 1, mget, mbind' at 1, on_preflight in Ha. set (s2 := mkEngineDex _ _ _ _) in Ha.
    assert (Hpre : dex_pools (en_preflight s2) = dex_pools (en_preflight s)).
    { unfold s2. simpl. rewrite E1. simpl. unfold update_dex_head. by destruct (is_none_or _ _). }
    assert (Ho : en_opportunities s2 = en_opportunities s /\ en_freshness s2 = en_freshness s) by (unfold s2; by rewrite E1).
    destruct Ho as [Ho Hf]. destruct (ha_refresh_pool_index applied) as [i|].
    + destruct Hcase as (h & h' & Hi & Hi' & Hq). unfold mbind' in Ha. destruct (request_refresh i s2) as [s3 [r3|]] eqn:Er; [|done].
      injection Ha as <- <-.
      assert (Ed : dm_pools (en_dex s2) = <[i := h']> (<[i := h]> (dm_pools (en_dex s1)))) by (simpl; by rewrite list_insert_insert_eq, list_insert_id).
      destruct (request_simulated i _ s2 s3 h' r3 batch results Er Ed) as [E3 Hstep]; [rewrite length_insert; by eapply lookup_lt_Some|by rewrite Ho|].
      rewrite Ho in Hstep. rewrite E3. split; simpl; [done|done| |done|done].
      eapply rtc_l; [apply pub_quiet, Hq|]. apply rtc_once. rewrite E3 in Hstep. exact Hstep.
    + injection Ha as <- <-. split; [done|done| |done|done]. apply rtc_once. unfold published. rewrite Ho. by apply pub_quiet.
Qed.

Lemma settle_fee_effect locator i target fee m m' ts :
  mirror_ok m -> settle_fee locator i target fee m = (m', Ok ts) ->
  mirror_ok m' /\ same_pairs (dm_pools m) (dm_pools m') /\ Forall2 same_source (dm_pools m) (dm_pools m').
Proof.
  assert (Hsame : forall l, Forall2 same_source l l) by (intros l; reflexivity).
  intros Hm Ha. unfold settle_fee in Ha. unfold mbind' at 1, mlift in Ha. destruct (ensure _ _) as [[]|]; [|done].
  unfold mbind' at 1, mget in Ha. destruct (canonical_timestamp_for_log m target) as [t|]; [|injection Ha as <- <-; done].
  unfold mbind' at 1 in Ha. destruct (ensure _ _) as [[]|]; [|done].
  unfold mbind' at 1 in Ha. destruct (apply_fee_receipt fee t m) as [m1 [applied|]] eqn:Ef; [|done].
  unfold mbind' in Ha. destruct (match applied with Applied _ _ _ => _ | _ => _ end) as [[]|] eqn:Eo in Ha; [|done]. injection Ha as <- <-.
  apply apply_fee_receipt_inv in Ef as [Hm1 Hcase]; [|done]. split; [done|].
  destruct applied as [k kind refresh| |]; [|by subst..]. destruct Hcase as (_ & Hix & _ & m2 & Ht & ->).
  destruct (indexed_pool _ _ _ Hm Hix) as [h Hk]. destruct (touched_pools _ _ _ _ _ _ Ht Hk) as (h' & Ep & Hs & Hpool). simpl. split.
  - apply (changed_pairs k). exists h, h'. split; [done|]. split; [done|]. by destruct Hs.
  - by apply touched_quiet in Ht.
Qed.

Lemma settle_swap_simulated i target ts s s' r batch results :
  mirror_ok (en_dex s) -> generations_below (en_opportunities s) -> settle_swap i target ts s = (s', Ok r) -> simulates s batch results s' r.
Proof.
  intros Hm Hb Ha. unfold settle_swap in Ha. unfold mbind' at 1 in Ha.
  destruct (on_dex _ s) as [s1 [applied|]] eqn:El; [|done].
  assert (exists ts origin, on_dex (apply_log_inner target ts origin) s = (s1, Ok applied)) as (ts' & origin & El').
  { destruct ts as [t|]; [by exists (Some t), CanonicalStream|]. exists None, ReceiptSettlement. revert El. unfold on_dex, apply_static_fee_receipt_log, mbind', mget, mlift.
    by destruct (ensure _ _) as [[]|]. }
  destruct (log_simulated _ _ _ _ _ batch results _ Hm El') as (Hm1 & E1 & Hcase).
  destruct applied as [k kind refresh| |]; [|injection Ha as <- <-; subst s1; by apply simulates_refl|done].
  destruct Hcase as [Hc _]. unfold mbind' at 1, mlift in Ha. destruct (ensure _ _) as [[]|] eqn:Ek; [|done].
  apply ensure_Ok, Nat.eqb_eq in Ek as ->. unfold mbind' in Ha. destruct (republish i s1) as [s2 [r2|]] eqn:Er; [|done].
  injection Ha as <- <-. by eapply refreshed_log.
Qed.

Lemma settlement_simulated event s s' r batch results :
  mirror_ok (en_dex s) -> generations_below (en_opportunities s) ->
  apply_arbitrage_receipt_settlement event s = (s', Ok r) -> simulates s batch results s' r.
Proof.
  intros Hm Hb Ha. unfold apply_arbitrage_receipt_settlement in Ha.
  destruct (_ || _) in Ha; [injection Ha as <- <-; by apply simulates_refl|].
  destruct (st_dex_settlement_log event) as [target|]; [|injection Ha as <- <-; by apply simulates_refl].
  unfold mbind' at 1, mlift in Ha. destruct (ensure _ _) as [[]|] in Ha; [|done]. unfold mbind' at 1, mget in Ha.
  unfold mbind' at 1 in Ha. destruct (ensure _ _) as [[]|] in Ha; [|done]. cbv zeta in Ha.
  unfold mbind' at 1 in Ha. destruct (lift_fee _) as [decoded|] in Ha; [|done].
  unfold mbind' at 1 in Ha. destruct (or_err decoded _) as [ev|] in Ha; [|done].
  unfold mbind' at 1 in Ha. destruct (ensure _ _) as [[]|] in Ha; [|done].
  unfold mbind' at 1 in Ha. destruct (or_err _ _) as [i|] in Ha; [|done].
  unfold mbind' at 1 in Ha. destruct (ensure _ _) as [[]|] in Ha; [|done].
  destruct (_ <=? _) in Ha; [injection Ha as <- <-; by apply simulates_refl|].
  destruct (adaptive_locator _ _) as [l|].
  - destruct (st_dex_settlement_fee event) as [fee|]; [|injection Ha as <- <-; by apply simulates_refl].
    unfold mbind' at 1, on_dex in Ha. destruct (settle_fee l i target fee (en_dex s)) as [d [ts|]] eqn:Ef; [|done].
    destruct (settle_fee_effect _ _ _ _ _ _ _ Hm Ef) as (Hd & Hp & Hs).
    eapply simulates_trans; [by apply simulates_quiet|].
    destruct ts as [t|]; [by eapply settle_swap_simulated|]. injection Ha as <- <-. by apply simulates_refl.
  - unfold mbind' at 1 in Ha. destruct (ensure _ _) as [[]|] in Ha; [|done]. by eapply settle_swap_simulated.
Qed.
End simulation.

(** ** What was computed under a generation, along the protocol *)
Section tracking.
Context `{UniswapV3Math}.

Lemma tracked_step s s' i g q :
  pub_step s s' -> publication_ok s -> tracked (pb_engine s) (pb_dex s) i g q -> tracked (pb_engine s') (pb_dex s') i g q.
Proof.
  intros Hs Hok Ht. destruct Hs as [dex e batch results j h' e' r c Hj Hc Hmax Hr|dex dex' e batch results Hq|dex e batch results rest r res _ _
    |dex e batch results k res e' o Hk Hf|dex e batch results t e' o He|dex e batch results sym buy sell e' o He]; simpl in *.
  - destruct (request_inv _ _ _ _ _ Hr) as (c0 & Hc0 & -> & _). assert (c0 = c) as -> by congruence.
    destruct (pk_lengths _ Hok) as (_ & L & _). simpl in L.
    eapply (tracked_raised e _ dex j h' c (saturating_add 64 c 1)); [done| |by eapply lookup_lt_Some|done|done|done].
    unfold saturating_add, USIZE_MAX in *. lia.
  - eapply tracked_quiet; [done|by apply source_quiet|done].
  - done.
  - destruct (finish_inv _ _ _ _ Hf) as (current & _ & [(_ & -> & _)|[(_ & x & _ & -> & _)|(_ & p & _ & _ & ->)]]); done.
  - destruct (evaluate_transparent e t (pk_coherent _ Hok)) as (caches & r & E & _). rewrite He in E. by injection E as -> ->.
  - apply (tracked_quiet e e' dex dex); [|by eapply fees_source|done].
    destruct (set_fees_inv _ _ _ _ _ _ He) as [->|(k & p & p' & _ & _ & _ & _ & _ & ->)]; done.
Qed.

Lemma tracked_steps s s' i g q :
  rtc pub_step s s' -> publication_ok s -> tracked (pb_engine s) (pb_dex s) i g q -> tracked (pb_engine s') (pb_dex s') i g q.
Proof. induction 1; eauto using pub_step_ok, tracked_step. Qed.
End tracking.

(** ** The engine with its builder

    [EngineSystem]: the engine, the batch in front of the builder and the results
    on their way back. *)
Record EngineSystem := mkSystem {
  sys_engine : EngineDex;
  sys_batch : list PreparedPoolBuildRequest;
  sys_results : list PreparedPoolBuildResult;
}.
Definition sys_publication (y : EngineSystem) : Publication := published (sys_engine y) (sys_batch y) (sys_results y).

Section system.
Context `{EvmText} `{UniswapV3Math}.
Context (head_order : PoolIndices -> list nat) (pairs : list DomainPair).

Inductive engine_step : EngineSystem -> EngineSystem -> Prop :=
  | step_dex_event event emit s batch results s' r :
      generations_below (en_opportunities s) -> apply_dex_event head_order pairs event emit s = (s', Ok r) ->
      engine_step (mkSystem s batch results) (mkSystem s' (enqueue batch r) results)
  | step_settlement event s batch results s' r :
      generations_below (en_opportunities s) -> apply_arbitrage_receipt_settlement event s = (s', Ok r) ->
      engine_step (mkSystem s batch results) (mkSystem s' (enqueue batch r) results)
  | step_build s batch results rest r res :
      pop_next batch = (rest, Some r) -> build r = Ok res -> engine_step (mkSystem s batch results) (mkSystem s rest (results ++ [res]))
  | step_prepared s batch results k res s' :
      results !! k = Some res -> on_prepared_pool pairs res s = (s', Ok tt) ->
      engine_step (mkSystem s batch results) (mkSystem s' batch (delete k results))
  | step_evaluate q s batch results s' o :
      on_opportunities (evaluate q) s = (s', o) -> engine_step (mkSystem s batch results) (mkSystem s' batch results)
  | step_fees sym buy sell s batch results s' o :
      on_opportunities (set_binance_fee_bps sym buy sell) s = (s', o) -> engine_step (mkSystem s batch results) (mkSystem s' batch results).

(** A pool of the entry preflight: under its generation the curves were those of
    the mirror's pool, and if that is still the current one they are now. *)
Record preflight_entry (s : EngineDex) (pair : string) (index : Z) (p : PreflightDexPool) : Prop := {
  pe_index : exists i h d q, index = Z.of_nat i /\ dm_pools (en_dex s) !! i = Some h /\ hp_pair_id h = pair /\
    domain_pair pairs pair = Some d /\ pp_token_a_decimals p = dp_token_a_decimals d /\ pp_token_b_decimals p = dp_token_b_decimals d /\
    tracked (en_opportunities s) (dm_pools (en_dex s)) i (pp_generation p) (Ok q) /\
    pp_buy_curve p = token_a_exact_input q /\ pp_sell_curve p = (by_direction q).2 /\
    pp_fee_generation p = if pq_dynamic_fee q then pp_generation p else 0;
}.

Record system_ok (y : EngineSystem) : Prop := {
  so_mirror : mirror_ok (en_dex (sys_engine y));
  so_publication : publication_ok (sys_publication y);
  so_preflight : forall pair index p, dex_pools (en_preflight (sys_engine y)) !! (pair, index) = Some p ->
    preflight_entry (sys_engine y) pair index p;
}.

(** Entries survive any run of the protocol that keeps the pairs of the pools. *)
Lemma preflight_entry_steps s s' batch results batch' results' pair index p :
  rtc pub_step (published s batch results) (published s' batch' results') -> publication_ok (published s batch results) ->
  same_pairs (dm_pools (en_dex s)) (dm_pools (en_dex s')) -> preflight_entry s pair index p -> preflight_entry s' pair index p.
Proof.
  intros Hr Hok Hp [(i & h & d & q & -> & Hi & Hid & Hd & Ha & Hb & Ht & Hrest)]. split.
  destruct (Hp i h Hi) as (h' & Hi' & Hid'). exists i, h', d, q. split_and!; try done; [congruence| |apply Hrest..].
  exact (tracked_steps _ _ i _ _ Hr Hok Ht).
Qed.

Lemma simulates_ok s batch results s' r :
  system_ok (mkSystem s batch results) -> simulates s batch results s' r -> system_ok (mkSystem s' (enqueue batch r) results).
Proof.
  intros [Hm Hp Hf] [Hm' Hs Hr Hd _]. split; simpl in *; [done|by eapply pub_steps_ok|].
  intros pair index p Hl. rewrite Hd in Hl. eapply preflight_entry_steps; [done..|by apply Hf].
Qed.

(** The pool [i] was put into the preflight. *)
Definition preflight_put (i : nat) (s s' : EngineDex) : Prop :=
  exists h d g hd, dm_pools (en_dex s) !! i = Some h /\ domain_pair pairs (hp_pair_id h) = Some d /\
    oe_pool_generations (en_opportunities s) !! i = Some g /\ oe_prepared_pools (en_opportunities s) !! i = Some (Some hd) /\
    s' = mkEngineDex (en_dex s) (en_opportunities s)
           (update_dex_pool_with_fee_generation (hp_pair_id h) (Z.of_nat i)
              (mkPreflightPool g (if pq_dynamic_fee (h_quotes hd) then h_generation hd else 0) (dp_token_a_decimals d) (dp_token_b_decimals d)
                 (token_a_exact_input (h_quotes hd)) (by_direction (h_quotes hd)).2) (en_preflight s))
           (en_freshness s).

Lemma refresh_preflight_put i s s' : refresh_preflight_dex_pool pairs i s = (s', Ok tt) -> preflight_put i s s'.
Proof.
  unfold refresh_preflight_dex_pool, pool_generation, pool_fee_generation, preflight_exact_input_curves, mbind', mget, mlift, on_preflight.
  intros Hp. destruct (dm_pools (en_dex s) !! i) as [h|] eqn:Eh; [|done]. cbn [or_err] in Hp.
  destruct (domain_pair pairs (hp_pair_id h)) as [d|] eqn:Ed; [|done]. cbn [or_err] in Hp.
  destruct (oe_pool_generations (en_opportunities s) !! i) as [g|] eqn:Eg; [|done]. cbn [or_err rbind] in Hp.
  destruct (oe_prepared_pools (en_opportunities s) !! i) as [[hd|]|] eqn:Ep; [|done..]. cbn [or_err rbind fmap option_fmap option_map] in Hp.
  injection Hp as <-. by exists h, d, g, hd.
Qed.

Lemma start_preflight_put i s s' : start_preflight_dex_pool pairs i s = (s', Ok tt) -> preflight_put i s s'.
Proof.
  unfold start_preflight_dex_pool, pool_generation, pool_fee_generation, preflight_exact_input_curves, mbind', mget, mlift, on_preflight.
  intros Hp. destruct (dm_pools (en_dex s) !! i) as [h|] eqn:Eh; [|done]. cbn [or_err] in Hp.
  destruct (domain_pair pairs (hp_pair_id h)) as [d|] eqn:Ed; [|done]. cbn [or_err] in Hp.
  destruct (oe_prepared_pools (en_opportunities s) !! i) as [[hd|]|] eqn:Ep; [|done..]. cbn [or_err rbind fmap option_fmap option_map] in Hp.
  destruct (oe_pool_generations (en_opportunities s) !! i) as [g|] eqn:Eg; [|done]. cbn [or_err rbind] in Hp.
  injection Hp as <-. by exists h, d, g, hd.
Qed.

Lemma preflight_put_ok i s s' batch results :
  preflight_put i s s' -> system_ok (mkSystem s batch results) -> system_ok (mkSystem s' batch results).
Proof.
  intros (h & d & g & hd & Hi & Hd & Hg & Hp & ->) [Hm Hpub Hpre]. split; [done|done|]. intros pair index p Hl. simpl in Hl.
  assert (Hkeep : forall s0 s1, en_dex s1 = en_dex s0 -> en_opportunities s1 = en_opportunities s0 ->
    preflight_entry s0 pair index p -> preflight_entry s1 pair index p).
  { intros s0 s1 E1 E2 [Hx]. split. by rewrite E1, E2. }
  apply lookup_insert_Some in Hl as [[[= <- <-] <-]|[_ Hl]]; [|by apply (Hkeep s), Hpre].
  destruct (pk_handles _ Hpub i hd) as (_ & Hgen & Hsrc); [unfold prepared_at; simpl; by rewrite Hp|]. simpl in Hgen, Hsrc.
  assert (h_generation hd = g) as Eg by congruence.
  split. exists i, h, d, (h_quotes hd). split_and!; try done; [|by rewrite Eg].
  exists g. split; [done|]. split; [done|]. done.
Qed.

Lemma finished_ok s batch results k res s' r :
  system_ok (mkSystem s batch results) -> results !! k = Some res -> on_opportunities (finish_pool_refresh res) s = (s', Ok r) ->
  system_ok (mkSystem s' batch (delete k results)).
Proof.
  intros [Hm Hpub Hpre] Hk Hf. unfold on_opportunities in Hf. destruct (finish_pool_refresh res (en_opportunities s)) as [o x] eqn:E.
  injection Hf as <- ->. assert (Hstep : pub_step (published s batch results) (mkPublication (dm_pools (en_dex s)) o batch (delete k results)))
    by (by eapply pub_finish). split; simpl; [done|by eapply pub_step_ok|]. intros pair index p Hl.
  eapply (preflight_entry_steps s (mkEngineDex (en_dex s) o (en_preflight s) (en_freshness s)) batch results batch (delete k results));
    [by apply rtc_once|done|done|by apply Hpre].
Qed.

(** Handlers of the search alone. *)
Lemma opportunities_ok s batch results o :
  system_ok (mkSystem s batch results) -> pub_step (published s batch results) (mkPublication (dm_pools (en_dex s)) o batch results) ->
  system_ok (mkSystem (mkEngineDex (en_dex s) o (en_preflight s) (en_freshness s)) batch results).
Proof.
  intros [Hm Hpub Hpre] Hstep. split; simpl; [done|by eapply pub_step_ok|]. intros pair index p Hl.
  eapply (preflight_entry_steps s (mkEngineDex (en_dex s) o (en_preflight s) (en_freshness s)) batch results batch results);
    [by apply rtc_once|done|done|by apply Hpre].
Qed.

Hypothesis head_order_values : forall ix,
  head_order ix ≡ₚ (map_to_list (camelot_v3_indices ix)).*2 ++ (map_to_list (lynex_algebra_v1_9_indices ix)).*2.

Lemma engine_step_ok y y' : engine_step y y' -> system_ok y -> system_ok y'.
Proof.
  intros Hs Hok. destruct Hs as [event emit s batch results s' r Hb Ha|event s batch results s' r Hb Ha|s batch results rest r res Hpop Hbuild
    |s batch results k res s' Hk Ha|q s batch results s' o Ha|sym buy sell s batch results s' o Ha].
  - eapply simulates_ok; [done|]. eapply dex_event_simulated; [done|apply Hok|done|exact Ha].
  - eapply simulates_ok; [done|]. eapply settlement_simulated; [apply Hok|done|exact Ha].
  - destruct Hok as [Hm Hpub Hpre]. split; [done| |exact Hpre]. eapply pub_step_ok; [by eapply pub_build|exact Hpub].
  - unfold on_prepared_pool, mbind' in Ha. destruct (on_opportunities _ s) as [s1 [o|]] eqn:Ef; [|done].
    pose proof (finished_ok s batch results k res s1 o Hok Hk Ef) as Hok1. destruct o as [prepared|]; [|by injection Ha as <-].
    eapply preflight_put_ok; [by eapply refresh_preflight_put|done].
  - unfold on_opportunities in Ha. destruct (evaluate q (en_opportunities s)) as [e' x] eqn:E. injection Ha as <- _.
    apply opportunities_ok; [done|]. by eapply pub_evaluate.
  - unfold on_opportunities in Ha. destruct (set_binance_fee_bps sym buy sell (en_opportunities s)) as [e' x] eqn:E. injection Ha as <- _.
    apply opportunities_ok; [done|]. by eapply pub_fees.
Qed.

Lemma for_each_ok {A} (f : A -> M EngineDex ClmmError unit) (l : list A) (P : EngineDex -> Prop) s s' :
  (forall a s s', P s -> f a s = (s', Ok tt) -> P s') -> P s -> for_each f l s = (s', Ok tt) -> P s'.
Proof.
  intros Hf. revert s. induction l as [|a l IH]; simpl; intros s Hs Hl; [by injection Hl as <-|].
  unfold mbind' in Hl. destruct (f a s) as [s1 [[]|]] eqn:E; [|done]. eapply IH; [by eapply Hf|done].
Qed.

Lemma new_engine_dex_ok runtimes symbols buy sell age m preflight s :
  mirror_ok m -> dex_pools preflight = ∅ -> new_engine_dex pairs runtimes symbols buy sell age m preflight = Ok s ->
  system_ok (mkSystem s [] []).
Proof.
  intros Hm Hpre Hn. unfold new_engine_dex in Hn. destruct (new_engine runtimes (dm_pools m)) as [o|] eqn:Eo; [|done]. cbn [rbind] in Hn.
  set (P := fun s => system_ok (mkSystem s [] [])). change (P s).
  assert (P (mkEngineDex m o preflight ∅)) as H0P.
  { split; simpl; [done|by eapply start_ok|]. intros pair index p Hl. rewrite Hpre in Hl. by rewrite lookup_empty in Hl. }
  assert (Hquiet : forall f s, (dex_pools (f (en_preflight s)) = dex_pools (en_preflight s)) -> P s -> forall s', on_preflight f s = (s', Ok tt) -> P s').
  { intros f s0 Hf [Q1 Q2 Q3] s1 H1. injection H1 as <-. split; [done|done|]. intros pair index p Hl. simpl in Hl. rewrite Hf in Hl.
    destruct (Q3 _ _ _ Hl) as [Hx]. split. exact Hx. }
  unfold mbind' at 1 in Hn. destruct (for_each _ symbols _) as [s1 [[]|]] eqn:E1 in Hn; [|done].
  apply (for_each_ok _ _ P) in E1; [|intros sym s0 s0' HP Ha; unfold on_opportunities in Ha; destruct (set_binance_fee_bps _ _ _ _) as [e' x] eqn:E;
    injection Ha as <- _; apply opportunities_ok; [done|by eapply pub_fees]|done].
  unfold mbind' at 1 in Hn. destruct (on_preflight _ s1) as [s2 [[]|]] eqn:E2 in Hn; [|done]. apply Hquiet in E2; [|done|done].
  unfold mbind' at 1 in Hn. destruct (for_each _ (List.filter _ _) _) as [s3 [[]|]] eqn:E3 in Hn; [|done].
  apply (for_each_ok _ _ P) in E3; [|intros p s0 s0' HP Ha; apply Hquiet in Ha; [done| |done]; unfold update_dex_head; by destruct (is_none_or _ _)|done].
  unfold mbind' at 1 in Hn. destruct (for_each _ (seq _ _) _) as [s4 [[]|]] eqn:E4 in Hn; [|done].
  apply (for_each_ok _ _ P) in E4; [|intros i s0 s0' HP Ha; eapply preflight_put_ok; [by eapply start_preflight_put|done]|done].
  simpl in Hn. by injection Hn as <-.
Qed.

Lemma engine_step_run y y' : engine_step y y' -> system_ok y -> rtc pub_step (sys_publication y) (sys_publication y').
Proof.
  intros Hs Hok. destruct Hs as [event emit s batch results s' r Hb Ha|event s batch results s' r Hb Ha|s batch results rest r res Hpop Hbuild
    |s batch results k res s' Hk Ha|q s batch results s' o Ha|sym buy sell s batch results s' o Ha].
  - eapply (sm_run s). eapply dex_event_simulated; [done|apply Hok|done|exact Ha].
  - eapply (sm_run s). eapply settlement_simulated; [apply Hok|done|exact Ha].
  - apply rtc_once. by eapply pub_build.
  - apply rtc_once. unfold on_prepared_pool, mbind', on_opportunities in Ha.
    destruct (finish_pool_refresh res (en_opportunities s)) as [o [prepared|]] eqn:Ef; [|done].
    assert (en_dex s' = en_dex s /\ en_opportunities s' = o) as [E1 E2].
    { destruct prepared as [p|]; [|by injection Ha as <-].
      apply refresh_preflight_put in Ha as (h & d & g & hd & _ & _ & _ & _ & ->). done. }
    unfold sys_publication, published. simpl. rewrite E1, E2. by eapply pub_finish.
  - apply rtc_once. unfold on_opportunities in Ha. destruct (evaluate q (en_opportunities s)) as [e' x] eqn:E. injection Ha as <- _. by eapply pub_evaluate.
  - apply rtc_once. unfold on_opportunities in Ha. destruct (set_binance_fee_bps sym buy sell (en_opportunities s)) as [e' x] eqn:E. injection Ha as <- _. by eapply pub_fees.
Qed.

Lemma engine_steps_run y y' :
  rtc engine_step y y' -> system_ok y -> system_ok y' /\ rtc pub_step (sys_publication y) (sys_publication y').
Proof.
  induction 1 as [y|y y1 y2 Hs _ IH]; intros Hok; [by split|].
  destruct (IH (engine_step_ok _ _ Hs Hok)) as [Hok2 Hr]. split; [done|]. etransitivity; [by apply engine_step_run|done].
Qed.

Lemma new_engine_dex_run runtimes symbols buy sell age m preflight s :
  new_engine_dex pairs runtimes symbols buy sell age m preflight = Ok s ->
  exists e, new_engine runtimes (dm_pools m) = Ok e /\ rtc pub_step (mkPublication (dm_pools m) e [] []) (published s [] []).
Proof.
  intros Hn. unfold new_engine_dex in Hn. destruct (new_engine runtimes (dm_pools m)) as [o|] eqn:Eo; [|done]. cbn [rbind] in Hn.
  exists o. split; [done|]. set (P := fun s => rtc pub_step (mkPublication (dm_pools m) o [] []) (published s [] [])). change (P s).
  assert (P (mkEngineDex m o preflight ∅)) as HP0 by apply rtc_refl.
  assert (Hsame : forall s s', en_dex s' = en_dex s -> en_opportunities s' = en_opportunities s -> P s -> P s').
  { intros s0 s1 E1 E2. unfold P, published. by rewrite E1, E2. }
  unfold mbind' at 1 in Hn. destruct (for_each _ symbols _) as [s1 [[]|]] eqn:E1 in Hn; [|done].
  apply (for_each_ok _ _ P) in E1; [|intros sym s0 s0' HP Ha; unfold on_opportunities in Ha; destruct (set_binance_fee_bps _ _ _ _) as [e' x] eqn:E;
    injection Ha as <- _; eapply rtc_r; [exact HP|by eapply pub_fees]|done].
  unfold mbind' at 1 in Hn. destruct (on_preflight _ s1) as [s2 [[]|]] eqn:E2 in Hn; [|done]. injection E2 as <-.
  unfold mbind' at 1 in Hn. destruct (for_each _ (List.filter _ _) _) as [s3 [[]|]] eqn:E3 in Hn; [|done].
  apply (for_each_ok _ _ P) in E3; [|intros p s0 s0' HP Ha; injection Ha as <-; by apply (Hsame s0)|by apply (Hsame s1)].
  unfold mbind' at 1 in Hn. destruct (for_each _ (seq _ _) _) as [s4 [[]|]] eqn:E4 in Hn; [|done].
  apply (for_each_ok _ _ P) in E4; [|intros i s0 s0' HP Ha; apply start_preflight_put in Ha as (h & d & g & hd & _ & _ & _ & _ & ->); by apply (Hsame s0)|done].
  simpl in Hn. by injection Hn as <-.
Qed.

(** C12. The engine runs the publication protocol.  From the hydrated pools, along
    any interleaving of chain events (logs, fees, heads, at startup or live), of
    settlements from receipts, of builds, of results in any order, of
    evaluations and fee updates, as long as no pool has used up its generations:
    the mirror stays well formed, and the pools, the search engine, the waiting
    requests and the results are in a state that the protocol of withdrawals,
    builds and publications reaches from the hydrated pools; so a pool whose
    curves changed has been withdrawn and its rebuild requested. *)
Theorem engine_refines_publication hydrated now m runtimes symbols buy sell age preflight s y :
  new_mirror hydrated now = Ok m -> Forall pool_hydrated (hd_pools hydrated) -> dex_pools preflight = ∅ ->
  new_engine_dex pairs runtimes symbols buy sell age m preflight = Ok s -> rtc engine_step (mkSystem s [] []) y ->
  mirror_ok (en_dex (sys_engine y)) /\
  exists e, new_engine runtimes (hd_pools hydrated) = Ok e /\
    rtc pub_step (mkPublication (hd_pools hydrated) e [] []) (sys_publication y).
Proof.
  intros Hm Hp Hpre Hn Hr. pose proof (new_mirror_ok _ _ _ Hm Hp) as Hmok.
  destruct (engine_steps_run _ _ Hr (new_engine_dex_ok _ _ _ _ _ _ _ _ Hmok Hpre Hn)) as [Hok Hrun]. split; [apply Hok|].
  destruct (new_engine_dex_run _ _ _ _ _ _ _ _ Hn) as (e & He & Hrun0).
  assert (dm_pools m = hd_pools hydrated) as E by (unfold new_mirror in Hm; by res_inv).
  rewrite E in *. exists e. split; [done|]. by etransitivity.
Qed.

(** The entry preflight checks against the present pools.  At every point of
    such a run, an entry of the preflight belongs to a pool of its pair and has
    the decimals of that pair; its generation is at most the pool's current one,
    and when it is the current one its two curves are exactly what the builder
    computes from the mirror's present pool, and its fee generation is that
    generation for a dynamic-fee pool and zero otherwise. *)
Theorem preflight_curves_current hydrated now m runtimes symbols buy sell age preflight s y pair index p :
  new_mirror hydrated now = Ok m -> Forall pool_hydrated (hd_pools hydrated) -> dex_pools preflight = ∅ ->
  new_engine_dex pairs runtimes symbols buy sell age m preflight = Ok s -> rtc engine_step (mkSystem s [] []) y ->
  dex_pools (en_preflight (sys_engine y)) !! (pair, index) = Some p ->
  exists i h d c, index = Z.of_nat i /\ dm_pools (en_dex (sys_engine y)) !! i = Some h /\ hp_pair_id h = pair /\
    domain_pair pairs pair = Some d /\ pp_token_a_decimals p = dp_token_a_decimals d /\ pp_token_b_decimals p = dp_token_b_decimals d /\
    pool_generation (en_opportunities (sys_engine y)) i = Ok c /\ pp_generation p <= c /\
    (pp_generation p = c -> exists k pr q,
       oe_pair_index_by_pool (en_opportunities (sys_engine y)) !! i = Some (Some k) /\
       oe_pairs (en_opportunities (sys_engine y)) !! k = Some pr /\ quotes_of pr h = Ok q /\
       pp_buy_curve p = token_a_exact_input q /\ pp_sell_curve p = (by_direction q).2 /\
       pp_fee_generation p = if pq_dynamic_fee q then c else 0).
Proof.
  intros Hm Hp Hpre Hn Hr Hl. pose proof (new_mirror_ok _ _ _ Hm Hp) as Hmok.
  destruct (engine_steps_run _ _ Hr (new_engine_dex_ok _ _ _ _ _ _ _ _ Hmok Hpre Hn)) as [Hok _].
  destruct (so_preflight _ Hok _ _ _ Hl) as [(i & h & d & q & -> & Hi & Hid & Hd & Ha & Hb & (c & Hc & Hle & Hsrc) & Hbuy & Hsell & Hfee)].
  exists i, h, d, c. unfold pool_generation. rewrite Hc. split_and!; try done. intros E. specialize (Hsrc E). unfold source in Hsrc.
  apply bind_Some in Hsrc as (k & Hk & Hs). apply bind_Some in Hs as (pr & Hpr & Hs). apply bind_Some in Hs as (h' & Hh' & Hs).
  assert (h' = h) as -> by congruence. injection Hs as Hs. apply bind_Some in Hk as (x & Hx & Hxk). simpl in Hxk. subst x.
  exists k, pr, q. split_and!; try done. by rewrite <- E.
Qed.
End system.
