(* ===== verification/OrderPlan.v ===== *)
(** * Exchange order planning ([src/src/binance/order_plan.rs])

    How a signed token-B quantity in base units becomes an exchange order: the
    quantity rounded down to the exchange's step, the price rounded to its tick,
    the filters, and the dust a market order leaves.  Division, rounding and
    parsing of decimals are the interface [DecimalRounding]; an overflowing
    operator is the error [overflow_panic], since it panics. *)
From Stdlib Require Import Lia.
From stdpp Require Import base strings numbers list.
From S2P Require Import Prelude Decimals ExecutionPlan TradeData Depth.

Class DecimalRounding := {
  dec_div : Decimal -> Decimal -> option Decimal;
  dec_floor : Decimal -> Decimal;
  dec_ceil : Decimal -> Decimal;
  decimal_parse : Z -> Z -> option Decimal;
}.

(** [decimal_parse v d] is the parse of the text of [v] units of [d] places. *)
Class RoundingLaws `{DecimalRounding} : Prop := {
  dec_div_exact a b q :
    decimal_ok a -> decimal_ok b -> 0 < mantissa b -> decimal_ok q ->
    mantissa a * 10 ^ scale b * 10 ^ scale q = mantissa q * mantissa b * 10 ^ scale a ->
    exists r, dec_div a b = Some r /\ decimal_ok r /\ dec_eq r q;
  dec_floor_spec d : decimal_ok d -> on_grid 0 (dec_floor d) /\ units 0 (dec_floor d) = mantissa d / 10 ^ scale d;
  dec_ceil_spec d :
    decimal_ok d -> on_grid 0 (dec_ceil d) /\ units 0 (dec_ceil d) = - (- mantissa d / 10 ^ scale d);
  decimal_parse_spec v d :
    0 <= v < 2 ^ 96 -> 0 <= d <= 28 ->
    exists r, decimal_parse v d = Some r /\ on_grid d r /\ units d r = v;
}.

Definition overflow_panic : string := "decimal operator overflow".

Record DecimalFilter := mkFilter { flt_min : Decimal; flt_max : Decimal; flt_step : Decimal }.
Record SymbolRules := mkRules {
  ru_symbol : string;
  ru_status : string;
  ru_base_asset : string;
  ru_quote_asset : string;
  ru_price : DecimalFilter;
  lot_size : DecimalFilter;
  market_lot_size : DecimalFilter;
  min_notional : Decimal;
}.

Inductive BinanceOrderRequestKind :=
| MarketBuy (quote_quantity : Decimal)
| MarketBuyQuantity (quantity : Decimal)
| MarketSell (quantity : Decimal)
| LimitIoc (side : string) (quantity price : Decimal).

Record BinanceOrderRequest := mkRequest {
  rq_operation_id : string;
  rq_client_order_id : string;
  rq_symbol : string;
  rq_kind : BinanceOrderRequestKind;
}.

Definition rust_namespace (id : string) : bool := starts_with id "rustval" || starts_with id "rustarb".

Definition validate_order_request (r : BinanceOrderRequest) : TRes unit :=
  ensure! rust_namespace (rq_operation_id r)
    else "Binance operation id is outside the Rust-owned namespace" ;;
  ensure! rust_namespace (rq_client_order_id r) && (str_len (rq_client_order_id r) <=? 36)
    else "Binance client order id is outside the Rust-owned namespace" ;;
  ensure! negb (str_is_empty (rq_symbol r)) && bytes_all symbol_byte (rq_symbol r)
    else "Binance symbol is invalid" ;;
  match rq_kind r with
  | MarketBuy quote =>
      ensure! dec_ltb dec_zero quote else "market BUY quote quantity must be positive" ;; Ok tt
  | MarketBuyQuantity quantity =>
      ensure! dec_ltb dec_zero quantity else "market BUY quantity must be positive" ;; Ok tt
  | MarketSell quantity =>
      ensure! dec_ltb dec_zero quantity else "market SELL quantity must be positive" ;; Ok tt
  | LimitIoc side quantity price =>
      ensure! bool_decide (side = "BUY"%string) || bool_decide (side = "SELL"%string)
        else "invalid LIMIT side" ;;
      ensure! dec_ltb dec_zero quantity && dec_ltb dec_zero price
        else "LIMIT quantity and price must be positive" ;;
      Ok tt
  end.

Record PlannedLimitIoc := mkLimitIoc {
  li_request : BinanceOrderRequest;
  li_target : Z;
  li_submitted : Z;
}.
Record PlannedMarketOrder := mkMarketOrder {
  mo_request : BinanceOrderRequest;
  mo_target : Z;
  mo_submitted : Z;
}.
Inductive MarketResidualDustReason := BelowMarketStep | BelowMinimumQuantity | BelowMinimumNotional.
Record MarketResidualDust := mkDust {
  du_reason : MarketResidualDustReason;
  du_target_quantity : Decimal;
  du_submitted_quantity : Decimal;
  du_reference_price : Decimal;
  du_notional : Decimal;
  du_minimum_quantity : Decimal;
  du_minimum_notional : Decimal;
}.
Inductive MarketOrderPlan := Submit (o : PlannedMarketOrder) | ResidualDust (d : MarketResidualDust).

(** [10_u128.checked_pow]. *)
Definition pow10_u128 (e : Z) : option Z := if 10 ^ e <? 2 ^ 128 then Some (10 ^ e) else None.

Definition base_units_from_decimal (value : Decimal) (decimals : Z) : TRes Z :=
  ensure! dec_leb dec_zero value else "Binance quantity is negative" ;;
  if scale value <=? decimals then
    let? p := or_err (pow10_u128 (decimals - scale value)) "Binance quantity scale overflow" in
    or_err (checked_mul 128 (mantissa value) p) "Binance quantity base-unit overflow"
  else
    let? divisor := or_err (pow10_u128 (scale value - decimals)) "Binance quantity divisor overflow" in
    ensure! mantissa value mod divisor =? 0 else "Binance quantity is not representable in base units" ;;
    Ok (mantissa value / divisor).

Definition signed_units (target absolute : Z) : Z := if 0 <? target then absolute else - absolute.

Section planning.
Context `{DecimalArith} `{DecimalRounding}.

Definition decimal_from_base_units (value decimals : Z) : TRes Decimal :=
  let? _ := or_err (pow10_u128 decimals) "Binance base decimal scale overflow" in
  or_err (decimal_parse value decimals) "Binance base quantity exceeds Decimal range".

Definition round_with (f : Decimal -> Decimal) (value increment : Decimal) : TRes Decimal :=
  ensure! dec_ltb dec_zero increment else "Binance increment is non-positive" ;;
  let? q := or_err (dec_div value increment) overflow_panic in
  or_err (dec_checked_mul (f q) increment) overflow_panic.
Definition round_down : Decimal -> Decimal -> TRes Decimal := round_with dec_floor.
Definition round_up : Decimal -> Decimal -> TRes Decimal := round_with dec_ceil.

Definition in_filter (f : DecimalFilter) (v : Decimal) : bool := dec_leb (flt_min f) v && dec_leb v (flt_max f).

Definition plan_limit_ioc (operation_id client_order_id : string) (target decimals : Z) (limit_price : Decimal)
    (rules : SymbolRules) : TRes (option PlannedLimitIoc) :=
  ensure! negb (target =? 0) else "Binance target delta is zero" ;;
  ensure! dec_ltb dec_zero limit_price else "Binance limit price is non-positive" ;;
  ensure! bool_decide (ru_status rules = "TRADING"%string) else "Binance symbol is not trading" ;;
  let? exact := decimal_from_base_units (Z.abs target) decimals in
  let? quantity := round_down exact (flt_step (lot_size rules)) in
  if mantissa quantity =? 0 then Ok None else
  ensure! in_filter (lot_size rules) quantity else "Binance IOC quantity is outside LOT_SIZE" ;;
  let? price := if 0 <? target then round_up limit_price (flt_step (ru_price rules))
                else round_down limit_price (flt_step (ru_price rules)) in
  ensure! in_filter (ru_price rules) price else "Binance IOC price is outside PRICE_FILTER" ;;
  let? notional := or_err (dec_checked_mul quantity price) "Binance IOC notional overflow" in
  ensure! dec_leb (min_notional rules) notional
    else "Binance IOC notional is below the exchange minimum" ;;
  let? absolute := base_units_from_decimal quantity decimals in
  ensure! absolute <=? I128_MAX else "Binance submitted quantity exceeds i128" ;;
  let request := mkRequest operation_id client_order_id (ru_symbol rules)
                   (LimitIoc (if 0 <? target then "BUY" else "SELL") quantity price) in
  let? _ := validate_order_request request in
  Ok (Some (mkLimitIoc request target (signed_units target absolute))).

Definition market_filter (rules : SymbolRules) (get : DecimalFilter -> Decimal) : Decimal :=
  if dec_ltb dec_zero (get (market_lot_size rules)) then get (market_lot_size rules) else get (lot_size rules).

Definition plan_market_order (operation_id client_order_id : string) (target decimals : Z)
    (reference_price : Decimal) (rules : SymbolRules) : TRes MarketOrderPlan :=
  ensure! negb (target =? 0) else "Binance target delta is zero" ;;
  ensure! bool_decide (ru_status rules = "TRADING"%string) else "Binance symbol is not trading" ;;
  ensure! dec_ltb dec_zero reference_price else "Binance MARKET reference price is non-positive" ;;
  let? exact := decimal_from_base_units (Z.abs target) decimals in
  let? quantity := round_down exact (market_filter rules flt_step) in
  let minimum := market_filter rules flt_min in
  let? notional := or_err (dec_checked_mul quantity reference_price) "Binance MARKET notional overflow" in
  let dust reason := ResidualDust (mkDust reason exact quantity reference_price notional minimum (min_notional rules)) in
  if mantissa quantity =? 0 then Ok (dust BelowMarketStep) else
  if dec_ltb quantity minimum then Ok (dust BelowMinimumQuantity) else
  ensure! dec_leb quantity (market_filter rules flt_max)
    else "Binance MARKET quantity exceeds MARKET_LOT_SIZE" ;;
  if dec_ltb notional (min_notional rules) then Ok (dust BelowMinimumNotional) else
  let? absolute := base_units_from_decimal quantity decimals in
  ensure! absolute <=? I128_MAX else "Binance submitted quantity exceeds i128" ;;
  let request := mkRequest operation_id client_order_id (ru_symbol rules)
                   (if 0 <? target then MarketBuyQuantity quantity else MarketSell quantity) in
  let? _ := validate_order_request request in
  Ok (Submit (mkMarketOrder request target (signed_units target absolute))).
End planning.

(** ** Rounding to a power-of-ten step *)

(** An increment of value [10 ^ - k], in any representation. *)
Record ten_step (k : Z) (step : Decimal) : Prop := {
  ts_ok : decimal_ok step;
  ts_place : 0 <= k <= scale step;
  ts_mantissa : mantissa step = 10 ^ (scale step - k);
}.
Lemma pow10_pos k : 0 <= k -> 0 < 10 ^ k.
Proof. apply Z.pow_pos_nonneg. lia. Qed.

Lemma equal_fractions a b C D : 0 < C -> 0 < D -> a * D = b * C -> a / C = b / D.
Proof.
  intros HC HD He. rewrite <- (Z.div_mul_cancel_r a C D), <- (Z.div_mul_cancel_r b D C) by lia.
  rewrite He. f_equal. lia.
Qed.

Section rounding.
Context `{DecimalLaws} `{RoundingLaws}.

(** The quotient of [v] units of [d] places by the step. *)
Lemma quotient_value value step k d :
  ten_step k step -> on_grid d value -> 0 <= k <= d -> d <= 28 -> 0 <= units d value < 2 ^ 96 ->
  exists q, dec_div value step = Some q /\ decimal_ok q /\
    mantissa q * 10 ^ (d - k) = units d value * 10 ^ scale q.
Proof.
  intros [Hs Hk Hm] [Hv Hd] Hkd H28 Hu. destruct (dec_div_exact value step (mkDecimal (units d value) (d - k)))
    as (q & Hq & Hok & He); [done|done| | | |].
  - rewrite Hm. apply pow10_pos. lia.
  - split; simpl; lia.
  - simpl. rewrite Hm. unfold units. destruct Hv as [_ Hv]. rewrite <- !Z.mul_assoc, <- !Z.pow_add_r by lia.
    do 2 f_equal. lia.
  - exists q. split; [done|]. split; [done|]. unfold dec_eq, dec_cross in He. simpl in He. lia.
Qed.

Lemma rounded_value f value step k d r F :
  ten_step k step -> on_grid d value -> 0 <= k <= d -> d <= 28 -> 0 <= units d value < 2 ^ 96 ->
  (forall q, decimal_ok q -> mantissa q * 10 ^ (d - k) = units d value * 10 ^ scale q ->
     on_grid 0 (f q) /\ units 0 (f q) = F) ->
  Z.abs (F * mantissa step) < 2 ^ 96 ->
  round_with f value step = Ok r ->
  on_grid (scale step) r /\ units (scale step) r = F * mantissa step.
Proof.
  intros Hst Hv Hkd H28 Hu Hf Hfit Hr. destruct (quotient_value value step k d Hst Hv Hkd H28 Hu) as (q & Hq & Hok & He).
  unfold round_with in Hr. rewrite Hq in Hr. cbn [or_err rbind] in Hr. res_inv. destruct (Hf _ Hok He) as [Hg HF].
  pose proof (ts_ok _ _ Hst) as Hsok. destruct (dec_mul_exact 0 (scale step) (f q) step) as (r' & Hr' & Hg' & Hu');
    try done; try (destruct Hsok; lia).
  - rewrite HF. unfold units. by rewrite Z.sub_diag, Z.mul_1_r.
  - assert (r' = r) as -> by congruence. rewrite Z.add_0_l in Hg', Hu'. split; [done|]. rewrite Hu', HF. unfold units. by rewrite Z.sub_diag, Z.mul_1_r.
Qed.

Lemma round_down_units value step k d r :
  ten_step k step -> on_grid d value -> 0 <= k <= d -> d <= 28 -> 0 <= units d value < 2 ^ 96 ->
  units d value / 10 ^ (d - k) * mantissa step < 2 ^ 96 -> round_down value step = Ok r ->
  on_grid (scale step) r /\ units (scale step) r = units d value / 10 ^ (d - k) * mantissa step.
Proof.
  intros Hst Hv Hkd H28 Hu Hfit Hr.
  assert (Hpos : 0 <= units d value / 10 ^ (d - k)) by (apply Z.div_pos; [lia|apply pow10_pos; lia]).
  assert (Hm : 0 < mantissa step) by (rewrite (ts_mantissa _ _ Hst); apply pow10_pos; destruct Hst; lia).
  eapply rounded_value; try done; [|nia]. intros q Hok He. destruct (dec_floor_spec q Hok) as [Hg Hfl].
  split; [done|]. rewrite Hfl. apply equal_fractions; [apply pow10_pos; destruct Hok; lia|apply pow10_pos; lia|lia].
Qed.

Lemma round_up_units value step k d r :
  ten_step k step -> on_grid d value -> 0 <= k <= d -> d <= 28 -> 0 <= units d value < 2 ^ 96 ->
  - (- units d value / 10 ^ (d - k)) * mantissa step < 2 ^ 96 -> round_up value step = Ok r ->
  on_grid (scale step) r /\ units (scale step) r = - (- units d value / 10 ^ (d - k)) * mantissa step.
Proof.
  intros Hst Hv Hkd H28 Hu Hfit Hr.
  assert (Hp : 0 < 10 ^ (d - k)) by (apply pow10_pos; lia).
  assert (Hpos : 0 <= - (- units d value / 10 ^ (d - k))).
  { pose proof (Z.div_le_upper_bound (- units d value) (10 ^ (d - k)) 0 Hp). lia. }
  assert (Hm : 0 < mantissa step) by (rewrite (ts_mantissa _ _ Hst); apply pow10_pos; destruct Hst; lia).
  eapply rounded_value; try done; [|nia]. intros q Hok He. destruct (dec_ceil_spec q Hok) as [Hg Hfl].
  split; [done|]. rewrite Hfl. f_equal. apply equal_fractions; [apply pow10_pos; destruct Hok; lia|done|lia].
Qed.
End rounding.

(** A decimal worth [n] base units converts back to [n]. *)
Lemma base_units_exact value decimals n :
  decimal_ok value -> 0 <= decimals <= 28 -> 0 <= n < 2 ^ 96 ->
  mantissa value * 10 ^ decimals = n * 10 ^ scale value ->
  base_units_from_decimal value decimals = Ok n.
Proof.
  intros [Hm Hs] Hd Hn He. unfold base_units_from_decimal.
  pose proof (pow10_pos decimals ltac:(lia)) as Hpd. pose proof (pow10_pos (scale value) ltac:(lia)) as Hps.
  assert (H28 : forall e, 0 <= e <= 28 -> pow10_u128 e = Some (10 ^ e)).
  { intros e He'. unfold pow10_u128. rewrite (proj2 (Z.ltb_lt _ _)); [done|].
    apply (Z.le_lt_trans _ (10 ^ 28)); [apply Z.pow_le_mono_r; lia|done]. }
  rewrite dec_zero_le, (proj2 (Z.leb_le _ _)) by nia. simpl.
  destruct (Z.leb_spec (scale value) decimals) as [Hle|Hgt].
  - rewrite H28 by lia. simpl. assert (Hv : mantissa value * 10 ^ (decimals - scale value) = n).
    { replace decimals with (decimals - scale value + scale value) in He by lia. rewrite Z.pow_add_r in He by lia. nia. }
    unfold checked_mul. rewrite Hv. by rewrite (proj2 (Z.ltb_lt _ _)) by lia.
  - rewrite H28 by lia. simpl. pose proof (pow10_pos (scale value - decimals) ltac:(lia)) as Hpp.
    assert (Hv : mantissa value = n * 10 ^ (scale value - decimals)).
    { replace (scale value) with (scale value - decimals + decimals) in He by lia. rewrite Z.pow_add_r in He by lia. nia. }
    rewrite Hv, Z.mod_mul, Z.div_mul by lia. done.
Qed.

(** The largest multiple of the step within [a] base units of [d] places. *)
Definition step_units (d k : Z) : Z := 10 ^ (d - k).
Definition whole_steps (a d k : Z) : Z := a / step_units d k * step_units d k.

Lemma whole_steps_bounds a d k :
  0 <= a -> 0 <= k <= d -> 0 <= whole_steps a d k <= a /\ a < whole_steps a d k + step_units d k.
Proof.
  intros Ha Hk. unfold whole_steps, step_units. pose proof (pow10_pos (d - k) ltac:(lia)).
  pose proof (Z.div_mod a (10 ^ (d - k))). pose proof (Z.mod_pos_bound a (10 ^ (d - k))).
  pose proof (Z.div_pos a (10 ^ (d - k))). nia.
Qed.

(** The lot of a symbol and the amounts that fit the decimal type. *)
Record lot_fits (d k a : Z) (step : Decimal) : Prop := {
  lf_step : ten_step k step;
  lf_places : 0 <= k <= d /\ d <= 28;
  lf_amount : 0 <= a < 2 ^ 96;
  lf_product : a / step_units d k * mantissa step < 2 ^ 96;
}.

Section plans.
Context `{DecimalLaws} `{RoundingLaws}.

Lemma sized_quantity a d k step exact q :
  lot_fits d k a step -> decimal_from_base_units a d = Ok exact -> round_down exact step = Ok q ->
  decimal_ok q /\ mantissa q * 10 ^ d = whole_steps a d k * 10 ^ scale q /\
  (mantissa q = 0 <-> whole_steps a d k = 0) /\ base_units_from_decimal q d = Ok (whole_steps a d k).
Proof.
  intros [Hst [Hk H28] Ha Hfit] Hex Hq. unfold decimal_from_base_units in Hex. res_inv.
  destruct (decimal_parse_spec a d Ha ltac:(lia)) as (e & He & Hg & Hu).
  assert (e = exact) as -> by congruence.
  destruct (round_down_units exact step k d q Hst Hg Hk H28) as [Hgq Huq]; [lia|by rewrite Hu|done|].
  rewrite Hu in Huq. unfold units in Huq. destruct Hgq as [Hqok Hsq]. pose proof Hst as [Hsok Hks Hm].
  rewrite Hm in Huq. pose proof Hqok as [Hmq Hscq].
  assert (Hval : mantissa q * 10 ^ d = whole_steps a d k * 10 ^ scale q).
  { unfold whole_steps, step_units. pose proof (pow10_pos (scale step - scale q) ltac:(lia)).
    apply (Z.mul_reg_r _ _ (10 ^ (scale step - scale q))); [lia|].
    transitivity (mantissa q * 10 ^ (scale step - scale q) * 10 ^ d); [ring|]. rewrite Huq.
    rewrite <- !Z.mul_assoc, <- !Z.pow_add_r by lia. do 2 f_equal. lia. }
  pose proof (whole_steps_bounds a d k ltac:(lia) ltac:(lia)) as Hb.
  pose proof (pow10_pos d ltac:(lia)). pose proof (pow10_pos (scale q) ltac:(lia)).
  split; [done|]. split; [done|]. split; [split; nia|]. apply base_units_exact; [done|lia|lia|done].
Qed.

(** The rounded price is the limit moved by less than one tick, towards filling. *)
Definition price_within_tick (buy : bool) (dp kp : Z) (limit price : Decimal) (tick : Decimal) : Prop :=
  on_grid (scale tick) price /\
  exists n, units (scale tick) price = n * mantissa tick /\
    if buy then (n - 1) * step_units dp kp < units dp limit <= n * step_units dp kp
    else n * step_units dp kp <= units dp limit < (n + 1) * step_units dp kp.

Record tick_fits (dp kp : Z) (limit tick : Decimal) : Prop := {
  tf_step : ten_step kp tick;
  tf_limit : on_grid dp limit;
  tf_places : 0 <= kp <= dp /\ dp <= 28;
  tf_amount : 0 <= units dp limit < 2 ^ 96;
  tf_product : (units dp limit / step_units dp kp + 1) * mantissa tick < 2 ^ 96;
}.

Lemma rounded_price (buy : bool) dp kp limit tick price :
  tick_fits dp kp limit tick ->
  (if buy then round_up limit tick else round_down limit tick) = Ok price ->
  price_within_tick buy dp kp limit price tick.
Proof.
  intros [Hst Hg [Hk H28] Ha Hfit] Hp. unfold step_units in *.
  pose proof (pow10_pos (dp - kp) ltac:(lia)) as Hpos.
  assert (Hm : 0 < mantissa tick) by (rewrite (ts_mantissa _ _ Hst); apply pow10_pos; destruct Hst; lia).
  pose proof (Z.div_mod (units dp limit) (10 ^ (dp - kp)) ltac:(lia)).
  pose proof (Z.mod_pos_bound (units dp limit) (10 ^ (dp - kp)) Hpos). destruct buy.
  - assert (Hc : - (- units dp limit / 10 ^ (dp - kp)) <= units dp limit / 10 ^ (dp - kp) + 1 /\
        (- (- units dp limit / 10 ^ (dp - kp)) - 1) * 10 ^ (dp - kp) < units dp limit
          <= - (- units dp limit / 10 ^ (dp - kp)) * 10 ^ (dp - kp)).
    { pose proof (Z.div_mod (- units dp limit) (10 ^ (dp - kp)) ltac:(lia)).
      pose proof (Z.mod_pos_bound (- units dp limit) (10 ^ (dp - kp)) Hpos). nia. }
    destruct (round_up_units limit tick kp dp price Hst Hg Hk H28 Ha) as [Hgp Hup]; [nia|done|].
    split; [done|]. eexists. split; [exact Hup|]. unfold step_units. exact (proj2 Hc).
  - destruct (round_down_units limit tick kp dp price Hst Hg Hk H28 Ha) as [Hgp Hup]; [nia|done|].
    split; [done|]. eexists. split; [exact Hup|]. unfold step_units. lia.
Qed.

(** A limit order never exceeds its target and leaves less than one exchange
    step of it: the plan submits exactly the whole steps of the target, on its
    side, with the quantity inside the lot filter and the price inside the price
    filter, on the tick grid and less than one tick from the limit towards
    filling; no order is planned exactly when the target is below one step. *)
Theorem limit_order_exact op client target d limit rules r k dp kp :
  lot_fits d k (Z.abs target) (flt_step (lot_size rules)) ->
  tick_fits dp kp limit (flt_step (ru_price rules)) ->
  plan_limit_ioc op client target d limit rules = Ok r ->
  let n := whole_steps (Z.abs target) d k in
  match r with
  | None => Z.abs target < step_units d k
  | Some plan =>
      n <> 0 /\ li_target plan = target /\ li_submitted plan = signed_units target n /\
      Z.abs (li_submitted plan) <= Z.abs target < Z.abs (li_submitted plan) + step_units d k /\
      exists quantity price,
        li_request plan = mkRequest op client (ru_symbol rules)
                            (LimitIoc (if 0 <? target then "BUY" else "SELL") quantity price) /\
        mantissa quantity * 10 ^ d = n * 10 ^ scale quantity /\
        in_filter (lot_size rules) quantity = true /\ in_filter (ru_price rules) price = true /\
        price_within_tick (0 <? target) dp kp limit price (flt_step (ru_price rules))
  end.
Proof.
  intros Hl Ht Hp. cbv zeta. unfold plan_limit_ioc in Hp.
  pose proof (whole_steps_bounds (Z.abs target) d k ltac:(lia) (proj1 (lf_places _ _ _ _ Hl))) as Hb.
  res_inv. match goal with E1 : decimal_from_base_units _ _ = Ok _, E2 : round_down _ _ = Ok _ |- _ =>
    destruct (sized_quantity _ _ _ _ _ _ Hl E1 E2) as (Hqok & Hval & Hzero & Hbase) end.
  destruct (Z.eqb_spec (mantissa x3) 0) as [Hz|Hz].
  { res_inv. apply Hzero in Hz. lia. }
  res_inv. bool_prop. rewrite Hbase in *. simplify_eq. simpl.
  assert (Hn : whole_steps (Z.abs target) d k <> 0) by tauto.
  split_and!; try done.
  - unfold signed_units. destruct (0 <? target); lia.
  - unfold signed_units. destruct (0 <? target); lia.
  - eexists _, _. split; [done|]. split_and!; try done; [unfold in_filter; by rewrite andb_true_iff..|].
    by apply rounded_price.
Qed.

(** The closing market order never enlarges the exposure: what it submits is
    exactly the whole steps of the target on its side, within the market filters
    and above the minimum notional, leaving less than one step; otherwise the
    quantity is reported as dust for the reason that actually holds. *)
Theorem market_order_exact op client target d price rules r k :
  lot_fits d k (Z.abs target) (market_filter rules flt_step) ->
  plan_market_order op client target d price rules = Ok r ->
  let n := whole_steps (Z.abs target) d k in
  match r with
  | Submit o =>
      n <> 0 /\ mo_target o = target /\ mo_submitted o = signed_units target n /\
      Z.abs (mo_submitted o) <= Z.abs target < Z.abs (mo_submitted o) + step_units d k /\
      exists quantity notional,
        rq_kind (mo_request o) = (if 0 <? target then MarketBuyQuantity quantity else MarketSell quantity) /\
        mantissa quantity * 10 ^ d = n * 10 ^ scale quantity /\
        dec_le (market_filter rules flt_min) quantity /\ dec_le quantity (market_filter rules flt_max) /\
        dec_checked_mul quantity price = Some notional /\ dec_le (min_notional rules) notional
  | ResidualDust u =>
      mantissa (du_submitted_quantity u) * 10 ^ d = n * 10 ^ scale (du_submitted_quantity u) /\
      match du_reason u with
      | BelowMarketStep => Z.abs target < step_units d k
      | BelowMinimumQuantity => dec_lt (du_submitted_quantity u) (market_filter rules flt_min)
      | BelowMinimumNotional => dec_lt (du_notional u) (min_notional rules)
      end
  end.
Proof.
  intros Hl Hp. cbv zeta. unfold plan_market_order in Hp.
  pose proof (whole_steps_bounds (Z.abs target) d k ltac:(lia) (proj1 (lf_places _ _ _ _ Hl))) as Hb.
  apply rbind_Ok in Hp as ([] & _ & Hp). apply rbind_Ok in Hp as ([] & _ & Hp). apply rbind_Ok in Hp as ([] & _ & Hp).
  apply rbind_Ok in Hp as (exact & He & Hp). apply rbind_Ok in Hp as (q & Hq & Hp).
  destruct (sized_quantity _ _ _ _ _ _ Hl He Hq) as (Hqok & Hval & Hzero & Hbase).
  apply rbind_Ok in Hp as (notional & Hn & Hp). apply or_err_Ok in Hn. cbv zeta in Hp.
  destruct (Z.eqb_spec (mantissa q) 0) as [Hz|Hz].
  { injection Hp as <-. simpl. split; [done|]. apply Hzero in Hz. lia. }
  destruct (dec_ltb q _) eqn:Hmin.
  { injection Hp as <-. simpl. split; [done|]. by apply dec_ltb_lt. }
  apply rbind_Ok in Hp as ([] & Hmax & Hp). apply ensure_Ok, dec_leb_le in Hmax.
  destruct (dec_ltb notional _) eqn:Hnot.
  { injection Hp as <-. simpl. split; [done|]. by apply dec_ltb_lt. }
  rewrite Hbase in Hp. cbn [rbind] in Hp. apply rbind_Ok in Hp as ([] & _ & Hp).
  apply rbind_Ok in Hp as ([] & _ & Hp). injection Hp as <-. simpl.
  assert (Hn0 : whole_steps (Z.abs target) d k <> 0) by tauto.
  split_and!; try done; [unfold signed_units; destruct (0 <? target); lia..|].
  exists q, notional. split_and!; try done; by apply dec_ltb_ge.
Qed.
End plans.
