(* ===== verification/OrderJournal.v ===== *)
(** * The exchange order journal ([src/src/binance/order_journal.rs])

    Every order is journaled under its client order id before it is sent, and its
    progress is journaled as the exchange answers.  The file is a list of bytes;
    an append takes the clock and a possible write fault.  JSON, SHA-256 and the
    text of decimals are the interface [OrderCodec]. *)
From Stdlib Require Import Lia.
From stdpp Require Import base gmap strings numbers list fin_maps.
From S2P Require Import Prelude Decimals LineLog ExecutionPlan TradeData.

Definition ORDER_VERSION : Z := 1.
Definition ORDER_MAX_LINE : Z := 32 * 1024.
Definition MAX_REASON_BYTES : Z := 1024.

Record BinanceOrderJournalScope := mkOrderScope {
  os_schema_version : Z; os_account_id : string; os_strategy_id : string }.
#[global] Instance BinanceOrderJournalScope_eq_dec : EqDecision BinanceOrderJournalScope.
Proof. solve_decision. Defined.

Definition validate_order_scope (s : BinanceOrderJournalScope) : TRes unit :=
  ensure! os_schema_version s =? 2 else "unsupported Binance order journal scope schema version" ;;
  ensure! negb (trim_is_empty (os_account_id s)) && negb (trim_is_empty (os_strategy_id s))
    else "Binance order journal scope is incomplete" ;;
  Ok tt.

Record BinanceOrderIntent := mkOrderIntent {
  oi_scope : option BinanceOrderJournalScope;
  oi_operation_id : string;
  oi_client_order_id : string;
  oi_symbol : string;
  oi_side : string;
  oi_order_type : string;
  oi_quantity : option string;
  oi_quote_order_quantity : option string;
  oi_limit_price : option string;
}.
#[global] Instance BinanceOrderIntent_eq_dec : EqDecision BinanceOrderIntent.
Proof. solve_decision. Defined.

Record OrderFill := mkFill {
  of_price : Decimal; of_qty : Decimal; of_commission : Decimal; of_commission_asset : string; of_trade_id : Z }.
Record OrderResult := mkOrderResult {
  or_symbol : string;
  or_order_id : Z;
  or_client_order_id : string;
  or_transact_time : option Z;
  or_price : Decimal;
  or_orig_qty : Decimal;
  or_executed_qty : Decimal;
  or_orig_quote_order_qty : Decimal;
  or_cumulative_quote_qty : Decimal;
  or_status : string;
  or_time_in_force : string;
  or_order_type : string;
  or_side : string;
  or_fills : list OrderFill;
}.

Inductive BinanceOrderProgress :=
| OrderIntentRecorded
| OrderSubmitted (order_id : Z) (status executed cumulative : string) (order : option OrderResult)
| OrderOutcomeUnknown (reason : string)
| OrderRejected (status code : Z) (reason : string)
| OrderTerminal (order_id : Z) (status executed cumulative : string) (order : option OrderResult).

Definition progress_terminal (p : BinanceOrderProgress) : bool :=
  match p with OrderRejected _ _ _ | OrderTerminal _ _ _ _ _ => true | _ => false end.
Definition progress_intent (p : BinanceOrderProgress) : bool :=
  match p with OrderIntentRecorded => true | _ => false end.

Record BinanceOrderOperation := mkOrderOperation { oo_intent : BinanceOrderIntent; oo_progress : BinanceOrderProgress }.
Abbreviation Orders := (gmap string BinanceOrderOperation).

Record BinanceOrderJournal := mkOrderJournal {
  oj_file : list Z;
  oj_operations : Orders;
  oj_next_sequence : Z;
  oj_poisoned : bool;
}.

Record OrderPayload := mkOrderPayload {
  op_version : Z; op_sequence : Z; op_recorded_at_unix_ms : Z; op_operation : BinanceOrderOperation }.
Record OrderRecord := mkOrderRecord { or_payload : OrderPayload; or_checksum : string }.

Class OrderCodec := {
  order_payload_to_vec : OrderPayload -> option (list Z);
  order_record_to_vec : OrderRecord -> option (list Z);
  order_record_from_slice : list Z -> option OrderRecord;
  order_sha256_hex : list Z -> string;
  decimal_text : Decimal -> string;
  parse_decimal : string -> option Decimal;
}.
(** JSON of a record has no raw line feed and parses back to the record. *)
Class OrderCodecLaws `{OrderCodec} : Prop := {
  order_roundtrip r bs : order_record_to_vec r = Some bs -> order_record_from_slice bs = Some r;
  order_one_line r bs : order_record_to_vec r = Some bs -> 10 ∉ bs;
}.

(** ** Validation *)
Definition validate_text (value : string) (maximum : Z) : TRes unit :=
  ensure! negb (str_is_empty value) else "Binance journal text is empty" ;;
  ensure! str_len value <=? maximum else "Binance journal text is too long" ;;
  ensure! bytes_all trade_id_byte value else "Binance journal text contains unsupported characters" ;;
  Ok tt.

Definition is_set (o : option string) : bool := negb (bool_decide (o = None)).

Definition validate_order (o : BinanceOrderOperation) : TRes unit :=
  let i := oo_intent o in
  let? _ := validate_text (oi_operation_id i) 96 in
  let? _ := validate_text (oi_client_order_id i) 36 in
  ensure! starts_with (oi_client_order_id i) "rustval" || starts_with (oi_client_order_id i) "rustarb"
    else "Binance client id must use a Rust-owned namespace" ;;
  let? _ := validate_text (oi_symbol i) 24 in
  ensure! bool_decide (oi_side i = "BUY"%string) || bool_decide (oi_side i = "SELL"%string)
    else "invalid side" ;;
  ensure! bool_decide (oi_order_type i = "MARKET"%string) || bool_decide (oi_order_type i = "LIMIT"%string)
    else "invalid order type" ;;
  ensure! xorb (is_set (oi_quantity i)) (is_set (oi_quote_order_quantity i))
    else "exactly one Binance quantity field is required" ;;
  let? _ :=
    if decide (oi_order_type i = "LIMIT"%string) then
      ensure! is_set (oi_limit_price i) else "LIMIT order requires a price" ;;
      ensure! is_set (oi_quantity i) else "LIMIT order requires base quantity" ;; Ok tt
    else
      ensure! negb (is_set (oi_limit_price i)) else "MARKET order cannot have a price" ;; Ok tt in
  match oo_progress o with
  | OrderOutcomeUnknown reason | OrderRejected _ _ reason =>
      ensure! negb (str_is_empty reason) && (str_len reason <=? MAX_REASON_BYTES)
        else "Binance journal reason is invalid" ;; Ok tt
  | OrderSubmitted _ status _ _ _ | OrderTerminal _ status _ _ _ => validate_text status 24
  | OrderIntentRecorded => Ok tt
  end.

(** After an unknown outcome every next progress but a second intent is an
    exchange answer, so the third guard of the code never fires. *)
Definition validate_transition (previous next : BinanceOrderProgress) : TRes unit :=
  ensure! negb (progress_terminal previous) else "Binance order is already terminal" ;;
  ensure! negb (progress_intent next) else "Binance order intent cannot be recorded twice" ;;
  ensure! match previous, next with
          | OrderOutcomeUnknown _, (OrderSubmitted _ _ _ _ _ | OrderTerminal _ _ _ _ _
                                    | OrderRejected _ _ _ | OrderOutcomeUnknown _) => true
          | OrderOutcomeUnknown _, OrderIntentRecorded => false
          | _, _ => true
          end
    else "an unknown Binance outcome can only be reconciled from the exchange" ;;
  Ok tt.

Definition apply_order (ops : Orders) (o : BinanceOrderOperation) : TRes Orders :=
  let? _ := validate_order o in
  let id := oi_client_order_id (oo_intent o) in
  let? _ :=
    match ops !! id with
    | Some previous =>
        ensure! bool_decide (oo_intent previous = oo_intent o) else "Binance order journal intent changed" ;;
        validate_transition (oo_progress previous) (oo_progress o)
    | None =>
        ensure! progress_intent (oo_progress o)
          else "first Binance order journal state must be intent_recorded" ;; Ok tt
    end in
  Ok (<[id := o]> ops).

Definition active_orders (j : BinanceOrderJournal) : list BinanceOrderOperation :=
  filter (fun o => progress_terminal (oo_progress o) = false) (btree_values (oj_operations j)).

(** ** The file *)
Record OrderEnv := mkOrderEnv { oe_now_ms : TRes Z; oe_write_fault : option nat }.

Section journal.
Context `{OrderCodec}.

Definition order_checksum (p : OrderPayload) : TRes string :=
  let? bytes := or_err (order_payload_to_vec p) "failed to encode Binance checksum input" in
  Ok (order_sha256_hex bytes).
Definition new_order_record (p : OrderPayload) : TRes OrderRecord :=
  let? c := order_checksum p in Ok (mkOrderRecord p c).
Definition validate_order_checksum (r : OrderRecord) : TRes unit :=
  let? c := order_checksum (or_payload r) in
  ensure! bool_decide (or_checksum r = c) else "Binance order journal checksum mismatch" ;; Ok tt.

Definition replay_order_line (st : Orders * Z) (line : list Z) : TRes (Orders * Z) :=
  let '(ops, expected) := st in
  ensure! Z.of_nat (length line) <=? ORDER_MAX_LINE else "Binance order journal record is too large" ;;
  ensure! bool_decide (last line = Some 10) else "Binance order journal ends with a partial record" ;;
  let? r := or_err (order_record_from_slice (take (length line - 1) line))
              "Binance order journal contains invalid JSON" in
  let? _ := validate_order_checksum r in
  ensure! op_version (or_payload r) =? ORDER_VERSION else "unsupported Binance order journal version" ;;
  ensure! op_sequence (or_payload r) =? expected else "Binance order journal sequence mismatch" ;;
  let? ops' := apply_order ops (op_operation (or_payload r)) in
  let? next := or_err (checked_add 64 expected 1) "Binance order journal sequence overflow" in
  Ok (ops', next).

(** What [open] reads of a file that passed the path, permission and lock checks. *)
Definition open_orders (bytes : list Z) : TRes BinanceOrderJournal :=
  let? '(ops, seq) := replay_lines replay_order_line (split_lines bytes) (∅, 0) in
  Ok (mkOrderJournal bytes ops seq false).

Definition prepare_order (env : OrderEnv) (o : BinanceOrderOperation) (j : BinanceOrderJournal)
  : TRes (Orders * list Z) :=
  ensure! negb (oj_poisoned j) else "Binance order journal is poisoned" ;;
  let? _ := validate_order o in
  let? now := oe_now_ms env in
  let? next := apply_order (oj_operations j) o in
  let? r := new_order_record (mkOrderPayload ORDER_VERSION (oj_next_sequence j) now o) in
  let? encoded := or_err (order_record_to_vec r) "failed to encode Binance order journal" in
  ensure! Z.of_nat (length encoded) <? ORDER_MAX_LINE else "Binance order journal record is too large" ;;
  Ok (next, encoded ++ [10]).

Abbreviation OM := (M BinanceOrderJournal string).

Definition append_order (env : OrderEnv) (o : BinanceOrderOperation) : OM unit := fun j =>
  match prepare_order env o j with
  | Err e => (j, Err e)
  | Ok (next, line) =>
      match oe_write_fault env with
      | Some k =>
          (mkOrderJournal (oj_file j ++ take k line) (oj_operations j) (oj_next_sequence j) true,
           Err "failed to durably append Binance order journal record"%string)
      | None =>
          match checked_add 64 (oj_next_sequence j) 1 with
          | None => (mkOrderJournal (oj_file j ++ line) next (oj_next_sequence j) (oj_poisoned j),
                     Err "Binance order journal sequence overflow"%string)
          | Some s => (mkOrderJournal (oj_file j ++ line) next s (oj_poisoned j), Ok tt)
          end
      end
  end.

Definition record_order_intent (env : OrderEnv) (i : BinanceOrderIntent) : OM unit := fun j =>
  if bool_decide (is_Some (oj_operations j !! oi_client_order_id i))
  then (j, Err "Binance client order id already exists in journal"%string)
  else append_order env (mkOrderOperation i OrderIntentRecorded) j.

Definition advance (env : OrderEnv) (id : string) (p : BinanceOrderProgress) : OM unit := fun j =>
  match oj_operations j !! id with
  | None => (j, Err "unknown Binance order"%string)
  | Some current =>
      match validate_transition (oo_progress current) p with
      | Err e => (j, Err e)
      | Ok _ => append_order env (mkOrderOperation (oo_intent current) p) j
      end
  end.

(** Each amount the operator's intent names equals the order's. *)
Definition amount_matches (text : option string) (amount : Decimal) (parse_error mismatch : string) : TRes unit :=
  match text with
  | None => Ok tt
  | Some t =>
      let? v := or_err (parse_decimal t) parse_error in
      ensure! dec_eqb v amount else mismatch ;; Ok tt
  end.

Definition discovered_matches (i : BinanceOrderIntent) (r : OrderResult) : TRes unit :=
  ensure! bool_decide (or_client_order_id r = oi_client_order_id i) && bool_decide (or_symbol r = oi_symbol i)
          && bool_decide (or_side r = oi_side i) && bool_decide (or_order_type r = oi_order_type i)
    else "discovered Binance order does not match its operator intent" ;;
  let? _ := amount_matches (oi_quantity i) (or_orig_qty r)
              "discovered Binance intent quantity is not an exact decimal"
              "discovered Binance order quantity differs from its operator intent" in
  let? _ := amount_matches (oi_quote_order_quantity i) (or_orig_quote_order_qty r)
              "discovered Binance intent quote quantity is not an exact decimal"
              "discovered Binance quote quantity differs from its operator intent" in
  ensure! existsb (fun s => bool_decide (or_status r = s))
            ["FILLED"; "CANCELED"; "EXPIRED"; "EXPIRED_IN_MATCH"; "REJECTED"]%string
    else "discovered Binance order is not terminal" ;;
  Ok tt.

(** Two appends: [env] and [env'] are their clocks and faults. *)
Definition record_discovered_terminal (env env' : OrderEnv) (i : BinanceOrderIntent) (r : OrderResult)
  : OM unit := fun j =>
  if bool_decide (is_Some (oj_operations j !! oi_client_order_id i))
  then (j, Err "discovered Binance client order id already exists in journal"%string)
  else
    (do! mlift (discovered_matches i r) ;;
     do! record_order_intent env i ;;
     advance env' (or_client_order_id r)
       (OrderTerminal (or_order_id r) (or_status r) (decimal_text (or_executed_qty r))
          (decimal_text (or_cumulative_quote_qty r)) (Some r))) j.
End journal.

(** ** What an append may change *)

(** The order is still there, with its intent; a terminal order is unchanged. *)
Definition order_kept (o o' : BinanceOrderOperation) : Prop :=
  oo_intent o' = oo_intent o /\
  (progress_terminal (oo_progress o) = true -> o' = o) /\
  (progress_intent (oo_progress o') = true -> o' = o).

Definition orders_kept (ops ops' : Orders) : Prop :=
  forall id o, ops !! id = Some o -> exists o', ops' !! id = Some o' /\ order_kept o o'.

#[global] Instance orders_kept_preorder : PreOrder orders_kept.
Proof.
  split.
  - intros ops id o Ho. exists o. by split.
  - intros a b c Hab Hbc id o Ho. destruct (Hab id o Ho) as (o1 & H1 & E1 & T1 & I1).
    destruct (Hbc id o1 H1) as (o2 & H2 & E2 & T2 & I2). exists o2. split; [done|]. split_and!.
    + congruence.
    + intros Ht. pose proof (T1 Ht) as ->. auto.
    + intros Hi. pose proof (I2 Hi) as ->. auto.
Qed.

Definition orders_keyed (ops : Orders) : Prop :=
  forall id o, ops !! id = Some o -> oi_client_order_id (oo_intent o) = id.

Lemma apply_order_inv ops o ops' :
  apply_order ops o = Ok ops' ->
  ops' = <[oi_client_order_id (oo_intent o) := o]> ops /\
  match ops !! oi_client_order_id (oo_intent o) with
  | Some p => oo_intent p = oo_intent o /\ validate_transition (oo_progress p) (oo_progress o) = Ok tt
  | None => progress_intent (oo_progress o) = true
  end.
Proof.
  unfold apply_order. intros Ha. apply rbind_Ok in Ha as ([] & _ & Ha). cbv zeta in Ha.
  apply rbind_Ok in Ha as ([] & Hc & Ha). injection Ha as <-. split; [done|].
  destruct (ops !! _) as [p|]; res_inv; by bool_prop.
Qed.

Lemma apply_order_kept ops o ops' : apply_order ops o = Ok ops' -> orders_kept ops ops'.
Proof.
  intros (-> & Hc)%apply_order_inv id p Hp. destruct (decide (id = oi_client_order_id (oo_intent o))) as [->|Hne];
    [|rewrite lookup_insert_ne by done; exists p; by split].
  rewrite lookup_insert_eq. rewrite Hp in Hc. destruct Hc as [Hi Ht]. exists o. split; [done|]. split; [done|].
  unfold validate_transition in Ht. res_inv. bool_prop. split; intros; congruence.
Qed.

Lemma apply_order_keyed ops o ops' : orders_keyed ops -> apply_order ops o = Ok ops' -> orders_keyed ops'.
Proof.
  intros Hk (-> & _)%apply_order_inv id p. rewrite lookup_insert_Some. naive_solver.
Qed.

(** ** The file and its replay *)
Section durability.
Context `{OrderCodecLaws}.
#[local] Arguments replay_order_line : simpl never.

Lemma replay_order_closed st l st' : replay_order_line st l = Ok st' -> last l = Some 10.
Proof. destruct st. unfold replay_order_line. intros Hr. res_inv. by bool_prop. Qed.

Record orders_ok (j : BinanceOrderJournal) : Prop := {
  ok_keyed : orders_keyed (oj_operations j);
  ok_sequence : 0 <= oj_next_sequence j < 2 ^ 64;
  ok_file : oj_poisoned j = false ->
    replays replay_order_line (oj_file j) (∅, 0) (oj_operations j, oj_next_sequence j);
  ok_fault j' : oj_poisoned j = true -> open_orders (oj_file j) = Ok j' ->
    oj_operations j' = oj_operations j \/
    exists o, apply_order (oj_operations j) o = Ok (oj_operations j');
}.

Lemma open_orders_ok bytes j : open_orders bytes = Ok j -> orders_ok j /\ oj_file j = bytes /\ oj_poisoned j = false.
Proof.
  unfold open_orders. intros Ho. res_inv. destruct x as [ops n]. res_inv.
  assert (Hk : orders_keyed ops /\ 0 <= n < 2 ^ 64).
  { apply (replay_lines_ind replay_order_line (fun st => orders_keyed st.1 /\ 0 <= st.2 < 2 ^ 64)
             (split_lines bytes) (∅, 0) (ops, n)); [|split; [intros id o; simpl; by rewrite lookup_empty|simpl; lia]|done].
    intros [ops1 n1] l [ops2 n2] [Hk Hn] Hl. simpl in *. unfold replay_order_line in Hl. res_inv. checked_inv.
    subst. split; [by eapply apply_order_keyed|lia]. }
  split; [|done]. split; simpl; try done; try tauto.
  intros _. by apply (replay_lines_replays _ replay_order_closed).
Qed.

Lemma replays_reopen j ops n :
  replays replay_order_line (oj_file j) (∅, 0) (ops, n) ->
  open_orders (oj_file j) = Ok (mkOrderJournal (oj_file j) ops n false).
Proof. intros [_ Hr]. unfold open_orders. by rewrite Hr. Qed.

Lemma order_record_checks p r :
  new_order_record p = Ok r -> or_payload r = p /\ validate_order_checksum r = Ok tt.
Proof.
  unfold new_order_record, validate_order_checksum, order_checksum. intros Hr. res_inv. simpl. split; [done|].
  match goal with E : order_payload_to_vec _ = Some _ |- _ => rewrite E end. simpl. by rewrite bool_decide_eq_true_2.
Qed.

(** Everything a prepared append promises. *)
Lemma prepared_order env o j next line :
  orders_ok j -> oj_next_sequence j + 1 < 2 ^ 64 -> prepare_order env o j = Ok (next, line) ->
  oj_poisoned j = false /\ apply_order (oj_operations j) o = Ok next /\
  (exists body, line = body ++ [10] /\ (10 ∉ body) /\ Z.of_nat (length body) < ORDER_MAX_LINE) /\
  replays replay_order_line (oj_file j ++ line) (∅, 0) (next, oj_next_sequence j + 1).
Proof.
  intros Hok Hs Hp. unfold prepare_order in Hp. res_inv. bool_prop.
  match goal with E : new_order_record _ = Ok ?r, F : order_record_to_vec ?r = Some ?b |- _ =>
    rename E into Hrec, F into Henc, b into body, r into rec end.
  match goal with E : apply_order _ _ = Ok _ |- _ => rename E into Ha end.
  pose proof (order_one_line _ _ Henc) as Hnl. pose proof (order_roundtrip _ _ Henc) as Hrt.
  destruct (order_record_checks _ _ Hrec) as [Hpay Hsum].
  split; [done|]. split; [done|]. split; [by exists body|].
  apply (replays_append _ _ _ (oj_operations j, oj_next_sequence j)); [by apply ok_file|done|].
  unfold replay_order_line. rewrite length_app. simpl. rewrite (proj2 (Z.leb_le _ _)) by lia. simpl.
  rewrite last_snoc, bool_decide_eq_true_2 by done. simpl.
  replace (length body + 1 - 1)%nat with (length body) by lia. rewrite take_app_length, Hrt. simpl.
  rewrite Hsum, Hpay. simpl. rewrite Z.eqb_refl. simpl. rewrite Ha. simpl. unfold checked_add.
  by rewrite (proj2 (Z.ltb_lt _ _)).
Qed.

(** What the next process finds after a write fault of [k] bytes. *)
Lemma order_fault_reopens env o j next line k :
  orders_ok j -> oj_next_sequence j + 1 < 2 ^ 64 -> prepare_order env o j = Ok (next, line) ->
  open_orders (oj_file j ++ take k line) =
    (if decide (k = O) then Ok (mkOrderJournal (oj_file j) (oj_operations j) (oj_next_sequence j) false)
     else if decide (k < length line)%nat
          then Err "Binance order journal ends with a partial record"%string
          else Ok (mkOrderJournal (oj_file j ++ line) next (oj_next_sequence j + 1) false)).
Proof.
  intros Hok Hs Hp. destruct (prepared_order _ _ _ _ _ Hok Hs Hp) as (Hpois & _ & (body & -> & Hnl & Hlen) & Hrep).
  pose proof (ok_file _ Hok Hpois) as Hfile. case_decide as Hzero; [|case_decide as Hcut].
  - subst k. rewrite take_0, app_nil_r. by apply replays_reopen.
  - unfold open_orders. rewrite length_app in Hcut. simpl in Hcut.
    rewrite (replays_torn _ _ _ _ _ _ Hfile Hnl) by lia.
    unfold replay_order_line. rewrite (proj2 (Z.leb_le _ _)) by (rewrite length_take; lia). simpl.
    rewrite bool_decide_eq_false_2; [done|]. intros Hl.
    by apply (not_elem_take 10 k body Hnl), last_Some_elem_of.
  - rewrite take_ge by lia. unfold open_orders. by rewrite (proj2 Hrep).
Qed.

Lemma append_order_ok env o j :
  orders_ok j -> oj_next_sequence j + 1 < 2 ^ 64 ->
  orders_ok (append_order env o j).1 /\ orders_kept (oj_operations j) (oj_operations (append_order env o j).1) /\
  oj_next_sequence (append_order env o j).1 <= oj_next_sequence j + 1.
Proof.
  intros Hok Hs. unfold append_order. destruct (prepare_order env o j) as [[next line]|e] eqn:Hp;
    [|simpl; split; [done|split; [done|lia]]].
  destruct (prepared_order _ _ _ _ _ Hok Hs Hp) as (Hpois & Ha & _ & Hrep).
  destruct (oe_write_fault env) as [k|].
  - simpl. split; [|split; [done|lia]]. split; simpl; [apply Hok|apply Hok|done|].
    intros j' _ Hj. rewrite (order_fault_reopens _ _ _ _ _ _ Hok Hs Hp) in Hj.
    repeat case_decide; simplify_eq/=; [by left|]. right. by exists o.
  - unfold checked_add. rewrite (proj2 (Z.ltb_lt _ _)) by done. simpl.
    pose proof (ok_sequence _ Hok). split; [|split; [by eapply apply_order_kept|lia]].
    split; simpl; [eapply apply_order_keyed; [apply Hok|done]|lia|done|congruence].
Qed.

(** ** Runs of calls and restarts *)
Inductive order_call :=
| CallIntent (env : OrderEnv) (i : BinanceOrderIntent)
| CallAdvance (env : OrderEnv) (id : string) (p : BinanceOrderProgress)
| CallDiscovered (env env' : OrderEnv) (i : BinanceOrderIntent) (r : OrderResult).

Definition run_order_call (c : order_call) (j : BinanceOrderJournal) : BinanceOrderJournal :=
  match c with
  | CallIntent env i => (record_order_intent env i j).1
  | CallAdvance env id p => (advance env id p j).1
  | CallDiscovered env env' i r => (record_discovered_terminal env env' i r j).1
  end.

Inductive order_run : BinanceOrderJournal -> BinanceOrderJournal -> Prop :=
| order_run_refl j : order_run j j
| order_run_call c j j1 : order_run j j1 -> oj_next_sequence j1 + 2 < 2 ^ 64 -> order_run j (run_order_call c j1)
| order_run_restart j j1 j2 : order_run j j1 -> open_orders (oj_file j1) = Ok j2 -> order_run j j2.

Definition advances (j j' : BinanceOrderJournal) : Prop :=
  orders_ok j' /\ orders_kept (oj_operations j) (oj_operations j') /\
  oj_next_sequence j' <= oj_next_sequence j + 1.

Lemma intent_call_ok env i j :
  orders_ok j -> oj_next_sequence j + 1 < 2 ^ 64 -> advances j (record_order_intent env i j).1.
Proof.
  intros Hok Hs. unfold record_order_intent. case_bool_decide; [|by apply append_order_ok].
  split; [done|]. split; [done|]. simpl. lia.
Qed.

Lemma advance_call_ok env id p j :
  orders_ok j -> oj_next_sequence j + 1 < 2 ^ 64 -> advances j (advance env id p j).1.
Proof.
  intros Hok Hs. unfold advance. assert (Hrefl : advances j j) by (split; [done|split; [done|lia]]).
  destruct (oj_operations j !! id) as [o|]; [|done].
  destruct (validate_transition _ _); [by apply append_order_ok|done].
Qed.

Lemma call_ok c j :
  orders_ok j -> oj_next_sequence j + 2 < 2 ^ 64 ->
  orders_ok (run_order_call c j) /\ orders_kept (oj_operations j) (oj_operations (run_order_call c j)).
Proof.
  intros Hok Hs. destruct c as [env i|env id p|env env' i r]; simpl.
  - destruct (intent_call_ok env i j Hok ltac:(lia)) as (? & ? & _). done.
  - destruct (advance_call_ok env id p j Hok ltac:(lia)) as (? & ? & _). done.
  - unfold record_discovered_terminal. case_bool_decide; [done|]. unfold mbind', mlift.
    destruct (discovered_matches i r); [|done].
    destruct (intent_call_ok env i j Hok ltac:(lia)) as (Hok1 & Hk1 & Hs1).
    destruct (record_order_intent env i j) as [j1 [|]]; simpl in *; [|done].
    edestruct (advance_call_ok env' (or_client_order_id r)) as (Hok2 & Hk2 & _); [exact Hok1|lia|].
    split; [exact Hok2|]. etransitivity; [exact Hk1|exact Hk2].
Qed.

Lemma order_run_ok j j' :
  order_run j j' -> orders_ok j -> orders_ok j' /\ orders_kept (oj_operations j) (oj_operations j').
Proof.
  induction 1 as [j|c j j1 _ IH Hs|j j1 j2 _ IH Ho]; intros Hok; [done| |]; destruct (IH Hok) as [Hok1 Hk1].
  - destruct (call_ok c j1 Hok1 Hs) as [Hok2 Hk2]. split; [done|]. by etransitivity.
  - destruct (open_orders_ok _ _ Ho) as [Hok2 _]. split; [done|]. etransitivity; [exact Hk1|].
    destruct (oj_poisoned j1) eqn:Hp.
    + destruct (ok_fault _ Hok1 j2 Hp Ho) as [->|[o Ha]]; [done|by eapply apply_order_kept].
    + rewrite (replays_reopen _ _ _ (ok_file _ Hok1 Hp)) in Ho. by simplify_eq.
Qed.

(** C38. an order is sent under its id at most once and never forgotten: through
    any calls, write faults and restarts, a journaled order keeps its intent, a
    terminal or rejected order never changes again, no order returns to the
    unsent state, and its client order id is refused for any new intent. *)
Theorem orders_never_forgotten bytes j j' id o env i :
  open_orders bytes = Ok j -> order_run j j' ->
  oj_operations j !! id = Some o -> oi_client_order_id i = id ->
  (exists o', oj_operations j' !! id = Some o' /\ order_kept o o') /\
  record_order_intent env i j' = (j', Err "Binance client order id already exists in journal"%string).
Proof.
  intros Hopen Hr Ho <-. destruct (open_orders_ok _ _ Hopen) as [Hok _].
  destruct (order_run_ok j j' Hr Hok) as [_ Hk]. destruct (Hk _ o Ho) as (o' & Ho' & Hkept). split; [by exists o'|].
  unfold record_order_intent. by rewrite bool_decide_eq_true_2 by by eexists.
Qed.

(** The order journal survives a restart: reopening the file of a healthy
    journal reproduces it, and after a write fault of any length the next process
    sees the old journal, refuses the record cut short, or sees the whole new one. *)
Theorem order_journal_restart bytes j j' env o next line k :
  open_orders bytes = Ok j -> order_run j j' -> oj_next_sequence j' + 1 < 2 ^ 64 ->
  prepare_order env o j' = Ok (next, line) -> oe_write_fault env = Some k ->
  open_orders (oj_file j') = Ok j' /\
  open_orders (oj_file (append_order env o j').1) =
    (if decide (k = O) then Ok j'
     else if decide (k < length line)%nat
          then Err "Binance order journal ends with a partial record"%string
          else Ok (mkOrderJournal (oj_file j' ++ line) next (oj_next_sequence j' + 1) false)).
Proof.
  intros Hopen Hr Hs Hp Hk. destruct (open_orders_ok _ _ Hopen) as [Hok _].
  destruct (order_run_ok j j' Hr Hok) as [Hok' _].
  destruct (prepared_order _ _ _ _ _ Hok' Hs Hp) as (Hpois & _).
  assert (Hj : mkOrderJournal (oj_file j') (oj_operations j') (oj_next_sequence j') false = j')
    by (destruct j'; simpl in *; by subst).
  split; [by rewrite (replays_reopen _ _ _ (ok_file _ Hok' Hpois)), Hj|].
  unfold append_order. rewrite Hp, Hk. cbn [fst oj_file].
  rewrite (order_fault_reopens _ _ _ _ _ _ Hok' Hs Hp). by rewrite Hj.
Qed.
End durability.
