(* ===== verification/OrderJournalDemo.v ===== *)
(** * Concrete orders

    Exact rounding and the order plans of a symbol with the filters of the source's
    tests; then a codec over a finite catalogue of payloads, and one market order
    from its intent to its fill, with a restart in between. *)
From Stdlib Require Import Lia.
From stdpp Require Import base strings numbers list gmap fin_maps pretty.
From S2P Require Import Prelude Decimals LineLog ExecutionPlan TradeData Depth DepthDemo OrderPlan OrderJournal.

(** ** Plans *)
(** The coarsest scale, from [s] on, at which the quotient is an integer that fits. *)
Fixpoint exact_quotient (fuel : nat) (s num den : Z) : option Decimal :=
  match fuel with
  | O => None
  | S fuel' =>
      if (num * 10 ^ s mod den =? 0) && (Z.abs (num * 10 ^ s / den) <? 2 ^ 96)
      then Some (mkDecimal (num * 10 ^ s / den) s)
      else exact_quotient fuel' (s + 1) num den
  end.

#[global] Instance exact_rounding : DecimalRounding := {
  dec_div a b := exact_quotient 29 0 (mantissa a * 10 ^ scale b) (mantissa b * 10 ^ scale a);
  dec_floor d := mkDecimal (mantissa d / 10 ^ scale d) 0;
  dec_ceil d := mkDecimal (- (- mantissa d / 10 ^ scale d)) 0;
  decimal_parse v d := fit v d;
}.

Lemma exact_quotient_found fuel s num den q :
  0 < den -> 0 <= s -> s <= scale q < s + Z.of_nat fuel -> decimal_ok q ->
  num * 10 ^ scale q = mantissa q * den ->
  exists r, exact_quotient fuel s num den = Some r /\ decimal_ok r /\ mantissa r * den = num * 10 ^ scale r.
Proof.
  intros Hden. revert s. induction fuel as [|fuel IH]; intros s Hs Hq Hok He; [lia|]. cbn [exact_quotient].
  destruct (Z.eqb_spec (num * 10 ^ s mod den) 0) as [Hm|Hm], (Z.ltb_spec (Z.abs (num * 10 ^ s / den)) (2 ^ 96));
    simpl; try (destruct (decide (s = scale q)) as [->|Hne]; [|apply IH; try done; lia]).
  - eexists. split; [done|]. split; [split; simpl; destruct Hok; lia|]. simpl.
    pose proof (Z.div_mod (num * 10 ^ s) den ltac:(lia)). lia.
  - rewrite He, Z.div_mul in * by lia. destruct Hok. lia.
  - rewrite He, Z.mod_mul in Hm by lia. done.
  - rewrite He, Z.mod_mul in Hm by lia. done.
Qed.

Lemma quotient_small m p : 0 < p -> - 2 ^ 96 < m < 2 ^ 96 -> - 2 ^ 96 < m / p < 2 ^ 96.
Proof. intros Hp Hm. pose proof (Z.div_mod m p ltac:(lia)). pose proof (Z.mod_pos_bound m p Hp). nia. Qed.

#[global] Instance exact_rounding_laws : RoundingLaws.
Proof.
  constructor.
  - intros a b q Ha Hb Hpos Hq He. simpl.
    pose proof (pow10_pos (scale a) ltac:(destruct Ha; lia)). pose proof (pow10_pos (scale b) ltac:(destruct Hb; lia)).
    destruct (exact_quotient_found 29 0 (mantissa a * 10 ^ scale b) (mantissa b * 10 ^ scale a) q)
      as (r & Hr & Hok & Hv); [nia|lia|destruct Hq; lia|done|lia|].
    exists r. split; [done|]. split; [done|]. unfold dec_eq, dec_cross. simpl.
    apply (Z.mul_reg_r _ _ (mantissa b * 10 ^ scale a)); [nia|].
    transitivity (mantissa r * (mantissa b * 10 ^ scale a) * 10 ^ scale q); [ring|]. rewrite Hv.
    transitivity (mantissa a * 10 ^ scale b * 10 ^ scale q * 10 ^ scale r); [ring|]. rewrite He. ring.
  - intros d0 [Hm Hs]. pose proof (pow10_pos (scale d0) ltac:(lia)). simpl. split.
    + split; [|simpl; lia]. split; simpl; [by apply quotient_small|lia].
    + unfold units. simpl. lia.
  - intros d0 [Hm Hs]. pose proof (pow10_pos (scale d0) ltac:(lia)).
    pose proof (quotient_small (- mantissa d0) (10 ^ scale d0) ltac:(done) ltac:(lia)). simpl. split.
    + split; [|simpl; lia]. split; simpl; lia.
    + unfold units. simpl. lia.
  - intros v p Hv Hp. simpl. unfold fit. rewrite (proj2 (Z.ltb_lt _ _)), (proj2 (Z.leb_le _ _)) by lia.
    eexists. split; [done|]. split; [split; [split|]; simpl; lia|]. unfold units. simpl. rewrite Z.sub_diag. lia.
Qed.

(** ** The symbol of the source's tests *)
Definition wld_rules : SymbolRules :=
  mkRules "WLDUSDC" "TRADING" "WLD" "USDC" (mkFilter (d 1 3) (d 1000 0) (d 1 3))
    (mkFilter (d 1 1) (d 1000000 0) (d 1 1)) (mkFilter (d 0 0) (d 1000000 0) (d 0 0)) (d 1 0).

(** A sale of 5.25 tokens of 18 places, limited at 0.8125. *)
Definition demo_target : Z := - (525 * 10 ^ 16).
Lemma demo_lot : lot_fits 18 1 (Z.abs demo_target) (d 1 1).
Proof.
  split; [split; [|vm_compute; split; congruence|reflexivity]|lia|vm_compute; split; congruence|vm_compute; reflexivity].
  split; vm_compute; split; congruence.
Qed.
Lemma demo_tick : tick_fits 4 3 (d 8125 4) (d 1 3).
Proof.
  split; [split; [|vm_compute; split; congruence|reflexivity]| |lia|vm_compute; split; congruence|vm_compute; reflexivity].
  - split; vm_compute; split; congruence.
  - split; [split; vm_compute; split; congruence|vm_compute; congruence].
Qed.

Definition demo_limit : PlannedLimitIoc :=
  mkLimitIoc (mkRequest "rustarbop" "rustarbclient" "WLDUSDC" (LimitIoc "SELL" (d 52 1) (d 812 3))) demo_target
    (- (52 * 10 ^ 17)).
Lemma demo_limit_planned :
  plan_limit_ioc "rustarbop" "rustarbclient" demo_target 18 (d 8125 4) wld_rules = Ok (Some demo_limit).
Proof. vm_compute. reflexivity. Qed.

Lemma limit_order_exact_witness :
  li_submitted demo_limit = signed_units demo_target (whole_steps (Z.abs demo_target) 18 1).
Proof.
  exact (proj1 (proj2 (proj2 (limit_order_exact "rustarbop" "rustarbclient" demo_target 18 (d 8125 4) wld_rules
    (Some demo_limit) 1 4 3 demo_lot demo_tick demo_limit_planned)))).
Defined.

Definition demo_market : PlannedMarketOrder :=
  mkMarketOrder (mkRequest "rustarbop" "rustarbclient" "WLDUSDC" (MarketSell (d 52 1))) demo_target
    (- (52 * 10 ^ 17)).
Lemma demo_market_planned :
  plan_market_order "rustarbop" "rustarbclient" demo_target 18 (d 8125 4) wld_rules = Ok (Submit demo_market).
Proof. vm_compute. reflexivity. Qed.

Lemma market_order_exact_witness :
  mo_submitted demo_market = signed_units demo_target (whole_steps (Z.abs demo_target) 18 1).
Proof.
  exact (proj1 (proj2 (proj2 (market_order_exact "rustarbop" "rustarbclient" demo_target 18 (d 8125 4) wld_rules
    (Submit demo_market) 1 demo_lot demo_market_planned)))).
Defined.

(** ** Journal *)
#[global] Instance OrderFill_eq_dec : EqDecision OrderFill.
Proof. solve_decision. Defined.
#[global] Instance OrderResult_eq_dec : EqDecision OrderResult.
Proof. solve_decision. Defined.
#[global] Instance BinanceOrderProgress_eq_dec : EqDecision BinanceOrderProgress.
Proof. solve_decision. Defined.
#[global] Instance BinanceOrderOperation_eq_dec : EqDecision BinanceOrderOperation.
Proof. solve_decision. Defined.
#[global] Instance OrderPayload_eq_dec : EqDecision OrderPayload.
Proof. solve_decision. Defined.

Definition market_intent : BinanceOrderIntent :=
  mkOrderIntent None "rustarbop" "rustarb1" "WLDUSDC" "SELL" "MARKET" (Some "5.2"%string) None None.
Definition filled_order : BinanceOrderProgress := OrderTerminal 7 "FILLED" "5.2" "4.2224" None.

Definition order_catalogue : list OrderPayload :=
  [mkOrderPayload 1 0 1000 (mkOrderOperation market_intent OrderIntentRecorded);
   mkOrderPayload 1 1 1000 (mkOrderOperation market_intent filled_order)].

Definition order_digest (bs : list Z) : string := pretty (length bs).
Definition order_index (p : OrderPayload) : option nat :=
  fst <$> list_find (fun q => q = p) order_catalogue.

#[global] Instance demo_order_codec : OrderCodec := {
  order_payload_to_vec p := n ← order_index p; Some [11 + Z.of_nat n];
  order_record_to_vec r :=
    n ← order_index (or_payload r);
    if decide (or_checksum r = order_digest [11 + Z.of_nat n]) then Some [11 + Z.of_nat n] else None;
  order_record_from_slice bs :=
    match bs with
    | [b] => p ← order_catalogue !! Z.to_nat (b - 11); Some (mkOrderRecord p (order_digest [b]))
    | _ => None
    end;
  order_sha256_hex := order_digest;
  decimal_text d := pretty (mantissa d);
  parse_decimal _ := None;
}.

#[global] Instance demo_order_laws : OrderCodecLaws.
Proof.
  constructor; intros [p c] bs; cbn [order_record_to_vec demo_order_codec or_payload or_checksum];
    unfold order_index; destruct (list_find _ _) as [[n q]|] eqn:E; simpl; try done; case_decide; try done;
    intros [= <-].
  - apply list_find_Some in E as (Hq & -> & _). cbn [order_record_from_slice demo_order_codec].
    replace (Z.to_nat (11 + Z.of_nat n - 11)) with n by lia. rewrite Hq. simpl. congruence.
  - rewrite list_elem_of_singleton. lia.
Qed.

Definition order_env : OrderEnv := mkOrderEnv (Ok 1000) None.
Definition empty_orders : BinanceOrderJournal := mkOrderJournal [] ∅ 0 false.
Definition sent : BinanceOrderJournal := run_order_call (CallIntent order_env market_intent) empty_orders.
Definition done_orders : BinanceOrderJournal :=
  run_order_call (CallAdvance order_env "rustarb1" filled_order) sent.

Lemma sent_reopens : open_orders (oj_file sent) = Ok sent.
Proof. vm_compute. reflexivity. Qed.
Lemma sent_to_done : order_run sent done_orders.
Proof.
  apply order_run_call; [|vm_compute; reflexivity]. apply (order_run_restart _ sent); [apply order_run_refl|].
  apply sent_reopens.
Qed.

Lemma orders_never_forgotten_witness :
  record_order_intent order_env market_intent done_orders
    = (done_orders, Err "Binance client order id already exists in journal"%string).
Proof.
  refine (proj2 (orders_never_forgotten (oj_file sent) sent done_orders "rustarb1"
    (mkOrderOperation market_intent OrderIntentRecorded) order_env market_intent sent_reopens sent_to_done _ eq_refl)).
  vm_compute. reflexivity.
Defined.

(** The write of the fill stops after one byte. *)
Definition cut_order : OrderEnv := mkOrderEnv (Ok 1000) (Some 1%nat).
Lemma demo_order_prepared :
  prepare_order cut_order (mkOrderOperation market_intent filled_order) sent = Ok (oj_operations done_orders, [12; 10]).
Proof. vm_compute. reflexivity. Qed.

Lemma order_journal_restart_witness :
  open_orders (oj_file (append_order cut_order (mkOrderOperation market_intent filled_order) sent).1)
    = Err "Binance order journal ends with a partial record"%string.
Proof.
  refine (proj2 (order_journal_restart (oj_file sent) sent sent cut_order (mkOrderOperation market_intent filled_order)
    (oj_operations done_orders) [12; 10] 1 sent_reopens (order_run_refl sent) _ demo_order_prepared eq_refl)).
  vm_compute. reflexivity.
Defined.
