(* ===== verification/Journal.v ===== *)
(** * Transaction journal ([src/src/wallet/journal.rs])

    The append-only write-ahead journal of wallet operations: the status of
    each operation, the transition every wire event makes, the durable append
    and the replay that reopens a journal file.  Text codecs, JSON and SHA-256
    are the interface [WireCodec]; what the code relies on of them is
    [WireCodecLaws]. *)
From Stdlib Require Import Lia.
From stdpp Require Import base gmap sets strings numbers list fin_maps.
From S2P Require Import Prelude LineLog.

(** ** Data *)
Inductive JournalError := JMsg (s : string).
#[global] Instance JournalError_eq_dec : EqDecision JournalError.
Proof. solve_decision. Defined.
Abbreviation JRes := (result JournalError).

Definition JOURNAL_VERSION : Z := 1.
Definition MAX_JOURNAL_LINE_BYTES : Z := 64 * 1024.
Definition MAX_OPERATION_ID_BYTES : Z := 160.
Definition MAX_PURPOSE_BYTES : Z := 96.
Definition SCHEMA_VERSION : Z := 2.

Record EvmJournalScope := mkScope {
  schema_version : Z;
  network_id : string;
  wallet_id : string;
  strategy_id : string;
}.
#[global] Instance EvmJournalScope_eq_dec : EqDecision EvmJournalScope.
Proof. solve_decision. Defined.

(** An [Address] is a 160-bit and a [B256] a 256-bit number. *)
Record JournalOperationIdentity := mkIdentity {
  operation_id : string;
  chain_id : Z;
  wallet : Z;
  nonce : Z;
  scope : option EvmJournalScope;
}.
#[global] Instance JournalOperationIdentity_eq_dec : EqDecision JournalOperationIdentity.
Proof. solve_decision. Defined.

Record JournalIntent := mkIntent {
  identity : JournalOperationIdentity;
  purpose : string;
  target : Z;
  native_value : Z;
  calldata_hash : Z;
}.
#[global] Instance JournalIntent_eq_dec : EqDecision JournalIntent.
Proof. solve_decision. Defined.

Inductive UnknownOutcomeReason :=
| BroadcastTransport
| BroadcastRejected
| NonceTooLow
| ConfirmationTimeout
| ProcessInterrupted.
#[global] Instance UnknownOutcomeReason_eq_dec : EqDecision UnknownOutcomeReason.
Proof. solve_decision. Defined.

Inductive JournalStatus :=
| IntentRecorded
| Signed (transaction_hash : Z)
| Broadcast (transaction_hash : Z)
| OutcomeUnknown (transaction_hash : Z) (reason : UnknownOutcomeReason)
| MinedSuccess (transaction_hash block_number : Z)
| MinedReverted (transaction_hash block_number : Z)
| RejectedBeforeBroadcast (transaction_hash : Z)
| CancelledBeforeSigning.
#[global] Instance JournalStatus_eq_dec : EqDecision JournalStatus.
Proof. solve_decision. Defined.

Definition is_unresolved (s : JournalStatus) : bool :=
  match s with
  | IntentRecorded | Signed _ | Broadcast _ | OutcomeUnknown _ _ => true
  | _ => false
  end.

Definition transaction_hash (s : JournalStatus) : option Z :=
  match s with
  | Signed h | Broadcast h | OutcomeUnknown h _ | RejectedBeforeBroadcast h
  | MinedSuccess h _ | MinedReverted h _ => Some h
  | IntentRecorded | CancelledBeforeSigning => None
  end.

Record JournalOperation := mkOperation { intent : JournalIntent; status : JournalStatus }.
#[global] Instance JournalOperation_eq_dec : EqDecision JournalOperation.
Proof. solve_decision. Defined.

(** The file is its bytes; the path and the handle are not state. *)
Record TransactionJournal := mkJournal {
  file : list Z;
  operations : gmap string JournalOperation;
  next_sequence : Z;
  poisoned : bool;
}.

Inductive WireEvent :=
| WIntentRecorded (purpose target native_value calldata_hash : string)
| WSigned (transaction_hash : string)
| WBroadcast (transaction_hash : string)
| WOutcomeUnknown (transaction_hash : string) (reason : UnknownOutcomeReason)
| WMinedSuccess (transaction_hash : string) (block_number : Z)
| WMinedReverted (transaction_hash : string) (block_number : Z)
| WRejectedBeforeBroadcast (transaction_hash : string)
| WCancelledBeforeSigning.

Record WirePayload := mkPayload {
  version : Z;
  sequence : Z;
  recorded_at_unix_ms : Z;
  p_operation_id : string;
  p_chain_id : Z;
  p_wallet : string;
  p_nonce : Z;
  p_scope : option EvmJournalScope;
  event : WireEvent;
}.

Record WireRecord := mkRecord { payload : WirePayload; checksum_sha256 : string }.

(** ** Codecs *)
Class WireCodec := {
  format_address : Z -> string;
  address_from_str : string -> option Z;
  format_b256 : Z -> string;
  b256_from_str : string -> option Z;
  u256_to_string : Z -> string;
  u256_from_str : string -> option Z;
  payload_to_vec : WirePayload -> option (list Z);
  record_to_vec : WireRecord -> option (list Z);
  record_from_slice : list Z -> option WireRecord;
  sha256_hex : list Z -> string;
}.

(** Text forms of addresses, hashes and integers parse back to the value; JSON
    of a record is non-empty, has no raw line feed, and parses back to the
    record. *)
Class WireCodecLaws `{WireCodec} : Prop := {
  address_roundtrip a : uint 160 a -> address_from_str (format_address a) = Some a;
  b256_roundtrip h : uint 256 h -> b256_from_str (format_b256 h) = Some h;
  u256_roundtrip v : uint 256 v -> u256_from_str (u256_to_string v) = Some v;
  record_roundtrip r bs : record_to_vec r = Some bs -> record_from_slice bs = Some r;
  record_one_line r bs : record_to_vec r = Some bs -> bs <> [] /\ (10 ∉ bs);
}.

(** ** Validation *)
Definition identifier_byte (c : Ascii.ascii) : bool :=
  is_ascii_alphanumeric c || byte_is 45 c || byte_is 95 c || byte_is 58 c || byte_is 46 c.

Definition validate_identifier (value : string) (maximum : Z) : JRes unit :=
  ensure! negb (str_is_empty value) else JMsg "journal identifier is empty" ;;
  ensure! str_len value <=? maximum else JMsg "journal identifier is too long" ;;
  ensure! bytes_all identifier_byte value
    else JMsg "journal identifier contains invalid characters" ;;
  Ok tt.

Definition validate_scope (s : EvmJournalScope) : JRes unit :=
  ensure! schema_version s =? SCHEMA_VERSION
    else JMsg "unsupported EVM journal scope schema version" ;;
  ensure! negb (trim_is_empty (network_id s)) && negb (trim_is_empty (wallet_id s))
          && negb (trim_is_empty (strategy_id s))
    else JMsg "EVM journal scope is incomplete" ;;
  Ok tt.

Definition validate_identity (i : JournalOperationIdentity) : JRes unit :=
  let? _ := validate_identifier (operation_id i) MAX_OPERATION_ID_BYTES in
  ensure! 0 <? chain_id i else JMsg "journal chain id is zero" ;;
  ensure! negb (wallet i =? 0) else JMsg "journal wallet is zero" ;;
  match scope i with
  | Some s => validate_scope s
  | None => Ok tt
  end.

Definition validate_intent (it : JournalIntent) : JRes unit :=
  let? _ := validate_identity (identity it) in
  let? _ := validate_identifier (purpose it) MAX_PURPOSE_BYTES in
  ensure! negb (target it =? 0) else JMsg "journal target is zero" ;;
  Ok tt.

(** ** Transitions *)
Definition ensure_hash_transition (previous : JournalStatus) (h : Z) : JRes unit :=
  ensure! bool_decide (transaction_hash previous = Some h)
    else JMsg "journal transaction hash changed" ;;
  Ok tt.

Section journal.
Context `{WireCodec}.

Definition parse_hash (s : string) : JRes Z :=
  or_err (b256_from_str s) (JMsg "journal transaction hash is invalid").

Definition mined_status (previous : JournalStatus) (hs : string) (block : Z) (success : bool)
  : JRes JournalStatus :=
  ensure! 0 <? block else JMsg "journal mined block number is zero" ;;
  let? h := parse_hash hs in
  let? _ := ensure_hash_transition previous h in
  ensure! match previous with Signed _ | Broadcast _ | OutcomeUnknown _ _ => true | _ => false end
    else JMsg "journal mined transition requires a transaction hash" ;;
  Ok (if success then MinedSuccess h block else MinedReverted h block).

(** The status an event moves an operation to; [IntentRecorded] is handled
    before. *)
Definition next_status (previous : JournalStatus) (ev : WireEvent) : JRes JournalStatus :=
  match ev with
  | WSigned hs =>
      ensure! match previous with IntentRecorded => true | _ => false end
        else JMsg "journal signed transition requires a recorded intent" ;;
      let? h := parse_hash hs in Ok (Signed h)
  | WBroadcast hs =>
      let? h := parse_hash hs in
      let? _ := ensure_hash_transition previous h in
      ensure! match previous with Signed _ => true | _ => false end
        else JMsg "journal broadcast transition requires a signed transaction" ;;
      Ok (Broadcast h)
  | WOutcomeUnknown hs reason =>
      let? h := parse_hash hs in
      let? _ := ensure_hash_transition previous h in
      ensure! match previous with Signed _ | Broadcast _ => true | _ => false end
        else JMsg "journal unknown outcome requires a signed or broadcast transaction" ;;
      Ok (OutcomeUnknown h reason)
  | WMinedSuccess hs block => mined_status previous hs block true
  | WMinedReverted hs block => mined_status previous hs block false
  | WRejectedBeforeBroadcast hs =>
      let? h := parse_hash hs in
      let? _ := ensure_hash_transition previous h in
      ensure! match previous with
              | Signed _ | OutcomeUnknown _ BroadcastRejected | OutcomeUnknown _ NonceTooLow => true
              | _ => false
              end
        else JMsg "journal pre-broadcast rejection requires a signed transaction or reviewed RPC rejection" ;;
      Ok (RejectedBeforeBroadcast h)
  | WCancelledBeforeSigning =>
      ensure! match previous with IntentRecorded => true | _ => false end
        else JMsg "only an unsigned journal intent can be cancelled" ;;
      Ok CancelledBeforeSigning
  | WIntentRecorded _ _ _ _ => Err (JMsg "unreachable: intent handled before transition")
  end.

Definition apply_transition (o : JournalOperation) (ev : WireEvent) : JRes JournalOperation :=
  let? next := next_status (status o) ev in
  Ok (mkOperation (intent o) next).

(** A live operation still owns its nonce. *)
Definition released (s : JournalStatus) : bool :=
  match s with
  | CancelledBeforeSigning | RejectedBeforeBroadcast _ => true
  | _ => false
  end.

Definition owns_nonce (i : JournalOperationIdentity) (o : JournalOperation) : bool :=
  (chain_id (identity (intent o)) =? chain_id i) && (wallet (identity (intent o)) =? wallet i)
  && (nonce (identity (intent o)) =? nonce i) && negb (released (status o)).

Definition nonce_taken (ops : gmap string JournalOperation) (i : JournalOperationIdentity) : bool :=
  existsb (owns_nonce i) (btree_values ops).

Definition apply_payload (ops : gmap string JournalOperation) (p : WirePayload)
  : JRes (gmap string JournalOperation) :=
  ensure! 0 <? recorded_at_unix_ms p else JMsg "journal timestamp is zero" ;;
  let? w := or_err (address_from_str (p_wallet p)) (JMsg "journal wallet address is invalid") in
  let i := mkIdentity (p_operation_id p) (p_chain_id p) w (p_nonce p) (p_scope p) in
  let? _ := validate_identity i in
  match event p with
  | WIntentRecorded purp tgt nv ch =>
      ensure! negb (bool_decide (is_Some (ops !! operation_id i)))
        else JMsg "journal operation id already exists" ;;
      ensure! negb (nonce_taken ops i)
        else JMsg "journal nonce is already owned by another operation" ;;
      let? t := or_err (address_from_str tgt) (JMsg "journal target address is invalid") in
      let? v := or_err (u256_from_str nv) (JMsg "journal native value is invalid") in
      let? c := or_err (b256_from_str ch) (JMsg "journal calldata hash is invalid") in
      let it := mkIntent i purp t v c in
      let? _ := validate_intent it in
      Ok (<[operation_id i := mkOperation it IntentRecorded]> ops)
  | ev =>
      let? o := or_err (ops !! operation_id i) (JMsg "journal event has no matching intent") in
      ensure! bool_decide (identity (intent o) = i)
        else JMsg "journal operation identity changed" ;;
      let? o' := apply_transition o ev in
      Ok (<[operation_id i := o']> ops)
  end.

(** ** Records *)
Definition payload_checksum (p : WirePayload) : JRes string :=
  let? encoded := or_err (payload_to_vec p) (JMsg "failed to encode journal checksum input") in
  Ok (sha256_hex encoded).

Definition new_record (p : WirePayload) : JRes WireRecord :=
  let? c := payload_checksum p in Ok (mkRecord p c).

Definition validate_checksum (r : WireRecord) : JRes unit :=
  let? c := payload_checksum (payload r) in
  ensure! bool_decide (checksum_sha256 r = c) else JMsg "transaction journal checksum mismatch" ;;
  Ok tt.

(** ** Replay *)

Definition Replayed : Type := gmap string JournalOperation * Z.

Definition replay_line (st : Replayed) (line : list Z) : JRes Replayed :=
  let '(ops, expected) := st in
  ensure! Z.of_nat (length line) <=? MAX_JOURNAL_LINE_BYTES
    else JMsg "transaction journal record exceeds size limit" ;;
  ensure! bool_decide (last line = Some 10)
    else JMsg "transaction journal ends with a partial record" ;;
  let body := take (length line - 1) line in
  ensure! negb (bool_decide (body = []))
    else JMsg "transaction journal contains an empty record" ;;
  let? r := or_err (record_from_slice body) (JMsg "transaction journal contains invalid JSON") in
  let? _ := validate_checksum r in
  ensure! version (payload r) =? JOURNAL_VERSION
    else JMsg "unsupported transaction journal version" ;;
  ensure! sequence (payload r) =? expected
    else JMsg "transaction journal sequence mismatch" ;;
  let? ops' := apply_payload ops (payload r) in
  let? next := or_err (checked_add 64 expected 1) (JMsg "transaction journal sequence overflow") in
  Ok (ops', next).

Fixpoint replay (lines : list (list Z)) (st : Replayed) : JRes Replayed :=
  match lines with
  | [] => Ok st
  | l :: ls => let? st' := replay_line st l in replay ls st'
  end.

(** What [open] finds on disk. *)
Record FileSystem := mkFs {
  fs_path_empty : bool;
  fs_exists : bool;
  fs_metadata_ok : bool;
  fs_is_symlink : bool;
  fs_is_file : bool;
  fs_parent_is_dir : bool;
  fs_open_ok : bool;
  fs_mode : Z;
  fs_lock_ok : bool;
  fs_sync_ok : bool;
  fs_read_ok : bool;
  fs_contents : list Z;
}.

Definition validate_permissions (fs : FileSystem) : JRes unit :=
  ensure! Z.land (fs_mode fs) 63 =? 0
    else JMsg "transaction journal permissions expose it to group or other users" ;;
  Ok tt.

Definition open_file (fs : FileSystem) : JRes (list Z) :=
  ensure! negb (fs_path_empty fs) else JMsg "transaction journal path is empty" ;;
  let? _ :=
    if fs_exists fs then
      ensure! fs_metadata_ok fs else JMsg "failed to inspect transaction journal" ;;
      ensure! negb (fs_is_symlink fs)
        else JMsg "transaction journal must not be a symbolic link" ;;
      ensure! fs_is_file fs else JMsg "transaction journal path is not a file" ;;
      Ok tt
    else
      ensure! fs_parent_is_dir fs
        else JMsg "transaction journal parent directory does not exist" ;;
      Ok tt in
  ensure! fs_open_ok fs else JMsg "failed to open transaction journal" ;;
  let? _ := validate_permissions fs in
  ensure! fs_lock_ok fs else JMsg "transaction journal is already locked by another process" ;;
  ensure! fs_exists fs || fs_sync_ok fs else JMsg "failed to sync new transaction journal" ;;
  ensure! fs_read_ok fs else JMsg "failed to read transaction journal" ;;
  Ok (if fs_exists fs then fs_contents fs else []).

Definition open (fs : FileSystem) : JRes TransactionJournal :=
  let? bytes := open_file fs in
  let? '(ops, seq) := replay (split_lines bytes) (∅, 0) in
  Ok (mkJournal bytes ops seq false).

(** ** Append *)

(** The clock, and what a failed [write_all]/[sync_data] leaves behind: the
    number of bytes of the record that reached the file. *)
Record AppendEnv := mkEnv { now_ms : JRes Z; write_fault : option nat }.

Definition make_payload (seq now : Z) (i : JournalOperationIdentity) (ev : WireEvent) : WirePayload :=
  mkPayload JOURNAL_VERSION seq now (operation_id i) (chain_id i) (format_address (wallet i))
    (nonce i) (scope i) ev.

(** Everything [append] computes before it writes: the next operations and
    the line. *)
Definition prepare_append (env : AppendEnv) (i : JournalOperationIdentity) (ev : WireEvent)
    (j : TransactionJournal) : JRes (gmap string JournalOperation * list Z) :=
  ensure! negb (poisoned j) else JMsg "transaction journal is poisoned" ;;
  let? _ := validate_identity i in
  let? now := now_ms env in
  let p := make_payload (next_sequence j) now i ev in
  let? next_operations := apply_payload (operations j) p in
  let? r := new_record p in
  let? encoded := or_err (record_to_vec r)
                    (JMsg "failed to encode transaction journal record") in
  ensure! Z.of_nat (length encoded) <? MAX_JOURNAL_LINE_BYTES
    else JMsg "transaction journal record exceeds size limit" ;;
  Ok (next_operations, encoded ++ [10]).

Definition append (env : AppendEnv) (i : JournalOperationIdentity) (ev : WireEvent)
  : M TransactionJournal JournalError unit :=
  fun j =>
    match prepare_append env i ev j with
    | Err e => (j, Err e)
    | Ok (next_operations, line) =>
        match write_fault env with
        | Some k =>
            (mkJournal (file j ++ take k line) (operations j) (next_sequence j) true,
             Err (JMsg "failed to durably append transaction journal record"))
        | None =>
            match checked_add 64 (next_sequence j) 1 with
            | None =>
                (mkJournal (file j ++ line) next_operations (next_sequence j) (poisoned j),
                 Err (JMsg "transaction journal sequence overflow"))
            | Some s => (mkJournal (file j ++ line) next_operations s (poisoned j), Ok tt)
            end
        end
    end.

Definition record_intent (env : AppendEnv) (it : JournalIntent)
  : M TransactionJournal JournalError unit :=
  do! mlift (validate_intent it) ;;
  append env (identity it)
    (WIntentRecorded (purpose it) (format_address (target it)) (u256_to_string (native_value it))
       (format_b256 (calldata_hash it))).

Definition record_signed (env : AppendEnv) (i : JournalOperationIdentity) (h : Z) :=
  append env i (WSigned (format_b256 h)).
Definition record_broadcast (env : AppendEnv) (i : JournalOperationIdentity) (h : Z) :=
  append env i (WBroadcast (format_b256 h)).
Definition record_unknown_outcome (env : AppendEnv) (i : JournalOperationIdentity) (h : Z)
    (reason : UnknownOutcomeReason) :=
  append env i (WOutcomeUnknown (format_b256 h) reason).
Definition record_mined (env : AppendEnv) (i : JournalOperationIdentity) (h block : Z)
    (success : bool) :=
  append env i (if success then WMinedSuccess (format_b256 h) block
                else WMinedReverted (format_b256 h) block).
Definition record_cancelled_before_signing (env : AppendEnv) (i : JournalOperationIdentity) :=
  append env i WCancelledBeforeSigning.
Definition record_rejected_before_broadcast (env : AppendEnv) (i : JournalOperationIdentity)
    (h : Z) :=
  append env i (WRejectedBeforeBroadcast (format_b256 h)).

(** ** Queries *)
Definition operation (j : TransactionJournal) (id : string) : option JournalOperation :=
  operations j !! id.

Definition for_wallet (chain w : Z) (o : JournalOperation) : bool :=
  (chain_id (identity (intent o)) =? chain) && (wallet (identity (intent o)) =? w).

Definition unresolved_for (j : TransactionJournal) (chain w : Z) : list JournalOperation :=
  filter (fun o => for_wallet chain w o && is_unresolved (status o) = true)
    (btree_values (operations j)).

Definition recovery_blocking (s : JournalStatus) : bool :=
  match s with IntentRecorded | Signed _ | OutcomeUnknown _ _ => true | _ => false end.

Definition recovery_blocking_for (j : TransactionJournal) (chain w : Z) : list JournalOperation :=
  filter (fun o => for_wallet chain w o && recovery_blocking (status o) = true)
    (btree_values (operations j)).

Definition operation_by_transaction_hash (j : TransactionJournal) (h : Z)
  : option JournalOperation :=
  List.find (fun o => bool_decide (transaction_hash (status o) = Some h))
    (btree_values (operations j)).

Definition mined (s : JournalStatus) : bool :=
  match s with MinedSuccess _ _ | MinedReverted _ _ => true | _ => false end.

Definition highest_consumed_nonce (j : TransactionJournal) (chain w : Z) : option Z :=
  match (fun o => nonce (identity (intent o))) <$>
        filter (fun o => for_wallet chain w o && mined (status o) = true)
          (btree_values (operations j)) with
  | [] => None
  | n :: ns => Some (foldr Z.max n ns)
  end.
End journal.

(** ** Transitions: what never changes *)
Section transitions.
Context `{WireCodec}.

(** A status that has a successor is unresolved, and a hash once set stays. *)
Lemma next_status_facts s ev s' :
  next_status s ev = Ok s' ->
  is_unresolved s = true /\
  (forall h, transaction_hash s = Some h -> transaction_hash s' = Some h).
Proof.
  destruct ev; simpl; unfold mined_status, ensure_hash_transition; intros Hn; res_inv;
    bool_prop; destruct s; try done; simpl in *; (split; [done|]); intros; simplify_eq;
    try done; by destruct success.
Qed.

Lemma released_resolved s : is_unresolved s = true -> released s = false.
Proof. by destruct s. Qed.

(** The identity and, for an intent event, the intent a payload carries. *)
Definition payload_identity (p : WirePayload) : option JournalOperationIdentity :=
  w ← address_from_str (p_wallet p);
  Some (mkIdentity (p_operation_id p) (p_chain_id p) w (p_nonce p) (p_scope p)).
Definition payload_intent (i : JournalOperationIdentity) (ev : WireEvent) : option JournalIntent :=
  match ev with
  | WIntentRecorded purp tgt nv ch =>
      t ← address_from_str tgt; v ← u256_from_str nv; c ← b256_from_str ch;
      Some (mkIntent i purp t v c)
  | _ => None
  end.

(** How one payload changes the operations. *)
Lemma apply_payload_cases ops p ops' :
  apply_payload ops p = Ok ops' ->
  exists i, payload_identity p = Some i /\ validate_identity i = Ok tt /\
    ((exists it, payload_intent i (event p) = Some it /\ identity it = i /\
        ops !! operation_id i = None /\ nonce_taken ops i = false /\
        validate_intent it = Ok tt /\
        ops' = <[operation_id i := mkOperation it IntentRecorded]> ops) \/
     (exists o s', ops !! operation_id i = Some o /\ identity (intent o) = i /\
        next_status (status o) (event p) = Ok s' /\
        ops' = <[operation_id i := mkOperation (intent o) s']> ops)).
Proof.
  unfold apply_payload. intros Ha. res_inv. destruct x1. unfold payload_identity. rewrite Hok0.
  eexists. split; [reflexivity|]. split; [exact Hok1|]. simpl.
  destruct (event p) eqn:Ev; res_inv; bool_prop; simpl in *.
  { left. destruct x6. match goal with Hv : validate_intent ?it = _ |- _ => exists it end.
    rewrite Hok4, Hok5. simpl. rewrite Hok6. split_and!; try done. by apply eq_None_not_Some. }
  all: right; exists x1; unfold apply_transition in *; res_inv; eauto 10.
Qed.
End transitions.

(** ** Nonce ownership *)
Definition same_nonce (i i' : JournalOperationIdentity) : Prop :=
  chain_id i = chain_id i' /\ wallet i = wallet i' /\ nonce i = nonce i'.

(** Operations are stored under their own, valid identity, and at most one live
    operation owns a nonce of a wallet. *)
Record ops_ok (ops : gmap string JournalOperation) : Prop := {
  oo_key k o : ops !! k = Some o -> operation_id (identity (intent o)) = k;
  oo_valid k o : ops !! k = Some o -> validate_identity (identity (intent o)) = Ok tt;
  oo_nonce k k' o o' :
    ops !! k = Some o -> ops !! k' = Some o' ->
    same_nonce (identity (intent o)) (identity (intent o')) ->
    released (status o) = false -> released (status o') = false -> k = k';
}.

(** What a later state keeps of an operation. *)
Definition op_extends (o o' : JournalOperation) : Prop :=
  intent o' = intent o /\
  (forall h, transaction_hash (status o) = Some h -> transaction_hash (status o') = Some h) /\
  (is_unresolved (status o) = false -> o' = o).

#[global] Instance op_extends_preorder : PreOrder op_extends.
Proof.
  split; [done|]. intros o1 o2 o3 (Hi & Hh & Ht) (Hi' & Hh' & Ht'). split; [congruence|].
  split; [naive_solver|]. intros Hr. rewrite (Ht Hr) in *. auto.
Qed.

Definition ops_extend (ops ops' : gmap string JournalOperation) : Prop :=
  forall k o, ops !! k = Some o -> exists o', ops' !! k = Some o' /\ op_extends o o'.

#[global] Instance ops_extend_preorder : PreOrder ops_extend.
Proof.
  split; [intros ops k o Ho; by exists o|].
  intros a b c Hab Hbc k o Ho. destruct (Hab k o Ho) as (o' & Ho' & He).
  destruct (Hbc k o' Ho') as (o'' & Ho'' & He'). exists o''. split; [done|by etrans].
Qed.

Section ownership.
Context `{WireCodec}.

Lemma nonce_taken_false ops i k o :
  nonce_taken ops i = false -> ops !! k = Some o -> same_nonce i (identity (intent o)) ->
  released (status o) = true.
Proof.
  intros Ht Hk (Hc & Hw & Hn). destruct (released (status o)) eqn:Er; [done|].
  exfalso. rewrite <- not_true_iff_false in Ht. apply Ht. apply existsb_exists. exists o.
  split; [apply list_elem_of_In, elem_of_btree_values; by eauto|].
  unfold owns_nonce. rewrite Er, Hc, Hw, Hn, !Z.eqb_refl. done.
Qed.

Lemma apply_payload_ok ops p ops' : ops_ok ops -> apply_payload ops p = Ok ops' -> ops_ok ops'.
Proof.
  intros [Hkey Hval Hnon] Ha.
  destruct (apply_payload_cases _ _ _ Ha) as (i & _ & Hv & [(it & _ & <- & Hnone & Ht & _ & ->)
                                                       |(o & s' & Ho & <- & Hs & ->)]).
  - constructor.
    + intros k o. rewrite lookup_insert_Some. naive_solver.
    + intros k o. rewrite lookup_insert_Some. naive_solver.
    + intros k k' o o'. rewrite !lookup_insert_Some.
      intros [[<- <-]|[Hk Ho]] [[<- <-]|[Hk' Ho']] Hsame Hr Hr'; simpl in *; try done.
      * rewrite (nonce_taken_false _ _ _ _ Ht Ho' Hsame) in Hr'. done.
      * destruct Hsame as (? & ? & ?).
        rewrite (nonce_taken_false _ _ _ _ Ht Ho ltac:(done)) in Hr. done.
      * by eapply Hnon.
  - apply next_status_facts in Hs as [Hu _]. apply released_resolved in Hu.
    constructor.
    + intros k o1. rewrite lookup_insert_Some. naive_solver.
    + intros k o1. rewrite lookup_insert_Some. naive_solver.
    + intros k k' o1 o2. rewrite !lookup_insert_Some.
      intros [[<- <-]|[Hk Ho1]] [[<- <-]|[Hk' Ho2]] Hsame Hr Hr'; simpl in *; try done;
        by eapply Hnon.
Qed.

Lemma apply_payload_extends ops p ops' : apply_payload ops p = Ok ops' -> ops_extend ops ops'.
Proof.
  intros Ha k o Hk.
  destruct (apply_payload_cases _ _ _ Ha) as (i & _ & Hv & [(it & _ & <- & Hnone & _ & _ & ->)
                                                       |(o1 & s' & Ho & <- & Hs & ->)]).
  - exists o. split; [|done]. rewrite lookup_insert_Some. right. split; [congruence|done].
  - apply next_status_facts in Hs as [Hu Hh].
    destruct (decide (operation_id (identity (intent o1)) = k)) as [<-|Hne].
    + rewrite Ho in Hk. simplify_eq. eexists. rewrite lookup_insert_eq. split; [done|].
      split; [done|]. split; [done|]. congruence.
    + exists o. by rewrite lookup_insert_ne.
Qed.

Lemma replay_ok lines st st' :
  ops_ok st.1 -> replay lines st = Ok st' -> ops_ok st'.1 /\ ops_extend st.1 st'.1.
Proof.
  revert st. induction lines as [|l ls IH]; intros st Hok Hr; simpl in Hr; res_inv; [done|].
  destruct st as [ops n]. unfold replay_line in Hok0. res_inv.
  destruct (IH (x7, x8) (apply_payload_ok _ _ _ Hok Hok8) Hr) as [H1 H2].
  split; [done|]. etrans; [by eapply apply_payload_extends|done].
Qed.
End ownership.

(** ** Durability *)
#[local] Arguments replay_line : simpl never.

Section durability.
Context `{WireCodecLaws}.

Lemma replay_app l1 l2 st : replay (l1 ++ l2) st = rbind (replay l1 st) (replay l2).
Proof.
  revert st. induction l1 as [|l l1 IH]; intros st; [done|]. simpl.
  destruct (replay_line st l); [apply IH|done].
Qed.

Lemma new_record_checks p r : new_record p = Ok r -> payload r = p /\ validate_checksum r = Ok tt.
Proof.
  unfold new_record, validate_checksum. intros Hr. res_inv. simpl. split; [done|].
  rewrite Hok. simpl. rewrite bool_decide_eq_true_2 by done. done.
Qed.

(** The line [append] prepares is a record without inner line feeds that
    replays to the operations [append] installs. *)
Lemma prepared_line env i ev j ops' line :
  prepare_append env i ev j = Ok (ops', line) ->
  poisoned j = false /\
  (exists now, apply_payload (operations j) (make_payload (next_sequence j) now i ev) = Ok ops') /\
  (exists body, line = body ++ [10] /\ body <> [] /\ (10 ∉ body) /\
                Z.of_nat (length body) < MAX_JOURNAL_LINE_BYTES) /\
  (next_sequence j + 1 < 2 ^ 64 ->
   replay_line (operations j, next_sequence j) line = Ok (ops', next_sequence j + 1)).
Proof.
  unfold prepare_append. intros Hp. res_inv. bool_prop.
  destruct (new_record_checks _ _ Hok3) as [Hpay Hsum].
  destruct (record_one_line _ _ Hok4) as [Hne Hnl].
  split; [done|]. split; [by eexists|]. split; [by eexists|]. intros Hseq.
  unfold replay_line. rewrite length_app. simpl.
  rewrite (proj2 (Z.leb_le _ _)) by lia. simpl. rewrite last_snoc, bool_decide_eq_true_2 by done. simpl.
  replace (length x4 + 1 - 1)%nat with (length x4) by lia. rewrite take_app_length.
  rewrite bool_decide_eq_false_2 by done. simpl. rewrite (record_roundtrip _ _ Hok4). simpl.
  rewrite Hsum, Hpay. simpl. rewrite Z.eqb_refl. simpl. rewrite Hok2. simpl.
  unfold checked_add. by rewrite (proj2 (Z.ltb_lt _ _)).
Qed.
End durability.

(** ** Histories *)

(** A regular file with owner-only permissions. *)
Definition healthy_fs (bytes : list Z) : FileSystem :=
  mkFs false true true false true true true 384 true true true bytes.

Section histories.
Context `{WireCodecLaws}.

(** What the next process finds. *)
Definition reopen (j : TransactionJournal) : JRes TransactionJournal := open (healthy_fs (file j)).

(** One append, successful or not, before the 64-bit sequence is exhausted. *)
Definition journal_step (j j' : TransactionJournal) : Prop :=
  next_sequence j + 1 < 2 ^ 64 /\ exists env i ev, j' = (append env i ev j).1.

Inductive journal_history : TransactionJournal -> Prop :=
| history_open fs j : open fs = Ok j -> journal_history j
| history_step j j' : journal_history j -> journal_step j j' -> journal_history j'.

Lemma replay_closed lines st st' :
  replay lines st = Ok st' -> Forall (fun l => last l = Some 10) lines.
Proof.
  revert st. induction lines as [|l ls IH]; intros st Hr; simpl in Hr; res_inv; [done|].
  constructor; [|by eapply IH]. destruct st. unfold replay_line in Hok. res_inv. by bool_prop.
Qed.

Lemma open_inv fs j :
  open fs = Ok j ->
  poisoned j = false /\ replay (split_lines (file j)) (∅, 0) = Ok (operations j, next_sequence j).
Proof. unfold open. intros Ho. res_inv. destruct x0. by res_inv. Qed.

Lemma replay_reopen j :
  replay (split_lines (file j)) (∅, 0) = Ok (operations j, next_sequence j) ->
  reopen j = Ok (mkJournal (file j) (operations j) (next_sequence j) false).
Proof. intros Hr. unfold reopen, open. simpl. by rewrite Hr. Qed.

Record durable (j : TransactionJournal) : Prop := {
  du_ok : ops_ok (operations j);
  du_file : poisoned j = false ->
    closed (file j) /\ replay (split_lines (file j)) (∅, 0) = Ok (operations j, next_sequence j);
}.

Lemma empty_ops_ok : ops_ok ∅.
Proof. constructor; intros *; rewrite !lookup_empty; done. Qed.

Lemma append_line j env i ev ops' line :
  prepare_append env i ev j = Ok (ops', line) -> next_sequence j + 1 < 2 ^ 64 ->
  closed (file j) -> replay (split_lines (file j)) (∅, 0) = Ok (operations j, next_sequence j) ->
  closed (file j ++ line) /\
  replay (split_lines (file j ++ line)) (∅, 0) = Ok (ops', next_sequence j + 1).
Proof.
  intros Hp Hseq Hc Hr. destruct (prepared_line _ _ _ _ _ _ Hp) as (_ & _ & (body & -> & _ & Hnl & _) & Hl).
  split; [right; by rewrite app_assoc, last_snoc|].
  rewrite split_lines_app, split_lines_line, replay_app, Hr by done. simpl. by rewrite Hl.
Qed.

(** The three ways an append can end. *)
Lemma append_cases env i ev j :
  next_sequence j + 1 < 2 ^ 64 ->
  (exists e, append env i ev j = (j, Err e)) \/
  (exists ops' line k, prepare_append env i ev j = Ok (ops', line) /\ write_fault env = Some k /\
     append env i ev j =
       (mkJournal (file j ++ take k line) (operations j) (next_sequence j) true,
        Err (JMsg "failed to durably append transaction journal record"))) \/
  (exists ops' line, prepare_append env i ev j = Ok (ops', line) /\ write_fault env = None /\
     append env i ev j =
       (mkJournal (file j ++ line) ops' (next_sequence j + 1) (poisoned j), Ok tt)).
Proof.
  intros Hseq. unfold append. destruct (prepare_append env i ev j) as [[ops' line]|e]; [|eauto].
  destruct (write_fault env) as [k|]; [eauto 10|]. right. right. exists ops', line.
  unfold checked_add. by rewrite (proj2 (Z.ltb_lt _ _)).
Qed.

Lemma step_durable j j' : durable j -> journal_step j j' -> durable j'.
Proof.
  intros [Hok Hf] (Hseq & env & i & ev & ->).
  destruct (append_cases env i ev j Hseq)
    as [[e ->]|[(ops' & line & k & Hp & _ & ->)|(ops' & line & Hp & _ & ->)]];
    [done|by constructor|].
  destruct (prepared_line _ _ _ _ _ _ Hp) as (Hpois & [now Happ] & _ & _).
  destruct (Hf Hpois) as [Hc Hr]. constructor; simpl; [by eapply apply_payload_ok|].
  intros _. by eapply append_line.
Qed.

Lemma history_durable j : journal_history j -> durable j.
Proof.
  induction 1 as [fs j Ho|j j' _ IH Hs]; [|by eapply step_durable].
  destruct (open_inv _ _ Ho) as [Hp Hr]. constructor.
  - by destruct (replay_ok _ (∅, 0) _ empty_ops_ok Hr).
  - intros _. split; [|done]. rewrite <- (concat_split_lines (file j)).
    by eapply concat_closed, replay_closed.
Qed.

(** In every state a journal can reach, whatever is appended and however
    appends fail, each operation is stored under its own valid identity and at
    most one operation that was neither cancelled nor rejected owns a nonce of
    a wallet on a chain. *)
Theorem journal_nonce_ownership j : journal_history j -> ops_ok (operations j).
Proof. intros Hh. apply (history_durable j Hh). Qed.

(** Reopening the file of a healthy journal reproduces it: operations,
    statuses, sequence number and bytes. *)
Theorem journal_reopens j :
  journal_history j -> poisoned j = false -> reopen j = Ok j.
Proof.
  intros Hh Hp. destruct (du_file j (history_durable j Hh) Hp) as [_ Hr].
  rewrite (replay_reopen j Hr). destruct j. simpl in *. by subst.
Qed.

(** A record cut short is refused, a whole one is read. *)
Lemma torn_record j body k ops seq :
  closed (file j) -> replay (split_lines (file j)) (∅, 0) = Ok (operations j, next_sequence j) ->
  body <> [] -> (10 ∉ body) -> Z.of_nat (length body) < MAX_JOURNAL_LINE_BYTES -> (0 < k <= length body)%nat ->
  reopen (mkJournal (file j ++ take k (body ++ [10])) ops seq true) = Err (JMsg "transaction journal ends with a partial record").
Proof.
  intros Hc Hr Hne Hnl Hlen Hcut. unfold reopen, open. simpl.
  rewrite take_app_le by lia. rewrite split_lines_app, replay_app, Hr by done. simpl.
  assert (Hnl' : 10 ∉ take k body).
  { intros (n & Hn & _)%elem_of_take. apply Hnl. by eapply list_elem_of_lookup_2. }
  rewrite split_lines_partial; [|destruct body, k; done || lia|done].
  simpl. unfold replay_line.
  rewrite (proj2 (Z.leb_le _ _)) by (rewrite length_take; lia). simpl.
  rewrite bool_decide_eq_false_2; [done|]. intros Hl. by apply Hnl', last_Some_elem_of.
Qed.

Lemma whole_record j env i ev ops' line ops seq :
  prepare_append env i ev j = Ok (ops', line) -> next_sequence j + 1 < 2 ^ 64 ->
  closed (file j) -> replay (split_lines (file j)) (∅, 0) = Ok (operations j, next_sequence j) ->
  reopen (mkJournal (file j ++ line) ops seq true) = Ok (mkJournal (file j ++ line) ops' (next_sequence j + 1) false).
Proof.
  intros Hp Hseq Hc Hr. destruct (append_line _ _ _ _ _ _ Hp Hseq Hc Hr) as [_ Hr'].
  unfold reopen, open. simpl. by rewrite Hr'.
Qed.

(** C19. a crash in the middle of an append is never silently misread: the
    process is poisoned with its old operations, and the next process sees the
    old journal if nothing was written, refuses the file if the record is cut
    short, and sees the new record if it was written whole. *)
Theorem journal_crash_safe j env i ev ops' line k :
  journal_history j -> next_sequence j + 1 < 2 ^ 64 ->
  prepare_append env i ev j = Ok (ops', line) -> write_fault env = Some k ->
  let j' := (append env i ev j).1 in
  poisoned j' = true /\ operations j' = operations j /\
  reopen j' =
    (if decide (k = O) then Ok j
     else if decide (k < length line)%nat
          then Err (JMsg "transaction journal ends with a partial record")
          else Ok (mkJournal (file j ++ line) ops' (next_sequence j + 1) false)).
Proof.
  intros Hh Hseq Hp Hk. unfold append. rewrite Hp, Hk. simpl. split; [done|]. split; [done|].
  destruct (prepared_line _ _ _ _ _ _ Hp) as (Hpois & _ & (body & -> & Hne & Hnl & Hlen) & _).
  destruct (du_file j (history_durable j Hh) Hpois) as [Hc Hr].
  case_decide as Hzero; [|case_decide as Hcut].
  - subst k. unfold reopen, open. simpl. rewrite app_nil_r, Hr. simpl. destruct j. simpl in *. by subst.
  - rewrite length_app in Hcut. simpl in Hcut. apply torn_record; done || lia.
  - rewrite take_ge by lia. by eapply whole_record.
Qed.

(** The journal only moves forward: along any sequence of appends an
    operation keeps its intent, a transaction hash once recorded never
    changes, and a mined, rejected or cancelled operation never changes again. *)
Theorem journal_monotone j j' :
  rtc journal_step j j' -> ops_extend (operations j) (operations j').
Proof.
  induction 1 as [|j1 j2 j3 (Hseq & env & i & ev & ->) _ IH]; [done|]. etrans; [|exact IH].
  destruct (append_cases env i ev j1 Hseq)
    as [[e ->]|[(ops' & line & k & Hp & _ & ->)|(ops' & line & Hp & _ & ->)]]; [done..|].
  destruct (prepared_line _ _ _ _ _ _ Hp) as (_ & [now Happ] & _ & _). simpl.
  by eapply apply_payload_extends.
Qed.
End histories.
