(* ===== verification/TextCodec.v ===== *)
(** * A concrete wire codec

    Bit strings for the text forms and separated bit fields for the records:
    a codec that satisfies every law of [WireCodecLaws], so that the journal
    theorems can be applied to concrete journals. *)
From Stdlib Require Import Lia Ascii.
From stdpp Require Import base gmap sets strings numbers list fin_maps countable.
From S2P Require Import Prelude Journal.

(** ** Text: the binary digits of a code, lowest first *)
Fixpoint pos_text (p : positive) : string :=
  match p with
  | xH => EmptyString
  | xO p' => String "0"%char (pos_text p')
  | xI p' => String "1"%char (pos_text p')
  end.

Fixpoint text_pos (s : string) : option positive :=
  match s with
  | EmptyString => Some xH
  | String c s' =>
      if decide (c = "0"%char) then xO <$> text_pos s'
      else if decide (c = "1"%char) then xI <$> text_pos s' else None
  end.

Lemma text_pos_text p : text_pos (pos_text p) = Some p.
Proof. induction p; simpl; rewrite ?IHp; done. Qed.

Definition text_of (z : Z) : string := pos_text (encode z).
Definition of_text (s : string) : option Z := text_pos s ≫= decode.

Lemma of_text_of z : of_text (text_of z) = Some z.
Proof. unfold of_text, text_of. rewrite text_pos_text. simpl. apply decode_encode. Qed.

(** ** Records: bits 0 and 1, each field closed by a 2 *)
Fixpoint field_bytes (p : positive) : list Z :=
  match p with
  | xH => [2]
  | xO p' => 0 :: field_bytes p'
  | xI p' => 1 :: field_bytes p'
  end.

Fixpoint read_fields (bs : list Z) : option (list positive) :=
  match bs with
  | [] => Some []
  | b :: bs' =>
      match read_fields bs' with
      | Some l =>
          if b =? 2 then Some (1%positive :: l)
          else match l with
               | p :: l' =>
                   if b =? 0 then Some (xO p :: l') else if b =? 1 then Some (xI p :: l') else None
               | [] => None
               end
      | None => None
      end
  end.

Lemma read_field p bs : read_fields (field_bytes p ++ bs) = (cons p) <$> read_fields bs.
Proof. induction p; simpl; rewrite ?IHp; by destruct (read_fields bs). Qed.

Lemma field_no_newline p : 10 ∉ field_bytes p.
Proof. induction p; simpl; rewrite ?elem_of_cons, ?elem_of_nil; naive_solver. Qed.

Definition fields_bytes (l : list positive) : list Z := concat (field_bytes <$> l).

Lemma read_fields_bytes l : read_fields (fields_bytes l) = Some l.
Proof.
  induction l as [|p l IH]; [done|]. change (fields_bytes (p :: l)) with (field_bytes p ++ fields_bytes l).
  by rewrite read_field, IH.
Qed.

Lemma fields_no_newline l : 10 ∉ fields_bytes l.
Proof.
  induction l as [|p l IH]; [apply not_elem_of_nil|].
  change (fields_bytes (p :: l)) with (field_bytes p ++ fields_bytes l). rewrite elem_of_app. pose proof (field_no_newline p). naive_solver.
Qed.

Lemma fields_nonempty p l : fields_bytes (p :: l) <> [].
Proof. unfold fields_bytes. simpl. destruct p; done. Qed.

(** ** The fields of a record *)
Definition reason_tag (r : UnknownOutcomeReason) : Z :=
  match r with
  | BroadcastTransport => 0 | BroadcastRejected => 1 | NonceTooLow => 2
  | ConfirmationTimeout => 3 | ProcessInterrupted => 4
  end.
Definition tag_reason (t : Z) : UnknownOutcomeReason :=
  match t with
  | 0 => BroadcastTransport | 1 => BroadcastRejected | 2 => NonceTooLow
  | 3 => ConfirmationTimeout | _ => ProcessInterrupted
  end.

(** Tag, texts and number of an event. *)
Definition event_fields (e : WireEvent) : Z * list string * Z :=
  match e with
  | WIntentRecorded p t v c => (0, [p; t; v; c], 0)
  | WSigned h => (1, [h], 0)
  | WBroadcast h => (2, [h], 0)
  | WOutcomeUnknown h r => (3, [h], reason_tag r)
  | WMinedSuccess h b => (4, [h], b)
  | WMinedReverted h b => (5, [h], b)
  | WRejectedBeforeBroadcast h => (6, [h], 0)
  | WCancelledBeforeSigning => (7, [], 0)
  end.
Definition fields_event (f : Z * list string * Z) : option WireEvent :=
  match f with
  | (0, [p; t; v; c], _) => Some (WIntentRecorded p t v c)
  | (1, [h], _) => Some (WSigned h)
  | (2, [h], _) => Some (WBroadcast h)
  | (3, [h], r) => Some (WOutcomeUnknown h (tag_reason r))
  | (4, [h], b) => Some (WMinedSuccess h b)
  | (5, [h], b) => Some (WMinedReverted h b)
  | (6, [h], _) => Some (WRejectedBeforeBroadcast h)
  | (7, [], _) => Some WCancelledBeforeSigning
  | _ => None
  end.
Lemma fields_event_fields e : fields_event (event_fields e) = Some e.
Proof. by destruct e as [| | |? []| | | |]. Qed.

Definition scope_fields (s : EvmJournalScope) : Z * list string :=
  (schema_version s, [network_id s; wallet_id s; strategy_id s]).
Definition fields_scope (f : Z * list string) : option EvmJournalScope :=
  match f with
  | (v, [n; w; s]) => Some (mkScope v n w s)
  | _ => None
  end.
#[global] Instance EvmJournalScope_countable : Countable EvmJournalScope.
Proof. by apply (inj_countable scope_fields fields_scope); intros []. Defined.

Definition payload_fields (p : WirePayload) : list positive :=
  let '(tag, texts, num) := event_fields (event p) in
  [encode (version p); encode (sequence p); encode (recorded_at_unix_ms p);
   encode (p_operation_id p); encode (p_chain_id p); encode (p_wallet p); encode (p_nonce p);
   encode (p_scope p); encode tag; encode texts; encode num].

Definition bits_record_to_vec (r : WireRecord) : option (list Z) :=
  Some (fields_bytes (encode (checksum_sha256 r) :: payload_fields (payload r))).

Definition bits_record_from_slice (bs : list Z) : option WireRecord :=
  match read_fields bs with
  | Some [c; f1; f2; f3; f4; f5; f6; f7; f8; f9; f10; f11] =>
      c ← decode c; f1 ← decode f1; f2 ← decode f2; f3 ← decode f3; f4 ← decode f4;
      f5 ← decode f5; f6 ← decode f6; f7 ← decode f7; f8 ← decode f8; f9 ← decode f9;
      f10 ← decode f10; f11 ← decode f11; ev ← fields_event (f9, f10, f11);
      Some (mkRecord (mkPayload f1 f2 f3 f4 f5 f6 f7 f8 ev) c)
  | _ => None
  end.

#[global] Instance bits_codec : WireCodec := {
  format_address := text_of;
  address_from_str := of_text;
  format_b256 := text_of;
  b256_from_str := of_text;
  u256_to_string := text_of;
  u256_from_str := of_text;
  payload_to_vec := fun p => Some (fields_bytes (payload_fields p));
  record_to_vec := bits_record_to_vec;
  record_from_slice := bits_record_from_slice;
  sha256_hex := fun bs => text_of (Z.of_nat (length bs));
}.

#[global] Instance bits_codec_laws : WireCodecLaws.
Proof.
  constructor; simpl.
  - intros a _. apply of_text_of.
  - intros a _. apply of_text_of.
  - intros a _. apply of_text_of.
  - intros [p c] bs [= <-]. unfold bits_record_from_slice. rewrite read_fields_bytes.
    unfold payload_fields. pose proof (fields_event_fields (event p)) as He. cbn [payload checksum_sha256].
    destruct (event_fields (event p)) as [[tag texts] num].
    repeat (rewrite decode_encode; cbn [mbind option_bind]). rewrite He. by destruct p.
  - intros [p c] bs [= <-]. split; [apply fields_nonempty|apply fields_no_newline].
Qed.
