(* ===== verification/PlanDemo.v ===== *)
(** * Concrete plans

    Printed addresses, the pair of [SearchDemo] with its routers, a trade that
    becomes a Uniswap V3 swap, and the same pool under the Lynex identity. *)
From Stdlib Require Import Lia.
From stdpp Require Import base gmap strings numbers list option.
From S2P Require Import Prelude TextCodec ExecutionPlan Clmm ClmmTicks ClmmCurve ClmmPools UniswapFormula Decimals TradeData RuntimeState Preflight Pricing OpportunitySearch FeeProjection HydratedPools PreparedPools SearchDemo PlanBuild.

(** Text forms read only values in range. *)
Definition read_uint (w : Z) (s : string) : option Z := z ← of_text s; if decide (uint w z) then Some z else None.

#[global] Instance plan_text : EvmText := {
  address_from_str := read_uint 160;
  b256_from_str := read_uint 256;
  keccak256 := fun bs => Z.of_nat (length bs);
}.
#[global] Instance plan_print : EvmPrint := { address_to_string := text_of; b256_to_string := text_of }.

Lemma read_printed w z : uint w z -> read_uint w (text_of z) = Some z.
Proof. intros Hz. unfold read_uint. rewrite of_text_of. simpl. by rewrite decide_True. Qed.

#[global] Instance plan_print_laws : EvmPrintLaws.
Proof.
  split; [intros; by apply read_printed..|]. intros s a Hr. simpl in Hr. unfold read_uint in Hr.
  destruct (of_text s); simpl in Hr; [|done]. by case_decide; simplify_eq.
Qed.

Definition plan_pair : PairConfig :=
  mkPairConfig "usdc-weth" true 480 (text_of 100) (text_of 200) [PUniswapV3] (Some (text_of 900)) None None
    (Some (text_of 901)) None None None.
Definition plan_trade : TradeEvaluation := mkTrade 0 500 1000 1010 1000 1010 1000 495 1 100 true.
Definition demo_built : TRes DexSwapPlan :=
  build_plan plan_pair (search_hydrated deep_pool) BuyTokenBOnDexSellOnCex plan_trade 1 0 2000.

Lemma demo_plan_built : exists p, demo_built = Ok p.
Proof. destruct demo_built eqn:E; [by eexists|]. vm_compute in E. discriminate E. Qed.

Lemma built_plan_executes_witness :
  exists p q, demo_built = Ok p /\ execution_request p "t1-dex" = Ok q /\
    swap_of plan_pair (search_hydrated deep_pool) BuyTokenBOnDexSellOnCex plan_trade 2000 "t1-dex" q.
Proof.
  destruct demo_plan_built as [p Hp]. exists p.
  destruct (built_plan_executes plan_pair (search_hydrated deep_pool) BuyTokenBOnDexSellOnCex plan_trade 1 0 2000 p "t1-dex")
    as (q & Hq & Hs & _); [exact Hp| |vm_compute; reflexivity|].
  - split; [split; vm_compute; [discriminate|reflexivity]|vm_compute; reflexivity].
  - exists q. split; [exact Hp|]. split; [exact Hq|exact Hs].
Defined.

(** ** A Lynex pool *)
Definition lynex_pool : HydratedPool :=
  mkHydrated "usdc-weth" (IdLynexAlgebraV1_9 7) 100 200 (demo_pool (10 ^ 29) (10 ^ 29) (10 ^ 28)) None None.

Definition lynex_engine : OpportunityEngine :=
  match new_engine [search_pair_runtime] [lynex_pool] with Ok e => e | Err _ => empty_engine end.

Lemma lynex_started : new_engine [search_pair_runtime] [lynex_pool] = Ok lynex_engine.
Proof. unfold lynex_engine. destruct (new_engine _ _) eqn:E; [done|]. vm_compute in E. discriminate E. Qed.

Lemma lynex_sound : publication_ok (mkPublication [lynex_pool] lynex_engine [] []).
Proof. exact (start_ok _ _ _ lynex_started). Qed.

Lemma lynex_trades_never_planned_witness :
  forall p, build_plan plan_pair lynex_pool BuyTokenBOnDexSellOnCex plan_trade 1 0 2000 <> Ok p.
Proof.
  apply (lynex_trades_never_planned (mkPublication [lynex_pool] lynex_engine [] []) 0 lynex_pool 7 1 0);
    [exact lynex_sound|reflexivity|reflexivity|reflexivity|vm_compute; reflexivity|vm_compute; reflexivity].
Defined.
