(* ===== verification/EventsDemo.v ===== *)
(** * Concrete pool logs

    A V4 and a Camelot pool, their filters, and a Burn of the Camelot pool. *)
From Stdlib Require Import Lia.
From stdpp Require Import base gmap strings numbers list option.
From S2P Require Import Prelude TextCodec ExecutionPlan Clmm ClmmPools TradeData AdaptiveFee FeeProjection HydratedPools PlanBuild PlanDemo Events EventFacts.

(** Hashing by value keeps distinct signatures apart. *)
#[local] Instance value_text : EvmText := {
  address_from_str := read_uint 160;
  b256_from_str := read_uint 256;
  keccak256 := be_value;
}.

Definition event_pool (i : PoolIdentity) : HydratedPool :=
  mkHydrated "usdc-weth" i 100 200 (demo_pool (10 ^ 29) (10 ^ 29) (10 ^ 28)) None None.
Definition event_pools : list HydratedPool := [event_pool (IdV4 77 500); event_pool (IdCamelotV3 7)].
Definition event_pair : PairConfig :=
  mkPairConfig "usdc-weth" true 480 (text_of 100) (text_of 200) [] None None None None None (Some (text_of 55)) None.

Definition burn_log : ChainLog :=
  mkChainLog 7 [v3_burn_topic; 1; topic_i24 (-120); topic_i24 60] (words [500; 1; 2]) 10 11 0 3 false.

Lemma topics_apart : NoDup pool_topics.
Proof. apply (bool_decide_unpack _). vm_compute. exact I. Qed.

Lemma event_filters : exists fs, build_log_filters [event_pair] event_pools = Ok fs.
Proof. destruct (build_log_filters _ _) eqn:E; [by eexists|]. vm_compute in E. discriminate E. Qed.

Lemma pool_events_observed_witness :
  exists fs f, build_log_filters [event_pair] event_pools = Ok fs /\ f ∈ fs /\ filter_matches f burn_log /\
    decode_routed burn_log (Some (AtCamelotV3 7)) = Ok (Some (mkEvent (AtCamelotV3 7) (Liquidity (-120) 60 (-500)))).
Proof.
  destruct event_filters as [fs Hfs].
  destruct (pool_events_observed topics_apart 55 (AtCamelotV3 7) (Liquidity (-120) 60 (-500)) 7
    [v3_burn_topic; 1; topic_i24 (-120); topic_i24 60] (words [500; 1; 2]) burn_log [event_pair] event_pools fs
    (event_pool (IdCamelotV3 7)) Hfs) as ((f & Hf & Hm) & Hd).
  - right. left.
  - reflexivity.
  - intros id E. discriminate E.
  - apply (em_burn 55 (AtCamelotV3 7) 7 1 (-120) 60 500 1 2); [right; right; left; reflexivity|split; lia|split; lia|].
    unfold I128_MAX. lia.
  - split; [reflexivity|]. split; reflexivity.
  - exists fs, f. split; [exact Hfs|]. split; [exact Hf|]. split; [exact Hm|exact Hd].
Defined.

Lemma burn_bytes : bytes_ok (log_data burn_log).
Proof. apply (bool_decide_unpack _). vm_compute. exact I. Qed.

Lemma decoded_event_sound_witness :
  event_sound burn_log (Some (AtCamelotV3 7)) (mkEvent (AtCamelotV3 7) (Liquidity (-120) 60 (-500))).
Proof. apply decoded_event_sound; [exact burn_bytes|vm_compute; reflexivity]. Defined.
