(* ===== verification/EngineDemo.v ===== *)
(** * A concrete run of the mirror and of the engine's chain events

    A V3 pool and a Camelot pool of one pair: a swap of the first is applied,
    rebuilt and published, then the next head advances the second. *)
From Stdlib Require Import Lia.
From stdpp Require Import base gmap strings numbers option fin_maps relations list.
From S2P Require Import Prelude TextCodec ExecutionPlan Clmm ClmmTicks ClmmCurve ClmmPools UniswapFormula TradeData RuntimeState Preflight OpportunitySearch AdaptiveFee FeeProjection HydratedPools PreparedPools SearchDemo PlanBuild PlanDemo Events EventFacts Mirror MirrorFacts EngineDex EngineDexFacts.

(** Hashing by value keeps distinct signatures apart. *)
#[local] Instance value_text : EvmText := {
  address_from_str := read_uint 160;
  b256_from_str := read_uint 256;
  keccak256 := be_value;
}.

Definition camelot_pool : HydratedPool :=
  mkHydrated "usdc-weth" (IdCamelotV3 8) 100 200 (set_fees (demo_pool (10 ^ 29) (10 ^ 29) (10 ^ 28)) 100 100)
    (Some (mkCamelotFee 55 (fixed_fee_state 100) (mkEnvelope (mkFees 100 100) (mkFees 100 100) 100 103))) None.
Definition mirror_pools : list HydratedPool := [search_hydrated (demo_pool (10 ^ 29) (10 ^ 29) (10 ^ 28)); camelot_pool].
Definition mirror_start : HydratedDexState := mkHydratedState (mkBlock 100 1000 999) mirror_pools [].
Definition empty_mirror : DexMirror := mkMirror [] [] (mkIndices ∅ ∅ ∅ ∅ ∅) ∅ ∅ [] 0 false (mkBlock 0 0 0) None [] 0.
Definition mirror0 : DexMirror := match new_mirror mirror_start 5 with Ok m => m | Err _ => empty_mirror end.

Lemma mirror_started : new_mirror mirror_start 5 = Ok mirror0.
Proof. unfold mirror0. destruct (new_mirror mirror_start 5) eqn:E; [done|]. vm_compute in E. discriminate E. Qed.

Lemma mirror_pools_hydrated : Forall pool_hydrated mirror_pools.
Proof.
  constructor; [|constructor; [|constructor]]; split.
  - intros st env Ha. discriminate Ha.
  - split; reflexivity.
  - intros st env Ha. unfold adaptive_state in Ha. simpl in Ha. injection Ha as <- <-. split; reflexivity.
  - split; [by eexists|reflexivity].
Qed.

Lemma mirror0_ok : mirror_ok mirror0.
Proof. exact (new_mirror_ok _ _ _ mirror_started mirror_pools_hydrated). Qed.

(** A swap of the V3 pool in block 101. *)
Definition swap_log : ChainLog :=
  mkChainLog 7 [v3_swap_topic; 1; 2] (words [1; 1; sqrt_price_x96 (demo_pool 1 1 1); 10 ^ 30; 0]) 101 1001 0 3 false.
Definition mirror1 : DexMirror := (apply_log_at_timestamp swap_log 103 mirror0).1.

Lemma swap_applied : apply_log_inner swap_log (Some 103) CanonicalStream mirror0 = (mirror1, Ok (Applied 0 "swap" true)).
Proof. apply pair_result. vm_compute. reflexivity. Qed.

Definition demo_order (ix : PoolIndices) : list nat :=
  (map_to_list (camelot_v3_indices ix)).*2 ++ (map_to_list (lynex_algebra_v1_9_indices ix)).*2.
Definition head101 : CanonicalBlock := mkBlock 101 1001 1000.

Lemma log_applied_once_witness :
  mirror_ok mirror1 /\ apply_log_inner swap_log (Some 103) CanonicalStream mirror1 = (mirror1, Ok Duplicate) /\
  exists h h', dm_pools mirror0 !! 0%nat = Some h /\ dm_pools mirror1 !! 0%nat = Some h' /\
    hp_pool h' = set_head (hp_pool h) (sqrt_price_x96 (demo_pool 1 1 1)) 0 (10 ^ 30).
Proof.
  destruct (log_applied_once _ _ _ _ _ _ mirror0_ok swap_applied)
    as [H1 (ev & h & h' & Hev & _ & _ & _ & _ & _ & Hh & Hh' & _ & Heff & _ & _ & _ & _ & _ & H2)].
  split; [exact H1|]. split; [exact H2|]. exists h, h'. split; [exact Hh|]. split; [exact Hh'|].
  vm_compute in Hev. injection Hev as <-. exact Heff.
Defined.

Lemma demo_order_values ix :
  demo_order ix ≡ₚ (map_to_list (camelot_v3_indices ix)).*2 ++ (map_to_list (lynex_algebra_v1_9_indices ix)).*2.
Proof. reflexivity. Qed.

Definition mirror2 : DexMirror := (apply_head_at demo_order head101 (Some 103) 9 mirror1).1.
Lemma head_taken : apply_head_at demo_order head101 (Some 103) 9 mirror1 = (mirror2, Ok (mkHeadApply true None)).
Proof. apply pair_result. vm_compute. reflexivity. Qed.

Lemma mirror1_ok : mirror_ok mirror1.
Proof. exact (proj1 (log_effect _ _ _ _ _ _ mirror0_ok swap_applied)). Qed.

Lemma heads_advance_chain_witness :
  mirror_ok mirror2 /\ latest_head mirror2 = head101 /\ pools_advanced 103 None (dm_pools mirror1) (dm_pools mirror2).
Proof.
  destruct (heads_advance_chain demo_order demo_order_values _ _ _ _ _ _ mirror1_ok head_taken) as [H1 H2].
  assert (E1 : cb_number head101 <=? cb_number (latest_head mirror1) = false) by (vm_compute; reflexivity). rewrite E1 in H2.
  assert (E2 : has_adaptive_algebra_pools mirror1 = true) by (vm_compute; reflexivity). rewrite E2 in H2.
  destruct H2 as (_ & H2 & _ & _ & _ & _ & t & Et & H3 & _). injection Et as <-. split; [exact H1|]. split; [exact H2|exact H3].
Defined.

(** ** The engine *)
Definition engine_runtime : PairRuntime :=
  mkPair "usdc-weth" 480 "WETHUSDC" "USDC" "WETH" 0 38 5 1 50 5000 10 10 1000000 2000000 (10 ^ 36) 100 200 [0%nat; 1%nat] [0%nat; 1%nat] [].
Definition engine_pairs : list DomainPair := [mkDomainPair "usdc-weth" true 0 38].
Definition empty_engine_dex : EngineDex := mkEngineDex empty_mirror empty_engine no_preflight ∅.

Definition engine0 : EngineDex :=
  match new_engine_dex engine_pairs [engine_runtime] ["WETHUSDC"%string] 10 10 60000 mirror0 no_preflight with Ok s => s | Err _ => empty_engine_dex end.
Definition after_swap := on_dex_event demo_order engine_pairs (DexLog swap_log 103) engine0.
Definition engine1 : EngineDex := after_swap.1.
Definition swap_request : PreparedPoolBuildRequest := match after_swap.2 with Ok (Some r) => r | _ => moved_request end.
Definition swap_result : PreparedPoolBuildResult := match build swap_request with Ok r => r | Err _ => moved_result end.
Definition engine2 : EngineDex := (on_prepared_pool engine_pairs swap_result engine1).1.
Definition engine3 : EngineDex := (on_dex_event demo_order engine_pairs (DexHead head101 103 9) engine2).1.

Lemma engine_started : new_engine_dex engine_pairs [engine_runtime] ["WETHUSDC"%string] 10 10 60000 mirror0 no_preflight = Ok engine0.
Proof. unfold engine0. destruct (new_engine_dex _ _ _ _ _ _ _ _) eqn:E; [done|]. vm_compute in E. discriminate E. Qed.

Lemma swap_requested : on_dex_event demo_order engine_pairs (DexLog swap_log 103) engine0 = (engine1, Ok (Some swap_request)).
Proof.
  apply pair_result. change (after_swap.2 = Ok (Some swap_request)). unfold swap_request.
  destruct after_swap.2 as [[r|]|] eqn:E; [done|vm_compute in E; discriminate E..].
Qed.

Lemma swap_built : build swap_request = Ok swap_result.
Proof. unfold swap_result. destruct (build swap_request) eqn:E; [done|]. vm_compute in E. discriminate E. Qed.

Lemma swap_prepared : on_prepared_pool engine_pairs swap_result engine1 = (engine2, Ok tt).
Proof. unfold engine2. apply (pair_result (on_prepared_pool engine_pairs swap_result engine1) (Ok tt)). vm_compute. reflexivity. Qed.

Lemma head_handled : on_dex_event demo_order engine_pairs (DexHead head101 103 9) engine2 = (engine3, Ok None).
Proof.
  unfold engine3. apply (pair_result (on_dex_event demo_order engine_pairs (DexHead head101 103 9) engine2) (Ok None)). vm_compute. reflexivity.
Qed.

Lemma below_of (o : OpportunityEngine) : forallb (fun g => g <? USIZE_MAX) (oe_pool_generations o) = true -> generations_below o.
Proof. intros Hf i g Hg. rewrite forallb_forall in Hf. apply list_elem_of_lookup_2, list_elem_of_In, Hf, Z.ltb_lt in Hg. done. Qed.

Lemma engine_reached : rtc (engine_step demo_order engine_pairs) (mkSystem engine0 [] []) (mkSystem engine3 [] []).
Proof.
  apply (rtc_l _ _ (mkSystem engine1 [swap_request] [])).
  { apply (step_dex_event demo_order engine_pairs (DexLog swap_log 103) true engine0 [] [] engine1 (Some swap_request));
      [apply below_of; vm_compute; reflexivity|exact swap_requested]. }
  apply (rtc_l _ _ (mkSystem engine1 [] [swap_result])).
  { apply (step_build demo_order engine_pairs engine1 [swap_request] [] [] swap_request swap_result); [reflexivity|exact swap_built]. }
  apply (rtc_l _ _ (mkSystem engine2 [] [])).
  { apply (step_prepared demo_order engine_pairs engine1 [] [swap_result] 0 swap_result engine2); [reflexivity|exact swap_prepared]. }
  apply rtc_once. apply (step_dex_event demo_order engine_pairs (DexHead head101 103 9) true engine2 [] [] engine3 None);
    [apply below_of; vm_compute; reflexivity|exact head_handled].
Qed.

Lemma engine_refines_publication_witness :
  mirror_ok (en_dex engine3) /\
  exists e, rtc pub_step (mkPublication mirror_pools e [] []) (mkPublication (dm_pools (en_dex engine3)) (en_opportunities engine3) [] []).
Proof.
  destruct (engine_refines_publication demo_order engine_pairs demo_order_values mirror_start 5 mirror0 _ _ _ _ _ no_preflight engine0 _
    mirror_started mirror_pools_hydrated eq_refl engine_started engine_reached) as [H1 (e & _ & H2)].
  split; [exact H1|]. exists e. exact H2.
Defined.

Definition published_entry : PreflightDexPool :=
  match dex_pools (en_preflight engine3) !! ("usdc-weth"%string, 0) with Some p => p | None => mkPreflightPool 9 9 9 9 deep_curve deep_curve end.

Lemma preflight_curves_current_witness :
  exists h q, dm_pools (en_dex engine3) !! 0%nat = Some h /\ quotes_of engine_runtime h = Ok q /\ pp_generation published_entry = 2 /\
    pp_buy_curve published_entry = token_a_exact_input q.
Proof.
  assert (Hl : dex_pools (en_preflight engine3) !! ("usdc-weth"%string, 0) = Some published_entry).
  { unfold published_entry. destruct (dex_pools (en_preflight engine3) !! ("usdc-weth"%string, 0)) eqn:E; [reflexivity|]. vm_compute in E. discriminate E. }
  destruct (preflight_curves_current demo_order engine_pairs demo_order_values mirror_start 5 mirror0 _ _ _ _ _ no_preflight engine0 (mkSystem engine3 [] [])
    "usdc-weth" 0 published_entry mirror_started mirror_pools_hydrated eq_refl engine_started engine_reached Hl)
    as (i & h & d & c & Ei & Hh & _ & _ & _ & _ & Hc & _ & Hq).
  assert (i = 0%nat) as -> by lia. simpl sys_engine in Hh, Hc, Hq.
  assert (E1 : pool_generation (en_opportunities engine3) 0 = Ok 2) by (vm_compute; reflexivity). rewrite E1 in Hc. injection Hc as <-.
  assert (E2 : pp_generation published_entry = 2) by (vm_compute; reflexivity).
  destruct (Hq E2) as (k & pr & q & _ & Hpr & Hqo & Hb & _).
  assert (E3 : oe_pairs (en_opportunities engine3) = [engine_runtime]) by (vm_compute; reflexivity).
  rewrite E3 in Hpr. destruct k as [|k]; [|discriminate Hpr]. injection Hpr as <-.
  exists h, q. split; [exact Hh|]. split; [exact Hqo|]. split; [exact E2|exact Hb].
Defined.
