(* ===== verification/Nonce.v ===== *)
(** * Nonce lanes ([src/src/wallet/nonce.rs])

    One wallet's nonce allocator on one chain: the in-process lock registry,
    the lane state machine that pairs every state change with a journal record,
    startup reconciliation against RPC evidence, and the reviewed recoveries.
    A lane method is a state transformer on the lane and its journal; RPC
    answers and the clock are arguments. *)
From Stdlib Require Import Lia.
From stdpp Require Import base gmap sets strings numbers list fin_maps relations.
From S2P Require Import Prelude Journal.

(** ** Process-wide nonce locks *)
(** Chain id and wallet. *)
Abbreviation ProcessNonceKey := (Z * Z)%type.
Abbreviation ProcessNonceLocks := (gmap ProcessNonceKey Z).

(** The guard names the lane it holds; the mutex of the lane makes each method
    below one step on the registry.  [None]: no such lane, which a guard rules
    out. *)
Definition guard_nonce (g : ProcessNonceKey) (locks : ProcessNonceLocks) : option Z := locks !! g.

Definition advance_after_broadcast (g : ProcessNonceKey) (n : Z)
  : M ProcessNonceLocks JournalError unit :=
  fun locks =>
    if negb (bool_decide (locks !! g = Some n))
    then (locks, Err (JMsg "process nonce lock advanced by another operation")) else
    match checked_add 64 n 1 with
    | None => (locks, Err (JMsg "process nonce allocator overflow after broadcast"))
    | Some n' => (<[g := n']> locks, Ok tt)
    end.

Definition advance_to_at_least (g : ProcessNonceKey) (n : Z)
  : M ProcessNonceLocks JournalError unit :=
  fun locks => (<[g := Z.max (default 0 (locks !! g)) n]> locks, Ok tt).

(** [acquired] is false when the ten-second timeout expires. *)
Definition acquire_process_nonce_lock (acquired : bool) (chain w floor : Z)
  : M ProcessNonceLocks JournalError ProcessNonceKey :=
  fun locks =>
    if negb (0 <? chain) then (locks, Err (JMsg "process nonce lock chain id is zero")) else
    if w =? 0 then (locks, Err (JMsg "process nonce lock wallet is zero")) else
    let key := (chain, w) in
    let current := default floor (locks !! key) in
    let locks' := <[key := current]> locks in
    if negb acquired then (locks', Err (JMsg "timed out waiting for process wallet nonce lock")) else
    (<[key := Z.max current floor]> locks', Ok key).

(** ** Lane data *)
Inductive NonceLaneState :=
| LReady (next_nonce : Z)
| LReserved (i : JournalOperationIdentity)
| LSigned (i : JournalOperationIdentity) (h : Z)
| LBroadcast (i : JournalOperationIdentity) (h : Z)
| LRecoveryRequired (i : JournalOperationIdentity) (h : option Z)
| LUntrackedPending (latest_nonce pending_nonce : Z).
#[global] Instance NonceLaneState_eq_dec : EqDecision NonceLaneState.
Proof. solve_decision. Defined.

Record NonceLane := mkLane {
  l_chain_id : Z;
  l_wallet : Z;
  l_state : NonceLaneState;
  l_scope : option EvmJournalScope;
}.

Inductive NonceReconciliationOutcome :=
| OReady (next_nonce : Z)
| OMinedSuccess (operation_id : string) (h block : Z)
| OMinedReverted (operation_id : string) (h block : Z)
| OTransactionKnown (operation_id : string) (h : Z) (block : option Z)
| OSignedTransactionAbsent (operation_id : string) (h : Z)
| ONonceConsumedWithoutMatchingTransaction (operation_id : string) (h latest : Z)
| ONonceOccupiedWithoutMatchingTransaction (operation_id : string) (h pending : Z)
| OUnsignedIntentNeedsReview (operation_id : string) (nonce : Z)
| OUntrackedPending (latest_nonce pending_nonce : Z).

Definition label (o : NonceReconciliationOutcome) : string :=
  match o with
  | OReady _ => "ready"
  | OMinedSuccess _ _ _ => "mined_success"
  | OMinedReverted _ _ _ => "mined_reverted"
  | OTransactionKnown _ _ _ => "transaction_known"
  | OSignedTransactionAbsent _ _ => "signed_transaction_absent"
  | ONonceConsumedWithoutMatchingTransaction _ _ _ => "nonce_consumed_without_matching_transaction"
  | ONonceOccupiedWithoutMatchingTransaction _ _ _ => "nonce_occupied_without_matching_transaction"
  | OUnsignedIntentNeedsReview _ _ => "unsigned_intent_needs_review"
  | OUntrackedPending _ _ => "untracked_pending"
  end.

Record WalletCall := mkCall { call_target : Z; call_value : Z; call_data : list Z }.
Record SignedTransaction := mkSigned { st_chain_id : Z; st_nonce : Z; st_hash : Z; st_raw : list Z }.

(** The receipt and transaction fields the lane reads. *)
Record TransactionReceipt := mkReceipt { rc_hash : Z; rc_block : Z; rc_status : Z }.
Record RpcTransaction := mkRpcTx {
  tx_hash : Z; tx_chain_id : Z; tx_nonce : Z; tx_from : Z; tx_to : option Z; tx_value : Z;
  tx_input : list Z; tx_block : option Z;
}.

Record ReviewedPrebroadcastRejection := mkReviewed {
  rv_operation_id : string; rv_chain_id : Z; rv_wallet : Z; rv_nonce : Z; rv_hash : Z;
  rv_scope : EvmJournalScope;
}.

Record ReviewedConsumedNonceCollision := mkCollision {
  co_operation_id : string; co_chain_id : Z; co_wallet : Z; co_nonce : Z;
  co_rejected_hash : Z; co_purpose : string; co_target : Z; co_native_value : Z;
  co_calldata_hash : Z; co_replacement_hash : Z; co_replacement_target : Z;
  co_replacement_value : Z; co_replacement_block : Z; co_scope : EvmJournalScope;
}.

(** The hash of the [alloy_primitives] crate. *)
Class Keccak := { keccak256 : list Z -> Z }.

(** What the RPC endpoint answers about a transaction hash. *)
Record RpcView := mkRpc {
  rpc_receipt : Z -> JRes (option TransactionReceipt);
  rpc_transaction : Z -> JRes (option RpcTransaction);
}.

Abbreviation LM := (M (NonceLane * TransactionJournal) JournalError).

(** Run a journal method, or replace the lane's state. *)
Definition on_journal {A} (m : M TransactionJournal JournalError A) : LM A :=
  fun s => let '(l, j) := s in let '(j', r) := m j in ((l, j'), r).
Definition set_state (st : NonceLaneState) : LM unit :=
  fun s => ((mkLane (l_chain_id s.1) (l_wallet s.1) st (l_scope s.1), s.2), Ok tt).

Definition ready (l : NonceLane) : bool := match l_state l with LReady _ => true | _ => false end.
Definition lane_next_nonce (l : NonceLane) : option Z :=
  match l_state l with LReady n => Some n | _ => None end.

Definition set_journal_scope (sc : EvmJournalScope) : M NonceLane JournalError unit :=
  fun l =>
    match validate_scope sc with
    | Err e => (l, Err e)
    | Ok _ =>
        if negb (ready l)
        then (l, Err (JMsg "cannot change EVM journal scope while an operation is active"))
        else (mkLane (l_chain_id l) (l_wallet l) (l_state l) (Some sc), Ok tt)
    end.

Definition hydrate (chain w latest pending : Z) (j : TransactionJournal) : JRes NonceLane :=
  ensure! 0 <? chain else JMsg "nonce lane chain id is zero" ;;
  ensure! negb (w =? 0) else JMsg "nonce lane wallet is zero" ;;
  ensure! latest <=? pending else JMsg "latest nonce exceeds pending nonce" ;;
  let? _ :=
    match highest_consumed_nonce j chain w with
    | Some consumed =>
        ensure (consumed <? pending)
          (JMsg "pending nonce has not advanced past a journaled mined transaction")
    | None => Ok tt
    end in
  let unresolved := recovery_blocking_for j chain w in
  ensure! Z.of_nat (length unresolved) <=? 1
    else JMsg "nonce lane has multiple recovery-blocking journal operations" ;;
  let? st :=
    match unresolved with
    | o :: _ =>
        ensure! nonce (identity (intent o)) <=? pending
          else JMsg "journal operation nonce is ahead of the RPC pending nonce" ;;
        Ok (LRecoveryRequired (identity (intent o)) (transaction_hash (status o)))
    | [] => Ok (LReady pending)
    end in
  Ok (mkLane chain w st None).

Definition outcome_for_non_recovery_state (st : NonceLaneState) : JRes NonceReconciliationOutcome :=
  match st with
  | LReady n => Ok (OReady n)
  | LUntrackedPending l p => Ok (OUntrackedPending l p)
  | _ => Err (JMsg "nonce lane state unexpectedly requires active-process recovery")
  end.

Section lane.
Context `{WireCodec, Keccak}.

(** ** Hot path *)
Definition reserve_with_nonce (env : AppendEnv) (op purp : string) (call : WalletCall) (n : Z)
  : LM JournalOperationIdentity :=
  fun s =>
    match l_state s.1 with
    | LReady next =>
        if negb (next <=? n)
        then (s, Err (JMsg "process nonce is behind the local nonce lane")) else
        let i := mkIdentity op (l_chain_id s.1) (l_wallet s.1) n (l_scope s.1) in
        let it := mkIntent i purp (call_target call) (call_value call) (keccak256 (call_data call)) in
        (do! on_journal (record_intent env it) ;;
         do! set_state (LReserved i) ;;
         mret i) s
    | _ => (s, Err (JMsg "nonce lane is not ready for a new operation"))
    end.

Definition reserve (env : AppendEnv) (op purp : string) (call : WalletCall)
  : LM JournalOperationIdentity :=
  fun s =>
    match l_state s.1 with
    | LReady next => reserve_with_nonce env op purp call next s
    | _ => (s, Err (JMsg "nonce lane is not ready for a new operation"))
    end.

Definition lane_record_signed (env : AppendEnv) (tx : SignedTransaction) : LM unit :=
  fun s =>
    match l_state s.1 with
    | LReserved i =>
        if negb (st_chain_id tx =? chain_id i)
        then (s, Err (JMsg "signed transaction chain does not match nonce reservation")) else
        if negb (st_nonce tx =? nonce i)
        then (s, Err (JMsg "signed transaction nonce does not match nonce reservation")) else
        (do! on_journal (record_signed env i (st_hash tx)) ;;
         set_state (LSigned i (st_hash tx))) s
    | _ => (s, Err (JMsg "nonce lane has no reserved operation to sign"))
    end.

Definition lane_record_broadcast (env : AppendEnv) (h : Z) : LM unit :=
  fun s =>
    match l_state s.1 with
    | LSigned i signed =>
        if negb (h =? signed)
        then (s, Err (JMsg "broadcast hash does not match signed transaction")) else
        (do! on_journal (record_broadcast env i h) ;;
         do next <- mlift (or_err (checked_add 64 (nonce i) 1)
                             (JMsg "nonce lane overflow after broadcast")) ;;
         set_state (LReady next)) s
    | _ => (s, Err (JMsg "nonce lane has no signed operation to broadcast"))
    end.

Definition lane_record_unknown_outcome (env : AppendEnv) (reason : UnknownOutcomeReason) : LM unit :=
  fun s =>
    match l_state s.1 with
    | LSigned i h | LBroadcast i h =>
        (do! on_journal (record_unknown_outcome env i h reason) ;;
         set_state (LRecoveryRequired i (Some h))) s
    | _ => (s, Err (JMsg "nonce lane has no transaction with an unknown outcome"))
    end.

(** The operation a receipt belongs to and the hash it must carry. *)
Definition receipt_subject (st : NonceLaneState) (j : TransactionJournal) (rc : TransactionReceipt)
  : JRes (JournalOperationIdentity * Z) :=
  match st with
  | LSigned i h | LBroadcast i h | LRecoveryRequired i (Some h) => Ok (i, h)
  | _ =>
      let? o := or_err (operation_by_transaction_hash j (rc_hash rc))
                  (JMsg "nonce lane has no journaled transaction to reconcile") in
      Ok (identity (intent o), rc_hash rc)
  end.

Definition lane_record_receipt (env : AppendEnv) (rc : TransactionReceipt) : LM unit :=
  fun s =>
    match receipt_subject (l_state s.1) s.2 rc with
    | Err e => (s, Err e)
    | Ok (i, expected) =>
        if negb (rc_hash rc =? expected)
        then (s, Err (JMsg "receipt hash does not match nonce lane transaction")) else
        if negb (rc_status rc <=? 1)
        then (s, Err (JMsg "receipt status is neither success nor revert")) else
        (do! on_journal (record_mined env i (rc_hash rc) (rc_block rc) (rc_status rc =? 1)) ;;
         do next <- mlift (or_err (checked_add 64 (nonce i) 1)
                             (JMsg "nonce lane overflow after mined transaction")) ;;
         set_state (match l_state s.1 with
                    | LReady current => LReady (Z.max current next)
                    | _ => LReady next
                    end)) s
    end.

Definition cancel_before_signing (env : AppendEnv) : LM unit :=
  fun s =>
    match l_state s.1 with
    | LReserved i =>
        (do! on_journal (record_cancelled_before_signing env i) ;;
         set_state (LReady (nonce i))) s
    | _ => (s, Err (JMsg "only a reserved unsigned nonce can be cancelled"))
    end.

Definition lane_record_rejected_before_broadcast (env : AppendEnv) (h : Z) : LM unit :=
  fun s =>
    match l_state s.1 with
    | LSigned i expected | LRecoveryRequired i (Some expected) =>
        if negb (expected =? h)
        then (s, Err (JMsg "pre-broadcast rejection hash does not match the signed transaction"))
        else
        (do! on_journal (record_rejected_before_broadcast env i h) ;;
         set_state (LReady (nonce i))) s
    | _ => (s, Err (JMsg "pre-broadcast rejection requires a signed or recovery-blocked nonce"))
    end.

Definition record_consumed_nonce_rejection (env : AppendEnv) (h next : Z) : LM unit :=
  fun s =>
    match l_state s.1 with
    | LRecoveryRequired i (Some expected) =>
        if negb (expected =? h)
        then (s, Err (JMsg "consumed-nonce rejection hash does not match the signed transaction"))
        else
        if negb (nonce i <? next)
        then (s, Err (JMsg "consumed-nonce recovery did not advance past the rejected nonce"))
        else
        (do! on_journal (record_rejected_before_broadcast env i h) ;;
         set_state (LReady next)) s
    | _ =>
        (s, Err (JMsg "consumed-nonce rejection requires a recovery-blocked signed transaction"))
    end.

(** ** Startup reconciliation *)
Definition validate_recovered_transaction (j : TransactionJournal) (i : JournalOperationIdentity)
    (expected : Z) (tx : RpcTransaction) : JRes unit :=
  let? o := or_err (operation j (operation_id i))
              (JMsg "recovery operation is missing from the transaction journal") in
  ensure! tx_hash tx =? expected else JMsg "recovered hash mismatch" ;;
  ensure! tx_chain_id tx =? chain_id i else JMsg "recovered transaction chain mismatch" ;;
  ensure! tx_nonce tx =? nonce i else JMsg "recovered transaction nonce mismatch" ;;
  ensure! tx_from tx =? wallet i else JMsg "recovered transaction sender mismatch" ;;
  ensure! bool_decide (tx_to tx = Some (target (intent o)))
    else JMsg "recovered transaction target mismatch" ;;
  ensure! tx_value tx =? native_value (intent o) else JMsg "recovered transaction value mismatch" ;;
  ensure! keccak256 (tx_input tx) =? calldata_hash (intent o)
    else JMsg "recovered transaction calldata mismatch" ;;
  Ok tt.

Definition apply_recovery_observation (env : AppendEnv) (latest pending : Z)
    (receipt : option TransactionReceipt) (tx : option RpcTransaction)
  : LM NonceReconciliationOutcome :=
  fun s =>
    match l_state s.1 with
    | LRecoveryRequired i mh =>
        match receipt, tx with
        | Some _, Some _ =>
            (s, Err (JMsg "recovery observation contains both a receipt and a transaction"))
        | Some rc, None =>
            let outcome :=
              if rc_status rc =? 1 then OMinedSuccess (operation_id i) (rc_hash rc) (rc_block rc)
              else OMinedReverted (operation_id i) (rc_hash rc) (rc_block rc) in
            (do! lane_record_receipt env rc ;; mret outcome) s
        | None, _ =>
            match mh with
            | None => (s, Ok (OUnsignedIntentNeedsReview (operation_id i) (nonce i)))
            | Some h =>
                match tx with
                | Some t =>
                    match validate_recovered_transaction s.2 i h t with
                    | Err e => (s, Err e)
                    | Ok _ => (s, Ok (OTransactionKnown (operation_id i) h (tx_block t)))
                    end
                | None =>
                    (s, Ok (if nonce i <? latest
                            then ONonceConsumedWithoutMatchingTransaction (operation_id i) h latest
                            else if nonce i <? pending
                            then ONonceOccupiedWithoutMatchingTransaction (operation_id i) h pending
                            else OSignedTransactionAbsent (operation_id i) h))
                end
            end
        end
    | _ => (s, Err (JMsg "nonce lane does not require startup recovery"))
    end.

(** The lane, its outcome and the journal after [reconcile]. *)
Definition reconcile (rpc : RpcView) (env : AppendEnv) (chain w latest pending : Z)
  : M TransactionJournal JournalError (NonceLane * NonceReconciliationOutcome) :=
  fun j =>
    match hydrate chain w latest pending j with
    | Err e => (j, Err e)
    | Ok lane =>
        let observe receipt tx :=
          let '((lane', j'), r) := apply_recovery_observation env latest pending receipt tx (lane, j) in
          (j', rmap (fun o => (lane', o)) r) in
        match l_state lane with
        | LRecoveryRequired _ None => observe None None
        | LRecoveryRequired _ (Some h) =>
            match rpc_receipt rpc h with
            | Err e => (j, Err e)
            | Ok (Some rc) => observe (Some rc) None
            | Ok None =>
                match rpc_transaction rpc h with
                | Err e => (j, Err e)
                | Ok tx => observe None tx
                end
            end
        | st => (j, rmap (fun o => (lane, o)) (outcome_for_non_recovery_state st))
        end
    end.

(** ** Reviewed recoveries *)

(** One joint RPC observation. *)
Record Observation := mkObs {
  ob_latest : Z; ob_pending : Z; ob_receipt : option TransactionReceipt;
  ob_transaction : option RpcTransaction;
}.

Definition nonce_unused (expected : Z) (ob : Observation) : JRes unit :=
  ensure! (ob_latest ob =? expected) && (ob_pending ob =? expected)
    else JMsg "approved pre-broadcast recovery nonce is no longer unused" ;;
  ensure! bool_decide (ob_receipt ob = None) && bool_decide (ob_transaction ob = None)
    else JMsg "approved pre-broadcast recovery transaction appeared onchain" ;;
  Ok tt.

(** The journal state a reviewed recovery accepts; [false] when already closed. *)
Definition reviewed_status (st : JournalStatus) (expected : Z) : JRes bool :=
  match st with
  | RejectedBeforeBroadcast h =>
      ensure! h =? expected else JMsg "completed recovery transaction hash changed" ;;
      Ok false
  | OutcomeUnknown h BroadcastRejected =>
      ensure! h =? expected else JMsg "approved recovery transaction hash changed" ;;
      Ok true
  | _ => Err (JMsg "approved recovery journal state changed")
  end.

(** The state is the bytes of the journal file. *)
Definition with_contents (fs : FileSystem) (bytes : list Z) : FileSystem :=
  mkFs (fs_path_empty fs) (fs_exists fs) (fs_metadata_ok fs) (fs_is_symlink fs) (fs_is_file fs)
    (fs_parent_is_dir fs) (fs_open_ok fs) (fs_mode fs) (fs_lock_ok fs) (fs_sync_ok fs)
    (fs_read_ok fs) bytes.

Definition recover_exact_rejected_before_broadcast (obs : nat -> JRes Observation)
    (env : AppendEnv) (fs : FileSystem) (ex : ReviewedPrebroadcastRejection)
  : M (list Z) JournalError bool :=
  fun disk =>
    let checked :=
      let? _ := validate_scope (rv_scope ex) in
      ensure! (0 <? rv_chain_id ex) && negb (rv_wallet ex =? 0)
        else JMsg "approved pre-broadcast recovery identity is invalid" ;;
      let? j := open (with_contents fs disk) in
      let? o := or_err (operation j (rv_operation_id ex))
                  (JMsg "approved pre-broadcast recovery operation is absent") in
      let i := identity (intent o) in
      ensure! (chain_id i =? rv_chain_id ex) && (wallet i =? rv_wallet ex)
              && (nonce i =? rv_nonce ex) && bool_decide (scope i = Some (rv_scope ex))
        else JMsg "approved pre-broadcast recovery operation identity changed" ;;
      let? pending := reviewed_status (status o) (rv_hash ex) in
      if negb pending then Ok None else
      let? ob0 := obs 0%nat in
      let? _ := nonce_unused (rv_nonce ex) ob0 in
      let? ob1 := obs 1%nat in
      let? _ := nonce_unused (rv_nonce ex) ob1 in
      Ok (Some (j, i)) in
    match checked with
    | Err e => (disk, Err e)
    | Ok None => (disk, Ok false)
    | Ok (Some (j, i)) =>
        let '(j', r) := record_rejected_before_broadcast env i (rv_hash ex) j in
        (file j', rmap (fun _ => true) r)
    end.

(** An observation for a consumed nonce: the rejected and the replacing
    transaction. *)
Record CollisionObservation := mkCollisionObs {
  cob_latest : Z; cob_pending : Z;
  cob_rejected_receipt : option TransactionReceipt; cob_rejected_transaction : option RpcTransaction;
  cob_replacement_receipt : option TransactionReceipt;
  cob_replacement_transaction : option RpcTransaction;
}.

Definition validate_consumed_nonce_replacement (ex : ReviewedConsumedNonceCollision)
    (receipt : option TransactionReceipt) (tx : option RpcTransaction) : JRes unit :=
  let? rc := or_err receipt (JMsg "approved nonce replacement receipt is absent") in
  let? t := or_err tx (JMsg "approved nonce replacement transaction is absent") in
  ensure! (rc_hash rc =? co_replacement_hash ex) && (rc_status rc =? 1)
          && (rc_block rc =? co_replacement_block ex)
    else JMsg "approved nonce replacement receipt changed" ;;
  ensure! (tx_hash t =? co_replacement_hash ex) && (tx_chain_id t =? co_chain_id ex)
          && (tx_nonce t =? co_nonce ex) && (tx_from t =? co_wallet ex)
          && bool_decide (tx_to t = Some (co_replacement_target ex))
          && (tx_value t =? co_replacement_value ex)
          && bool_decide (tx_block t = Some (co_replacement_block ex))
    else JMsg "approved nonce replacement transaction changed" ;;
  ensure! negb (bool_decide (tx_to t = Some (co_target ex)))
          || negb (tx_value t =? co_native_value ex)
          || negb (keccak256 (tx_input t) =? co_calldata_hash ex)
    else JMsg "approved nonce replacement unexpectedly matches the rejected local effect" ;;
  Ok tt.

Definition collision_observed (ex : ReviewedConsumedNonceCollision) (ob : CollisionObservation)
  : JRes unit :=
  ensure! (co_nonce ex <? cob_latest ob) && (cob_latest ob <=? cob_pending ob)
    else JMsg "approved consumed-nonce recovery nonce is not canonically consumed" ;;
  ensure! bool_decide (cob_rejected_receipt ob = None)
          && bool_decide (cob_rejected_transaction ob = None)
    else JMsg "approved rejected transaction appeared onchain" ;;
  validate_consumed_nonce_replacement ex (cob_replacement_receipt ob)
    (cob_replacement_transaction ob).

Definition recover_exact_consumed_nonce_collision (obs : nat -> JRes CollisionObservation)
    (env : AppendEnv) (fs : FileSystem) (ex : ReviewedConsumedNonceCollision)
  : M (list Z) JournalError bool :=
  fun disk =>
    let checked :=
      let? _ := validate_scope (co_scope ex) in
      ensure! (0 <? co_chain_id ex) && negb (co_wallet ex =? 0) && negb (co_target ex =? 0)
              && negb (co_replacement_target ex =? 0)
              && negb (co_rejected_hash ex =? co_replacement_hash ex)
        else JMsg "approved consumed-nonce recovery identity is invalid" ;;
      let? j := open (with_contents fs disk) in
      let? o := or_err (operation j (co_operation_id ex))
                  (JMsg "approved consumed-nonce recovery operation is absent") in
      let it := intent o in
      let i := identity it in
      ensure! (chain_id i =? co_chain_id ex) && (wallet i =? co_wallet ex)
              && (nonce i =? co_nonce ex) && bool_decide (scope i = Some (co_scope ex))
              && bool_decide (purpose it = co_purpose ex) && (target it =? co_target ex)
              && (native_value it =? co_native_value ex)
              && (calldata_hash it =? co_calldata_hash ex)
        else JMsg "approved consumed-nonce recovery journal intent changed" ;;
      let? pending := reviewed_status (status o) (co_rejected_hash ex) in
      if negb pending then Ok None else
      let? ob0 := obs 0%nat in
      let? _ := collision_observed ex ob0 in
      let? ob1 := obs 1%nat in
      let? _ := collision_observed ex ob1 in
      Ok (Some (j, i)) in
    match checked with
    | Err e => (disk, Err e)
    | Ok None => (disk, Ok false)
    | Ok (Some (j, i)) =>
        let '(j', r) := record_rejected_before_broadcast env i (co_rejected_hash ex) j in
        (file j', rmap (fun _ => true) r)
    end.

Definition nonce_consumed (i : JournalOperationIdentity) (ob : Observation) : JRes unit :=
  ensure! (nonce i <? ob_latest ob) && (ob_latest ob <=? ob_pending ob)
    else JMsg "nonce-too-low rejection is not yet canonically consumed" ;;
  ensure! bool_decide (ob_receipt ob = None) && bool_decide (ob_transaction ob = None)
    else JMsg "nonce-too-low signed transaction appeared onchain" ;;
  Ok tt.

Definition recover_proven_nonce_too_low (obs : nat -> JRes Observation) (env : AppendEnv)
  : LM (option Z) :=
  fun s =>
    match l_state s.1 with
    | LRecoveryRequired i (Some h) =>
        match operation s.2 (operation_id i) with
        | None => (s, Err (JMsg "nonce-too-low recovery journal operation disappeared"))
        | Some o =>
            if negb (bool_decide (status o = OutcomeUnknown h NonceTooLow)) then (s, Ok None) else
            let proven :=
              let? ob0 := obs 0%nat in
              let? _ := nonce_consumed i ob0 in
              let? ob1 := obs 1%nat in
              let? _ := nonce_consumed i ob1 in
              ensure! ob_pending ob0 <=? ob_pending ob1
                else JMsg "nonce-too-low recovery pending nonce moved backwards" ;;
              Ok (ob_pending ob1) in
            match proven with
            | Err e => (s, Err e)
            | Ok next => (do! record_consumed_nonce_rejection env h next ;; mret (Some next)) s
            end
        end
    | _ => (s, Ok None)
    end.
End lane.

(** ** The lane and its journal agree *)

(** No operation of the wallet blocks recovery, except possibly the one under
    the given key. *)
Definition quiet (chain w : Z) (except : option string) (ops : gmap string JournalOperation) : Prop :=
  forall k o, ops !! k = Some o -> except <> Some k -> for_wallet chain w o = true ->
              recovery_blocking (status o) = false.

Lemma quiet_open chain w k o ops :
  quiet chain w None ops -> quiet chain w (Some k) (<[k := o]> ops).
Proof. intros Hq k' o'. rewrite lookup_insert_Some. naive_solver. Qed.

Lemma quiet_keep chain w k o ops :
  quiet chain w (Some k) ops -> quiet chain w (Some k) (<[k := o]> ops).
Proof. intros Hq k' o'. rewrite lookup_insert_Some. naive_solver. Qed.

Lemma quiet_close chain w k o ops :
  quiet chain w (Some k) ops -> recovery_blocking (status o) = false ->
  quiet chain w None (<[k := o]> ops).
Proof.
  intros Hq Ho k' o'. rewrite lookup_insert_Some. intros [[<- <-]|[Hne Hk']] _ Hw; [done|].
  apply (Hq k' o'); [done|congruence|done].
Qed.

Lemma quiet_other chain w k o ops :
  quiet chain w None ops -> recovery_blocking (status o) = false ->
  quiet chain w None (<[k := o]> ops).
Proof.
  intros Hq Ho k' o'. rewrite lookup_insert_Some. intros [[<- <-]|[Hne Hk']] _ Hw; [done|].
  apply (Hq k' o'); [done|congruence|done].
Qed.

(** The journal's operation for the lane's identity [i] has status [P], and
    nothing else of the wallet is in flight. *)
Definition active (l : NonceLane) (j : TransactionJournal) (i : JournalOperationIdentity)
    (P : JournalStatus -> Prop) : Prop :=
  chain_id i = l_chain_id l /\ wallet i = l_wallet l /\ nonce i + 1 < 2 ^ 64 /\
  (exists o, operations j !! operation_id i = Some o /\ identity (intent o) = i /\ P (status o)) /\
  quiet (l_chain_id l) (l_wallet l) (Some (operation_id i)) (operations j).

Definition blocked_with (mh : option Z) (st : JournalStatus) : Prop :=
  recovery_blocking st = true /\ transaction_hash st = mh.

Definition lane_typed (l : NonceLane) : Prop :=
  uint 160 (l_wallet l) /\ l_wallet l <> 0 /\ 0 < l_chain_id l.

Definition coherent (s : NonceLane * TransactionJournal) : Prop :=
  let '(l, j) := s in
  lane_typed l /\
  match l_state l with
  | LReady _ => quiet (l_chain_id l) (l_wallet l) None (operations j)
  | LReserved i => active l j i (eq IntentRecorded)
  | LSigned i h => active l j i (eq (Signed h))
  | LRecoveryRequired i mh => active l j i (blocked_with mh)
  | LBroadcast _ _ | LUntrackedPending _ _ => False
  end.

Section appends.
Context `{WireCodecLaws}.

Definition is_intent (ev : WireEvent) : bool :=
  match ev with WIntentRecorded _ _ _ _ => true | _ => false end.

(** What an append of a transition does to the operations. *)
Lemma append_transition env i ev j :
  is_intent ev = false -> next_sequence j + 1 < 2 ^ 64 ->
  (exists e, (append env i ev j).2 = Err e /\ operations (append env i ev j).1 = operations j) \/
  ((append env i ev j).2 = Ok tt /\
   exists o s', operations j !! operation_id i = Some o /\ next_status (status o) ev = Ok s' /\
     operations (append env i ev j).1 =
       <[operation_id i := mkOperation (intent o) s']> (operations j)).
Proof.
  intros Hev Hseq. destruct (append_cases env i ev j Hseq)
    as [[e ->]|[(ops' & line & k & Hp & _ & ->)|(ops' & line & Hp & _ & ->)]];
    [left; by eexists..|]. right. split; [done|]. simpl.
  destruct (prepared_line _ _ _ _ _ _ Hp) as (_ & [now Happ] & _).
  destruct (apply_payload_cases _ _ _ Happ) as (i' & Hi & _ & [(it & Hit & _)|(o & s' & Ho & _ & Hs & ->)]).
  { simpl in Hit. by destruct ev. }
  unfold payload_identity in Hi. simpl in Hi. apply bind_Some in Hi as (w & _ & [= <-]). by exists o, s'.
Qed.

(** What an append of an intent does. *)
Lemma append_intent env it j :
  next_sequence j + 1 < 2 ^ 64 -> uint 160 (wallet (identity it)) -> uint 160 (target it) ->
  uint 256 (native_value it) -> uint 256 (calldata_hash it) ->
  (exists e, (record_intent env it j).2 = Err e /\
             operations (record_intent env it j).1 = operations j) \/
  ((record_intent env it j).2 = Ok tt /\
   operations j !! operation_id (identity it) = None /\
   nonce_taken (operations j) (identity it) = false /\
   operations (record_intent env it j).1 =
     <[operation_id (identity it) := mkOperation it IntentRecorded]> (operations j)).
Proof.
  intros Hseq Hw Ht Hv Hc. unfold record_intent, mbind', mlift.
  destruct (validate_intent it); [|left; by eexists]. cbv beta iota.
  match goal with |- context [append env ?i ?ev j] => destruct (append_cases env i ev j Hseq)
    as [[e ->]|[(ops' & line & k & Hp & _ & ->)|(ops' & line & Hp & _ & ->)]] end;
    [left; by eexists..|]. right. split; [done|]. simpl.
  destruct (prepared_line _ _ _ _ _ _ Hp) as (_ & [now Happ] & _).
  destruct (apply_payload_cases _ _ _ Happ) as (i' & Hi & _ & [(it' & Hit & Hid & Hn & Hnt & _ & ->)|(o & s' & _ & _ & Hs & _)]); [|done].
  unfold payload_identity in Hi. simpl in Hi, Hit. rewrite address_roundtrip in Hi, Hit by done.
  rewrite u256_roundtrip, b256_roundtrip in Hit by done. simpl in Hi, Hit.
  injection Hi as <-. injection Hit as <-. simpl in *.
  destruct it as [[] ? ? ? ?]. by split_and!.
Qed.
End appends.

(** ** Lane histories *)
Class KeccakLaws `{Keccak} : Prop := { keccak_range bs : uint 256 (keccak256 bs) }.

Inductive lane_op :=
| OpReserve (op purp : string) (call : WalletCall)
| OpReserveWithNonce (op purp : string) (call : WalletCall) (n : Z)
| OpSigned (tx : SignedTransaction)
| OpBroadcast (h : Z)
| OpUnknown (reason : UnknownOutcomeReason)
| OpReceipt (rc : TransactionReceipt)
| OpCancel
| OpReject (h : Z)
| OpConsumedReject (h next : Z)
| OpRecover (latest pending : Z) (receipt : option TransactionReceipt) (tx : option RpcTransaction)
| OpNonceTooLow (obs : nat -> JRes Observation).

Definition run_lane_op `{WireCodec, Keccak} (env : AppendEnv) (o : lane_op) : LM unit :=
  match o with
  | OpReserve op purp call => do! reserve env op purp call ;; mret tt
  | OpReserveWithNonce op purp call n => do! reserve_with_nonce env op purp call n ;; mret tt
  | OpSigned tx => lane_record_signed env tx
  | OpBroadcast h => lane_record_broadcast env h
  | OpUnknown reason => lane_record_unknown_outcome env reason
  | OpReceipt rc => lane_record_receipt env rc
  | OpCancel => cancel_before_signing env
  | OpReject h => lane_record_rejected_before_broadcast env h
  | OpConsumedReject h next => record_consumed_nonce_rejection env h next
  | OpRecover latest pending receipt tx =>
      do! apply_recovery_observation env latest pending receipt tx ;; mret tt
  | OpNonceTooLow obs => do! recover_proven_nonce_too_low obs env ;; mret tt
  end.

(** The states in which a receipt is of the lane's own operation or of an earlier
    one; the others hold an unsigned reservation. *)
Definition receives_receipts (st : NonceLaneState) : Prop :=
  match st with
  | LReserved _ | LRecoveryRequired _ None => False
  | _ => True
  end.

(** Machine types of the arguments; a nonce below the last 64-bit one. *)
Definition call_typed (call : WalletCall) : Prop := uint 160 (call_target call) /\ uint 256 (call_value call).
Definition nonce_typed (n : Z) : Prop := 0 <= n /\ n + 1 < 2 ^ 64.

Definition lane_op_typed (st : NonceLaneState) (o : lane_op) : Prop :=
  match o with
  | OpReserve _ _ call => call_typed call /\ (forall n, st = LReady n -> nonce_typed n)
  | OpReserveWithNonce _ _ call n => call_typed call /\ nonce_typed n
  | OpSigned tx => uint 256 (st_hash tx)
  | _ => True
  end.

(** The operation brings no receipt to an unsigned reservation. *)
Definition lane_op_clean (st : NonceLaneState) (o : lane_op) : Prop :=
  match o with OpReceipt _ | OpRecover _ _ (Some _) _ => receives_receipts st | _ => True end.
#[global] Instance lane_op_clean_dec st o : Decision (lane_op_clean st o).
Proof. unfold Decision. destruct st as [| | | |? []|], o as [| | | | | | | | |? ? [] ?|]; simpl; (by left) || (right; tauto). Defined.

Section coherence.
Context `{WireCodecLaws, KeccakLaws}.

Definition lane_step (s s' : NonceLane * TransactionJournal) : Prop :=
  next_sequence s.2 + 1 < 2 ^ 64 /\
  exists env o, lane_op_typed (l_state s.1) o /\ s' = (run_lane_op env o s).1.

(** A receipt reaches a lane whose reservation is unsigned. *)
Definition early_receipt (s s' : NonceLane * TransactionJournal) : Prop :=
  ~ receives_receipts (l_state s.1) /\
  exists env o, s' = (run_lane_op env o s).1 /\
    match o with OpReceipt _ | OpRecover _ _ (Some _) _ => True | _ => False end.

Lemma coherent_same_ops l j j' :
  operations j' = operations j -> coherent (l, j) -> coherent (l, j').
Proof. unfold coherent, active. by intros ->. Qed.

(** A journaled transition followed by the rest of a lane method. *)
Lemma on_append {B} env i ev (k : LM B) l j :
  is_intent ev = false -> next_sequence j + 1 < 2 ^ 64 ->
  (exists e j', (do! on_journal (append env i ev) ;; k) (l, j) = ((l, j'), Err e) /\
                operations j' = operations j) \/
  (exists j' o s2, operations j !! operation_id i = Some o /\ next_status (status o) ev = Ok s2 /\
     operations j' = <[operation_id i := mkOperation (intent o) s2]> (operations j) /\
     (do! on_journal (append env i ev) ;; k) (l, j) = k (l, j')).
Proof.
  intros Hev Hseq. unfold mbind', on_journal.
  destruct (append_transition env i ev j Hev Hseq) as [(e & Hr & Ho)|(Hr & o & s2 & ? & ? & ?)];
    destruct (append env i ev j) as [j' r]; simpl in *; subst r.
  - left. by exists e, j'.
  - right. by exists j', o, s2.
Qed.

Lemma active_step l j j' i P o s2 :
  active l j i P -> operations j !! operation_id i = Some o ->
  operations j' = <[operation_id i := mkOperation (intent o) s2]> (operations j) ->
  P (status o) /\ (forall Q : JournalStatus -> Prop, Q s2 -> active l j' i Q) /\
  (recovery_blocking s2 = false -> quiet (l_chain_id l) (l_wallet l) None (operations j')).
Proof.
  intros (Hc & Hw & Hn & (o' & Ho' & Hid & HP) & Hq) Ho Hops.
  rewrite Ho in Ho'. simplify_eq. split; [done|]. rewrite Hops. split.
  - intros Q HQ. unfold active. rewrite Hops. split_and!; try done.
    + exists (mkOperation (intent o') s2). by rewrite lookup_insert_eq.
    + by apply quiet_keep.
  - intros Hb. by apply quiet_close.
Qed.

(** The lane left with a new state after a recorded transition. *)
Lemma coherent_ready l j n :
  lane_typed l -> quiet (l_chain_id l) (l_wallet l) None (operations j) ->
  coherent ((set_state (LReady n) (l, j)).1).
Proof. by split. Qed.

Lemma next_status_mined s2 st hs b ok :
  next_status st (if ok : bool then WMinedSuccess hs b else WMinedReverted hs b) = Ok s2 ->
  recovery_blocking s2 = false.
Proof. destruct ok; simpl; unfold mined_status; intros Hn; res_inv; done. Qed.

Lemma next_status_rejected s2 st hs :
  next_status st (WRejectedBeforeBroadcast hs) = Ok s2 -> recovery_blocking s2 = false.
Proof. simpl. intros Hn. by res_inv. Qed.

Lemma reserve_with_nonce_coherent env op purp call n s :
  coherent s -> next_sequence s.2 + 1 < 2 ^ 64 -> call_typed call -> nonce_typed n ->
  coherent (reserve_with_nonce env op purp call n s).1.
Proof.
  destruct s as [l j]. intros Hc Hseq [Ht Hv] [Hn0 Hn1]. unfold reserve_with_nonce. simpl.
  destruct (l_state l) eqn:El; try exact Hc. destruct (negb _); [exact Hc|].
  pose proof Hc as [Hw Hq]. rewrite El in Hq.
  set (it := mkIntent _ _ _ _ _).
  unfold mbind', on_journal.
  destruct (append_intent env it j Hseq (proj1 Hw) Ht Hv (keccak_range _))
    as [(e & Hr & Ho)|(Hr & Hnone & _ & Ho)];
    destruct (record_intent env it j) as [j' r]; simpl in *; subst r.
  - by eapply coherent_same_ops.
  - simpl. split; [done|]. simpl. unfold active. simpl. rewrite Ho. split_and!; try done.
    + eexists. by rewrite lookup_insert_eq.
    + by apply quiet_open.
Qed.

Lemma signed_coherent env tx s :
  coherent s -> next_sequence s.2 + 1 < 2 ^ 64 -> uint 256 (st_hash tx) ->
  coherent (lane_record_signed env tx s).1.
Proof.
  destruct s as [l j]. intros Hc Hseq Hh. unfold lane_record_signed. simpl.
  destruct (l_state l) eqn:El; try exact Hc. do 2 (destruct (negb _); [exact Hc|]).
  pose proof Hc as [Hw Ha]. rewrite El in Ha. unfold record_signed.
  destruct (on_append env i (WSigned (format_b256 (st_hash tx)))
              (set_state (LSigned i (st_hash tx))) l j eq_refl Hseq)
    as [(e & j' & -> & Hops)|(j' & o & s2 & Ho & Hs & Hops & ->)]; [by eapply coherent_same_ops|].
  simpl in Hs. res_inv. unfold parse_hash in Hok0. res_inv. rewrite b256_roundtrip in Hok0 by done.
  simplify_eq. split; [done|]. simpl. by apply (active_step _ _ _ _ _ _ _ Ha Ho Hops).
Qed.

Lemma broadcast_coherent env h s :
  coherent s -> next_sequence s.2 + 1 < 2 ^ 64 -> coherent (lane_record_broadcast env h s).1.
Proof.
  destruct s as [l j]. intros Hc Hseq. unfold lane_record_broadcast. simpl.
  destruct (l_state l) eqn:El; try exact Hc. destruct (negb _); [exact Hc|].
  pose proof Hc as [Hw Ha]. rewrite El in Ha. unfold record_broadcast.
  match goal with |- coherent (mbind' (on_journal (append _ _ ?ev)) (fun _ => ?k) _).1 =>
    destruct (on_append env i ev k l j eq_refl Hseq)
      as [(e & j' & -> & Hops)|(j' & o & s2 & Ho & Hs & Hops & ->)] end; [by eapply coherent_same_ops|].
  destruct (active_step _ _ _ _ _ _ _ Ha Ho Hops) as (_ & _ & Hq).
  destruct Ha as (_ & _ & Hn & _). unfold mbind', mlift, checked_add.
  rewrite (proj2 (Z.ltb_lt _ _) Hn). apply coherent_ready; [done|].
  apply Hq. simpl in Hs. by res_inv.
Qed.

Lemma unknown_coherent env reason s :
  coherent s -> next_sequence s.2 + 1 < 2 ^ 64 ->
  coherent (lane_record_unknown_outcome env reason s).1.
Proof.
  destruct s as [l j]. intros Hc Hseq. unfold lane_record_unknown_outcome. simpl.
  destruct (l_state l) eqn:El; try exact Hc; pose proof Hc as [Hw Ha]; rewrite El in Ha; [|done].
  unfold record_unknown_outcome.
  match goal with |- coherent (mbind' (on_journal (append _ _ ?ev)) (fun _ => ?k) _).1 =>
    destruct (on_append env i ev k l j eq_refl Hseq)
      as [(e & j' & -> & Hops)|(j' & o & s2 & Ho & Hs & Hops & ->)] end; [by eapply coherent_same_ops|].
  destruct (active_step _ _ _ _ _ _ _ Ha Ho Hops) as (Hst & Hact & _). split; [done|]. simpl.
  apply Hact. rewrite <- Hst in Hs. simpl in Hs. res_inv. unfold ensure_hash_transition in Hok0.
  res_inv. bool_prop. simpl in *. by split.
Qed.

Lemma cancel_coherent env s :
  coherent s -> next_sequence s.2 + 1 < 2 ^ 64 -> coherent (cancel_before_signing env s).1.
Proof.
  destruct s as [l j]. intros Hc Hseq. unfold cancel_before_signing. simpl.
  destruct (l_state l) eqn:El; try exact Hc. pose proof Hc as [Hw Ha]. rewrite El in Ha.
  unfold record_cancelled_before_signing.
  match goal with |- coherent (mbind' (on_journal (append _ _ ?ev)) (fun _ => ?k) _).1 =>
    destruct (on_append env i ev k l j eq_refl Hseq)
      as [(e & j' & -> & Hops)|(j' & o & s2 & Ho & Hs & Hops & ->)] end; [by eapply coherent_same_ops|].
  destruct (active_step _ _ _ _ _ _ _ Ha Ho Hops) as (_ & _ & Hq). apply coherent_ready; [done|].
  apply Hq. simpl in Hs. by res_inv.
Qed.

(** Both pre-broadcast rejections end the same way. *)
Lemma rejection_coherent env i h n l j P :
  coherent (l, j) -> next_sequence j + 1 < 2 ^ 64 -> active l j i P ->
  coherent ((do! on_journal (record_rejected_before_broadcast env i h) ;;
             set_state (LReady n)) (l, j)).1.
Proof.
  intros Hc Hseq Ha. pose proof Hc as [Hw _]. unfold record_rejected_before_broadcast.
  destruct (on_append env i (WRejectedBeforeBroadcast (format_b256 h)) (set_state (LReady n)) l j
              eq_refl Hseq)
    as [(e & j' & -> & Hops)|(j' & o & s2 & Ho & Hs & Hops & ->)]; [by eapply coherent_same_ops|].
  destruct (active_step _ _ _ _ _ _ _ Ha Ho Hops) as (_ & _ & Hq). apply coherent_ready; [done|].
  by eapply Hq, next_status_rejected.
Qed.

Lemma reject_coherent env h s :
  coherent s -> next_sequence s.2 + 1 < 2 ^ 64 ->
  coherent (lane_record_rejected_before_broadcast env h s).1.
Proof.
  destruct s as [l j]. intros Hc Hseq. unfold lane_record_rejected_before_broadcast. simpl.
  pose proof Hc as [_ Ha].
  destruct (l_state l) as [|?|i h'|?|i [h'|]|] eqn:El; try exact Hc;
    (destruct (negb _); [exact Hc|]); by eapply rejection_coherent.
Qed.

Lemma consumed_coherent env h next s :
  coherent s -> next_sequence s.2 + 1 < 2 ^ 64 ->
  coherent (record_consumed_nonce_rejection env h next s).1.
Proof.
  destruct s as [l j]. intros Hc Hseq. unfold record_consumed_nonce_rejection. simpl.
  pose proof Hc as [_ Ha].
  destruct (l_state l) as [|?|?|?|i [h'|]|] eqn:El; try exact Hc.
  do 2 (destruct (negb _); [exact Hc|]). by eapply rejection_coherent.
Qed.

Lemma receipt_coherent env rc s :
  coherent s -> next_sequence s.2 + 1 < 2 ^ 64 -> receives_receipts (l_state s.1) ->
  coherent (lane_record_receipt env rc s).1.
Proof.
  destruct s as [l j]. intros Hc Hseq Hrec. unfold lane_record_receipt. cbn [fst snd] in *.
  destruct (receipt_subject (l_state l) j rc) as [[i expected]|e] eqn:Es; [|exact Hc].
  do 2 (destruct (negb _); [exact Hc|]). unfold record_mined.
  match goal with |- coherent (mbind' (on_journal (append _ _ ?ev)) (fun _ => ?k) _).1 =>
    destruct (on_append env i ev k l j ltac:(by destruct (rc_status rc =? 1)) Hseq)
      as [(e & j' & -> & Hops)|(j' & o & s2 & Ho & Hs & Hops & ->)] end; [by eapply coherent_same_ops|].
  apply next_status_mined in Hs. pose proof Hc as [Hw Ha].
  unfold mbind', mlift, or_err.
  destruct (l_state l) as [cur|?|i0 h0|?|i0 [h0|]|] eqn:El; try done; simpl in Es; res_inv.
  - assert (Hq : quiet (l_chain_id l) (l_wallet l) None (operations j'))
      by (rewrite Hops; by apply quiet_other).
    destruct (checked_add 64 _ 1); simpl; (split; [done|]); by rewrite ?El.
  - destruct (active_step _ _ _ _ _ _ _ Ha Ho Hops) as (_ & _ & Hq).
    destruct Ha as (_ & _ & Hn & _). unfold checked_add.
    rewrite (proj2 (Z.ltb_lt _ _) Hn). apply coherent_ready; auto.
  - destruct (active_step _ _ _ _ _ _ _ Ha Ho Hops) as (_ & _ & Hq).
    destruct Ha as (_ & _ & Hn & _). unfold checked_add.
    rewrite (proj2 (Z.ltb_lt _ _) Hn). apply coherent_ready; auto.
Qed.

Lemma run_unit {A} (m : LM A) s : ((do! m ;; mret tt) s).1 = (m s).1.
Proof. unfold mbind'. by destruct (m s) as [s' []]. Qed.

Lemma run_lane_op_coherent env o s :
  coherent s -> next_sequence s.2 + 1 < 2 ^ 64 -> lane_op_typed (l_state s.1) o ->
  lane_op_clean (l_state s.1) o -> coherent (run_lane_op env o s).1.
Proof.
  intros Hc Hseq Hty Hcl. destruct o; simpl in Hty, Hcl |- *; rewrite ?run_unit.
  - unfold reserve. destruct (l_state s.1) eqn:El; try exact Hc.
    apply reserve_with_nonce_coherent; [done..|apply Hty|by apply Hty].
  - destruct Hty. by apply reserve_with_nonce_coherent.
  - by apply signed_coherent.
  - by apply broadcast_coherent.
  - by apply unknown_coherent.
  - by apply receipt_coherent.
  - by apply cancel_coherent.
  - by apply reject_coherent.
  - by apply consumed_coherent.
  - unfold apply_recovery_observation.
    destruct (l_state s.1) as [| | | |i mh|] eqn:El; try exact Hc.
    destruct receipt as [rc|]; [destruct tx; [exact Hc|]|].
    + unfold mbind'. pose proof (receipt_coherent env rc s Hc Hseq) as Hr. rewrite El in Hr.
      specialize (Hr Hcl). by destruct (lane_record_receipt env rc s) as [s' []].
    + repeat case_match; exact Hc.
  - unfold recover_proven_nonce_too_low.
    destruct (l_state s.1) as [| | | |i [h|]|]; try exact Hc.
    destruct (operation s.2 (operation_id i)); [|exact Hc]. destruct (negb _); [exact Hc|].
    match goal with |- context [match ?p with Ok _ => _ | Err _ => _ end] => destruct p as [next|] end;
      [|exact Hc].
    unfold mbind'. pose proof (consumed_coherent env h next s Hc Hseq) as Hr.
    by destruct (record_consumed_nonce_rejection env h next s) as [s' []].
Qed.

Lemma step_coherent s s' : coherent s -> lane_step s s' -> coherent s' \/ early_receipt s s'.
Proof.
  intros Hc (Hseq & env & o & Hty & ->). destruct (decide (lane_op_clean (l_state s.1) o)) as [Hcl|Hcl].
  - left. by apply run_lane_op_coherent.
  - right. destruct o as [| | | | | | | | |? ? [rc|] ?|]; try (by destruct Hcl); (split; [exact Hcl|]); by do 2 eexists.
Qed.

(** C20. the lane and its journal agree: along every history of reservations,
    signatures, broadcasts, receipts, rejections and recoveries, with every append
    failure, a busy lane's operation is recorded with the matching status, and a ready
    lane has nothing of its wallet in flight - unless a receipt was delivered while
    the lane held an unsigned reservation, which is the only event that can end the
    agreement. *)
Theorem lane_coherence s s' :
  coherent s -> rtc lane_step s s' ->
  coherent s' \/ exists a b, rtc lane_step s a /\ coherent a /\ early_receipt a b /\ rtc lane_step b s'.
Proof.
  intros Hc Hsteps. induction Hsteps as [|s1 s2 s3 Hs Hrest IH]; [by left|].
  destruct (step_coherent _ _ Hc Hs) as [Hc2|He].
  - destruct (IH Hc2) as [|(a & b & Ha & Hca & Hab & Hb)]; [by left|right].
    exists a, b. split; [by eapply rtc_l|done].
  - right. exists s1, s2. split; [apply rtc_refl|done].
Qed.
End coherence.

(** ** Restart *)
Lemma elem_of_blocking j chain w o :
  o ∈ recovery_blocking_for j chain w <->
  (exists k, operations j !! k = Some o) /\ for_wallet chain w o = true /\
  recovery_blocking (status o) = true.
Proof.
  unfold recovery_blocking_for. rewrite list_elem_of_filter, elem_of_btree_values, andb_true_iff. naive_solver.
Qed.

Lemma ops_values_nodup ops : ops_ok ops -> NoDup (btree_values ops).
Proof.
  intros Hok. apply (btree_values_nodup (fun o => operation_id (identity (intent o)))).
  intros k o Hk. by apply (oo_key _ Hok).
Qed.

(** What the next process must make of the lane's state. *)
Definition recovered (st : NonceLaneState) (pending : Z) : NonceLaneState :=
  match st with
  | LReserved i => LRecoveryRequired i None
  | LSigned i h => LRecoveryRequired i (Some h)
  | LRecoveryRequired i mh => LRecoveryRequired i mh
  | _ => LReady pending
  end.

(** The endpoint's view is not older than the journal. *)
Definition rpc_current (s : NonceLane * TransactionJournal) (latest pending : Z) : Prop :=
  latest <= pending /\
  (forall n, highest_consumed_nonce s.2 (l_chain_id s.1) (l_wallet s.1) = Some n -> n < pending) /\
  (match l_state s.1 with
   | LReserved i | LSigned i _ | LRecoveryRequired i _ => nonce i <= pending
   | _ => True
   end).

Lemma blocking_idle j chain w :
  quiet chain w None (operations j) -> recovery_blocking_for j chain w = [].
Proof.
  intros Hq. destruct (recovery_blocking_for j chain w) as [|o l] eqn:E; [done|].
  assert (Ho : o ∈ recovery_blocking_for j chain w) by (rewrite E; by left).
  apply elem_of_blocking in Ho as ([k Hk] & Hw & Hb). by rewrite (Hq k o Hk) in Hb.
Qed.

Lemma blocking_active j l i P o :
  ops_ok (operations j) -> active l j i P -> operations j !! operation_id i = Some o ->
  recovery_blocking (status o) = true ->
  recovery_blocking_for j (l_chain_id l) (l_wallet l) = [o].
Proof.
  intros Hok (Hc & Hw & _ & (o' & Ho' & Hid & _) & Hq) Ho Hb. rewrite Ho in Ho'. simplify_eq.
  apply singleton_list.
  - apply NoDup_filter, ops_values_nodup, Hok.
  - apply elem_of_blocking. split; [by eauto|]. split; [|done].
    unfold for_wallet. by rewrite Hc, Hw, !Z.eqb_refl.
  - intros y ([k Hk] & Hyw & Hyb)%elem_of_blocking.
    destruct (decide (k = operation_id (identity (intent o')))) as [->|Hne]; [congruence|].
    rewrite (Hq k y Hk) in Hyb; [done|congruence|done].
Qed.

Section restart.
Context `{WireCodecLaws, KeccakLaws}.

Lemma hydrate_state l j latest pending :
  ops_ok (operations j) -> coherent (l, j) -> rpc_current (l, j) latest pending ->
  hydrate (l_chain_id l) (l_wallet l) latest pending j =
  Ok (mkLane (l_chain_id l) (l_wallet l) (recovered (l_state l) pending) None).
Proof.
  intros Hok [(_ & Hw & Hc) Hst] (Hlp & Hcons & Hn). simpl in Hcons, Hn. unfold hydrate.
  rewrite (proj2 (Z.ltb_lt _ _) Hc), (proj2 (Z.eqb_neq _ _) Hw), (proj2 (Z.leb_le _ _) Hlp). simpl.
  assert (E : match highest_consumed_nonce j (l_chain_id l) (l_wallet l) with
              | Some consumed => ensure (consumed <? pending)
                  (JMsg "pending nonce has not advanced past a journaled mined transaction")
              | None => Ok tt
              end = Ok tt).
  { destruct (highest_consumed_nonce j _ _) as [n|] eqn:E; [|done].
    by rewrite (proj2 (Z.ltb_lt n pending)) by auto. }
  rewrite E. simpl. clear E.
  assert (Hact : forall i P, active l j i P -> (forall st, P st -> recovery_blocking st = true) ->
            nonce i <= pending ->
            exists o, P (status o) /\ identity (intent o) = i /\
              recovery_blocking_for j (l_chain_id l) (l_wallet l) = [o] /\
              (nonce (identity (intent o)) <=? pending) = true).
  { intros i P Ha HP Hle. pose proof Ha as (_ & _ & _ & (o & Ho & Hid & HPo) & _).
    exists o. split_and!; [done|done| |apply Z.leb_le; by rewrite Hid].
    by eapply blocking_active; eauto. }
  destruct (l_state l) as [n|i|i h|i h|i mh|] eqn:El; simpl in Hst; try done.
  - by rewrite (blocking_idle _ _ _ Hst).
  - destruct (Hact i _ Hst ltac:(by intros ? <-) Hn) as (o & Hs & <- & -> & Hle). simpl.
    by rewrite Hle, <- Hs.
  - destruct (Hact i _ Hst ltac:(by intros ? <-) Hn) as (o & Hs & <- & -> & Hle). simpl.
    rewrite Hle, <- Hs. done.
  - destruct (Hact i _ Hst ltac:(by intros ? []) Hn) as (o & [_ Hs] & <- & -> & Hle). simpl.
    by rewrite Hle, Hs.
Qed.

(** Nothing in flight is lost by a restart: reopening the journal of a
    coherent lane and hydrating a lane from it yields, for a lane that was
    reserved, signed or already under recovery, a lane that requires recovery
    of that very operation with its recorded hash, and otherwise a ready lane
    at the endpoint's pending nonce. *)
Theorem restart_restores_lane l j latest pending :
  journal_history j -> poisoned j = false -> coherent (l, j) ->
  rpc_current (l, j) latest pending ->
  exists j', reopen j = Ok j' /\
    hydrate (l_chain_id l) (l_wallet l) latest pending j' =
    Ok (mkLane (l_chain_id l) (l_wallet l) (recovered (l_state l) pending) None).
Proof.
  intros Hh Hp Hc Hrpc. destruct (history_durable j Hh) as [Hok Hf].
  destruct (Hf Hp) as [_ Hr]. eexists. split; [by apply replay_reopen|].
  destruct j as [f ops seq ps]. simpl in *. subst ps. by apply hydrate_state.
Qed.

(** A reservation is durable before it is granted and never reuses a
    nonce: when it succeeds, the lane was ready at or below the nonce, no live
    operation of the wallet owned the nonce, and the intent is what the next
    process finds in the journal. *)
Theorem reserve_durable_and_fresh env op purp call n l j l' j' i :
  journal_history j -> next_sequence j + 1 < 2 ^ 64 -> coherent (l, j) -> call_typed call ->
  reserve_with_nonce env op purp call n (l, j) = ((l', j'), Ok i) ->
  (exists next, l_state l = LReady next /\ next <= n) /\
  l_state l' = LReserved i /\ nonce i = n /\
  (forall k o, operations j !! k = Some o -> same_nonce i (identity (intent o)) ->
               released (status o) = true) /\
  exists j'', reopen j' = Ok j'' /\
    operation j'' op = Some (mkOperation (mkIntent i purp (call_target call) (call_value call)
                                            (keccak256 (call_data call))) IntentRecorded).
Proof.
  intros Hh Hseq [[Hw _] Hst] [Ht Hv] Hres. unfold reserve_with_nonce in Hres. simpl in Hres.
  destruct (l_state l) as [next| | | | |] eqn:El; try done.
  destruct (Z.leb_spec next n) as [Hle|]; [|done]. simpl in Hres.
  set (i0 := mkIdentity op (l_chain_id l) (l_wallet l) n (l_scope l)) in *.
  set (it := mkIntent i0 purp (call_target call) (call_value call) (keccak256 (call_data call))) in *.
  unfold mbind', on_journal in Hres.
  destruct (append_intent env it j Hseq Hw Ht Hv (keccak_range _))
    as [(e & Hr & _)|(Hr & Hnone & Hfree & Hops)];
    destruct (record_intent env it j) as [j1 r] eqn:Erec; simpl in *; subst r; [done|].
  injection Hres as <- <- <-. split; [by eauto|]. split; [done|]. split; [done|].
  split; [intros k o; by apply nonce_taken_false|].
  assert (Hstep : journal_step j j1 /\ poisoned j1 = false).
  { unfold record_intent, mbind', mlift in Erec. destruct (validate_intent it) as [u|] eqn:Ev; [|done].
    split; [split; [done|]; do 3 eexists; by rewrite Erec|].
    match goal with Ha : append env ?a ?b j = _ |- _ => destruct (append_cases env a b j Hseq)
      as [[e Hx]|[(? & ? & ? & _ & _ & Hx)|(? & ? & Hp & _ & Hx)]] end; rewrite Hx in Erec; try done.
    injection Erec as <-. simpl. by destruct (prepared_line _ _ _ _ _ _ Hp). }
  destruct Hstep as [Hstep Hpois]. pose proof (history_step _ _ Hh Hstep) as Hh1.
  destruct (du_file j1 (history_durable j1 Hh1) Hpois) as [_ Hreplay].
  eexists. split; [by apply replay_reopen|]. unfold operation. simpl. rewrite Hops.
  apply lookup_insert_eq.
Qed.
End restart.

(** ** Recovery is conservative *)
Section recovery.
Context `{WireCodecLaws, KeccakLaws}.

(** A recorded receipt: the operation is mined under the receipt's hash and
    the lane is ready behind its nonce. *)
Lemma recorded_receipt env rc l j l' j' i h :
  next_sequence j + 1 < 2 ^ 64 -> l_state l = LRecoveryRequired i (Some h) ->
  lane_record_receipt env rc (l, j) = ((l', j'), Ok tt) ->
  rc_hash rc = h /\ rc_status rc <= 1 /\ l_state l' = LReady (nonce i + 1) /\
  exists o s2, operations j !! operation_id i = Some o /\ mined s2 = true /\
    transaction_hash s2 = transaction_hash (status o) /\
    operations j' = <[operation_id i := mkOperation (intent o) s2]> (operations j).
Proof.
  intros Hseq El. unfold lane_record_receipt. simpl. rewrite El. simpl.
  destruct (Z.eqb_spec (rc_hash rc) h) as [Hh|]; simpl; [|done].
  destruct (Z.leb_spec (rc_status rc) 1) as [Hst|]; simpl; [|done]. unfold record_mined.
  match goal with |- mbind' (on_journal (append _ _ ?ev)) (fun _ => ?k) _ = _ -> _ =>
    destruct (on_append env i ev k l j ltac:(by destruct (rc_status rc =? 1)) Hseq)
      as [(e & j1 & -> & _)|(j1 & o & s2 & Ho & Hs & Hops & ->)] end; [done|].
  unfold mbind', mlift, or_err. destruct (checked_add 64 (nonce i) 1) as [n|] eqn:En; [|done].
  checked_inv. subst n. simpl. intros [= <- <-]. split_and!; try done. exists o, s2.
  split; [done|]. destruct (rc_status rc =? 1); simpl in Hs; unfold mined_status in Hs; res_inv;
    unfold ensure_hash_transition in *; res_inv; bool_prop; split_and!; done || by rewrite Hok1.
Qed.

(** Startup reconciliation unblocks a lane only on a mined receipt of the
    very transaction the journal recorded; on every other evidence (an
    unsigned intent, a pending or matching transaction, an absent one, a nonce
    taken by something else) the lane and the journal stay as hydrated. *)
Theorem reconcile_conservative rpc env chain w latest pending j j' lane' out :
  next_sequence j + 1 < 2 ^ 64 ->
  reconcile rpc env chain w latest pending j = (j', Ok (lane', out)) ->
  exists lane, hydrate chain w latest pending j = Ok lane /\
    ((j' = j /\ lane' = lane) \/
     exists i h rc o s2,
       l_state lane = LRecoveryRequired i (Some h) /\ rpc_receipt rpc h = Ok (Some rc) /\
       rc_hash rc = h /\ operations j !! operation_id i = Some o /\ mined s2 = true /\
       transaction_hash s2 = transaction_hash (status o) /\
       operations j' = <[operation_id i := mkOperation (intent o) s2]> (operations j) /\
       l_state lane' = LReady (nonce i + 1)).
Proof.
  intros Hseq Hrec. unfold reconcile in Hrec.
  destruct (hydrate chain w latest pending j) as [lane|] eqn:Eh; [|done].
  exists lane. split; [done|].
  destruct (l_state lane) as [| | | |i [h|]|] eqn:El; simpl in Hrec;
    try (injection Hrec as <- <-; by left); try done.
  - destruct (rpc_receipt rpc h) as [[rc|]|] eqn:Er; [| |done].
    + right. unfold apply_recovery_observation in Hrec. simpl in Hrec. rewrite El in Hrec.
      unfold mbind' in Hrec.
      destruct (lane_record_receipt env rc (lane, j)) as [[l1 j1] [[]|]] eqn:E; [|done].
      injection Hrec as <- <- _.
      destruct (recorded_receipt env rc lane j l1 j1 i h Hseq El E)
        as (? & _ & ? & o & s2 & ? & ? & ? & ?). by exists i, h, rc, o, s2.
    + left. destruct (rpc_transaction rpc h) as [tx|]; [|done].
      unfold apply_recovery_observation in Hrec. simpl in Hrec. rewrite El in Hrec.
      destruct tx as [t|]; [|by injection Hrec as <- <-].
      destruct (validate_recovered_transaction j i h t); [|done]. by injection Hrec as <- <-.
  - left. unfold apply_recovery_observation in Hrec. simpl in Hrec. rewrite El in Hrec.
    by injection Hrec as <- <-.
Qed.

(** A nonce-too-low rejection is closed only on two observations that
    both show the nonce consumed and the signed transaction nowhere; the lane
    then continues at the pending nonce of the second, past the rejected one,
    and the journal marks the operation rejected. *)
Theorem nonce_too_low_proven obs env l j l' j' n :
  next_sequence j + 1 < 2 ^ 64 ->
  recover_proven_nonce_too_low obs env (l, j) = ((l', j'), Ok (Some n)) ->
  exists i h ob0 ob1 o,
    l_state l = LRecoveryRequired i (Some h) /\ obs 0%nat = Ok ob0 /\ obs 1%nat = Ok ob1 /\
    (forall ob, ob = ob0 \/ ob = ob1 ->
       nonce i < ob_latest ob <= ob_pending ob /\ ob_receipt ob = None /\ ob_transaction ob = None) /\
    n = ob_pending ob1 /\ nonce i < n /\ l_state l' = LReady n /\
    operations j !! operation_id i = Some o /\ status o = OutcomeUnknown h NonceTooLow /\
    operations j' = <[operation_id i := mkOperation (intent o) (RejectedBeforeBroadcast h)]> (operations j).
Proof.
  intros Hseq Hrec. unfold recover_proven_nonce_too_low in Hrec. simpl in Hrec.
  destruct (l_state l) as [| | | |i [h|]|] eqn:El; try done.
  destruct (operation j (operation_id i)) as [o|] eqn:Eo; [|done].
  destruct (negb _) eqn:Est in Hrec; [done|]. bool_prop.
  match type of Hrec with context [match ?p with Ok _ => _ | Err _ => _ end] =>
    destruct p as [next|] eqn:Ep end; [|done].
  res_inv. unfold nonce_consumed in *. res_inv. bool_prop.
  unfold mbind' in Hrec.
  destruct (record_consumed_nonce_rejection env h (ob_pending x1) (l, j)) as [[l1 j1] [[]|]] eqn:E; [|done].
  injection Hrec as <- <- <-.
  unfold record_consumed_nonce_rejection in E. simpl in E. rewrite El, Z.eqb_refl in E. simpl in E.
  rewrite (proj2 (Z.ltb_lt _ _)) in E by lia. simpl in E.
  match type of E with mbind' (on_journal (record_rejected_before_broadcast _ _ _)) (fun _ => ?k) _ = _ =>
    destruct (on_append env i (WRejectedBeforeBroadcast (format_b256 h)) k l j eq_refl Hseq)
      as [(e & j2 & Hx & _)|(j2 & o' & s2 & Ho & Hs & Hops & Hx)] end;
    unfold record_rejected_before_broadcast in E; rewrite Hx in E; [done|].
  injection E as <- <-. unfold operation in Eo. rewrite Eo in Ho. injection Ho as <-.
  exists i, h, x, x1, o. split_and!; try done; [naive_solver lia|lia|].
  rewrite Hops. do 2 f_equal. rewrite Est in Hs. simpl in Hs. res_inv.
  unfold ensure_hash_transition in *. res_inv. bool_prop. simpl in *. by simplify_eq.
Qed.
End recovery.

(** ** The process-wide allocator *)
Inductive process_op :=
| PAcquire (acquired : bool) (chain w floor : Z)
| PAdvance (g : ProcessNonceKey) (n : Z)
| PAtLeast (g : ProcessNonceKey) (n : Z).

Definition run_process_op (o : process_op) (locks : ProcessNonceLocks) : ProcessNonceLocks :=
  match o with
  | PAcquire acquired chain w floor => (acquire_process_nonce_lock acquired chain w floor locks).1
  | PAdvance g n => (advance_after_broadcast g n locks).1
  | PAtLeast g n => (advance_to_at_least g n locks).1
  end.

Definition process_step (a b : ProcessNonceLocks) : Prop := exists o, b = run_process_op o a.

Lemma process_step_mono a b g n :
  process_step a b -> a !! g = Some n -> exists n', b !! g = Some n' /\ n <= n'.
Proof.
  intros [[acquired chain w floor|g' m|g' m] ->] Hn; simpl.
  - unfold acquire_process_nonce_lock. destruct (negb _); [by exists n|]. destruct (w =? 0); [by exists n|].
    destruct (decide ((chain, w) = g)) as [<-|Hne].
    + rewrite Hn. simpl. destruct (negb acquired); simpl; rewrite lookup_insert_eq; eexists; split; done || lia.
    + exists n. destruct (negb acquired); simpl; by rewrite !lookup_insert_ne.
  - unfold advance_after_broadcast. destruct (negb _) eqn:E; [by exists n|]. bool_prop.
    destruct (checked_add 64 m 1) eqn:Ea; [|by exists n]. checked_inv. simpl.
    destruct (decide (g' = g)) as [<-|Hne]; [|exists n; by rewrite lookup_insert_ne].
    rewrite lookup_insert_eq. eexists. split; [done|]. simplify_eq. lia.
  - destruct (decide (g' = g)) as [<-|Hne]; [|exists n; by rewrite lookup_insert_ne].
    rewrite Hn, lookup_insert_eq. simpl. eexists. split; [done|lia].
Qed.

(** The process-wide allocator never hands a nonce out twice: whatever
    acquisitions, timeouts and advances happen in between, two broadcasts
    confirmed under the lock of a wallet have strictly increasing nonces. *)
Theorem process_nonce_unique g n n' locks locks1 locks2 locks3 :
  advance_after_broadcast g n locks = (locks1, Ok tt) ->
  rtc process_step locks1 locks2 ->
  advance_after_broadcast g n' locks2 = (locks3, Ok tt) ->
  n < n'.
Proof.
  unfold advance_after_broadcast. intros H1 Hsteps H2.
  destruct (negb _) in H1; [done|]. destruct (checked_add 64 n 1) eqn:Ea; [|done]. checked_inv.
  injection H1 as <-.
  destruct (negb _) eqn:E2 in H2; [done|]. bool_prop.
  assert (Hmono : forall a b m, rtc process_step a b -> a !! g = Some m ->
                    exists m', b !! g = Some m' /\ m <= m').
  { intros a b m Hab. revert m. induction Hab as [|a1 a2 a3 Hs _ IH]; intros m Hm; [by exists m|].
    destruct (process_step_mono _ _ _ _ Hs Hm) as (m1 & Hm1 & ?).
    destruct (IH _ Hm1) as (m2 & ? & ?). exists m2. split; [done|lia]. }
  destruct (Hmono _ _ _ Hsteps (lookup_insert_eq _ _ _)) as (m' & Hm' & ?). simplify_eq. lia.
Qed.
