(* ===== verification/WalletDemo.v ===== *)
(** * A concrete wallet

    A journal and a nonce lane over the bit codec: the theorems of [Journal]
    and [Nonce] applied to concrete runs, and the run in which a receipt drops
    a reservation. *)
From Stdlib Require Import Lia.
From stdpp Require Import base gmap sets strings numbers list fin_maps relations.
From S2P Require Import Prelude Journal TextCodec Nonce.

#[global] Instance length_keccak : Keccak :=
  { keccak256 := fun bs => Z.of_nat (length bs) mod 2 ^ 256 }.
#[global] Instance length_keccak_laws : KeccakLaws.
Proof. constructor. intros bs. apply Z.mod_pos_bound. lia. Qed.

Definition ok_env : AppendEnv := mkEnv (Ok 1) None.
Definition demo_call : WalletCall := mkCall 9 0 [1; 2].

Definition j0 : TransactionJournal := mkJournal [] ∅ 0 false.
Definition s0 : NonceLane * TransactionJournal := (mkLane 1 7 (LReady 5) None, j0).
Definition after (s : NonceLane * TransactionJournal) (o : lane_op) := (run_lane_op ok_env o s).1.

(** Reserve nonce 5 for operation "a", sign it, then lose track of it. *)
Definition s1 := after s0 (OpReserve "a" "p" demo_call).
Definition s2 := after s1 (OpSigned (mkSigned 1 5 77 [])).
Definition s3 := after s2 (OpUnknown NonceTooLow).

Lemma j0_history : journal_history j0.
Proof. by apply (history_open (healthy_fs [])). Qed.

Lemma s0_coherent : coherent s0.
Proof. split; [done|]. intros k o Hk. simpl in Hk. by rewrite lookup_empty in Hk. Qed.

(** The first two steps, as lane steps and as journal steps. *)
Lemma s0_s1 : lane_step s0 s1.
Proof.
  split; [done|]. exists ok_env, (OpReserve "a" "p" demo_call). split; [|done].
  split; [done|]. by intros n [= <-].
Qed.
Lemma s1_s2 : lane_step s1 s2.
Proof. split; [vm_compute; reflexivity|]. exists ok_env, (OpSigned (mkSigned 1 5 77 [])). done. Qed.
Lemma s2_s3 : lane_step s2 s3.
Proof. split; [vm_compute; reflexivity|]. exists ok_env, (OpUnknown NonceTooLow). done. Qed.

Lemma coherence_to_s3 : coherent s1 /\ coherent s2 /\ coherent s3.
Proof.
  assert (H1 : coherent s1).
  { apply (run_lane_op_coherent ok_env (OpReserve "a" "p" demo_call) s0 s0_coherent); [done| |].
    - split; [done|]. by intros n [= <-].
    - exact I. }
  assert (H2 : coherent s2).
  { apply (run_lane_op_coherent ok_env (OpSigned (mkSigned 1 5 77 [])) s1 H1); [|done|exact I].
    vm_compute. reflexivity. }
  split; [done|]. split; [done|].
  apply (run_lane_op_coherent ok_env (OpUnknown NonceTooLow) s2 H2); [|done|exact I].
  vm_compute. reflexivity.
Qed.

Definition demo_identity : JournalOperationIdentity := mkIdentity "a" 1 7 5 None.
Definition demo_intent : JournalIntent := mkIntent demo_identity "p" 9 0 2.
Definition intent_event : WireEvent := WIntentRecorded "p" (text_of 9) (text_of 0) (text_of 2).
Definition j1 : TransactionJournal := (append ok_env demo_identity intent_event j0).1.
Definition j2 : TransactionJournal := (append ok_env demo_identity (WSigned (text_of 77)) j1).1.

Lemma j0_j1 : journal_step j0 j1.
Proof. split; [done|]. by exists ok_env, demo_identity, intent_event. Qed.
Lemma j1_j2 : journal_step j1 j2.
Proof. split; [vm_compute; reflexivity|]. by exists ok_env, demo_identity, (WSigned (text_of 77)). Qed.
Lemma j2_history : journal_history j2.
Proof. eapply history_step; [|apply j1_j2]. eapply history_step; [apply j0_history|apply j0_j1]. Qed.

Lemma journal_nonce_ownership_witness :
  status <$> operations j2 !! "a"%string = Some (Signed 77) /\ ops_ok (operations j2).
Proof. split; [vm_compute; reflexivity|]. apply (journal_nonce_ownership j2), j2_history. Defined.

Lemma journal_reopens_witness : reopen j2 = Ok j2.
Proof. apply (journal_reopens j2); [apply j2_history|]. vm_compute. reflexivity. Defined.

(** The disk fills up after three bytes of the record. *)
Definition cut_env : AppendEnv := mkEnv (Ok 1) (Some 3%nat).
Definition demo_prepared : gmap string JournalOperation * list Z :=
  match prepare_append cut_env demo_identity intent_event j0 with
  | Ok p => p
  | Err _ => (∅, [])
  end.

Lemma journal_crash_safe_witness :
  (3 < length demo_prepared.2)%nat /\
  reopen (append cut_env demo_identity intent_event j0).1 =
    (if decide (3 = 0)%nat then Ok j0
     else if decide (3 < length demo_prepared.2)%nat
          then Err (JMsg "transaction journal ends with a partial record")
          else Ok (mkJournal ([] ++ demo_prepared.2) demo_prepared.1 1 false)).
Proof.
  split; [vm_compute; lia|].
  assert (E : is_ok (prepare_append cut_env demo_identity intent_event j0) = true)
    by (vm_compute; reflexivity).
  unfold demo_prepared.
  destruct (prepare_append cut_env demo_identity intent_event j0) as [[ops' line]|] eqn:Ep; [|done].
  apply (journal_crash_safe j0 cut_env demo_identity intent_event ops' line 3 j0_history
           ltac:(done) Ep eq_refl).
Defined.

Lemma journal_monotone_witness : ops_extend (operations j0) (operations j2).
Proof.
  apply (journal_monotone j0 j2). eapply rtc_l; [apply j0_j1|]. apply rtc_once, j1_j2.
Defined.

Lemma s2_journal : s2.2 = j2.
Proof. vm_compute. reflexivity. Qed.

Lemma restart_restores_lane_witness :
  exists j', reopen s2.2 = Ok j' /\
    hydrate 1 7 5 5 j' = Ok (mkLane 1 7 (LRecoveryRequired demo_identity (Some 77)) None).
Proof.
  assert (E : s2 = (mkLane 1 7 (LSigned demo_identity 77) None, j2)) by (vm_compute; reflexivity).
  pose proof (proj1 (proj2 coherence_to_s3)) as Hc. rewrite E in Hc |- *.
  apply (restart_restores_lane (mkLane 1 7 (LSigned demo_identity 77) None) j2 5 5 j2_history);
    [vm_compute; reflexivity|exact Hc|].
  split; [done|]. split; [|simpl; done]. simpl.
  assert (Hn : highest_consumed_nonce j2 1 7 = None) by (vm_compute; reflexivity).
  rewrite Hn. by intros.
Defined.

Lemma reserve_durable_and_fresh_witness :
  exists j'', reopen s1.2 = Ok j'' /\ operation j'' "a" = Some (mkOperation demo_intent IntentRecorded).
Proof.
  assert (E : reserve_with_nonce ok_env "a" "p" demo_call 5 s0 = ((s1.1, s1.2), Ok demo_identity))
    by (vm_compute; reflexivity).
  destruct (reserve_durable_and_fresh ok_env "a" "p" demo_call 5 s0.1 s0.2 s1.1 s1.2 demo_identity
              j0_history ltac:(done) s0_coherent ltac:(done) E) as (_ & _ & _ & _ & Hw).
  exact Hw.
Defined.

(** The endpoint reports a successful receipt for every hash. *)
Definition mined_rpc : RpcView := mkRpc (fun h => Ok (Some (mkReceipt h 100 1))) (fun _ => Ok None).
Definition reconciled := reconcile mined_rpc ok_env 1 7 6 6 j2.

Lemma reconcile_conservative_witness :
  exists lane, hydrate 1 7 6 6 j2 = Ok lane /\
    ((reconciled.1 = j2 /\ l_state lane = LReady 6) \/
     exists h o s2, operations j2 !! "a"%string = Some o /\ mined s2 = true /\
       transaction_hash s2 = Some h /\
       operations reconciled.1 = <["a"%string := mkOperation (intent o) s2]> (operations j2)).
Proof.
  assert (Hok : is_ok reconciled.2 = true) by (vm_compute; reflexivity).
  assert (Hh : l_state <$> (match hydrate 1 7 6 6 j2 with Ok l => Some l | Err _ => None end)
               = Some (LRecoveryRequired demo_identity (Some 77))) by (vm_compute; reflexivity).
  unfold reconciled in *.
  destruct (reconcile mined_rpc ok_env 1 7 6 6 j2) as [j' [[lane' out]|]] eqn:E; [|done].
  destruct (reconcile_conservative mined_rpc ok_env 1 7 6 6 j2 j' lane' out
              ltac:(vm_compute; reflexivity) E) as (lane & Hl & Hcases).
  exists lane. split; [done|]. rewrite Hl in Hh. simpl in Hh. injection Hh as Hst.
  destruct Hcases as [[-> ->]|(i & h & rc & o & s2 & Hi & _ & _ & Ho & Hm & Hth & Hops & _)].
  - exfalso. assert (Hr : ready lane = false) by (unfold ready; by rewrite Hst).
    assert (Hready : match (reconcile mined_rpc ok_env 1 7 6 6 j2).2 with
                     | Ok (l, _) => ready l | Err _ => false end = true) by (vm_compute; reflexivity).
    rewrite E in Hready. simpl in Hready. congruence.
  - right. rewrite Hst in Hi. injection Hi as <- <-. exists 77, o, s2. simpl in *.
    split; [done|]. split; [done|]. split; [|done]. rewrite Hth.
    assert (Hs : status <$> operations j2 !! "a"%string = Some (Signed 77)) by (vm_compute; reflexivity).
    rewrite Ho in Hs. simpl in Hs. injection Hs as ->. done.
Defined.

Definition consumed_obs (_ : nat) : JRes Observation := Ok (mkObs 6 6 None None).

Lemma nonce_too_low_proven_witness :
  let s4 := (recover_proven_nonce_too_low consumed_obs ok_env s3).1 in
  l_state s4.1 = LReady 6.
Proof.
  intros s4.
  assert (E : recover_proven_nonce_too_low consumed_obs ok_env s3 = ((s4.1, s4.2), Ok (Some 6))).
  { assert (E2 : (recover_proven_nonce_too_low consumed_obs ok_env s3).2 = Ok (Some 6))
      by (vm_compute; reflexivity).
    unfold s4. destruct (recover_proven_nonce_too_low consumed_obs ok_env s3) as [[? ?] r].
    simpl in *. by subst r. }
  destruct (nonce_too_low_proven consumed_obs ok_env s3.1 s3.2 s4.1 s4.2 6
              ltac:(vm_compute; reflexivity) E)
    as (i & h & ob0 & ob1 & o & _ & _ & _ & _ & _ & _ & Hst & _).
  exact Hst.
Defined.

Definition locks0 : gmap (Z * Z) Z := {[ (1, 7) := 5 ]}.
Lemma process_nonce_unique_witness :
  (advance_after_broadcast (1, 7) 5 locks0).2 = Ok tt /\ 5 < 6.
Proof.
  split; [vm_compute; reflexivity|]. apply (process_nonce_unique (1, 7) 5 6 locks0 {[ (1, 7) := 6 ]} {[ (1, 7) := 6 ]} {[ (1, 7) := 7 ]});
    [vm_compute; reflexivity|apply rtc_refl|vm_compute; reflexivity].
Defined.

(** ** A receipt that drops a reservation *)
Definition a_sent := after s2 (OpBroadcast 77).
Definition b_reserved := after a_sent (OpReserve "b" "p" demo_call).
Definition a_mined := after b_reserved (OpReceipt (mkReceipt 77 100 1)).

Lemma reserve_b_typed : lane_op_typed (LReady 6) (OpReserve "b" "p" demo_call).
Proof. split; [done|]. by intros n [= <-]. Qed.

Lemma b_reserved_coherent : coherent b_reserved.
Proof.
  apply (run_lane_op_coherent ok_env (OpReserve "b" "p" demo_call) a_sent).
  - apply (run_lane_op_coherent ok_env (OpBroadcast 77) s2 (proj1 (proj2 coherence_to_s3))); [|exact I|exact I].
    vm_compute. reflexivity.
  - vm_compute. reflexivity.
  - assert (E : l_state a_sent.1 = LReady 6) by (vm_compute; reflexivity). rewrite E.
    exact reserve_b_typed.
  - exact I.
Qed.

(** A receipt for an earlier broadcast that arrives while the lane holds an
    unsigned reservation silently drops the reservation: the lane becomes ready
    at the reserved nonce although the journal still records that intent, so the
    operation can no longer be signed or cancelled and no operation can reserve
    the nonce. *)
Theorem receipt_drops_reservation :
  coherent b_reserved /\ (exists i, l_state b_reserved.1 = LReserved i) /\
  l_state a_mined.1 = LReady 6 /\ ~ coherent a_mined /\
  status <$> operations a_mined.2 !! "b"%string = Some IntentRecorded /\
  (run_lane_op ok_env (OpSigned (mkSigned 1 6 88 [])) a_mined).2 =
    Err (JMsg "nonce lane has no reserved operation to sign") /\
  (run_lane_op ok_env OpCancel a_mined).2 =
    Err (JMsg "only a reserved unsigned nonce can be cancelled") /\
  (run_lane_op ok_env (OpReserve "c" "p" demo_call) a_mined).2 =
    Err (JMsg "journal nonce is already owned by another operation").
Proof.
  assert (Hb : status <$> operations a_mined.2 !! "b"%string = Some IntentRecorded)
    by (vm_compute; reflexivity).
  assert (Hst : l_state a_mined.1 = LReady 6) by (vm_compute; reflexivity).
  split; [apply b_reserved_coherent|].
  split; [exists (mkIdentity "b" 1 7 6 None); vm_compute; reflexivity|].
  split; [exact Hst|]. split; [|split; [exact Hb|split_and!; vm_compute; reflexivity]].
  assert (Hfor : for_wallet (l_chain_id a_mined.1) (l_wallet a_mined.1) <$>
                   operations a_mined.2 !! "b"%string = Some true) by (vm_compute; reflexivity).
  destruct a_mined as [l j]. simpl in *. unfold coherent. rewrite Hst. intros [_ Hq].
  destruct (operations j !! "b"%string) as [o|] eqn:Eo; [|done]. simpl in Hb, Hfor.
  injection Hb as Hb. injection Hfor as Hfor. specialize (Hq "b"%string o Eo ltac:(done) Hfor).
  by rewrite Hb in Hq.
Qed.

Lemma b_reserved_steps : rtc lane_step s0 b_reserved.
Proof.
  eapply rtc_l; [apply s0_s1|]. eapply rtc_l; [apply s1_s2|]. eapply (rtc_l _ _ a_sent).
  { split; [vm_compute; reflexivity|]. by exists ok_env, (OpBroadcast 77). }
  apply rtc_once. split; [vm_compute; reflexivity|]. exists ok_env, (OpReserve "b" "p" demo_call). split; [|done].
  assert (E : l_state a_sent.1 = LReady 6) by (vm_compute; reflexivity). rewrite E. exact reserve_b_typed.
Qed.

(** The run up to the second reservation is coherent; the receipt of the first
    transaction is what ends it. *)
Lemma lane_coherence_witness :
  coherent b_reserved /\ ~ coherent a_mined /\
  exists a b, rtc lane_step s0 a /\ coherent a /\ early_receipt a b /\ rtc lane_step b a_mined.
Proof.
  split; [exact b_reserved_coherent|]. destruct receipt_drops_reservation as (_ & _ & _ & Hn & _). split; [exact Hn|].
  destruct (lane_coherence s0 a_mined s0_coherent) as [Hc|He]; [|destruct (Hn Hc)|exact He].
  eapply rtc_r; [exact b_reserved_steps|]. split; [vm_compute; reflexivity|].
  by exists ok_env, (OpReceipt (mkReceipt 77 100 1)).
Defined.
