(* ===== verification/RebalanceJournal.v ===== *)
(** * The rebalance execution journal ([src/src/rebalance/executor.rs])

    A transfer between the exchange and a wallet is reserved, and each step of it
    is journaled before and after the external call it belongs to.  The file is a
    list of bytes; an append takes the clock and a possible write fault.  JSON,
    SHA-256 and the text of 256-bit integers are the interface [RebalanceCodec].
    [RebalanceMemory] is what a replay of the file rebuilds. *)
From Stdlib Require Import Lia.
From stdpp Require Import base gmap strings numbers list fin_maps pretty.
From S2P Require Import Prelude LineLog ExecutionPlan Planner.

Definition REBALANCE_VERSION : Z := 1.
Definition REBALANCE_MAX_LINE : Z := 64 * 1024.
Definition REBALANCE_MAX_REASON : Z := 1024.
Definition MAX_CORRECTED_QUARANTINE_REOPENS : Z := 4.
Definition MAX_PREMUTATION_CAPITAL_PREFLIGHT_REOPENS : Z := 5.
Definition MAX_UNINDEXED_MASTER_TRANSFER_REOPENS : Z := 2.
Definition MAX_TRAVEL_RULE_OWNERSHIP_REJECTION_RETRIES : Z := 3.
Definition MAX_TRAVEL_RULE_OWNERSHIP_REJECTION_REOPENS : Z := MAX_TRAVEL_RULE_OWNERSHIP_REJECTION_RETRIES - 1.
Definition TRAVEL_RULE_BINANCE_WITHDRAWAL_API_MODE : string := "travel_rule_ae_self_owned".
Definition SCOPE_SCHEMA_VERSION : Z := 2.

(** ** Data *)
Inductive RebalanceExecutionAuthority := WorldChainV12 | ArbitrumFullLive | LineaFullLive.
#[global] Instance RebalanceExecutionAuthority_eq_dec : EqDecision RebalanceExecutionAuthority.
Proof. solve_decision. Defined.

Definition strategy_id (a : RebalanceExecutionAuthority) : string :=
  match a with
  | WorldChainV12 => "rebalance-world-chain-v12"
  | ArbitrumFullLive => "rebalance-arbitrum-usdc-esp"
  | LineaFullLive => "rebalance-linea-usdt-usdc"
  end.

Record RebalanceExecutionRequest := mkRebalanceRequest {
  rq_authority : RebalanceExecutionAuthority;
  rq_token_symbol : string;
  rq_token_decimals : Z;
  rq_token_contract : Z;
  rq_wallet_owner : Z;
  rq_action : RebalanceAction;
  rq_binance_balance_before : Z;
  rq_wallet_balance_before : Z;
  rq_revalidation_start_balance : Z;
  rq_maximum_fee : option Z;
  rq_approval_session_id : option string;
}.

Record RebalanceJournalScope := mkRebalanceScope {
  rs_schema_version : Z; rs_account_id : string; rs_network_id : string; rs_strategy_id : string;
}.
#[global] Instance RebalanceJournalScope_eq_dec : EqDecision RebalanceJournalScope.
Proof. solve_decision. Defined.

Record RebalanceExecutionIntent := mkRebalanceIntent {
  ri_scope : option RebalanceJournalScope;
  ri_operation_id : string;
  ri_fingerprint : string;
  ri_withdraw_order_id : string;
  ri_token_symbol : string;
  ri_token_decimals : Z;
  ri_token_contract : Z;
  ri_wallet_owner : Z;
  ri_direction : Direction;
  ri_route : Route;
  ri_amount : Z;
  ri_binance_balance_before : Z;
  ri_wallet_balance_before : Z;
  ri_revalidation_start_balance : Z;
  ri_maximum_fee_base_units : option string;
  ri_approval_session_id : option string;
}.
#[global] Instance RebalanceExecutionIntent_eq_dec : EqDecision RebalanceExecutionIntent.
Proof. solve_decision. Defined.

Definition pending_transfer (i : RebalanceExecutionIntent) : PendingTransfer :=
  match ri_direction i with
  | BinanceToWallet => mkPending Binance Wallet (ri_amount i)
  | WalletToBinance => mkPending Wallet Binance (ri_amount i)
  end.

Inductive RebalanceExecutionProgress :=
  | IntentRecorded
  | BinanceTransferSubmitted (transaction_id bridge_balance_before : Z)
  | BinanceTransferCompleted (transaction_id bridge_balance_before : Z)
  | BinanceWithdrawalSubmissionStarted (api_mode : string) (bridge_balance_before reconciliation_queries : Z)
  | BinanceWithdrawalRetryAuthorized (api_mode : string)
      (bridge_balance_before master_free_base_units master_locked_base_units wallet_balance_base_units : Z)
  | BinanceMasterReturnSubmissionStarted (client_transaction_id : string)
      (revalidation_binance_balance revalidation_wallet_balance revalidation_required_withdrawal reconciliation_queries : Z)
  | BinanceMasterReturnSubmitted (client_transaction_id : string)
      (transaction_id revalidation_binance_balance revalidation_wallet_balance revalidation_required_withdrawal : Z)
  | BinanceWithdrawalSubmitted (submission_reference : string) (bridge_balance_before : Z)
  | FundsOnBridge (withdrawal_id transaction_id : string) (received_base_units : Z)
  | ApprovalMined (chain_id transaction_hash input_amount : Z)
  | BridgePrepared (origin_chain_id input_amount target : Z) (calldata : list Z)
      (calldata_hash minimum_output_amount destination_balance_before : Z)
  | BridgeMined (origin_chain_id transaction_hash minimum_output_amount destination_balance_before : Z)
  | AcrossFilled (fill_transaction_hash received_base_units : Z)
  | DepositTransferMined (chain_id transaction_hash : Z)
  | DepositQuestionnaireSubmissionStarted (chain_id transaction_hash : Z) (deposit_id : string)
  | BinanceCredited (deposit_id : string) (credited_base_units : Z)
  | Completed (binance_balance_after wallet_balance_after : Z)
  | CancelledStale (master_return_transaction_id revalidation_binance_balance revalidation_wallet_balance
      revalidation_required_withdrawal : Z)
  | Failed (reason : string)
  | Quarantined (reason : string).
#[global] Instance RebalanceExecutionProgress_eq_dec : EqDecision RebalanceExecutionProgress.
Proof. solve_decision. Defined.

Definition terminal (p : RebalanceExecutionProgress) : bool :=
  match p with Completed _ _ | CancelledStale _ _ _ _ | Failed _ | Quarantined _ => true | _ => false end.
Definition is_intent (p : RebalanceExecutionProgress) : bool := match p with IntentRecorded => true | _ => false end.
Definition is_quarantined (p : RebalanceExecutionProgress) : bool := match p with Quarantined _ => true | _ => false end.

Record RebalanceExecutionOperation := mkRebalanceOperation {
  ro_intent : RebalanceExecutionIntent; ro_progress : RebalanceExecutionProgress;
}.
#[global] Instance RebalanceExecutionOperation_eq_dec : EqDecision RebalanceExecutionOperation.
Proof. solve_decision. Defined.
Abbreviation Operations := (gmap string RebalanceExecutionOperation).

(** What a replay rebuilds. *)
Record RebalanceMemory := mkRebalanceMemory {
  rm_operations : Operations;
  rm_started_at : gmap string Z;
  rm_before_quarantine : gmap string RebalanceExecutionProgress;
  rm_reopens : gmap string Z;
  rm_unindexed_reopens : gmap string Z;
  rm_ownership_reopens : gmap string Z;
  rm_next_sequence : Z;
}.
Record RebalanceExecutionJournal := mkRebalanceJournal {
  rj_file : list Z; rj_memory : RebalanceMemory; rj_poisoned : bool;
}.

Record RebalancePayload := mkRebalancePayload {
  rp_version : Z; rp_sequence : Z; rp_recorded_at_unix_ms : Z; rp_operation : RebalanceExecutionOperation;
}.
Record RebalanceRecord := mkRebalanceRecord { rr_payload : RebalancePayload; rr_checksum : string }.
(** A record as it is read: the payload in the bytes of the file. *)
Record RawRebalanceRecord := mkRawRecord { rw_payload : list Z; rw_checksum : string }.

Class RebalanceCodec := {
  rebalance_payload_to_vec : RebalancePayload -> option (list Z);
  rebalance_record_to_vec : RebalanceRecord -> option (list Z);
  rebalance_raw_from_slice : list Z -> option RawRebalanceRecord;
  rebalance_payload_from_str : list Z -> option RebalancePayload;
  rebalance_request_to_vec : RebalanceExecutionRequest -> option (list Z);
  rebalance_sha256_hex : list Z -> string;
  u256_text : Z -> string;
  parse_u256 : string -> option Z;
}.
(** The JSON of a record holds the JSON of its payload and no raw line feed, and
    the payload parses back; a digest is 64 hexadecimal digits; a printed 256-bit
    integer parses back. *)
Class RebalanceCodecLaws `{RebalanceCodec} : Prop := {
  rebalance_roundtrip r bs : rebalance_record_to_vec r = Some bs ->
    exists raw, rebalance_payload_to_vec (rr_payload r) = Some raw /\
      rebalance_raw_from_slice bs = Some (mkRawRecord raw (rr_checksum r));
  rebalance_payload_roundtrip p raw : rebalance_payload_to_vec p = Some raw -> rebalance_payload_from_str raw = Some p;
  rebalance_one_line r bs : rebalance_record_to_vec r = Some bs -> 10 ∉ bs;
  rebalance_digest bs : String.length (rebalance_sha256_hex bs) = 64%nat /\ bytes_all is_ascii_hexdigit (rebalance_sha256_hex bs) = true;
  rebalance_u256 v : uint 256 v -> parse_u256 (u256_text v) = Some v;
}.

(** ** Text *)
Definition ascii_lower (c : Ascii.ascii) : Ascii.ascii :=
  if is_ascii_uppercase c then Ascii.ascii_of_N (Ascii.N_of_ascii c + 32) else c.
Fixpoint to_ascii_lowercase (s : string) : string :=
  match s with EmptyString => EmptyString | String c s' => String (ascii_lower c) (to_ascii_lowercase s') end.
Fixpoint str_contains (s needle : string) : bool :=
  starts_with s needle || match s with EmptyString => false | String _ s' => str_contains s' needle end.
Definition str_eqb (a b : string) : bool := bool_decide (a = b).
Definition one_of (s : string) (l : list string) : bool := existsb (str_eqb s) l.
Definition str_take (n : nat) (s : string) : string := String.substring 0 n s.

Definition symbol_byte (c : Ascii.ascii) : bool := is_ascii_uppercase c || is_ascii_digit c.
Definition valid_symbol (s : string) : bool := negb (str_is_empty s) && (str_len s <=? 16) && bytes_all symbol_byte s.
Definition session_byte (c : Ascii.ascii) : bool :=
  is_ascii_alphanumeric c || byte_in 45 45 c || byte_in 95 95 c || byte_in 58 58 c.

(** ** Requests and operations *)
Definition production (a : RebalanceExecutionAuthority) : bool :=
  match a with ArbitrumFullLive | LineaFullLive => true | WorldChainV12 => false end.

Definition authority_matches_route (a : RebalanceExecutionAuthority) (r : Route) : bool :=
  match a, r with
  | WorldChainV12, Direct _ chain_id => chain_id =? 480
  | WorldChainV12, Across _ _ wallet_chain_id => wallet_chain_id =? 480
  | ArbitrumFullLive, Direct network chain_id => (chain_id =? 42161) && str_eqb network "ARBITRUM"
  | LineaFullLive, Across network bridge wallet => (bridge =? 10) && (wallet =? 59144) && str_eqb network "OPTIMISM"
  | _, _ => false
  end.

Definition within_balance (d : Direction) (amount binance_before wallet_before : Z) (binance_error wallet_error : string) : TRes unit :=
  match d with
  | BinanceToWallet => ensure (amount <=? binance_before) binance_error
  | WalletToBinance => ensure (amount <=? wallet_before) wallet_error
  end.

Definition threshold_covered (start binance_before wallet_before : Z) (e1 e2 e3 : string) : TRes unit :=
  let? total := or_err (checked_add 256 binance_before wallet_before) e1 in
  let? required := or_err (checked_mul 256 start 2) e2 in
  ensure (required <=? total) e3.

Definition validate_request (r : RebalanceExecutionRequest) : TRes unit :=
  ensure! valid_symbol (rq_token_symbol r) else "rebalance executor token symbol is invalid"%string ;;
  ensure! rq_token_decimals r <=? 36 else "rebalance executor token decimals are invalid"%string ;;
  ensure! negb (rq_token_contract r =? 0) else "rebalance executor token contract is zero"%string ;;
  ensure! negb (rq_wallet_owner r =? 0) else "rebalance executor wallet owner is zero"%string ;;
  ensure! negb (amount (rq_action r) =? 0) else "rebalance executor amount is zero"%string ;;
  ensure! negb (rq_revalidation_start_balance r =? 0) else "rebalance executor revalidation start balance is zero"%string ;;
  ensure! authority_matches_route (rq_authority r) (aroute (rq_action r))
    else "rebalance execution authority does not own the selected route"%string ;;
  ensure! Bool.eqb (production (rq_authority r))
            (bool_decide (is_Some (rq_maximum_fee r)) && bool_decide (is_Some (rq_approval_session_id r)))
    else "only production rebalance requests carry fee and approval-session authority"%string ;;
  ensure! production (rq_authority r) || (bool_decide (rq_maximum_fee r = None) && bool_decide (rq_approval_session_id r = None))
    else "non-production rebalance request carries direct production authority"%string ;;
  ensure! match rq_maximum_fee r with
          | Some fee => bool_decide (direction (rq_action r) = WalletToBinance) || negb (fee =? 0)
          | None => true
          end else "rebalance Binance withdrawal maximum fee is zero"%string ;;
  let? _ := within_balance (direction (rq_action r)) (amount (rq_action r)) (rq_binance_balance_before r) (rq_wallet_balance_before r)
              "rebalance executor amount exceeds Binance balance" "rebalance executor amount exceeds wallet balance" in
  threshold_covered (rq_revalidation_start_balance r) (rq_binance_balance_before r) (rq_wallet_balance_before r)
    "rebalance executor request balance overflow" "rebalance executor revalidation threshold overflow"
    "rebalance executor revalidation threshold exceeds total inventory".

Definition direct_scope (i : RebalanceExecutionIntent) : bool :=
  match ri_scope i with Some s => one_of (rs_network_id s) ["chain:42161"; "chain:59144"]%string | None => false end.

Section codec.
Context `{EvmText} `{RebalanceCodec}.

Definition validate_fee_authority (i : RebalanceExecutionIntent) : TRes unit :=
  match ri_maximum_fee_base_units i with
  | Some text =>
      let? fee := or_err (parse_u256 text) "rebalance canary maximum fee is not a uint256"%string in
      ensure! bool_decide (ri_direction i = WalletToBinance) || negb (fee =? 0)
        else "rebalance canary Binance withdrawal maximum fee is zero"%string ;;
      ensure! direct_scope i else "direct rebalance fee authority has the wrong journal scope"%string ;;
      match ri_approval_session_id i with
      | Some session => ensure ((8 <=? str_len session) && (str_len session <=? 64) && bytes_all session_byte session)
                          "rebalance approval session id is invalid"%string
      | None => Ok tt
      end
  | None => ensure (bool_decide (ri_approval_session_id i = None))
              "rebalance intent has an approval session without canary fee authority"%string
  end.

Definition validate_operation (o : RebalanceExecutionOperation) : TRes unit :=
  let i := ro_intent o in
  ensure! negb (str_is_empty (ri_operation_id i)) && (str_len (ri_operation_id i) <=? 96) else "rebalance operation id is invalid"%string ;;
  ensure! (str_len (ri_fingerprint i) =? 64) && bytes_all is_ascii_hexdigit (ri_fingerprint i)
    else "rebalance operation fingerprint is invalid"%string ;;
  ensure! (8 <=? str_len (ri_withdraw_order_id i)) && (str_len (ri_withdraw_order_id i) <=? 64)
          && bytes_all is_ascii_alphanumeric (ri_withdraw_order_id i) else "rebalance withdrawal client id is invalid"%string ;;
  ensure! negb (ri_amount i =? 0) else "rebalance operation amount is zero"%string ;;
  ensure! valid_symbol (ri_token_symbol i) else "rebalance operation token symbol is invalid"%string ;;
  ensure! ri_token_decimals i <=? 36 else "rebalance operation token decimals are invalid"%string ;;
  ensure! negb (ri_token_contract i =? 0) && negb (ri_wallet_owner i =? 0) else "rebalance operation token contract or wallet is zero"%string ;;
  let? _ := within_balance (ri_direction i) (ri_amount i) (ri_binance_balance_before i) (ri_wallet_balance_before i)
              "rebalance operation amount exceeds Binance balance" "rebalance operation amount exceeds wallet balance" in
  let? _ := if ri_revalidation_start_balance i =? 0 then Ok tt
            else threshold_covered (ri_revalidation_start_balance i) (ri_binance_balance_before i) (ri_wallet_balance_before i)
                   "rebalance operation balance overflow" "rebalance operation revalidation threshold overflow"
                   "rebalance operation revalidation threshold exceeds total inventory" in
  ensure! match ro_progress o with
          | Failed reason | Quarantined reason => negb (str_is_empty reason) && (str_len reason <=? REBALANCE_MAX_REASON)
          | _ => true
          end else "rebalance failure reason is invalid"%string ;;
  validate_fee_authority i.
End codec.

(** ** Transitions *)
Inductive TransitionOrigin := JournalReplay | LiveAppend.
Definition is_replay (o : TransitionOrigin) : bool := match o with JournalReplay => true | LiveAppend => false end.

Definition ownership_guard_quarantine (reason : string) : bool :=
  one_of reason
    ["Binance Travel Rule ownership verification is not unique for the exact wallet and network";
     "Binance Travel Rule ownership verification is absent for the exact wallet, network, and token";
     "Binance Travel Rule ownership verification is absent for the exact wallet and network"]%string.
Definition signature_encoding_quarantine (reason : string) : bool :=
  str_eqb reason "Binance Travel Rule withdrawal submission failed with HTTP 400 Bad Request, code -1022: Signature for this request is not valid.".
Definition retryable_travel_rule_ownership_failure (reason : string) : bool :=
  str_eqb reason "terminal Binance Travel Rule withdrawal rejection: Binance Travel Rule withdrawal submission failed with HTTP 400 Bad Request, code -4024: [031031] User does not own this currency.".
Definition unindexed_master_transfer_quarantine (reason : string) : bool :=
  str_eqb reason "unindexed Binance master-transfer retry found staged master inventory".
Definition destination_change_quarantine (reason : string) : bool :=
  str_eqb reason "unindexed Binance withdrawal retry found a destination-wallet balance change".
Definition no_indexed_transfer_quarantine (reason : string) : bool :=
  str_eqb reason "rebalance intent has no indexed Binance master transfer; operator review required".

Definition retryable_travel_rule_ownership_reopen (previous next : RebalanceExecutionProgress) : bool :=
  match previous, next with
  | Failed reason, BinanceWithdrawalSubmissionStarted mode _ queries =>
      (queries =? 0) && retryable_travel_rule_ownership_failure reason && str_eqb mode TRAVEL_RULE_BINANCE_WITHDRAWAL_API_MODE
  | _, _ => false
  end.
Definition retryable_unindexed_master_transfer_reopen (previous next : RebalanceExecutionProgress) : bool :=
  match previous, next with Quarantined reason, IntentRecorded => unindexed_master_transfer_quarantine reason | _, _ => false end.

Definition corrected_guard_quarantine (reason : string) : bool :=
  destination_change_quarantine reason || no_indexed_transfer_quarantine reason || unindexed_master_transfer_quarantine reason
  || ownership_guard_quarantine reason || signature_encoding_quarantine reason.
Definition retryable_premutation_capital_preflight_quarantine (reason : string) (before : RebalanceExecutionProgress) : bool :=
  is_intent before && (starts_with (to_ascii_lowercase reason) "binance capital configuration request failed:"
                       || str_eqb reason "decimal exceeds token precision").
Definition header_quarantine (reason : string) : bool :=
  one_of reason ["JSON-RPC error -32000: header not found";
                 "JSON-RPC error -32000: requested block ahead of current block and the hash is not currently canonical"]%string.
Definition retryable_post_credit_settlement_quarantine (reason : string) (before : RebalanceExecutionProgress) : bool :=
  match before with BinanceCredited _ _ => header_quarantine reason | _ => false end.
Definition corrected_across_deposit_chain_quarantine (i : RebalanceExecutionIntent) (reason : string) (before : RebalanceExecutionProgress) : bool :=
  match ri_route i, ri_direction i, before with
  | Across _ bridge wallet, WalletToBinance, DepositTransferMined chain_id _ =>
      str_eqb reason "illegal rebalance executor state transition" && negb (bridge =? wallet) && (chain_id =? bridge)
  | _, _, _ => false
  end.
Definition across_fill_timeout_quarantine (reason : string) : bool := str_eqb reason "timed out waiting for Across fill".
Definition consumed_nonce_deposit_quarantine (reason : string) : bool :=
  let reason := to_ascii_lowercase reason in
  str_contains reason "nonce too low" || starts_with reason "consumed-nonce deposit recovery attempt failed:"
  || starts_with reason "binance capital configuration request failed:".
Definition dex_unknown_quarantine (reason : string) : bool := starts_with reason "DEX outcome unknown:".

Definition reconciled_direct_deposit_transition (i : RebalanceExecutionIntent) (previous next : RebalanceExecutionProgress) : bool :=
  match ri_route i, ri_direction i, previous, next with
  | Direct network chain_id, WalletToBinance, Quarantined reason, DepositTransferMined mined_chain_id hash =>
      (((chain_id =? 42161) && str_eqb network "ARBITRUM") || ((chain_id =? 59144) && str_eqb network "LINEA"))
      && (chain_id =? mined_chain_id) && dex_unknown_quarantine reason && negb (hash =? 0)
  | _, _, _, _ => false
  end.
Definition reconciled_across_fill_transition (i : RebalanceExecutionIntent) (previous next : RebalanceExecutionProgress) : bool :=
  match ri_route i, previous, next with
  | Across _ _ _, Quarantined reason, AcrossFilled hash received =>
      across_fill_timeout_quarantine reason && negb (hash =? 0) && negb (received =? 0)
  | _, _, _ => false
  end.
Definition reconciled_consumed_nonce_deposit_transition (i : RebalanceExecutionIntent) (previous next : RebalanceExecutionProgress) : bool :=
  match ri_route i, ri_direction i, previous, next with
  | Across _ bridge _, WalletToBinance, Quarantined reason, AcrossFilled hash received =>
      (bridge =? 10) && consumed_nonce_deposit_quarantine reason && negb (hash =? 0) && negb (received =? 0)
  | _, _, _, _ => false
  end.

Definition approved_terminal_retry (previous next : RebalanceExecutionProgress) (origin : TransitionOrigin) : bool :=
  match previous, next with
  | Failed reason, BinanceWithdrawalSubmissionStarted mode _ _ =>
      (str_contains reason "approved deterministic Travel Rule rejection"
       && (str_eqb mode "standard" || (is_replay origin && one_of mode ["local_entity"; "travel_rule"]%string)))
      || (str_eqb reason "terminal Binance local-entity withdrawal rejection: Binance local-entity withdrawal submission failed with HTTP 400 Bad Request, code -4024: [031031] User does not own this currency."
          && str_eqb mode "standard")
      || (retryable_travel_rule_ownership_failure reason && str_eqb mode TRAVEL_RULE_BINANCE_WITHDRAWAL_API_MODE)
  | _, _ => false
  end.
Definition approved_terminal_manual_completion (previous next : RebalanceExecutionProgress) : bool :=
  match previous, next with
  | Failed reason, Completed _ _ =>
      str_eqb reason "terminal Binance standard withdrawal rejection after approved local-entity endpoint correction: Binance standard withdrawal submission failed with HTTP 400 Bad Request, code -4104: Please note that withdrawals are not permitted due to travel rule restrictions. To facilitate the withdrawal process, please refer to Travel Rule documentation."
  | _, _ => false
  end.

(** The quarantines that are reopened at the next progress. *)
Definition approved_quarantine_retry (i : RebalanceExecutionIntent) (previous next : RebalanceExecutionProgress) : bool :=
  match previous with
  | Quarantined reason =>
      match next with
      | BinanceWithdrawalSubmissionStarted mode _ queries =>
          (destination_change_quarantine reason && str_eqb mode "travel_rule_ae_self_owned" && (queries =? 1))
          || (ownership_guard_quarantine reason
              && one_of mode ["travel_rule_required_after_standard_-4104"; "travel_rule_ae_self_owned"]%string && (queries =? 0))
          || (signature_encoding_quarantine reason && str_eqb mode "travel_rule_ae_self_owned" && (queries =? 0))
      | BinanceWithdrawalRetryAuthorized mode _ _ _ _ => ownership_guard_quarantine reason && str_eqb mode "travel_rule_ae_self_owned"
      | IntentRecorded => no_indexed_transfer_quarantine reason || unindexed_master_transfer_quarantine reason
      | BinanceCredited _ _ => header_quarantine reason
      | _ => false
      end
      || reconciled_direct_deposit_transition i previous next
      || reconciled_across_fill_transition i previous next
      || reconciled_consumed_nonce_deposit_transition i previous next
      || retryable_premutation_capital_preflight_quarantine reason next
      || corrected_across_deposit_chain_quarantine i reason next
  | _ => false
  end.

(** The transitions of the two routes. *)
Definition same_return (a1 a2 a3 b1 b2 b3 : Z) : bool := (a1 =? b1) && (a2 =? b2) && (a3 =? b3).

Definition withdrawal_transition (previous next : RebalanceExecutionProgress) : bool :=
  match previous, next with
  | IntentRecorded, BinanceTransferSubmitted _ _ => true
  | BinanceTransferSubmitted _ _, BinanceTransferCompleted _ _ => true
  | BinanceTransferCompleted _ _, BinanceWithdrawalSubmissionStarted _ _ _ => true
  | BinanceTransferCompleted _ _, BinanceWithdrawalSubmitted _ _ => true
  | BinanceWithdrawalSubmissionStarted _ _ _, BinanceWithdrawalSubmitted _ _ => true
  | BinanceWithdrawalSubmissionStarted previous_mode _ p, BinanceWithdrawalSubmissionStarted next_mode _ n =>
      (str_eqb previous_mode next_mode && (p =? 0) && (n =? 1))
      || (str_eqb previous_mode "standard" && str_eqb next_mode "travel_rule_required_after_standard_-4104" && (p =? 0) && (n =? 0))
      || (str_eqb previous_mode "travel_rule_required_after_standard_-4104" && str_eqb next_mode "travel_rule_ae_self_owned" && (p =? 0) && (n =? 0))
  | BinanceWithdrawalSubmissionStarted previous_mode _ p, BinanceWithdrawalRetryAuthorized next_mode _ _ _ _ =>
      (p =? 1) && str_eqb previous_mode next_mode
  | BinanceWithdrawalRetryAuthorized previous_mode _ _ _ _, BinanceWithdrawalSubmissionStarted next_mode _ n =>
      (n =? 0) && str_eqb previous_mode next_mode
  | BinanceWithdrawalSubmissionStarted _ _ p, BinanceMasterReturnSubmissionStarted _ _ _ _ n => (p =? 1) && (n =? 0)
  | BinanceWithdrawalRetryAuthorized _ _ _ _ _, BinanceMasterReturnSubmissionStarted _ _ _ _ n => n =? 0
  | BinanceMasterReturnSubmissionStarted c a1 a2 a3 p, BinanceMasterReturnSubmissionStarted c' b1 b2 b3 n =>
      (p =? 0) && (n =? 1) && str_eqb c c' && same_return a1 a2 a3 b1 b2 b3
  | BinanceMasterReturnSubmissionStarted c a1 a2 a3 p, BinanceMasterReturnSubmitted c' _ b1 b2 b3 =>
      (p =? 1) && str_eqb c c' && same_return a1 a2 a3 b1 b2 b3
  | BinanceMasterReturnSubmitted _ id a1 a2 a3, CancelledStale id' b1 b2 b3 => (id =? id') && same_return a1 a2 a3 b1 b2 b3
  | _, _ => false
  end.

(** The credit of a mined deposit. *)
Definition credit_transition (previous next : RebalanceExecutionProgress) : bool :=
  match previous, next with
  | DepositTransferMined _ _, BinanceCredited _ _ => true
  | DepositTransferMined chain hash, DepositQuestionnaireSubmissionStarted chain' hash' _ => (chain =? chain') && (hash =? hash')
  | DepositQuestionnaireSubmissionStarted _ _ deposit, BinanceCredited deposit' _ => str_eqb deposit deposit'
  | BinanceCredited _ _, Completed _ _ => true
  | _, _ => false
  end.

Definition direct_transition (d : Direction) (previous next : RebalanceExecutionProgress) (origin : TransitionOrigin) : bool :=
  match d with
  | BinanceToWallet =>
      withdrawal_transition previous next ||
      match previous, next with
      | BinanceWithdrawalSubmissionStarted _ _ _, Completed _ _ => true
      | Failed _, BinanceWithdrawalSubmissionStarted _ _ _ => approved_terminal_retry previous next origin
      | Failed _, Completed _ _ => approved_terminal_manual_completion previous next
      | BinanceWithdrawalSubmitted _ _, Completed _ _ => true
      | _, _ => false
      end
  | WalletToBinance =>
      match previous, next with IntentRecorded, DepositTransferMined _ _ => true | _, _ => credit_transition previous next end
  end.

Definition across_transition (d : Direction) (previous next : RebalanceExecutionProgress) : bool :=
  match previous, next with
  | BridgePrepared _ _ _ _ _ _ _, BridgeMined _ _ _ _ => true
  | BridgePrepared _ _ _ _ _ _ _, BridgePrepared _ _ _ _ _ _ _ => true
  | BridgeMined _ _ _ _, AcrossFilled _ _ => true
  | ApprovalMined _ _ _, BridgePrepared _ _ _ _ _ _ _ => true
  | _, _ => false
  end ||
  match d with
  | BinanceToWallet =>
      withdrawal_transition previous next ||
      match previous, next with
      | BinanceWithdrawalSubmitted _ _, FundsOnBridge _ _ _ => true
      | FundsOnBridge _ _ _, ApprovalMined _ _ _ => true
      | FundsOnBridge _ _ _, BridgePrepared _ _ _ _ _ _ _ => true
      | AcrossFilled _ _, Completed _ _ => true
      | _, _ => false
      end
  | WalletToBinance =>
      match previous, next with
      | IntentRecorded, ApprovalMined _ _ _ => true
      | IntentRecorded, BridgePrepared _ _ _ _ _ _ _ => true
      | AcrossFilled _ _, DepositTransferMined _ _ => true
      | _, _ => credit_transition previous next
      end
  end.

Definition allowed_transition (i : RebalanceExecutionIntent) (previous next : RebalanceExecutionProgress) (origin : TransitionOrigin) : bool :=
  match ri_route i with
  | Direct _ _ => direct_transition (ri_direction i) previous next origin
  | Across _ _ _ => across_transition (ri_direction i) previous next
  end.

(** ** Evidence *)
Definition stale_master_return_client_id (i : RebalanceExecutionIntent) : string := "rc" +:+ str_take 30 (ri_fingerprint i).

Definition validate_master_return_evidence (i : RebalanceExecutionIntent) (client_transaction_id : string)
    (binance_balance wallet_balance required_withdrawal : Z) : TRes unit :=
  ensure! bool_decide (ri_direction i = BinanceToWallet) else "rebalance master-return evidence belongs to the wrong direction"%string ;;
  ensure! str_eqb client_transaction_id (stale_master_return_client_id i) else "rebalance master-return client id is not deterministic"%string ;;
  ensure! (required_withdrawal <? ri_amount i)
          || (negb (ri_revalidation_start_balance i =? 0) && (ri_revalidation_start_balance i <=? wallet_balance))
    else "rebalance stale cancellation is still required by current balances"%string ;;
  let? total := or_err (checked_add 256 binance_balance wallet_balance) "rebalance stale-cancellation balance overflow"%string in
  ensure (negb (total =? 0)) "rebalance stale-cancellation balances are zero"%string.

Definition validate_hash_text (s : string) : TRes unit :=
  ensure ((str_len s =? 66) && starts_with s "0x" && bytes_all is_ascii_hexdigit (String.substring 2 64 s))
    "rebalance transaction hash is invalid"%string.

Section evidence.
Context `{EvmText} `{RebalanceCodec}.

Definition validate_progress_evidence (i : RebalanceExecutionIntent) (p : RebalanceExecutionProgress) : TRes unit :=
  match p with
  | BinanceTransferSubmitted id _ | BinanceTransferCompleted id _ => ensure (0 <? id) "rebalance Binance transfer id is zero"%string
  | BinanceWithdrawalSubmissionStarted mode _ queries =>
      ensure! one_of mode ["local_entity"; "standard"; "travel_rule"; "travel_rule_required_after_standard_-4104"; "travel_rule_ae_self_owned"]%string
        else "rebalance Binance withdrawal submission API mode is invalid"%string ;;
      ensure (queries <=? 1) "rebalance Binance withdrawal reconciliation query limit exceeded"%string
  | BinanceWithdrawalRetryAuthorized mode _ free locked _ =>
      ensure! one_of mode ["standard"; "travel_rule_ae_self_owned"]%string else "rebalance Binance withdrawal retry API mode is invalid"%string ;;
      ensure! ri_amount i <=? free else "rebalance Binance withdrawal retry did not preserve sufficient master inventory"%string ;;
      ensure (locked =? 0) "rebalance Binance withdrawal retry retained locked master inventory"%string
  | BinanceMasterReturnSubmissionStarted client b w r queries =>
      let? _ := validate_master_return_evidence i client b w r in
      ensure (queries <=? 1) "rebalance master-return reconciliation query limit exceeded"%string
  | BinanceMasterReturnSubmitted client id b w r =>
      let? _ := validate_master_return_evidence i client b w r in
      ensure (0 <? id) "rebalance master-return id is zero"%string
  | BinanceWithdrawalSubmitted reference _ =>
      ensure (negb (str_is_empty reference) && (str_len reference <=? 128)) "rebalance Binance withdrawal submission reference is invalid"%string
  | FundsOnBridge withdrawal_id transaction_id received =>
      ensure! negb (str_is_empty withdrawal_id) else "rebalance withdrawal id is empty"%string ;;
      let? _ := validate_hash_text transaction_id in
      ensure (negb (received =? 0) && (received <=? ri_amount i)) "rebalance bridge receipt amount is invalid"%string
  | ApprovalMined chain _ input =>
      ensure! 0 <? chain else "rebalance transaction chain id is zero"%string ;;
      ensure (input <=? ri_amount i) "rebalance approval input exceeds the operation amount"%string
  | DepositTransferMined chain _ => ensure (0 <? chain) "rebalance transaction chain id is zero"%string
  | DepositQuestionnaireSubmissionStarted chain _ deposit =>
      ensure! 0 <? chain else "rebalance transaction chain id is zero"%string ;;
      ensure (negb (str_is_empty deposit) && (str_len deposit <=? 128)) "rebalance deposit questionnaire id is invalid"%string
  | BridgeMined chain _ minimum _ =>
      ensure! 0 <? chain else "rebalance bridge origin chain is zero"%string ;;
      ensure (negb (minimum =? 0)) "rebalance bridge minimum output is zero"%string
  | BridgePrepared chain input target calldata hash minimum _ =>
      ensure! 0 <? chain else "rebalance bridge origin chain is zero"%string ;;
      ensure! negb (input =? 0) else "rebalance bridge input is zero"%string ;;
      ensure! negb (target =? 0) else "rebalance bridge target is zero"%string ;;
      ensure! negb (bool_decide (calldata = [])) else "rebalance bridge calldata is empty"%string ;;
      ensure! keccak256 calldata =? hash else "rebalance bridge calldata hash does not match"%string ;;
      ensure (negb (minimum =? 0) && (minimum <=? input)) "rebalance bridge minimum output is invalid"%string
  | AcrossFilled _ received => ensure (negb (received =? 0)) "rebalance Across receipt is zero"%string
  | BinanceCredited deposit credited =>
      ensure! negb (str_is_empty deposit) else "rebalance Binance deposit id is empty"%string ;;
      ensure (negb (credited =? 0)) "rebalance Binance credit is zero"%string
  | Completed b w =>
      let? total := or_err (checked_add 256 b w) "rebalance completed balance overflow"%string in
      ensure (negb (total =? 0)) "rebalance completed balances are zero"%string
  | CancelledStale id b w r =>
      let? _ := validate_master_return_evidence i (stale_master_return_client_id i) b w r in
      ensure (0 <? id) "rebalance cancelled-stale master-return id is zero"%string
  | IntentRecorded | Failed _ | Quarantined _ => Ok tt
  end.

Definition validate_transition (i : RebalanceExecutionIntent) (previous next : RebalanceExecutionProgress) (origin : TransitionOrigin) : TRes unit :=
  ensure! negb (terminal previous) || approved_terminal_retry previous next origin || approved_terminal_manual_completion previous next
          || approved_quarantine_retry i previous next else "rebalance operation is already terminal"%string ;;
  if approved_quarantine_retry i previous next then validate_progress_evidence i next else
  match next with
  | Failed _ | Quarantined _ => Ok tt
  | _ =>
      ensure! allowed_transition i previous next origin else "illegal rebalance executor state transition"%string ;;
      validate_progress_evidence i next
  end.

Definition operation_key (o : RebalanceExecutionOperation) : string := ri_operation_id (ro_intent o).

Definition apply_snapshot (ops : Operations) (o : RebalanceExecutionOperation) (origin : TransitionOrigin) : TRes Operations :=
  let? _ := validate_operation o in
  let? _ := match ops !! operation_key o with
            | Some previous =>
                ensure! bool_decide (ro_intent previous = ro_intent o) else "rebalance operation intent changed"%string ;;
                validate_transition (ro_intent o) (ro_progress previous) (ro_progress o) origin
            | None => ensure (is_intent (ro_progress o)) "rebalance operation does not begin with an intent"%string
            end in
  Ok (<[operation_key o := o]> ops).

(** ** The memory under one record *)
Definition with_operations (m : RebalanceMemory) (ops : Operations) : RebalanceMemory :=
  mkRebalanceMemory ops (rm_started_at m) (rm_before_quarantine m) (rm_reopens m) (rm_unindexed_reopens m) (rm_ownership_reopens m)
    (rm_next_sequence m).
Definition with_before (m : RebalanceMemory) (before : gmap string RebalanceExecutionProgress) : RebalanceMemory :=
  mkRebalanceMemory (rm_operations m) (rm_started_at m) before (rm_reopens m) (rm_unindexed_reopens m) (rm_ownership_reopens m)
    (rm_next_sequence m).
Definition with_counts (m : RebalanceMemory) (reopens unindexed ownership : gmap string Z) : RebalanceMemory :=
  mkRebalanceMemory (rm_operations m) (rm_started_at m) (rm_before_quarantine m) reopens unindexed ownership (rm_next_sequence m).
Definition with_started (m : RebalanceMemory) (id : string) (at_ : Z) : RebalanceMemory :=
  mkRebalanceMemory (rm_operations m) (match rm_started_at m !! id with Some _ => rm_started_at m | None => <[id := at_]> (rm_started_at m) end)
    (rm_before_quarantine m) (rm_reopens m) (rm_unindexed_reopens m) (rm_ownership_reopens m) (rm_next_sequence m).
Definition with_sequence (m : RebalanceMemory) (sequence : Z) : RebalanceMemory :=
  mkRebalanceMemory (rm_operations m) (rm_started_at m) (rm_before_quarantine m) (rm_reopens m) (rm_unindexed_reopens m)
    (rm_ownership_reopens m) sequence.

Definition count_of (counts : gmap string Z) (id : string) : Z := default 0 (counts !! id).
(** The 8-bit counter after one more, and whether it fitted. *)
Definition bump (counts : gmap string Z) (id : string) (e : string) : gmap string Z * TRes unit :=
  match checked_add 8 (count_of counts id) 1 with
  | Some n => (<[id := n]> counts, Ok tt)
  | None => (<[id := count_of counts id]> counts, Err e)
  end.

Definition count_quarantine (id : string) (previous next : RebalanceExecutionProgress) : M RebalanceMemory string unit := fun m =>
  if is_quarantined next then (with_before m (<[id := previous]> (rm_before_quarantine m)), Ok tt)
  else if is_quarantined previous then
    let '(c, r) := bump (rm_reopens m) id "rebalance quarantine reopen count overflow" in
    (with_counts m c (rm_unindexed_reopens m) (rm_ownership_reopens m), r)
  else (m, Ok tt).
Definition count_ownership (id : string) (previous next : RebalanceExecutionProgress) : M RebalanceMemory string unit := fun m =>
  if retryable_travel_rule_ownership_reopen previous next then
    let '(c, r) := bump (rm_ownership_reopens m) id "Travel Rule ownership rejection reopen count overflow" in
    (with_counts m (rm_reopens m) (rm_unindexed_reopens m) c, r)
  else (m, Ok tt).
Definition count_unindexed (id : string) (previous next : RebalanceExecutionProgress) : M RebalanceMemory string unit := fun m =>
  if retryable_unindexed_master_transfer_reopen previous next then
    let '(c, r) := bump (rm_unindexed_reopens m) id "unindexed master-transfer reopen count overflow" in
    (with_counts m (rm_reopens m) c (rm_ownership_reopens m), r)
  else (m, Ok tt).

(** What a record after a previous one of the operation adds to the history. *)
Definition count_transition (id : string) (previous : option RebalanceExecutionProgress) (next : RebalanceExecutionProgress)
  : M RebalanceMemory string unit :=
  match previous with
  | None => mret tt
  | Some previous =>
      do! count_quarantine id previous next ;;
      do! count_ownership id previous next ;;
      count_unindexed id previous next
  end.

Definition bump_sequence : M RebalanceMemory string unit := fun m =>
  match checked_add 64 (rm_next_sequence m) 1 with
  | Some n => (with_sequence m n, Ok tt)
  | None => (m, Err "rebalance executor journal sequence overflow"%string)
  end.

(** ** The file *)
Definition rebalance_checksum (p : RebalancePayload) : TRes string :=
  let? bytes := or_err (rebalance_payload_to_vec p) "failed to encode rebalance checksum input"%string in
  Ok (rebalance_sha256_hex bytes).
Definition new_rebalance_record (p : RebalancePayload) : TRes RebalanceRecord :=
  let? c := rebalance_checksum p in Ok (mkRebalanceRecord p c).
Definition validate_rebalance_checksum (r : RawRebalanceRecord) : TRes unit :=
  ensure (bool_decide (rw_checksum r = rebalance_sha256_hex (rw_payload r))) "rebalance executor journal checksum mismatch"%string.

Definition replay_record (p : RebalancePayload) : M RebalanceMemory string unit := fun m =>
  let o := rp_operation p in
  let id := operation_key o in
  let m1 := with_started m id (rp_recorded_at_unix_ms p) in
  (do! count_transition id (ro_progress <$> rm_operations m !! id) (ro_progress o) ;;
   do m2 <- mget ;;
   do ops <- mlift (apply_snapshot (rm_operations m2) o JournalReplay) ;;
   do! mput (with_operations m2 ops) ;;
   bump_sequence) m1.

Definition replay_rebalance_line (m : RebalanceMemory) (line : list Z) : TRes RebalanceMemory :=
  ensure! Z.of_nat (length line) <=? REBALANCE_MAX_LINE else "rebalance executor journal record is too large"%string ;;
  ensure! bool_decide (last line = Some 10) else "rebalance executor journal ends with a partial record"%string ;;
  let? r := or_err (rebalance_raw_from_slice (take (length line - 1) line)) "rebalance executor journal contains invalid JSON"%string in
  let? _ := validate_rebalance_checksum r in
  let? payload := or_err (rebalance_payload_from_str (rw_payload r)) "rebalance executor journal payload is invalid"%string in
  ensure! rp_version payload =? REBALANCE_VERSION else "unsupported rebalance executor journal version"%string ;;
  ensure! rp_sequence payload =? rm_next_sequence m else "rebalance executor journal sequence mismatch"%string ;;
  let '(m', done) := replay_record payload m in
  let? _ := done in
  Ok m'.

Definition no_memory : RebalanceMemory := mkRebalanceMemory ∅ ∅ ∅ ∅ ∅ ∅ 0.

(** What [open] reads of a file that passed the path, permission and lock checks. *)
Definition open_rebalance (bytes : list Z) : TRes RebalanceExecutionJournal :=
  let? m := replay_lines replay_rebalance_line (split_lines bytes) no_memory in
  Ok (mkRebalanceJournal bytes m false).

(** The clock and the write of one append. *)
Record RebalanceEnv := mkRebalanceEnv { re_now_ms : TRes Z; re_write_fault : option nat }.

Definition prepare_rebalance (env : RebalanceEnv) (o : RebalanceExecutionOperation) (j : RebalanceExecutionJournal)
  : TRes (Z * Operations * list Z) :=
  ensure! negb (rj_poisoned j) else "rebalance executor journal is poisoned"%string ;;
  let? _ := validate_operation o in
  let? now := re_now_ms env in
  let? next := apply_snapshot (rm_operations (rj_memory j)) o LiveAppend in
  let? r := new_rebalance_record (mkRebalancePayload REBALANCE_VERSION (rm_next_sequence (rj_memory j)) now o) in
  let? encoded := or_err (rebalance_record_to_vec r) "failed to encode rebalance executor journal record"%string in
  ensure! Z.of_nat (length encoded) <? REBALANCE_MAX_LINE else "rebalance executor journal record is too large"%string ;;
  Ok (now, next, encoded ++ [10]).

(** After the durable write. *)
Definition commit_rebalance (now : Z) (next : Operations) (o : RebalanceExecutionOperation) : M RebalanceMemory string unit := fun m =>
  let id := operation_key o in
  let previous := ro_progress <$> rm_operations m !! id in
  (do! count_transition id previous (ro_progress o) ;;
   do m2 <- mget ;;
   do! mput (with_started m2 id now) ;;
   bump_sequence) (with_operations m next).

Abbreviation RM := (M RebalanceExecutionJournal string).

Definition append_rebalance (env : RebalanceEnv) (o : RebalanceExecutionOperation) : RM RebalanceExecutionOperation := fun j =>
  match prepare_rebalance env o j with
  | Err e => (j, Err e)
  | Ok (now, next, line) =>
      match re_write_fault env with
      | Some k => (mkRebalanceJournal (rj_file j ++ take k line) (rj_memory j) true,
                   Err "failed to durably append rebalance executor journal record"%string)
      | None => let '(m, r) := commit_rebalance now next o (rj_memory j) in
                (mkRebalanceJournal (rj_file j ++ line) m (rj_poisoned j), rmap (fun _ => o) r)
      end
  end.
End evidence.

(** ** Queries *)
Definition active_operations (m : RebalanceMemory) : list RebalanceExecutionOperation :=
  filter (fun o => terminal (ro_progress o) = false) (btree_values (rm_operations m)).
Definition active_operation (m : RebalanceMemory) : TRes (option RebalanceExecutionOperation) :=
  match active_operations m with
  | [] => Ok None
  | [o] => Ok (Some o)
  | _ => Err "multiple active rebalance operations in journal"%string
  end.
Definition quarantined_operations (m : RebalanceMemory) : list RebalanceExecutionOperation :=
  filter (fun o => is_quarantined (ro_progress o) = true) (btree_values (rm_operations m)).

(** The first quarantined operation that qualifies, when none is active. *)
Definition next_quarantined (m : RebalanceMemory)
    (qualifies : RebalanceExecutionIntent -> string -> option RebalanceExecutionProgress -> bool) : TRes (option RebalanceExecutionOperation) :=
  let? active := active_operation m in
  match active with
  | Some _ => Ok None
  | None =>
      Ok (List.find (fun o => match ro_progress o with
                              | Quarantined reason => qualifies (ro_intent o) reason (rm_before_quarantine m !! operation_key o)
                              | _ => false
                              end) (btree_values (rm_operations m)))
  end.

Definition next_reconcilable_direct_deposit_quarantine (m : RebalanceMemory) (chain : Z) (network : string) :=
  next_quarantined m (fun i reason before =>
    dex_unknown_quarantine reason && bool_decide (ri_direction i = WalletToBinance)
    && match ri_route i with Direct n c => (c =? chain) && str_eqb n network | _ => false end
    && bool_decide (before = Some IntentRecorded)).
Definition next_reconcilable_arbitrum_deposit_quarantine (m : RebalanceMemory) :=
  next_reconcilable_direct_deposit_quarantine m 42161 "ARBITRUM".
Definition next_reconcilable_across_fill_quarantine (m : RebalanceMemory) :=
  next_quarantined m (fun i reason before =>
    across_fill_timeout_quarantine reason && match ri_route i with Across _ _ _ => true | _ => false end
    && match before with Some (BridgeMined _ _ _ _) => true | _ => false end).
Definition next_reconcilable_consumed_nonce_deposit_quarantine (m : RebalanceMemory) :=
  next_quarantined m (fun i reason before =>
    consumed_nonce_deposit_quarantine reason && bool_decide (ri_direction i = WalletToBinance)
    && match ri_route i with Across _ bridge _ => bridge =? 10 | _ => false end
    && match before with Some (AcrossFilled _ _) => true | _ => false end).
Definition next_reconcilable_post_credit_settlement_quarantine (m : RebalanceMemory) :=
  next_quarantined m (fun i reason before =>
    match before with Some p => retryable_post_credit_settlement_quarantine reason p | None => false end).

Section calls.
Context `{EvmText} `{RebalanceCodec}.
#[local] Abbreviation RM := (M RebalanceExecutionJournal string).

Definition known_operation (id : string) : RM RebalanceExecutionOperation := fun j =>
  (j, or_err (rm_operations (rj_memory j) !! id) ("unknown rebalance operation " +:+ id)%string).
Definition before_quarantine (id : string) : RM (option RebalanceExecutionProgress) := fun j =>
  (j, Ok (rm_before_quarantine (rj_memory j) !! id)).

Definition advance (env : RebalanceEnv) (id : string) (p : RebalanceExecutionProgress) : RM RebalanceExecutionOperation :=
  do current <- known_operation id ;;
  do before <- before_quarantine id ;;
  do! mlift (ensure (negb (is_quarantined (ro_progress current)) || bool_decide (before = Some p))
               "quarantined rebalance may only reopen its exact prior durable progress"%string) ;;
  do! mlift (validate_transition (ro_intent current) (ro_progress current) p LiveAppend) ;;
  append_rebalance env (mkRebalanceOperation (ro_intent current) p).

Definition reopen_post_credit_settlement_quarantine (env : RebalanceEnv) (id : string) : RM RebalanceExecutionOperation :=
  do current <- known_operation id ;;
  do before <- before_quarantine id ;;
  match ro_progress current with
  | Quarantined reason =>
      do p <- mlift (or_err before "post-credit settlement quarantine has no prior durable progress"%string) ;;
      do! mlift (ensure (retryable_post_credit_settlement_quarantine reason p)
                   "rebalance quarantine is not an approved post-credit settlement retry"%string) ;;
      advance env id p
  | _ => mfail "rebalance operation is not quarantined"%string
  end.

Definition record_reconciled_direct_deposit (env : RebalanceEnv) (id : string) (chain hash : Z) : RM RebalanceExecutionOperation :=
  do current <- known_operation id ;;
  do before <- before_quarantine id ;;
  do! mlift (ensure (bool_decide (before = Some IntentRecorded))
               "reconciled direct deposit quarantine did not follow an exact recorded intent"%string) ;;
  do! mlift (ensure (reconciled_direct_deposit_transition (ro_intent current) (ro_progress current) (DepositTransferMined chain hash))
               "rebalance quarantine is not an approved reconciled direct deposit"%string) ;;
  append_rebalance env (mkRebalanceOperation (ro_intent current) (DepositTransferMined chain hash)).
Definition record_reconciled_arbitrum_deposit (env : RebalanceEnv) (id : string) (hash : Z) := record_reconciled_direct_deposit env id 42161 hash.

Definition record_reconciled_across_fill (env : RebalanceEnv) (id : string) (hash received : Z) : RM RebalanceExecutionOperation :=
  do current <- known_operation id ;;
  do before <- before_quarantine id ;;
  do previous <- mlift (or_err before "reconciled Across fill quarantine has no prior durable progress"%string) ;;
  match previous with
  | BridgeMined _ _ minimum _ =>
      do! mlift (ensure (minimum <=? received) "reconciled Across fill is below the journaled minimum"%string) ;;
      do! mlift (ensure (reconciled_across_fill_transition (ro_intent current) (ro_progress current) (AcrossFilled hash received))
                   "rebalance quarantine is not an approved reconciled Across fill"%string) ;;
      append_rebalance env (mkRebalanceOperation (ro_intent current) (AcrossFilled hash received))
  | _ => mfail "reconciled Across fill quarantine did not follow a mined bridge"%string
  end.

Definition record_reconciled_consumed_nonce_deposit (env : RebalanceEnv) (id : string) : RM RebalanceExecutionOperation :=
  do current <- known_operation id ;;
  do before <- before_quarantine id ;;
  do p <- mlift (or_err before "consumed-nonce deposit quarantine has no prior durable progress"%string) ;;
  do! mlift (ensure (reconciled_consumed_nonce_deposit_transition (ro_intent current) (ro_progress current) p)
               "rebalance quarantine is not an approved consumed-nonce deposit retry"%string) ;;
  append_rebalance env (mkRebalanceOperation (ro_intent current) p).

Definition ownership_retryable (m : RebalanceMemory) (o : RebalanceExecutionOperation) : bool :=
  match ro_progress o with Failed reason => retryable_travel_rule_ownership_failure reason | _ => false end
  && (count_of (rm_ownership_reopens m) (operation_key o) <? MAX_TRAVEL_RULE_OWNERSHIP_REJECTION_REOPENS).

Definition reopen_retryable_travel_rule_ownership_failure (env : RebalanceEnv) (id : string) : RM (option RebalanceExecutionOperation) := fun j =>
  (do active <- mlift (active_operation (rj_memory j)) ;;
   match active, rm_operations (rj_memory j) !! id with
   | None, Some o =>
       if match ro_progress o with Failed reason => retryable_travel_rule_ownership_failure reason | _ => false end
          && (count_of (rm_ownership_reopens (rj_memory j)) id <? MAX_TRAVEL_RULE_OWNERSHIP_REJECTION_REOPENS)
       then
         do reopened <- advance env id
              (BinanceWithdrawalSubmissionStarted TRAVEL_RULE_BINANCE_WITHDRAWAL_API_MODE (ri_wallet_balance_before (ro_intent o)) 0) ;;
         mret (Some reopened)
       else mret None
   | _, _ => mret None
   end) j.

(** The reopens of a quarantine so far, and how many there may be. *)
Definition reopen_budget (m : RebalanceMemory) (id reason : string) (before : RebalanceExecutionProgress) : Z * Z :=
  if unindexed_master_transfer_quarantine reason then (count_of (rm_unindexed_reopens m) id, MAX_UNINDEXED_MASTER_TRANSFER_REOPENS)
  else if retryable_premutation_capital_preflight_quarantine reason before
  then (count_of (rm_reopens m) id, MAX_PREMUTATION_CAPITAL_PREFLIGHT_REOPENS)
  else (count_of (rm_reopens m) id, MAX_CORRECTED_QUARANTINE_REOPENS).

Definition reopenable (m : RebalanceMemory) (o : RebalanceExecutionOperation) : option RebalanceExecutionProgress :=
  match ro_progress o, rm_before_quarantine m !! operation_key o with
  | Quarantined reason, Some before =>
      let '(count, maximum) := reopen_budget m (operation_key o) reason before in
      if maximum <=? count then None
      else if corrected_guard_quarantine reason || retryable_premutation_capital_preflight_quarantine reason before
              || corrected_across_deposit_chain_quarantine (ro_intent o) reason before
      then Some before else None
  | _, _ => None
  end.

Fixpoint find_reopenable (m : RebalanceMemory) (ops : list RebalanceExecutionOperation) : option (string * RebalanceExecutionProgress) :=
  match ops with
  | [] => None
  | o :: rest => match reopenable m o with Some p => Some (operation_key o, p) | None => find_reopenable m rest end
  end.

Definition reopen_next_retryable_quarantine (env : RebalanceEnv) : RM (option RebalanceExecutionOperation) := fun j =>
  let m := rj_memory j in
  (do active <- mlift (active_operation m) ;;
   match active with
   | Some _ => mret None
   | None =>
       match List.find (ownership_retryable m) (btree_values (rm_operations m)) with
       | Some o => reopen_retryable_travel_rule_ownership_failure env (operation_key o)
       | None =>
           match find_reopenable m (btree_values (rm_operations m)) with
           | None => mret None
           | Some (id, p) => do reopened <- advance env id p ;; mret (Some reopened)
           end
       end
   end) j.

(** ** Reserving a transfer *)
Definition scope_network (r : RebalanceExecutionRequest) : string :=
  match aroute (rq_action r) with
  | Direct _ chain_id => "chain:" +:+ pretty (Z.to_N chain_id)
  | Across _ bridge wallet => "chain:" +:+ pretty (Z.to_N (if bool_decide (rq_authority r = LineaFullLive) then wallet else bridge))
  end.

Definition request_fingerprint (r : RebalanceExecutionRequest) : TRes string :=
  let? bytes := or_err (rebalance_request_to_vec r) "failed to encode rebalance request"%string in
  Ok (rebalance_sha256_hex bytes).

Definition request_intent (r : RebalanceExecutionRequest) (fingerprint : string) (sequence : Z) : RebalanceExecutionIntent :=
  mkRebalanceIntent
    (Some (mkRebalanceScope SCOPE_SCHEMA_VERSION "binance:trading-subaccount" (scope_network r) (strategy_id (rq_authority r))))
    ("rebalance-" +:+ pretty (Z.to_N sequence) +:+ "-" +:+ str_take 16 fingerprint) fingerprint ("rb" +:+ str_take 30 fingerprint)
    (rq_token_symbol r) (rq_token_decimals r) (rq_token_contract r) (rq_wallet_owner r)
    (direction (rq_action r)) (aroute (rq_action r)) (amount (rq_action r))
    (rq_binance_balance_before r) (rq_wallet_balance_before r) (rq_revalidation_start_balance r)
    (u256_text <$> rq_maximum_fee r) (rq_approval_session_id r).

Definition reserve (env : RebalanceEnv) (r : RebalanceExecutionRequest) : RM RebalanceExecutionOperation := fun j =>
  (do! mlift (validate_request r) ;;
   do active <- mlift (active_operation (rj_memory j)) ;;
   do! mlift (ensure (bool_decide (active = None)) "another rebalance operation is active"%string) ;;
   do fingerprint <- mlift (request_fingerprint r) ;;
   append_rebalance env (mkRebalanceOperation (request_intent r fingerprint (rm_next_sequence (rj_memory j))) IntentRecorded)) j.

(** ** Risk *)
Record RebalanceRisk := mkRisk {
  rk_transfer_count : Z;
  rk_active_transfer_count : Z;
  rk_failed_transfer_count : Z;
  rk_token_a_debit : Z;
  rk_token_b_debit : Z;
  rk_token_a_maximum_fee : Z;
  rk_token_b_maximum_fee : Z;
  rk_additional_token_debit : gmap string Z;
  rk_additional_token_maximum_fee : gmap string Z;
  rk_first_started_at_unix_ms : option Z;
}.
Definition no_risk : RebalanceRisk := mkRisk 0 0 0 0 0 0 0 ∅ ∅ None.

Definition of_session (session : string) (o : RebalanceExecutionOperation) : bool :=
  direct_scope (ro_intent o) && bool_decide (ri_approval_session_id (ro_intent o) = Some session).
Definition failed_transfer (p : RebalanceExecutionProgress) : bool := match p with Failed _ | Quarantined _ => true | _ => false end.

Definition add_u256 (total v : Z) (e : string) : TRes Z := or_err (checked_add 256 total v) e.

Definition add_risk (started : gmap string Z) (k : RebalanceRisk) (o : RebalanceExecutionOperation) : TRes RebalanceRisk :=
  let i := ro_intent o in
  let symbol := ri_token_symbol i in
  let? count := or_err (checked_add 16 (rk_transfer_count k) 1) "rebalance transfer count overflow"%string in
  let active := rk_active_transfer_count k + (if terminal (ro_progress o) then 0 else 1) in
  let failed := rk_failed_transfer_count k + (if failed_transfer (ro_progress o) then 1 else 0) in
  let? debit := add_u256 (if str_eqb symbol "USDC" then rk_token_a_debit k else if str_eqb symbol "ESP" then rk_token_b_debit k
                          else count_of (rk_additional_token_debit k) symbol) (ri_amount i) "rebalance cumulative debit overflow" in
  let? text := or_err (ri_maximum_fee_base_units i) "rebalance journal operation has no fee authority"%string in
  let? fee := or_err (parse_u256 text) "rebalance fee authority is not a uint256"%string in
  let? fees := add_u256 (if str_eqb symbol "USDC" then rk_token_a_maximum_fee k else if str_eqb symbol "ESP" then rk_token_b_maximum_fee k
                         else count_of (rk_additional_token_maximum_fee k) symbol) fee "rebalance cumulative fee authority overflow" in
  let? at_ := or_err (started !! ri_operation_id i) "rebalance operation has no durable start timestamp"%string in
  let first := Some (match rk_first_started_at_unix_ms k with Some current => Z.min current at_ | None => at_ end) in
  Ok (if str_eqb symbol "USDC" then
        mkRisk count active failed debit (rk_token_b_debit k) fees (rk_token_b_maximum_fee k)
          (rk_additional_token_debit k) (rk_additional_token_maximum_fee k) first
      else if str_eqb symbol "ESP" then
        mkRisk count active failed (rk_token_a_debit k) debit (rk_token_a_maximum_fee k) fees
          (rk_additional_token_debit k) (rk_additional_token_maximum_fee k) first
      else
        mkRisk count active failed (rk_token_a_debit k) (rk_token_b_debit k) (rk_token_a_maximum_fee k) (rk_token_b_maximum_fee k)
          (<[symbol := debit]> (rk_additional_token_debit k)) (<[symbol := fees]> (rk_additional_token_maximum_fee k)) first).

Fixpoint sum_risk (started : gmap string Z) (k : RebalanceRisk) (ops : list RebalanceExecutionOperation) : TRes RebalanceRisk :=
  match ops with
  | [] => Ok k
  | o :: rest => let? k' := add_risk started k o in sum_risk started k' rest
  end.

Definition rebalance_risk (m : RebalanceMemory) (session : string) : TRes RebalanceRisk :=
  sum_risk (rm_started_at m) no_risk (filter (fun o => of_session session o = true) (btree_values (rm_operations m))).

(** The start and the id order the operations; the last of equals wins. *)
Definition later (m : RebalanceMemory) (a b : RebalanceExecutionOperation) : bool :=
  let sa := count_of (rm_started_at m) (operation_key a) in
  let sb := count_of (rm_started_at m) (operation_key b) in
  (sa <? sb) || ((sa =? sb) && String.leb (operation_key a) (operation_key b)).
Definition latest_rebalance_operation (m : RebalanceMemory) (session : string) : option RebalanceExecutionOperation :=
  fold_left (fun best o => match best with Some b => if later m b o then Some o else best | None => Some o end)
    (filter (fun o => of_session session o = true) (btree_values (rm_operations m))) None.
End calls.
