(* ===== verification/RebalanceFacts.v ===== *)
(** * Steps of the rebalance journal ([src/src/rebalance/executor.rs])

    The transitions of a transfer, the agreement of append and replay on a record,
    and the steps the program takes: what each of them keeps of the memory. *)
From Stdlib Require Import Lia.
From stdpp Require Import base gmap strings numbers option fin_maps pretty relations list.
From S2P Require Import Prelude LineLog ExecutionPlan Planner RebalanceJournal.

(** ** Transitions *)
Ltac bool_cases := repeat match goal with
  | H : context [if ?b then _ else _] |- _ => destruct b eqn:?; try discriminate
  end.

Lemma retry_live_replay p n : approved_terminal_retry p n LiveAppend = true -> approved_terminal_retry p n JournalReplay = true.
Proof.
  destruct p, n; try done. simpl. intros Hr. apply orb_true_iff in Hr as [Hr|Hr]; [|by rewrite Hr, orb_true_r].
  apply orb_true_iff in Hr as [Hr|Hr]; [|by rewrite Hr, orb_true_r]. apply andb_true_iff in Hr as [-> Hr].
  simpl in Hr. rewrite orb_false_r in Hr. by rewrite Hr.
Qed.

Lemma allowed_live_replay i p n : allowed_transition i p n LiveAppend = true -> allowed_transition i p n JournalReplay = true.
Proof.
  unfold allowed_transition. destruct (ri_route i); [|done]. unfold direct_transition. destruct (ri_direction i); [done|].
  intros Ha. apply orb_true_iff in Ha as [->|Ha]; [done|]. apply orb_true_iff. right.
  destruct p; try done. destruct n; try done. by apply retry_live_replay.
Qed.

Section facts.
Context `{EvmText} `{RebalanceCodec}.

(** Everything accepted live is accepted on replay. *)
Lemma transition_live_replay i p n : validate_transition i p n LiveAppend = Ok tt -> validate_transition i p n JournalReplay = Ok tt.
Proof.
  unfold validate_transition. intros Hv. apply rbind_Ok in Hv as ([] & He & Hv). apply ensure_Ok in He.
  assert (negb (terminal p) || approved_terminal_retry p n JournalReplay || approved_terminal_manual_completion p n
          || approved_quarantine_retry i p n = true) as ->.
  { rewrite !orb_true_iff in He. destruct He as [[[He|He]|He]|He]; [by rewrite He|apply retry_live_replay in He; rewrite He; by rewrite orb_true_r|
      by rewrite He, !orb_true_r|by rewrite He, !orb_true_r]. }
  cbn [ensure rbind]. destruct (approved_quarantine_retry i p n); [done|].
  destruct n; try done; (apply rbind_Ok in Hv as ([] & Ha & Hv); apply ensure_Ok, allowed_live_replay in Ha; by rewrite Ha).
Qed.

Lemma snapshot_live_replay ops o next : apply_snapshot ops o LiveAppend = Ok next -> apply_snapshot ops o JournalReplay = Ok next.
Proof.
  unfold apply_snapshot. intros Ha. destruct (validate_operation o) as [[]|]; [|done]. cbn [rbind] in *.
  destruct (ops !! operation_key o) as [previous|]; [|done]. destruct (ensure _ _) as [[]|]; [|done]. cbn [rbind] in *.
  apply rbind_Ok in Ha as ([] & Hv & Ha). apply transition_live_replay in Hv. by rewrite Hv.
Qed.

(** An accepted transition, whatever its origin. *)
Record transition_ok (i : RebalanceExecutionIntent) (p n : RebalanceExecutionProgress) (origin : TransitionOrigin) : Prop := {
  to_start : terminal p = true -> (exists r, p = Failed r) \/ (exists r, p = Quarantined r);
  to_evidence : validate_progress_evidence i n = Ok tt;
  to_shape : approved_quarantine_retry i p n = true \/
    terminal p = false /\ ((exists r, n = Failed r) \/ (exists r, n = Quarantined r)) \/
    (forall r, p <> Quarantined r) /\ allowed_transition i p n origin = true;
}.

Lemma approved_failed p n origin : approved_terminal_retry p n origin = true -> (exists r, p = Failed r) /\ exists a b c, n = BinanceWithdrawalSubmissionStarted a b c.
Proof. destruct p, n; try done. eauto 10. Qed.
Lemma approved_manual p n : approved_terminal_manual_completion p n = true -> (exists r, p = Failed r) /\ exists a b, n = Completed a b.
Proof. destruct p, n; try done. eauto 10. Qed.
Lemma approved_quarantine i p n : approved_quarantine_retry i p n = true -> exists r, p = Quarantined r.
Proof. destruct p; try done. eauto. Qed.

Lemma validate_transition_inv i p n origin : validate_transition i p n origin = Ok tt -> transition_ok i p n origin.
Proof.
  unfold validate_transition. intros Hv. apply rbind_Ok in Hv as ([] & He & Hv). apply ensure_Ok in He.
  assert (Hstart : terminal p = true -> (exists r, p = Failed r) \/ (exists r, p = Quarantined r)).
  { intros Ht. rewrite Ht in He. simpl in He. rewrite !orb_true_iff in He. destruct He as [[He|He]|He];
      [apply approved_failed in He as [? _]; by left|apply approved_manual in He as [? _]; by left|apply approved_quarantine in He; by right]. }
  destruct (approved_quarantine_retry i p n) eqn:Eq; [split; [done|done|by left]|].
  assert (Hnq : forall r, p <> Quarantined r).
  { intros r ->. simpl in He. destruct n; discriminate He. }
  assert (Hfq : (exists r, n = Failed r) \/ (exists r, n = Quarantined r) \/
            (allowed_transition i p n origin = true /\ validate_progress_evidence i n = Ok tt)).
  { destruct n; try (by eauto); right; right; apply rbind_Ok in Hv as ([] & Ha & Hv); apply ensure_Ok in Ha; by split. }
  assert (Hlive : (exists r, n = Failed r) \/ (exists r, n = Quarantined r) -> terminal p = false).
  { intros Hn. destruct (terminal p) eqn:Et; [|done]. simpl in He. rewrite !orb_true_iff in He. destruct He as [[He|He]|He]; [| |done].
    - apply approved_failed in He as (_ & a & b & c & ->). destruct Hn as [[? ?]|[? ?]]; done.
    - apply approved_manual in He as (_ & a & b & ->). destruct Hn as [[? ?]|[? ?]]; done. }
  destruct Hfq as [Hn|[Hn|[Ha Hev]]].
  - split; [done|by destruct Hn as [r ->]|]. right. left. split; [apply Hlive; by left|by left].
  - split; [done|by destruct Hn as [r ->]|]. right. left. split; [apply Hlive; by right|by right].
  - split; [done|done|]. by do 2 right.
Qed.

(** The two final progresses never change. *)
Lemma final_progress i p n origin :
  validate_transition i p n origin = Ok tt -> (forall b w, p <> Completed b w) /\ (forall id b w r, p <> CancelledStale id b w r).
Proof.
  intros Hv. destruct (validate_transition_inv _ _ _ _ Hv) as [Hs _ _].
  split; intros; intros ->; destruct (Hs eq_refl) as [[? ?]|[? ?]]; done.
Qed.

Lemma rebalance_snapshot_inv ops o origin next :
  apply_snapshot ops o origin = Ok next ->
  validate_operation o = Ok tt /\ next = <[operation_key o := o]> ops /\
  match ops !! operation_key o with
  | Some previous => ro_intent previous = ro_intent o /\ validate_transition (ro_intent o) (ro_progress previous) (ro_progress o) origin = Ok tt
  | None => ro_progress o = IntentRecorded
  end.
Proof.
  unfold apply_snapshot. intros Ha. apply rbind_Ok in Ha as ([] & Hv & Ha). apply rbind_Ok in Ha as ([] & Hc & Ha). injection Ha as <-.
  split; [done|]. split; [done|]. destruct (ops !! operation_key o) as [previous|].
  - apply rbind_Ok in Hc as ([] & He & Hc). apply ensure_Ok, bool_decide_eq_true in He. done.
  - apply ensure_Ok in Hc. by destruct (ro_progress o).
Qed.

(** ** A record on disk and in memory *)
(** The counters are kept apart from the other parts of the memory. *)
Definition commutes (w : RebalanceMemory -> RebalanceMemory) (f : M RebalanceMemory string unit) : Prop :=
  forall m, f (w m) = (w (f m).1, (f m).2).

Lemma commutes_bind w f g : commutes w f -> commutes w g -> commutes w (mbind' f (fun _ => g)).
Proof. intros Hf Hg m. unfold mbind'. rewrite Hf. destruct (f m) as [m1 [[]|]]; simpl; [apply Hg|done]. Qed.

Lemma count_operations id p n ops : commutes (fun m => with_operations m ops) (count_transition id p n).
Proof.
  destruct p as [p|]; [|done]. unfold count_transition. apply commutes_bind; [|apply commutes_bind]; intros m.
  - unfold count_quarantine. destruct (is_quarantined n); [done|]. destruct (is_quarantined p); [|done]. simpl. by destruct (bump _ _ _).
  - unfold count_ownership. destruct (retryable_travel_rule_ownership_reopen p n); [|done]. simpl. by destruct (bump _ _ _).
  - unfold count_unindexed. destruct (retryable_unindexed_master_transfer_reopen p n); [|done]. simpl. by destruct (bump _ _ _).
Qed.

Lemma count_started id p n id' t : commutes (fun m => with_started m id' t) (count_transition id p n).
Proof.
  destruct p as [p|]; [|done]. unfold count_transition. apply commutes_bind; [|apply commutes_bind]; intros m.
  - unfold count_quarantine. destruct (is_quarantined n); [done|]. destruct (is_quarantined p); [|done]. simpl. by destruct (bump _ _ _).
  - unfold count_ownership. destruct (retryable_travel_rule_ownership_reopen p n); [|done]. simpl. by destruct (bump _ _ _).
  - unfold count_unindexed. destruct (retryable_unindexed_master_transfer_reopen p n); [|done]. simpl. by destruct (bump _ _ _).
Qed.

Lemma count_keeps_operations id p n m : rm_operations (count_transition id p n m).1 = rm_operations m.
Proof.
  pose proof (count_operations id p n (rm_operations m) m) as E. cbv beta in E.
  assert (with_operations m (rm_operations m) = m) as Em by (by destruct m). rewrite Em in E. rewrite E at 1. done.
Qed.

Lemma replay_commits m o now next v :
  apply_snapshot (rm_operations m) o LiveAppend = Ok next -> (commit_rebalance now next o m).2 = Ok tt ->
  replay_record (mkRebalancePayload v (rm_next_sequence m) now o) m = commit_rebalance now next o m.
Proof.
  intros Ha Hc. apply snapshot_live_replay in Ha. unfold replay_record, commit_rebalance in *. simpl.
  set (p := ro_progress <$> rm_operations m !! operation_key o) in *. unfold mbind' in *.
  pose proof (count_started (operation_key o) p (ro_progress o) (operation_key o) now m) as Es.
  pose proof (count_operations (operation_key o) p (ro_progress o) next m) as Eo. cbv beta in Es, Eo. rewrite Es. rewrite Eo in *.
  pose proof (count_keeps_operations (operation_key o) p (ro_progress o) m) as Hops.
  destruct (count_transition _ _ _ m) as [m1 [[]|]]; [|done]. simpl in *. rewrite Hops, Ha. done.
Qed.

(** A quarantine is reopened at a live progress. *)
Lemma quarantine_reopens_live i p n : approved_quarantine_retry i p n = true -> terminal n = false.
Proof.
  intros Hq. destruct (approved_quarantine _ _ _ Hq) as [r ->]. revert Hq.
  destruct n; try done; simpl;
    unfold reconciled_direct_deposit_transition, reconciled_across_fill_transition, reconciled_consumed_nonce_deposit_transition,
      retryable_premutation_capital_preflight_quarantine, corrected_across_deposit_chain_quarantine;
    destruct (ri_route i), (ri_direction i); done.
Qed.

Lemma allowed_not_quarantine i p r origin : allowed_transition i p (Quarantined r) origin = false.
Proof.
  unfold allowed_transition, direct_transition, across_transition, withdrawal_transition, credit_transition.
  destruct (ri_route i), (ri_direction i), p; done.
Qed.

(** ** The memory *)
Record memory_ok (m : RebalanceMemory) : Prop := {
  mk_keyed id o : rm_operations m !! id = Some o -> operation_key o = id;
  mk_valid id o : rm_operations m !! id = Some o ->
    validate_operation o = Ok tt /\ validate_progress_evidence (ro_intent o) (ro_progress o) = Ok tt;
  mk_sequence : 0 <= rm_next_sequence m < 2 ^ 64;
  mk_started id : is_Some (rm_operations m !! id) -> is_Some (rm_started_at m !! id);
  mk_before id o r : rm_operations m !! id = Some o -> ro_progress o = Quarantined r ->
    exists p, rm_before_quarantine m !! id = Some p /\ terminal p = false /\ validate_progress_evidence (ro_intent o) p = Ok tt;
}.

Lemma no_memory_ok : memory_ok no_memory.
Proof. split; simpl; try lia; intros; try (by rewrite lookup_empty in *); match goal with E : is_Some _ |- _ => destruct E as [? E]; by rewrite lookup_empty in E end. Qed.

(** A counter that counts one of [id] when [b] holds. *)
Definition ticks (id : string) (b : bool) (c c' : gmap string Z) : Prop :=
  forall id', count_of c' id' = count_of c id' + if bool_decide (id' = id) && b then 1 else 0.
Lemma ticks_off id c : ticks id false c c.
Proof. intros id'. rewrite andb_false_r. lia. Qed.
Lemma bump_ticks c id e c' : bump c id e = (c', Ok tt) -> ticks id true c c'.
Proof.
  unfold bump. destruct (checked_add 8 _ 1) as [n|] eqn:En; [|done]. intros [= <-] id'. apply checked_add_Some in En as [-> _].
  unfold count_of. case_bool_decide as Ei; simpl; [subst id'; rewrite lookup_insert_eq; simpl; lia|rewrite lookup_insert_ne by done; lia].
Qed.

(** The three counters of a memory. *)
Record counted (id : string) (quarantine ownership unindexed : bool) (m m' : RebalanceMemory) : Prop := {
  ct_reopens : ticks id quarantine (rm_reopens m) (rm_reopens m');
  ct_ownership : ticks id ownership (rm_ownership_reopens m) (rm_ownership_reopens m');
  ct_unindexed : ticks id unindexed (rm_unindexed_reopens m) (rm_unindexed_reopens m');
}.
Definition same_core (m m' : RebalanceMemory) : Prop :=
  rm_operations m' = rm_operations m /\ rm_started_at m' = rm_started_at m /\ rm_next_sequence m' = rm_next_sequence m.

Lemma count_quarantine_inv id p n m m' : count_quarantine id p n m = (m', Ok tt) ->
  same_core m m' /\ counted id (negb (is_quarantined n) && is_quarantined p) false false m m' /\
  rm_before_quarantine m' = if is_quarantined n then <[id := p]> (rm_before_quarantine m) else rm_before_quarantine m.
Proof.
  unfold count_quarantine. destruct (is_quarantined n); [intros [= <-]; repeat split; apply ticks_off|].
  destruct (is_quarantined p); [|intros [= <-]; repeat split; apply ticks_off].
  destruct (bump _ _ _) as [c r] eqn:Eb. intros [= <- ->]. apply bump_ticks in Eb. by repeat split; try apply ticks_off.
Qed.
Lemma count_ownership_inv id p n m m' : count_ownership id p n m = (m', Ok tt) ->
  same_core m m' /\ counted id false (retryable_travel_rule_ownership_reopen p n) false m m' /\
  rm_before_quarantine m' = rm_before_quarantine m.
Proof.
  unfold count_ownership. destruct (retryable_travel_rule_ownership_reopen p n); [|intros [= <-]; repeat split; apply ticks_off].
  destruct (bump _ _ _) as [c r] eqn:Eb. intros [= <- ->]. apply bump_ticks in Eb. by repeat split; try apply ticks_off.
Qed.
Lemma count_unindexed_inv id p n m m' : count_unindexed id p n m = (m', Ok tt) ->
  same_core m m' /\ counted id false false (retryable_unindexed_master_transfer_reopen p n) m m' /\
  rm_before_quarantine m' = rm_before_quarantine m.
Proof.
  unfold count_unindexed. destruct (retryable_unindexed_master_transfer_reopen p n); [|intros [= <-]; repeat split; apply ticks_off].
  destruct (bump _ _ _) as [c r] eqn:Eb. intros [= <- ->]. apply bump_ticks in Eb. by repeat split; try apply ticks_off.
Qed.

(** What counting a transition does to the history. *)
Definition before_after (id : string) (p : option RebalanceExecutionProgress) (n : RebalanceExecutionProgress) (m : RebalanceMemory) :=
  match p with Some p => if is_quarantined n then <[id := p]> (rm_before_quarantine m) else rm_before_quarantine m | None => rm_before_quarantine m end.
Definition counted_after (id : string) (p : option RebalanceExecutionProgress) (n : RebalanceExecutionProgress) (m m' : RebalanceMemory) : Prop :=
  counted id (match p with Some p => negb (is_quarantined n) && is_quarantined p | None => false end)
    (match p with Some p => retryable_travel_rule_ownership_reopen p n | None => false end)
    (match p with Some p => retryable_unindexed_master_transfer_reopen p n | None => false end) m m'.

Lemma count_inv id p n m m' :
  count_transition id p n m = (m', Ok tt) ->
  same_core m m' /\ counted_after id p n m m' /\ rm_before_quarantine m' = before_after id p n m.
Proof.
  destruct p as [p|]; [|intros [= <-]; repeat split; apply ticks_off]. unfold count_transition, mbind'.
  destruct (count_quarantine id p n m) as [m1 [[]|]] eqn:E1; [|done]. destruct (count_ownership id p n m1) as [m2 [[]|]] eqn:E2; [|done]. intros E3.
  apply count_quarantine_inv in E1 as ((F1 & F2 & F3) & [F4 F5 F6] & F7).
  apply count_ownership_inv in E2 as ((G1 & G2 & G3) & [G4 G5 G6] & G7).
  apply count_unindexed_inv in E3 as ((I1 & I2 & I3) & [I4 I5 I6] & I7).
  split; [unfold same_core; split; [congruence|split; congruence]|]. split; [|unfold before_after; congruence].
  split; intros id'; [specialize (F4 id'); specialize (G4 id'); specialize (I4 id')|specialize (F5 id'); specialize (G5 id'); specialize (I5 id')|
    specialize (F6 id'); specialize (G6 id'); specialize (I6 id')]; rewrite ?andb_false_r in *; lia.
Qed.

(** One record more. *)
Record record_step (o : RebalanceExecutionOperation) (origin : TransitionOrigin) (m m' : RebalanceMemory) : Prop := {
  st_snapshot : apply_snapshot (rm_operations m) o origin = Ok (rm_operations m');
  st_sequence : rm_next_sequence m' = rm_next_sequence m + 1 /\ rm_next_sequence m' < 2 ^ 64;
  st_started : exists t, rm_started_at m' = match rm_started_at m !! operation_key o with Some _ => rm_started_at m | None => <[operation_key o := t]> (rm_started_at m) end;
  st_before : rm_before_quarantine m' = before_after (operation_key o) (ro_progress <$> rm_operations m !! operation_key o) (ro_progress o) m;
  st_counted : counted_after (operation_key o) (ro_progress <$> rm_operations m !! operation_key o) (ro_progress o) m m';
}.

Lemma replay_record_inv p m m' :
  replay_record p m = (m', Ok tt) -> record_step (rp_operation p) JournalReplay m m'.
Proof.
  unfold replay_record, mbind', mget, mlift, mput, bump_sequence. intros Hr.
  destruct (count_transition _ _ _ _) as [m1 [[]|]] eqn:Ec in Hr; [|done]. apply count_inv in Ec as ((E1 & E2 & E3) & E4 & E5). simpl in *.
  destruct (apply_snapshot _ _ _) as [next|] eqn:Es in Hr; [|done]. simpl in Hr.
  destruct (checked_add 64 _ 1) as [k|] eqn:Ek; [|done]. injection Hr as <-. apply checked_add_Some in Ek as [-> Hk].
  split; simpl.
  - by rewrite <- E1.
  - lia.
  - exists (rp_recorded_at_unix_ms p). done.
  - rewrite E5. done.
  - destruct E4. by split.
Qed.

Lemma record_step_ok o m m' : memory_ok m -> record_step o JournalReplay m m' -> memory_ok m'.
Proof.
  intros [Hk Hv Hs Hst Hb] [Ha [Hq1 Hq2] [t Ht] Hbe _]. unfold before_after in Hbe. apply rebalance_snapshot_inv in Ha as (Hvo & Hn & Hc).
  assert (Hev : validate_progress_evidence (ro_intent o) (ro_progress o) = Ok tt).
  { destruct (rm_operations m !! operation_key o) as [previous|]; [|by rewrite Hc].
    destruct Hc as [_ Hc]. by destruct (validate_transition_inv _ _ _ _ Hc). }
  split; rewrite ?Hn.
  - intros id x. rewrite lookup_insert_Some. naive_solver.
  - intros id x. rewrite lookup_insert_Some. naive_solver.
  - lia.
  - intros id Hid. rewrite Ht. destruct (decide (id = operation_key o)) as [->|Hne].
    + destruct (rm_started_at m !! operation_key o) eqn:E; [by rewrite E|]. by rewrite lookup_insert_eq.
    + rewrite lookup_insert_ne in Hid by done. specialize (Hst id Hid).
      destruct (rm_started_at m !! operation_key o); [done|]. by rewrite lookup_insert_ne.
  - intros id x r Hx Hr. rewrite Hbe. apply lookup_insert_Some in Hx as [[<- <-]|[Hne Hx]].
    + destruct (rm_operations m !! operation_key o) as [previous|] eqn:Ep; [|by rewrite Hc in Hr].
      destruct Hc as [Hi Hc]. rewrite Hr in *. simpl. rewrite lookup_insert_eq. exists (ro_progress previous). split; [done|].
      destruct (validate_transition_inv _ _ _ _ Hc) as [_ _ [Hq|[[Hq _]|[Hq Hal]]]].
      * by apply quarantine_reopens_live in Hq.
      * split; [done|]. rewrite <- Hi. by apply (Hv (operation_key o)).
      * by rewrite allowed_not_quarantine in Hal.
    + destruct (Hb id x r Hx Hr) as (p & Hp & Hrest). exists p. split; [|done].
      destruct (rm_operations m !! operation_key o); [|done]. simpl. destruct (is_quarantined (ro_progress o)); [|done]. by rewrite lookup_insert_ne.
Qed.

(** ** Appending *)
(** The sequence and the counters have room for one more record. *)
Definition within_limits (m : RebalanceMemory) : Prop :=
  rm_next_sequence m + 1 < 2 ^ 64 /\
  forall id, count_of (rm_reopens m) id < 255 /\ count_of (rm_ownership_reopens m) id < 255 /\ count_of (rm_unindexed_reopens m) id < 255.

Lemma bump_total c id e : count_of c id < 255 -> exists c', bump c id e = (c', Ok tt).
Proof.
  intros Hc. unfold bump. destruct (checked_add 8 _ 1) as [n|] eqn:En; [eauto|]. apply checked_add_None in En. lia.
Qed.

Lemma count_total id p n m : within_limits m -> exists m', count_transition id p n m = (m', Ok tt).
Proof.
  intros [_ Hl]. destruct (Hl id) as (L1 & L2 & L3). destruct p as [p|]; [|by eexists]. unfold count_transition, mbind'.
  destruct (bump_total _ id "rebalance quarantine reopen count overflow" L1) as [c1 B1].
  destruct (bump_total _ id "Travel Rule ownership rejection reopen count overflow" L2) as [c2 B2].
  destruct (bump_total _ id "unindexed master-transfer reopen count overflow" L3) as [c3 B3].
  unfold count_quarantine. destruct (is_quarantined n); [|destruct (is_quarantined p); [rewrite B1|]];
    unfold count_ownership; cbn [rm_ownership_reopens with_counts with_before];
    (destruct (retryable_travel_rule_ownership_reopen p n); [rewrite B2|]);
    unfold count_unindexed; cbn [rm_unindexed_reopens with_counts with_before];
    (destruct (retryable_unindexed_master_transfer_reopen p n); [rewrite B3|]); by eexists.
Qed.

Lemma commit_total now next o m : within_limits m -> exists m', commit_rebalance now next o m = (m', Ok tt).
Proof.
  intros Hl. unfold commit_rebalance, mbind', mget, mput, bump_sequence.
  assert (Hl' : within_limits (with_operations m next)) by done.
  destruct (count_total (operation_key o) (ro_progress <$> rm_operations m !! operation_key o) (ro_progress o) _ Hl') as [m1 E].
  rewrite E. apply count_inv in E as ((_ & _ & E3) & _). simpl in *.
  destruct (checked_add 64 _ 1) eqn:Ek; [by eexists|]. apply checked_add_None in Ek. destruct Hl as [Hl _]. lia.
Qed.

(** A committed record is what a replay of it gives. *)
Lemma committed o now next m v :
  within_limits m -> apply_snapshot (rm_operations m) o LiveAppend = Ok next ->
  exists m', commit_rebalance now next o m = (m', Ok tt) /\ record_step o LiveAppend m m' /\
    replay_record (mkRebalancePayload v (rm_next_sequence m) now o) m = (m', Ok tt).
Proof.
  intros Hl Ha. destruct (commit_total now next o m Hl) as [m' E]. exists m'. split; [done|].
  assert (Er : replay_record (mkRebalancePayload v (rm_next_sequence m) now o) m = (m', Ok tt)).
  { rewrite (replay_commits _ _ _ _ _ Ha); rewrite E; done. }
  split; [|done]. apply replay_record_inv in Er. destruct Er as [Es Eq Et Eb Ec]. simpl in *. split; try done.
  apply snapshot_live_replay in Ha as Ha'. rewrite Ha. congruence.
Qed.

Lemma record_step_live o m m' : record_step o LiveAppend m m' -> record_step o JournalReplay m m'.
Proof. intros [Ha ? ? ? ?]. apply snapshot_live_replay in Ha. by split. Qed.


(** ** Steps of the caller *)
(** The id the journal issues with a sequence number. *)
Definition issued_id (sequence : Z) (suffix : string) : string := "rebalance-" +:+ pretty (Z.to_N sequence) +:+ "-" +:+ suffix.
Definition issued (m : RebalanceMemory) : Prop :=
  forall id, is_Some (rm_operations m !! id) -> exists n suffix, 0 <= n < rm_next_sequence m /\ id = issued_id n suffix.

(** Why the program appends a snapshot: a transfer reserved while none is active,
    the next progress of the active one, or a reopened one while none is active. *)
Inductive guarded (m : RebalanceMemory) (o : RebalanceExecutionOperation) : Prop :=
  | guarded_reserve :
      active_operations m = [] -> rm_operations m !! operation_key o = None -> ro_progress o = IntentRecorded ->
      (exists suffix, operation_key o = issued_id (rm_next_sequence m) suffix) -> guarded m o
  | guarded_active previous :
      rm_operations m !! operation_key o = Some previous -> terminal (ro_progress previous) = false -> guarded m o
  | guarded_quarantine previous r before :
      active_operations m = [] -> rm_operations m !! operation_key o = Some previous -> ro_progress previous = Quarantined r ->
      rm_before_quarantine m !! operation_key o = Some before ->
      before = ro_progress o \/ before = IntentRecorded /\ (exists c h, ro_progress o = DepositTransferMined c h) \/
      (exists c h n b, before = BridgeMined c h n b) /\ (exists h a, ro_progress o = AcrossFilled h a) ->
      guarded m o
  | guarded_ownership previous :
      active_operations m = [] -> rm_operations m !! operation_key o = Some previous ->
      count_of (rm_ownership_reopens m) (operation_key o) < MAX_TRAVEL_RULE_OWNERSHIP_REJECTION_REOPENS ->
      retryable_travel_rule_ownership_reopen (ro_progress previous) (ro_progress o) = true -> guarded m o.

Definition rebalance_step (m m' : RebalanceMemory) : Prop := exists o, guarded m o /\ record_step o LiveAppend m m'.

(** *** One active transfer *)
Definition live (m : RebalanceMemory) (id : string) : Prop :=
  exists o, rm_operations m !! id = Some o /\ terminal (ro_progress o) = false.
Definition single (m : RebalanceMemory) : Prop := forall id1 id2, live m id1 -> live m id2 -> id1 = id2.

Lemma elem_of_active m o : o ∈ active_operations m <-> (exists id, rm_operations m !! id = Some o) /\ terminal (ro_progress o) = false.
Proof. unfold active_operations. rewrite list_elem_of_filter, elem_of_btree_values. naive_solver. Qed.

Lemma active_nil m : active_operations m = [] <-> forall id, ~ live m id.
Proof.
  split.
  - intros Ha id (o & Ho & Ht). apply (not_elem_of_nil o). rewrite <- Ha. apply elem_of_active. eauto.
  - intros Hn. destruct (active_operations m) as [|o l] eqn:Ea; [done|]. assert (He : o ∈ active_operations m) by (rewrite Ea; by left).
    apply elem_of_active in He as [[id Ho] Ht]. destruct (Hn id). by exists o.
Qed.

Lemma single_active m : memory_ok m -> single m <-> exists a, active_operation m = Ok a.
Proof.
  intros Hm. assert (Hnd : NoDup (active_operations m)) by (apply NoDup_filter, (btree_values_nodup operation_key), Hm).
  unfold active_operation. split.
  - intros Hs. destruct (active_operations m) as [|x l] eqn:Ea; [eauto|].
    assert (Hx : x ∈ active_operations m) by (rewrite Ea; by left).
    assert (El : x :: l = [x]); [|injection El as ->; eauto]. apply singleton_list; [done|by left|].
    intros y Hy. rewrite <- Ea in Hy. apply elem_of_active in Hx as [[i Hi] Hx]. apply elem_of_active in Hy as [[k Hk] Hy].
    assert (i = k) as -> by (apply Hs; by eexists). congruence.
  - intros [a Ha] i k (x & Hi & Hx) (y & Hk & Hy).
    assert (Ex : x ∈ active_operations m) by (apply elem_of_active; eauto). assert (Ey : y ∈ active_operations m) by (apply elem_of_active; eauto).
    destruct (active_operations m) as [|z [|z' l]]; [by apply not_elem_of_nil in Ex| |done].
    apply list_elem_of_singleton in Ex as ->. apply list_elem_of_singleton in Ey as ->.
    rewrite <- (mk_keyed _ Hm _ _ Hi). by rewrite <- (mk_keyed _ Hm _ _ Hk).
Qed.

Lemma active_at m o : memory_ok m -> active_operation m = Ok (Some o) ->
  rm_operations m !! operation_key o = Some o /\ terminal (ro_progress o) = false.
Proof.
  intros Hm Ha. assert (He : o ∈ active_operations m).
  { unfold active_operation in Ha. destruct (active_operations m) as [|x [|]]; try done. injection Ha as ->. by left. }
  apply elem_of_active in He as [[id Ho] Ht]. by rewrite (mk_keyed _ Hm _ _ Ho).
Qed.
Lemma active_none m : active_operation m = Ok None -> active_operations m = [].
Proof. unfold active_operation. by destruct (active_operations m) as [|x [|]]. Qed.

Lemma step_operations o m m' origin : record_step o origin m m' -> rm_operations m' = <[operation_key o := o]> (rm_operations m).
Proof. intros [Ha _ _ _ _]. by apply rebalance_snapshot_inv in Ha as (_ & Ha & _). Qed.

Lemma single_step m m' : single m -> rebalance_step m m' -> single m'.
Proof.
  intros Hs (o & Hg & Hr). apply step_operations in Hr as E.
  assert (Hothers : forall id, live m' id -> id <> operation_key o -> live m id).
  { intros id (x & Hx & Ht) Hne. rewrite E, lookup_insert_ne in Hx by done. by exists x. }
  assert (Hall : forall id, live m id -> id = operation_key o).
  { intros id Hid. destruct Hg as [Ha _ _ _|p Hp Ht|p r b Ha _ _ _ _|p Ha _ _ _]; try (rewrite active_nil in Ha; by destruct (Ha id)).
    apply Hs; [done|by exists p]. }
  intros i k Hi Hk. destruct (decide (i = operation_key o)) as [->|Hi'], (decide (k = operation_key o)) as [->|Hk']; try done.
  - symmetry. by apply Hall, Hothers.
  - by apply Hall, Hothers.
  - apply Hs; by apply Hothers.
Qed.

(** *** Issued ids *)
Lemma digit_char d : (d < 10)%N -> is_ascii_digit (pretty_N_char d) = true.
Proof.
  intros Hd. assert (Hall : forallb (fun k => is_ascii_digit (pretty_N_char (N.of_nat k))) (seq 0 10) = true) by (vm_compute; reflexivity).
  rewrite forallb_forall in Hall. specialize (Hall (N.to_nat d)). rewrite N2Nat.id in Hall. apply Hall, in_seq. lia.
Qed.
Lemma pretty_go_digits x s : bytes_all is_ascii_digit s = true -> bytes_all is_ascii_digit (pretty_N_go x s) = true.
Proof.
  revert s. induction (N.lt_wf_0 x) as [x _ IH]; intros s Hs. destruct (decide (x = 0)%N) as [->|Hx]; [by rewrite pretty_N_go_0|].
  rewrite pretty_N_go_step by lia. apply IH; [by apply N.div_lt; lia|].
  change (bytes_all is_ascii_digit (String ?c ?t)) with (is_ascii_digit c && bytes_all is_ascii_digit t). rewrite Hs, andb_true_r.
  apply digit_char, N.mod_lt. done.
Qed.
Lemma pretty_digits n : bytes_all is_ascii_digit (pretty (n : N)) = true.
Proof. unfold pretty, pretty_N. case_decide; [done|]. by apply pretty_go_digits. Qed.

Lemma digits_dash a b s t :
  bytes_all is_ascii_digit a = true -> bytes_all is_ascii_digit b = true -> a +:+ "-" +:+ s = b +:+ "-" +:+ t -> a = b.
Proof.
  revert b. induction a as [|c a IH]; intros [|d b] Ha Hb E; simpl in *; try done.
  - injection E as <- _. done.
  - injection E as -> _. done.
  - injection E as -> E. bool_prop. f_equal. by apply IH.
Qed.
Lemma issued_inj n k s t : 0 <= n -> 0 <= k -> issued_id n s = issued_id k t -> n = k.
Proof.
  intros Hn Hk E. unfold issued_id in E. simpl in E. injection E as E.
  apply digits_dash in E; [|apply pretty_digits|apply pretty_digits]. apply (inj pretty) in E. lia.
Qed.

Lemma issued_fresh m suffix : memory_ok m -> issued m -> rm_operations m !! issued_id (rm_next_sequence m) suffix = None.
Proof.
  intros Hm Hi. destruct (rm_operations m !! _) eqn:E; [|done]. destruct (Hi (issued_id (rm_next_sequence m) suffix)) as (n & s & Hn & En); [by eexists|].
  apply issued_inj in En; [lia|apply Hm|lia].
Qed.

Lemma issued_step m m' : memory_ok m -> issued m -> rebalance_step m m' -> issued m'.
Proof.
  intros Hm Hi (o & Hg & Hs) id Hid. pose proof (mk_sequence _ Hm) as Hq. destruct (st_sequence _ _ _ _ Hs) as [Hn _].
  rewrite (step_operations _ _ _ _ Hs) in Hid. destruct (decide (id = operation_key o)) as [->|Hne].
  - destruct Hg as [_ _ _ [suffix ->]|p Hp _|p r b _ Hp _ _ _|p _ Hp _ _]; [exists (rm_next_sequence m), suffix; split; [lia|done]|..];
      (destruct (Hi (operation_key o)) as (n & s & Hb & E); [by eexists|]; exists n, s; split; [lia|done]).
  - rewrite lookup_insert_ne in Hid by done. destruct (Hi id Hid) as (n & s & Hb & E). exists n, s. split; [lia|done].
Qed.

(** *** Progress *)
(** How far a transfer is, external effects being committed in this order. *)
Definition stage (p : RebalanceExecutionProgress) : Z :=
  match p with
  | IntentRecorded => 0
  | BinanceTransferSubmitted _ _ => 1
  | BinanceTransferCompleted _ _ => 2
  | BinanceWithdrawalSubmissionStarted _ _ _ | BinanceWithdrawalRetryAuthorized _ _ _ _ _ => 3
  | BinanceMasterReturnSubmissionStarted _ _ _ _ _ | BinanceWithdrawalSubmitted _ _ => 4
  | BinanceMasterReturnSubmitted _ _ _ _ _ | FundsOnBridge _ _ _ => 5
  | ApprovalMined _ _ _ => 6
  | BridgePrepared _ _ _ _ _ _ _ => 7
  | BridgeMined _ _ _ _ => 8
  | AcrossFilled _ _ => 9
  | DepositTransferMined _ _ => 10
  | DepositQuestionnaireSubmissionStarted _ _ _ => 11
  | BinanceCredited _ _ => 12
  | Completed _ _ | CancelledStale _ _ _ _ | Failed _ | Quarantined _ => 13
  end.
(** A quarantined transfer is where it was quarantined. *)
Definition effective (m : RebalanceMemory) (o : RebalanceExecutionOperation) : RebalanceExecutionProgress :=
  match ro_progress o with
  | Quarantined r => default (Quarantined r) (rm_before_quarantine m !! operation_key o)
  | p => p
  end.
Definition settled (p : RebalanceExecutionProgress) : bool := match p with Completed _ _ | CancelledStale _ _ _ _ => true | _ => false end.

Lemma stage_final p : stage p <= 13.
Proof. destruct p; simpl; lia. Qed.

Lemma withdrawal_stage p n : withdrawal_transition p n = true -> stage p <= stage n.
Proof. destruct p, n; try done; simpl; lia. Qed.
Lemma credit_stage p n : credit_transition p n = true -> stage p <= stage n.
Proof. destruct p, n; try done; simpl; lia. Qed.

Lemma allowed_stage i p n origin : terminal p = false -> allowed_transition i p n origin = true -> stage p <= stage n.
Proof.
  intros Ht Ha. unfold allowed_transition, direct_transition, across_transition in Ha.
  destruct (ri_route i), (ri_direction i).
  - destruct (credit_transition p n) eqn:Ec; [by apply credit_stage|]. destruct p, n; try done; simpl; lia.
  - apply orb_true_iff in Ha as [Ha|Ha]; [by apply withdrawal_stage|]. destruct p, n; try done; simpl; lia.
  - apply orb_true_iff in Ha as [Ha|Ha]; [destruct p, n; try done; simpl; lia|].
    destruct (credit_transition p n) eqn:Ec; [by apply credit_stage|]. destruct p, n; try done; simpl; lia.
  - apply orb_true_iff in Ha as [Ha|Ha]; [destruct p, n; try done; simpl; lia|].
    apply orb_true_iff in Ha as [Ha|Ha]; [by apply withdrawal_stage|]. destruct p, n; try done; simpl; lia.
Qed.

(** What a later memory keeps of a transfer: its intent, its final progress, and
    its stage unless the exchange rejected its withdrawal and it was reopened. *)
Record carried (m m' : RebalanceMemory) (o o' : RebalanceExecutionOperation) : Prop := {
  ca_intent : ro_intent o' = ro_intent o;
  ca_settled : settled (ro_progress o) = true -> o' = o;
  ca_stage :
    (count_of (rm_ownership_reopens m) (operation_key o) < count_of (rm_ownership_reopens m') (operation_key o)) \/
    (count_of (rm_ownership_reopens m) (operation_key o) = count_of (rm_ownership_reopens m') (operation_key o) /\
     stage (effective m o) <= stage (effective m' o'));
}.

Lemma carried_trans m1 m2 m3 o1 o2 o3 : carried m1 m2 o1 o2 -> carried m2 m3 o2 o3 -> carried m1 m3 o1 o3.
Proof.
  intros [I1 S1 T1] [I2 S2 T2]. assert (operation_key o2 = operation_key o1) as Ek by (unfold operation_key; congruence).
  rewrite Ek in T2. split; [congruence| |lia]. intros Hs. specialize (S1 Hs) as ->. by apply S2.
Qed.
Lemma carried_refl m o : carried m m o o.
Proof. split; try done. right. split; [done|lia]. Qed.

Lemma effective_live m o : terminal (ro_progress o) = false -> effective m o = ro_progress o.
Proof. unfold effective. by destruct (ro_progress o). Qed.

Lemma step_other o m m' id x :
  memory_ok m -> record_step o LiveAppend m m' -> id <> operation_key o -> rm_operations m !! id = Some x ->
  rm_operations m' !! id = Some x /\ carried m m' x x.
Proof.
  intros Hm Hs Hne Hx. rewrite (step_operations _ _ _ _ Hs), lookup_insert_ne by done. split; [done|]. split; try done. right.
  rewrite (mk_keyed _ Hm _ _ Hx). destruct Hs as [_ _ _ Hb Hc]. pose proof (ct_ownership _ _ _ _ _ _ Hc id) as Ht.
  rewrite bool_decide_eq_false_2 in Ht by done. simpl in Ht. split; [lia|].
  unfold effective. destruct (ro_progress x); try lia. rewrite (mk_keyed _ Hm _ _ Hx), Hb. unfold before_after.
  destruct (ro_progress <$> _); [|lia]. destruct (is_quarantined _); [rewrite lookup_insert_ne by done|]; lia.
Qed.

Section same.
Context (o x : RebalanceExecutionOperation) (m m' : RebalanceMemory).
Context (Hs : record_step o LiveAppend m m') (Hx : rm_operations m !! operation_key o = Some x).

Lemma step_same_transition : ro_intent x = ro_intent o /\ validate_transition (ro_intent o) (ro_progress x) (ro_progress o) LiveAppend = Ok tt.
Proof. destruct Hs as [Ha _ _ _ _]. apply rebalance_snapshot_inv in Ha as (_ & _ & Hc). by rewrite Hx in Hc. Qed.

Lemma step_same_count : count_of (rm_ownership_reopens m') (operation_key o) =
  count_of (rm_ownership_reopens m) (operation_key o) + if retryable_travel_rule_ownership_reopen (ro_progress x) (ro_progress o) then 1 else 0.
Proof.
  destruct Hs as [_ _ _ _ Hc]. pose proof (ct_ownership _ _ _ _ _ _ Hc (operation_key o)) as Ht. rewrite Hx in Ht.
  by rewrite bool_decide_eq_true_2 in Ht.
Qed.

Lemma step_same_active : terminal (ro_progress x) = false -> stage (ro_progress x) <= stage (effective m' o).
Proof.
  intros Ht. destruct step_same_transition as [Hi Hv]. destruct (validate_transition_inv _ _ _ _ Hv) as [_ _ Hsh].
  destruct Hs as [_ _ _ Hb _]. rewrite Hx in Hb. unfold before_after in Hb. simpl in Hb.
  destruct (is_quarantined (ro_progress o)) eqn:Eq.
  - unfold effective. destruct (ro_progress o); try done. rewrite Hb, lookup_insert_eq. simpl. lia.
  - assert (effective m' o = ro_progress o) as -> by (unfold effective; by destruct (ro_progress o)).
    destruct Hsh as [Hq|[(_ & [[r ->]|[r Hr]])|[_ Ha]]].
    + apply approved_quarantine in Hq as [r Hr]. by rewrite Hr in Ht.
    + apply stage_final.
    + by rewrite Hr in Eq.
    + by eapply allowed_stage.
Qed.

Lemma step_same_quarantine r : ro_progress x = Quarantined r -> terminal (ro_progress o) = false.
Proof.
  intros Hr. destruct step_same_transition as [Hi Hv]. destruct (validate_transition_inv _ _ _ _ Hv) as [_ _ Hsh]. rewrite Hr in Hsh.
  destruct Hsh as [Hq|[[Hq _]|[Hq _]]]; [by apply quarantine_reopens_live in Hq|done|by destruct (Hq r)].
Qed.

Lemma step_same_carried : memory_ok m -> guarded m o -> carried m m' x o.
Proof.
  intros Hm Hg. destruct step_same_transition as [Hi Hv]. assert (Hk : operation_key x = operation_key o) by (unfold operation_key; by rewrite Hi).
  split; [done| |].
  - intros Hse. destruct (final_progress _ _ _ _ Hv) as [F1 F2]. by destruct (ro_progress x); naive_solver.
  - rewrite Hk, step_same_count. destruct (retryable_travel_rule_ownership_reopen _ _) eqn:Er; [left; lia|]. right. split; [lia|].
    destruct Hg as [_ Hn _ _|p Hp Ht|p r b _ Hp Hr Hb Hc|p _ Hp _ Ho]; [congruence|..]; rewrite Hx in Hp; injection Hp as <-; [| |congruence].
    + rewrite effective_live by done. by apply step_same_active.
    + rewrite (effective_live m' o) by (by eapply step_same_quarantine).
      unfold effective. rewrite Hr, Hk, Hb. simpl. destruct Hc as [->|[[-> (c & h & ->)]|[(c & h & n & b' & ->) (h' & a & ->)]]]; simpl; lia.
Qed.
End same.

Lemma step_carried m m' id x :
  memory_ok m -> rebalance_step m m' -> rm_operations m !! id = Some x ->
  exists x', rm_operations m' !! id = Some x' /\ carried m m' x x'.
Proof.
  intros Hm (o & Hg & Hs) Hx. destruct (decide (id = operation_key o)) as [->|Hne].
  - exists o. split; [by rewrite (step_operations _ _ _ _ Hs), lookup_insert_eq|]. by apply step_same_carried.
  - exists x. by eapply step_other.
Qed.

Lemma step_ok m m' : memory_ok m -> rebalance_step m m' -> memory_ok m'.
Proof. intros Hm (o & _ & Hs). eapply record_step_ok; [done|by apply record_step_live]. Qed.

(** The withdrawals the exchange rejected are retried a bounded number of times. *)
Definition reopens_bounded (m : RebalanceMemory) : Prop :=
  forall id, count_of (rm_ownership_reopens m) id <= MAX_TRAVEL_RULE_OWNERSHIP_REJECTION_REOPENS.
Lemma step_reopens m m' : reopens_bounded m -> rebalance_step m m' -> reopens_bounded m'.
Proof.
  intros Hb (o & Hg & Hs) id. destruct Hs as [_ _ _ _ Hc]. rewrite (ct_ownership _ _ _ _ _ _ Hc id). specialize (Hb id).
  case_bool_decide as Hid; simpl; [|lia]. subst id.
  destruct Hg as [_ Hn _ _|p Hp Ht|p r b _ Hp Hr _ _|p _ Hp Hl _]; rewrite ?Hn, ?Hp; simpl; [lia|..].
  - destruct (ro_progress p); try done; simpl; lia.
  - rewrite Hr. simpl. lia.
  - destruct (retryable_travel_rule_ownership_reopen _ _); lia.
Qed.
End facts.
