(* ===== verification/RebalanceRuns.v ===== *)
(** * Runs of the rebalance journal ([src/src/rebalance/executor.rs])

    The file under an append, a write fault and a restart, each call of the
    runtime as a step of [RebalanceFacts], and what runs of calls, faults and
    restarts keep. *)
From Stdlib Require Import Lia.
From stdpp Require Import base gmap strings numbers option fin_maps pretty relations list.
From S2P Require Import Prelude LineLog ExecutionPlan Planner RebalanceJournal RebalanceFacts.

Section runs.
Context `{EvmText} `{RebalanceCodec}.

(** ** The file *)
#[local] Arguments replay_rebalance_line : simpl never.
Context `{!RebalanceCodecLaws}.

Lemma replay_line_inv m l m' : replay_rebalance_line m l = Ok m' ->
  last l = Some 10 /\ exists o, record_step o JournalReplay m m'.
Proof.
  unfold replay_rebalance_line. intros Hr. res_inv. bool_prop.
  destruct (replay_record _ m) as [m1 r1] eqn:Er. res_inv.
  match type of Er with _ = (_, Ok ?u) => destruct u end. split; [done|]. eexists. by apply replay_record_inv.
Qed.
Lemma replay_rebalance_closed m l m' : replay_rebalance_line m l = Ok m' -> last l = Some 10.
Proof. intros Hr. by apply replay_line_inv in Hr as [? _]. Qed.

(** ** The file and the calls *)
Definition reflexive_step (m m' : RebalanceMemory) : Prop := m' = m \/ rebalance_step m m'.

Record rebalance_ok (j : RebalanceExecutionJournal) : Prop := {
  rok_memory : memory_ok (rj_memory j);
  rok_file : rj_poisoned j = false -> replays replay_rebalance_line (rj_file j) no_memory (rj_memory j);
  rok_fault j' : rj_poisoned j = true -> open_rebalance (rj_file j) = Ok j' -> reflexive_step (rj_memory j) (rj_memory j');
}.

Lemma replays_open_rebalance bytes m : replays replay_rebalance_line bytes no_memory m -> open_rebalance bytes = Ok (mkRebalanceJournal bytes m false).
Proof. intros [_ Hr]. unfold open_rebalance. by rewrite Hr. Qed.

Lemma open_rebalance_inv bytes j : open_rebalance bytes = Ok j ->
  memory_ok (rj_memory j) /\ rj_file j = bytes /\ rj_poisoned j = false /\ replays replay_rebalance_line bytes no_memory (rj_memory j).
Proof.
  unfold open_rebalance. intros Ho. res_inv. simpl. split; [|split; [done|split; [done|]]].
  - apply (replay_lines_ind replay_rebalance_line memory_ok (split_lines bytes) no_memory); [|apply no_memory_ok|done].
    intros m l m' Hm Hl. apply replay_line_inv in Hl as [_ [o Ho]]. by eapply record_step_ok.
  - by apply (replay_lines_replays _ replay_rebalance_closed).
Qed.

Lemma new_record_inv p r bs : new_rebalance_record p = Ok r -> rebalance_record_to_vec r = Some bs ->
  exists raw, rebalance_raw_from_slice bs = Some raw /\ validate_rebalance_checksum raw = Ok tt /\ rebalance_payload_from_str (rw_payload raw) = Some p.
Proof.
  unfold new_rebalance_record, validate_rebalance_checksum, rebalance_checksum. intros Hr Hb. res_inv. subst.
  destruct (rebalance_roundtrip _ _ Hb) as (raw & Hp & Hraw). exists (mkRawRecord raw (rr_checksum (mkRebalanceRecord p (rebalance_sha256_hex raw)))).
  simpl in *. match goal with E : rebalance_payload_to_vec p = Some ?x |- _ => assert (x = raw) as -> by congruence end.
  split; [done|]. split; [by rewrite bool_decide_eq_true_2|]. by apply rebalance_payload_roundtrip.
Qed.

(** A prepared append: the record it writes, and its replay. *)
Record prepared (env : RebalanceEnv) (o : RebalanceExecutionOperation) (j : RebalanceExecutionJournal)
    (now : Z) (next : Operations) (line : list Z) (m' : RebalanceMemory) : Prop := {
  pr_healthy : rj_poisoned j = false;
  pr_step : record_step o LiveAppend (rj_memory j) m';
  pr_commit : commit_rebalance now next o (rj_memory j) = (m', Ok tt);
  pr_line : exists body, line = body ++ [10] /\ (10 ∉ body) /\ Z.of_nat (length body) < REBALANCE_MAX_LINE;
  pr_replays : replays replay_rebalance_line (rj_file j ++ line) no_memory m';
}.

Lemma prepare_rebalance_inv env o j now next line :
  rebalance_ok j -> within_limits (rj_memory j) -> prepare_rebalance env o j = Ok (now, next, line) ->
  exists m', prepared env o j now next line m'.
Proof.
  intros Hok Hl Hp. unfold prepare_rebalance in Hp. res_inv. bool_prop.
  match goal with E : new_rebalance_record _ = Ok ?r, F : rebalance_record_to_vec ?r = Some ?b |- _ =>
    rename E into Hrec, F into Henc, b into body, r into rec end.
  match goal with E : apply_snapshot _ _ _ = Ok _ |- _ => rename E into Ha end.
  pose proof (rebalance_one_line _ _ Henc) as Hnl. destruct (new_record_inv _ _ _ Hrec Henc) as (raw & Hrt & Hsum & Hpay).
  destruct (committed o now next (rj_memory j) REBALANCE_VERSION Hl Ha) as (m' & Hc & Hs & Hrep). exists m'. split; try done; [by exists body|].
  apply (replays_append _ _ _ (rj_memory j)); [by apply rok_file|done|].
  unfold replay_rebalance_line. rewrite length_app. simpl. rewrite (proj2 (Z.leb_le _ _)) by lia. simpl.
  rewrite last_snoc, bool_decide_eq_true_2 by done. simpl.
  replace (length body + 1 - 1)%nat with (length body) by lia. rewrite take_app_length, Hrt. simpl.
  rewrite Hsum. simpl. rewrite Hpay. cbn [or_err rp_version rp_sequence rbind ensure]. rewrite !Z.eqb_refl. cbn [rbind ensure]. by rewrite Hrep.
Qed.

(** What the next process finds after a write fault of [k] bytes. *)
Lemma rebalance_fault_reopens env o j now next line m' k :
  rebalance_ok j -> prepared env o j now next line m' ->
  open_rebalance (rj_file j ++ take k line) =
    (if decide (k = O) then Ok (mkRebalanceJournal (rj_file j) (rj_memory j) false)
     else if decide (k < length line)%nat
          then Err "rebalance executor journal ends with a partial record"%string
          else Ok (mkRebalanceJournal (rj_file j ++ line) m' false)).
Proof.
  intros Hok [Hpois _ _ (body & -> & Hnl & Hlen) Hrep].
  pose proof (rok_file _ Hok Hpois) as Hfile. case_decide as Hzero; [|case_decide as Hcut].
  - subst k. rewrite take_0, app_nil_r. by apply replays_open_rebalance.
  - unfold open_rebalance. rewrite length_app in Hcut. simpl in Hcut.
    rewrite (replays_torn _ _ _ _ _ _ Hfile Hnl) by lia.
    unfold replay_rebalance_line. rewrite (proj2 (Z.leb_le _ _)) by (rewrite length_take; lia). simpl.
    rewrite bool_decide_eq_false_2; [done|]. intros Hlast.
    by apply (not_elem_take 10 k body Hnl), last_Some_elem_of.
  - rewrite take_ge by lia. by apply replays_open_rebalance.
Qed.

(** A call leaves the memory, or takes one step of the caller. *)
Definition stepped (j j' : RebalanceExecutionJournal) : Prop :=
  rebalance_ok j' /\ reflexive_step (rj_memory j) (rj_memory j').

Lemma stepped_refl j : rebalance_ok j -> stepped j j.
Proof. intros Hok. split; [done|by left]. Qed.

Lemma append_stepped env o j :
  rebalance_ok j -> within_limits (rj_memory j) -> guarded (rj_memory j) o -> stepped j (append_rebalance env o j).1.
Proof.
  intros Hok Hl Hg. unfold append_rebalance. destruct (prepare_rebalance env o j) as [[[now next] line]|e] eqn:Hp; [|by apply stepped_refl].
  destruct (prepare_rebalance_inv _ _ _ _ _ _ Hok Hl Hp) as [m' Hpr]. destruct Hpr as [Hpois Hs Hc Hline Hrep] eqn:Epr. clear Epr.
  assert (Hstep : rebalance_step (rj_memory j) m') by (by exists o).
  destruct (re_write_fault env) as [k|].
  - split; [|by left]. split; [apply Hok|done|]. intros j' _ Hj. cbn [fst rj_file] in Hj.
    rewrite (rebalance_fault_reopens env o j now next line m' k Hok) in Hj by done.
    repeat case_decide; try done; injection Hj as <-; [by left|by right].
  - rewrite Hc. split; [|by right]. split; simpl; [by eapply step_ok; [apply Hok|]|done|congruence].
Qed.

(** *** Each call *)
Section call.
Context (env : RebalanceEnv) (j : RebalanceExecutionJournal).
Context (Hok : rebalance_ok j) (Hl : within_limits (rj_memory j)).

Lemma keyed_intent id o p : rm_operations (rj_memory j) !! id = Some o -> operation_key (mkRebalanceOperation (ro_intent o) p) = id.
Proof. intros Ho. exact (mk_keyed _ (rok_memory _ Hok) _ _ Ho). Qed.

Lemma advance_stepped id p :
  (forall o, rm_operations (rj_memory j) !! id = Some o -> guarded (rj_memory j) (mkRebalanceOperation (ro_intent o) p)) ->
  stepped j (advance env id p j).1.
Proof.
  intros Hg. unfold advance, mbind', known_operation, before_quarantine, mlift.
  destruct (rm_operations (rj_memory j) !! id) as [o|] eqn:Ho; [|by apply stepped_refl]. simpl.
  destruct (ensure _ _) as [[]|]; [|by apply stepped_refl]. simpl.
  destruct (validate_transition _ _ _ _) as [[]|]; [|by apply stepped_refl]. simpl. by apply append_stepped, Hg.
Qed.

Lemma advance_active_stepped o p : active_operation (rj_memory j) = Ok (Some o) -> stepped j (advance env (operation_key o) p j).1.
Proof.
  intros Ha. destruct (active_at _ _ (rok_memory _ Hok) Ha) as [Ho Ht]. apply advance_stepped. intros x Hx.
  apply (guarded_active _ _ o); [|done]. by rewrite (keyed_intent _ _ _ Hx).
Qed.

Lemma reserve_stepped r : issued (rj_memory j) -> stepped j (reserve env r j).1.
Proof.
  intros Hi. unfold reserve, mbind', mlift. destruct (validate_request r) as [[]|]; [|by apply stepped_refl].
  destruct (active_operation (rj_memory j)) as [[a|]|] eqn:Ha; [by apply stepped_refl| |by apply stepped_refl].
  simpl. destruct (request_fingerprint r) as [f|]; [|by apply stepped_refl]. apply append_stepped; [done|done|].
  apply guarded_reserve; [by apply active_none|by apply issued_fresh; [apply Hok|]|done|by eexists].
Qed.

(** A reopen of a quarantined transfer. *)
Definition reopens_to (before p : RebalanceExecutionProgress) : Prop :=
  before = p \/ before = IntentRecorded /\ (exists c h, p = DepositTransferMined c h) \/
  (exists c h n b, before = BridgeMined c h n b) /\ (exists h a, p = AcrossFilled h a).

Lemma quarantine_guarded id o r before p :
  active_operation (rj_memory j) = Ok None -> rm_operations (rj_memory j) !! id = Some o -> ro_progress o = Quarantined r ->
  rm_before_quarantine (rj_memory j) !! id = Some before -> reopens_to before p ->
  guarded (rj_memory j) (mkRebalanceOperation (ro_intent o) p).
Proof.
  intros Ha Ho Hr Hb Hp. apply active_none in Ha. pose proof (keyed_intent _ _ p Ho) as Hk.
  apply (guarded_quarantine _ _ o r before); [done|by rewrite Hk|done|by rewrite Hk|done].
Qed.

Lemma next_quarantined_inv f o : next_quarantined (rj_memory j) f = Ok (Some o) ->
  active_operation (rj_memory j) = Ok None /\ rm_operations (rj_memory j) !! operation_key o = Some o /\
  exists r, ro_progress o = Quarantined r /\ f (ro_intent o) r (rm_before_quarantine (rj_memory j) !! operation_key o) = true.
Proof.
  unfold next_quarantined. intros Hn. destruct (active_operation _) as [[|]|]; [done| |done]. cbn [rbind] in Hn.
  injection Hn as Hf. apply find_some in Hf as [Hin Hq]. split; [done|]. apply list_elem_of_In, elem_of_btree_values in Hin as [id Ho].
  split; [by rewrite (mk_keyed _ (rok_memory _ Hok) _ _ Ho)|]. destruct (ro_progress o); try done. eauto.
Qed.

Lemma ownership_stepped id : stepped j (reopen_retryable_travel_rule_ownership_failure env id j).1.
Proof.
  unfold reopen_retryable_travel_rule_ownership_failure, mbind' at 1, mlift.
  destruct (active_operation (rj_memory j)) as [[a|]|] eqn:Ha; [by apply stepped_refl| |by apply stepped_refl].
  destruct (rm_operations (rj_memory j) !! id) as [o|] eqn:Ho; [|by apply stepped_refl].
  destruct (match ro_progress o with Failed _ => _ | _ => _ end && _) eqn:Ec; [|by apply stepped_refl]. apply andb_true_iff in Ec as [Ef Ec].
  unfold mbind'. match goal with |- context [advance env id ?p j] => set (q := p) end.
  pose proof (advance_stepped id q) as Hs. destruct (advance env id q j) as [j1 [x|]]; simpl in *; apply Hs; intros x' Hx;
    (assert (x' = o) as -> by congruence; pose proof (keyed_intent _ _ q Hx) as Hk;
     apply (guarded_ownership _ _ o); [by apply active_none|by rewrite Hk|rewrite Hk; by apply Z.ltb_lt|destruct (ro_progress o); try done; simpl; by rewrite Ef]).
Qed.

Lemma find_reopenable_inv ops id p : find_reopenable (rj_memory j) ops = Some (id, p) ->
  exists o, o ∈ ops /\ operation_key o = id /\ reopenable (rj_memory j) o = Some p.
Proof.
  induction ops as [|o ops IH]; [done|]. simpl. destruct (reopenable (rj_memory j) o) eqn:E.
  - intros [= <- <-]. exists o. split; [by left|done].
  - intros Hf. destruct (IH Hf) as (x & Hx & ?). exists x. split; [by right|done].
Qed.
Lemma reopenable_inv o p : reopenable (rj_memory j) o = Some p ->
  exists r, ro_progress o = Quarantined r /\ rm_before_quarantine (rj_memory j) !! operation_key o = Some p /\
    (reopen_budget (rj_memory j) (operation_key o) r p).1 < (reopen_budget (rj_memory j) (operation_key o) r p).2.
Proof.
  unfold reopenable. destruct (ro_progress o); try done. destruct (rm_before_quarantine _ !! _) as [before|]; [|done].
  destruct (reopen_budget _ _ _ _) as [count maximum] eqn:Eb. destruct (Z.leb_spec maximum count); [done|].
  destruct (_ || _); [|done]. intros [= ->]. exists reason. by rewrite Eb.
Qed.

Lemma reopen_next_stepped : stepped j (reopen_next_retryable_quarantine env j).1.
Proof.
  unfold reopen_next_retryable_quarantine, mbind' at 1, mlift.
  destruct (active_operation (rj_memory j)) as [[a|]|] eqn:Ha; [by apply stepped_refl| |by apply stepped_refl].
  destruct (List.find _ _) as [o|] eqn:Ef; [apply ownership_stepped|].
  destruct (find_reopenable _ _) as [[id p]|] eqn:Er; [|by apply stepped_refl].
  apply find_reopenable_inv in Er as (o & Hin & Hid & Hr). apply reopenable_inv in Hr as (r & Hr & Hb & _).
  apply elem_of_btree_values in Hin as [k Ho]. pose proof (mk_keyed _ (rok_memory _ Hok) _ _ Ho). subst id. assert (k = operation_key o) as -> by done.
  unfold mbind'. pose proof (advance_stepped (operation_key o) p) as Hs.
  destruct (advance env (operation_key o) p j) as [j1 [x|]]; simpl in *; apply Hs; intros x' Hx;
    (assert (x' = o) as -> by congruence; eapply quarantine_guarded; [done|done|done|done|by left]).
Qed.

Lemma credit_stepped o : next_reconcilable_post_credit_settlement_quarantine (rj_memory j) = Ok (Some o) ->
  stepped j (reopen_post_credit_settlement_quarantine env (operation_key o) j).1.
Proof.
  intros Hn. apply next_quarantined_inv in Hn as (Ha & Ho & r & Hr & Hf).
  unfold reopen_post_credit_settlement_quarantine, mbind', known_operation, before_quarantine, mlift. rewrite Ho. simpl. rewrite Hr.
  destruct (rm_before_quarantine _ !! _) as [before|] eqn:Hb; [|by apply stepped_refl]. simpl.
  destruct (ensure _ _) as [[]|]; [|by apply stepped_refl]. simpl. apply advance_stepped. intros x Hx.
  eapply quarantine_guarded; [done|done|by replace x with o by congruence|done|by left].
Qed.

Lemma deposit_stepped chain network hash o : next_reconcilable_direct_deposit_quarantine (rj_memory j) chain network = Ok (Some o) ->
  stepped j (record_reconciled_direct_deposit env (operation_key o) chain hash j).1.
Proof.
  intros Hn. apply next_quarantined_inv in Hn as (Ha & Ho & r & Hr & Hf).
  unfold record_reconciled_direct_deposit, mbind', known_operation, before_quarantine, mlift. rewrite Ho. simpl.
  destruct (ensure (bool_decide _) _) as [[]|] eqn:He; [|by apply stepped_refl]. apply ensure_Ok, bool_decide_eq_true in He. simpl.
  destruct (ensure _ _) as [[]|]; [|by apply stepped_refl]. simpl. apply append_stepped; [done|done|].
  eapply quarantine_guarded; [done|done|done|done|]. right; left. by eauto.
Qed.

Lemma fill_stepped hash received o : next_reconcilable_across_fill_quarantine (rj_memory j) = Ok (Some o) ->
  stepped j (record_reconciled_across_fill env (operation_key o) hash received j).1.
Proof.
  intros Hn. apply next_quarantined_inv in Hn as (Ha & Ho & r & Hr & Hf).
  unfold record_reconciled_across_fill, mbind', known_operation, before_quarantine, mlift. rewrite Ho. simpl.
  destruct (rm_before_quarantine _ !! _) as [before|] eqn:Hb; [|by apply stepped_refl]. simpl.
  destruct before; try by apply stepped_refl. destruct (ensure (_ <=? _) _) as [[]|]; [|by apply stepped_refl]. simpl.
  destruct (ensure _ _) as [[]|]; [|by apply stepped_refl]. simpl. apply append_stepped; [done|done|].
  eapply quarantine_guarded; [done|done|done|done|]. right; right. by eauto 10.
Qed.

Lemma nonce_stepped o : next_reconcilable_consumed_nonce_deposit_quarantine (rj_memory j) = Ok (Some o) ->
  stepped j (record_reconciled_consumed_nonce_deposit env (operation_key o) j).1.
Proof.
  intros Hn. apply next_quarantined_inv in Hn as (Ha & Ho & r & Hr & Hf).
  unfold record_reconciled_consumed_nonce_deposit, mbind', known_operation, before_quarantine, mlift. rewrite Ho. simpl.
  destruct (rm_before_quarantine _ !! _) as [before|] eqn:Hb; [|by apply stepped_refl]. simpl.
  destruct (ensure _ _) as [[]|]; [|by apply stepped_refl]. simpl. apply append_stepped; [done|done|].
  eapply quarantine_guarded; [done|done|done|done|by left].
Qed.
End call.

(** ** Runs of calls and restarts *)
Inductive rebalance_call :=
  | CallReserve (env : RebalanceEnv) (r : RebalanceExecutionRequest)
  | CallAdvance (env : RebalanceEnv) (p : RebalanceExecutionProgress)
  | CallReopenNext (env : RebalanceEnv)
  | CallReopenOwnership (env : RebalanceEnv) (id : string)
  | CallPostCredit (env : RebalanceEnv)
  | CallDeposit (env : RebalanceEnv) (chain : Z) (network : string) (hash : Z)
  | CallFill (env : RebalanceEnv) (hash received : Z)
  | CallConsumedNonce (env : RebalanceEnv).

(** The runtime advances the active transfer and settles the quarantine a query
    gave it. *)
Definition on_selected (next : TRes (option RebalanceExecutionOperation)) (f : string -> RebalanceExecutionJournal) (j : RebalanceExecutionJournal) :=
  match next with Ok (Some o) => f (operation_key o) | _ => j end.

Definition run_rebalance_call (c : rebalance_call) (j : RebalanceExecutionJournal) : RebalanceExecutionJournal :=
  let m := rj_memory j in
  match c with
  | CallReserve env r => (reserve env r j).1
  | CallAdvance env p => on_selected (active_operation m) (fun id => (advance env id p j).1) j
  | CallReopenNext env => (reopen_next_retryable_quarantine env j).1
  | CallReopenOwnership env id => (reopen_retryable_travel_rule_ownership_failure env id j).1
  | CallPostCredit env =>
      on_selected (next_reconcilable_post_credit_settlement_quarantine m) (fun id => (reopen_post_credit_settlement_quarantine env id j).1) j
  | CallDeposit env chain network hash =>
      on_selected (next_reconcilable_direct_deposit_quarantine m chain network)
        (fun id => (record_reconciled_direct_deposit env id chain hash j).1) j
  | CallFill env hash received =>
      on_selected (next_reconcilable_across_fill_quarantine m) (fun id => (record_reconciled_across_fill env id hash received j).1) j
  | CallConsumedNonce env =>
      on_selected (next_reconcilable_consumed_nonce_deposit_quarantine m) (fun id => (record_reconciled_consumed_nonce_deposit env id j).1) j
  end.

Lemma on_selected_stepped next f j :
  rebalance_ok j -> (forall o, next = Ok (Some o) -> stepped j (f (operation_key o))) -> stepped j (on_selected next f j).
Proof. intros Hok Hf. unfold on_selected. destruct next as [[o|]|]; [by apply Hf|by apply stepped_refl|by apply stepped_refl]. Qed.

Lemma call_stepped c j : rebalance_ok j -> within_limits (rj_memory j) -> issued (rj_memory j) -> stepped j (run_rebalance_call c j).
Proof.
  intros Hok Hl Hi. destruct c as [env r|env p|env|env id|env|env chain network hash|env hash received|env]; simpl.
  - by apply reserve_stepped.
  - apply on_selected_stepped; [done|]. intros o Ho. by apply advance_active_stepped.
  - by apply reopen_next_stepped.
  - by apply ownership_stepped.
  - apply on_selected_stepped; [done|]. intros o Ho. by apply credit_stepped.
  - apply on_selected_stepped; [done|]. intros o Ho. by eapply deposit_stepped.
  - apply on_selected_stepped; [done|]. intros o Ho. by apply fill_stepped.
  - apply on_selected_stepped; [done|]. intros o Ho. by apply nonce_stepped.
Qed.

(** The journal from the creation of its file. *)
Inductive rebalance_run : RebalanceExecutionJournal -> RebalanceExecutionJournal -> Prop :=
  | rebalance_run_refl j : rebalance_run j j
  | rebalance_run_call c j j1 : rebalance_run j j1 -> within_limits (rj_memory j1) -> rebalance_run j (run_rebalance_call c j1)
  | rebalance_run_restart j j1 j2 : rebalance_run j j1 -> open_rebalance (rj_file j1) = Ok j2 -> rebalance_run j j2.
Definition new_journal : RebalanceExecutionJournal := mkRebalanceJournal [] no_memory false.

Lemma no_memory_issued : issued no_memory.
Proof. intros id [o Ho]. simpl in Ho. by rewrite lookup_empty in Ho. Qed.
Lemma new_journal_ok : rebalance_ok new_journal.
Proof. split; [apply no_memory_ok| |done]. intros _. split; [by left|done]. Qed.

Definition run_ok (j j' : RebalanceExecutionJournal) : Prop :=
  rebalance_ok j' /\ issued (rj_memory j') /\ rtc rebalance_step (rj_memory j) (rj_memory j').

Lemma stepped_run_ok j j' : issued (rj_memory j) -> memory_ok (rj_memory j) -> stepped j j' -> run_ok j j'.
Proof.
  intros Hi Hm [Hok Hs]. split; [done|]. destruct Hs as [->|Hs]; [done|]. split; [by eapply issued_step|by apply rtc_once].
Qed.
Lemma run_ok_trans j1 j2 j3 : run_ok j1 j2 -> run_ok j2 j3 -> run_ok j1 j3.
Proof. intros (_ & _ & H12) (Hok & Hi & H23). split; [done|]. split; [done|]. by etransitivity. Qed.

(** A restart of a healthy journal changes nothing; after a fault the record may
    be there. *)
Lemma restart_stepped j j' : rebalance_ok j -> open_rebalance (rj_file j) = Ok j' -> stepped j j'.
Proof.
  intros Hok Ho. destruct (open_rebalance_inv _ _ Ho) as (Hm & Hf & Hp & Hr). split.
  - split; [done|by rewrite Hf|congruence].
  - destruct (rj_poisoned j) eqn:Hpj; [by apply (rok_fault _ Hok)|]. pose proof (rok_file _ Hok Hpj) as Hrj.
    rewrite (replays_open_rebalance _ _ Hrj) in Ho. injection Ho as <-. by left.
Qed.

Lemma rebalance_run_ok j j' : rebalance_run j j' -> rebalance_ok j -> issued (rj_memory j) -> run_ok j j'.
Proof.
  induction 1 as [j|c j j1 _ IH Hl|j j1 j2 _ IH Ho]; intros Hok Hi; [done| |];
    destruct (IH Hok Hi) as (Hok1 & Hi1 & Hs1); (eapply run_ok_trans; [by split|]; apply stepped_run_ok; [done|apply Hok1|]).
  - by apply call_stepped.
  - by apply restart_stepped.
Qed.
Lemma new_run_ok j : rebalance_run new_journal j -> run_ok new_journal j.
Proof. intros Hr. apply rebalance_run_ok; [done|apply new_journal_ok|apply no_memory_issued]. Qed.

(** An invariant of the steps is one of the runs. *)
Lemma rebalance_run_invariant (P : RebalanceMemory -> Prop) j :
  (forall m m', memory_ok m -> P m -> rebalance_step m m' -> P m') -> P no_memory -> rebalance_run new_journal j -> P (rj_memory j).
Proof.
  intros Hstep Hp0 Hr. destruct (new_run_ok j Hr) as (_ & _ & Hs). revert Hp0. change no_memory with (rj_memory new_journal).
  pose proof (rok_memory _ new_journal_ok) as Hm. induction Hs as [m|m m1 m2 Hs _ IH]; intros Hp; [done|].
  apply IH; [by eapply step_ok|by eapply Hstep].
Qed.

Lemma steps_carried m m' id x : memory_ok m -> rtc rebalance_step m m' -> rm_operations m !! id = Some x ->
  exists x', rm_operations m' !! id = Some x' /\ carried m m' x x'.
Proof.
  intros Hm Hs. revert x. induction Hs as [m|m m1 m2 Hs _ IH]; intros x Hx; [exists x; split; [done|apply carried_refl]|].
  destruct (step_carried _ _ _ _ Hm Hs Hx) as (x1 & Hx1 & C1). destruct (IH (step_ok _ _ Hm Hs) _ Hx1) as (x2 & Hx2 & C2).
  exists x2. split; [done|by eapply carried_trans].
Qed.

(** ** The journal *)
(** C25. from the creation of the journal on, through any calls, write faults and
    restarts, at most one transfer is active, and while one is, no other transfer
    can be reserved. *)
Theorem single_active_transfer j :
  rebalance_run new_journal j ->
  exists active, active_operation (rj_memory j) = Ok active /\
    (forall o env r, active = Some o -> exists e, reserve env r j = (j, Err e)).
Proof.
  intros Hr. destruct (new_run_ok j Hr) as (Hok & _ & _). assert (Hs : single (rj_memory j)).
  { apply rebalance_run_invariant; [|by intros ? ? (? & ? & _)|done]. intros m m' _. apply single_step. }
  destruct (proj1 (single_active _ (rok_memory _ Hok)) Hs) as [a Ha]. exists a. split; [done|]. intros o env r ->.
  unfold reserve, mbind', mlift. destruct (validate_request r) as [[]|]; [|by eexists]. rewrite Ha. by eexists.
Qed.

(** C26. a transfer never moves back: through any calls, write faults and restarts
    a journaled transfer stays in the journal with its intent, a completed or
    cancelled one never changes, and the stage it reached (where it was
    quarantined, if it is) never decreases, except that a withdrawal the exchange
    rejected for ownership is submitted again, at most twice in its life. *)
Theorem transfers_move_forward j1 j2 id o :
  rebalance_run new_journal j1 -> rebalance_run j1 j2 -> rm_operations (rj_memory j1) !! id = Some o ->
  exists o', rm_operations (rj_memory j2) !! id = Some o' /\ carried (rj_memory j1) (rj_memory j2) o o' /\
    count_of (rm_ownership_reopens (rj_memory j2)) id <= MAX_TRAVEL_RULE_OWNERSHIP_REJECTION_REOPENS.
Proof.
  intros Hr1 Hr2 Ho. destruct (new_run_ok j1 Hr1) as (Hok1 & Hi1 & Hs1). destruct (rebalance_run_ok j1 j2 Hr2 Hok1 Hi1) as (Hok2 & Hi2 & Hs2).
  destruct (steps_carried _ _ _ _ (rok_memory _ Hok1) Hs2 Ho) as (o' & Ho' & Hc). exists o'. split; [done|]. split; [done|].
  assert (Hb : reopens_bounded no_memory) by (intros i; unfold count_of; simpl; by rewrite lookup_empty).
  assert (Hs : rtc rebalance_step no_memory (rj_memory j2)) by (etransitivity; [exact Hs1|done]). revert Hb. clear -Hs.
  induction Hs as [m|m m' m'' Hs _ IH]; intros Hb; [apply Hb|]. by apply IH, (step_reopens m).
Qed.

(** The rebalance journal survives a restart: reopening the file of a healthy
    journal reproduces its whole memory, and after a write fault of any length the
    next process sees the old memory, refuses the record cut short, or sees the
    memory the append would have left. *)
Theorem rebalance_journal_restart j env o now next line k :
  rebalance_run new_journal j -> within_limits (rj_memory j) ->
  prepare_rebalance env o j = Ok (now, next, line) -> re_write_fault env = Some k ->
  open_rebalance (rj_file j) = Ok j /\
  open_rebalance (rj_file (append_rebalance env o j).1) =
    (if decide (k = O) then Ok j
     else if decide (k < length line)%nat
          then Err "rebalance executor journal ends with a partial record"%string
          else Ok (append_rebalance (mkRebalanceEnv (re_now_ms env) None) o j).1).
Proof.
  intros Hr Hl Hp Hk. destruct (new_run_ok j Hr) as (Hok & _ & _).
  destruct (prepare_rebalance_inv _ _ _ _ _ _ Hok Hl Hp) as [m' Hpr]. pose proof (pr_healthy _ _ _ _ _ _ _ Hpr) as Hpois.
  assert (Hj : mkRebalanceJournal (rj_file j) (rj_memory j) false = j) by (destruct j; simpl in *; by subst).
  split; [by rewrite (replays_open_rebalance _ _ (rok_file _ Hok Hpois)), Hj|].
  unfold append_rebalance at 1. rewrite Hp, Hk. cbn [fst rj_file].
  rewrite (rebalance_fault_reopens _ _ _ _ _ _ _ k Hok Hpr), Hj. repeat case_decide; [done|done|].
  assert (Hp' : prepare_rebalance (mkRebalanceEnv (re_now_ms env) None) o j = Ok (now, next, line)) by done.
  unfold append_rebalance. rewrite Hp'. simpl. rewrite (pr_commit _ _ _ _ _ _ _ Hpr). by rewrite Hpois.
Qed.

(** ** Automatic reopens *)
Lemma append_done env o j j' o' :
  rebalance_ok j -> within_limits (rj_memory j) -> append_rebalance env o j = (j', Ok o') ->
  o' = o /\ record_step o LiveAppend (rj_memory j) (rj_memory j').
Proof.
  intros Hok Hl Ha. unfold append_rebalance in Ha. destruct (prepare_rebalance env o j) as [[[now next] line]|] eqn:Hp; [|done].
  destruct (re_write_fault env); [done|]. destruct (prepare_rebalance_inv _ _ _ _ _ _ Hok Hl Hp) as [m' [_ Hs Hc _ _]].
  rewrite Hc in Ha. injection Ha as <- <-. done.
Qed.

Lemma advance_done env id p j j' o :
  rebalance_ok j -> within_limits (rj_memory j) -> advance env id p j = (j', Ok o) ->
  ro_progress o = p /\ operation_key o = id /\ record_step o LiveAppend (rj_memory j) (rj_memory j').
Proof.
  intros Hok Hl Ha. unfold advance, mbind', known_operation, before_quarantine, mlift in Ha.
  destruct (rm_operations (rj_memory j) !! id) as [x|] eqn:Hx; [|done]. simpl in Ha.
  destruct (ensure _ _) as [[]|]; [|done]. simpl in Ha. destruct (validate_transition _ _ _ _) as [[]|]; [|done]. simpl in Ha.
  destruct (append_done _ _ _ _ _ Hok Hl Ha) as [-> Hs]. split; [done|]. split; [|done]. exact (mk_keyed _ (rok_memory _ Hok) _ _ Hx).
Qed.

Lemma unindexed_target i r n :
  unindexed_master_transfer_quarantine r = true -> approved_quarantine_retry i (Quarantined r) n = true -> n = IntentRecorded.
Proof.
  unfold unindexed_master_transfer_quarantine at 1, str_eqb. intros Hr%bool_decide_eq_true. revert Hr.
  set (text := "unindexed Binance master-transfer retry found staged master inventory"%string). intros ->.
  assert (Hall : (destination_change_quarantine text = false /\ ownership_guard_quarantine text = false /\ signature_encoding_quarantine text = false) /\
    (header_quarantine text = false /\ dex_unknown_quarantine text = false /\ across_fill_timeout_quarantine text = false) /\
    consumed_nonce_deposit_quarantine text = false /\ str_eqb text "illegal rebalance executor state transition" = false)
    by (vm_compute; done).
  clearbody text. destruct Hall as ((E1 & E2 & E3) & (E4 & E5 & E6) & E7 & E8).
  destruct n; try done; simpl;
    unfold reconciled_direct_deposit_transition, reconciled_across_fill_transition, reconciled_consumed_nonce_deposit_transition,
      retryable_premutation_capital_preflight_quarantine, corrected_across_deposit_chain_quarantine;
    rewrite ?E1, ?E2, ?E3, ?E4, ?E5, ?E6, ?E7, ?E8;
    destruct (ri_route i), (ri_direction i); simpl; rewrite ?E1, ?E2, ?E3, ?E4, ?E5, ?E6, ?E7, ?E8, ?andb_false_r; done.
Qed.

Lemma reopen_counts o m m' previous r :
  record_step o LiveAppend m m' -> rm_operations m !! operation_key o = Some previous -> ro_progress previous = Quarantined r ->
  (reopen_budget m' (operation_key o) r (ro_progress o)).1 = (reopen_budget m (operation_key o) r (ro_progress o)).1 + 1.
Proof.
  intros Hs Hp Hr. destruct (step_same_transition o previous m m' Hs Hp) as [_ Hv].
  pose proof (step_same_quarantine o previous m m' Hs Hp r Hr) as Hlive.
  destruct (validate_transition_inv _ _ _ _ Hv) as [_ _ Hsh]. rewrite Hr in Hsh.
  destruct Hsh as [Hq|[[Hq _]|[Hq _]]]; [|done|by destruct (Hq r)].
  destruct Hs as [_ _ _ _ [Hc1 _ Hc3]]. specialize (Hc1 (operation_key o)). specialize (Hc3 (operation_key o)).
  rewrite Hp, bool_decide_eq_true_2 in Hc1, Hc3 by done. cbn [fmap option_fmap option_map] in Hc1, Hc3. rewrite Hr in Hc1, Hc3.
  assert (is_quarantined (ro_progress o) = false) as Enq by (by destruct (ro_progress o)). rewrite Enq in Hc1. simpl in Hc1.
  unfold reopen_budget. destruct (unindexed_master_transfer_quarantine r) eqn:Eu.
  - rewrite (unindexed_target _ _ _ Eu Hq) in Hc3. simpl in *. by rewrite Eu in Hc3.
  - by destruct (retryable_premutation_capital_preflight_quarantine r (ro_progress o)).
Qed.

(** Why an automatic reopen was made. *)
Definition reopened_quarantine (m m' : RebalanceMemory) (previous o : RebalanceExecutionOperation) : Prop :=
  exists r, ro_progress previous = Quarantined r /\ rm_before_quarantine m !! operation_key o = Some (ro_progress o) /\
    (reopen_budget m (operation_key o) r (ro_progress o)).1 < (reopen_budget m (operation_key o) r (ro_progress o)).2 /\
    (reopen_budget m' (operation_key o) r (ro_progress o)).1 = (reopen_budget m (operation_key o) r (ro_progress o)).1 + 1.
Definition reopened_ownership (m m' : RebalanceMemory) (previous o : RebalanceExecutionOperation) : Prop :=
  (exists r, ro_progress previous = Failed r /\ retryable_travel_rule_ownership_failure r = true) /\
  ro_progress o = BinanceWithdrawalSubmissionStarted TRAVEL_RULE_BINANCE_WITHDRAWAL_API_MODE (ri_wallet_balance_before (ro_intent previous)) 0 /\
  count_of (rm_ownership_reopens m) (operation_key o) < MAX_TRAVEL_RULE_OWNERSHIP_REJECTION_REOPENS /\
  count_of (rm_ownership_reopens m') (operation_key o) = count_of (rm_ownership_reopens m) (operation_key o) + 1.

Lemma ownership_done env id j j' o :
  rebalance_ok j -> within_limits (rj_memory j) ->
  reopen_retryable_travel_rule_ownership_failure env id j = (j', Ok (Some o)) ->
  exists previous, rm_operations (rj_memory j) !! operation_key o = Some previous /\ reopened_ownership (rj_memory j) (rj_memory j') previous o.
Proof.
  intros Hok Hl Hr. unfold reopen_retryable_travel_rule_ownership_failure, mbind', mlift in Hr.
  destruct (active_operation (rj_memory j)) as [[a|]|]; [done| |done]. destruct (rm_operations (rj_memory j) !! id) as [x|] eqn:Hx; [|done].
  destruct (match ro_progress x with Failed _ => _ | _ => _ end && _) eqn:Ec; [|done]. apply andb_true_iff in Ec as [Ef Ec]. apply Z.ltb_lt in Ec.
  destruct (advance _ _ _ _) as [j1 [y|]] eqn:Ha; [|done]. injection Hr as <- <-.
  destruct (advance_done _ _ _ _ _ _ Hok Hl Ha) as (Hp & Hk & Hs). subst id. exists x. split; [done|].
  destruct (ro_progress x) eqn:Ex; try done. split; [by eexists|]. split; [done|]. split; [done|].
  rewrite (step_same_count y x _ _ Hs Hx), Ex, Hp. simpl. by rewrite Ef.
Qed.

(** C27. automatic reopens are bounded: a reopen happens only while no transfer is
    active, puts a quarantined transfer back at exactly the progress it had, or
    sets a withdrawal rejected for ownership to the start of its submission, and each time the budget of
    its cause was not used up and is charged by one. *)
Theorem automatic_reopen_budgeted env j j' o :
  rebalance_run new_journal j -> within_limits (rj_memory j) -> reopen_next_retryable_quarantine env j = (j', Ok (Some o)) ->
  active_operation (rj_memory j) = Ok None /\
  exists previous, rm_operations (rj_memory j) !! operation_key o = Some previous /\
    (reopened_quarantine (rj_memory j) (rj_memory j') previous o \/ reopened_ownership (rj_memory j) (rj_memory j') previous o).
Proof.
  intros Hrun Hl Hr. destruct (new_run_ok j Hrun) as (Hok & _ & _). unfold reopen_next_retryable_quarantine, mbind' at 1, mlift in Hr.
  destruct (active_operation (rj_memory j)) as [[a|]|]; [done| |done]. split; [done|]. destruct (List.find _ _) as [x|].
  - destruct (ownership_done _ _ _ _ _ Hok Hl Hr) as (p & Hp & Ho). exists p. split; [done|by right].
  - destruct (find_reopenable _ _) as [[id p]|] eqn:Er; [|done]. apply find_reopenable_inv in Er as (x & Hin & Hid & Hre).
    apply reopenable_inv in Hre as (r & Hr' & Hb & Hbud). apply elem_of_btree_values in Hin as [k Hx].
    assert (k = id) as -> by (rewrite <- Hid; symmetry; apply (mk_keyed _ (rok_memory _ Hok) _ _ Hx)). rewrite Hid in Hb, Hbud.
    unfold mbind' in Hr. destruct (advance env id p j) as [j1 [y|]] eqn:Ha; [|done]. injection Hr as <- <-.
    destruct (advance_done _ _ _ _ _ _ Hok Hl Ha) as (Hp & Hk & Hs). subst id. rewrite <- Hp in Hb, Hbud. exists x. rewrite <- Hk in *. split; [done|]. left.
    exists r. split; [done|]. split; [done|]. split; [done|]. by eapply reopen_counts.
Qed.
End runs.
