(* ===== verification/RebalanceDemo.v ===== *)
(** * A concrete transfer

    A codec over a finite catalogue of payloads, and one withdrawal to World Chain:
    quarantined once, rejected for ownership once, both reopened, and completed,
    with a restart and a cut write on the way. *)
From Stdlib Require Import Lia.
From stdpp Require Import base gmap strings numbers fin_maps pretty relations list.
From S2P Require Import Prelude LineLog TextCodec ExecutionPlan Planner RebalanceJournal RebalanceFacts RebalanceRuns.

#[local] Instance RebalancePayload_eq_dec : EqDecision RebalancePayload.
Proof. solve_decision. Defined.

Definition rebalance_digest_text : string := "00112233445566778899aabbccddeeff00112233445566778899aabbccddeeff".
Definition withdrawal_action : RebalanceAction := mkAction BinanceToWallet 100 (Direct "WLD" 480).
Definition withdrawal_request : RebalanceExecutionRequest :=
  mkRebalanceRequest WorldChainV12 "WLD" 18 11 22 withdrawal_action 300 50 100 None None.
Definition withdrawal_scope : RebalanceJournalScope :=
  mkRebalanceScope 2 "binance:trading-subaccount" "chain:480" "rebalance-world-chain-v12".
Definition withdrawal_intent : RebalanceExecutionIntent :=
  mkRebalanceIntent (Some withdrawal_scope) "rebalance-0-0011223344556677" rebalance_digest_text "rb00112233445566778899aabbccddee"
    "WLD" 18 11 22 BinanceToWallet (Direct "WLD" 480) 100 300 50 100 None None.

Definition started : RebalanceExecutionProgress := BinanceWithdrawalSubmissionStarted "travel_rule_ae_self_owned" 50 0.
Definition withdrawal_history : list RebalanceExecutionProgress :=
  [IntentRecorded; BinanceTransferSubmitted 7 50; BinanceTransferCompleted 7 50; started;
   Quarantined "Binance Travel Rule withdrawal submission failed with HTTP 400 Bad Request, code -1022: Signature for this request is not valid.";
   started;
   Failed "terminal Binance Travel Rule withdrawal rejection: Binance Travel Rule withdrawal submission failed with HTTP 400 Bad Request, code -4024: [031031] User does not own this currency.";
   started; BinanceWithdrawalSubmitted "w1" 50; Completed 200 150].

(** A production request, with its fee and session. *)
Definition production_request : RebalanceExecutionRequest :=
  mkRebalanceRequest ArbitrumFullLive "USDC" 6 33 22 (mkAction BinanceToWallet 100 (Direct "ARBITRUM" 42161)) 300 50 100 (Some 3) (Some "session-1"%string).
Definition production_scope : RebalanceJournalScope :=
  mkRebalanceScope 2 "binance:trading-subaccount" "chain:42161" "rebalance-arbitrum-usdc-esp".
Definition production_intent : RebalanceExecutionIntent :=
  mkRebalanceIntent (Some production_scope) "rebalance-0-0011223344556677" rebalance_digest_text "rb00112233445566778899aabbccddee"
    "USDC" 6 33 22 BinanceToWallet (Direct "ARBITRUM" 42161) 100 300 50 100 (Some (text_of 3)) (Some "session-1"%string).

Definition rebalance_catalogue : list RebalancePayload :=
  imap (fun n p => mkRebalancePayload 1 (Z.of_nat n) 1000 (mkRebalanceOperation withdrawal_intent p)) withdrawal_history ++
  [mkRebalancePayload 1 0 1000 (mkRebalanceOperation production_intent IntentRecorded);
   mkRebalancePayload 1 1 1000 (mkRebalanceOperation production_intent (BinanceTransferSubmitted 7 50))].
Definition rebalance_index (p : RebalancePayload) : option nat := fst <$> list_find (fun q => q = p) rebalance_catalogue.

#[global] Instance demo_rebalance_text : EvmText := {
  address_from_str := of_text; b256_from_str := of_text; keccak256 := fun bs => Z.of_nat (length bs);
}.
#[global] Instance demo_rebalance_codec : RebalanceCodec := {
  rebalance_payload_to_vec p := n ← rebalance_index p; Some [11 + Z.of_nat n];
  rebalance_record_to_vec r :=
    n ← rebalance_index (rr_payload r);
    if decide (rr_checksum r = rebalance_digest_text) then Some [11 + Z.of_nat n] else None;
  rebalance_raw_from_slice bs := Some (mkRawRecord bs rebalance_digest_text);
  rebalance_payload_from_str bs := match bs with [b] => rebalance_catalogue !! Z.to_nat (b - 11) | _ => None end;
  rebalance_request_to_vec _ := Some [];
  rebalance_sha256_hex _ := rebalance_digest_text;
  u256_text := text_of;
  parse_u256 := of_text;
}.
Lemma index_lookup p n : rebalance_index p = Some n -> rebalance_catalogue !! n = Some p.
Proof.
  unfold rebalance_index. destruct (list_find _ _) as [[k q]|] eqn:E; [|done]. intros [= <-]. by apply list_find_Some in E as (Hq & -> & _).
Qed.
#[global] Instance demo_rebalance_laws : RebalanceCodecLaws.
Proof.
  constructor; [intros [p c] bs|intros p raw|intros [p c] bs|done|intros; by apply of_text_of];
    cbn [rebalance_record_to_vec rebalance_payload_to_vec demo_rebalance_codec rr_payload rr_checksum];
    destruct (rebalance_index p) as [n|] eqn:E; simpl; try done.
  - case_decide; [|done]. intros [= <-]. subst. eauto.
  - intros [= <-]. simpl. replace (Z.to_nat (11 + Z.of_nat n - 11)) with n by lia. by apply index_lookup.
  - case_decide; [|done]. intros [= <-]. rewrite list_elem_of_singleton. lia.
Qed.

(** ** The run *)
Definition rebalance_env : RebalanceEnv := mkRebalanceEnv (Ok 1000) None.
Definition advance_to (p : RebalanceExecutionProgress) : rebalance_call := CallAdvance rebalance_env p.
Definition after (calls : list rebalance_call) : RebalanceExecutionJournal := fold_left (fun j c => run_rebalance_call c j) calls new_journal.

Definition at_ (n : nat) : RebalanceExecutionProgress := default IntentRecorded (withdrawal_history !! n).
Definition submitted_calls : list rebalance_call := [CallReserve rebalance_env withdrawal_request; advance_to (at_ 1); advance_to (at_ 2); advance_to started].
Definition quarantined_calls : list rebalance_call := submitted_calls ++ [advance_to (at_ 4)].
Definition later_calls : list rebalance_call :=
  [CallReopenNext rebalance_env; advance_to (at_ 6); CallReopenNext rebalance_env; advance_to (at_ 8); advance_to (at_ 9)].

Lemma counts_below (c : gmap string Z) id : map_Forall (fun _ n => n < 255) c -> count_of c id < 255.
Proof. intros Hc. unfold count_of. destruct (c !! id) eqn:E; simpl; [by apply (Hc id)|lia]. Qed.
Definition roomy (m : RebalanceMemory) : bool :=
  (rm_next_sequence m + 1 <? 2 ^ 64) && bool_decide (map_Forall (fun _ n => n < 255) (rm_reopens m))
  && bool_decide (map_Forall (fun _ n => n < 255) (rm_ownership_reopens m)) && bool_decide (map_Forall (fun _ n => n < 255) (rm_unindexed_reopens m)).
Lemma roomy_limits m : roomy m = true -> within_limits m.
Proof. unfold roomy. intros Hr. bool_prop. split; [done|]. intros id. split; [|split]; by apply counts_below. Qed.

Fixpoint roomy_run (j : RebalanceExecutionJournal) (calls : list rebalance_call) : bool :=
  match calls with [] => true | c :: cs => roomy (rj_memory j) && roomy_run (run_rebalance_call c j) cs end.
Lemma calls_run calls j j0 : rebalance_run j0 j -> roomy_run j calls = true -> rebalance_run j0 (fold_left (fun j c => run_rebalance_call c j) calls j).
Proof.
  revert j. induction calls as [|c cs IH]; intros j Hj Hr; [done|]. simpl in Hr. apply andb_true_iff in Hr as [Hl Hr].
  apply IH; [|done]. apply rebalance_run_call; [done|by apply roomy_limits].
Qed.

Definition submitted : RebalanceExecutionJournal := after submitted_calls.
Definition quarantined : RebalanceExecutionJournal := after quarantined_calls.
Definition settled_journal : RebalanceExecutionJournal := fold_left (fun j c => run_rebalance_call c j) later_calls quarantined.

Lemma submitted_run : rebalance_run new_journal submitted.
Proof. apply calls_run; [apply rebalance_run_refl|vm_compute; reflexivity]. Qed.
Lemma quarantined_run : rebalance_run new_journal quarantined.
Proof. apply calls_run; [apply rebalance_run_refl|vm_compute; reflexivity]. Qed.
Lemma quarantined_reopens : open_rebalance (rj_file quarantined) = Ok quarantined.
Proof. vm_compute. reflexivity. Qed.
Lemma settled_run : rebalance_run quarantined settled_journal.
Proof. apply calls_run; [|vm_compute; reflexivity]. eapply rebalance_run_restart; [apply rebalance_run_refl|apply quarantined_reopens]. Qed.

Lemma single_active_transfer_witness :
  exists active, active_operation (rj_memory submitted) = Ok active /\
    (forall o env r, active = Some o -> exists e, reserve env r submitted = (submitted, Err e)).
Proof. apply single_active_transfer, submitted_run. Defined.

Lemma transfers_move_forward_witness :
  exists o', rm_operations (rj_memory settled_journal) !! "rebalance-0-0011223344556677"%string = Some o' /\
    carried (rj_memory quarantined) (rj_memory settled_journal) (mkRebalanceOperation withdrawal_intent (at_ 4)) o' /\
    count_of (rm_ownership_reopens (rj_memory settled_journal)) "rebalance-0-0011223344556677" <= MAX_TRAVEL_RULE_OWNERSHIP_REJECTION_REOPENS.
Proof.
  apply (transfers_move_forward quarantined settled_journal); [apply quarantined_run|apply settled_run|vm_compute; reflexivity].
Defined.

(** The transfer is completed after one ownership retry. *)
Lemma settled_completed :
  ro_progress <$> rm_operations (rj_memory settled_journal) !! "rebalance-0-0011223344556677"%string = Some (Completed 200 150) /\
  count_of (rm_ownership_reopens (rj_memory settled_journal)) "rebalance-0-0011223344556677" = 1.
Proof. vm_compute. done. Qed.

Definition cut_rebalance : RebalanceEnv := mkRebalanceEnv (Ok 1000) (Some 1%nat).
Definition quarantine_operation : RebalanceExecutionOperation := mkRebalanceOperation withdrawal_intent (at_ 4).
Lemma quarantine_prepared :
  exists next, prepare_rebalance cut_rebalance quarantine_operation submitted = Ok (1000, next, [15; 10]).
Proof. eexists. vm_compute. reflexivity. Qed.
Lemma submitted_limits : within_limits (rj_memory submitted).
Proof. apply roomy_limits. vm_compute. reflexivity. Qed.

Lemma rebalance_journal_restart_witness :
  open_rebalance (rj_file submitted) = Ok submitted /\
  open_rebalance (rj_file (append_rebalance cut_rebalance quarantine_operation submitted).1)
    = Err "rebalance executor journal ends with a partial record"%string.
Proof.
  destruct quarantine_prepared as [next Hp].
  exact (rebalance_journal_restart submitted cut_rebalance quarantine_operation 1000 next [15; 10] 1 submitted_run submitted_limits Hp eq_refl).
Defined.

Definition reopened : RebalanceExecutionJournal * TRes (option RebalanceExecutionOperation) := reopen_next_retryable_quarantine rebalance_env quarantined.
Lemma reopened_started : reopened.2 = Ok (Some (mkRebalanceOperation withdrawal_intent started)).
Proof. vm_compute. reflexivity. Qed.
Lemma quarantined_limits : within_limits (rj_memory quarantined).
Proof. apply roomy_limits. vm_compute. reflexivity. Qed.

Lemma automatic_reopen_budgeted_witness :
  active_operation (rj_memory quarantined) = Ok None /\
  exists previous, rm_operations (rj_memory quarantined) !! operation_key (mkRebalanceOperation withdrawal_intent started) = Some previous /\
    (reopened_quarantine (rj_memory quarantined) (rj_memory reopened.1) previous (mkRebalanceOperation withdrawal_intent started) \/
     reopened_ownership (rj_memory quarantined) (rj_memory reopened.1) previous (mkRebalanceOperation withdrawal_intent started)).
Proof.
  apply (automatic_reopen_budgeted rebalance_env); [apply quarantined_run|apply quarantined_limits|].
  fold reopened. rewrite <- reopened_started. by destruct reopened.
Defined.
