(* ===== verification/Portfolio.v ===== *)
(** * Portfolio and capital allocator ([src/src/portfolio.rs])

    The catalogue of the assets a process owns, the audit of an inventory snapshot
    by economic asset, the proposals of the capital allocator, and the authority a
    rebalance request has under the compiled policy.  The channel task that runs
    the allocator next to the engine is not part of the model. *)
From Stdlib Require Import Lia.
From stdpp Require Import base gmap strings numbers fin_maps pretty sorting list.
From S2P Require Import Prelude LineLog Inventory ExecutionPlan Planner RebalanceJournal.

(** ** The compiled policy *)
Inductive CompiledCapitalAllocatorMode := Disabled | Shadow | FullLive.
#[global] Instance CompiledCapitalAllocatorMode_eq_dec : EqDecision CompiledCapitalAllocatorMode.
Proof. solve_decision. Defined.

Record CompiledCapitalTokenPolicy := mkTokenPolicy {
  tp_economic_asset_id : string; tp_maximum_debit : Z; tp_maximum_fee : Z;
}.
Record CompiledCapitalNetworkPolicy := mkNetworkPolicy {
  np_network_id : string; np_binance_network : string; np_tokens : gmap string CompiledCapitalTokenPolicy;
}.
Record CompiledCapitalPolicy := mkCapitalPolicy {
  cp_approval_session_id : string;
  cp_network_id : string;
  cp_binance_network : string;
  cp_token_a_symbol : string;
  cp_token_b_symbol : string;
  cp_token_a_economic_asset_id : string;
  cp_token_b_economic_asset_id : string;
  cp_maximum_concurrent_transfers : Z;
  cp_maximum_token_a_debit : Z;
  cp_maximum_token_b_debit : Z;
  cp_maximum_token_a_fee : Z;
  cp_maximum_token_b_fee : Z;
  cp_additional_tokens : gmap string CompiledCapitalTokenPolicy;
  cp_direct_networks : gmap Z CompiledCapitalNetworkPolicy;
  cp_maximum_unknown_reconciliation_queries : Z;
  cp_direct_route_only : bool;
  cp_bridge_mutations_enabled : bool;
  cp_external_mutation_authorized : bool;
}.

Inductive CompiledInventoryLocation :=
  | CompiledBinanceAccount (account_id : string)
  | CompiledEvmWallet (network_id : string) (chain_id : Z) (wallet_location_id : string).
Record CompiledPortfolioAsset := mkPortfolioAsset {
  pa_location : CompiledInventoryLocation; pa_venue_asset_id : string; pa_economic_asset_id : string; pa_symbol : string; pa_decimals : Z;
}.
Record CompiledPortfolioRuntimePlan := mkPortfolioPlan {
  pp_assets : list CompiledPortfolioAsset;
  pp_allocator_mode : CompiledCapitalAllocatorMode;
  pp_capital_policy : option CompiledCapitalPolicy;
  pp_live_rebalance_adapter : string;
}.

(** ** The catalogue *)
Record PortfolioCatalog := mkCatalog {
  pc_assets : gmap (InventoryLocation * string) InventoryKey;
  pc_economic_assets : gmap InventoryKey string;
  pc_decimals : gmap InventoryKey Z;
  pc_allocator_mode : CompiledCapitalAllocatorMode;
  pc_capital_policy : option CompiledCapitalPolicy;
  pc_live_rebalance_adapter : string;
}.

Definition as_text {A} (r : result InvError A) : TRes A :=
  match r with Ok a => Ok a | Err (Msg s) | Err (Panic s) => Err s | Err (Insufficient _) => Err "insufficient available inventory"%string end.

Definition compiled_location (l : CompiledInventoryLocation) : TRes InventoryLocation :=
  as_text (match l with
           | CompiledBinanceAccount account => Inventory.binance account
           | CompiledEvmWallet network _ wallet => evm_wallet network wallet
           end).

Definition any_value {K A} `{Countable K} (m : gmap K A) (f : A -> bool) : bool := existsb (fun e => f e.2) (map_to_list m).
Definition all_entries {K A} `{Countable K} (m : gmap K A) (f : K -> A -> bool) : bool := forallb (fun e => f e.1 e.2) (map_to_list m).
Definition on_network (network : string) (l : InventoryLocation) : bool := match l with EvmWallet n _ => str_eqb n network | _ => false end.

Fixpoint collect_assets (assets : list CompiledPortfolioAsset) (c : PortfolioCatalog) : TRes PortfolioCatalog :=
  match assets with
  | [] => Ok c
  | a :: rest =>
      let? l := compiled_location (pa_location a) in
      let? k := as_text (new_key l (pa_venue_asset_id a)) in
      ensure! bool_decide (pc_assets c !! (l, pa_symbol a) = None) else ("portfolio location repeats symbol " +:+ pa_symbol a)%string ;;
      ensure! bool_decide (pc_economic_assets c !! k = None) else ("portfolio repeats venue asset " +:+ pa_venue_asset_id a)%string ;;
      collect_assets rest
        (mkCatalog (<[(l, pa_symbol a) := k]> (pc_assets c)) (<[k := pa_economic_asset_id a]> (pc_economic_assets c))
           (<[k := pa_decimals a]> (pc_decimals c)) (pc_allocator_mode c) (pc_capital_policy c) (pc_live_rebalance_adapter c))
  end.

Section catalogue.
Context (c : PortfolioCatalog).
Definition knows_asset (economic : string) : bool := any_value (pc_economic_assets c) (str_eqb economic).
Definition knows_network (network : string) : bool := existsb (fun e => on_network network e.1.1) (map_to_list (pc_assets c)).
Definition knows_symbol (symbol : string) : bool := existsb (fun e => str_eqb e.1.2 symbol) (map_to_list (pc_assets c)).
Definition knows_tokens (tokens : gmap string CompiledCapitalTokenPolicy) : bool :=
  all_entries tokens (fun symbol t => knows_asset (tp_economic_asset_id t) && knows_symbol symbol).

Definition validate_capital_policy (p : CompiledCapitalPolicy) : TRes unit :=
  ensure! negb (str_eqb (cp_token_a_economic_asset_id p) (cp_token_b_economic_asset_id p))
          && knows_asset (cp_token_a_economic_asset_id p) && knows_asset (cp_token_b_economic_asset_id p)
    else "rebalance policy references an economic asset outside the portfolio"%string ;;
  ensure! knows_network (cp_network_id p) else "rebalance policy references a network outside the portfolio"%string ;;
  ensure! knows_tokens (cp_additional_tokens p) else "additional rebalance policy references an asset outside the portfolio"%string ;;
  ensure! all_entries (cp_direct_networks p) (fun chain_id n =>
            str_eqb (np_network_id n) ("eip155:" +:+ pretty (Z.to_N chain_id)) && knows_network (np_network_id n) && knows_tokens (np_tokens n))
    else "direct rebalance network policy references an asset or network outside the portfolio"%string ;;
  ensure (negb (bool_decide (pc_allocator_mode c = FullLive)) || cp_external_mutation_authorized p)
    "live allocator has no explicit mutation approval"%string.

Definition key (l : InventoryLocation) (symbol : string) : TRes InventoryKey :=
  or_err (pc_assets c !! (l, symbol)) ("portfolio has no " +:+ symbol +:+ " at " +:+ stable_id l)%string.
Definition economic_asset_id (k : InventoryKey) : TRes string :=
  or_err (pc_economic_assets c !! k) ("venue asset " +:+ venue_asset_id k +:+ " is not economically mapped")%string.
Definition decimals (k : InventoryKey) : TRes Z :=
  or_err (pc_decimals c !! k) ("venue asset " +:+ venue_asset_id k +:+ " has no decimals")%string.
Definition location_count : nat := size (list_to_set (C := gset InventoryLocation) ((map_to_list (pc_assets c)).*1.*1)).
Definition asset_count : nat := size (pc_economic_assets c).
Definition economic_asset_count : nat := size (list_to_set (C := gset string) ((map_to_list (pc_economic_assets c)).*2)).
End catalogue.

Definition from_compiled (plan : CompiledPortfolioRuntimePlan) : TRes PortfolioCatalog :=
  let? c := collect_assets (pp_assets plan)
              (mkCatalog ∅ ∅ ∅ (pp_allocator_mode plan) (pp_capital_policy plan) (pp_live_rebalance_adapter plan)) in
  ensure! negb (bool_decide (pc_assets c = ∅)) else "portfolio catalog is empty"%string ;;
  let? _ := match pp_capital_policy plan with
            | Some p => validate_capital_policy c p
            | None => ensure (negb (bool_decide (pp_allocator_mode plan = FullLive))) "live allocator has no versioned policy"%string
            end in
  Ok c.

(** ** The allocator *)
Record AllocationIntent := mkAllocationIntent {
  ai_proposal_id : string; ai_economic_asset_id : string; ai_source : InventoryKey; ai_destination : InventoryKey;
  ai_destination_credit : Z; ai_fee : Z;
}.
Record AllocationProposal := mkProposal {
  ap_proposal_id : string; ap_economic_asset_id : string; ap_source : InventoryKey; ap_destination : InventoryKey;
  ap_source_debit : Z; ap_destination_credit : Z; ap_fee : Z; ap_external_mutation_authorized : bool;
}.
Record InFlightTransfer := mkInFlight {
  if_economic_asset_id : string; if_source : InventoryKey; if_destination : InventoryKey;
  if_source_debit : Z; if_destination_credit : Z; if_fee : Z;
}.
Record PortfolioAudit := mkAudit {
  au_observed : gmap string Z; au_available : gmap string Z; au_reserved : gmap string Z; au_observed_location_assets : nat;
}.
Record CapitalAllocator := mkAllocator {
  ca_mode : CompiledCapitalAllocatorMode; ca_economic_assets : gmap InventoryKey string; ca_capital_policy : option CompiledCapitalPolicy;
}.
Definition new_allocator (c : PortfolioCatalog) : CapitalAllocator :=
  mkAllocator (pc_allocator_mode c) (pc_economic_assets c) (pc_capital_policy c).

Definition accounted (credit fee debit : Z) : bool := bool_decide (checked_add 256 credit fee = Some debit).
Definition conserves (p : AllocationProposal) : bool := accounted (ap_destination_credit p) (ap_fee p) (ap_source_debit p).

(** The derived order of the keys. *)
Definition location_leb (a b : InventoryLocation) : bool :=
  match a, b with
  | BinanceAccount x, BinanceAccount y => String.leb x y
  | BinanceAccount _, EvmWallet _ _ => true
  | EvmWallet _ _, BinanceAccount _ => false
  | EvmWallet n w, EvmWallet n' w' => if str_eqb n n' then String.leb w w' else String.leb n n'
  end.
Definition inventory_le (a b : InventoryKey * Z) : Prop :=
  (if bool_decide (location a.1 = location b.1) then String.leb (venue_asset_id a.1) (venue_asset_id b.1)
   else location_leb (location a.1) (location b.1)) = true.
#[global] Instance inventory_le_dec : RelDecision inventory_le.
Proof. intros a b. unfold inventory_le. apply _. Defined.
Definition inventory_entries (m : gmap InventoryKey Z) : list (InventoryKey * Z) := merge_sort inventory_le (map_to_list m).

Definition chain_le (a b : Z * CompiledCapitalNetworkPolicy) : Prop := (a.1 <=? b.1) = true.
#[global] Instance chain_le_dec : RelDecision chain_le.
Proof. intros a b. unfold chain_le. apply _. Defined.
Definition networks_in_order (m : gmap Z CompiledCapitalNetworkPolicy) : list CompiledCapitalNetworkPolicy := (merge_sort chain_le (map_to_list m)).*2.

Definition held {K} `{Countable K} (totals : gmap K Z) (k : K) : Z := default 0 (totals !! k).
Definition add_amount (totals : gmap string Z) (k : string) (v : Z) : TRes (gmap string Z) :=
  let? t := or_err (checked_add 256 (held totals k) v) "economic asset portfolio total overflow"%string in Ok (<[k := t]> totals).
Definition add_key_amount (totals : gmap InventoryKey Z) (k : InventoryKey) (v : Z) : TRes (gmap InventoryKey Z) :=
  let? t := or_err (checked_add 256 (held totals k) v) "allocator source debit overflow"%string in Ok (<[k := t]> totals).

(** The observed balances and the reserved totals of an inventory. *)
Record InventoryPortfolioSnapshot := mkPortfolioSnapshot { ps_observed : gmap InventoryKey Z; ps_reserved_totals : gmap InventoryKey Z }.
Definition snapshot_of (s : InventoryReservations) : InventoryPortfolioSnapshot := mkPortfolioSnapshot (portfolio_snapshot s).1 (portfolio_snapshot s).2.

Definition snapshot_available (s : InventoryPortfolioSnapshot) (k : InventoryKey) : TRes Z :=
  let? o := or_err (ps_observed s !! k) ("allocator has no observed source " +:+ venue_asset_id k)%string in
  or_err (checked_sub o (held (ps_reserved_totals s) k)) "allocator reservations exceed observed source inventory"%string.

Section allocator.
Context (a : CapitalAllocator).

Definition mapping (k : InventoryKey) : TRes string :=
  or_err (ca_economic_assets a !! k) ("unreviewed portfolio venue asset " +:+ venue_asset_id k)%string.

Fixpoint audit_entries (reserved_totals : gmap InventoryKey Z) (entries : list (InventoryKey * Z)) (observed reserved : gmap string Z)
  : TRes (gmap string Z * gmap string Z) :=
  match entries with
  | [] => Ok (observed, reserved)
  | (k, amount) :: rest =>
      let? economic := mapping k in
      let? observed := add_amount observed economic amount in
      ensure! held reserved_totals k <=? amount else "reserved portfolio amount exceeds observed balance"%string ;;
      let? reserved := add_amount reserved economic (held reserved_totals k) in
      audit_entries reserved_totals rest observed reserved
  end.

Fixpoint collect_available (reserved : gmap string Z) (observed : list (string * Z)) : TRes (gmap string Z) :=
  match observed with
  | [] => Ok ∅
  | (economic, total) :: rest =>
      let? v := or_err (checked_sub total (held reserved economic)) "portfolio reservations exceed observed economic asset"%string in
      let? m := collect_available reserved rest in
      Ok (<[economic := v]> m)
  end.

Definition audit_snapshot (s : InventoryPortfolioSnapshot) : TRes PortfolioAudit :=
  let? '(observed, reserved) := audit_entries (ps_reserved_totals s) (inventory_entries (ps_observed s)) ∅ ∅ in
  ensure! all_entries (ps_reserved_totals s) (fun k _ => bool_decide (is_Some (ps_observed s !! k)))
    else "reservation references an unobserved portfolio asset"%string ;;
  let? available := collect_available reserved (btree_entries observed) in
  Ok (mkAudit observed available reserved (size (ps_observed s))).
Definition audit (s : InventoryReservations) : TRes PortfolioAudit := audit_snapshot (snapshot_of s).

Definition validate_transfer (economic : string) (source destination : InventoryKey) (debit credit fee : Z) : TRes unit :=
  ensure! negb (bool_decide (source = destination)) else "allocator source and destination are identical"%string ;;
  let? s := mapping source in
  let? same := if str_eqb s economic then (let? d := mapping destination in Ok (str_eqb d economic)) else Ok false in
  ensure! same else "allocator route crosses economic assets"%string ;;
  ensure (accounted credit fee debit) "allocator transfer is not conserved across credit and fee"%string.

Fixpoint validate_in_flight (transfers : list InFlightTransfer) : TRes unit :=
  match transfers with
  | [] => Ok tt
  | t :: rest =>
      let? _ := validate_transfer (if_economic_asset_id t) (if_source t) (if_destination t) (if_source_debit t) (if_destination_credit t) (if_fee t) in
      validate_in_flight rest
  end.
Fixpoint add_debits (transfers : list InFlightTransfer) (debits : gmap InventoryKey Z) : TRes (gmap InventoryKey Z) :=
  match transfers with
  | [] => Ok debits
  | t :: rest => let? debits := add_key_amount debits (if_source t) (if_source_debit t) in add_debits rest debits
  end.
Fixpoint check_debits (s : InventoryPortfolioSnapshot) (debits : list (InventoryKey * Z)) : TRes unit :=
  match debits with
  | [] => Ok tt
  | (source, debit) :: rest =>
      let? available := snapshot_available s source in
      ensure! debit <=? available else "in-flight transfers overspend source inventory"%string ;;
      check_debits s rest
  end.

(** One route mode, reviewed for external mutation. *)
Definition singular_route_mode (p : CompiledCapitalPolicy) : bool :=
  (cp_direct_route_only p || cp_bridge_mutations_enabled p) && negb (cp_direct_route_only p && cp_bridge_mutations_enabled p).

(** The caps of an asset on a route's network. *)
Definition proposal_caps (p : CompiledCapitalPolicy) (network : option CompiledCapitalNetworkPolicy) (economic : string) : TRes (Z * Z) :=
  let first (tokens : gmap string CompiledCapitalTokenPolicy) := List.find (fun t => str_eqb (tp_economic_asset_id t) economic) (btree_values tokens) in
  let none := bool_decide (cp_direct_networks p = ∅) in
  match network with
  | Some n =>
      let? t := or_err (first (np_tokens n)) "rebalance proposal asset is not approved on the direct network"%string in
      Ok (tp_maximum_debit t, tp_maximum_fee t)
  | None =>
      if none && str_eqb economic (cp_token_a_economic_asset_id p) then Ok (cp_maximum_token_a_debit p, cp_maximum_token_a_fee p)
      else if none && str_eqb economic (cp_token_b_economic_asset_id p) then Ok (cp_maximum_token_b_debit p, cp_maximum_token_b_fee p)
      else match (if none then first (cp_additional_tokens p) else None) with
           | Some t => Ok (tp_maximum_debit t, tp_maximum_fee t)
           | None => Err "rebalance proposal uses an asset outside the approved portfolio"%string
           end
  end.

Definition route_network (source destination : InventoryLocation) : TRes string :=
  match source, destination with
  | BinanceAccount _, EvmWallet n _ | EvmWallet n _, BinanceAccount _ => Ok n
  | _, _ => Err "rebalance proposal is not a direct Binance/EVM route"%string
  end.

Definition validate_live_proposal (p : CompiledCapitalPolicy) (i : AllocationIntent) (debit : Z) : TRes unit :=
  let? route := route_network (location (ai_source i)) (location (ai_destination i)) in
  let network := List.find (fun n => str_eqb (np_network_id n) route) (networks_in_order (cp_direct_networks p)) in
  let? '(maximum_debit, maximum_fee) := proposal_caps p network (ai_economic_asset_id i) in
  ensure! (debit <=? maximum_debit) && (ai_fee i <=? maximum_fee) else "rebalance proposal exceeds the asset value or fee cap"%string ;;
  ensure (bool_decide (is_Some network) || (bool_decide (cp_direct_networks p = ∅) && str_eqb route (cp_network_id p)))
    "rebalance proposal is not on an approved direct network"%string.

Definition full_live : bool := bool_decide (ca_mode a = FullLive).

Fixpoint plan_intents (s : InventoryPortfolioSnapshot) (intents : list AllocationIntent) (debits : gmap InventoryKey Z)
  : TRes (list AllocationProposal) :=
  match intents with
  | [] => Ok []
  | i :: rest =>
      let? debit := or_err (checked_add 256 (ai_destination_credit i) (ai_fee i)) "allocator proposal amount overflow"%string in
      let? _ := validate_transfer (ai_economic_asset_id i) (ai_source i) (ai_destination i) debit (ai_destination_credit i) (ai_fee i) in
      let? _ := match ca_capital_policy a with Some p => validate_live_proposal p i debit | None => Ok tt end in
      let? debits := add_key_amount debits (ai_source i) debit in
      let? available := snapshot_available s (ai_source i) in
      ensure! held debits (ai_source i) <=? available else "allocator proposals overspend source inventory"%string ;;
      let proposal := mkProposal (ai_proposal_id i) (ai_economic_asset_id i) (ai_source i) (ai_destination i) debit
                        (ai_destination_credit i) (ai_fee i) full_live in
      ensure! conserves proposal else "allocator proposal does not conserve value"%string ;;
      let? proposals := plan_intents s rest debits in
      Ok (proposal :: proposals)
  end.

Definition plan_snapshot (s : InventoryPortfolioSnapshot) (in_flight : list InFlightTransfer) (intents : list AllocationIntent)
  : TRes (list AllocationProposal) :=
  let? _ := audit_snapshot s in
  let? _ := validate_in_flight in_flight in
  if bool_decide (ca_mode a = Disabled) then Ok [] else
  let? _ := if full_live then
              let? p := or_err (ca_capital_policy a) "live allocator has no capital policy"%string in
              ensure! cp_external_mutation_authorized p && (cp_maximum_concurrent_transfers p =? 1) && singular_route_mode p
                else "live allocator policy has no singular reviewed route mode"%string ;;
              ensure (Z.of_nat (length in_flight) <? cp_maximum_concurrent_transfers p)
                "capital policy permits only one external transfer at a time"%string
            else Ok tt in
  let? debits := add_debits in_flight ∅ in
  let? _ := check_debits s (inventory_entries debits) in
  plan_intents s intents debits.
Definition plan (s : InventoryReservations) (in_flight : list InFlightTransfer) (intents : list AllocationIntent) : TRes (list AllocationProposal) :=
  plan_snapshot (snapshot_of s) in_flight intents.
End allocator.

(** ** The authority of a request *)
Record RemainingRebalanceAuthority := mkRemaining { ra_maximum_source_debit : Z; ra_maximum_fee : Z }.

Definition mutation_authority (p : CompiledCapitalPolicy) : TRes unit :=
  ensure (cp_external_mutation_authorized p && (cp_maximum_concurrent_transfers p =? 1)
          && (cp_maximum_unknown_reconciliation_queries p =? 1) && singular_route_mode p)
    "rebalance policy has no bounded mutation authority"%string.

(** The caps of a token on a chain. *)
Definition token_caps (p : CompiledCapitalPolicy) (symbol : string) (chain_id : Z) : TRes (Z * Z) :=
  let none := bool_decide (cp_direct_networks p = ∅) in
  match cp_direct_networks p !! chain_id ≫= fun n => np_tokens n !! symbol with
  | Some t => Ok (tp_maximum_debit t, tp_maximum_fee t)
  | None =>
      if none && str_eqb symbol (cp_token_a_symbol p) then Ok (cp_maximum_token_a_debit p, cp_maximum_token_a_fee p)
      else if none && str_eqb symbol (cp_token_b_symbol p) then Ok (cp_maximum_token_b_debit p, cp_maximum_token_b_fee p)
      else match (if none then cp_additional_tokens p !! symbol else None) with
           | Some t => Ok (tp_maximum_debit t, tp_maximum_fee t)
           | None => Err "rebalance request uses an asset outside the production policy"%string
           end
  end.

Definition remaining_rebalance_authority_on_chain (p : CompiledCapitalPolicy) (risk : RebalanceRisk) (symbol : string) (d : Direction) (chain_id : Z)
  : TRes (option RemainingRebalanceAuthority) :=
  let? _ := mutation_authority p in
  if cp_maximum_concurrent_transfers p <=? rk_active_transfer_count risk then Ok None else
  let? '(debit_cap, fee_cap) := token_caps p symbol chain_id in
  let maximum_fee := match d with WalletToBinance => 0 | BinanceToWallet => fee_cap end in
  if (debit_cap =? 0) || (bool_decide (d = BinanceToWallet) && (maximum_fee =? 0)) then Ok None
  else Ok (Some (mkRemaining debit_cap maximum_fee)).
Definition remaining_rebalance_authority (p : CompiledCapitalPolicy) (risk : RebalanceRisk) (symbol : string) (d : Direction) :=
  remaining_rebalance_authority_on_chain p risk symbol d 42161.

Definition request_route (p : CompiledCapitalPolicy) (r : Route) : TRes (Z * string * bool) :=
  match r with
  | Direct network chain_id => Ok (chain_id, network, false)
  | Across network bridge wallet =>
      ensure! cp_bridge_mutations_enabled p && (bridge =? 10) && (wallet =? 59144) && str_eqb network "OPTIMISM"
        else "production Across route differs from the reviewed Linea fallback"%string ;;
      Ok (wallet, network, true)
  end.
Definition expected_authority (chain_id : Z) : TRes RebalanceExecutionAuthority :=
  if chain_id =? 42161 then Ok ArbitrumFullLive else if chain_id =? 59144 then Ok LineaFullLive
  else Err "production rebalance request uses an unapproved chain"%string.

Definition authorize_rebalance_request (p : CompiledCapitalPolicy) (risk : RebalanceRisk) (r : RebalanceExecutionRequest) : TRes unit :=
  let? _ := mutation_authority p in
  ensure! bool_decide (rq_approval_session_id r = Some (cp_approval_session_id p))
    else "rebalance request approval session differs from the compiled policy"%string ;;
  let? '(chain_id, network, is_bridge) := request_route p (aroute (rq_action r)) in
  let? expected := expected_authority chain_id in
  ensure! bool_decide (rq_authority r = expected) else "rebalance request has the wrong execution authority"%string ;;
  ensure! match cp_direct_networks p !! chain_id with Some n => str_eqb (np_binance_network n) network | None => false end
          || (bool_decide (cp_direct_networks p = ∅) && (chain_id =? 42161) && str_eqb network (cp_binance_network p))
    else "rebalance request is not pinned to an approved route"%string ;;
  ensure! negb is_bridge || bool_decide (rq_authority r = LineaFullLive)
    else "only Linea full-live authority may use the reviewed Across fallback"%string ;;
  ensure! negb (chain_id =? 59144) || is_bridge else "Linea full-live authority requires the reviewed Across route"%string ;;
  let? maximum_fee := or_err (rq_maximum_fee r) "rebalance request has no maximum fee authority"%string in
  let? authority := remaining_rebalance_authority_on_chain p risk (rq_token_symbol r) (direction (rq_action r)) chain_id in
  let? remaining := or_err authority "rebalance concurrency, value, or fee stop condition is closed"%string in
  ensure ((amount (rq_action r) <=? ra_maximum_source_debit remaining) && (maximum_fee <=? ra_maximum_fee remaining))
    "rebalance cumulative value or fee cap would be exceeded"%string.
