(* ===== verification/PortfolioFacts.v ===== *)
(** * What the allocator and the policy promise ([src/src/portfolio.rs])

    The audit accounts every observed balance, proposals conserve value and never
    spend more than a snapshot has, and an authorized request is within the caps
    and the only transfer. *)
From Stdlib Require Import Lia.
From stdpp Require Import base gmap strings numbers option fin_maps pretty sorting list.
From S2P Require Import Prelude LineLog Inventory ExecutionPlan Planner RebalanceJournal RebalanceFacts RebalanceRuns Portfolio.

Lemma held_insert {K} `{Countable K} (m : gmap K Z) k v k' : held (<[k := v]> m) k' = if decide (k = k') then v else held m k'.
Proof. unfold held. case_decide as Hk; [subst k'; by rewrite lookup_insert_eq|by rewrite lookup_insert_ne]. Qed.

Lemma add_key_amount_inv m k v m' : add_key_amount m k v = Ok m' ->
  forall k', held m' k' = held m k' + if decide (k = k') then v else 0.
Proof.
  unfold add_key_amount. intros Ha. res_inv. checked_inv. subst. intros k'. rewrite held_insert. case_decide; [by subst|lia].
Qed.
Lemma add_amount_inv m k v m' : add_amount m k v = Ok m' ->
  (forall k', held m' k' = held m k' + if decide (k = k') then v else 0) /\ dom m' = {[k]} ∪ dom m.
Proof.
  unfold add_amount. intros Ha. res_inv. checked_inv. subst. split; [|by rewrite dom_insert_L].
  intros k'. rewrite held_insert. case_decide; [by subst|lia].
Qed.

(** ** The audit *)
Section audit.
Context (a : CapitalAllocator).

(** The sum of [f] over the entries of an economic asset. *)
Fixpoint asset_sum (e : string) (f : InventoryKey * Z -> Z) (entries : list (InventoryKey * Z)) : Z :=
  match entries with
  | [] => 0
  | x :: rest => (if decide (ca_economic_assets a !! x.1 = Some e) then f x else 0) + asset_sum e f rest
  end.
#[export] Instance asset_sum_perm e f : Proper ((≡ₚ) ==> eq) (asset_sum e f).
Proof. intros l1 l2 Hp. induction Hp; simpl; lia. Qed.

Lemma audit_entries_inv rt entries o r o' r' :
  audit_entries a rt entries o r = Ok (o', r') ->
  (forall e, held o' e = held o e + asset_sum e snd entries) /\ (forall e, held r' e = held r e + asset_sum e (fun x => held rt x.1) entries) /\
  Forall (fun x => is_Some (ca_economic_assets a !! x.1) /\ held rt x.1 <= x.2) entries.
Proof.
  revert o r. induction entries as [|[k v] entries IH]; intros o r Ha; simpl in Ha; [injection Ha as <- <-|].
  - split; [intros; simpl; lia|split; [intros; simpl; lia|by constructor]].
  - res_inv. bool_prop. unfold mapping in *. res_inv.
    match goal with E : add_amount o _ _ = _, F : add_amount r _ _ = _ |- _ => apply add_amount_inv in E as [Eo _], F as [Er _] end.
    apply IH in Ha as (Fo & Fr & Fa). split; [|split; [|by constructor; [split; [by eexists|]|]]]; intros e; cbn [asset_sum fst snd].
    + rewrite Fo, Eo. repeat case_decide; simplify_eq; lia.
    + rewrite Fr, Er. repeat case_decide; simplify_eq; lia.
Qed.

Lemma collect_available_inv r l m : NoDup l.*1 -> collect_available r l = Ok m ->
  forall e t, (e, t) ∈ l -> m !! e = Some (t - held r e) /\ held r e <= t.
Proof.
  revert m. induction l as [|[e t] l IH]; intros m Hnd Hc e' t' Hin; [by apply not_elem_of_nil in Hin|].
  simpl in Hc, Hnd. apply NoDup_cons in Hnd as [Hn Hnd]. res_inv. checked_inv. subst. apply elem_of_cons in Hin as [Hin|Hin].
  - injection Hin as -> ->. by rewrite lookup_insert_eq.
  - rewrite lookup_insert_ne; [by eapply IH|]. intros ->. apply Hn, list_elem_of_fmap. by exists (e', t').
Qed.

(** The audit of an inventory snapshot accounts for every balance: each
    observed key belongs to a reviewed economic asset and covers its reservations,
    the observed and reserved totals of an asset are the sums over its keys, and
    what is available is exactly their difference. *)
Theorem audit_accounts s r :
  audit_snapshot a s = Ok r ->
  (forall k v, ps_observed s !! k = Some v -> is_Some (ca_economic_assets a !! k) /\ held (ps_reserved_totals s) k <= v) /\
  (forall k, is_Some (ps_reserved_totals s !! k) -> is_Some (ps_observed s !! k)) /\
  forall e, held (au_observed r) e = asset_sum e snd (map_to_list (ps_observed s)) /\
    held (au_reserved r) e = asset_sum e (fun x => held (ps_reserved_totals s) x.1) (map_to_list (ps_observed s)) /\
    forall t, au_observed r !! e = Some t -> au_available r !! e = Some (t - held (au_reserved r) e) /\ held (au_reserved r) e <= t.
Proof.
  unfold audit_snapshot. intros Ha. res_inv.
  match type of Ha with context [let '(_, _) := ?x in _] => destruct x as [o rv] end. res_inv. simpl.
  match goal with E : audit_entries _ _ _ _ _ = _ |- _ => apply audit_entries_inv in E as (Fo & Fr & Fa) end.
  assert (Hperm : inventory_entries (ps_observed s) ≡ₚ map_to_list (ps_observed s)) by apply merge_sort_Permutation.
  split; [|split; [|intros e; split; [|split]]].
  - intros k v Hk. rewrite Forall_forall in Fa. apply (Fa (k, v)). rewrite Hperm. by apply elem_of_map_to_list.
  - intros k [v Hk]. match goal with E : all_entries _ _ = true |- _ => unfold all_entries in E; rewrite forallb_forall in E; specialize (E (k, v)) end.
    eapply bool_decide_eq_true_1. match goal with E : In _ _ -> _ |- _ => apply E end. by apply list_elem_of_In, elem_of_map_to_list.
  - rewrite Fo. unfold held at 1. rewrite lookup_empty. simpl. by rewrite (asset_sum_perm _ _ _ _ Hperm).
  - rewrite Fr. unfold held at 1. rewrite lookup_empty. simpl. by rewrite (asset_sum_perm _ _ _ _ Hperm).
  - intros t Ht. eapply collect_available_inv; [apply btree_entries_keys_nodup|done|by apply elem_of_btree_entries].
Qed.
End audit.

(** ** Proposals *)
Section plan.
Context (a : CapitalAllocator).

Fixpoint in_flight_debit (k : InventoryKey) (ts : list InFlightTransfer) : Z :=
  match ts with [] => 0 | t :: rest => (if decide (if_source t = k) then if_source_debit t else 0) + in_flight_debit k rest end.
Fixpoint proposed_debit (k : InventoryKey) (ps : list AllocationProposal) : Z :=
  match ps with [] => 0 | p :: rest => (if decide (ap_source p = k) then ap_source_debit p else 0) + proposed_debit k rest end.

(** A proposal moves an asset between the exchange and a wallet of this network. *)
Definition routed (i : AllocationIntent) (network : string) : Prop :=
  exists account wallet,
    (location (ai_source i) = BinanceAccount account /\ location (ai_destination i) = EvmWallet network wallet) \/
    (location (ai_source i) = EvmWallet network wallet /\ location (ai_destination i) = BinanceAccount account).

Definition listed (tokens : gmap string CompiledCapitalTokenPolicy) (economic : string) (t : CompiledCapitalTokenPolicy) : Prop :=
  (exists symbol, tokens !! symbol = Some t) /\ tp_economic_asset_id t = economic.

(** The caps the policy reviewed for an asset on a network: those of the network's
    own token, or, in a policy without direct networks, those of its one network. *)
Inductive reviewed_caps (p : CompiledCapitalPolicy) (network economic : string) : Z -> Z -> Prop :=
  | caps_direct chain n t :
      cp_direct_networks p !! chain = Some n -> np_network_id n = network -> listed (np_tokens n) economic t ->
      reviewed_caps p network economic (tp_maximum_debit t) (tp_maximum_fee t)
  | caps_token_a :
      cp_direct_networks p = ∅ -> network = cp_network_id p -> economic = cp_token_a_economic_asset_id p ->
      reviewed_caps p network economic (cp_maximum_token_a_debit p) (cp_maximum_token_a_fee p)
  | caps_token_b :
      cp_direct_networks p = ∅ -> network = cp_network_id p -> economic = cp_token_b_economic_asset_id p ->
      reviewed_caps p network economic (cp_maximum_token_b_debit p) (cp_maximum_token_b_fee p)
  | caps_additional t :
      cp_direct_networks p = ∅ -> network = cp_network_id p -> listed (cp_additional_tokens p) economic t ->
      reviewed_caps p network economic (tp_maximum_debit t) (tp_maximum_fee t).

(** A proposal within the caps of the policy. *)
Definition within_caps (p : CompiledCapitalPolicy) (i : AllocationIntent) (debit : Z) : Prop :=
  exists network maximum_debit maximum_fee,
    routed i network /\ reviewed_caps p network (ai_economic_asset_id i) maximum_debit maximum_fee /\
    debit <= maximum_debit /\ ai_fee i <= maximum_fee.

(** The proposal an intent becomes. *)
Record proposes (i : AllocationIntent) (p : AllocationProposal) : Prop := {
  pr_same : ap_proposal_id p = ai_proposal_id i /\ ap_economic_asset_id p = ai_economic_asset_id i /\
    ap_source p = ai_source i /\ ap_destination p = ai_destination i;
  pr_conserves : ap_source_debit p = ap_destination_credit p + ap_fee p /\ ap_source_debit p < 2 ^ 256;
  pr_amounts : ap_destination_credit p = ai_destination_credit i /\ ap_fee p = ai_fee i;
  pr_route : ap_source p <> ap_destination p /\ ca_economic_assets a !! ap_source p = Some (ai_economic_asset_id i) /\
    ca_economic_assets a !! ap_destination p = Some (ai_economic_asset_id i);
  pr_authorized : ap_external_mutation_authorized p = full_live a;
  pr_caps policy : ca_capital_policy a = Some policy -> within_caps policy i (ap_source_debit p);
}.

Lemma validate_transfer_inv economic source destination debit credit fee :
  validate_transfer a economic source destination debit credit fee = Ok tt ->
  source <> destination /\ ca_economic_assets a !! source = Some economic /\ ca_economic_assets a !! destination = Some economic /\
  debit = credit + fee /\ debit < 2 ^ 256.
Proof.
  unfold validate_transfer, mapping, accounted, str_eqb. intros Hv. res_inv. bool_prop.
  subst x1. destruct (bool_decide (x0 = economic)) eqn:Es; [|done]. bool_prop. res_inv. checked_inv.
  match goal with E : bool_decide _ = true |- _ => apply bool_decide_eq_true in E end. by subst.
Qed.

Lemma find_listed tokens economic t :
  List.find (fun t => str_eqb (tp_economic_asset_id t) economic) (btree_values tokens) = Some t -> listed tokens economic t.
Proof.
  intros [Hin He]%find_some. apply list_elem_of_In, elem_of_btree_values in Hin. unfold str_eqb in He. bool_prop. by split.
Qed.

Lemma find_network networks route n :
  List.find (fun n => str_eqb (np_network_id n) route) (networks_in_order networks) = Some n ->
  np_network_id n = route /\ exists chain, networks !! chain = Some n.
Proof.
  intros [Hin He]%find_some. unfold str_eqb in He. bool_prop. split; [done|].
  apply list_elem_of_In in Hin. unfold networks_in_order in Hin. rewrite merge_sort_Permutation in Hin.
  apply list_elem_of_fmap in Hin as ([chain n'] & -> & Hin). exists chain. by apply elem_of_map_to_list.
Qed.

Lemma route_network_inv i route : route_network (location (ai_source i)) (location (ai_destination i)) = Ok route -> routed i route.
Proof.
  unfold route_network, routed. destruct (location (ai_source i)), (location (ai_destination i)); intros [=]; subst;
    do 2 eexists; [by left|by right].
Qed.

Lemma proposal_caps_inv p network route economic md mf :
  proposal_caps p network economic = Ok (md, mf) ->
  (forall n, network = Some n -> np_network_id n = route /\ exists chain, cp_direct_networks p !! chain = Some n) ->
  (network = None -> route = cp_network_id p) -> reviewed_caps p route economic md mf.
Proof.
  unfold proposal_caps, str_eqb. intros Hc Hsome Hnone. destruct network as [n|].
  - destruct (Hsome n eq_refl) as [Hn [chain Hk]]. apply rbind_Ok in Hc as (t & Ht%or_err_Ok & Hc). injection Hc as <- <-.
    eapply caps_direct; [exact Hk|exact Hn|by apply find_listed].
  - specialize (Hnone eq_refl). case_bool_decide as He; simpl in Hc; [|done].
    case_bool_decide; [injection Hc as <- <-; by apply caps_token_a|].
    case_bool_decide; [injection Hc as <- <-; by apply caps_token_b|].
    destruct (List.find _ _) as [t|] eqn:Ef; [|done]. injection Hc as <- <-. apply caps_additional; [done..|by apply find_listed].
Qed.

Lemma validate_live_proposal_inv p i debit : validate_live_proposal p i debit = Ok tt -> within_caps p i debit.
Proof.
  unfold validate_live_proposal. intros Hv. res_inv.
  match type of Hv with context [let '(_, _) := ?c in _] => destruct c as [md mf] end. res_inv. bool_prop.
  match goal with E : route_network _ _ = Ok ?r |- _ => exists r, md, mf; split; [by apply route_network_inv|] end.
  split; [|done]. eapply proposal_caps_inv; [eassumption|intros n; by apply find_network|].
  intros Hnone. rewrite Hnone in Hv. destruct Hv as [Hv|Hv]; bool_prop; [by destruct Hv|]. unfold str_eqb in *. by bool_prop.
Qed.

Lemma snapshot_available_eq s k v v' : snapshot_available s k = Ok v -> snapshot_available s k = Ok v' -> v = v'.
Proof. congruence. Qed.

(** What is spent so far fits what the snapshot has. *)
Definition fits (s : InventoryPortfolioSnapshot) (k : InventoryKey) (debit : Z) : Prop :=
  exists available, snapshot_available s k = Ok available /\ debit <= available.

Lemma plan_intents_inv s intents debits ps :
  plan_intents a s intents debits = Ok ps ->
  Forall2 proposes intents ps /\
  forall k, (exists p, p ∈ ps /\ ap_source p = k) \/ fits s k (held debits k) -> fits s k (held debits k + proposed_debit k ps).
Proof.
  revert debits ps. induction intents as [|i intents IH]; intros debits ps Hp; simpl in Hp.
  - injection Hp as <-. split; [done|]. intros k [(p & Hin & _)|Hf]; [by apply not_elem_of_nil in Hin|]. simpl. by rewrite Z.add_0_r.
  - res_inv. bool_prop. match goal with E : plan_intents _ _ _ _ = Ok _ |- _ => apply IH in E as [Hall Hfit] end.
    match goal with E : validate_transfer _ _ _ _ _ _ _ = Ok ?u |- _ => destruct u; apply validate_transfer_inv in E as (R1 & R2 & R3 & R4 & R5) end.
    match goal with E : add_key_amount _ _ _ = Ok _ |- _ => pose proof (add_key_amount_inv _ _ _ _ E) as Hd end.
    split.
    + constructor; [|done]. split; simpl; try done. intros policy Hpo.
      match goal with E : match ca_capital_policy a with _ => _ end = Ok ?u |- _ => destruct u; rewrite Hpo in E end. by apply validate_live_proposal_inv.
    + intros k Hk. simpl. rewrite Z.add_assoc, <- Hd. apply Hfit. destruct (decide (ai_source i = k)) as [<-|Hne].
      * right. by eexists.
      * rewrite Hd, decide_False, Z.add_0_r by done. destruct Hk as [(p & [->|Hin]%elem_of_cons & Hs)|Hf]; [done|left; eauto|by right].
Qed.

Lemma add_debits_inv ts debits debits' : add_debits ts debits = Ok debits' ->
  (forall k, held debits' k = held debits k + in_flight_debit k ts) /\
  forall k, is_Some (debits' !! k) <-> is_Some (debits !! k) \/ exists t, t ∈ ts /\ if_source t = k.
Proof.
  revert debits. induction ts as [|t ts IH]; intros debits Ha; simpl in Ha.
  - injection Ha as <-. split; [intros; simpl; lia|]. intros k. split; [by left|]. intros [?|(t & Ht & _)]; [done|by apply not_elem_of_nil in Ht].
  - res_inv. match goal with E : add_key_amount _ _ _ = Ok _ |- _ => pose proof (add_key_amount_inv _ _ _ _ E) as Hd; unfold add_key_amount in E; res_inv end.
    apply IH in Ha as [F1 F2]. split.
    + intros k. rewrite F1, Hd. simpl. case_decide; lia.
    + intros k. rewrite F2, lookup_insert_is_Some. setoid_rewrite elem_of_cons. destruct (decide (if_source t = k)); naive_solver.
Qed.

Lemma check_debits_inv s l u : check_debits s l = Ok u -> Forall (fun x => fits s x.1 x.2) l.
Proof.
  induction l as [|[k v] l IH]; intros Hc; simpl in Hc; [by constructor|]. res_inv. bool_prop. constructor; [by eexists|by apply IH].
Qed.

(** C28. proposals conserve value and never overspend: unless the allocator is
    disabled, when it proposes nothing, every intent becomes one proposal of the same
    transfer, whose debit is exactly credit plus fee, between two venues of one economic
    asset; under a policy, the transfer runs between the exchange and a wallet of a
    network the policy lists, within the debit and fee caps reviewed for that asset on
    that network; what is in flight and proposed from a source together fits what the
    snapshot has available there; and a live allocator proposes only while nothing is in
    flight. *)
Theorem proposals_conserve_and_fit s in_flight intents ps :
  plan_snapshot a s in_flight intents = Ok ps ->
  (ca_mode a = Disabled /\ ps = []) \/
  (ca_mode a <> Disabled /\ Forall2 proposes intents ps /\ (ca_mode a = FullLive -> in_flight = []) /\
   forall k, (exists p, p ∈ ps /\ ap_source p = k) \/ (exists t, t ∈ in_flight /\ if_source t = k) ->
     fits s k (in_flight_debit k in_flight + proposed_debit k ps)).
Proof.
  unfold plan_snapshot. intros Hp. res_inv. case_bool_decide as Hmode; [injection Hp as <-; by left|]. right. split; [done|]. res_inv.
  match goal with E : add_debits _ _ = Ok _ |- _ => apply add_debits_inv in E as [Hd Hdom] end.
  match goal with E : check_debits _ _ = Ok _ |- _ => apply check_debits_inv in E as Hc end.
  apply plan_intents_inv in Hp as [Hall Hfit]. split; [done|]. split.
  - intros Hfull. unfold full_live in *. match goal with E : (if bool_decide _ then _ else _) = Ok _ |- _ => rewrite bool_decide_eq_true_2 in E by done end.
    res_inv. bool_prop. destruct in_flight; [done|]. simpl in *. lia.
  - intros k Hk. specialize (Hd k) as Hdk. unfold held in Hdk at 2. rewrite lookup_empty in Hdk. cbn [default] in Hdk. rewrite Z.add_0_l in Hdk. rewrite <- Hdk. apply Hfit.
    destruct Hk as [Hk|Hk]; [by left|]. right. destruct (proj2 (Hdom k) (or_intror Hk)) as [v Hv]. unfold held. rewrite Hv. simpl.
    rewrite Forall_forall in Hc. apply (Hc (k, v)). unfold inventory_entries. rewrite merge_sort_Permutation. by apply elem_of_map_to_list.
Qed.
End plan.

(** ** Authority *)
Section authority.
Context `{EvmText} `{RebalanceCodec}.
Context (p : CompiledCapitalPolicy).

Definition approved_route (r : RebalanceExecutionRequest) (chain_id : Z) : Prop :=
  (rq_authority r = ArbitrumFullLive /\ chain_id = 42161 /\ exists network, aroute (rq_action r) = Direct network 42161) \/
  (rq_authority r = LineaFullLive /\ chain_id = 59144 /\ aroute (rq_action r) = Across "OPTIMISM" 10 59144 /\ cp_bridge_mutations_enabled p = true).

(** The caps the policy reviewed for a token on a chain. *)
Inductive token_reviewed (symbol : string) (chain_id : Z) : Z -> Z -> Prop :=
  | reviewed_direct n t :
      cp_direct_networks p !! chain_id = Some n -> np_tokens n !! symbol = Some t ->
      token_reviewed symbol chain_id (tp_maximum_debit t) (tp_maximum_fee t)
  | reviewed_token_a :
      cp_direct_networks p = ∅ -> symbol = cp_token_a_symbol p ->
      token_reviewed symbol chain_id (cp_maximum_token_a_debit p) (cp_maximum_token_a_fee p)
  | reviewed_token_b :
      cp_direct_networks p = ∅ -> symbol = cp_token_b_symbol p ->
      token_reviewed symbol chain_id (cp_maximum_token_b_debit p) (cp_maximum_token_b_fee p)
  | reviewed_additional t :
      cp_direct_networks p = ∅ -> cp_additional_tokens p !! symbol = Some t ->
      token_reviewed symbol chain_id (tp_maximum_debit t) (tp_maximum_fee t).

Lemma token_caps_inv symbol chain_id md mf : token_caps p symbol chain_id = Ok (md, mf) -> token_reviewed symbol chain_id md mf.
Proof.
  unfold token_caps, str_eqb. intros Hc. destruct (_ ≫= _) as [t|] eqn:Et.
  - apply bind_Some in Et as (n & Hn & Ht). injection Hc as <- <-. by eapply reviewed_direct.
  - case_bool_decide as He; simpl in Hc; [|done].
    case_bool_decide; [injection Hc as <- <-; by apply reviewed_token_a|].
    case_bool_decide; [injection Hc as <- <-; by apply reviewed_token_b|].
    destruct (_ !! symbol) as [t|] eqn:Ea in Hc; [|done]. injection Hc as <- <-. by apply reviewed_additional.
Qed.

(** The part of the request under its caps. *)
Definition request_capped (r : RebalanceExecutionRequest) : Prop :=
  exists chain_id debit_cap fee_cap fee,
    approved_route r chain_id /\ token_reviewed (rq_token_symbol r) chain_id debit_cap fee_cap /\
    amount (rq_action r) <= debit_cap /\ rq_maximum_fee r = Some fee /\
    fee <= match direction (rq_action r) with WalletToBinance => 0 | BinanceToWallet => fee_cap end.

Lemma remaining_inv risk symbol d chain_id k :
  remaining_rebalance_authority_on_chain p risk symbol d chain_id = Ok (Some k) ->
  rk_active_transfer_count risk < 1 /\ exists debit_cap fee_cap, token_caps p symbol chain_id = Ok (debit_cap, fee_cap) /\
    k = mkRemaining debit_cap (match d with WalletToBinance => 0 | BinanceToWallet => fee_cap end).
Proof.
  unfold remaining_rebalance_authority_on_chain, mutation_authority. intros Hr. res_inv. bool_prop.
  destruct (Z.leb_spec (cp_maximum_concurrent_transfers p) (rk_active_transfer_count risk)); [done|]. res_inv.
  match type of Hr with context [let '(_, _) := ?c in _] => destruct c as [dc fc] end. destruct (_ || _); [done|]. injection Hr as <-.
  split; [lia|]. by exists dc, fc.
Qed.

Lemma authorize_route r chain_id network is_bridge expected :
  request_route p (aroute (rq_action r)) = Ok (chain_id, network, is_bridge) -> expected_authority chain_id = Ok expected ->
  rq_authority r = expected -> negb (chain_id =? 59144) || is_bridge = true ->
  negb is_bridge || bool_decide (rq_authority r = LineaFullLive) = true -> approved_route r chain_id.
Proof.
  unfold request_route, expected_authority, approved_route. intros Hr He -> Hb Hl. destruct (aroute (rq_action r)) as [n c|n b w].
  - injection Hr as <- <- <-. destruct (Z.eqb_spec c 42161) as [->|]; [injection He as <-; left; eauto|].
    destruct (c =? 59144); done.
  - apply rbind_Ok in Hr as ([] & Hg & Hr). apply ensure_Ok in Hg. injection Hr as <- <- <-. unfold str_eqb in Hg. bool_prop. subst. injection He as <-. right. done.
Qed.

Lemma authorize_inv risk r : authorize_rebalance_request p risk r = Ok tt ->
  rk_active_transfer_count risk < 1 /\ rq_approval_session_id r = Some (cp_approval_session_id p) /\ request_capped r.
Proof.
  unfold authorize_rebalance_request. intros Ha. res_inv.
  match type of Ha with context [let '(_, _) := ?c in _] => destruct c as [[chain_id network] is_bridge] end. res_inv.
  apply andb_true_iff in Ha as [Ha Hf]. apply Z.leb_le in Ha, Hf.
  repeat match goal with E : bool_decide _ = true |- _ => apply bool_decide_eq_true in E end.
  match goal with E : remaining_rebalance_authority_on_chain _ _ _ _ _ = Ok ?o, F : ?o = Some _ |- _ => rewrite F in E; apply remaining_inv in E as (Hc & dc & fc & Ht%token_caps_inv & ->) end.
  split; [done|]. split; [done|]. eexists chain_id, dc, fc, _. split; [by eapply authorize_route|]. done.
Qed.

(** Past debits do not matter. *)
Lemma authorize_active_only risk risk' r :
  rk_active_transfer_count risk' = rk_active_transfer_count risk -> authorize_rebalance_request p risk' r = authorize_rebalance_request p risk r.
Proof. intros E. unfold authorize_rebalance_request, remaining_rebalance_authority_on_chain. by rewrite E. Qed.

(** ** The risk of a journal *)
Lemma sum_risk_active started k ops k' : sum_risk started k ops = Ok k' ->
  rk_active_transfer_count k' = rk_active_transfer_count k + Z.of_nat (length (filter (fun o => terminal (ro_progress o) = false) ops)).
Proof.
  revert k. induction ops as [|o ops IH]; intros k Hs; simpl in Hs; [injection Hs as <-; simpl; lia|]. res_inv.
  match goal with E : add_risk _ _ _ = Ok ?x |- _ => assert (Hx : rk_active_transfer_count x = rk_active_transfer_count k + if terminal (ro_progress o) then 0 else 1) end.
  { unfold add_risk in *. res_inv. by repeat case_match; subst. }
  rewrite (IH _ Hs), Hx. destruct (terminal (ro_progress o)) eqn:Et; [rewrite filter_cons_False by congruence|rewrite filter_cons_True by done; simpl]; lia.
Qed.

Lemma live_counted m session risk id o :
  rebalance_risk m session = Ok risk -> rm_operations m !! id = Some o -> terminal (ro_progress o) = false -> of_session session o = true ->
  1 <= rk_active_transfer_count risk.
Proof.
  unfold rebalance_risk. intros Hr Ho Ht Hs. apply sum_risk_active in Hr. rewrite Hr. simpl.
  assert (Hin : o ∈ filter (fun o => terminal (ro_progress o) = false) (filter (fun o => of_session session o = true) (btree_values (rm_operations m)))).
  { apply list_elem_of_filter. split; [done|]. apply list_elem_of_filter. split; [done|]. apply elem_of_btree_values. eauto. }
  destruct (filter _ (filter _ _)); [by apply not_elem_of_nil in Hin|simpl; lia].
Qed.

(** A transfer that is over: completed, cancelled, failed or set aside in quarantine. *)
Definition ended (progress : RebalanceExecutionProgress) : Prop :=
  match progress with Completed _ _ | CancelledStale _ _ _ _ | Failed _ | Quarantined _ => True | _ => False end.
Lemma not_ended progress : ~ ended progress -> terminal progress = false.
Proof. unfold ended. by destruct progress. Qed.

(** The journal scope of an approved request. *)
Lemma approved_scope r chain_id f n : approved_route r chain_id -> direct_scope (request_intent r f n) = true.
Proof.
  unfold direct_scope, request_intent, scope_network. simpl.
  intros [(E & -> & network & ->)|(E & -> & -> & _)]; [|rewrite E]; vm_compute; done.
Qed.
End authority.

(** ** The authority and the journal *)
Section together.
Context `{EvmText} `{RebalanceCodecLaws}.

Lemma single_active_some m o : memory_ok m -> single m -> rm_operations m !! operation_key o = Some o -> terminal (ro_progress o) = false ->
  active_operation m = Ok (Some o).
Proof.
  intros Hm Hs Ho Ht. destruct (proj1 (single_active m Hm) Hs) as [[x|] Ha].
  - destruct (active_at _ _ Hm Ha) as [Hx Hxt]. assert (operation_key x = operation_key o) as E by (apply Hs; by eexists).
    rewrite E in Hx. rewrite Ha. by simplify_eq.
  - apply active_none, active_nil with (id := operation_key o) in Ha. destruct Ha. by exists o.
Qed.

Lemma reserve_done env r j j' o :
  rebalance_ok j -> within_limits (rj_memory j) -> reserve env r j = (j', Ok o) ->
  (exists f, o = mkRebalanceOperation (request_intent r f (rm_next_sequence (rj_memory j))) IntentRecorded) /\
  record_step o LiveAppend (rj_memory j) (rj_memory j').
Proof.
  intros Hok Hl Hr. unfold reserve, mbind', mlift in Hr. destruct (validate_request r) as [[]|]; [|done].
  destruct (active_operation _) as [[x|]|]; [done| |done]. simpl in Hr. destruct (request_fingerprint r) as [f|]; [|done].
  destruct (append_done _ _ _ _ _ Hok Hl Hr) as [-> Hs]. split; [by exists f|done].
Qed.

(** C29. an authorized transfer is capped and alone: when a request authorized
    under the journal's own risk is reserved, it follows a reviewed route with the
    authority of its chain, its amount and fee are within the caps of its token
    there, and it is the one active transfer of the journal; through any calls, write
    faults and restarts that follow, the journal keeps it with its intent, and as long as
    it is not completed, cancelled, failed or quarantined no request of the policy is
    authorized; of the risk only the active transfers count, whatever was debited before. *)
Theorem authorized_transfer_exclusive p env j risk r j' o :
  rebalance_run new_journal j -> within_limits (rj_memory j) ->
  rebalance_risk (rj_memory j) (cp_approval_session_id p) = Ok risk ->
  authorize_rebalance_request p risk r = Ok tt -> reserve env r j = (j', Ok o) ->
  request_capped p r /\ ri_amount (ro_intent o) = amount (rq_action r) /\ ri_route (ro_intent o) = aroute (rq_action r) /\
  active_operation (rj_memory j') = Ok (Some o) /\
  (forall j2, rebalance_run j' j2 ->
     exists o2, rm_operations (rj_memory j2) !! operation_key o = Some o2 /\ ro_intent o2 = ro_intent o /\
       (~ ended (ro_progress o2) ->
        forall risk' r', rebalance_risk (rj_memory j2) (cp_approval_session_id p) = Ok risk' -> authorize_rebalance_request p risk' r' <> Ok tt)) /\
  (forall past, rk_active_transfer_count past = rk_active_transfer_count risk -> authorize_rebalance_request p past r = Ok tt).
Proof.
  intros Hrun Hl Hrisk Ha Hr. destruct (new_run_ok j Hrun) as (Hok & Hi & _). destruct (authorize_inv _ _ _ Ha) as (Hc & Hs & Hcap).
  destruct (reserve_done _ _ _ _ _ Hok Hl Hr) as [[f ->] Hstep]. split; [done|]. split; [done|]. split; [done|].
  pose proof (step_operations _ _ _ _ Hstep) as Hops. assert (Hrun' : rebalance_run new_journal j').
  { replace j' with (run_rebalance_call (CallReserve env r) j) by (simpl; by rewrite Hr). by apply rebalance_run_call. }
  destruct (new_run_ok j' Hrun') as (Hok' & Hi' & _).
  assert (Hsingle : single (rj_memory j')) by (apply rebalance_run_invariant; [intros m m' _; apply single_step|by intros ? ? (? & ? & _)|done]).
  match type of Hops with _ = <[operation_key ?x := _]> _ => set (o := x) in * end.
  assert (Ho : rm_operations (rj_memory j') !! operation_key o = Some o) by (by rewrite Hops, lookup_insert_eq).
  split; [by apply single_active_some; [apply Hok'|..]|]. split.
  - intros j2 Hrun2. destruct (rebalance_run_ok j' j2 Hrun2 Hok' Hi') as (_ & _ & Hs2).
    destruct (steps_carried _ _ _ _ (rok_memory _ Hok') Hs2 Ho) as (o2 & Ho2 & Hca). exists o2. split; [done|].
    pose proof (ca_intent _ _ _ _ Hca) as Hint. split; [done|]. intros Hend%not_ended risk' r' Hrisk' Ha'. apply authorize_inv in Ha' as (Hc' & _ & _).
    assert (1 <= rk_active_transfer_count risk'); [|lia]. eapply (live_counted _ _ _ _ o2); [done|done|done|].
    destruct Hcap as (chain & ? & ? & ? & Hroute & _). unfold of_session. rewrite Hint.
    apply andb_true_iff. split; [by eapply approved_scope|]. by apply bool_decide_eq_true.
  - intros past E. by rewrite (authorize_active_only p risk past r E).
Qed.
End together.
