(* ===== verification/PortfolioDemo.v ===== *)
(** * A concrete allocation

    A portfolio of one asset on the exchange and on a wallet, a proposal of the
    live allocator, and the transfer that carries it out under the policy. *)
From Stdlib Require Import Lia.
From stdpp Require Import base gmap strings numbers fin_maps pretty sorting list.
From S2P Require Import Prelude LineLog TextCodec Inventory ExecutionPlan Planner RebalanceJournal RebalanceFacts RebalanceRuns RebalanceDemo Portfolio PortfolioFacts.

Definition portfolio_policy : CompiledCapitalPolicy :=
  mkCapitalPolicy "session-1" "eip155:42161" "ARBITRUM" "USDC" "ESP" "usdc" "esp" 1 100 50 5 5 ∅ ∅ 1 true false true.
Definition usdc_binance : InventoryKey := mkKey (BinanceAccount "trading") "USDC".
Definition usdc_wallet : InventoryKey := mkKey (EvmWallet "eip155:42161" "w1") "erc20:33".
Definition portfolio_plan : CompiledPortfolioRuntimePlan :=
  mkPortfolioPlan
    [mkPortfolioAsset (CompiledBinanceAccount "trading") "USDC" "usdc" "USDC" 6;
     mkPortfolioAsset (CompiledEvmWallet "eip155:42161" 42161 "w1") "erc20:33" "usdc" "USDC" 6;
     mkPortfolioAsset (CompiledBinanceAccount "trading") "ESP" "esp" "ESP" 18]
    FullLive (Some portfolio_policy) "arbitrum".
Definition portfolio_catalog : PortfolioCatalog :=
  match from_compiled portfolio_plan with Ok c => c | Err _ => mkCatalog ∅ ∅ ∅ Disabled None "" end.
Definition portfolio_allocator : CapitalAllocator := new_allocator portfolio_catalog.

Lemma portfolio_compiles : from_compiled portfolio_plan = Ok portfolio_catalog.
Proof. vm_compute. reflexivity. Qed.

Definition portfolio_balances : InventoryPortfolioSnapshot :=
  mkPortfolioSnapshot (<[usdc_binance := 300]> (<[usdc_wallet := 50]> ∅)) (<[usdc_binance := 180]> ∅).
Definition refill (credit : Z) : AllocationIntent := mkAllocationIntent "p1" "usdc" usdc_binance usdc_wallet credit 3.
Definition refill_proposal : AllocationProposal := mkProposal "p1" "usdc" usdc_binance usdc_wallet 100 97 3 true.

Lemma refill_planned : plan_snapshot portfolio_allocator portfolio_balances [] [refill 97] = Ok [refill_proposal].
Proof. vm_compute. reflexivity. Qed.
(** One more unit exceeds the cap; two refills exceed what is available. *)
Lemma refill_refused :
  plan_snapshot portfolio_allocator portfolio_balances [] [refill 98] = Err "rebalance proposal exceeds the asset value or fee cap"%string /\
  plan_snapshot portfolio_allocator portfolio_balances [] [refill 57; refill 58] = Err "allocator proposals overspend source inventory"%string.
Proof. vm_compute. done. Qed.

Lemma proposals_conserve_and_fit_witness :
  Forall2 (proposes portfolio_allocator) [refill 97] [refill_proposal] /\ fits portfolio_balances usdc_binance (0 + (100 + 0)) /\
  within_caps portfolio_policy (refill 97) 100.
Proof.
  destruct (proposals_conserve_and_fit _ _ _ _ _ refill_planned) as [[Hm _]|(_ & Hall & _ & Hfit)]; [vm_compute in Hm; discriminate Hm|].
  split; [exact Hall|]. split; [apply (Hfit usdc_binance); left; exists refill_proposal; split; [by left|reflexivity]|].
  apply Forall2_cons_1 in Hall as [Hp _]. exact (pr_caps _ _ _ Hp portfolio_policy eq_refl).
Defined.

Definition reserved_production : RebalanceExecutionJournal * TRes RebalanceExecutionOperation := reserve rebalance_env production_request new_journal.
Definition production_operation : RebalanceExecutionOperation := mkRebalanceOperation production_intent IntentRecorded.
Lemma production_reserved : reserved_production.2 = Ok production_operation.
Proof. vm_compute. reflexivity. Qed.

(** The transfer two steps on: submitted, and still active. *)
Definition submitted_production : RebalanceExecutionJournal :=
  run_rebalance_call (advance_to (at_ 1)) reserved_production.1.
Lemma submitted_production_run : rebalance_run reserved_production.1 submitted_production.
Proof. apply rebalance_run_call; [apply rebalance_run_refl|]. apply roomy_limits. vm_compute. reflexivity. Qed.
Definition submitted_operation : RebalanceExecutionOperation := mkRebalanceOperation production_intent (at_ 1).
Lemma production_submitted :
  rm_operations (rj_memory submitted_production) !! operation_key production_operation = Some submitted_operation.
Proof. vm_compute. reflexivity. Qed.

Lemma authorized_transfer_exclusive_witness :
  authorize_rebalance_request portfolio_policy no_risk production_request = Ok tt /\
  active_operation (rj_memory reserved_production.1) = Ok (Some production_operation) /\
  (forall risk' r', rebalance_risk (rj_memory submitted_production) "session-1" = Ok risk' ->
     authorize_rebalance_request portfolio_policy risk' r' <> Ok tt).
Proof.
  assert (Ha : authorize_rebalance_request portfolio_policy no_risk production_request = Ok tt) by (vm_compute; reflexivity).
  split; [exact Ha|].
  destruct (authorized_transfer_exclusive portfolio_policy rebalance_env new_journal no_risk production_request
    reserved_production.1 production_operation) as (_ & _ & _ & Hact & Hnone & _).
  - apply rebalance_run_refl.
  - apply roomy_limits. vm_compute. reflexivity.
  - vm_compute. reflexivity.
  - exact Ha.
  - fold reserved_production. rewrite <- production_reserved. by destruct reserved_production.
  - split; [exact Hact|]. destruct (Hnone _ submitted_production_run) as (o2 & Ho2 & _ & Hno).
    rewrite production_submitted in Ho2. injection Ho2 as <-. apply Hno. intros Hend. vm_compute in Hend. exact Hend.
Defined.
