(* ===== verification/CostAccounting.v ===== *)
(** * Cost accounting ([src/src/execution_accounting.rs], [src/src/pretrade_cost.rs])

    The deltas a settled leg is booked with, the conversion of gas to token A, and
    the histories of gas prices, conversions and receipts behind the pre-trade cost.
    The clock of a publication is an argument; a panic of the decimal crate is an
    error. *)
From Stdlib Require Import Lia.
From stdpp Require Import base gmap strings numbers fin_maps pretty option list.
From S2P Require Import Prelude LineLog Decimals ExecutionPlan TradeData OrderJournal.

(** ** The balance changes of an order *)
Definition asset_byte (c : Ascii.ascii) : bool := is_ascii_uppercase c || is_ascii_digit c.
Definition validate_asset (value : string) : TRes unit :=
  ensure (negb (str_is_empty value) && bytes_all asset_byte value) "invalid Binance asset"%string.
Definition dec_neg (d : Decimal) : Decimal := mkDecimal (- mantissa d) (scale d).
Definition dec_is_zero (d : Decimal) : bool := mantissa d =? 0.
Definition change_of (changes : gmap string Decimal) (asset : string) : Decimal := default dec_zero (changes !! asset).

Section accounting.
Context `{DecimalArith}.

Fixpoint charge_fills (fills : list OrderFill) (changes : gmap string Decimal) : TRes (gmap string Decimal) :=
  match fills with
  | [] => Ok changes
  | f :: rest =>
      let? _ := validate_asset (of_commission_asset f) in
      ensure! negb (dec_ltb (of_commission f) dec_zero) else "Binance fill commission must not be negative"%string ;;
      if dec_is_zero (of_commission f) then charge_fills rest changes
      else
        let? v := or_err (dec_checked_sub (change_of changes (of_commission_asset f)) (of_commission f)) "Subtraction overflowed"%string in
        charge_fills rest (<[of_commission_asset f := v]> changes)
  end.

Definition balance_changes (o : OrderResult) (base quote : string) : TRes (gmap string Decimal) :=
  let? _ := validate_asset base in
  let? _ := validate_asset quote in
  ensure! negb (bool_decide (base = quote)) else "base and quote assets must differ"%string ;;
  ensure! negb (dec_ltb (or_executed_qty o) dec_zero || dec_ltb (or_cumulative_quote_qty o) dec_zero)
    else "executed order quantities must not be negative"%string ;;
  let? changes :=
    (if bool_decide (or_side o = "BUY"%string) then Ok (<[quote := dec_neg (or_cumulative_quote_qty o)]> (<[base := or_executed_qty o]> ∅))
     else if bool_decide (or_side o = "SELL"%string) then Ok (<[quote := or_cumulative_quote_qty o]> (<[base := dec_neg (or_executed_qty o)]> ∅))
     else Err "unsupported Binance order side"%string) in
  charge_fills (or_fills o) changes.

(** ** Base units *)
Definition pow10_i128 (exponent : Z) : TRes Z := or_err (i128_checked (10 ^ exponent)) "signed base-unit decimal scale overflow"%string.

Definition decimal_to_signed_base_units (value : Decimal) (decimals : Z) : TRes Z :=
  if scale value <=? decimals then
    let? p := pow10_i128 (decimals - scale value) in
    or_err (i128_checked (mantissa value * p)) "signed base-unit conversion overflow"%string
  else
    let? divisor := pow10_i128 (scale value - decimals) in
    let quotient := Z.quot (mantissa value) divisor in
    let remainder := Z.rem (mantissa value) divisor in
    if (remainder =? 0) || (0 <=? mantissa value) then Ok quotient
    else or_err (i128_checked (quotient - 1)) "signed base-unit conservative rounding overflow"%string.

Fixpoint pow10_u256 (exponent : nat) : TRes Z :=
  match exponent with
  | O => Ok 1
  | S e => let? v := pow10_u256 e in or_err (checked_mul 256 v 10) "U256 decimal scale overflow"%string
  end.

Definition u256_to_i128 (value : Z) (name : string) : TRes Z :=
  ensure! value <? 2 ^ 128 else (name +:+ " exceeds u128")%string ;;
  ensure! value <=? I128_MAX else (name +:+ " exceeds i128")%string ;;
  Ok value.

(** ** Legs *)
Record CommissionAssetValuation := mkValuation { cv_asset : string; cv_price_in_token_a : option Decimal }.

Record SwapExecutionOutcome := mkOutcome {
  so_transaction_hash : Z; so_block_number : Z; so_gas_used : Z; so_effective_gas_price : Z; so_l1_fee : Z;
  so_token_in_spent : Z; so_token_out_received : Z;
  so_settlement_fee : option AdaptiveFeeReceiptProof; so_settlement_log : option ChainLog;
}.

Definition dex_leg_result (hash_text : Z -> string) (d : ArbitrageDirection) (o : SwapExecutionOutcome) (gas_cost_token_a : Z) : TRes LegResult :=
  let? token_in := u256_to_i128 (so_token_in_spent o) "DEX input delta" in
  let? token_out := u256_to_i128 (so_token_out_received o) "DEX output delta" in
  let '(a, b) := match d with
                 | BuyTokenBOnDexSellOnCex => (- token_in, token_out)
                 | BuyTokenBOnCexSellOnDex => (token_out, - token_in)
                 end in
  Ok (mkLeg Filled None b a ∅ ∅ gas_cost_token_a ("dex:" +:+ hash_text (so_transaction_hash o))%string (so_settlement_fee o) (so_settlement_log o)).

(** The assets other than base and quote: their deltas, their prices, and token A
    after them. *)
Fixpoint value_commissions (valuation : option CommissionAssetValuation) (base quote : string) (entries : list (string * Decimal))
    (token_a : Decimal) (deltas prices : gmap string Decimal) : TRes (Decimal * gmap string Decimal * gmap string Decimal) :=
  match entries with
  | [] => Ok (token_a, deltas, prices)
  | (asset, change) :: rest =>
      if bool_decide (asset = base) || bool_decide (asset = quote) || dec_is_zero change
      then value_commissions valuation base quote rest token_a deltas prices
      else
        let? v := or_err (match valuation with Some v => if bool_decide (cv_asset v = asset) then Some v else None | None => None end)
                    ("Binance commission in " +:+ asset +:+ " requires token-A conversion")%string in
        ensure! dec_ltb change dec_zero else "Binance third-asset commission delta must be negative"%string ;;
        match cv_price_in_token_a v with
        | None => value_commissions valuation base quote rest token_a (<[asset := change]> deltas) prices
        | Some price =>
            ensure! dec_ltb dec_zero price else "Binance commission token-A price must be positive"%string ;;
            let? value := or_err (dec_checked_mul change price) "Binance commission token-A valuation overflow"%string in
            let? token_a := or_err (dec_checked_add token_a value) "Binance token-A delta plus commission overflow"%string in
            value_commissions valuation base quote rest token_a (<[asset := change]> deltas) (<[asset := price]> prices)
        end
  end.

Definition order_terminal (status : string) : bool :=
  bool_decide (status = "FILLED"%string) || bool_decide (status = "EXPIRED"%string) || bool_decide (status = "CANCELED"%string).

Definition binance_leg_result (o : OrderResult) (base_asset : string) (base_decimals : Z) (quote_asset : string) (quote_decimals : Z)
    (valuation : option CommissionAssetValuation) : TRes LegResult :=
  ensure! order_terminal (or_status o) else "Binance order is not terminal"%string ;;
  let? changes := balance_changes o base_asset quote_asset in
  let? '(token_a, deltas, prices) := value_commissions valuation base_asset quote_asset (btree_entries changes) (change_of changes quote_asset) ∅ ∅ in
  let? token_b_units := decimal_to_signed_base_units (change_of changes base_asset) base_decimals in
  let? executed := decimal_to_signed_base_units
                     (if bool_decide (or_side o = "BUY"%string) then or_executed_qty o else dec_neg (or_executed_qty o)) base_decimals in
  let? token_a_units := decimal_to_signed_base_units token_a quote_decimals in
  Ok (mkLeg (if (token_b_units =? 0) && (token_a_units =? 0) then Failed else Filled) (Some executed) token_b_units token_a_units
        deltas prices 0 (cex_reference (or_order_id o)) None None).

Definition native_gas_to_token_a_base_units (gas_used effective_gas_price l1_fee : Z) (native_price : Decimal) (token_a_decimals : Z) : TRes Z :=
  ensure! 0 <? gas_used else "gas used must be positive"%string ;;
  ensure! 0 <? effective_gas_price else "effective gas price must be positive"%string ;;
  ensure! dec_ltb dec_zero native_price else "native-token price must be positive"%string ;;
  ensure! 0 <=? mantissa native_price else "native-token price mantissa is negative"%string ;;
  let? fee := or_err (checked_mul 256 gas_used effective_gas_price ≫= fun v => checked_add 256 v l1_fee) "total L2 and L1 gas fee overflow"%string in
  let? numerator := or_err (checked_mul 256 fee (mantissa native_price) ≫= fun v =>
                              match pow10_u256 (Z.to_nat token_a_decimals) with Ok p => checked_mul 256 v p | Err _ => None end)
                      "gas token-A numerator overflow"%string in
  let? wei := pow10_u256 18 in
  let? price_scale := pow10_u256 (Z.to_nat (scale native_price)) in
  let? denominator := or_err (checked_mul 256 wei price_scale) "gas token-A denominator overflow"%string in
  let quotient := numerator / denominator in
  let? rounded := (if numerator mod denominator =? 0 then Ok quotient else or_err (checked_add 256 quotient 1) "gas token-A rounding overflow"%string) in
  ensure! rounded <? 2 ^ 128 else "gas token-A cost exceeds u128"%string ;;
  Ok rounded.
End accounting.

(** ** Histories *)
Definition GAS_PRICE_HISTORY_DEPTH : nat := 8.
Definition NATIVE_CONVERSION_HISTORY_DEPTH : nat := 32.
Definition RECEIPT_HISTORY_DEPTH : nat := 4.
Definition MAX_RECEIPT_ROUTES : nat := 16.

Section history.
Context {T : Type} (sample_time : T -> Z).

Definition TemporalHistory : Type := list (option T).
Definition new_history (n : nat) : TemporalHistory := replicate n None.

Fixpoint position (f : option T -> bool) (l : TemporalHistory) : option nat :=
  match l with
  | [] => None
  | x :: rest => if f x then Some O else S <$> position f rest
  end.

Definition insert_sample (sample : T) (h : TemporalHistory) : TemporalHistory :=
  let timestamp := sample_time sample in
  match position (fun e => match e with Some v => sample_time v =? timestamp | None => false end) h with
  | Some i => <[i := Some sample]> h
  | None =>
      match position (fun e => match e with Some v => sample_time v <? timestamp | None => true end) h with
      | None => h
      | Some i => take i h ++ Some sample :: take (length h - i - 1) (drop i h)
      end
  end.

Definition at_or_before (timestamp : Z) (h : TemporalHistory) : option T :=
  List.find (fun s => sample_time s <=? timestamp) (omap id h).
End history.

(** ** The inputs of the pre-trade cost *)
Inductive DexPoolCostKey :=
  | CostUniswapV3 (pool : Z) | CostUniswapV4 (pool_id : Z) | CostPancakeSwapV3 (pool : Z) | CostCamelotV3 (pool : Z) | CostLynexAlgebraV1_9 (pool : Z).
#[global] Instance DexPoolCostKey_eq_dec : EqDecision DexPoolCostKey.
Proof. solve_decision. Defined.
Record DexRouteCostKey := mkRouteKey { rk_pool : DexPoolCostKey; rk_token_in : Z }.
#[global] Instance DexRouteCostKey_eq_dec : EqDecision DexRouteCostKey.
Proof. solve_decision. Defined.

(** Protocols, with the index of their slot. *)
Inductive CostProtocol := ProtocolUniswapV3 | ProtocolUniswapV4 | ProtocolPancakeSwapV3 | ProtocolCamelotV3 | ProtocolLynexAlgebraV1_9.
Definition protocol (k : DexPoolCostKey) : CostProtocol :=
  match k with
  | CostUniswapV3 _ => ProtocolUniswapV3
  | CostUniswapV4 _ => ProtocolUniswapV4
  | CostPancakeSwapV3 _ => ProtocolPancakeSwapV3
  | CostCamelotV3 _ => ProtocolCamelotV3
  | CostLynexAlgebraV1_9 _ => ProtocolLynexAlgebraV1_9
  end.
Definition protocol_index (p : CostProtocol) : nat :=
  match p with
  | ProtocolUniswapV3 => 0
  | ProtocolUniswapV4 => 1
  | ProtocolPancakeSwapV3 => 2
  | ProtocolCamelotV3 => 3
  | ProtocolLynexAlgebraV1_9 => 4
  end%nat.
Definition DEX_PROTOCOL_COUNT : nat := 5.

Inductive GasPriceTelemetrySource := Rpc | RailsFallback.
Inductive ReceiptCostTelemetrySource := LiveExecution | JournalBootstrap.
Inductive ReceiptCostMatchScope := ExactRoute | SameProtocolBootstrap.

Record GasPriceTelemetrySample := mkGasSample {
  gs_captured_unix_us : Z; gs_gas_price_wei : Z; gs_maximum_fee_per_gas_wei : Z; gs_source : GasPriceTelemetrySource; gs_includes_l1_fee : bool;
}.
Record NativeConversionTelemetrySample := mkConversionSample { ns_captured_unix_us : Z; ns_price_token_a : Decimal }.
Record DexReceiptCostTelemetrySample := mkReceiptSample {
  rs_captured_unix_us : Z; rs_source_event_unix_us : option Z; rs_block_number : option Z; rs_gas_used : Z;
  rs_effective_gas_price_wei : Z; rs_l1_fee_wei : Z; rs_source : ReceiptCostTelemetrySource;
}.
Abbreviation ReceiptHistory := (@TemporalHistory DexReceiptCostTelemetrySample).
Record RouteReceiptHistory := mkRouteHistory { rh_key : DexRouteCostKey; rh_history : ReceiptHistory }.

Record PreTradeCostInputs := mkCostInputs {
  ci_gas_prices : @TemporalHistory GasPriceTelemetrySample;
  ci_native_conversions : @TemporalHistory NativeConversionTelemetrySample;
  ci_protocol_receipts : list ReceiptHistory;
  ci_route_receipts : list (option RouteReceiptHistory);
}.
Record PreTradeCostTelemetry := mkCostTelemetry { ct_inputs : PreTradeCostInputs; ct_enabled : bool }.
Definition no_inputs : PreTradeCostInputs :=
  mkCostInputs (new_history GAS_PRICE_HISTORY_DEPTH) (new_history NATIVE_CONVERSION_HISTORY_DEPTH)
    (replicate DEX_PROTOCOL_COUNT (new_history RECEIPT_HISTORY_DEPTH)) (replicate MAX_RECEIPT_ROUTES None).
Definition enabled_telemetry : PreTradeCostTelemetry := mkCostTelemetry no_inputs true.
Definition disabled_telemetry : PreTradeCostTelemetry := mkCostTelemetry no_inputs false.

Definition publish_gas_price (now gas_price_wei maximum_fee_per_gas_wei : Z) (source : GasPriceTelemetrySource) (includes_l1_fee : bool)
    (t : PreTradeCostTelemetry) : PreTradeCostTelemetry :=
  if negb (ct_enabled t) then t else
  let i := ct_inputs t in
  mkCostTelemetry
    (mkCostInputs (insert_sample gs_captured_unix_us (mkGasSample now gas_price_wei maximum_fee_per_gas_wei source includes_l1_fee) (ci_gas_prices i))
       (ci_native_conversions i) (ci_protocol_receipts i) (ci_route_receipts i)) (ct_enabled t).

Definition publish_native_conversion (captured_unix_us : Z) (price_token_a : Decimal) (t : PreTradeCostTelemetry) : PreTradeCostTelemetry :=
  if negb (ct_enabled t) || dec_leb price_token_a dec_zero then t else
  let i := ct_inputs t in
  mkCostTelemetry
    (mkCostInputs (ci_gas_prices i) (insert_sample ns_captured_unix_us (mkConversionSample captured_unix_us price_token_a) (ci_native_conversions i))
       (ci_protocol_receipts i) (ci_route_receipts i)) (ct_enabled t).

Definition publish_protocol_receipt_with_source (now : Z) (p : CostProtocol) (gas_used effective_gas_price_wei l1_fee_wei : Z)
    (block_number source_event_unix_us : option Z) (source : ReceiptCostTelemetrySource) (t : PreTradeCostTelemetry) : PreTradeCostTelemetry :=
  if negb (ct_enabled t) || (gas_used =? 0) || (effective_gas_price_wei =? 0) then t else
  let i := ct_inputs t in
  let sample := mkReceiptSample now source_event_unix_us block_number gas_used effective_gas_price_wei l1_fee_wei source in
  mkCostTelemetry
    (mkCostInputs (ci_gas_prices i) (ci_native_conversions i)
       (alter (insert_sample rs_captured_unix_us sample) (protocol_index p) (ci_protocol_receipts i)) (ci_route_receipts i)) (ct_enabled t).

(** The history of the route, or the first free slot. *)
Fixpoint insert_route (route : DexRouteCostKey) (sample : DexReceiptCostTelemetrySample) (l : list (option RouteReceiptHistory))
  : option (list (option RouteReceiptHistory)) :=
  match l with
  | [] => None
  | Some e :: rest =>
      if bool_decide (rh_key e = route) then Some (Some (mkRouteHistory (rh_key e) (insert_sample rs_captured_unix_us sample (rh_history e))) :: rest)
      else cons (Some e) <$> insert_route route sample rest
  | None :: rest => cons None <$> insert_route route sample rest
  end.
Fixpoint claim_route (route : DexRouteCostKey) (sample : DexReceiptCostTelemetrySample) (l : list (option RouteReceiptHistory))
  : list (option RouteReceiptHistory) :=
  match l with
  | [] => []
  | None :: rest => Some (mkRouteHistory route (insert_sample rs_captured_unix_us sample (new_history RECEIPT_HISTORY_DEPTH))) :: rest
  | Some e :: rest => Some e :: claim_route route sample rest
  end.
Definition publish_route_receipt_with_source (now : Z) (route : DexRouteCostKey) (gas_used effective_gas_price_wei l1_fee_wei : Z)
    (block_number source_event_unix_us : option Z) (source : ReceiptCostTelemetrySource) (t : PreTradeCostTelemetry) : PreTradeCostTelemetry :=
  if negb (ct_enabled t) || (gas_used =? 0) || (effective_gas_price_wei =? 0) then t else
  let i := ct_inputs t in
  let sample := mkReceiptSample now source_event_unix_us block_number gas_used effective_gas_price_wei l1_fee_wei source in
  mkCostTelemetry
    (mkCostInputs (ci_gas_prices i) (ci_native_conversions i) (ci_protocol_receipts i)
       (match insert_route route sample (ci_route_receipts i) with
        | Some l => l
        | None => claim_route route sample (ci_route_receipts i)
        end)) (ct_enabled t).
Definition publish_receipt (now : Z) (route : DexRouteCostKey) (gas_used effective_gas_price_wei l1_fee_wei block_number : Z) :=
  publish_route_receipt_with_source now route gas_used effective_gas_price_wei l1_fee_wei (Some block_number) None LiveExecution.

Definition snapshot (t : PreTradeCostTelemetry) : option PreTradeCostInputs := if ct_enabled t then Some (ct_inputs t) else None.

Definition gas_price_at_or_before (s : PreTradeCostInputs) (at_ : Z) : option GasPriceTelemetrySample :=
  at_or_before gs_captured_unix_us at_ (ci_gas_prices s).
Definition native_conversion_at_or_before (s : PreTradeCostInputs) (at_ : Z) : option NativeConversionTelemetrySample :=
  at_or_before ns_captured_unix_us at_ (ci_native_conversions s).
Definition receipt_at_or_before (s : PreTradeCostInputs) (route : DexRouteCostKey) (at_ : Z)
  : option (DexReceiptCostTelemetrySample * ReceiptCostMatchScope) :=
  match List.find (fun e => bool_decide (rh_key e = route)) (omap id (ci_route_receipts s)) ≫= fun e => at_or_before rs_captured_unix_us at_ (rh_history e) with
  | Some sample => Some (sample, ExactRoute)
  | None => (fun sample => (sample, SameProtocolBootstrap)) <$>
              (ci_protocol_receipts s !! protocol_index (protocol (rk_pool route)) ≫= at_or_before rs_captured_unix_us at_)
  end.
