(* ===== verification/CostFacts.v ===== *)
(** * What cost accounting promises ([src/src/execution_accounting.rs], [src/src/pretrade_cost.rs])

    Booked deltas are the exact deltas rounded against the trader, gas is rounded
    up, and a history answers with the latest sample of everything published.  At the
    end, the sale of the source's tests with a commission in a third asset, booked
    exactly, and a history of conversions published out of order. *)
From Stdlib Require Import Lia Sorted.
From stdpp Require Import base gmap strings numbers option fin_maps pretty sorting list.
From S2P Require Import Prelude LineLog Decimals Depth DepthFeed DepthDemo ExecutionPlan TradeData OrderJournal CostAccounting.

(** ** Histories *)
Section history.
Context {T : Type} (time : T -> Z).

Definition newer (a b : T) : Prop := time b < time a.
#[local] Abbreviation descending := (StronglySorted newer).

(** The samples of a history, newest first, in its [n] slots. *)
Definition pad (n : nat) (l : list T) : list (option T) := map Some l ++ replicate (n - length l) None.

(** Inserting into a descending list. *)
Fixpoint ins (x : T) (l : list T) : list T :=
  match l with
  | [] => [x]
  | y :: r => if time y =? time x then x :: r else if time y <? time x then x :: y :: r else y :: ins x r
  end.

Lemma position_none (f : option T -> bool) l : (forall e, e ∈ l -> f e = false) -> position f l = None.
Proof.
  induction l as [|e l IH]; intros Hf; [done|]. simpl. rewrite Hf by left. rewrite IH; [done|]. intros e' He. apply Hf. by right.
Qed.

Lemma insert_skip x y h : time x < time y -> insert_sample time x (Some y :: h) = Some y :: insert_sample time x h.
Proof.
  intros Hlt. unfold insert_sample. cbn [position]. rewrite (proj2 (Z.eqb_neq _ _)) by lia. rewrite (proj2 (Z.ltb_ge _ _)) by lia.
  destruct (position _ h) as [i|]; [done|]. simpl. destruct (position _ h) as [i|]; [|done]. done.
Qed.

Lemma pad_cons n y l : pad (S n) (y :: l) = Some y :: pad n l.
Proof. done. Qed.
Lemma take_pad k n l : (n <= k)%nat -> take n (pad k l) = pad n (take n l).
Proof.
  intros Hn. unfold pad. revert k n Hn. induction l as [|y l IH]; intros k n Hn.
  - simpl. rewrite take_nil. simpl. rewrite !Nat.sub_0_r, take_replicate. by rewrite Nat.min_l.
  - destruct n as [|n]; [done|]. destruct k as [|k]; [lia|]. simpl. f_equal. apply IH. lia.
Qed.

Lemma insert_pad x n l : descending l -> (length l <= n)%nat -> insert_sample time x (pad n l) = pad n (take n (ins x l)).
Proof.
  revert n. induction l as [|y l IH]; intros n Hs Hn.
  - unfold pad at 1. simpl. rewrite Nat.sub_0_r. unfold insert_sample. rewrite position_none by (by intros e [-> _]%elem_of_replicate).
    destruct n as [|n]; [done|]. simpl. change (None :: replicate n None) with (replicate (S n) (@None T)).
    rewrite take_replicate, length_replicate, Nat.sub_0_r, Nat.min_l by lia. unfold pad. simpl. by rewrite take_nil, Nat.sub_0_r.
  - destruct n as [|n]; [simpl in Hn; lia|]. apply StronglySorted_inv in Hs as [Hs Hy]. rewrite pad_cons.
    assert (Hall : forall e, e ∈ pad n l -> e = None \/ exists z, e = Some z /\ time z < time y).
    { intros e [He|[-> _]%elem_of_replicate]%elem_of_app; [|by left]. right. apply list_elem_of_In, in_map_iff in He as (z & <- & Hz).
      exists z. split; [done|]. rewrite Forall_forall in Hy. apply Hy. by apply list_elem_of_In. }
    simpl ins. destruct (Z.eqb_spec (time y) (time x)) as [He|Hne].
    + unfold insert_sample. simpl. rewrite (proj2 (Z.eqb_eq _ _)) by done. simpl. rewrite pad_cons. f_equal.
      rewrite take_ge; [done|]. simpl in Hn. lia.
    + destruct (Z.ltb_spec (time y) (time x)) as [Hlt|Hge].
      * unfold insert_sample. rewrite position_none.
        2:{ intros e [->|He]%elem_of_cons; [by apply Z.eqb_neq|]. destruct (Hall _ He) as [->|(z & -> & Hz)]; [done|]. apply Z.eqb_neq. lia. }
        cbn [position]. rewrite (proj2 (Z.ltb_lt _ _)) by done. simpl. rewrite pad_cons, Nat.sub_0_r. f_equal.
        rewrite <- (take_pad (S n) n (y :: l)) by lia. rewrite pad_cons. f_equal. unfold pad. rewrite length_app, length_map, length_replicate. simpl in Hn. lia.
      * rewrite insert_skip by lia. simpl. rewrite pad_cons. f_equal. apply IH; [done|simpl in Hn; lia].
Qed.

Lemma elem_of_ins x l z : descending l -> z ∈ ins x l <-> z = x \/ z ∈ l /\ time z <> time x.
Proof.
  induction l as [|y l IH]; intros Hs; simpl; [rewrite list_elem_of_singleton; split; [by left|intros [?|[H _]]; [done|by apply not_elem_of_nil in H]]|].
  apply StronglySorted_inv in Hs as [Hs Hy]. rewrite Forall_forall in Hy. specialize (IH Hs).
  assert (Hz : z ∈ l -> time z < time y) by apply Hy.
  destruct (Z.eqb_spec (time y) (time x)); [|destruct (Z.ltb_spec (time y) (time x))]; rewrite ?elem_of_cons, ?IH;
    (split; [intros [->|Ho]|]); intuition (subst; try lia; auto).
Qed.

Lemma ins_descending x l : descending l -> descending (ins x l).
Proof.
  induction l as [|y l IH]; intros Hs; simpl; [by repeat constructor|]. pose proof (StronglySorted_inv Hs) as [Hs' Hy].
  destruct (Z.eqb_spec (time y) (time x)) as [He|Hne]; [|destruct (Z.ltb_spec (time y) (time x)) as [Hlt|Hge]].
  - constructor; [done|]. eapply Forall_impl; [exact Hy|]. unfold newer. intros z Hz. lia.
  - constructor; [done|]. constructor; [done|]. eapply Forall_impl; [exact Hy|]. unfold newer. intros z Hz. lia.
  - constructor; [by apply IH|]. apply Forall_forall. intros z [->|[Hz _]]%elem_of_ins; [unfold newer; lia| |done].
    rewrite Forall_forall in Hy. by apply Hy.
Qed.

(** A prefix of a descending list keeps the newest. *)
Lemma take_newest n l z : descending l -> z ∈ l -> z ∈ take n l \/ (length (take n l) = n /\ forall y, y ∈ take n l -> time z < time y).
Proof.
  intros Hs Hz. rewrite <- (take_drop n l) in Hs, Hz. apply elem_of_app in Hz as [Hz|Hz]; [by left|]. right.
  assert (n < length l)%nat by (destruct (decide (n < length l)%nat); [done|rewrite drop_ge in Hz by lia; by apply not_elem_of_nil in Hz]).
  split; [rewrite length_take; lia|]. intros y Hy. revert Hs Hy Hz. generalize (take n l) (drop n l). intros a b Hs Ha Hb.
  induction a as [|u a IH]; [by apply not_elem_of_nil in Ha|]. apply StronglySorted_inv in Hs as [Hs Hu]. apply elem_of_cons in Ha as [->|Ha]; [|by apply IH].
  rewrite Forall_forall in Hu. apply Hu, elem_of_app. by right.
Qed.

(** Everything published, the last write of a time winning. *)
Definition published (xs : list T) : gmap Z T := fold_left (fun m x => <[time x := x]> m) xs ∅.
Definition record (n : nat) (xs : list T) : TemporalHistory := fold_left (fun h x => insert_sample time x h) xs (new_history n).

(** [l] are the [n] newest samples of [m]. *)
Record newest (n : nat) (l : list T) (m : gmap Z T) : Prop := {
  nw_descending : descending l;
  nw_length : (length l <= n)%nat;
  nw_sound z : z ∈ l -> m !! time z = Some z;
  nw_complete t z : m !! t = Some z -> (time z = t /\ z ∈ l) \/ (length l = n /\ forall y, y ∈ l -> t < time y);
}.

Lemma newest_insert n l m x : newest n l m -> newest n (take n (ins x l)) (<[time x := x]> m).
Proof.
  intros [Hd Hl Hs Hc]. pose proof (ins_descending x l Hd) as Hd'. assert (Hsub : forall z, z ∈ take n (ins x l) -> z = x \/ z ∈ l /\ time z <> time x).
  { intros z Hz. apply elem_of_ins; [done|]. rewrite <- (take_drop n (ins x l)). apply elem_of_app. by left. }
  split.
  - rewrite <- (take_drop n (ins x l)) in Hd'. revert Hd'. generalize (take n (ins x l)) (drop n (ins x l)). intros a b.
    induction a as [|u a IH]; intros Ha; [constructor|]. apply StronglySorted_inv in Ha as [Ha Hu]. constructor; [by apply IH|].
    by apply Forall_app in Hu as [Hu _].
  - rewrite length_take. lia.
  - intros z Hz. destruct (Hsub z Hz) as [->|[Hin Hne]]; [by rewrite lookup_insert_eq|]. rewrite lookup_insert_ne by done. by apply Hs.
  - intros t z Hz. apply lookup_insert_Some in Hz as [[<- <-]|[Hne Hz]].
    + destruct (take_newest n (ins x l) x Hd') as [Hin|Hout]; [apply elem_of_ins; [done|by left]|by left|by right].
    + destruct (Hc t z Hz) as [[<- Hin]|[Hlen Hall]].
      * destruct (take_newest n (ins x l) z Hd') as [Hz'|Hout]; [apply elem_of_ins; [done|by right]|by left|by right].
      * right. assert (Hge : (n <= length (ins x l))%nat).
        { clear -Hlen. rewrite <- Hlen. clear Hlen. induction l as [|y l IH]; simpl; [lia|]. repeat case_match; simpl; lia. }
        split; [rewrite length_take; lia|]. intros y Hy. destruct (Hsub y Hy) as [->|[Hin _]]; [|by apply Hall].
        destruct (decide (t < time x)); [done|]. exfalso. revert Hy.
        assert (Hlast : ins x l = l ++ [x]).
        { assert (Hlow : forall y, y ∈ l -> time x < time y) by (intros y Hy; specialize (Hall y Hy); lia). clear -Hlow.
          induction l as [|y l IH]; [done|]. simpl. pose proof (Hlow y ltac:(by left)). rewrite (proj2 (Z.eqb_neq _ _)), (proj2 (Z.ltb_ge _ _)) by lia.
          f_equal. apply IH. intros z Hz. apply Hlow. by right. }
        rewrite Hlast, take_app_le, take_ge by lia. intros Hx. specialize (Hall x Hx). lia.
Qed.

Lemma record_newest n xs : exists l, record n xs = pad n l /\ newest n l (published xs).
Proof.
  unfold record, published. assert (Hgen : forall l0 m0, newest n l0 m0 ->
    exists l, fold_left (fun h x => insert_sample time x h) xs (pad n l0) = pad n l /\ newest n l (fold_left (fun m x => <[time x := x]> m) xs m0)).
  { induction xs as [|x xs IH]; intros l0 m0 H0; [by exists l0|]. simpl. rewrite insert_pad by apply H0. by apply IH, newest_insert. }
  destruct (Hgen [] ∅) as (l & El & Hl).
  - split; [constructor|simpl; lia|intros z Hz; by apply not_elem_of_nil in Hz|intros t z Hz; by rewrite lookup_empty in Hz].
  - exists l. split; [|done]. rewrite <- El. unfold pad, new_history. simpl. by rewrite Nat.sub_0_r.
Qed.

Lemma samples_pad n l : omap id (pad n l) = l.
Proof.
  unfold pad. generalize (n - length l)%nat. intros k. induction l as [|y l IH]; [by induction k|]. simpl. f_equal. exact IH.
Qed.

(** A bounded history answers exactly: after any samples are published in any
    order of their times, it holds the newest ones, one per time and the last
    published of it, and the sample it answers with at a time is the latest of
    everything published until then; it answers nothing only when all that it still
    holds is later. *)
Theorem history_answers_latest n xs at_ :
  exists l, omap id (record n xs) = l /\ newest n l (published xs) /\
  match at_or_before time at_ (record n xs) with
  | Some x => published xs !! time x = Some x /\ time x <= at_ /\ (forall t, is_Some (published xs !! t) -> t <= at_ -> t <= time x)
  | None => (forall x, x ∈ l -> at_ < time x) /\ ((size (published xs) <= n)%nat -> forall t, is_Some (published xs !! t) -> at_ < t)
  end.
Proof.
  destruct (record_newest n xs) as (l & -> & Hn). exists l. rewrite samples_pad. split; [done|]. split; [done|].
  unfold at_or_before. rewrite samples_pad. destruct Hn as [Hd Hl Hs Hc]. destruct (List.find _ l) as [x|] eqn:Ef.
  - apply find_some in Ef as Hx. destruct Hx as [Hin Hle]. apply list_elem_of_In in Hin. apply Z.leb_le in Hle.
    split; [by apply Hs|]. split; [done|]. intros t [z Hz] Ht. destruct (Hc t z Hz) as [[<- Hzin]|[_ Hall]]; [|specialize (Hall x Hin); lia].
    clear -Ef Hd Hzin Ht. induction l as [|y l IH]; [done|]. apply StronglySorted_inv in Hd as [Hd Hy]. simpl in Ef.
    destruct (Z.leb_spec (time y) at_).
    + injection Ef as ->. apply elem_of_cons in Hzin as [->|Hzin]; [lia|]. rewrite Forall_forall in Hy. specialize (Hy _ Hzin). unfold newer in Hy. lia.
    + apply elem_of_cons in Hzin as [->|Hzin]; [lia|]. by apply IH.
  - assert (Hlate : forall x, x ∈ l -> at_ < time x).
    { intros x Hx. apply list_elem_of_In in Hx. pose proof (find_none _ _ Ef x Hx) as Hf. by apply Z.leb_gt in Hf. }
    split; [done|]. intros Hsize t [z Hz]. destruct (Hc t z Hz) as [[<- Hin]|[Hlen Hall]]; [by apply Hlate|]. exfalso.
    assert (Hnd : NoDup l) by (clear -Hd; induction Hd as [|y l _ IH Hy]; constructor; [|done]; intros Hin; rewrite Forall_forall in Hy; specialize (Hy _ Hin); unfold newer in Hy; lia).
    assert (Hmore : (S n <= size (published xs))%nat); [|lia].
    assert (Hsub : list_to_set (t :: map time l) ⊆ dom (published xs)).
    { intros u. rewrite elem_of_list_to_set, elem_of_cons. intros [->|Hu]; apply elem_of_dom; [by eexists|].
      apply list_elem_of_In, in_map_iff in Hu as (w & <- & Hw). exists w. by apply Hs, list_elem_of_In. }
    apply subseteq_size in Hsub. rewrite size_dom, size_list_to_set in Hsub; [simpl in Hsub; rewrite length_map in Hsub; lia|].
    constructor.
    + intros Hin. apply list_elem_of_In, in_map_iff in Hin as (w & Hw & Hin). apply list_elem_of_In in Hin. specialize (Hall w Hin). lia.
    + clear -Hd. induction Hd as [|y l _ IH Hy]; [constructor|]. simpl. constructor; [|done].
      intros Hin. apply list_elem_of_In, in_map_iff in Hin as (w & Hw & Hin). apply list_elem_of_In in Hin. rewrite Forall_forall in Hy. specialize (Hy w Hin). unfold newer in Hy. lia.
Qed.
End history.

(** ** Rounding *)
Lemma signed_units_floor v d r :
  0 <= scale v -> 0 <= d -> decimal_to_signed_base_units v d = Ok r -> r = mantissa v * 10 ^ d / 10 ^ scale v.
Proof.
  intros Hs Hd. unfold decimal_to_signed_base_units, pow10_i128. destruct (Z.leb_spec (scale v) d) as [Hle|Hgt]; intros Hr.
  - res_inv. apply i128_checked_Some in Hok as [-> _]. apply i128_checked_Some in Hr as [-> _].
    assert (0 < 10 ^ scale v) by (by apply Z.pow_pos_nonneg).
    replace d with (d - scale v + scale v) at 2 by lia. rewrite Z.pow_add_r, Z.mul_assoc, Z.div_mul by lia. done.
  - apply rbind_Ok in Hr as (p & Hp & Hr). apply or_err_Ok, i128_checked_Some in Hp as [-> _].
    set (p := 10 ^ (scale v - d)) in *. assert (Hp : 0 < p) by (apply Z.pow_pos_nonneg; lia).
    assert (0 < 10 ^ d) by (by apply Z.pow_pos_nonneg).
    replace (10 ^ scale v) with (p * 10 ^ d) by (unfold p; rewrite <- Z.pow_add_r by lia; f_equal; lia).
    rewrite Z.div_mul_cancel_r by lia. set (m := mantissa v) in *.
    pose proof (Z.quot_rem' m p) as Hqr. pose proof (Z.rem_bound_abs m p ltac:(lia)) as Hb.
    destruct ((Z.rem m p =? 0) || (0 <=? m)) eqn:Ec.
    + injection Hr as <-. apply orb_true_iff in Ec as [E|E]; [apply Z.eqb_eq in E; apply Z.div_unique_exact; lia|].
      apply Z.leb_le in E. by rewrite Z.quot_div_nonneg by lia.
    + apply orb_false_iff in Ec as [E1 E2]. apply Z.eqb_neq in E1. apply Z.leb_gt in E2.
      apply or_err_Ok, i128_checked_Some in Hr as [-> _]. pose proof (Z.rem_nonpos m p ltac:(lia) ltac:(lia)).
      apply (Z.div_unique m p _ (Z.rem m p + p)); lia.
Qed.

(** The same on a grid. *)
Lemma grid_floor g v d r : on_grid g v -> 0 <= d -> decimal_to_signed_base_units v d = Ok r -> r = units g v * 10 ^ d / 10 ^ g.
Proof.
  intros [[_ Hs] Hg] Hd Hr. rewrite (signed_units_floor _ _ _ (proj1 Hs) Hd Hr). unfold units.
  assert (0 < 10 ^ (g - scale v)) by (apply Z.pow_pos_nonneg; lia). assert (0 < 10 ^ scale v) by (apply Z.pow_pos_nonneg; lia).
  replace (10 ^ g) with (10 ^ scale v * 10 ^ (g - scale v)) by (rewrite <- Z.pow_add_r by lia; f_equal; lia).
  replace (mantissa v * 10 ^ (g - scale v) * 10 ^ d) with (mantissa v * 10 ^ d * 10 ^ (g - scale v)) by ring.
  by rewrite Z.div_mul_cancel_r by lia.
Qed.

Lemma neg_grid g v : on_grid g v -> on_grid g (dec_neg v) /\ units g (dec_neg v) = - units g v.
Proof. intros [[Hm Hs] Hg]. split; [split; [split; simpl; [lia|done]|done]|]. unfold units. simpl. lia. Qed.
Lemma coarse_grid s t v : 0 <= t -> s + t <= 28 -> on_grid s v -> on_grid (s + t) v /\ units (s + t) v = units s v * 10 ^ t.
Proof.
  intros Ht H28 [Hok Hg]. split; [split; [done|lia]|]. unfold units. rewrite <- Z.mul_assoc, <- Z.pow_add_r by (destruct Hok; lia). do 2 f_equal. lia.
Qed.
Lemma zero_grid g : 0 <= g -> on_grid g dec_zero.
Proof. intros Hg. split; [|done]. split; simpl; lia. Qed.

Lemma pow10_u256_exact e p : pow10_u256 e = Ok p -> p = 10 ^ Z.of_nat e.
Proof.
  revert p. induction e as [|e IH]; intros p Hp; simpl in Hp; [by injection Hp as <-|]. res_inv. checked_inv. subst.
  rewrite (IH _ Hok). rewrite Nat2Z.inj_succ, Z.pow_succ_r by lia. lia.
Qed.

(** Gas is the exact cost rounded up to a base unit. *)
Theorem gas_rounds_up gas_used price l1_fee native decimals r :
  0 <= decimals -> 0 <= scale native -> native_gas_to_token_a_base_units gas_used price l1_fee native decimals = Ok r ->
  let exact := (gas_used * price + l1_fee) * mantissa native * 10 ^ decimals in
  let unit_ := 10 ^ 18 * 10 ^ scale native in
  (r - 1) * unit_ < exact <= r * unit_.
Proof.
  intros Hd Hs Hr. unfold native_gas_to_token_a_base_units in Hr. res_inv. bool_prop.
  repeat match goal with E : _ ≫= _ = Some _ |- _ => apply bind_Some in E as (? & ? & E) end.
  destruct (pow10_u256 (Z.to_nat decimals)) as [p|] eqn:Ep; [|done]. checked_inv. subst.
  repeat match goal with E : pow10_u256 _ = Ok _ |- _ => apply pow10_u256_exact in E end. subst. rewrite !Z2Nat.id in * by lia.
  cbv zeta. change (Z.of_nat 18) with 18 in *. set (u := 10 ^ 18 * 10 ^ scale native) in *.
  assert (Hu : 0 < u) by (unfold u; assert (0 < 10 ^ scale native) by (by apply Z.pow_pos_nonneg); lia).
  match goal with E : (if ?n mod u =? 0 then _ else _) = Ok r |- _ => set (e := n) in * end.
  replace ((gas_used * price + l1_fee) * mantissa native * 10 ^ decimals) with e by (unfold e; ring).
  pose proof (Z.div_mod e u ltac:(lia)). pose proof (Z.mod_pos_bound e u Hu).
  match goal with E : (if _ then _ else _) = Ok r |- _ => destruct (Z.eqb_spec (e mod u) 0); res_inv; checked_inv; subst; nia end.
Qed.

(** ** Legs *)
Section leg.
Context `{DecimalLaws}.
Context (s t : Z) (Hs : 0 <= s) (Ht : 0 <= t) (Hst : s + t <= 28).

(** The commissions of the fills in an asset, and in all. *)
Fixpoint commission_in (a : string) (fills : list OrderFill) : Z :=
  match fills with [] => 0 | f :: r => (if decide (of_commission_asset f = a) then units s (of_commission f) else 0) + commission_in a r end.
Fixpoint commissions (fills : list OrderFill) : Z :=
  match fills with [] => 0 | f :: r => units s (of_commission f) + commissions r end.

Lemma sub_exact a b v : on_grid s a -> on_grid s b -> Z.abs (units s a - units s b) < 2 ^ 96 -> dec_checked_sub a b = Some v ->
  on_grid s v /\ units s v = units s a - units s b.
Proof. intros Ha Hb Hf Hv. destruct (dec_sub_exact s a b Ha Hb ltac:(lia) Hf) as (r & Hr & Hg & Hu). by simplify_eq. Qed.

Lemma change_of_insert m k v a : change_of (<[k := v]> m) a = if decide (k = a) then v else change_of m a.
Proof. unfold change_of. case_decide as E; [subst; by rewrite lookup_insert_eq|by rewrite lookup_insert_ne]. Qed.

Lemma nonneg_units d : on_grid s d -> dec_ltb d dec_zero = false -> 0 <= units s d.
Proof. intros Hd Hz. rewrite (dec_ltb_units s) in Hz by (done || by apply zero_grid). apply Z.ltb_ge in Hz. by unfold units at 1 in Hz. Qed.

Lemma charge_fills_exact fills changes changes' :
  charge_fills fills changes = Ok changes' -> Forall (fun f => on_grid s (of_commission f)) fills ->
  (forall a, on_grid s (change_of changes a) /\ Z.abs (units s (change_of changes a)) + commissions fills < 2 ^ 96) ->
  forall a, on_grid s (change_of changes' a) /\ units s (change_of changes' a) = units s (change_of changes a) - commission_in a fills.
Proof.
  revert changes. induction fills as [|f fills IH]; intros changes Hc Hg Hb; simpl in Hc.
  - injection Hc as <-. intros a. destruct (Hb a) as [? _]. split; [done|]. simpl. lia.
  - res_inv. bool_prop. apply Forall_cons in Hg as [Hf Hg]. pose proof (nonneg_units _ Hf Hok0) as Hnn.
    assert (Hz : dec_is_zero (of_commission f) = true <-> units s (of_commission f) = 0).
    { unfold dec_is_zero. rewrite Z.eqb_eq. symmetry. by apply units_sign. }
    destruct (dec_is_zero (of_commission f)) eqn:Ez.
    + intros a. assert (E : units s (of_commission f) = 0) by (by apply Hz). simpl.
      destruct (IH changes Hc Hg ltac:(intros a'; destruct (Hb a'); split; [done|simpl in *; lia]) a) as [Hga Hu].
      split; [done|]. rewrite Hu. case_decide; lia.
    + res_inv. set (k := of_commission_asset f) in *. destruct (Hb k) as [Hgk Hbk]. simpl in Hbk.
      match goal with E : dec_checked_sub _ _ = Some ?v |- _ => apply sub_exact in E as [Hgv Huv]; [|done|done|] end.
      2:{ assert (0 <= commissions fills); [|lia]. assert (Hrest : Forall (fun g => 0 <= units s (of_commission g)) fills); [|clear -Hrest; induction Hrest; simpl; lia].
          clear -Hc Hg Hs. revert Hc. generalize (<[k:=x1]> changes). induction fills as [|g gs IHg]; intros m Hc; [constructor|]. simpl in Hc. res_inv. bool_prop.
          apply Forall_cons in Hg as [Hg1 Hg2]. constructor; [by apply nonneg_units|]. destruct (dec_is_zero _); [by eapply IHg|]. res_inv. by eapply IHg. }
      intros a. destruct (IH _ Hc Hg) with (a := a) as [Hga Hu].
      { intros a'. rewrite change_of_insert. destruct (Hb a') as [Hg' Hb']. simpl in Hb'. case_decide; [split; [done|]; subst; lia|split; [done|lia]]. }
      split; [done|]. rewrite Hu, change_of_insert. simpl. fold k. case_decide; subst; lia.
Qed.

(** Without the valued asset nothing more is worth anything. *)
Lemma value_rest base quote asset price entries token_a deltas prices r d' p' :
  value_commissions (Some (mkValuation asset price)) base quote entries token_a deltas prices = Ok (r, d', p') -> asset ∉ entries.*1 -> r = token_a.
Proof.
  induction entries as [|[x c] entries IH]; intros Hv Hn; simpl in *; [by injection Hv as <-|].
  apply not_elem_of_cons in Hn as [Hx Hn]. destruct (_ || _); [by apply IH|]. by rewrite bool_decide_eq_false_2 in Hv.
Qed.

(** What a unit of an asset is worth: the price of the valued asset, if it is
    neither base nor quote. *)
Definition price_units (valuation : option CommissionAssetValuation) (base quote asset : string) : Z :=
  match valuation with
  | Some (mkValuation a (Some p)) => if decide (asset = a /\ a <> base /\ a <> quote) then units t p else 0
  | _ => 0
  end.
Definition price_grid (valuation : option CommissionAssetValuation) : Prop :=
  match valuation with Some (mkValuation _ (Some p)) => on_grid t p | _ => True end.

Lemma skipped_worthless base quote asset v c :
  cv_asset v = asset -> bool_decide (asset = base) || bool_decide (asset = quote) || dec_is_zero c = true ->
  units s c * match v with mkValuation a (Some p) => if decide (asset = a /\ a <> base /\ a <> quote) then units t p else 0 | _ => 0 end = 0.
Proof.
  intros Hv Hsk. destruct v as [va [p|]]; simpl in *; [|lia]. subst va. rewrite !orb_true_iff in Hsk. destruct Hsk as [[E|E]|E].
  - bool_prop. rewrite decide_False; [lia|]. naive_solver.
  - bool_prop. rewrite decide_False; [lia|]. naive_solver.
  - unfold dec_is_zero in E. apply Z.eqb_eq in E. unfold units. rewrite E. lia.
Qed.

(** Token A after the third assets, the valued one being [a] with the change [c]. *)
Lemma value_commissions_exact valuation base quote entries token_a deltas prices r d' p' (change : string -> Decimal) :
  price_grid valuation -> value_commissions valuation base quote entries token_a deltas prices = Ok (r, d', p') ->
  (forall asset c, (asset, c) ∈ entries -> c = change asset /\ on_grid s c) -> NoDup entries.*1 -> on_grid (s + t) token_a ->
  (forall asset, Z.abs (units (s + t) token_a) + Z.abs (units s (change asset) * price_units valuation base quote asset) < 2 ^ 96) ->
  on_grid (s + t) r /\
  units (s + t) r = units (s + t) token_a +
    match valuation with
    | Some v => if decide (cv_asset v ∈ entries.*1) then units s (change (cv_asset v)) * price_units valuation base quote (cv_asset v) else 0
    | None => 0
    end.
Proof.
  intros Hp. revert token_a deltas prices. induction entries as [|[asset c] entries IH]; intros token_a deltas prices Hv Hin Hnd Hg Hb; simpl in Hv.
  - injection Hv as <- _ _. split; [done|]. destruct valuation; [rewrite decide_False by apply not_elem_of_nil|]; lia.
  - simpl in Hnd. apply NoDup_cons in Hnd as [Hn Hnd]. destruct (Hin asset c ltac:(by left)) as [-> Hgc].
    assert (Hin' : forall asset c, (asset, c) ∈ entries -> c = change asset /\ on_grid s c) by (intros; apply Hin; by right).
    destruct (bool_decide (asset = base) || bool_decide (asset = quote) || dec_is_zero (change asset)) eqn:Eskip.
    + destruct (IH _ _ _ Hv Hin' Hnd Hg Hb) as (Hgr & Hw). split; [done|]. rewrite Hw. f_equal. destruct valuation as [v|]; [|done]. simpl.
      destruct (decide (cv_asset v = asset)) as [Hva|Hne].
      * rewrite Hva. rewrite (decide_False (P := asset ∈ entries.*1)) by done. rewrite decide_True by by left.
        rewrite skipped_worthless; [lia|by rewrite <- Hva|done].
      * destruct (decide (cv_asset v ∈ entries.*1)) as [Hi|Hi]; [by rewrite decide_True by by right|].
        rewrite decide_False; [done|]. intros [?|?]%elem_of_cons; done.
    + res_inv. rewrite !orb_false_iff in Eskip. destruct Eskip as [[Eb Eq] Ez]. bool_prop.
      destruct valuation as [[va vp]|]; [|done]. simpl in *. case_bool_decide as Ea; [|done]. subst va.
      match goal with E : Some _ = Some ?x |- _ => injection E as <- end. simpl in *.
      assert (Hrest : forall worth, (if decide (asset ∈ entries.*1) then worth else 0) = 0) by (intros; by rewrite decide_False).
      destruct vp as [price|].
      * res_inv. bool_prop.
        pose proof (Hb asset) as Hba. rewrite decide_True in Hba by done.
        match goal with E : dec_checked_mul _ _ = Some ?x, F : dec_checked_add _ ?x = Some ?y |- _ => rename x into m, y into w, E into Em, F into Ew end.
        destruct (dec_mul_exact s t (change asset) price Hgc Hp Hs Ht Hst ltac:(lia)) as (m' & Em' & Hgm & Hum). assert (m' = m) as -> by congruence.
        destruct (dec_add_exact (s + t) token_a m Hg Hgm ltac:(lia) ltac:(lia)) as (w' & Ew' & Hgw & Huw). assert (w' = w) as -> by congruence.
        pose proof (value_rest base quote asset (Some price) entries w _ _ r d' p' Hv Hn) as ->. split; [done|].
        rewrite decide_True by by left. rewrite decide_True by done. lia.
      * pose proof (value_rest base quote asset None entries token_a _ _ r d' p' Hv Hn) as ->. split; [done|]. rewrite decide_True by by left. lia.
Qed.

(** The sides of an order, and the amounts its bookkeeping may reach. *)
Definition signed_executed (o : OrderResult) : Z := (if bool_decide (or_side o = "BUY"%string) then 1 else -1) * units s (or_executed_qty o).
Definition signed_quote (o : OrderResult) : Z := (if bool_decide (or_side o = "BUY"%string) then -1 else 1) * units s (or_cumulative_quote_qty o).
Definition valued_price (valuation : option CommissionAssetValuation) : Z :=
  match valuation with Some (mkValuation _ (Some p)) => units t p | _ => 0 end.
Record order_fits (o : OrderResult) (valuation : option CommissionAssetValuation) : Prop := {
  of_executed : on_grid s (or_executed_qty o);
  of_quote : on_grid s (or_cumulative_quote_qty o);
  of_fills : Forall (fun f => on_grid s (of_commission f)) (or_fills o);
  of_valuation : price_grid valuation;
  of_room : (Z.abs (units s (or_executed_qty o)) + Z.abs (units s (or_cumulative_quote_qty o)) + commissions (or_fills o)) *
            (10 ^ t + Z.abs (valued_price valuation)) < 2 ^ 96;
}.

Lemma charged_nonneg fills changes changes' : charge_fills fills changes = Ok changes' -> Forall (fun f => on_grid s (of_commission f)) fills ->
  0 <= commissions fills /\ forall a, 0 <= commission_in a fills <= commissions fills.
Proof.
  revert changes. induction fills as [|f fills IH]; intros changes Hc Hg; simpl in *; [split; [lia|intros a; lia]|]. apply Forall_cons in Hg as [Hf Hg].
  res_inv. bool_prop. pose proof (nonneg_units _ Hf Hok0) as Hnn.
  assert (Hrest : exists m, charge_fills fills m = Ok changes') by (destruct (dec_is_zero _); [by eexists|res_inv; by eexists]).
  destruct Hrest as [m Hm]. destruct (IH m Hm Hg) as [H1 H2]. split; [lia|]. intros a. specialize (H2 a). case_decide; lia.
Qed.

(** The changes of an order, exactly. *)
Lemma balance_changes_exact o base quote changes valuation :
  order_fits o valuation -> balance_changes o base quote = Ok changes ->
  base <> quote /\ forall a, on_grid s (change_of changes a) /\ units s (change_of changes a) =
    (if decide (a = base) then signed_executed o else if decide (a = quote) then signed_quote o else 0) - commission_in a (or_fills o).
Proof.
  intros [He Hq Hf _ Hroom] Hb. unfold balance_changes in Hb. res_inv. bool_prop. split; [done|].
  assert (Hp : 1 <= 10 ^ t) by (pose proof (Z.pow_pos_nonneg 10 t); lia).
  match goal with E : (if _ then _ else _) = Ok ?m |- _ => rename E into Hside, m into changes0 end.
  destruct (charged_nonneg _ _ _ Hb Hf) as [Hcn _].
  assert (Hsmall : Z.abs (units s (or_executed_qty o)) + Z.abs (units s (or_cumulative_quote_qty o)) + commissions (or_fills o) < 2 ^ 96) by nia.
  assert (Hstart : forall a, on_grid s (change_of changes0 a) /\ units s (change_of changes0 a) =
             (if decide (a = base) then signed_executed o else if decide (a = quote) then signed_quote o else 0)).
  { intros a. destruct (neg_grid s _ He) as [Hne Ene]. destruct (neg_grid s _ Hq) as [Hnq Enq]. pose proof (zero_grid s Hs) as Hz.
    unfold signed_executed, signed_quote.
    destruct (bool_decide (or_side o = "BUY"%string)); [|destruct (bool_decide (or_side o = "SELL"%string)); [|done]]; injection Hside as <-;
      rewrite !change_of_insert; unfold change_of; rewrite lookup_empty; simpl;
      repeat case_decide; subst; try done; split; try done; try lia; unfold units; simpl; lia. }
  assert (Hb0 : forall a, on_grid s (change_of changes0 a) /\ Z.abs (units s (change_of changes0 a)) + commissions (or_fills o) < 2 ^ 96).
  { intros a. destruct (Hstart a) as [Hg ->]. split; [done|]. unfold signed_executed, signed_quote. repeat case_decide; repeat case_bool_decide; lia. }
  intros a. destruct (charge_fills_exact _ _ _ Hb Hf Hb0 a) as [Hg ->]. split; [done|]. by rewrite (proj2 (Hstart a)).
Qed.

Lemma booked_room e q c x y p k v : Z.abs x <= Z.abs q + c -> Z.abs y <= Z.abs e + Z.abs q + c -> Z.abs p <= Z.abs v -> 0 <= c -> 1 <= k ->
  (Z.abs e + Z.abs q + c) * (k + Z.abs v) < 2 ^ 96 -> Z.abs x * k + Z.abs y * Z.abs p < 2 ^ 96.
Proof.
  intros Hx Hy Hp Hc Hk Hroom. assert (Z.abs x * k <= (Z.abs e + Z.abs q + c) * k) by (apply Z.mul_le_mono_nonneg_r; lia).
  assert (Z.abs y * Z.abs p <= (Z.abs e + Z.abs q + c) * Z.abs v) by (apply Z.mul_le_mono_nonneg; lia). lia.
Qed.

Definition third_commission (o : OrderResult) (valuation : option CommissionAssetValuation) (base quote : string) : Z :=
  match valuation with Some v => commission_in (cv_asset v) (or_fills o) * price_units valuation base quote (cv_asset v) | None => 0 end.

(** C30. a settled exchange leg is booked exactly: on the grid of the order's
    amounts, token B moves by what was executed less the commissions taken in it,
    token A by the counter-value less its commissions and less what the valued
    commission asset is worth, and the booked integers are these exact amounts
    rounded down, so a leg never books more than it earned. *)
Theorem leg_books_exact_deltas o base base_decimals quote quote_decimals valuation r :
  order_fits o valuation -> 0 <= base_decimals -> 0 <= quote_decimals ->
  binance_leg_result o base base_decimals quote quote_decimals valuation = Ok r ->
  token_b_delta r = (signed_executed o - commission_in base (or_fills o)) * 10 ^ base_decimals / 10 ^ s /\
  executed_token_b r = Some (signed_executed o * 10 ^ base_decimals / 10 ^ s) /\
  token_a_delta r = ((signed_quote o - commission_in quote (or_fills o)) * 10 ^ t - third_commission o valuation base quote)
                      * 10 ^ quote_decimals / 10 ^ (s + t).
Proof.
  intros Hfit Hdb Hdq Hr. unfold binance_leg_result in Hr. res_inv. destruct x1 as [[token_a deltas] prices]. res_inv. simpl.
  destruct (balance_changes_exact _ _ _ _ _ Hfit Hok0) as [Hbq Hch]. pose proof Hfit as [He Hq Hf Hpg Hroom].
  unfold balance_changes in Hok0. res_inv. destruct (charged_nonneg _ _ _ Hok0 Hf) as [Hcn Hci].
  assert (Hp : 1 <= 10 ^ t) by (pose proof (Z.pow_pos_nonneg 10 t); lia).
  destruct (Hch base) as [Hgb Hub]. rewrite decide_True in Hub by done. destruct (Hch quote) as [Hgq Huq].
  rewrite decide_False, decide_True in Huq by done. destruct (coarse_grid s t _ Ht Hst Hgq) as [Hgq' Huq'].
  pose proof (value_commissions_exact valuation base quote (btree_entries x0) (change_of x0 quote) ∅ ∅ token_a deltas prices (change_of x0) Hpg) as Hval.
  destruct Hval as [Hga Hua]; [done|..].
  - intros asset c Hin. apply elem_of_btree_entries in Hin. assert (c = change_of x0 asset) as -> by (unfold change_of; by rewrite Hin). split; [done|apply Hch].
  - apply btree_entries_keys_nodup.
  - done.
  - intros asset. destruct (Hch asset) as [_ Hu]. rewrite Huq', Hu, Huq. pose proof (Hci quote). pose proof (Hci asset).
    set (e := units s (or_executed_qty o)) in *. set (q := units s (or_cumulative_quote_qty o)) in *. set (c := commissions (or_fills o)) in *.
    assert (Hpr : Z.abs (price_units valuation base quote asset) <= Z.abs (valued_price valuation)).
    { unfold price_units, valued_price. destruct valuation as [[va [p|]]|]; simpl; repeat case_decide; simpl; lia. }
    assert (Hsq : Z.abs (signed_quote o - commission_in quote (or_fills o)) <= Z.abs q + c) by (unfold signed_quote; fold q; case_bool_decide; lia).
    assert (Hsa : Z.abs ((if decide (asset = base) then signed_executed o else if decide (asset = quote) then signed_quote o else 0) - commission_in asset (or_fills o)) <= Z.abs e + Z.abs q + c).
    { unfold signed_executed, signed_quote. fold e q. repeat case_decide; repeat case_bool_decide; lia. }
    rewrite !Z.abs_mul, (Z.abs_eq (10 ^ t)) by lia. by eapply booked_room.
  - split; [|split].
    + rewrite <- Hub. by apply grid_floor.
    + f_equal. unfold signed_executed. destruct (bool_decide (or_side o = "BUY"%string)).
      * replace (1 * units s (or_executed_qty o)) with (units s (or_executed_qty o)) by lia. by apply grid_floor.
      * destruct (neg_grid s _ He) as [Hne Ene]. replace (-1 * units s (or_executed_qty o)) with (units s (dec_neg (or_executed_qty o))) by lia. by apply grid_floor.
    + rewrite (grid_floor _ _ _ _ Hga Hdq Hok4). do 2 f_equal. rewrite Hua, Huq', Huq. unfold third_commission. destruct valuation as [v|]; [|lia].
      assert (Hv : units s (change_of x0 (cv_asset v)) * price_units (Some v) base quote (cv_asset v) =
                   - (commission_in (cv_asset v) (or_fills o) * price_units (Some v) base quote (cv_asset v))).
      { rewrite (proj2 (Hch (cv_asset v))). unfold price_units. destruct v as [va [p|]]; cbn [cv_asset]; [|by rewrite !Z.mul_0_r].
        destruct (decide (va = va /\ va <> base /\ va <> quote)) as [(_ & Hd1 & Hd2)|_]; [|by rewrite !Z.mul_0_r].
        rewrite !decide_False by done. ring. }
      case_decide as Hin; [lia|].
      assert (change_of x0 (cv_asset v) = dec_zero) as Hzero; [|rewrite Hzero in Hv; change (units s dec_zero) with 0 in Hv; lia].
      unfold change_of. destruct (x0 !! cv_asset v) as [c|] eqn:Ec; [|done]. exfalso. apply Hin, list_elem_of_fmap. exists (cv_asset v, c).
      split; [done|]. by apply elem_of_btree_entries.
Qed.
End leg.

(** ** A concrete settlement *)
Definition sale : OrderResult :=
  mkOrderResult "WLDUSDC" 42 "rustarb42L" (Some 1) dec_zero (mkDecimal 5190000000 8) (mkDecimal 5190000000 8) dec_zero
    (mkDecimal 2001264000 8) "FILLED" "IOC" "LIMIT" "SELL"
    [mkFill (mkDecimal 38560000 8) (mkDecimal 5190000000 8) (mkDecimal 2001264 8) "USDC" 1;
     mkFill (mkDecimal 38560000 8) (mkDecimal 0 8) (mkDecimal 1000 8) "BNB" 2].
Definition bnb : CommissionAssetValuation := mkValuation "BNB" (Some (mkDecimal 60050 2)).
Definition booked : LegResult :=
  match binance_leg_result sale "WLD" 18 "USDC" 6 (Some bnb) with Ok r => r | Err _ => mkLeg Failed None 0 0 ∅ ∅ 0 "" None None end.

(** The exact counter-value is [19.99262736 - 0.006005] and is booked rounded down. *)
Example sale_books : (token_a_delta booked, token_b_delta booked, executed_token_b booked) =
  (19986622, -51900000000000000000, Some (-51900000000000000000)).
Proof. vm_compute. reflexivity. Qed.
Lemma sale_booked : binance_leg_result sale "WLD" 18 "USDC" 6 (Some bnb) = Ok booked.
Proof. vm_compute. reflexivity. Qed.
Lemma on_grid_by g d : (Z.abs (mantissa d) <? 2 ^ 96) && (0 <=? scale d) && (scale d <=? 28) && (scale d <=? g) = true -> on_grid g d.
Proof. intros Hd. bool_prop. split; [split|]; lia. Qed.
Lemma sale_fits : order_fits 8 2 sale (Some bnb).
Proof.
  split; [by apply on_grid_by|by apply on_grid_by| |by apply on_grid_by|by vm_compute].
  do 2 (apply Forall_cons; split; [by apply on_grid_by|]). by apply Forall_nil.
Qed.

Lemma leg_books_exact_deltas_witness :
  token_b_delta booked = -51900000000000000000 /\ token_a_delta booked = ((2001264000 - 2001264) * 100 - 1000 * 60050) * 10 ^ 6 / 10 ^ 10.
Proof.
  destruct (leg_books_exact_deltas 8 2 ltac:(lia) ltac:(lia) ltac:(lia) sale "WLD" 18 "USDC" 6 (Some bnb) booked sale_fits
              ltac:(lia) ltac:(lia) sale_booked) as (Hb & _ & Ha).
  split; [exact Hb|exact Ha].
Defined.

Example gas_in_token_a : native_gas_to_token_a_base_units 210000 1000000 50 (mkDecimal 300001 2) 6 = Ok 631.
Proof. vm_compute. reflexivity. Qed.

(** Publications out of order, one of them replaced. *)
Definition conversions : list (Z * Z) := [(30, 5); (10, 2); (20, 3); (30, 6)].
Definition conversion_telemetry : PreTradeCostTelemetry :=
  fold_left (fun t '(at_, p) => publish_native_conversion at_ (mkDecimal p 0) t) conversions enabled_telemetry.
Example conversion_answers :
  (fun at_ => mantissa <$> (ns_price_token_a <$> native_conversion_at_or_before (ct_inputs conversion_telemetry) at_)) <$> [5; 10; 25; 30; 99] =
  [None; Some 2; Some 3; Some 6; Some 6].
Proof. vm_compute. reflexivity. Qed.
