(* ===== verification/Sizing.v ===== *)
(** * Sizing work ([src/src/strategy_runtime.rs])

    The schedulers of the sizing workers: one running and one latest pending
    snapshot per strategy, with a global bound and round-robin dispatch
    ([FairLatestOnlySizingScheduler]) or with a slot per strategy
    ([LatestOnlySizingSlots]).  Indexing out of range is the error [SizingPanic]. *)
From Stdlib Require Import Lia.
From stdpp Require Import base gmap strings numbers fin_maps sorting list.
From S2P Require Import Prelude.

Inductive SizingError := SizingMsg (m : string) | SizingPanic.
Abbreviation SRes := (result SizingError).

Section scheduler.
Context {S : Type}.

Record FairSizingSlot := mkFairSlot { fs_running : bool; fs_pending : option S; fs_replacements : Z }.
Record FairLatestOnlySizingScheduler := mkFair {
  fl_strategy_ids : list string;
  fl_index_by_strategy : gmap string nat;
  fl_slots : list FairSizingSlot;
  fl_next_index : nat;
  fl_running : nat;
  fl_maximum_running : nat;
}.
Record FairSizingSubmission := mkFairSubmission { sub_replaced : bool; queued_behind_running : bool }.

Definition with_slots (f : FairLatestOnlySizingScheduler) (slots : list FairSizingSlot) (next running : nat) : FairLatestOnlySizingScheduler :=
  mkFair (fl_strategy_ids f) (fl_index_by_strategy f) slots next running (fl_maximum_running f).

Fixpoint index_strategies (i : nat) (ids : list string) (m : gmap string nat) : SRes (gmap string nat) :=
  match ids with
  | [] => Ok m
  | id :: rest =>
      ensure! bool_decide (m !! id = None) else SizingMsg ("duplicate fair sizing strategy " +:+ id)%string ;;
      index_strategies (i + 1) rest (<[id := i]> m)
  end.

Definition idle_slot : FairSizingSlot := mkFairSlot false None 0.

Definition new_fair (strategy_ids : list string) (maximum_running : nat) : SRes FairLatestOnlySizingScheduler :=
  ensure! (0 <? maximum_running)%nat else SizingMsg "fair sizing scheduler worker limit must be positive" ;;
  let ordered := merge_sort String.le strategy_ids in
  ensure! negb (bool_decide (ordered = [])) else SizingMsg "fair sizing scheduler is empty" ;;
  let? index := index_strategies 0 ordered ∅ in
  ensure! (maximum_running <=? length ordered)%nat else SizingMsg "fair sizing worker limit exceeds the strategy count" ;;
  Ok (mkFair ordered index (map (fun _ => idle_slot) ordered) 0 0 maximum_running).

Definition slot_index (f : FairLatestOnlySizingScheduler) (strategy_id : string) : SRes nat :=
  or_err (fl_index_by_strategy f !! strategy_id) (SizingMsg ("unknown fair sizing strategy " +:+ strategy_id)%string).
Definition slot_at (f : FairLatestOnlySizingScheduler) (index : nat) : SRes FairSizingSlot := or_err (fl_slots f !! index) SizingPanic.
Definition put_slot (f : FairLatestOnlySizingScheduler) (index : nat) (slot : FairSizingSlot) : FairLatestOnlySizingScheduler :=
  with_slots f (<[index := slot]> (fl_slots f)) (fl_next_index f) (fl_running f).

Definition fair_submit (strategy_id : string) (snapshot : S) : M FairLatestOnlySizingScheduler SizingError FairSizingSubmission :=
  do f <- mget ;;
  do index <- mlift (slot_index f strategy_id) ;;
  do slot <- mlift (slot_at f index) ;;
  let replaced := bool_decide (is_Some (fs_pending slot)) in
  let replacements := if (replaced : bool) then saturating_add 64 (fs_replacements slot) 1 else fs_replacements slot in
  do! mput (put_slot f index (mkFairSlot (fs_running slot) (Some snapshot) replacements)) ;;
  mret (mkFairSubmission replaced (fs_running slot)).

(** The scan of [take_ready], from the slot at [next_index] around. *)
Fixpoint scan_ready (offsets : list nat) : M FairLatestOnlySizingScheduler SizingError (option (string * S)) :=
  match offsets with
  | [] => mret None
  | offset :: rest =>
      do f <- mget ;;
      let index := (fl_next_index f + offset) mod length (fl_slots f) in
      do slot <- mlift (slot_at f index) ;;
      if fs_running slot then scan_ready rest else
      match fs_pending slot with
      | None => scan_ready rest
      | Some snapshot =>
          do! mput (with_slots f (<[index := mkFairSlot true None (fs_replacements slot)]> (fl_slots f))
                      ((index + 1) mod length (fl_slots f)) (fl_running f + 1)) ;;
          do strategy_id <- mlift (or_err (fl_strategy_ids f !! index) SizingPanic) ;;
          mret (Some (strategy_id, snapshot))
      end
  end%nat.

Definition take_ready : M FairLatestOnlySizingScheduler SizingError (option (string * S)) :=
  do f <- mget ;;
  if (fl_maximum_running f <=? fl_running f)%nat then mret None else scan_ready (seq 0 (length (fl_slots f))).

Definition fair_complete (strategy_id : string) : M FairLatestOnlySizingScheduler SizingError unit :=
  do f <- mget ;;
  do index <- mlift (slot_index f strategy_id) ;;
  do slot <- mlift (slot_at f index) ;;
  do! mlift (ensure (fs_running slot) (SizingMsg "fair sizing slot completed without running work")) ;;
  let f' := put_slot f index (mkFairSlot false (fs_pending slot) (fs_replacements slot)) in
  do! mput f' ;;
  do! mlift (ensure (0 <? fl_running f')%nat (SizingMsg "fair sizing running count underflow")) ;;
  mput (with_slots f' (fl_slots f') (fl_next_index f') (fl_running f' - 1)).

Definition fair_replacements (f : FairLatestOnlySizingScheduler) (strategy_id : string) : SRes Z :=
  let? index := slot_index f strategy_id in
  rmap fs_replacements (slot_at f index).

Definition retained (running : bool) (pending : option S) : nat := (if running then 1 else 0) + (if pending then 1 else 0).
Definition fair_total_retained_work (f : FairLatestOnlySizingScheduler) : nat :=
  sum_list_with (fun slot => retained (fs_running slot) (fs_pending slot)) (fl_slots f).

(** ** A slot per strategy *)
Inductive SizingSubmission := Start (snapshot : S) | Pending (replaced : bool).
Record SizingSlot := mkSlot { sl_running : bool; sl_pending : option S; sl_replacements : Z }.
Abbreviation LatestOnlySizingSlots := (gmap string SizingSlot).

Fixpoint insert_slots (strategy_ids : list string) (m : LatestOnlySizingSlots) : SRes LatestOnlySizingSlots :=
  match strategy_ids with
  | [] => Ok m
  | id :: rest =>
      ensure! bool_decide (m !! id = None) else SizingMsg ("duplicate sizing slot " +:+ id)%string ;;
      insert_slots rest (<[id := mkSlot false None 0]> m)
  end.
Definition new_slots (strategy_ids : list string) : SRes LatestOnlySizingSlots :=
  let? slots := insert_slots strategy_ids ∅ in
  ensure! negb (bool_decide (slots = ∅)) else SizingMsg "latest-only sizing slots are empty" ;;
  Ok slots.

Definition slot_of (m : LatestOnlySizingSlots) (strategy_id : string) : SRes SizingSlot :=
  or_err (m !! strategy_id) (SizingMsg ("unknown sizing strategy " +:+ strategy_id)%string).

Definition submit (strategy_id : string) (snapshot : S) : M LatestOnlySizingSlots SizingError SizingSubmission :=
  do m <- mget ;;
  do slot <- mlift (slot_of m strategy_id) ;;
  if negb (sl_running slot) then
    do! mput (<[strategy_id := mkSlot true (sl_pending slot) (sl_replacements slot)]> m) ;;
    mret (Start snapshot)
  else
    let replaced := bool_decide (is_Some (sl_pending slot)) in
    let replacements := if (replaced : bool) then saturating_add 64 (sl_replacements slot) 1 else sl_replacements slot in
    do! mput (<[strategy_id := mkSlot true (Some snapshot) replacements]> m) ;;
    mret (Pending replaced).

Definition complete (strategy_id : string) : M LatestOnlySizingSlots SizingError (option S) :=
  do m <- mget ;;
  do slot <- mlift (slot_of m strategy_id) ;;
  do! mlift (ensure (sl_running slot) (SizingMsg "sizing slot completed without running work")) ;;
  match sl_pending slot with
  | Some next =>
      do! mput (<[strategy_id := mkSlot (sl_running slot) None (sl_replacements slot)]> m) ;;
      mret (Some next)
  | None =>
      do! mput (<[strategy_id := mkSlot false None (sl_replacements slot)]> m) ;;
      mret None
  end.

Definition replacements (m : LatestOnlySizingSlots) (strategy_id : string) : SRes Z := rmap sl_replacements (slot_of m strategy_id).
Definition total_retained_work (m : LatestOnlySizingSlots) : nat :=
  map_fold (fun _ slot n => retained (sl_running slot) (sl_pending slot) + n)%nat 0%nat m.
End scheduler.
#[global] Arguments FairSizingSlot S : clear implicits.
#[global] Arguments FairLatestOnlySizingScheduler S : clear implicits.
#[global] Arguments SizingSubmission S : clear implicits.
#[global] Arguments SizingSlot S : clear implicits.
