(* ===== verification/SizingFacts.v ===== *)
(** * What the sizing schedulers promise ([src/src/strategy_runtime.rs])

    The fair scheduler refines a table of one running and one latest pending
    snapshot per strategy with a bound on what runs, and no pending snapshot is
    overtaken for more than a round. *)
From Stdlib Require Import Lia.
From stdpp Require Import base gmap strings numbers fin_maps sorting list.
From S2P Require Import Prelude Sizing.

Lemma sum_insert {A} (w : A -> nat) l i x y : l !! i = Some x -> (sum_list_with w (<[i := y]> l) + w x = sum_list_with w l + w y)%nat.
Proof.
  revert i. induction l as [|z l IH]; intros i Hi; [done|]. destruct i as [|i]; simpl in *; [injection Hi as ->; lia|].
  specialize (IH i Hi). lia.
Qed.
Lemma sum_positive {A} (w : A -> nat) l i x : l !! i = Some x -> (w x <= sum_list_with w l)%nat.
Proof. revert i. induction l as [|z l IH]; intros [|i] Hi; simpl in *; [done..|injection Hi as ->; lia|specialize (IH i Hi); lia]. Qed.

Section fair.
Context {S : Type}.
Abbreviation Fair := (FairLatestOnlySizingScheduler S).
Implicit Types f : Fair.

Definition count_running (slots : list (FairSizingSlot S)) : nat := sum_list_with (fun slot => if fs_running slot then 1 else 0)%nat slots.
Definition slots_len f : nat := length (fl_slots f).

Record fair_ok f : Prop := {
  fo_slots : length (fl_slots f) = length (fl_strategy_ids f);
  fo_index k i : fl_index_by_strategy f !! k = Some i <-> fl_strategy_ids f !! i = Some k;
  fo_next : (fl_next_index f < slots_len f)%nat;
  fo_running : fl_running f = count_running (fl_slots f);
  fo_bound : (fl_running f <= fl_maximum_running f)%nat;
}.

Lemma index_strategies_Ok i ids m m' :
  index_strategies i ids m = Ok m' -> (forall k j, m !! k = Some j -> (j < i)%nat) ->
  forall k j, m' !! k = Some j <-> m !! k = Some j \/ ((i <= j)%nat /\ ids !! (j - i)%nat = Some k).
Proof.
  revert i m. induction ids as [|id ids IH]; intros i m Hm Hlt k j; simpl in Hm.
  - injection Hm as <-. rewrite lookup_nil. naive_solver.
  - res_inv. bool_prop. specialize (IH _ _ Hm). rewrite IH.
    2:{ intros k' j'. rewrite lookup_insert_Some. intros [[_ <-]|[_ Hj]]; [lia|]. specialize (Hlt _ _ Hj). lia. }
    rewrite lookup_insert_Some. split.
    + intros [[[<- <-]|[Hne Hj]]|[Hij Hl]]; [right; split; [lia|by rewrite Nat.sub_diag]|by left|].
      right. split; [lia|]. by replace (j - i)%nat with (Datatypes.S (j - (i + 1)))%nat by lia.
    + intros [Hj|[Hij Hl]].
      * left. right. split; [|done]. intros ->. congruence.
      * destruct (decide (i = j)) as [->|Hne]; [rewrite Nat.sub_diag in Hl; injection Hl as ->; left; by left|].
        right. split; [lia|]. by replace (j - i)%nat with (Datatypes.S (j - (i + 1)))%nat in Hl by lia.
Qed.

Lemma count_idle {A} (l : list A) : count_running (map (fun _ => idle_slot) l) = 0%nat.
Proof. unfold count_running. by induction l. Qed.

Lemma new_fair_ok ids maximum f : new_fair ids maximum = Ok f -> fair_ok f.
Proof.
  unfold new_fair. intros Hf. res_inv. bool_prop. split; simpl.
  - by rewrite length_map.
  - intros k i. rewrite (index_strategies_Ok _ _ _ _ Hok1) by (intros ? ?; by rewrite lookup_empty).
    rewrite lookup_empty, Nat.sub_0_r. split; [by intros [?|[_ ?]]|intros ?; right; split; [lia|done]].
  - unfold slots_len. simpl. rewrite length_map. destruct (merge_sort _ _); [done|simpl; lia].
  - by rewrite count_idle.
  - lia.
Qed.

Lemma slot_index_Ok f k i : slot_index f k = Ok i <-> fl_index_by_strategy f !! k = Some i.
Proof. unfold slot_index. apply or_err_Ok. Qed.

Lemma slot_exists f k i : fair_ok f -> fl_index_by_strategy f !! k = Some i -> exists slot, fl_slots f !! i = Some slot /\ fl_strategy_ids f !! i = Some k.
Proof.
  intros Hf Hi. apply (fo_index f Hf) in Hi. apply lookup_lt_Some in Hi as Hlt. rewrite <- (fo_slots f Hf) in Hlt.
  apply lookup_lt_is_Some in Hlt as [slot Hs]. by exists slot.
Qed.

(** Replacing the slot of an index by one with as much running work, or one less. *)
Lemma with_slot_ok f i slot slot' next running :
  fair_ok f -> fl_slots f !! i = Some slot -> (next < slots_len f)%nat -> (running <= fl_maximum_running f)%nat ->
  (running + (if fs_running slot then 1 else 0) = fl_running f + (if fs_running slot' then 1 else 0))%nat ->
  fair_ok (with_slots f (<[i := slot']> (fl_slots f)) next running).
Proof.
  intros [Hs Hi Hn Hr Hb] Hl Hnext Hmax Hcount. split; simpl.
  - by rewrite length_insert.
  - done.
  - unfold slots_len. simpl. by rewrite length_insert.
  - pose proof (sum_insert (fun slot : FairSizingSlot S => if fs_running slot then 1 else 0)%nat _ _ _ slot' Hl) as Hsum.
    unfold count_running in *. lia.
  - done.
Qed.

(** ** The scan *)
Definition ready_at f (i : nat) : option S := fl_slots f !! i ≫= fun slot => if fs_running slot then None else fs_pending slot.
Definition at_offset f (o : nat) : nat := ((fl_next_index f + o) mod slots_len f)%nat.

Lemma at_offset_lt f o : fair_ok f -> (at_offset f o < slots_len f)%nat.
Proof. intros Hf. pose proof (fo_next f Hf). apply Nat.mod_upper_bound. lia. Qed.

(** The scheduler after the start of the work at an index. *)
Definition started_at f (i : nat) : Fair :=
  match fl_slots f !! i with
  | Some slot => with_slots f (<[i := mkFairSlot true None (fs_replacements slot)]> (fl_slots f)) ((i + 1) mod slots_len f)%nat (fl_running f + 1)%nat
  | None => f
  end.

Lemma scan_ready_cons f o offsets : fair_ok f ->
  scan_ready (o :: offsets) f =
    match ready_at f (at_offset f o), fl_strategy_ids f !! at_offset f o with
    | Some s, Some k => (started_at f (at_offset f o), Ok (Some (k, s)))
    | _, _ => scan_ready offsets f
    end /\ is_Some (fl_strategy_ids f !! at_offset f o).
Proof.
  intros Hf. pose proof (at_offset_lt f o Hf) as Hlt. apply lookup_lt_is_Some in Hlt as [slot Hs].
  apply lookup_lt_Some in Hs as Hlt. rewrite (fo_slots f Hf) in Hlt. apply lookup_lt_is_Some in Hlt as [k Hk].
  split; [|by exists k]. simpl. unfold mbind', mget at 1, mlift at 1, slot_at. fold (slots_len f). fold (at_offset f o).
  unfold ready_at, started_at. rewrite Hs, Hk. simpl. destruct (fs_running slot); [done|]. destruct (fs_pending slot); [|done].
  unfold mput, mret, mlift. simpl. by rewrite ?Hk.
Qed.

Lemma scan_ready_cases f offsets : fair_ok f ->
  (scan_ready offsets f = (f, Ok None) /\ Forall (fun o => ready_at f (at_offset f o) = None) offsets) \/
  (exists pre o post s k, offsets = pre ++ o :: post /\ Forall (fun o => ready_at f (at_offset f o) = None) pre /\
     ready_at f (at_offset f o) = Some s /\ fl_strategy_ids f !! at_offset f o = Some k /\
     scan_ready offsets f = (started_at f (at_offset f o), Ok (Some (k, s)))).
Proof.
  intros Hf. induction offsets as [|o offsets IH]; [left; by split|]. destruct (scan_ready_cons f o offsets Hf) as [He0 [k Hk]]. rewrite He0, Hk. clear He0.
  destruct (ready_at f (at_offset f o)) as [s|] eqn:Es; [right; by exists [], o, offsets, s, k|].
  destruct IH as [[He Hall]|(pre & o' & post & s & k' & -> & Hall & Hs & Hk' & He)]; [left; split; [done|by constructor]|].
  right. exists (o :: pre), o', post, s, k'. split_and!; try done. by constructor.
Qed.

(** The offset of an index from the cursor. *)
Definition distance f (i : nat) : nat :=
  (if fl_next_index f <=? i then i - fl_next_index f else i + slots_len f - fl_next_index f)%nat.

Lemma at_offset_eq f o : fair_ok f -> (o < slots_len f)%nat ->
  at_offset f o = (if fl_next_index f + o <? slots_len f then fl_next_index f + o else fl_next_index f + o - slots_len f)%nat.
Proof.
  intros Hf Ho. pose proof (fo_next f Hf). unfold at_offset. destruct (Nat.ltb_spec (fl_next_index f + o) (slots_len f)); [by apply Nat.mod_small|].
  symmetry. apply (Nat.mod_unique _ _ 1); lia.
Qed.
Lemma distance_offset f i : fair_ok f -> (i < slots_len f)%nat -> (distance f i < slots_len f)%nat /\ at_offset f (distance f i) = i.
Proof.
  intros Hf Hi. pose proof (fo_next f Hf). assert (Hd : (distance f i < slots_len f)%nat) by (unfold distance; destruct (Nat.leb_spec (fl_next_index f) i); lia).
  split; [done|]. rewrite at_offset_eq by done. unfold distance in *. destruct (Nat.leb_spec (fl_next_index f) i);
    match goal with |- (if (?a <? ?b)%nat then _ else _) = _ => destruct (Nat.ltb_spec a b) end; lia.
Qed.

Lemma seq_split n (pre post : list nat) o : seq 0 n = pre ++ o :: post -> o = length pre /\ (o < n)%nat /\ forall x, x ∈ pre <-> (x < o)%nat.
Proof.
  intros E. assert (Hn : n = (length pre + Datatypes.S (length post))%nat) by (apply (f_equal length) in E; by rewrite length_seq, length_app in E).
  subst n. rewrite seq_app in E. apply app_inj_1 in E as [Ep E]; [|by rewrite length_seq]. simpl in E. injection E as <- _.
  split; [done|]. split; [lia|]. intros x. rewrite <- Ep at 1. rewrite elem_of_seq. lia.
Qed.

(** Taking work: nothing when all workers are busy or nothing is ready, else the
    first ready index from the cursor. *)
Lemma take_ready_cases f : fair_ok f ->
  (take_ready f = (f, Ok None) /\ ((fl_maximum_running f <= fl_running f)%nat \/ forall i, ready_at f i = None)) \/
  (exists i s k, take_ready f = (started_at f i, Ok (Some (k, s))) /\ (fl_running f < fl_maximum_running f)%nat /\ ready_at f i = Some s /\
     fl_strategy_ids f !! i = Some k /\ forall j, is_Some (ready_at f j) -> (distance f i <= distance f j)%nat).
Proof.
  intros Hf. unfold take_ready, mbind', mget, mret. destruct (Nat.leb_spec (fl_maximum_running f) (fl_running f)) as [Hle|Hlt]; [left; split; [done|by left]|].
  assert (Hin : forall i x, ready_at f i = Some x -> (i < slots_len f)%nat).
  { intros i x Hx. unfold ready_at in Hx. destruct (fl_slots f !! i) eqn:E; [|done]. by apply lookup_lt_Some in E. }
  destruct (scan_ready_cases f (seq 0 (length (fl_slots f))) Hf) as [[He Hall]|(pre & o & post & s & k & Eo & Hall & Hs & Hk & He)].
  - left. split; [done|]. right. intros i. destruct (ready_at f i) eqn:Ei; [|done]. pose proof (Hin _ _ Ei) as Hi.
    destruct (distance_offset f i Hf Hi) as [Hd Ed]. rewrite Forall_forall in Hall.
    specialize (Hall (distance f i)). rewrite elem_of_seq, Ed in Hall. rewrite Hall in Ei; [done|]. unfold slots_len in Hd. lia.
  - right. exists (at_offset f o), s, k. split_and!; try done. intros j [x Hj]. apply seq_split in Eo as (_ & Ho & Hpre).
    pose proof (Hin _ _ Hj) as Hlj. destruct (distance_offset f j Hf Hlj) as [Hd Ed].
    assert (Hdo : distance f (at_offset f o) = o).
    { rewrite at_offset_eq by done. pose proof (fo_next f Hf). unfold distance, slots_len in *.
      destruct (Nat.ltb_spec (fl_next_index f + o) (length (fl_slots f)));
        match goal with |- (if (?a <=? ?b)%nat then _ else _) = _ => destruct (Nat.leb_spec a b) end; lia. }
    rewrite Hdo. destruct (decide (o <= distance f j)%nat) as [|Hn]; [done|]. exfalso. rewrite Forall_forall in Hall.
    specialize (Hall (distance f j)). rewrite Hpre, Ed, Hj in Hall. assert (distance f j < o)%nat by lia. by specialize (Hall H).
Qed.

(** ** The table of the latest snapshots *)
Inductive SizingOp := OpSubmit (k : string) (s : S) | OpTake | OpComplete (k : string).
Inductive SizingAnswer := Submitted (r : FairSizingSubmission) | Taken (o : option (string * S)) | Completed.

Definition fair_step f (op : SizingOp) : Fair * SRes SizingAnswer :=
  match op with
  | OpSubmit k s => let '(f', r) := fair_submit k s f in (f', rmap Submitted r)
  | OpTake => let '(f', r) := take_ready f in (f', rmap Taken r)
  | OpComplete k => let '(f', r) := fair_complete k f in (f', rmap (fun _ => Completed) r)
  end.
Fixpoint fair_runs f (ops : list SizingOp) : Fair * list (SRes SizingAnswer) :=
  match ops with
  | [] => (f, [])
  | op :: ops' => let '(f1, r) := fair_step f op in let '(f2, rs) := fair_runs f1 ops' in (f2, r :: rs)
  end.

(** What runs and what waits, by strategy. *)
Abbreviation SizingTable := (gmap string (bool * option S)).
Implicit Types t : SizingTable.
Definition running_in t : nat := size (filter (fun kc : string * (bool * option S) => kc.2.1 = true) t).
Definition waits_in t (k : string) (s : S) : Prop := t !! k = Some (false, Some s).

Inductive table_step (maximum : nat) : SizingTable -> SizingOp -> SRes SizingAnswer -> SizingTable -> Prop :=
  | table_submit t k s r p : t !! k = Some (r, p) ->
      table_step maximum t (OpSubmit k s) (Ok (Submitted (mkFairSubmission (bool_decide (is_Some p)) r))) (<[k := (r, Some s)]> t)
  | table_start t k s : waits_in t k s -> (running_in t < maximum)%nat ->
      table_step maximum t OpTake (Ok (Taken (Some (k, s)))) (<[k := (true, None)]> t)
  | table_nothing t : (maximum <= running_in t)%nat \/ (forall k s, ~ waits_in t k s) ->
      table_step maximum t OpTake (Ok (Taken None)) t
  | table_complete t k p : t !! k = Some (true, p) ->
      table_step maximum t (OpComplete k) (Ok Completed) (<[k := (false, p)]> t)
  | table_refused_submit t k s m : t !! k = None -> table_step maximum t (OpSubmit k s) (Err (SizingMsg m)) t
  | table_refused_complete t k m : (forall p, t !! k <> Some (true, p)) -> table_step maximum t (OpComplete k) (Err (SizingMsg m)) t.

Inductive table_run (maximum : nat) : SizingTable -> list SizingOp -> list (SRes SizingAnswer) -> SizingTable -> Prop :=
  | table_done t : table_run maximum t [] [] t
  | table_more t op r t1 ops rs t2 : table_step maximum t op r t1 -> table_run maximum t1 ops rs t2 -> table_run maximum t (op :: ops) (r :: rs) t2.

(** The table of a scheduler. *)
Definition cell_of (slot : FairSizingSlot S) : bool * option S := (fs_running slot, fs_pending slot).
Definition table_of f : SizingTable := list_to_map (zip (fl_strategy_ids f) (map cell_of (fl_slots f))).

Lemma ids_nodup f : fair_ok f -> NoDup (fl_strategy_ids f).
Proof. intros Hf. apply NoDup_alt. intros i j k Hi Hj. apply (fo_index f Hf) in Hi, Hj. congruence. Qed.

Lemma zip_keys f : fair_ok f -> (zip (fl_strategy_ids f) (map cell_of (fl_slots f))).*1 = fl_strategy_ids f.
Proof. intros Hf. apply fst_zip. rewrite length_map. pose proof (fo_slots f Hf). lia. Qed.

Lemma table_lookup f k : fair_ok f -> table_of f !! k = cell_of <$> (fl_index_by_strategy f !! k ≫= fun i => fl_slots f !! i).
Proof.
  intros Hf. unfold table_of. destruct (fl_index_by_strategy f !! k) as [i|] eqn:Ei; simpl.
  - destruct (slot_exists f k i Hf Ei) as (slot & Hs & Hk). rewrite Hs. simpl. apply elem_of_list_to_map_1; [by rewrite zip_keys; [apply ids_nodup|]|].
    apply list_elem_of_lookup. exists i. apply lookup_zip_with_Some. exists k, (cell_of slot). split_and!; [done..|].
    by rewrite list_lookup_fmap, Hs.
  - apply not_elem_of_list_to_map_1. rewrite zip_keys by done. intros [i Hi]%list_elem_of_lookup. apply (fo_index f Hf) in Hi. congruence.
Qed.

Lemma running_of_list (l : list (string * (bool * option S))) : NoDup l.*1 ->
  running_in (list_to_map l : SizingTable) = sum_list_with (fun kc : string * (bool * option S) => if kc.2.1 then 1 else 0)%nat l.
Proof.
  unfold running_in. induction l as [|[k [r p]] l IH]; intros Hnd; [done|]. simpl in *. apply NoDup_cons in Hnd as [Hk Hnd].
  assert (Hn : (list_to_map l : SizingTable) !! k = None) by (by apply not_elem_of_list_to_map_1). destruct r.
  - rewrite map_filter_insert_True by done. rewrite map_size_insert_None by (by apply map_lookup_filter_None; left). by rewrite IH.
  - rewrite map_filter_insert_False by done. rewrite delete_id by done. by rewrite IH.
Qed.

Lemma table_running f : fair_ok f -> running_in (table_of f) = fl_running f.
Proof.
  intros Hf. unfold table_of. rewrite running_of_list by (rewrite zip_keys by done; by apply ids_nodup). rewrite (fo_running f Hf). unfold count_running.
  pose proof (fo_slots f Hf) as Hl. revert Hl. generalize (fl_strategy_ids f). induction (fl_slots f) as [|slot slots IH]; intros [|k ids] Hl; try done.
  simpl in *. rewrite IH by lia. done.
Qed.

(** Writing a slot writes its cell. *)
Lemma table_put f i k slot slot' next running : fair_ok f -> fl_strategy_ids f !! i = Some k -> fl_slots f !! i = Some slot ->
  table_of (with_slots f (<[i := slot']> (fl_slots f)) next running) = <[k := cell_of slot']> (table_of f).
Proof.
  intros Hf Hk Hs. unfold table_of. simpl.
  pose proof (ids_nodup f Hf) as Hnd. revert Hk Hs Hnd. generalize (fl_strategy_ids f) (fl_slots f). intros ids. revert i.
  induction ids as [|k0 ids IH]; intros i slots Hk Hs Hnd; [done|]. destruct slots as [|s0 slots]; [done|]. apply NoDup_cons in Hnd as [Hn Hnd].
  destruct i as [|i]; simpl in *.
  - injection Hk as ->. by rewrite insert_insert_eq.
  - rewrite (IH i slots) by done. apply insert_insert_ne. intros ->. apply Hn. by apply list_elem_of_lookup_2 in Hk.
Qed.

Definition step_meets f (op : SizingOp) (f' : Fair) (r : SRes SizingAnswer) : Prop :=
  fair_ok f' /\ fl_maximum_running f' = fl_maximum_running f /\ fl_strategy_ids f' = fl_strategy_ids f /\
  table_step (fl_maximum_running f) (table_of f) op r (table_of f').

Lemma unknown_strategy f k : fair_ok f -> fl_index_by_strategy f !! k = None -> table_of f !! k = None.
Proof. intros Hf Hk. rewrite table_lookup by done. by rewrite Hk. Qed.
Lemma known_strategy f k i slot : fair_ok f -> fl_index_by_strategy f !! k = Some i -> fl_slots f !! i = Some slot -> table_of f !! k = Some (cell_of slot).
Proof. intros Hf Hk Hs. rewrite table_lookup by done. rewrite Hk. simpl. by rewrite Hs. Qed.

Lemma submit_meets f k s : fair_ok f -> step_meets f (OpSubmit k s) (fair_step f (OpSubmit k s)).1 (fair_step f (OpSubmit k s)).2.
Proof.
  intros Hf. simpl. unfold fair_submit, mbind', mget, mlift, slot_index, slot_at, step_meets.
  destruct (fl_index_by_strategy f !! k) as [i|] eqn:Ei; simpl; [|split_and!; try done; apply table_refused_submit; by apply unknown_strategy].
  destruct (slot_exists f k i Hf Ei) as (slot & Hs & Hk). rewrite Hs. simpl. pose proof (fo_bound f Hf). split_and!; [|done..|].
  - eapply with_slot_ok; [done|done|by apply fo_next|done|simpl; lia].
  - unfold put_slot. erewrite table_put by done. unfold cell_of. simpl. apply table_submit. by apply (known_strategy f k i).
Qed.

Lemma complete_meets f k : fair_ok f -> step_meets f (OpComplete k) (fair_step f (OpComplete k)).1 (fair_step f (OpComplete k)).2.
Proof.
  intros Hf. simpl. unfold fair_complete, mbind', mget, mlift, slot_index, slot_at, step_meets.
  destruct (fl_index_by_strategy f !! k) as [i|] eqn:Ei; simpl.
  2:{ split_and!; try done. apply table_refused_complete. intros p. by rewrite unknown_strategy. }
  destruct (slot_exists f k i Hf Ei) as (slot & Hs & Hk). rewrite Hs. simpl. pose proof (known_strategy f k i slot Hf Ei Hs) as Hcell. unfold cell_of in Hcell.
  destruct (fs_running slot) eqn:Er; simpl; [|split_and!; try done; apply table_refused_complete; intros p; congruence].
  pose proof (sum_positive (fun slot : FairSizingSlot S => if fs_running slot then 1 else 0)%nat _ _ _ Hs) as Hpos. cbv beta in Hpos. rewrite Er in Hpos.
  fold (count_running (fl_slots f)) in Hpos. rewrite <- (fo_running f Hf) in Hpos. destruct (Nat.ltb_spec 0 (fl_running f)) as [_|]; [|lia]. simpl.
  pose proof (fo_bound f Hf). split_and!; [|done..|].
  - apply (with_slot_ok f i slot); [done|done|by apply fo_next|lia|rewrite Er; simpl; lia].
  - change (table_of _) with (table_of (with_slots f (<[i := mkFairSlot false (fs_pending slot) (fs_replacements slot)]> (fl_slots f)) (fl_next_index f) (fl_running f - 1)%nat)) at 2.
    erewrite table_put by done. unfold cell_of. simpl. by apply table_complete.
Qed.

Lemma ready_waits f i k s : fair_ok f -> fl_strategy_ids f !! i = Some k -> ready_at f i = Some s <-> waits_in (table_of f) k s.
Proof.
  intros Hf Hk. unfold waits_in, ready_at. apply (fo_index f Hf) in Hk as Hi. rewrite table_lookup by done. rewrite Hi. simpl.
  destruct (fl_slots f !! i) as [slot|]; simpl; [|done]. unfold cell_of. destruct (fs_running slot), (fs_pending slot); split; congruence.
Qed.

Lemma started_ok f i k s : fair_ok f -> ready_at f i = Some s -> fl_strategy_ids f !! i = Some k -> (fl_running f < fl_maximum_running f)%nat ->
  fair_ok (started_at f i) /\ fl_maximum_running (started_at f i) = fl_maximum_running f /\ fl_strategy_ids (started_at f i) = fl_strategy_ids f /\
  table_of (started_at f i) = <[k := (true, None)]> (table_of f).
Proof.
  intros Hf Hr Hk Hlt. unfold ready_at in Hr. unfold started_at. destruct (fl_slots f !! i) as [slot|] eqn:Hs; [|done]. simpl in Hr.
  destruct (fs_running slot) eqn:Er; [done|]. pose proof (fo_next f Hf). split_and!; [|done..|by erewrite table_put].
  eapply with_slot_ok; [done|done|apply Nat.mod_upper_bound; lia|lia|rewrite Er; simpl; lia].
Qed.

Lemma take_meets f : fair_ok f -> step_meets f OpTake (fair_step f OpTake).1 (fair_step f OpTake).2.
Proof.
  intros Hf. simpl. destruct (take_ready_cases f Hf) as [[-> Hnone]|(i & s & k & -> & Hlt & Hr & Hk & _)]; simpl.
  - unfold step_meets. split_and!; [done..|]. apply table_nothing. destruct Hnone as [Hle|Hall]; [left; by rewrite table_running|right].
    intros k s Hw. assert (Hin : is_Some (fl_index_by_strategy f !! k)).
    { unfold waits_in in Hw. rewrite table_lookup in Hw by done. destruct (fl_index_by_strategy f !! k); [by eexists|done]. }
    destruct Hin as [i Hi]. apply (fo_index f Hf) in Hi. apply (ready_waits f i k s Hf Hi) in Hw. by rewrite Hall in Hw.
  - destruct (started_ok f i k s Hf Hr Hk Hlt) as (Hok & Hmax & Hids & Ht). unfold step_meets. split_and!; [done..|]. rewrite Ht.
    apply table_start; [by apply (ready_waits f i)|by rewrite table_running].
Qed.

Lemma step_refines_table f op : fair_ok f -> step_meets f op (fair_step f op).1 (fair_step f op).2.
Proof. intros Hf. destruct op; [by apply submit_meets|by apply take_meets|by apply complete_meets]. Qed.

(** The table of a new scheduler: every strategy idle. *)
Definition idle_table (ids : list string) : SizingTable := list_to_map (map (fun k => (k, (false, None))) ids).

Lemma new_fair_table ids maximum f : new_fair ids maximum = Ok f ->
  fair_ok f /\ fl_maximum_running f = maximum /\ table_of f = idle_table (merge_sort String.le ids) /\ length (fl_slots f) = length ids.
Proof.
  intros Hf. pose proof (new_fair_ok _ _ _ Hf) as Hok. unfold new_fair in Hf. res_inv. split_and!; [done|done| |].
  - unfold table_of, idle_table. simpl. f_equal. generalize (merge_sort String.le ids). intros l. induction l as [|k l IH]; [done|]. simpl. by rewrite IH.
  - simpl. rewrite length_map. apply Permutation_length, merge_sort_Permutation.
Qed.

Lemma retained_bound f : fair_ok f -> (fair_total_retained_work f <= fl_running f + length (fl_slots f))%nat.
Proof.
  intros Hf. rewrite (fo_running f Hf). unfold fair_total_retained_work, count_running, retained.
  induction (fl_slots f) as [|slot l IH]; simpl; [lia|]. destruct (fs_pending slot); lia.
Qed.

Lemma runs_meet f ops : fair_ok f ->
  fair_ok (fair_runs f ops).1 /\ fl_maximum_running (fair_runs f ops).1 = fl_maximum_running f /\ fl_strategy_ids (fair_runs f ops).1 = fl_strategy_ids f /\
  table_run (fl_maximum_running f) (table_of f) ops (fair_runs f ops).2 (table_of (fair_runs f ops).1).
Proof.
  revert f. induction ops as [|op ops IH]; intros f Hf; simpl; [split_and!; try done; constructor|].
  destruct (step_refines_table f op Hf) as (Hf1 & Hm1 & Hi1 & Hs). destruct (fair_step f op) as [f1 r]. simpl in *.
  destruct (IH f1 Hf1) as (Hf2 & Hm2 & Hi2 & Hr). destruct (fair_runs f1 ops) as [f2 rs]. simpl in *.
  split_and!; [done|congruence|congruence|]. econstructor; [exact Hs|]. by rewrite <- Hm1.
Qed.

(** C32. the fair scheduler is a table of what runs and what waits: from a new
    scheduler, any calls are answered as by the table, in which a submission
    replaces what its strategy has waiting and is told so, an idle worker always
    finds waiting work of an idle strategy and takes its latest snapshot, no
    strategy runs twice, and only what runs can complete; never more than the
    worker limit runs or more than that and one snapshot per strategy is retained. *)
Theorem fair_scheduler_refines_table ids maximum f0 ops :
  new_fair ids maximum = Ok f0 ->
  let '(f, answers) := fair_runs f0 ops in
  table_run maximum (idle_table (merge_sort String.le ids)) ops answers (table_of f) /\
  fl_running f = running_in (table_of f) /\ (fl_running f <= maximum)%nat /\ (fair_total_retained_work f <= maximum + length ids)%nat.
Proof.
  intros Hnew. destruct (new_fair_table _ _ _ Hnew) as (Hok & Hmax & Ht & Hlen). pose proof (runs_meet f0 ops Hok) as Hruns.
  destruct (fair_runs f0 ops) as [f answers]. destruct Hruns as (Hf & Hm & Hi & Hrun). simpl in *. rewrite Hmax, Ht in Hrun.
  pose proof (retained_bound f Hf). pose proof (fo_bound f Hf). pose proof (fo_slots f Hf) as Hs. pose proof (fo_slots f0 Hok) as Hs0.
  rewrite Hi in Hs. split_and!; [done|by rewrite table_running|lia|lia].
Qed.

(** ** Fairness *)
Definition starts_other (k : string) (r : SRes SizingAnswer) : bool :=
  match r with Ok (Taken (Some (k', _))) => negb (bool_decide (k' = k)) | _ => false end.
Definition starts (k : string) (r : SRes SizingAnswer) : bool := match r with Ok (Taken (Some (k', _))) => bool_decide (k' = k) | _ => false end.
Fixpoint count_of (p : SRes SizingAnswer -> bool) (rs : list (SRes SizingAnswer)) : nat := match rs with [] => 0 | r :: rest => (if p r then 1 else 0) + count_of p rest end.
Definition waiting f (i : nat) : Prop := is_Some (ready_at f i).

Lemma started_distance f i j : fair_ok f -> (i < slots_len f)%nat -> (j < slots_len f)%nat -> i <> j -> (distance f i <= distance f j)%nat ->
  is_Some (fl_slots f !! i) -> (distance (started_at f i) j < distance f j)%nat.
Proof.
  intros Hf Hi Hj Hne Hd [slot Hs]. pose proof (fo_next f Hf) as Hn. unfold started_at. rewrite Hs. unfold distance, slots_len in *. simpl. rewrite length_insert.
  destruct (decide (i + 1 = length (fl_slots f))%nat) as [E|E].
  - rewrite E, Nat.Div0.mod_same. simpl. repeat match goal with |- context [(?a <=? ?b)%nat] => destruct (Nat.leb_spec a b) | H : context [(?a <=? ?b)%nat] |- _ => destruct (Nat.leb_spec a b) end; lia.
  - rewrite Nat.mod_small by lia. repeat match goal with |- context [(?a <=? ?b)%nat] => destruct (Nat.leb_spec a b) | H : context [(?a <=? ?b)%nat] |- _ => destruct (Nat.leb_spec a b) end; lia.
Qed.

Lemma starts_exclusive k r : starts k r = false -> starts_other k r = match r with Ok (Taken (Some _)) => true | _ => false end.
Proof. destruct r as [[|[[k' s]|]|]|]; simpl; try done. by intros ->. Qed.

Lemma table_keeps_waiting maximum t op r t' k : table_step maximum t op r t' -> (exists s, waits_in t k s) -> starts k r = false -> exists s, waits_in t' k s.
Proof.
  unfold waits_in. intros Hs [s0 Hw] Hk. inversion Hs; subst; simpl in *; try by exists s0.
  - destruct (decide (k0 = k)) as [->|Hne]; [exists s; rewrite lookup_insert_eq; congruence|exists s0; by rewrite lookup_insert_ne].
  - bool_prop. exists s0. by rewrite lookup_insert_ne.
  - exists s0. rewrite lookup_insert_ne; [done|]. congruence.
Qed.

Lemma cursor_kept f op r : (fair_step f op).2 = r -> (forall o, r <> Ok (Taken (Some o))) -> fair_ok f ->
  fl_next_index (fair_step f op).1 = fl_next_index f /\ slots_len (fair_step f op).1 = slots_len f.
Proof.
  intros Hr Hno Hf. unfold slots_len. destruct op as [k s| |k]; simpl in *.
  - unfold fair_submit, mbind', mget, mlift, slot_index, slot_at in *. destruct (fl_index_by_strategy f !! k) as [i|]; [|done]. simpl in *.
    destruct (fl_slots f !! i); [|done]. simpl. by rewrite length_insert.
  - destruct (take_ready_cases f Hf) as [[-> _]|(i & s & k & Et & _)]; [done|]. rewrite Et in Hr. simpl in Hr. by destruct (Hno (k, s)).
  - unfold fair_complete, mbind', mget, mlift, slot_index, slot_at in *. destruct (fl_index_by_strategy f !! k) as [i|]; [|done]. simpl in *.
    destruct (fl_slots f !! i) as [slot|]; [|done]. simpl in *. destruct (fs_running slot); [|done]. simpl in *.
    destruct (0 <? fl_running f)%nat; simpl; by rewrite length_insert.
Qed.

Lemma ready_index f i s : ready_at f i = Some s -> (i < slots_len f)%nat /\ is_Some (fl_slots f !! i).
Proof. unfold ready_at. destruct (fl_slots f !! i) eqn:E; [|done]. intros _. split; [by apply lookup_lt_Some in E|done]. Qed.

Lemma step_waiting f op i k : fair_ok f -> fl_strategy_ids f !! i = Some k -> waiting f i -> starts k (fair_step f op).2 = false ->
  waiting (fair_step f op).1 i /\
  (distance (fair_step f op).1 i + (if starts_other k (fair_step f op).2 then 1 else 0) <= distance f i)%nat.
Proof.
  intros Hf Hk [s Hs] Hn. destruct (step_refines_table f op Hf) as (Hf1 & _ & Hids & Ht).
  assert (Hw : exists s', waits_in (table_of (fair_step f op).1) k s').
  { eapply table_keeps_waiting; [exact Ht| |exact Hn]. exists s. by apply (ready_waits f i). }
  split; [destruct Hw as [s' Hw]; exists s'; apply (ready_waits _ i k s'); [done|congruence|done]|].
  rewrite (starts_exclusive _ _ Hn). destruct (fair_step f op).2 as [[r|[[k' s']|]|]|e] eqn:Er.
  2:{ destruct op as [? ?| |?]; simpl in *.
      - destruct (fair_submit _ _ _) as [? [?|?]]; done.
      - destruct (take_ready_cases f Hf) as [[Et _]|(i' & s'' & k'' & Et & _ & Hr & Hk' & Hd)]; rewrite Et in *; simpl in *; [done|].
        injection Er as <- <-. bool_prop. destruct (ready_index _ _ _ Hr) as [Hi' Hsl]. destruct (ready_index _ _ _ Hs) as [Hi _].
        pose proof (started_distance f i' i Hf Hi' Hi ltac:(congruence) (Hd i ltac:(by exists s)) Hsl). lia.
      - destruct (fair_complete _ _) as [? [?|?]]; done. }
  all: destruct (cursor_kept f op _ Er ltac:(done) Hf) as [Hc Hl]; unfold distance; rewrite Hc, Hl; lia.
Qed.

Lemma take_when_waiting f i k s : fair_ok f -> fl_strategy_ids f !! i = Some k -> ready_at f i = Some s -> (fl_running f < fl_maximum_running f)%nat ->
  exists k' s', (take_ready f).2 = Ok (Some (k', s')) /\ (distance f i = 0%nat -> (k', s') = (k, s)).
Proof.
  intros Hf Hk Hs Hlt. destruct (take_ready_cases f Hf) as [[_ [Hle|Hall]]|(i' & s' & k' & Et & _ & Hr & Hk' & Hd)]; [lia|by rewrite Hall in Hs|].
  exists k', s'. rewrite Et. split; [done|]. intros Hz. specialize (Hd i ltac:(by exists s)).
  destruct (ready_index _ _ _ Hr) as [Hi' _]. destruct (ready_index _ _ _ Hs) as [Hi _].
  destruct (distance_offset f i' Hf Hi') as [_ E']. destruct (distance_offset f i Hf Hi) as [_ E].
  assert (i' = i) as -> by (rewrite <- E', <- E; f_equal; lia). congruence.
Qed.

(** C33. no waiting snapshot is overtaken: while a strategy waits at a distance from
    the cursor, whatever is submitted, taken and completed, the work of others is
    started at most that many times, which is less than the number of strategies;
    it keeps waiting until then, every take with an idle worker starts something,
    and at distance zero its own latest snapshot. *)
Theorem sizing_not_overtaken f ops i k :
  fair_ok f -> fl_strategy_ids f !! i = Some k -> waiting f i ->
  let '(f', answers) := fair_runs f ops in
  Forall (fun r => starts k r = false) answers ->
  (count_of (starts_other k) answers + distance f' i <= distance f i)%nat /\ (distance f i < length (fl_slots f))%nat /\
  exists s, waits_in (table_of f') k s /\
    ((fl_running f' < fl_maximum_running f')%nat ->
     exists k' s', (take_ready f').2 = Ok (Some (k', s')) /\ (distance f' i = 0%nat -> (k', s') = (k, s))).
Proof.
  intros Hf Hk Hw. assert (Hd : (distance f i < length (fl_slots f))%nat).
  { destruct Hw as [s Hs]. by apply distance_offset, (ready_index _ _ _ Hs). }
  assert (Hgen : forall f, fair_ok f -> fl_strategy_ids f !! i = Some k -> waiting f i -> Forall (fun r => starts k r = false) (fair_runs f ops).2 ->
    (count_of (starts_other k) (fair_runs f ops).2 + distance (fair_runs f ops).1 i <= distance f i)%nat /\
    fair_ok (fair_runs f ops).1 /\ fl_strategy_ids (fair_runs f ops).1 !! i = Some k /\ waiting (fair_runs f ops).1 i).
  { clear. induction ops as [|op ops IH]; intros f Hf Hk Hw Hall; simpl in *; [split_and!; (done || lia)|].
    pose proof (step_waiting f op i k Hf Hk Hw) as Hstep. destruct (step_refines_table f op Hf) as (Hf1 & _ & Hids & _).
    destruct (fair_step f op) as [f1 r]. simpl in *. specialize (IH f1 Hf1 ltac:(congruence)). destruct (fair_runs f1 ops) as [f2 rs]. simpl in *.
    apply Forall_cons in Hall as [Hr Hall]. destruct (Hstep Hr) as [Hw1 Hd1]. destruct (IH Hw1 Hall) as (Hc & Hrest). split; [lia|done]. }
  specialize (Hgen f Hf Hk Hw). destruct (fair_runs f ops) as [f' answers]. intros Hall. destruct (Hgen Hall) as (Hc & Hf' & Hk' & [s Hs]). simpl in *.
  split; [done|]. split; [done|]. exists s. split; [by apply (ready_waits f' i)|]. intros Hlt. by apply take_when_waiting.
Qed.
End fair.

(** ** A slot per strategy *)
Section slots.
Context {S : Type}.
Implicit Types m : gmap string (SizingSlot S).

(** Nothing waits where nothing runs. *)
Definition slots_ok m : Prop := map_Forall (fun _ slot => sl_running slot = false -> sl_pending slot = None) m.

Lemma insert_slots_ok ids m m' : slots_ok m -> insert_slots ids m = Ok m' -> slots_ok m'.
Proof.
  revert m. induction ids as [|id ids IH]; intros m Hm Hi; simpl in Hi; [by injection Hi as <-|]. res_inv.
  eapply IH; [|exact Hi]. by apply map_Forall_insert_2.
Qed.
Lemma new_slots_ok ids m : new_slots ids = Ok m -> slots_ok m.
Proof. unfold new_slots. intros Hm. res_inv. eapply insert_slots_ok; [|exact Hok]. by apply map_Forall_empty. Qed.

(** Submitting starts the snapshot or keeps it as the latest; completing hands
    out the latest or frees the slot; both keep the slots. *)
Theorem submit_starts_or_keeps k s m : slots_ok m ->
  slots_ok (submit k s m).1 /\
  match m !! k with
  | None => is_ok (submit k s m).2 = false /\ (submit k s m).1 = m
  | Some slot => exists slot', (submit k s m).1 = <[k := slot']> m /\ sl_running slot' = true /\
      (submit k s m).2 = Ok (if sl_running slot then Pending (bool_decide (is_Some (sl_pending slot))) else Start s) /\
      sl_pending slot' = (if sl_running slot then Some s else None)
  end.
Proof.
  intros Hm. unfold submit, slot_of, mbind', mget, mlift, mput, mret. destruct (m !! k) as [slot|] eqn:Ek; simpl; [|done].
  pose proof (map_Forall_lookup_1 _ _ _ _ Hm Ek) as Hslot. destruct (sl_running slot) eqn:Er; simpl.
  - split; [by apply map_Forall_insert_2|]. by eexists.
  - split; [by apply map_Forall_insert_2|]. eexists. split; [done|]. simpl. by rewrite Hslot.
Qed.

Theorem complete_hands_latest k m : slots_ok m ->
  slots_ok (complete k m).1 /\
  match m !! k with
  | Some slot => if sl_running slot then (complete k m).2 = Ok (sl_pending slot) /\
                   exists slot', (complete k m).1 = <[k := slot']> m /\ sl_pending slot' = None /\ sl_running slot' = bool_decide (is_Some (sl_pending slot))
                 else is_ok (complete k m).2 = false /\ (complete k m).1 = m
  | None => is_ok (complete k m).2 = false /\ (complete k m).1 = m
  end.
Proof.
  intros Hm. unfold complete, slot_of, mbind', mget, mlift, mput, mret. destruct (m !! k) as [slot|] eqn:Ek; simpl; [|done].
  destruct (sl_running slot) eqn:Er; simpl; [|done]. destruct (sl_pending slot) as [s|] eqn:Ep; simpl.
  - split; [by apply map_Forall_insert_2|]. split; [done|]. by eexists.
  - split; [by apply map_Forall_insert_2|]. split; [done|]. by eexists.
Qed.
End slots.
