(* ===== verification/ShadowStrategy.v ===== *)
(** * Shadow strategies ([src/src/strategy_runtime.rs])

    A shadow strategy follows the market with a mirror and a search of its own and
    can only publish to an observing sink: its handlers of market and chain events,
    the baseline candidate of an evaluation, and the exhaustive sizing that a
    worker runs on a snapshot.  Readings of the clock are arguments; [sh_published]
    is what went to the sink; telemetry is not modelled. *)
From Stdlib Require Import Lia.
From stdpp Require Import base gmap strings numbers option fin_maps list.
From S2P Require Import Prelude ExecutionPlan Decimals Clmm ClmmCurve TradeData RuntimeState Preflight MarketViews Pricing OpportunitySearch FeeProjection HydratedPools PreparedPools PlanBuild Events Mirror EngineDex.

Record StrategyEvaluation := mkStrategyEvaluation { ev_evaluated : bool; ev_candidate_produced : bool; ev_calculation_time_us : Z; ev_budget_us : Z }.
Definition budget_exceeded (e : StrategyEvaluation) : bool := ev_budget_us e <? ev_calculation_time_us e.

(** What the clock shows during a call: the instant, and the duration of an
    evaluation. *)
Record Clock := mkClock { ck_now : Z; ck_elapsed_us : Z }.

Record ShadowCandidate := mkCandidate {
  sc_source : string; sc_direction : ArbitrageDirection; sc_trade : TradeEvaluation;
  sc_connection_generation : Z; sc_update_id : Z; sc_pool_generation : Z;
}.

Definition absolute_profit_token_a (t : TradeEvaluation) : Z := saturating_sub (te_proceeds t) (te_cost t).

(** ** Snapshots *)
Record StrategySnapshotStamp := mkStamp { ss_strategy_id : string; ss_connection_generation : Z; ss_update_id : Z; ss_pool_generations : list (string * Z) }.
Definition is_current (s : StrategySnapshotStamp) (connection_generation update_id : Z) (pool_generations : gmap string Z) : bool :=
  (ss_connection_generation s =? connection_generation) && (ss_update_id s =? update_id)
  && forallb (fun '(pool, generation) => bool_decide (pool_generations !! pool = Some generation)) (ss_pool_generations s).

Record ShadowSizingJob := mkJob {
  jb_strategy_id : string; jb_opportunities : OpportunityEngine; jb_quote : TopOfBook; jb_evaluation : PairEvaluation; jb_pool_generations : list (nat * Z);
}.
Record ShadowSizingTaskResult := mkTaskResult {
  tr_strategy_id : string; tr_connection_generation : Z; tr_update_id : Z; tr_pool_generations : list (nat * Z); tr_candidate : CRes (option ShadowCandidate);
}.
Inductive ShadowSizingDisposition := ShadowPublished | NoCandidate | Superseded.

Definition pool_generations (e : OpportunityEngine) : list (nat * Z) := zip (seq 0 (length (oe_pool_generations e))) (oe_pool_generations e).

(** ** Exhaustive sizing *)
Definition MAX_SHADOW_EXACT_EVALUATIONS : nat := 128.

Section sizing.
Context `{UniswapV3Math}.

(** One exact evaluation of so many steps, kept if it meets the threshold. *)
Definition trial (e : OpportunityEngine) (pair_index : nat) (q : TopOfBook) (d : ArbitrageDirection) (i : nat) (step midpoint : Z) : CRes (option TradeEvaluation) :=
  rmap (fun t => match t with Some t => if te_meets_threshold t then Some t else None | None => None end)
    (evaluate_exact_candidate e pair_index q d i ((midpoint * step) mod 2 ^ 256)).

(** The bisection; [budget] is what remains of the evaluations.  Returns the
    bounds, the best trade and the remainder. *)
Fixpoint bisect (e : OpportunityEngine) (pair_index : nat) (q : TopOfBook) (d : ArbitrageDirection) (i : nat) (step : Z) (budget : nat)
    (low high : Z) (best : option TradeEvaluation) : CRes (Z * option TradeEvaluation * nat) :=
  if low <? high then
    match budget with
    | O => Ok (low, best, O)
    | S budget =>
        let midpoint := (low + high + 1) mod 2 ^ 256 / 2 in
        let? t := trial e pair_index q d i step midpoint in
        match t with
        | Some t => bisect e pair_index q d i step budget midpoint high (Some t)
        | None => bisect e pair_index q d i step budget low (saturating_sub midpoint 1) best
        end
    end
  else Ok (low, best, budget).

(** The bisection of one pool, and the evaluation after it that the loop makes
    unnecessary. *)
Definition size_pool (e : OpportunityEngine) (pair_index : nat) (q : TopOfBook) (d : ArbitrageDirection) (i : nat) (step maximum_steps : Z) (budget : nat)
  : CRes (option TradeEvaluation * nat) :=
  let? '(low, best, budget) := bisect e pair_index q d i step budget 0 maximum_steps None in
  if bool_decide (best = None) && negb (low =? 0) && (0 <? budget)%nat then
    let? t := trial e pair_index q d i step low in
    Ok (t, pred budget)
  else Ok (best, budget).

Abbreviation Sized := (option (ArbitrageDirection * TradeEvaluation * Z)).
Definition replaces (t : TradeEvaluation) (best : Sized) : bool :=
  match best with
  | None => true
  | Some (_, current, _) =>
      (te_token_b_amount current <? te_token_b_amount t)
      || ((te_token_b_amount t =? te_token_b_amount current) && (absolute_profit_token_a current <? absolute_profit_token_a t))
  end.

Fixpoint size_pools (e : OpportunityEngine) (pair_index : nat) (q : TopOfBook) (d : ArbitrageDirection) (step : Z) (generations : list (nat * Z))
    (pools : list nat) (budget : nat) (best : Sized) : CRes (Sized * nat) :=
  match pools with
  | [] => Ok (best, budget)
  | i :: rest =>
      let? capacity := exact_candidate_capacity e pair_index d i in
      match capacity with
      | None => size_pools e pair_index q d step generations rest budget best
      | Some capacity =>
          ensure! negb (step =? 0) else CMsg "attempt to divide by zero" ;;
          let maximum_steps := capacity / step in
          if maximum_steps =? 0 then size_pools e pair_index q d step generations rest budget best else
          let? '(found, budget) := size_pool e pair_index q d i step maximum_steps budget in
          let? best :=
            match found with
            | None => Ok best
            | Some t =>
                let? generation := or_err (snd <$> List.find (fun pg => bool_decide (pg.1 = i)) generations)
                                     (CMsg "shadow sizing snapshot omitted candidate pool generation") in
                Ok (if replaces t best then Some (d, t, generation) else best)
            end in
          if (budget =? 0)%nat then Ok (best, budget) else size_pools e pair_index q d step generations rest budget best
      end
  end.

(** Both directions, with one budget. *)
Definition size_directions (e : OpportunityEngine) (q : TopOfBook) (evaluation : PairEvaluation) (generations : list (nat * Z)) : CRes (Sized * nat) :=
  let? pair := or_err (oe_pairs e !! pe_pair_index evaluation) (CMsg "opportunity pair index is invalid") in
  let pools := pr_selection_pool_indices pair in
  let step := pr_token_b_step pair in
  let k := pe_pair_index evaluation in
  let? '(best, budget) := size_pools e k q BuyTokenBOnDexSellOnCex step generations pools MAX_SHADOW_EXACT_EVALUATIONS None in
  size_pools e k q BuyTokenBOnCexSellOnDex step generations pools budget best.

Definition evaluate_shadow_sizing (e : OpportunityEngine) (q : TopOfBook) (evaluation : PairEvaluation) (generations : list (nat * Z))
  : CRes (option ShadowCandidate) :=
  let? '(best, _) := size_directions e q evaluation generations in
  Ok ((fun '(d, t, g) => mkCandidate "exhaustive_sizing" d t (q_generation q) (q_update_id q) g) <$> best).

Definition run (job : ShadowSizingJob) : ShadowSizingTaskResult :=
  mkTaskResult (jb_strategy_id job) (q_generation (jb_quote job)) (q_update_id (jb_quote job)) (jb_pool_generations job)
    (evaluate_shadow_sizing (jb_opportunities job) (jb_quote job) (jb_evaluation job) (jb_pool_generations job)).
End sizing.

(** ** The baseline candidate *)
Definition shadow_order (l r : ArbitrageDirection * TradeEvaluation) : comparison :=
  match Z.compare (absolute_profit_token_a l.2) (absolute_profit_token_a r.2) with
  | Eq => Nat.compare (te_pool_index r.2) (te_pool_index l.2)
  | c => c
  end.
(** [Iterator::max_by]: the last of the greatest. *)
Definition max_by {A} (cmp : A -> A -> comparison) (l : list A) : option A :=
  fold_left (fun best x => match best with None => Some x | Some b => Some (match cmp b x with Gt => b | _ => x end) end) l None.

Definition shadow_candidates (evaluation : PairEvaluation) : list (ArbitrageDirection * TradeEvaluation) :=
  List.filter (fun dt => te_meets_threshold dt.2)
    (omap (fun de => pair (de_direction de) <$> de_baseline de) [pe_dex_buy_cex_sell evaluation; pe_cex_buy_dex_sell evaluation]).
Definition best_shadow_candidate (e : OpportunityEngine) (evaluation : PairEvaluation) (connection_generation update_id : Z)
  : CRes (option ShadowCandidate) :=
  match max_by shadow_order (shadow_candidates evaluation) with
  | None => Ok None
  | Some (d, t) =>
      let? g := pool_generation e (te_pool_index t) in
      Ok (Some (mkCandidate "baseline" d t connection_generation update_id g))
  end.

(** ** The evaluator *)
Record ShadowStrategyEvaluator := mkShadow {
  sh_strategy_id : string;
  sh_symbol : string;
  sh_baseline_budget_us : Z;
  sh_max_transport_silence_ms : Z;
  sh_dex_head_max_age_ms : Z;
  sh_runtime : RuntimeState;
  sh_mirror : DexMirror;
  sh_opportunities : OpportunityEngine;
  sh_published : list ShadowCandidate;
  sh_latest_quote : option TopOfBook;
  sh_pending_sizing : option ShadowSizingJob;
}.

Definition new_shadow (strategy_id symbol : string) (budget silence head_age : Z) (mirror : DexMirror) (opportunities : OpportunityEngine) : ShadowStrategyEvaluator :=
  mkShadow strategy_id symbol budget silence head_age (with_depth_requirement [symbol] false) mirror opportunities [] None None.

Definition set_runtime (s : ShadowStrategyEvaluator) (r : RuntimeState) : ShadowStrategyEvaluator :=
  mkShadow (sh_strategy_id s) (sh_symbol s) (sh_baseline_budget_us s) (sh_max_transport_silence_ms s) (sh_dex_head_max_age_ms s) r (sh_mirror s)
    (sh_opportunities s) (sh_published s) (sh_latest_quote s) (sh_pending_sizing s).
Definition set_shadow_dex (s : ShadowStrategyEvaluator) (m : DexMirror) (e : OpportunityEngine) : ShadowStrategyEvaluator :=
  mkShadow (sh_strategy_id s) (sh_symbol s) (sh_baseline_budget_us s) (sh_max_transport_silence_ms s) (sh_dex_head_max_age_ms s) (sh_runtime s) m
    e (sh_published s) (sh_latest_quote s) (sh_pending_sizing s).
Definition set_shadow_quote (s : ShadowStrategyEvaluator) (q : option TopOfBook) : ShadowStrategyEvaluator :=
  mkShadow (sh_strategy_id s) (sh_symbol s) (sh_baseline_budget_us s) (sh_max_transport_silence_ms s) (sh_dex_head_max_age_ms s) (sh_runtime s) (sh_mirror s)
    (sh_opportunities s) (sh_published s) q (sh_pending_sizing s).
Definition set_shadow_pending (s : ShadowStrategyEvaluator) (j : option ShadowSizingJob) : ShadowStrategyEvaluator :=
  mkShadow (sh_strategy_id s) (sh_symbol s) (sh_baseline_budget_us s) (sh_max_transport_silence_ms s) (sh_dex_head_max_age_ms s) (sh_runtime s) (sh_mirror s)
    (sh_opportunities s) (sh_published s) (sh_latest_quote s) j.
(** [CoordinatorShadowSink::publish]. *)
Definition sink_publish (c : ShadowCandidate) (s : ShadowStrategyEvaluator) : ShadowStrategyEvaluator :=
  mkShadow (sh_strategy_id s) (sh_symbol s) (sh_baseline_budget_us s) (sh_max_transport_silence_ms s) (sh_dex_head_max_age_ms s) (sh_runtime s) (sh_mirror s)
    (sh_opportunities s) (sh_published s ++ [c]) (sh_latest_quote s) (sh_pending_sizing s).

Definition on_mirror {A} (f : M DexMirror ClmmError A) : M ShadowStrategyEvaluator ClmmError A := fun s =>
  let '(m, r) := f (sh_mirror s) in (set_shadow_dex s m (sh_opportunities s), r).
Definition on_search {A} (f : M OpportunityEngine ClmmError A) : M ShadowStrategyEvaluator ClmmError A := fun s =>
  let '(e, r) := f (sh_opportunities s) in (set_shadow_dex s (sh_mirror s) e, r).
Definition mmodify {S E} (f : S -> S) : M S E unit := fun s => (f s, Ok tt).

Definition idle (s : ShadowStrategyEvaluator) : StrategyEvaluation := mkStrategyEvaluation false false 0 (sh_baseline_budget_us s).
Definition phase_refreshed (now : Z) (s : ShadowStrategyEvaluator) : ShadowStrategyEvaluator :=
  set_runtime s (refresh_phase now (sh_max_transport_silence_ms s) (within_ms now (sh_dex_head_max_age_ms s) (latest_head_received_at (sh_mirror s))) (sh_runtime s)).

Section evaluator.
Context `{UniswapV3Math} `{EvmText}.
Variable head_order : PoolIndices -> list nat.

Definition evaluate_quote (clock : Clock) (q : TopOfBook) : M ShadowStrategyEvaluator ClmmError StrategyEvaluation :=
  do evaluation <- on_search (evaluate q) ;;
  do s <- mget ;;
  match evaluation with
  | None => mret (mkStrategyEvaluation false false (ck_elapsed_us clock) (sh_baseline_budget_us s))
  | Some evaluation =>
      do candidate <- mlift (best_shadow_candidate (sh_opportunities s) evaluation (q_generation q) (q_update_id q)) ;;
      do! (match candidate with Some c => mmodify (sink_publish c) | None => mret tt end) ;;
      do! mmodify (fun s => set_shadow_pending s (Some (mkJob (sh_strategy_id s) (sh_opportunities s) q evaluation (pool_generations (sh_opportunities s))))) ;;
      mret (mkStrategyEvaluation true (bool_decide (is_Some candidate)) (ck_elapsed_us clock) (sh_baseline_budget_us s))
  end.

(** A requested rebuild is built and published in the same call. *)
Definition rebuild_now (i : nat) : M ShadowStrategyEvaluator ClmmError bool :=
  do s <- mget ;;
  do request <- on_search (request_pool_refresh i (dm_pools (sh_mirror s))) ;;
  do result <- mlift (build request) ;;
  do prepared <- on_search (finish_pool_refresh result) ;;
  mret (bool_decide (is_Some prepared)).

(** The generation the telemetry reads is read before the rebuild is done. *)
Definition shadow_log (log : ChainLog) (block_timestamp : Z) (emit_hot_path_latency : bool) : M ShadowStrategyEvaluator ClmmError bool :=
  do applied <- on_mirror (apply_log_at_timestamp log block_timestamp) ;;
  match applied with
  | Applied i _ refresh_required =>
      do request <- (if (refresh_required : bool) then
                       do! on_mirror (publish_pool i) ;;
                       do s <- mget ;;
                       do r <- on_search (request_pool_refresh i (dm_pools (sh_mirror s))) ;;
                       mret (Some r)
                     else mret None) ;;
      do s <- mget ;;
      do! mlift (if emit_hot_path_latency then rmap (fun _ => tt) (pool_generation (sh_opportunities s) i) else Ok tt) ;;
      match request with
      | None => mret false
      | Some request =>
          do result <- mlift (build request) ;;
          do prepared <- on_search (finish_pool_refresh result) ;;
          mret (bool_decide (is_Some prepared))
      end
  | _ => mret false
  end.

Definition shadow_head (head : CanonicalBlock) (timestamp received_at : Z) : M ShadowStrategyEvaluator ClmmError bool :=
  do applied <- on_mirror (apply_head_at head_order head (Some timestamp) received_at) ;;
  match ha_refresh_pool_index applied with
  | Some i => rebuild_now i
  | None => mret false
  end.

Definition shadow_apply_dex_event (clock : Clock) (event : DexStreamEvent) (emit_hot_path_latency : bool) : M ShadowStrategyEvaluator ClmmError StrategyEvaluation :=
  do changed <- match event with
                | DexLog log block_timestamp => shadow_log log block_timestamp emit_hot_path_latency
                | DexHead head timestamp received_at => shadow_head head timestamp received_at
                end ;;
  do! mmodify (phase_refreshed (ck_now clock)) ;;
  do s <- mget ;;
  match (if (changed : bool) then sh_latest_quote s else None) with
  | Some q => evaluate_quote clock q
  | None => mret (idle s)
  end.
Definition shadow_on_dex_event (clock : Clock) (event : DexStreamEvent) := shadow_apply_dex_event clock event true.
Definition shadow_on_startup_dex_event (clock : Clock) (event : DexStreamEvent) := shadow_apply_dex_event clock event false.

Definition shadow_on_market_event (clock : Clock) (event : MarketEvent) : M ShadowStrategyEvaluator ClmmError StrategyEvaluation :=
  do s <- mget ;;
  match event with
  | FeedConnected sym g t => do! mput (set_runtime s (on_connected sym g t (sh_runtime s))) ;; mret (idle s)
  | FeedDisconnected sym g => do! mput (set_shadow_quote (set_runtime s (on_disconnected sym g (sh_runtime s))) None) ;; mret (idle s)
  | FeedHeartbeat sym g t => do! mput (set_runtime s (record_transport_activity sym g t (sh_runtime s)).1) ;; mret (idle s)
  | BinanceTopOfBook q =>
      let '(runtime, r) := apply_quote q (sh_runtime s) in
      do! mput (phase_refreshed (ck_now clock) (set_runtime s runtime)) ;;
      if bool_decide (r = QuoteAccepted) then
        do! mmodify (fun s => set_shadow_quote s (Some q)) ;;
        evaluate_quote clock q
      else mret (idle s)
  | BinanceDepthApplied _ _ _ _ => mfail (CMsg "shadow strategy unexpectedly received Binance depth")
  end.

Definition shadow_take_sizing_job (s : ShadowStrategyEvaluator) : ShadowStrategyEvaluator * option ShadowSizingJob := (set_shadow_pending s None, sh_pending_sizing s).

Definition result_current (s : ShadowStrategyEvaluator) (r : ShadowSizingTaskResult) : bool :=
  match sh_latest_quote s with
  | Some q => (q_generation q =? tr_connection_generation r) && (q_update_id q =? tr_update_id r)
  | None => false
  end
  && forallb (fun '(i, g) => match pool_generation (sh_opportunities s) i with Ok current => current =? g | Err _ => false end) (tr_pool_generations r).

Definition shadow_on_sizing_result (r : ShadowSizingTaskResult) : M ShadowStrategyEvaluator ClmmError ShadowSizingDisposition :=
  do s <- mget ;;
  if negb (result_current s r) then mret Superseded else
  do candidate <- mlift (tr_candidate r) ;;
  match candidate with
  | Some c => do! mput (sink_publish c s) ;; mret ShadowPublished
  | None => mret NoCandidate
  end.
End evaluator.
