(* ===== verification/StrategyRuntime.v ===== *)
(** * The decision owner ([src/src/strategy_runtime.rs])

    The compiled dependency index routes a market event to the strategies that
    declared its symbol; [HotPathDecisionOwner] calls their evaluators, the
    executing primary and the observing shadows, and degrades a shadow that fails.
    What an evaluator is, is the class [StrategyEvaluator]. *)
From Stdlib Require Import Lia.
From stdpp Require Import base gmap strings numbers option fin_maps sorting list.
From S2P Require Import Prelude ExecutionPlan Decimals Depth Clmm TradeData RuntimeState Preflight MarketViews OpportunitySearch PreparedPools Events Mirror EngineDex ShadowStrategy.

(** ** The dependency index *)
Record CompiledHotPathStrategyPlan := mkStrategyPlan {
  sp_strategy_id : string; sp_symbol : string; sp_network_id : string; sp_pool_ids : list string;
  sp_observe : bool; sp_execute : bool;
}.
Abbreviation CompiledHotPathRuntimePlan := (list CompiledHotPathStrategyPlan).

Record CompiledStrategyDependencyIndex := mkIndex {
  ix_plan : CompiledHotPathRuntimePlan;
  ix_by_symbol : gmap string (list nat);
  ix_by_pool : gmap string (list nat);
  ix_by_strategy : gmap string nat;
}.

(** [entry(key).or_default().push(index)]. *)
Definition push_at (key : string) (index : nat) (m : gmap string (list nat)) : gmap string (list nat) :=
  <[key := default [] (m !! key) ++ [index]]> m.

Fixpoint index_plan (index : nat) (plan : CompiledHotPathRuntimePlan) (by_symbol by_pool : gmap string (list nat)) (by_strategy : gmap string nat)
  : CRes (gmap string (list nat) * gmap string (list nat) * gmap string nat) :=
  match plan with
  | [] => Ok (by_symbol, by_pool, by_strategy)
  | s :: rest =>
      ensure! bool_decide (by_strategy !! sp_strategy_id s = None) else CMsg ("duplicate hot-path strategy " +:+ sp_strategy_id s) ;;
      index_plan (index + 1) rest (push_at (sp_symbol s) index by_symbol)
        (fold_left (fun m pool => push_at pool index m) (sp_pool_ids s) by_pool) (<[sp_strategy_id s := index]> by_strategy)
  end.

(** Indices by the identifier of their strategy. *)
Definition id_at (plan : CompiledHotPathRuntimePlan) (i : nat) : string := default ""%string (sp_strategy_id <$> plan !! i).
Definition by_id (plan : CompiledHotPathRuntimePlan) (i j : nat) : Prop := String.le (id_at plan i) (id_at plan j).
#[global] Instance by_id_dec plan : RelDecision (by_id plan).
Proof. intros i j. unfold by_id. apply _. Defined.
(** [Vec::dedup]. *)
Fixpoint dedup (l : list nat) : list nat :=
  match l with
  | [] => []
  | x :: rest => match dedup rest with
                 | (y :: _) as r => if (x =? y)%nat then r else x :: r
                 | [] => [x]
                 end
  end.
Definition ordered (plan : CompiledHotPathRuntimePlan) (l : list nat) : list nat := dedup (merge_sort (by_id plan) l).

Definition new_index (plan : CompiledHotPathRuntimePlan) : CRes CompiledStrategyDependencyIndex :=
  ensure! negb (bool_decide (length plan = 0%nat)) else CMsg "hot-path strategy plan is empty" ;;
  let? '(by_symbol, by_pool, by_strategy) := index_plan 0 plan ∅ ∅ ∅ in
  Ok (mkIndex plan (ordered plan <$> by_symbol) (ordered plan <$> by_pool) by_strategy).

Definition strategy (x : CompiledStrategyDependencyIndex) (id : string) : CRes CompiledHotPathStrategyPlan :=
  or_err (ix_by_strategy x !! id ≫= fun i => ix_plan x !! i) (CMsg ("unknown hot-path strategy " +:+ id)).
Definition symbol_indices (x : CompiledStrategyDependencyIndex) (symbol : string) : list nat := default [] (ix_by_symbol x !! symbol).
Definition for_pool (x : CompiledStrategyDependencyIndex) (pool : string) : list nat := default [] (ix_by_pool x !! pool).
Definition strategy_at (x : CompiledStrategyDependencyIndex) (i : nat) : CRes CompiledHotPathStrategyPlan :=
  or_err (ix_plan x !! i) (CMsg "hot-path strategy index is invalid").

(** ** Evaluators *)
Class StrategyEvaluator (A : Type) := {
  se_strategy_id : A -> string;
  se_symbol : A -> string;
  se_on_market_event : Clock -> MarketEvent -> option SpotDepthBook -> M A ClmmError StrategyEvaluation;
  se_on_dex_event : Clock -> DexStreamEvent -> M A ClmmError StrategyEvaluation;
  se_on_startup_dex_event : Clock -> DexStreamEvent -> M A ClmmError StrategyEvaluation;
  se_take_sizing_job : A -> A * option ShadowSizingJob;
  se_on_sizing_result : ShadowSizingTaskResult -> M A ClmmError ShadowSizingDisposition;
}.

(** A shadow evaluator does not look at the depth book. *)
#[global] Instance shadow_evaluator `{UniswapV3Math} `{EvmText} (head_order : PoolIndices -> list nat) : StrategyEvaluator ShadowStrategyEvaluator := {
  se_strategy_id := sh_strategy_id;
  se_symbol := sh_symbol;
  se_on_market_event clock event _ := shadow_on_market_event clock event;
  se_on_dex_event := shadow_on_dex_event head_order;
  se_on_startup_dex_event := shadow_on_startup_dex_event head_order;
  se_take_sizing_job := shadow_take_sizing_job;
  se_on_sizing_result := shadow_on_sizing_result;
}.

Record StrategyDispatchSummary := mkSummary {
  ds_routed_strategies : Z; ds_evaluated_strategies : Z; ds_produced_candidates : Z; ds_budget_exceeded : Z; ds_maximum_calculation_time_us : Z;
}.
Definition no_dispatch : StrategyDispatchSummary := mkSummary 0 0 0 0 0.
Definition flag (b : bool) : Z := if b then 1 else 0.
Definition summarize (s : StrategyDispatchSummary) (e : StrategyEvaluation) : StrategyDispatchSummary :=
  mkSummary (saturating_add 16 (ds_routed_strategies s) 1) (saturating_add 16 (ds_evaluated_strategies s) (flag (ev_evaluated e)))
    (saturating_add 16 (ds_produced_candidates s) (flag (ev_candidate_produced e))) (saturating_add 16 (ds_budget_exceeded s) (flag (budget_exceeded e)))
    (Z.max (ds_maximum_calculation_time_us s) (ev_calculation_time_us e)).

Record StrategyDependencyFault := mkFault { df_strategy_id : string; df_network_id : string; df_symbol : string; df_dependency : string; df_error : ClmmError }.
Definition idle_strategy_evaluation : StrategyEvaluation := mkStrategyEvaluation false false 0 0.

(** ** The owner *)
Section owner.
Context {P Q : Type} `{StrategyEvaluator P} `{StrategyEvaluator Q}.

Record HotPathDecisionOwner := mkOwner {
  ow_primary_strategy_id : string;
  ow_primary : P;
  ow_shadows : gmap string Q;
  ow_degraded_shadows : gset string;
  ow_dependency_faults : list StrategyDependencyFault;
  ow_dependencies : CompiledStrategyDependencyIndex;
}.

Definition set_primary (o : HotPathDecisionOwner) (p : P) : HotPathDecisionOwner :=
  mkOwner (ow_primary_strategy_id o) p (ow_shadows o) (ow_degraded_shadows o) (ow_dependency_faults o) (ow_dependencies o).
Definition set_shadow (o : HotPathDecisionOwner) (id : string) (s : Q) : HotPathDecisionOwner :=
  mkOwner (ow_primary_strategy_id o) (ow_primary o) (<[id := s]> (ow_shadows o)) (ow_degraded_shadows o) (ow_dependency_faults o) (ow_dependencies o).
Definition degrade (o : HotPathDecisionOwner) (id : string) (fault : StrategyDependencyFault) : HotPathDecisionOwner :=
  mkOwner (ow_primary_strategy_id o) (ow_primary o) (ow_shadows o) ({[id]} ∪ ow_degraded_shadows o) (ow_dependency_faults o ++ [fault]) (ow_dependencies o).

Fixpoint index_shadows (x : CompiledStrategyDependencyIndex) (shadows : list Q) (m : gmap string Q) : CRes (gmap string Q) :=
  match shadows with
  | [] => Ok m
  | s :: rest =>
      let id := se_strategy_id s in
      let? plan := strategy x id in
      ensure! negb (sp_execute plan) else CMsg ("shadow strategy " +:+ id +:+ " unexpectedly has execute capability") ;;
      ensure! bool_decide (se_symbol s = sp_symbol plan) else CMsg "shadow evaluator symbol differs from compiled dependency" ;;
      ensure! bool_decide (m !! id = None) else CMsg ("duplicate shadow evaluator " +:+ id) ;;
      index_shadows x rest (<[id := s]> m)
  end.
Fixpoint index_external (x : CompiledStrategyDependencyIndex) (primary : string) (shadows : gmap string Q) (ids : list string) (external : gset string) : CRes (gset string) :=
  match ids with
  | [] => Ok external
  | id :: rest =>
      let? plan := strategy x id in
      ensure! sp_observe plan && negb (sp_execute plan) else CMsg ("externally routed strategy " +:+ id +:+ " is not an observe-only strategy") ;;
      ensure! negb (bool_decide (id = primary)) && bool_decide (shadows !! id = None)
        else CMsg ("externally routed strategy " +:+ id +:+ " already has a decision-owner evaluator") ;;
      ensure! bool_decide (id ∉ external) else CMsg ("duplicate externally routed strategy " +:+ id) ;;
      index_external x primary shadows rest ({[id]} ∪ external)
  end.

Definition new_with_externally_routed_observers (primary : P) (shadows : list Q) (externally_routed : list string) (x : CompiledStrategyDependencyIndex)
  : CRes HotPathDecisionOwner :=
  let primary_id := se_strategy_id primary in
  let? plan := strategy x primary_id in
  ensure! sp_execute plan else CMsg ("primary hot-path strategy " +:+ primary_id +:+ " is not executable") ;;
  ensure! bool_decide (se_symbol primary = sp_symbol plan) else CMsg "primary evaluator symbol differs from compiled dependency" ;;
  let? indexed := index_shadows x shadows ∅ in
  let? external := index_external x primary_id indexed externally_routed ∅ in
  ensure! forallb (fun s => negb (sp_observe s && negb (sp_execute s)) || bool_decide (is_Some (indexed !! sp_strategy_id s)) || bool_decide (sp_strategy_id s ∈ external)) (ix_plan x)
    else CMsg "one or more non-executable observable strategies have no routed evaluator" ;;
  Ok (mkOwner primary_id primary indexed ∅ [] x).
Definition new_owner (primary : P) (shadows : list Q) (x : CompiledStrategyDependencyIndex) : CRes HotPathDecisionOwner :=
  new_with_externally_routed_observers primary shadows [] x.

Definition on_primary {A} (f : M P ClmmError A) : M HotPathDecisionOwner ClmmError A := fun o =>
  let '(p, r) := f (ow_primary o) in (set_primary o p, r).

(** A call of a shadow; its failure is an answer here. *)
Definition call_shadow {A} (id : string) (missing : string) (f : M Q ClmmError A) : M HotPathDecisionOwner ClmmError (CRes A) := fun o =>
  match ow_shadows o !! id with
  | None => (o, Err (CMsg missing))
  | Some s => let '(s', r) := f s in (set_shadow o id s', Ok r)
  end.

(** One route of a market event: nothing for a degraded shadow or one that fails. *)
Definition route (clock : string -> Clock) (event : MarketEvent) (depth : option SpotDepthBook) (i : nat)
  : M HotPathDecisionOwner ClmmError (option StrategyEvaluation) :=
  do o <- mget ;;
  do plan <- mlift (strategy_at (ow_dependencies o) i) ;;
  let id := sp_strategy_id plan in
  if bool_decide (id = ow_primary_strategy_id o) then
    do e <- on_primary (se_on_market_event (clock id) event depth) ;;
    mret (Some e)
  else if bool_decide (id ∈ ow_degraded_shadows o) then mret None
  else
    do r <- call_shadow id "compiled shadow route has no evaluator" (se_on_market_event (clock id) event None) ;;
    match r with
    | Ok e => mret (Some e)
    | Err error =>
        do! mmodify (fun o => degrade o id (mkFault id (sp_network_id plan) (sp_symbol plan) "strategy_evaluator" error)) ;;
        mret None
    end.

Fixpoint route_all (clock : string -> Clock) (event : MarketEvent) (depth : option SpotDepthBook) (indices : list nat) (summary : StrategyDispatchSummary)
  : M HotPathDecisionOwner ClmmError StrategyDispatchSummary :=
  match indices with
  | [] => mret summary
  | i :: rest =>
      do e <- route clock event depth i ;;
      route_all clock event depth rest (match e with Some e => summarize summary e | None => summary end)
  end.

Definition owner_on_market_event (clock : string -> Clock) (event : MarketEvent) (depth : option SpotDepthBook)
  : M HotPathDecisionOwner ClmmError StrategyDispatchSummary :=
  do o <- mget ;;
  match symbol_indices (ow_dependencies o) (event_symbol event) with
  | [i] =>
      do e <- route clock event depth i ;;
      mret (match e with
            | Some e => mkSummary 1 (flag (ev_evaluated e)) (flag (ev_candidate_produced e)) (flag (budget_exceeded e)) (ev_calculation_time_us e)
            | None => no_dispatch
            end)
  | indices => route_all clock event depth indices no_dispatch
  end.

Definition degrade_shadow_strategy (id dependency : string) (error : ClmmError) : M HotPathDecisionOwner ClmmError unit :=
  do o <- mget ;;
  do! mlift (ensure (negb (bool_decide (id = ow_primary_strategy_id o))) (CMsg "primary strategy cannot be dependency-degraded")) ;;
  do plan <- mlift (strategy (ow_dependencies o) id) ;;
  if bool_decide (id ∈ ow_degraded_shadows o) then mret tt
  else mput (degrade o id (mkFault id (sp_network_id plan) (sp_symbol plan) dependency error)).

Definition shadow_dex_event (id dependency : string) (f : M Q ClmmError StrategyEvaluation) : M HotPathDecisionOwner ClmmError StrategyEvaluation :=
  do o <- mget ;;
  do! mlift (ensure (negb (bool_decide (id = ow_primary_strategy_id o))) (CMsg "primary DEX events must use the existing compatibility coordinator path")) ;;
  if bool_decide (id ∈ ow_degraded_shadows o) then mret idle_strategy_evaluation else
  do r <- call_shadow id "shadow DEX route has no evaluator" f ;;
  match r with
  | Ok e => mret e
  | Err error => do! degrade_shadow_strategy id dependency error ;; mret idle_strategy_evaluation
  end.
Definition on_shadow_dex_event (clock : Clock) (id : string) (event : DexStreamEvent) := shadow_dex_event id "network_ingestion" (se_on_dex_event clock event).
Definition on_shadow_startup_dex_event (clock : Clock) (id : string) (event : DexStreamEvent) :=
  shadow_dex_event id "startup_network_ingestion" (se_on_startup_dex_event clock event).

Definition take_dependency_faults (o : HotPathDecisionOwner) : HotPathDecisionOwner * list StrategyDependencyFault :=
  (mkOwner (ow_primary_strategy_id o) (ow_primary o) (ow_shadows o) (ow_degraded_shadows o) [] (ow_dependencies o), ow_dependency_faults o).
Definition shadow_is_degraded (o : HotPathDecisionOwner) (id : string) : bool := bool_decide (id ∈ ow_degraded_shadows o).

(** [values_mut().find_map]: every evaluator before the first job is asked. *)
Fixpoint first_job (entries : list (string * Q)) (shadows : gmap string Q) : gmap string Q * option ShadowSizingJob :=
  match entries with
  | [] => (shadows, None)
  | (id, s) :: rest =>
      let '(s', job) := se_take_sizing_job s in
      let shadows := <[id := s']> shadows in
      match job with Some job => (shadows, Some job) | None => first_job rest shadows end
  end.
Definition take_next_shadow_sizing_job (o : HotPathDecisionOwner) : HotPathDecisionOwner * option ShadowSizingJob :=
  let '(shadows, job) := first_job (btree_entries (ow_shadows o)) (ow_shadows o) in
  (mkOwner (ow_primary_strategy_id o) (ow_primary o) shadows (ow_degraded_shadows o) (ow_dependency_faults o) (ow_dependencies o), job).

Definition on_shadow_sizing_result (result : ShadowSizingTaskResult) : M HotPathDecisionOwner ClmmError ShadowSizingDisposition :=
  do r <- call_shadow (tr_strategy_id result) "shadow sizing result has no evaluator" (se_on_sizing_result result) ;;
  mlift r.
End owner.
#[global] Arguments HotPathDecisionOwner P Q : clear implicits.
