(* ===== verification/ShadowFacts.v ===== *)
(** * What exhaustive sizing promises ([src/src/strategy_runtime.rs])

    The bisection keeps what it has found and what it has excluded; the candidate
    of a snapshot is an exact trade that meets the threshold, and it is published
    only while its snapshot is current. *)
From Stdlib Require Import Lia.
From stdpp Require Import base gmap strings numbers option fin_maps list.
From S2P Require Import Prelude ExecutionPlan Decimals Clmm ClmmCurve TradeData RuntimeState Preflight MarketViews Pricing OpportunitySearch FeeProjection HydratedPools PreparedPools PlanBuild Events Mirror EngineDex ShadowStrategy.

Section sizing.
Context `{UniswapV3Math}.
Context (e : OpportunityEngine) (k : nat) (q : TopOfBook).

(** Amounts whose doubles fit the machine word. *)
Definition small (x : Z) : Prop := 0 <= x < 2 ^ 254.

Section pool.
Context (d : ArbitrageDirection) (i : nat) (step : Z).
#[local] Abbreviation tried := (trial e k q d i step).

(** What the search holds at its lower bound, and what it has excluded above the
    upper one. *)
Definition holds (low : Z) (best : option TradeEvaluation) : Prop :=
  match best with Some t => 0 < low /\ tried low = Ok (Some t) | None => low = 0 end.
Definition excluded (maximum high : Z) : Prop := high = maximum \/ tried (high + 1) = Ok None.

Lemma bisect_sound budget maximum low high best lo best' budget' :
  bisect e k q d i step budget low high best = Ok (lo, best', budget') ->
  0 <= low <= high -> small high -> high <= maximum -> holds low best -> excluded maximum high ->
  holds lo best' /\ lo <= maximum /\ (budget' <= budget)%nat /\ (budget' = 0%nat \/ excluded maximum lo).
Proof.
  unfold small. revert low high best. induction budget as [|budget IH]; intros low high best Hb Hl Hh Hm Hold Hex; simpl in Hb.
  - destruct (Z.ltb_spec low high); injection Hb as <- <- <-; (split_and!; [done|lia|lia|by left]).
  - destruct (Z.ltb_spec low high) as [Hlt|Hge].
    2:{ injection Hb as <- <- <-. assert (low = high) as <- by lia. split_and!; [done|lia|lia|by right]. }
    res_inv. rewrite (Z.mod_small (low + high + 1)) in * by lia. set (mid := (low + high + 1) / 2) in *.
    assert (Hmid : low < mid <= high) by (unfold mid; Z.to_euclidean_division_equations; lia).
    destruct x as [t|].
    + destruct (IH mid high (Some t) Hb) as (H1 & H2 & H3 & H4); [lia|done|done|split; [lia|done]|done|]. split_and!; [done|done|lia|done].
    + unfold saturating_sub in Hb. rewrite Z.max_l in Hb by lia.
      destruct (IH low (mid - 1) best Hb) as (H1 & H2 & H3 & H4); [lia|lia|lia|done|right; by replace (mid - 1 + 1) with mid by lia|]. split_and!; [done|done|lia|done].
Qed.

(** The trade of a pool: a number of steps that meets the threshold, and one more
    step is too much unless the evaluations ran out. *)
Lemma size_pool_sound maximum budget t budget' : 0 <= maximum -> small maximum ->
  size_pool e k q d i step maximum budget = Ok (Some t, budget') ->
  exists steps, 0 < steps <= maximum /\ tried steps = Ok (Some t) /\ (budget' = 0%nat \/ excluded maximum steps).
Proof.
  intros Hm Hs Hp. unfold size_pool in Hp. apply rbind_Ok in Hp as ([[lo best] b] & Hb & Hp).
  destruct (bisect_sound budget maximum 0 maximum None lo best b Hb) as (Hold & Hlo & _ & Hex); [lia|done|lia|done|by left|].
  destruct best as [t0|]; simpl in *.
  - injection Hp as -> <-. destruct Hold as [Hpos Ht]. exists lo. split_and!; [lia|lia|done|done].
  - subst lo. simpl in Hp. congruence.
Qed.
Lemma size_pool_budget maximum budget found budget' : 0 <= maximum -> small maximum ->
  size_pool e k q d i step maximum budget = Ok (found, budget') -> (budget' <= budget)%nat.
Proof.
  intros Hm Hs Hp. unfold size_pool in Hp. apply rbind_Ok in Hp as ([[lo best] b] & Hb & Hp).
  destruct (bisect_sound budget maximum 0 maximum None lo best b Hb) as (Hold & _ & Hle & _); [lia|done|lia|done|by left|].
  destruct (_ && _); res_inv; simplify_eq/=; lia.
Qed.
End pool.

(** The largest amounts of the engine fit. *)
Definition capacities_small : Prop := forall d i c, exact_candidate_capacity e k d i = Ok (Some c) -> small c.

(** A sized trade, given what is left of the evaluations. *)
Definition sized (step : Z) (generations : list (nat * Z)) (pools : list nat) (budget : nat) (s : ArbitrageDirection * TradeEvaluation * Z) : Prop :=
  let '(d, t, g) := s in
  exists i c steps, i ∈ pools /\ (i, g) ∈ generations /\ exact_candidate_capacity e k d i = Ok (Some c) /\ 0 < steps <= c / step /\
    trial e k q d i step steps = Ok (Some t) /\ (budget = 0%nat \/ excluded d i step (c / step) steps).

Lemma sized_mono step generations pools pools' budget budget' s : (budget' <= budget)%nat -> pools ⊆ pools' ->
  sized step generations pools budget s -> sized step generations pools' budget' s.
Proof.
  intros Hb Hp. destruct s as [[d t] g]. intros (i & c & n & Hi & Hg & Hc & Hn & Ht & Hx). exists i, c, n.
  split_and!; try done; [by apply Hp|lia|lia|]. destruct Hx as [Hx|Hx]; [left; lia|by right].
Qed.

Lemma size_pools_sound d step generations pools all budget best best' budget' :
  0 <= step -> capacities_small -> pools ⊆ all ->
  size_pools e k q d step generations pools budget best = Ok (best', budget') ->
  (forall s, best = Some s -> sized step generations all budget s) ->
  (budget' <= budget)%nat /\ forall s, best' = Some s -> sized step generations all budget' s.
Proof.
  intros Hstep Hsmall. revert budget best. induction pools as [|i pools IH]; intros budget best Hsub Hz Hbest; simpl in Hz.
  - injection Hz as <- <-. by split.
  - assert (Hsub' : pools ⊆ all) by set_solver. apply rbind_Ok in Hz as (capacity & Hc & Hz). destruct capacity as [c|]; [|exact (IH _ _ Hsub' Hz Hbest)].
    res_inv. bool_prop. destruct (Z.eqb_spec (c / step) 0) as [|Hne]; [exact (IH _ _ Hsub' Hz Hbest)|]. res_inv. destruct x0 as [found b]. res_inv.
    pose proof (Hsmall d i c Hc) as Hcs. assert (Hmax : small (c / step) /\ 0 <= c / step).
    { unfold small in *. pose proof (Z.div_pos c step). pose proof (Z.div_le_upper_bound c step c). nia. }
    destruct Hmax as [Hms Hm0].
    match goal with E : size_pool _ _ _ _ _ _ _ _ = _ |- _ => pose proof (size_pool_budget d i step _ _ _ _ Hm0 Hms E) as Hble; rename E into Hpool end.
    assert (Hnew : forall s, x0 = Some s -> sized step generations all b s).
    { intros s Hs0. destruct found as [t|]; [|res_inv; eapply (sized_mono _ _ all); [exact Hble|done|apply Hbest; congruence]].
      res_inv. destruct (replaces t best); [|eapply (sized_mono _ _ all); [exact Hble|done|apply Hbest; congruence]]. simplify_eq.
      destruct (size_pool_sound d i step _ _ _ _ Hm0 Hms Hpool) as (n & Hn & Ht & Hx).
      match goal with E : snd <$> _ = Some ?g |- _ => apply fmap_Some in E as ([i' g'] & Hf & ->) end. apply find_some in Hf as [Hf Hi']. bool_prop. simpl in *. subst i'.
      exists i, c, n. split_and!; try done; [apply Hsub; by left|by apply list_elem_of_In|lia|lia]. }
    destruct (Nat.eqb_spec b 0) as [->|Hb]; [by injection Hz as <- <-|].
    destruct (IH b x0 Hsub' Hz Hnew) as [Hle Hs]. split; [lia|done].
Qed.
End sizing.

Lemma trial_Some `{UniswapV3Math} e k q d i step n t : 0 <= n * step < 2 ^ 256 ->
  trial e k q d i step n = Ok (Some t) ->
  evaluate_exact_candidate e k q d i (n * step) = Ok (Some t) /\ te_meets_threshold t = true /\ te_pool_index t = i /\ te_token_b_amount t = n * step.
Proof.
  intros Hn Ht. unfold trial in Ht. res_inv. rewrite Z.mod_small in * by done. destruct x as [t'|]; [|done].
  destruct (te_meets_threshold t') eqn:Em; [|done]. simplify_eq. split; [done|]. split; [done|].
  unfold evaluate_exact_candidate in Hok. res_inv. by eapply evaluate_trade_index.
Qed.

(** No exact trade of the amount meets the threshold. *)
Definition misses `{UniswapV3Math} (e : OpportunityEngine) (k : nat) (q : TopOfBook) (d : ArbitrageDirection) (i : nat) (amount : Z) : Prop :=
  forall t, evaluate_exact_candidate e k q d i amount = Ok (Some t) -> te_meets_threshold t = false.

Lemma trial_None `{UniswapV3Math} e k q d i step n : 0 <= n * step < 2 ^ 256 -> trial e k q d i step n = Ok None -> misses e k q d i (n * step).
Proof.
  intros Hn Ht t He. unfold trial in Ht. rewrite Z.mod_small in Ht by done. rewrite He in Ht. simpl in Ht. by destruct (te_meets_threshold t).
Qed.

(** The evaluations of a job ran out. *)
Definition exhausted `{UniswapV3Math} (j : ShadowSizingJob) : Prop :=
  exists best, size_directions (jb_opportunities j) (jb_quote j) (jb_evaluation j) (jb_pool_generations j) = Ok (best, 0%nat).

Lemma run_candidate `{UniswapV3Math} j c :
  tr_candidate (run j) = Ok (Some c) ->
  capacities_small (jb_opportunities j) (pe_pair_index (jb_evaluation j)) ->
  (forall p, oe_pairs (jb_opportunities j) !! pe_pair_index (jb_evaluation j) = Some p -> 0 <= pr_token_b_step p) ->
  exists p budget, oe_pairs (jb_opportunities j) !! pe_pair_index (jb_evaluation j) = Some p /\
    sized (jb_opportunities j) (pe_pair_index (jb_evaluation j)) (jb_quote j) (pr_token_b_step p) (jb_pool_generations j)
      (pr_selection_pool_indices p) budget (sc_direction c, sc_trade c, sc_pool_generation c) /\
    (budget = 0%nat -> exhausted j) /\ sc_connection_generation c = q_generation (jb_quote j) /\ sc_update_id c = q_update_id (jb_quote j).
Proof.
  intros Hc Hsmall Hstep. unfold exhausted. unfold run, evaluate_shadow_sizing in Hc. simpl in Hc. apply rbind_Ok in Hc as ([best budget] & Hd & Hc).
  rewrite Hd. unfold size_directions in Hd. res_inv. specialize (Hstep _ Hok). destruct x0 as [best1 b1].
  destruct best as [[[d t] g]|]; [|done]. simplify_eq/=. exists x, budget. split; [done|].
  apply size_pools_sound with (all := pr_selection_pool_indices x) in Hok0 as [_ Hs1]; [|done..].
  apply size_pools_sound with (all := pr_selection_pool_indices x) in Hd as [_ Hs2]; [|done..].
  split; [exact (Hs2 _ eq_refl)|]. split; [|done]. intros ->. by eexists.
Qed.

Lemma current_generation e gens i g : forallb (fun '(i, g) => match pool_generation e i with Ok current => current =? g | Err _ => false end) gens = true ->
  (i, g) ∈ gens -> pool_generation e i = Ok g.
Proof.
  rewrite forallb_forall. intros Hall Hi. apply list_elem_of_In in Hi. specialize (Hall _ Hi). simpl in Hall.
  destruct (pool_generation e i); [|done]. by apply Z.eqb_eq in Hall as ->.
Qed.

(** C34. what exhaustive sizing publishes is a trade: it is published only while
    the quote and the generation of every pool of its snapshot are the current
    ones, it is the exact trade of a number of steps in a selectable pool within
    the prepared capacity and meets the threshold, and, unless the bounded number of
    evaluations ran out, that is the whole capacity or one step more misses the
    threshold. *)
Theorem sized_candidate_sound `{UniswapV3Math} j s s' :
  capacities_small (jb_opportunities j) (pe_pair_index (jb_evaluation j)) ->
  (forall p, oe_pairs (jb_opportunities j) !! pe_pair_index (jb_evaluation j) = Some p -> 0 < pr_token_b_step p < 2 ^ 254) ->
  shadow_on_sizing_result (run j) s = (s', Ok ShadowPublished) ->
  exists c p capacity steps, s' = sink_publish c s /\ oe_pairs (jb_opportunities j) !! pe_pair_index (jb_evaluation j) = Some p /\
    let amount := steps * pr_token_b_step p in
    let i := te_pool_index (sc_trade c) in
    (exists q, sh_latest_quote s = Some q /\ q_generation q = sc_connection_generation c /\ q_update_id q = sc_update_id c) /\
    pool_generation (sh_opportunities s) i = Ok (sc_pool_generation c) /\
    (forall i' g, (i', g) ∈ jb_pool_generations j -> pool_generation (sh_opportunities s) i' = Ok g) /\
    i ∈ pr_selection_pool_indices p /\ te_token_b_amount (sc_trade c) = amount /\ te_meets_threshold (sc_trade c) = true /\
    evaluate_exact_candidate (jb_opportunities j) (pe_pair_index (jb_evaluation j)) (jb_quote j) (sc_direction c) i amount = Ok (Some (sc_trade c)) /\
    exact_candidate_capacity (jb_opportunities j) (pe_pair_index (jb_evaluation j)) (sc_direction c) i = Ok (Some capacity) /\
    0 < amount <= capacity /\
    (exhausted j \/ capacity < amount + pr_token_b_step p \/
     misses (jb_opportunities j) (pe_pair_index (jb_evaluation j)) (jb_quote j) (sc_direction c) i (amount + pr_token_b_step p)).
Proof.
  intros Hsmall Hstep Hp. unfold shadow_on_sizing_result, mbind', mget in Hp. destruct (result_current s (run j)) eqn:Ecur; cbn [negb] in Hp; [|done].
  unfold mlift in Hp. destruct (tr_candidate (run j)) as [[c|]|] eqn:Ec; try done. unfold mput, mret in Hp. injection Hp as <-.
  destruct (run_candidate j c Ec Hsmall) as (p & budget & Hpair & Hsized & Hex & Hgen & Hupd); [intros p0 Hp0; specialize (Hstep p0 Hp0); lia|].
  specialize (Hstep p Hpair). destruct Hsized as (i & capacity & steps & Hi & Hg & Hcap & Hsteps & Ht & Hmax). pose proof (Hsmall _ _ _ Hcap) as Hcs. unfold small in Hcs.
  set (u := pr_token_b_step p) in *. pose proof (Z.mul_div_le capacity u ltac:(lia)) as Hle. assert (Hamount : 0 < steps * u <= capacity) by nia.
  assert (Hword : 0 <= steps * u < 2 ^ 256) by lia.
  destruct (trial_Some _ _ _ _ _ _ _ _ Hword Ht) as (He & Hm & Hidx & Hamt). unfold result_current in Ecur. apply andb_true_iff in Ecur as [Hq Hpools]. simpl in *.
  exists c, p, capacity, steps. rewrite Hidx. split; [done|]. split; [exact Hpair|]. cbv zeta. split.
  { destruct (sh_latest_quote s) as [q|] eqn:Elq; [|done]. bool_prop. exists q. split_and!; [done|congruence|congruence]. }
  split; [by eapply current_generation|]. split; [intros i' g'; by eapply current_generation|]. split_and!; try done; [lia|lia|].
  destruct Hmax as [Hz|[Hz|Hz]]; [left; by apply Hex|right; left|right; right].
  - pose proof (Z.mod_pos_bound capacity u ltac:(lia)). pose proof (Z.div_mod capacity u ltac:(lia)). nia.
  - fold u. replace (steps * u + u) with ((steps + 1) * u) by ring. apply trial_None; [nia|done].
Qed.

(** The best of the baselines: it meets the threshold, no other that does earns
    more, and it is tied to the current generation of its pool. *)
Lemma max_by_greatest {A} (cmp : A -> A -> comparison) (R : A -> A -> Prop) l b0 :
  (forall a, R a a) -> (forall a b c, R a b -> R b c -> R a c) -> (forall a b, match cmp a b with Gt => R b a | _ => R a b end) ->
  exists b, fold_left (fun best x => match best with None => Some x | Some b => Some (match cmp b x with Gt => b | _ => x end) end) l (Some b0) = Some b /\
    b ∈ b0 :: l /\ R b0 b /\ forall x, x ∈ l -> R x b.
Proof.
  intros Hrefl Htrans Hcmp. revert b0. induction l as [|x l IH]; intros b0; simpl.
  - exists b0. split_and!; [done|by left|apply Hrefl|]. intros x Hx. by apply not_elem_of_nil in Hx.
  - pose proof (Hcmp b0 x) as Hb. set (b1 := match cmp b0 x with Gt => b0 | _ => x end).
    destruct (IH b1) as (b & -> & Hin & Hb1 & Hall). exists b. split; [done|].
    assert (Hboth : R b0 b1 /\ R x b1) by (unfold b1; destruct (cmp b0 x); split; done).
    split_and!.
    + apply elem_of_cons in Hin as [->|Hin]; [|by right; right]. unfold b1. destruct (cmp b0 x); [by right; left|by right; left|by left].
    + eapply Htrans; [apply Hboth|done].
    + intros y [->|Hy]%elem_of_cons; [eapply Htrans; [apply Hboth|done]|by apply Hall].
Qed.

Theorem baseline_candidate_best e evaluation g u c :
  best_shadow_candidate e evaluation g u = Ok (Some c) ->
  (sc_direction c, sc_trade c) ∈ shadow_candidates evaluation /\ te_meets_threshold (sc_trade c) = true /\
  pool_generation e (te_pool_index (sc_trade c)) = Ok (sc_pool_generation c) /\
  forall d t, (d, t) ∈ shadow_candidates evaluation -> absolute_profit_token_a t <= absolute_profit_token_a (sc_trade c).
Proof.
  intros Hb. unfold best_shadow_candidate, max_by in Hb. destruct (shadow_candidates evaluation) as [|b0 l] eqn:El; [done|]. simpl in Hb.
  pose proof (max_by_greatest shadow_order (fun a b => absolute_profit_token_a a.2 <= absolute_profit_token_a b.2) l b0) as Hmax.
  destruct Hmax as ([d t] & Em & Hin & H0 & Hall); [intros; lia|intros; lia| |].
  { intros a b. unfold shadow_order. destruct (Z.compare_spec (absolute_profit_token_a a.2) (absolute_profit_token_a b.2)); [destruct (Nat.compare _ _); lia|lia|lia]. }
  rewrite Em in Hb. res_inv. simplify_eq/=. split; [done|]. split; [|split; [done|]].
  - assert (Hin' : (d, t) ∈ shadow_candidates evaluation) by (by rewrite El). unfold shadow_candidates in Hin'.
    apply list_elem_of_In, filter_In in Hin' as [_ Hm]. done.
  - intros d' t' [Heq|Ht]%elem_of_cons; [by subst b0|exact (Hall (d', t') Ht)].
Qed.
