(* ===== verification/StrategyFacts.v ===== *)
(** * What the decision owner promises ([src/src/strategy_runtime.rs])

    Routing is exact, a strategy is degraded once and then left alone, and the
    executing primary behaves as if it ran alone, whatever the shadows are and do -
    as long as every strategy an event is routed to has an evaluator. *)
From Stdlib Require Import Lia Sorted.
From stdpp Require Import base gmap strings numbers option fin_maps sorting list.
From S2P Require Import Prelude ExecutionPlan Decimals Depth Clmm TradeData RuntimeState Preflight MarketViews OpportunitySearch PreparedPools Events Mirror EngineDex ShadowStrategy StrategyRuntime.

(** ** The index *)
Definition at_key (m : gmap string (list nat)) (key : string) : list nat := default [] (m !! key).

Lemma at_push key index m key' : at_key (push_at key index m) key' = if decide (key = key') then at_key m key' ++ [index] else at_key m key'.
Proof. unfold at_key, push_at. case_decide as E; [subst; by rewrite lookup_insert_eq|by rewrite lookup_insert_ne]. Qed.

Lemma at_pushes index pools m key i :
  i ∈ at_key (fold_left (fun m pool => push_at pool index m) pools m) key <-> i ∈ at_key m key \/ (i = index /\ key ∈ pools).
Proof.
  revert m. induction pools as [|pool pools IH]; intros m; simpl; [rewrite elem_of_nil; naive_solver|].
  rewrite IH, at_push, elem_of_cons. case_decide as E; [rewrite elem_of_app, list_elem_of_singleton|]; naive_solver.
Qed.

(** The indices of a plan that start from an index, with the strategy they hold. *)
Definition located (index : nat) (plan : CompiledHotPathRuntimePlan) (i : nat) (s : CompiledHotPathStrategyPlan) : Prop :=
  (index <= i)%nat /\ plan !! (i - index)%nat = Some s.

Lemma located_cons index s plan i t : located index (s :: plan) i t <-> (i = index /\ t = s) \/ located (index + 1) plan i t.
Proof.
  unfold located. destruct (decide (i = index)) as [->|Hne].
  - rewrite Nat.sub_diag. simpl. split; [intros [_ ?]; left; naive_solver|intros [[_ ->]|[? _]]; [done|lia]].
  - split.
    + intros [Hle Hl]. right. split; [lia|]. by replace (i - index)%nat with (S (i - (index + 1))) in Hl by lia.
    + intros [[? _]|[Hle Hl]]; [done|]. split; [lia|]. by replace (i - index)%nat with (S (i - (index + 1))) by lia.
Qed.

Lemma index_plan_Ok index plan bs bp bi bs' bp' bi' :
  index_plan index plan bs bp bi = Ok (bs', bp', bi') ->
  (forall key i, i ∈ at_key bs' key <-> i ∈ at_key bs key \/ exists s, located index plan i s /\ sp_symbol s = key) /\
  (forall key i, i ∈ at_key bp' key <-> i ∈ at_key bp key \/ exists s, located index plan i s /\ key ∈ sp_pool_ids s) /\
  (forall id i, bi' !! id = Some i <-> bi !! id = Some i \/ exists s, located index plan i s /\ sp_strategy_id s = id) /\
  NoDup (map sp_strategy_id plan) /\ (forall s, s ∈ plan -> bi !! sp_strategy_id s = None).
Proof.
  revert index bs bp bi. induction plan as [|s plan IH]; intros index bs bp bi Hi; simpl in Hi.
  - injection Hi as <- <- <-. unfold located.
    split_and!; try (intros; rewrite lookup_nil; naive_solver); [constructor|intros s Hs; by apply not_elem_of_nil in Hs].
  - res_inv. bool_prop. apply IH in Hi as (H1 & H2 & H3 & H4 & H5). split_and!.
    + intros key i. rewrite H1, at_push. setoid_rewrite located_cons. case_decide as E; [rewrite elem_of_app, list_elem_of_singleton|]; naive_solver.
    + intros key i. rewrite H2, at_pushes. setoid_rewrite located_cons. naive_solver.
    + intros id i. rewrite H3, lookup_insert_Some. setoid_rewrite located_cons. split.
      * intros [[[<- <-]|[Hne Hl]]|(t & Ht & Hid)]; [right; exists s; split; [by left|done]|by left|right; exists t; split; [by right|done]].
      * intros [Hl|(t & [[-> ->]|Ht] & Hid)]; [left; right; split; [congruence|done]|left; by left|right; by exists t].
    + simpl. constructor; [|done]. intros Hin. apply list_elem_of_In, in_map_iff in Hin as (t & Et & Ht). apply list_elem_of_In in Ht.
      specialize (H5 t Ht). rewrite Et, lookup_insert_eq in H5. done.
    + intros t [->|Ht]%elem_of_cons; [done|]. specialize (H5 t Ht). by apply lookup_insert_None in H5 as [? _].
Qed.

(** ** The order of a route *)
Section order.
Context (plan : CompiledHotPathRuntimePlan) (Hids : NoDup (map sp_strategy_id plan)).

Definition before (i j : nat) : Prop := by_id plan i j /\ i <> j.

Lemma id_inj i j : is_Some (plan !! i) -> is_Some (plan !! j) -> id_at plan i = id_at plan j -> i = j.
Proof.
  intros [s Hs] [t Ht]. unfold id_at. rewrite Hs, Ht. simpl. intros E. rewrite NoDup_alt in Hids. apply (Hids i j (sp_strategy_id s)).
  - rewrite list_lookup_fmap, Hs. done.
  - rewrite list_lookup_fmap, Ht, E. done.
Qed.

Lemma elem_of_dedup l i : i ∈ dedup l <-> i ∈ l.
Proof.
  induction l as [|x l IH]; [done|]. simpl. rewrite elem_of_cons, <- IH. destruct (dedup l) as [|y r]; [by rewrite elem_of_cons|].
  destruct (Nat.eqb_spec x y) as [->|Hne]; rewrite !elem_of_cons; tauto.
Qed.

#[local] Instance by_id_trans : Transitive (by_id plan).
Proof. intros i j k. unfold by_id. apply transitivity. Qed.
#[local] Instance by_id_total : Total (by_id plan).
Proof. intros i j. unfold by_id. apply total; apply _. Qed.

Lemma dedup_sorted l : (forall i, i ∈ l -> is_Some (plan !! i)) -> StronglySorted (by_id plan) l -> StronglySorted before (dedup l).
Proof.
  intros Hv Hs. induction Hs as [|x l Hs IH Hx]; [constructor|]. specialize (IH ltac:(intros i Hi; apply Hv; by right)). simpl.
  destruct (dedup l) as [|y r] eqn:E; [by repeat constructor|].
  assert (Hin : forall z, z ∈ y :: r -> z ∈ l) by (intros z; rewrite <- E; apply elem_of_dedup).
  destruct (Nat.eqb_spec x y) as [->|Hne]; [done|]. constructor; [done|]. rewrite Forall_forall in Hx |- *. intros z Hz.
  split; [by apply Hx, Hin|]. intros ->. apply elem_of_cons in Hz as [->|Hz]; [done|]. apply StronglySorted_inv in IH as [_ Hy].
  rewrite Forall_forall in Hy. destruct (Hy _ Hz) as [Hyz _]. apply Hne. apply id_inj.
  - apply Hv. by left.
  - apply Hv. right. apply Hin. by left.
  - assert (Hxy : by_id plan z y) by (apply Hx, Hin; by left). unfold by_id in *. by apply (anti_symm String.le).
Qed.

Lemma ordered_spec l : (forall i, i ∈ l -> is_Some (plan !! i)) ->
  StronglySorted before (ordered plan l) /\ (forall i, i ∈ ordered plan l <-> i ∈ l).
Proof.
  intros Hv. unfold ordered. split.
  - apply dedup_sorted; [|apply StronglySorted_merge_sort; apply _]. intros i. rewrite merge_sort_Permutation. apply Hv.
  - intros i. rewrite elem_of_dedup. by rewrite merge_sort_Permutation.
Qed.

Lemma before_nodup l : StronglySorted before l -> NoDup l.
Proof.
  induction 1 as [|x l _ IH Hx]; constructor; [|done]. intros Hin. rewrite Forall_forall in Hx. by destruct (Hx _ Hin).
Qed.
End order.

(** Routing is exact: a symbol and a pool lead to the strategies that declare
    them, each once, in the order of their identifiers. *)
Theorem routing_exact plan x : new_index plan = Ok x ->
  ix_plan x = plan /\ NoDup (map sp_strategy_id plan) /\
  (forall id s, strategy x id = Ok s <-> s ∈ plan /\ sp_strategy_id s = id) /\
  (forall symbol, StronglySorted (before plan) (symbol_indices x symbol) /\
     forall i, i ∈ symbol_indices x symbol <-> exists s, plan !! i = Some s /\ sp_symbol s = symbol) /\
  (forall pool, StronglySorted (before plan) (for_pool x pool) /\
     forall i, i ∈ for_pool x pool <-> exists s, plan !! i = Some s /\ pool ∈ sp_pool_ids s).
Proof.
  unfold new_index. intros Hx. res_inv. destruct x1 as [[bs bp] bi]. injection Hx as <-.
  apply index_plan_Ok in Hok0 as (H1 & H2 & H3 & H4 & _).
  assert (Hloc : forall i s, located 0 plan i s <-> plan !! i = Some s) by (intros i s; unfold located; rewrite Nat.sub_0_r; split; [by intros [_ ?]|split; [lia|done]]).
  assert (Hlist : forall (m : gmap string (list nat)) key, default [] ((ordered plan <$> m) !! key) = ordered plan (at_key m key)).
  { intros m key. unfold at_key. rewrite lookup_fmap. by destruct (m !! key). }
  assert (Hroute : forall (m : gmap string (list nat)) (declares : string -> CompiledHotPathStrategyPlan -> Prop),
    (forall key i, i ∈ at_key m key <-> exists s, plan !! i = Some s /\ declares key s) -> forall key,
    StronglySorted (before plan) (ordered plan (at_key m key)) /\ forall i, i ∈ ordered plan (at_key m key) <-> exists s, plan !! i = Some s /\ declares key s).
  { intros m declares Hm key. destruct (ordered_spec plan H4 (at_key m key)) as [Hs He]; [intros i Hi; apply Hm in Hi as (s & Hs & _); by exists s|].
    split; [done|]. intros i. by rewrite He. }
  split_and!; try done.
  - intros id s. unfold strategy. simpl. rewrite or_err_Ok, bind_Some. split.
    + intros (i & Hi & Hs). apply H3 in Hi as [Hi|(t & Ht & Hid)]; [by rewrite lookup_empty in Hi|]. apply Hloc in Ht. split; [by eapply list_elem_of_lookup_2|congruence].
    + intros [Hin Hid]. apply list_elem_of_lookup in Hin as [i Hi]. exists i. split; [|done]. apply H3. right. exists s. by rewrite Hloc.
  - intros symbol. unfold symbol_indices. simpl. rewrite Hlist. apply (Hroute bs (fun key s => sp_symbol s = key)).
    intros key i. rewrite H1. unfold at_key at 1. rewrite lookup_empty. simpl. rewrite elem_of_nil. setoid_rewrite Hloc. naive_solver.
  - intros pool. unfold for_pool. simpl. rewrite Hlist. apply (Hroute bp (fun key s => key ∈ sp_pool_ids s)).
    intros key i. rewrite H2. unfold at_key at 1. rewrite lookup_empty. simpl. rewrite elem_of_nil. setoid_rewrite Hloc. naive_solver.
Qed.

(** ** Isolation of the primary *)
Section isolation.
Context {P Q : Type} `{StrategyEvaluator P} `{StrategyEvaluator Q}.
Implicit Types o : HotPathDecisionOwner P Q.

(** Calls on the owner; the primary is also used directly, through [DerefMut]. *)
Inductive OwnerOp :=
  | OpMarket (clock : string -> Clock) (event : MarketEvent) (depth : option SpotDepthBook)
  | OpPrimary (f : P -> P)
  | OpDex (clock : Clock) (id : string) (event : DexStreamEvent)
  | OpStartupDex (clock : Clock) (id : string) (event : DexStreamEvent)
  | OpDegrade (id dependency : string) (error : ClmmError)
  | OpTakeFaults
  | OpTakeJob
  | OpSizingResult (result : ShadowSizingTaskResult).

(** Only the verdict of a market event matters here. *)
Definition verdict {A} (r : CRes A) : CRes unit := rmap (fun _ => tt) r.
Definition owner_step o (op : OwnerOp) : HotPathDecisionOwner P Q * list (CRes unit) :=
  match op with
  | OpMarket clock event depth => let '(o', r) := owner_on_market_event clock event depth o in (o', [verdict r])
  | OpPrimary f => (set_primary o (f (ow_primary o)), [])
  | OpDex clock id event => ((on_shadow_dex_event clock id event o).1, [])
  | OpStartupDex clock id event => ((on_shadow_startup_dex_event clock id event o).1, [])
  | OpDegrade id dependency error => ((degrade_shadow_strategy id dependency error o).1, [])
  | OpTakeFaults => ((take_dependency_faults o).1, [])
  | OpTakeJob => ((take_next_shadow_sizing_job o).1, [])
  | OpSizingResult result => ((on_shadow_sizing_result result o).1, [])
  end.
Fixpoint owner_runs o (ops : list OwnerOp) : HotPathDecisionOwner P Q * list (CRes unit) :=
  match ops with
  | [] => (o, [])
  | op :: ops' => let '(o1, rs1) := owner_step o op in let '(o2, rs2) := owner_runs o1 ops' in (o2, rs1 ++ rs2)
  end.

(** The primary alone: it sees the market events of its routes. *)
Definition routes_primary (x : CompiledStrategyDependencyIndex) (id symbol : string) : bool :=
  existsb (fun i => bool_decide (id_at (ix_plan x) i = id)) (symbol_indices x symbol).
Definition alone_step (x : CompiledStrategyDependencyIndex) (id : string) (p : P) (op : OwnerOp) : P * list (CRes unit) :=
  match op with
  | OpMarket clock event depth =>
      if routes_primary x id (event_symbol event) then let '(p', r) := se_on_market_event (clock id) event depth p in (p', [verdict r])
      else (p, [Ok tt])
  | OpPrimary f => (f p, [])
  | _ => (p, [])
  end.
Fixpoint alone_runs (x : CompiledStrategyDependencyIndex) (id : string) (p : P) (ops : list OwnerOp) : P * list (CRes unit) :=
  match ops with
  | [] => (p, [])
  | op :: ops' => let '(p1, rs1) := alone_step x id p op in let '(p2, rs2) := alone_runs x id p1 ops' in (p2, rs1 ++ rs2)
  end.

(** A strategy of the plan the event is routed to has no evaluator in the owner. *)
Definition missing o (event : MarketEvent) : Prop :=
  exists i s, i ∈ symbol_indices (ow_dependencies o) (event_symbol event) /\ ix_plan (ow_dependencies o) !! i = Some s /\
    sp_strategy_id s <> ow_primary_strategy_id o /\ ~ is_Some (ow_shadows o !! sp_strategy_id s).

(** The primary among others: it goes its own way, except that an event which
    misses an evaluator fails, after the primary was called for it or before. *)
Inductive follows (lost : MarketEvent -> Prop) (x : CompiledStrategyDependencyIndex) (id : string)
    : P -> list OwnerOp -> P -> list (CRes unit) -> Prop :=
  | follows_nil p : follows lost x id p [] p []
  | follows_alone p op p1 rs1 ops p2 rs2 :
      alone_step x id p op = (p1, rs1) -> follows lost x id p1 ops p2 rs2 -> follows lost x id p (op :: ops) p2 (rs1 ++ rs2)
  | follows_lost p clock event depth p1 m ops p2 rs2 :
      lost event -> p1 = p \/ p1 = (alone_step x id p (OpMarket clock event depth)).1 ->
      follows lost x id p1 ops p2 rs2 -> follows lost x id p (OpMarket clock event depth :: ops) p2 (Err m :: rs2).

(** Every shadow a market event is routed to has an evaluator. *)
Definition routable o (event : MarketEvent) : Prop :=
  forall i s, i ∈ symbol_indices (ow_dependencies o) (event_symbol event) -> ix_plan (ow_dependencies o) !! i = Some s ->
  sp_strategy_id s <> ow_primary_strategy_id o -> is_Some (ow_shadows o !! sp_strategy_id s).
Definition op_routable o (op : OwnerOp) : Prop := match op with OpMarket _ event _ => routable o event | _ => True end.

(** What no call changes, and what shadow calls do not. *)
Record same_frame o o' : Prop := {
  sf_id : ow_primary_strategy_id o' = ow_primary_strategy_id o;
  sf_dependencies : ow_dependencies o' = ow_dependencies o;
  sf_shadows id : is_Some (ow_shadows o' !! id) <-> is_Some (ow_shadows o !! id);
}.
Lemma same_frame_refl o : same_frame o o.
Proof. by split. Qed.
Lemma same_frame_trans o1 o2 o3 : same_frame o1 o2 -> same_frame o2 o3 -> same_frame o1 o3.
Proof. intros [H1 H2 H3] [H4 H5 H6]. split; [congruence|congruence|]. intros id. by rewrite H6. Qed.

Lemma insert_shadow o id s s' : ow_shadows o !! id = Some s -> same_frame o (set_shadow o id s').
Proof.
  intros Hs. split; [done..|]. intros id'. simpl. destruct (decide (id = id')) as [->|Hne]; [rewrite lookup_insert_eq, Hs; naive_solver|by rewrite lookup_insert_ne].
Qed.

Definition by_shadow o o' : Prop := same_frame o o' /\ ow_primary o' = ow_primary o.
Lemma by_shadow_refl o : by_shadow o o.
Proof. split; [apply same_frame_refl|done]. Qed.
Lemma by_shadow_trans o1 o2 o3 : by_shadow o1 o2 -> by_shadow o2 o3 -> by_shadow o1 o3.
Proof. intros [H1 H2] [H3 H4]. split; [by eapply same_frame_trans|congruence]. Qed.

Lemma call_shadow_by {A} id missing (f : M Q ClmmError A) o :
  by_shadow o (call_shadow id missing f o).1 /\ (is_ok (call_shadow id missing f o).2 = true <-> is_Some (ow_shadows o !! id)).
Proof.
  unfold call_shadow. destruct (ow_shadows o !! id) as [s|] eqn:Es; [|split; [apply by_shadow_refl|split; [done|by intros [? ?]]]].
  destruct (f s) as [s' r]. simpl. split; [|naive_solver]. split; [by eapply insert_shadow|done].
Qed.
Lemma degrade_by o id fault : by_shadow o (degrade o id fault).
Proof. by split. Qed.
Lemma degrade_shadow_by id dependency error o : by_shadow o (degrade_shadow_strategy id dependency error o).1.
Proof.
  unfold degrade_shadow_strategy, mbind', mget, mlift, mput. destruct (bool_decide (id = _)); simpl; [apply by_shadow_refl|].
  destruct (strategy _ _); simpl; [|apply by_shadow_refl]. destruct (bool_decide _); [apply by_shadow_refl|apply degrade_by].
Qed.

Lemma shadow_dex_by id dependency f o : by_shadow o (shadow_dex_event id dependency f o).1.
Proof.
  unfold shadow_dex_event, mbind' at 1 2, mget, mlift. destruct (bool_decide (id = _)); simpl; [apply by_shadow_refl|].
  destruct (bool_decide _); [apply by_shadow_refl|]. unfold mbind' at 1. pose proof (proj1 (call_shadow_by id "shadow DEX route has no evaluator" f o)) as Hc.
  destruct (call_shadow _ _ _ _) as [o1 [[e|error]|m]]; simpl in *; [done| |done].
  unfold mbind'. pose proof (degrade_shadow_by id dependency error o1) as Hd. destruct (degrade_shadow_strategy _ _ _ _) as [o2 [u|m]]; simpl in *; by eapply by_shadow_trans.
Qed.

Lemma first_job_shadows entries (shadows : gmap string Q) : (forall id s, (id, s) ∈ entries -> is_Some (shadows !! id)) ->
  forall id, is_Some ((first_job entries shadows).1 !! id) <-> is_Some (shadows !! id).
Proof.
  revert shadows. induction entries as [|[id0 s0] entries IH]; intros shadows Hin id; [done|]. simpl. destruct (se_take_sizing_job s0) as [s' job].
  assert (Hone : forall id, is_Some (<[id0 := s']> shadows !! id) <-> is_Some (shadows !! id)).
  { intros id'. destruct (decide (id0 = id')) as [<-|Hne]; [rewrite lookup_insert_eq|by rewrite lookup_insert_ne].
    specialize (Hin id0 s0 ltac:(by left)). split; [done|]. intros _. by eexists. }
  destruct job; [apply Hone|]. rewrite IH; [apply Hone|]. intros id' s Hs. apply Hone. eapply Hin. by right.
Qed.

Lemma take_job_by o : by_shadow o (take_next_shadow_sizing_job o).1.
Proof.
  unfold take_next_shadow_sizing_job. pose proof (first_job_shadows (btree_entries (ow_shadows o)) (ow_shadows o)) as Hf.
  destruct (first_job _ _) as [shadows job]. simpl in *. split; [|done]. split; [done..|]. simpl. apply Hf.
  intros id s Hs. apply elem_of_btree_entries in Hs. by eexists.
Qed.
Lemma sizing_result_by result o : by_shadow o (on_shadow_sizing_result result o).1.
Proof.
  unfold on_shadow_sizing_result, mbind'. pose proof (proj1 (call_shadow_by (tr_strategy_id result) "shadow sizing result has no evaluator" (se_on_sizing_result result) o)) as Hc.
  by destruct (call_shadow _ _ _ _) as [o1 [r|m]].
Qed.

(** ** A market event *)
Section market.
Context (clock : string -> Clock) (event : MarketEvent) (depth : option SpotDepthBook).

Definition primary_called o : P * CRes StrategyEvaluation := se_on_market_event (clock (ow_primary_strategy_id o)) event depth (ow_primary o).

(** What a call does to the primary, and its verdict, when the primary is or is
    not among those called. *)
Definition served (called : bool) o o' {A} (r : CRes A) : Prop :=
  same_frame o o' /\
  if called then ow_primary o' = (primary_called o).1 /\ verdict r = verdict (primary_called o).2
  else ow_primary o' = ow_primary o /\ verdict r = Ok tt.

Lemma route_eq i s o : ix_plan (ow_dependencies o) !! i = Some s ->
  route clock event depth i o =
    let id := sp_strategy_id s in
    if bool_decide (id = ow_primary_strategy_id o) then
      let '(p', r) := se_on_market_event (clock id) event depth (ow_primary o) in (set_primary o p', rmap Some r)
    else if bool_decide (id ∈ ow_degraded_shadows o) then (o, Ok None)
    else match call_shadow id "compiled shadow route has no evaluator" (se_on_market_event (clock id) event None) o with
         | (o1, Ok (Ok e)) => (o1, Ok (Some e))
         | (o1, Ok (Err m)) => (degrade o1 id (mkFault id (sp_network_id s) (sp_symbol s) "strategy_evaluator" m), Ok None)
         | (o1, Err m) => (o1, Err m)
         end.
Proof.
  intros Hs. unfold route, strategy_at, mbind' at 1 2, mget, mlift. rewrite Hs. simpl. case_bool_decide.
  - unfold mbind', on_primary. by destruct (se_on_market_event _ _ _ _) as [p' [e|m]].
  - case_bool_decide; [done|]. unfold mbind'. by destruct (call_shadow _ _ _ o) as [o1 [[e|m]|m]].
Qed.

(** A strategy without an evaluator stops the event before it is called. *)
Definition unrouted o i : Prop :=
  exists s, ix_plan (ow_dependencies o) !! i = Some s /\ sp_strategy_id s <> ow_primary_strategy_id o /\ ~ is_Some (ow_shadows o !! sp_strategy_id s).

Lemma route_step i s o : ix_plan (ow_dependencies o) !! i = Some s ->
  served (bool_decide (sp_strategy_id s = ow_primary_strategy_id o)) o (route clock event depth i o).1 (route clock event depth i o).2 \/
  (unrouted o i /\ exists m, route clock event depth i o = (o, Err m)).
Proof.
  intros Hs. rewrite (route_eq i s o Hs). unfold served, primary_called. cbv zeta. case_bool_decide as Eid.
  - left. rewrite Eid. destruct (se_on_market_event _ _ _ _) as [p' [e|m]]; (split; [by split|done]).
  - case_bool_decide as Ed; [left; split; [apply same_frame_refl|done]|].
    destruct (ow_shadows o !! sp_strategy_id s) as [q|] eqn:Esh.
    + left. destruct (call_shadow_by (sp_strategy_id s) "compiled shadow route has no evaluator" (se_on_market_event (clock (sp_strategy_id s)) event None) o) as [[Hf Hp] Hok].
      rewrite Esh in Hok. destruct (call_shadow _ _ _ o) as [o1 [[e|m]|m]]; simpl in *; [done| |by pose proof (proj2 Hok (ex_intro _ q eq_refl))].
      destruct (degrade_by o1 (sp_strategy_id s) (mkFault (sp_strategy_id s) (sp_network_id s) (sp_symbol s) "strategy_evaluator" m)) as [Hd Hp'].
      split; [by eapply same_frame_trans|]. by split.
    + right. split; [exists s; rewrite Esh; split_and!; [done..|by intros [? ?]]|]. unfold call_shadow. rewrite Esh. by eexists.
Qed.

Definition calls_primary o (indices : list nat) : bool := existsb (fun i => bool_decide (id_at (ix_plan (ow_dependencies o)) i = ow_primary_strategy_id o)) indices.
Arguments calls_primary : simpl never.
Record routes_ok o (indices : list nat) : Prop := {
  rk_nodup : NoDup (map (id_at (ix_plan (ow_dependencies o))) indices);
  rk_known i : i ∈ indices -> exists s, ix_plan (ow_dependencies o) !! i = Some s;
}.

Lemma routes_ok_frame o o' indices : same_frame o o' -> routes_ok o indices -> routes_ok o' indices.
Proof. intros [E1 E2 E3] [Hn Hs]. split; [by rewrite E2|]. intros i Hi. rewrite E2. by apply Hs. Qed.
Lemma unrouted_frame o o' i : same_frame o o' -> unrouted o' i -> unrouted o i.
Proof. intros [E1 E2 E3] (s & Hs & Hne & Hm). exists s. rewrite E2 in Hs. rewrite E1 in Hne. rewrite E3 in Hm. done. Qed.
Lemma calls_frame o o' indices : same_frame o o' -> calls_primary o' indices = calls_primary o indices.
Proof. intros [E1 E2 _]. unfold calls_primary. by rewrite E1, E2. Qed.

(** An event that stops at a strategy without an evaluator. *)
Definition stopped o o' (indices : list nat) {A} (r : CRes A) : Prop :=
  same_frame o o' /\ (exists i, i ∈ indices /\ unrouted o i) /\ (exists m, r = Err m) /\
  (ow_primary o' = ow_primary o \/ calls_primary o indices = true /\ ow_primary o' = (primary_called o).1).

Lemma route_all_step indices summary o : routes_ok o indices ->
  served (calls_primary o indices) o (route_all clock event depth indices summary o).1 (route_all clock event depth indices summary o).2 \/
  stopped o (route_all clock event depth indices summary o).1 indices (route_all clock event depth indices summary o).2.
Proof.
  revert summary o. induction indices as [|i indices IH]; intros summary o Hr; simpl; [left; split; [apply same_frame_refl|done]|].
  destruct (rk_known _ _ Hr i ltac:(by left)) as (s & Hs).
  assert (Hid : id_at (ix_plan (ow_dependencies o)) i = sp_strategy_id s) by (unfold id_at; by rewrite Hs).
  assert (Hrest : routes_ok o indices).
  { destruct Hr as [Hn Hk]. apply NoDup_cons in Hn as [_ Hn]. split; [done|]. intros j Hj. apply Hk. by right. }
  destruct (route_step i s o Hs) as [[Hf1 H1]|(Hm & m & Em)].
  2:{ right. unfold mbind'. rewrite Em. split; [apply same_frame_refl|]. split; [exists i; split; [by left|done]|]. split; [by eexists|by left]. }
  unfold mbind'. destruct (route clock event depth i o) as [o1 r1]. simpl in *. apply (routes_ok_frame _ _ _ Hf1) in Hrest as Hr1.
  assert (Hcalls : calls_primary o (i :: indices) = bool_decide (sp_strategy_id s = ow_primary_strategy_id o) || calls_primary o indices)
    by (unfold calls_primary; simpl; by rewrite Hid).
  destruct r1 as [e|m].
  2:{ left. split; [done|]. rewrite Hcalls. case_bool_decide; [done|]. by destruct H1. }
  pose proof (calls_frame _ _ indices Hf1) as Hc. pose proof (IH (match e with Some e => summarize summary e | None => summary end) o1 Hr1) as IHs.
  destruct (route_all clock event depth indices _ o1) as [o2 r2]. simpl in *. rewrite Hcalls. case_bool_decide as Eid; simpl in H1 |- *.
  - assert (Hno : calls_primary o indices = false).
    { unfold calls_primary. apply not_true_is_false. intros Hin. apply existsb_exists in Hin as (j & Hj & Ej). bool_prop.
      destruct Hr as [Hn _]. simpl in Hn. apply NoDup_cons in Hn as [Hn _]. apply Hn. apply list_elem_of_In, in_map_iff. exists j. split; [congruence|done]. }
    rewrite Hc, Hno in IHs. destruct H1 as [Hp1 Hv1]. destruct IHs as [[Hf2 [Hp2 Hv2]]|(Hf2 & (j & Hj & Hm) & Hr2 & Hp2)].
    + left. split; [by eapply same_frame_trans|]. split; [congruence|]. by rewrite Hv2.
    + right. split; [by eapply same_frame_trans|]. split; [exists j; split; [by right|by eapply unrouted_frame]|]. split; [done|].
      right. split; [by rewrite Hcalls, ?bool_decide_eq_true_2 by done|]. destruct Hp2 as [Hp2|[Hx _]]; [congruence|]. rewrite Hc, Hno in Hx. done.
  - destruct H1 as [Hp1 _]. assert (Hpc : primary_called o1 = primary_called o) by (unfold primary_called; by rewrite (sf_id _ _ Hf1), Hp1).
    rewrite Hc in IHs. destruct IHs as [[Hf2 H2]|(Hf2 & (j & Hj & Hm) & Hr2 & Hp2)].
    + left. split; [by eapply same_frame_trans|]. rewrite Hpc, Hp1 in H2. by destruct (calls_primary o indices).
    + right. split; [by eapply same_frame_trans|]. split; [exists j; split; [by right|by eapply unrouted_frame]|]. split; [done|].
      rewrite Hc, Hpc, Hp1 in Hp2. rewrite Hcalls, ?bool_decide_eq_false_2 by done. exact Hp2.
Qed.

Lemma market_step o : let indices := symbol_indices (ow_dependencies o) (event_symbol event) in routes_ok o indices ->
  served (calls_primary o indices) o (owner_on_market_event clock event depth o).1 (owner_on_market_event clock event depth o).2 \/
  stopped o (owner_on_market_event clock event depth o).1 indices (owner_on_market_event clock event depth o).2.
Proof.
  intros indices. subst indices. intros Hr. unfold owner_on_market_event, mbind', mget.
  destruct (symbol_indices (ow_dependencies o) (event_symbol event)) as [|i [|j indices]] eqn:Ei; try by apply route_all_step.
  destruct (rk_known _ _ Hr i ltac:(by left)) as (s & Hs).
  assert (Hid : id_at (ix_plan (ow_dependencies o)) i = sp_strategy_id s) by (unfold id_at; by rewrite Hs).
  destruct (route_step i s o Hs) as [[Hf1 H1]|(Hm & m & Em)].
  - left. unfold calls_primary. simpl. rewrite Hid, orb_false_r. unfold mbind'. destruct (route clock event depth i o) as [o1 [e|m]]; simpl in *; (split; [done|]); by case_bool_decide.
  - right. unfold mbind'. rewrite Em. split; [apply same_frame_refl|]. split; [exists i; split; [by left|done]|]. split; [by eexists|by left].
Qed.
End market.

(** ** Runs *)
Definition indexed (x : CompiledStrategyDependencyIndex) o : Prop := ow_dependencies o = x /\ exists plan, new_index plan = Ok x.

Lemma index_routes x o symbol : indexed x o -> routes_ok o (symbol_indices (ow_dependencies o) symbol).
Proof.
  intros [Hx [plan Hp]]. subst x. destruct (routing_exact plan _ Hp) as (Hplan & Hids & _ & Hsym & _). destruct (Hsym symbol) as [Hsorted Hin].
  split.
  - rewrite Hplan. apply NoDup_alt. intros a b id Ha Hb. rewrite list_lookup_fmap in Ha, Hb.
    apply fmap_Some in Ha as (i & Hi & Ei), Hb as (j & Hj & Ej). apply before_nodup in Hsorted. rewrite NoDup_alt in Hsorted. apply (Hsorted a b i Hi).
    rewrite Hj. f_equal. apply list_elem_of_lookup_2, Hin in Hi as (s & Hs & _). apply list_elem_of_lookup_2, Hin in Hj as (t & Ht & _).
    symmetry. apply (id_inj plan Hids); [by exists s|by exists t|congruence].
  - intros i Hi. apply Hin in Hi as (s & Hs & _). exists s. by rewrite Hplan.
Qed.

(** One step: the primary's own, or an event that misses an evaluator. *)
Definition lost_step x o (op : OwnerOp) : Prop :=
  exists clock event depth m, op = OpMarket clock event depth /\ missing o event /\ (owner_step o op).2 = [Err m] /\
    (ow_primary (owner_step o op).1 = ow_primary o \/
     ow_primary (owner_step o op).1 = (alone_step x (ow_primary_strategy_id o) (ow_primary o) op).1).

Lemma step_alone x o op : indexed x o ->
  same_frame o (owner_step o op).1 /\
  ((ow_primary (owner_step o op).1, (owner_step o op).2) = alone_step x (ow_primary_strategy_id o) (ow_primary o) op \/ lost_step x o op).
Proof.
  intros Hx. assert (Hby : forall o' q, by_shadow o o' -> same_frame o o' /\ ((ow_primary o', @nil (CRes unit)) = (ow_primary o, []) \/ q)).
  { intros o' q [Hf ->]. split; [done|by left]. }
  destruct op as [clock event depth|f|clock id event|clock id event|id dependency error| | |result].
  - destruct (market_step clock event depth o (index_routes x o (event_symbol event) Hx)) as [[Hf Hs]|(Hf & (i & Hi & s & Hs & Hne & Hm) & (m & Hr) & Hp)].
    + destruct Hx as [<- _]. unfold calls_primary in Hs. cbn [owner_step alone_step]. unfold routes_primary.
      destruct (owner_on_market_event clock event depth o) as [o' r]. simpl in *. split; [done|]. left. destruct (existsb _ _); [|by destruct Hs as [-> ->]].
      unfold primary_called in Hs. destruct (se_on_market_event _ _ _ _) as [p' rp]. simpl in Hs. by destruct Hs as [-> ->].
    + unfold lost_step. cbn [owner_step alone_step]. destruct (owner_on_market_event clock event depth o) as [o' r]. simpl in *. split; [done|]. right.
      exists clock, event, depth, m. split; [done|]. split; [by exists i, s|]. split; [by rewrite Hr|].
      destruct Hp as [Hp|[Hc Hp]]; [by left|right]. destruct Hx as [<- _]. unfold routes_primary. unfold calls_primary in Hc. rewrite Hc. unfold primary_called in Hp.
      by destruct (se_on_market_event _ _ _ _).
  - simpl. split; [by split|by left].
  - apply Hby, shadow_dex_by.
  - apply Hby, shadow_dex_by.
  - apply Hby, degrade_shadow_by.
  - apply Hby. by split.
  - apply Hby, take_job_by.
  - apply Hby, sizing_result_by.
Qed.

Lemma missing_frame o o' event : same_frame o o' -> missing o' event -> missing o event.
Proof.
  intros [E1 E2 E3] (i & s & Hi & Hs & Hne & Hm). exists i, s. rewrite E2 in Hi, Hs. rewrite E1 in Hne. rewrite E3 in Hm. done.
Qed.
Lemma routable_not_missing o event : routable o event -> ~ missing o event.
Proof. intros Hr (i & s & Hi & Hs & Hne & Hm). apply Hm. by apply (Hr i s). Qed.

Lemma follows_weaken (lost lost' : MarketEvent -> Prop) x id p ops p' rs :
  (forall event, lost event -> lost' event) -> follows lost x id p ops p' rs -> follows lost' x id p ops p' rs.
Proof.
  intros Hl. induction 1 as [|p op p1 rs1 ops p2 rs2 Ha _ IH|p clock event depth p1 m ops p2 rs2 Hlost Hp _ IH];
    [constructor|by eapply follows_alone|eapply follows_lost; eauto].
Qed.

(** Without lost events, it is the run alone. *)
Lemma follows_alone_runs lost x id p ops p' rs :
  follows lost x id p ops p' rs -> Forall (fun op => match op with OpMarket _ event _ => ~ lost event | _ => True end) ops ->
  (p', rs) = alone_runs x id p ops.
Proof.
  induction 1 as [|p op p1 rs1 ops p2 rs2 Ha _ IH|p clock event depth p1 m ops p2 rs2 Hlost Hp _ IH]; intros Hall; [done| |];
    apply Forall_cons in Hall as [Hop Hall]; [|done]. simpl. rewrite Ha. by rewrite <- IH.
Qed.

Lemma owner_follows x o ops : indexed x o ->
  follows (missing o) x (ow_primary_strategy_id o) (ow_primary o) ops (ow_primary (owner_runs o ops).1) (owner_runs o ops).2.
Proof.
  revert o. induction ops as [|op ops IH]; intros o Hx; [constructor|]. simpl.
  destruct (step_alone x o op Hx) as [Hf Hs].
  assert (Hx1 : indexed x (owner_step o op).1) by (destruct Hx as [<- Hp]; split; [by apply sf_dependencies|done]).
  specialize (IH _ Hx1). rewrite (sf_id _ _ Hf) in IH. apply (follows_weaken _ (missing o)) in IH; [|intros event; by apply missing_frame].
  destruct Hs as [Hs|(clock & event & depth & m & -> & Hm & Hr & Hp)].
  - destruct (owner_step o op) as [o1 rs1]. simpl in *. destruct (owner_runs o1 ops) as [o2 rs2]. simpl in *. by eapply follows_alone.
  - destruct (owner_step o _) as [o1 rs1]. simpl in *. destruct (owner_runs o1 ops) as [o2 rs2]. simpl in *. subst rs1.
    by eapply (follows_lost _ _ _ _ clock event depth).
Qed.

(** C31. the executing strategy is isolated from the shadows: whatever the shadow
    evaluators are, answer and fail at, and whenever they are degraded, asked for
    jobs or handed results, every call leaves the primary where it would be alone:
    called once for each market event of its symbols with the depth book, the event
    failing exactly when the primary fails on it.  The one exception is an event of a
    symbol for which the plan lists a strategy the owner has no evaluator for (an
    externally routed observer): it may fail on that account, with the primary called
    or not.  When there is no such event, the run is exactly the primary's own. *)
Theorem primary_isolated x o ops :
  indexed x o ->
  follows (missing o) x (ow_primary_strategy_id o) (ow_primary o) ops (ow_primary (owner_runs o ops).1) (owner_runs o ops).2 /\
  (Forall (op_routable o) ops ->
   (ow_primary (owner_runs o ops).1, (owner_runs o ops).2) = alone_runs x (ow_primary_strategy_id o) (ow_primary o) ops).
Proof.
  intros Hx. split; [by apply owner_follows|]. intros Hr. eapply follows_alone_runs; [by apply owner_follows|].
  eapply Forall_impl; [exact Hr|]. intros [clock event depth| | | | | | |]; simpl; try done. apply routable_not_missing.
Qed.

(** An owner whose plan has one executing strategy and only observing others
    routes every event. *)
Lemma index_shadows_keys (x : CompiledStrategyDependencyIndex) shadows (m m' : gmap string Q) : index_shadows x shadows m = Ok m' -> forall id, is_Some (m !! id) -> is_Some (m' !! id).
Proof.
  revert m. induction shadows as [|s shadows IH]; intros m Hm id Hid; simpl in Hm; [by injection Hm as <-|]. res_inv. apply (IH _ Hm).
  destruct (decide (se_strategy_id s = id)) as [<-|Hne]; [rewrite lookup_insert_eq; by eexists|by rewrite lookup_insert_ne].
Qed.

Theorem new_owner_routes plan x primary shadows o event :
  new_index plan = Ok x -> new_owner primary shadows x = Ok o ->
  Forall (fun s => sp_strategy_id s <> se_strategy_id primary -> sp_observe s = true /\ sp_execute s = false) plan ->
  indexed x o /\ routable o event /\ ow_primary o = primary.
Proof.
  intros Hx Ho Hplan. unfold new_owner, new_with_externally_routed_observers in Ho. res_inv. simpl in *. res_inv.
  pose proof (routing_exact plan x Hx) as (Ep & _).
  split; [split; [done|by exists plan]|]. split; [|done]. intros i s _ Hs Hne. simpl in *. rewrite Ep in Hs. apply list_elem_of_lookup_2 in Hs as Hin.
  match goal with E : forallb _ _ = true |- _ => rename E into Hall end. rewrite forallb_forall, Ep in Hall. rewrite Forall_forall in Hplan.
  destruct (Hplan s Hin Hne) as [Hobs Hexe]. specialize (Hall s ltac:(by apply list_elem_of_In)). rewrite Hobs, Hexe in Hall. simpl in Hall.
  apply orb_true_iff in Hall as [Hall|Hall]; bool_prop; [done|]. by apply elem_of_empty in Hall.
Qed.
End isolation.
#[global] Arguments OwnerOp P : clear implicits.
