(* ===== verification/StrategyDemo.v ===== *)
(** * Concrete strategies

    A scheduler of three strategies with one worker, a sizing job on the engine of
    [SearchDemo], an owner with a shadow that fails, and one whose externally routed
    observer shares the symbol of its primary. *)
From Stdlib Require Import Lia.
From stdpp Require Import base gmap strings numbers option fin_maps sorting list.
From S2P Require Import Prelude ExecutionPlan Decimals Depth Clmm ClmmCurve ClmmPools UniswapFormula TradeData RuntimeState Preflight MarketViews Pricing OpportunitySearch FeeProjection HydratedPools PreparedPools SearchDemo PlanBuild Events EventFacts Mirror EngineDex EngineDemo Sizing SizingFacts ShadowStrategy StrategyRuntime ShadowFacts StrategyFacts.

(** ** The scheduler *)
Definition fair0 : FairLatestOnlySizingScheduler nat := match new_fair ["wld"; "arb"; "esp"]%string 1 with Ok f => f | Err _ => mkFair [] ∅ [] 0 0 0 end.
Lemma fair_created : new_fair ["wld"; "arb"; "esp"]%string 1 = Ok fair0.
Proof. vm_compute. reflexivity. Qed.

Definition burst : list (@SizingOp nat) :=
  [OpSubmit "wld" 1; OpSubmit "arb" 2; OpTake; OpSubmit "arb" 3; OpSubmit "wld" 4; OpTake; OpComplete "arb"; OpSubmit "arb" 5; OpTake]%string%nat.
Example burst_answers : (fair_runs fair0 burst).2 =
  [Ok (Submitted (mkFairSubmission false false)); Ok (Submitted (mkFairSubmission false false)); Ok (Taken (Some ("arb"%string, 2%nat)));
   Ok (Submitted (mkFairSubmission false true)); Ok (Submitted (mkFairSubmission true false)); Ok (Taken None); Ok Completed;
   Ok (Submitted (mkFairSubmission true false)); Ok (Taken (Some ("wld"%string, 4%nat)))].
Proof. vm_compute. reflexivity. Qed.

Lemma fair_scheduler_refines_table_witness :
  exists answers t, table_run 1 (idle_table ["arb"; "esp"; "wld"]%string) burst answers t /\ t !! "wld"%string = Some (true, None) /\ running_in t = 1%nat.
Proof.
  pose proof (fair_scheduler_refines_table ["wld"; "arb"; "esp"]%string 1 fair0 burst fair_created) as Hr.
  destruct (fair_runs fair0 burst) as [f answers] eqn:E. destruct Hr as (Hrun & Hcount & _). exists answers, (table_of f).
  assert (Ef : f = (fair_runs fair0 burst).1) by (rewrite E; reflexivity). split; [exact Hrun|]. rewrite <- Hcount, Ef. split; vm_compute; reflexivity.
Defined.

(** "wld" waits at distance two while "arb" is served. *)
Definition fair2 : FairLatestOnlySizingScheduler nat := (fair_runs fair0 [OpSubmit "wld" 1; OpSubmit "arb" 2]%string%nat).1.
Lemma fair2_ok : fair_ok fair2.
Proof. exact (proj1 (runs_meet fair0 _ (new_fair_ok _ _ _ fair_created))). Qed.
Lemma sizing_not_overtaken_witness :
  let '(f, answers) := fair_runs fair2 [OpTake; OpSubmit "arb" 3; OpComplete "arb"]%string%nat in
  (count_of (starts_other "wld") answers + distance f 2 <= 2)%nat /\ exists k s, (take_ready f).2 = Ok (Some (k, s)).
Proof.
  assert (Hw : waiting fair2 2) by (exists 1%nat; vm_compute; reflexivity).
  pose proof (sizing_not_overtaken fair2 [OpTake; OpSubmit "arb" 3; OpComplete "arb"]%string%nat 2 "wld" fair2_ok ltac:(vm_compute; reflexivity) Hw) as Ho.
  destruct (fair_runs fair2 _) as [f answers] eqn:E.
  assert (Ef : f = (fair_runs fair2 [OpTake; OpSubmit "arb" 3; OpComplete "arb"]%string%nat).1) by (rewrite E; reflexivity).
  assert (Ea : answers = (fair_runs fair2 [OpTake; OpSubmit "arb" 3; OpComplete "arb"]%string%nat).2) by (rewrite E; reflexivity).
  destruct Ho as (Hd & _ & s & _ & Htake); [rewrite Ea; vm_compute; repeat constructor|].
  assert (Hdist : distance fair2 2 = 2%nat) by (vm_compute; reflexivity). rewrite Hdist in Hd. split; [exact Hd|].
  destruct Htake as (k & s' & Ht & _); [rewrite Ef; vm_compute; lia|]. exists k, s'. exact Ht.
Defined.

(** ** Sizing *)
Definition sizing_evaluation : PairEvaluation := mkPairEvaluation 0 0 (mkDirection BuyTokenBOnDexSellOnCex 0 None) (mkDirection BuyTokenBOnCexSellOnDex 0 None) 0 0.
(** The pair of [SearchDemo] with a coarser lot. *)
Definition sizing_pair : PairRuntime :=
  mkPair "usdc-weth" 480 "WETHUSDC" "USDC" "WETH" 0 38 5 1 50 5000 10 10 1000000 2000000 (10 ^ 42) 100 200 [0%nat] [0%nat] [].
Definition sizing_engine : OpportunityEngine :=
  mkEngine [sizing_pair] (oe_pair_indices_by_symbol published) (oe_pair_index_by_pool published) (oe_pool_generations published) (oe_prepared_pools published)
    (oe_baseline_quote_cache published).
Definition sizing_job : ShadowSizingJob := mkJob "wld" sizing_engine search_quote sizing_evaluation (pool_generations sizing_engine).
Definition sizing_shadow : ShadowStrategyEvaluator := set_shadow_quote (new_shadow "wld" "WETHUSDC" 200 1000 1000 mirror0 sizing_engine) (Some search_quote).
Definition sizing_answer := shadow_on_sizing_result (run sizing_job) sizing_shadow.

(** The whole capacity, a hundred and seventy lots, still pays. *)
Example sizing_found : (fun c => (sc_direction c, te_token_b_amount (sc_trade c), te_dex_token_a (sc_trade c), te_cex_token_a (sc_trade c))) <$> sh_published sizing_answer.1 =
  [(BuyTokenBOnDexSellOnCex, 170 * 10 ^ 42, 1999531, 2040000)].
Proof. vm_compute. reflexivity. Qed.

Lemma sizing_published : shadow_on_sizing_result (run sizing_job) sizing_shadow = (sizing_answer.1, Ok ShadowPublished).
Proof. apply pair_result. change (sizing_answer.2 = Ok ShadowPublished). vm_compute. reflexivity. Qed.

Lemma sizing_capacities : capacities_small sizing_engine 0.
Proof.
  assert (Hcap : forall d, match exact_candidate_capacity sizing_engine 0 d 0 with Ok (Some c) => (0 <=? c) && (c <? 2 ^ 254) | _ => true end = true)
    by (intros d; destruct d; vm_compute; reflexivity).
  intros d i c Hc. assert (i = 0%nat) as ->.
  { unfold exact_candidate_capacity in Hc. apply rbind_Ok in Hc as (p & Hp & Hc). apply or_err_Ok in Hp. injection Hp as <-.
    apply rbind_Ok in Hc as (u & Hu & _). apply ensure_Ok, bool_decide_eq_true in Hu. by apply list_elem_of_singleton in Hu. }
  specialize (Hcap d). rewrite Hc in Hcap. bool_prop. by split.
Qed.

Lemma sized_candidate_sound_witness :
  exists c amount, sizing_answer.1 = sink_publish c sizing_shadow /\ pool_generation sizing_engine (te_pool_index (sc_trade c)) = Ok (sc_pool_generation c) /\
    te_token_b_amount (sc_trade c) = amount /\ te_meets_threshold (sc_trade c) = true.
Proof.
  destruct (sized_candidate_sound sizing_job sizing_shadow sizing_answer.1 sizing_capacities) as (c & p & capacity & steps & Hs & _ & Hrest).
  - intros p Hp. injection Hp as <-. vm_compute. split; reflexivity.
  - exact sizing_published.
  - destruct Hrest as (_ & Hg & _ & _ & Ha & Hm & _). exists c, (steps * pr_token_b_step p). split; [exact Hs|]. split; [exact Hg|]. split; [exact Ha|exact Hm].
Defined.

(** ** The owner *)
Definition demo_plan : list CompiledHotPathStrategyPlan :=
  [mkStrategyPlan "wld" "WETHUSDC" "eip155:480" ["pool-a"] true true; mkStrategyPlan "arb" "WETHUSDC" "eip155:42161" ["pool-b"] true false]%string.
Definition demo_index : CompiledStrategyDependencyIndex := match new_index demo_plan with Ok x => x | Err _ => mkIndex [] ∅ ∅ ∅ end.
Lemma demo_indexed : new_index demo_plan = Ok demo_index.
Proof. vm_compute. reflexivity. Qed.

#[local] Instance demo_evaluator : StrategyEvaluator ShadowStrategyEvaluator := shadow_evaluator demo_order.
Definition demo_primary : ShadowStrategyEvaluator := new_shadow "wld" "WETHUSDC" 200 1000 1000 mirror0 published.
Definition demo_shadow : ShadowStrategyEvaluator := new_shadow "arb" "WETHUSDC" 200 1000 1000 mirror0 empty_engine.
Definition demo_owner : HotPathDecisionOwner ShadowStrategyEvaluator ShadowStrategyEvaluator :=
  match new_owner demo_primary [demo_shadow] demo_index with Ok o => o | Err _ => mkOwner "" demo_primary ∅ ∅ [] demo_index end.
Lemma demo_owned : new_owner demo_primary [demo_shadow] demo_index = Ok demo_owner.
Proof. vm_compute. reflexivity. Qed.

(** A connection, a failing depth event for the shadow, and a quote. *)
Definition demo_ops : list (OwnerOp ShadowStrategyEvaluator) :=
  [OpMarket (fun _ => mkClock 1 5) (FeedConnected "WETHUSDC" 1 1) None; OpDegrade "arb" "network_ingestion" (CMsg "socket closed");
   OpMarket (fun _ => mkClock 2 5) (BinanceTopOfBook search_quote) None; OpTakeJob]%string.

Lemma demo_routes event : indexed demo_index demo_owner /\ routable demo_owner event /\ ow_primary demo_owner = demo_primary.
Proof.
  apply (new_owner_routes demo_plan demo_index demo_primary [demo_shadow] demo_owner event demo_indexed demo_owned).
  apply Forall_cons. split; [intros Hne; by destruct Hne|]. apply Forall_singleton. done.
Qed.

Lemma primary_isolated_witness :
  (ow_primary (owner_runs demo_owner demo_ops).1, (owner_runs demo_owner demo_ops).2) = alone_runs demo_index "wld" demo_primary demo_ops /\
  exists s, ow_primary (owner_runs demo_owner demo_ops).1 = s /\ sh_latest_quote s = Some search_quote.
Proof.
  assert (Hr : Forall (op_routable demo_owner) demo_ops).
  { repeat (apply Forall_cons; split); try apply Forall_nil; try exact I; apply demo_routes. }
  pose proof (proj2 (primary_isolated demo_index demo_owner demo_ops (proj1 (demo_routes (BinanceTopOfBook search_quote)))) Hr) as Hi.
  destruct (demo_routes (BinanceTopOfBook search_quote)) as (_ & _ & Hp). rewrite Hp in Hi. split; [exact Hi|].
  exists (alone_runs demo_index "wld" demo_primary demo_ops).1. split; [exact (f_equal fst Hi)|]. vm_compute. reflexivity.
Defined.

(** ** An observer without an evaluator *)

(** The observer is served outside the owner, and shares the primary's symbol. *)
Definition observer_plan : list CompiledHotPathStrategyPlan :=
  [mkStrategyPlan "arb" "WETHUSDC" "eip155:42161" ["pool-b"] true false; mkStrategyPlan "wld" "WETHUSDC" "eip155:480" ["pool-a"] true true]%string.
Definition observer_index : CompiledStrategyDependencyIndex := match new_index observer_plan with Ok x => x | Err _ => mkIndex [] ∅ ∅ ∅ end.
Definition observer_owner : HotPathDecisionOwner ShadowStrategyEvaluator ShadowStrategyEvaluator :=
  match new_with_externally_routed_observers demo_primary [] ["arb"%string] observer_index with
  | Ok o => o
  | Err _ => mkOwner "" demo_primary ∅ ∅ [] demo_index
  end.
Definition observer_quote : OwnerOp ShadowStrategyEvaluator := OpMarket (fun _ => mkClock 2 5) (BinanceTopOfBook search_quote) None.

(** The owner is accepted, but every market event of the symbol fails at the
    observer, before the primary is called. *)
Theorem external_observer_blocks_primary :
  new_index observer_plan = Ok observer_index /\
  new_with_externally_routed_observers demo_primary [] ["arb"%string] observer_index = Ok observer_owner /\
  missing observer_owner (BinanceTopOfBook search_quote) /\
  (owner_step observer_owner observer_quote).2 = [Err (CMsg "compiled shadow route has no evaluator")] /\
  ow_primary (owner_step observer_owner observer_quote).1 = demo_primary.
Proof.
  split; [vm_compute; reflexivity|]. split; [vm_compute; reflexivity|]. split; [|split; vm_compute; reflexivity].
  exists 0%nat, (mkStrategyPlan "arb" "WETHUSDC" "eip155:42161" ["pool-b"] true false)%string.
  split_and!; [vm_compute; left|vm_compute; reflexivity|vm_compute; discriminate|]. intros [q Hq]. vm_compute in Hq. discriminate Hq.
Qed.
