(* ===== verification/Admission.v ===== *)
(** * Admission, supervision and the switchback experiment
    ([src/src/admission.rs], [src/src/supervision.rs], [src/src/switchback.rs])

    The pure policies beside the engine: the execution envelope of an admitted
    trade, the decision on a dependency fault, and the assignment of execution
    modes to the blocks of the experiment.  Parsing a decimal is a parameter; a
    panic of the decimal crate is an error. *)
From Stdlib Require Import Lia.
From stdpp Require Import base gmap strings numbers option fin_maps pretty list.
From S2P Require Import Prelude Decimals ExecutionPlan TradeData RuntimeState PaperOpportunity Events.

(** ** Admission *)
Record AdmissionInputs := mkAdmissionInputs {
  ai_symbol : string; ai_direction : ArbitrageDirection; ai_token_b_amount : Z; ai_token_b_step_base_units : Z; ai_token_b_decimals : Z;
  ai_expected_cost_token_a : Z; ai_expected_proceeds_token_a : Z; ai_opportunity_threshold_met : bool;
}.
Record AdmissionEconomics := mkAdmissionEconomics {
  ae_primary_quantity : Decimal; ae_recovery_limit_price : Decimal; ae_recovery_quote_token_a : Z;
  ae_recovery_sell_limit_price : option Decimal; ae_recovery_sell_quote_token_a : Z;
  ae_recovery_buy_limit_price : option Decimal; ae_recovery_buy_quote_token_a : Z; ae_opportunity_threshold_met : bool;
}.

(** The text of a base-unit amount without trailing zeros. *)
Fixpoint drop_while (p : Ascii.ascii -> bool) (l : list Ascii.ascii) : list Ascii.ascii :=
  match l with [] => [] | c :: r => if p c then drop_while p r else l end.
Definition char_is (n : N) (c : Ascii.ascii) : bool := (Ascii.N_of_ascii c =? n)%N.
Definition format_base_units (amount decimals : Z) : string :=
  let digits := String.list_ascii_of_string (pretty amount) in
  if decimals =? 0 then String.string_of_list_ascii digits else
  let d := Z.to_nat decimals in
  let zero := Ascii.ascii_of_N 48 in
  let point := Ascii.ascii_of_N 46 in
  let digits :=
    if (length digits <=? d)%nat then zero :: point :: replicate (d - length digits) zero ++ digits
    else take (length digits - d) digits ++ point :: drop (length digits - d) digits in
  let digits := drop_while (char_is 48) (rev digits) in
  let digits := match digits with c :: r => if char_is 46 c then r else digits | [] => [] end in
  String.string_of_list_ascii (rev digits).

Example format_fraction : (format_base_units 1500 3, format_base_units 5 3, format_base_units 70 1, format_base_units 12 0) = ("1.5", "0.005", "7", "12")%string.
Proof. vm_compute. reflexivity. Qed.

(** [Decimal::from_i128_with_scale]. *)
Definition from_i128_with_scale (n s : Z) : TRes Decimal :=
  ensure! (Z.abs n <? 2 ^ 96) && (s <=? 28) else "Decimal::from_i128_with_scale panicked"%string ;;
  Ok (mkDecimal n s).

Section admission.
Variable decimal_from_str : string -> option Decimal.

Definition validate_inputs_and_base_quantity (i : AdmissionInputs) : TRes Decimal :=
  ensure! negb (ai_token_b_amount i =? 0) else "admission token-B amount is zero"%string ;;
  ensure! negb (ai_token_b_step_base_units i =? 0) else "admission token-B step is zero"%string ;;
  ensure! ai_token_b_amount i mod ai_token_b_step_base_units i =? 0 else "admission token-B amount is not step aligned"%string ;;
  ensure! (0 <? ai_expected_cost_token_a i) && (0 <? ai_expected_proceeds_token_a i) else "admission economics are non-positive"%string ;;
  if (ai_token_b_amount i <? 2 ^ 128) && (ai_token_b_amount i <=? I128_MAX)
  then from_i128_with_scale (ai_token_b_amount i) (ai_token_b_decimals i)
  else or_err (decimal_from_str (format_base_units (ai_token_b_amount i) (ai_token_b_decimals i))) "token-B amount exceeds Decimal admission range"%string.

Definition evaluate_execution_admission (q : TopOfBook) (i : AdmissionInputs) : TRes AdmissionEconomics :=
  ensure! bool_decide (q_symbol q = ai_symbol i) else "admission quote symbol mismatch"%string ;;
  let? quantity := validate_inputs_and_base_quantity i in
  let '(limit, quote) := match ai_direction i with
                         | BuyTokenBOnDexSellOnCex => (bid_price q, ai_expected_proceeds_token_a i)
                         | BuyTokenBOnCexSellOnDex => (ask_price q, ai_expected_cost_token_a i)
                         end in
  Ok (mkAdmissionEconomics quantity limit quote None 0 None 0 (ai_opportunity_threshold_met i)).

(** What is admitted is the exact quantity, in whole steps. *)
Theorem admission_exact q i e :
  0 <= ai_token_b_amount i < 2 ^ 96 -> 0 <= ai_token_b_decimals i <= 28 -> evaluate_execution_admission q i = Ok e ->
  ae_primary_quantity e = mkDecimal (ai_token_b_amount i) (ai_token_b_decimals i) /\ 0 < ai_token_b_amount i /\
  (ai_token_b_step_base_units i | ai_token_b_amount i) /\
  ae_recovery_limit_price e = match ai_direction i with BuyTokenBOnDexSellOnCex => bid_price q | _ => ask_price q end.
Proof.
  intros Ha Hd He. unfold evaluate_execution_admission, validate_inputs_and_base_quantity, from_i128_with_scale in He. res_inv. bool_prop.
  rewrite (proj2 (Z.ltb_lt _ (2 ^ 128))), (proj2 (Z.leb_le _ I128_MAX)) in * by (unfold I128_MAX; lia). simpl in *. res_inv.
  assert (Hdiv : (ai_token_b_step_base_units i | ai_token_b_amount i)) by (apply Z.mod_divide; done).
  destruct (ai_direction i); res_inv; subst; simpl; (split; [done|]); (split; [lia|done]).
Qed.

(** Between the range of a decimal and that of [i128] the conversion panics: the
    text is not tried. *)
Theorem admission_panics q i :
  q_symbol q = ai_symbol i -> 2 ^ 96 <= ai_token_b_amount i <= I128_MAX -> ai_token_b_step_base_units i = 1 ->
  0 < ai_expected_cost_token_a i -> 0 < ai_expected_proceeds_token_a i ->
  evaluate_execution_admission q i = Err "Decimal::from_i128_with_scale panicked"%string.
Proof.
  intros Hs Ha Hstep Hc Hp. unfold evaluate_execution_admission, validate_inputs_and_base_quantity, from_i128_with_scale.
  rewrite bool_decide_eq_true_2 by done. rewrite Hstep, Z.mod_1_r. unfold I128_MAX in *. simpl.
  rewrite (proj2 (Z.eqb_neq (ai_token_b_amount i) 0)), (proj2 (Z.ltb_lt 0 (ai_expected_cost_token_a i))), (proj2 (Z.ltb_lt 0 (ai_expected_proceeds_token_a i))) by lia. simpl.
  rewrite (proj2 (Z.ltb_lt (ai_token_b_amount i) _)), (proj2 (Z.leb_le (ai_token_b_amount i) _)) by lia. simpl.
  by rewrite (proj2 (Z.ltb_ge (Z.abs (ai_token_b_amount i)) _)) by lia.
Qed.
End admission.

(** ** Supervision *)
Record DependencyScope := mkScope {
  ds_binance_account_id : string; ds_network_id : string; ds_strategy_id : string; ds_execution_lane_id : string; ds_execution_enabled : bool }.
Inductive DependencyFaultClass := FaultStrategy | FaultPublicStream | FaultNetworkIngestion | FaultCriticalOwner | FaultTelemetry.
Inductive SupervisorAction := DegradeStrategy | ReconnectShard | DegradeNetwork | FailFast | ObserveOnly.
Record SupervisionDecision := mkDecision {
  sd_scope : DependencyScope; sd_action : SupervisorAction; sd_closes_new_mutations : bool; sd_process_termination_required : bool }.
Abbreviation RootSupervisorPolicy := (gmap string DependencyScope).

Fixpoint index_scopes (scopes : list DependencyScope) (m : RootSupervisorPolicy) : TRes RootSupervisorPolicy :=
  match scopes with
  | [] => Ok m
  | s :: rest =>
      ensure! negb (str_is_empty (ds_binance_account_id s)) && negb (str_is_empty (ds_network_id s)) && negb (str_is_empty (ds_strategy_id s))
              && negb (str_is_empty (ds_execution_lane_id s)) else "supervisor dependency scope contains an empty identifier"%string ;;
      ensure! bool_decide (m !! ds_strategy_id s = None) else "supervisor dependency scope repeats a strategy"%string ;;
      index_scopes rest (<[ds_strategy_id s := s]> m)
  end.
Definition new_policy (scopes : list DependencyScope) : TRes RootSupervisorPolicy :=
  let? m := index_scopes scopes ∅ in
  ensure! negb (bool_decide (m = ∅)) else "root supervisor has no dependency scopes"%string ;;
  Ok m.

Definition decide_fault (p : RootSupervisorPolicy) (strategy_id : string) (class : DependencyFaultClass) : TRes SupervisionDecision :=
  let? scope := or_err (p !! strategy_id) ("fault references unknown strategy " +:+ strategy_id)%string in
  let '(action, closes, terminates) :=
    match class with
    | FaultStrategy => (DegradeStrategy, ds_execution_enabled scope, false)
    | FaultPublicStream => (ReconnectShard, ds_execution_enabled scope, false)
    | FaultNetworkIngestion => (DegradeNetwork, ds_execution_enabled scope, false)
    | FaultCriticalOwner => (FailFast, true, true)
    | FaultTelemetry => (ObserveOnly, false, false)
    end in
  Ok (mkDecision scope action closes terminates).

Lemma index_scopes_lookup scopes m p : index_scopes scopes m = Ok p ->
  forall id s, p !! id = Some s <-> m !! id = Some s \/ (s ∈ scopes /\ ds_strategy_id s = id).
Proof.
  revert m. induction scopes as [|t scopes IH]; intros m Hp id s; simpl in Hp; [injection Hp as <-; rewrite elem_of_nil; tauto|].
  res_inv. bool_prop. rewrite (IH _ Hp), lookup_insert_Some, elem_of_cons. split.
  - intros [[[<- <-]|[_ Hm]]|[Hin Hid]]; [right; split; [by left|done]|by left|right; split; [by right|done]].
  - intros [Hm|[[->|Hin] Hid]]; [left; right; split; [congruence|done]|left; by left|by right].
Qed.

(** A fault of a known strategy is decided within its own scope: the process
    stops for a critical owner only, telemetry closes nothing, and otherwise
    mutations close exactly where the strategy executes. *)
Theorem fault_decision_scoped scopes p s class :
  new_policy scopes = Ok p -> s ∈ scopes ->
  exists d, decide_fault p (ds_strategy_id s) class = Ok d /\ sd_scope d = s /\
    (sd_process_termination_required d = true <-> class = FaultCriticalOwner) /\
    (sd_closes_new_mutations d = true <-> class = FaultCriticalOwner \/ (class <> FaultTelemetry /\ ds_execution_enabled s = true)).
Proof.
  intros Hp Hs. unfold new_policy in Hp. res_inv. unfold decide_fault.
  assert (Hl : p !! ds_strategy_id s = Some s) by (eapply index_scopes_lookup; [exact Hok|by right]). rewrite Hl. simpl.
  destruct class; eexists; (split; [done|]); simpl; (split; [done|]); (split; [by split|]); destruct (ds_execution_enabled s); split; try done; try (by right); try (by left); intros [?|[? ?]]; done.
Qed.

(** ** The switchback experiment *)
Definition ESP_SWITCHBACK_PAIR_ID : string := "arbitrum-usdc-esp".
Definition ESP_SWITCHBACK_EXPERIMENT_ID : string := "esp-usdc-concurrent-full-live-v1".
Definition ESP_SWITCHBACK_SEED_VERSION : string := "esp-usdc-switchback-seed-v1".
Definition ESP_SWITCHBACK_START_UNIX_SECONDS : Z := 1786158000.
Definition ESP_SWITCHBACK_END_UNIX_SECONDS : Z := 1786762800.
Definition ESP_SWITCHBACK_BLOCK_DURATION_SECONDS : Z := 30 * 60.
Definition ESP_SWITCHBACK_SEED : string := "poly-bot:esp-usdc:concurrent-full-live:v1:2026-08-08".

Record ProductionExecutionAssignment := mkAssignment {
  pa_execution_mode : ExecutionMode; pa_enrollment_status : string; pa_experiment_id : option string; pa_seed_version : option string;
  pa_block_id : option Z; pa_block_pair_id : option Z; pa_block_position : option Z; pa_pair_order : option string; pa_assignment_hash_prefix : option string;
}.
Definition is_enrolled (a : ProductionExecutionAssignment) : bool := bool_decide (pa_enrollment_status a = "enrolled"%string).

Definition validate_production_switchback : TRes unit :=
  ensure! ESP_SWITCHBACK_START_UNIX_SECONDS <? ESP_SWITCHBACK_END_UNIX_SECONDS else "ESP switchback window is empty"%string ;;
  ensure! 0 <? ESP_SWITCHBACK_BLOCK_DURATION_SECONDS else "ESP switchback block duration is zero"%string ;;
  let? duration := or_err (checked_sub ESP_SWITCHBACK_END_UNIX_SECONDS ESP_SWITCHBACK_START_UNIX_SECONDS) "ESP switchback window underflow"%string in
  let? pair_duration := or_err (checked_mul 64 ESP_SWITCHBACK_BLOCK_DURATION_SECONDS 2) "ESP switchback pair duration overflow"%string in
  ensure (duration mod pair_duration =? 0) "ESP switchback window does not contain complete block pairs"%string.

Definition fixed_dex_first (status : string) : ProductionExecutionAssignment :=
  let enrolled := negb (bool_decide (status = "not_enrolled"%string)) in
  mkAssignment DexFirst status (if enrolled then Some ESP_SWITCHBACK_EXPERIMENT_ID else None) (if enrolled then Some ESP_SWITCHBACK_SEED_VERSION else None)
    None None None None None.

Section switchback.
Context `{OpportunityText}.

Definition assignment_digest (block_pair_id : Z) : list Z :=
  sha256 (string_bytes ESP_SWITCHBACK_SEED ++ [0] ++ string_bytes ESP_SWITCHBACK_EXPERIMENT_ID ++ [0] ++ be_bytes 8 block_pair_id).
Definition hex_prefix (digest : list Z) : string := hex_bytes (take 8 digest).

Definition production_execution_assignment (pair_id : string) (opportunity_received_unix_us : Z) : TRes ProductionExecutionAssignment :=
  if negb (bool_decide (pair_id = ESP_SWITCHBACK_PAIR_ID)) then Ok (fixed_dex_first "not_enrolled") else
  let? _ := validate_production_switchback in
  let seconds := opportunity_received_unix_us / 1000000 in
  if seconds <? ESP_SWITCHBACK_START_UNIX_SECONDS then Ok (fixed_dex_first "before_enrollment") else
  if ESP_SWITCHBACK_END_UNIX_SECONDS <=? seconds then Ok (fixed_dex_first "after_enrollment") else
  let? offset := or_err (checked_sub seconds ESP_SWITCHBACK_START_UNIX_SECONDS) "ESP switchback block offset underflow"%string in
  let block_id := offset / ESP_SWITCHBACK_BLOCK_DURATION_SECONDS in
  let block_pair_id := block_id / 2 in
  let block_position := block_id mod 2 in
  let digest := assignment_digest block_pair_id in
  let concurrent_first := Z.land (default 0 (head digest)) 1 =? 1 in
  let mode := if Bool.eqb concurrent_first (block_position =? 0) then ConcurrentHedged else DexFirst in
  let order := if concurrent_first then "concurrent_hedged,dex_first"%string else "dex_first,concurrent_hedged"%string in
  Ok (mkAssignment mode "enrolled" (Some ESP_SWITCHBACK_EXPERIMENT_ID) (Some ESP_SWITCHBACK_SEED_VERSION) (Some block_id) (Some block_pair_id)
        (Some block_position) (Some order) (Some (hex_prefix digest))).

(** The block of an instant of the window. *)
Definition block_of (us : Z) : Z := (us / 1000000 - ESP_SWITCHBACK_START_UNIX_SECONDS) / ESP_SWITCHBACK_BLOCK_DURATION_SECONDS.
Definition in_window (us : Z) : Prop := ESP_SWITCHBACK_START_UNIX_SECONDS <= us / 1000000 < ESP_SWITCHBACK_END_UNIX_SECONDS.

Lemma enrolled_assignment us : in_window us -> exists a, production_execution_assignment ESP_SWITCHBACK_PAIR_ID us = Ok a /\ is_enrolled a = true /\
  pa_block_id a = Some (block_of us) /\
  pa_execution_mode a = if Bool.eqb (Z.land (default 0 (head (assignment_digest (block_of us / 2)))) 1 =? 1) (block_of us mod 2 =? 0) then ConcurrentHedged else DexFirst.
Proof.
  intros [Hs He]. unfold production_execution_assignment. rewrite bool_decide_eq_true_2 by done. cbn [negb].
  change validate_production_switchback with (@Ok string unit tt). cbn [rbind].
  rewrite (proj2 (Z.ltb_ge _ _)), (proj2 (Z.leb_gt _ _)) by done. unfold checked_sub. rewrite (proj2 (Z.leb_le _ _)) by done. cbn [or_err rbind].
  eexists. by split_and!.
Qed.

(** The experiment is balanced: the assignment depends on the block only, and of
    the two blocks of a pair one runs each mode, whatever the digest. *)
Theorem switchback_balanced us us' : in_window us -> in_window us' ->
  exists a a', production_execution_assignment ESP_SWITCHBACK_PAIR_ID us = Ok a /\ production_execution_assignment ESP_SWITCHBACK_PAIR_ID us' = Ok a' /\
    (block_of us = block_of us' -> pa_execution_mode a = pa_execution_mode a') /\
    (block_of us <> block_of us' -> block_of us / 2 = block_of us' / 2 -> pa_execution_mode a <> pa_execution_mode a').
Proof.
  intros Hu Hu'. destruct (enrolled_assignment us Hu) as (a & Ha & _ & _ & Hm). destruct (enrolled_assignment us' Hu') as (a' & Ha' & _ & _ & Hm').
  exists a, a'. split; [done|]. split; [done|]. rewrite Hm, Hm'. split; [by intros ->|]. intros Hne Hpair. rewrite Hpair.
  set (b := block_of us) in *. set (b' := block_of us') in *.
  assert (Hpos : (b mod 2 =? 0) = negb (b' mod 2 =? 0)).
  { pose proof (Z.div_mod b 2 ltac:(lia)). pose proof (Z.div_mod b' 2 ltac:(lia)). pose proof (Z.mod_pos_bound b 2 ltac:(lia)). pose proof (Z.mod_pos_bound b' 2 ltac:(lia)).
    destruct (Z.eqb_spec (b mod 2) 0), (Z.eqb_spec (b' mod 2) 0); simpl; try done; lia. }
  rewrite Hpos. clear. destruct (Z.land _ 1 =? 1), (b' mod 2 =? 0); simpl; congruence.
Qed.
End switchback.
