(* ===== verification/Abi.v ===== *)
(** * The contract ABI

    A reference for the calls built by [src/src/dex/calldata.rs]: the values of the
    Solidity ABI (words, [bytes], arrays and tuples), their encoding as heads and
    tails, and the decoder of a contract.  Nothing here is code of the program; the
    theorems of [CalldataFacts] are stated against it. *)
From Stdlib Require Import Lia.
From stdpp Require Import base list numbers option.
From S2P Require Import Prelude ExecutionPlan Events.

(** A word stands for every static elementary type. *)
Inductive abi_type :=
  | TWord
  | TBytes
  | TArray (t : abi_type)
  | TTuple (ts : list abi_type).

Inductive abi_value :=
  | VWord (w : Z)
  | VBytes (bs : list Z)
  | VArray (vs : list abi_value)
  | VTuple (vs : list abi_value).

Section abi_type_ind.
Variable P : abi_type -> Prop.
Hypothesis (Hword : P TWord) (Hbytes : P TBytes) (Harray : forall t, P t -> P (TArray t))
  (Htuple : forall ts, Forall P ts -> P (TTuple ts)).

(** Induction through the members of a tuple. *)
Fixpoint abi_type_ind' (t : abi_type) : P t :=
  match t with
  | TWord => Hword
  | TBytes => Hbytes
  | TArray t => Harray t (abi_type_ind' t)
  | TTuple ts =>
      Htuple ts ((fix all ts : Forall P ts := match ts with
                                | [] => Forall_nil_2 P
                                | t :: ts' => Forall_cons_2 P t ts' (abi_type_ind' t) (all ts')
                                end) ts)
  end.
End abi_type_ind.

(** ** Encoding *)
Definition word (w : Z) : list Z := be_bytes 32 w.
Definition padding (n : nat) : nat := ((n + 31) / 32 * 32 - n)%nat.

(** An encoded member and whether it is dynamic. *)
Abbreviation item := (bool * list Z)%type.

Definition head_len (i : item) : nat := if i.1 then 32%nat else length i.2.
Definition heads_len (ms : list item) : nat := sum_list_with head_len ms.
Fixpoint heads (offset : nat) (ms : list item) : list Z :=
  match ms with
  | [] => []
  | (true, e) :: ms' => word (Z.of_nat offset) ++ heads (offset + length e) ms'
  | (false, e) :: ms' => e ++ heads offset ms'
  end.
Definition tails (ms : list item) : list Z := concat (map (fun i : item => if i.1 then i.2 else []) ms).
Definition layout (ms : list item) : list Z := heads (heads_len ms) ms ++ tails ms.

Fixpoint value_dynamic (v : abi_value) : bool :=
  match v with
  | VWord _ => false
  | VBytes _ | VArray _ => true
  | VTuple vs => existsb value_dynamic vs
  end.

Fixpoint encode (v : abi_value) : list Z :=
  match v with
  | VWord w => word w
  | VBytes bs => word (Z.of_nat (length bs)) ++ bs ++ repeat 0 (padding (length bs))
  | VArray vs => word (Z.of_nat (length vs)) ++ layout (map (fun v => (value_dynamic v, encode v)) vs)
  | VTuple vs => layout (map (fun v => (value_dynamic v, encode v)) vs)
  end.

(** ** Decoding *)
Fixpoint dynamic (t : abi_type) : bool :=
  match t with
  | TWord => false
  | TBytes | TArray _ => true
  | TTuple ts => existsb dynamic ts
  end.

(** The bytes a member takes among the heads. *)
Fixpoint head_size (t : abi_type) : nat :=
  match t with
  | TTuple ts => if existsb dynamic ts then 32%nat else sum_list_with head_size ts
  | _ => 32%nat
  end.

Definition read_word (data : list Z) (p : nat) : option Z :=
  if (p + 32 <=? length data)%nat then Some (be_value (take 32 (drop p data))) else None.

(** A member whose head is at [p]: in place, or at the offset found there. *)
Definition at_head (dec : list Z -> option abi_value) (dyn : bool) (data : list Z) (p : nat) : option abi_value :=
  if dyn then offset ← read_word data p; dec (drop (Z.to_nat offset) data)
  else dec (drop p data).

Fixpoint decode (t : abi_type) (data : list Z) : option abi_value :=
  match t with
  | TWord => VWord <$> read_word data 0
  | TBytes =>
      n ← read_word data 0;
      if n <=? Z.of_nat (length data) - 32 then Some (VBytes (take (Z.to_nat n) (drop 32 data))) else None
  | TArray t =>
      n ← read_word data 0;
      VArray <$> mapM (fun i => at_head (decode t) (dynamic t) (drop 32 data) (i * head_size t)) (seq 0 (Z.to_nat n))
  | TTuple ts =>
      VTuple <$> (fix members ts p :=
                    match ts with
                    | [] => Some []
                    | t :: ts' =>
                        v ← at_head (decode t) (dynamic t) data p;
                        vs ← members ts' (p + head_size t)%nat;
                        Some (v :: vs)
                    end) ts 0%nat
  end.

(** ** Typing *)
Fixpoint has_type (t : abi_type) (v : abi_value) : Prop :=
  match t, v with
  | TWord, VWord w => u256 w
  | TBytes, VBytes _ => True
  | TArray t, VArray vs => u256 (Z.of_nat (length vs)) /\ Forall (has_type t) vs
  | TTuple ts, VTuple vs =>
      (fix members ts vs :=
         match ts, vs with
         | [], [] => True
         | t :: ts', v :: vs' => has_type t v /\ members ts' vs'
         | _, _ => False
         end) ts vs
  | _, _ => False
  end.

(** A contract call: the selector and the arguments its ABI decodes. *)
Definition abi_call (selector : list Z) (types : list abi_type) (args : list abi_value) (data : list Z) : Prop :=
  take 4 data = selector /\ decode (TTuple types) (drop 4 data) = Some (VTuple args).

(** ** Layout lemmas *)
#[local] Arguments be_bytes : simpl never.
#[local] Arguments word : simpl never.

Lemma word_length w : length (word w) = 32%nat.
Proof. apply be_bytes_length. Qed.

Lemma read_word_at pre w rest :
  u256 w -> read_word (pre ++ word w ++ rest) (length pre) = Some w.
Proof.
  intros Hw. unfold read_word. rewrite !length_app, word_length, (proj2 (Nat.leb_le _ _)) by lia.
  rewrite drop_app_length, take_app_length' by (by rewrite word_length). unfold word. by rewrite (word_value w).
Qed.

Lemma read_word_0 w rest : u256 w -> read_word (word w ++ rest) 0 = Some w.
Proof. intros Hw. exact (read_word_at [] w rest Hw). Qed.

Definition tails_len (ms : list item) : nat := length (tails ms).

Lemma heads_length o ms : length (heads o ms) = heads_len ms.
Proof.
  revert o. induction ms as [|[[] e] ms IH]; intros o; [done| |].
  - cbn [heads]. rewrite length_app, IH, word_length. done.
  - cbn [heads]. rewrite length_app, IH. done.
Qed.

Lemma tails_app a b : tails (a ++ b) = tails a ++ tails b.
Proof. unfold tails. by rewrite map_app, concat_app. Qed.

Lemma heads_app o a b : heads o (a ++ b) = heads o a ++ heads (o + tails_len a) b.
Proof.
  unfold tails_len. revert o. induction a as [|[dyn e] a IH]; intros o.
  - cbn. by rewrite Nat.add_0_r.
  - rewrite <- app_comm_cons. unfold tails. cbn [map concat fst snd]. rewrite length_app.
    destruct dyn; cbn [heads]; rewrite IH, <- app_assoc; [|done]. do 3 f_equal. unfold tails. lia.
Qed.

Lemma heads_len_app a b : heads_len (a ++ b) = (heads_len a + heads_len b)%nat.
Proof. apply sum_list_with_app. Qed.

Lemma layout_length ms : length (layout ms) = (heads_len ms + tails_len ms)%nat.
Proof. unfold layout. by rewrite length_app, heads_length. Qed.

Lemma tails_cons dyn e ms : tails ((dyn, e) :: ms) = (if dyn then e else []) ++ tails ms.
Proof. done. Qed.

Lemma layout_split pre dyn e post :
  let ms := pre ++ (dyn, e) :: post in
  layout ms = heads (heads_len ms) pre
              ++ (if dyn then word (Z.of_nat (heads_len ms + tails_len pre)) else e)
              ++ heads (heads_len ms + tails_len pre + (if dyn then length e else 0)) post
              ++ tails pre ++ (if dyn then e else []) ++ tails post.
Proof.
  intros ms. unfold layout, ms at 2 3. rewrite heads_app, tails_app, tails_cons.
  destruct dyn; cbn [heads]; rewrite ?Nat.add_0_r, <- !app_assoc; done.
Qed.

(** What the head of a member leads to. *)
Lemma at_head_layout dec dyn e v pre post rest :
  (forall r, dec (e ++ r) = Some v) ->
  Z.of_nat (length (layout (pre ++ (dyn, e) :: post))) < 2 ^ 256 ->
  at_head dec dyn (layout (pre ++ (dyn, e) :: post) ++ rest) (heads_len pre) = Some v.
Proof.
  intros Hdec. rewrite layout_length. set (L := heads_len (pre ++ (dyn, e) :: post)). intros Hfit.
  rewrite layout_split. fold L. unfold at_head. rewrite <- (heads_length L pre), <- !app_assoc.
  destruct dyn; [|by rewrite drop_app_length].
  assert (Ht : tails_len (pre ++ (true, e) :: post) = (tails_len pre + (length e + tails_len post))%nat).
  { unfold tails_len. by rewrite tails_app, tails_cons, !length_app. }
  rewrite read_word_at by (unfold uint; lia). cbn [mbind option_bind]. rewrite Nat2Z.id.
  match goal with |- dec (drop _ ?l) = _ =>
    replace l with ((heads L pre ++ word (Z.of_nat (L + tails_len pre)) ++ heads (L + tails_len pre + length e) post ++ tails pre)
                    ++ e ++ tails post ++ rest) by (by rewrite <- !app_assoc) end.
  rewrite drop_app_length'; [apply Hdec|].
  rewrite !length_app, !heads_length, word_length. fold (tails_len pre). unfold L.
  rewrite heads_len_app. unfold heads_len at 2. cbn [sum_list_with]. unfold head_len at 1. fold (heads_len post). cbn. lia.
Qed.

(** ** Round trip *)
Definition item_of (v : abi_value) : item := (value_dynamic v, encode v).

Definition fits (n : nat) : Prop := Z.of_nat n < 2 ^ 256.

(** The members of a tuple against their types. *)
Fixpoint members_typed (ts : list abi_type) (vs : list abi_value) : Prop :=
  match ts, vs with
  | [], [] => True
  | t :: ts', v :: vs' => has_type t v /\ members_typed ts' vs'
  | _, _ => False
  end.

Lemma has_type_tuple ts vs : has_type (TTuple ts) (VTuple vs) <-> members_typed ts vs.
Proof. revert vs. induction ts as [|t ts IH]; intros [|v vs]; done. Qed.

Lemma members_typed_forall2 ts vs : members_typed ts vs <-> Forall2 has_type ts vs.
Proof.
  revert vs. induction ts as [|t ts IH]; intros [|v vs]; simpl.
  - by split.
  - split; [done|]. by intros ?%Forall2_nil_cons_inv.
  - split; [done|]. by intros ?%Forall2_cons_nil_inv.
  - rewrite IH. split; [intros []; by constructor|by intros [? ?]%Forall2_cons_1].
Qed.

(** A value is dynamic as its type is, and a member takes its head size. *)
Lemma typed_item t v : has_type t v -> value_dynamic v = dynamic t /\ head_len (item_of v) = head_size t.
Proof.
  revert v. induction t as [| |t IH|ts IH] using abi_type_ind'; intros [w|bs|vs|vs]; try done.
  rewrite has_type_tuple, members_typed_forall2. intros Hty.
    assert (Hd : existsb value_dynamic vs = existsb dynamic ts /\ sum_list_with head_len (map item_of vs) = sum_list_with head_size ts).
    { induction Hty as [|t v ts vs Htv _ IHty]; [done|]. apply Forall_cons_1 in IH as [IHt IH].
      destruct (IHt v Htv) as [Hv Hh], (IHty IH) as [Hvs Hhs]. cbn [existsb map sum_list_with]. by rewrite Hv, Hh, Hvs, Hhs. }
    destruct Hd as [Hd Hh]. unfold item_of, head_len. cbn [fst snd value_dynamic dynamic head_size encode].
    rewrite Hd. split; [done|]. destruct (existsb dynamic ts) eqn:E; [done|].
    fold item_of. change (map _ vs) with (map item_of vs). rewrite layout_length. unfold heads_len. rewrite Hh.
    assert (tails_len (map item_of vs) = 0)%nat; [|lia].
    clear Hh IH Hty. unfold tails_len. revert Hd. induction vs as [|v vs IHv]; [done|]. cbn [existsb map]. intros [Hv Hvs]%orb_false_iff.
    unfold item_of at 1. rewrite tails_cons, Hv. by apply IHv.
Qed.

Definition decode_members (data : list Z) : list abi_type -> nat -> option (list abi_value) :=
  fix members ts p :=
    match ts with
    | [] => Some []
    | t :: ts' =>
        v ← at_head (decode t) (dynamic t) data p;
        vs ← members ts' (p + head_size t)%nat;
        Some (v :: vs)
    end.

Lemma decode_tuple ts data : decode (TTuple ts) data = VTuple <$> decode_members data ts 0.
Proof. done. Qed.

Lemma fits_tail dyn e pre post :
  fits (length (layout (pre ++ (dyn, e) :: post))) -> fits (length e).
Proof.
  unfold fits. rewrite layout_split, !length_app. destruct dyn; rewrite ?word_length; lia.
Qed.

Definition reads_back (t : abi_type) : Prop :=
  forall v rest, has_type t v -> fits (length (encode v)) -> decode t (encode v ++ rest) = Some v.

Lemma decode_members_layout ts vs pre rest :
  Forall reads_back ts -> Forall2 has_type ts vs -> fits (length (layout (pre ++ map item_of vs))) ->
  decode_members (layout (pre ++ map item_of vs) ++ rest) ts (heads_len pre) = Some vs.
Proof.
  intros Hback Hty. revert pre. induction Hty as [|t v ts vs Htv _ IH]; intros pre Hfit; [done|].
  apply Forall_cons_1 in Hback as [Ht Hback]. destruct (typed_item t v Htv) as [Hd Hh].
  cbn [map] in *. change (item_of v) with (value_dynamic v, encode v) in Hfit |- *. cbn [decode_members]. rewrite <- Hd, (at_head_layout _ _ _ v); [|intros r|done].
  2:{ apply Ht; [done|]. by eapply fits_tail. }
  cbn [mbind option_bind]. fold (decode_members (layout (pre ++ (value_dynamic v, encode v) :: map item_of vs) ++ rest)).
  assert (Ep : (pre ++ (value_dynamic v, encode v) :: map item_of vs) = (pre ++ [item_of v]) ++ map item_of vs)
    by (by rewrite <- app_assoc).
  assert (El : (heads_len pre + head_size t)%nat = heads_len (pre ++ [item_of v])).
  { rewrite heads_len_app, <- Hh. unfold heads_len at 3. cbn [sum_list_with]. lia. }
  rewrite El, Ep in *. by rewrite IH.
Qed.

(** Members of one type: an array. *)
Lemma decode_elements_layout t vs pre rest :
  reads_back t -> Forall (has_type t) vs -> fits (length (layout (pre ++ map item_of vs))) ->
  forall n, heads_len pre = (n * head_size t)%nat ->
  mapM (fun i => at_head (decode t) (dynamic t) (layout (pre ++ map item_of vs) ++ rest) (i * head_size t)) (seq n (length vs))
  = Some vs.
Proof.
  intros Hback Hty. revert pre. induction Hty as [|v vs Htv _ IH]; intros pre Hfit n Hn; [done|].
  destruct (typed_item t v Htv) as [Hd Hh]. cbn [map length seq mapM] in *.
  change (item_of v) with (value_dynamic v, encode v) in Hfit |- *. rewrite <- Hn, <- Hd, (at_head_layout _ _ _ v); [|intros r|done].
  2:{ apply Hback; [done|]. by eapply fits_tail. }
  cbn [mbind option_bind].
  assert (Ep : (pre ++ (value_dynamic v, encode v) :: map item_of vs) = (pre ++ [item_of v]) ++ map item_of vs)
    by (by rewrite <- app_assoc).
  rewrite Ep, Hd in *. rewrite (IH (pre ++ [item_of v])); [done|done|].
  rewrite heads_len_app, Hn. unfold heads_len. cbn [sum_list_with]. lia.
Qed.

(** What is encoded is read back, whatever follows it. *)
Theorem decode_encode t v rest : has_type t v -> fits (length (encode v)) -> decode t (encode v ++ rest) = Some v.
Proof.
  revert v rest. change (reads_back t). induction t as [| |t IH|ts IH] using abi_type_ind'; intros [w|bs|vs|vs] rest Hty Hfit; try done.
  - cbn [decode encode]. by rewrite read_word_0.
  - cbn [decode encode] in *. rewrite <- !app_assoc. unfold fits in Hfit. rewrite length_app, word_length, !length_app in Hfit.
    rewrite read_word_0 by (unfold uint; lia). cbn [mbind option_bind].
    rewrite !length_app, word_length, (proj2 (Z.leb_le _ _)) by lia.
    rewrite drop_app_length' by (by rewrite word_length). by rewrite Nat2Z.id, take_app_length.
  - cbn [decode encode] in *. unfold fits in Hfit. rewrite length_app, word_length in Hfit.
    change (map _ vs) with (map item_of vs) in *. rewrite <- app_assoc.
    destruct Hty as [Hlen Hty]. rewrite read_word_0 by done. cbn [mbind option_bind]. rewrite Nat2Z.id, drop_app_length' by (by rewrite word_length).
    pose proof (decode_elements_layout t vs [] rest IH Hty) as Hm. by rewrite Hm by (unfold fits in *; simpl; lia || done).
  - rewrite decode_tuple. apply has_type_tuple, members_typed_forall2 in Hty. cbn [encode] in *.
    change (map _ vs) with (map item_of vs) in *. 
    pose proof (decode_members_layout ts vs [] rest IH Hty Hfit) as Hm. exact (f_equal (fmap VTuple) Hm).
Qed.

Lemma abi_call_encode selector types args :
  length selector = 4%nat -> Forall2 has_type types args -> fits (length (encode (VTuple args))) ->
  abi_call selector types args (selector ++ encode (VTuple args)).
Proof.
  intros Hsel Hty Hfit. unfold abi_call. rewrite take_app_length', drop_app_length' by done. split; [done|].
  rewrite <- (app_nil_r (encode _)). apply decode_encode; [|done]. by apply has_type_tuple, members_typed_forall2.
Qed.
