(* ===== verification/Calldata.v ===== *)
(** * Contract calls ([src/src/dex/calldata.rs], [src/src/wallet.rs])

    The calldata of swaps, quotes and allowances, byte by byte as the code pushes
    it, the decoders of their results, and the calls of the wallet.  Lengths are
    far below the range of [usize], so offsets do not wrap. *)
From Stdlib Require Import Lia.
From stdpp Require Import base strings numbers list option.
From S2P Require Import Prelude ExecutionPlan Events Journal Nonce.

Definition WORD_BYTES : nat := 32.
Definition V4_SWAP_COMMAND : Z := 16.
Definition V4_ACTION_SWAP_EXACT_IN_SINGLE : Z := 6.
Definition V4_ACTION_SETTLE_ALL : Z := 12.
Definition V4_ACTION_TAKE_ALL : Z := 15.

Abbreviation Bytes := (list Z).

(** ** Words *)
Definition push_address_word (encoded : Bytes) (address : Z) : Bytes := encoded ++ repeat 0 12 ++ be_bytes 20 address.
Definition push_u256_word (encoded : Bytes) (value : Z) : Bytes := encoded ++ be_bytes 32 value.
Definition push_usize_word (encoded : Bytes) (value : nat) : Bytes := push_u256_word encoded (Z.of_nat value).
Definition push_bool_word (encoded : Bytes) (value : bool) : Bytes := push_u256_word encoded (if value then 1 else 0).
Definition push_signed_i32_word (encoded : Bytes) (value : Z) : Bytes :=
  let fill := if value <? 0 then 255 else 0 in
  encoded ++ repeat fill 28 ++ be_bytes 4 value.

Definition div_ceil (a b : nat) : nat := ((a + (b - 1)) / b)%nat.
(** [Vec::resize] with zeros. *)
Definition resize (l : Bytes) (n : nat) : Bytes := take n l ++ repeat 0 (n - length l).

Definition encode_bytes (bytes : Bytes) : Bytes :=
  let padded := (div_ceil (length bytes) WORD_BYTES * WORD_BYTES)%nat in
  resize (push_usize_word [] (length bytes) ++ bytes) (WORD_BYTES + padded).

Definition encode_address_u256 (address amount : Z) : Bytes := push_u256_word (push_address_word [] address) amount.

Fixpoint push_offsets (encoded : Bytes) (offset : nat) (tails : list Bytes) : Bytes :=
  match tails with
  | [] => encoded
  | tail :: rest => push_offsets (push_usize_word encoded offset) (offset + length tail) rest
  end.

Definition encode_bytes_array (values : list Bytes) : Bytes :=
  let tails := map encode_bytes values in
  let encoded := push_usize_word [] (length values) in
  let encoded := push_offsets encoded (length values * WORD_BYTES) tails in
  fold_left (fun encoded tail => encoded ++ tail) tails encoded.

Definition encode_bytes_and_bytes_array (bytes : Bytes) (values : list Bytes) : Bytes :=
  let bytes := encode_bytes bytes in
  let values := encode_bytes_array values in
  let encoded := push_usize_word [] (2 * WORD_BYTES) in
  let encoded := push_usize_word encoded (2 * WORD_BYTES + length bytes) in
  encoded ++ bytes ++ values.

Definition validate_currency_pair (left right : Z) : TRes unit :=
  ensure! negb (left =? 0) else "currency address is zero" ;;
  ensure! negb (right =? 0) else "currency address is zero" ;;
  ensure! negb (left =? right) else "currency addresses are identical" ;;
  Ok tt.

(** ** Results of calls *)
Definition from_be_slice (bytes : Bytes) : Z := be_value bytes.
Definition word_of (encoded : Bytes) (i : nat) : Z := from_be_slice (take WORD_BYTES (drop (i * WORD_BYTES) encoded)).
Definition UINT160_MAX : Z := 2 ^ 160 - 1.

Definition decode_v3_quote_exact_input_single (encoded : Bytes) : TRes Z :=
  ensure! (4 * WORD_BYTES <=? length encoded)%nat else "Uniswap V3 QuoterV2 result is truncated" ;;
  Ok (word_of encoded 0).
Definition decode_v3_quote_exact_output_single (encoded : Bytes) : TRes Z :=
  ensure! (4 * WORD_BYTES <=? length encoded)%nat else "V3 exact-output QuoterV2 result is truncated" ;;
  Ok (word_of encoded 0).
Definition decode_camelot_v3_quote (encoded : Bytes) : TRes (Z * Z) :=
  ensure! (length encoded =? 2 * WORD_BYTES)%nat else "Camelot V3 Quoter result has an unexpected shape" ;;
  let fee_word := from_be_slice (drop WORD_BYTES encoded) in
  ensure! fee_word <? 2 ^ 16 else "Camelot V3 Quoter fee does not fit uint16" ;;
  Ok (word_of encoded 0, fee_word).
Definition decode_lynex_algebra_v1_9_quote (encoded : Bytes) : TRes (Z * Z) := decode_camelot_v3_quote encoded.
Definition decode_v4_quote_exact_input_single (encoded : Bytes) : TRes (Z * Z) :=
  ensure! (2 * WORD_BYTES <=? length encoded)%nat else "Uniswap V4 quote result is truncated" ;;
  Ok (word_of encoded 0, word_of encoded 1).
Definition decode_permit2_allowance (encoded : Bytes) : TRes (Z * Z) :=
  ensure! (3 * WORD_BYTES <=? length encoded)%nat else "Permit2 allowance result is truncated" ;;
  let amount := word_of encoded 0 in
  ensure! amount <=? UINT160_MAX else "Permit2 returned an invalid uint160 allowance" ;;
  let expiration := word_of encoded 1 in
  ensure! expiration <? 2 ^ 64 else "Permit2 expiration does not fit u64" ;;
  ensure! expiration <? 2 ^ 48 else "Permit2 returned an invalid uint48 expiration" ;;
  Ok (amount, expiration).

Definition fee_fits (fee : Z) : bool := (0 <? fee) && (fee <=? 16777215).

Section calldata.
Context `{EvmText}.

Definition selector (signature : string) : Bytes := take 4 (be_bytes 32 (ExecutionPlan.keccak256 (string_bytes signature))).

(** ** Swaps *)
Definition v3_exact_input (token_in token_out fee recipient amount_in amount_out_minimum : Z) : TRes Bytes :=
  let? _ := validate_currency_pair token_in token_out in
  ensure! negb (recipient =? 0) else "Uniswap V3 recipient is zero" ;;
  ensure! negb (amount_in =? 0) else "Uniswap V3 input amount is zero" ;;
  ensure! fee_fits fee else "Uniswap V3 fee does not fit uint24" ;;
  let path := be_bytes 20 token_in ++ drop 1 (be_bytes 4 fee) ++ be_bytes 20 token_out in
  let encoded := selector "exactInput((bytes,address,uint256,uint256))" in
  let encoded := push_usize_word encoded WORD_BYTES in
  let encoded := push_usize_word encoded (4 * WORD_BYTES) in
  let encoded := push_address_word encoded recipient in
  let encoded := push_u256_word encoded amount_in in
  let encoded := push_u256_word encoded amount_out_minimum in
  Ok (encoded ++ encode_bytes path).

Definition pancake_v3_exact_input_single
    (token_in token_out fee recipient deadline amount_in amount_out_minimum : Z) : TRes Bytes :=
  let? _ := validate_currency_pair token_in token_out in
  ensure! negb (recipient =? 0) else "Pancake V3 recipient is zero" ;;
  ensure! 0 <? deadline else "Pancake V3 deadline is zero" ;;
  ensure! negb (amount_in =? 0) else "Pancake V3 input amount is zero" ;;
  ensure! negb (amount_out_minimum =? 0) else "Pancake V3 minimum output amount is zero" ;;
  ensure! fee_fits fee else "Pancake V3 fee does not fit uint24" ;;
  let encoded := selector "exactInputSingle((address,address,uint24,address,uint256,uint256,uint256,uint160))" in
  let encoded := push_address_word encoded token_in in
  let encoded := push_address_word encoded token_out in
  let encoded := push_u256_word encoded fee in
  let encoded := push_address_word encoded recipient in
  let encoded := push_u256_word encoded deadline in
  let encoded := push_u256_word encoded amount_in in
  let encoded := push_u256_word encoded amount_out_minimum in
  Ok (push_u256_word encoded 0).

Definition CAMELOT_SELECTOR : Bytes := [188; 101; 17; 136].

Definition camelot_v3_exact_input_single
    (token_in token_out recipient deadline amount_in amount_out_minimum : Z) : TRes Bytes :=
  let? _ := validate_currency_pair token_in token_out in
  ensure! negb (recipient =? 0) else "Camelot V3 recipient is zero" ;;
  ensure! 0 <? deadline else "Camelot V3 deadline is zero" ;;
  ensure! negb (amount_in =? 0) else "Camelot V3 input amount is zero" ;;
  ensure! negb (amount_out_minimum =? 0) else "Camelot V3 minimum output amount is zero" ;;
  let encoded := selector "exactInputSingle((address,address,address,uint256,uint256,uint256,uint160))" in
  ensure! bool_decide (encoded = CAMELOT_SELECTOR)
    else "Camelot V3 exactInputSingle selector differs from the reviewed router" ;;
  let encoded := push_address_word encoded token_in in
  let encoded := push_address_word encoded token_out in
  let encoded := push_address_word encoded recipient in
  let encoded := push_u256_word encoded deadline in
  let encoded := push_u256_word encoded amount_in in
  let encoded := push_u256_word encoded amount_out_minimum in
  Ok (push_u256_word encoded 0).

Definition lynex_algebra_v1_9_exact_input_single
    (token_in token_out recipient deadline amount_in amount_out_minimum : Z) : TRes Bytes :=
  camelot_v3_exact_input_single token_in token_out recipient deadline amount_in amount_out_minimum.

(** The tuple [(PoolKey, bool, uint128, uint128, bytes)] of the V4 swap action. *)
Definition v4_swap_params (k : V4PoolKey) (zero_for_one : bool) (amount_in amount_out_minimum : Z) : Bytes :=
  let swap := push_usize_word [] WORD_BYTES in
  let swap := push_address_word swap (currency0 k) in
  let swap := push_address_word swap (currency1 k) in
  let swap := push_u256_word swap (key_fee_pips k) in
  let swap := push_signed_i32_word swap (key_tick_spacing k) in
  let swap := push_address_word swap (key_hooks k) in
  let swap := push_bool_word swap zero_for_one in
  let swap := push_u256_word swap amount_in in
  let swap := push_u256_word swap amount_out_minimum in
  let swap := push_usize_word swap (9 * WORD_BYTES) in
  swap ++ encode_bytes [].

Definition v4_exact_input_single (k : V4PoolKey) (zero_for_one : bool)
    (amount_in amount_out_minimum currency_in currency_out deadline : Z) : TRes Bytes :=
  let? _ := validate_currency_pair currency_in currency_out in
  ensure! negb (amount_in =? 0) else "Uniswap V4 input amount is zero" ;;
  ensure! 0 <? deadline else "Uniswap V4 deadline is zero" ;;
  ensure! currency0 k <? currency1 k else "Uniswap V4 currencies are not sorted" ;;
  ensure! fee_fits (key_fee_pips k) else "Uniswap V4 fee does not fit uint24" ;;
  ensure! (-8388608 <=? key_tick_spacing k) && (key_tick_spacing k <=? 8388607)
    else "Uniswap V4 tick spacing does not fit int24" ;;
  ensure! (zero_for_one && (currency_in =? currency0 k) && (currency_out =? currency1 k))
          || (negb zero_for_one && (currency_in =? currency1 k) && (currency_out =? currency0 k))
    else "Uniswap V4 swap direction does not match the pool key" ;;
  ensure! (amount_in <=? U128_MAX) && (amount_out_minimum <=? U128_MAX) else "Uniswap V4 amount does not fit uint128" ;;
  let swap := v4_swap_params k zero_for_one amount_in amount_out_minimum in
  let settle := encode_address_u256 currency_in amount_in in
  let take := encode_address_u256 currency_out amount_out_minimum in
  let actions := [V4_ACTION_SWAP_EXACT_IN_SINGLE; V4_ACTION_SETTLE_ALL; V4_ACTION_TAKE_ALL] in
  let v4_input := encode_bytes_and_bytes_array actions [swap; settle; take] in
  let commands := encode_bytes [V4_SWAP_COMMAND] in
  let inputs := encode_bytes_array [v4_input] in
  let encoded := selector "execute(bytes,bytes[],uint256)" in
  let encoded := push_usize_word encoded (3 * WORD_BYTES) in
  let encoded := push_usize_word encoded (3 * WORD_BYTES + length commands) in
  let encoded := push_u256_word encoded deadline in
  Ok (encoded ++ commands ++ inputs).

(** ** Quotes *)
Definition v3_quote_exact_input_single (token_in token_out amount_in fee : Z) : TRes Bytes :=
  let? _ := validate_currency_pair token_in token_out in
  ensure! negb (amount_in =? 0) else "Uniswap V3 quote input is zero" ;;
  ensure! fee_fits fee else "Uniswap V3 quote fee does not fit uint24" ;;
  let encoded := selector "quoteExactInputSingle((address,address,uint256,uint24,uint160))" in
  let encoded := push_address_word encoded token_in in
  let encoded := push_address_word encoded token_out in
  let encoded := push_u256_word encoded amount_in in
  let encoded := push_u256_word encoded fee in
  Ok (push_u256_word encoded 0).

Definition v3_quote_exact_output_single (token_in token_out amount_out fee : Z) : TRes Bytes :=
  let? _ := validate_currency_pair token_in token_out in
  ensure! negb (amount_out =? 0) else "V3 exact-output quote amount is zero" ;;
  ensure! fee_fits fee else "V3 exact-output quote fee does not fit uint24" ;;
  let encoded := selector "quoteExactOutputSingle((address,address,uint256,uint24,uint160))" in
  let encoded := push_address_word encoded token_in in
  let encoded := push_address_word encoded token_out in
  let encoded := push_u256_word encoded amount_out in
  let encoded := push_u256_word encoded fee in
  Ok (push_u256_word encoded 0).

Definition camelot_v3_quote_exact_input_single (token_in token_out amount_in : Z) : TRes Bytes :=
  let? _ := validate_currency_pair token_in token_out in
  ensure! negb (amount_in =? 0) else "Camelot V3 quote input is zero" ;;
  let encoded := selector "quoteExactInputSingle(address,address,uint256,uint160)" in
  let encoded := push_address_word encoded token_in in
  let encoded := push_address_word encoded token_out in
  let encoded := push_u256_word encoded amount_in in
  Ok (push_u256_word encoded 0).

Definition camelot_v3_quote_exact_output_single (token_in token_out amount_out : Z) : TRes Bytes :=
  let? _ := validate_currency_pair token_in token_out in
  ensure! negb (amount_out =? 0) else "Camelot V3 exact-output quote amount is zero" ;;
  let encoded := selector "quoteExactOutputSingle(address,address,uint256,uint160)" in
  let encoded := push_address_word encoded token_in in
  let encoded := push_address_word encoded token_out in
  let encoded := push_u256_word encoded amount_out in
  Ok (push_u256_word encoded 0).

Definition lynex_algebra_v1_9_quote_exact_input_single (token_in token_out amount_in : Z) : TRes Bytes :=
  camelot_v3_quote_exact_input_single token_in token_out amount_in.
Definition lynex_algebra_v1_9_quote_exact_output_single (token_in token_out amount_out : Z) : TRes Bytes :=
  camelot_v3_quote_exact_output_single token_in token_out amount_out.

Definition v4_quote_exact_input_single (k : V4PoolKey) (zero_for_one : bool) (amount_in : Z) : TRes Bytes :=
  ensure! negb (amount_in =? 0) else "Uniswap V4 quote input is zero" ;;
  ensure! amount_in <=? U128_MAX else "Uniswap V4 quote input does not fit uint128" ;;
  ensure! currency0 k <? currency1 k else "Uniswap V4 quote currencies are not sorted" ;;
  let encoded := selector "quoteExactInputSingle(((address,address,uint24,int24,address),bool,uint128,bytes))" in
  let encoded := push_usize_word encoded WORD_BYTES in
  let encoded := push_address_word encoded (currency0 k) in
  let encoded := push_address_word encoded (currency1 k) in
  let encoded := push_u256_word encoded (key_fee_pips k) in
  let encoded := push_signed_i32_word encoded (key_tick_spacing k) in
  let encoded := push_address_word encoded (key_hooks k) in
  let encoded := push_bool_word encoded zero_for_one in
  let encoded := push_u256_word encoded amount_in in
  let encoded := push_usize_word encoded (8 * WORD_BYTES) in
  Ok (encoded ++ encode_bytes []).

(** ** Allowances *)
Definition permit2_allowance (owner token spender : Z) : TRes Bytes :=
  ensure! negb (owner =? 0) else "Permit2 allowance owner is zero" ;;
  let? _ := validate_currency_pair token spender in
  let encoded := selector "allowance(address,address,address)" in
  let encoded := push_address_word encoded owner in
  let encoded := push_address_word encoded token in
  Ok (push_address_word encoded spender).

Definition permit2_approve (token spender amount expiration : Z) : TRes Bytes :=
  let? _ := validate_currency_pair token spender in
  ensure! amount <=? UINT160_MAX else "Permit2 amount does not fit uint160" ;;
  ensure! expiration <? 2 ^ 48 else "Permit2 expiration does not fit uint48" ;;
  let encoded := selector "approve(address,address,uint160,uint48)" in
  let encoded := push_address_word encoded token in
  let encoded := push_address_word encoded spender in
  let encoded := push_u256_word encoded amount in
  Ok (push_u256_word encoded expiration).

(** ** The call of a swap request *)
Definition exact_input_calldata (q : ExactInputSwapRequest) (recipient : Z) : TRes Bytes :=
  match rq_route q with
  | SUniswapV3 _ _ fee =>
      v3_exact_input (rq_token_in q) (rq_token_out q) fee recipient (rq_amount_in q) (rq_amount_out_minimum q)
  | SPancakeSwapV3 _ _ fee =>
      pancake_v3_exact_input_single (rq_token_in q) (rq_token_out q) fee recipient (rq_deadline_unix_seconds q)
        (rq_amount_in q) (rq_amount_out_minimum q)
  | SCamelotV3 _ _ =>
      camelot_v3_exact_input_single (rq_token_in q) (rq_token_out q) recipient (rq_deadline_unix_seconds q)
        (rq_amount_in q) (rq_amount_out_minimum q)
  | SLynexAlgebraV1_9 _ _ =>
      lynex_algebra_v1_9_exact_input_single (rq_token_in q) (rq_token_out q) recipient (rq_deadline_unix_seconds q)
        (rq_amount_in q) (rq_amount_out_minimum q)
  | SV4 _ k =>
      v4_exact_input_single k (rq_token_in q =? currency0 k) (rq_amount_in q) (rq_amount_out_minimum q)
        (rq_token_in q) (rq_token_out q) (rq_deadline_unix_seconds q)
  end.
End calldata.

(** ** Calls of the wallet *)
Definition ERC20_BALANCE_OF_SELECTOR : Bytes := [112; 160; 130; 49].
Definition ERC20_ALLOWANCE_SELECTOR : Bytes := [221; 98; 237; 62].
Definition ERC20_TRANSFER_SELECTOR : Bytes := [169; 5; 156; 187].
Definition ERC20_APPROVE_SELECTOR : Bytes := [9; 94; 167; 179].

Definition encode_address (selector : Bytes) (address : Z) : Bytes := push_address_word selector address.
Definition encode_selector_address_u256 (selector : Bytes) (address amount : Z) : Bytes :=
  push_address_word selector address ++ be_bytes 32 amount.
Definition erc20_balance_of_calldata (owner : Z) : Bytes := encode_address ERC20_BALANCE_OF_SELECTOR owner.
Definition erc20_allowance_calldata (owner spender : Z) : Bytes :=
  push_address_word (push_address_word ERC20_ALLOWANCE_SELECTOR owner) spender.
Definition decode_abi_u256 (name : string) (encoded : Bytes) : TRes Z :=
  ensure! (length encoded =? 32)%nat else (name +:+ " result is not one ABI word")%string ;;
  Ok (from_be_slice encoded).

Definition native_transfer (recipient amount : Z) : TRes WalletCall :=
  ensure! negb (recipient =? 0) else "native transfer recipient is zero" ;;
  ensure! negb (amount =? 0) else "native transfer amount is zero" ;;
  Ok (mkCall recipient amount []).
Definition erc20_transfer (token recipient amount : Z) : TRes WalletCall :=
  ensure! negb (token =? 0) else "ERC-20 transfer token is zero" ;;
  ensure! negb (recipient =? 0) else "ERC-20 transfer recipient is zero" ;;
  ensure! negb (amount =? 0) else "ERC-20 transfer amount is zero" ;;
  Ok (mkCall token 0 (encode_selector_address_u256 ERC20_TRANSFER_SELECTOR recipient amount)).
Definition erc20_approval (token spender amount : Z) : TRes WalletCall :=
  ensure! negb (token =? 0) else "ERC-20 approval token is zero" ;;
  ensure! negb (spender =? 0) else "ERC-20 approval spender is zero" ;;
  Ok (mkCall token 0 (encode_selector_address_u256 ERC20_APPROVE_SELECTOR spender amount)).
Definition validated_contract_call (target value : Z) (calldata : Bytes) : TRes WalletCall :=
  ensure! negb (target =? 0) else "contract call target is zero" ;;
  ensure! negb (bool_decide (calldata = [])) else "contract call calldata is empty" ;;
  Ok (mkCall target value calldata).

Record WalletTransactionParameters := mkParameters {
  wp_chain_id : Z; wp_nonce : Z; wp_gas_limit : Z; wp_max_fee_per_gas : Z; wp_max_priority_fee_per_gas : Z;
}.
Definition validate_parameters (p : WalletTransactionParameters) : TRes unit :=
  ensure! negb (wp_chain_id p =? 0) else "wallet transaction chain id is zero" ;;
  ensure! negb (wp_gas_limit p =? 0) else "wallet transaction gas limit is zero" ;;
  ensure! negb (wp_max_fee_per_gas p =? 0) else "wallet transaction maximum fee is zero" ;;
  ensure! wp_max_priority_fee_per_gas p <=? wp_max_fee_per_gas p
    else "wallet transaction priority fee exceeds maximum fee" ;;
  Ok tt.
Definition maximum_native_cost (c : WalletCall) (p : WalletTransactionParameters) : TRes Z :=
  let? _ := validate_parameters p in
  or_err (gas ← checked_mul 256 (wp_gas_limit p) (wp_max_fee_per_gas p); checked_add 256 gas (call_value c))
    "wallet transaction maximum native cost overflow".
