(* ===== verification/CalldataFacts.v ===== *)
(** * What the calldata means

    Every builder of [Calldata] emits its selector followed by the ABI encoding of
    its arguments; a contract that decodes the call of a swap reads exactly the
    request. *)
From Stdlib Require Import Lia.
From stdpp Require Import base strings numbers list option.
From S2P Require Import Prelude ExecutionPlan Events Journal Nonce Abi Calldata.

#[local] Arguments be_bytes : simpl never.
#[local] Arguments word : simpl never.

(** ** Words *)
Lemma address_word a : uint 160 a -> repeat 0 12 ++ be_bytes 20 a = word a.
Proof.
  intros Ha. unfold word. change (be_bytes 32 a) with (be_bytes (12 + 20) a). rewrite be_bytes_app. change (256 ^ Z.of_nat 20) with (2 ^ 160).
  unfold uint in Ha. by rewrite Z.div_small, (proj1 (be_bytes_sign 12)).
Qed.

Definition i32 (x : Z) : Prop := - 2 ^ 31 <= x < 2 ^ 31.

Lemma i32_word x : i32 x -> repeat (if x <? 0 then 255 else 0) 28 ++ be_bytes 4 x = word (x mod 2 ^ 256).
Proof.
  intros Hx. unfold word. change (2 ^ 256) with (256 ^ Z.of_nat 32). rewrite be_bytes_mod. change (be_bytes 32 x) with (be_bytes (28 + 4) x). rewrite be_bytes_app.
  change (256 ^ Z.of_nat 4) with (2 ^ 32). unfold i32 in Hx. f_equal. destruct (Z.ltb_spec x 0).
  - rewrite <- (proj2 (be_bytes_sign 28)). f_equal. apply (Z.div_unique _ _ _ (x + 2 ^ 32)); lia.
  - rewrite <- (proj1 (be_bytes_sign 28)). f_equal. by rewrite Z.div_small by lia.
Qed.

Lemma fee_bytes fee : drop 1 (be_bytes 4 fee) = be_bytes 3 fee.
Proof. change (be_bytes 4 fee) with (be_bytes (1 + 3) fee). rewrite be_bytes_app. by rewrite drop_app_length' by (by rewrite be_bytes_length). Qed.

Lemma encode_words ws : encode (VTuple (map VWord ws)) = concat (map word ws).
Proof.
  cbn [encode]. rewrite map_map. unfold layout. cbn [value_dynamic encode].
  generalize (heads_len (map (fun w => (false, word w)) ws)). intros o.
  assert (tails (map (fun w => (false, word w)) ws) = []) as -> by (induction ws as [|w ws IH]; [done|]; cbn [map]; by rewrite tails_cons).
  rewrite app_nil_r. induction ws as [|w ws IH]; [done|]. cbn [map heads concat]. by rewrite IH.
Qed.

(** ** Byte strings *)
Lemma padding_ceil n : (n + padding n = div_ceil n WORD_BYTES * WORD_BYTES)%nat.
Proof.
  unfold padding, div_ceil, WORD_BYTES. change (32 - 1)%nat with 31%nat.
  pose proof (Nat.div_mod_eq (n + 31) 32). pose proof (Nat.mod_upper_bound (n + 31) 32). lia.
Qed.

Lemma encode_bytes_abi bs : encode_bytes bs = encode (VBytes bs).
Proof.
  unfold encode_bytes, resize, push_usize_word, push_u256_word. cbn [encode app]. fold (word (Z.of_nat (length bs))).
  rewrite length_app, word_length, <- padding_ceil. unfold WORD_BYTES.
  rewrite take_ge by (rewrite length_app, word_length; lia). rewrite <- app_assoc. do 3 f_equal. lia.
Qed.

Lemma push_offsets_heads encoded offset vs :
  push_offsets encoded offset (map encode_bytes vs) = encoded ++ heads offset (map item_of (map VBytes vs)).
Proof.
  revert encoded offset. induction vs as [|v vs IH]; intros encoded offset; cbn [map push_offsets]; [by rewrite app_nil_r|].
  rewrite IH. change (item_of (VBytes v)) with (true, encode (VBytes v)). cbn [heads]. rewrite encode_bytes_abi.
  unfold push_usize_word, push_u256_word. by rewrite <- app_assoc.
Qed.

Lemma fold_tails (l : list Bytes) acc : fold_left (fun encoded tail => encoded ++ tail) l acc = acc ++ concat l.
Proof. revert acc. induction l as [|x l IH]; intros acc; simpl; [by rewrite app_nil_r|]. by rewrite IH, <- app_assoc. Qed.

Lemma bytes_heads_len vs : heads_len (map item_of (map VBytes vs)) = (length vs * 32)%nat.
Proof. unfold heads_len. induction vs as [|v vs IH]; [done|]. cbn [map sum_list_with length]. rewrite IH. cbn. lia. Qed.

Lemma bytes_tails vs : tails (map item_of (map VBytes vs)) = concat (map encode_bytes vs).
Proof.
  induction vs as [|v vs IH]; [done|]. cbn [map concat]. change (item_of (VBytes v)) with (true, encode (VBytes v)).
  by rewrite tails_cons, IH, encode_bytes_abi.
Qed.

Lemma encode_bytes_array_abi vs : encode_bytes_array vs = encode (VArray (map VBytes vs)).
Proof.
  unfold encode_bytes_array. rewrite fold_tails, push_offsets_heads. cbn [encode]. change (map _ (map VBytes vs)) with (map item_of (map VBytes vs)).
  unfold layout. rewrite bytes_heads_len, bytes_tails, length_map, <- app_assoc. done.
Qed.

Lemma encode_tuple vs : encode (VTuple vs) = layout (map item_of vs).
Proof. done. Qed.

Lemma encode_bytes_and_bytes_array_abi bs vs :
  encode_bytes_and_bytes_array bs vs = encode (VTuple [VBytes bs; VArray (map VBytes vs)]).
Proof.
  unfold encode_bytes_and_bytes_array. rewrite encode_bytes_abi, encode_bytes_array_abi, encode_tuple.
  unfold item_of. cbn [map value_dynamic]. generalize (encode (VBytes bs)) (encode (VArray (map VBytes vs))). intros x y.
  unfold layout. cbn [heads]. rewrite !tails_cons. change (tails []) with (@nil Z). rewrite !app_nil_r.
  unfold push_usize_word, push_u256_word. rewrite <- !app_assoc. done.
Qed.

Lemma encode_address_u256_abi a x : uint 160 a -> encode_address_u256 a x = encode (VTuple [VWord a; VWord x]).
Proof.
  intros Ha. change (VTuple [VWord a; VWord x]) with (VTuple (map VWord [a; x])). rewrite encode_words. unfold encode_address_u256, push_address_word, push_u256_word.
  cbn [app map concat]. rewrite (address_word a Ha), app_nil_r. done.
Qed.

(** ** Calls *)
Definition vwords (l : list Z) : list abi_value := map VWord l.

Section calls.
Context `{EvmText}.

Lemma selector_length s : length (selector s) = 4%nat.
Proof. unfold selector. by rewrite length_take, be_bytes_length. Qed.

(** The two spellings of the calls of a V3-like router, and of the V4 router whose
    three nested payloads are decoded in turn. *)
Definition v3_call (token_in token_out fee recipient amount_in minimum : Z) : Bytes -> Prop :=
  abi_call (selector "exactInput((bytes,address,uint256,uint256))")
    [TTuple [TBytes; TWord; TWord; TWord]]
    [VTuple (VBytes (be_bytes 20 token_in ++ be_bytes 3 fee ++ be_bytes 20 token_out) :: vwords [recipient; amount_in; minimum])].

Definition single_call (signature : string) (args : list Z) : Bytes -> Prop :=
  abi_call (selector signature) (map (fun _ => TWord) args) (vwords args).

Definition v4_key_type : abi_type := TTuple [TWord; TWord; TWord; TWord; TWord].
Definition v4_key_value (k : V4PoolKey) : abi_value :=
  VTuple (vwords [currency0 k; currency1 k; key_fee_pips k; key_tick_spacing k mod 2 ^ 256; key_hooks k]).

Definition v4_call (k : V4PoolKey) (zero_for_one : bool) (token_in token_out deadline amount_in minimum : Z) (data : Bytes) : Prop :=
  exists input swap settle take_all,
    abi_call (selector "execute(bytes,bytes[],uint256)") [TBytes; TArray TBytes; TWord]
      [VBytes [V4_SWAP_COMMAND]; VArray [VBytes input]; VWord deadline] data /\
    decode (TTuple [TBytes; TArray TBytes]) input
    = Some (VTuple [VBytes [V4_ACTION_SWAP_EXACT_IN_SINGLE; V4_ACTION_SETTLE_ALL; V4_ACTION_TAKE_ALL];
                    VArray [VBytes swap; VBytes settle; VBytes take_all]]) /\
    decode (TTuple [TTuple [v4_key_type; TWord; TWord; TWord; TBytes]]) swap
    = Some (VTuple [VTuple [v4_key_value k; VWord (if zero_for_one then 1 else 0); VWord amount_in; VWord minimum; VBytes []]]) /\
    decode (TTuple [TWord; TWord]) settle = Some (VTuple (vwords [token_in; amount_in])) /\
    decode (TTuple [TWord; TWord]) take_all = Some (VTuple (vwords [token_out; minimum])).

(** ** Static calls *)
Lemma words_typed ws : Forall u256 ws -> Forall2 has_type (map (fun _ => TWord) ws) (vwords ws).
Proof. unfold vwords. induction 1; constructor; done. Qed.

Lemma words_size ws : length (encode (VTuple (vwords ws))) = (length ws * 32)%nat.
Proof. unfold vwords. rewrite encode_words. induction ws as [|w ws IH]; [done|]. cbn [map concat length]. rewrite length_app, word_length, IH. lia. Qed.

Lemma single_call_encode s ws :
  Forall u256 ws -> Z.of_nat (length ws) < 2 ^ 200 -> single_call s ws (selector s ++ concat (map word ws)).
Proof.
  intros Hws Hlen. unfold single_call. rewrite <- encode_words. apply abi_call_encode; [apply selector_length|by apply words_typed|].
  unfold fits. change (map VWord ws) with (vwords ws). rewrite words_size. lia.
Qed.

Lemma decode_words ws : Forall u256 ws -> Z.of_nat (length ws) < 2 ^ 200 ->
  decode (TTuple (map (fun _ => TWord) ws)) (encode (VTuple (vwords ws))) = Some (VTuple (vwords ws)).
Proof.
  intros Hws Hlen. rewrite <- (app_nil_r (encode _)). apply decode_encode.
  - by apply has_type_tuple, members_typed_forall2, words_typed.
  - unfold fits. rewrite words_size. lia.
Qed.

(** ** The builders *)
Lemma heads_len_cons i ms : heads_len (i :: ms) = (head_len i + heads_len ms)%nat.
Proof. done. Qed.
Lemma head_len_word w : head_len (false, word w) = 32%nat.
Proof. apply word_length. Qed.

(** Spell a layout out. *)
Ltac lay :=
  unfold layout; cbn [heads]; rewrite !tails_cons, !heads_len_cons; change (tails []) with (@nil Z); change (heads_len []) with 0%nat;
  cbn [encode app]; rewrite ?head_len_word, ?app_nil_r, <- ?app_assoc.

Lemma layout_one e : layout [(true, e)] = word 32 ++ e.
Proof. lay. done. Qed.

Lemma push_address e a : uint 160 a -> push_address_word e a = e ++ word a.
Proof. intros Ha. unfold push_address_word. by rewrite (address_word a Ha). Qed.
Lemma push_u256 e x : push_u256_word e x = e ++ word x.
Proof. done. Qed.
Lemma push_usize e n : push_usize_word e n = e ++ word (Z.of_nat n).
Proof. done. Qed.
Lemma push_signed e x : i32 x -> push_signed_i32_word e x = e ++ word (x mod 2 ^ 256).
Proof. intros Hx. unfold push_signed_i32_word. by rewrite (i32_word x Hx). Qed.

(** Machine types of the arguments. *)
Definition swap_typed (tin tout recipient amount_in minimum : Z) : Prop :=
  uint 160 tin /\ uint 160 tout /\ uint 160 recipient /\ u256 amount_in /\ u256 minimum.

Lemma u256_small w x : uint w x -> 0 <= w <= 256 -> u256 x.
Proof. unfold uint. intros Hx Hw. pose proof (Z.pow_le_mono_r 2 w 256). lia. Qed.

(** [res_inv] without computing the bytes of the result. *)
Lemma Ok_inj {E A} (a b : A) : @Ok E A a = Ok b -> b = a.
Proof. by intros [= ->]. Qed.
Ltac encoded_inv Hok :=
  repeat (apply rbind_Ok in Hok; let u := fresh "u" in let Hg := fresh "Hg" in destruct Hok as (u & Hg & Hok); cbv beta in Hok);
  apply Ok_inj in Hok; subst.
Ltac pushes :=
  unfold push_bool_word; rewrite ?push_address, ?push_usize, ?push_signed, ?push_u256 by done; rewrite <- ?app_assoc.
Ltac words_ok :=
  repeat apply Forall_cons_2; [..|apply Forall_nil_2]; try done; try (by eapply u256_small); unfold uint; try lia.

Lemma pancake_encodes tin tout fee r deadline x m cd :
  swap_typed tin tout r x m -> u64 deadline -> u32 fee ->
  pancake_v3_exact_input_single tin tout fee r deadline x m = Ok cd ->
  single_call "exactInputSingle((address,address,uint24,address,uint256,uint256,uint256,uint160))"
    [tin; tout; fee; r; deadline; x; m; 0] cd.
Proof.
  intros (Hi & Ho & Hr & Hx & Hm) Hd Hf. unfold pancake_v3_exact_input_single. intros Hok. encoded_inv Hok. pushes.
  eapply eq_ind; [apply single_call_encode; [words_ok|done]|]. cbn [map concat]. by rewrite app_nil_r.
Qed.

Lemma camelot_encodes tin tout r deadline x m cd :
  swap_typed tin tout r x m -> u64 deadline ->
  camelot_v3_exact_input_single tin tout r deadline x m = Ok cd ->
  single_call "exactInputSingle((address,address,address,uint256,uint256,uint256,uint160))"
    [tin; tout; r; deadline; x; m; 0] cd.
Proof.
  intros (Hi & Ho & Hr & Hx & Hm) Hd. unfold camelot_v3_exact_input_single. intros Hok. encoded_inv Hok. pushes.
  eapply eq_ind; [apply single_call_encode; [words_ok|done]|]. cbn [map concat]. by rewrite app_nil_r.
Qed.

Lemma bytes_size bs : (length (encode (VBytes bs)) <= length bs + 64)%nat.
Proof.
  cbn [encode]. rewrite !length_app, word_length, repeat_length.
  pose proof (padding_ceil (length bs)). unfold div_ceil, WORD_BYTES in *. pose proof (Nat.div_mod_eq (length bs + (32 - 1)) 32). lia.
Qed.

Lemma array_size vs : (length (encode (VArray (map VBytes vs))) <= 32 + length (concat vs) + 96 * length vs)%nat.
Proof.
  rewrite <- encode_bytes_array_abi. unfold encode_bytes_array. rewrite fold_tails, push_offsets_heads. pushes.
  rewrite !length_app, word_length, heads_length, bytes_heads_len. cbn [app length].
  assert (length (concat (map encode_bytes vs)) <= length (concat vs) + 64 * length vs)%nat; [|lia].
  induction vs as [|v vs IH]; [done|]. cbn [map concat length]. rewrite !length_app, encode_bytes_abi. pose proof (bytes_size v). lia.
Qed.

Lemma v3_args path r x m :
  encode (VTuple [VTuple (VBytes path :: vwords [r; x; m])])
  = word 32 ++ word 128 ++ word r ++ word x ++ word m ++ encode (VBytes path).
Proof.
  rewrite (encode_tuple [_]). unfold item_of. cbn [map vwords value_dynamic existsb orb].
  rewrite layout_one, encode_tuple. unfold item_of. cbn [map vwords value_dynamic].
  generalize (encode (VBytes path)). intros e. lay. done.
Qed.

Lemma v3_encodes tin tout fee r x m cd :
  swap_typed tin tout r x m -> v3_exact_input tin tout fee r x m = Ok cd -> v3_call tin tout fee r x m cd.
Proof.
  intros (Hi & Ho & Hr & Hx & Hm). unfold v3_exact_input. intros Hok. encoded_inv Hok.
  rewrite fee_bytes, encode_bytes_abi. pushes. unfold v3_call. set (path := be_bytes 20 tin ++ be_bytes 3 fee ++ be_bytes 20 tout).
  assert (Hp : length path = 43%nat) by (unfold path; by rewrite !length_app, !be_bytes_length).
  eapply eq_ind; [apply abi_call_encode; [apply selector_length|..]|by rewrite v3_args].
  - repeat constructor; unfold uint in *; try lia; done.
  - rewrite v3_args. unfold fits. rewrite !length_app, !word_length. pose proof (bytes_size path). lia.
Qed.

(** ** The V4 router *)
Lemma swap_args k zto x m :
  encode (VTuple [VTuple [v4_key_value k; VWord zto; VWord x; VWord m; VBytes []]])
  = word 32 ++ word (currency0 k) ++ word (currency1 k) ++ word (key_fee_pips k) ++ word (key_tick_spacing k mod 2 ^ 256)
    ++ word (key_hooks k) ++ word zto ++ word x ++ word m ++ word 288 ++ encode (VBytes []).
Proof.
  rewrite (encode_tuple [_]). unfold item_of. cbn [map v4_key_value vwords value_dynamic existsb orb].
  rewrite layout_one, encode_tuple. unfold item_of. cbn [map vwords value_dynamic existsb orb].
  generalize (encode (VBytes [])). intros e.
  assert (Ek : encode (v4_key_value k) = word (currency0 k) ++ word (currency1 k) ++ word (key_fee_pips k)
            ++ word (key_tick_spacing k mod 2 ^ 256) ++ word (key_hooks k)).
  { unfold v4_key_value, vwords. rewrite encode_words. cbn [map concat]. by rewrite app_nil_r. }
  assert (Hk : head_len (false, encode (v4_key_value k)) = 160%nat) by (unfold head_len; cbn [fst snd]; by rewrite Ek, !length_app, !word_length).
  cbn [value_dynamic v4_key_value vwords map existsb orb] in *.
  lay. rewrite Hk, Ek, <- !app_assoc. done.
Qed.

Lemma swap_params_abi k zfo x m :
  uint 160 (currency0 k) -> uint 160 (currency1 k) -> uint 160 (key_hooks k) -> i32 (key_tick_spacing k) ->
  v4_swap_params k zfo x m = encode (VTuple [VTuple [v4_key_value k; VWord (if zfo : bool then 1 else 0); VWord x; VWord m; VBytes []]]).
Proof.
  intros H0 H1 Hh Hs. rewrite swap_args. unfold v4_swap_params. rewrite encode_bytes_abi. pushes. done.
Qed.

Definition key_typed (k : V4PoolKey) : Prop :=
  uint 160 (currency0 k) /\ uint 160 (currency1 k) /\ u32 (key_fee_pips k) /\ i32 (key_tick_spacing k) /\ uint 160 (key_hooks k).

Lemma swap_decodes k zfo x m : key_typed k -> u256 x -> u256 m ->
  decode (TTuple [TTuple [v4_key_type; TWord; TWord; TWord; TBytes]]) (v4_swap_params k zfo x m)
  = Some (VTuple [VTuple [v4_key_value k; VWord (if zfo : bool then 1 else 0); VWord x; VWord m; VBytes []]]) /\
  (length (v4_swap_params k zfo x m) <= 400)%nat.
Proof.
  intros (H0 & H1 & Hf & Hs & Hh) Hx Hm. rewrite swap_params_abi by done.
  assert (Hlen : (length (encode (VTuple [VTuple [v4_key_value k; VWord (if zfo then 1 else 0); VWord x; VWord m; VBytes []]])) <= 400)%nat).
  { rewrite swap_args, !length_app, !word_length. pose proof (bytes_size []). simpl length in *. lia. }
  split; [|done]. rewrite <- (app_nil_r (encode _)). apply decode_encode; [|unfold fits; lia].
  cbn -[uint Z.pow Z.modulo]. pose proof (Z.mod_pos_bound (key_tick_spacing k) (2 ^ 256) eq_refl).
  split_and!; try done; try (by eapply u256_small); destruct zfo; unfold uint; lia.
Qed.

Lemma pair_decodes a x : uint 160 a -> u256 x ->
  decode (TTuple [TWord; TWord]) (encode_address_u256 a x) = Some (VTuple (vwords [a; x])) /\ length (encode_address_u256 a x) = 64%nat.
Proof.
  intros Ha Hx. rewrite encode_address_u256_abi by done. split; [|exact (words_size [a; x])].
  apply (decode_words [a; x]); [words_ok|done].
Qed.

Lemma payload_decodes bs vs : Z.of_nat (length bs + length (concat vs) + 100 * length vs) < 2 ^ 200 ->
  decode (TTuple [TBytes; TArray TBytes]) (encode_bytes_and_bytes_array bs vs) = Some (VTuple [VBytes bs; VArray (map VBytes vs)]) /\
  (length (encode_bytes_and_bytes_array bs vs) <= length bs + length (concat vs) + 100 * length vs + 160)%nat.
Proof.
  intros Hlen. rewrite encode_bytes_and_bytes_array_abi.
  assert (Hl : (length (encode (VTuple [VBytes bs; VArray (map VBytes vs)])) <= length bs + length (concat vs) + 100 * length vs + 160)%nat).
  { rewrite <- encode_bytes_and_bytes_array_abi. unfold encode_bytes_and_bytes_array.
    rewrite encode_bytes_array_abi, encode_bytes_abi. pushes. cbn [app]. rewrite !length_app, !word_length.
    pose proof (bytes_size bs). pose proof (array_size vs). lia. }
  split; [|done]. rewrite <- (app_nil_r (encode _)). apply decode_encode; [|unfold fits; lia].
  cbn -[uint]. rewrite length_map. split_and!; try done; [unfold uint; lia|]. by apply Forall_map, Forall_true.
Qed.

Lemma v4_encodes k zfo x m tin tout deadline cd :
  key_typed k -> uint 160 tin -> uint 160 tout -> u256 x -> u256 m -> u64 deadline ->
  v4_exact_input_single k zfo x m tin tout deadline = Ok cd -> v4_call k zfo tin tout deadline x m cd.
Proof.
  intros Hk Hi Ho Hx Hm Hd. unfold v4_exact_input_single. intros Hok. encoded_inv Hok.
  destruct (swap_decodes k zfo x m Hk Hx Hm) as [Hswap Hsl].
  destruct (pair_decodes tin x Hi Hx) as [Hsettle Hstl]. destruct (pair_decodes tout m Ho Hm) as [Htake Htl].
  set (swap := v4_swap_params k zfo x m) in *. set (settle := encode_address_u256 tin x) in *.
  set (take_all := encode_address_u256 tout m) in *.
  assert (Hc : (length (concat [swap; settle; take_all]) <= 528)%nat) by (cbn [concat]; rewrite !length_app; simpl length; lia).
  destruct (payload_decodes [V4_ACTION_SWAP_EXACT_IN_SINGLE; V4_ACTION_SETTLE_ALL; V4_ACTION_TAKE_ALL] [swap; settle; take_all])
    as [Hin Hinl]; [clear -Hc; change (length [swap; settle; take_all]) with 3%nat; change (length [_; _; _]) with 3%nat; lia|].
  set (input := encode_bytes_and_bytes_array _ _) in *.
  exists input, swap, settle, take_all. split; [|exact (conj Hin (conj Hswap (conj Hsettle Htake)))].
  clearbody input.
  assert (E : encode (VTuple [VBytes [V4_SWAP_COMMAND]; VArray [VBytes input]; VWord deadline])
            = word 96 ++ word (96 + Z.of_nat (length (encode_bytes [V4_SWAP_COMMAND]))) ++ word deadline
              ++ encode_bytes [V4_SWAP_COMMAND] ++ encode_bytes_array [input]).
  { rewrite encode_tuple, encode_bytes_abi, encode_bytes_array_abi. unfold item_of. cbn [map value_dynamic].
    generalize (encode (VBytes [V4_SWAP_COMMAND])) (encode (VArray [VBytes input])). intros a b. lay.
    change (head_len (true, a)) with 32%nat. change (head_len (true, b)) with 32%nat.
    by replace (Z.of_nat (32 + (32 + (32 + 0)) + length a)) with (96 + Z.of_nat (length a)) by lia. }
  eapply eq_ind; [apply abi_call_encode; [apply selector_length|..]|].
  - constructor; [exact I|]. constructor; [split; [change (u256 1); done|repeat constructor]|]. constructor; [|constructor].
    by apply (u256_small 64).
  - rewrite E. unfold fits. rewrite !length_app, !word_length, encode_bytes_array_abi, encode_bytes_abi.
    pose proof (array_size [input]). pose proof (bytes_size [V4_SWAP_COMMAND]). cbn [concat length map] in *.
    rewrite app_nil_r in *. lia.
  - rewrite E. pushes. rewrite Nat2Z.inj_add. reflexivity.
Qed.

(** ** Swap requests *)
Definition request_typed (q : ExactInputSwapRequest) : Prop :=
  uint 160 (rq_token_in q) /\ uint 160 (rq_token_out q) /\ u256 (rq_amount_in q) /\ u256 (rq_amount_out_minimum q) /\
  u64 (rq_deadline_unix_seconds q) /\
  match rq_route q with
  | SUniswapV3 _ _ fee | SPancakeSwapV3 _ _ fee => u32 fee
  | SCamelotV3 _ _ | SLynexAlgebraV1_9 _ _ => True
  | SV4 _ k => key_typed k
  end.

(** What the router of the route is told to do. *)
Definition swap_call (q : ExactInputSwapRequest) (recipient : Z) : Bytes -> Prop :=
  let '(tin, tout) := (rq_token_in q, rq_token_out q) in
  let '(x, m, deadline) := (rq_amount_in q, rq_amount_out_minimum q, rq_deadline_unix_seconds q) in
  match rq_route q with
  | SUniswapV3 _ _ fee => v3_call tin tout fee recipient x m
  | SPancakeSwapV3 _ _ fee =>
      single_call "exactInputSingle((address,address,uint24,address,uint256,uint256,uint256,uint160))"
        [tin; tout; fee; recipient; deadline; x; m; 0]
  | SCamelotV3 _ _ | SLynexAlgebraV1_9 _ _ =>
      single_call "exactInputSingle((address,address,address,uint256,uint256,uint256,uint160))"
        [tin; tout; recipient; deadline; x; m; 0]
  | SV4 _ k => v4_call k (tin =? currency0 k) tin tout deadline x m
  end.

(** What the encoders ask beyond a valid request. *)
Definition encodable (q : ExactInputSwapRequest) : bool :=
  match rq_route q with
  | SUniswapV3 _ _ _ => true
  | SPancakeSwapV3 _ _ _ => 0 <? rq_deadline_unix_seconds q
  | SCamelotV3 _ _ | SLynexAlgebraV1_9 _ _ =>
      (0 <? rq_deadline_unix_seconds q)
      && bool_decide (selector "exactInputSingle((address,address,address,uint256,uint256,uint256,uint160))" = CAMELOT_SELECTOR)
  | SV4 _ k =>
      (0 <? rq_deadline_unix_seconds q) && fee_fits (key_fee_pips k)
      && ((-8388608 <=? key_tick_spacing k) && (key_tick_spacing k <=? 8388607))
      && ((rq_amount_in q <=? U128_MAX) && (rq_amount_out_minimum q <=? U128_MAX))
  end.

Lemma valid_request q : validate_request q = Ok tt ->
  validate_currency_pair (rq_token_in q) (rq_token_out q) = Ok tt /\
  negb (rq_amount_in q =? 0) = true /\ negb (rq_amount_out_minimum q =? 0) = true /\
  match rq_route q with
  | SUniswapV3 _ _ fee | SPancakeSwapV3 _ _ fee => fee_fits fee = true
  | SCamelotV3 _ _ | SLynexAlgebraV1_9 _ _ => True
  | SV4 _ k => (currency0 k <? currency1 k) = true /\
      (((rq_token_in q =? currency0 k) && (rq_token_out q =? currency1 k))
       || ((rq_token_in q =? currency1 k) && (rq_token_out q =? currency0 k))) = true
  end.
Proof.
  unfold validate_request, validate_currency_pair. intros Hok.
  repeat (apply rbind_Ok in Hok; let u := fresh "u" in let Hg := fresh "Hg" in
          destruct Hok as (u & Hg & Hok); apply ensure_Ok in Hg; cbv beta in Hok).
  repeat match goal with G : ?b = true |- context [ensure ?b _] => rewrite G end.
  split; [done|]. split; [done|]. split; [done|].
  destruct (rq_route q); try done; res_inv; done.
Qed.

(** C15. The calldata of a swap request means the request.  Whenever it is built, the
    router of the route decodes from it exactly the request's tokens, fee or pool
    key, recipient, deadline, input amount and minimum output, through every nested
    payload of the V4 router; and a valid request within the encoders' ranges
    always builds. *)
Theorem swap_calldata_exact q recipient :
  request_typed q -> uint 160 recipient -> recipient <> 0 ->
  (forall cd, exact_input_calldata q recipient = Ok cd -> swap_call q recipient cd) /\
  (validate_request q = Ok tt -> encodable q = true -> exists cd, exact_input_calldata q recipient = Ok cd).
Proof.
  intros (Hi & Ho & Hx & Hm & Hd & Hr) Hrec Hnz. split.
  - intros cd. unfold exact_input_calldata, swap_call. destruct (rq_route q) eqn:E.
    + by apply v3_encodes.
    + by apply pancake_encodes.
    + by apply camelot_encodes.
    + by apply camelot_encodes.
    + by apply v4_encodes.
  - intros (Hp & Hx0 & Hm0 & Hv)%valid_request He. unfold exact_input_calldata, encodable in *. destruct (rq_route q) as [? ? fee|? ? fee|? ?|? ?|? k] eqn:E;
      unfold v3_exact_input, pancake_v3_exact_input_single, lynex_algebra_v1_9_exact_input_single, camelot_v3_exact_input_single, v4_exact_input_single;
      rewrite Hp, Hx0, ?Hm0, ?(proj2 (Z.eqb_neq recipient 0) Hnz).
    + rewrite Hv. by eexists.
    + rewrite He, Hv. by eexists.
    + apply andb_true_iff in He as [He Hs]. rewrite He, Hs. by eexists.
    + apply andb_true_iff in He as [He Hs]. rewrite He, Hs. by eexists.
    + apply andb_true_iff in He as [[[He Hf]%andb_true_iff Ht]%andb_true_iff Ha]. destruct Hv as [Hs Hdir].
      rewrite He, Hs, Hf, Ht, Ha. cbn [rbind ensure].
      assert (((rq_token_in q =? currency0 k) && (rq_token_in q =? currency0 k) && (rq_token_out q =? currency1 k)
               || negb (rq_token_in q =? currency0 k) && (rq_token_in q =? currency1 k) && (rq_token_out q =? currency0 k)) = true) as ->.
      { apply Z.ltb_lt in Hs. destruct (Z.eqb_spec (rq_token_in q) (currency0 k)) as [->|]; cbn [andb orb negb] in *; [|done].
        rewrite (proj2 (Z.eqb_neq (currency0 k) (currency1 k))) in Hdir by lia. cbn [andb] in Hdir. exact Hdir. }
      by eexists.
Qed.
End calls.

(** ** Answers *)
Lemma word_of_words ws i : Forall u256 ws -> (i < length ws)%nat -> Some (word_of (encode (VTuple (vwords ws))) i) = ws !! i.
Proof.
  intros Hws. unfold vwords. rewrite encode_words. unfold word_of, from_be_slice, WORD_BYTES. revert i.
  induction Hws as [|w ws Hw _ IH]; intros i Hi; [simpl in Hi; lia|]. cbn [map concat length] in *. destruct i as [|i].
  - rewrite Nat.mul_0_l, drop_0, take_app_length' by (by rewrite word_length). unfold word. by rewrite word_value.
  - rewrite Nat.mul_succ_l, Nat.add_comm, <- drop_drop, drop_app_length' by (by rewrite word_length).
    change ((w :: ws) !! S i) with (ws !! i). rewrite <- (IH i) by lia. done.
Qed.

(** An allowance read back from Permit2 is what the contract returned, and it is
    refused exactly when it is outside the types of the contract. *)
Lemma permit2_answer amount expiration nonce :
  u256 amount -> u256 expiration -> u256 nonce ->
  decode_permit2_allowance (encode (VTuple (vwords [amount; expiration; nonce]))) = Ok (amount, expiration)
  <-> uint 160 amount /\ uint 48 expiration.
Proof.
  intros Ha He Hn. assert (Hws : Forall u256 [amount; expiration; nonce]) by (do 3 (apply Forall_cons_2; [done|]); apply Forall_nil_2).
  pose proof (word_of_words _ 0 Hws ltac:(simpl; lia)) as E0. pose proof (word_of_words _ 1 Hws ltac:(simpl; lia)) as E1.
  pose proof (words_size [amount; expiration; nonce]) as El. generalize dependent (encode (VTuple (vwords [amount; expiration; nonce]))).
  intros data E0 E1 El. apply (inj Some) in E0, E1. unfold decode_permit2_allowance. rewrite El, E0, E1. cbn [rbind ensure].
  change (3 * WORD_BYTES <=? length [amount; expiration; nonce] * 32)%nat with true. cbn [rbind ensure].
  unfold UINT160_MAX, uint in *. destruct (Z.leb_spec amount (2 ^ 160 - 1)), (Z.ltb_spec expiration (2 ^ 64)), (Z.ltb_spec expiration (2 ^ 48));
    cbn [ensure rbind]; split; intros Hx; try done; lia.
Qed.
