(* ===== verification/Settlement.v ===== *)
(** * Settlement of a swap receipt ([src/src/dex/execution.rs], [src/src/chain/rpc.rs])

    The receipt of a mined swap: the balance changes its Transfer logs prove, and
    the Swap and Fee logs of the routed pool. *)
From Stdlib Require Import Lia.
From stdpp Require Import base strings numbers list option.
From S2P Require Import Prelude ExecutionPlan TradeData Events Journal Nonce.

(** ** Receipts *)
Record ReceiptLogPosition := mkLogPosition {
  rp_transaction_hash : Z; rp_block_number : Z; rp_block_hash : Z; rp_transaction_index : Z;
  rp_log_index : Z; rp_removed : bool;
}.
Record ReceiptLog := mkReceiptLog {
  rl_address : Z; rl_topics : list Z; rl_data : list Z; rl_position : option ReceiptLogPosition;
}.
(** [TransactionReceipt]: the part the nonce lane reads and the rest. *)
Record DexReceipt := mkDexReceipt {
  dr_receipt : TransactionReceipt; dr_gas_used : Z; dr_effective_gas_price : Z; dr_l1_fee : Z;
  dr_logs : list ReceiptLog;
}.

Definition chain_log (l : ReceiptLog) : TRes ChainLog :=
  let? p := or_err (rl_position l) "receipt log has no canonical position" in
  Ok (mkChainLog (rl_address l) (rl_topics l) (rl_data l) (rp_block_number p) (rp_block_hash p)
        (rp_transaction_index p) (rp_log_index p) (rp_removed p)).

Inductive ReceiptSettlementKind := KFee | KSwap.
Record ReceiptSettlementLogs := mkSettlement {
  rs_fee : option AdaptiveFeeReceiptProof; rs_swap : option ChainLog;
}.
Definition no_settlement : ReceiptSettlementLogs := mkSettlement None None.

Definition zero_bytes (from n : nat) (data : list Z) : bool := bool_decide (take n (drop from data) = repeat 0 n).
Definition u16_at (data : list Z) (i : nat) : Z := be_value (take 2 (drop i data)).

(** The address that must have emitted a log of the pool, if the locator names one. *)
Definition locator_address (l : PoolLocator) : option Z :=
  match l with
  | AtV3 pool | AtPancakeV3 pool | AtCamelotV3 pool | AtLynexAlgebraV1_9 pool => Some pool
  | AtV4 _ => None
  end.
Definition proof_address (p : AdaptiveFeeReceiptProof) : Z :=
  match p with CamelotProof pool _ _ _ _ _ _ | LynexProof pool _ _ _ _ _ => pool end.
Definition fee_block_hash (p : AdaptiveFeeReceiptProof) : Z :=
  match p with CamelotProof _ _ _ _ h _ _ | LynexProof _ _ _ h _ _ => h end.

Section settlement.
Context `{EvmText}.

Definition expected_locator (r : SwapRoute) : PoolLocator :=
  match r with
  | SUniswapV3 _ pool _ => AtV3 pool
  | SPancakeSwapV3 _ pool _ => AtPancakeV3 pool
  | SCamelotV3 _ pool => AtCamelotV3 pool
  | SLynexAlgebraV1_9 _ pool => AtLynexAlgebraV1_9 pool
  | SV4 _ k => AtV4 (pool_id k)
  end.

(** Topics that belong to another provider of the routed pool's kind. *)
Definition foreign_topics (expected : PoolLocator) : list Z :=
  match expected with
  | AtV3 _ => [pancake_v3_swap_topic; camelot_fee_topic; lynex_algebra_v1_9_fee_topic]
  | AtPancakeV3 _ => [v3_swap_topic; camelot_fee_topic; lynex_algebra_v1_9_fee_topic]
  | AtCamelotV3 _ => [pancake_v3_swap_topic; lynex_algebra_v1_9_fee_topic]
  | AtLynexAlgebraV1_9 _ => [pancake_v3_swap_topic; camelot_fee_topic]
  | AtV4 _ => []
  end.
Definition foreign_error (expected : PoolLocator) : string :=
  match expected with
  | AtV3 _ => "receipt event topic does not match its routed Uniswap V3 provider"
  | AtPancakeV3 _ => "receipt event topic does not match its routed Pancake V3 provider"
  | AtCamelotV3 _ => "receipt event topic does not match its routed Camelot V3 provider"
  | AtLynexAlgebraV1_9 _ => "receipt event topic does not match its routed Lynex Algebra V1.9 provider"
  | AtV4 _ => ""
  end.

Definition topics_are (l : ReceiptLog) (n : nat) : bool := (length (rl_topics l) =? n)%nat.
Definition data_is (l : ReceiptLog) (n : nat) : bool := (length (rl_data l) =? n * 32)%nat.

Definition swap_shape (l : ReceiptLog) (n : nat) (topics data : string) : TRes (option ReceiptSettlementKind) :=
  ensure! topics_are l 3 else topics ;;
  ensure! data_is l n else data ;;
  Ok (Some KSwap).

Definition receipt_settlement_kind (l : ReceiptLog) (expected : PoolLocator) : TRes (option ReceiptSettlementKind) :=
  match head (rl_topics l) with
  | None => Ok None
  | Some signature =>
      ensure! negb (existsb (Z.eqb signature) (foreign_topics expected)) else foreign_error expected ;;
      match expected with
      | AtV3 _ =>
          if signature =? v3_swap_topic then swap_shape l 5 "invalid V3 Swap topic count" "invalid V3 Swap data length"
          else Ok None
      | AtPancakeV3 _ =>
          if signature =? pancake_v3_swap_topic then
            let? k := swap_shape l 7 "invalid Pancake V3 Swap topic count" "invalid Pancake V3 Swap data length" in
            ensure! zero_bytes 160 16 (rl_data l) && zero_bytes 192 16 (rl_data l)
              else "Pancake V3 protocol fee does not fit uint128" ;;
            Ok k
          else Ok None
      | AtCamelotV3 _ =>
          if signature =? camelot_fee_topic then
            ensure! topics_are l 1 else "invalid Camelot Fee topic count" ;;
            ensure! data_is l 2 else "invalid Camelot Fee data length" ;;
            ensure! zero_bytes 0 30 (rl_data l) && zero_bytes 32 30 (rl_data l) else "Camelot Fee does not fit uint16" ;;
            Ok (Some KFee)
          else if signature =? v3_swap_topic then
            swap_shape l 5 "invalid Camelot Swap topic count" "invalid Camelot Swap data length"
          else Ok None
      | AtLynexAlgebraV1_9 _ =>
          if signature =? v3_swap_topic then
            swap_shape l 5 "invalid Lynex Swap topic count" "invalid Lynex Swap data length"
          else if signature =? lynex_algebra_v1_9_fee_topic then
            ensure! topics_are l 1 else "invalid Lynex Fee topic count" ;;
            ensure! data_is l 1 else "invalid Lynex Fee data length" ;;
            ensure! zero_bytes 0 30 (rl_data l) else "Lynex Fee does not fit uint16" ;;
            Ok (Some KFee)
          else Ok None
      | AtV4 id =>
          if signature =? v4_swap_topic then
            let? k := swap_shape l 6 "invalid V4 Swap topic count" "invalid V4 Swap data length" in
            Ok (if bool_decide (rl_topics l !! 1%nat = Some id) then k else None)
          else Ok None
      end
  end.

Definition fee_proof (expected : PoolLocator) (l : ReceiptLog) (p : ReceiptLogPosition) : TRes AdaptiveFeeReceiptProof :=
  match expected with
  | AtCamelotV3 _ =>
      Ok (CamelotProof (rl_address l) (u16_at (rl_data l) 30) (u16_at (rl_data l) 62) (rp_block_number p) (rp_block_hash p)
            (rp_transaction_index p) (rp_log_index p))
  | AtLynexAlgebraV1_9 _ =>
      Ok (LynexProof (rl_address l) (u16_at (rl_data l) 30) (rp_block_number p) (rp_block_hash p)
            (rp_transaction_index p) (rp_log_index p))
  | _ => Err "static-fee route receipt contains an adaptive Fee event"
  end.

Definition position_of_receipt (hash : Z) (l : ReceiptLog) : bool :=
  match rl_position l with Some p => rp_transaction_hash p =? hash | None => true end.

(** One pass over the logs: the Fee and the Swap matched so far. *)
Fixpoint match_logs (hash : Z) (expected : PoolLocator) (logs : list ReceiptLog) (fee : option AdaptiveFeeReceiptProof)
    (swap : option ChainLog) : TRes ReceiptSettlementLogs :=
  match logs with
  | [] => Ok (mkSettlement fee swap)
  | l :: rest =>
      ensure! position_of_receipt hash l else "DEX receipt log belongs to another transaction" ;;
      if match locator_address expected with Some pool => negb (rl_address l =? pool) | None => false end
      then match_logs hash expected rest fee swap
      else
        let? kind := receipt_settlement_kind l expected in
        match kind with
        | None => match_logs hash expected rest fee swap
        | Some KFee =>
            ensure! bool_decide (fee = None) else "DEX receipt contains duplicate route Fee events" ;;
            let? p := or_err (rl_position l) "adaptive Algebra receipt Fee has no canonical position" in
            let? f := fee_proof expected l p in
            match_logs hash expected rest (Some f) swap
        | Some KSwap =>
            match chain_log l with
            | Err _ => match_logs hash expected rest fee swap
            | Ok log =>
                ensure! bool_decide (swap = None) else "DEX receipt contains duplicate route Swap events" ;;
                match_logs hash expected rest fee (Some log)
            end
        end
  end.

Definition adaptive (l : PoolLocator) : bool :=
  match l with AtCamelotV3 _ | AtLynexAlgebraV1_9 _ => true | _ => false end.

Definition fee_before_swap (fee : AdaptiveFeeReceiptProof) (swap : ChainLog) : bool :=
  (proof_address fee =? log_address swap)
  && (lp_block_number (proof_position fee) =? log_block_number swap)
  && (fee_block_hash fee =? log_block_hash swap)
  && (lp_transaction_index (proof_position fee) =? log_transaction_index swap)
  && (lp_log_index (proof_position fee) <? log_log_index swap).

Definition settlement_logs_for_route (r : DexReceipt) (route : SwapRoute) : TRes ReceiptSettlementLogs :=
  let expected := expected_locator route in
  let? matched := match_logs (rc_hash (dr_receipt r)) expected (dr_logs r) None None in
  if adaptive expected then
    match rs_fee matched, rs_swap matched with
    | Some fee, Some swap =>
        ensure! fee_before_swap fee swap
          else "adaptive Algebra receipt Fee is not positionally before Swap in one transaction" ;;
        Ok (mkSettlement (Some fee) (Some swap))
    | _, _ => Ok no_settlement
    end
  else
    ensure! bool_decide (rs_fee matched = None) else "static-fee route receipt contains an adaptive Algebra Fee event" ;;
    Ok (mkSettlement None (rs_swap matched)).

(** ** Transfers *)
Definition transfer_topic : Z := topic_of "Transfer(address,address,uint256)".
Definition is_transfer (token : Z) (l : ReceiptLog) : bool :=
  (rl_address l =? token) && bool_decide (head (rl_topics l) = Some transfer_topic).
Definition topic_address (topic : Z) : Z := be_value (drop 12 (topic_bytes topic)).
Definition log_topic (l : ReceiptLog) (i : nat) : Z := default 0 (rl_topics l !! i).
Definition transfer_from (l : ReceiptLog) : Z := topic_address (log_topic l 1).
Definition transfer_to (l : ReceiptLog) : Z := topic_address (log_topic l 2).
Definition transfer_amount (l : ReceiptLog) : Z := be_value (rl_data l).

(** Received and sent. *)
Fixpoint sum_transfers (logs : list ReceiptLog) (token wallet received sent : Z) : TRes (Z * Z) :=
  match logs with
  | [] => Ok (received, sent)
  | l :: rest =>
      if is_transfer token l then
        ensure! topics_are l 3 else "ERC-20 Transfer log has wrong topics" ;;
        ensure! (length (rl_data l) =? 32)%nat else "ERC-20 Transfer log amount is not one word" ;;
        let? received :=
          (if transfer_to l =? wallet
           then or_err (checked_add 256 received (transfer_amount l)) "received ERC-20 transfer sum overflow"
           else Ok received) in
        let? sent :=
          (if transfer_from l =? wallet
           then or_err (checked_add 256 sent (transfer_amount l)) "sent ERC-20 transfer sum overflow"
           else Ok sent) in
        sum_transfers rest token wallet received sent
      else sum_transfers rest token wallet received sent
  end.
Definition wallet_transfer_totals (logs : list ReceiptLog) (token wallet : Z) : TRes (Z * Z) :=
  sum_transfers logs token wallet 0 0.

(** The deltas of a successful swap: spent and received, checked against the request. *)
Definition swap_deltas (q : ExactInputSwapRequest) (wallet : Z) (logs : list ReceiptLog) : TRes (Z * Z) :=
  let? '(in_received, in_sent) := wallet_transfer_totals logs (rq_token_in q) wallet in
  let? '(out_received, out_sent) := wallet_transfer_totals logs (rq_token_out q) wallet in
  let? spent := or_err (checked_sub in_sent in_received) "DEX input-token receipt delta is not negative" in
  let? received := or_err (checked_sub out_received out_sent) "DEX output-token receipt delta is not positive" in
  ensure! spent =? rq_amount_in q else "DEX receipt input-token delta differs from the submitted exact input" ;;
  ensure! rq_amount_out_minimum q <=? received else "DEX receipt output-token delta is below the submitted minimum" ;;
  Ok (spent, received).

(** ** What a settlement proves *)

(** The net change of a wallet's token balance by the Transfer logs of a receipt. *)
Definition transfer_delta (token wallet : Z) (l : ReceiptLog) : Z :=
  if is_transfer token l
  then (if transfer_to l =? wallet then transfer_amount l else 0) - (if transfer_from l =? wallet then transfer_amount l else 0)
  else 0.
Definition balance_delta (logs : list ReceiptLog) (token wallet : Z) : Z :=
  foldr (fun l acc => transfer_delta token wallet l + acc) 0 logs.

Lemma add_if (b : bool) x y z (e : string) :
  (if b then or_err (checked_add 256 x y) e else Ok x) = Ok z -> z = x + (if b then y else 0).
Proof.
  destruct b; [intros Ha%or_err_Ok%checked_add_Some; by destruct Ha|]. intros Ha. rewrite Z.add_0_r. by injection Ha.
Qed.

Lemma sum_transfers_delta logs token wallet r s r' s' :
  sum_transfers logs token wallet r s = Ok (r', s') -> r' - s' = r - s + balance_delta logs token wallet.
Proof.
  unfold balance_delta. revert r s. induction logs as [|l logs IH]; intros r s Hs; cbn [sum_transfers foldr] in Hs |- *.
  - injection Hs as -> ->. lia.
  - unfold transfer_delta at 1. destruct (is_transfer token l); [|rewrite (IH _ _ Hs); lia].
    apply rbind_Ok in Hs as (? & _ & Hs). cbv beta in Hs. apply rbind_Ok in Hs as (? & _ & Hs). cbv beta in Hs.
    apply rbind_Ok in Hs as (r1 & Hr & Hs). cbv beta in Hs. apply rbind_Ok in Hs as (s1 & Hs1 & Hs). cbv beta in Hs. rewrite (IH _ _ Hs), (add_if _ _ _ _ _ Hr), (add_if _ _ _ _ _ Hs1). lia.
Qed.

Lemma swap_deltas_exact q wallet logs spent received :
  swap_deltas q wallet logs = Ok (spent, received) ->
  balance_delta logs (rq_token_in q) wallet = - rq_amount_in q /\ spent = rq_amount_in q /\
  balance_delta logs (rq_token_out q) wallet = received /\ rq_amount_out_minimum q <= received.
Proof.
  unfold swap_deltas, wallet_transfer_totals. intros Hd.
  apply rbind_Ok in Hd as ([inr ins] & Hi & Hd). apply rbind_Ok in Hd as ([outr outs] & Ho & Hd).
  cbv beta iota in Hd. apply rbind_Ok in Hd as (x & Hx & Hd). apply rbind_Ok in Hd as (y & Hy & Hd).
  apply or_err_Ok, checked_sub_Some in Hx, Hy. apply sum_transfers_delta in Hi, Ho. res_inv. bool_prop. lia.
Qed.
End settlement.
