(* ===== verification/Executor.v ===== *)
(** * The DEX executor ([src/src/dex/execution.rs])

    The owner of one wallet on one chain: its gas and fee policies, allowances, the
    execution of one call through journal, nonce lane, signature, broadcast and
    receipt, and the swap around it.  Answers of the endpoint, the clock, the
    signature and the faults of the journal file are the record [Outside], indexed
    by a tick that advances at every interaction; [w_wire] is what was handed to the
    network, newest first.  Telemetry is left out. *)
From Stdlib Require Import Ascii Lia.
From stdpp Require Import base gmap strings numbers list option pretty.
From S2P Require Import Prelude ExecutionPlan TradeData PlanBuild Events CostAccounting Journal Nonce Calldata Settlement.

(** ** Constants *)
Definition RAILS_PRIORITY_FEE_WEI : Z := 1500000.
Definition RAILS_FALLBACK_GAS_PRICE_WEI : Z := 100000.
Definition RAILS_APPROVAL_DEFAULT_GAS_LIMIT : Z := 800000.
Definition HISTORICAL_SWAP_GAS_LIMIT : Z := 250000.
Definition CAMELOT_V3_SWAP_GAS_LIMIT : Z := 1000000.
Definition LYNEX_ALGEBRA_V1_9_SWAP_GAS_LIMIT : Z := 1000000.
Definition RAILS_PERMIT2_APPROVAL_GAS_LIMIT : Z := 120000.
Definition CAPITAL_TRANSFER_GAS_LIMIT : Z := 200000.
Definition GAS_PRICE_CACHE_TTL_MS : Z := 2000.
Definition PERMIT2_APPROVAL_VALIDITY_SECONDS : Z := 30 * 24 * 60 * 60.
Definition PERMIT2_MIN_REMAINING_VALIDITY_SECONDS : Z := 60 * 60.
Definition PERMIT2_ADDRESS : Z := 0x000000000022d473030f116ddee9f6b43ac78ba3.

(** ** Policies *)
#[global] Instance DexProtocol_eq_dec : EqDecision DexProtocol.
Proof. solve_decision. Defined.

Definition protocol_label (p : DexProtocol) : string :=
  match p with
  | ProtoUniswapV3 => "uniswap_v3"
  | ProtoPancakeSwapV3 => "pancakeswap_v3"
  | ProtoCamelotV3 => "camelot_v3"
  | ProtoLynexAlgebraV1_9 => "lynex_algebra_v1_9"
  | ProtoUniswapV4 => "uniswap_v4"
  end.
Definition route_protocol (r : SwapRoute) : DexProtocol :=
  match r with
  | SUniswapV3 _ _ _ => ProtoUniswapV3
  | SPancakeSwapV3 _ _ _ => ProtoPancakeSwapV3
  | SCamelotV3 _ _ => ProtoCamelotV3
  | SLynexAlgebraV1_9 _ _ => ProtoLynexAlgebraV1_9
  | SV4 _ _ => ProtoUniswapV4
  end.

Inductive CompiledNetworkGasPolicy :=
  | WorldChainV12 (fallback_gas_price_wei : Z) (includes_l1_fee : bool)
  | ArbitrumOne (requires_fresh_rpc_gas_price : bool) (max_priority_fee_per_gas_wei max_fee_headroom_bps : Z) (includes_l1_fee : bool)
  | LineaMainnet (requires_fresh_rpc_gas_price max_priority_fee_equals_gas_price : bool) (max_fee_headroom_bps : Z) (includes_l1_fee : bool)
  | ReadOnly.

Record GasLimitPolicy := mkGasLimit { gl_multiplier : Z; gl_minimum : Z; gl_default : Z; gl_additional : Z }.

Definition for_swap (p : DexProtocol) (additional : Z) : GasLimitPolicy :=
  match p with
  | ProtoUniswapV3 | ProtoPancakeSwapV3 => mkGasLimit 2 0 HISTORICAL_SWAP_GAS_LIMIT additional
  | ProtoCamelotV3 => mkGasLimit 2 0 CAMELOT_V3_SWAP_GAS_LIMIT additional
  | ProtoLynexAlgebraV1_9 => mkGasLimit 2 0 LYNEX_ALGEBRA_V1_9_SWAP_GAS_LIMIT additional
  | ProtoUniswapV4 => mkGasLimit 4 HISTORICAL_SWAP_GAS_LIMIT HISTORICAL_SWAP_GAS_LIMIT additional
  end.
Definition fixed (limit : Z) : GasLimitPolicy := mkGasLimit 1 limit limit 0.

Definition resolve (g : GasLimitPolicy) (quoted_gas : option Z) (estimated_gas : Z) : TRes Z :=
  ensure! 0 <? estimated_gas else "RPC returned zero gas estimate" ;;
  let? multiplied := or_err (checked_mul 64 estimated_gas (gl_multiplier g)) "estimated gas multiplier overflow" in
  let? rails :=
    match quoted_gas with
    | Some quoted => or_err (checked_mul 64 quoted (gl_multiplier g)) "Rails-compatible gas multiplier overflow"
    | None => Ok (Z.max (gl_default g) multiplied)
    end in
  let? estimate_with_extra := or_err (checked_add 64 estimated_gas (gl_additional g)) "estimated gas addition overflow" in
  let? rails_with_extra := or_err (checked_add 64 (Z.max rails (gl_minimum g)) (gl_additional g)) "Rails-compatible gas addition overflow" in
  let limit := Z.max rails_with_extra estimate_with_extra in
  ensure! limit <=? MAX_GAS_LIMIT else "DEX gas limit exceeds safety cap" ;;
  Ok limit.

Definition resolve_without_estimate (g : GasLimitPolicy) (quoted_gas : option Z) : TRes Z :=
  let? rails :=
    match quoted_gas with
    | Some quoted => or_err (checked_mul 64 quoted (gl_multiplier g)) "Rails-compatible gas multiplier overflow"
    | None => Ok (gl_default g)
    end in
  let? limit := or_err (checked_add 64 (Z.max rails (gl_minimum g)) (gl_additional g)) "Rails-compatible gas addition overflow" in
  ensure! limit <=? MAX_GAS_LIMIT else "DEX gas limit exceeds safety cap" ;;
  Ok limit.

Definition U256_MAX_GRANT : Z := 2 ^ 256 - 1.
Definition allowance_grant_for_policy (p : CompiledNetworkGasPolicy) (required : Z) : Z :=
  match p with
  | WorldChainV12 _ _ | LineaMainnet _ _ _ _ => U256_MAX_GRANT
  | ArbitrumOne _ _ _ _ => required
  | ReadOnly => 0
  end.

Definition headroom (gas_price bps : Z) (e : string) : TRes Z :=
  let? scaled := or_err (s ← checked_mul 128 gas_price bps; checked_add 128 s 9999) e in
  Ok (scaled / 10000).

Definition transaction_fees_for_policy (p : CompiledNetworkGasPolicy) (gas_price : Z) : TRes (Z * Z) :=
  ensure! 0 <? gas_price else "DEX gas price is zero" ;;
  match p with
  | WorldChainV12 _ _ =>
      let? maximum := or_err (checked_add 128 gas_price RAILS_PRIORITY_FEE_WEI) "DEX maximum fee overflow" in
      Ok (maximum, Z.min RAILS_PRIORITY_FEE_WEI maximum)
  | ArbitrumOne _ priority bps _ =>
      ensure! priority =? 0 else "reviewed Arbitrum sequencer policy does not permit a priority tip" ;;
      ensure! (10000 <=? bps) && (bps <=? 15000) else "Arbitrum maximum-fee headroom is outside the reviewed bounds" ;;
      let? maximum := headroom gas_price bps "Arbitrum maximum fee headroom overflow" in
      Ok (maximum, 0)
  | LineaMainnet fresh equals bps _ =>
      ensure! fresh && equals else "reviewed Linea policy requires a fresh suggested gas price as priority fee" ;;
      ensure! (10000 <=? bps) && (bps <=? 15000) else "Linea maximum-fee headroom is outside the reviewed bounds" ;;
      let? maximum := headroom gas_price bps "Linea maximum fee headroom overflow" in
      Ok (maximum, gas_price)
  | ReadOnly => Err "read-only network cannot construct transaction fees"
  end.

Definition accounted_l1_fee (p : CompiledNetworkGasPolicy) (receipt_l1_fee : Z) : Z :=
  match p with
  | WorldChainV12 _ includes | ArbitrumOne _ _ _ includes | LineaMainnet _ _ _ includes =>
      if includes then receipt_l1_fee else 0
  | ReadOnly => 0
  end.

(** ** Errors of the endpoint, as text *)
Definition lower (c : ascii) : ascii :=
  if is_ascii_uppercase c then ascii_of_N (N_of_ascii c + 32) else c.
Fixpoint to_ascii_lowercase (s : string) : string :=
  match s with
  | EmptyString => EmptyString
  | String c s => String (lower c) (to_ascii_lowercase s)
  end.
Definition contains (s sub : string) : bool :=
  match String.index 0 sub s with Some _ => true | None => false end.
Definition error_text (e : JournalError) : string := let 'JMsg s := e in s.

Definition is_definitive_prebroadcast_rejection (e : JournalError) : bool :=
  let message := to_ascii_lowercase (error_text e) in
  starts_with message "json-rpc error"
  && (contains message "max fee per gas less than block base fee" || contains message "fee cap less than block base fee").
Definition rpc_already_knows_transaction (e : JournalError) : bool :=
  contains (to_ascii_lowercase (error_text e)) "already known".

Definition jres {A} (r : TRes A) : JRes A := match r with Ok a => Ok a | Err s => Err (JMsg s) end.

(** ** State *)
Inductive GasPriceSource := RpcPrice | RailsFallback.
Record GasPriceSample := mkSample { gs_captured_at : Z; gs_wei : Z; gs_source : GasPriceSource }.
Definition is_fresh (now : Z) (s : GasPriceSample) : bool := now - gs_captured_at s <? GAS_PRICE_CACHE_TTL_MS.

Record DexExecutor := mkExecutor {
  ex_wallet : Z;
  ex_lane : NonceLane;
  ex_journal : TransactionJournal;
  ex_gas_price : option GasPriceSample;
  ex_gas_policy : CompiledNetworkGasPolicy;
  ex_allowance_mutations_enabled : bool;
  ex_camelot_submissions_enabled : bool;
  ex_lynex_submissions_enabled : bool;
  ex_last_terminal_receipt : option DexReceipt;
}.

Definition set_lane_journal (e : DexExecutor) (l : NonceLane) (j : TransactionJournal) : DexExecutor :=
  mkExecutor (ex_wallet e) l j (ex_gas_price e) (ex_gas_policy e) (ex_allowance_mutations_enabled e)
    (ex_camelot_submissions_enabled e) (ex_lynex_submissions_enabled e) (ex_last_terminal_receipt e).
Definition set_gas_price (e : DexExecutor) (s : option GasPriceSample) : DexExecutor :=
  mkExecutor (ex_wallet e) (ex_lane e) (ex_journal e) s (ex_gas_policy e) (ex_allowance_mutations_enabled e)
    (ex_camelot_submissions_enabled e) (ex_lynex_submissions_enabled e) (ex_last_terminal_receipt e).
Definition set_terminal (e : DexExecutor) (r : option DexReceipt) : DexExecutor :=
  mkExecutor (ex_wallet e) (ex_lane e) (ex_journal e) (ex_gas_price e) (ex_gas_policy e) (ex_allowance_mutations_enabled e)
    (ex_camelot_submissions_enabled e) (ex_lynex_submissions_enabled e) r.
Definition set_gates (e : DexExecutor) (allowances camelot lynex : bool) : DexExecutor :=
  mkExecutor (ex_wallet e) (ex_lane e) (ex_journal e) (ex_gas_price e) (ex_gas_policy e) allowances camelot lynex
    (ex_last_terminal_receipt e).

(** The operation a transaction was broadcast under, and the transaction. *)
Record Sent := mkSent { se_operation_id : string; se_transaction : SignedTransaction }.
Record World := mkWorld { w_ex : DexExecutor; w_tick : nat; w_wire : list Sent }.

(** What the executor does not decide.  [None] for a sent transaction is the
    ten-second timeout; [o_polls] are the answers to the receipt queries made before
    the confirmation deadline; [o_locks] is the process-wide nonce registry when the
    lock is requested, and [o_lock_acquired] whether it came in time. *)
Record Outside := mkOutside {
  o_receipt : nat -> Z -> JRes (option DexReceipt);
  o_simulate : nat -> WalletCall -> JRes (list Z);
  o_estimate_gas : nat -> WalletCall -> JRes Z;
  o_gas_price : nat -> JRes Z;
  o_native_balance : nat -> JRes Z;
  o_unix_seconds : nat -> JRes Z;
  o_instant : nat -> Z;
  o_append : nat -> AppendEnv;
  o_locks : nat -> ProcessNonceLocks;
  o_lock_acquired : nat -> bool;
  o_sign : nat -> WalletCall -> WalletTransactionParameters -> JRes (list Z);
  o_send : nat -> list Z -> option (JRes Z);
  o_polls : nat -> Z -> list (JRes (option DexReceipt));
}.

Abbreviation EM := (M World JournalError).

Definition tick (w : World) : World := mkWorld (w_ex w) (S (w_tick w)) (w_wire w).
(** Ask the outside; an answer that is an error ends the method. *)
Definition ask {A} (f : nat -> JRes A) : EM A := fun w => (tick w, f (w_tick w)).
Definition on_ex {A} (m : M DexExecutor JournalError A) : EM A :=
  fun w => let '(e, r) := m (w_ex w) in (mkWorld e (w_tick w) (w_wire w), r).
Definition get_ex : EM DexExecutor := fun w => (w, Ok (w_ex w)).
Definition put_ex (f : DexExecutor -> DexExecutor) : EM unit :=
  fun w => (mkWorld (f (w_ex w)) (w_tick w) (w_wire w), Ok tt).
Definition guard (b : bool) (e : string) : EM unit := mlift (ensure b (JMsg e)).
(** A method of the nonce lane, whose journal append meets the faults of this tick. *)
Definition on_lane {A} (m : AppendEnv -> M (NonceLane * TransactionJournal) JournalError A) (o : Outside) : EM A :=
  fun w =>
    let '((l, j), r) := m (o_append o (w_tick w)) (ex_lane (w_ex w), ex_journal (w_ex w)) in
    (tick (mkWorld (set_lane_journal (w_ex w) l j) (w_tick w) (w_wire w)), r).
Definition send (operation_id : string) (tx : SignedTransaction) (o : Outside) : EM (option (JRes Z)) :=
  fun w => (mkWorld (w_ex w) (S (w_tick w)) (mkSent operation_id tx :: w_wire w), Ok (o_send o (w_tick w) (st_raw tx))).

Inductive DexExecutionServiceError :=
  | FailedBeforeSubmission (reason : JournalError)
  | Reverted (hash block gas_used effective_gas_price l1_fee : Z) (reason : JournalError)
  | ServiceOutcomeUnknown (reason : JournalError).

Record ExecuteCallPolicy := mkPolicy {
  cp_gas : GasLimitPolicy; cp_quoted_gas : option Z; cp_submission_policy : SwapSubmissionPolicy;
  cp_allow_new_submission : bool;
}.

Definition retry_id (base : string) (n : Z) : string := (base +:+ ".retry-" +:+ pretty n)%string.

(** The result of [wait_for_receipt] on the answers it gets before its deadline. *)
Fixpoint wait_for_receipt (polls : list (JRes (option DexReceipt))) : JRes DexReceipt :=
  match polls with
  | [] => Err (JMsg "timed out waiting for DEX transaction receipt")
  | Err e :: _ => Err e
  | Ok (Some r) :: _ => Ok r
  | Ok None :: rest => wait_for_receipt rest
  end.

(** The lane hashes with the same function. *)
Definition hash_of_text `{EvmText} : Keccak := {| Nonce.keccak256 := ExecutionPlan.keccak256 |}.

Section executor.
Context `{EvmText, WireCodec} (o : Outside).
#[local] Existing Instance hash_of_text.

(** ** Signing and broadcasting *)
Definition sign_call (t : nat) (c : WalletCall) (p : WalletTransactionParameters) : JRes SignedTransaction :=
  let? _ := jres (validate_parameters p) in
  let? _ := jres (maximum_native_cost c p) in
  let? raw := o_sign o t c p in
  Ok (mkSigned (wp_chain_id p) (wp_nonce p) (ExecutionPlan.keccak256 raw) raw).

Definition broadcast_signed_transaction (operation_id : string) (tx : SignedTransaction) : EM (option (JRes Z)) :=
  do answer <- send operation_id tx o ;;
  mret (match answer with
        | None => None
        | Some answer =>
            Some (let? submitted := match answer with
                                    | Ok h => Ok h
                                    | Err e => if rpc_already_knows_transaction e then Ok (st_hash tx) else Err e
                                    end in
                  ensure! submitted =? st_hash tx else JMsg "RPC returned a different transaction hash" ;;
                  Ok submitted)
        end).

(** ** Gas prices *)
Definition refresh_gas_price : EM unit :=
  fun w =>
    let policy := ex_gas_policy (w_ex w) in
    let world_chain := match policy with WorldChainV12 _ _ => true | _ => false end in
    let sample :=
      match o_gas_price o (w_tick w) with
      | Ok price =>
          if 0 <? price then Ok (price, RpcPrice)
          else if world_chain then Ok (RAILS_FALLBACK_GAS_PRICE_WEI, RailsFallback)
          else Err (JMsg "eth_gasPrice returned zero; no fallback is permitted")
      | Err e =>
          if world_chain then Ok (RAILS_FALLBACK_GAS_PRICE_WEI, RailsFallback)
          else Err (JMsg "eth_gasPrice refresh failed; no fallback is permitted")
      end in
    match sample with
    | Err e => (tick w, Err e)
    | Ok (wei, source) =>
        (tick (mkWorld (set_gas_price (w_ex w) (Some (mkSample (o_instant o (w_tick w)) wei source))) (w_tick w) (w_wire w)), Ok tt)
    end.

Definition gas_price_for_submission (policy : SwapSubmissionPolicy) : EM Z :=
  do e <- get_ex ;;
  do now <- ask (fun t => Ok (o_instant o t)) ;;
  let cached := match ex_gas_price e with Some s => if is_fresh now s then Some (gs_wei s) else None | None => None end in
  match cached with
  | Some wei => mret wei
  | None =>
      match policy with
      | SimulateAndEstimate =>
          do! refresh_gas_price ;;
          do e <- get_ex ;;
          mlift (or_err (gs_wei <$> ex_gas_price e) (JMsg "gas-price refresh always publishes a sample"))
      | Immediate =>
          match ex_gas_policy e with
          | WorldChainV12 fallback _ => mret fallback
          | ArbitrumOne true _ _ _ | LineaMainnet true _ _ _ =>
              mfail (JMsg "fresh eth_gasPrice sample is unavailable; transaction fails closed")
          | _ => mfail (JMsg "network has no executable gas-price policy")
          end
      end
  end.

(** ** One call *)
Definition intent_matches (e : DexExecutor) (purp : string) (c : WalletCall) (it : JournalIntent) : bool :=
  (chain_id (identity it) =? l_chain_id (ex_lane e)) && (wallet (identity it) =? ex_wallet e)
  && bool_decide (purpose it = purp) && (target it =? call_target c) && (native_value it =? call_value c)
  && (calldata_hash it =? ExecutionPlan.keccak256 (call_data c)).

(** The receipt of a journaled transaction, kept as the last terminal one. *)
Definition journaled_receipt (h : Z) (e : string) (record : bool) : EM DexReceipt :=
  do found <- ask (fun t => o_receipt o t h) ;;
  do r <- mlift (or_err found (JMsg e)) ;;
  do! (if record then on_lane (fun env => lane_record_receipt env (dr_receipt r)) o else mret tt) ;;
  do! put_ex (fun e => set_terminal e (Some r)) ;;
  mret r.

(** The operation a call is journaled under: answered from the journal, or the
    identifier a new submission takes. *)
Fixpoint resolve_journaled (fuel : nat) (retry : Z) (base purp : string) (c : WalletCall) (id : string)
  : EM (DexReceipt + string) :=
  match fuel with
  | O => mret (inr id)
  | S fuel =>
      do e <- get_ex ;;
      match operation (ex_journal e) id with
      | None => mret (inr id)
      | Some existing =>
          do! guard (intent_matches e purp c (intent existing)) "journaled DEX transaction does not match requested call" ;;
          match status existing with
          | MinedSuccess h _ =>
              do r <- journaled_receipt h "journaled successful DEX receipt is unavailable" false ;; mret (inl r)
          | Broadcast h =>
              do r <- journaled_receipt h "journaled broadcast DEX receipt is unavailable" true ;; mret (inl r)
          | MinedReverted h _ =>
              do r <- journaled_receipt h "journaled reverted DEX receipt is unavailable" false ;; mret (inl r)
          | CancelledBeforeSigning => mfail (JMsg "journaled DEX transaction was cancelled before signing")
          | RejectedBeforeBroadcast _ =>
              if retry <? 3 then resolve_journaled fuel (retry + 1) base purp c (retry_id base (retry + 1))
              else mfail (JMsg "journaled DEX transaction exhausted pre-broadcast retries")
          | _ => mfail (JMsg "journaled DEX transaction requires recovery")
          end
      end
  end.

Definition gas_limit_for (c : WalletCall) (p : ExecuteCallPolicy) : EM Z :=
  match cp_submission_policy p with
  | SimulateAndEstimate =>
      do! ask (fun t => o_simulate o t c) ;;
      do estimated <- ask (fun t => o_estimate_gas o t c) ;;
      mlift (jres (resolve (cp_gas p) (cp_quoted_gas p) estimated))
  | Immediate => mlift (jres (resolve_without_estimate (cp_gas p) (cp_quoted_gas p)))
  end.

(** Reserve a nonce under the process lock, sign, broadcast and journal: the guard
    of the lock and the broadcast hash. *)
Definition submit (id purp : string) (c : WalletCall) (fees : WalletTransactionParameters) : EM Z :=
  do e <- get_ex ;;
  do acquired <- (fun w =>
      let next := or_err (lane_next_nonce (ex_lane e)) (JMsg "ready DEX nonce lane has no nonce") in
      (tick w, let? next := next in
               match acquire_process_nonce_lock (o_lock_acquired o (w_tick w)) (l_chain_id (ex_lane e)) (ex_wallet e) next
                       (o_locks o (w_tick w)) with
               | (locks, Ok g) => Ok (locks, g)
               | (_, Err e) => Err e
               end)) ;;
  let '(locks, g) := acquired in
  do n <- mlift (or_err (guard_nonce g locks) (JMsg "guard without lane")) ;;
  do i <- on_lane (fun env => reserve_with_nonce env id purp c n) o ;;
  do signed <- (fun w =>
      match sign_call (w_tick w) c (mkParameters (wp_chain_id fees) (nonce i) (wp_gas_limit fees) (wp_max_fee_per_gas fees)
                                      (wp_max_priority_fee_per_gas fees)) with
      | Ok signed => (tick w, Ok signed)
      | Err err => (do! on_lane cancel_before_signing o ;; mfail err) (tick w)
      end) ;;
  do! on_lane (fun env => lane_record_signed env signed) o ;;
  do result <- broadcast_signed_transaction id signed ;;
  do submitted <-
      match result with
      | Some (Ok h) => mret h
      | Some (Err err) =>
          do! (if is_definitive_prebroadcast_rejection err
               then on_lane (fun env => lane_record_rejected_before_broadcast env (st_hash signed)) o
               else on_lane (fun env => lane_record_unknown_outcome env BroadcastTransport) o) ;;
          mfail err
      | None =>
          do! on_lane (fun env => lane_record_unknown_outcome env BroadcastTransport) o ;;
          mfail (JMsg "DEX transaction broadcast timed out while holding nonce lock")
      end ;;
  do! on_lane (fun env => lane_record_broadcast env submitted) o ;;
  do! mlift (advance_after_broadcast g (nonce i) locks).2 ;;
  mret submitted.

Definition execute_call (base purp : string) (c : WalletCall) (p : ExecuteCallPolicy) : EM DexReceipt :=
  do found <- resolve_journaled 4 0 base purp c base ;;
  match found with
  | inl r => mret r
  | inr id =>
      do! guard (cp_allow_new_submission p) "reconciliation-only DEX request has no matching journaled transaction" ;;
      do e <- get_ex ;;
      do! guard (ready (ex_lane e)) "DEX nonce lane is not ready" ;;
      do gas_limit <- gas_limit_for c p ;;
      do gas_price <- gas_price_for_submission (cp_submission_policy p) ;;
      do fees <- mlift (jres (transaction_fees_for_policy (ex_gas_policy e) gas_price)) ;;
      let parameters := mkParameters (l_chain_id (ex_lane e)) 0 gas_limit fees.1 fees.2 in
      do! match cp_submission_policy p with
          | SimulateAndEstimate =>
              do maximum <- mlift (jres (maximum_native_cost c parameters)) ;;
              do balance <- ask (o_native_balance o) ;;
              guard (maximum <=? balance) "wallet native balance cannot cover maximum DEX gas"
          | Immediate => mret tt
          end ;;
      do submitted <- submit id purp c parameters ;;
      do r <- ask (fun t => wait_for_receipt (o_polls o t submitted)) ;;
      do! on_lane (fun env => lane_record_receipt env (dr_receipt r)) o ;;
      do! put_ex (fun e => set_terminal e (Some r)) ;;
      mret r
  end.

(** ** Allowances *)
Definition ensure_erc20_allowance (operation_id : string) (token spender required : Z) : EM unit :=
  do e <- get_ex ;;
  do query <- mlift (jres (validated_contract_call token 0 (erc20_allowance_calldata (ex_wallet e) spender))) ;;
  do encoded <- ask (fun t => o_simulate o t query) ;;
  do! guard (length encoded =? 32)%nat "ERC-20 allowance result is not one ABI word" ;;
  if required <=? from_be_slice encoded then mret tt
  else
    do! guard (ex_allowance_mutations_enabled e) "pre-locked ERC-20 allowance is insufficient" ;;
    do approval <- mlift (jres (erc20_approval token spender (allowance_grant_for_policy (ex_gas_policy e) required))) ;;
    do r <- execute_call operation_id "erc20_approval" approval
              (mkPolicy (fixed RAILS_APPROVAL_DEFAULT_GAS_LIMIT) (Some RAILS_APPROVAL_DEFAULT_GAS_LIMIT) SimulateAndEstimate true) ;;
    guard (rc_status (dr_receipt r) =? 1) "ERC-20 approval reverted".

Definition ensure_permit2_allowance (operation_id : string) (token router required : Z) : EM unit :=
  do e <- get_ex ;;
  do calldata <- mlift (jres (permit2_allowance (ex_wallet e) token router)) ;;
  do query <- mlift (jres (validated_contract_call PERMIT2_ADDRESS 0 calldata)) ;;
  do encoded <- ask (fun t => o_simulate o t query) ;;
  do decoded <- mlift (jres (decode_permit2_allowance encoded)) ;;
  do now <- ask (o_unix_seconds o) ;;
  if (required <=? decoded.1) && (saturating_add 64 now PERMIT2_MIN_REMAINING_VALIDITY_SECONDS <=? decoded.2) then mret tt
  else
    do! guard (ex_allowance_mutations_enabled e) "pre-locked Permit2 allowance is insufficient or expiring" ;;
    do expiration <- mlift (or_err (checked_add 64 now PERMIT2_APPROVAL_VALIDITY_SECONDS) (JMsg "Permit2 expiration overflow")) ;;
    do calldata <- mlift (jres (permit2_approve token router UINT160_MAX expiration)) ;;
    do approval <- mlift (jres (validated_contract_call PERMIT2_ADDRESS 0 calldata)) ;;
    do r <- execute_call operation_id "permit2_approval" approval
              (mkPolicy (fixed RAILS_PERMIT2_APPROVAL_GAS_LIMIT) (Some RAILS_PERMIT2_APPROVAL_GAS_LIMIT) SimulateAndEstimate true) ;;
    guard (rc_status (dr_receipt r) =? 1) "Permit2 approval reverted".

Definition router_approval_id (operation_id suffix : string) : string := (operation_id +:+ suffix)%string.

Definition ensure_allowance (q : ExactInputSwapRequest) : EM unit :=
  let id := rq_operation_id q in
  match rq_route q with
  | SUniswapV3 router _ _ =>
      ensure_erc20_allowance (router_approval_id id ".v3-router-approval") (rq_token_in q) router (rq_amount_in q)
  | SPancakeSwapV3 router _ _ =>
      ensure_erc20_allowance (router_approval_id id ".pancakeswap-v3-router-approval") (rq_token_in q) router (rq_amount_in q)
  | SCamelotV3 router _ =>
      ensure_erc20_allowance (router_approval_id id ".camelot-v3-router-approval") (rq_token_in q) router (rq_amount_in q)
  | SLynexAlgebraV1_9 router _ =>
      ensure_erc20_allowance (router_approval_id id ".lynex-algebra-v1-9-router-approval") (rq_token_in q) router (rq_amount_in q)
  | SV4 router _ =>
      do! ensure_erc20_allowance (router_approval_id id ".permit2-erc20-approval") (rq_token_in q) PERMIT2_ADDRESS (rq_amount_in q) ;;
      ensure_permit2_allowance (router_approval_id id ".permit2-router-approval") (rq_token_in q) router (rq_amount_in q)
  end.

Definition prepare_requirement (r : AllowanceRequirement) : EM unit :=
  do! guard (negb (str_is_empty (al_operation_id r))) "DEX allowance operation id is empty" ;;
  do! guard (negb (al_token r =? 0)) "DEX allowance token is zero" ;;
  do! guard (negb (al_router r =? 0)) "DEX allowance router is zero" ;;
  do! guard (negb (al_required r =? 0)) "DEX allowance amount is zero" ;;
  let id := al_operation_id r in
  match al_protocol r with
  | ProtoUniswapV4 =>
      do! ensure_erc20_allowance (router_approval_id id ".permit2-erc20-approval") (al_token r) PERMIT2_ADDRESS (al_required r) ;;
      ensure_permit2_allowance (router_approval_id id ".permit2-router-approval") (al_token r) (al_router r) (al_required r)
  | p => ensure_erc20_allowance (id +:+ "." +:+ protocol_label p +:+ "-router-approval")%string (al_token r) (al_router r) (al_required r)
  end.

Fixpoint prepare_requirements (rs : list AllowanceRequirement) : EM unit :=
  match rs with
  | [] => mret tt
  | r :: rest => do! prepare_requirement r ;; prepare_requirements rest
  end.

Definition lock_allowances : EM unit :=
  put_ex (fun e => set_gates e false (ex_camelot_submissions_enabled e) (ex_lynex_submissions_enabled e)).

Definition prepare_and_lock_allowances (rs : list AllowanceRequirement) : EM unit :=
  do e <- get_ex ;;
  do! guard (ex_allowance_mutations_enabled e) "DEX allowance preparation is already locked" ;;
  do! guard (negb (bool_decide (length rs = 0%nat))) "DEX allowance requirement set is empty" ;;
  do! prepare_requirements rs ;;
  lock_allowances.

Definition lock_allowance_mutations_without_preparation : EM unit :=
  do e <- get_ex ;;
  do! guard (ex_allowance_mutations_enabled e) "DEX allowance preparation is already locked" ;;
  lock_allowances.

Definition enable_camelot_submissions_after_allowance_lock : EM unit :=
  do e <- get_ex ;;
  do! guard (negb (ex_allowance_mutations_enabled e)) "Camelot submission cannot open before allowances are locked" ;;
  put_ex (fun e => set_gates e (ex_allowance_mutations_enabled e) true (ex_lynex_submissions_enabled e)).

Definition enable_lynex_submissions_after_allowance_lock : EM unit :=
  do e <- get_ex ;;
  do! guard (l_chain_id (ex_lane e) =? 59144) "Lynex submission gate belongs only to the Linea nonce lane" ;;
  do! guard (negb (ex_allowance_mutations_enabled e)) "Lynex submission cannot open before allowances are locked" ;;
  put_ex (fun e => set_gates e (ex_allowance_mutations_enabled e) (ex_camelot_submissions_enabled e) true).

Definition set_executor_scope (sc : EvmJournalScope) : EM unit :=
  on_ex (fun e => let '(l, r) := set_journal_scope sc (ex_lane e) in (set_lane_journal e l (ex_journal e), r)).

(** ** One swap *)
Record ReadOnlySwapSimulation := mkSimulation {
  rs_protocol : DexProtocol; rs_wallet : Z; rs_router : Z; rs_calldata_hash : Z; rs_selector : list Z;
  rs_estimated_gas : Z; rs_policy_gas_limit : Z;
}.

(** The executor is borrowed immutably: only the tick advances. *)
Definition simulate_exact_input_read_only (q : ExactInputSwapRequest) : EM ReadOnlySwapSimulation :=
  do! mlift (jres (validate_request q)) ;;
  do e <- get_ex ;;
  do calldata <- mlift (jres (exact_input_calldata q (ex_wallet e))) ;;
  do call <- mlift (jres (validated_contract_call (swap_router (rq_route q)) 0 calldata)) ;;
  do! ask (fun t => o_simulate o t call) ;;
  do estimated <- ask (fun t => o_estimate_gas o t call) ;;
  do limit <- mlift (jres (resolve (for_swap (route_protocol (rq_route q)) (rq_additional_gas q)) (rq_quoted_gas q) estimated)) ;;
  mret (mkSimulation (route_protocol (rq_route q)) (ex_wallet e) (swap_router (rq_route q))
          (ExecutionPlan.keccak256 (call_data call)) (take 4 calldata) estimated limit).

Definition deadline_bearing (p : DexProtocol) : bool :=
  match p with ProtoPancakeSwapV3 | ProtoCamelotV3 | ProtoLynexAlgebraV1_9 | ProtoUniswapV4 => true | ProtoUniswapV3 => false end.

Definition swap_outcome (q : ExactInputSwapRequest) (e : DexExecutor) (r : DexReceipt) : JRes SwapExecutionOutcome :=
  ensure! rc_status (dr_receipt r) =? 1 else JMsg (protocol_label (route_protocol (rq_route q)) +:+ " transaction reverted")%string ;;
  let? deltas := jres (swap_deltas q (ex_wallet e) (dr_logs r)) in
  let? settlement := jres (settlement_logs_for_route r (rq_route q)) in
  Ok (mkOutcome (rc_hash (dr_receipt r)) (rc_block (dr_receipt r)) (dr_gas_used r) (dr_effective_gas_price r)
        (accounted_l1_fee (ex_gas_policy e) (dr_l1_fee r)) deltas.1 deltas.2 (rs_fee settlement) (rs_swap settlement)).

Definition execute_exact_input (q : ExactInputSwapRequest) : EM SwapExecutionOutcome :=
  do! put_ex (fun e => set_terminal e None) ;;
  do! mlift (jres (validate_request q)) ;;
  let p := route_protocol (rq_route q) in
  do e <- get_ex ;;
  do! guard (negb (bool_decide (p = ProtoCamelotV3)) || rq_reconciliation_only q || ex_camelot_submissions_enabled e)
        "Camelot V3 broadcast is disabled until the direct-live allowance gate opens" ;;
  do! guard (negb (bool_decide (p = ProtoLynexAlgebraV1_9)) || rq_reconciliation_only q || ex_lynex_submissions_enabled e)
        "Lynex Algebra V1.9 broadcast is disabled until the direct-live allowance gate opens" ;;
  do! (if negb (rq_reconciliation_only q) && deadline_bearing p
       then do now <- ask (o_unix_seconds o) ;;
            guard (now <? rq_deadline_unix_seconds q) "deadline-bearing DEX request has expired"
       else mret tt) ;;
  do! (if rq_reconciliation_only q then mret tt
       else match rq_submission_policy q with
            | Immediate =>
                guard (negb (ex_allowance_mutations_enabled e))
                  "immediate DEX submission requires startup-validated locked allowances"
            | SimulateAndEstimate => ensure_allowance q
            end) ;;
  do calldata <- mlift (jres (exact_input_calldata q (ex_wallet e))) ;;
  do call <- mlift (jres (validated_contract_call (swap_router (rq_route q)) 0 calldata)) ;;
  do r <- execute_call (rq_operation_id q +:+ ".swap")%string (protocol_label p) call
            (mkPolicy (for_swap p (rq_additional_gas q)) (rq_quoted_gas q) (rq_submission_policy q)
               (negb (rq_reconciliation_only q))) ;;
  do e <- get_ex ;;
  mlift (swap_outcome q e r).

(** ** The error a caller sees *)

(** The status of the last journaled attempt of an operation. *)
Fixpoint last_status (fuel : nat) (retry : Z) (j : TransactionJournal) (base : string) (st : option JournalStatus)
  : option JournalStatus :=
  match fuel with
  | O => st
  | S fuel =>
      match operation j (retry_id base retry) with
      | None => st
      | Some child => last_status fuel (retry + 1) j base (Some (status child))
      end
  end.

Definition classify_execution_error (e : DexExecutor) (id : string) (reason : JournalError) : DexExecutionServiceError :=
  match last_status 3 1 (ex_journal e) id (status <$> operation (ex_journal e) id) with
  | None | Some CancelledBeforeSigning | Some (RejectedBeforeBroadcast _) => FailedBeforeSubmission reason
  | Some (MinedReverted h _) =>
      match ex_last_terminal_receipt e with
      | Some r =>
          if rc_hash (dr_receipt r) =? h
          then Reverted (rc_hash (dr_receipt r)) (rc_block (dr_receipt r)) (dr_gas_used r) (dr_effective_gas_price r)
                 (accounted_l1_fee (ex_gas_policy e) (dr_l1_fee r)) reason
          else ServiceOutcomeUnknown reason
      | None => ServiceOutcomeUnknown reason
      end
  | Some _ => ServiceOutcomeUnknown reason
  end.

Record EvmExecutionRequest := mkEvmRequest {
  er_operation_id : string; er_purpose : string; er_call : WalletCall; er_confirmation_timeout_ms : Z;
}.
Definition validate_evm_request (q : EvmExecutionRequest) : TRes unit :=
  ensure! negb (str_is_empty (er_operation_id q)) && (str_len (er_operation_id q) <=? 120)
          && bytes_all (fun c => swap_operation_byte c || byte_is 58 c) (er_operation_id q)
    else "EVM execution operation id is invalid" ;;
  ensure! negb (str_is_empty (er_purpose q)) && (str_len (er_purpose q) <=? 64)
          && bytes_all (fun c => is_ascii_alphanumeric c || byte_is 95 c) (er_purpose q)
    else "EVM execution purpose is invalid" ;;
  ensure! (5000 <=? er_confirmation_timeout_ms q) && (er_confirmation_timeout_ms q <=? 300000)
    else "EVM execution confirmation timeout is outside 5..=300 seconds" ;;
  Ok tt.

(** ** The worker

    One turn of the executor thread: a gas-price refresh, a swap, or a capital call;
    the answer to the caller of a swap or of a call. *)
Definition service_error {A} (id : string) (m : EM A) : M World DexExecutionServiceError A :=
  fun w => match m w with
           | (w', Ok a) => (w', Ok a)
           | (w', Err e) => (w', Err (classify_execution_error (w_ex w') id e))
           end.

Definition serve_refresh : World -> World := fun w => (refresh_gas_price w).1.
Definition serve_swap (q : ExactInputSwapRequest) : M World DexExecutionServiceError SwapExecutionOutcome :=
  service_error (rq_operation_id q +:+ ".swap")%string (execute_exact_input q).
Definition serve_capital (q : EvmExecutionRequest) (reconciliation_only : bool)
  : M World DexExecutionServiceError DexReceipt :=
  fun w =>
    match validate_evm_request q with
    | Err e => (w, Err (FailedBeforeSubmission (JMsg e)))
    | Ok _ =>
        service_error (er_operation_id q)
          (do r <- execute_call (er_operation_id q) (er_purpose q) (er_call q)
                     (mkPolicy (fixed CAPITAL_TRANSFER_GAS_LIMIT) None SimulateAndEstimate (negb reconciliation_only)) ;;
           do! guard (rc_status (dr_receipt r) =? 1) "EVM capital transaction reverted" ;;
           mret r) w
    end.
End executor.

(** ** Start *)
Definition reviewed_chain (p : CompiledNetworkGasPolicy) (chain : Z) : bool :=
  match p with
  | WorldChainV12 _ _ => chain =? 480
  | ArbitrumOne _ _ _ _ => chain =? 42161
  | LineaMainnet _ _ _ _ => chain =? 59144
  | ReadOnly => false
  end.

(** What the endpoint answers at start: its chain, the two nonces, the recovery
    view, and the receipt polls of a known transaction. *)
Record StartView := mkStart {
  sv_chain_id : JRes Z; sv_latest : JRes Z; sv_pending : JRes Z; sv_rpc : RpcView;
  sv_polls : Z -> list (JRes (option DexReceipt));
}.

Definition hydrate_with_gas_policy `{EvmText, WireCodec} (v : StartView) (envs : nat -> AppendEnv) (fs : FileSystem)
    (wallet chain : Z) (p : CompiledNetworkGasPolicy) : JRes DexExecutor :=
  ensure! reviewed_chain p chain else JMsg "DEX executor chain has no reviewed mutation fee policy" ;;
  let? served := sv_chain_id v in
  ensure! served =? chain else JMsg "DEX RPC chain id mismatch" ;;
  let? latest := sv_latest v in
  let? pending := sv_pending v in
  let? j := open fs in
  let '(j, reconciled) := @reconcile _ hash_of_text (sv_rpc v) (envs 0%nat) chain wallet latest pending j in
  let? '(lane, outcome) := reconciled in
  let? '(lane, j) :=
    match outcome with
    | OTransactionKnown _ h _ =>
        let? r := wait_for_receipt (sv_polls v h) in
        let '(s, recorded) := lane_record_receipt (envs 1%nat) (dr_receipt r) (lane, j) in
        let? _ := recorded in
        Ok s
    | _ => Ok (lane, j)
    end in
  ensure! ready lane else JMsg ("DEX nonce lane requires operator recovery (" +:+ label outcome +:+ ")")%string ;;
  Ok (mkExecutor wallet lane j None p true false false None).
