(* ===== verification/ExecutorSteps.v ===== *)
(** * What the DEX executor promises ([src/src/dex/execution.rs])

    Nothing reaches the network unjournaled; of all attempts of one request, and of
    all transactions of one nonce, at most one was not definitively rejected; and
    the error and the outcome a caller sees are true of the journal and of the
    receipt. *)
From Stdlib Require Import Ascii Lia.
From stdpp Require Import base gmap strings numbers list option pretty relations.
From S2P Require Import Prelude ExecutionPlan TradeData Events CostAccounting LineLog Journal Nonce Calldata Settlement Executor.

(** ** Attempts *)
Definition attempt (base : string) (n : nat) : string :=
  match n with O => base | _ => retry_id base (Z.of_nat n) end.
(** An identifier no retry of another request can take. *)
Definition plain (base : string) : Prop := forall b n, (1 <= n <= 3)%nat -> base <> attempt b n.

Definition rejected (st : JournalStatus) : bool := match st with RejectedBeforeBroadcast _ => true | _ => false end.
Definition rejected_op (ops : gmap string JournalOperation) (k : string) : Prop :=
  exists op, ops !! k = Some op /\ rejected (status op) = true.

(** A retry exists only behind a rejected attempt. *)
Definition chains (ops : gmap string JournalOperation) : Prop :=
  forall b n, (n < 3)%nat -> is_Some (ops !! attempt b (S n)) -> rejected_op ops (attempt b n).
Definition creatable (ops : gmap string JournalOperation) (k : string) : Prop :=
  forall b n, (n < 3)%nat -> k = attempt b (S n) -> rejected_op ops (attempt b n).

Lemma app_inj_len (a b c d : string) :
  (a +:+ b = c +:+ d)%string -> String.length b = String.length d -> a = c /\ b = d.
Proof.
  intros He Hl. assert (Hlen : String.length a = String.length c).
  { apply (f_equal String.length) in He. rewrite !length_append in He. lia. }
  revert c He Hlen. induction a as [|x a IH]; intros [|y c] He Hlen; try discriminate Hlen; [done|].
  simpl in He. injection He as <- He. injection Hlen as Hlen. destruct (IH c He Hlen) as [-> ->]. done.
Qed.

Lemma attempt_inj b b' n n' : (n < 3)%nat -> (n' < 3)%nat -> attempt b (S n) = attempt b' (S n') -> b = b' /\ n = n'.
Proof.
  intros Hn Hn'. unfold attempt, retry_id. intros He.
  assert (Hsuf : forall m, (m < 3)%nat -> String.length (".retry-" +:+ pretty (Z.of_nat (S m)))%string = 8%nat)
    by (intros [|[|[|]]] ?; try lia; reflexivity).
  apply app_inj_len in He as [-> He]; [|by rewrite !Hsuf]. split; [done|].
  destruct n as [|[|[|]]], n' as [|[|[|]]]; try lia; try done; exfalso; revert He; vm_compute; discriminate.
Qed.

Lemma attempt_next b n : attempt b (S n) <> b.
Proof.
  unfold attempt, retry_id. intros He. apply (f_equal String.length) in He. rewrite !length_append in He. simpl in He. lia.
Qed.

Lemma rejected_extends ops ops' k : ops_extend ops ops' -> rejected_op ops k -> rejected_op ops' k.
Proof.
  intros He (op & Hop & Hr). destruct (He k op Hop) as (op' & Hop' & _ & _ & Hfin). exists op'. split; [done|].
  rewrite Hfin; [done|]. by destruct (status op).
Qed.

(** New keys only where they may be created. *)
Definition new_keys (ops ops' : gmap string JournalOperation) : Prop :=
  forall k, is_Some (ops' !! k) -> is_Some (ops !! k) \/ creatable ops k.

Lemma chains_extend ops ops' : ops_extend ops ops' -> new_keys ops ops' -> chains ops -> chains ops'.
Proof.
  intros He Hn Hc b n Hlt Hk. apply (rejected_extends ops); [done|].
  destruct (Hn _ Hk) as [Hold|Hcr]; [by apply Hc|by eapply Hcr].
Qed.

(** ** The journal under appends *)
Section journal.
Context `{WireCodecLaws}.

Definition journal_ok (j : TransactionJournal) : Prop :=
  journal_history j /\ chains (operations j) /\
  (forall j', reopen j = Ok j' -> ops_extend (operations j) (operations j') /\ chains (operations j')).

Definition grows (j j' : TransactionJournal) : Prop :=
  next_sequence j <= next_sequence j' /\ ops_extend (operations j) (operations j').

#[export] Instance grows_preorder : PreOrder grows.
Proof.
  split; [by split|]. intros a b c [? ?] [? ?]. split; [lia|by etrans].
Qed.

Lemma append_grows env i ev j : grows j (append env i ev j).1.
Proof.
  unfold append. destruct (prepare_append env i ev j) as [[ops' line]|] eqn:Hp; [|done].
  destruct (prepared_line _ _ _ _ _ _ Hp) as (_ & [now Happ] & _).
  destruct (write_fault env); [by split|].
  pose proof (apply_payload_extends _ _ _ Happ). destruct (checked_add 64 _ 1) eqn:E; checked_inv; split; simpl; done || lia.
Qed.

Lemma payload_new_keys j env i ev ops' line :
  prepare_append env i ev j = Ok (ops', line) -> (is_intent ev = true -> creatable (operations j) (operation_id i)) ->
  ops_extend (operations j) ops' /\ new_keys (operations j) ops'.
Proof.
  intros Hp Hcr. destruct (prepared_line _ _ _ _ _ _ Hp) as (_ & [now Happ] & _).
  split; [by eapply apply_payload_extends|]. intros k.
  destruct (apply_payload_cases _ _ _ Happ) as (i' & Hi & _ & [(it & Hit & Hid & _ & _ & _ & ->)|(op & s' & Hop & _ & _ & ->)]).
  all: unfold payload_identity in Hi; simpl in Hi; apply bind_Some in Hi as (w & _ & [= <-]).
  - rewrite lookup_insert_is_Some'. intros [<-|?]; [right|by left]. apply Hcr. simpl in Hit. by destruct ev.
  - rewrite lookup_insert_is_Some'. intros [<-|?]; [left; by eexists|by left].
Qed.

Lemma append_journal_ok env i ev j :
  journal_ok j -> next_sequence j + 1 < 2 ^ 64 -> (is_intent ev = true -> creatable (operations j) (operation_id i)) ->
  journal_ok (append env i ev j).1.
Proof.
  intros (Hh & Hc & Hre) Hseq Hcr.
  assert (Hh' : journal_history (append env i ev j).1).
  { eapply history_step; [exact Hh|]. split; [done|]. by exists env, i, ev. }
  split; [done|]. destruct (append_cases env i ev j Hseq) as [[e E]|[(ops' & line & k & Hp & _ & E)|(ops' & line & Hp & _ & E)]];
    rewrite E in *; simpl in *; [done|..]; destruct (payload_new_keys _ _ _ _ _ _ Hp Hcr) as [Hx Hn];
    pose proof (chains_extend _ _ Hx Hn Hc) as Hc';
    destruct (prepared_line _ _ _ _ _ _ Hp) as (Hpois & _ & (body & -> & Hne & Hnl & Hlen) & _);
    destruct (du_file j (history_durable j Hh) Hpois) as [Hcl Hr].
  - split; [done|]. intros j'. destruct k as [|k].
    + unfold reopen, open. simpl. rewrite app_nil_r, Hr. simpl. intros [= <-]. done.
    + destruct (decide (S k <= length body)%nat).
      * rewrite (torn_record j body (S k)); done || lia.
      * rewrite take_ge by (rewrite length_app; simpl; lia).
        rewrite (whole_record j env i ev ops'); [|done..]. intros [= <-]. done.
  - split; [done|]. intros j' Hj'. destruct (append_line _ _ _ _ _ _ Hp Hseq Hcl Hr) as [_ Hr'].
    unfold reopen, open in Hj'. simpl in Hj'. rewrite Hr' in Hj'. simpl in Hj'. injection Hj' as <-. done.
Qed.
End journal.
(** ** Steps of the executor *)
Section facts.
Context `{EvmText, WireCodecLaws} (o : Outside).
#[local] Existing Instance hash_of_text.

Definition ex_ops (w : World) : gmap string JournalOperation := operations (ex_journal (w_ex w)).
Definition room (w : World) : Prop := next_sequence (ex_journal (w_ex w)) + 1 < 2 ^ 64.

(** What only a restart or a gate changes: wallet, chain, policy and gates. *)
Definition profile (e : DexExecutor) :=
  (ex_wallet e, l_chain_id (ex_lane e), l_wallet (ex_lane e), ex_gas_policy e,
   (ex_allowance_mutations_enabled e, ex_camelot_submissions_enabled e, ex_lynex_submissions_enabled e)).

(** The growth of a journal, while its sequence lasts. *)
Definition journal_evolves (j j' : TransactionJournal) : Prop :=
  grows j j' /\ (next_sequence j' + 1 < 2 ^ 64 -> journal_ok j -> journal_ok j').
#[export] Instance journal_evolves_preorder : PreOrder journal_evolves.
Proof.
  split; [by split|]. intros a b c [Hab Ha] [Hbc Hb]. split; [by etrans|]. intros Hr Hok. apply Hb; [done|].
  apply Ha; [|done]. destruct Hbc. lia.
Qed.

Record evolves (w w' : World) : Prop := {
  ev_profile : profile (w_ex w') = profile (w_ex w);
  ev_journal : journal_evolves (ex_journal (w_ex w)) (ex_journal (w_ex w'));
}.
#[export] Instance evolves_preorder : PreOrder evolves.
Proof. split; [by split|]. intros a b c [Ha Ha'] [Hb Hb']. split; [congruence|by etrans]. Qed.

Lemma evolves_room w w' : evolves w w' -> room w' -> room w.
Proof. intros [_ [[Hs _] _]]. unfold room. lia. Qed.

Lemma evolves_extend w w' : evolves w w' -> ops_extend (ex_ops w) (ex_ops w').
Proof. intros [_ [[_ Hx] _]]. exact Hx. Qed.

(** A step that sends nothing. *)
Definition silent (w w' : World) : Prop := evolves w w' /\ w_wire w' = w_wire w.
#[export] Instance silent_preorder : PreOrder silent.
Proof. split; [by split|]. intros a b c [? ?] [? ?]. split; [by etrans|congruence]. Qed.

Definition calm {A} (m : EM A) : Prop := forall w, silent w (m w).1.

Lemma calm_bind {A B} (m : EM A) (k : A -> EM B) : calm m -> (forall a, calm (k a)) -> calm (mbind' m k).
Proof.
  intros Hm Hk w. unfold mbind'. pose proof (Hm w) as Hw. destruct (m w) as [w1 [a|e]]; simpl in *; [|done].
  etrans; [exact Hw|apply Hk].
Qed.
Lemma calm_ret {A} (a : A) : calm (mret a).
Proof. intros w. done. Qed.
Lemma calm_fail {A} e : calm (@mfail World JournalError A e).
Proof. intros w. done. Qed.
Lemma calm_lift {A} (r : JRes A) : calm (mlift r).
Proof. intros w. done. Qed.
Lemma silent_tick w : silent w (tick w).
Proof. split; [by split|done]. Qed.
Lemma calm_ask {A} (f : nat -> JRes A) : calm (ask f).
Proof. intros w. apply silent_tick. Qed.
Lemma calm_get : calm get_ex.
Proof. intros w. done. Qed.

(** A change of the fields around lane and journal. *)
Definition keeps_lane (f : DexExecutor -> DexExecutor) : Prop :=
  forall e, profile (f e) = profile e /\ ex_journal (f e) = ex_journal e.
Lemma keeps_silent f w t : keeps_lane f -> silent w (mkWorld (f (w_ex w)) t (w_wire w)).
Proof. intros Hf. destruct (Hf (w_ex w)) as (Hp & Hj). split; [|done]. split; simpl; by rewrite ?Hp, ?Hj. Qed.
Lemma calm_put f : keeps_lane f -> calm (put_ex f).
Proof. intros Hf w. by apply keeps_silent. Qed.

(** Lane methods that journal no new operation. *)
Definition lane_evolves (s s' : NonceLane * TransactionJournal) : Prop :=
  l_chain_id s'.1 = l_chain_id s.1 /\ l_wallet s'.1 = l_wallet s.1 /\ journal_evolves s.2 s'.2.
Definition lane_quiet {A} (m : AppendEnv -> M (NonceLane * TransactionJournal) JournalError A) : Prop :=
  forall env s, lane_evolves s (m env s).1.

Lemma silent_lane w l j :
  lane_evolves (ex_lane (w_ex w), ex_journal (w_ex w)) (l, j) ->
  silent w (tick (mkWorld (set_lane_journal (w_ex w) l j) (w_tick w) (w_wire w))).
Proof. intros (Hc & Hw & Hj). simpl in *. split; [|done]. split; [|done]. unfold profile. simpl. by rewrite Hc, Hw. Qed.

Lemma calm_lane {A} (m : AppendEnv -> M (NonceLane * TransactionJournal) JournalError A) : lane_quiet m -> calm (on_lane m o).
Proof.
  intros Hm w. unfold on_lane. pose proof (Hm (o_append o (w_tick w)) (ex_lane (w_ex w), ex_journal (w_ex w))) as He.
  destruct (m (o_append o (w_tick w)) _) as [[l j] r]. by apply silent_lane.
Qed.

Lemma append_evolves env i ev j :
  (is_intent ev = true -> creatable (operations j) (operation_id i)) -> journal_evolves j (append env i ev j).1.
Proof.
  intros Hc. pose proof (append_grows env i ev j) as Hg. split; [exact Hg|]. intros Hr Hok. apply append_journal_ok; [done| |done].
  destruct Hg. lia.
Qed.

Lemma quiet_append {B} env i ev (k : LM B) s :
  is_intent ev = false ->
  (forall j', l_chain_id (k (s.1, j')).1.1 = l_chain_id s.1 /\ l_wallet (k (s.1, j')).1.1 = l_wallet s.1 /\ (k (s.1, j')).1.2 = j') ->
  lane_evolves s ((do! on_journal (append env i ev) ;; k) s).1.
Proof.
  intros Hev Hk. assert (Ha : journal_evolves s.2 (append env i ev s.2).1) by (apply append_evolves; by rewrite Hev).
  destruct s as [l j]. unfold lane_evolves, mbind', on_journal. cbn [fst snd] in *.
  destruct (append env i ev j) as [j' [[]|e]]; cbn [fst snd] in *; [|done]. destruct (Hk j') as (-> & -> & ->). done.
Qed.

Ltac quiet_case :=
  apply quiet_append; [done|intros ?; unfold mbind', mlift, or_err; repeat (case_match; simpl); done].

Lemma quiet_signed tx : lane_quiet (fun env => lane_record_signed env tx).
Proof.
  intros env s. unfold lane_record_signed, record_signed. destruct (l_state s.1); try done.
  do 2 (destruct (negb _); [done|]). quiet_case.
Qed.
Lemma quiet_broadcast h : lane_quiet (fun env => lane_record_broadcast env h).
Proof.
  intros env s. unfold lane_record_broadcast, record_broadcast. destruct (l_state s.1); try done.
  destruct (negb _); [done|]. quiet_case.
Qed.
Lemma quiet_unknown r : lane_quiet (fun env => lane_record_unknown_outcome env r).
Proof.
  intros env s. unfold lane_record_unknown_outcome, record_unknown_outcome. destruct (l_state s.1); try done; quiet_case.
Qed.
Lemma quiet_cancel : lane_quiet cancel_before_signing.
Proof.
  intros env s. unfold cancel_before_signing, record_cancelled_before_signing. destruct (l_state s.1); try done; quiet_case.
Qed.
Lemma quiet_rejected h : lane_quiet (fun env => lane_record_rejected_before_broadcast env h).
Proof.
  intros env s. unfold lane_record_rejected_before_broadcast, record_rejected_before_broadcast.
  destruct (l_state s.1) as [|?|? ?|? ?|? [?|]|]; try done; (destruct (negb _); [done|]); quiet_case.
Qed.
Lemma quiet_receipt rc : lane_quiet (fun env => lane_record_receipt env rc).
Proof.
  intros env s. unfold lane_record_receipt, record_mined. destruct (receipt_subject _ _ _) as [[i h]|]; [|done].
  do 2 (destruct (negb _); [done|]).
  assert (is_intent (if rc_status rc =? 1 then WMinedSuccess (format_b256 (rc_hash rc)) (rc_block rc)
                     else WMinedReverted (format_b256 (rc_hash rc)) (rc_block rc)) = false) by (by case_match).
  quiet_case.
Qed.
End facts.

(** The calls a transaction may carry, by the identifier it is journaled under. *)
Abbreviation Calls := (string -> WalletCall -> Prop).

(** The steps that send nothing. *)
Ltac calm :=
  repeat first
    [ apply calm_ret | apply calm_fail | apply calm_lift | apply calm_ask | apply calm_get
    | apply calm_lane; (apply quiet_signed || apply quiet_broadcast || apply quiet_unknown || apply quiet_cancel
                        || apply quiet_rejected || apply quiet_receipt)
    | apply calm_put; intros ?; done
    | apply calm_bind; [|intros ?]
    | case_match ].

(** ** Submission *)
Section submission.
Context `{EvmText, WireCodecLaws} (o : Outside).
#[local] Existing Instance hash_of_text.

Lemma intent_recorded env it j j' :
  record_intent env it j = (j', Ok tt) -> uint 160 (wallet (identity it)) ->
  operations j !! operation_id (identity it) = None /\
  exists it', identity it' = identity it /\
    operations j' = <[operation_id (identity it) := mkOperation it' IntentRecorded]> (operations j).
Proof.
  unfold record_intent, mbind', mlift. destruct (validate_intent it); [|done]. intros Hr Hw.
  match type of Hr with append env ?i ?ev j = _ => unfold append in Hr; destruct (prepare_append env i ev j) as [[ops' line]|] eqn:Hp end; [|done].
  destruct (prepared_line _ _ _ _ _ _ Hp) as (_ & [now Happ] & _).
  destruct (write_fault env); [done|]. destruct (checked_add 64 _ 1); [|done]. injection Hr as <-. simpl.
  destruct (apply_payload_cases _ _ _ Happ) as (i' & Hi & _ & [(it' & Hit & Hid & Hn & _ & _ & ->)|(op & s' & _ & _ & Hs & _)]); [|done].
  unfold payload_identity in Hi. simpl in Hi. rewrite address_roundtrip in Hi by done. simpl in Hi. injection Hi as <-.
  simpl in *. split; [done|]. exists it'. split; [|done]. rewrite Hid. by destruct (identity it).
Qed.

Lemma reserve_quiet env id purp c n s :
  l_chain_id (reserve_with_nonce env id purp c n s).1.1 = l_chain_id s.1 /\
  l_wallet (reserve_with_nonce env id purp c n s).1.1 = l_wallet s.1 /\
  ((reserve_with_nonce env id purp c n s).1.2 = s.2 \/
   exists it, operation_id (identity it) = id /\ (reserve_with_nonce env id purp c n s).1.2 = (record_intent env it s.2).1).
Proof.
  destruct s as [l j]. unfold reserve_with_nonce. cbn [fst snd]. destruct (l_state l); try (by auto). destruct (negb _); [by auto|].
  set (it := mkIntent _ _ _ _ _). unfold mbind' at 1 3 5, on_journal.
  unfold mbind', on_journal. destruct (record_intent env it j) as [j' [[]|e]] eqn:E; simpl; (split; [done|split; [done|right; exists it; split; [done|by rewrite E]]]).
Qed.

Lemma record_intent_append env it j :
  (record_intent env it j).1 = j \/ exists ev, (record_intent env it j).1 = (append env (identity it) ev j).1.
Proof. unfold record_intent, mbind', mlift. destruct (validate_intent it); [right; by eexists|by left]. Qed.

Definition reserve_lane (id purp : string) (c : WalletCall) (n : Z) : EM JournalOperationIdentity :=
  on_lane (fun env => reserve_with_nonce env id purp c n) o.

Lemma reserve_silent id purp c n w : creatable (ex_ops w) id -> silent w (reserve_lane id purp c n w).1.
Proof.
  intros Hcr. unfold reserve_lane, on_lane. set (env := o_append o (w_tick w)).
  destruct (reserve_quiet env id purp c n (ex_lane (w_ex w), ex_journal (w_ex w))) as (Hc & Hw & Hj).
  destruct (reserve_with_nonce env id purp c n _) as [[l j] r]. simpl in *. apply silent_lane. split_and!; [done|done|].
  simpl. destruct Hj as [->|(it & <- & ->)]; [done|].
  destruct (record_intent_append env it (ex_journal (w_ex w))) as [->|[ev ->]]; [done|]. by apply append_evolves.
Qed.

(** A granted reservation. *)
Lemma reserved id purp c n w w' i :
  reserve_lane id purp c n w = (w', Ok i) -> uint 160 (l_wallet (ex_lane (w_ex w))) ->
  l_state (ex_lane (w_ex w')) = LReserved i /\
  operation_id i = id /\ chain_id i = l_chain_id (ex_lane (w_ex w)) /\ wallet i = l_wallet (ex_lane (w_ex w)) /\ nonce i = n /\
  ex_ops w !! id = None /\ exists it, identity it = i /\ ex_ops w' !! id = Some (mkOperation it IntentRecorded).
Proof.
  unfold reserve_lane, on_lane, ex_ops. set (env := o_append o (w_tick w)). intros Hr Hu.
  unfold reserve_with_nonce in Hr. cbn [fst snd] in Hr. destruct (l_state (ex_lane (w_ex w))); try done. destruct (negb _); [done|].
  set (it := mkIntent _ _ _ _ _) in Hr. unfold mbind', on_journal in Hr.
  destruct (record_intent env it (ex_journal (w_ex w))) as [j' [[]|e]] eqn:E; [|done]. injection Hr as <- <-. simpl.
  destruct (intent_recorded _ _ _ _ E Hu) as (Hnone & it' & Hid & Hops). simpl in *. split_and!; try done.
  exists it'. split; [done|]. rewrite Hops. apply lookup_insert_eq.
Qed.

(** A journaled signature. *)
Lemma signed_recorded tx w w' i it :
  on_lane (fun env => lane_record_signed env tx) o w = (w', Ok tt) -> l_state (ex_lane (w_ex w)) = LReserved i ->
  ex_ops w !! operation_id i = Some (mkOperation it IntentRecorded) -> uint 256 (st_hash tx) ->
  st_nonce tx = nonce i /\ ex_ops w' !! operation_id i = Some (mkOperation it (Signed (st_hash tx))) /\ w_wire w' = w_wire w.
Proof.
  unfold on_lane, ex_ops. set (env := o_append o (w_tick w)). intros Hr Hl Hop Hu.
  unfold lane_record_signed in Hr. cbn [fst snd] in Hr. rewrite Hl in Hr.
  destruct (st_chain_id tx =? chain_id i); [|done]. destruct (Z.eqb_spec (st_nonce tx) (nonce i)) as [Hn|]; [|done]. simpl in Hr.
  unfold mbind', on_journal, record_signed, append in Hr.
  match type of Hr with context [prepare_append ?env ?i ?ev ?j] => destruct (prepare_append env i ev j) as [[ops' line]|] eqn:Hp end; [|done].
  destruct (prepared_line _ _ _ _ _ _ Hp) as (_ & [now Happ] & _).
  destruct (write_fault env); [done|]. destruct (checked_add 64 _ 1); [|done]. injection Hr as <-. simpl. split; [done|]. split; [|done].
  destruct (apply_payload_cases _ _ _ Happ) as (i' & Hi & _ & [(it' & Hit & _)|(op & s' & Hop' & _ & Hs & ->)]); [done|].
  unfold payload_identity in Hi. simpl in Hi. apply bind_Some in Hi as (wl & _ & [= <-]). simpl in *.
  rewrite Hop in Hop'. injection Hop' as <-. simpl in *. unfold parse_hash in Hs. rewrite b256_roundtrip in Hs by done. simpl in Hs. injection Hs as <-. apply lookup_insert_eq.
Qed.

(** What a sent transaction has in the journal. *)
Definition sent_ok (w : World) (s : Sent) : Prop :=
  exists op, ex_ops w !! se_operation_id s = Some op /\
    transaction_hash (status op) = Some (st_hash (se_transaction s)) /\
    chain_id (identity (intent op)) = l_chain_id (ex_lane (w_ex w)) /\
    wallet (identity (intent op)) = l_wallet (ex_lane (w_ex w)) /\
    nonce (identity (intent op)) = st_nonce (se_transaction s).

Definition signed_call (K : Calls) (s : Sent) : Prop :=
  exists c t p, K (se_operation_id s) c /\ sign_call o t c p = Ok (se_transaction s).

(** What is sent goes out under a fresh, journaled identifier, signed from a call of [K]. *)
Record emits (K : Calls) (w w' : World) : Prop := {
  em_evolves : evolves w w';
  em_sent : exists new, w_wire w' = new ++ w_wire w /\ NoDup (se_operation_id <$> new) /\
    Forall (fun s => ex_ops w !! se_operation_id s = None /\ sent_ok w' s /\ signed_call K s) new;
}.

Lemma sent_keep w w' s :
  ops_extend (ex_ops w) (ex_ops w') -> l_chain_id (ex_lane (w_ex w')) = l_chain_id (ex_lane (w_ex w)) ->
  l_wallet (ex_lane (w_ex w')) = l_wallet (ex_lane (w_ex w)) -> sent_ok w s -> sent_ok w' s.
Proof.
  intros Hx Hc Hw (op & Hop & Hh & Hch & Hwa & Hn).
  destruct (Hx _ _ Hop) as (op' & Hop' & Hi & Hh' & _). exists op'. rewrite Hi, Hc, Hw. auto.
Qed.

Lemma evolves_lane w w' : evolves w w' ->
  ex_wallet (w_ex w') = ex_wallet (w_ex w) /\
  l_chain_id (ex_lane (w_ex w')) = l_chain_id (ex_lane (w_ex w)) /\ l_wallet (ex_lane (w_ex w')) = l_wallet (ex_lane (w_ex w)).
Proof. intros [Hp _]. unfold profile in Hp. injection Hp. auto. Qed.

Lemma sent_extends w w' s : evolves w w' -> sent_ok w s -> sent_ok w' s.
Proof.
  intros He. pose proof (evolves_lane _ _ He) as (_ & Hc & Hw). apply sent_keep; [by apply evolves_extend|done|done].
Qed.

Lemma absent_before w w' k : evolves w w' -> ex_ops w' !! k = None -> ex_ops w !! k = None.
Proof.
  intros He Hn. destruct (ex_ops w !! k) as [op|] eqn:E; [|done]. destruct (evolves_extend _ _ He _ _ E) as (op' & Hop' & _). congruence.
Qed.

Lemma emits_silent K w w' : silent w w' -> emits K w w'.
Proof. intros [He Hw]. split; [done|]. exists []. split_and!; [done|constructor|constructor]. Qed.

Lemma emits_trans K w w1 w' : emits K w w1 -> emits K w1 w' -> emits K w w'.
Proof.
  intros [He (n1 & Hw1 & Hd1 & Hf1)] [He' (n2 & Hw2 & Hd2 & Hf2)]. split; [by etrans|].
  exists (n2 ++ n1). split; [by rewrite Hw2, Hw1, app_assoc|]. split.
  - rewrite fmap_app. apply NoDup_app. split; [done|]. split; [|done].
    intros k (s & -> & Hs)%list_elem_of_fmap (s' & Hk & Hs')%list_elem_of_fmap.
    rewrite Forall_forall in Hf1, Hf2. destruct (Hf2 _ Hs) as (Hn & _). destruct (Hf1 _ Hs') as (_ & (op & Hop & _) & _). congruence.
  - apply Forall_app. split.
    + eapply Forall_impl; [exact Hf2|]. intros s (Hn & ? & ?). split; [by eapply absent_before|done].
    + eapply Forall_impl; [exact Hf1|]. intros s (Hn & ? & ?). split; [done|]. split; [by eapply sent_extends|done].
Qed.

Lemma emits_mono (K K' : Calls) w w' : (forall id c, K id c -> K' id c) -> emits K w w' -> emits K' w w'.
Proof.
  intros HK [He (new & Hw & Hd & Hf)]. split; [done|]. exists new. split_and!; [done|done|].
  eapply Forall_impl; [exact Hf|]. intros s (? & ? & c & t & p & Hc & Hs). split_and!; [done|done|]. exists c, t, p. auto.
Qed.

Context `{!KeccakLaws}.

Lemma sign_call_signed t c p tx : sign_call o t c p = Ok tx ->
  st_chain_id tx = wp_chain_id p /\ st_nonce tx = wp_nonce p /\ uint 256 (st_hash tx).
Proof.
  unfold sign_call. intros Hs. apply rbind_Ok in Hs as (? & _ & Hs). apply rbind_Ok in Hs as (? & _ & Hs).
  apply rbind_Ok in Hs as (raw & _ & Hs). injection Hs as <-. simpl. split; [done|]. split; [done|]. exact (@keccak_range hash_of_text _ raw).
Qed.

(** From the reservation on. *)
Definition submit_reserved (id : string) (c : WalletCall) (fees : WalletTransactionParameters) (g : ProcessNonceKey) (locks : ProcessNonceLocks)
    (i : JournalOperationIdentity) : EM Z :=
  do signed <- (fun w =>
      match sign_call o (w_tick w) c (mkParameters (wp_chain_id fees) (nonce i) (wp_gas_limit fees) (wp_max_fee_per_gas fees)
                                      (wp_max_priority_fee_per_gas fees)) with
      | Ok signed => (tick w, Ok signed)
      | Err err => (do! on_lane cancel_before_signing o ;; mfail err) (tick w)
      end) ;;
  do! on_lane (fun env => lane_record_signed env signed) o ;;
  do result <- broadcast_signed_transaction o id signed ;;
  do submitted <-
      match result with
      | Some (Ok h) => mret h
      | Some (Err err) =>
          do! (if is_definitive_prebroadcast_rejection err
               then on_lane (fun env => lane_record_rejected_before_broadcast env (st_hash signed)) o
               else on_lane (fun env => lane_record_unknown_outcome env BroadcastTransport) o) ;;
          mfail err
      | None =>
          do! on_lane (fun env => lane_record_unknown_outcome env BroadcastTransport) o ;;
          mfail (JMsg "DEX transaction broadcast timed out while holding nonce lock")
      end ;;
  do! on_lane (fun env => lane_record_broadcast env submitted) o ;;
  do! mlift (advance_after_broadcast g (nonce i) locks).2 ;;
  mret submitted.

Lemma submit_reserved_emits id c fees g locks i it w0 w :
  ex_ops w !! id = Some (mkOperation it IntentRecorded) -> identity it = i -> operation_id i = id ->
  chain_id i = l_chain_id (ex_lane (w_ex w)) -> wallet i = l_wallet (ex_lane (w_ex w)) ->
  l_state (ex_lane (w_ex w)) = LReserved i -> silent w0 w -> ex_ops w0 !! id = None ->
  emits (fun k x => k = id /\ x = c) w0 (submit_reserved id c fees g locks i w).1.
Proof.
  intros Hop Hid Hopid Hch Hwa Hst Hs0 Hnone. unfold submit_reserved. unfold mbind' at 1.
  destruct (sign_call o (w_tick w) c _) as [signed|err] eqn:Es.
  2:{ assert (Hf : calm (do! on_lane cancel_before_signing o ;; @mfail World JournalError SignedTransaction err)).
      { apply calm_bind; [apply calm_lane, quiet_cancel|intros ?; apply calm_fail]. }
      pose proof (Hf (tick w)) as Hw. unfold mbind' in Hw |- *.
      destruct (on_lane cancel_before_signing o (tick w)) as [w' [a|e]]; apply emits_silent;
        (etrans; [exact Hs0|]; etrans; [apply silent_tick|exact Hw]). }
  destruct (sign_call_signed _ _ _ _ Es) as (_ & Hn & Hu). simpl in Hn. unfold mbind' at 1.
  pose proof (calm_lane o (fun env => lane_record_signed env signed) (quiet_signed signed) (tick w)) as Hq.
  destruct (on_lane (fun env => lane_record_signed env signed) o (tick w)) as [w1 [[]|e]] eqn:Er; simpl in Hq.
  2:{ simpl. apply emits_silent. etrans; [exact Hs0|]. etrans; [apply silent_tick|done]. }
  destruct (signed_recorded _ _ _ i it Er Hst) as (_ & Hop1 & Hw1); [by rewrite Hopid|done|]. rewrite Hopid in Hop1.
  assert (Hs1 : silent w0 w1) by (etrans; [exact Hs0|]; etrans; [apply silent_tick|exact Hq]).
  unfold mbind' at 1. unfold broadcast_signed_transaction at 1. unfold mbind' at 1. cbn [send mret].
  set (w2 := mkWorld (w_ex w1) (S (w_tick w1)) (mkSent id signed :: w_wire w1)).
  apply (emits_trans _ w0 w2).
  - destruct Hs1 as [He1 Hw01]. split.
    + etrans; [exact He1|]. split; done.
    + exists [mkSent id signed]. split; [simpl; by rewrite Hw01|]. split; [apply NoDup_singleton|]. apply Forall_singleton.
      split; [done|]. split; [|by eexists c, _, _]. exists (mkOperation it (Signed (st_hash signed))).
      unfold w2, ex_ops in *. simpl in *. split; [exact Hop1|]. split; [done|]. rewrite Hid.
      destruct (evolves_lane _ _ (proj1 Hq)) as (_ & Hc & Hw). simpl in Hc, Hw. rewrite Hc, Hw. by split_and!.
  - apply emits_silent. match goal with |- silent w2 (?m w2).1 => assert (Hcalm : calm m) by calm; apply Hcalm end.
Qed.

Lemma submit_emits id purp c fees w :
  uint 160 (l_wallet (ex_lane (w_ex w))) -> creatable (ex_ops w) id -> emits (fun k x => k = id /\ x = c) w (submit o id purp c fees w).1.
Proof.
  intros Hu Hcr. unfold submit. unfold mbind' at 1. cbn [get_ex]. unfold mbind' at 1. cbv beta.
  lazymatch goal with |- emits _ _ (fst (match ?r with _ => _ end)) => destruct r as [[locks g]|e] end; [|by apply emits_silent].
  cbv beta iota. unfold mbind' at 1. cbn [mlift].
  destruct (or_err (guard_nonce g locks) _) as [n|e]; [|by apply emits_silent].
  unfold mbind' at 1. fold (reserve_lane id purp c n).
  pose proof (reserve_silent id purp c n (tick w) Hcr) as Hrs.
  destruct (reserve_lane id purp c n (tick w)) as [w1 [i|e]] eqn:Er; simpl in Hrs; [|apply emits_silent; etrans; [apply silent_tick|done]].
  assert (Hrs' : silent w w1) by (etrans; [apply silent_tick|done]). clear Hrs. rename Hrs' into Hrs.
  destruct (reserved _ _ _ _ _ _ _ Er Hu) as (Hst & Hid & Hch & Hwa & _ & Hnone & it & Hit & Hop).
  destruct (evolves_lane _ _ (proj1 Hrs)) as (_ & Hlc & Hlw). simpl in *.
  apply (submit_reserved_emits id c fees g locks i it w w1); try done.
  - by rewrite Hch, Hlc.
  - by rewrite Hwa, Hlw.
Qed.
End submission.
