(* ===== verification/ExecutorFacts.v ===== *)
(** * What the DEX executor promises ([src/src/dex/execution.rs])

    What a swap may send, that of all attempts of one request and of all
    transactions of one nonce at most one was not definitively rejected, along every
    run with faults and restarts, and that the error and the outcome a caller sees
    are true. *)
From Stdlib Require Import Ascii Lia.
From stdpp Require Import base gmap strings numbers list option pretty relations.
From S2P Require Import Prelude ExecutionPlan TradeData PlanBuild Events CostAccounting LineLog Journal Nonce Calldata Settlement Executor ExecutorSteps.

(** ** Identifiers of requests are not retries *)
Lemma plain_ending a c : String.length c = 1%nat -> c <> "1" -> c <> "2" -> c <> "3" -> plain (a +:+ c)%string.
Proof.
  intros Hl H1 H2 H3 b n Hn He.
  assert (Hr : exists d, attempt b n = ((b +:+ ".retry-") +:+ d)%string /\ String.length d = 1%nat /\ (d = "1" \/ d = "2" \/ d = "3")).
  { destruct n as [|[|[|[|]]]]; try lia; [exists "1"|exists "2"|exists "3"]; unfold attempt, retry_id; rewrite <- append_assoc; auto. }
  destruct Hr as (d & Hr & Hd & Hc). rewrite Hr in He. apply app_inj_len in He as [_ ->]; [|congruence]. naive_solver.
Qed.

Lemma plain_swap a : plain (a +:+ ".swap")%string.
Proof. change ".swap"%string with (".swa" +:+ "p")%string. rewrite append_assoc. by apply plain_ending. Qed.

(** The suffixes of approval requests. *)
Definition approval_suffixes : list string :=
  [".v3-router-approval"; ".pancakeswap-v3-router-approval"; ".camelot-v3-router-approval";
   ".lynex-algebra-v1-9-router-approval"; ".permit2-erc20-approval"; ".permit2-router-approval"].
Ltac suffix := unfold approval_suffixes; repeat first [apply list_elem_of_here | apply list_elem_of_further].
Lemma plain_approval a s : s ∈ approval_suffixes -> plain (a +:+ s)%string.
Proof.
  intros Hs. assert (Hl : exists t, s = (t +:+ "l")%string).
  { unfold approval_suffixes in Hs. rewrite !elem_of_cons, elem_of_nil in Hs.
    destruct Hs as [->|[->|[->|[->|[->|[->|[]]]]]]];
      match goal with |- exists t, ?s = _ => exists (String.substring 0 (String.length s - 1) s); reflexivity end. }
  destruct Hl as [t ->]. rewrite append_assoc. by apply plain_ending.
Qed.

(** ** What a call may send *)
Section calls.
Context `{EvmText, WireCodecLaws} (o : Outside).
#[local] Existing Instance hash_of_text.
Context `{!KeccakLaws}.

(** Facts that survive steps. *)
Definition stable (Q : World -> Prop) : Prop := forall w w', evolves w w' -> Q w -> Q w'.
Definition does (Q : World -> Prop) (K : Calls) {A} (m : EM A) : Prop := forall w, Q w -> emits o K w (m w).1.

Lemma does_calm Q K {A} (m : EM A) : calm m -> does Q K m.
Proof. intros Hm w _. apply emits_silent, Hm. Qed.

Lemma does_bind Q K {A B} (m : EM A) (k : A -> EM B) :
  stable Q -> does Q K m -> (forall a, does Q K (k a)) -> does Q K (mbind' m k).
Proof.
  intros HQ Hm Hk w Hw. unfold mbind'. specialize (Hm w Hw). destruct (m w) as [w1 [a|e]]; simpl in *; [|done].
  eapply emits_trans; [exact Hm|]. apply Hk. eapply HQ; [apply Hm|done].
Qed.

Lemma does_lift Q K {A B} (r : JRes A) (k : A -> EM B) :
  (forall a, r = Ok a -> does Q K (k a)) -> does Q K (mbind' (mlift r) k).
Proof.
  intros Hk w Hw. unfold mbind', mlift. destruct r as [a|e]; [by apply Hk|by apply emits_silent].
Qed.

Lemma does_guard Q K {B} b e (k : EM B) : (b = true -> does Q K k) -> does Q K (do! guard b e ;; k).
Proof. intros Hk. apply does_lift. intros ? Hb. apply Hk. by apply ensure_Ok in Hb. Qed.

Lemma does_ask Q K {A B} (f : nat -> JRes A) (k : A -> EM B) :
  stable Q -> (forall t a, f t = Ok a -> does Q K (k a)) -> does Q K (mbind' (ask f) k).
Proof.
  intros HQ Hk w Hw. pose proof (silent_tick w) as Ht. unfold mbind', ask. destruct (f (w_tick w)) as [a|e] eqn:E; [|by apply emits_silent].
  eapply emits_trans; [by apply emits_silent|]. eapply Hk; [done|]. eapply HQ; [apply Ht|done].
Qed.

Lemma does_mono Q (K K' : Calls) {A} (m : EM A) : (forall id c, K id c -> K' id c) -> does Q K m -> does Q K' m.
Proof. intros HK Hm w Hw. eapply emits_mono; [exact HK|by apply Hm]. Qed.

(** The executor a method starts with, up to what steps change. *)
Definition like (e0 : DexExecutor) (w : World) : Prop := profile (w_ex w) = profile e0.
Lemma like_stable e0 : stable (like e0).
Proof. intros w w' [He _] Hl. unfold like in *. congruence. Qed.

Lemma profile_fields e e0 : profile e = profile e0 ->
  ex_wallet e = ex_wallet e0 /\ l_chain_id (ex_lane e) = l_chain_id (ex_lane e0) /\
  l_wallet (ex_lane e) = l_wallet (ex_lane e0) /\ ex_gas_policy e = ex_gas_policy e0 /\
  ex_allowance_mutations_enabled e = ex_allowance_mutations_enabled e0 /\
  ex_camelot_submissions_enabled e = ex_camelot_submissions_enabled e0 /\
  ex_lynex_submissions_enabled e = ex_lynex_submissions_enabled e0.
Proof. unfold profile. intros [=]. by split_and!. Qed.

Lemma does_get e0 K {B} (k : DexExecutor -> EM B) :
  (forall e, profile e = profile e0 -> does (like e0) K (k e)) -> does (like e0) K (mbind' get_ex k).
Proof. intros Hk w Hw. by apply (Hk (w_ex w)). Qed.

(** The first steps of a method, before the clock moves. *)
Definition at_tick (e0 : DexExecutor) (t : nat) (w : World) : Prop := like e0 w /\ w_tick w = t.

Lemma does_put e0 t K f {B} (k : unit -> EM B) :
  keeps_lane f -> does (at_tick e0 t) K (k tt) -> does (at_tick e0 t) K (mbind' (put_ex f) k).
Proof.
  intros Hf Hk w [Hl Ht]. unfold mbind', put_ex. eapply emits_trans; [apply emits_silent, (keeps_silent f w (w_tick w) Hf)|].
  apply Hk. split; [|done]. unfold like in *. simpl. destruct (Hf (w_ex w)) as [-> _]. done.
Qed.

Lemma does_get_at e0 t K {B} (k : DexExecutor -> EM B) :
  (forall e, profile e = profile e0 -> does (at_tick e0 t) K (k e)) -> does (at_tick e0 t) K (mbind' get_ex k).
Proof. intros Hk w Hw. exact (Hk (w_ex w) (proj1 Hw) w Hw). Qed.

Lemma does_ask_at e0 t K {A B} (f : nat -> JRes A) (k : A -> EM B) :
  (forall a, f t = Ok a -> does (like e0) K (k a)) -> does (at_tick e0 t) K (mbind' (ask f) k).
Proof.
  intros Hk w [Hl <-]. pose proof (silent_tick w) as Ht. unfold mbind', ask.
  destruct (f (w_tick w)) as [a|e] eqn:E; [|by apply emits_silent].
  eapply emits_trans; [by apply emits_silent|]. apply (Hk a eq_refl). exact Hl.
Qed.

Lemma does_now e0 t K {A} (m : EM A) : does (like e0) K m -> does (at_tick e0 t) K m.
Proof. intros Hm w [Hl _]. by apply Hm. Qed.

(** ** Resolving a journaled request *)
Lemma calm_journaled_receipt h e b : calm (journaled_receipt o h e b).
Proof. unfold journaled_receipt. calm. Qed.

Definition resolves (base : string) (w : World) (p : World * JRes (DexReceipt + string)) : Prop :=
  silent w p.1 /\ forall id, p.2 = Ok (inr id) -> creatable (ex_ops p.1) id /\ exists m, (m <= 3)%nat /\ id = attempt base m.

Lemma resolves_calm base w (m : EM DexReceipt) : calm m -> resolves base w ((do r <- m ;; mret (inl r)) w).
Proof.
  intros Hm. pose proof (Hm w) as Hw. unfold mbind'. destruct (m w) as [w' [r|e]]; by split.
Qed.

Lemma attempt_creatable base n ops :
  plain base -> (n <= 3)%nat -> (forall m, n = S m -> rejected_op ops (attempt base m)) -> creatable ops (attempt base n).
Proof.
  intros Hp Hn Hr b m Hm He. destruct n as [|n].
  - exfalso. apply (Hp b (S m)); [lia|done].
  - apply attempt_inj in He as [-> ->]; [by apply Hr|lia|done].
Qed.

Lemma resolve_fresh base purp c : plain base -> forall fuel n w,
  (n <= 3)%nat -> (n + fuel = 4)%nat -> (forall m, n = S m -> rejected_op (ex_ops w) (attempt base m)) ->
  resolves base w (resolve_journaled o fuel (Z.of_nat n) base purp c (attempt base n) w).
Proof.
  intros Hp. induction fuel as [|fuel IH]; intros n w Hn Hf Hr; [lia|].
  assert (Hdone : resolves base w (w, Ok (inr (attempt base n)))).
  { split; [done|]. intros id [= <-]. split; [by apply attempt_creatable|by exists n]. }
  cbn [resolve_journaled]. unfold mbind' at 1. cbn [get_ex].
  destruct (operation (ex_journal (w_ex w)) (attempt base n)) as [op|] eqn:Eop; [|exact Hdone].
  unfold mbind' at 1, guard, mlift. destruct (ensure _ _) as [[]|e]; [|by split].
  destruct (status op) as [|h|h|h ?|h ?|h ?|h|] eqn:Es; try (by split);
    try (apply resolves_calm, calm_journaled_receipt).
  destruct (Z.ltb_spec (Z.of_nat n) 3) as [Hlt|]; [|by split].
  replace (Z.of_nat n + 1) with (Z.of_nat (S n)) by lia. apply (IH (S n)); [lia|lia|].
  intros m [= <-]. exists op. split; [exact Eop|]. by rewrite Es.
Qed.

(** ** One call *)
Definition call_of (base : string) (c : WalletCall) : Calls :=
  fun id x => (exists n, (n <= 3)%nat /\ id = attempt base n) /\ x = c.

Lemma calm_gas_limit c p : calm (gas_limit_for o c p).
Proof. unfold gas_limit_for. calm. Qed.
Lemma calm_refresh : calm (refresh_gas_price o).
Proof.
  intros w. unfold refresh_gas_price.
  match goal with |- context [match ?s with Ok _ => _ | Err _ => _ end] => destruct s as [[wei src]|e] end; [|apply silent_tick].
  etrans; [|apply silent_tick]. by apply (keeps_silent (fun e => set_gas_price e _)).
Qed.
Lemma calm_gas_price p : calm (gas_price_for_submission o p).
Proof. unfold gas_price_for_submission. calm; apply calm_refresh. Qed.

Lemma execute_call_does e0 base purp c p :
  uint 160 (l_wallet (ex_lane e0)) -> plain base ->
  does (like e0) (fun id x => cp_allow_new_submission p = true /\ call_of base c id x) (execute_call o base purp c p).
Proof.
  intros Hu Hp w Hw. unfold execute_call. unfold mbind' at 1.
  destruct (resolve_fresh base purp c Hp 4 0 w) as [Hs Hid]; [lia|done|done|].
  change (attempt base 0) with base in Hs, Hid. change (Z.of_nat 0) with 0 in Hs, Hid.
  destruct (resolve_journaled o 4 0 base purp c base w) as [w1 [[r|id]|e]]; simpl in Hs, Hid; [by apply emits_silent| |by apply emits_silent].
  destruct (Hid id eq_refl) as (Hcr & n & Hn & ->). eapply emits_trans; [by apply emits_silent|].
  set (Q w := like e0 w /\ creatable (ex_ops w) (attempt base n)).
  assert (HQ : stable Q).
  { intros a b Hab [Hl Hc]. split; [by eapply like_stable|]. intros b' m Hm He. eapply rejected_extends; [by apply evolves_extend|by eapply Hc]. }
  revert w1 Hs Hid Hcr. intros w1 Hs _ Hcr. assert (Hq : Q w1) by (split; [eapply like_stable; [apply Hs|done]|done]). clear w Hw Hs Hcr.
  match goal with |- emits _ ?K _ ((?m w1).1) => cut (does Q K m); [intros Hd; by apply Hd|] end.
  apply does_guard. intros Hallow. apply does_bind; [done|apply does_calm, calm_get|]. intros e. apply does_guard. intros _.
  apply does_bind; [done|apply does_calm, calm_gas_limit|]. intros gl. apply does_bind; [done|apply does_calm, calm_gas_price|]. intros gp.
  apply does_bind; [done|apply does_calm; calm|]. intros fees. apply does_bind; [done|apply does_calm; calm|]. intros _.
  apply does_bind; [done| |intros ?; apply does_calm; calm].
  intros w [Hl Hc]. destruct (profile_fields _ _ Hl) as (_ & _ & Hlw & _). rewrite <- Hlw in Hu.
  eapply emits_mono; [|by apply submit_emits].
  intros k x [-> ->]. split; [done|]. split; [by exists n|done].
Qed.

(** ** Allowances *)

(** The approvals that prepare a swap. *)
Definition approves (e0 : DexExecutor) (token router required : Z) (x : WalletCall) : Prop :=
  (exists spender, spender ∈ [router; PERMIT2_ADDRESS] /\
    erc20_approval token spender (allowance_grant_for_policy (ex_gas_policy e0) required) = Ok x) \/
  (exists expiration data, permit2_approve token router UINT160_MAX expiration = Ok data /\
    validated_contract_call PERMIT2_ADDRESS 0 data = Ok x).

Definition approval_calls (e0 : DexExecutor) (base : string) (token router required : Z) : Calls := fun k x =>
  ex_allowance_mutations_enabled e0 = true /\ (exists n, (n <= 3)%nat /\ k = attempt base n) /\ approves e0 token router required x.

Lemma jres_Ok {A} (r : TRes A) a : jres r = Ok a -> r = Ok a.
Proof. destruct r; [|done]. by intros [= ->]. Qed.

Lemma erc20_allowance_does e0 base token spender router required :
  uint 160 (l_wallet (ex_lane e0)) -> plain base -> spender ∈ [router; PERMIT2_ADDRESS] ->
  does (like e0) (approval_calls e0 base token router required) (ensure_erc20_allowance o base token spender required).
Proof.
  intros Hu Hp Hsp. pose proof (like_stable e0) as HQ. unfold ensure_erc20_allowance.
  apply does_get. intros e He. destruct (profile_fields _ _ He) as (_ & _ & _ & -> & -> & _).
  apply does_lift. intros query _. apply does_ask; [done|]. intros _ encoded _. apply does_guard. intros _.
  destruct (required <=? from_be_slice encoded); [apply does_calm, calm_ret|].
  apply does_guard. intros Hg. apply does_lift. intros x Hx%jres_Ok. apply does_bind; [done| |intros r; apply does_calm, calm_lift].
  eapply does_mono; [|by apply execute_call_does]. intros k y (_ & Hn & ->). split; [done|]. split; [done|]. left. by exists spender.
Qed.

Lemma permit2_allowance_does e0 base token router required :
  uint 160 (l_wallet (ex_lane e0)) -> plain base ->
  does (like e0) (approval_calls e0 base token router required) (ensure_permit2_allowance o base token router required).
Proof.
  intros Hu Hp. pose proof (like_stable e0) as HQ. unfold ensure_permit2_allowance.
  apply does_get. intros e He. destruct (profile_fields _ _ He) as (_ & _ & _ & _ & -> & _).
  apply does_lift. intros data _. apply does_lift. intros query _. apply does_ask; [done|]. intros _ encoded _.
  apply does_lift. intros decoded _. apply does_ask; [done|]. intros _ now _. case_match; [apply does_calm, calm_ret|].
  apply does_guard. intros Hg. apply does_lift. intros expiration _. apply does_lift. intros data' Hd%jres_Ok.
  apply does_lift. intros x Hx%jres_Ok. apply does_bind; [done| |intros r; apply does_calm, calm_lift].
  eapply does_mono; [|by apply execute_call_does]. intros k y (_ & Hn & ->). split; [done|]. split; [done|]. right. by exists expiration, data'.
Qed.

(** The approvals of a swap. *)
Definition swap_approvals (e0 : DexExecutor) (q : ExactInputSwapRequest) : Calls := fun k x =>
  exists s, s ∈ approval_suffixes /\
    approval_calls e0 (rq_operation_id q +:+ s)%string (rq_token_in q) (swap_router (rq_route q)) (rq_amount_in q) k x.

Lemma ensure_allowance_does e0 q :
  uint 160 (l_wallet (ex_lane e0)) -> does (like e0) (swap_approvals e0 q) (ensure_allowance o q).
Proof.
  intros Hu. unfold ensure_allowance, router_approval_id.
  assert (Herc : forall s spender, s ∈ approval_suffixes -> spender ∈ [swap_router (rq_route q); PERMIT2_ADDRESS] ->
    does (like e0) (swap_approvals e0 q)
      (ensure_erc20_allowance o (rq_operation_id q +:+ s)%string (rq_token_in q) spender (rq_amount_in q))).
  { intros s spender Hs Hsp. eapply does_mono; [|apply erc20_allowance_does; [done|by apply plain_approval|exact Hsp]].
    intros k x Hk. by exists s. }
  assert (Hin : swap_router (rq_route q) ∈ [swap_router (rq_route q); PERMIT2_ADDRESS]) by set_solver.
  destruct (rq_route q) eqn:Er; simpl in Herc, Hin; try (apply Herc; [suffix|done]).
  apply does_bind; [apply like_stable|apply Herc; [suffix|set_solver]|].
  intros _. eapply does_mono; [|apply permit2_allowance_does; [done|apply plain_approval; suffix]].
  intros k x Hk. exists ".permit2-router-approval"%string. split; [suffix|]. by rewrite Er.
Qed.

(** ** One swap *)

(** What a request taken up at tick [t] must meet before anything is sent for it; the
    calls of Uniswap V3 carry no deadline. *)
Definition swap_admitted (e0 : DexExecutor) (t : nat) (q : ExactInputSwapRequest) : Prop :=
  rq_reconciliation_only q = false /\ validate_request q = Ok tt /\
  (route_protocol (rq_route q) = ProtoCamelotV3 -> ex_camelot_submissions_enabled e0 = true) /\
  (route_protocol (rq_route q) = ProtoLynexAlgebraV1_9 -> ex_lynex_submissions_enabled e0 = true) /\
  (deadline_bearing (route_protocol (rq_route q)) = true ->
     exists now, o_unix_seconds o t = Ok now /\ now < rq_deadline_unix_seconds q).

(** What is sent for it: the request's own swap call, or an approval while
    allowances may still change. *)
Definition swap_body (e0 : DexExecutor) (q : ExactInputSwapRequest) : Calls := fun k x =>
  (exists n, (n <= 3)%nat /\ k = attempt (rq_operation_id q +:+ ".swap")%string n) /\
  (exists data, exact_input_calldata q (ex_wallet e0) = Ok data /\
     validated_contract_call (swap_router (rq_route q)) 0 data = Ok x) /\
  (rq_submission_policy q = Immediate -> ex_allowance_mutations_enabled e0 = false)
  \/ rq_submission_policy q = SimulateAndEstimate /\ swap_approvals e0 q k x.
Definition swap_calls (e0 : DexExecutor) (t : nat) (q : ExactInputSwapRequest) : Calls := fun k x =>
  swap_admitted e0 t q /\ swap_body e0 q k x.

Lemma gate_open (b r g : bool) : negb b || r || g = true -> r = false -> b = true -> g = true.
Proof. by destruct b, r, g. Qed.

Lemma does_assoc Q K {A B C} (m : EM A) (n : A -> EM B) (k : B -> EM C) :
  does Q K (do x <- m ;; do y <- n x ;; k y) -> does Q K (do y <- (do x <- m ;; n x) ;; k y).
Proof. intros Hd w Hw. specialize (Hd w Hw). unfold mbind' in *. by destruct (m w) as [w1 [a|e]]. Qed.

(** The swap itself, once its allowances stand. *)
Lemma swap_call_does e0 t q p :
  uint 160 (l_wallet (ex_lane e0)) -> cp_allow_new_submission p = negb (rq_reconciliation_only q) ->
  (rq_reconciliation_only q = false ->
     forall n x data, (n <= 3)%nat -> exact_input_calldata q (ex_wallet e0) = Ok data ->
       validated_contract_call (swap_router (rq_route q)) 0 data = Ok x ->
       swap_calls e0 t q (attempt (rq_operation_id q +:+ ".swap")%string n) x) ->
  does (like e0) (swap_calls e0 t q)
    (do data <- mlift (jres (exact_input_calldata q (ex_wallet e0))) ;;
     do call <- mlift (jres (validated_contract_call (swap_router (rq_route q)) 0 data)) ;;
     do r <- execute_call o (rq_operation_id q +:+ ".swap")%string (protocol_label (route_protocol (rq_route q))) call p ;;
     do e <- get_ex ;;
     mlift (swap_outcome q e r)).
Proof.
  intros Hu Hp HK. apply does_lift. intros data Hd%jres_Ok. apply does_lift. intros call Hc%jres_Ok.
  apply does_bind; [apply like_stable| |intros r; apply does_calm; calm].
  eapply does_mono; [|apply execute_call_does; [done|apply plain_swap]].
  intros k x (Ha & (n & Hn & ->) & ->). rewrite Hp in Ha. eapply HK; [by destruct (rq_reconciliation_only q)|done..].
Qed.

Lemma execute_exact_input_does e0 t q :
  uint 160 (l_wallet (ex_lane e0)) -> does (at_tick e0 t) (swap_calls e0 t q) (execute_exact_input o q).
Proof.
  intros Hu. pose proof (like_stable e0) as HQ. unfold execute_exact_input.
  apply does_put; [by intros ?|]. apply does_lift. intros [] Hv%jres_Ok.
  apply does_get_at. intros e He. destruct (profile_fields _ _ He) as (Hw & _ & _ & _ & Hall & Hcam & Hlyn). rewrite Hw, Hall, Hcam, Hlyn.
  apply does_guard. intros Hg1. apply does_guard. intros Hg2.
  destruct (rq_reconciliation_only q) eqn:Er; cbn [negb andb].
  { apply does_now. do 2 (apply does_bind; [done|apply does_calm, calm_ret|intros _]). apply swap_call_does; [done|by rewrite Er|]. by rewrite Er. }
  assert (Hadm : (deadline_bearing (route_protocol (rq_route q)) = true ->
      exists now, o_unix_seconds o t = Ok now /\ now < rq_deadline_unix_seconds q) -> swap_admitted e0 t q).
  { intros Hdl. split_and!; try done; intros Hr; [eapply gate_open; [exact Hg1|done|by apply bool_decide_eq_true]|].
    eapply gate_open; [exact Hg2|done|by apply bool_decide_eq_true]. }
  clear Hg1 Hg2 Hv.
  match goal with |- does _ _ (mbind' _ ?k) => assert (Hk : swap_admitted e0 t q -> does (like e0) (swap_calls e0 t q) (k tt)) end.
  - clear Hadm. intros Hadm. cbv beta. destruct (rq_submission_policy q) eqn:Es.
    + apply does_bind; [done| |].
      { eapply does_mono; [|by apply ensure_allowance_does]. intros k x Ha. split; [done|]. by right. }
      intros _. apply swap_call_does; [done|by rewrite Er|]. intros _ n x data Hn Hd Hx. split; [done|]. left.
      split_and!; [by exists n|by exists data|by rewrite Es].
    + apply does_guard. intros Hlock. apply swap_call_does; [done|by rewrite Er|]. intros _ n x data Hn Hd Hx. split; [done|]. left.
      split_and!; [by exists n|by exists data|]. intros _. by destruct (ex_allowance_mutations_enabled e0).
  - destruct (deadline_bearing (route_protocol (rq_route q))) eqn:Ed.
    + apply does_assoc. apply does_ask_at. intros now Ht. apply does_guard. intros Hlt.
      apply Hk, Hadm. intros _. exists now. split; [done|]. by apply Z.ltb_lt.
    + apply does_now, does_bind; [done|apply does_calm, calm_ret|]. intros []. by apply Hk, Hadm.
Qed.

(** ** Preparation *)
Definition anything : Calls := fun _ _ => True.

Lemma prepare_requirement_does e0 r :
  uint 160 (l_wallet (ex_lane e0)) -> does (like e0) anything (prepare_requirement o r).
Proof.
  intros Hu. unfold prepare_requirement. do 4 (apply does_guard; intros _).
  assert (Herc : forall base spender, plain base ->
    does (like e0) anything (ensure_erc20_allowance o base (al_token r) spender (al_required r))).
  { intros base spender Hb. eapply does_mono; [|apply (erc20_allowance_does e0 base _ spender spender)]; try done. set_solver. }
  assert (Hl : forall p, plain (al_operation_id r +:+ "." +:+ protocol_label p +:+ "-router-approval")%string).
  { intros p. assert (Hs : exists s, ("." +:+ protocol_label p +:+ "-router-approval" = s +:+ "l")%string).
    { exists ("." +:+ protocol_label p +:+ "-router-approva")%string. by destruct p. }
    destruct Hs as [s ->]. rewrite append_assoc. by apply plain_ending. }
  destruct (al_protocol r); try apply Herc, Hl.
  unfold router_approval_id. apply does_bind; [apply like_stable|apply Herc, plain_approval; suffix|].
  intros _. eapply does_mono; [|apply permit2_allowance_does; [done|apply plain_approval; suffix]]. done.
Qed.

Lemma prepare_requirements_does e0 rs :
  uint 160 (l_wallet (ex_lane e0)) -> does (like e0) anything (prepare_requirements o rs).
Proof.
  intros Hu. induction rs as [|r rs IH]; simpl; [apply does_calm, calm_ret|].
  apply does_bind; [apply like_stable|by apply prepare_requirement_does|done].
Qed.

(** ** Runs *)

(** The invariant of the owner of a wallet on a chain. *)
Record secure (w : World) : Prop := {
  sc_journal : journal_ok (ex_journal (w_ex w));
  sc_sent : Forall (sent_ok w) (w_wire w);
  sc_once : NoDup (se_operation_id <$> w_wire w);
  sc_wallet : uint 160 (l_wallet (ex_lane (w_ex w)));
}.

Lemma emits_secure K w w' : emits o K w w' -> room w' -> secure w -> secure w'.
Proof.
  intros [He (new & Hw & Hd & Hf)] Hr [Hj Hs Ho Hu]. split.
  - by apply He.
  - rewrite Hw. apply Forall_app. split; [eapply Forall_impl; [exact Hf|]; naive_solver|].
    eapply Forall_impl; [exact Hs|]. intros s. by apply sent_extends.
  - rewrite Hw, fmap_app. apply NoDup_app. split; [done|]. split; [|done].
    intros k (s & -> & Hin)%list_elem_of_fmap (s' & Hk & Hin')%list_elem_of_fmap. rewrite Forall_forall in Hf, Hs.
    destruct (Hf _ Hin) as (Hn & _). destruct (Hs _ Hin') as (op & Hop & _). congruence.
  - by destruct (evolves_lane _ _ He) as (_ & _ & ->).
Qed.

(** The journal and the lane a restart finds. *)
Lemma quiet_observation latest pending rc tx : lane_quiet (fun env => apply_recovery_observation env latest pending rc tx).
Proof.
  intros env s. unfold apply_recovery_observation. destruct (l_state s.1) as [| | | |? h|]; try done. destruct rc as [rc|], tx as [tx|]; try done.
  - pose proof (quiet_receipt rc env s) as Hq. cbv beta in Hq. unfold mbind'. destruct (lane_record_receipt env rc s) as [s' [[]|]]; exact Hq.
  - destruct h as [h|]; [|done]. by destruct (validate_recovered_transaction _ _ _ _).
  - destruct h as [h|]; [|done]. by repeat case_match.
Qed.

Definition starts (wlt chain : Z) (j : TransactionJournal) (lane : NonceLane) (j' : TransactionJournal) : Prop :=
  l_chain_id lane = chain /\ l_wallet lane = wlt /\ journal_evolves j j'.

Lemma hydrate_lane chain wlt latest pending j lane :
  hydrate chain wlt latest pending j = Ok lane -> l_chain_id lane = chain /\ l_wallet lane = wlt.
Proof. unfold hydrate. intros Hh. res_inv. by subst. Qed.

Lemma reconcile_starts rpc env chain wlt latest pending j j' lane out :
  reconcile rpc env chain wlt latest pending j = (j', Ok (lane, out)) -> starts wlt chain j lane j'.
Proof.
  unfold reconcile. destruct (hydrate chain wlt latest pending j) as [l|] eqn:Eh; [|done].
  destruct (hydrate_lane _ _ _ _ _ _ Eh) as [Hc Hw].
  assert (Hobs : forall rc tx, (let '((lane', j'), r) := apply_recovery_observation env latest pending rc tx (l, j) in
      (j', rmap (fun o => (lane', o)) r)) = (j', Ok (lane, out)) -> starts wlt chain j lane j').
  { intros rc tx. pose proof (quiet_observation latest pending rc tx env (l, j)) as (Hc' & Hw' & Hj).
    destruct (apply_recovery_observation env latest pending rc tx (l, j)) as [[l' j1] [out'|]]; [|done].
    simpl in *. intros [= -> -> ->]. split_and!; congruence. }
  assert (Hsame : forall st, (j, rmap (fun out => (l, out)) (outcome_for_non_recovery_state st)) = (j', Ok (lane, out)) ->
      starts wlt chain j lane j').
  { intros st. destruct (outcome_for_non_recovery_state st); [|done]. by intros [= <- <- <-]. }
  destruct (l_state l) as [| | | |? [h|]|]; try apply Hsame; [|apply Hobs].
  destruct (rpc_receipt rpc h) as [[rc|]|]; [apply Hobs| |done]. destruct (rpc_transaction rpc h); [apply Hobs|done].
Qed.

Lemma hydrate_starts v envs fs wlt chain p e :
  hydrate_with_gas_policy v envs fs wlt chain p = Ok e ->
  exists j, open fs = Ok j /\ ex_wallet e = wlt /\ starts wlt chain j (ex_lane e) (ex_journal e).
Proof.
  unfold hydrate_with_gas_policy. intros Hh.
  apply rbind_Ok in Hh as ([] & _ & Hh). apply rbind_Ok in Hh as (served & _ & Hh). apply rbind_Ok in Hh as ([] & _ & Hh).
  apply rbind_Ok in Hh as (latest & _ & Hh). apply rbind_Ok in Hh as (pending & _ & Hh). apply rbind_Ok in Hh as (j & Hj & Hh).
  destruct (reconcile (sv_rpc v) (envs 0%nat) chain wlt latest pending j) as [j1 r] eqn:Er.
  apply rbind_Ok in Hh as ([l1 out] & -> & Hh). apply reconcile_starts in Er. cbv beta iota in Hh.
  apply rbind_Ok in Hh as ([l2 j2] & Hl & Hh). apply rbind_Ok in Hh as ([] & _ & [= <-]). exists j. split; [done|]. split; [done|]. simpl.
  assert (Hsame : forall a b, @Ok JournalError _ (l1, j1) = Ok (a, b) -> starts wlt chain j a b) by (by intros ? ? [= <- <-]).
  destruct out; try (by apply Hsame). apply rbind_Ok in Hl as (r & _ & Hl).
  pose proof (quiet_receipt (dr_receipt r) (envs 1%nat) (l1, j1)) as (Hc & Hw & Hx). cbv beta in Hc, Hw, Hx.
  destruct (lane_record_receipt (envs 1%nat) (dr_receipt r) (l1, j1)) as [s rec]. apply rbind_Ok in Hl as (? & _ & [= ->]).
  destruct Er as (Hc1 & Hw1 & Hj1). simpl in *. split_and!; [congruence|congruence|by etrans].
Qed.

(** The journal the next process finds is good, and has all this one had. *)
Lemma reopened_ok j j0 : journal_ok j -> reopen j = Ok j0 -> journal_ok j0 /\ ops_extend (operations j) (operations j0).
Proof.
  intros (_ & _ & Hr) Ho. destruct (Hr _ Ho) as [Hx Hc]. split; [|done].
  assert (Hh : journal_history j0) by (by eapply history_open). split; [done|]. split; [done|].
  destruct (open_inv _ _ Ho) as [Hp _]. destruct (du_file j0 (history_durable j0 Hh) Hp) as [_ Hrep].
  intros j' Hj'. rewrite (replay_reopen j0 Hrep) in Hj'. by injection Hj' as <-.
Qed.

Lemma restart_secure v envs p w e :
  secure w ->
  hydrate_with_gas_policy v envs (healthy_fs (file (ex_journal (w_ex w)))) (l_wallet (ex_lane (w_ex w))) (l_chain_id (ex_lane (w_ex w))) p = Ok e ->
  let w' := mkWorld e (w_tick w) (w_wire w) in room w' -> secure w'.
Proof.
  intros [Hj Hs Ho Hu] Hh w' Hr. apply hydrate_starts in Hh as (j0 & Hopen & Hwal & Hc & Hw & Hg & Hok).
  destruct (reopened_ok _ _ Hj Hopen) as [Hj0 Hx]. unfold w', room in *. simpl in *. split; simpl.
  - by apply Hok.
  - eapply Forall_impl; [exact Hs|]. intros s. apply sent_keep; simpl; [|done|done]. etrans; [exact Hx|apply Hg].
  - done.
  - by rewrite Hw.
Qed.

(** A simulation sends and journals nothing. *)
Lemma simulation_silent q : calm (simulate_exact_input_read_only o q).
Proof. unfold simulate_exact_input_read_only. calm. Qed.

(** ** Runs of the owner *)

(** A turn of the worker, an allowance, gate or scope operation, or a new process on
    the journal the last one left. *)
Inductive exec_step : World -> World -> Prop :=
| step_refresh w : exec_step w (serve_refresh o w)
| step_swap q w : exec_step w (serve_swap o q w).1
| step_capital q reconciliation_only w : plain (er_operation_id q) -> exec_step w (serve_capital o q reconciliation_only w).1
| step_prepare rs w : exec_step w (prepare_and_lock_allowances o rs w).1
| step_lock w : exec_step w (lock_allowance_mutations_without_preparation w).1
| step_camelot w : exec_step w (enable_camelot_submissions_after_allowance_lock w).1
| step_lynex w : exec_step w (enable_lynex_submissions_after_allowance_lock w).1
| step_scope sc w : exec_step w (set_executor_scope sc w).1
| step_restart v envs p w e :
    hydrate_with_gas_policy v envs (healthy_fs (file (ex_journal (w_ex w)))) (l_wallet (ex_lane (w_ex w)))
      (l_chain_id (ex_lane (w_ex w))) p = Ok e ->
    exec_step w (mkWorld e (w_tick w) (w_wire w)).

(** The history of a wallet on a chain, from an empty journal. *)
Inductive exec_run : World -> Prop :=
| run_start v envs wlt chain p e t :
    uint 160 wlt -> hydrate_with_gas_policy v envs (healthy_fs []) wlt chain p = Ok e -> room (mkWorld e t []) ->
    exec_run (mkWorld e t [])
| run_step w w' : exec_run w -> exec_step w w' -> room w' -> exec_run w'.

Lemma service_world {A} id (m : EM A) w : (service_error id m w).1 = (m w).1.
Proof. unfold service_error. by destruct (m w) as [w' []]. Qed.

Lemma serve_swap_emits q w : uint 160 (l_wallet (ex_lane (w_ex w))) -> emits o (swap_calls (w_ex w) (w_tick w) q) w (serve_swap o q w).1.
Proof. intros Hu. unfold serve_swap. rewrite service_world. by apply execute_exact_input_does. Qed.

Lemma serve_capital_emits q b w : plain (er_operation_id q) -> uint 160 (l_wallet (ex_lane (w_ex w))) ->
  emits o (fun k x => b = false /\ call_of (er_operation_id q) (er_call q) k x) w (serve_capital o q b w).1.
Proof.
  intros Hp Hu. unfold serve_capital. destruct (validate_evm_request q); [|by apply emits_silent]. rewrite service_world.
  match goal with |- emits _ ?K _ ((?m w).1) => cut (does (like (w_ex w)) K m); [intros Hd; by apply Hd|] end.
  apply does_bind; [apply like_stable| |intros r; apply does_calm; calm].
  eapply does_mono; [|by apply execute_call_does]. intros k x (Hb & Hk). split; [by destruct b|done].
Qed.

(** A change of the gates. *)
Lemma gates_secure f w :
  (forall e, l_chain_id (ex_lane (f e)) = l_chain_id (ex_lane e) /\ l_wallet (ex_lane (f e)) = l_wallet (ex_lane e) /\
     ex_journal (f e) = ex_journal e) -> secure w ->
  secure (mkWorld (f (w_ex w)) (w_tick w) (w_wire w)).
Proof.
  intros Hf [Hj Hs Ho Hu]. destruct (Hf (w_ex w)) as (Ec & Ew & Ej). split; simpl; rewrite ?Ec, ?Ew, ?Ej; [done| |done..].
  eapply Forall_impl; [exact Hs|]. intros s. apply sent_keep; unfold ex_ops; simpl; by rewrite ?Ec, ?Ew, ?Ej.
Qed.

Lemma scope_secure sc w : secure w -> secure (set_executor_scope sc w).1.
Proof.
  intros Hs. unfold set_executor_scope, on_ex.
  set (f e := set_lane_journal e (set_journal_scope sc (ex_lane e)).1 (ex_journal e)).
  destruct (set_journal_scope sc (ex_lane (w_ex w))) as [l r] eqn:El.
  assert (Hf : secure (mkWorld (f (w_ex w)) (w_tick w) (w_wire w))); [|unfold f in Hf; by rewrite El in Hf].
  apply gates_secure; [|done]. intros e. unfold f, set_journal_scope. destruct (validate_scope sc); [|done].
  by destruct (negb _).
Qed.

Lemma prepare_secure rs w : secure w -> room (prepare_and_lock_allowances o rs w).1 -> secure (prepare_and_lock_allowances o rs w).1.
Proof.
  intros Hs. unfold prepare_and_lock_allowances, mbind', get_ex, guard, mlift.
  destruct (ensure _ _) as [[]|e]; [|done]. destruct (ensure _ _) as [[]|e]; [|done].
  pose proof (prepare_requirements_does (w_ex w) rs (sc_wallet w Hs) w eq_refl) as He.
  destruct (prepare_requirements o rs w) as [w1 [[]|e]]; simpl in *; intros Hr;
    [|by eapply emits_secure].
  apply (gates_secure (fun e => set_gates e _ _ _)); [by intros ?|by eapply emits_secure].
Qed.

Lemma step_secure w w' : exec_step w w' -> secure w -> room w' -> secure w'.
Proof.
  intros Hst Hs Hr. pose proof (sc_wallet w Hs) as Hu. destruct Hst as [w|q w|q b w Hp|rs w|w|w|w|sc w|v envs p w e Hh].
  - eapply emits_secure; [|exact Hr|exact Hs]. apply (emits_silent o anything), calm_refresh.
  - by eapply emits_secure; [apply serve_swap_emits|..].
  - by eapply emits_secure; [apply serve_capital_emits|..].
  - by apply prepare_secure.
  - unfold lock_allowance_mutations_without_preparation, mbind', guard, mlift, get_ex. destruct (ensure _ _) as [[]|]; [|done].
    by apply (gates_secure (fun e => set_gates e _ _ _)).
  - unfold enable_camelot_submissions_after_allowance_lock, mbind', guard, mlift, get_ex. destruct (ensure _ _) as [[]|]; [|done].
    by apply (gates_secure (fun e => set_gates e _ _ _)).
  - unfold enable_lynex_submissions_after_allowance_lock, mbind', guard, mlift, get_ex. do 2 (destruct (ensure _ _) as [[]|]; [|done]).
    by apply (gates_secure (fun e => set_gates e _ _ _)).
  - by apply scope_secure.
  - by eapply restart_secure.
Qed.

Lemma empty_journal_ok j : open (healthy_fs []) = Ok j -> journal_ok j.
Proof.
  intros Ho. assert (Hh : journal_history j) by (by eapply history_open). destruct (open_inv _ _ Ho) as [Hp _].
  destruct (du_file j (history_durable j Hh) Hp) as [_ Hrep].
  assert (Hc : chains (operations j)).
  { unfold open in Ho. simpl in Ho. injection Ho as <-. intros b n _ [x Hx]. simpl in Hx. by rewrite lookup_empty in Hx. }
  split; [done|]. split; [done|]. intros j' Hj'. rewrite (replay_reopen j Hrep) in Hj'. by injection Hj' as <-.
Qed.

Lemma run_secure w : exec_run w -> secure w.
Proof.
  induction 1 as [v envs wlt chain p e t Hu Hh Hr|w w' _ IH Hs Hr]; [|by eapply step_secure].
  apply hydrate_starts in Hh as (j & Hopen & _ & _ & Hw & _ & Hok). split; simpl; [|constructor|constructor|by rewrite Hw].
  apply Hok; [done|by apply empty_journal_ok].
Qed.

(** ** At most one attempt counts *)
Lemma chain_below ops base n m :
  chains ops -> (n < m)%nat -> (m <= 3)%nat -> is_Some (ops !! attempt base m) -> rejected_op ops (attempt base n).
Proof.
  intros Hc Hnm Hm. induction m as [|m IH]; [lia|]. intros Hs. pose proof (Hc base m ltac:(lia) Hs) as Hr.
  destruct (decide (n = m)) as [->|]; [done|]. apply IH; [lia|lia|]. destruct Hr as (op & -> & _). by eexists.
Qed.

Lemma same_sent (wire : list Sent) s s' :
  NoDup (se_operation_id <$> wire) -> s ∈ wire -> s' ∈ wire -> se_operation_id s = se_operation_id s' -> s = s'.
Proof.
  intros Hd (i & Hi)%list_elem_of_lookup (j & Hj)%list_elem_of_lookup He.
  assert (Hij : i = j).
  { apply (NoDup_lookup _ _ _ (se_operation_id s) Hd); rewrite list_lookup_fmap; [by rewrite Hi|by rewrite Hj, He]. }
  subst. congruence.
Qed.

Lemma hash_not_cancelled st : is_Some (transaction_hash st) -> released st = true -> rejected st = true.
Proof. by destruct st; intros [? ?]. Qed.

(** C2. along every run - swaps, capital calls, allowance changes, write faults,
    restarts - everything handed to the network is journaled under its own
    identifier with its hash and nonce; and of two transactions that share a nonce,
    or that are attempts of one request, one was definitively rejected. *)
Theorem exclusive_broadcasts w :
  exec_run w ->
  NoDup (se_operation_id <$> w_wire w) /\ Forall (sent_ok w) (w_wire w) /\
  forall s s', s ∈ w_wire w -> s' ∈ w_wire w -> s <> s' ->
    st_nonce (se_transaction s) = st_nonce (se_transaction s') \/
    (exists base n n', (n <= 3)%nat /\ (n' <= 3)%nat /\ se_operation_id s = attempt base n /\ se_operation_id s' = attempt base n') ->
    rejected_op (ex_ops w) (se_operation_id s) \/ rejected_op (ex_ops w) (se_operation_id s').
Proof.
  intros Hrun. destruct (run_secure w Hrun) as [(Hh & Hc & _) Hs Ho _]. split; [done|]. split; [done|].
  intros s s' Hin Hin' Hne Hshare. rewrite Forall_forall in Hs.
  destruct (Hs _ Hin) as (op & Hop & Hhash & Hch & Hw & Hn). destruct (Hs _ Hin') as (op' & Hop' & Hhash' & Hch' & Hw' & Hn').
  assert (Hid : se_operation_id s <> se_operation_id s') by (intros He; by apply Hne, (same_sent (w_wire w))).
  destruct Hshare as [Hnon|(base & n & n' & Hb & Hb' & He & He')].
  - destruct (released (status op)) eqn:Er; [left; exists op; split; [done|by apply hash_not_cancelled]|].
    destruct (released (status op')) eqn:Er'; [right; exists op'; split; [done|by apply hash_not_cancelled]|].
    exfalso. apply Hid. eapply (oo_nonce _ (du_ok _ (history_durable _ Hh)) _ _ _ _ Hop Hop'); [|done..].
    unfold same_nonce. split_and!; congruence.
  - destruct (lt_eq_lt_dec n n') as [[Hlt| ->]|Hlt]; [left| |right].
    + rewrite He. eapply chain_below; [done|exact Hlt|done|]. rewrite <- He'. by eexists.
    + exfalso. apply Hid. congruence.
    + rewrite He'. eapply chain_below; [done|exact Hlt|done|]. rewrite <- He. by eexists.
Qed.







(** C4. whatever a swap request sends is the request's own swap call - or, while
    allowances may change, an approval of the router for the input token - each under a
    fresh identifier of the request, after every gate of its venue, and on the venues
    whose calls carry a deadline only when the clock read as the request was taken up
    was before it.  A request that only reconciles, or whose gate is closed, sends nothing. *)
Theorem swap_sends_authorized q w :
  uint 160 (l_wallet (ex_lane (w_ex w))) ->
  exists new, w_wire (serve_swap o q w).1 = new ++ w_wire w /\
    Forall (fun s => ex_ops w !! se_operation_id s = None /\ signed_call o (swap_calls (w_ex w) (w_tick w) q) s) new.
Proof.
  intros Hu. destruct (serve_swap_emits q w Hu) as [_ (new & Hw & _ & Hf)]. exists new. split; [done|].
  eapply Forall_impl; [exact Hf|]. naive_solver.
Qed.

(** ** The outcome a caller sees *)

(** A transaction of the request is journaled with this hash. *)
Definition journaled_as (base : string) (w : World) (h : Z) : Prop :=
  exists n op, (n <= 3)%nat /\ ex_ops w !! attempt base n = Some op /\ transaction_hash (status op) = Some h.

Lemma journaled_keep base w w' h : evolves w w' -> journaled_as base w h -> journaled_as base w' h.
Proof.
  intros He (n & op & Hn & Hop & Hh). destruct (evolves_extend _ _ He _ _ Hop) as (op' & Hop' & _ & Hh' & _).
  exists n, op'. auto.
Qed.

(** A bind that returns: its first part returned. *)
Lemma bind_Ok {A B} (m : EM A) (k : A -> EM B) w w' b :
  mbind' m k w = (w', Ok b) -> exists a w1, m w = (w1, Ok a) /\ k a w1 = (w', Ok b).
Proof. unfold mbind'. destruct (m w) as [w1 [a|e]] eqn:E; [|done]. intros Hk. by exists a, w1. Qed.

Lemma calm_Ok {A} (m : EM A) w w' (r : JRes A) : calm m -> m w = (w', r) -> evolves w w'.
Proof. intros Hm He. pose proof (Hm w) as Hs. rewrite He in Hs. apply Hs. Qed.

(** The endpoint answers a receipt query with a receipt of the hash asked. *)
Definition endpoint_honest : Prop :=
  (forall t h r, o_receipt o t h = Ok (Some r) -> rc_hash (dr_receipt r) = h) /\
  (forall t h r, Ok (Some r) ∈ o_polls o t h -> rc_hash (dr_receipt r) = h).

(** The endpoint answered a query for the receipt of [h] with [r]. *)
Definition answered (h : Z) (r : DexReceipt) : Prop :=
  exists t, o_receipt o t h = Ok (Some r) \/ Ok (Some r) ∈ o_polls o t h.

(** A receipt the endpoint gave for a hash it was asked for, of a transaction of the request. *)
Definition receipt_for (base : string) (w : World) (r : DexReceipt) : Prop :=
  journaled_as base w (rc_hash (dr_receipt r)) /\ answered (rc_hash (dr_receipt r)) r.

Lemma waited polls r : wait_for_receipt polls = Ok r -> Ok (Some r) ∈ polls.
Proof.
  induction polls as [|[[x|]|] polls IH]; simpl; try done; [intros [= ->]; apply list_elem_of_here|].
  intros Hw. apply list_elem_of_further. by apply IH.
Qed.

Lemma receipt_of h e b w w' r :
  endpoint_honest -> journaled_receipt o h e b w = (w', Ok r) -> rc_hash (dr_receipt r) = h /\ answered h r.
Proof.
  intros [Ho _]. unfold journaled_receipt. intros (found & w1 & Ha & Hk)%bind_Ok. apply bind_Ok in Hk as (r' & w2 & Hf & Hk).
  apply bind_Ok in Hk as (? & w3 & _ & Hk). apply bind_Ok in Hk as (? & w4 & _ & Hk).
  unfold mret in Hk. injection Hk as -> ->. unfold ask in Ha. injection Ha as <- Ha. unfold mlift in Hf. injection Hf as _ Hf.
  destruct found as [got|]; [|done]. injection Hf as ->.
  split; [by eapply Ho|]. exists (w_tick w). by left.
Qed.

Lemma resolved_receipt base purp c (Hh : endpoint_honest) fuel : forall n w w' r,
  (n <= 3)%nat -> resolve_journaled o fuel (Z.of_nat n) base purp c (attempt base n) w = (w', Ok (inl r)) ->
  receipt_for base w' r.
Proof.
  induction fuel as [|fuel IH]; intros n w w' r Hn Hr; [done|]. cbn [resolve_journaled] in Hr.
  apply bind_Ok in Hr as (e & w1 & [= <- <-] & Hr).
  destruct (operation (ex_journal (w_ex w)) (attempt base n)) as [op|] eqn:Eop; [|done].
  apply bind_Ok in Hr as (? & w2 & Hg & Hr). unfold guard, mlift in Hg. injection Hg as <- _.
  assert (Hdone : forall h e b, transaction_hash (status op) = Some h ->
    (do r <- journaled_receipt o h e b ;; mret (@inl DexReceipt string r)) w = (w', Ok (inl r)) ->
    receipt_for base w' r).
  { intros h e b Hs Hj. apply bind_Ok in Hj as (r' & w3 & Hj & Hret). unfold mret in Hret. injection Hret as -> ->.
    destruct (receipt_of _ _ _ _ _ _ Hh Hj) as [Hrc Ha]. split; rewrite Hrc; [|done]. eapply journaled_keep; [eapply calm_Ok; [apply calm_journaled_receipt|exact Hj]|].
    by exists n, op. }
  destruct (status op) as [|h|h|h ?|h ?|h ?|h|]; try done; try (by eapply Hdone).
  destruct (Z.ltb_spec (Z.of_nat n) 3); [|done]. replace (Z.of_nat n + 1) with (Z.of_nat (S n)) in Hr by lia.
  eapply (IH (S n)); [lia|exact Hr].
Qed.

Lemma submitted_hash id purp c fees w w' h :
  uint 160 (l_wallet (ex_lane (w_ex w))) -> submit o id purp c fees w = (w', Ok h) ->
  exists op, ex_ops w' !! id = Some op /\ transaction_hash (status op) = Some h.
Proof.
  intros Hu Hsub. unfold submit in Hsub. apply bind_Ok in Hsub as (e & w1 & [= <- <-] & Hsub).
  apply bind_Ok in Hsub as ([locks g] & w1 & Ha & Hsub). injection Ha as <- _. cbv beta iota in Hsub.
  apply bind_Ok in Hsub as (n & w1 & Ha & Hsub). unfold mlift in Ha. injection Ha as <- _.
  apply bind_Ok in Hsub as (i & w1 & Hres & Hsub). fold (reserve_lane o id purp c n) in Hres.
  destruct (reserved o _ _ _ _ _ _ _ Hres Hu) as (Hst & Hid & _ & _ & _ & _ & it & _ & Hop).
  apply bind_Ok in Hsub as (signed & w2 & Hsig & Hsub). destruct (sign_call o (w_tick w1) c _) as [tx|] eqn:Es.
  2:{ exfalso. apply bind_Ok in Hsig as (? & ? & _ & Hf). done. }
  injection Hsig as <- <-. destruct (sign_call_signed o _ _ _ _ Es) as (_ & _ & Hh).
  apply bind_Ok in Hsub as ([] & w2 & Hrec & Hsub). rewrite <- Hid in Hop.
  destruct (signed_recorded o _ _ _ _ _ Hrec Hst Hop Hh) as (_ & Hop2 & _). rewrite Hid in Hop2.
  apply bind_Ok in Hsub as (result & w3 & Hsend & Hsub).
  apply bind_Ok in Hsend as (answer & w4 & Hsend & Hret). unfold send in Hsend. injection Hsend as <- _.
  unfold mret in Hret. injection Hret as <- <-.
  apply bind_Ok in Hsub as (h' & w4 & Hmatch & Hsub).
  apply bind_Ok in Hsub as ([] & w5 & Hb & Hsub). apply bind_Ok in Hsub as (? & w6 & Ha & Hsub).
  unfold mlift in Ha. injection Ha as <- _. unfold mret in Hsub. injection Hsub as -> ->.
  pose proof (calm_Ok _ _ _ _ (calm_lane o _ (quiet_broadcast h)) Hb) as He.
  destruct answer as [answer|]; [|exfalso; by apply bind_Ok in Hmatch as (? & ? & _ & Hf)].
  match type of Hmatch with context [rbind ?x ?y] => destruct (rbind x y) as [hh|err] eqn:Er end;
    [|exfalso; by apply bind_Ok in Hmatch as (? & ? & _ & Hf)].
  unfold mret in Hmatch. injection Hmatch as <- ->. apply rbind_Ok in Er as (sub & _ & Er). apply rbind_Ok in Er as (? & Heq & Er).
  injection Er as ->. apply ensure_Ok, Z.eqb_eq in Heq. subst h.
  destruct (evolves_extend _ _ He id _ Hop2) as (op' & Hop' & _ & Hh' & _). exists op'. split; [done|]. by apply Hh'.
Qed.

Lemma executed_receipt base purp c p w w' r :
  endpoint_honest -> plain base -> uint 160 (l_wallet (ex_lane (w_ex w))) -> execute_call o base purp c p w = (w', Ok r) ->
  receipt_for base w' r.
Proof.
  intros Hh Hp Hu Hx. unfold execute_call in Hx. apply bind_Ok in Hx as (found & w1 & Hr & Hx).
  destruct found as [r'|id].
  { unfold mret in Hx. injection Hx as <- <-. eapply (resolved_receipt base purp c Hh 4 0 w); [lia|exact Hr]. }
  destruct (resolve_fresh base purp c Hp 4 0 w) as [Hs Hid]; [lia|done|done|].
  change (resolve_journaled o 4 (Z.of_nat 0) base purp c (attempt base 0) w) with (resolve_journaled o 4 0 base purp c base w) in Hs, Hid.
  rewrite Hr in Hs, Hid. destruct (Hid id eq_refl) as (_ & n & Hn & ->). clear Hid Hr.
  assert (Hw1 : l_wallet (ex_lane (w_ex w1)) = l_wallet (ex_lane (w_ex w))) by (by destruct (evolves_lane _ _ (proj1 Hs)) as (_ & _ & ?)).
  apply bind_Ok in Hx as (? & w2 & Hg & Hx). unfold guard, mlift in Hg. injection Hg as <- _.
  apply bind_Ok in Hx as (e & w2 & [= <- <-] & Hx). apply bind_Ok in Hx as (? & w2 & Hg & Hx). unfold guard, mlift in Hg. injection Hg as <- _.
  apply bind_Ok in Hx as (gl & w2 & Hg1%calm_Ok & Hx); [|apply calm_gas_limit].
  apply bind_Ok in Hx as (gp & w3 & Hg2%calm_Ok & Hx); [|apply calm_gas_price].
  apply bind_Ok in Hx as (fees & w4 & Hg3%calm_Ok & Hx); [|apply calm_lift].
  apply bind_Ok in Hx as (? & w5 & Hg4%calm_Ok & Hx); [|calm].
  apply bind_Ok in Hx as (h & w6 & Hsub & Hx).
  assert (Hev : evolves w1 w5) by (etrans; [exact Hg1|]; etrans; [exact Hg2|]; etrans; [exact Hg3|exact Hg4]).
  destruct (evolves_lane _ _ Hev) as (_ & _ & Hw5).
  apply submitted_hash in Hsub as (op & Hop & Hhash); [|by rewrite Hw5, Hw1].
  apply bind_Ok in Hx as (r' & w7 & Hask & Hx). unfold ask in Hask. injection Hask as <- Hask%waited.
  assert (Hans : answered h r') by (eexists; by right). destruct Hh as [_ Hh]. apply Hh in Hask. clear Hh.
  apply bind_Ok in Hx as (? & w8 & Hg5%calm_Ok & Hx); [|apply calm_lane, quiet_receipt].
  apply bind_Ok in Hx as (? & w9 & Hg6%calm_Ok & Hx); [|calm]. unfold mret in Hx. injection Hx as <- <-.
  split; rewrite Hask; [|done]. apply (journaled_keep _ (tick w6)); [by etrans|]. exists n, op. by split_and!.
Qed.

(** The outcome reports this receipt: a success, with its block and its fees. *)
Definition reports (policy : CompiledNetworkGasPolicy) (out : SwapExecutionOutcome) (r : DexReceipt) : Prop :=
  so_transaction_hash out = rc_hash (dr_receipt r) /\ rc_status (dr_receipt r) = 1 /\
  so_block_number out = rc_block (dr_receipt r) /\ so_gas_used out = dr_gas_used r /\
  so_effective_gas_price out = dr_effective_gas_price r /\ so_l1_fee out = accounted_l1_fee policy (dr_l1_fee r).

Lemma outcome_of q e r out :
  swap_outcome q e r = Ok out ->
  reports (ex_gas_policy e) out r /\
  settlement_logs_for_route r (rq_route q) = Ok (mkSettlement (so_settlement_fee out) (so_settlement_log out)) /\
  swap_deltas q (ex_wallet e) (dr_logs r) = Ok (so_token_in_spent out, so_token_out_received out).
Proof.
  unfold swap_outcome, reports. intros Ho. apply rbind_Ok in Ho as (? & Hs%ensure_Ok%Z.eqb_eq & Ho).
  apply rbind_Ok in Ho as ([spent got] & Hd%jres_Ok & Ho). apply rbind_Ok in Ho as ([fee sw] & Hl%jres_Ok & Ho).
  injection Ho as <-. by split_and!.
Qed.

(** C5. a swap that answers with an outcome is true: an attempt of the request is
    journaled under the outcome's transaction; the endpoint answered the query for that
    transaction's receipt with a success, whose block and fees the outcome carries and
    whose Transfer logs change the wallet's balances by exactly the input of the
    request and by the reported output, which is at least the minimum asked. *)
Theorem swap_outcome_true q w w' out :
  endpoint_honest -> uint 160 (l_wallet (ex_lane (w_ex w))) -> serve_swap o q w = (w', Ok out) ->
  journaled_as (rq_operation_id q +:+ ".swap")%string w' (so_transaction_hash out) /\
  exists r, answered (so_transaction_hash out) r /\ reports (ex_gas_policy (w_ex w)) out r /\
    settlement_logs_for_route r (rq_route q) = Ok (mkSettlement (so_settlement_fee out) (so_settlement_log out)) /\
    balance_delta (dr_logs r) (rq_token_in q) (ex_wallet (w_ex w)) = - rq_amount_in q /\
    balance_delta (dr_logs r) (rq_token_out q) (ex_wallet (w_ex w)) = so_token_out_received out /\
    so_token_in_spent out = rq_amount_in q /\ rq_amount_out_minimum q <= so_token_out_received out.
Proof.
  intros Hh Hu Hq. unfold serve_swap, service_error in Hq.
  destruct (execute_exact_input o q w) as [w1 [out'|e]] eqn:Hx; [|done]. injection Hq as -> ->.
  unfold execute_exact_input in Hx. pose proof (like_stable (w_ex w)) as HQ.
  apply bind_Ok in Hx as (? & w1 & Hg1%calm_Ok & Hx); [|calm].
  apply bind_Ok in Hx as (? & w2 & Hg2%calm_Ok & Hx); [|calm].
  apply bind_Ok in Hx as (e & w3 & [= <- <-] & Hx).
  apply bind_Ok in Hx as (? & w4 & Hg4%calm_Ok & Hx); [|calm]. apply bind_Ok in Hx as (? & w5 & Hg5%calm_Ok & Hx); [|calm].
  apply bind_Ok in Hx as (? & w6 & Hg6%calm_Ok & Hx); [|calm]. apply bind_Ok in Hx as (? & w7 & Hall & Hx).
  assert (Hl6 : like (w_ex w) w6) by (eapply HQ; [etrans; [exact Hg1|]; etrans; [exact Hg2|]; etrans; [exact Hg4|]; etrans; [exact Hg5|exact Hg6]|done]).
  assert (Hl7 : like (w_ex w) w7).
  { match type of Hall with ?m w6 = _ => assert (Hd : does (like (w_ex w)) anything m) end.
    - repeat case_match; [apply does_calm, calm_ret| |apply does_calm, calm_lift]. eapply does_mono; [|by apply ensure_allowance_does]. done.
    - specialize (Hd w6 Hl6). rewrite Hall in Hd. eapply HQ; [apply Hd|done]. }
  apply bind_Ok in Hx as (data & w8 & Hg8%calm_Ok & Hx); [|calm]. apply bind_Ok in Hx as (call & w9 & Hg9%calm_Ok & Hx); [|calm].
  assert (Hl9 : like (w_ex w) w9) by (eapply HQ; [etrans; [exact Hg8|exact Hg9]|done]).
  apply bind_Ok in Hx as (r & w10 & Hcall & Hx). apply bind_Ok in Hx as (e & w11 & [= <- <-] & Hx).
  unfold mlift in Hx. injection Hx as <- Ho%outcome_of.
  assert (Hu9 : uint 160 (l_wallet (ex_lane (w_ex w9)))) by (by destruct (profile_fields _ _ Hl9) as (_ & _ & -> & _)).
  assert (Hw10 : ex_wallet (w_ex w10) = ex_wallet (w_ex w) /\ ex_gas_policy (w_ex w10) = ex_gas_policy (w_ex w)).
  { match type of Hcall with execute_call _ ?b ?pu ?c ?p _ = _ => pose proof (execute_call_does (w_ex w) b pu c p Hu (plain_swap _) w9 Hl9) as Hd end.
    rewrite Hcall in Hd. destruct (em_evolves _ _ _ _ Hd) as [Hp _]. cbn [fst] in Hp.
    assert (Hp' : profile (w_ex w10) = profile (w_ex w)) by (etrans; [exact Hp|exact Hl9]). by destruct (profile_fields _ _ Hp') as (? & _ & _ & ? & _). }
  destruct Hw10 as [Hw10 Hg10].
  apply executed_receipt in Hcall; [|done|apply plain_swap|done].
  destruct Ho as (Hrep & Hset & Hd), Hcall as [Hj Hans]. rewrite Hg10 in Hrep. rewrite Hw10 in Hd.
  apply swap_deltas_exact in Hd as (? & ? & ? & ?). pose proof Hrep as (Hhash & _).
  split; [by rewrite Hhash|]. exists r. rewrite Hhash. by split_and!.
Qed.
End calls.
