(* ===== verification/ExecutorDemo.v ===== *)
(** * Concrete calls

    A V4 swap from the second currency of its pool key to the first; and an executor
    whose first broadcast is refused for its fee and whose second attempt is mined. *)
From Stdlib Require Import Lia.
From stdpp Require Import base strings numbers list option gmap.
From S2P Require Import Prelude ExecutionPlan TradeData Events Journal TextCodec PlanDemo Nonce CostAccounting Abi Calldata CalldataFacts Settlement Executor ExecutorSteps ExecutorFacts.

(** ** Calldata *)
Definition v4_request : ExactInputSwapRequest :=
  mkSwapRequest "t1-dex" (SV4 900 (mkV4Key 100 200 500 10 0)) 200 100 1000 900 None 0 2000 5000 Immediate false.

Lemma swap_calldata_exact_witness :
  exists cd, exact_input_calldata v4_request 77 = Ok cd /\ swap_call v4_request 77 cd.
Proof.
  destruct (swap_calldata_exact v4_request 77) as [Hs He]; [split_and!; vm_compute; done|vm_compute; done|done|].
  destruct He as [cd Hcd]; [vm_compute; reflexivity|vm_compute; reflexivity|].
  exists cd. split; [exact Hcd|]. exact (Hs cd Hcd).
Defined.

(** The router reads the command, the payload and the deadline. *)
Example v4_call_read : exists input,
  (let? cd := exact_input_calldata v4_request 77 in Ok (decode (TTuple [TBytes; TArray TBytes; TWord]) (drop 4 cd)))
  = Ok (Some (VTuple [VBytes [16]; VArray [VBytes input]; VWord 2000])).
Proof. eexists. vm_compute. reflexivity. Qed.

(** ** A run of the executor *)
#[local] Instance wire_text : EvmText := {
  address_from_str := read_uint 160;
  b256_from_str := read_uint 256;
  keccak256 := fun bs => be_value bs mod 2 ^ 256;
}.
#[local] Existing Instance hash_of_text.
#[local] Instance wire_keccak_laws : KeccakLaws.
Proof. constructor. intros bs. apply Z.mod_pos_bound. lia. Qed.

Definition demo_swap : ExactInputSwapRequest :=
  mkSwapRequest "t1" (SUniswapV3 900 300 500) 100 200 1000 900 None 0 2000 5000 Immediate false.

Definition transfer_log (token from to amount : Z) : ReceiptLog :=
  mkReceiptLog token [transfer_topic; from; to] (be_bytes 32 amount) None.
Definition demo_receipt (h : Z) : DexReceipt :=
  mkDexReceipt (mkReceipt h 50 1) 120000 110000 7 [transfer_log 100 77 900 1000; transfer_log 200 900 77 950].

(** The endpoint refuses what is sent before tick 10. *)
Definition demo_outside : Outside := {|
  o_receipt := fun _ h => Ok (Some (demo_receipt h));
  o_simulate := fun _ _ => Ok [];
  o_estimate_gas := fun _ _ => Ok 100000;
  o_gas_price := fun _ => Ok 1000000;
  o_native_balance := fun _ => Ok (10 ^ 18);
  o_unix_seconds := fun _ => Ok 1000;
  o_instant := fun t => Z.of_nat t;
  o_append := fun _ => mkEnv (Ok 1) None;
  o_locks := fun _ => ∅;
  o_lock_acquired := fun _ => true;
  o_sign := fun t _ _ => Ok [Z.of_nat t + 1];
  o_send := fun t raw =>
    Some (if (t <? 10)%nat then Err (JMsg "JSON-RPC error -32000: max fee per gas less than block base fee") else Ok (be_value raw));
  o_polls := fun _ h => [Ok None; Ok (Some (demo_receipt h))];
|}.

Definition demo_start : StartView :=
  mkStart (Ok 480) (Ok 5) (Ok 5) (mkRpc (fun _ => Ok None) (fun _ => Ok None)) (fun _ => []).
Definition demo_policy : CompiledNetworkGasPolicy := WorldChainV12 100000 true.
Definition demo_hydrated : JRes DexExecutor :=
  hydrate_with_gas_policy demo_start (fun _ => mkEnv (Ok 1) None) (healthy_fs []) 77 480 demo_policy.
Definition demo_executor : DexExecutor :=
  match demo_hydrated with
  | Ok e => e
  | Err _ => mkExecutor 0 (mkLane 0 0 (LReady 0) None) (mkJournal [] ∅ 0 false) None ReadOnly false false false None
  end.
Definition e0 : World := mkWorld demo_executor 0 [].
Definition e1 : World := (lock_allowance_mutations_without_preparation e0).1.
Definition e2 : World := (serve_swap demo_outside demo_swap e1).1.
Definition e3 : World := (serve_swap demo_outside demo_swap e2).1.

(** ** The run *)
Lemma e0_run : exec_run demo_outside e0.
Proof.
  unfold e0. apply (run_start demo_outside demo_start (fun _ => mkEnv (Ok 1) None) 77 480 demo_policy).
  - by split.
  - vm_compute. reflexivity.
  - vm_compute. reflexivity.
Qed.
Lemma e1_run : exec_run demo_outside e1.
Proof. eapply run_step; [exact e0_run|apply step_lock|vm_compute; reflexivity]. Qed.
Lemma e2_run : exec_run demo_outside e2.
Proof. eapply run_step; [exact e1_run|apply step_swap|vm_compute; reflexivity]. Qed.
Lemma e3_run : exec_run demo_outside e3.
Proof. eapply run_step; [exact e2_run|apply step_swap|vm_compute; reflexivity]. Qed.

Definition first_sent : Sent := mkSent "t1.swap" (mkSigned 480 5 4 [4]).
Definition second_sent : Sent := mkSent "t1.swap.retry-1" (mkSigned 480 5 11 [11]).
Example e3_wire : w_wire e3 = [second_sent; first_sent].
Proof. vm_compute. reflexivity. Qed.

Lemma exclusive_broadcasts_witness :
  w_wire e3 = [second_sent; first_sent] /\
  (rejected_op (ex_ops e3) "t1.swap.retry-1" \/ rejected_op (ex_ops e3) "t1.swap").
Proof.
  split; [exact e3_wire|]. destruct (exclusive_broadcasts demo_outside e3 e3_run) as (_ & _ & Hx).
  apply (Hx second_sent first_sent); [rewrite e3_wire; apply list_elem_of_here|rewrite e3_wire; apply list_elem_of_further, list_elem_of_here|discriminate|].
  left. reflexivity.
Defined.



Lemma swap_sends_authorized_witness : signed_call demo_outside (swap_calls demo_outside (w_ex e1) (w_tick e1) demo_swap) first_sent.
Proof.
  destruct (swap_sends_authorized demo_outside demo_swap e1) as (new & Hw & Hf); [split; vm_compute; [discriminate|reflexivity]|].
  change (serve_swap demo_outside demo_swap e1).1 with e2 in Hw.
  assert (Hn : new = [first_sent]).
  { rewrite <- (app_nil_r new). transitivity (w_wire e2); [symmetry; exact Hw|vm_compute; reflexivity]. }
  rewrite Hn in Hf. apply Forall_cons_1 in Hf as [[_ Hf] _]. exact Hf.
Defined.

Definition demo_outcome : SwapExecutionOutcome := mkOutcome 11 50 120000 110000 7 1000 950 None None.
Lemma e3_answer : serve_swap demo_outside demo_swap e2 = (e3, Ok demo_outcome).
Proof. vm_compute. reflexivity. Qed.

Lemma demo_honest : endpoint_honest demo_outside.
Proof.
  split; [by intros t h r [= <-]|]. intros t h r Hin. simpl in Hin. set_unfold in Hin. destruct Hin as [[=]|[[= ->]|[]]]. done.
Qed.

Lemma swap_outcome_true_witness :
  journaled_as "t1.swap" e3 11 /\ so_token_out_received demo_outcome = 950 /\
  exists r, answered demo_outside 11 r /\ rc_block (dr_receipt r) = 50 /\ balance_delta (dr_logs r) 200 77 = 950.
Proof.
  destruct (swap_outcome_true demo_outside demo_swap e2 e3 demo_outcome demo_honest) as (Hj & r & Ha & Hr & _ & _ & Hd & _);
    [split; vm_compute; [discriminate|reflexivity]|exact e3_answer|].
  split; [exact Hj|]. split; [reflexivity|]. exists r. split; [exact Ha|]. split; [by destruct Hr as (_ & _ & <- & _)|exact Hd].
Defined.
